(* ===== verification/_CoqProject ===== *)
-Q . S2P
Prelude.v
Text.v
Dict.v
Env.v
Contracts.v
Registry.v
RegistryFacts.v
RegistryProps.v
Eviction.v
Queue.v
Sessions.v
SessionsProps.v
Scheduler.v
Tasks.v
SchedulerFacts.v
SchedulerSwitch.v
SchedulerProps.v
TasksProps.v
Registration.v
JsonText.v
JsonTextProps.v
Identity.v
IdentityProps.v
RegistrationProps.v
RegistrationText.v
Router.v
Assets.v
AssetsProps.v
AssetsExact.v
Launch.v
LaunchProps.v
Instant.v
Blobs.v
BlobsProps.v
Idempotency.v
Envelopes.v
Protocol.v
Ports.v
Observer.v
ObserverProps.v
Recovery.v
Helper.v
Startup.v
Control.v
Lifecycle.v
Adapter.v
Config.v
ConfigProps.v
Runtime.v
Requests.v
Schema.v
SchemaProps.v
RequestsProps.v
BlobStore.v
BlobStoreProps.v
BlobRecovery.v
BlobCrash.v
BlobDemo.v
Execution.v
ExecutionProps.v
ExecutionDemo.v
Api.v
ApiProps.v
Server.v
ApiServices.v
App.v
AppProps.v
StreamProps.v
AppDemo.v
Evidence.v
Evaluator.v
Verify.v
Release.v
Runner.v
Preflight.v
Migration.v
Operational.v
Candidate.v
Backend.v
Calibrate.v
