(* ===== verification/Prelude.v ===== *)
(** * A verification library for the AGX model scheduler

    The program (the Python package [src/model_scheduler]) keeps large models
    resident on one machine with a fixed memory budget.  Clients ask for a model;
    the scheduler decides, under one lock, whether the request waits, takes a
    lease on a loaded model, starts a load, or first evicts others.  Exclusive
    sessions reserve the machine for one model; the execution service queues work
    inside a session and publishes results only with proof that the computation
    ended; registrations, request bodies, tokens and idempotency keys are checked
    before any of this, containers are launched and observed, and the model files
    are hashed before they are served.

    ** Parts, and the file that models each

    - [Prelude]: outcomes, the method monad [pym], record update, tactics.
      [Text]: Python text as UTF-8.  [Dict]: dictionaries in insertion order.
    - [Env]: what the process takes from its environment (uuid4, the decay
      factor), as classes with laws and a computable instance.
    - [Contracts]: [contracts.py] and the records and reservation arithmetic of
      [contracts_v2.py].
    - [Registry], [RegistryFacts], [RegistryProps]: the class
      [Book] of [model_registry.py], one definition per method; its invariant
      [book_wf], budgets, lifecycle diagram, operation tokens and recovery.
    - [Eviction]: [eviction_policy.py]; [choose] against "shortest prefix of the
      ranking that frees enough".
    - [Queue]: [request_queue.py]; ordering with aging, bounded overtaking.
    - [Sessions], [SessionsProps]: [session_manager.py]; the phase diagram.
    - [Scheduler]: [scheduler.py], one definition per critical section (the code
      between two awaits).  [SchedulerFacts] lists the sections and carries an
      invariant through them with the classes [BookMethod], [QueueMethod] and
      [SessionMethod]: what a part promises its users.  [SchedulerSwitch],
      [SchedulerProps] state and instantiate the guarantees.
    - [Tasks], [TasksProps]: the coroutines of [scheduler.py], each
      composed from its sections over a script of the events it waits for.
    - [Registration], [RegistrationProps]: the strict parsers of
      [contracts_v2.py] and the step from a parsed deployment to a [Book].
      [JsonText], [JsonTextProps]: [json.loads], [json.dumps] and the canonical
      bytes.  [RegistrationText]: registrations as text, and their digest.
    - [Identity], [IdentityProps]: [control_identity.py], peers and tokens.
    - [Router]: [backend_router.py], the adapter of a model's runtime.
    - [Assets], [AssetsProps], [AssetsExact]: [asset_store.py] and
      [storage_monitor.py] over a file system that changes between system calls.
    - [Launch], [LaunchProps]: [runtime_profiles.py], the container's arguments.
    - [Instant]: the start times of [process_observer.py].
    - [Ports]: the values of [ports_v3.py], and [resource_monitor.py].
    - [Observer], [ObserverProps]: [process_observer.py].
    - [Recovery]: [control_recovery.py], the reconciliation, the stop of one
      instance and the helper's client.  [Helper]: [recovery_helper.py] and
      [deploy/control-recover.py], the root process on the other side.
      [Startup]: [runtime.reconcile_startup], which composes recovery, the
      observers and the [Book].
    - [Control]: [llama_swap_contract.py] and [llama_swap_client.py].
      [Lifecycle]: [backend_control.py], loads and stops confirmed by an
      observer.  [Adapter]: [adapters/llama_cpp.py].
    - [Config], [ConfigProps]: [config.py], both schema versions.  [Runtime]: the
      composition functions of [runtime.py].
    - [Idempotency]: [idempotency.py] with its shared record objects.
    - [Envelopes]: [envelope_validator.py].
    - [Protocol], [Requests], [RequestsProps], [Schema], [SchemaProps]:
      [control_protocol_v1.py]: execution documents, fences, the error table,
      the request parsers, the idempotency fingerprint, and the exported JSON
      Schema with an executable meaning, its patterns included.
    - [Blobs], [BlobsProps]: the transactions of [blob_metadata.py].
    - [BlobStore]: [blob_store.py] over that catalogue, the staging directory and
      the published files.  [BlobStoreProps], [BlobRecovery], [BlobCrash] and
      [BlobDemo]: what recovery decides, crash safety, reads, concrete runs.
    - [Execution], [ExecutionProps], [ExecutionDemo]: [execution_service.py], one
      definition per locked section.
    - [Api], [ApiProps]: [control_api.py], every route over the services it
      calls.  [ApiServices]: those services as the modelled scheduler,
      execution service and blob store, and runs on them.  [Server]:
      the connections of [control_server.py].
    - [App], [AppProps], [StreamProps], [AppDemo]: [gateway.py] and the
      routes of [app.py], from the request body to the answer, with their leases
      and streams.
    - [Evidence]: [evidence_contracts.py], candidates and acceptance reports.
      [Evaluator]: [acceptance/evaluator.py] with the predicates of
      [backend_cases.py], [fixtures.py], [operational_cases.py] and
      [workload.py] it recomputes conclusions with.  [Operational]: the
      orchestrators of [operational_cases.py].  [Backend]: the executor of
      [backend_cases.py] and the requests of [fixtures.py] it sends.  [Calibrate]: [acceptance/calibrate.py] and the round of
      [acceptance/live.py], which measure the memory figures.  [Candidate]:
      [acceptance/candidate.py], which freezes a candidate.  [Verify]:
      [acceptance/verify.py], which composes contracts and evaluator over the
      files of an evidence directory.
    - [Preflight]: [preflight_v3.py] and, of [deploy.py], the rendering of a v3
      deployment and the preflight command.  [Release]: the switch and the
      rollback of a release in [deploy.py].  [Runner]: [model_runner.py] and the
      lab launch of [deploy/model-runner.py].  [Migration]: [migration_v2.py].

    ** Modelling conventions

    A method is a [pym S A]: a function from the state to the next state and an
    [outcome], a value or the exception that propagates; effects made before a
    raise are kept, as in Python.  Clock readings are integers, one second is
    [second] = 10^9 ticks; a section reads the clock once.  Floats that are not
    times (margin, heat, weights, JSON numbers) are rationals; the digits
    [repr] prints for one are an interface ([FloatText]), as are the SHA-256
    digest and the HMAC ([Digest], [Mac]).  A Python text is its UTF-8 bytes.  A
    dict is an association list in insertion order, since iteration order is
    visible in the code.  The n-th [uuid4().hex] of the process is [uuid4_hex n],
    assumed injective and not empty.  An asyncio task is the handle the scheduler
    keeps; its body runs as later sections.  A coroutine is a [co A] over a
    script of [Tick]s: at each await (and each entry of the lock) it takes the
    next event, which says what the other coroutines did meanwhile (an arbitrary
    function on the state), the clock, and the answer awaited.  The script is the
    fuel: a turn of a loop takes at least one event, so a loop runs for as many
    turns as the script can feed, and a run that uses the script up is
    [Suspended], a coroutine that still waits ([suspended_task_waits]).  In the
    blob store every file operation and every transaction is one effect,
    [alive] counts the effects left before the power fails, and [power_failure]
    takes away any part of what was not synced; [recovery_cost] is a
    budget that suffices for a recovery.  The JPEG scan takes the length of the
    data as fuel, and its theorem states that more fuel never changes the result;
    the JSON reader takes the length of the text, enough since every call takes a
    character; the read loop of a hash takes a number of reads, and
    [reads_suffice] says how many a disk needs.  Events and log lines carry no
    state and are left out.  The message of an error is cut to the check or code
    it stands for.  What an annotation types in Python is a type here; a call
    that breaks the annotations is not modelled.

    ** What the theorems show

    The Book (C1, C2, C3, C9, C10): well-formedness is an invariant of every
    method on every branch; neither memory budget is ever exceeded by an
    admission; models move along the lifecycle diagram only; a token is
    accepted at most once.
    The scheduler (C4, C5, C6, C34): the invariants of the parts hold in
    every interleaving of its sections; a lease is granted only when
    everything the code promises holds; sessions exclude interactive
    requests; no model stays frozen without an owner; storage loss fails
    closed.
    The coroutines (C12, C39): a waiter that leaves takes its entry and its
    intent with it, however it leaves; an eviction whose stops are proven,
    with nothing else running meanwhile, lets the load through.
    [tasks_refine_sections] and [suspended_task_waits] relate the coroutines
    to the sections they run.
    Policy (C40): the eviction choice is the shortest sufficient prefix of
    the ranking.
    Executions (C7, C8): a terminal state carries evidence that a section
    recorded under its own guards; terminals never change.
    Blobs (C11, C30, C33): an upload leaves a row only with its whole file
    behind it, whatever of the data not yet synced a power failure takes,
    recovery terminates with one verdict per row, quotas are never oversold,
    a held blob is never removed.
    Registrations (C36): the parsers accept exactly the contract, from text
    to record and back; every accepted deployment boots.
    Requests and tokens (C31, C32, C35): one creation per idempotency key; a
    token verifies exactly for what it was issued for; the exported schema,
    its patterns read as regular expressions, admits every accepted
    document.
    Storage (C37): what a positive storage answer was seen from, however the
    disk changes meanwhile, and the exact verdict of a full pass over files
    at rest.
    Recovery and startup (C13, C14): only containers of this deployment,
    inspected just before, are ever stopped; a start reports success and
    clears the book only on stop evidence for every model; the root helper
    and its client agree on what a success means.
    Backends (C15, C18): RUNNING and STOPPED are answered on an observer's
    evidence only, taken after the stop command, and the scheduler books a
    stop on nothing less; a chat is dispatched only after the runtime's own
    token count fits the envelope; a load through the control contract
    succeeds exactly on its two answers.
    Control socket (C16, C19, C20): a connection is served only for an
    allowed peer, within the bounds and at most once; every request is
    answered exactly once, with the code its exception stands for when it is
    refused; a call into the services is made only in the peer's own name,
    for what it owns; a token handed out is accepted for its session until
    it expires.
    Inference routes (C17): every lease taken is given back, unless the
    release itself was cancelled, as a success only for an answer that was
    checked; a stream forwards the upstream's chunks unchanged within its
    bound.
    Configuration (): an accepted configuration is one the rest of the
    program can run on.
    Evidence (C21, C22, C23, C24, C25): offline verification exits with 0
    exactly for evidence that is complete, bound to its candidate, byte for
    byte present, current and recomputed as passed; a candidate reads back
    as the configuration and the hashed material it was built from; a passed
    calibration measured the figures it reports on a closed site; a case
    passes while it runs exactly if it passes when it is recomputed; a run
    of a model attempts every case required of it by the calls the case is
    named after, and its passed attempts are recomputed as passed.
    Deployment (C26, C27, C28, C29): what an open production gate has
    checked; a release is switched from a proven stop only; only the
    launcher's own exit ends a launch; a migration carries the v1
    configuration over.
    Containers (C38): the launch vector is rendered exactly for launchable
    models and gives the engine one image, one read-only mount and one
    loopback port; STOPPED and RUNNING are reported exactly on their
    evidence.
    Shortcomings ([RegistryProps.cleanup_rollback_revives_error],
    [Eviction.v2_candidates_raise], [SessionsProps.session_slots_never_freed],
    [SchedulerProps.closed_while_draining_keeps_freeze],
    [TasksProps.drained_session_closed_while_busy],
    [TasksProps.preload_returns_moved_on], [Envelopes.fill_byte_hides_size],
    [ExecutionDemo.granted_lease_of_cancelled_is_kept],
    [ExecutionDemo.session_not_active_has_no_view],
    [LaunchProps.dash_image_rendered], [AssetsExact.demo_list_answer],
    [Instant.year_one_overflows], [SchemaProps.schema_counts_characters],
    [SchemaProps.ecma_refuses_accepted_image], [AppDemo.cancelled_release_leaks],
    [Calibrate.nan_row_hides_hole], [Operational.o05_raises],
    [IdentityProps.non_ascii_token], [Runtime.ports_without_observer],
    [Server.too_large_unanswered], [ApiServices.preparing_reported_queued],
    [AppDemo.huge_score_leaks], [AppDemo.split_line_end_resets],
    [Preflight.preflight_command_refuses], [Preflight.rendered_not_startable],
    [Candidate.production_single_model], [Backend.vision_first_starves_chat],
    [Backend.dotted_model_unplaced],
    [Calibrate.docker_unreachable_is_closed], [Calibrate.unready_round_passes],
    [Calibrate.missing_bound_passes], [Evidence.short_model_unreportable],
    [Release.rollback_unproven], [Runner.lab_exec_unproven] and the last section
    of [BlobDemo]): runs on which the code does not do what it is meant
    to.

    ** Not modelled

    Sockets, h11, httpx, pydantic and uvicorn, which are interfaces or left out;
    the lifespan of the applications; the v1 renderer, the systemd units and the
    command lines of [deploy.py]; [merge_runs]; the workload generator; the sampler's thread and the other drivers, collectors and
    probes of [acceptance/], which act on a live site and only record what they
    see; and the scripts.  The interpreter's limits on recursion and on the digits
    of an integer literal are not modelled.  In the acceptance files a float that
    is not finite is one value, which no comparison orders or equates, and files
    do not change while they are read. *)

From stdpp Require Export base decidable list strings relations sorting.
From Stdlib Require Export ZArith Lia.


(** ** Python outcomes: a value, or an exception that propagates

    One constructor per exception class the modelled code raises; the argument
    is the code or message the source passes to the constructor. *)
Inductive exn : Type :=
| KeyError (key : string)
| ValueError (msg : string)
| OverflowError (msg : string)
| TimeoutError (msg : string)
| AttributeError (name : string)
| TypeError (msg : string)
| IndexError (msg : string)
| Conflict (msg : string)
| StaleOperation (msg : string)
| QueueFull (msg : string)
| ModelUnavailable (msg : string)
| SessionConflict (msg : string)
| SessionNotFound (msg : string)
| ContractError (msg : string)
| IdentityError (code : string)
| IdempotencyError (code : string)
| ExecutionError (code : string)
| EnvelopeError (code : string)
| QuotaExceeded (msg : string)
| BackendRouterError (msg : string)
| LaunchRenderError (msg : string)
| ObservationError (msg : string)
| SubprocessError (msg : string)
| AssetFault (reason : string)
| AssetTimeout (reason : string)
| UnicodeDecodeError (msg : string)
| LlamaSwapError (msg : string)
| LlamaSwapProtocolError (msg : string)
| FixtureError (msg : string)
| HTTPError (msg : string)
| AdapterError (code : string)
| RuntimeCompositionError (msg : string)
| DeployError (msg : string)
| ConfigError (msg : string)
| MigrationError (msg : string)
| MissingInventory (missing conflicts : list string)
| RunnerError (msg : string)
| PreflightError (msg : string) (exit_code : Z)
| EvaluatorError (msg : string)
| CalibrationError (msg : string) (semantic : bool)
| LiveError (msg : string) (semantic : bool)
| CandidateError (msg : string)
| VerifyError (msg : string) (exit_code : Z)
| Refused (code : string)
| ControlServerError (msg : string)
| GatewayError (http_status : Z) (code : string) (aborted : bool) (retry_after : option Z)
| BodyError (http_status : Z) (code : string)
| RuntimeError (msg : string)
| InstanceLocked (msg : string)
| EvidenceError (msg : string)
| CancelledError
| BlobStoreError (code : string)
| OSError (msg : string)
| PowerLoss.

#[export] Instance exn_eq_dec : EqDecision exn.
Proof. solve_decision. Defined.

Inductive outcome (A : Type) : Type :=
| Ret (a : A)
| Raise (e : exn).
Arguments Ret {_} _.
Arguments Raise {_} _.

#[export] Instance outcome_eq_dec `{EqDecision A} : EqDecision (outcome A).
Proof. solve_decision. Defined.

#[export] Instance outcome_ret : MRet outcome := fun A a => Ret a.
#[export] Instance outcome_bind : MBind outcome :=
  fun A B f m => match m with Ret a => f a | Raise e => Raise e end.

#[export] Instance outcome_fmap : FMap outcome :=
  fun A B f m => match m with Ret a => Ret (f a) | Raise e => Raise e end.

(** [d[k]] of a Python dict: a missing key is an exception. *)
Definition of_option {A} (e : exn) (o : option A) : outcome A :=
  match o with Some a => Ret a | None => Raise e end.

(** [if b: raise e]. *)
Definition raise_if (b : bool) (e : exn) : outcome unit :=
  if b then Raise e else Ret tt.

(** ** Python methods: a state transformer that keeps its effects on a raise *)
Definition pym (S A : Type) : Type := S → S * outcome A.

#[export] Instance pym_ret {S} : MRet (pym S) := fun A a s => (s, Ret a).
#[export] Instance pym_bind {S} : MBind (pym S) :=
  fun A B f m s =>
    match m s with
    | (s', Ret a) => f a s'
    | (s', Raise e) => (s', Raise e)
    end.

Definition get {S} : pym S S := fun s => (s, Ret s).
Definition modify {S} (f : S → S) : pym S unit := fun s => (f s, Ret tt).
Definition raise {S A} (e : exn) : pym S A := fun s => (s, Raise e).
Definition lift {S A} (o : outcome A) : pym S A := fun s => (s, o).

(** [try: m  except <handled>: h]; the state reached by [m] is kept. *)
Definition catch {S A} (m : pym S A) (h : exn → option (pym S A)) : pym S A :=
  fun s =>
    match m s with
    | (s', Raise e) => match h e with Some k => k s' | None => (s', Raise e) end
    | r => r
    end.

(** A method of a component called on the field that holds the component. *)
Definition on_field {S T A} (proj : S → T) (put : T → S → S) (m : pym T A) : pym S A :=
  fun s => let (t, o) := m (proj s) in (put t s, o).

(** [for x in xs: body(x)]. *)
Fixpoint for_each {S A} (xs : list A) (body : A → pym S unit) : pym S unit :=
  match xs with
  | [] => mret tt
  | x :: xs => body x ;; for_each xs body
  end.

(** [result = []; for x in xs: result.append(body(x))]. *)
Fixpoint map_each {S A B} (xs : list A) (body : A → pym S B) : pym S (list B) :=
  match xs with
  | [] => mret []
  | x :: xs => y ← body x; ys ← map_each xs body; mret (y :: ys)
  end.

(** [for x in xs: check(x)], a loop that only tests and may raise. *)
Fixpoint check_each {A} (xs : list A) (check : A → outcome unit) : outcome unit :=
  match xs with
  | [] => Ret tt
  | x :: xs => _ ← check x; check_each xs check
  end.

Definition state_of {S A} (r : S * outcome A) : S := r.1.
Definition result_of {S A} (r : S * outcome A) : outcome A := r.2.

(** The outcome of running a method, split into its two possible shapes. *)
Definition returns {S A} (m : pym S A) (s : S) (a : A) (s' : S) : Prop := m s = (s', Ret a).
Definition raises {S A} (m : pym S A) (s : S) (e : exn) (s' : S) : Prop := m s = (s', Raise e).

Lemma bind_returns {S A B} (m : pym S A) (k : A → pym S B) s b s' :
  (m ≫= k) s = (s', Ret b) ↔ ∃ a s1, m s = (s1, Ret a) ∧ k a s1 = (s', Ret b).
Proof.
  unfold mbind, pym_bind. split.
  - destruct (m s) as [s1 [a|e]]; naive_solver.
  - intros (a & s1 & -> & ?); done.
Qed.

Lemma bind_raises {S A B} (m : pym S A) (k : A → pym S B) s e s' :
  (m ≫= k) s = (s', Raise e) ↔
  m s = (s', Raise e) ∨ ∃ a s1, m s = (s1, Ret a) ∧ k a s1 = (s', Raise e).
Proof.
  unfold mbind, pym_bind. split.
  - destruct (m s) as [s1 [a|e']]; naive_solver.
  - intros [->|(a & s1 & -> & ?)]; done.
Qed.

(** A predicate kept by a method, whatever its outcome. *)
Definition preserves {S A} (I : S → Prop) (m : pym S A) : Prop := ∀ s, I s → I (m s).1.

Lemma preserves_bind {S A B} (I : S → Prop) (m : pym S A) (k : A → pym S B) :
  preserves I m → (∀ a, preserves I (k a)) → preserves I (m ≫= k).
Proof.
  intros Hm Hk s Hs. unfold mbind, pym_bind. specialize (Hm s Hs).
  destruct (m s) as [s1 [a|e]]; simpl in *; [by apply Hk|done].
Qed.

Lemma preserves_ret {S A} (I : S → Prop) (a : A) : preserves I (mret a : pym S A).
Proof. by intros s. Qed.

Lemma preserves_raise {S A} (I : S → Prop) e : preserves I (raise e : pym S A).
Proof. by intros s. Qed.

Lemma preserves_lift {S A} (I : S → Prop) (o : outcome A) : preserves I (lift o).
Proof. by intros s. Qed.

Lemma preserves_get {S} (I : S → Prop) : preserves I get.
Proof. by intros s. Qed.

Lemma preserves_modify {S} (I : S → Prop) (f : S → S) :
  (∀ s, I s → I (f s)) → preserves I (modify f).
Proof. intros Hf s Hs. by apply Hf. Qed.

Lemma preserves_catch {S A} (I : S → Prop) (m : pym S A) h :
  preserves I m → (∀ e k, h e = Some k → preserves I k) → preserves I (catch m h).
Proof.
  intros Hm Hh s Hs. specialize (Hm s Hs). unfold catch.
  destruct (m s) as [s1 [a|e]]; simpl in *; [done|].
  destruct (h e) eqn:E; [by eapply Hh|done].
Qed.

Lemma preserves_for_each {S A} (I : S → Prop) (xs : list A) body :
  (∀ x, preserves I (body x)) → preserves I (for_each (S:=S) xs body).
Proof.
  intros Hb. induction xs as [|x xs IH]; simpl; [apply preserves_ret|].
  apply preserves_bind; [apply Hb|intros _; apply IH].
Qed.

Lemma preserves_for_each_in {S A} (I : S → Prop) (xs : list A) body :
  (∀ x, x ∈ xs → preserves I (body x)) → preserves I (for_each (S:=S) xs body).
Proof.
  induction xs as [|x xs IH]; intros Hb; simpl; [apply preserves_ret|].
  apply preserves_bind; [apply Hb; constructor|intros _]. apply IH. intros; apply Hb; by constructor.
Qed.

Lemma preserves_map_each_in {S A B} (I : S → Prop) (xs : list A) (body : A → pym S B) :
  (∀ x, x ∈ xs → preserves I (body x)) → preserves I (map_each xs body).
Proof.
  induction xs as [|x xs IH]; intros Hb; simpl; [apply preserves_ret|].
  apply preserves_bind; [apply Hb; constructor|intros y].
  apply preserves_bind; [apply IH; intros; apply Hb; by constructor|intros ys; apply preserves_ret].
Qed.

Lemma preserves_map_each {S A B} (I : S → Prop) (xs : list A) (body : A → pym S B) :
  (∀ x, preserves I (body x)) → preserves I (map_each xs body).
Proof.
  intros Hb. induction xs as [|x xs IH]; simpl; [apply preserves_ret|].
  apply preserves_bind; [apply Hb|intros y]. apply preserves_bind; [apply IH|intros ys].
  apply preserves_ret.
Qed.

(** The turn of one element of a loop that returned. *)
Lemma map_each_split {S A B} (body : A → pym S B) xs x s s' ys :
  map_each xs body s = (s', Ret ys) → x ∈ xs →
  ∃ xs1 xs2 s2 y, xs = xs1 ++ x :: xs2 ∧ body x (map_each xs1 body s).1 = (s2, Ret y) ∧ (map_each xs2 body s2).1 = s'.
Proof.
  revert s s' ys. induction xs as [|z xs IH]; intros s s' ys; simpl; [by intros _ ?%not_elem_of_nil|].
  unfold mbind, pym_bind. destruct (body z s) as [s1 [b|e]] eqn:Eb; [|done].
  destruct (map_each xs body s1) as [s2 [bs|e]] eqn:Er; [|done]. intros [= <- <-] [->|Hx]%elem_of_cons.
  - exists [], xs, s1, b. simpl. by rewrite Eb, Er.
  - destruct (IH s1 s2 bs Er Hx) as (xs1 & xs2 & s3 & y & -> & Hb & Hr). exists (z :: xs1), xs2, s3, y. simpl.
    unfold mbind, pym_bind. rewrite Eb. destruct (map_each xs1 body s1) as [s4 [cs|e]]; done.
Qed.

Lemma check_each_ret {A} (xs : list A) check :
  check_each xs check = Ret tt ↔ ∀ x, x ∈ xs → check x = Ret tt.
Proof.
  induction xs as [|x xs IH]; simpl.
  - split; [by intros _ x ?%not_elem_of_nil|done].
  - unfold mbind, outcome_bind. setoid_rewrite elem_of_cons.
    destruct (check x) as [[]|e] eqn:E.
    + rewrite IH. split; [intros H y [->|Hy]; auto|auto].
    + split; [done|]. intros H. rewrite <-E. auto.
Qed.

Lemma preserves_on_field {S T A} (I : S → Prop) (J : T → Prop) proj put (m : pym T A) :
  (∀ s, I s → J (proj s)) → (∀ s t, I s → J t → I (put t s)) →
  preserves J m → preserves I (on_field proj put m).
Proof.
  intros HJ HI Hm s Hs. unfold on_field. specialize (Hm (proj s) (HJ s Hs)).
  destruct (m (proj s)) as [t o]; simpl in *. by apply HI.
Qed.

(** The predicates of these combinators compose by [eauto with pym]. *)
Create HintDb pym.
#[export] Hint Resolve preserves_bind preserves_ret preserves_raise preserves_lift
  preserves_get preserves_catch preserves_for_each preserves_map_each : pym.

(** ** Record update

    [r <| f := v |>] and [r <| f ::= g |>]: a record type declares the
    expansion of its values once, as an instance of [Eta]; the update of one
    field is then found by abstracting that expansion over the projection. *)
Class Eta (R : Type) : Type := eta : R → R.
Class Update {R F : Type} (f : R → F) : Type := update : (F → F) → R → R.
Arguments update {R F} f {_} g r /.
#[global] Typeclasses Opaque Eta Update.

Ltac solve_update :=
  lazymatch goal with
  | |- @Update ?R ?F ?f =>
      let e := constr:(_ : Eta R) in
      let e := eval red in e in
      let e := eval pattern f in e in
      lazymatch e with
      | ?k _ =>
          let t := constr:(fun (g : F → F) (r : R) => k (fun r' : R => g (f r')) r) in
          let t := eval cbv beta in t in
          exact t
      end
  end.

#[export] Hint Extern 1 (Update _) => solve_update : typeclass_instances.

Declare Scope record_scope.
Delimit Scope record_scope with rec.
Notation "r <| f := v |>" := (update f (fun _ => v) r)
  (at level 1, f at next level, v at level 200, left associativity,
   format "r <| f  :=  v |>") : record_scope.
Notation "r <| f ::= g |>" := (update f g r)
  (at level 1, f at next level, g at level 200, left associativity,
   format "r <| f  ::=  g |>") : record_scope.
Open Scope record_scope.

(** ** Tactics of the development *)

(** Unfold the monad and evaluate one method call in a hypothesis or the goal. *)
Ltac run_unfold := unfold returns, raises, state_of, result_of, mbind, mret, pym_bind, pym_ret,
  outcome_bind, outcome_ret, get, modify, raise, lift, of_option, raise_if in *;
  cbv beta iota in *.

(** Split every conditional, then simplify the resulting equations. *)
Ltac run := run_unfold; repeat (case_match; simplify_eq/=; try done).

(** Close boolean side conditions: turn boolean tests into propositions first. *)
Ltac bool_prop :=
  repeat match goal with
  | H : negb _ = true |- _ => apply negb_true_iff in H
  | H : negb _ = false |- _ => apply negb_false_iff in H
  | H : andb _ _ = true |- _ => apply andb_true_iff in H; destruct H
  | H : orb _ _ = false |- _ => apply orb_false_iff in H; destruct H
  | H : andb _ _ = false |- _ => apply andb_false_iff in H
  | H : orb _ _ = true |- _ => apply orb_true_iff in H
  | H : bool_decide _ = true |- _ => apply bool_decide_eq_true in H
  | H : bool_decide _ = false |- _ => apply bool_decide_eq_false in H
  | H : (_ <=? _)%Z = true |- _ => apply Z.leb_le in H
  | H : (_ <=? _)%Z = false |- _ => apply Z.leb_gt in H
  | H : (_ <? _)%Z = true |- _ => apply Z.ltb_lt in H
  | H : (_ <? _)%Z = false |- _ => apply Z.ltb_ge in H
  | H : (_ =? _)%Z = true |- _ => apply Z.eqb_eq in H
  | H : (_ =? _)%Z = false |- _ => apply Z.eqb_neq in H
  end.
