(* ===== verification/Text.v ===== *)
(** * Text

    A Python [str] is modelled by its UTF-8 encoding, one [ascii] per byte; a
    [bytes] object by its bytes.  A lone surrogate, which UTF-8 does not encode,
    takes the three bytes its number would take. *)

From S2P Require Import Prelude.
From Stdlib Require Import Ascii.
Local Open Scope Z_scope.

Definition chars : string → list ascii := String.list_ascii_of_string.
Definition code (c : ascii) : Z := Z.of_nat (nat_of_ascii c).
Definition byte (n : Z) : ascii := ascii_of_nat (Z.to_nat n).

Lemma code_byte n : 0 ≤ n < 256 → code (byte n) = n.
Proof. intros Hn. unfold code, byte. rewrite nat_ascii_embedding; lia. Qed.
Lemma code_range c : 0 ≤ code c < 256.
Proof. unfold code. pose proof (nat_ascii_bounded c). lia. Qed.
Lemma byte_code c : byte (code c) = c.
Proof. unfold byte, code. rewrite Nat2Z.id. apply ascii_nat_embedding. Qed.
Lemma code_inj c d : code c = code d → c = d.
Proof. intros E. by rewrite <-(byte_code c), <-(byte_code d), E. Qed.

(** ** Concatenation *)
Lemma append_assoc (a b c : string) : (a +:+ b) +:+ c = a +:+ (b +:+ c).
Proof. induction a as [|x a IH]; [done|]. change (String x ((a +:+ b) +:+ c) = String x (a +:+ (b +:+ c))). by rewrite IH. Qed.
Lemma append_nil_r (a : string) : a +:+ "" = a.
Proof. induction a as [|x a IH]; [done|]. change (String x (a +:+ "") = String x a). by rewrite IH. Qed.
Lemma substring_all (a : string) : String.substring 0 (String.length a) a = a.
Proof. induction a as [|x a IH]; simpl; [done|]. by rewrite IH. Qed.
Lemma append_length (a b : string) : String.length (a +:+ b) = (String.length a + String.length b)%nat.
Proof. induction a as [|x a IH]; [done|]. change (S (String.length (a +:+ b)) = S (String.length a + String.length b)). by rewrite IH. Qed.

Lemma substring_length a n m : String.length (String.substring n m a) = Nat.min m (String.length a - n).
Proof.
  revert n m. induction a as [|c a IH]; intros [|n] [|m]; cbn [String.substring String.length]; try done; try lia; rewrite IH; lia.
Qed.
Lemma substring_split a n m : String.substring 0 n a +:+ String.substring n m a = String.substring 0 (n + m) a.
Proof.
  revert n m. induction a as [|c a IH]; intros [|n] m; try done; cbn [Nat.add]; try by destruct m.
  change (String c (String.substring 0 n a +:+ String.substring n m a) = String c (String.substring 0 (n + m) a)). by rewrite IH.
Qed.
Lemma substring_full a n : (String.length a ≤ n)%nat → String.substring 0 n a = a.
Proof. revert n. induction a as [|c a IH]; intros [|n] Hn; cbn in *; try done; [lia|]. rewrite IH by lia. done. Qed.
Lemma length_nil a : String.length a = 0%nat → a = "".
Proof. by destruct a. Qed.

Fixpoint concat_text (l : list string) : string := match l with [] => "" | a :: l => a +:+ concat_text l end.

(** ** UTF-8 *)
Definition utf8 (cp : Z) : string :=
  if cp <? 128 then String (byte cp) ""
  else if cp <? 2048 then String (byte (192 + cp / 64)) (String (byte (128 + cp mod 64)) "")
  else if cp <? 65536
  then String (byte (224 + cp / 4096)) (String (byte (128 + cp / 64 mod 64)) (String (byte (128 + cp mod 64)) ""))
  else String (byte (240 + cp / 262144)) (String (byte (128 + cp / 4096 mod 64))
         (String (byte (128 + cp / 64 mod 64)) (String (byte (128 + cp mod 64)) ""))).

(** The code points of a text; a sequence cut short, which no text ends with,
    counts as one. *)
Fixpoint codepoints (s : string) : list Z :=
  match s with
  | EmptyString => []
  | String a s1 =>
      if code a <? 128 then code a :: codepoints s1
      else match s1 with
           | EmptyString => [code a]
           | String b s2 =>
               if code a <? 224 then ((code a - 192) * 64 + (code b - 128)) :: codepoints s2
               else match s2 with
                    | EmptyString => [code a]
                    | String c s3 =>
                        if code a <? 240
                        then ((code a - 224) * 4096 + (code b - 128) * 64 + (code c - 128)) :: codepoints s3
                        else match s3 with
                             | EmptyString => [code a]
                             | String d s4 =>
                                 ((code a - 240) * 262144 + (code b - 128) * 4096 + (code c - 128) * 64 + (code d - 128))
                                 :: codepoints s4
                             end
                    end
           end
  end.

Lemma codepoints_utf8 cp s : 0 ≤ cp < 1114112 → codepoints (utf8 cp +:+ s) = cp :: codepoints s.
Proof.
  intros Hcp. unfold utf8.
  destruct (cp <? 128) eqn:E1; [|destruct (cp <? 2048) eqn:E2; [|destruct (cp <? 65536) eqn:E3]]; bool_prop; simpl;
    rewrite ?code_byte by (Z.div_mod_to_equations; lia).
  - by rewrite (proj2 (Z.ltb_lt cp 128)).
  - rewrite (proj2 (Z.ltb_ge (192 + cp / 64) 128)), (proj2 (Z.ltb_lt (192 + cp / 64) 224)) by (Z.div_mod_to_equations; lia).
    f_equal. Z.div_mod_to_equations; lia.
  - rewrite (proj2 (Z.ltb_ge (224 + cp / 4096) 128)), (proj2 (Z.ltb_ge (224 + cp / 4096) 224)),
      (proj2 (Z.ltb_lt (224 + cp / 4096) 240)) by (Z.div_mod_to_equations; lia).
    f_equal. Z.div_mod_to_equations; lia.
  - rewrite (proj2 (Z.ltb_ge (240 + cp / 262144) 128)), (proj2 (Z.ltb_ge (240 + cp / 262144) 224)),
      (proj2 (Z.ltb_ge (240 + cp / 262144) 240)) by (Z.div_mod_to_equations; lia).
    f_equal. Z.div_mod_to_equations; lia.
Qed.

Definition is_surrogate (cp : Z) : bool := (55296 <=? cp) && (cp <=? 57343).
(** [value.encode("utf-8")] raises for a lone surrogate only. *)
Definition encodable (s : string) : bool := negb (existsb is_surrogate (codepoints s)).

(** [data.decode("utf-8")] accepts exactly the shortest forms of code points
    that are not surrogates. *)
Definition utf8_valid (data : string) : bool :=
  String.eqb (concat_text (utf8 <$> codepoints data)) data
  && forallb (fun cp => (0 <=? cp) && (cp <? 1114112) && negb (is_surrogate cp)) (codepoints data).

(** ** White space, on code points *)

(** [\s] *)
Definition is_space (cp : Z) : bool :=
  ((9 <=? cp) && (cp <=? 13)) || ((28 <=? cp) && (cp <=? 32)) || ((8192 <=? cp) && (cp <=? 8202))
  || bool_decide (cp ∈ [133; 160; 5760; 8232; 8233; 8239; 8287; 12288]).
(** [s.strip()], on code points *)
Fixpoint lstrip (l : list Z) : list Z :=
  match l with c :: l' => if is_space c then lstrip l' else l | [] => [] end.
Definition strip (l : list Z) : list Z := rev (lstrip (rev (lstrip l))).

(** [s.splitlines()] *)
Definition line_break (cp : Z) : bool := bool_decide (cp ∈ [10; 11; 12; 13; 28; 29; 30; 133; 8232; 8233]).
Fixpoint split_lines (l : list Z) : list (list Z) :=
  match l with
  | [] => []
  | c :: l =>
      if line_break c then
        [] :: match l with
              | d :: l' => if (c =? 13) && (d =? 10) then split_lines l' else split_lines l
              | [] => []
              end
      else match split_lines l with [] => [[c]] | w :: ws => (c :: w) :: ws end
  end.

(** ** ASCII texts *)
Definition text_of (l : list ascii) : string := String.string_of_list_ascii l.
(** [s.encode("ascii")] is defined. *)
Definition is_ascii (s : string) : bool := forallb (fun c => code c <? 128) (chars s).
Lemma utf8_ascii n : n < 128 → utf8 n = String (byte n) "".
Proof. intros Hn. unfold utf8. by rewrite (proj2 (Z.ltb_lt n 128)). Qed.
Lemma chars_app a b : chars (a +:+ b) = chars a ++ chars b.
Proof. induction a as [|c a IH]; [done|]. change (c :: chars (a +:+ b) = c :: chars a ++ chars b). by rewrite IH. Qed.
Lemma is_ascii_app a b : is_ascii (a +:+ b) = is_ascii a && is_ascii b.
Proof. unfold is_ascii. rewrite chars_app. apply forallb_app. Qed.
Lemma text_of_chars s : text_of (chars s) = s.
Proof. apply String.string_of_list_ascii_of_string. Qed.
Lemma chars_text_of l : chars (text_of l) = l.
Proof. apply String.list_ascii_of_string_of_list_ascii. Qed.
Lemma is_ascii_concat l : Forall (fun s => is_ascii s = true) l → is_ascii (concat_text l) = true.
Proof. induction 1 as [|s l Hs Hl IH]; [done|]. simpl. by rewrite is_ascii_app, Hs, IH. Qed.

Lemma ascii_codepoints s : is_ascii s = true → codepoints s = map code (chars s).
Proof.
  unfold is_ascii. induction s as [|c s IH]; intros Hs; [done|]. cbn [chars String.list_ascii_of_string forallb] in Hs.
  apply andb_true_iff in Hs as [Hc Hs]. cbn [codepoints]. rewrite Hc. by rewrite IH.
Qed.
Lemma ascii_utf8_valid s : is_ascii s = true → utf8_valid s = true.
Proof.
  intros Hs. unfold utf8_valid. rewrite ascii_codepoints by done. unfold is_ascii in Hs. apply andb_true_iff. split.
  - apply String.eqb_eq. induction s as [|c s IH]; [done|]. cbn [chars String.list_ascii_of_string forallb] in Hs.
    apply andb_true_iff in Hs as [Hc Hs]. change (concat_text (utf8 <$> map code (chars (String c s)))) with
      (utf8 (code c) +:+ concat_text (utf8 <$> map code (chars s))). rewrite IH by done. apply Z.ltb_lt in Hc. rewrite utf8_ascii by done.
    by rewrite byte_code.
  - rewrite forallb_forall in *. intros cp (c & <- & Hc)%in_map_iff. specialize (Hs c Hc). pose proof (code_range c).
    apply Z.ltb_lt in Hs. unfold is_surrogate. rewrite (proj2 (Z.leb_le 0 (code c))), (proj2 (Z.ltb_lt (code c) 1114112)), (proj2 (Z.leb_gt 55296 (code c))) by lia.
    done.
Qed.
