(* ===== verification/Dict.v ===== *)
(** * Python dictionaries

    A [dict K V] keeps its entries in insertion order, as Python's [dict] does:
    assigning an existing key replaces the value in place, a new key goes to the
    end, iteration follows the entries.  The file gives the lookup/update laws,
    the key bookkeeping, sums over the values and the order-preserving map. *)

From S2P Require Import Prelude.
Local Open Scope Z_scope.

Record dict (K V : Type) := Dict { entries : list (K * V) }.
Arguments Dict {_ _} _.
Arguments entries {_ _} _.

Section dict.
Context {K V : Type} `{EqDecision K}.
Implicit Types (d : dict K V) (k : K) (v : V).

(** [d.get(k)] *)
Fixpoint assoc k (l : list (K * V)) : option V :=
  match l with
  | [] => None
  | (k', v) :: l => if decide (k = k') then Some v else assoc k l
  end.
(** [d[k] = v] *)
Fixpoint assoc_set k v (l : list (K * V)) : list (K * V) :=
  match l with
  | [] => [(k, v)]
  | (k', v') :: l => if decide (k = k') then (k', v) :: l else (k', v') :: assoc_set k v l
  end.
(** [d.pop(k, None)] *)
Definition assoc_del k (l : list (K * V)) : list (K * V) :=
  filter (fun kv => kv.1 ≠ k) l.

#[export] Instance dict_lookup : Lookup K V (dict K V) := fun k d => assoc k (entries d).
#[export] Instance dict_insert : Insert K V (dict K V) := fun k v d => Dict (assoc_set k v (entries d)).
#[export] Instance dict_delete : Delete K (dict K V) := fun k d => Dict (assoc_del k (entries d)).
#[export] Instance dict_empty : Empty (dict K V) := Dict [].

Definition keys d : list K := (entries d).*1.
Definition values d : list V := (entries d).*2.
Definition dlen d : Z := Z.of_nat (length (entries d)).
Definition mem k d : bool := match d !! k with Some _ => true | None => false end.
(** [any(p(k, v) for k, v in d.items())] *)
Definition dany (p : K → V → bool) d : bool := existsb (fun kv => p kv.1 kv.2) (entries d).
(** [sum(f(k, v) for k, v in d.items())] *)
Definition dsum (f : K → V → Z) d : Z := foldr (fun kv n => f kv.1 kv.2 + n) 0 (entries d).
Definition dict_nodup d : Prop := NoDup (keys d).

(** *** Lookup after an update *)
Lemma dict_lookup_empty k : (∅ : dict K V) !! k = None.
Proof. done. Qed.

Lemma dict_lookup_insert d k k' v :
  (<[k:=v]> d : dict K V) !! k' = if decide (k = k') then Some v else d !! k'.
Proof.
  destruct d as [l]. unfold lookup, insert, dict_lookup, dict_insert; simpl.
  induction l as [|[a w] l IH]; simpl; [by repeat case_decide; simplify_eq|].
  repeat (case_decide; simplify_eq/=; try done).
Qed.

Lemma dict_lookup_insert_eq d k v : (<[k:=v]> d : dict K V) !! k = Some v.
Proof. rewrite dict_lookup_insert. by case_decide. Qed.

Lemma dict_lookup_insert_ne d k k' v : k ≠ k' → (<[k:=v]> d : dict K V) !! k' = d !! k'.
Proof. intros. rewrite dict_lookup_insert. by case_decide. Qed.

Lemma dict_lookup_delete d k k' :
  (delete k d : dict K V) !! k' = if decide (k = k') then None else d !! k'.
Proof.
  destruct d as [l]. unfold lookup, delete, dict_lookup, dict_delete, assoc_del; simpl.
  induction l as [|[a w] l IH]; simpl; [by case_decide|].
  rewrite filter_cons; simpl. repeat (case_decide; simplify_eq/=; try done).
Qed.

Lemma dict_lookup_delete_eq d k : (delete k d : dict K V) !! k = None.
Proof. rewrite dict_lookup_delete. by case_decide. Qed.

Lemma dict_lookup_delete_ne d k k' : k ≠ k' → (delete k d : dict K V) !! k' = d !! k'.
Proof. intros. rewrite dict_lookup_delete. by case_decide. Qed.

Lemma dict_insert_insert d k v w : <[k:=v]> (<[k:=w]> d) = <[k:=v]> d.
Proof.
  destruct d as [l]. unfold insert, dict_insert; simpl. f_equal.
  induction l as [|[a u] l IH]; simpl; [by rewrite decide_True|].
  case_decide as Hk; simpl; [by rewrite decide_True|rewrite decide_False by done; by f_equal].
Qed.

Lemma dict_insert_id d k v : d !! k = Some v → <[k:=v]> d = d.
Proof.
  destruct d as [l]. unfold lookup, dict_lookup, insert, dict_insert; simpl. intros Hl. f_equal.
  revert Hl. induction l as [|[a u] l IH]; simpl; [done|].
  case_decide; intros; simplify_eq; [done|f_equal; auto].
Qed.

Lemma dict_delete_insert d k v : d !! k = None → delete k (<[k:=v]> d) = d.
Proof.
  destruct d as [l]. unfold lookup, dict_lookup, insert, dict_insert, delete, dict_delete, assoc_del; simpl.
  intros Hl. f_equal. revert Hl. induction l as [|[a u] l IH]; simpl; intros Hl.
  - rewrite filter_cons_False; [done|]. simpl. by intros [].
  - case_decide; [done|]. rewrite filter_cons_True by (simpl; congruence). f_equal. auto.
Qed.

(** *** Keys *)
Lemma elem_of_keys d k : k ∈ keys d ↔ is_Some (d !! k).
Proof.
  destruct d as [l]. unfold keys, lookup, dict_lookup; simpl.
  induction l as [|[a w] l IH]; simpl.
  - rewrite elem_of_nil. split; [done|by intros [? ?]].
  - rewrite elem_of_cons, IH. case_decide; naive_solver.
Qed.

Lemma keys_insert d k v :
  keys (<[k:=v]> d) = if decide (k ∈ keys d) then keys d else keys d ++ [k].
Proof.
  destruct d as [l]. unfold keys, insert, dict_insert; simpl.
  induction l as [|[a w] l IH]; [done|].
  csimpl. destruct (decide (k = a)) as [->|Hne]; csimpl.
  - rewrite decide_True; [done|apply list_elem_of_here].
  - rewrite IH. case_decide as H1; case_decide as H2; try done; exfalso;
      rewrite elem_of_cons in H2; naive_solver.
Qed.

Lemma keys_insert_Some d k v w : d !! k = Some w → keys (<[k:=v]> d) = keys d.
Proof. intros H. rewrite keys_insert, decide_True; [done|]. apply elem_of_keys. eauto. Qed.

Lemma keys_delete d k : keys (delete k d) = filter (fun a => a ≠ k) (keys d).
Proof.
  destruct d as [l]. unfold keys, delete, dict_delete, assoc_del; simpl.
  induction l as [|[a w] l IH]; [done|].
  csimpl. rewrite !filter_cons. csimpl. case_decide; csimpl; by rewrite IH.
Qed.

Lemma dict_nodup_empty : dict_nodup ∅.
Proof. constructor. Qed.

Lemma dict_nodup_insert d k v : dict_nodup d → dict_nodup (<[k:=v]> d).
Proof.
  unfold dict_nodup. rewrite keys_insert. intros H. case_decide as Hk; [done|].
  apply NoDup_app. split_and!; [done| |apply NoDup_singleton].
  intros x Hx ->%list_elem_of_singleton. done.
Qed.

Lemma dict_nodup_delete d k : dict_nodup d → dict_nodup (delete k d).
Proof. unfold dict_nodup. rewrite keys_delete. apply NoDup_filter. Qed.

(** *** Entries and lookups agree when the keys are distinct *)
Lemma lookup_entries d k v : d !! k = Some v → (k, v) ∈ entries d.
Proof.
  destruct d as [l]. unfold lookup, dict_lookup; simpl.
  induction l as [|[a w] l IH]; simpl; [done|].
  case_decide; intros; simplify_eq; [apply list_elem_of_here|apply list_elem_of_further; auto].
Qed.

Lemma entries_lookup d k v : dict_nodup d → (k, v) ∈ entries d → d !! k = Some v.
Proof.
  destruct d as [l]. unfold dict_nodup, keys, lookup, dict_lookup; simpl.
  induction l as [|[a w] l IH]; simpl; [by intros _ ?%not_elem_of_nil|].
  rewrite NoDup_cons, elem_of_cons. intros [Hna Hnd] [?|Hin]; simplify_eq.
  - by rewrite decide_True.
  - rewrite decide_False; [by apply IH|]. intros ->.
    apply Hna, list_elem_of_fmap. by exists (a, v).
Qed.

Lemma elem_of_values d v : v ∈ values d → ∃ k, (k, v) ∈ entries d.
Proof. unfold values. intros ([k w] & -> & ?)%list_elem_of_fmap. by exists k. Qed.

Lemma dany_true p d : dict_nodup d →
  dany p d = true ↔ ∃ k v, d !! k = Some v ∧ p k v = true.
Proof.
  intros Hd. unfold dany. rewrite existsb_exists. split.
  - intros ([k v] & Hin & Hp). exists k, v. split; [|done].
    apply entries_lookup; [done|]. by apply list_elem_of_In.
  - intros (k & v & Hk & Hp). exists (k, v). split; [|done].
    apply list_elem_of_In. by apply lookup_entries.
Qed.

Lemma dany_false p d : dict_nodup d →
  dany p d = false ↔ ∀ k v, d !! k = Some v → p k v = false.
Proof.
  intros Hd. rewrite <-not_true_iff_false, dany_true by done. split.
  - intros Hn k v Hk. destruct (p k v) eqn:E; [|done]. exfalso. eauto.
  - intros Hall (k & v & Hk & Hp). rewrite (Hall k v Hk) in Hp. done.
Qed.

(** *** Sums *)
Lemma dsum_insert f d k v w :
  d !! k = Some w → dsum f (<[k:=v]> d) = dsum f d - f k w + f k v.
Proof.
  destruct d as [l]. unfold lookup, dict_lookup, dsum, insert, dict_insert; simpl.
  induction l as [|[a u] l IH]; simpl; [done|].
  destruct (decide (k = a)) as [->|Hne]; simpl; intros; simplify_eq; [lia|].
  rewrite IH by done. lia.
Qed.

Lemma dsum_insert_new f d k v :
  d !! k = None → dsum f (<[k:=v]> d) = dsum f d + f k v.
Proof.
  destruct d as [l]. unfold lookup, dict_lookup, dsum, insert, dict_insert; simpl.
  induction l as [|[a u] l IH]; simpl; [lia|].
  destruct (decide (k = a)) as [->|Hne]; simpl; intros; simplify_eq.
  rewrite IH by done. lia.
Qed.

Lemma dsum_nonneg f d :
  (∀ k v, (k, v) ∈ entries d → 0 ≤ f k v) → 0 ≤ dsum f d.
Proof.
  unfold dsum. induction (entries d) as [|[a w] l IH]; simpl; [done|].
  intros H. pose proof (H a w (list_elem_of_here _ _)).
  assert (0 ≤ foldr (λ kv n, f kv.1 kv.2 + n) 0 l); [|lia].
  apply IH. intros k v Hin. apply H. by apply list_elem_of_further.
Qed.

Lemma dsum_le f g d :
  (∀ k v, (k, v) ∈ entries d → f k v ≤ g k v) → dsum f d ≤ dsum g d.
Proof.
  unfold dsum. induction (entries d) as [|[a w] l IH]; simpl; [done|].
  intros H. pose proof (H a w (list_elem_of_here _ _)).
  assert (foldr (λ kv n, f kv.1 kv.2 + n) 0 l ≤ foldr (λ kv n, g kv.1 kv.2 + n) 0 l); [|lia].
  apply IH. intros k v Hin. apply H. by apply list_elem_of_further.
Qed.

Lemma dsum_ext f g d :
  (∀ k v, (k, v) ∈ entries d → f k v = g k v) → dsum f d = dsum g d.
Proof.
  intros H. apply Z.le_antisymm; apply dsum_le; intros k v Hkv; rewrite (H k v Hkv); lia.
Qed.

Lemma dsum_le_keys f d1 d2 :
  keys d1 = keys d2 → dict_nodup d1 →
  (∀ k v1 v2, d1 !! k = Some v1 → d2 !! k = Some v2 → f k v1 ≤ f k v2) → dsum f d1 ≤ dsum f d2.
Proof.
  destruct d1 as [l1], d2 as [l2]. unfold dict_nodup, keys, dsum, lookup, dict_lookup; simpl.
  revert l2. induction l1 as [|[a v] l1 IH]; intros [|[a' w] l2]; csimpl; try done.
  intros [= -> Hk]. rewrite NoDup_cons. intros [Ha Hnd] Hf.
  pose proof (Hf a' v w) as Haw. rewrite !decide_True in Haw by done.
  specialize (Haw eq_refl eq_refl).
  enough (foldr (λ kv n, f kv.1 kv.2 + n) 0 l1 ≤ foldr (λ kv n, f kv.1 kv.2 + n) 0 l2) by lia.
  apply IH; [done|done|]. intros k v1 v2 H1 H2.
  assert (k ≠ a') as Hne.
  { intros ->. apply Ha, (elem_of_keys (Dict l1)). eexists. exact H1. }
  apply Hf; by rewrite decide_False.
Qed.

(** *** Length *)
Lemma dlen_nonneg d : 0 ≤ dlen d.
Proof. unfold dlen. lia. Qed.

Lemma dlen_keys d : dlen d = Z.of_nat (length (keys d)).
Proof. unfold dlen, keys. by rewrite length_fmap. Qed.

Lemma dlen_insert_new d k v : d !! k = None → dlen (<[k:=v]> d) = dlen d + 1.
Proof.
  intros H. rewrite !dlen_keys, keys_insert, decide_False.
  - rewrite length_app; simpl. lia.
  - rewrite elem_of_keys. rewrite H. by intros [? ?].
Qed.

Lemma dlen_insert_Some d k v w : d !! k = Some w → dlen (<[k:=v]> d) = dlen d.
Proof. intros H. by rewrite !dlen_keys, (keys_insert_Some _ _ _ _ H). Qed.

Lemma dlen_insert_le d k v : dlen (<[k:=v]> d) ≤ dlen d + 1.
Proof.
  destruct (d !! k) eqn:E; [rewrite (dlen_insert_Some _ _ _ _ E); lia|].
  rewrite (dlen_insert_new _ _ _ E). lia.
Qed.

Lemma dlen_delete_le d k : dlen (delete k d) ≤ dlen d.
Proof.
  rewrite !dlen_keys, keys_delete. pose proof (length_filter (fun a => a ≠ k) (keys d)). lia.
Qed.

Lemma dlen_empty_iff d : dlen d = 0 ↔ ∀ k, d !! k = None.
Proof.
  destruct d as [[|[a w] l]]; unfold dlen; simpl; split; try done.
  intros H. specialize (H a). unfold lookup, dict_lookup in H; simpl in H.
  by rewrite decide_True in H.
Qed.

Lemma mem_true k d : mem k d = true ↔ is_Some (d !! k).
Proof. unfold mem. destruct (d !! k); naive_solver. Qed.

Lemma mem_false k d : mem k d = false ↔ d !! k = None.
Proof. unfold mem. by destruct (d !! k). Qed.
End dict.

Arguments dict_nodup {_ _} _.
#[global] Instance dict_eq_dec `{EqDecision K, EqDecision V} : EqDecision (dict K V).
Proof. solve_decision. Defined.

(** *** The order-preserving map [{k: f(k, v) for k, v in d.items()}] *)
Section dict_map.
Context {K V W : Type} `{EqDecision K}.
Implicit Types (d : dict K V).

Definition dmap (f : K → V → W) (d : dict K V) : dict K W :=
  Dict ((fun kv => (kv.1, f kv.1 kv.2)) <$> entries d).

Lemma dict_lookup_dmap f d k : dmap f d !! k = f k <$> d !! k.
Proof.
  destruct d as [l]. unfold lookup, dict_lookup, dmap; simpl.
  induction l as [|[a v] l IH]; simpl; [done|]. by case_decide; simplify_eq.
Qed.

Lemma keys_dmap f d : keys (dmap f d) = keys d.
Proof. unfold keys, dmap; simpl. rewrite <-list_fmap_compose. by apply list_fmap_ext. Qed.

Lemma dict_nodup_dmap f d : dict_nodup d → dict_nodup (dmap f d).
Proof. unfold dict_nodup. by rewrite keys_dmap. Qed.

Lemma dsum_dmap f (g : K → W → Z) d : dsum g (dmap f d) = dsum (fun k v => g k (f k v)) d.
Proof.
  unfold dsum, dmap; simpl. induction (entries d) as [|[a v] l IH]; [done|].
  csimpl. by rewrite IH.
Qed.
End dict_map.

(** Rewriting database for lookups: [autorewrite with dict]. *)
Create HintDb dict.
Create Rewrite HintDb dict.
#[export] Hint Rewrite @dict_lookup_insert_eq @dict_lookup_delete_eq @dict_lookup_dmap
  @dict_lookup_empty : dict.
#[export] Hint Rewrite @dict_lookup_insert_ne @dict_lookup_delete_ne using done : dict.
#[export] Hint Resolve dict_nodup_empty dict_nodup_insert dict_nodup_delete dict_nodup_dmap : dict.
