(* ===== verification/Env.v ===== *)
(** * Values the runtime environment supplies

    [uuid4().hex] returns an opaque string that was not returned before: the
    [n]-th call of the process returns [uuid4_hex n].  [math.pow(0.5, x)] is the
    decay factor of the heat figure.  Both are interfaces: a class for the
    functions, a class for the laws the proofs rely on, and one instance that
    computes, used by the concrete examples. *)

From S2P Require Import Prelude.
From stdpp Require Import pretty.
From Stdlib Require Import QArith Qround Qpower.

Class PyEnv := {
  uuid4_hex : nat → string;
  pow_half : Q → Q;
}.

Class PyEnvLaws `{PyEnv} := {
  uuid4_hex_inj : ∀ i j, uuid4_hex i = uuid4_hex j → i = j;
  uuid4_hex_nonempty : ∀ i, uuid4_hex i ≠ EmptyString;
  pow_half_0 : (pow_half 0 == 1)%Q;
  pow_half_pos : ∀ x, (0 <= x)%Q → (0 < pow_half x)%Q;
  pow_half_antitone : ∀ x y, (0 <= x)%Q → (x <= y)%Q → (pow_half y <= pow_half x)%Q;
}.

(** The computable instance: call numbers as decimal text, and the decay factor
    [0.5 ** floor(x)], which agrees with [math.pow] at every whole half-life. *)
Definition demo_uuid (n : nat) : string := "u" +:+ pretty (N.of_nat n).
Definition demo_pow_half (x : Q) : Q := (1 # 2) ^ (Qfloor x).

#[export] Instance demo_env : PyEnv := {| uuid4_hex := demo_uuid; pow_half := demo_pow_half |}.

Lemma half_pow_pos (n : Z) : (0 < (1 # 2) ^ n)%Q.
Proof. by apply Qpower_0_lt. Qed.

Lemma half_pow_antitone (n m : Z) : (0 <= n)%Z → (n <= m)%Z → ((1 # 2) ^ m <= (1 # 2) ^ n)%Q.
Proof.
  intros Hn Hm. replace m with (n + (m - n))%Z by lia.
  rewrite Qpower_plus by done. rewrite <-(Qmult_1_r ((1 # 2) ^ n)) at 2.
  apply Qmult_le_l; [apply half_pow_pos|].
  remember (m - n)%Z as k eqn:Ek. assert (0 <= k)%Z as Hk by lia. clear Ek Hm.
  revert k Hk. apply natlike_ind; [done|]. intros k Hk IH.
  unfold Z.succ. rewrite Qpower_plus by done.
  apply Qle_trans with (1 * (1#2) ^ 1)%Q; [|done].
  apply Qmult_le_compat_r; [done|done].
Qed.

#[export] Instance demo_env_laws : @PyEnvLaws demo_env.
Proof.
  split; simpl; unfold demo_uuid, demo_pow_half.
  - intros i j Hij. assert (pretty (N.of_nat i) = pretty (N.of_nat j)) as Hp by (by injection Hij).
    apply (inj pretty) in Hp. by apply Nat2N.inj.
  - done.
  - done.
  - intros x _. apply half_pow_pos.
  - intros x y Hx Hxy. apply half_pow_antitone.
    + rewrite <-(Qfloor_Z 0). by apply Qfloor_resp_le.
    + by apply Qfloor_resp_le.
Qed.
