(* ===== verification/Contracts.v ===== *)
(** * Contracts shared by the scheduler components

    The data of [model_scheduler/contracts.py] (v1 registrations, leases,
    operations, observations) and of [model_scheduler/contracts_v2.py] (the v2
    registration and the reservation arithmetic).  Python [int] is [Z]; a clock
    reading is an integral number of clock ticks; a Python [float] that is not a
    clock reading (a margin, a heat figure) is an exact rational. *)

From S2P Require Import Prelude Dict.
From Stdlib Require Export QArith Qround.
Local Open Scope Z_scope.

(** A clock reading, a deadline or a duration, in ticks. *)
Abbreviation time := Z (only parsing).

(** Ticks in one second: the clocks in use ([time.monotonic], [time.time]) have
    nanosecond resolution. *)
Definition second : time := 1000000000.

(** ** contracts.py *)
Inductive State := UNKNOWN | UNLOADED | LOADING | READY | EVICTING | ERROR.
Inductive Capability := CHAT | EMBEDDINGS | RERANK.
Inductive Outcome := SUCCESS | REJECTED | ABORTED.
Inductive Presence := P_RUNNING | P_STOPPED | P_UNKNOWN.

#[export] Instance State_eq_dec : EqDecision State.
Proof. solve_decision. Defined.
#[export] Instance Capability_eq_dec : EqDecision Capability.
Proof. solve_decision. Defined.
#[export] Instance Outcome_eq_dec : EqDecision Outcome.
Proof. solve_decision. Defined.
#[export] Instance Presence_eq_dec : EqDecision Presence.
Proof. solve_decision. Defined.

(** [State(str, Enum)]: the value of each member. *)
Definition State_value (s : State) : string :=
  match s with
  | UNKNOWN => "unknown" | UNLOADED => "unloaded" | LOADING => "loading"
  | READY => "ready" | EVICTING => "evicting" | ERROR => "error"
  end.

Definition Capability_value (c : Capability) : string :=
  match c with CHAT => "chat" | EMBEDDINGS => "embeddings" | RERANK => "rerank" end.

Record ModelSpec := {
  v1_model_id : string;
  v1_upstream_url : string;
  v1_capabilities : list Capability;
  v1_reserved_bytes : Z;
  v1_priority : Z;
  v1_max_concurrency : Z;
  v1_pinned : bool;
  v1_evictable : bool;
  v1_preload : bool;
  v1_ttl_seconds : time;
}.

Record MemorySample := {
  total_bytes : Z;
  available_bytes : Z;
  sampled_at : time;
}.

Record Lease := {
  lease_id : string;
  lease_request_id : string;
  lease_model_id : string;
  lease_generation : Z;
}.

Record Operation := {
  op_operation_id : string;
  op_model_id : string;
  op_generation : Z;
  op_epoch : Z;
}.

Record Observation := {
  obs_presence : Presence;
  obs_instance_id : option string;
  obs_healthy : bool;
  obs_observed_at : time;
  obs_detail_code : option string;
}.

Record RecoveryResult := {
  rec_ok : bool;
  rec_phase : string;
  rec_error_code : option string;
  rec_stopped_models : list string;
}.

#[export] Instance Lease_eq_dec : EqDecision Lease.
Proof. solve_decision. Defined.
#[export] Instance Operation_eq_dec : EqDecision Operation.
Proof. solve_decision. Defined.

(** Python truth value of an optional string: [None] and [""] are false. *)
Definition truthy (o : option string) : bool :=
  match o with Some s => negb (String.eqb s "") | None => false end.

(** [a or b] on an optional string. *)
Definition str_or (a : option string) (b : string) : string :=
  match a with Some s => if String.eqb s "" then b else s | None => b end.

(** ** The v2 registration of contracts_v2.py *)
Record AssetRef := {
  asset_role : string;
  asset_path : string;
  asset_sha256 : string;
  asset_size_bytes : Z;
}.

Record RuntimeSpec := {
  rt_runtime_id : string;
  rt_profile_id : string;
  rt_image_digest : string;
  rt_adapter_sha256 : string;
  rt_lock_sha256 : string;
  rt_startup_args : list string;
}.

Record Envelope := {
  ctx_size : Z;
  max_input_tokens : Z;
  max_output_tokens : Z;
  max_parallel : Z;
  max_image_tokens : Z;
  max_image_edge_pixels : Z;
  max_images : Z;
}.

Record RegisteredModelSpec := {
  v2_model_id : string;
  v2_runtime_id : string;
  v2_capabilities : list string;
  v2_assets : list AssetRef;
  v2_port : Z;
  v2_envelope : Envelope;
  v2_timeout_seconds : Z;
  v2_reserved_bytes : Z;
  v2_measured : bool;
  v2_measurement_ref : option string;
  v2_physical_resident_peak_bytes : option Z;
}.

Record DeploymentSpec := {
  dep_runtimes : list RuntimeSpec;
  dep_models : list RegisteredModelSpec;
}.

#[export] Instance AssetRef_eq_dec : EqDecision AssetRef.
Proof. solve_decision. Defined.
#[export] Instance RuntimeSpec_eq_dec : EqDecision RuntimeSpec.
Proof. solve_decision. Defined.
#[export] Instance Envelope_eq_dec : EqDecision Envelope.
Proof. solve_decision. Defined.
#[export] Instance RegisteredModelSpec_eq_dec : EqDecision RegisteredModelSpec.
Proof. solve_decision. Defined.

(** ** Reservation arithmetic *)
Definition MARGIN_PERCENT : Z := 115.
Definition MARGIN_DIVISOR : Z := 100.

Definition positive_int (value : Z) (where_ : string) : outcome Z :=
  if value <=? 0 then Raise (ContractError where_) else Ret value.

Definition reserved_bytes_from_peak (measured_peak_bytes : Z) : outcome Z :=
  peak ← positive_int measured_peak_bytes "measured_peak_bytes";
  mret ((peak * MARGIN_PERCENT + MARGIN_DIVISOR - 1) / MARGIN_DIVISOR).

Definition physical_reserved_bytes_from_peak (physical_resident_peak_bytes : Z) : outcome Z :=
  peak ← positive_int physical_resident_peak_bytes "physical_resident_peak_bytes";
  mret ((peak * MARGIN_PERCENT + MARGIN_DIVISOR - 1) / MARGIN_DIVISOR).

Definition effective_reserved_bytes (reserved_bytes : Z) (legacy_v1_margin : option Q) : outcome Z :=
  reserved ← positive_int reserved_bytes "reserved_bytes";
  match legacy_v1_margin with
  | None => mret reserved
  | Some margin =>
      if negb (Qle_bool 0 margin && Qle_bool margin 1)
      then Raise (ContractError "legacy_v1_margin: must be within 0..1")
      else mret (Qceiling (inject_Z reserved * (1 + margin)))
  end.

(** *** Laws of the arithmetic *)

(** [n] is the least integer at least [115%] of [peak]. *)
Lemma margin_ceil peak n :
  n = (peak * MARGIN_PERCENT + MARGIN_DIVISOR - 1) / MARGIN_DIVISOR →
  115 * peak ≤ 100 * n ∧ 100 * (n - 1) < 115 * peak.
Proof.
  unfold MARGIN_PERCENT, MARGIN_DIVISOR. intros ->.
  pose proof (Z.div_mod (peak * 115 + 100 - 1) 100 ltac:(done)).
  pose proof (Z.mod_pos_bound (peak * 115 + 100 - 1) 100 ltac:(done)). lia.
Qed.

Lemma physical_reserved_ret peak n :
  physical_reserved_bytes_from_peak peak = Ret n → 0 < peak ∧ peak ≤ n ∧ 115 * peak ≤ 100 * n < 115 * peak + 100.
Proof.
  pose proof (margin_ceil peak _ eq_refl) as Hc.
  unfold physical_reserved_bytes_from_peak, positive_int. run_unfold.
  intros; repeat case_match; simplify_eq. bool_prop. lia.
Qed.

Lemma Qceiling_ge_int (z : Z) (q : Q) : (inject_Z z <= q)%Q → z ≤ Qceiling q.
Proof.
  intros H. rewrite <-(Qceiling_Z z). by apply Qceiling_resp_le.
Qed.

Lemma effective_reserved_ge r m n : effective_reserved_bytes r m = Ret n → 0 < r ∧ r ≤ n.
Proof.
  unfold effective_reserved_bytes, positive_int. run_unfold.
  destruct (r <=? 0) eqn:Hr; [done|]. bool_prop. destruct m as [q|]; [|naive_solver lia].
  case_match eqn:Hq; [done|]. intros [= <-]. split; [done|].
  apply negb_false_iff, andb_true_iff in Hq as [Hq _]. apply Qle_bool_iff in Hq.
  apply Qceiling_ge_int. rewrite <-(Qmult_1_r (inject_Z r)) at 1.
  apply Qmult_le_l; [by change 0%Q with (inject_Z 0); rewrite <-Zlt_Qlt|].
  rewrite <-(Qplus_0_r 1) at 1. apply Qplus_le_r. done.
Qed.
