(* ===== verification/Registry.v ===== *)
(** * The accounting book of model residency

    [model_scheduler/model_registry.py]: the ledger built from the
    registrations, the runtime record of every model, and every method of
    [Book].  The methods are [pym Book] computations, so an exception keeps the
    effects that happened before it, as in the source. *)

From S2P Require Import Prelude Dict Env Contracts.
Local Open Scope Z_scope.

Definition STOP_RESAMPLE_GRACE_SECONDS : time := 10 * second.

(** A registration handed to [Book]: a v1 specification, a v2 specification, or
    any other object that carries a [model_id]. *)
Inductive Registration :=
| RegV1 (spec : ModelSpec)
| RegV2 (spec : RegisteredModelSpec)
| RegOther (model_id : string).

Definition reg_model_id (r : Registration) : string :=
  match r with
  | RegV1 s => v1_model_id s
  | RegV2 s => v2_model_id s
  | RegOther m => m
  end.

Record Runtime := {
  state : State;
  generation : Z;
  operation_id : option string;
  leases : dict string Lease;
  admission_blocked : bool;
  reservation : Z;
  idle_since : option time;
  last_error : option string;
  heat_value : Q;
  heat_updated_at : time;
  total_requests : Z;
  total_tokens : Z;
  usage_unknown_requests : Z;
  stopped_at : option time;
  cancelling : dict string Lease;
}.

#[export] Instance Runtime_eta : Eta Runtime := fun r =>
  {| state := state r; generation := generation r; operation_id := operation_id r;
     leases := leases r; admission_blocked := admission_blocked r;
     reservation := reservation r; idle_since := idle_since r; last_error := last_error r;
     heat_value := heat_value r; heat_updated_at := heat_updated_at r;
     total_requests := total_requests r; total_tokens := total_tokens r;
     usage_unknown_requests := usage_unknown_requests r; stopped_at := stopped_at r;
     cancelling := cancelling r |}.

(** [Runtime(reservation=n)] *)
Definition new_Runtime (n : Z) : Runtime :=
  {| state := UNKNOWN; generation := 0; operation_id := None; leases := ∅;
     admission_blocked := false; reservation := n; idle_since := None; last_error := None;
     heat_value := 0%Q; heat_updated_at := 0; total_requests := 0; total_tokens := 0;
     usage_unknown_requests := 0; stopped_at := None; cancelling := ∅ |}.

Record LedgerSpec := {
  led_model_id : string;
  led_effective_reserved_bytes : Z;
  led_physical_reserved_bytes : option Z;
  led_max_concurrency : Z;
  led_pinned : bool;
  led_evictable : bool;
  led_preload : bool;
  led_ttl_seconds : time;
  led_priority : Z;
}.

Definition from_registration (spec : Registration) (legacy_v1_margin : Q) : outcome LedgerSpec :=
  match spec with
  | RegV2 s =>
      eff ← effective_reserved_bytes (v2_reserved_bytes s) None;
      phys ← match v2_physical_resident_peak_bytes s with
             | None => mret None
             | Some peak => p ← physical_reserved_bytes_from_peak peak; mret (Some p)
             end;
      mret {| led_model_id := v2_model_id s; led_effective_reserved_bytes := eff;
              led_physical_reserved_bytes := phys;
              led_max_concurrency := max_parallel (v2_envelope s);
              led_pinned := false; led_evictable := true; led_preload := false;
              led_ttl_seconds := 0; led_priority := 0 |}
  | RegV1 s =>
      eff ← effective_reserved_bytes (v1_reserved_bytes s) (Some legacy_v1_margin);
      mret {| led_model_id := v1_model_id s; led_effective_reserved_bytes := eff;
              led_physical_reserved_bytes := None;
              led_max_concurrency := v1_max_concurrency s;
              led_pinned := v1_pinned s; led_evictable := v1_evictable s;
              led_preload := v1_preload s; led_ttl_seconds := v1_ttl_seconds s;
              led_priority := v1_priority s |}
  | RegOther m => Raise (ValueError "unsupported registration")
  end.

Record Book := {
  specs : dict string Registration;
  model_budget : Z;
  free_floor : Z;
  margin : Q;
  ledger : dict string LedgerSpec;
  runtime : dict string Runtime;
  physical_enforced : bool;
  max_sample_age : time;
  half_life : time;
  request_weight : Q;
  token_weight : Q;
  epoch : Z;
  recovering : bool;
  uuid_calls : nat;
}.

#[export] Instance Book_eta : Eta Book := fun b =>
  {| specs := specs b; model_budget := model_budget b; free_floor := free_floor b;
     margin := margin b; ledger := ledger b; runtime := runtime b;
     physical_enforced := physical_enforced b; max_sample_age := max_sample_age b;
     half_life := half_life b; request_weight := request_weight b;
     token_weight := token_weight b; epoch := epoch b; recovering := recovering b;
     uuid_calls := uuid_calls b |}.

(** [{mid: f(spec) for mid, spec in specs.items()}] where [f] may raise. *)
Fixpoint ledger_of_specs (l : list (string * Registration)) (margin : Q)
    : outcome (list (string * LedgerSpec)) :=
  match l with
  | [] => mret []
  | (mid, spec) :: l =>
      e ← from_registration spec margin; es ← ledger_of_specs l margin; mret ((mid, e) :: es)
  end.

Definition Book_init (specs : dict string Registration) (model_budget free_floor : Z) (margin : Q)
    (max_sample_age half_life : time) (request_weight token_weight : Q) : outcome Book :=
  _ ← raise_if ((model_budget <=? 0) || (free_floor <? 0) || negb (Qle_bool 0 margin && Qle_bool margin 1))
        (ValueError "invalid memory policy");
  _ ← raise_if ((max_sample_age <=? 0) || (half_life <=? 0)
                || negb (Qle_bool 0 request_weight) || negb (Qle_bool 0 token_weight))
        (ValueError "invalid time or heat policy");
  _ ← raise_if ((dlen specs =? 0) || dany (fun mid spec => negb (bool_decide (mid = reg_model_id spec))) specs)
        (ValueError "invalid model spec");
  ledger ← ledger_of_specs (entries specs) margin;
  _ ← raise_if (dany (fun _ e => led_max_concurrency e <=? 0) (Dict ledger))
        (ValueError "invalid model spec");
  mret {| specs := specs; model_budget := model_budget; free_floor := free_floor; margin := margin;
          ledger := Dict ledger;
          runtime := dmap (fun _ e => new_Runtime (led_effective_reserved_bytes e)) (Dict ledger);
          physical_enforced := dany (fun _ e => bool_decide (is_Some (led_physical_reserved_bytes e))) (Dict ledger);
          max_sample_age := max_sample_age; half_life := half_life;
          request_weight := request_weight; token_weight := token_weight;
          epoch := 0; recovering := false; uuid_calls := 0 |}.

(** ** Queries *)
Definition runtime_of (b : Book) (model_id : string) : outcome Runtime :=
  of_option (KeyError model_id) (runtime b !! model_id).
Definition ledger_spec (b : Book) (model_id : string) : outcome LedgerSpec :=
  of_option (KeyError model_id) (ledger b !! model_id).

Definition required (b : Book) (model_id : string) : outcome Z :=
  e ← ledger_spec b model_id; mret (led_effective_reserved_bytes e).
Definition physical_required (b : Book) (model_id : string) : outcome (option Z) :=
  e ← ledger_spec b model_id; mret (led_physical_reserved_bytes e).

Definition committed (b : Book) : Z := dsum (fun _ r => reservation r) (runtime b).

(** [self.ledger[mid].physical_reserved_bytes or 0]; the ledger and the runtime
    table have the same keys from construction on. *)
Definition physical_figure (b : Book) (model_id : string) : Z :=
  match ledger b !! model_id with
  | Some e => default 0 (led_physical_reserved_bytes e)
  | None => 0
  end.

Definition physical_committed (b : Book) : Z :=
  dsum (fun m r => if 0 <? reservation r then physical_figure b m else 0) (runtime b).

Definition physical_admissible (b : Book) (model_id : string) : outcome bool :=
  if negb (physical_enforced b) then mret true
  else
    e ← ledger_spec b model_id;
    match led_physical_reserved_bytes e with
    | None => mret false
    | Some figure =>
        let others := dsum (fun m r => if negb (bool_decide (m = model_id)) && (0 <? reservation r)
                                       then physical_figure b m else 0) (runtime b) in
        mret (others + figure <=? model_budget b)
    end.

Definition stop_settled (b : Book) (model_id : string) (now : time) : outcome bool :=
  r ← runtime_of b model_id;
  mret match stopped_at r with
       | Some t => STOP_RESAMPLE_GRACE_SECONDS <=? now - t
       | None => false
       end.

Definition sample_valid (b : Book) (sample : MemorySample) (now : time) : bool :=
  (0 <=? now - sampled_at sample) && (now - sampled_at sample <=? max_sample_age b)
  && (0 <? total_bytes sample)
  && (0 <=? available_bytes sample) && (available_bytes sample <=? total_bytes sample).

Definition sample_after_stop (b : Book) (model_id : string) (sample : MemorySample) : outcome bool :=
  r ← runtime_of b model_id;
  mret match stopped_at r with
       | None => true
       | Some t => t <=? sampled_at sample
       end.

(** [not runtime.leases] *)
Definition no_leases (r : Runtime) : bool := dlen (leases r) =? 0.

Definition can_load (b : Book) (model_id : string) (sample : MemorySample) (now : time) : outcome bool :=
  r ← runtime_of b model_id;
  req ← required b model_id;
  after ← sample_after_stop b model_id sample;
  phys ← physical_admissible b model_id;
  mret (negb (recovering b)
        && bool_decide (state r = UNLOADED)
        && no_leases r
        && negb (admission_blocked r)
        && sample_valid b sample now
        && after
        && (free_floor b + req <=? available_bytes sample)
        && (committed b + req <=? model_budget b)
        && phys).

Definition can_admit_ready (b : Book) (model_id : string) (sample : MemorySample) (now : time) : outcome bool :=
  r ← runtime_of b model_id;
  e ← ledger_spec b model_id;
  mret (negb (recovering b) && bool_decide (state r = READY) && negb (admission_blocked r)
        && (dlen (leases r) <? led_max_concurrency e)
        && sample_valid b sample now && (free_floor b <=? available_bytes sample)).

Definition ttl_due (b : Book) (model_id : string) (now : time) : outcome bool :=
  r ← runtime_of b model_id;
  e ← ledger_spec b model_id;
  mret (bool_decide (state r = READY) && no_leases r && negb (admission_blocked r)
        && negb (led_pinned e) && led_evictable e && (0 <? led_ttl_seconds e)
        && match idle_since r with Some t => led_ttl_seconds e <=? now - t | None => false end).

Definition is_cancelling (b : Book) (lease : Lease) : outcome bool :=
  r ← runtime_of b (lease_model_id lease);
  mret (bool_decide (cancelling r !! lease_id lease = Some lease)).

Definition cancelling_leases (b : Book) (model_id : string) : outcome (list Lease) :=
  r ← runtime_of b model_id; mret (values (cancelling r)).

Section Book.
Context `{PyEnv}.

(** *** Heat *)
Definition heat_of (b : Book) (r : Runtime) (now : time) : Q :=
  (heat_value r * pow_half (inject_Z (Z.max 0 (now - heat_updated_at r)) / inject_Z (half_life b)))%Q.

Definition heat (b : Book) (model_id : string) (now : time) : outcome Q :=
  r ← runtime_of b model_id; mret (heat_of b r now).

(** ** State changes *)
Definition put_runtime (model_id : string) (r : Runtime) (b : Book) : Book :=
  b <| runtime ::= <[model_id := r]> |>.
Definition set_runtime (model_id : string) (r : Runtime) : pym Book unit :=
  modify (put_runtime model_id r).

Definition count_uuid (b : Book) : Book := b <| uuid_calls ::= S |>.
Definition uuid4 : pym Book string :=
  b ← get; modify count_uuid ;; mret (uuid4_hex (uuid_calls b)).

Definition bootstrap_stopped (model_id : string) : pym Book unit :=
  b ← get;
  r ← lift (runtime_of b model_id);
  if negb (bool_decide (state r = UNKNOWN)) || truthy (operation_id r) || negb (no_leases r)
  then raise (Conflict "not a bootstrap state")
  else set_runtime model_id (r <| state := UNLOADED |> <| reservation := 0 |>).

Definition begin_load (model_id : string) (sample : MemorySample) (now : time) : pym Book Operation :=
  b ← get;
  ok ← lift (can_load b model_id sample now);
  if negb ok then raise (Conflict "load not admissible")
  else
    r ← lift (runtime_of b model_id);
    req ← lift (required b model_id);
    oid ← uuid4;
    set_runtime model_id
      (r <| generation := generation r + 1 |> <| state := LOADING |> <| reservation := req |>
         <| operation_id := Some oid |> <| idle_since := None |> <| last_error := None |>) ;;
    mret {| op_operation_id := oid; op_model_id := model_id;
            op_generation := generation r + 1; op_epoch := epoch b |}.

(** [_operation]: the runtime the token still names, or [StaleOperation]. *)
Definition operation_runtime (b : Book) (operation : Operation) : outcome Runtime :=
  r ← runtime_of b (op_model_id operation);
  if negb (op_epoch operation =? epoch b)
     || negb ((generation r =? op_generation operation)
              && bool_decide (operation_id r = Some (op_operation_id operation)))
  then Raise (StaleOperation (op_operation_id operation))
  else mret r.

Definition loaded (operation : Operation) (now : time) : pym Book unit :=
  b ← get;
  r ← lift (operation_runtime b operation);
  if negb (bool_decide (state r = LOADING)) then raise (Conflict "not loading")
  else set_runtime (op_model_id operation)
         (r <| state := READY |> <| operation_id := None |>
            <| admission_blocked := false |> <| idle_since := Some now |>).

Definition failed (operation : Operation) (code : option string) : pym Book unit :=
  b ← get;
  r ← lift (operation_runtime b operation);
  set_runtime (op_model_id operation)
    (r <| state := ERROR |> <| operation_id := None |>
       <| admission_blocked := true |> <| last_error := code |>).

Definition add_heat (model_id : string) (now : time) (amount : Q) : pym Book unit :=
  b ← get;
  r ← lift (runtime_of b model_id);
  set_runtime model_id (r <| heat_value := (heat_of b r now + amount)%Q |> <| heat_updated_at := now |>).

Definition holds_request (b : Book) (request_id : string) : bool :=
  dany (fun _ r => dany (fun _ l => bool_decide (lease_request_id l = request_id)) (leases r)) (runtime b).

Definition acquire_ready (model_id request_id : string) (now : time) : pym Book Lease :=
  b ← get;
  r ← lift (runtime_of b model_id);
  e ← lift (ledger_spec b model_id);
  if recovering b || negb (bool_decide (state r = READY)) || admission_blocked r
     || (led_max_concurrency e <=? dlen (leases r))
  then raise (Conflict "model not admissible")
  else if holds_request b request_id then raise (Conflict "request already owns a lease")
  else
    lid ← uuid4;
    let lease := {| lease_id := lid; lease_request_id := request_id;
                    lease_model_id := model_id; lease_generation := generation r |} in
    set_runtime model_id
      (r <| leases ::= <[lid := lease]> |> <| total_requests ::= (Z.add 1) |> <| idle_since := None |>) ;;
    add_heat model_id now (request_weight b) ;;
    mret lease.

(** [runtime.leases.get(lease.lease_id) != lease or runtime.generation != lease.generation] *)
Definition lease_mismatch (r : Runtime) (lease : Lease) : bool :=
  negb (bool_decide (leases r !! lease_id lease = Some lease))
  || negb (generation r =? lease_generation lease).

Definition release (lease : Lease) (outcome : Outcome) (now : time) (tokens : option Z) : pym Book bool :=
  b ← get;
  r ← lift (runtime_of b (lease_model_id lease));
  if lease_mismatch r lease then mret false
  else if match tokens with Some n => n <? 0 | None => false end
  then raise (ValueError "tokens must be a nonnegative integer")
  else
    set_runtime (lease_model_id lease)
      (r <| leases ::= delete (lease_id lease) |> <| cancelling ::= delete (lease_id lease) |>) ;;
    match outcome with
    | SUCCESS =>
        match tokens with
        | None =>
            b ← get; r ← lift (runtime_of b (lease_model_id lease));
            set_runtime (lease_model_id lease) (r <| usage_unknown_requests ::= (Z.add 1) |>)
        | Some n =>
            b ← get; r ← lift (runtime_of b (lease_model_id lease));
            set_runtime (lease_model_id lease) (r <| total_tokens ::= (Z.add n) |>) ;;
            add_heat (lease_model_id lease) now (inject_Z n * token_weight b)%Q
        end
    | ABORTED =>
        b ← get; r ← lift (runtime_of b (lease_model_id lease));
        set_runtime (lease_model_id lease)
          (r <| state := ERROR |> <| admission_blocked := true |>
             <| last_error := Some "request_aborted" |>)
    | REJECTED => mret tt
    end ;;
    b ← get; r ← lift (runtime_of b (lease_model_id lease));
    (if no_leases r
     then set_runtime (lease_model_id lease) (r <| idle_since := Some now |>)
     else mret tt) ;;
    mret true.

Definition begin_cancel (lease : Lease) : pym Book bool :=
  b ← get;
  r ← lift (runtime_of b (lease_model_id lease));
  if lease_mismatch r lease then mret false
  else set_runtime (lease_model_id lease) (r <| cancelling ::= <[lease_id lease := lease]> |>) ;;
       mret true.

(** [self.recovering or not model_ids or len(set(model_ids)) != len(model_ids)] *)
Definition bad_batch (b : Book) (model_ids : list string) : bool :=
  recovering b || bool_decide (model_ids = []) || negb (bool_decide (NoDup model_ids)).

Definition eviction_check (b : Book) (automatic : bool) (model_id : string) : outcome unit :=
  r ← runtime_of b model_id;
  e ← ledger_spec b model_id;
  raise_if (negb (bool_decide (state r = READY)) || negb (no_leases r) || truthy (operation_id r)
            || led_pinned e || (automatic && negb (led_evictable e)))
    (Conflict "protected or changed candidate").

(** The second loop of [begin_eviction] and [begin_cleanup]: one stop token. *)
Definition start_stop (model_id : string) : pym Book Operation :=
  b ← get;
  r ← lift (runtime_of b model_id);
  oid ← uuid4;
  set_runtime model_id
    (r <| state := EVICTING |> <| admission_blocked := true |> <| operation_id := Some oid |>) ;;
  mret {| op_operation_id := oid; op_model_id := model_id;
          op_generation := generation r; op_epoch := epoch b |}.

Definition begin_eviction (model_ids : list string) (automatic : bool) : pym Book (list Operation) :=
  b ← get;
  if bad_batch b model_ids then raise (Conflict "invalid eviction batch")
  else
    lift (check_each model_ids (eviction_check b automatic)) ;;
    map_each model_ids start_stop.

Definition freeze_check (b : Book) (model_id : string) : outcome unit :=
  r ← runtime_of b model_id;
  e ← ledger_spec b model_id;
  raise_if (negb (bool_decide (state r = READY)) || admission_blocked r || truthy (operation_id r)
            || led_pinned e || negb (led_evictable e))
    (Conflict "switch candidate changed").

Definition freeze_for_switch (model_ids : list string) : pym Book unit :=
  b ← get;
  if bad_batch b model_ids then raise (Conflict "invalid switch freeze")
  else
    lift (check_each model_ids (freeze_check b)) ;;
    for_each model_ids (fun model_id =>
      b ← get;
      r ← lift (runtime_of b model_id);
      set_runtime model_id (r <| admission_blocked := true |>)).

(** The loop body of [unfreeze_switch]. *)
Definition unfreeze_one (model_id : string) : pym Book unit :=
  b ← get;
  r ← lift (runtime_of b model_id);
  if bool_decide (state r = READY) && bool_decide (operation_id r = None)
  then set_runtime model_id (r <| admission_blocked := false |>)
  else mret tt.

Definition unfreeze_switch (model_ids : list string) : pym Book unit :=
  for_each model_ids unfreeze_one.

Definition cleanup_check (b : Book) (model_id : string) : outcome unit :=
  r ← runtime_of b model_id;
  raise_if (negb (bool_decide (state r = READY) || bool_decide (state r = ERROR))
            || negb (no_leases r) || truthy (operation_id r))
    (Conflict "cleanup candidate changed").

Definition begin_cleanup (model_ids : list string) : pym Book (list Operation) :=
  b ← get;
  if bad_batch b model_ids then raise (Conflict "invalid cleanup batch")
  else
    lift (check_each model_ids (cleanup_check b)) ;;
    map_each model_ids start_stop.

Definition rollback_unsent (operation : Operation) : pym Book unit :=
  b ← get;
  r ← lift (operation_runtime b operation);
  if negb (bool_decide (state r = EVICTING)) || negb (no_leases r)
  then raise (Conflict "cannot roll back")
  else set_runtime (op_model_id operation)
         (r <| state := READY |> <| admission_blocked := false |> <| operation_id := None |>).

Definition stopped (operation : Operation) (now : option time) : pym Book unit :=
  b ← get;
  r ← lift (operation_runtime b operation);
  if negb (bool_decide (state r = EVICTING)) || negb (no_leases r)
  then raise (Conflict "not safely stopping")
  else set_runtime (op_model_id operation)
         (r <| state := UNLOADED |> <| operation_id := None |> <| reservation := 0 |>
            <| admission_blocked := false |> <| idle_since := None |> <| last_error := None |>
            <| stopped_at := now |>).

Definition recovering_runtime (r : Runtime) : Runtime :=
  let r := r <| operation_id := None |> <| admission_blocked := true |> in
  if bool_decide (state r = UNLOADED) then r
  else r <| state := ERROR |> <| last_error := Some "control_recovering" |>.

Definition begin_recovery : pym Book Z :=
  b ← get;
  if recovering b then mret (epoch b)
  else
    modify (fun b => b <| epoch := epoch b + 1 |> <| recovering := true |>
                       <| runtime ::= dmap (fun _ => recovering_runtime) |>) ;;
    mret (epoch b + 1).

Definition recovered_runtime (r : Runtime) : Runtime :=
  r <| state := UNLOADED |> <| reservation := 0 |> <| operation_id := None |>
    <| admission_blocked := false |> <| idle_since := None |> <| last_error := None |>.

Definition same_set (xs ys : list string) : bool :=
  forallb (fun x => bool_decide (x ∈ ys)) xs && forallb (fun y => bool_decide (y ∈ xs)) ys.

Definition finish_recovery (epoch_ : Z) (confirmed_stopped : list string) : pym Book unit :=
  b ← get;
  if negb (recovering b) || negb (epoch_ =? epoch b) then raise (StaleOperation "recovery epoch")
  else if negb (same_set confirmed_stopped (keys (specs b)))
          || dany (fun _ r => negb (no_leases r)) (runtime b)
  then raise (Conflict "recovery lacks stop evidence")
  else modify (fun b => b <| runtime ::= dmap (fun _ => recovered_runtime) |> <| recovering := false |>).
End Book.
