(* ===== verification/RegistryFacts.v ===== *)
(** * Invariants and behaviour of the accounting book *)

From S2P Require Import Prelude Dict Env Contracts Registry.
Local Open Scope Z_scope.

(** ** The well-formedness invariant *)

(** One runtime record, against its ledger entry.  [rec] is [Book.recovering]. *)
Record runtime_wf (rec : bool) (m : string) (e : LedgerSpec) (r : Runtime) : Prop := {
  rw_reservation : reservation r = if decide (state r = UNLOADED) then 0 else led_effective_reserved_bytes e;
  rw_operation : is_Some (operation_id r) ↔ state r = LOADING ∨ state r = EVICTING;
  rw_lease_state : dlen (leases r) ≠ 0 → state r = READY ∨ state r = ERROR;
  rw_lease_cap : dlen (leases r) ≤ led_max_concurrency e;
  rw_lease : ∀ k l, leases r !! k = Some l →
    lease_id l = k ∧ lease_model_id l = m ∧ lease_generation l = generation r;
  rw_lease_nodup : dict_nodup (leases r);
  rw_cancelling : ∀ k l, cancelling r !! k = Some l → leases r !! k = Some l;
  rw_blocked : state r = EVICTING ∨ state r = ERROR → admission_blocked r = true;
  rw_recovering : rec = true → (state r = UNLOADED ∨ state r = ERROR) ∧ admission_blocked r = true;
  rw_generation : 0 ≤ generation r;
}.

Lemma rw_operation_state rec m e r s :
  runtime_wf rec m e r → operation_id r = Some s → state r = LOADING ∨ state r = EVICTING.
Proof. intros Hw Hs. apply (rw_operation _ _ _ _ Hw). eauto. Qed.

Definition lease_held (b : Book) (m k : string) (l : Lease) : Prop :=
  ∃ r, runtime b !! m = Some r ∧ leases r !! k = Some l.

Section facts.
Context `{PyEnv}.
Implicit Types (b : Book) (r : Runtime) (m : string).

(** A string some earlier [uuid4()] returned. *)
Definition uuid_used b (s : string) : Prop := ∃ i, (i < uuid_calls b)%nat ∧ s = uuid4_hex i.

Record book_wf b : Prop := {
  bw_nodup : dict_nodup (runtime b);
  bw_ledger_keys : keys (ledger b) = keys (runtime b);
  bw_specs_keys : keys (specs b) = keys (runtime b);
  bw_ledger : ∀ m e, ledger b !! m = Some e →
    0 < led_effective_reserved_bytes e ∧ 0 < led_max_concurrency e ∧ 0 ≤ physical_figure b m;
  bw_runtime : ∀ m r e, runtime b !! m = Some r → ledger b !! m = Some e →
    runtime_wf (recovering b) m e r;
  bw_requests : ∀ m1 k1 l1 m2 k2 l2, lease_held b m1 k1 l1 → lease_held b m2 k2 l2 →
    lease_request_id l1 = lease_request_id l2 → m1 = m2 ∧ k1 = k2;
  bw_operation_ids : ∀ m r s, runtime b !! m = Some r → operation_id r = Some s → uuid_used b s;
  bw_lease_ids : ∀ m k l, lease_held b m k l → uuid_used b k;
}.

(** The settings no method changes. *)
Definition same_settings b b' : Prop :=
  specs b' = specs b ∧ ledger b' = ledger b ∧ model_budget b' = model_budget b ∧
  free_floor b' = free_floor b ∧ physical_enforced b' = physical_enforced b ∧
  max_sample_age b' = max_sample_age b ∧ half_life b' = half_life b ∧
  request_weight b' = request_weight b ∧ token_weight b' = token_weight b ∧ margin b' = margin b.

Lemma same_settings_refl b : same_settings b b.
Proof. by repeat split. Qed.

Lemma same_settings_trans b1 b2 b3 :
  same_settings b1 b2 → same_settings b2 b3 → same_settings b1 b3.
Proof. unfold same_settings. intros; destruct_and!; split_and!; congruence. Qed.

Lemma bw_has_ledger b m r : book_wf b → runtime b !! m = Some r → ∃ e, ledger b !! m = Some e.
Proof.
  intros Hb Hr. assert (m ∈ keys (ledger b)) as [e He]%elem_of_keys; [|by exists e].
  rewrite (bw_ledger_keys b Hb). apply elem_of_keys. eauto.
Qed.

Lemma bw_has_runtime b m e : book_wf b → ledger b !! m = Some e → ∃ r, runtime b !! m = Some r.
Proof.
  intros Hb He. assert (m ∈ keys (runtime b)) as [r Hr]%elem_of_keys; [|by exists r].
  rewrite <-(bw_ledger_keys b Hb). apply elem_of_keys. eauto.
Qed.

Lemma uuid_used_count b s : uuid_used b s → uuid_used (count_uuid b) s.
Proof. intros (i & ? & ->). exists i. split; [simpl; lia|done]. Qed.

Lemma uuid_used_fresh `{!PyEnvLaws} b : ¬ uuid_used b (uuid4_hex (uuid_calls b)).
Proof. intros (i & Hi & Heq). apply uuid4_hex_inj in Heq. lia. Qed.

Lemma uuid_used_truthy `{!PyEnvLaws} b s : uuid_used b s → truthy (Some s) = true.
Proof.
  intros (i & _ & ->). simpl. apply negb_true_iff, String.eqb_neq, uuid4_hex_nonempty.
Qed.

(** ** Replacing one runtime record *)
Lemma wf_put_runtime b m r r' e :
  book_wf b → runtime b !! m = Some r → ledger b !! m = Some e →
  runtime_wf (recovering b) m e r' →
  (∀ k l, leases r' !! k = Some l → leases r !! k = Some l) →
  (∀ s, operation_id r' = Some s → uuid_used b s) →
  book_wf (put_runtime m r' b).
Proof.
  intros Hb Hr He Hr' Hsub Hop. destruct Hb as [Hnd Hlk Hsk Hl Hrt Hreq Hoid Hlid].
  assert (∀ m0 k l, lease_held (put_runtime m r' b) m0 k l → lease_held b m0 k l) as Hheld.
  { intros m0 k l (r0 & Hr0 & Hk). simpl in Hr0. rewrite dict_lookup_insert in Hr0.
    case_decide; simplify_eq; [exists r|exists r0]; eauto. }
  split; simpl; try done.
  - by apply dict_nodup_insert.
  - by rewrite (keys_insert_Some _ _ _ _ Hr).
  - by rewrite (keys_insert_Some _ _ _ _ Hr).
  - intros m0 r0 e0 Hr0 He0. rewrite dict_lookup_insert in Hr0.
    case_decide; simplify_eq; [done|by apply Hrt].
  - intros m1 k1 l1 m2 k2 l2 H1%Hheld H2%Hheld. eauto.
  - intros m0 r0 s Hr0 Hs. rewrite dict_lookup_insert in Hr0.
    case_decide; simplify_eq; [by apply Hop|by eapply Hoid].
  - intros m0 k l Hk%Hheld. eauto.
Qed.

Lemma wf_count_uuid b : book_wf b → book_wf (count_uuid b).
Proof.
  intros [Hnd Hlk Hsk Hl Hrt Hreq Hoid Hlid]. split; simpl; try done.
  - intros m r s Hr Hs. apply uuid_used_count. eauto.
  - intros m k l Hk. apply uuid_used_count. eauto.
Qed.

Lemma same_settings_put b m r : same_settings b (put_runtime m r b).
Proof. by repeat split. Qed.

(** Reading the guards of a method: evaluate, split on the lookups and tests. *)
Lemma runtime_of_ret b m r : runtime_of b m = Ret r ↔ runtime b !! m = Some r.
Proof. unfold runtime_of, of_option. destruct (runtime b !! m); naive_solver. Qed.

Lemma operation_runtime_ret b op r :
  operation_runtime b op = Ret r ↔
  runtime b !! op_model_id op = Some r ∧ op_epoch op = epoch b ∧
  generation r = op_generation op ∧ operation_id r = Some (op_operation_id op).
Proof.
  unfold operation_runtime, runtime_of, of_option, mbind, outcome_bind, mret, outcome_ret.
  destruct (runtime b !! op_model_id op) as [r0|]; [|naive_solver].
  case_match eqn:E; bool_prop.
  - split; [done|]. intros (? & ? & ? & ?); simplify_eq. exfalso.
    rewrite negb_true_iff, negb_true_iff, andb_false_iff, bool_decide_eq_false, !Z.eqb_neq in E.
    naive_solver.
  - split; naive_solver.
Qed.

Lemma ledger_spec_ret b m e : ledger_spec b m = Ret e ↔ ledger b !! m = Some e.
Proof. unfold ledger_spec, of_option. destruct (ledger b !! m); naive_solver. Qed.

Lemma required_ret b m n :
  required b m = Ret n ↔ ∃ e, ledger b !! m = Some e ∧ n = led_effective_reserved_bytes e.
Proof. unfold required, ledger_spec, of_option. run_unfold. destruct (ledger b !! m); naive_solver. Qed.

(** What a successful load admission has established. *)
Lemma can_load_true b m s now :
  can_load b m s now = Ret true →
  ∃ r e, runtime b !! m = Some r ∧ ledger b !! m = Some e ∧
    recovering b = false ∧ state r = UNLOADED ∧ dlen (leases r) = 0 ∧ admission_blocked r = false ∧
    sample_valid b s now = true ∧
    (∀ t, stopped_at r = Some t → t ≤ sampled_at s) ∧
    free_floor b + led_effective_reserved_bytes e ≤ available_bytes s ∧
    committed b + led_effective_reserved_bytes e ≤ model_budget b ∧
    physical_admissible b m = Ret true.
Proof.
  unfold can_load, required, sample_after_stop, ledger_spec, runtime_of, of_option. run_unfold.
  intros Hc. repeat case_match; simplify_eq; unfold no_leases in *; bool_prop; subst;
    eexists _, _; split_and!; try done; intros; simplify_eq; try lia; congruence.
Qed.

Lemma runtime_of_put b m r : runtime_of (put_runtime m r b) m = Ret r.
Proof. apply runtime_of_ret. simpl. apply dict_lookup_insert_eq. Qed.

Lemma put_runtime_put b m r r' : put_runtime m r' (put_runtime m r b) = put_runtime m r' b.
Proof. unfold put_runtime; simpl. by rewrite dict_insert_insert. Qed.

End facts.

(** Turn the lookups a method made into facts about the record it read. *)
Ltac open_runtime Hb :=
  repeat match goal with
  | Hr : runtime_of ?b ?m = Ret ?r |- _ => apply runtime_of_ret in Hr
  | Hr : operation_runtime ?b ?op = Ret ?r |- _ => apply operation_runtime_ret in Hr as (Hr & ? & ? & ?)
  end;
  match goal with
  | Hr : runtime ?b !! ?m = Some ?r |- _ =>
      let e := fresh "e" in let He := fresh "He" in let Hw := fresh "Hw" in
      destruct (bw_has_ledger b m r Hb Hr) as [e He];
      pose proof (bw_runtime b Hb m r e Hr He) as Hw
  end.

(** Re-establish [runtime_wf] field by field from the one of the old record. *)
Ltac wf_runtime :=
  lazymatch goal with
  | Hw : runtime_wf _ _ _ _ |- _ =>
      let Hop := fresh "Hop" in let Hls := fresh "Hls" in
      let Hbl := fresh "Hbl" in let Hrec := fresh "Hrec" in
      destruct Hw as [? Hop Hls ? ? ? ? Hbl Hrec ?];
      unfold no_leases in *; bool_prop; split; simpl in *;
      [ repeat case_decide; intuition congruence
      | first [ split; [intros [? ?]; intuition congruence|intros [?|?]; first [congruence|eauto]]
              | rewrite Hop; intuition congruence ]
      | intros; first [ lia | destruct Hls; [done|..]; first [congruence|auto] ]
      | first [done|lia] | try done | try done | try done
      | intros [?|?]; first [ congruence | done | apply Hbl; auto ]
      | intros ?; destruct Hrec as [[?|?] ?]; [done|..]; first [congruence|auto]
      | first [done|lia] ]
  end.

Ltac book_method Hb m :=
  intros b Hb; unfold m, uuid4, set_runtime, start_stop; run_unfold;
  repeat case_match; simplify_eq; try done; bool_prop.

Section preservation.
Context `{PyEnv}.
Implicit Types (b : Book) (r : Runtime) (m : string).

Lemma bootstrap_stopped_wf m : preserves book_wf (bootstrap_stopped m).
Proof.
  book_method Hb (@bootstrap_stopped). open_runtime Hb.
  eapply wf_put_runtime; try done; [wf_runtime|]. intros s Hs. by eapply (bw_operation_ids b Hb).
Qed.

Lemma loaded_wf op now : preserves book_wf (loaded op now).
Proof.
  book_method Hb (@loaded). open_runtime Hb.
  eapply wf_put_runtime; try done. wf_runtime.
Qed.

Lemma failed_wf op code : preserves book_wf (failed op code).
Proof.
  book_method Hb (@failed). open_runtime Hb. pose proof (rw_operation_state _ _ _ _ _ Hw ltac:(eassumption)).
  eapply wf_put_runtime; try done. wf_runtime.
Qed.

Lemma rollback_unsent_wf op : preserves book_wf (rollback_unsent op).
Proof.
  book_method Hb (@rollback_unsent). open_runtime Hb.
  eapply wf_put_runtime; try done. wf_runtime.
Qed.

Lemma stopped_wf op now : preserves book_wf (stopped op now).
Proof.
  book_method Hb (@stopped). open_runtime Hb.
  eapply wf_put_runtime; try done. wf_runtime.
Qed.

Lemma begin_load_wf m s now : preserves book_wf (begin_load m s now).
Proof.
  book_method Hb (@begin_load). open_runtime Hb. subst.
  match goal with Hc : can_load _ _ _ _ = Ret true |- _ =>
    apply can_load_true in Hc as (r & e' & ? & ? & ?) end. destruct_and!.
  match goal with Hq : required _ _ = Ret _ |- _ => apply required_ret in Hq as (e'' & ? & ->) end.
  simplify_eq.
  eapply wf_put_runtime; [by apply wf_count_uuid|done|done| |done|].
  - wf_runtime. intros k l Hk. exfalso. by rewrite (proj1 (dlen_empty_iff (leases r))) in Hk.
  - intros s0 [= <-]. exists (uuid_calls b). split; [simpl; lia|done].
Qed.

(** *** Leases: closed forms of [acquire_ready] and [release] *)
Definition leased_runtime b r (lease : Lease) (now : time) : Runtime :=
  r <| leases ::= <[lease_id lease := lease]> |> <| total_requests ::= (Z.add 1) |>
    <| idle_since := None |>
    <| heat_value := (heat_of b r now + request_weight b)%Q |> <| heat_updated_at := now |>.

Definition new_lease b r m (request_id : string) : Lease :=
  {| lease_id := uuid4_hex (uuid_calls b); lease_request_id := request_id;
     lease_model_id := m; lease_generation := generation r |}.

(** The guard of [acquire_ready], as a proposition. *)
Definition admissible b m (request_id : string) r e : Prop :=
  runtime b !! m = Some r ∧ ledger b !! m = Some e ∧ recovering b = false ∧ state r = READY ∧
  admission_blocked r = false ∧ dlen (leases r) < led_max_concurrency e ∧
  holds_request b request_id = false.

Lemma acquire_ready_ret b b' m rq now lease :
  acquire_ready m rq now b = (b', Ret lease) ↔
  ∃ r e, admissible b m rq r e ∧ lease = new_lease b r m rq ∧
         b' = put_runtime m (leased_runtime b r lease now) (count_uuid b).
Proof.
  unfold acquire_ready, add_heat, uuid4, set_runtime, admissible. run_unfold.
  unfold runtime_of at 1, ledger_spec, of_option.
  destruct (runtime b !! m) as [r|] eqn:Hr; [|naive_solver].
  destruct (ledger b !! m) as [e|] eqn:He; [|naive_solver].
  case_match eqn:Hg.
  { split; [done|]. intros (r' & e' & (? & ? & Hrec & Hst & Hbl & Hcap & _) & _). simplify_eq.
    rewrite Hrec, Hbl, bool_decide_eq_true_2 in Hg by done. simpl in Hg. bool_prop. lia. }
  destruct (holds_request b rq) eqn:Hh; [split; [done|]; naive_solver|].
  rewrite runtime_of_put. cbv beta iota. fold (new_lease b r m rq). bool_prop.
  rewrite put_runtime_put. split.
  - intros [= <- <-]. exists r, e. naive_solver.
  - intros (r' & e' & (? & ? & _) & -> & ->). by simplify_eq.
Qed.

Lemma acquire_ready_raise b b' m rq now e :
  acquire_ready m rq now b = (b', Raise e) → b' = b.
Proof.
  unfold acquire_ready, add_heat, uuid4, set_runtime. run_unfold.
  intros Hx. repeat case_match; simplify_eq; try done.
  exfalso. match goal with Hy : runtime_of (put_runtime _ _ _) _ = _ |- _ =>
    by rewrite runtime_of_put in Hy end.
Qed.

Lemma holds_request_false b rq :
  book_wf b → holds_request b rq = false → ∀ m k l, lease_held b m k l → lease_request_id l ≠ rq.
Proof.
  intros Hb Hh m k l (r & Hr & Hk). unfold holds_request in Hh.
  rewrite dany_false in Hh by apply (bw_nodup b Hb). specialize (Hh m r Hr).
  destruct (bw_has_ledger b m r Hb Hr) as [e He].
  rewrite dany_false in Hh by apply (rw_lease_nodup _ _ _ _ (bw_runtime b Hb m r e Hr He)).
  specialize (Hh k l Hk). by apply bool_decide_eq_false in Hh.
Qed.

Lemma leases_fresh `{!PyEnvLaws} b m r :
  book_wf b → runtime b !! m = Some r → leases r !! uuid4_hex (uuid_calls b) = None.
Proof.
  intros Hb Hr. destruct (leases r !! _) as [l|] eqn:E; [|done]. exfalso.
  apply (uuid_used_fresh b). apply (bw_lease_ids b Hb m _ l). by exists r.
Qed.

Lemma wf_add_lease `{!PyEnvLaws} b m rq r e now :
  book_wf b → admissible b m rq r e →
  book_wf (put_runtime m (leased_runtime b r (new_lease b r m rq) now) (count_uuid b)).
Proof.
  intros Hb (Hr & He & Hrec & Hst & Hbl & Hcap & Hh).
  pose proof (holds_request_false b rq Hb Hh) as Hnew.
  pose proof (leases_fresh b m r Hb Hr) as Hfr.
  pose proof (bw_runtime b Hb m r e Hr He) as Hw.
  set (l := new_lease b r m rq).
  assert (∀ m0 k0 l0, lease_held (put_runtime m (leased_runtime b r l now) (count_uuid b)) m0 k0 l0 →
     (m0 = m ∧ k0 = lease_id l ∧ l0 = l) ∨ lease_held b m0 k0 l0) as Hheld.
  { intros m0 k0 l0 (r0 & Hr0 & Hk0). simpl in Hr0. rewrite dict_lookup_insert in Hr0.
    case_decide; simplify_eq; [|by right; exists r0]. simpl in Hk0.
    rewrite dict_lookup_insert in Hk0. case_decide; simplify_eq; [by left|right; by exists r]. }
  destruct (wf_count_uuid b Hb) as [Hnd Hlk Hsk Hl Hrt Hreq Hoid Hlid]. split; simpl; try done.
  - by apply dict_nodup_insert.
  - by rewrite (keys_insert_Some _ _ _ _ Hr).
  - by rewrite (keys_insert_Some _ _ _ _ Hr).
  - intros m0 r0 e0 Hr0 He0. rewrite dict_lookup_insert in Hr0.
    case_decide; simplify_eq; [|by apply Hrt]. clear Hrt Hreq Hoid Hlid Hheld Hnew.
    destruct Hw. split; simpl; try done; auto.
    + pose proof (dlen_insert_le (leases r) (uuid4_hex (uuid_calls b)) l). lia.
    + intros k l0. rewrite dict_lookup_insert. destruct (decide (_ = k)); [|apply rw_lease0]; intros Hl0;
      assert (l0 = l) as -> by congruence; by subst k.
    + by apply dict_nodup_insert.
    + intros k l0 Hc. rewrite dict_lookup_insert_ne; auto. intros <-.
      rewrite (rw_cancelling0 _ _ Hc) in Hfr. done.
  - intros m1 k1 l1 m2 k2 l2 H1 H2 Heq.
    apply Hheld in H1 as [(-> & -> & ->)|H1]; apply Hheld in H2 as [(-> & -> & ->)|H2]; eauto.
    + exfalso. by apply (Hnew _ _ _ H2).
    + exfalso. by apply (Hnew _ _ _ H1).
  - intros m0 r0 s Hr0 Hs. rewrite dict_lookup_insert in Hr0. case_decide; simplify_eq; eauto.
  - intros m0 k0 l0 [(-> & -> & ->)|Hk]%Hheld; [|eauto].
    exists (uuid_calls b). simpl. split; [lia|done].
Qed.

Lemma acquire_ready_wf `{!PyEnvLaws} m rq now : preserves book_wf (acquire_ready m rq now).
Proof.
  intros b Hb. destruct (acquire_ready m rq now b) as [b' [l|e]] eqn:E; simpl.
  - apply acquire_ready_ret in E as (r & e & Hadm & -> & ->). by eapply wf_add_lease.
  - by apply acquire_ready_raise in E as ->.
Qed.

Definition released_runtime b r (lease : Lease) (oc : Outcome) (now : time) (tokens : option Z) : Runtime :=
  let r1 := r <| leases ::= delete (lease_id lease) |> <| cancelling ::= delete (lease_id lease) |> in
  let r2 := match oc, tokens with
            | SUCCESS, None => r1 <| usage_unknown_requests ::= (Z.add 1) |>
            | SUCCESS, Some n =>
                r1 <| total_tokens ::= (Z.add n) |>
                   <| heat_value := (heat_of b r now + inject_Z n * token_weight b)%Q |>
                   <| heat_updated_at := now |>
            | ABORTED, _ => r1 <| state := ERROR |> <| admission_blocked := true |>
                               <| last_error := Some "request_aborted" |>
            | REJECTED, _ => r1
            end in
  if no_leases r2 then r2 <| idle_since := Some now |> else r2.

(** What [release] does on every branch. *)
Lemma release_eval b lease oc now tokens :
  release lease oc now tokens b =
  match runtime b !! lease_model_id lease with
  | None => (b, Raise (KeyError (lease_model_id lease)))
  | Some r =>
      if lease_mismatch r lease then (b, Ret false)
      else if match tokens with Some n => n <? 0 | None => false end
      then (b, Raise (ValueError "tokens must be a nonnegative integer"))
      else (put_runtime (lease_model_id lease) (released_runtime b r lease oc now tokens) b, Ret true)
  end.
Proof.
  unfold release, add_heat, set_runtime. run_unfold. unfold runtime_of at 1, of_option.
  destruct (runtime b !! lease_model_id lease) as [r|] eqn:Hr; [|done].
  destruct (lease_mismatch r lease); [done|]. destruct (match tokens with Some _ => _ | _ => _ end); [done|].
  unfold released_runtime.
  destruct oc; [destruct tokens| |]; repeat (rewrite runtime_of_put; cbv beta iota);
    rewrite ?put_runtime_put; unfold no_leases; simpl leases;
    change (dlen (leases _)) with (dlen (delete (lease_id lease) (leases r)));
    destruct (_ =? 0); rewrite ?put_runtime_put; done.
Qed.

Lemma lease_mismatch_false r lease :
  lease_mismatch r lease = false ↔ leases r !! lease_id lease = Some lease ∧ generation r = lease_generation lease.
Proof.
  unfold lease_mismatch. rewrite orb_false_iff, !negb_false_iff, bool_decide_eq_true, Z.eqb_eq. done.
Qed.

Lemma released_runtime_wf b m e r lease oc now tokens :
  runtime_wf (recovering b) m e r → leases r !! lease_id lease = Some lease →
  runtime_wf (recovering b) m e (released_runtime b r lease oc now tokens).
Proof.
  intros Hw Hl. assert (state r = READY ∨ state r = ERROR) as Hst.
  { apply (rw_lease_state _ _ _ _ Hw). intros Hz. rewrite dlen_empty_iff in Hz. by rewrite Hz in Hl. }
  pose proof (dlen_delete_le (leases r) (lease_id lease)) as Hle.
  destruct Hw as [Hres Hop Hls Hcap Hle' Hnd Hc Hbl Hrec Hgen].
  assert (∀ k l, (delete (lease_id lease) (leases r)) !! k = Some l →
    lease_id l = k ∧ lease_model_id l = m ∧ lease_generation l = generation r) as Hl2.
  { intros k l. rewrite dict_lookup_delete. destruct (decide (_ = k)); [done|apply Hle']. }
  assert (∀ k l, delete (lease_id lease) (cancelling r) !! k = Some l →
    delete (lease_id lease) (leases r) !! k = Some l) as Hc2.
  { intros k l. rewrite !dict_lookup_delete. destruct (decide (_ = k)); [done|apply Hc]. }
  unfold released_runtime. (destruct oc; [destruct tokens| |]); cbv beta iota zeta;
    destruct (no_leases _);
    (split; simpl; [repeat case_decide; intuition congruence|
      first [done|rewrite Hop; intuition congruence]|auto|lia|done
      |by apply dict_nodup_delete|done|auto|intros Hr; destruct (Hrec Hr); auto|done]).
Qed.

Lemma released_runtime_leases b r lease oc now tokens :
  leases (released_runtime b r lease oc now tokens) = delete (lease_id lease) (leases r).
Proof.
  unfold released_runtime. (destruct oc; [destruct tokens| |]); cbv beta iota zeta;
    by destruct (no_leases _).
Qed.

Lemma released_runtime_op b r lease oc now tokens :
  operation_id (released_runtime b r lease oc now tokens) = operation_id r.
Proof.
  unfold released_runtime. (destruct oc; [destruct tokens| |]); cbv beta iota zeta;
    by destruct (no_leases _).
Qed.

Lemma released_runtime_gen b r lease oc now tokens :
  generation (released_runtime b r lease oc now tokens) = generation r.
Proof.
  unfold released_runtime. (destruct oc; [destruct tokens| |]); cbv beta iota zeta;
    by destruct (no_leases _).
Qed.

Lemma release_wf lease oc now tokens : preserves book_wf (release lease oc now tokens).
Proof.
  intros b Hb. rewrite release_eval.
  destruct (runtime b !! lease_model_id lease) as [r|] eqn:Hr; [|done].
  destruct (lease_mismatch r lease) eqn:Hm; [done|]. apply lease_mismatch_false in Hm as [? ?].
  destruct (match tokens with Some _ => _ | _ => _ end); [done|]. open_runtime Hb. eapply wf_put_runtime; try done.
  - by apply released_runtime_wf.
  - intros k l. rewrite released_runtime_leases, dict_lookup_delete. by case_decide.
  - intros s. rewrite released_runtime_op. by eapply (bw_operation_ids b Hb).
Qed.

Lemma begin_cancel_wf lease : preserves book_wf (begin_cancel lease).
Proof.
  book_method Hb (@begin_cancel). open_runtime Hb.
  match goal with Hm : lease_mismatch _ _ = false |- _ => apply lease_mismatch_false in Hm as [Hl _] end.
  eapply wf_put_runtime; try done.
  - wf_runtime. intros k l. rewrite dict_lookup_insert.
    destruct (decide (_ = k)); intros; simplify_eq; auto.
  - intros s Hs. by eapply (bw_operation_ids b Hb).
Qed.

(** *** Batches *)
Lemma start_stop_eval b m :
  start_stop m b =
  match runtime b !! m with
  | None => (b, Raise (KeyError m))
  | Some r =>
      (put_runtime m (r <| state := EVICTING |> <| admission_blocked := true |>
                        <| operation_id := Some (uuid4_hex (uuid_calls b)) |>) (count_uuid b),
       Ret {| op_operation_id := uuid4_hex (uuid_calls b); op_model_id := m;
              op_generation := generation r; op_epoch := epoch b |})
  end.
Proof.
  unfold start_stop, uuid4, set_runtime. run_unfold. unfold runtime_of, of_option.
  by destruct (runtime b !! m).
Qed.

(** An idle model outside recovery. *)
Definition idle b m : Prop :=
  ∃ r, runtime b !! m = Some r ∧ (state r = READY ∨ state r = ERROR) ∧ dlen (leases r) = 0.

Lemma start_stop_wf b m :
  book_wf b → recovering b = false → idle b m → book_wf (start_stop m b).1.
Proof.
  intros Hb Hrec (r & Hr & Hst & Hl). rewrite start_stop_eval, Hr. simpl. open_runtime Hb.
  eapply wf_put_runtime; [by apply wf_count_uuid|done|done| |done|].
  - rewrite Hrec in Hw. simpl. rewrite Hrec. wf_runtime.
  - intros s [= <-]. exists (uuid_calls b). split; [simpl; lia|done].
Qed.

Lemma start_stop_other b m m' :
  m ≠ m' → runtime (start_stop m b).1 !! m' = runtime b !! m'.
Proof.
  intros Hne. rewrite start_stop_eval. case_match; [|done]. simpl. by rewrite dict_lookup_insert_ne.
Qed.

Lemma start_stop_recovering b m : recovering (start_stop m b).1 = recovering b.
Proof. rewrite start_stop_eval. by case_match. Qed.

Lemma map_start_stop_wf ms : ∀ b,
  book_wf b → recovering b = false → NoDup ms → (∀ m, m ∈ ms → idle b m) →
  book_wf (map_each ms start_stop b).1.
Proof.
  induction ms as [|m ms IH]; intros b Hb Hrec Hnd Hi; [done|].
  apply NoDup_cons in Hnd as [Hm Hnd]. simpl. unfold mbind, pym_bind.
  pose proof (start_stop_wf b m Hb Hrec (Hi m (list_elem_of_here _ _))) as Hb1.
  pose proof (start_stop_recovering b m) as Hrec1.
  assert (∀ m', m' ∈ ms → idle (start_stop m b).1 m') as Hi1.
  { intros m' Hm'. destruct (Hi m' (list_elem_of_further _ _ _ Hm')) as (r & Hr & Hx).
    exists r. rewrite start_stop_other; [done|]. by intros ->. }
  destruct (start_stop m b) as [b1 [op|e]]; simpl in *; [|done].
  specialize (IH b1 Hb1 ltac:(congruence) Hnd Hi1).
  destruct (map_each ms start_stop b1) as [b2 [ops|e]]; done.
Qed.

Lemma bad_batch_false b ms :
  bad_batch b ms = false → recovering b = false ∧ ms ≠ [] ∧ NoDup ms.
Proof. unfold bad_batch. intros. bool_prop. auto. Qed.

Lemma eviction_check_ret b auto m :
  eviction_check b auto m = Ret tt →
  ∃ r e, runtime b !! m = Some r ∧ ledger b !! m = Some e ∧ state r = READY ∧ dlen (leases r) = 0 ∧
    truthy (operation_id r) = false ∧ led_pinned e = false ∧ (auto = true → led_evictable e = true).
Proof.
  unfold eviction_check, runtime_of, ledger_spec, of_option, no_leases. run_unfold. intros.
  repeat case_match; simplify_eq; bool_prop. eexists _, _; split_and!; try done.
  intros ?. match goal with Ho : _ ∨ _ |- _ => destruct Ho end; bool_prop; congruence.
Qed.

Lemma cleanup_check_ret b m :
  cleanup_check b m = Ret tt →
  ∃ r, runtime b !! m = Some r ∧ (state r = READY ∨ state r = ERROR) ∧ dlen (leases r) = 0 ∧
    truthy (operation_id r) = false.
Proof.
  unfold cleanup_check, runtime_of, of_option, no_leases. run_unfold. intros.
  repeat case_match; simplify_eq; bool_prop. eexists; split_and!; try done.
  match goal with Ho : _ ∨ _ |- _ => destruct Ho end; bool_prop; auto.
Qed.

Lemma begin_eviction_wf ms auto : preserves book_wf (begin_eviction ms auto).
Proof.
  intros b Hb. unfold begin_eviction. run_unfold. destruct (bad_batch b ms) eqn:Hbad; [done|].
  apply bad_batch_false in Hbad as (? & ? & ?).
  destruct (check_each ms _) as [[]|] eqn:Hc; [|done].
  apply map_start_stop_wf; try done. intros m Hm. rewrite check_each_ret in Hc.
  apply Hc, eviction_check_ret in Hm as (r & e & ? & ? & ? & ? & _). exists r. auto.
Qed.

Lemma begin_cleanup_wf ms : preserves book_wf (begin_cleanup ms).
Proof.
  intros b Hb. unfold begin_cleanup. run_unfold. destruct (bad_batch b ms) eqn:Hbad; [done|].
  apply bad_batch_false in Hbad as (? & ? & ?).
  destruct (check_each ms _) as [[]|] eqn:Hc; [|done].
  apply map_start_stop_wf; try done. intros m Hm. rewrite check_each_ret in Hc.
  apply Hc, cleanup_check_ret in Hm as (r & ? & ? & ? & _). exists r. auto.
Qed.

(** *** Freezing admission *)
Lemma wf_set_blocked b m r v :
  book_wf b → runtime b !! m = Some r →
  (v = false → state r ≠ EVICTING ∧ state r ≠ ERROR ∧ recovering b = false) →
  book_wf (put_runtime m (r <| admission_blocked := v |>) b).
Proof.
  intros Hb Hr Hv. open_runtime Hb. eapply wf_put_runtime; try done.
  - destruct Hw as [Hres Hop Hls Hcap Hl Hnd Hc Hbl Hrec Hgen]. split; simpl; try done.
    + destruct v; [done|]. destruct Hv as (? & ? & ?); [done|]. by intros [?|?].
    + intros Hx. destruct v; [destruct (Hrec Hx); auto|]. destruct Hv as (? & ? & ?); congruence.
  - intros s Hs. by eapply (bw_operation_ids b Hb).
Qed.

Lemma freeze_for_switch_wf ms : preserves book_wf (freeze_for_switch ms).
Proof.
  intros b Hb. unfold freeze_for_switch. run_unfold. destruct (bad_batch b ms); [done|].
  destruct (check_each ms _) as [[]|]; [|done]. revert b Hb.
  apply preserves_for_each. intros m b Hb. unfold set_runtime. run_unfold.
  destruct (runtime_of b m) as [r|] eqn:Hr; [|done]. apply runtime_of_ret in Hr.
  by apply wf_set_blocked.
Qed.

Lemma unfreeze_switch_wf ms : preserves book_wf (unfreeze_switch ms).
Proof.
  apply preserves_for_each. intros m b Hb. unfold unfreeze_one, set_runtime. run_unfold.
  destruct (runtime_of b m) as [r|] eqn:Hr; [|done]. apply runtime_of_ret in Hr.
  case_match; [|done]. bool_prop. apply wf_set_blocked; try done. intros _.
  destruct (bw_has_ledger b m r Hb Hr) as [e He].
  destruct (bw_runtime b Hb m r e Hr He) as [_ _ _ _ _ _ _ _ Hrec _].
  split_and!; try congruence. destruct (recovering b); [|done].
  destruct (Hrec eq_refl) as [[?|?] ?]; congruence.
Qed.

(** *** Recovery *)
Lemma wf_map_runtimes b (f : Runtime → Runtime) rec ep :
  book_wf b →
  (∀ m e r, runtime b !! m = Some r → runtime_wf (recovering b) m e r → runtime_wf rec m e (f r)) →
  (∀ r, leases (f r) = leases r) → (∀ r, operation_id (f r) = None) →
  book_wf (b <| epoch := ep |> <| recovering := rec |> <| runtime ::= dmap (fun _ => f) |>).
Proof.
  intros [Hnd Hlk Hsk Hl Hrt Hreq Hoid Hlid] Hf Hlf Hof.
  assert (∀ m k l, lease_held (b <| epoch := ep |> <| recovering := rec |>
      <| runtime ::= dmap (fun _ => f) |>) m k l → lease_held b m k l) as Hheld.
  { intros m k l (r & Hr & Hk). simpl in Hr. rewrite dict_lookup_dmap in Hr.
    destruct (runtime b !! m) as [r0|] eqn:E; simplify_eq/=. exists r0. by rewrite Hlf in Hk. }
  split; simpl; try done.
  - by apply dict_nodup_dmap.
  - by rewrite keys_dmap.
  - by rewrite keys_dmap.
  - intros m r e. rewrite dict_lookup_dmap. intros Hr He.
    destruct (runtime b !! m) as [r0|] eqn:E; simplify_eq/=. eauto.
  - intros m1 k1 l1 m2 k2 l2 H1%Hheld H2%Hheld. eauto.
  - intros m r s. rewrite dict_lookup_dmap. intros Hr Hs.
    destruct (runtime b !! m) as [r0|] eqn:E; simplify_eq/=. by rewrite Hof in Hs.
  - intros m k l Hk%Hheld. eauto.
Qed.

Lemma begin_recovery_wf : preserves book_wf begin_recovery.
Proof.
  intros b Hb. unfold begin_recovery. run_unfold. destruct (recovering b) eqn:Hrec; [done|].
  simpl fst. apply wf_map_runtimes; try done.
  - intros m e r Hr Hw. rewrite Hrec in Hw. unfold recovering_runtime.
    destruct Hw as [Hres Hop Hls Hcap Hl Hnd Hc Hbl _ Hgen].
    case_bool_decide as Hu; simpl in Hu.
    + split; simpl; auto. rewrite Hu. split; [by intros [? ?]|by intros [?|?]].
    + rewrite decide_False in Hres by done.
      split; simpl; auto. split; [by intros [? ?]|by intros [?|?]].
  - intros r. unfold recovering_runtime. by case_bool_decide.
  - intros r. unfold recovering_runtime. by case_bool_decide.
Qed.

Lemma finish_recovery_wf ep cs : preserves book_wf (finish_recovery ep cs).
Proof.
  intros b Hb. unfold finish_recovery. run_unfold.
  destruct (negb (recovering b) || _); [done|].
  destruct (negb (same_set _ _) || dany _ (runtime b)) eqn:Hg; [done|]. bool_prop.
  simpl fst. apply (wf_map_runtimes b recovered_runtime false (epoch b) Hb); try done.
  intros m e r Hr Hw. match goal with Hd : dany _ _ = false |- _ =>
    rewrite dany_false in Hd by apply (bw_nodup b Hb); specialize (Hd m r Hr) end.
  unfold no_leases in *. bool_prop.
  destruct Hw as [Hres Hop Hls Hcap Hl Hnd Hc Hbl _ Hgen]. split; simpl; auto; try done.
  - split; [by intros [? ?]|by intros [?|?]].
  - by intros [?|?].
Qed.
End preservation.

(** ** The book as a transition system

    One constructor per state-changing method of [Book], with its arguments: any
    interleaving of the coroutines that share a book is a sequence of calls. *)
Inductive call :=
| CBootstrap (m : string)
| CBeginLoad (m : string) (s : MemorySample) (now : time)
| CLoaded (op : Operation) (now : time)
| CFailed (op : Operation) (code : option string)
| CAcquire (m rq : string) (now : time)
| CRelease (l : Lease) (oc : Outcome) (now : time) (tokens : option Z)
| CCancel (l : Lease)
| CEvict (ms : list string) (automatic : bool)
| CFreeze (ms : list string)
| CUnfreeze (ms : list string)
| CCleanup (ms : list string)
| CRollback (op : Operation)
| CStopped (op : Operation) (now : option time)
| CBeginRecovery
| CFinishRecovery (ep : Z) (confirmed : list string).

Section system.
Context `{PyEnv}.

Definition exec (c : call) (b : Book) : Book :=
  match c with
  | CBootstrap m => (bootstrap_stopped m b).1
  | CBeginLoad m s now => (begin_load m s now b).1
  | CLoaded op now => (loaded op now b).1
  | CFailed op code => (failed op code b).1
  | CAcquire m rq now => (acquire_ready m rq now b).1
  | CRelease l oc now tk => (release l oc now tk b).1
  | CCancel l => (begin_cancel l b).1
  | CEvict ms a => (begin_eviction ms a b).1
  | CFreeze ms => (freeze_for_switch ms b).1
  | CUnfreeze ms => (unfreeze_switch ms b).1
  | CCleanup ms => (begin_cleanup ms b).1
  | CRollback op => (rollback_unsent op b).1
  | CStopped op now => (stopped op now b).1
  | CBeginRecovery => (begin_recovery b).1
  | CFinishRecovery ep cs => (finish_recovery ep cs b).1
  end.

Definition exec_all (cs : list call) (b : Book) : Book := foldl (fun b c => exec c b) b cs.

Lemma exec_wf `{!PyEnvLaws} c b : book_wf b → book_wf (exec c b).
Proof.
  intros Hb. destruct c; simpl;
    [apply bootstrap_stopped_wf|apply begin_load_wf|apply loaded_wf|apply failed_wf
    |apply acquire_ready_wf|apply release_wf|apply begin_cancel_wf|apply begin_eviction_wf
    |apply freeze_for_switch_wf|apply unfreeze_switch_wf|apply begin_cleanup_wf
    |apply rollback_unsent_wf|apply stopped_wf|apply begin_recovery_wf|apply finish_recovery_wf]; done.
Qed.

Lemma exec_all_wf `{!PyEnvLaws} cs b : book_wf b → book_wf (exec_all cs b).
Proof. revert b. induction cs as [|c cs IH]; simpl; [done|]. intros b Hb. by apply IH, exec_wf. Qed.

Lemma ledger_of_specs_keys l mg es :
  ledger_of_specs l mg = Ret es → es.*1 = l.*1.
Proof.
  revert es. induction l as [|[mid sp] l IH]; simpl; intros es; run_unfold; [naive_solver|].
  intros. repeat case_match; simplify_eq/=. f_equal. auto.
Qed.

Lemma from_registration_wf sp mg e :
  from_registration sp mg = Ret e →
  0 < led_effective_reserved_bytes e ∧ 0 ≤ default 0 (led_physical_reserved_bytes e).
Proof.
  unfold from_registration. run_unfold. intros.
  repeat case_match; simplify_eq/=;
    repeat match goal with
    | Hx : effective_reserved_bytes _ _ = Ret _ |- _ => apply effective_reserved_ge in Hx
    | Hx : physical_reserved_bytes_from_peak _ = Ret _ |- _ => apply physical_reserved_ret in Hx
    end; lia.
Qed.

Lemma ledger_of_specs_wf l mg es k e :
  ledger_of_specs l mg = Ret es → (k, e) ∈ es →
  0 < led_effective_reserved_bytes e ∧ 0 ≤ default 0 (led_physical_reserved_bytes e).
Proof.
  revert es. induction l as [|[mid sp] l IH]; simpl; intros es; run_unfold.
  { intros [= <-] ?%not_elem_of_nil. done. }
  intros. repeat case_match; simplify_eq/=.
  match goal with Hx : _ ∈ _ :: _ |- _ => apply elem_of_cons in Hx as [?|?] end; simplify_eq; eauto.
  by eapply from_registration_wf.
Qed.

(** A dict passed to the constructor has distinct keys, as every Python dict. *)
Lemma Book_init_wf sp bud fl mg age hl rw tw b :
  dict_nodup sp → Book_init sp bud fl mg age hl rw tw = Ret b → book_wf b.
Proof.
  unfold Book_init. run_unfold. intros Hnd Hi.
  destruct (ledger_of_specs (entries sp) mg) as [es|] eqn:Hes; repeat case_match; simplify_eq/=; try done.
  pose proof (ledger_of_specs_keys _ _ _ Hes) as Hk.
  assert (dict_nodup (Dict es)) as Hnd'. { unfold dict_nodup, keys; simpl. by rewrite Hk. }
  split; simpl; try done.
  - by apply dict_nodup_dmap.
  - by rewrite keys_dmap.
  - rewrite keys_dmap. done.
  - intros m e He. pose proof (ledger_of_specs_wf _ _ _ _ _ Hes (lookup_entries _ _ _ He)) as [? ?].
    unfold physical_figure; simpl. rewrite He. split_and!; try done.
    match goal with Hd : dany _ _ = false |- _ =>
      rewrite dany_false in Hd by done; specialize (Hd m e He); simpl in Hd end. bool_prop. lia.
  - intros m r e Hr He. rewrite dict_lookup_dmap, He in Hr. simplify_eq/=.
    pose proof (ledger_of_specs_wf _ _ _ _ _ Hes (lookup_entries _ _ _ He)) as [? ?].
    match goal with Hd : dany _ _ = false |- _ =>
      rewrite dany_false in Hd by done; specialize (Hd m e He); simpl in Hd end. bool_prop.
    split; simpl; try done; try (by intros [?|?]).
    + split; [by intros [? ?]|by intros [?|?]].
    + unfold dlen; simpl. lia.
    + apply dict_nodup_empty.
  - intros m1 k1 l1 m2 k2 l2 (r & Hr & Hl). simpl in Hr. rewrite dict_lookup_dmap in Hr.
    destruct (_ !! m1); simplify_eq/=.
  - intros m r s. rewrite dict_lookup_dmap. destruct (_ !! m); intros; simplify_eq/=.
  - intros m k l (r & Hr & Hl). simpl in Hr. rewrite dict_lookup_dmap in Hr.
    destruct (_ !! m); simplify_eq/=.
Qed.
End system.
