(* ===== verification/RegistryProps.v ===== *)
(** * What the accounting book guarantees

    The lifecycle diagram every method follows, the two memory budgets, the
    operation tokens, the leases, and recovery; each closing theorem is stated
    for arbitrary sequences of method calls. *)

From S2P Require Import Prelude Dict Env Contracts Registry RegistryFacts.
Local Open Scope Z_scope.

(** ** The lifecycle diagram

    The abstract specification of one model: the edges a single method call may
    take.  [may_load] is set for [begin_load] only. *)
Inductive lifecycle (may_load : bool) : State → State → Prop :=
| L_stay s : lifecycle may_load s s
| L_bootstrap : lifecycle may_load UNKNOWN UNLOADED
| L_load : may_load = true → lifecycle may_load UNLOADED LOADING
| L_loaded : lifecycle may_load LOADING READY
| L_load_failed : lifecycle may_load LOADING ERROR
| L_evict : lifecycle may_load READY EVICTING
| L_cleanup : lifecycle may_load ERROR EVICTING
| L_rollback : lifecycle may_load EVICTING READY
| L_stopped : lifecycle may_load EVICTING UNLOADED
| L_stop_failed : lifecycle may_load EVICTING ERROR
| L_aborted : lifecycle may_load READY ERROR
| L_recovering : lifecycle may_load UNKNOWN ERROR
| L_recovered : lifecycle may_load ERROR UNLOADED.
#[export] Hint Constructors lifecycle : core.

Definition is_load (c : call) : bool := match c with CBeginLoad _ _ _ => true | _ => false end.

Section lifecycle.
Context `{PyEnv}.
Implicit Types (b : Book) (r : Runtime) (m : string).

(** How one call may change one runtime record: the lifecycle edge, the origin
    of its operation token, and the generation counter. *)
Record evolves (ml : bool) b r r' : Prop := {
  ev_state : lifecycle ml (state r) (state r');
  ev_operation : operation_id r' = None ∨ operation_id r' = operation_id r ∨
    ∃ i, (uuid_calls b ≤ i)%nat ∧ operation_id r' = Some (uuid4_hex i);
  ev_generation : generation r ≤ generation r';
}.

Definition moves (ml : bool) b b' : Prop :=
  ∀ m r, runtime b !! m = Some r → ∃ r', runtime b' !! m = Some r' ∧ evolves ml b r r'.

Lemma evolves_refl ml b r : evolves ml b r r.
Proof. split; auto. lia. Qed.

Lemma moves_refl ml b : moves ml b b.
Proof. intros m r Hr. eauto using evolves_refl. Qed.

Lemma moves_put ml b m r r' :
  runtime b !! m = Some r → evolves ml b r r' → moves ml b (put_runtime m r' b).
Proof.
  intros Hr Hl m0 r0 Hr0. simpl. rewrite dict_lookup_insert.
  case_decide; simplify_eq; eauto using evolves_refl.
Qed.

Lemma moves_put_count ml b m r r' :
  runtime b !! m = Some r → evolves ml b r r' → moves ml b (put_runtime m r' (count_uuid b)).
Proof. intros. apply (moves_put ml b m r r'); done. Qed.

Lemma moves_dmap b (f : Runtime → Runtime) ml ep rec :
  (∀ m r, runtime b !! m = Some r → evolves ml b r (f r)) →
  moves ml b (b <| epoch := ep |> <| recovering := rec |> <| runtime ::= dmap (fun _ => f) |>).
Proof.
  intros Hf m r Hr. simpl. rewrite dict_lookup_dmap, Hr. simpl. eauto.
Qed.

(** The stop loop gives every batch member a new token and touches nothing else. *)
Lemma map_start_stop_lookup ms : ∀ b m r,
  NoDup ms → (∀ x, x ∈ ms → is_Some (runtime b !! x)) → runtime b !! m = Some r →
  ∃ r', runtime (map_each ms start_stop b).1 !! m = Some r' ∧
    if decide (m ∈ ms)
    then ∃ i, (uuid_calls b ≤ i)%nat ∧
           r' = r <| state := EVICTING |> <| admission_blocked := true |>
                  <| operation_id := Some (uuid4_hex i) |>
    else r' = r.
Proof.
  induction ms as [|x ms IH]; intros b m r Hnd Hall Hr.
  { exists r. rewrite decide_False; [done|apply not_elem_of_nil]. }
  apply NoDup_cons in Hnd as [Hx Hnd]. simpl. unfold mbind, pym_bind.
  destruct (Hall x (list_elem_of_here _ _)) as [rx Hrx].
  pose proof (start_stop_eval b x) as He. rewrite Hrx in He. rewrite He. simpl.
  set (b1 := put_runtime x _ _).
  assert (∀ y, y ∈ ms → is_Some (runtime b1 !! y)) as Hall1.
  { intros y Hy. destruct (decide (y = x)) as [->|Hne]; [done|].
    subst b1. simpl. rewrite dict_lookup_insert_ne by done. apply Hall. by apply list_elem_of_further. }
  destruct (decide (m = x)) as [->|Hne].
  - destruct (IH b1 x _ Hnd Hall1 (dict_lookup_insert_eq _ _ _)) as (r' & Hr' & Hs').
    rewrite decide_False in Hs' by done. exists r'. simplify_eq.
    split; [by destruct (map_each ms start_stop b1) as [? [?|?]]|].
    rewrite decide_True; [eauto|apply list_elem_of_here].
  - destruct (IH b1 m r Hnd Hall1) as (r' & Hr' & Hs').
    { subst b1. simpl. by rewrite dict_lookup_insert_ne. }
    exists r'. split; [by destruct (map_each ms start_stop b1) as [? [?|?]]|].
    destruct (decide (m ∈ ms)) as [Hm|Hm].
    + rewrite decide_True by (by apply list_elem_of_further).
      destruct Hs' as (i & Hi & ->). exists i. split; [simpl in Hi; lia|done].
    + rewrite decide_False; [done|]. by intros [?|?]%elem_of_cons.
Qed.

Lemma map_start_stop_ret ms : ∀ b,
  NoDup ms → (∀ x, x ∈ ms → is_Some (runtime b !! x)) →
  ∃ ops, (map_each ms start_stop b).2 = Ret ops ∧ op_model_id <$> ops = ms.
Proof.
  induction ms as [|x ms IH]; intros b Hnd Hall; [by exists []|].
  apply NoDup_cons in Hnd as [Hx Hnd]. simpl. unfold mbind, pym_bind.
  destruct (Hall x (list_elem_of_here _ _)) as [rx Hrx].
  pose proof (start_stop_eval b x) as He. rewrite Hrx in He. rewrite He. simpl.
  set (b1 := put_runtime x _ _).
  destruct (IH b1 Hnd) as (ops & Hops & Hids).
  { intros y Hy. subst b1. simpl. rewrite dict_lookup_insert. case_decide; [done|].
    apply Hall. by apply list_elem_of_further. }
  destruct (map_each ms start_stop b1) as [b2 o]. simpl in Hops. subst o. simpl.
  eexists. split; [done|]. csimpl. by f_equal.
Qed.

Lemma start_stop_epoch ms b : epoch (map_each ms start_stop b).1 = epoch b.
Proof.
  revert b. induction ms as [|x ms IH]; intros b; [done|]. simpl. unfold mbind, pym_bind.
  rewrite start_stop_eval. destruct (runtime b !! x) as [r|]; [|done].
  set (b1 := put_runtime x _ _). specialize (IH b1). by destruct (map_each ms start_stop b1) as [b2 [?|?]].
Qed.

(** Every token the loop answers is the one its model holds afterwards. *)
Lemma map_start_stop_tokens ms : ∀ b ops,
  NoDup ms → (∀ x, x ∈ ms → is_Some (runtime b !! x)) → (map_each ms start_stop b).2 = Ret ops →
  ∀ op, op ∈ ops → ∃ r, operation_runtime (map_each ms start_stop b).1 op = Ret r.
Proof.
  induction ms as [|x ms IH]; intros b ops Hnd Hall; simpl.
  { intros [= <-] op ?%not_elem_of_nil. done. }
  apply NoDup_cons in Hnd as [Hx Hnd]. unfold mbind, pym_bind.
  destruct (Hall x (list_elem_of_here _ _)) as [rx Hrx]. rewrite start_stop_eval, Hrx.
  set (b1 := put_runtime x _ _). set (t := {| op_operation_id := _ |}).
  assert (∀ y, y ∈ ms → is_Some (runtime b1 !! y)) as Hall1.
  { intros y Hy. subst b1. simpl. rewrite dict_lookup_insert. case_decide; [done|].
    apply Hall. by apply list_elem_of_further. }
  destruct (map_start_stop_lookup ms b1 x _ Hnd Hall1 (dict_lookup_insert_eq _ _ _)) as (r' & Hr' & Hs').
  rewrite decide_False in Hs' by done. specialize (IH b1). pose proof (start_stop_epoch ms b1) as Hep.
  destruct (map_each ms start_stop b1) as [b2 [ops'|e]]; [|done]. simpl in *. intros [= <-] op Hop.
  apply elem_of_cons in Hop as [->|Hop]; [|by eapply IH]. exists r'. apply operation_runtime_ret. by subst.
Qed.

Lemma map_start_stop_moves ms b :
  NoDup ms → (∀ x, x ∈ ms → idle b x) → moves false b (map_each ms start_stop b).1.
Proof.
  intros Hnd Hi m r Hr.
  destruct (map_start_stop_lookup ms b m r Hnd) as (r' & Hr' & Hs); [|done|].
  { intros x Hx. destruct (Hi x Hx) as (rx & ? & _). eauto. }
  exists r'. split; [done|]. destruct (decide (m ∈ ms)) as [Hm|]; [|subst; apply evolves_refl].
  destruct Hs as (i & Hi' & ->). split; simpl; [|eauto|lia].
  destruct (Hi m Hm) as (r0 & Hr0 & [Hst|Hst] & _); simplify_eq; rewrite Hst; auto.
Qed.

Lemma for_each_moves_blocked ms b v (g : Runtime → bool) :
  moves false b (for_each ms (fun m => b ← get; r ← lift (runtime_of b m);
    if g r then set_runtime m (r <| admission_blocked := v |>) else mret tt) b).1.
Proof.
  assert (preserves (moves false b) (for_each ms (fun m => b ← get; r ← lift (runtime_of b m);
    if g r then set_runtime m (r <| admission_blocked := v |>) else mret tt))) as Hp; [|by apply Hp, moves_refl].
  apply preserves_for_each. intros m b1 Hb1. unfold set_runtime. run_unfold.
  destruct (runtime_of b1 m) as [r1|] eqn:Hr1; [|done]. apply runtime_of_ret in Hr1.
  destruct (g r1); [|done]. intros m0 r0 Hr0. destruct (Hb1 m0 r0 Hr0) as (r2 & Hr2 & [? ? ?]).
  simpl. rewrite dict_lookup_insert. case_decide; simplify_eq; (eexists; split; [done|]); by split.
Qed.

End lifecycle.

(** A method that replaces the record of one model it has just read. *)
Ltac moves_single Hb f :=
  unfold f, uuid4, set_runtime; run_unfold;
  repeat case_match; simplify_eq; try apply moves_refl; bool_prop; open_runtime Hb;
  first [eapply moves_put; [done|]|eapply moves_put_count; [done|]];
  (split; simpl; [|eauto|lia]);
  repeat match goal with Hs : state _ = _ |- _ => rewrite Hs end; auto.

Section moves.
Context `{PyEnv}.
Implicit Types (b : Book) (r : Runtime) (m : string).

Lemma bootstrap_moves b m : book_wf b → moves false b (bootstrap_stopped m b).1.
Proof. intros Hb. moves_single Hb (@bootstrap_stopped). Qed.

Lemma loaded_moves b op now : book_wf b → moves false b (loaded op now b).1.
Proof. intros Hb. moves_single Hb (@loaded). Qed.

Lemma rollback_moves b op : book_wf b → moves false b (rollback_unsent op b).1.
Proof. intros Hb. moves_single Hb (@rollback_unsent). Qed.

Lemma stopped_moves b op now : book_wf b → moves false b (stopped op now b).1.
Proof. intros Hb. moves_single Hb (@stopped). Qed.

Lemma begin_cancel_moves b l : book_wf b → moves false b (begin_cancel l b).1.
Proof. intros Hb. moves_single Hb (@begin_cancel). Qed.

Lemma failed_moves b op code : book_wf b → moves false b (failed op code b).1.
Proof.
  intros Hb. moves_single Hb (@failed).
  destruct (rw_operation_state _ _ _ _ _ Hw ltac:(eassumption)) as [Hs|Hs]; rewrite Hs; auto.
Qed.

Lemma begin_load_moves b m s now : book_wf b → moves true b (begin_load m s now b).1.
Proof.
  intros Hb. moves_single Hb (@begin_load). subst.
  match goal with Hc : can_load _ _ _ _ = Ret true |- _ =>
    apply can_load_true in Hc as (r & e' & ? & ? & ? & Hst & _) end. simplify_eq. rewrite Hst. auto.
Qed.

Lemma acquire_ready_moves b m rq now : book_wf b → moves false b (acquire_ready m rq now b).1.
Proof.
  intros Hb. destruct (acquire_ready m rq now b) as [b' [l|e]] eqn:E; simpl.
  - apply acquire_ready_ret in E as (r & e & (Hr & _) & -> & ->).
    eapply moves_put_count; [done|]. split; simpl; auto. lia.
  - apply acquire_ready_raise in E as ->. apply moves_refl.
Qed.

Lemma lease_state b m r k l :
  book_wf b → runtime b !! m = Some r → leases r !! k = Some l → state r = READY ∨ state r = ERROR.
Proof.
  intros Hb Hr Hl. open_runtime Hb. apply (rw_lease_state _ _ _ _ Hw). intros Hz.
  rewrite dlen_empty_iff in Hz. by rewrite Hz in Hl.
Qed.

Lemma release_moves b l oc now tk : book_wf b → moves false b (release l oc now tk b).1.
Proof.
  intros Hb. rewrite release_eval.
  destruct (runtime b !! lease_model_id l) as [r|] eqn:Hr; [|apply moves_refl].
  destruct (lease_mismatch r l) eqn:Hm; [apply moves_refl|]. apply lease_mismatch_false in Hm as [Hl _].
  destruct (match tk with Some _ => _ | _ => _ end); [apply moves_refl|].
  eapply moves_put; [done|]. pose proof (lease_state b _ r _ l Hb Hr Hl) as Hst.
  split; [|right; left; apply released_runtime_op|rewrite released_runtime_gen; lia].
  unfold released_runtime. (destruct oc; [destruct tk| |]); cbv beta iota zeta;
    destruct (no_leases _); simpl; auto; destruct Hst as [-> | ->]; auto.
Qed.

Lemma begin_eviction_moves b ms auto : moves false b (begin_eviction ms auto b).1.
Proof.
  unfold begin_eviction. run_unfold. destruct (bad_batch b ms) eqn:Hbad; [apply moves_refl|].
  apply bad_batch_false in Hbad as (_ & _ & Hnd).
  destruct (check_each ms _) as [[]|] eqn:Hc; [|apply moves_refl]. rewrite check_each_ret in Hc.
  apply map_start_stop_moves; [done|]. intros x Hx.
  apply Hc, eviction_check_ret in Hx as (r & e & ? & ? & ? & ? & _). exists r. auto.
Qed.

Lemma begin_cleanup_moves b ms : moves false b (begin_cleanup ms b).1.
Proof.
  unfold begin_cleanup. run_unfold. destruct (bad_batch b ms) eqn:Hbad; [apply moves_refl|].
  apply bad_batch_false in Hbad as (_ & _ & Hnd).
  destruct (check_each ms _) as [[]|] eqn:Hc; [|apply moves_refl]. rewrite check_each_ret in Hc.
  apply map_start_stop_moves; [done|]. intros x Hx.
  apply Hc, cleanup_check_ret in Hx as (r & ? & ? & ? & _). exists r. auto.
Qed.

Lemma freeze_moves b ms : moves false b (freeze_for_switch ms b).1.
Proof.
  unfold freeze_for_switch. run_unfold. destruct (bad_batch b ms); [apply moves_refl|].
  destruct (check_each ms _) as [[]|]; [|apply moves_refl].
  apply (for_each_moves_blocked ms b true (fun _ => true)).
Qed.

Lemma begin_recovery_moves b : moves false b (begin_recovery b).1.
Proof.
  unfold begin_recovery. run_unfold. destruct (recovering b); [apply moves_refl|].
  apply moves_dmap. intros m r Hr. unfold recovering_runtime.
  case_bool_decide as Hu; simpl in Hu; split; simpl; auto; try lia. destruct (state r); auto. done.
Qed.

Lemma finish_recovery_moves b ep cs : book_wf b → moves false b (finish_recovery ep cs b).1.
Proof.
  intros Hb. unfold finish_recovery. run_unfold.
  destruct (negb (recovering b) || _) eqn:Hrec; [apply moves_refl|].
  bool_prop. destruct (negb (same_set _ _) || _); [apply moves_refl|].
  apply (moves_dmap b recovered_runtime false (epoch b) false). intros m r Hr. open_runtime Hb.
  destruct (rw_recovering _ _ _ _ Hw) as [[Hs|Hs] _]; [done|..];
    (split; simpl; auto; try lia; rewrite Hs; auto).
Qed.

(** Every method call moves every model along the diagram. *)
Lemma exec_moves c b : book_wf b → moves (is_load c) b (exec c b).
Proof.
  intros Hb. destruct c; simpl;
    [by apply bootstrap_moves|by apply begin_load_moves|by apply loaded_moves|by apply failed_moves
    |by apply acquire_ready_moves|by apply release_moves|by apply begin_cancel_moves
    |by apply begin_eviction_moves|by apply freeze_moves| |by apply begin_cleanup_moves
    |by apply rollback_moves|by apply stopped_moves|by apply begin_recovery_moves
    |by apply finish_recovery_moves].
  apply (for_each_moves_blocked ms b false
           (fun r => bool_decide (state r = READY) && bool_decide (operation_id r = None))).
Qed.
End moves.

(** ** What no call changes, and what only grows *)
Section frame.
Context `{PyEnv}.
Implicit Types (b : Book) (r : Runtime) (m : string).

(** The settings are fixed; the epoch and the identifier supply only grow. *)
Definition extends b b' : Prop :=
  same_settings b b' ∧ epoch b ≤ epoch b' ∧ (uuid_calls b ≤ uuid_calls b')%nat.

Lemma extends_refl b : extends b b.
Proof. split; [apply same_settings_refl|lia]. Qed.

Lemma extends_trans b1 b2 b3 : extends b1 b2 → extends b2 b3 → extends b1 b3.
Proof. intros (? & ? & ?) (? & ? & ?). split; [by eapply same_settings_trans|lia]. Qed.

Lemma extends_put b0 b m r : extends b0 b → extends b0 (put_runtime m r b).
Proof. done. Qed.

Lemma extends_count b0 b : extends b0 b → extends b0 (count_uuid b).
Proof. intros (? & ? & ?). split; [done|]. simpl. lia. Qed.

Lemma start_stop_extends b0 m : preserves (extends b0) (start_stop m).
Proof.
  intros b Hb. rewrite start_stop_eval. case_match; [|done]. by apply extends_put, extends_count.
Qed.

Lemma exec_extends c b : extends b (exec c b).
Proof.
  pose proof (extends_refl b) as Hr.
  destruct c; simpl;
    unfold bootstrap_stopped, begin_load, loaded, failed, begin_cancel, begin_eviction,
      freeze_for_switch, unfreeze_switch, begin_cleanup, rollback_unsent, stopped,
      begin_recovery, finish_recovery, uuid4, set_runtime;
    try (rewrite release_eval); run_unfold;
    try (repeat case_match; simplify_eq; try done; by apply extends_put, extends_count).
  - destruct (acquire_ready m rq now b) as [b' [l|e]] eqn:E; simpl.
    + apply acquire_ready_ret in E as (r & e & _ & -> & ->). by apply extends_put, extends_count.
    + by apply acquire_ready_raise in E as ->.
  - case_match; [done|]. case_match; [|done].
    apply (preserves_map_each (extends b) ms start_stop); [|done]. intros. apply start_stop_extends.
  - case_match; [done|]. case_match; [|done]. revert Hr. apply preserves_for_each.
    intros m b1 Hb1. run_unfold. by case_match.
  - revert Hr. apply preserves_for_each. intros m b1 Hb1. unfold unfreeze_one, set_runtime. run_unfold. by repeat case_match.
  - case_match; [done|]. case_match; [|done].
    apply (preserves_map_each (extends b) ms start_stop); [|done]. intros. apply start_stop_extends.
  - case_match; [done|]. split; [done|]. simpl. lia.
Qed.

Lemma exec_all_extends cs b : extends b (exec_all cs b).
Proof.
  revert b. induction cs as [|c cs IH]; intros b; simpl; [apply extends_refl|].
  eapply extends_trans; [apply exec_extends|apply IH].
Qed.

Lemma exec_all_app cs1 cs2 b : exec_all (cs1 ++ cs2) b = exec_all cs2 (exec_all cs1 b).
Proof. apply foldl_app. Qed.

Lemma exec_runtime_keys `{!PyEnvLaws} c b :
  book_wf b → keys (runtime (exec c b)) = keys (runtime b).
Proof.
  intros Hb. rewrite <-(bw_ledger_keys _ (exec_wf c b Hb)), <-(bw_ledger_keys b Hb).
  destruct (exec_extends c b) as [(_ & -> & _) _]. done.
Qed.

(** The record before and after one call, with its ledger entry. *)
Lemma exec_runtime `{!PyEnvLaws} c b m r r' :
  book_wf b → runtime b !! m = Some r → runtime (exec c b) !! m = Some r' →
  ∃ e, ledger b !! m = Some e ∧ runtime_wf (recovering b) m e r ∧
    runtime_wf (recovering (exec c b)) m e r' ∧ evolves (is_load c) b r r'.
Proof.
  intros Hb Hr Hr'. destruct (bw_has_ledger b m r Hb Hr) as [e He]. exists e.
  destruct (exec_moves c b Hb m r Hr) as (r0 & Hr0 & Hev). simplify_eq.
  destruct (exec_extends c b) as [(_ & Hl & _) _].
  split_and!; try done; [by eapply (bw_runtime b Hb)|].
  apply (bw_runtime _ (exec_wf c b Hb)); [done|]. by rewrite Hl.
Qed.

Lemma lifecycle_unloaded s : lifecycle false UNLOADED s → s = UNLOADED.
Proof. by inversion 1. Qed.
End frame.

(** ** The two memory budgets *)
Section budgets.
Context `{PyEnv, !PyEnvLaws}.
Implicit Types (b : Book) (r : Runtime) (m : string).

Lemma reservation_evolves c b m r r' :
  book_wf b → is_load c = false → runtime (exec c b) !! m = Some r' → runtime b !! m = Some r →
  0 ≤ reservation r' ≤ reservation r.
Proof.
  intros Hb Hc Hr' Hr. destruct (exec_runtime c b m r r' Hb Hr Hr') as (e & He & Hw & Hw' & Hev).
  destruct (bw_ledger b Hb m e He) as (Hpos & _ & _).
  rewrite (rw_reservation _ _ _ _ Hw), (rw_reservation _ _ _ _ Hw').
  pose proof (ev_state _ _ _ _ Hev) as Hl. rewrite Hc in Hl.
  case_decide; case_decide as Hu; try lia. rewrite Hu in Hl. by apply lifecycle_unloaded in Hl.
Qed.

Lemma begin_load_ret b b' m s now op :
  begin_load m s now b = (b', Ret op) →
  can_load b m s now = Ret true ∧
  ∃ r e, runtime b !! m = Some r ∧ ledger b !! m = Some e ∧
    op = {| op_operation_id := uuid4_hex (uuid_calls b); op_model_id := m;
            op_generation := generation r + 1; op_epoch := epoch b |} ∧
    b' = put_runtime m
      (r <| generation := generation r + 1 |> <| state := LOADING |>
         <| reservation := led_effective_reserved_bytes e |>
         <| operation_id := Some (uuid4_hex (uuid_calls b)) |>
         <| idle_since := None |> <| last_error := None |>) (count_uuid b).
Proof.
  unfold begin_load, uuid4, set_runtime. run_unfold. intros.
  repeat case_match; simplify_eq; bool_prop; subst. split; [done|].
  match goal with Hr : runtime_of b m = _ |- _ => apply runtime_of_ret in Hr end.
  match goal with Hq : required b m = _ |- _ => apply required_ret in Hq as (e & He & ->) end.
  eexists _, e. done.
Qed.

Lemma begin_load_raise b b' m s now e :
  begin_load m s now b = (b', Raise e) → b' = b.
Proof.
  unfold begin_load, uuid4, set_runtime. run_unfold. intros. by repeat case_match; simplify_eq.
Qed.

Lemma begin_load_committed b b' m s now op :
  book_wf b → begin_load m s now b = (b', Ret op) → committed b' ≤ model_budget b.
Proof.
  intros Hb Hl. apply begin_load_ret in Hl as (Hc & r & e & Hr & He & _ & ->).
  apply can_load_true in Hc as (r1 & e1 & Hr1 & He1 & _ & Hst & _ & _ & _ & _ & _ & Hbud & _).
  assert (r1 = r) as -> by congruence. assert (e1 = e) as -> by congruence. clear Hr1 He1.
  destruct (bw_runtime b Hb m r e Hr He) as [Hres _ _ _ _ _ _ _ _ _].
  rewrite decide_True in Hres by done. unfold committed in *. simpl.
  rewrite (dsum_insert _ _ _ _ r Hr). simpl. lia.
Qed.

Lemma committed_exec c b :
  book_wf b → committed (exec c b) ≤ Z.max (committed b) (model_budget b).
Proof.
  intros Hb. destruct (is_load c) eqn:Hc.
  - destruct c; try done. simpl. destruct (begin_load m s now b) as [b' [op|e]] eqn:E; simpl.
    + apply begin_load_committed in E; [lia|done].
    + apply begin_load_raise in E as ->. lia.
  - enough (committed (exec c b) ≤ committed b) by lia. unfold committed.
    apply dsum_le_keys; [by apply exec_runtime_keys|apply (bw_nodup _ (exec_wf c b Hb))|].
    intros m r' r Hr' Hr. by eapply reservation_evolves.
Qed.

Lemma physical_figure_exec c b m : physical_figure (exec c b) m = physical_figure b m.
Proof. unfold physical_figure. destruct (exec_extends c b) as [(_ & -> & _) _]. done. Qed.

Lemma begin_load_physical b b' m s now op :
  book_wf b → physical_enforced b = true → begin_load m s now b = (b', Ret op) →
  physical_committed b' ≤ model_budget b.
Proof.
  intros Hb Hen Hl. apply begin_load_ret in Hl as (Hc & r & e & Hr & He & _ & ->).
  apply can_load_true in Hc as (r1 & e1 & Hr1 & He1 & _ & Hst & _ & _ & _ & _ & _ & _ & Hph).
  assert (r1 = r) as -> by congruence. assert (e1 = e) as -> by congruence. clear Hr1 He1.
  destruct (bw_runtime b Hb m r e Hr He) as [Hres _ _ _ _ _ _ _ _ _].
  rewrite decide_True in Hres by done.
  destruct (bw_ledger b Hb m e He) as (Hpos & _ & _).
  unfold physical_admissible, ledger_spec, of_option in Hph. run_unfold. rewrite Hen, He in Hph. simpl in Hph.
  destruct (led_physical_reserved_bytes e) as [fig|] eqn:Hfig; simplify_eq. bool_prop.
  unfold physical_committed. simpl. rewrite (dsum_insert _ _ _ _ r Hr). simpl.
  rewrite Hres. rewrite (proj2 (Z.ltb_lt 0 (led_effective_reserved_bytes e))) by done. simpl.
  unfold physical_figure in *. simpl. rewrite He, Hfig. simpl.
  etrans; [|exact Hph]. rewrite Z.sub_0_r. apply Z.add_le_mono_r. apply dsum_le.
  intros k v Hkv. apply entries_lookup in Hkv; [|apply (bw_nodup b Hb)].
  case_bool_decide; simpl; [|lia]. subst k. rewrite Hr in Hkv. injection Hkv as <-. by rewrite Hres.
Qed.

Lemma physical_committed_exec c b :
  book_wf b → physical_enforced b = true →
  physical_committed (exec c b) ≤ Z.max (physical_committed b) (model_budget b).
Proof.
  intros Hb Hen. destruct (is_load c) eqn:Hc.
  - destruct c; try done. simpl. destruct (begin_load m s now b) as [b' [op|e]] eqn:E; simpl.
    + apply begin_load_physical in E; [lia|done|done].
    + apply begin_load_raise in E as ->. lia.
  - enough (physical_committed (exec c b) ≤ physical_committed b) by lia. unfold physical_committed.
    erewrite dsum_ext by (intros k v _; rewrite physical_figure_exec; reflexivity).
    apply dsum_le_keys; [by apply exec_runtime_keys|apply (bw_nodup _ (exec_wf c b Hb))|].
    intros m r' r Hr' Hr.
    destruct (bw_has_ledger b m r Hb Hr) as [e He]. destruct (bw_ledger b Hb m e He) as (_ & _ & Hf).
    pose proof (reservation_evolves c b m r r' Hb Hc Hr' Hr).
    destruct (0 <? reservation r') eqn:E1; destruct (0 <? reservation r) eqn:E2; bool_prop; lia.
Qed.
End budgets.

(** ** Operation tokens *)
Section tokens.
Context `{PyEnv, !PyEnvLaws}.
Implicit Types (b : Book) (r : Runtime) (m : string).

(** An issued token that the record of its model does not carry any more. *)
Definition retired b m (s : string) : Prop :=
  uuid_used b s ∧ ∀ r, runtime b !! m = Some r → operation_id r ≠ Some s.

Lemma retired_exec c b m s : book_wf b → retired b m s → retired (exec c b) m s.
Proof.
  intros Hb [Hu Hn]. destruct (exec_extends c b) as (_ & _ & Hcalls). split.
  - destruct Hu as (i & Hi & ->). exists i. split; [lia|done].
  - intros r' Hr' Hs.
    assert (m ∈ keys (runtime b)) as [r Hr]%elem_of_keys.
    { rewrite <-(exec_runtime_keys c b Hb). apply elem_of_keys. eauto. }
    destruct (exec_runtime c b m r r' Hb Hr Hr') as (e & _ & _ & _ & Hev).
    destruct (ev_operation _ _ _ _ Hev) as [Hop|[Hop|(i & Hi & Hop)]].
    + congruence.
    + apply (Hn r Hr). congruence.
    + destruct Hu as (j & Hj & ->). rewrite Hop in Hs. injection Hs as Hs.
      apply uuid4_hex_inj in Hs. lia.
Qed.

Lemma retired_exec_all cs b m s : book_wf b → retired b m s → retired (exec_all cs b) m s.
Proof.
  revert b. induction cs as [|c cs IH]; simpl; [done|]. intros b Hb Hr.
  apply IH; [by apply exec_wf|by apply retired_exec].
Qed.

(** Every write-back of the token raises and leaves the book as it was. *)
Definition refused b (op : Operation) : Prop :=
  ∃ e, ∀ now t code,
    loaded op now b = (b, Raise e) ∧ failed op code b = (b, Raise e) ∧
    rollback_unsent op b = (b, Raise e) ∧ stopped op t b = (b, Raise e).

Lemma refused_intro b op : (∀ r, operation_runtime b op ≠ Ret r) → refused b op.
Proof.
  intros Hn. destruct (operation_runtime b op) as [r|e] eqn:E; [by destruct (Hn r)|].
  exists e. intros now t code. unfold failed, rollback_unsent, loaded, stopped. run_unfold. by rewrite E.
Qed.

Lemma retired_refused b op : retired b (op_model_id op) (op_operation_id op) → refused b op.
Proof.
  intros [_ Hn]. apply refused_intro. intros r Hr.
  apply operation_runtime_ret in Hr as (Hr & _ & _ & Hs). by apply (Hn r Hr).
Qed.

(** The call accepted the token: it returned normally. *)
Definition writes_back (op : Operation) b b' : Prop :=
  (∃ now, loaded op now b = (b', Ret tt)) ∨ (∃ code, failed op code b = (b', Ret tt)) ∨
  rollback_unsent op b = (b', Ret tt) ∨ (∃ t, stopped op t b = (b', Ret tt)).

Lemma writes_back_put op b b' :
  writes_back op b b' →
  ∃ r r', operation_runtime b op = Ret r ∧ operation_id r' = None ∧
    b' = put_runtime (op_model_id op) r' b.
Proof.
  unfold writes_back, loaded, failed, rollback_unsent, stopped, set_runtime. run_unfold.
  intros [[? Hx]|[[? Hx]|[Hx|[? Hx]]]]; repeat case_match; simplify_eq;
    (eexists _, _; split_and!; [done|..|done]; done).
Qed.

Lemma writes_back_retired op b b' :
  book_wf b → writes_back op b b' → retired b' (op_model_id op) (op_operation_id op).
Proof.
  intros Hb (r & r' & Hr & Hop & ->)%writes_back_put.
  apply operation_runtime_ret in Hr as (Hr & _ & _ & Hs). split.
  - by eapply (bw_operation_ids b Hb).
  - intros r0. simpl. rewrite dict_lookup_insert_eq. intros [= <-]. congruence.
Qed.

Lemma old_epoch_refused b op : op_epoch op < epoch b → refused b op.
Proof.
  intros He. apply refused_intro. intros r Hr. apply operation_runtime_ret in Hr as (_ & Hr & _). lia.
Qed.

Lemma writes_back_exec op b b' :
  writes_back op b b' → ∃ c, exec c b = b'.
Proof.
  intros [[now Hx]|[[code Hx]|[Hx|[t Hx]]]];
    [exists (CLoaded op now)|exists (CFailed op code)|exists (CRollback op)|exists (CStopped op t)];
    simpl; by rewrite Hx.
Qed.
End tokens.

(** ** Facts about eviction, recovery and cleanup *)
Section recovery_facts.
Context `{PyEnv}.
Implicit Types (b : Book) (r : Runtime) (m : string).

Lemma begin_eviction_raise b b' ms auto e : begin_eviction ms auto b = (b', Raise e) → b' = b.
Proof.
  unfold begin_eviction. run_unfold. intros Hx. destruct (bad_batch b ms) eqn:Hbad; [by simplify_eq|].
  apply bad_batch_false in Hbad as (_ & _ & Hnd).
  destruct (check_each ms _) as [[]|e'] eqn:Hc; [|by simplify_eq]. rewrite check_each_ret in Hc.
  destruct (map_start_stop_ret ms b Hnd) as (ops & Hops & _); [|by rewrite Hx in Hops].
  intros x Hm. apply Hc, eviction_check_ret in Hm as (r & e0 & ? & _). eauto.
Qed.

Lemma begin_eviction_ret b b' ms auto ops :
  begin_eviction ms auto b = (b', Ret ops) →
  NoDup ms ∧ op_model_id <$> ops = ms ∧ (∀ m, m ∈ ms → eviction_check b auto m = Ret tt) ∧
  (∀ m, m ∈ ms → is_Some (runtime b !! m)) ∧
  (∀ m r, runtime b !! m = Some r → ∃ r', runtime b' !! m = Some r' ∧
     if decide (m ∈ ms) then ∃ i, r' = r <| state := EVICTING |> <| admission_blocked := true |>
                                         <| operation_id := Some (uuid4_hex i) |>
     else r' = r).
Proof.
  unfold begin_eviction. run_unfold. intros Hx. destruct (bad_batch b ms) eqn:Hbad; [by simplify_eq|].
  apply bad_batch_false in Hbad as (_ & _ & Hnd).
  destruct (check_each ms _) as [[]|e'] eqn:Hc; [|by simplify_eq]. rewrite check_each_ret in Hc.
  assert (∀ x, x ∈ ms → is_Some (runtime b !! x)) as Hall.
  { intros x Hm. apply Hc, eviction_check_ret in Hm as (r & e & ? & _). eauto. }
  destruct (map_start_stop_ret ms b Hnd Hall) as (ops' & Hops & Hids). rewrite Hx in Hops. simpl in Hops.
  injection Hops as <-. split_and!; try done. intros m r Hr.
  destruct (map_start_stop_lookup ms b m r Hnd Hall Hr) as (r' & Hr' & Hs). rewrite Hx in Hr'.
  exists r'. split; [done|]. case_decide; [|done]. destruct Hs as (i & _ & ?). eauto.
Qed.

Lemma begin_eviction_tokens b b' ms auto ops op :
  begin_eviction ms auto b = (b', Ret ops) → op ∈ ops → ∃ r, operation_runtime b' op = Ret r.
Proof.
  intros Hx. pose proof Hx as (Hnd & _ & _ & Hall & _)%begin_eviction_ret. revert Hx.
  unfold begin_eviction. run_unfold. destruct (bad_batch b ms); [done|].
  destruct (check_each ms _) as [[]|]; [|done]. intros Hx.
  pose proof (map_start_stop_tokens ms b ops Hnd Hall) as Ht. rewrite Hx in Ht. by apply Ht.
Qed.

Lemma same_set_true xs ys : same_set xs ys = true → ∀ m, m ∈ xs ↔ m ∈ ys.
Proof.
  unfold same_set. rewrite andb_true_iff, !forallb_forall. intros [Hx Hy] m. split; intros Hm.
  - apply list_elem_of_In in Hm. by apply Hx, bool_decide_eq_true in Hm.
  - apply list_elem_of_In in Hm. by apply Hy, bool_decide_eq_true in Hm.
Qed.

Lemma committed_recovered b rec :
  committed (b <| runtime ::= dmap (fun _ => recovered_runtime) |> <| recovering := rec |>) = 0.
Proof.
  unfold committed. simpl. rewrite dsum_dmap. unfold dsum. simpl.
  induction (entries (runtime b)); simpl; lia.
Qed.

(** A cleanup batch of one idle model: its token, and what rolling it back does. *)
Lemma begin_cleanup_one b m r :
  recovering b = false → runtime b !! m = Some r → state r = READY ∨ state r = ERROR →
  dlen (leases r) = 0 → operation_id r = None →
  ∃ op, begin_cleanup [m] b =
          (put_runtime m (r <| state := EVICTING |> <| admission_blocked := true |>
                            <| operation_id := Some (op_operation_id op) |>) (count_uuid b), Ret [op]) ∧
    rollback_unsent op (put_runtime m (r <| state := EVICTING |> <| admission_blocked := true |>
                            <| operation_id := Some (op_operation_id op) |>) (count_uuid b)) =
      (put_runtime m (r <| state := READY |> <| admission_blocked := false |>
                        <| operation_id := None |>) (count_uuid b), Ret tt).
Proof.
  intros Hrec Hr Hst Hl Hop.
  assert (cleanup_check b m = Ret tt) as Hc.
  { unfold cleanup_check, runtime_of, no_leases. run_unfold. rewrite Hr, Hop, Hl.
    by destruct Hst as [-> | ->]. }
  exists {| op_operation_id := uuid4_hex (uuid_calls b); op_model_id := m;
            op_generation := generation r; op_epoch := epoch b |}. split.
  - unfold begin_cleanup, bad_batch, check_each, map_each. run_unfold. rewrite Hrec, Hc.
    rewrite (bool_decide_true (NoDup [m])) by apply NoDup_singleton. simpl.
    by rewrite start_stop_eval, Hr.
  - unfold rollback_unsent, operation_runtime, set_runtime, no_leases. run_unfold. simpl.
    rewrite runtime_of_put. simpl.
    rewrite !Z.eqb_refl, bool_decide_true by done. simpl. rewrite Hl. simpl.
    by rewrite put_runtime_put.
Qed.

Lemma ready_no_operation b m r :
  book_wf b → runtime b !! m = Some r → state r = READY ∨ state r = ERROR ∨ state r = UNLOADED →
  operation_id r = None.
Proof.
  intros Hb Hr Hst. destruct (bw_has_ledger b m r Hb Hr) as [e He].
  destruct (operation_id r) eqn:E; [|done].
  destruct (rw_operation_state _ _ _ _ _ (bw_runtime b Hb m r e Hr He) E); naive_solver congruence.
Qed.

(** The setting loop of [freeze_for_switch] never raises on known models. *)
Lemma freeze_loop_ret ms : ∀ b,
  (∀ m, m ∈ ms → is_Some (runtime b !! m)) →
  ∃ b', for_each ms (fun m => b ← get; r ← lift (runtime_of b m);
                      set_runtime m (r <| admission_blocked := true |>)) b = (b', Ret tt).
Proof.
  induction ms as [|m ms IH]; intros b Hall; simpl; [eexists; reflexivity|].
  destruct (Hall m) as [r Hr]; [constructor|]. unfold set_runtime. run_unfold. unfold runtime_of. rewrite Hr.
  apply IH. intros m' Hm'. simpl. rewrite dict_lookup_insert. destruct (decide (_ = _)); [eauto|].
  apply Hall. by constructor.
Qed.
End recovery_facts.

(** ** Guarantees over arbitrary sequences of method calls *)
Section guarantees.
Context `{PyEnv, !PyEnvLaws}.
Implicit Types (b : Book) (r : Runtime) (m : string).

(** C1: every book the constructor returns is well formed and stays well formed
    under any sequence of method calls, whatever their arguments and whether or
    not they raise: reservations follow the lifecycle state, a token is held
    exactly while a load or a stop is in flight, leases exist only on READY or
    ERROR models, never exceed [max_concurrency], name their own model and
    generation, no request owns two leases, and a recovering book admits nothing. *)
Theorem book_invariant sp bud fl mg age hl rw tw b cs :
  dict_nodup sp → Book_init sp bud fl mg age hl rw tw = Ret b → book_wf (exec_all cs b).
Proof. intros Hnd Hi. apply exec_all_wf. by eapply Book_init_wf. Qed.

(** C2: the model budget: a call never pushes the committed bytes over
    [model_budget], so a book within its budget stays within it forever. *)
Theorem model_budget_safe b cs :
  book_wf b → committed b ≤ model_budget b →
  committed (exec_all cs b) ≤ model_budget (exec_all cs b) ∧
  model_budget (exec_all cs b) = model_budget b.
Proof.
  revert b. induction cs as [|c cs IH]; simpl; [done|]. intros b Hb Hc.
  pose proof (committed_exec c b Hb) as Hle.
  destruct (exec_extends c b) as [(_ & _ & Hbud & _) _].
  destruct (IH (exec c b)) as [? ?]; [by apply exec_wf|lia|]. split; [done|congruence].
Qed.

(** C3: the physical budget: when a registration carries a measured physical
    peak, the sum of the physical figures of the models that are not proven
    stopped stays within [model_budget] under any sequence of calls. *)
Theorem physical_budget_safe b cs :
  book_wf b → physical_enforced b = true → physical_committed b ≤ model_budget b →
  physical_committed (exec_all cs b) ≤ model_budget b.
Proof.
  revert b. induction cs as [|c cs IH]; simpl; [done|]. intros b Hb Hen Hc.
  pose proof (physical_committed_exec c b Hb Hen) as Hle.
  destruct (exec_extends c b) as [(_ & _ & Hbud & _ & Hen' & _) _]. rewrite <-Hbud.
  apply IH; [by apply exec_wf|congruence|lia].
Qed.

(** C9: refinement of the lifecycle diagram: every method call moves every
    model along one edge of [lifecycle] (or leaves it), only [begin_load] may
    leave UNLOADED, and generations never decrease. *)
Theorem lifecycle_refinement b c m r :
  book_wf b → runtime b !! m = Some r →
  ∃ r', runtime (exec c b) !! m = Some r' ∧ lifecycle (is_load c) (state r) (state r') ∧
        generation r ≤ generation r'.
Proof.
  intros Hb Hr. destruct (exec_moves c b Hb m r Hr) as (r' & Hr' & [Hs _ Hg]). eauto.
Qed.

(** C10: an operation token is accepted at most once: after a write-back that
    returned, every later write-back of the same token raises and changes
    nothing, whatever happened in between. *)
Theorem token_one_shot b b' op cs :
  book_wf b → writes_back op b b' → refused (exec_all cs b') op.
Proof.
  intros Hb Hw. apply retired_refused, retired_exec_all; [|by eapply writes_back_retired].
  destruct (writes_back_exec op b b' Hw) as [c <-]. by apply exec_wf.
Qed.

(** Starting a recovery fences every token issued before it, for good. *)
Theorem recovery_fences_tokens b b' ep op cs :
  recovering b = false → begin_recovery b = (b', Ret ep) → op_epoch op ≤ epoch b →
  ep = epoch b' ∧ refused (exec_all cs b') op.
Proof.
  intros Hrec Hb Hop. unfold begin_recovery in Hb. run_unfold. rewrite Hrec in Hb.
  simplify_eq. split; [done|]. apply old_epoch_refused.
  match goal with |- _ < epoch (exec_all cs ?b1) =>
    destruct (exec_all_extends cs b1) as (_ & Hle & _);
    change (epoch b + 1 ≤ epoch (exec_all cs b1)) in Hle end. lia.
Qed.

(** Load admission: [begin_load] returns exactly when the book is not
    recovering, the model is UNLOADED, idle and unblocked, the sample is fresh,
    postdates the last proven stop and leaves the free floor, and both budgets
    hold with the model added; the new token then names the new generation. *)
Theorem begin_load_admission b m s now :
  book_wf b →
  (∃ b' op, begin_load m s now b = (b', Ret op)) ↔
  ∃ r e, runtime b !! m = Some r ∧ ledger b !! m = Some e ∧
    recovering b = false ∧ state r = UNLOADED ∧ admission_blocked r = false ∧
    0 ≤ now - sampled_at s ≤ max_sample_age b ∧ 0 < total_bytes s ∧
    0 ≤ available_bytes s ≤ total_bytes s ∧
    (∀ t, stopped_at r = Some t → t ≤ sampled_at s) ∧
    free_floor b + led_effective_reserved_bytes e ≤ available_bytes s ∧
    committed b + led_effective_reserved_bytes e ≤ model_budget b ∧
    physical_admissible b m = Ret true.
Proof.
  intros Hb. split.
  - intros (b' & op & Hl). apply begin_load_ret in Hl as (Hc & _).
    apply can_load_true in Hc as (r & e & ? & ? & ? & ? & ? & ? & Hv & ?). destruct_and!.
    unfold sample_valid in Hv. bool_prop. exists r, e. split_and!; auto.
  - intros (r & e & Hr & He & Hrec & Hst & Hbl & ? & ? & ? & Hstop & ? & ? & Hph).
    assert (no_leases r = true) as Hnl.
    { destruct (bw_runtime b Hb m r e Hr He) as [_ _ Hls _ _ _ _ _ _ _]. unfold no_leases.
      apply Z.eqb_eq. destruct (decide (dlen (leases r) = 0)) as [|Hn]; [done|].
      destruct (Hls Hn); congruence. }
    assert (can_load b m s now = Ret true) as Hc.
    { unfold can_load, sample_after_stop, required, runtime_of, ledger_spec, of_option. run_unfold.
      rewrite Hr, He, Hph, Hrec, Hst, Hbl, Hnl. f_equal.
      rewrite !andb_true_iff. unfold sample_valid. rewrite !andb_true_iff, !Z.leb_le, Z.ltb_lt.
      split_and!; auto; try lia. case_match; [by apply Z.leb_le, Hstop|done]. }
    unfold begin_load, uuid4, set_runtime, runtime_of, required, ledger_spec, of_option. run_unfold.
    rewrite Hc, Hr, He. eauto.
Qed.

(** A lease is a slot: acquiring takes one new lease on a READY model below
    its concurrency limit, and releasing it (with any outcome and a valid token
    count) restores exactly the leases the model had; releasing it again is a
    no-op that answers [False]. *)
Theorem acquire_release_roundtrip b b1 m rq now l oc now' tk :
  book_wf b → acquire_ready m rq now b = (b1, Ret l) → (∀ n, tk = Some n → 0 ≤ n) →
  ∃ r r1 b2 r2 e, runtime b !! m = Some r ∧ ledger b !! m = Some e ∧ state r = READY ∧
    runtime b1 !! m = Some r1 ∧ leases r1 = <[lease_id l := l]> (leases r) ∧
    dlen (leases r1) = dlen (leases r) + 1 ∧ dlen (leases r1) ≤ led_max_concurrency e ∧
    release l oc now' tk b1 = (b2, Ret true) ∧
    runtime b2 !! m = Some r2 ∧ leases r2 = leases r ∧
    release l oc now' tk b2 = (b2, Ret false).
Proof.
  intros Hb Ha Htk. apply acquire_ready_ret in Ha as (r & e & Hadm & Hl & ->).
  pose proof Hadm as (Hr & He & _ & Hst & _ & Hcap & _).
  pose proof (leases_fresh b m r Hb Hr) as Hfr.
  assert (lease_id l = uuid4_hex (uuid_calls b)) as Hid by (by rewrite Hl).
  assert (lease_model_id l = m) as Hm by (by rewrite Hl).
  assert (lease_generation l = generation r) as Hg by (by rewrite Hl).
  rewrite <-Hid in Hfr. clear Hl.
  set (r1 := leased_runtime b r l now). set (b1 := put_runtime m r1 (count_uuid b)).
  assert (leases r1 = <[lease_id l := l]> (leases r)) as Hl1 by done.
  assert (runtime b1 !! m = Some r1) as Hr1 by apply dict_lookup_insert_eq.
  set (r2 := released_runtime b1 r1 l oc now' tk). set (b2 := put_runtime m r2 b1).
  assert (leases r2 = leases r) as Hl2.
  { subst r2. rewrite released_runtime_leases, Hl1. by apply dict_delete_insert. }
  assert (runtime b2 !! m = Some r2) as Hr2 by apply dict_lookup_insert_eq.
  exists r, r1, b2, r2, e. split_and!; try done.
  - rewrite Hl1. by apply dlen_insert_new.
  - rewrite Hl1, dlen_insert_new by done. lia.
  - rewrite release_eval, Hm, Hr1. rewrite (proj2 (lease_mismatch_false r1 l)).
    + case_match eqn:Hneg; [|done]. destruct tk; [|done]. apply Z.ltb_lt in Hneg.
      specialize (Htk _ eq_refl). lia.
    + by rewrite Hl1, dict_lookup_insert_eq.
  - rewrite release_eval, Hm, Hr2. unfold lease_mismatch. rewrite Hl2, Hfr. done.
Qed.

(** Eviction is all or nothing: [begin_eviction] either raises and leaves
    the book untouched, or every model of the batch was READY, idle, unpinned
    (and evictable when automatic), is now EVICTING and blocked with its
    reservation kept, and every returned token is the one its model accepts;
    the other models are untouched. *)
Theorem begin_eviction_atomic b b' ms auto res :
  begin_eviction ms auto b = (b', res) →
  match res with
  | Raise _ => b' = b
  | Ret ops =>
      op_model_id <$> ops = ms ∧
      (∀ m, m ∈ ms → ∃ r e, runtime b !! m = Some r ∧ ledger b !! m = Some e ∧ state r = READY ∧
         dlen (leases r) = 0 ∧ led_pinned e = false ∧ (auto = true → led_evictable e = true)) ∧
      (∀ m r, runtime b !! m = Some r → ∃ r', runtime b' !! m = Some r' ∧
         if decide (m ∈ ms) then state r' = EVICTING ∧ admission_blocked r' = true ∧
                                 reservation r' = reservation r ∧ leases r' = leases r
         else r' = r) ∧
      (∀ op, op ∈ ops → ∃ r', operation_runtime b' op = Ret r')
  end.
Proof.
  intros Hx. destruct res as [ops|e]; [|by eapply begin_eviction_raise].
  pose proof Hx as (Hnd & Hids & Hc & Hall & Hlk)%begin_eviction_ret. split_and!; [done| | |].
  - intros m Hm. apply Hc, eviction_check_ret in Hm as (r & e & ? & ? & ? & ? & _ & ? & ?). eauto 10.
  - intros m r Hr. destruct (Hlk m r Hr) as (r' & Hr' & Hs). exists r'. split; [done|].
    case_decide; [|done]. by destruct Hs as (i & ->).
  - intros op. by eapply begin_eviction_tokens.
Qed.

(** A recovery ends only with complete stop evidence: [finish_recovery]
    either raises and leaves the book untouched, or it was called with the
    current epoch and exactly the registered models, no lease was held, and
    afterwards every model is UNLOADED, unblocked and reserves nothing. *)
Theorem finish_recovery_evidence b b' ep cs res :
  book_wf b → finish_recovery ep cs b = (b', res) →
  match res with
  | Raise _ => b' = b
  | Ret _ =>
      recovering b = true ∧ ep = epoch b ∧ (∀ m, m ∈ cs ↔ m ∈ keys (specs b)) ∧
      recovering b' = false ∧ committed b' = 0 ∧
      (∀ m r, runtime b !! m = Some r → dlen (leases r) = 0 ∧
         ∃ r', runtime b' !! m = Some r' ∧ state r' = UNLOADED ∧ admission_blocked r' = false ∧
               generation r' = generation r)
  end.
Proof.
  intros Hb. unfold finish_recovery. run_unfold. intros Hx.
  destruct (negb (recovering b) || _) eqn:Hep; [by simplify_eq|].
  destruct (negb (same_set _ _) || dany _ (runtime b)) eqn:Hg; simplify_eq/=; [done|]. bool_prop.
  split_and!; try done.
  - intros m. by apply same_set_true.
  - by apply committed_recovered.
  - intros m r Hr. match goal with Hd : dany _ _ = false |- _ =>
      rewrite dany_false in Hd by apply (bw_nodup b Hb); specialize (Hd m r Hr) end.
    unfold no_leases in *. bool_prop. split; [done|].
    exists (recovered_runtime r). by rewrite dict_lookup_dmap, Hr.
Qed.

(** [rollback_unsent] does not restore the state a cleanup started from:
    an idle ERROR model (admission blocked, with its error code) put into a
    cleanup batch and rolled back comes out READY and open for admission. *)
Theorem cleanup_rollback_revives_error b m r :
  book_wf b → recovering b = false → runtime b !! m = Some r → state r = ERROR →
  dlen (leases r) = 0 →
  ∃ b1 op b2 r2, begin_cleanup [m] b = (b1, Ret [op]) ∧ rollback_unsent op b1 = (b2, Ret tt) ∧
    admission_blocked r = true ∧
    runtime b2 !! m = Some r2 ∧ state r2 = READY ∧ admission_blocked r2 = false ∧
    last_error r2 = last_error r.
Proof.
  intros Hb Hrec Hr Hst Hl. destruct (bw_has_ledger b m r Hb Hr) as [e He].
  pose proof (bw_runtime b Hb m r e Hr He) as Hw.
  assert (operation_id r = None) as Hop by (eapply ready_no_operation; eauto).
  destruct (begin_cleanup_one b m r Hrec Hr) as (op & -> & Hrb); try done; [by right|].
  eexists _, op, _, (r <| state := READY |> <| admission_blocked := false |> <| operation_id := None |>).
  split_and!; [done|apply Hrb|..|apply dict_lookup_insert_eq| | |]; try done.
  apply (rw_blocked _ _ _ _ Hw). by right.
Qed.
End guarantees.

(** ** A concrete book, and the guarantees applied to it

    Two v1 registrations that do not fit together and one v2 registration with
    a measured physical peak, driven through the methods of [Book]. *)
Definition demo_v1 (mid : string) (reserved priority : Z) : Registration :=
  RegV1 {| v1_model_id := mid; v1_upstream_url := "http://127.0.0.1:9000"; v1_capabilities := [CHAT];
           v1_reserved_bytes := reserved; v1_priority := priority; v1_max_concurrency := 2;
           v1_pinned := false; v1_evictable := true; v1_preload := false;
           v1_ttl_seconds := 60 * second |}.

Definition demo_v2 (mid : string) (reserved peak : Z) : Registration :=
  RegV2 {| v2_model_id := mid; v2_runtime_id := "rt"; v2_capabilities := ["chat"]; v2_assets := [];
           v2_port := 9001;
           v2_envelope := {| ctx_size := 4096; max_input_tokens := 1024; max_output_tokens := 512;
                             max_parallel := 1; max_image_tokens := 0; max_image_edge_pixels := 0;
                             max_images := 0 |};
           v2_timeout_seconds := 60; v2_reserved_bytes := reserved; v2_measured := true;
           v2_measurement_ref := Some "m"; v2_physical_resident_peak_bytes := Some peak |}.

Definition demo_specs : dict string Registration :=
  Dict [("a", demo_v1 "a" 100 1); ("b", demo_v1 "b" 100 5)].
Definition demo_specs2 : dict string Registration :=
  Dict [("p", demo_v2 "p" 100 80); ("q", demo_v2 "q" 100 80)].

Definition demo_init (sp : dict string Registration) : outcome Book :=
  Book_init sp 150 10 0%Q (2 * second) (1800 * second) 1%Q (1 # 10000)%Q.

(** The book the constructor returns, or the given one when it raises. *)
Definition book_or (b : Book) (o : outcome Book) : Book := match o with Ret b => b | Raise _ => b end.
Definition no_book : Book :=
  {| specs := ∅; model_budget := 0; free_floor := 0; margin := 0%Q; ledger := ∅; runtime := ∅;
     physical_enforced := false; max_sample_age := 0; half_life := 0; request_weight := 0%Q;
     token_weight := 0%Q; epoch := 0; recovering := false; uuid_calls := 0 |}.

Definition demo_book0 : Book := book_or no_book (demo_init demo_specs).
Definition demo_book2 : Book := book_or no_book (demo_init demo_specs2).

Definition demo_sample (t : time) : MemorySample :=
  {| total_bytes := 1000; available_bytes := 500; sampled_at := t |}.

Definition demo_op (i : nat) (mid : string) (gen : Z) : Operation :=
  {| op_operation_id := uuid4_hex i; op_model_id := mid; op_generation := gen; op_epoch := 0 |}.

(** Both stopped, then "a" loaded and READY. *)
Definition demo_stopped : Book := exec_all [CBootstrap "a"; CBootstrap "b"] demo_book0.
Definition demo_loading : Book := exec (CBeginLoad "a" (demo_sample 0) second) demo_stopped.
Definition demo_ready : Book := exec (CLoaded (demo_op 0 "a" 1) (2 * second)) demo_loading.
Definition demo_lease : Lease :=
  {| lease_id := uuid4_hex 1; lease_request_id := "r1"; lease_model_id := "a"; lease_generation := 1 |}.
Definition demo_leased : Book := exec (CAcquire "a" "r1" (3 * second)) demo_ready.
Definition demo_failed : Book := exec (CFailed (demo_op 0 "a" 1) (Some "load_failed")) demo_loading.
Definition demo_recovering : Book := exec CBeginRecovery demo_ready.
Definition demo_stopped2 : Book := exec_all [CBootstrap "p"; CBootstrap "q"] demo_book2.

Lemma demo_init_ret sp b : demo_init sp = Ret b → dict_nodup sp → book_wf b.
Proof. intros Hi Hnd. by eapply Book_init_wf. Qed.

Lemma demo_book0_wf : book_wf demo_book0.
Proof. apply (demo_init_ret demo_specs); [reflexivity|]. apply (bool_decide_unpack _). by vm_compute. Qed.
Lemma demo_book2_wf : book_wf demo_book2.
Proof. apply (demo_init_ret demo_specs2); [reflexivity|]. apply (bool_decide_unpack _). by vm_compute. Qed.
Lemma demo_stopped_wf : book_wf demo_stopped.
Proof. apply exec_all_wf, demo_book0_wf. Qed.
Lemma demo_loading_wf : book_wf demo_loading.
Proof. apply exec_wf, demo_stopped_wf. Qed.
Lemma demo_ready_wf : book_wf demo_ready.
Proof. apply exec_wf, demo_loading_wf. Qed.
Lemma demo_failed_wf : book_wf demo_failed.
Proof. apply exec_wf, demo_loading_wf. Qed.
Lemma demo_recovering_wf : book_wf demo_recovering.
Proof. apply exec_wf, demo_ready_wf. Qed.
Lemma demo_stopped2_wf : book_wf demo_stopped2.
Proof. apply exec_all_wf, demo_book2_wf. Qed.

(** A run of the book: load, lease, release, evict, stop, and the other model fits. *)
Example demo_run :
  let b := exec_all [CRelease demo_lease SUCCESS (4 * second) (Some 12); CEvict ["a"] true;
                     CStopped (demo_op 2 "a" 1) (Some (5 * second));
                     CBeginLoad "b" (demo_sample (6 * second)) (7 * second)] demo_leased in
  (state <$> runtime b !! "a", state <$> runtime b !! "b", committed b) =
  (Some UNLOADED, Some LOADING, 100).
Proof. by vm_compute. Qed.

Ltac ground := by vm_compute.

Lemma book_invariant_witness : demo_init demo_specs = Ret demo_book0 ∧
  book_wf (exec_all [CBootstrap "a"; CBeginLoad "a" (demo_sample 0) second; CEvict ["a"; "b"] true] demo_book0).
Proof.
  split; [ground|]. apply (book_invariant demo_specs 150 10 0%Q (2 * second) (1800 * second) 1%Q (1 # 10000)%Q).
  - apply (bool_decide_unpack _). ground.
  - ground.
Defined.

Lemma model_budget_safe_witness :
  committed (exec_all [CLoaded (demo_op 0 "a" 1) (2 * second); CBeginLoad "b" (demo_sample second) second] demo_loading)
    ≤ 150.
Proof. refine (proj1 (model_budget_safe demo_loading _ demo_loading_wf _)). ground. Defined.

Lemma physical_budget_safe_witness :
  physical_committed (exec_all [CBeginLoad "p" (demo_sample 0) second; CBeginLoad "q" (demo_sample 0) second]
    demo_stopped2) ≤ 150.
Proof. apply (physical_budget_safe demo_stopped2); [apply demo_stopped2_wf|ground|ground]. Defined.

Lemma lifecycle_refinement_witness : ∃ r r', runtime demo_stopped !! "a" = Some r ∧
  runtime demo_loading !! "a" = Some r' ∧ lifecycle true (state r) (state r').
Proof.
  assert (∃ r, runtime demo_stopped !! "a" = Some r) as [r Hr] by (vm_compute; eauto).
  destruct (lifecycle_refinement demo_stopped (CBeginLoad "a" (demo_sample 0) second) "a" r
    demo_stopped_wf Hr) as (r' & ? & ? & _). by exists r, r'.
Defined.

Lemma token_one_shot_witness : writes_back (demo_op 0 "a" 1) demo_loading demo_ready ∧
  refused (exec_all [CEvict ["a"] true] demo_ready) (demo_op 0 "a" 1).
Proof.
  assert (writes_back (demo_op 0 "a" 1) demo_loading demo_ready) as Hw.
  { left. exists (2 * second). ground. }
  split; [exact Hw|]. apply (token_one_shot demo_loading demo_ready); [apply demo_loading_wf|exact Hw].
Defined.

Lemma recovery_fences_tokens_witness :
  refused (exec_all [CFinishRecovery 1 ["a"; "b"]; CBeginLoad "a" (demo_sample 0) second] demo_recovering)
    (demo_op 0 "a" 1).
Proof.
  apply (recovery_fences_tokens demo_ready demo_recovering 1); ground.
Defined.

Lemma begin_load_admission_witness : ∃ b' op, begin_load "a" (demo_sample 0) second demo_stopped = (b', Ret op).
Proof.
  assert (∃ r, runtime demo_stopped !! "a" = Some r) as [r Hr] by (vm_compute; eauto).
  assert (∃ e, ledger demo_stopped !! "a" = Some e) as [e He] by (vm_compute; eauto).
  apply (proj2 (begin_load_admission demo_stopped "a" (demo_sample 0) second demo_stopped_wf)).
  exists r, e. vm_compute in Hr. vm_compute in He. simplify_eq. split_and!; ground.
Defined.

Lemma acquire_release_roundtrip_witness : ∃ r b2 r2,
  runtime demo_ready !! "a" = Some r ∧
  release demo_lease SUCCESS (4 * second) (Some 12) demo_leased = (b2, Ret true) ∧
  runtime b2 !! "a" = Some r2 ∧ leases r2 = leases r.
Proof.
  destruct (acquire_release_roundtrip demo_ready demo_leased "a" "r1" (3 * second) demo_lease SUCCESS
    (4 * second) (Some 12) demo_ready_wf) as (r & r1 & b2 & r2 & e & ? & _ & _ & _ & _ & _ & _ & ? & ? & ? & _).
  - ground.
  - intros n [= <-]. lia.
  - exists r, b2, r2. split_and!; assumption.
Defined.

Lemma begin_eviction_atomic_witness :
  (begin_eviction ["a"; "b"] true demo_ready).1 = demo_ready ∧
  ∃ b' op, begin_eviction ["a"] true demo_ready = (b', Ret [op]) ∧ op_model_id op = "a".
Proof.
  split.
  - exact (begin_eviction_atomic demo_ready _ ["a"; "b"] true (Raise (Conflict "protected or changed candidate"))
      ltac:(ground)).
  - eexists _, _. split; ground.
Defined.

Lemma finish_recovery_evidence_witness : ∃ b', finish_recovery 1 ["b"; "a"] demo_recovering = (b', Ret tt) ∧
  committed b' = 0.
Proof.
  destruct (finish_recovery 1 ["b"; "a"] demo_recovering) as [b' o] eqn:E.
  assert (o = Ret tt) as -> by (vm_compute in E; congruence).
  pose proof (finish_recovery_evidence _ _ _ _ _ demo_recovering_wf E) as (_ & _ & _ & _ & ? & _). eauto.
Defined.

Lemma cleanup_rollback_revives_error_witness : ∃ b1 op b2 r2,
  begin_cleanup ["a"] demo_failed = (b1, Ret [op]) ∧ rollback_unsent op b1 = (b2, Ret tt) ∧
  runtime b2 !! "a" = Some r2 ∧ state r2 = READY ∧ last_error r2 = Some "load_failed".
Proof.
  assert (∃ r, runtime demo_failed !! "a" = Some r ∧ state r = ERROR ∧ dlen (leases r) = 0 ∧
    last_error r = Some "load_failed") as (r & Hr & Hs & Hl & Hle).
  { eexists. split_and!; [vm_compute; reflexivity|ground..]. }
  destruct (cleanup_rollback_revives_error demo_failed "a" r demo_failed_wf eq_refl Hr Hs Hl) as
    (b1 & op & b2 & r2 & ? & ? & _ & ? & ? & _ & He).
  exists b1, op, b2, r2. split_and!; try assumption. congruence.
Defined.
