(* ===== verification/Eviction.v ===== *)
(** * Candidate selection for eviction

    [model_scheduler/eviction_policy.py]: the ordered candidate list, the
    choice of a prefix that frees enough bytes, and what the choice promises to
    the book that carries it out. *)

From S2P Require Import Prelude Dict Env Contracts Registry RegistryFacts RegistryProps.
Local Open Scope Z_scope.

Record EvictionCandidate := {
  cand_model_id : string;
  cand_reserved_bytes : Z;
  cand_heat : Q;
  cand_priority : Z;
  cand_score : Q;
}.

Record EvictionPolicy := { max_evictions : Z }.

Definition EvictionPolicy_init (max_evictions : Z) : outcome EvictionPolicy :=
  _ ← raise_if (max_evictions <? 1) (ValueError "max_evictions must be positive");
  mret {| max_evictions := max_evictions |}.

(** Attributes read from the raw registration: a v2 specification has no
    scheduling roles, so the read is an [AttributeError]. *)
Definition v1_attr {A} (name : string) (f : ModelSpec → A) (spec : Registration) : outcome A :=
  match spec with RegV1 s => Ret (f s) | RegV2 _ | RegOther _ => Raise (AttributeError name) end.
Definition spec_pinned : Registration → outcome bool := v1_attr "pinned" v1_pinned.
Definition spec_evictable : Registration → outcome bool := v1_attr "evictable" v1_evictable.
Definition spec_preload : Registration → outcome bool := v1_attr "preload" v1_preload.
Definition spec_priority : Registration → outcome Z := v1_attr "priority" v1_priority.

(** The sort key [(candidate.score, candidate.model_id)]. *)
Definition cand_le (a b : EvictionCandidate) : Prop :=
  (cand_score a < cand_score b)%Q ∨
  ((cand_score a == cand_score b)%Q ∧ String.le (cand_model_id a) (cand_model_id b)).

#[export] Instance cand_le_dec a b : Decision (cand_le a b).
Proof.
  unfold cand_le. destruct (Qlt_le_dec (cand_score a) (cand_score b)) as [Hlt|Hle].
  - left. by left.
  - destruct (Qeq_dec (cand_score a) (cand_score b)) as [He|He].
    + destruct (decide (String.le (cand_model_id a) (cand_model_id b))).
      * left. by right.
      * right. intros [Hlt|[_ ?]]; [by apply (Qlt_not_le _ _ Hlt)|done].
    + right. intros [Hlt|[? _]]; [by apply (Qlt_not_le _ _ Hlt)|done].
Defined.

Section policy.
Context `{PyEnv}.

(** One iteration of the loop of [candidates]: [None] is [continue]. *)
Definition candidate_of (b : Book) (now : time) (include_busy : bool) (model_id : string) (spec : Registration)
    : outcome (option EvictionCandidate) :=
  r ← runtime_of b model_id;
  if negb (bool_decide (state r = READY)) || (negb (no_leases r) && negb include_busy)
     || admission_blocked r
  then mret None
  else
    pinned ← spec_pinned spec;
    if pinned : bool then mret None
    else
      evictable ← spec_evictable spec;
      if negb evictable then mret None
      else
        reserved ← required b model_id;
        h ← heat b model_id now;
        priority ← spec_priority spec;
        mret (Some {| cand_model_id := model_id; cand_reserved_bytes := reserved; cand_heat := h;
                      cand_priority := priority;
                      cand_score := ((h + inject_Z priority) / inject_Z reserved)%Q |}).

Fixpoint collect (b : Book) (now : time) (include_busy : bool) (l : list (string * Registration))
    : outcome (list EvictionCandidate) :=
  match l with
  | [] => mret []
  | (model_id, spec) :: l =>
      c ← candidate_of b now include_busy model_id spec;
      cs ← collect b now include_busy l;
      mret (match c with Some c => c :: cs | None => cs end)
  end.

Definition candidates (b : Book) (now : time) (include_busy : bool) : outcome (list EvictionCandidate) :=
  result ← collect b now include_busy (entries (specs b));
  mret (merge_sort cand_le result).

(** The loop of [choose], with its [selected] and [released] variables. *)
Fixpoint choose_loop (p : EvictionPolicy) (bytes_needed : Z) (selected : list EvictionCandidate)
    (released : Z) (cs : list EvictionCandidate) : list EvictionCandidate :=
  match cs with
  | [] => []
  | c :: cs =>
      let selected := selected ++ [c] in
      let released := released + cand_reserved_bytes c in
      if bytes_needed <=? released then selected
      else if max_evictions p <=? Z.of_nat (length selected) then []
      else choose_loop p bytes_needed selected released cs
  end.

Definition choose (p : EvictionPolicy) (b : Book) (bytes_needed : Z) (now : time) (include_busy : bool)
    : outcome (list EvictionCandidate) :=
  if bytes_needed <=? 0 then mret []
  else
    cs ← candidates b now include_busy;
    mret (choose_loop p bytes_needed [] 0 cs).
End policy.

(** ** The order of candidates *)
#[export] Instance cand_le_total : Total cand_le.
Proof.
  intros a b. unfold cand_le. destruct (Q_dec (cand_score a) (cand_score b)) as [[?|?]|He]; [by left; left|by right; left|].
  destruct (total String.le (cand_model_id a) (cand_model_id b)); [left|right]; right; split; try done.
Qed.

#[export] Instance cand_le_trans : Transitive cand_le.
Proof.
  intros a b c. unfold cand_le. intros [H1|[E1 H1]] [H2|[E2 H2]].
  - left. by eapply Qlt_trans.
  - left. by rewrite <-E2.
  - left. by rewrite E1.
  - right. split; [by rewrite E1|]. by etransitivity.
Qed.

(** Bytes freed by a list of candidates. *)
Definition freed (cs : list EvictionCandidate) : Z := foldr (fun c n => cand_reserved_bytes c + n) 0 cs.

Lemma freed_app cs ds : freed (cs ++ ds) = freed cs + freed ds.
Proof. induction cs as [|c cs IH]; simpl; lia. Qed.

(** [sel] is the shortest prefix of [cs], of at most [k] candidates, that frees
    [n] bytes; there is none exactly when [sel] is empty. *)
Definition shortest_prefix (n k : Z) (cs sel : list EvictionCandidate) : Prop :=
  (sel = [] ∧ ∀ j, Z.of_nat j ≤ k → freed (take j cs) < n) ∨
  (∃ j, sel = take j cs ∧ (0 < j ≤ length cs)%nat ∧ Z.of_nat j ≤ k ∧ n ≤ freed sel ∧
        ∀ i, (i < j)%nat → freed (take i cs) < n).

Lemma freed_take_mono cs i j :
  (∀ c, c ∈ cs → 0 ≤ cand_reserved_bytes c) → (i ≤ j)%nat → freed (take i cs) ≤ freed (take j cs).
Proof.
  revert i j. induction cs as [|c cs IH]; intros i j Hp Hij; [by rewrite !take_nil|].
  assert (∀ c, c ∈ cs → 0 ≤ cand_reserved_bytes c) as Hp' by (intros; apply Hp; by constructor).
  assert (0 ≤ cand_reserved_bytes c) by (apply Hp; constructor).
  assert (∀ j, 0 ≤ freed (take j cs)) as H0 by (intros j'; apply (IH 0%nat j'); auto with lia).
  destruct i as [|i], j as [|j]; simpl; try lia; [specialize (H0 j); lia|].
  assert (freed (take i cs) ≤ freed (take j cs)) by (apply IH; auto with lia). lia.
Qed.

Lemma choose_loop_spec p n pre cs :
  (∀ c, c ∈ pre ++ cs → 0 ≤ cand_reserved_bytes c) →
  freed pre < n → Z.of_nat (length pre) < max_evictions p →
  shortest_prefix n (max_evictions p) (pre ++ cs) (choose_loop p n pre (freed pre) cs).
Proof.
  revert pre. induction cs as [|c cs IH]; intros pre Hp Hn Hk; simpl.
  - left. split; [done|]. intros j _. rewrite app_nil_r in *.
    pose proof (freed_take_mono pre j (Nat.max j (length pre)) Hp ltac:(lia)) as Hm.
    rewrite (take_ge pre (Nat.max j _)) in Hm by lia. lia.
  - assert (freed pre + cand_reserved_bytes c = freed (pre ++ [c])) as Hf by (rewrite freed_app; simpl; lia).
    assert (pre ++ c :: cs = (pre ++ [c]) ++ cs) as Ha by (by rewrite <-app_assoc).
    assert (take (length (pre ++ [c])) ((pre ++ [c]) ++ cs) = pre ++ [c]) as Ht by apply take_app_length.
    assert (∀ i, (i ≤ length pre)%nat → freed (take i (pre ++ c :: cs)) < n) as Hpre.
    { intros i Hi. pose proof (freed_take_mono _ i (length pre) Hp Hi) as Hm. rewrite take_app_length in Hm. lia. }
    rewrite Hf. case_match eqn:Hb; bool_prop; [|case_match eqn:Hmx; bool_prop].
    + right. exists (length (pre ++ [c])). rewrite Ha, Ht.
      rewrite !length_app in *; simpl in *. split_and!; try done; try lia.
      intros i Hi. rewrite <-Ha. apply Hpre. lia.
    + left. split; [done|]. intros j Hj. rewrite Ha in *.
      pose proof (freed_take_mono _ j (length (pre ++ [c])) Hp) as Hm. rewrite Ht in Hm.
      rewrite !length_app in *; simpl in *. specialize (Hm ltac:(lia)). lia.
    + rewrite Ha in *. apply IH; [done|lia|lia].
Qed.

Lemma choose_loop_prefix p n pre rel cs :
  ∃ j, choose_loop p n pre rel cs = take j (pre ++ cs).
Proof.
  revert pre rel. induction cs as [|c cs IH]; intros pre rel; simpl; [by exists 0%nat|].
  case_match; [|case_match; [by exists 0%nat|]].
  - exists (length (pre ++ [c])). assert (pre ++ c :: cs = (pre ++ [c]) ++ cs) as -> by (by rewrite <-app_assoc).
    by rewrite take_app_length.
  - destruct (IH (pre ++ [c]) (rel + cand_reserved_bytes c)) as [j ->]. exists j. by rewrite <-app_assoc.
Qed.

Lemma choose_loop_frees p n pre cs :
  choose_loop p n pre (freed pre) cs ≠ [] → n ≤ freed (choose_loop p n pre (freed pre) cs).
Proof.
  revert pre. induction cs as [|c cs IH]; intros pre; simpl; [done|].
  assert (freed pre + cand_reserved_bytes c = freed (pre ++ [c])) as -> by (rewrite freed_app; simpl; lia).
  destruct (n <=? freed (pre ++ [c])) eqn:Hb; [bool_prop; done|]. case_match; [done|]. apply IH.
Qed.

(** ** What a candidate is *)
Section facts.
Context `{PyEnv}.
Implicit Types (b : Book).

(** A model the policy may name: READY, unblocked, registered as evictable. *)
Definition eligible b (busy : bool) (now : time) (c : EvictionCandidate) : Prop :=
  ∃ s r, specs b !! cand_model_id c = Some (RegV1 s) ∧ runtime b !! cand_model_id c = Some r ∧
    state r = READY ∧ admission_blocked r = false ∧ (busy = false → dlen (leases r) = 0) ∧
    v1_pinned s = false ∧ v1_evictable s = true ∧
    required b (cand_model_id c) = Ret (cand_reserved_bytes c) ∧
    cand_priority c = v1_priority s ∧ cand_heat c = heat_of b r now ∧
    cand_score c = ((cand_heat c + inject_Z (cand_priority c)) / inject_Z (cand_reserved_bytes c))%Q.

Lemma candidate_of_some b now busy m sp c :
  candidate_of b now busy m sp = Ret (Some c) → specs b !! m = Some sp →
  cand_model_id c = m ∧ eligible b busy now c.
Proof.
  unfold candidate_of, spec_pinned, spec_evictable, spec_priority, v1_attr, heat. run_unfold.
  destruct (runtime_of b m) as [r|] eqn:Hr; [|done]. apply runtime_of_ret in Hr.
  destruct (negb _ || _ || _) eqn:Hg; [done|]. destruct sp as [s| |]; try done.
  destruct (v1_pinned s) eqn:Hp; [done|]. destruct (v1_evictable s) eqn:He; [|done]. simpl.
  destruct (required b m) as [q|] eqn:Hq; [|done].
  intros [= <-] Hs. split; [done|]. bool_prop. exists s, r. simpl. split_and!; try done.
  intros ->. unfold no_leases in *.
  match goal with Hd : _ ∨ _ |- _ => destruct Hd end; by bool_prop.
Qed.

Lemma collect_spec b now busy l cs :
  (∀ m s, (m, s) ∈ l → specs b !! m = Some s) → NoDup l.*1 →
  collect b now busy l = Ret cs →
  (∀ c, c ∈ cs → cand_model_id c ∈ l.*1 ∧ eligible b busy now c) ∧ NoDup (cand_model_id <$> cs).
Proof.
  revert cs. induction l as [|[m s] l IH]; intros cs Hl Hnd; csimpl.
  { intros [= <-]. split; [by intros c ?%elem_of_nil|constructor]. }
  run_unfold. apply NoDup_cons in Hnd as [Hm Hnd].
  destruct (candidate_of b now busy m s) as [o|] eqn:Hc; [|done].
  destruct (collect b now busy l) as [ds|] eqn:Hds; [|done]. intros [= <-].
  destruct (IH ds) as [Hin Hnd']; [intros; apply Hl; by constructor|done|done|].
  destruct o as [c|].
  - apply candidate_of_some in Hc as [Hid Hel]; [|apply Hl; constructor]. split.
    + intros c' [->|Hc']%elem_of_cons; [rewrite Hid; by split; [constructor|]|].
      destruct (Hin c' Hc'). split; [by constructor|done].
    + csimpl. constructor; [|done]. rewrite Hid. intros (c' & Hc' & He)%list_elem_of_fmap.
      apply Hm. rewrite Hc'. by apply Hin.
  - split; [|done]. intros c' Hc'. destruct (Hin c' Hc'). split; [by constructor|done].
Qed.

Lemma collect_complete b now busy l cs m s r :
  collect b now busy l = Ret cs → (m, RegV1 s) ∈ l → runtime b !! m = Some r →
  state r = READY → admission_blocked r = false → (busy = false → dlen (leases r) = 0) →
  v1_pinned s = false → v1_evictable s = true → m ∈ cand_model_id <$> cs.
Proof.
  intros Hc Hm Hr Hst Hbl Hidle Hp He. revert cs Hc. induction l as [|[m' s'] l IH]; intros cs.
  { by apply not_elem_of_nil in Hm. }
  simpl. run_unfold. destruct (candidate_of b now busy m' s') as [o|] eqn:Ho; [|done].
  destruct (collect b now busy l) as [ds|] eqn:Hds; [|done]. intros [= <-].
  apply elem_of_cons in Hm as [[= <- <-]|Hm].
  - revert Ho. unfold candidate_of, runtime_of, spec_pinned, spec_evictable, spec_priority, v1_attr, heat.
    unfold runtime_of. run_unfold. rewrite Hr, Hst, Hbl, Hp, He. simpl.
    destruct (negb (no_leases r) && negb busy) eqn:Hb; simpl.
    { unfold no_leases in Hb. bool_prop. subst. naive_solver. }
    destruct (required b m) as [q|]; [|done]. intros [= <-]. csimpl. by constructor.
  - specialize (IH Hm ds eq_refl). destruct o; csimpl; [by constructor|done].
Qed.

Lemma collect_ret b now busy l :
  (∀ m s, (m, s) ∈ l → ∃ s' r e, s = RegV1 s' ∧ runtime b !! m = Some r ∧ ledger b !! m = Some e) →
  ∃ cs, collect b now busy l = Ret cs.
Proof.
  induction l as [|[m s] l IH]; intros Hl; simpl; [eauto|]. run_unfold.
  destruct IH as [cs Hcs]; [intros; apply Hl; by constructor|].
  destruct (Hl m s) as (s' & r & e & -> & Hr & He); [constructor|].
  assert (∃ o, candidate_of b now busy m (RegV1 s') = Ret o) as [o Ho].
  { unfold candidate_of, runtime_of, spec_pinned, spec_evictable, spec_priority, v1_attr, heat, required, ledger_spec.
    unfold runtime_of. run_unfold. rewrite Hr, He. repeat case_match; simplify_eq; eauto. }
  rewrite Ho, Hcs. eauto.
Qed.

Lemma candidates_spec b now busy cs :
  book_wf b → candidates b now busy = Ret cs →
  StronglySorted cand_le cs ∧ NoDup (cand_model_id <$> cs) ∧ (∀ c, c ∈ cs → eligible b busy now c) ∧
  ∃ ds, collect b now busy (entries (specs b)) = Ret ds ∧ cs ≡ₚ ds.
Proof.
  intros Hb. assert (dict_nodup (specs b)) as Hnd.
  { unfold dict_nodup. rewrite (bw_specs_keys b Hb). apply (bw_nodup b Hb). }
  unfold candidates. run_unfold. destruct (collect _ _ _ _) as [ds|] eqn:Hds; [|done]. intros [= Hcs].
  destruct (collect_spec b now busy (entries (specs b)) ds) as [Hel Hnd']; try done.
  { intros m s Hm. by apply entries_lookup. }
  assert (cs ≡ₚ ds) as Hp by (rewrite <-Hcs; apply merge_sort_Permutation).
  split_and!; [rewrite <-Hcs; apply (StronglySorted_merge_sort cand_le)| | |by exists ds].
  - by rewrite Hp.
  - intros c Hc. apply Hel. by rewrite <-Hp.
Qed.

(** The ledger entries are the ones the registrations give. *)
Definition ledger_matches b : Prop :=
  ∀ m s, specs b !! m = Some s → ∃ e, from_registration s (margin b) = Ret e ∧ ledger b !! m = Some e.

Lemma ledger_of_specs_matches l mg es m s :
  ledger_of_specs l mg = Ret es → (Dict l : dict string Registration) !! m = Some s →
  ∃ e, from_registration s mg = Ret e ∧ (Dict es : dict string LedgerSpec) !! m = Some e.
Proof.
  revert es. induction l as [|[k v] l IH]; intros es; simpl; [done|]. run_unfold.
  destruct (from_registration v mg) as [e|] eqn:He; [|done].
  destruct (ledger_of_specs l mg) as [es'|] eqn:Hes; [|done]. intros [= <-].
  unfold lookup, dict_lookup. simpl. destruct (decide (m = k)) as [->|]; [intros Hs; simplify_eq; eauto|].
  intros Hs. by apply (IH es').
Qed.

Lemma init_ledger_matches sp bud fl mg age hl rw tw b :
  Book_init sp bud fl mg age hl rw tw = Ret b → ledger_matches b.
Proof.
  unfold Book_init. run_unfold. intros Hi. repeat case_match; simplify_eq.
  intros m s. simpl. destruct sp. simpl in *. intros Hs. by eapply ledger_of_specs_matches.
Qed.

Lemma exec_ledger_matches c b : ledger_matches b → ledger_matches (exec c b).
Proof.
  destruct (exec_extends c b) as [(Hs & Hl & _ & _ & _ & _ & _ & _ & _ & Hm) _].
  unfold ledger_matches. by rewrite Hs, Hl, Hm.
Qed.

Lemma exec_all_ledger_matches cs b : ledger_matches b → ledger_matches (exec_all cs b).
Proof. revert b. induction cs as [|c cs IH]; simpl; [done|]. intros b Hb. by apply IH, exec_ledger_matches. Qed.

Lemma eligible_ledger b busy now c :
  ledger_matches b → eligible b busy now c →
  ∃ e, ledger b !! cand_model_id c = Some e ∧ led_pinned e = false ∧ led_evictable e = true.
Proof.
  intros Hm (s & r & Hs & _ & _ & _ & _ & Hp & He & _). destruct (Hm _ _ Hs) as (e & Hf & Hl).
  exists e. split; [done|]. revert Hf. unfold from_registration. run_unfold.
  destruct (effective_reserved_bytes _ _); [|done]. by intros [= <-].
Qed.

Lemma choose_sublist p b n now busy sel :
  book_wf b → choose p b n now busy = Ret sel →
  NoDup (cand_model_id <$> sel) ∧ ∀ c, c ∈ sel → eligible b busy now c.
Proof.
  intros Hb. unfold choose. run_unfold. destruct (n <=? 0).
  { intros [= <-]. split; [constructor|]. by intros c ?%not_elem_of_nil. }
  destruct (candidates b now busy) as [cs|] eqn:Hcs; [|done]. intros [= <-].
  destruct (candidates_spec b now busy cs Hb Hcs) as (_ & Hnd & Hel & _).
  destruct (choose_loop_prefix p n [] 0 cs) as [j ->]. simpl. split.
  - rewrite fmap_take. eapply sublist_NoDup; [exact Hnd|apply sublist_take].
  - intros c Hc. apply Hel. eapply elem_of_submseteq; [exact Hc|apply sublist_submseteq, sublist_take].
Qed.

Lemma choose_frees p b n now busy sel : choose p b n now busy = Ret sel → sel ≠ [] → n ≤ freed sel.
Proof.
  unfold choose. run_unfold. destruct (n <=? 0); [by intros [= <-]|].
  destruct (candidates b now busy) as [cs|]; [|done]. intros [= <-]. apply (choose_loop_frees p n [] cs).
Qed.

Lemma eligible_eviction_check b now c :
  book_wf b → ledger_matches b → eligible b false now c →
  eviction_check b true (cand_model_id c) = Ret tt.
Proof.
  intros Hb Hm Hel. destruct (eligible_ledger _ _ _ _ Hm Hel) as (e & He & Hp & Hev).
  destruct Hel as (s & r & _ & Hr & Hst & _ & Hl & _).
  pose proof (ready_no_operation b _ r Hb Hr (or_introl Hst)) as Hop.
  unfold eviction_check, runtime_of, ledger_spec, no_leases. run_unfold.
  by rewrite Hr, He, Hst, Hop, Hp, Hev, Hl.
Qed.

Lemma eligible_freeze_check b busy now c :
  book_wf b → ledger_matches b → eligible b busy now c → freeze_check b (cand_model_id c) = Ret tt.
Proof.
  intros Hb Hm Hel. destruct (eligible_ledger _ _ _ _ Hm Hel) as (e & He & Hp & Hev).
  destruct Hel as (s & r & _ & Hr & Hst & Hbl & _).
  pose proof (ready_no_operation b _ r Hb Hr (or_introl Hst)) as Hop.
  unfold freeze_check, runtime_of, ledger_spec. run_unfold.
  by rewrite Hr, He, Hst, Hop, Hp, Hev, Hbl.
Qed.

Lemma lookup_in_specs b m s : book_wf b → (m, s) ∈ entries (specs b) → is_Some (specs b !! m).
Proof.
  intros Hb Hm. exists s. apply entries_lookup; [|done].
  unfold dict_nodup. rewrite (bw_specs_keys b Hb). apply (bw_nodup b Hb).
Qed.

Lemma in_specs_runtime b m :
  book_wf b → is_Some (specs b !! m) → is_Some (runtime b !! m) ∧ is_Some (ledger b !! m).
Proof.
  intros Hb. rewrite <-!elem_of_keys, (bw_specs_keys b Hb), (bw_ledger_keys b Hb). done.
Qed.

(** Before it meets the v2 model the loop can only raise the same error. *)
Lemma collect_v2_raises b now busy l m s r :
  (m, RegV2 s) ∈ l → runtime b !! m = Some r → state r = READY →
  admission_blocked r = false → dlen (leases r) = 0 →
  (∀ m s, (m, s) ∈ l → is_Some (runtime b !! m) ∧ is_Some (ledger b !! m)) →
  collect b now busy l = Raise (AttributeError "pinned").
Proof.
  intros Hm Hr Hst Hbl Hl Hall. induction l as [|[m' s'] l IH]; [by apply not_elem_of_nil in Hm|].
  simpl. run_unfold. destruct (candidate_of b now busy m' s') as [o|e] eqn:Ho.
  - apply elem_of_cons in Hm as [[= <- <-]|Hm].
    + revert Ho. unfold candidate_of, spec_pinned, v1_attr, no_leases, runtime_of. run_unfold.
      by rewrite Hr, Hst, Hbl, Hl.
    + rewrite IH; [done|done|]. intros ? ? ?. eapply Hall. by constructor.
  - destruct (Hall m' s') as [[r' Hr'] [e' He']]; [constructor|]. revert Ho.
    unfold candidate_of, spec_pinned, spec_evictable, spec_priority, v1_attr, heat, required, ledger_spec, runtime_of.
    run_unfold. rewrite Hr', He'. intros Ho. repeat case_match; simplify_eq; done.
Qed.
End facts.

(** ** Guarantees *)
Section guarantees.
Context `{PyEnv, !PyEnvLaws}.
Implicit Types (b : Book).

(** C40: [choose] ranks every eligible model by score, ties by name, and
    returns the shortest prefix of that ranking that frees the bytes asked
    for, or nothing when no prefix of at most [max_evictions] models does. *)
Theorem choose_shortest_prefix p b n now busy sel :
  book_wf b → 1 ≤ max_evictions p → 0 < n → choose p b n now busy = Ret sel →
  ∃ cs, candidates b now busy = Ret cs ∧ StronglySorted cand_le cs ∧ NoDup (cand_model_id <$> cs) ∧
    (∀ c, c ∈ cs → eligible b busy now c) ∧
    (∀ m s r, specs b !! m = Some (RegV1 s) → runtime b !! m = Some r → state r = READY →
       admission_blocked r = false → (busy = false → dlen (leases r) = 0) →
       v1_pinned s = false → v1_evictable s = true → m ∈ cand_model_id <$> cs) ∧
    shortest_prefix n (max_evictions p) cs sel.
Proof.
  intros Hb Hk Hn. unfold choose. run_unfold. rewrite (proj2 (Z.leb_gt n 0)) by done.
  destruct (candidates b now busy) as [cs|] eqn:Hcs; [|done]. intros [= <-].
  destruct (candidates_spec b now busy cs Hb Hcs) as (Hs & Hnd & Hel & ds & Hds & Hp).
  exists cs. split_and!; try done.
  - intros m s r Hm Hr Hst Hbl Hi Hpin He. rewrite Hp.
    eapply collect_complete; try done. by apply lookup_entries.
  - apply (choose_loop_spec p n [] cs); simpl; [|lia|lia].
    intros c Hc. destruct (Hel c Hc) as (s & r & _ & _ & _ & _ & _ & _ & _ & Hq & _).
    apply required_ret in Hq as (e & He & Hq). destruct (bw_ledger b Hb _ _ He). lia.
Qed.

(** The policy and the book agree: a non-empty choice of idle models is a
    batch [begin_eviction] accepts, and a choice that may include busy models
    is a batch [freeze_for_switch] accepts; neither can raise. *)
Theorem choose_accepted p b n now busy sel :
  book_wf b → ledger_matches b → recovering b = false →
  choose p b n now busy = Ret sel → sel ≠ [] →
  (busy = false → ∃ b' ops, begin_eviction (cand_model_id <$> sel) true b = (b', Ret ops)) ∧
  (∃ b', freeze_for_switch (cand_model_id <$> sel) b = (b', Ret tt)).
Proof.
  intros Hb Hlm Hrec Hch Hne.
  assert (NoDup (cand_model_id <$> sel) ∧ ∀ c, c ∈ sel → eligible b busy now c) as [Hnd Hel].
  { by eapply choose_sublist. }
  assert (bad_batch b (cand_model_id <$> sel) = false) as Hbad.
  { unfold bad_batch. rewrite Hrec, (bool_decide_true (NoDup _)) by done.
    by rewrite bool_decide_false by (by intros ?%fmap_nil_inv). }
  assert (∀ m, m ∈ cand_model_id <$> sel → is_Some (runtime b !! m)) as Hall.
  { intros m (c & -> & Hc)%list_elem_of_fmap. destruct (Hel c Hc) as (s & r & _ & ? & _). eauto. }
  split.
  - intros ->. unfold begin_eviction. run_unfold. rewrite Hbad.
    rewrite (proj2 (check_each_ret _ _)).
    + destruct (map_start_stop_ret _ b Hnd Hall) as (ops & Hops & _).
      destruct (map_each _ start_stop b) as [b1 o]. simpl in Hops. subst. eauto.
    + intros m (c & -> & Hc)%list_elem_of_fmap.
      by eapply eligible_eviction_check; [..|apply Hel].
  - unfold freeze_for_switch. run_unfold. rewrite Hbad. rewrite (proj2 (check_each_ret _ _)).
    + by apply freeze_loop_ret.
    + intros m (c & -> & Hc)%list_elem_of_fmap. by eapply eligible_freeze_check; [..|apply Hel].
Qed.

(** A book with an idle READY v2 model has no candidate list at all: the
    policy reads [pinned] from the raw registration, which v2 does not have, so
    [candidates] raises [AttributeError] (as does [choose], whenever bytes are
    needed). *)
Theorem v2_candidates_raise p b n now busy m s r :
  book_wf b → 0 < n → specs b !! m = Some (RegV2 s) → runtime b !! m = Some r → state r = READY →
  admission_blocked r = false → dlen (leases r) = 0 →
  candidates b now busy = Raise (AttributeError "pinned") ∧
  choose p b n now busy = Raise (AttributeError "pinned").
Proof.
  intros Hb Hn Hs Hr Hst Hbl Hl.
  assert (candidates b now busy = Raise (AttributeError "pinned")) as Hc.
  { unfold candidates. run_unfold. erewrite collect_v2_raises; try done; [by apply lookup_entries|].
    intros m' s' Hm'. apply in_specs_runtime; [done|]. by eapply lookup_in_specs. }
  split; [done|]. unfold choose. run_unfold. by rewrite (proj2 (Z.leb_gt n 0)), Hc.
Qed.
End guarantees.

(** ** The guarantees on the concrete book *)
Definition demo_policy : EvictionPolicy := {| max_evictions := 8 |}.

Definition demo_choice : list EvictionCandidate :=
  match choose demo_policy demo_ready 50 (10 * second) false with Ret l => l | Raise _ => [] end.

Example demo_choice_is_a : cand_model_id <$> demo_choice = ["a"].
Proof. ground. Qed.

Lemma demo_ready_matches : ledger_matches demo_ready.
Proof.
  apply exec_ledger_matches, exec_ledger_matches, exec_all_ledger_matches.
  apply (init_ledger_matches demo_specs 150 10 0%Q (2 * second) (1800 * second) 1%Q (1 # 10000)%Q). ground.
Qed.

Lemma choose_shortest_prefix_witness : ∃ cs, candidates demo_ready (10 * second) false = Ret cs ∧
  shortest_prefix 50 8 cs demo_choice.
Proof.
  destruct (choose_shortest_prefix demo_policy demo_ready 50 (10 * second) false demo_choice demo_ready_wf)
    as (cs & ? & _ & _ & _ & _ & ?); [ground..|]. by exists cs.
Defined.

Lemma choose_accepted_witness :
  ∃ b' ops, begin_eviction (cand_model_id <$> demo_choice) true demo_ready = (b', Ret ops).
Proof.
  apply (choose_accepted demo_policy demo_ready 50 (10 * second) false demo_choice demo_ready_wf demo_ready_matches);
    ground.
Defined.

(** The v2 book with "p" loaded and READY. *)
Definition demo_ready2 : Book :=
  exec_all [CBeginLoad "p" (demo_sample 0) second; CLoaded (demo_op 0 "p" 1) (2 * second)] demo_stopped2.

Lemma v2_candidates_raise_witness :
  choose demo_policy demo_ready2 50 (10 * second) true = Raise (AttributeError "pinned").
Proof.
  assert (∃ s r, specs demo_ready2 !! "p" = Some (RegV2 s) ∧ runtime demo_ready2 !! "p" = Some r ∧
    state r = READY ∧ admission_blocked r = false ∧ dlen (leases r) = 0) as (s & r & ? & ? & ? & ? & ?).
  { eexists _, _. split_and!; [vm_compute; reflexivity..|ground|ground|ground]. }
  apply (v2_candidates_raise demo_policy demo_ready2 50 (10 * second) true "p" s r); try assumption.
  - apply exec_all_wf, demo_stopped2_wf.
  - lia.
Defined.
