(* ===== verification/Queue.v ===== *)
(** * The bounded, aged request queue

    [model_scheduler/request_queue.py].  The waiters are an ordered dict keyed
    by request id; the caller passes the clock reading. *)

From S2P Require Import Prelude Dict.
Local Open Scope Z_scope.

Inductive WaitState := WAITING | GRANTED | CLAIMED | CANCELLED | EXPIRED.
Inductive WaitKind := INTERACTIVE | SESSION.

#[export] Instance WaitState_eq_dec : EqDecision WaitState.
Proof. solve_decision. Defined.
#[export] Instance WaitKind_eq_dec : EqDecision WaitKind.
Proof. solve_decision. Defined.

Record QueuedRequest := {
  q_request_id : string;
  q_model_id : string;
  q_priority : Z;
  q_enqueued_at : Z;
  q_deadline : Z;
  q_sequence : Z;
  q_state : WaitState;
  q_kind : WaitKind;
}.

#[export] Instance QueuedRequest_eta : Eta QueuedRequest := fun q =>
  {| q_request_id := q_request_id q; q_model_id := q_model_id q; q_priority := q_priority q;
     q_enqueued_at := q_enqueued_at q; q_deadline := q_deadline q; q_sequence := q_sequence q;
     q_state := q_state q; q_kind := q_kind q |}.
#[export] Instance QueuedRequest_eq_dec : EqDecision QueuedRequest.
Proof. solve_decision. Defined.

Record RequestQueue := {
  q_capacity : Z;
  aging_seconds : Z;
  q_items : dict string QueuedRequest;
  q_counter : Z;
}.

#[export] Instance RequestQueue_eta : Eta RequestQueue := fun q =>
  {| q_capacity := q_capacity q; aging_seconds := aging_seconds q; q_items := q_items q;
     q_counter := q_counter q |}.

Definition RequestQueue_init (capacity aging_seconds : Z) : outcome RequestQueue :=
  _ ← raise_if ((capacity <? 1) || (aging_seconds <=? 0)) (ValueError "invalid queue policy");
  mret {| q_capacity := capacity; aging_seconds := aging_seconds; q_items := ∅; q_counter := 0 |}.

(** ** Operations *)

(** [_priority]: one more level for every whole aging period waited. *)
Definition aged_priority (q : RequestQueue) (item : QueuedRequest) (now : Z) : Z :=
  q_priority item + Z.max 0 (now - q_enqueued_at item) / aging_seconds q.

(** [del self._items[item.request_id]] *)
Definition drop_waiter (item : QueuedRequest) : pym RequestQueue unit :=
  modify (fun q => q <| q_items ::= delete (q_request_id item) |>).

Definition q_expire (now : Z) : pym RequestQueue (list QueuedRequest) :=
  q ← get;
  let expired := List.filter (fun item => q_deadline item <=? now) (values (q_items q)) in
  for_each expired drop_waiter ;;
  mret ((fun item => item <| q_state := EXPIRED |>) <$> expired).

Definition q_enqueue (request_id model_id : string) (priority deadline now : Z) (kind : WaitKind)
    : pym RequestQueue QueuedRequest :=
  q_expire now ;;
  q ← get;
  if mem request_id (q_items q) then raise (ValueError "duplicate waiter")
  else if q_capacity q <=? dlen (q_items q) then raise (OverflowError "queue full")
  else
    let item := {| q_request_id := request_id; q_model_id := model_id; q_priority := priority;
                   q_enqueued_at := now; q_deadline := deadline; q_sequence := q_counter q + 1;
                   q_state := WAITING; q_kind := kind |} in
    modify (fun q => q <| q_counter := q_counter q + 1 |> <| q_items ::= <[request_id := item]> |>) ;;
    mret item.

Definition q_requeue (item : QueuedRequest) : pym RequestQueue QueuedRequest :=
  q ← get;
  if mem (q_request_id item) (q_items q) then raise (ValueError "duplicate waiter")
  else if q_capacity q <=? dlen (q_items q) then raise (OverflowError "queue full")
  else
    let item := item <| q_state := WAITING |> in
    modify (fun q => q <| q_items ::= <[q_request_id item := item]> |>) ;;
    mret item.

Definition q_get (q : RequestQueue) (request_id : string) : option QueuedRequest := q_items q !! request_id.

Definition q_remove (request_id : string) (st : WaitState) : pym RequestQueue (option QueuedRequest) :=
  q ← get;
  match q_items q !! request_id with
  | None => mret None
  | Some item =>
      modify (fun q => q <| q_items ::= delete request_id |>) ;;
      mret (Some (item <| q_state := st |>))
  end.

(** [tuple(item for item in items if p(item))], where [p] may raise. *)
Fixpoint filter_each (p : QueuedRequest → outcome bool) (l : list QueuedRequest) : outcome (list QueuedRequest) :=
  match l with
  | [] => mret []
  | it :: l => ok ← p it; l ← filter_each p l; mret (if ok : bool then it :: l else l)
  end.

(** The key [(-priority, sequence)]: [x] goes strictly before [y]. *)
Definition goes_before (q : RequestQueue) (now : Z) (x y : QueuedRequest) : bool :=
  (aged_priority q y now <? aged_priority q x now)
  || ((aged_priority q x now =? aged_priority q y now) && (q_sequence x <? q_sequence y)).

(** [min(items, key=...)]: the first of the least ones. *)
Definition q_min (q : RequestQueue) (now : Z) (x : QueuedRequest) (l : list QueuedRequest) : QueuedRequest :=
  foldl (fun best y => if goes_before q now y best then y else best) x l.

Definition any_item : QueuedRequest → outcome bool := fun _ => Ret true.

Definition q_head (now : Z) (eligible : QueuedRequest → outcome bool) (kind : option WaitKind)
    : pym RequestQueue (option QueuedRequest) :=
  q_expire now ;;
  q ← get;
  let candidates := match kind with
                    | Some k => List.filter (fun item => bool_decide (q_kind item = k)) (values (q_items q))
                    | None => values (q_items q)
                    end in
  items ← lift (filter_each eligible candidates);
  mret match items with [] => None | x :: l => Some (q_min q now x l) end.

Definition q_is_head (request_id : string) (now : Z) (eligible : QueuedRequest → outcome bool)
    (kind : option WaitKind) : pym RequestQueue bool :=
  item ← q_head now eligible kind;
  mret match item with Some it => bool_decide (q_request_id it = request_id) | None => false end.

Definition q_contains (q : RequestQueue) (request_id : string) : bool := mem request_id (q_items q).
Definition waiting_models (q : RequestQueue) : list string := q_model_id <$> values (q_items q).
Definition waiting_count (q : RequestQueue) (model_id : string) : Z :=
  dsum (fun _ item => if bool_decide (q_model_id item = model_id) then 1 else 0) (q_items q).

Definition q_clear (st : WaitState) : pym RequestQueue (list QueuedRequest) :=
  q ← get;
  modify (fun q => q <| q_items := ∅ |>) ;;
  mret ((fun item => item <| q_state := st |>) <$> values (q_items q)).

Definition q_size (q : RequestQueue) : Z := dlen (q_items q).

(** ** The invariant *)
Record queue_wf (q : RequestQueue) : Prop := {
  qw_nodup : dict_nodup (q_items q);
  qw_item : ∀ k it, q_items q !! k = Some it →
    q_request_id it = k ∧ 0 < q_sequence it ≤ q_counter q ∧ q_state it = WAITING;
  qw_sequence : ∀ k1 k2 i1 i2, q_items q !! k1 = Some i1 → q_items q !! k2 = Some i2 →
    q_sequence i1 = q_sequence i2 → k1 = k2;
  qw_capacity : dlen (q_items q) ≤ q_capacity q;
  qw_policy : 1 ≤ q_capacity q ∧ 0 < aging_seconds q ∧ 0 ≤ q_counter q;
}.

Lemma queue_wf_init cap ag q : RequestQueue_init cap ag = Ret q → queue_wf q.
Proof.
  unfold RequestQueue_init. run_unfold. intros. repeat case_match; simplify_eq. bool_prop.
  split; simpl; try done; try (unfold dlen; simpl; lia); apply dict_nodup_empty.
Qed.

Lemma values_lookup q it : queue_wf q → it ∈ values (q_items q) ↔ q_items q !! q_request_id it = Some it.
Proof.
  intros Hq. split.
  - intros [k Hk]%elem_of_values. apply entries_lookup in Hk; [|apply (qw_nodup q Hq)].
    destruct (qw_item q Hq _ _ Hk) as [-> _]. done.
  - intros Hl%lookup_entries. unfold values. apply list_elem_of_fmap. by exists (q_request_id it, it).
Qed.

(** Deleting waiters keeps the invariant. *)
Lemma queue_wf_delete q k : queue_wf q → queue_wf (q <| q_items ::= delete k |>).
Proof.
  intros [Hnd Hit Hseq Hcap Hpol]. split; simpl; try done.
  - by apply dict_nodup_delete.
  - intros k' it. rewrite dict_lookup_delete. destruct (decide (k = k')); [done|]. apply Hit.
  - intros k1 k2 i1 i2. rewrite !dict_lookup_delete.
    destruct (decide (k = k1)); [done|]. destruct (decide (k = k2)); [done|]. apply Hseq.
  - pose proof (dlen_delete_le (q_items q) k). lia.
Qed.

Lemma for_each_delete_ret (l : list QueuedRequest) q :
  ∃ q', for_each l drop_waiter q = (q', Ret tt) ∧
    q_capacity q' = q_capacity q ∧ aging_seconds q' = aging_seconds q ∧ q_counter q' = q_counter q ∧
    (∀ k, q_items q' !! k = if bool_decide (k ∈ q_request_id <$> l) then None else q_items q !! k) ∧
    (queue_wf q → queue_wf q').
Proof.
  revert q. induction l as [|it l IH]; intros q; simpl.
  { exists q. split_and!; try done. }
  destruct (IH (q <| q_items ::= delete (q_request_id it) |>)) as (q' & Hf & Hc & Ha & Hn & Hl & Hw).
  exists q'. split_and!; [exact Hf|done..| |].
  - intros k. rewrite Hl. simpl. rewrite dict_lookup_delete. case_bool_decide as Hk.
    + rewrite bool_decide_true; [done|]. csimpl. by constructor.
    + destruct (decide (_ = k)) as [<-|].
      * rewrite bool_decide_true; [done|]. csimpl. constructor.
      * rewrite bool_decide_false; [done|]. csimpl. rewrite elem_of_cons. naive_solver.
  - intros Hq. by apply Hw, queue_wf_delete.
Qed.

(** [expire] keeps exactly the waiters whose deadline is still ahead. *)
Lemma q_expire_spec now q :
  queue_wf q →
  ∃ q' l, q_expire now q = (q', Ret l) ∧ queue_wf q' ∧
    q_capacity q' = q_capacity q ∧ aging_seconds q' = aging_seconds q ∧ q_counter q' = q_counter q ∧
    (∀ k it, q_items q' !! k = Some it ↔ q_items q !! k = Some it ∧ now < q_deadline it).
Proof.
  intros Hq. unfold q_expire. run_unfold.
  destruct (for_each_delete_ret (List.filter (fun item => q_deadline item <=? now) (values (q_items q))) q)
    as (q' & -> & Hc & Ha & Hn & Hl & Hw).
  eexists _, _. split_and!; try done; [by apply Hw|]. intros k it. rewrite Hl.
  case_bool_decide as Hk.
  - split; [done|]. intros [Hi Hd]. apply list_elem_of_fmap in Hk as (it' & -> & Hk).
    apply list_elem_of_In, filter_In in Hk as [Hk Hd']. apply list_elem_of_In, values_lookup in Hk; [|done].
    simplify_eq. bool_prop. lia.
  - split; [|tauto]. intros Hi. split; [done|]. apply Z.nle_gt. intros Hd. apply Hk.
    destruct (qw_item q Hq k it Hi) as [Hid _]. apply list_elem_of_fmap. exists it. split; [done|].
    apply list_elem_of_In, filter_In. split; [|by apply Z.leb_le].
    apply list_elem_of_In, values_lookup; [done|]. by rewrite Hid.
Qed.

Lemma q_expire_wf now : preserves queue_wf (q_expire now).
Proof. intros q Hq. destruct (q_expire_spec now q Hq) as (q' & l & -> & ? & _). done. Qed.

Lemma q_insert_wf q it n :
  queue_wf q → q_items q !! q_request_id it = None → dlen (q_items q) < q_capacity q →
  q_counter q ≤ n → 0 < q_sequence it ≤ n → q_state it = WAITING →
  (∀ k i, q_items q !! k = Some i → q_sequence i ≠ q_sequence it) →
  queue_wf (q <| q_counter := n |> <| q_items ::= <[q_request_id it := it]> |>).
Proof.
  intros [Hnd Hit Hseq Hcap Hpol] Hnew Hlt Hn Hs Hst Hfr. split; simpl; try done; try lia.
  - by apply dict_nodup_insert.
  - intros k i. rewrite dict_lookup_insert. destruct (decide (_ = k)); [naive_solver|].
    intros Hi. destruct (Hit k i Hi) as (? & ? & ?). split_and!; try done; lia.
  - intros k1 k2 i1 i2. rewrite !dict_lookup_insert.
    destruct (decide (_ = k1)), (decide (_ = k2)); intros; simplify_eq; try done; try eauto.
    + exfalso. by eapply Hfr.
    + exfalso. by eapply Hfr.
  - rewrite dlen_insert_new by done. lia.
Qed.

Lemma q_enqueue_wf rq m p dl now kd : preserves queue_wf (q_enqueue rq m p dl now kd).
Proof.
  intros q Hq. unfold q_enqueue. run_unfold.
  destruct (q_expire_spec now q Hq) as (q1 & l & -> & Hq1 & _).
  destruct (mem rq (q_items q1)) eqn:Hm; [done|]. destruct (_ <=? _) eqn:Hc; [done|]. bool_prop.
  apply mem_false in Hm. destruct (qw_policy q1 Hq1) as (_ & _ & Hn). simpl fst.
  apply (q_insert_wf q1 {| q_request_id := rq; q_model_id := m; q_priority := p; q_enqueued_at := now;
    q_deadline := dl; q_sequence := q_counter q1 + 1; q_state := WAITING; q_kind := kd |} (q_counter q1 + 1)); simpl; try done; try lia.
  intros k i Hi. destruct (qw_item q1 Hq1 k i Hi) as (_ & ? & _). lia.
Qed.

Lemma q_remove_wf rq st : preserves queue_wf (q_remove rq st).
Proof. intros q Hq. unfold q_remove. run_unfold. case_match; [by apply queue_wf_delete|done]. Qed.

Lemma q_head_wf now el kd : preserves queue_wf (q_head now el kd).
Proof.
  intros q Hq. unfold q_head. run_unfold. destruct (q_expire_spec now q Hq) as (q1 & l & -> & Hq1 & _).
  by case_match.
Qed.

Lemma q_is_head_wf rq now el kd : preserves queue_wf (q_is_head rq now el kd).
Proof. apply preserves_bind; [apply q_head_wf|intros; apply preserves_ret]. Qed.

Lemma q_clear_wf st : preserves queue_wf (q_clear st).
Proof.
  intros q [Hnd Hit Hseq Hcap Hpol]. unfold q_clear. run_unfold.
  split; simpl; try done; try (unfold dlen; simpl; lia); apply dict_nodup_empty.
Qed.

#[export] Hint Resolve q_expire_wf q_enqueue_wf q_remove_wf q_head_wf q_is_head_wf q_clear_wf : pym.

(** The queue under any sequence of its operations. *)
Inductive qcall :=
| QEnqueue (rq m : string) (p dl now : Z) (kd : WaitKind)
| QExpire (now : Z)
| QRemove (rq : string) (st : WaitState)
| QHead (now : Z) (el : QueuedRequest → outcome bool) (kd : option WaitKind)
| QClear (st : WaitState).

Definition q_exec (c : qcall) (q : RequestQueue) : RequestQueue :=
  match c with
  | QEnqueue rq m p dl now kd => (q_enqueue rq m p dl now kd q).1
  | QExpire now => (q_expire now q).1
  | QRemove rq st => (q_remove rq st q).1
  | QHead now el kd => (q_head now el kd q).1
  | QClear st => (q_clear st q).1
  end.

Definition q_exec_all (cs : list qcall) (q : RequestQueue) : RequestQueue := foldl (fun q c => q_exec c q) q cs.

Lemma q_exec_wf c q : queue_wf q → queue_wf (q_exec c q).
Proof.
  intros Hq. destruct c; [apply q_enqueue_wf|apply q_expire_wf|apply q_remove_wf|apply q_head_wf|apply q_clear_wf]; done.
Qed.

(** ** The head of the queue *)

(** [x] is ranked at least as high as [y]. *)
Definition ranked (q : RequestQueue) (now : Z) (x y : QueuedRequest) : Prop := goes_before q now y x = false.

Lemma ranked_iff q now x y :
  ranked q now x y ↔
  aged_priority q y now < aged_priority q x now ∨
  (aged_priority q x now = aged_priority q y now ∧ q_sequence x ≤ q_sequence y).
Proof.
  unfold ranked, goes_before. rewrite orb_false_iff, andb_false_iff, Z.ltb_ge, Z.eqb_neq, Z.ltb_ge. lia.
Qed.

Lemma ranked_refl q now x : ranked q now x x.
Proof. rewrite ranked_iff. lia. Qed.

Lemma ranked_trans q now x y z : ranked q now x y → ranked q now y z → ranked q now x z.
Proof. rewrite !ranked_iff. lia. Qed.

Lemma q_min_spec q now x l :
  q_min q now x l ∈ x :: l ∧ ∀ y, y ∈ x :: l → ranked q now (q_min q now x l) y.
Proof.
  unfold q_min. revert x. induction l as [|z l IH]; intros x; simpl.
  - split; [constructor|]. intros y [->|?%not_elem_of_nil]%elem_of_cons; [apply ranked_refl|done].
  - destruct (IH (if goes_before q now z x then z else x)) as [Hin Hle]. split.
    + rewrite !elem_of_cons in *. destruct (goes_before q now z x); tauto.
    + intros y Hy. rewrite !elem_of_cons in Hy. destruct (goes_before q now z x) eqn:Hb.
      * destruct Hy as [->|Hy]; [|apply Hle; by apply elem_of_cons].
        eapply ranked_trans; [apply Hle; constructor|]. rewrite ranked_iff. unfold goes_before in Hb.
        rewrite orb_true_iff, andb_true_iff, !Z.ltb_lt, Z.eqb_eq in Hb. lia.
      * destruct Hy as [->|[->|Hy]]; [apply Hle; constructor| |apply Hle; by constructor].
        eapply ranked_trans; [apply Hle; constructor|]. done.
Qed.

Lemma filter_each_ret p l l' :
  filter_each p l = Ret l' → ∀ it, it ∈ l' ↔ it ∈ l ∧ p it = Ret true.
Proof.
  revert l'. induction l as [|x l IH]; intros l'; simpl; run_unfold.
  { intros [= <-] it. rewrite elem_of_nil. tauto. }
  destruct (p x) as [b|] eqn:Hp; [|done]. destruct (filter_each p l) as [l1|] eqn:Hl; [|done].
  intros [= <-] it. rewrite elem_of_cons. specialize (IH l1 eq_refl it).
  destruct b; rewrite ?elem_of_cons, IH; naive_solver congruence.
Qed.

(** The waiters [head] chooses from. *)
Definition waits (q : RequestQueue) (now : Z) (el : QueuedRequest → outcome bool) (kd : option WaitKind)
    (it : QueuedRequest) : Prop :=
  q_items q !! q_request_id it = Some it ∧ now < q_deadline it ∧ el it = Ret true ∧
  match kd with Some k => q_kind it = k | None => True end.

Lemma q_head_ret now el kd q q' o :
  queue_wf q → q_head now el kd q = (q', Ret o) →
  (∀ it, q_items q' !! q_request_id it = Some it ↔ q_items q !! q_request_id it = Some it ∧ now < q_deadline it) ∧
  match o with
  | None => ∀ it, ¬ waits q now el kd it
  | Some h => waits q now el kd h ∧ ∀ it, waits q now el kd it → ranked q now h it
  end.
Proof.
  intros Hq. unfold q_head. run_unfold.
  destruct (q_expire_spec now q Hq) as (q1 & l & -> & Hq1 & _ & Hag & _ & Hl).
  set (cs := match kd with Some k => _ | None => _ end).
  destruct (filter_each el cs) as [items|] eqn:Hf; [|done]. intros [= <- <-].
  assert (∀ it, it ∈ items ↔ waits q now el kd it) as Hw.
  { intros it. rewrite (filter_each_ret _ _ _ Hf). unfold waits.
    assert (it ∈ cs ↔ q_items q1 !! q_request_id it = Some it ∧
      match kd with Some k => q_kind it = k | None => True end) as ->.
    { subst cs. destruct kd; [|rewrite values_lookup by done; tauto].
      rewrite list_elem_of_In, filter_In, <-list_elem_of_In, values_lookup, bool_decide_eq_true by done. done. }
    rewrite Hl. tauto. }
  split; [by intros it; rewrite Hl|].
  destruct items as [|x items]; [intros it; rewrite <-Hw; apply not_elem_of_nil|].
  destruct (q_min_spec q1 now x items) as [Hin Hle]. split; [by apply Hw|].
  intros it Hit%Hw. specialize (Hle it Hit). revert Hle. unfold ranked, goes_before, aged_priority. by rewrite Hag.
Qed.

Lemma filter_each_total p l : (∀ it, it ∈ l → ∃ v, p it = Ret v) → ∃ l', filter_each p l = Ret l'.
Proof.
  induction l as [|x l IH]; intros Hl; simpl; [eauto|]. run_unfold.
  destruct (Hl x) as [v ->]; [constructor|]. destruct IH as [l' ->]; [|eauto].
  intros. apply Hl. by constructor.
Qed.

Lemma q_head_total now el kd q :
  queue_wf q → (∀ it, q_items q !! q_request_id it = Some it → ∃ v, el it = Ret v) →
  ∃ q' o, q_head now el kd q = (q', Ret o).
Proof.
  intros Hq Hel. unfold q_head. run_unfold.
  destruct (q_expire_spec now q Hq) as (q1 & l & -> & Hq1 & _ & _ & _ & Hl).
  assert (∀ it, it ∈ values (q_items q1) → ∃ v, el it = Ret v) as Hv.
  { intros it Hit%values_lookup; [|done]. apply Hel. by apply Hl in Hit as [? _]. }
  match goal with |- context [filter_each el ?cs] => destruct (filter_each_total el cs) as [l' ->] end; [|eauto].
  intros it Hit. apply Hv. destruct kd; [|done].
  apply list_elem_of_In, filter_In in Hit as [? _]. by apply list_elem_of_In.
Qed.

(** ** Guarantees *)

(** From construction on, whatever sequence of operations is run: waiters
    are keyed by their own request id and still WAITING, their sequence numbers
    are distinct and issued, and their number never exceeds the capacity. *)
Theorem queue_invariant cap ag q cs :
  RequestQueue_init cap ag = Ret q → queue_wf (q_exec_all cs q).
Proof.
  intros Hi%queue_wf_init. revert q Hi. induction cs as [|c cs IH]; intros q Hq; simpl; [done|].
  by apply IH, q_exec_wf.
Qed.

(** [head] answers the best live waiter that is eligible and of the kind
    asked for: none is ranked before it (higher aged priority first, then lower
    sequence number); it answers [None] only when there is no such waiter. *)
Theorem head_is_best now el kd q :
  queue_wf q → (∀ it, q_items q !! q_request_id it = Some it → ∃ v, el it = Ret v) →
  ∃ q' o, q_head now el kd q = (q', Ret o) ∧ queue_wf q' ∧
    match o with
    | None => ∀ it, ¬ waits q now el kd it
    | Some h => waits q now el kd h ∧ ∀ it, waits q now el kd it → h = it ∨
        aged_priority q it now < aged_priority q h now ∨
        (aged_priority q h now = aged_priority q it now ∧ q_sequence h < q_sequence it)
    end.
Proof.
  intros Hq Hel. destruct (q_head_total now el kd q Hq Hel) as (q' & o & Hh).
  exists q', o. split; [done|]. split; [by pose proof (q_head_wf now el kd q Hq) as Hw; rewrite Hh in Hw|].
  destruct (q_head_ret _ _ _ _ _ _ Hq Hh) as [_ Ho]. destruct o as [h|]; [|done].
  destruct Ho as [Hh' Hle]. split; [done|]. intros it Hit. specialize (Hle it Hit). rewrite ranked_iff in Hle.
  destruct Hle as [?|[? Hs]]; [by right; left|].
  destruct (decide (q_sequence h = q_sequence it)) as [He|]; [left|right; right; split; [done|lia]].
  destruct Hh' as (H1 & _), Hit as (H2 & _).
  pose proof (qw_sequence q Hq _ _ _ _ H1 H2 He) as Hid. rewrite Hid in H1. congruence.
Qed.

(** Bounded overtaking: a waiter that arrived at least
    [(p_late - p_early) * aging_seconds] after another one is never served before
    it, so a low-priority waiter is passed only by a bounded window of arrivals. *)
Theorem no_late_overtaking now el kd q q' h early :
  queue_wf q → q_head now el kd q = (q', Ret (Some h)) → waits q now el kd early →
  q_enqueued_at early ≤ now → q_enqueued_at h ≤ now → q_sequence early < q_sequence h →
  q_enqueued_at h < q_enqueued_at early + (q_priority h - q_priority early) * aging_seconds q.
Proof.
  intros Hq Hh He Hnow Hnow' Hseq. destruct (q_head_ret _ _ _ _ _ _ Hq Hh) as [_ [_ Hle]].
  specialize (Hle early He). rewrite ranked_iff in Hle. destruct (qw_policy q Hq) as (_ & Hag & _).
  destruct Hle as [Hlt|[_ ?]]; [|lia]. unfold aged_priority in Hlt.
  apply Z.nle_gt. intros Hge. rewrite (Z.max_r 0 (now - q_enqueued_at early)) in Hlt by lia.
  set (d := q_priority h - q_priority early) in *.
  assert (Z.max 0 (now - q_enqueued_at h) / aging_seconds q + d ≤ (now - q_enqueued_at early) / aging_seconds q).
  { rewrite <-Z.div_add by lia. apply Z.div_le_mono; [done|].
    rewrite Z.max_r by lia. lia. }
  lia.
Qed.

(** [enqueue] first drops expired waiters, then refuses a duplicate or a
    full queue without adding anything; otherwise the new waiter is at the end
    of the arrival order and every live waiter is untouched. *)
Theorem enqueue_behaviour rq m p dl now kd q :
  queue_wf q →
  ∃ q' res, q_enqueue rq m p dl now kd q = (q', res) ∧ queue_wf q' ∧
    (∀ k it, k ≠ rq → q_items q' !! k = Some it ↔ q_items q !! k = Some it ∧ now < q_deadline it) ∧
    match res with
    | Raise e =>
        (e = ValueError "duplicate waiter" ∧ ∃ it, q_items q !! rq = Some it ∧ now < q_deadline it) ∨
        (e = OverflowError "queue full" ∧ q_size q' = q_capacity q)
    | Ret it =>
        q_items q' !! rq = Some it ∧ q_request_id it = rq ∧ q_model_id it = m ∧ q_priority it = p ∧
        q_deadline it = dl ∧ q_enqueued_at it = now ∧ q_kind it = kd ∧
        (∀ k i, q_items q' !! k = Some i → k ≠ rq → q_sequence i < q_sequence it)
    end.
Proof.
  intros Hq. pose proof (q_enqueue_wf rq m p dl now kd q Hq) as Hw. revert Hw.
  unfold q_enqueue. run_unfold.
  destruct (q_expire_spec now q Hq) as (q1 & l & -> & Hq1 & Hcap & _ & _ & Hl).
  destruct (mem rq (q_items q1)) eqn:Hm; [|destruct (_ <=? _) eqn:Hc]; intros Hw; bool_prop;
    eexists _, _; (split; [reflexivity|split; [exact Hw|]]); simpl.
  - apply mem_true in Hm as [it Hit]. split; [by intros|]. left. split; [done|].
    exists it. by apply Hl.
  - split; [by intros|]. right. split; [done|]. unfold q_size.
    pose proof (qw_capacity q1 Hq1). lia.
  - split; [intros k it Hk; rewrite dict_lookup_insert_ne by done; apply Hl|].
    rewrite dict_lookup_insert_eq. split_and!; try done. intros k i Hi Hk.
    rewrite dict_lookup_insert_ne in Hi by done. destruct (qw_item q1 Hq1 k i Hi) as (_ & ? & _). lia.
Qed.

(** ** The guarantees on a concrete queue *)
Definition demo_queue0 : RequestQueue :=
  {| q_capacity := 2; aging_seconds := 30; q_items := ∅; q_counter := 0 |}.
Definition demo_queue : RequestQueue :=
  q_exec_all [QEnqueue "low" "a" 0 1000 0 INTERACTIVE; QEnqueue "high" "b" 3 1000 89 INTERACTIVE] demo_queue0.

Lemma demo_queue_wf : queue_wf demo_queue.
Proof. apply q_exec_wf, q_exec_wf, (queue_wf_init 2 30). by vm_compute. Qed.

Definition demo_early : QueuedRequest :=
  {| q_request_id := "low"; q_model_id := "a"; q_priority := 0; q_enqueued_at := 0; q_deadline := 1000;
     q_sequence := 1; q_state := WAITING; q_kind := INTERACTIVE |}.
Definition demo_late : QueuedRequest :=
  {| q_request_id := "high"; q_model_id := "b"; q_priority := 3; q_enqueued_at := 89; q_deadline := 1000;
     q_sequence := 2; q_state := WAITING; q_kind := INTERACTIVE |}.

Lemma queue_invariant_witness : RequestQueue_init 2 30 = Ret demo_queue0 ∧ queue_wf demo_queue.
Proof. split; [by vm_compute|]. apply (queue_invariant 2 30 demo_queue0). by vm_compute. Defined.

Lemma head_is_best_witness : ∃ q' o, q_head 95 any_item None demo_queue = (q', Ret o) ∧ queue_wf q'.
Proof.
  destruct (head_is_best 95 any_item None demo_queue demo_queue_wf) as (q' & o & ? & ? & _).
  - intros it _. by exists true.
  - exists q', o. split; assumption.
Defined.

(** "high" arrived 89 ticks after "low", inside the 90-tick window, and passes it. *)
Lemma no_late_overtaking_witness :
  (q_head 89 any_item None demo_queue).2 = Ret (Some demo_late) ∧ 89 < 0 + (3 - 0) * 30.
Proof.
  split; [by vm_compute|].
  apply (no_late_overtaking 89 any_item None demo_queue (q_head 89 any_item None demo_queue).1 demo_late demo_early);
    [apply demo_queue_wf|by vm_compute| |by vm_compute..].
  unfold waits. split_and!; by vm_compute.
Defined.

Lemma enqueue_behaviour_witness : ∃ q' res,
  q_enqueue "late" "a" 0 1000 100 INTERACTIVE demo_queue = (q', res) ∧ queue_wf q'.
Proof.
  destruct (enqueue_behaviour "late" "a" 0 1000 100 INTERACTIVE demo_queue demo_queue_wf) as (q' & res & ? & ? & _).
  exists q', res. split; assumption.
Defined.
