(* ===== verification/Sessions.v ===== *)
(** * Exclusive sessions

    [model_scheduler/session_manager.py]: the records of the exclusive sessions
    and their phase machine.  [create] also puts a waiter in the request queue,
    so it runs on the manager and the queue together. *)

From S2P Require Import Prelude Dict Contracts Queue.
Local Open Scope Z_scope.

Inductive SessionPhase := PREPARING | ACTIVE | DRAINING | CLOSED | BLOCKED.

#[export] Instance SessionPhase_eq_dec : EqDecision SessionPhase.
Proof. solve_decision. Defined.

(** [_HOLDING_PHASES] *)
Definition holding (p : SessionPhase) : bool :=
  match p with ACTIVE | DRAINING | BLOCKED => true | PREPARING | CLOSED => false end.

Record SessionRecord := {
  s_session_id : string;
  s_model_id : string;
  s_client_id : string;
  s_priority : Z;
  s_created_at : time;
  s_wait_deadline : time;
  s_prepare_deadline : time;
  s_hard_deadline : time;
  s_ttl_seconds : time;
  s_phase : SessionPhase;
  s_heartbeat_at : option time;
  s_activated_at : option time;
  s_draining_at : option time;
  s_draining_reason : option string;
  s_closed_at : option time;
  s_blocked_at : option time;
  s_blocked_reason : option string;
  s_retry_at : time;
  s_sequence : Z;
}.

#[export] Instance SessionRecord_eta : Eta SessionRecord := fun r =>
  {| s_session_id := s_session_id r; s_model_id := s_model_id r; s_client_id := s_client_id r;
     s_priority := s_priority r; s_created_at := s_created_at r; s_wait_deadline := s_wait_deadline r;
     s_prepare_deadline := s_prepare_deadline r; s_hard_deadline := s_hard_deadline r;
     s_ttl_seconds := s_ttl_seconds r; s_phase := s_phase r; s_heartbeat_at := s_heartbeat_at r;
     s_activated_at := s_activated_at r; s_draining_at := s_draining_at r;
     s_draining_reason := s_draining_reason r; s_closed_at := s_closed_at r;
     s_blocked_at := s_blocked_at r; s_blocked_reason := s_blocked_reason r;
     s_retry_at := s_retry_at r; s_sequence := s_sequence r |}.

(** Soft TTL from the last activity, never beyond the hard deadline. *)
Definition s_expires_at (r : SessionRecord) : time :=
  let activity := match s_heartbeat_at r with
                  | Some t => t
                  | None => match s_activated_at r with Some t => t | None => s_created_at r end
                  end in
  Z.min (s_hard_deadline r) (activity + s_ttl_seconds r).

Definition s_preparation_expired_at (r : SessionRecord) : time :=
  Z.min (s_wait_deadline r) (s_prepare_deadline r).

Record SessionManager := {
  max_sessions : Z;
  wait_seconds : time;
  hard_deadline_seconds : time;
  heartbeat_seconds : time;
  ttl_seconds : time;
  prepare_seconds : time;
  drain_seconds : time;
  retry_seconds : time;
  cleanup_seconds : time;
  cancel_seconds : time;
  stop_grace_seconds : time;
  reconcile_seconds : time;
  records : dict string SessionRecord;
  active_id : option string;
  in_flight : dict string Z;
}.

#[export] Instance SessionManager_eta : Eta SessionManager := fun m =>
  {| max_sessions := max_sessions m; wait_seconds := wait_seconds m;
     hard_deadline_seconds := hard_deadline_seconds m; heartbeat_seconds := heartbeat_seconds m;
     ttl_seconds := ttl_seconds m; prepare_seconds := prepare_seconds m;
     drain_seconds := drain_seconds m; retry_seconds := retry_seconds m;
     cleanup_seconds := cleanup_seconds m; cancel_seconds := cancel_seconds m;
     stop_grace_seconds := stop_grace_seconds m; reconcile_seconds := reconcile_seconds m;
     records := records m; active_id := active_id m; in_flight := in_flight m |}.

Definition SessionManager_init (max_sessions wait_seconds hard_deadline_seconds heartbeat_seconds
    ttl_seconds prepare_seconds drain_seconds retry_seconds cleanup_seconds cancel_seconds
    stop_grace_seconds reconcile_seconds : Z) : outcome SessionManager :=
  _ ← raise_if (foldr Z.min max_sessions
                  [wait_seconds; hard_deadline_seconds; heartbeat_seconds; ttl_seconds; prepare_seconds;
                   drain_seconds; retry_seconds; cleanup_seconds; cancel_seconds; stop_grace_seconds;
                   reconcile_seconds] <=? 0)
        (ValueError "session policy values must be positive");
  mret {| max_sessions := max_sessions; wait_seconds := wait_seconds;
          hard_deadline_seconds := hard_deadline_seconds; heartbeat_seconds := heartbeat_seconds;
          ttl_seconds := ttl_seconds; prepare_seconds := prepare_seconds;
          drain_seconds := drain_seconds; retry_seconds := retry_seconds;
          cleanup_seconds := cleanup_seconds; cancel_seconds := cancel_seconds;
          stop_grace_seconds := stop_grace_seconds; reconcile_seconds := reconcile_seconds;
          records := ∅; active_id := None; in_flight := ∅ |}.

(** ** Lifecycle *)
Definition put_record (sid : string) (r : SessionRecord) (m : SessionManager) : SessionManager :=
  m <| records ::= <[sid := r]> |>.

Definition new_record (m : SessionManager) (sid model_id client_id : string) (now priority hard : Z) : SessionRecord :=
  {| s_session_id := sid; s_model_id := model_id; s_client_id := client_id; s_priority := priority;
     s_created_at := now;
     s_wait_deadline := Z.min (now + wait_seconds m) (now + hard);
     s_prepare_deadline := Z.min (now + prepare_seconds m) (now + hard);
     s_hard_deadline := now + hard; s_ttl_seconds := ttl_seconds m;
     s_phase := PREPARING; s_heartbeat_at := None; s_activated_at := None; s_draining_at := None;
     s_draining_reason := None; s_closed_at := None; s_blocked_at := None; s_blocked_reason := None;
     s_retry_at := 0; s_sequence := 0 |}.

Definition s_create (sid model_id client_id : string) (now priority : Z) (hard_deadline : option Z)
    : pym (SessionManager * RequestQueue) SessionRecord :=
  mq ← get;
  let m := mq.1 in
  if mem sid (records m) then raise (SessionConflict "duplicate_session")
  else if max_sessions m <=? dlen (records m) then raise (SessionConflict "session_capacity")
  else
    let hard := match hard_deadline with
                | None => hard_deadline_seconds m
                | Some h => Z.min h (hard_deadline_seconds m)
                end in
    if hard <=? 0 then raise (SessionConflict "invalid_hard_deadline")
    else
      let r := new_record m sid model_id client_id now priority hard in
      waiter ← on_field snd (fun q mq => (mq.1, q))
                 (q_enqueue sid model_id priority (s_wait_deadline r) now SESSION);
      let r := r <| s_sequence := q_sequence waiter |> in
      modify (fun mq => ((put_record sid r mq.1) <| in_flight ::= <[sid := 0]> |>, mq.2)) ;;
      mret r.

Definition s_get (m : SessionManager) (sid : string) : outcome SessionRecord :=
  of_option (SessionNotFound sid) (records m !! sid).

Definition s_is_live (m : SessionManager) (sid : string) (now : time) : bool :=
  match records m !! sid with
  | Some r => bool_decide (s_phase r = ACTIVE) && (now <? s_expires_at r)
  | None => false
  end.

Definition s_heartbeat (sid : string) (now : time) : pym SessionManager SessionRecord :=
  m ← get;
  r ← lift (s_get m sid);
  if negb (bool_decide (s_phase r = PREPARING) || bool_decide (s_phase r = ACTIVE))
  then raise (SessionConflict "session_not_open")
  else if bool_decide (s_phase r = ACTIVE) && (s_expires_at r <=? now)
  then raise (SessionConflict "session_expired")
  else
    let r := r <| s_heartbeat_at := Some now |> in
    modify (put_record sid r) ;; mret r.

Definition s_mark_active (sid : string) (now : time) : pym SessionManager SessionRecord :=
  m ← get;
  r ← lift (s_get m sid);
  if bool_decide (s_phase r = ACTIVE) then raise (SessionConflict "session_already_active")
  else if negb (bool_decide (s_phase r = PREPARING)) then raise (SessionConflict "session_not_preparing")
  else if match active_id m with Some a => negb (bool_decide (a = sid)) | None => false end
  then raise (SessionConflict "session_already_active")
  else
    let r := r <| s_phase := ACTIVE |> <| s_activated_at := Some now |> <| s_heartbeat_at := Some now |>
               <| s_retry_at := 0 |> in
    modify (fun m => (put_record sid r m) <| active_id := Some sid |>) ;; mret r.

(** [if self.active_id == session_id: self.active_id = None] *)
Definition clear_active (sid : string) (m : SessionManager) : SessionManager :=
  if bool_decide (active_id m = Some sid) then m <| active_id := None |> else m.

Definition s_begin_drain (sid : string) (now : time) (reason : string) : pym SessionManager SessionRecord :=
  m ← get;
  r ← lift (s_get m sid);
  if bool_decide (s_phase r = CLOSED) then mret r
  else
    let r := r <| s_phase := DRAINING |> <| s_draining_at := Some now |> <| s_draining_reason := Some reason |> in
    modify (fun m => clear_active sid (put_record sid r m)) ;; mret r.

Definition s_mark_closed (sid : string) (now : time) : pym SessionManager SessionRecord :=
  m ← get;
  r ← lift (s_get m sid);
  if bool_decide (s_phase r = CLOSED) then mret r
  else
    let r := r <| s_phase := CLOSED |> <| s_closed_at := Some now |> <| s_retry_at := 0 |> in
    modify (fun m => (clear_active sid (put_record sid r m)) <| in_flight ::= <[sid := 0]> |>) ;; mret r.

Definition s_mark_blocked (sid : string) (now : time) (reason : string) : pym SessionManager SessionRecord :=
  m ← get;
  r ← lift (s_get m sid);
  if bool_decide (s_phase r = CLOSED) then raise (SessionConflict "session_closed")
  else
    let r := r <| s_phase := BLOCKED |> <| s_blocked_at := Some now |> <| s_blocked_reason := Some reason |>
               <| s_retry_at := now + reconcile_seconds m |> in
    modify (fun m => clear_active sid (put_record sid r m)) ;; mret r.

Definition s_yield_prepare (sid : string) (now : time) : pym SessionManager SessionRecord :=
  m ← get;
  r ← lift (s_get m sid);
  if negb (bool_decide (s_phase r = PREPARING)) then raise (SessionConflict "session_not_preparing")
  else
    let r := r <| s_retry_at := now + retry_seconds m |> in
    modify (put_record sid r) ;; mret r.

(** ** Decisions *)
Definition holding_id (m : SessionManager) : option string :=
  fst <$> List.find (fun kr => holding (s_phase kr.2)) (entries (records m)).

Definition s_candidate (m : SessionManager) (sid : string) (now : time) : option SessionRecord :=
  match records m !! sid with
  | None => None
  | Some r =>
      if negb (bool_decide (s_phase r = PREPARING)) then None
      else if (now <? s_retry_at r) || (s_preparation_expired_at r <=? now) || (s_hard_deadline r <=? now) then None
      else match holding_id m with Some _ => None | None => Some r end
  end.

Definition s_expired (m : SessionManager) (now : time) : list SessionRecord :=
  List.filter (fun r => (bool_decide (s_phase r = PREPARING) && (s_preparation_expired_at r <=? now))
                        || (bool_decide (s_phase r = ACTIVE) && (s_expires_at r <=? now)))
    (values (records m)).

Definition s_blocked_due (m : SessionManager) (now : time) : list SessionRecord :=
  List.filter (fun r => bool_decide (s_phase r = BLOCKED) && (s_retry_at r <=? now)) (values (records m)).

Definition s_pending (m : SessionManager) : bool :=
  dany (fun _ r => negb (bool_decide (s_phase r = CLOSED))) (records m).

(** The view of [view]; a remaining time is in whole milliseconds. *)
Record SessionView := {
  view_session_id : string;
  view_model_id : string;
  view_client_id : string;
  view_phase : SessionPhase;
  view_priority : Z;
  view_sequence : Z;
  view_in_flight : Z;
  view_wait_remaining_ms : Z;
  view_hard_remaining_ms : Z;
  view_expires_in_ms : Z;
  view_draining_reason : option string;
  view_blocked_reason : option string;
}.

(** [max(0, int(seconds * 1000))]; truncation agrees with the floor from 0 up. *)
Definition remaining_ms (d : time) : Z := Z.max 0 (Z.quot (d * 1000) second).

Definition s_view (m : SessionManager) (sid : string) (now : time) : outcome SessionView :=
  r ← s_get m sid;
  mret {| view_session_id := s_session_id r; view_model_id := s_model_id r; view_client_id := s_client_id r;
          view_phase := s_phase r; view_priority := s_priority r; view_sequence := s_sequence r;
          view_in_flight := default 0 (in_flight m !! sid);
          view_wait_remaining_ms := remaining_ms (s_wait_deadline r - now);
          view_hard_remaining_ms := remaining_ms (s_hard_deadline r - now);
          view_expires_in_ms := remaining_ms (s_expires_at r - now);
          view_draining_reason := s_draining_reason r; view_blocked_reason := s_blocked_reason r |}.
