(* ===== verification/SessionsProps.v ===== *)
(** * Properties of exclusive sessions

    The phase diagram, the single-owner invariant and the deadlines of
    [model_scheduler/session_manager.py], over any sequence of its methods. *)

From S2P Require Import Prelude Dict Contracts Queue Sessions.
Local Open Scope Z_scope.

(** The phase diagram: PREPARING is only an origin, ACTIVE is entered from
    PREPARING only, and CLOSED is final. *)
Inductive session_move : SessionPhase → SessionPhase → Prop :=
| sm_stay p : session_move p p
| sm_activate : session_move PREPARING ACTIVE
| sm_drain p : p ≠ CLOSED → session_move p DRAINING
| sm_block p : p ≠ CLOSED → session_move p BLOCKED
| sm_close p : session_move p CLOSED.

(** What never changes in a record. *)
Definition same_identity (r r' : SessionRecord) : Prop :=
  s_session_id r' = s_session_id r ∧ s_model_id r' = s_model_id r ∧ s_client_id r' = s_client_id r ∧
  s_hard_deadline r' = s_hard_deadline r ∧ s_wait_deadline r' = s_wait_deadline r ∧
  s_prepare_deadline r' = s_prepare_deadline r ∧ s_ttl_seconds r' = s_ttl_seconds r ∧
  s_sequence r' = s_sequence r.

Definition same_policy (m m' : SessionManager) : Prop :=
  max_sessions m' = max_sessions m ∧ hard_deadline_seconds m' = hard_deadline_seconds m ∧
  ttl_seconds m' = ttl_seconds m.

Record session_wf (m : SessionManager) : Prop := {
  sw_nodup : dict_nodup (records m);
  sw_record : ∀ k r, records m !! k = Some r →
    s_session_id r = k ∧ s_wait_deadline r ≤ s_hard_deadline r ∧ s_prepare_deadline r ≤ s_hard_deadline r ∧
    0 < s_ttl_seconds r;
  sw_active : ∀ k r, records m !! k = Some r → active_id m = Some k ↔ s_phase r = ACTIVE;
  sw_active_known : ∀ k, active_id m = Some k → is_Some (records m !! k);
  sw_in_flight : ∀ k, is_Some (records m !! k) → is_Some (in_flight m !! k);
  sw_capacity : dlen (records m) ≤ max_sessions m;
  sw_policy : 0 < ttl_seconds m ∧ 0 < max_sessions m;
}.

(** One method call on an existing record [k]. *)
Record updates (k : string) (m m' : SessionManager) (r r' : SessionRecord) : Prop := {
  up_before : records m !! k = Some r;
  up_after : records m' = <[k := r']> (records m);
  up_identity : same_identity r r';
  up_move : session_move (s_phase r) (s_phase r');
  up_active : active_id m' = Some k ↔ s_phase r' = ACTIVE;
  up_others : ∀ k', k' ≠ k → active_id m' = Some k' ↔ active_id m = Some k';
  up_in_flight : ∀ k', is_Some (in_flight m !! k') → is_Some (in_flight m' !! k');
  up_policy : same_policy m m';
}.

Definition moved (m m' : SessionManager) : Prop := m' = m ∨ ∃ k r r', updates k m m' r r'.

Lemma updates_wf k m m' r r' : session_wf m → updates k m m' r r' → session_wf m'.
Proof.
  intros [Hnd Hrec Hact Hak Hin Hcap Hpol] [Hb Ha Hid Hmv Hac Hot Hinf (Hp1 & _ & Hp3)].
  split; rewrite ?Ha.
  - by apply dict_nodup_insert.
  - intros k' r0. rewrite dict_lookup_insert. destruct (decide (k = k')) as [<-|]; [|apply Hrec].
    intros [= <-]. destruct Hid as (-> & _ & _ & -> & -> & -> & -> & _). by apply Hrec.
  - intros k' r0. rewrite dict_lookup_insert. destruct (decide (k = k')) as [<-|]; [by intros [= <-]|].
    intros Hr0. rewrite Hot by done. by apply Hact.
  - intros k' Hk'. rewrite dict_lookup_insert. destruct (decide (k = k')) as [<-|]; [done|].
    apply Hak. by apply Hot.
  - intros k'. rewrite dict_lookup_insert. destruct (decide (k = k')) as [<-|]; intros ?; apply Hinf, Hin; eauto.
  - rewrite (dlen_insert_Some _ _ _ _ Hb). by rewrite Hp1.
  - by rewrite Hp1, Hp3.
Qed.

Lemma moved_wf m m' : session_wf m → moved m m' → session_wf m'.
Proof. intros Hm [->|(k & r & r' & Hu)]; [done|]. by eapply updates_wf. Qed.

Lemma s_get_ret m sid r : s_get m sid = Ret r ↔ records m !! sid = Some r.
Proof. unfold s_get, of_option. destruct (records m !! sid); naive_solver. Qed.

(** *** Each method moves at most its own record *)
Ltac open_session := run_unfold;
  match goal with |- context [s_get ?m ?sid] => destruct (s_get m sid) as [?r|] eqn:?Hr; [|by left] end;
  match goal with Hr : s_get _ _ = Ret _ |- _ => apply s_get_ret in Hr end.

Lemma heartbeat_moved m sid now : session_wf m → moved m (s_heartbeat sid now m).1.
Proof.
  intros Hm. unfold s_heartbeat. open_session. destruct (negb _); [by left|]. destruct (_ && _); [by left|].
  right. exists sid, r. eexists. split; simpl; try done; [constructor|]. exact (sw_active m Hm sid r Hr).
Qed.

Lemma yield_moved m sid now : session_wf m → moved m (s_yield_prepare sid now m).1.
Proof.
  intros Hm. unfold s_yield_prepare. open_session. destruct (negb _); [by left|].
  right. exists sid, r. eexists. split; simpl; try done; [constructor|]. exact (sw_active m Hm sid r Hr).
Qed.

Lemma mark_active_moved m sid now : session_wf m → moved m (s_mark_active sid now m).1.
Proof.
  intros Hm. unfold s_mark_active. open_session. destruct (bool_decide _); [by left|].
  destruct (negb _) eqn:Hp; [by left|]. destruct (match active_id m with Some _ => _ | None => _ end) eqn:Ha; [by left|].
  bool_prop. right. exists sid, r. eexists. split; simpl; try done.
  - rewrite Hp. constructor.
  - intros k' Hk'. destruct (active_id m) as [a|]; simpl in *; bool_prop; naive_solver.
Qed.

Lemma clear_active_other sid m k' : k' ≠ sid → active_id (clear_active sid m) = Some k' ↔ active_id m = Some k'.
Proof. intros Hk. unfold clear_active. case_bool_decide as Ha; simpl; [|done]. rewrite Ha. naive_solver. Qed.

Lemma clear_active_self sid m : active_id (clear_active sid m) ≠ Some sid.
Proof. unfold clear_active. by case_bool_decide. Qed.

Lemma clear_active_records sid m :
  records (clear_active sid m) = records m ∧ in_flight (clear_active sid m) = in_flight m ∧
  same_policy m (clear_active sid m).
Proof. unfold clear_active. by case_bool_decide. Qed.

(** The three methods that end by leaving the active slot. *)
Lemma updates_clear m sid r r' :
  records m !! sid = Some r → same_identity r r' → session_move (s_phase r) (s_phase r') → s_phase r' ≠ ACTIVE →
  updates sid m (clear_active sid (put_record sid r' m)) r r'.
Proof.
  intros Hr Hid Hmv Hna.
  destruct (clear_active_records sid (put_record sid r' m)) as (Hc & Hi & Hp). split; try done.
  - split; [|done]. intros Ha. by apply clear_active_self in Ha.
  - intros k' Hk'. by rewrite clear_active_other.
  - intros k' Hk'. by rewrite Hi.
Qed.

Lemma drain_moved m sid now reason : session_wf m → moved m (s_begin_drain sid now reason m).1.
Proof.
  intros Hm. unfold s_begin_drain. open_session. case_bool_decide; [by left|].
  right. exists sid, r. eexists. simpl fst. apply updates_clear; try done. by constructor.
Qed.

Lemma mark_blocked_moved m sid now reason : session_wf m → moved m (s_mark_blocked sid now reason m).1.
Proof.
  intros Hm. unfold s_mark_blocked. open_session. case_bool_decide; [by left|].
  right. exists sid, r. eexists. simpl fst. apply updates_clear; try done. by constructor.
Qed.

Lemma mark_closed_moved m sid now : session_wf m → moved m (s_mark_closed sid now m).1.
Proof.
  intros Hm. unfold s_mark_closed. open_session. case_bool_decide; [by left|].
  set (r' := r <| s_phase := CLOSED |> <| s_closed_at := Some now |> <| s_retry_at := 0 |>).
  assert (updates sid m (clear_active sid (put_record sid r' m)) r r') as [? ? ? ? ? ? Hinf ?]
    by (apply updates_clear; try done; constructor).
  right. exists sid, r, r'. split; try assumption. simpl. intros k' Hk'. rewrite dict_lookup_insert. destruct (decide (_ = k')); [done|by apply Hinf].
Qed.

(** ** The manager and the queue under any sequence of calls *)
Inductive scall :=
| SCreate (sid model client : string) (now priority : Z) (hard : option Z)
| SHeartbeat (sid : string) (now : time)
| SActive (sid : string) (now : time)
| SDrain (sid : string) (now : time) (reason : string)
| SClosed (sid : string) (now : time)
| SBlocked (sid : string) (now : time) (reason : string)
| SYield (sid : string) (now : time)
| SQueue (c : qcall).

Definition s_exec (c : scall) (mq : SessionManager * RequestQueue) : SessionManager * RequestQueue :=
  match c with
  | SCreate sid mo cl now p h => (s_create sid mo cl now p h mq).1
  | SHeartbeat sid now => ((s_heartbeat sid now mq.1).1, mq.2)
  | SActive sid now => ((s_mark_active sid now mq.1).1, mq.2)
  | SDrain sid now re => ((s_begin_drain sid now re mq.1).1, mq.2)
  | SClosed sid now => ((s_mark_closed sid now mq.1).1, mq.2)
  | SBlocked sid now re => ((s_mark_blocked sid now re mq.1).1, mq.2)
  | SYield sid now => ((s_yield_prepare sid now mq.1).1, mq.2)
  | SQueue c => (mq.1, q_exec c mq.2)
  end.

Definition s_exec_all (cs : list scall) (mq : SessionManager * RequestQueue) : SessionManager * RequestQueue :=
  foldl (fun mq c => s_exec c mq) mq cs.

(** [create] adds one PREPARING record, or changes no session at all. *)
Lemma create_spec mq sid mo cl now p h :
  ((s_create sid mo cl now p h mq).1.1 = mq.1) ∨
  ∃ m hard n, m = mq.1 ∧ (s_create sid mo cl now p h mq).1.1 =
      (put_record sid ((new_record m sid mo cl now p hard) <| s_sequence := n |>) m) <| in_flight ::= <[sid := 0]> |> ∧
    records m !! sid = None ∧ dlen (records m) < max_sessions m ∧ 0 < hard ≤ hard_deadline_seconds m.
Proof.
  unfold s_create. run_unfold. destruct mq as [m q]. simpl.
  destruct (mem sid (records m)) eqn:Hm; [by left|]. destruct (max_sessions m <=? _) eqn:Hc; [by left|].
  set (hard := match h with None => _ | Some _ => _ end).
  destruct (hard <=? 0) eqn:Hh; [by left|]. unfold on_field. simpl.
  destruct (q_enqueue _ _ _ _ _ _ q) as [q' [w|e]]; [|by left]. right. apply mem_false in Hm. bool_prop.
  exists m, hard, (q_sequence w). split_and!; try done. subst hard. destruct h; lia.
Qed.

Lemma create_wf mq sid mo cl now p h :
  session_wf mq.1 → session_wf (s_create sid mo cl now p h mq).1.1.
Proof.
  intros Hm. destruct (create_spec mq sid mo cl now p h) as [->|(m & hard & n & -> & -> & Hnew & Hlt & Hh)]; [done|].
  destruct Hm as [Hnd Hrec Hact Hak Hin Hcap Hpol].
  assert (∀ k, active_id mq.1 = Some k → k ≠ sid) as Hne.
  { intros k Hk ->. destruct (Hak sid Hk). congruence. }
  split; simpl; try done.
  - by apply dict_nodup_insert.
  - intros k r. rewrite dict_lookup_insert. destruct (decide (sid = k)) as [<-|]; [|apply Hrec].
    intros [= <-]. simpl. split_and!; try done; try lia.
  - intros k r. rewrite dict_lookup_insert. destruct (decide (sid = k)) as [<-|]; [|apply Hact].
    intros [= <-]. split; [|done]. intros Ha. by apply Hne in Ha.
  - intros k Hk. rewrite dict_lookup_insert_ne; [by apply Hak|]. by apply not_eq_sym, Hne.
  - intros k. rewrite !dict_lookup_insert. destruct (decide (sid = k)); [done|apply Hin].
  - rewrite dlen_insert_new by done. lia.
Qed.

Lemma s_exec_moved c mq :
  session_wf mq.1 →
  moved mq.1 (s_exec c mq).1 ∨
  ∃ sid mo cl now p h, c = SCreate sid mo cl now p h.
Proof.
  intros Hm. destruct c; simpl; [right; eauto 10|left..|by left; left];
    [apply heartbeat_moved|apply mark_active_moved|apply drain_moved|apply mark_closed_moved
    |apply mark_blocked_moved|apply yield_moved]; done.
Qed.

Lemma s_exec_wf c mq : session_wf mq.1 → session_wf (s_exec c mq).1.
Proof.
  intros Hm. destruct (s_exec_moved c mq Hm) as [Hmv|(sid & mo & cl & now & p & h & ->)].
  - by eapply moved_wf.
  - by apply create_wf.
Qed.

Lemma s_exec_all_wf cs mq : session_wf mq.1 → session_wf (s_exec_all cs mq).1.
Proof. revert mq. induction cs as [|c cs IH]; intros mq Hm; simpl; [done|]. by apply IH, s_exec_wf. Qed.

Lemma session_wf_init a b c d e f g h i j k l m :
  SessionManager_init a b c d e f g h i j k l = Ret m → session_wf m.
Proof.
  unfold SessionManager_init. run_unfold. intros Hi. repeat case_match; simplify_eq/=.
  bool_prop. split; simpl; try done; try lia; try (unfold dlen; simpl; lia).
  - apply dict_nodup_empty.
  - intros k0. rewrite !dict_lookup_empty. by intros [? ?].
Qed.

(** What a call does to one record: it keeps its identity and moves along the diagram. *)
Lemma s_exec_record c mq k r :
  session_wf mq.1 → records mq.1 !! k = Some r →
  ∃ r', records (s_exec c mq).1 !! k = Some r' ∧ same_identity r r' ∧ session_move (s_phase r) (s_phase r').
Proof.
  intros Hm Hr. destruct (s_exec_moved c mq Hm) as [[->|(k' & r0 & r1 & Hu)]|(sid & mo & cl & now & p & h & ->)].
  - exists r. split_and!; try done. constructor.
  - destruct Hu as [Hb Ha Hid Hmv _ _ _ _]. rewrite Ha, dict_lookup_insert.
    destruct (decide (k' = k)) as [->|]; [|by exists r; split_and!; try done; constructor]. simplify_eq. eauto.
  - simpl. destruct (create_spec mq sid mo cl now p h) as [->|(m & hard & n & -> & -> & Hnew & _)].
    { exists r. split_and!; try done. constructor. }
    simpl. rewrite dict_lookup_insert_ne by congruence. exists r. split_and!; try done. constructor.
Qed.

Lemma same_identity_trans r1 r2 r3 : same_identity r1 r2 → same_identity r2 r3 → same_identity r1 r3.
Proof. unfold same_identity. naive_solver congruence. Qed.

Lemma s_exec_all_record cs mq k r :
  session_wf mq.1 → records mq.1 !! k = Some r →
  ∃ r', records (s_exec_all cs mq).1 !! k = Some r' ∧ same_identity r r' ∧
        rtc session_move (s_phase r) (s_phase r').
Proof.
  revert mq r. induction cs as [|c cs IH]; intros mq r Hm Hr; simpl.
  { exists r. split_and!; try done. }
  destruct (s_exec_record c mq k r Hm Hr) as (r1 & Hr1 & Hid1 & Hmv1).
  destruct (IH (s_exec c mq) r1) as (r2 & Hr2 & Hid2 & Hmv2); [by apply s_exec_wf|done|].
  exists r2. split_and!; [done|by eapply same_identity_trans|by eapply rtc_l].
Qed.

Lemma not_live_at_deadline m k r now :
  records m !! k = Some r → s_hard_deadline r ≤ now → s_is_live m k now = false.
Proof.
  intros Hr Hd. unfold s_is_live. rewrite Hr. apply andb_false_iff. right. apply Z.ltb_ge.
  unfold s_expires_at. lia.
Qed.

Lemma s_exec_grows c mq :
  session_wf mq.1 → dlen (records mq.1) ≤ dlen (records (s_exec c mq).1) ∧
  max_sessions (s_exec c mq).1 = max_sessions mq.1.
Proof.
  intros Hm. destruct (s_exec_moved c mq Hm) as [[->|(k & r & r' & Hu)]|(sid & mo & cl & now & p & h & ->)]; [done| |].
  - destruct Hu as [Hb Ha _ _ _ _ _ (Hp & _)]. rewrite Ha, (dlen_insert_Some _ _ _ _ Hb). split; [lia|done].
  - simpl. destruct (create_spec mq sid mo cl now p h) as [->|(m & hard & n & -> & -> & Hnew & _)]; [done|].
    simpl. rewrite dlen_insert_new by done. split; [lia|done].
Qed.

(** ** Guarantees *)

(** One owner: from construction on, under any sequence of manager and
    queue calls, at most one session is ACTIVE, and it is the one [active_id]
    names; no more than [max_sessions] records exist. *)
Theorem single_active_session a b c d e f g h i j k l m q cs :
  SessionManager_init a b c d e f g h i j k l = Ret m →
  let m' := (s_exec_all cs (m, q)).1 in
  session_wf m' ∧
  ∀ s1 s2 r1 r2, records m' !! s1 = Some r1 → records m' !! s2 = Some r2 →
    s_phase r1 = ACTIVE → s_phase r2 = ACTIVE → s1 = s2 ∧ active_id m' = Some s1.
Proof.
  intros Hi m'. assert (session_wf m') as Hm by (apply s_exec_all_wf; by eapply session_wf_init).
  split; [done|]. intros s1 s2 r1 r2 H1 H2 Ha1 Ha2.
  apply (sw_active m' Hm s1 r1 H1) in Ha1. apply (sw_active m' Hm s2 r2 H2) in Ha2. split; congruence.
Qed.

(** Refinement of the phase diagram: a call keeps the identity, the owner
    and the deadlines of every session and moves its phase along the diagram;
    a CLOSED session stays CLOSED for good. *)
Theorem session_phase_refinement c cs mq k r :
  session_wf mq.1 → records mq.1 !! k = Some r →
  (∃ r', records (s_exec c mq).1 !! k = Some r' ∧ same_identity r r' ∧ session_move (s_phase r) (s_phase r')) ∧
  (s_phase r = CLOSED → ∃ r', records (s_exec_all cs mq).1 !! k = Some r' ∧ s_phase r' = CLOSED).
Proof.
  intros Hm Hr. split; [by apply s_exec_record|]. intros Hc.
  destruct (s_exec_all_record cs mq k r Hm Hr) as (r' & Hr' & _ & Hmv). exists r'. split; [done|].
  remember (s_phase r) as p eqn:Hp. clear Hp. induction Hmv as [|? ? ? Hs _ IH]; [done|]. subst.
  apply IH. by inversion Hs.
Qed.

(** The hard deadline is final: once it has passed, whatever calls are made,
    the session is not live and an ACTIVE one cannot be renewed. *)
Theorem hard_deadline_final cs mq k r now :
  session_wf mq.1 → records mq.1 !! k = Some r → s_hard_deadline r ≤ now →
  let m' := (s_exec_all cs mq).1 in
  s_is_live m' k now = false ∧
  (∀ r', records m' !! k = Some r' → s_phase r' = ACTIVE →
     s_heartbeat k now m' = (m', Raise (SessionConflict "session_expired"))).
Proof.
  intros Hm Hr Hd m'. destruct (s_exec_all_record cs mq k r Hm Hr) as (r' & Hr' & Hid & _).
  assert (s_hard_deadline r' ≤ now) as Hd' by (destruct Hid as (_ & _ & _ & -> & _); done). split.
  - by eapply not_live_at_deadline.
  - intros r0 Hr0 Ha. assert (r0 = r') as -> by (unfold m' in Hr0; congruence).
    unfold s_heartbeat, s_get, of_option. run_unfold. rewrite Hr0, Ha. simpl.
    destruct (s_expires_at r' <=? now) eqn:E; [done|]. bool_prop. unfold s_expires_at in E. lia.
Qed.

(** A heartbeat renews the soft TTL only: it succeeds exactly on a PREPARING
    session or a live ACTIVE one, and the new expiry is [now + ttl] cut at the
    hard deadline. *)
Theorem heartbeat_renews m k r now :
  session_wf m → records m !! k = Some r →
  (∃ m' r', s_heartbeat k now m = (m', Ret r') ∧ records m' !! k = Some r' ∧
     s_expires_at r' = Z.min (s_hard_deadline r) (now + s_ttl_seconds r) ∧ s_phase r' = s_phase r) ↔
  s_phase r = PREPARING ∨ s_is_live m k now = true.
Proof.
  intros Hm Hr. unfold s_heartbeat, s_get, of_option, s_is_live. run_unfold. rewrite Hr. split.
  - intros (m' & r' & Hx & _). destruct (s_phase r); simpl in *; simplify_eq; [by left|right].
    destruct (s_expires_at r <=? now) eqn:E; simplify_eq. bool_prop. by apply Z.ltb_lt.
  - intros Hp. assert (negb (bool_decide (s_phase r = PREPARING) || bool_decide (s_phase r = ACTIVE)) = false ∧
      bool_decide (s_phase r = ACTIVE) && (s_expires_at r <=? now) = false) as [-> ->].
    { destruct Hp as [->|Hl]; [done|]. bool_prop. split; [|apply andb_false_iff; right; by apply Z.leb_gt].
      by rewrite (bool_decide_true (s_phase r = ACTIVE)), orb_true_r by done. }
    eexists _, _. split; [done|]. simpl. by rewrite dict_lookup_insert_eq.
Qed.

(** Exclusivity of preparation: [candidate] admits a session only while no
    session is ACTIVE, DRAINING or BLOCKED, inside its own waiting window. *)
Theorem candidate_exclusive m k now r :
  session_wf m → s_candidate m k now = Some r →
  records m !! k = Some r ∧ s_phase r = PREPARING ∧ s_retry_at r ≤ now < s_hard_deadline r ∧
  now < s_wait_deadline r ∧ now < s_prepare_deadline r ∧
  (∀ k' r', records m !! k' = Some r' → s_phase r' = PREPARING ∨ s_phase r' = CLOSED).
Proof.
  intros Hm. unfold s_candidate. destruct (records m !! k) as [r0|] eqn:Hr; [|done].
  destruct (negb _) eqn:Hp; [done|]. destruct (_ || _ || _) eqn:Hg; [done|].
  unfold holding_id. destruct (List.find _ _) as [kr|] eqn:Hf; [done|]. intros [= <-]. bool_prop.
  unfold s_preparation_expired_at in *. split_and!; try done; try lia.
  intros k' r' Hr'%lookup_entries. apply list_elem_of_In in Hr'.
  pose proof (List.find_none _ _ Hf _ Hr') as Hn. simpl in Hn. destruct (s_phase r'); simpl in *; auto; done.
Qed.

(** A slot is never given back: records are not removed when their session
    closes, so once [max_sessions] sessions were ever created every further
    [create] raises [session_capacity], even with no session open. *)
Theorem session_slots_never_freed cs mq sid mo cl now p h :
  session_wf mq.1 → dlen (records mq.1) = max_sessions mq.1 →
  let mq' := s_exec_all cs mq in
  mem sid (records mq'.1) = false →
  s_create sid mo cl now p h mq' = (mq', Raise (SessionConflict "session_capacity")).
Proof.
  intros Hm Hfull mq' Hnew.
  assert (dlen (records mq.1) ≤ dlen (records mq'.1) ∧ max_sessions mq'.1 = max_sessions mq.1) as [Hle Hmax].
  { subst mq'. clear Hfull Hnew. revert mq Hm. induction cs as [|c cs IH]; intros mq Hm; simpl; [done|].
    destruct (s_exec_grows c mq Hm) as [? ?]. destruct (IH (s_exec c mq)) as [? ?]; [by apply s_exec_wf|].
    split; [lia|congruence]. }
  unfold s_create. run_unfold. rewrite Hnew. destruct (max_sessions mq'.1 <=? _) eqn:E; [done|]. bool_prop. lia.
Qed.

(** ** The guarantees on a concrete manager *)
Definition demo_manager : SessionManager :=
  {| max_sessions := 2; wait_seconds := 1800; hard_deadline_seconds := 3600; heartbeat_seconds := 10;
     ttl_seconds := 30; prepare_seconds := 900; drain_seconds := 30; retry_seconds := 30;
     cleanup_seconds := 60; cancel_seconds := 10; stop_grace_seconds := 30; reconcile_seconds := 5;
     records := ∅; active_id := None; in_flight := ∅ |}.

Definition demo_mq0 : SessionManager * RequestQueue := (demo_manager, demo_queue0).
Definition demo_mq : SessionManager * RequestQueue :=
  s_exec_all [SCreate "s1" "a" "c1" 0 0 None; SCreate "s2" "b" "c2" 1 0 None; SActive "s1" 10; SActive "s2" 11] demo_mq0.
Definition demo_closed : SessionManager * RequestQueue :=
  s_exec_all [SDrain "s1" 20 "client_close"; SClosed "s1" 21; SDrain "s2" 20 "client_close"; SClosed "s2" 21] demo_mq.

Lemma demo_mq_wf : session_wf demo_mq.1.
Proof. apply s_exec_all_wf. apply (session_wf_init 2 1800 3600 10 30 900 30 30 60 10 30 5). by vm_compute. Qed.

Definition demo_record (mq : SessionManager * RequestQueue) (sid : string) : SessionRecord :=
  match records mq.1 !! sid with
  | Some r => r
  | None => new_record mq.1 sid "" "" 0 0 0
  end.

Lemma single_active_session_witness : session_wf demo_mq.1 ∧ active_id demo_mq.1 = Some "s1".
Proof.
  split; [|by vm_compute].
  apply (single_active_session 2 1800 3600 10 30 900 30 30 60 10 30 5 demo_manager demo_queue0
    [SCreate "s1" "a" "c1" 0 0 None; SCreate "s2" "b" "c2" 1 0 None; SActive "s1" 10; SActive "s2" 11]).
  by vm_compute.
Defined.

Lemma session_phase_refinement_witness :
  session_move ACTIVE (s_phase (demo_record (s_exec (SDrain "s1" 20 "x") demo_mq) "s1")).
Proof.
  destruct (proj1 (session_phase_refinement (SDrain "s1" 20 "x") [] demo_mq "s1" (demo_record demo_mq "s1")
    demo_mq_wf ltac:(by vm_compute))) as (r' & Hr' & _ & Hmv).
  unfold demo_record at 1. rewrite Hr'. exact Hmv.
Defined.

Lemma hard_deadline_final_witness :
  s_is_live (s_exec_all [SHeartbeat "s1" 20; SHeartbeat "s1" 45] demo_mq).1 "s1" 3600 = false.
Proof.
  refine (proj1 (hard_deadline_final [SHeartbeat "s1" 20; SHeartbeat "s1" 45] demo_mq "s1"
    (demo_record demo_mq "s1") 3600 demo_mq_wf _ _)); by vm_compute.
Defined.

Lemma heartbeat_renews_witness : ∃ m' r', s_heartbeat "s1" 20 demo_mq.1 = (m', Ret r') ∧ s_expires_at r' = 50.
Proof.
  destruct (proj2 (heartbeat_renews demo_mq.1 "s1" (demo_record demo_mq "s1") 20 demo_mq_wf ltac:(by vm_compute)))
    as (m' & r' & ? & _ & He & _); [right; by vm_compute|]. exists m', r'. split; [assumption|].
  rewrite He. by vm_compute.
Defined.

Lemma candidate_exclusive_witness : ∃ r,
  s_candidate (s_exec (SCreate "s1" "a" "c1" 0 0 None) demo_mq0).1 "s1" 5 = Some r ∧ s_phase r = PREPARING.
Proof.
  set (mq := s_exec (SCreate "s1" "a" "c1" 0 0 None) demo_mq0).
  assert (session_wf mq.1) as Hw.
  { apply s_exec_wf. apply (session_wf_init 2 1800 3600 10 30 900 30 30 60 10 30 5). by vm_compute. }
  destruct (s_candidate mq.1 "s1" 5) as [r|] eqn:E; [|by vm_compute in E].
  destruct (candidate_exclusive mq.1 "s1" 5 r Hw E) as (_ & ? & _). by exists r.
Defined.

Lemma session_slots_never_freed_witness :
  s_pending demo_closed.1 = false ∧
  s_create "s3" "a" "c3" 100 0 None demo_closed = (demo_closed, Raise (SessionConflict "session_capacity")).
Proof.
  split; [by vm_compute|].
  apply (session_slots_never_freed [SDrain "s1" 20 "client_close"; SClosed "s1" 21; SDrain "s2" 20 "client_close";
    SClosed "s2" 21] demo_mq "s3" "a" "c3" 100 0 None demo_mq_wf); by vm_compute.
Defined.
