(* ===== verification/Scheduler.v ===== *)
(** * The scheduler

    [model_scheduler/scheduler.py].  [ModelScheduler] owns the book, the queue
    and the session manager and never awaits while it holds its condition, so a
    coroutine is a sequence of critical sections with I/O in between.  Each
    section is one [pym ModelScheduler] computation, run at one clock reading
    [now]; what the I/O returned (a memory sample, the admission guard's answer,
    a backend observation) is an argument.  A created task is the handle the
    scheduler stores: the operation of a load, the operations of a stop batch. *)

From S2P Require Import Prelude Dict Env Contracts Registry Eviction Queue Sessions.
Local Open Scope Z_scope.

Record SwitchIntent := {
  si_request_id : string;
  si_target_id : string;
  si_frozen_models : list string;
  si_expires_at : time;
}.

Record LoadTask := { lt_operation : Operation; lt_deadline : time }.
Record EvictionTask := { et_operations : list Operation; et_deadline : time }.

Record ModelScheduler := {
  book : Book;
  queue : RequestQueue;
  sessions : SessionManager;
  eviction_policy : EvictionPolicy;
  has_recovery : bool;
  poll_interval_seconds : time;
  switch_drain_timeout_seconds : time;
  switch_retry_seconds : time;
  switch_window_seconds : time;
  max_switches_in_window : Z;
  cooldown_seconds : time;
  load_retry_limit : Z;
  loads : dict string LoadTask;
  load_retries : dict string Z;
  eviction : option EvictionTask;
  shutting_down : bool;
  storage_unavailable : bool;
  switch_intent : option SwitchIntent;
  next_switch_attempt : dict string time;
  switch_successes : list time;
  cold_load_not_before : time;
  recovery_running : bool;
  session_worker : bool;
  session_leases : dict string (list string);
  session_freeze : option string;
}.

#[export] Instance ModelScheduler_eta : Eta ModelScheduler := fun s =>
  {| book := book s; queue := queue s; sessions := sessions s; eviction_policy := eviction_policy s;
     has_recovery := has_recovery s; poll_interval_seconds := poll_interval_seconds s;
     switch_drain_timeout_seconds := switch_drain_timeout_seconds s;
     switch_retry_seconds := switch_retry_seconds s; switch_window_seconds := switch_window_seconds s;
     max_switches_in_window := max_switches_in_window s; cooldown_seconds := cooldown_seconds s;
     load_retry_limit := load_retry_limit s; loads := loads s; load_retries := load_retries s;
     eviction := eviction s; shutting_down := shutting_down s; storage_unavailable := storage_unavailable s;
     switch_intent := switch_intent s; next_switch_attempt := next_switch_attempt s;
     switch_successes := switch_successes s; cold_load_not_before := cold_load_not_before s;
     recovery_running := recovery_running s; session_worker := session_worker s;
     session_leases := session_leases s; session_freeze := session_freeze s |}.

Definition ModelScheduler_init (book : Book) (queue_capacity priority_aging_seconds poll_interval_seconds
    max_evictions switch_drain_timeout_seconds switch_retry_seconds switch_window_seconds
    max_switches_in_window cooldown_seconds load_retry_limit : Z) (has_recovery : bool)
    (sessions : SessionManager) : outcome ModelScheduler :=
  _ ← raise_if ((foldr Z.min poll_interval_seconds
                   [switch_drain_timeout_seconds; switch_retry_seconds; switch_window_seconds; cooldown_seconds] <=? 0)
                || (max_switches_in_window <? 1))
        (ValueError "scheduler intervals must be positive");
  _ ← raise_if (load_retry_limit <? 0) (ValueError "the load retry limit must not be negative");
  policy ← EvictionPolicy_init max_evictions;
  queue ← RequestQueue_init queue_capacity priority_aging_seconds;
  mret {| book := book; queue := queue; sessions := sessions; eviction_policy := policy;
          has_recovery := has_recovery; poll_interval_seconds := poll_interval_seconds;
          switch_drain_timeout_seconds := switch_drain_timeout_seconds;
          switch_retry_seconds := switch_retry_seconds; switch_window_seconds := switch_window_seconds;
          max_switches_in_window := max_switches_in_window; cooldown_seconds := cooldown_seconds;
          load_retry_limit := load_retry_limit; loads := ∅; load_retries := ∅; eviction := None;
          shutting_down := false; storage_unavailable := false; switch_intent := None;
          next_switch_attempt := ∅; switch_successes := []; cold_load_not_before := 0;
          recovery_running := false; session_worker := false; session_leases := ∅; session_freeze := None |}.

(** ** Calls on the parts the scheduler owns *)
Definition on_book {A} (m : pym Book A) : pym ModelScheduler A :=
  on_field book (fun b s => s <| book := b |>) m.
Definition on_queue {A} (m : pym RequestQueue A) : pym ModelScheduler A :=
  on_field queue (fun q s => s <| queue := q |>) m.
Definition on_sessions {A} (m : pym SessionManager A) : pym ModelScheduler A :=
  on_field sessions (fun x s => s <| sessions := x |>) m.
Definition on_sessions_queue {A} (m : pym (SessionManager * RequestQueue) A) : pym ModelScheduler A :=
  on_field (fun s => (sessions s, queue s)) (fun mq s => s <| sessions := mq.1 |> <| queue := mq.2 |>) m.

(** A read of the book: it may raise, it changes nothing. *)
Definition ask_book {A} (f : Book → outcome A) : pym ModelScheduler A :=
  s ← get; lift (f (book s)).

Definition when (b : bool) (m : pym ModelScheduler unit) : pym ModelScheduler unit := if b then m else mret tt.

(** [except Conflict: k] and [except StaleOperation: k]. *)
Definition except_conflict {A} (m k : pym ModelScheduler A) : pym ModelScheduler A :=
  catch m (fun e => match e with Conflict _ => Some k | _ => None end).
Definition except_stale {A} (m k : pym ModelScheduler A) : pym ModelScheduler A :=
  catch m (fun e => match e with StaleOperation _ => Some k | _ => None end).
Definition except_any {A} (m k : pym ModelScheduler A) : pym ModelScheduler A := catch m (fun _ => Some k).

(** ** Switch intents *)
Definition load_deficit (b : Book) (model_id : string) (sample : MemorySample) : outcome Z :=
  req ← required b model_id;
  mret (Z.max (Z.max 0 (free_floor b + req - available_bytes sample)) (committed b + req - model_budget b)).

(** [any(self.book.runtime[model_id].leases for model_id in model_ids)] *)
Fixpoint any_leases (b : Book) (model_ids : list string) : outcome bool :=
  match model_ids with
  | [] => mret false
  | m :: ms => r ← runtime_of b m; if negb (no_leases r) then mret true else any_leases b ms
  end.

#[export] Instance Operations_None_dec (o : option EvictionTask) : Decision (o = None).
Proof. destruct o; [right|left]; done. Defined.

Section scheduler.
Context `{PyEnv}.

Definition cancel_switch_intent (request_id : string) : pym ModelScheduler unit :=
  s ← get;
  match switch_intent s with
  | Some intent =>
      when (bool_decide (si_request_id intent = request_id))
        (on_book (unfreeze_switch (si_frozen_models intent)) ;;
         modify (fun s => s <| switch_intent := None |>))
  | None => mret tt
  end.

Definition expire_switch_intent (now : time) : pym ModelScheduler unit :=
  s ← get;
  match switch_intent s with
  | Some intent =>
      when ((si_expires_at intent <=? now) || negb (q_contains (queue s) (si_request_id intent)))
        (on_book (unfreeze_switch (si_frozen_models intent)) ;;
         modify (fun s => s <| next_switch_attempt ::= <[si_target_id intent := now + switch_retry_seconds s]> |>
                            <| switch_intent := None |>))
  | None => mret tt
  end.

(** [self._eviction = create_task(self._run_eviction(operations, deadline))] *)
Definition start_eviction (ops : list Operation) (deadline : time) : pym ModelScheduler unit :=
  modify (fun s => s <| eviction := Some {| et_operations := ops; et_deadline := deadline |} |>).

(** The intent to work on: the one there is, or a new one over a complete
    eviction set; [None] when none can be established. *)
Definition establish_intent (request_id model_id : string) (sample : MemorySample) (deadline now : time)
    : pym ModelScheduler (option SwitchIntent) :=
  s ← get;
  match switch_intent s with
  | Some intent => mret (Some intent)
  | None =>
      deficit ← ask_book (fun b => load_deficit b model_id sample);
      candidates ← lift (choose (eviction_policy s) (book s) deficit now true);
      match candidates with
      | [] => mret None
      | _ =>
          let models := cand_model_id <$> candidates in
          frozen ← except_conflict (on_book (freeze_for_switch models) ;; mret true) (mret false);
          if negb frozen then mret None
          else
            let intent := {| si_request_id := request_id; si_target_id := model_id; si_frozen_models := models;
                             si_expires_at := Z.min deadline (now + switch_drain_timeout_seconds s) |} in
            modify (fun s => s <| switch_intent := Some intent |>) ;;
            mret (Some intent)
      end
  end.

Definition establish_or_advance_switch (request_id model_id : string) (sample : MemorySample) (deadline now : time)
    : pym ModelScheduler bool :=
  intent ← establish_intent request_id model_id sample deadline now;
  match intent with
  | None => mret false
  | Some intent =>
      if negb (bool_decide (si_request_id intent = request_id)) then mret false
      else
        s ← get;
        busy ← lift (any_leases (book s) (si_frozen_models intent));
        if busy : bool then mret false
        else
          ops ← except_conflict
                  (ops ← on_book (begin_eviction (si_frozen_models intent) true); mret (Some ops))
                  (cancel_switch_intent (si_request_id intent) ;; mret None);
          match ops with
          | None => mret false
          | Some ops =>
              modify (fun s => s <| switch_intent := None |>) ;;
              start_eviction ops deadline ;;
              mret true
          end
  end.

(** ** [acquire]: its critical sections *)

(** [_cold_request_eligible] *)
Definition cold_request_eligible (s : ModelScheduler) (now : time) (item : QueuedRequest) : outcome bool :=
  if bool_decide (q_kind item = INTERACTIVE) && bool_decide (is_Some (session_freeze s)) then mret false
  else
    r ← runtime_of (book s) (q_model_id item);
    match state r with
    | LOADING | EVICTING => mret false
    | UNLOADED => mret ((cold_load_not_before s <=? now)
                        && (default 0 (next_switch_attempt s !! q_model_id item) <=? now))
    | _ => mret true
    end.

Definition note_session_lease (session_id : string) (lease : Lease) : pym ModelScheduler unit :=
  modify (fun s =>
    let held := default [] (session_leases s !! session_id) in
    let held := if bool_decide (lease_id lease ∈ held) then held else held ++ [lease_id lease] in
    s <| session_leases ::= <[session_id := held]> |>
      <| sessions ::= (fun m => m <| in_flight ::= <[session_id := Z.of_nat (length held)]> |>) |>).

(** The first session whose set holds the lease gives it up. *)
Fixpoint forget_in (lease_id : string) (l : list (string * list string)) : option (string * list string) :=
  match l with
  | [] => None
  | (sid, held) :: l =>
      if bool_decide (lease_id ∈ held) then Some (sid, filter (fun x => x ≠ lease_id) held)
      else forget_in lease_id l
  end.

Definition forget_session_lease (lease_id : string) : pym ModelScheduler unit :=
  s ← get;
  match forget_in lease_id (entries (session_leases s)) with
  | None => mret tt
  | Some (sid, held) =>
      modify (fun s => s <| session_leases ::= <[sid := held]> |>
        <| sessions ::= (fun m => m <| in_flight ::= <[sid := Z.of_nat (length held)]> |>) |>)
  end.

(** The section that joins the queue, with the checks before it. *)
Definition acquire_enter (model_id request_id : string) (deadline : time) (session_id : option string) (now : time)
    : pym ModelScheduler unit :=
  s ← get;
  if negb (mem model_id (specs (book s))) then raise (KeyError model_id)
  else if deadline <=? now then raise (TimeoutError "queue deadline elapsed")
  else if shutting_down s then raise (ModelUnavailable "service_shutting_down")
  else if storage_unavailable s then raise (ModelUnavailable "storage_unavailable")
  else
    match session_id with
    | Some sid =>
        rec ← lift (s_get (sessions s) sid);
        if negb (bool_decide (s_model_id rec = model_id)) || negb (bool_decide (s_phase rec = ACTIVE))
        then raise (SessionConflict "session_not_active")
        else if negb (s_is_live (sessions s) sid now) then raise (SessionConflict "session_expired")
        else
          r ← ask_book (fun b => runtime_of b model_id);
          e ← ask_book (fun b => ledger_spec b model_id);
          when (bool_decide (state r = READY) && (led_max_concurrency e <=? dlen (leases r)))
            (raise (Conflict "session_slots_exhausted"))
    | None =>
        when (bool_decide (is_Some (session_freeze s))) (raise (Conflict "session_exclusive"))
    end ;;
    e ← ask_book (fun b => ledger_spec b model_id);
    catch (on_queue (q_enqueue request_id model_id (led_priority e) deadline now
                       (if session_id is Some _ then SESSION else INTERACTIVE)) ;; mret tt)
      (fun ex => match ex with
                 | ValueError _ => Some (raise (Conflict "duplicate waiter"))
                 | OverflowError _ => Some (raise (QueueFull "queue_full"))
                 | _ => None
                 end).

Inductive Poll := Granted (lease : Lease) | Pending (needs_sample : bool).

(** The polling section: grant to the head of the queue, or say why not. *)
Definition acquire_poll (model_id request_id : string) (deadline : time) (session_id : option string)
    (admitted : bool) (sample : MemorySample) (now : time) : pym ModelScheduler Poll :=
  expire_switch_intent now ;;
  s ← get;
  if shutting_down s then raise (ModelUnavailable "service_shutting_down")
  else if storage_unavailable s then raise (ModelUnavailable "storage_unavailable")
  else if (deadline <=? now) || negb (q_contains (queue s) request_id)
  then on_queue (q_remove request_id EXPIRED) ;; raise (TimeoutError "queue deadline elapsed")
  else
    head ← on_queue (q_is_head request_id now (cold_request_eligible s now) None);
    if negb head then mret (Pending false)
    else
      lease ← except_conflict
                (ok ← ask_book (fun b => can_admit_ready b model_id sample now);
                 if negb admitted || negb ok then raise (Conflict "ready admission blocked")
                 else lease ← on_book (acquire_ready model_id request_id now); mret (Some lease))
                (mret None);
      match lease with
      | Some lease =>
          on_queue (q_remove request_id CLAIMED) ;;
          match session_id with Some sid => note_session_lease sid lease | None => mret tt end ;;
          mret (Granted lease)
      | None =>
          r ← ask_book (fun b => runtime_of b model_id);
          s ← get;
          if bool_decide (state r = ERROR) then raise (ModelUnavailable (str_or (last_error r) "model_error"))
          else
            mret (Pending (bool_decide (state r = UNLOADED) && negb (mem model_id (loads s))
                           && bool_decide (eviction s = None)
                           && match switch_intent s with
                              | None => true
                              | Some i => bool_decide (si_request_id i = request_id)
                              end
                           && (default 0 (next_switch_attempt s !! model_id) <=? now)))
      end.

(** [self._loads[model_id] = create_task(self._finish_load(operation, deadline))] *)
Definition start_load (model_id : string) (op : Operation) (deadline : time) : pym ModelScheduler unit :=
  modify (fun s => s <| loads ::= <[model_id := {| lt_operation := op; lt_deadline := deadline |}]> |>).

(** The committing section: start the load, or work on the switch intent. *)
Definition acquire_commit (model_id request_id : string) (deadline : time) (admitted : bool)
    (sample : MemorySample) (now : time) : pym ModelScheduler bool :=
  s ← get;
  r ← ask_book (fun b => runtime_of b model_id);
  if admitted && bool_decide (state r = UNLOADED) && negb (mem model_id (loads s))
  then
    ok ← ask_book (fun b => can_load b model_id sample now);
    if ok : bool
    then
      op ← on_book (begin_load model_id sample now);
      start_load model_id op deadline ;;
      mret true
    else if bool_decide (eviction s = None)
    then establish_or_advance_switch request_id model_id sample deadline now
    else mret false
  else mret false.

(** The waiting section of [acquire] and of [_preload_one] looks at the clock. *)
Definition check_deadline (msg : string) (deadline now : time) : outcome unit :=
  raise_if (deadline <=? now) (TimeoutError msg).

(** The [finally] block. *)
Definition acquire_leave (request_id : string) : pym ModelScheduler unit :=
  on_queue (q_remove request_id CANCELLED) ;;
  cancel_switch_intent request_id.

(** ** Loads *)
Inductive BackendResult := Observed (o : Observation) | Raised | Cancelled.

Definition record_cold_load (now : time) : pym ModelScheduler unit :=
  modify (fun s =>
    let drop := fix drop (l : list time) := match l with
                  | t :: l' => if switch_window_seconds s <? now - t then drop l' else l
                  | [] => []
                  end in
    let successes := drop (switch_successes s ++ [now]) in
    let s := s <| switch_successes := successes |> in
    match successes with
    | first :: _ =>
        if max_switches_in_window s <=? Z.of_nat (length successes)
        then s <| cold_load_not_before := Z.max (Z.max (cold_load_not_before s) (now + cooldown_seconds s))
                                                (first + switch_window_seconds s) |>
        else s
    | [] => s
    end).

(** [self.recovery is not None and not self.book.recovering] *)
Definition may_recover : pym ModelScheduler bool :=
  s ← get; mret (has_recovery s && negb (recovering (book s))).

(** The section that books the result of a load; the answer is [recover]. *)
Definition finish_load_result (op : Operation) (res : BackendResult) (now : time) : pym ModelScheduler bool :=
  let on_exception : pym ModelScheduler bool :=
    except_stale (on_book (failed op (Some "load_failed")) ;; may_recover) (mret false) in
  match res with
  | Observed obs =>
      except_any
        (if bool_decide (obs_presence obs = P_RUNNING) && obs_healthy obs
         then
           done ← except_stale (on_book (loaded op now) ;; mret true) (mret false);
           when done (record_cold_load now) ;; mret false
         else
           on_book (failed op (Some (str_or (obs_detail_code obs) "load_unverified"))) ;;
           may_recover)
        on_exception
  | Raised | Cancelled => on_exception
  end.

(** [_start_recovery] *)
Definition start_recovery : pym ModelScheduler unit :=
  modify (fun s => if recovery_running s then s else s <| recovery_running := true |>).

(** The [finally] block: forget the task, then start the recovery. *)
Definition finish_load_done (model_id : string) (recover : bool) : pym ModelScheduler unit :=
  modify (fun s => s <| loads ::= delete model_id |>) ;;
  when recover start_recovery.

(** ** Recovery *)
Definition has_leases (b : Book) : bool := dany (fun _ r => negb (no_leases r)) (runtime b).

(** [for runtime in ...: for lease in tuple(runtime.leases.values()): release(lease, ABORTED)] *)
Definition abort_all_leases (now : time) : pym ModelScheduler unit :=
  s ← get;
  for_each (keys (runtime (book s))) (fun m =>
    r ← ask_book (fun b => runtime_of b m);
    for_each (values (leases r)) (fun lease => on_book (release lease ABORTED now None) ;; mret tt)).

(** One look of [_recover_after_unverified_load] at the leases: [true] ends the wait. *)
Definition recovery_wait (deadline now : time) : pym ModelScheduler bool :=
  s ← get;
  if negb (has_leases (book s)) then mret true
  else if deadline - now <=? 0 then abort_all_leases now ;; mret true
  else mret false.

Definition recovery_task_done : pym ModelScheduler unit :=
  modify (fun s => s <| recovery_running := false |>).

Definition recover_begin : pym ModelScheduler Z :=
  s ← get;
  if negb (has_recovery s) then raise (ModelUnavailable "control_recovery_unavailable")
  else if recovering (book s) then raise (Conflict "recovery_in_progress")
  else if has_leases (book s) then raise (Conflict "recovery_has_leases")
  else on_book begin_recovery.

Definition recover_finish (epoch_ : Z) (result : RecoveryResult) : pym ModelScheduler unit :=
  if negb (rec_ok result)
  then raise (ModelUnavailable (str_or (rec_error_code result) "control_recovery_failed"))
  else except_conflict (on_book (finish_recovery epoch_ (rec_stopped_models result)))
         (raise (ModelUnavailable "control_recovery_incomplete")).

(** ** Stop batches *)
Definition rollback_pending (ops : list Operation) : pym ModelScheduler unit :=
  for_each ops (fun op => except_stale (on_book (rollback_unsent op)) (mret tt)).

(** What the section after one backend stop decides for the loop. *)
Inductive StopTurn := StopNext (proved : bool) | StopReturn | StopCancelled.

Definition finish_eviction_step (op : Operation) (rest : list Operation) (res : BackendResult) (now : time)
    : pym ModelScheduler StopTurn :=
  match res with
  | Cancelled =>
      on_book (failed op (Some "stop_unverified")) ;;
      rollback_pending rest ;;
      mret StopCancelled
  | _ =>
      let observation := match res with Observed o => Some o | _ => None end in
      if match observation with Some o => bool_decide (obs_presence o = P_STOPPED) | None => false end
      then
        proved ← except_stale (on_book (stopped op (Some now)) ;; mret true) (mret false);
        mret (StopNext proved)
      else
        on_book (failed op (match observation with Some o => obs_detail_code o | None => Some "stop_unverified" end)) ;;
        rollback_pending rest ;;
        mret StopReturn
  end.

(** The [finally] of [_run_eviction]. *)
Definition run_eviction_done : pym ModelScheduler unit := modify (fun s => s <| eviction := None |>).

(** ** Leases *)
Definition release_lease (lease : Lease) (outcome : Outcome) (tokens : option Z) (now : time)
    : pym ModelScheduler unit :=
  on_book (release lease outcome now tokens) ;;
  forget_session_lease (lease_id lease).

Definition cancel_lease (lease : Lease) : pym ModelScheduler bool := on_book (begin_cancel lease).

(** ** [_preload_one] and the reclaim paths *)
Inductive PreloadTurn := PreloadReturn | PreloadVerify | PreloadRetry | PreloadContinue (needs_sample : bool).

Definition preload_inspect (model_id : string) (loaded_here : bool) : pym ModelScheduler PreloadTurn :=
  s ← get;
  if storage_unavailable s then raise (ModelUnavailable "storage_unavailable")
  else
    r ← ask_book (fun b => runtime_of b model_id);
    match state r with
    | READY =>
        modify (fun s => s <| load_retries ::= delete model_id |>) ;;
        mret (if loaded_here then PreloadReturn else PreloadVerify)
    | ERROR =>
        if load_retry_limit s <=? default 0 (load_retries s !! model_id)
        then raise (ModelUnavailable (str_or (last_error r) "preload_failed"))
        else mret PreloadRetry
    | _ =>
        mret (PreloadContinue (bool_decide (state r = UNLOADED) && (dlen (loads s) =? 0)
                               && bool_decide (eviction s = None)))
    end.

(** [(started_operation, eviction_blocked)] *)
Definition preload_commit (model_id : string) (admitted : bool) (sample : MemorySample) (deadline now : time)
    : pym ModelScheduler (bool * bool) :=
  s ← get;
  r ← ask_book (fun b => runtime_of b model_id);
  if admitted && bool_decide (state r = UNLOADED) && (dlen (loads s) =? 0) && bool_decide (eviction s = None)
  then
    ok ← ask_book (fun b => can_load b model_id sample now);
    if ok : bool
    then
      op ← on_book (begin_load model_id sample now);
      start_load model_id op deadline ;;
      mret (true, false)
    else mret (false, true)
  else mret (false, false).

Definition preload_evict (model_id : string) (sample : MemorySample) (deadline now : time)
    : pym ModelScheduler bool :=
  s ← get;
  r ← ask_book (fun b => runtime_of b model_id);
  if bool_decide (state r = UNLOADED) && (dlen (loads s) =? 0) && bool_decide (eviction s = None)
  then
    deficit ← ask_book (fun b => load_deficit b model_id sample);
    candidates ← lift (choose (eviction_policy s) (book s) deficit now false);
    match candidates with
    | [] => mret false
    | _ =>
        ops ← on_book (begin_eviction (cand_model_id <$> candidates) true);
        start_eviction ops deadline ;;
        mret true
    end
  else mret false.

(** [_reclaim_failed_model] up to its stop; [None] is its early return. *)
Definition reclaim_failed_begin (model_id : string) : pym ModelScheduler (option (list Operation)) :=
  r ← ask_book (fun b => runtime_of b model_id);
  if negb (bool_decide (state r = ERROR)) || negb (no_leases r) || truthy (operation_id r) then mret None
  else
    ops ← except_conflict (on_book (begin_cleanup [model_id])) (raise (ModelUnavailable "retry_reclaim_refused"));
    modify (fun s => s <| load_retries ::= <[model_id := default 0 (load_retries s !! model_id) + 1]> |>) ;;
    mret (Some ops).

(** [_observe_runtime]: [raw] is the presence or state value, when there is one. *)
Inductive Verdict := Unwitnessed | Alive | Gone | Unknown.
Definition observe_verdict (observable : bool) (raw : option string) (healthy : bool) : Verdict :=
  if negb observable then Unwitnessed
  else if bool_decide (raw = Some "running") then (if healthy then Alive else Unknown)
  else if bool_decide (raw = Some "stopped") then Gone else Unknown.

Definition moved_on (r : Runtime) : bool :=
  negb (bool_decide (state r = READY)) || negb (no_leases r) || truthy (operation_id r).

(** The body of the loop of [_reclaim_phantom_residents] after a [gone] answer. *)
Definition reclaim_phantom (model_id : string) (now : time) : pym ModelScheduler bool :=
  r ← ask_book (fun b => runtime_of b model_id);
  if moved_on r then mret false
  else
    ops ← except_conflict (ops ← on_book (begin_eviction [model_id] false); mret (Some ops)) (mret None);
    match ops with
    | None => mret false
    | Some (op :: _) => on_book (stopped op (Some now)) ;; mret true
    | Some [] => raise (IndexError "list index out of range")
    end.

(** [_reclaim_lost_runtime] after the observation. *)
Definition reclaim_lost (model_id : string) (verdict : Verdict) (now : time) : pym ModelScheduler bool :=
  match verdict with
  | Unwitnessed | Alive => mret false
  | Unknown => raise (ModelUnavailable "runtime_unverified")
  | Gone =>
      r ← ask_book (fun b => runtime_of b model_id);
      if moved_on r then mret false
      else
        ops ← except_conflict (on_book (begin_eviction [model_id] false))
                (raise (ModelUnavailable "runtime_reclaim_refused"));
        match ops with
        | op :: _ => on_book (stopped op (Some now)) ;; mret true
        | [] => raise (IndexError "list index out of range")
        end
  end.

(** ** Shutdown, storage and explicit unloading *)
Definition release_session_freeze (session_id : string) : pym ModelScheduler unit :=
  modify (fun s => if bool_decide (session_freeze s = Some session_id) then s <| session_freeze := None |> else s).

(** The models a cleanup may stop: idle READY or ERROR ones. *)
Definition stoppable (r : Runtime) : bool :=
  (bool_decide (state r = READY) || bool_decide (state r = ERROR)) && no_leases r.
Definition cleanup_targets (b : Book) : list string :=
  fst <$> List.filter (fun mr => stoppable mr.2) (entries (runtime b)).

Inductive StopPlan := StopBorrowed | StopNothing | StopStarted (ops : list Operation).

(** The tail shared by [shutdown] and [storage_lost]: join the batch in flight,
    or start one over everything that can be stopped. *)
Definition stop_everything (deadline : time) : pym ModelScheduler StopPlan :=
  s ← get;
  match eviction s with
  | Some _ => mret StopBorrowed
  | None =>
      match cleanup_targets (book s) with
      | [] => mret StopNothing
      | targets =>
          ops ← on_book (begin_cleanup targets);
          start_eviction ops deadline ;;
          mret (StopStarted ops)
      end
  end.

Definition open_sessions (m : SessionManager) : list string :=
  fst <$> List.filter (fun kr => negb (bool_decide (s_phase kr.2 = CLOSED))) (entries (records m)).

Definition shutdown_begin (now : time) : pym ModelScheduler (list string) :=
  modify (fun s => s <| shutting_down := true |>) ;;
  on_queue (q_clear CANCELLED) ;;
  s ← get;
  for_each (open_sessions (sessions s)) (fun sid =>
    on_sessions (s_begin_drain sid now "service_shutdown") ;;
    release_session_freeze sid) ;;
  mret (open_sessions (sessions s)).

(** The section after the drain wait. *)
Definition shutdown_stop (deadline now : time) : pym ModelScheduler StopPlan :=
  abort_all_leases now ;;
  stop_everything deadline.

(** One look of the drain wait: [None] waits on. *)
Definition shutdown_look (deadline now : time) : pym ModelScheduler (option StopPlan) :=
  s ← get;
  if has_leases (book s) && (now <? deadline) then mret None
  else plan ← shutdown_stop deadline now; mret (Some plan).

Definition storage_lost (deadline now : time) : pym ModelScheduler StopPlan :=
  s ← get;
  if storage_unavailable s then mret StopNothing
  else
    modify (fun s => s <| storage_unavailable := true |>) ;;
    on_queue (q_clear CANCELLED) ;;
    abort_all_leases now ;;
    stop_everything deadline.

(** [storage_recovered]: the guard and the first section, and the last one. *)
Definition storage_recovered_begin (admitted : bool) : pym ModelScheduler bool :=
  if negb admitted then raise (ModelUnavailable "storage_unavailable")
  else s ← get; mret (storage_unavailable s).
Definition storage_recovered_end : pym ModelScheduler unit :=
  modify (fun s => s <| storage_unavailable := false |>).

Definition unload_begin (model_id : string) (deadline : time) : pym ModelScheduler (option Operation) :=
  s ← get;
  if negb (mem model_id (specs (book s))) then raise (KeyError model_id)
  else
    r ← ask_book (fun b => runtime_of b model_id);
    e ← ask_book (fun b => ledger_spec b model_id);
    if led_pinned e then raise (Conflict "model_pinned")
    else if bool_decide (state r = UNLOADED) then mret None
    else if negb (bool_decide (eviction s = None)) || negb (no_leases r) || truthy (operation_id r)
            || negb (bool_decide (state r = READY))
    then raise (Conflict "model_busy")
    else
      ops ← on_book (begin_eviction [model_id] false);
      match ops with
      | op :: _ => start_eviction [op] deadline ;; mret (Some op)
      | [] => raise (IndexError "list index out of range")
      end.

Definition unload_end (model_id : string) (stopped : list string) : outcome unit :=
  raise_if (negb (bool_decide (model_id ∈ stopped))) (ModelUnavailable "stop_unverified").

(** [[model_id for model_id in specs if model_id not in waiting and ttl_due(model_id, now)]] *)
Fixpoint ttl_targets (s : ModelScheduler) (now : time) (ms : list string) : outcome (list string) :=
  match ms with
  | [] => mret []
  | m :: ms =>
      due ← (if bool_decide (m ∈ waiting_models (queue s)) then mret false else ttl_due (book s) m now);
      l ← ttl_targets s now ms;
      mret (if due : bool then m :: l else l)
  end.

Definition sweep_ttl (deadline now : time) : pym ModelScheduler (option (list Operation)) :=
  s ← get;
  if negb (bool_decide (eviction s = None)) then mret None
  else
    targets ← lift (ttl_targets s now (keys (specs (book s))));
    match targets with
    | [] => mret None
    | _ =>
        ops ← on_book (begin_eviction targets true);
        start_eviction ops deadline ;;
        mret (Some ops)
    end.

(** ** Exclusive sessions *)
Definition exclusive_conflict (b : Book) : option string :=
  if dany (fun _ e => led_pinned e || led_preload e) (ledger b) then Some "pinned_or_preload_conflict" else None.

Definition ensure_session_worker : pym ModelScheduler unit :=
  modify (fun s => s <| session_worker := true |>).

Definition register_session (model_id client_id session_id : string) (priority : Z) (hard : option Z) (now : time)
    : pym ModelScheduler SessionView :=
  s ← get;
  if negb (mem model_id (specs (book s))) then raise (KeyError model_id)
  else if shutting_down s then raise (ModelUnavailable "service_shutting_down")
  else if storage_unavailable s then raise (ModelUnavailable "storage_unavailable")
  else
    match exclusive_conflict (book s) with
    | Some c => raise (SessionConflict c)
    | None =>
        on_sessions_queue (s_create session_id model_id client_id now priority hard) ;;
        ensure_session_worker ;;
        s ← get;
        lift (s_view (sessions s) session_id now)
    end.

(** One look of [open_session] at its session: the view, or [None] to wait on. *)
Definition open_session_poll (session_id : string) (wait_until now : time) : pym ModelScheduler (option SessionView) :=
  s ← get;
  r ← lift (s_get (sessions s) session_id);
  match s_phase r with
  | ACTIVE => v ← lift (s_view (sessions s) session_id now); mret (Some v)
  | CLOSED => raise (SessionConflict "session_closed")
  | BLOCKED => raise (ModelUnavailable "session_blocked")
  | _ => if Z.min wait_until (s_preparation_expired_at r) - now <=? 0
         then raise (TimeoutError "session_wait_deadline")
         else mret None
  end.

Definition heartbeat_session (session_id : string) (now : time) : pym ModelScheduler SessionView :=
  on_sessions (s_heartbeat session_id now) ;;
  s ← get;
  lift (s_view (sessions s) session_id now).

(** [true] when the drain was started, [false] for a session already closed. *)
Definition close_session_begin (session_id reason : string) (now : time) : pym ModelScheduler bool :=
  s ← get;
  r ← lift (s_get (sessions s) session_id);
  if bool_decide (s_phase r = CLOSED) then mret false
  else
    on_sessions (s_begin_drain session_id now reason) ;;
    on_queue (q_remove session_id CANCELLED) ;;
    ensure_session_worker ;;
    mret true.

Definition close_session_poll (session_id : string) (deadline : option time) (now : time)
    : pym ModelScheduler (option SessionView) :=
  s ← get;
  r ← lift (s_get (sessions s) session_id);
  if bool_decide (s_phase r = CLOSED) || bool_decide (s_phase r = BLOCKED)
     || match deadline with Some d => d <=? now | None => false end
  then v ← lift (s_view (sessions s) session_id now); mret (Some v)
  else mret None.

Inductive SessionPlan := PlanExpire (sid : string) | PlanReconcile (sid : string)
                       | PlanPrepare (sid : string) | PlanClose (sid : string).

Definition next_session_plan (now : time) : pym ModelScheduler (option SessionPlan) :=
  s ← get;
  match s_expired (sessions s) now with
  | r :: _ =>
      when (bool_decide (s_phase r = PREPARING)) (on_queue (q_remove (s_session_id r) EXPIRED) ;; mret tt) ;;
      mret (Some (PlanExpire (s_session_id r)))
  | [] =>
      match s_blocked_due (sessions s) now with
      | r :: _ => mret (Some (PlanReconcile (s_session_id r)))
      | [] =>
          head ← on_queue (q_head now
                   (fun item => Ret (bool_decide (is_Some (s_candidate (sessions s) (q_request_id item) now))))
                   (Some SESSION));
          match head with
          | Some item => mret (Some (PlanPrepare (q_request_id item)))
          | None =>
              mret (PlanClose ∘ s_session_id <$>
                      List.find (fun r => bool_decide (s_phase r = DRAINING)) (values (records (sessions s))))
          end
      end
  end.

(** [true]: the session began to drain and the execution service is told. *)
Definition expire_session (session_id : string) (now : time) : pym ModelScheduler bool :=
  s ← get;
  r ← lift (s_get (sessions s) session_id);
  if bool_decide (s_phase r = PREPARING)
  then
    on_queue (q_remove session_id EXPIRED) ;;
    on_sessions (s_mark_closed session_id now) ;;
    release_session_freeze session_id ;;
    mret false
  else
    on_sessions (s_begin_drain session_id now "expired") ;;
    mret true.

(** The first section of [_prepare_session]: the model and the two deadlines. *)
Definition prepare_begin (session_id : string) (now : time) : pym ModelScheduler (option (string * time * time)) :=
  s ← get;
  r ← lift (s_get (sessions s) session_id);
  if negb (bool_decide (s_phase r = PREPARING)) then mret None
  else
    modify (fun s => s <| session_freeze := Some session_id |>) ;;
    mret (Some (s_model_id r, s_preparation_expired_at r, now + drain_seconds (sessions s))).

(** The drain window closed with leases left: undo the freeze and retry later. *)
Definition prepare_yield (session_id : string) (now : time) : pym ModelScheduler unit :=
  on_sessions (s_yield_prepare session_id now) ;;
  release_session_freeze session_id.

Definition prepare_blocked (session_id : string) (now : time) : pym ModelScheduler unit :=
  on_sessions (s_mark_blocked session_id now "prepare_unconfirmed") ;; mret tt.

Definition prepare_activate (session_id : string) (now : time) : pym ModelScheduler (bool * string) :=
  s ← get;
  r ← lift (s_get (sessions s) session_id);
  let activate := bool_decide (s_phase r = PREPARING) in
  when activate
    (on_sessions (s_mark_active session_id now) ;;
     on_queue (q_remove session_id GRANTED) ;; mret tt) ;;
  mret (activate, s_model_id r).

(** The session ended while its model was loading. *)
Definition prepare_abandon (session_id : string) (now : time) : pym ModelScheduler unit :=
  on_sessions (s_mark_closed session_id now) ;;
  release_session_freeze session_id.

Definition drain_session_end (session_id : string) (confirmed : bool) (now : time) : pym ModelScheduler unit :=
  if confirmed
  then on_sessions (s_mark_closed session_id now) ;; release_session_freeze session_id
  else on_sessions (s_mark_blocked session_id now "stop_unconfirmed") ;; mret tt.

(** [_wait_for_leases_to_drain] and [_wait_for_session_leases]: one look. *)
Definition leases_drained (s : ModelScheduler) (deadline now : time) : option bool :=
  if negb (has_leases (book s)) then Some true else if deadline <=? now then Some false else None.

Definition session_leases_drained (s : ModelScheduler) (session_id : string) (deadline now : time)
    : outcome (option bool) :=
  rec ← s_get (sessions s) session_id;
  r ← runtime_of (book s) (s_model_id rec);
  mret (if bool_decide (default [] (session_leases s !! session_id) = []) && no_leases r then Some true
        else if deadline <=? now then Some false else None).

(** [_stop_other_models]: what it hands to [_stop_models]. *)
Definition other_models (b : Book) (keep_model_id : string) : list string :=
  fst <$> List.filter (fun mr => negb (bool_decide (mr.1 = keep_model_id)) && stoppable mr.2) (entries (runtime b)).

Fixpoint stoppable_of (b : Book) (model_ids : list string) : outcome (list string) :=
  match model_ids with
  | [] => mret []
  | m :: ms => r ← runtime_of b m; l ← stoppable_of b ms; mret (if stoppable r then m :: l else l)
  end.

(** The first section of [_stop_models]. *)
Definition stop_models_begin (model_ids : list string) (deadline : time) : pym ModelScheduler StopPlan :=
  s ← get;
  match eviction s with
  | Some _ => mret StopBorrowed
  | None =>
      targets ← lift (stoppable_of (book s) model_ids);
      match targets with
      | [] => mret StopNothing
      | _ =>
          ops ← on_book (begin_cleanup targets);
          start_eviction ops deadline ;;
          mret (StopStarted ops)
      end
  end.

(** Its last section: [all(runtime[m].state == "unloaded" for m in model_ids)]. *)
Fixpoint all_unloaded (b : Book) (model_ids : list string) : outcome bool :=
  match model_ids with
  | [] => mret true
  | m :: ms =>
      r ← runtime_of b m;
      if bool_decide (state r = UNLOADED) then all_unloaded b ms else mret false
  end.

Definition session_worker_done : pym ModelScheduler unit := modify (fun s => s <| session_worker := false |>).

(** ** Status *)
Record ModelStatus := {
  ms_state : string;
  ms_generation : Z;
  ms_in_flight : Z;
  ms_cancelling : Z;
  ms_waiting_requests : Z;
  ms_capabilities : list string;
  ms_reserved_bytes : Z;
  ms_effective_reserved_bytes : Z;
  ms_priority : Z;
  ms_evictable : bool;
  ms_pinned : bool;
  ms_preload : bool;
  ms_max_concurrency : Z;
  ms_ttl_seconds : time;
  ms_idle_seconds : option time;
  ms_heat : Q;
  ms_total_requests : Z;
  ms_total_tokens : Z;
  ms_usage_unknown_requests : Z;
  ms_admission_blocked : bool;
  ms_last_error : option string;
}.

(** [capability.value if hasattr(capability, "value") else str(capability)] *)
Definition spec_capabilities (spec : Registration) : outcome (list string) :=
  match spec with
  | RegV1 s => Ret (Capability_value <$> v1_capabilities s)
  | RegV2 s => Ret (v2_capabilities s)
  | RegOther _ => Raise (AttributeError "capabilities")
  end.

(** [getattr(spec, "reserved_bytes", default)] *)
Definition spec_reserved_bytes (spec : Registration) (otherwise : Z) : Z :=
  match spec with
  | RegV1 s => v1_reserved_bytes s
  | RegV2 s => v2_reserved_bytes s
  | RegOther _ => otherwise
  end.

Definition model_status (s : ModelScheduler) (model_id : string) (r : Runtime) (now : time) : outcome ModelStatus :=
  spec ← of_option (KeyError model_id) (specs (book s) !! model_id);
  e ← ledger_spec (book s) model_id;
  caps ← spec_capabilities spec;
  req ← required (book s) model_id;
  h ← heat (book s) model_id now;
  mret {| ms_state := if bool_decide (state r = READY) && negb (no_leases r) then "active" else State_value (state r);
          ms_generation := generation r; ms_in_flight := dlen (leases r); ms_cancelling := dlen (cancelling r);
          ms_waiting_requests := waiting_count (queue s) model_id;
          ms_capabilities := merge_sort String.le caps;
          ms_reserved_bytes := spec_reserved_bytes spec (led_effective_reserved_bytes e); ms_effective_reserved_bytes := req;
          ms_priority := led_priority e; ms_evictable := led_evictable e; ms_pinned := led_pinned e;
          ms_preload := led_preload e; ms_max_concurrency := led_max_concurrency e;
          ms_ttl_seconds := led_ttl_seconds e;
          ms_idle_seconds := (if no_leases r then (fun t => Z.max 0 (now - t)) <$> idle_since r else None);
          ms_heat := h; ms_total_requests := total_requests r; ms_total_tokens := total_tokens r;
          ms_usage_unknown_requests := usage_unknown_requests r;
          ms_admission_blocked := admission_blocked r; ms_last_error := last_error r |}.
End scheduler.
