(* ===== verification/Tasks.v ===== *)
(** * The coroutines of the scheduler

    The [async] methods of [model_scheduler/scheduler.py] as compositions of the
    critical sections of [Scheduler].  A coroutine runs against a script of
    events: at every point where it may be suspended (taking the condition's
    lock, awaiting I/O, waiting on the condition) it takes the next event, which
    carries what the other coroutines made of the scheduler meanwhile, the clock,
    and the environment's answer to the question asked.  A coroutine that finds
    no further event is suspended.  The effects of a background task are the
    [tk_meanwhile] of whoever awaits it.  An awaited I/O call or wait may be
    cancelled; taking the lock may not. *)

From S2P Require Import Prelude Dict Env Contracts Registry Eviction Queue Sessions Scheduler.
Local Open Scope Z_scope.

(** ** Coroutines over a script of events *)
Record Tick := {
  tk_now : time;
  tk_meanwhile : ModelScheduler → ModelScheduler;
  tk_cancelled : bool;
  tk_timed_out : bool;
  tk_sample : outcome MemorySample;
  tk_admitted : bool;
  tk_backend : BackendResult;
  tk_observed : option (outcome (option string * bool));
  tk_recovery : outcome RecoveryResult;
  tk_stopped : outcome (list string);
}.

Record World := {
  w_sched : ModelScheduler;
  w_now : time;
  w_script : list Tick;
}.

Inductive progress (A : Type) := Finished (o : outcome A) | Suspended.
Arguments Finished {_} _.
Arguments Suspended {_}.

Definition co (A : Type) : Type := World → World * progress A.

#[export] Instance co_ret : MRet co := fun A a w => (w, Finished (Ret a)).
#[export] Instance co_bind : MBind co := fun A B f m w =>
  match m w with
  | (w', Finished (Ret a)) => f a w'
  | (w', Finished (Raise e)) => (w', Finished (Raise e))
  | (w', Suspended) => (w', Suspended)
  end.

Definition co_raise {A} (e : exn) : co A := fun w => (w, Finished (Raise e)).

(** A step without a suspension point. *)
Definition run_now {A} (m : pym ModelScheduler A) : co A := fun w =>
  let (s, o) := m (w_sched w) in
  ({| w_sched := s; w_now := w_now w; w_script := w_script w |}, Finished o).

(** [self._clock()] outside a section. *)
Definition clock : co time := fun w => (w, Finished (Ret (w_now w))).

Definition tick : co Tick := fun w =>
  match w_script w with
  | [] => (w, Suspended)
  | t :: ts => ({| w_sched := tk_meanwhile t (w_sched w); w_now := tk_now t; w_script := ts |}, Finished (Ret t))
  end.

(** [await] of an I/O call or of the condition. *)
Definition await : co Tick :=
  t ← tick; if tk_cancelled t then co_raise CancelledError else mret t.

(** [async with self._condition: m] *)
Definition locked {A} (m : time → pym ModelScheduler A) : co A := t ← tick; run_now (m (tk_now t)).

(** [try: m finally: f] *)
Definition try_finally {A} (m : co A) (f : co unit) : co A := fun w =>
  match m w with
  | (w', Suspended) => (w', Suspended)
  | (w', Finished o) =>
      match f w' with
      | (w'', Finished (Ret _)) => (w'', Finished o)
      | (w'', Finished (Raise e)) => (w'', Finished (Raise e))
      | (w'', Suspended) => (w'', Suspended)
      end
  end.

(** [try: m except <handled>: h] *)
Definition co_catch {A} (m : co A) (h : exn → option (co A)) : co A := fun w =>
  match m w with
  | (w', Finished (Raise e)) => match h e with Some k => k w' | None => (w', Finished (Raise e)) end
  | r => r
  end.

(** The outcome of [m] as a value, for code that goes on after an exception. *)
Definition co_try {A} (m : co A) : co (outcome A) := fun w =>
  match m w with
  | (w', Finished o) => (w', Finished (Ret o))
  | (w', Suspended) => (w', Suspended)
  end.

(** [while True: body], left by a return.  A turn takes at least one event, so
    the length of the script bounds the number of turns. *)
Fixpoint loop_fuel {X A} (n : nat) (body : X → co (X + A)) (x : X) : co A :=
  match n with
  | O => fun w => (w, Suspended)
  | S n => r ← body x; match r with inl x => loop_fuel n body x | inr a => mret a end
  end.

Definition loop {X A} (body : X → co (X + A)) (x : X) : co A := fun w =>
  loop_fuel (S (length (w_script w))) body x w.

(** [while True: async with condition: look; await condition.wait()] *)
Definition look_loop {A} (look : time → pym ModelScheduler (option A)) : co A :=
  loop (fun _ : unit =>
    r ← locked look;
    match r with
    | Some a => mret (inr a)
    | None => await ;; mret (inl tt)
    end) tt.

(** One wait on the condition, bounded by the deadline. *)
Definition wait_turn (msg : string) (deadline : time) : co unit :=
  locked (fun now => lift (check_deadline msg deadline now)) ;;
  t ← await;
  if tk_timed_out t then run_now (lift (check_deadline msg deadline (tk_now t))) else mret tt.

(** [await self.resources.snapshot()], then [await self._admission_allowed()]. *)
Definition sample_memory : co (MemorySample * bool) :=
  t ← await;
  sample ← run_now (lift (tk_sample t));
  t ← await;
  mret (sample, tk_admitted t).

(** The result of an awaited stop batch. *)
Definition await_eviction : co (list string) := t ← await; run_now (lift (tk_stopped t)).

(** [_notify_execution_drain]: the hook's exceptions are swallowed. *)
Definition notify_execution_drain (session_id : string) : co unit := await ;; mret tt.

Section tasks.
Context `{PyEnv}.

(** ** Stop batches and loads *)
Fixpoint finish_eviction (ops : list Operation) (done : list string) : co (list string) :=
  match ops with
  | [] => mret done
  | op :: rest =>
      t ← tick;
      turn ← locked (finish_eviction_step op rest (tk_backend t));
      match turn with
      | StopNext proved => finish_eviction rest (if proved : bool then done ++ [op_model_id op] else done)
      | StopReturn => mret done
      | StopCancelled => co_raise CancelledError
      end
  end.

Definition run_eviction (ops : list Operation) : co (list string) :=
  try_finally (finish_eviction ops []) (locked (fun _ => run_eviction_done)).

Definition finish_load (op : Operation) : co unit :=
  t ← tick;
  r ← co_try (locked (finish_load_result op (tk_backend t)));
  locked (fun _ => finish_load_done (op_model_id op) (match r with Ret recover => recover | Raise _ => false end)) ;;
  match r, tk_backend t with
  | Raise e, _ => co_raise e
  | Ret _, Cancelled => co_raise CancelledError
  | Ret _, _ => mret tt
  end.

(** ** [acquire] *)
Definition acquire_turn (model_id request_id : string) (deadline : time) (session_id : option string)
    : co (unit + Lease) :=
  '(sample, admitted) ← sample_memory;
  poll ← locked (acquire_poll model_id request_id deadline session_id admitted sample);
  match poll with
  | Granted lease => mret (inr lease)
  | Pending needs_sample =>
      started ← (if needs_sample : bool
                 then locked (acquire_commit model_id request_id deadline admitted sample) else mret false);
      (if started : bool then mret tt else wait_turn "queue deadline elapsed" deadline) ;;
      mret (inl tt)
  end.

Definition acquire (model_id request_id : string) (deadline : time) (session_id : option string) : co Lease :=
  locked (acquire_enter model_id request_id deadline session_id) ;;
  try_finally (loop (fun _ => acquire_turn model_id request_id deadline session_id) tt)
    (locked (fun _ => acquire_leave request_id)).

(** ** Recovery *)
Definition recover : co unit :=
  ep ← locked (fun _ => recover_begin);
  t ← await;
  result ← run_now (lift (tk_recovery t));
  locked (fun _ => recover_finish ep result).

Definition recover_after_unverified_load (deadline : time) : co unit :=
  try_finally
    (co_catch
       (look_loop (fun now => fin ← recovery_wait deadline now; mret (if fin : bool then Some tt else None)) ;;
        recover)
       (fun e => match e with Conflict _ | ModelUnavailable _ => Some (mret tt) | _ => None end))
    (locked (fun _ => recovery_task_done)).

(** ** Preloading *)
Definition reclaim_failed_model (model_id : string) : co unit :=
  ops ← locked (fun _ => reclaim_failed_begin model_id);
  match ops with
  | None => mret tt
  | Some ops => finish_eviction ops [] ;; mret tt
  end.

Definition observe_runtime : co Verdict :=
  t ← await;
  match tk_observed t with
  | None => mret (observe_verdict false None false)
  | Some (Raise _) => co_raise (ModelUnavailable "runtime_observation_failed")
  | Some (Ret (raw, healthy)) => mret (observe_verdict true raw healthy)
  end.

(** The loop of [_reclaim_phantom_residents]; the table is read at every turn. *)
Fixpoint reclaim_phantom_residents (keep : string) (ids : list string) (reclaimed : bool) : co bool :=
  match ids with
  | [] => mret reclaimed
  | m :: ids =>
      r ← run_now (ask_book (fun b => runtime_of b m));
      if bool_decide (m = keep) || (reservation r <=? 0) || moved_on r
      then reclaim_phantom_residents keep ids reclaimed
      else
        v ← observe_runtime;
        match v with
        | Gone =>
            freed ← locked (reclaim_phantom m);
            reclaim_phantom_residents keep ids (reclaimed || freed)
        | _ => reclaim_phantom_residents keep ids reclaimed
        end
  end.

Definition reclaim_lost_runtime (model_id : string) : co bool :=
  v ← observe_runtime;
  match v with
  | Gone => locked (reclaim_lost model_id v)
  | _ => now ← clock; run_now (reclaim_lost model_id v now)
  end.

(** The part of a turn that needs a sample; [true] starts the next turn at once. *)
Definition preload_load (model_id : string) (deadline : time) : co (bool * bool) :=
  '(sample, admitted) ← sample_memory;
  '(started, blocked) ← locked (preload_commit model_id admitted sample deadline);
  if (blocked : bool) then
    s ← run_now get;
    reclaimed ← reclaim_phantom_residents model_id (keys (runtime (book s))) false;
    if (reclaimed : bool) then mret (true, false)
    else evicting ← locked (preload_evict model_id sample deadline); mret (evicting, false)
  else mret (started, started).

Definition preload_turn (model_id : string) (deadline : time) (loaded_here : bool) : co (bool + unit) :=
  turn ← locked (fun _ => preload_inspect model_id loaded_here);
  match turn with
  | PreloadReturn => mret (inr tt)
  | PreloadRetry => reclaim_failed_model model_id ;; mret (inl loaded_here)
  | PreloadVerify =>
      lost ← reclaim_lost_runtime model_id;
      mret (if lost : bool then inl loaded_here else inr tt)
  | PreloadContinue needs_sample =>
      '(again, loading) ← (if needs_sample : bool then preload_load model_id deadline else mret (false, false));
      (if (again : bool) then mret tt else wait_turn "preload deadline elapsed" deadline) ;;
      mret (inl (loaded_here || loading))
  end.

Definition preload_one (model_id : string) (deadline : time) : co unit :=
  loop (preload_turn model_id deadline) false.

Definition warm (model_id : string) (deadline : time) : co unit :=
  s ← run_now get;
  if negb (mem model_id (specs (book s))) then co_raise (KeyError model_id) else preload_one model_id deadline.

Fixpoint preload_each (deadline : time) (l : list (string * Registration)) (ready : list string) : co (list string) :=
  match l with
  | [] => mret ready
  | (model_id, spec) :: l =>
      p ← run_now (lift (spec_preload spec));
      if p : bool then preload_one model_id deadline ;; preload_each deadline l (ready ++ [model_id])
      else preload_each deadline l ready
  end.

Definition preload (deadline : time) : co (list string) :=
  s ← run_now get; preload_each deadline (entries (specs (book s))) [].

(** ** Shutdown, storage, unloading *)
Definition await_plan (plan : StopPlan) : co (list string) :=
  match plan with StopNothing => mret [] | StopBorrowed | StopStarted _ => await_eviction end.

Fixpoint notify_each (ids : list string) : co unit :=
  match ids with [] => mret tt | sid :: ids => notify_execution_drain sid ;; notify_each ids end.

Definition shutdown (deadline : time) : co (list string) :=
  draining ← locked shutdown_begin;
  notify_each draining ;;
  plan ← loop (fun _ : unit =>
    plan ← locked (shutdown_look deadline);
    match plan with
    | Some plan => mret (inr plan)
    | None =>
        t ← await;
        if tk_timed_out t then plan ← locked (shutdown_stop deadline); mret (inr plan) else mret (inl tt)
    end) tt;
  await_plan plan.

Definition storage_lost_task (deadline : time) : co (list string) :=
  plan ← locked (storage_lost deadline); await_plan plan.

Definition monitor_storage_once (deadline : time) : co bool :=
  t ← await;
  if tk_admitted t then s ← run_now get; mret (negb (storage_unavailable s))
  else storage_lost_task deadline ;; mret false.

Definition storage_recovered (deadline : time) : co (list string) :=
  t ← await;
  lost ← locked (fun _ => storage_recovered_begin (tk_admitted t));
  if negb lost then mret []
  else recover ;; locked (fun _ => storage_recovered_end) ;; preload deadline.

Definition unload (model_id : string) (deadline : time) : co unit :=
  op ← locked (fun _ => unload_begin model_id deadline);
  match op with
  | None => mret tt
  | Some _ => stopped ← await_eviction; run_now (lift (unload_end model_id stopped))
  end.

Definition sweep_ttl_task (deadline : time) : co (list string) :=
  ops ← locked (sweep_ttl deadline);
  match ops with None => mret [] | Some _ => await_eviction end.

(** ** Exclusive sessions *)
Definition open_session (model_id client_id session_id : string) (priority : Z) (hard : option Z)
    (deadline : option time) : co SessionView :=
  locked (register_session model_id client_id session_id priority hard) ;;
  r ← locked (fun _ s => (s, s_get (sessions s) session_id));
  let wait_until := match deadline with None => s_wait_deadline r | Some d => Z.min (s_wait_deadline r) d end in
  look_loop (open_session_poll session_id wait_until).

Definition close_session (session_id reason : string) (deadline : option time) : co SessionView :=
  started ← locked (close_session_begin session_id reason);
  if negb started then
    now ← clock; s ← run_now get; run_now (lift (s_view (sessions s) session_id now))
  else
    notify_execution_drain session_id ;;
    look_loop (close_session_poll session_id deadline).

Definition expire_session_task (session_id : string) : co unit :=
  draining ← locked (expire_session session_id);
  if draining : bool then notify_execution_drain session_id else mret tt.

Definition wait_for_leases_to_drain (deadline : time) : co bool :=
  look_loop (fun now s => (s, Ret (leases_drained s deadline now))).

Definition wait_for_session_leases (session_id : string) (deadline : time) : co bool :=
  look_loop (fun now s => (s, session_leases_drained s session_id deadline now)).

Definition stop_models (model_ids : list string) (deadline : time) : co bool :=
  plan ← locked (fun _ => stop_models_begin model_ids deadline);
  match plan with
  | StopNothing => mret true
  | StopBorrowed => await_eviction ;; mret true
  | StopStarted _ => await_eviction ;; locked (fun _ s => (s, all_unloaded (book s) model_ids))
  end.

Definition stop_other_models (keep_model_id : string) (deadline : time) : co unit :=
  targets ← locked (fun _ s => (s, Ret (other_models (book s) keep_model_id)));
  match targets with
  | [] => mret tt
  | _ =>
      ok ← stop_models targets deadline;
      if ok : bool then mret tt else co_raise (ModelUnavailable "stop_unconfirmed")
  end.

(** The two lifecycle steps of a preparation; [false] when it was blocked. *)
Definition prepare_residency (session_id model_id : string) (prepare_deadline : time) : co bool :=
  co_catch
    (s ← run_now get; now ← clock;
     stop_other_models model_id (Z.min prepare_deadline (now + cleanup_seconds (sessions s))) ;;
     now ← clock;
     preload_one model_id (Z.min prepare_deadline (now + prepare_seconds (sessions s))) ;;
     mret true)
    (fun e => match e with
              | Conflict _ | ModelUnavailable _ | TimeoutError _ =>
                  Some (locked (prepare_blocked session_id) ;; mret false)
              | _ => None
              end).

Definition prepare_session (session_id : string) : co unit :=
  begun ← locked (prepare_begin session_id);
  match begun with
  | None => mret tt
  | Some (model_id, prepare_deadline, drain_deadline) =>
      drained ← wait_for_leases_to_drain drain_deadline;
      if negb drained then locked (prepare_yield session_id)
      else
        resident ← prepare_residency session_id model_id prepare_deadline;
        if negb resident then mret tt
        else
          '(activate, ended_model_id) ← locked (prepare_activate session_id);
          if (activate : bool) then mret tt
          else
            s ← run_now get; now ← clock;
            stop_models [ended_model_id] (now + stop_grace_seconds (sessions s)) ;;
            locked (prepare_abandon session_id)
  end.

Definition drain_session (session_id : string) : co unit :=
  '(model_id, cancel_deadline, cleanup_deadline) ←
    locked (fun now s => (s, r ← s_get (sessions s) session_id;
                             mret (s_model_id r, now + cancel_seconds (sessions s), now + stop_grace_seconds (sessions s))));
  wait_for_session_leases session_id cancel_deadline ;;
  confirmed ← stop_models [model_id] cleanup_deadline;
  locked (drain_session_end session_id confirmed).

Definition lifecycle_turn : co (unit + unit) :=
  plan ← locked next_session_plan;
  match plan with
  | None =>
      pending ← locked (fun _ s => (s, Ret (s_pending (sessions s))));
      if negb pending then mret (inr tt) else await ;; mret (inl tt)
  | Some (PlanExpire sid) => expire_session_task sid ;; mret (inl tt)
  | Some (PlanPrepare sid) => prepare_session sid ;; mret (inl tt)
  | Some (PlanClose sid) | Some (PlanReconcile sid) => drain_session sid ;; mret (inl tt)
  end.

Definition run_session_lifecycle : co unit :=
  try_finally (loop (fun _ => lifecycle_turn) tt) (locked (fun _ => session_worker_done)).
End tasks.
