(* ===== verification/SchedulerFacts.v ===== *)
(** * The scheduler as a transition system

    Every critical section of [model_scheduler/scheduler.py] as one step, and
    what every step keeps: the invariants of the book, the queue and the
    sessions, and the budgets. *)

From S2P Require Import Prelude Dict Env Contracts Registry RegistryFacts RegistryProps Eviction Queue Sessions SessionsProps Scheduler.
Local Open Scope Z_scope.

(** One constructor per critical section, with the arguments its coroutine
    passes; a run of the service is a sequence of sections. *)
Inductive section :=
| XEnter (m rq : string) (dl : time) (sid : option string) (now : time)
| XPoll (m rq : string) (dl : time) (sid : option string) (admitted : bool) (sample : MemorySample) (now : time)
| XCommit (m rq : string) (dl : time) (admitted : bool) (sample : MemorySample) (now : time)
| XLeave (rq : string)
| XLoadResult (op : Operation) (res : BackendResult) (now : time)
| XLoadDone (m : string) (recover : bool)
| XRecoveryWait (dl now : time)
| XRecoveryTaskDone
| XRecoverBegin
| XRecoverFinish (ep : Z) (res : RecoveryResult)
| XStopResult (op : Operation) (rest : list Operation) (res : BackendResult) (now : time)
| XStopDone
| XRelease (l : Lease) (oc : Outcome) (tokens : option Z) (now : time)
| XCancel (l : Lease)
| XPreloadInspect (m : string) (loaded_here : bool)
| XPreloadCommit (m : string) (admitted : bool) (sample : MemorySample) (dl now : time)
| XPreloadEvict (m : string) (sample : MemorySample) (dl now : time)
| XReclaimFailed (m : string)
| XReclaimPhantom (m : string) (now : time)
| XReclaimLost (m : string) (v : Verdict) (now : time)
| XShutdownBegin (now : time)
| XShutdownStop (dl now : time)
| XStorageLost (dl now : time)
| XStorageRecovered
| XUnload (m : string) (dl : time)
| XSweep (dl now : time)
| XRegister (m client sid : string) (priority : Z) (hard : option Z) (now : time)
| XHeartbeat (sid : string) (now : time)
| XClose (sid reason : string) (now : time)
| XPlan (now : time)
| XExpire (sid : string) (now : time)
| XPrepareBegin (sid : string) (now : time)
| XPrepareYield (sid : string) (now : time)
| XPrepareBlocked (sid : string) (now : time)
| XPrepareActivate (sid : string) (now : time)
| XPrepareAbandon (sid : string) (now : time)
| XDrainEnd (sid : string) (confirmed : bool) (now : time)
| XStopModels (ms : list string) (dl : time)
| XWorkerDone
| XBootstrap (m : string).

Section system.
Context `{PyEnv}.

(** The state after a section, whatever it returned or raised. *)
Definition run_section (x : section) (s : ModelScheduler) : ModelScheduler :=
  match x with
  | XEnter m rq dl sid now => (acquire_enter m rq dl sid now s).1
  | XPoll m rq dl sid a sm now => (acquire_poll m rq dl sid a sm now s).1
  | XCommit m rq dl a sm now => (acquire_commit m rq dl a sm now s).1
  | XLeave rq => (acquire_leave rq s).1
  | XLoadResult op res now => (finish_load_result op res now s).1
  | XLoadDone m r => (finish_load_done m r s).1
  | XRecoveryWait dl now => (recovery_wait dl now s).1
  | XRecoveryTaskDone => (recovery_task_done s).1
  | XRecoverBegin => (recover_begin s).1
  | XRecoverFinish ep res => (recover_finish ep res s).1
  | XStopResult op rest res now => (finish_eviction_step op rest res now s).1
  | XStopDone => (run_eviction_done s).1
  | XRelease l oc tk now => (release_lease l oc tk now s).1
  | XCancel l => (cancel_lease l s).1
  | XPreloadInspect m lh => (preload_inspect m lh s).1
  | XPreloadCommit m a sm dl now => (preload_commit m a sm dl now s).1
  | XPreloadEvict m sm dl now => (preload_evict m sm dl now s).1
  | XReclaimFailed m => (reclaim_failed_begin m s).1
  | XReclaimPhantom m now => (reclaim_phantom m now s).1
  | XReclaimLost m v now => (reclaim_lost m v now s).1
  | XShutdownBegin now => (shutdown_begin now s).1
  | XShutdownStop dl now => (shutdown_stop dl now s).1
  | XStorageLost dl now => (storage_lost dl now s).1
  | XStorageRecovered => (storage_recovered_end s).1
  | XUnload m dl => (unload_begin m dl s).1
  | XSweep dl now => (sweep_ttl dl now s).1
  | XRegister m c sid p h now => (register_session m c sid p h now s).1
  | XHeartbeat sid now => (heartbeat_session sid now s).1
  | XClose sid re now => (close_session_begin sid re now s).1
  | XPlan now => (next_session_plan now s).1
  | XExpire sid now => (expire_session sid now s).1
  | XPrepareBegin sid now => (prepare_begin sid now s).1
  | XPrepareYield sid now => (prepare_yield sid now s).1
  | XPrepareBlocked sid now => (prepare_blocked sid now s).1
  | XPrepareActivate sid now => (prepare_activate sid now s).1
  | XPrepareAbandon sid now => (prepare_abandon sid now s).1
  | XDrainEnd sid c now => (drain_session_end sid c now s).1
  | XStopModels ms dl => (stop_models_begin ms dl s).1
  | XWorkerDone => (session_worker_done s).1
  | XBootstrap m => (on_book (bootstrap_stopped m) s).1
  end.

Definition run_sections (xs : list section) (s : ModelScheduler) : ModelScheduler :=
  foldl (fun s x => run_section x s) s xs.

End system.

(** ** Inverting a section that returned *)
Lemma on_book_ret {A} (m : pym Book A) s s' a :
  on_book m s = (s', Ret a) ↔ ∃ b, m (book s) = (b, Ret a) ∧ s' = s <| book := b |>.
Proof. unfold on_book, on_field. destruct (m (book s)) as [b o]. split; [intros [= <- ->]; eauto|by intros (? & [= -> ->] & ->)]. Qed.

Lemma on_queue_ret {A} (m : pym RequestQueue A) s s' a :
  on_queue m s = (s', Ret a) ↔ ∃ q, m (queue s) = (q, Ret a) ∧ s' = s <| queue := q |>.
Proof. unfold on_queue, on_field. destruct (m (queue s)) as [b o]. split; [intros [= <- ->]; eauto|by intros (? & [= -> ->] & ->)]. Qed.

Lemma on_sessions_ret {A} (m : pym SessionManager A) s s' a :
  on_sessions m s = (s', Ret a) ↔ ∃ x, m (sessions s) = (x, Ret a) ∧ s' = s <| sessions := x |>.
Proof. unfold on_sessions, on_field. destruct (m (sessions s)) as [b o]. split; [intros [= <- ->]; eauto|by intros (? & [= -> ->] & ->)]. Qed.

Lemma except_conflict_ret {A} (m k : pym ModelScheduler A) s s' a :
  except_conflict m k s = (s', Ret a) ↔
  m s = (s', Ret a) ∨ ∃ s1 msg, m s = (s1, Raise (Conflict msg)) ∧ k s1 = (s', Ret a).
Proof.
  unfold except_conflict, catch. destruct (m s) as [s1 [a1|e]].
  - split; [by left|]. by intros [?|(? & ? & ? & _)].
  - destruct e; split; try done; intros Hx; try (destruct Hx as [?|(? & ? & ? & ?)]; simplify_eq; done); eauto.
Qed.

Lemma get_ret {S} (s s' t : S) : get s = (s', Ret t) ↔ s' = s ∧ t = s.
Proof. unfold get. split; [by intros [= -> ->]|by intros [-> ->]]. Qed.

Lemma ask_book_ret {A} (f : Book → outcome A) s s' a :
  ask_book f s = (s', Ret a) ↔ s' = s ∧ f (book s) = Ret a.
Proof. unfold ask_book, get, lift. run_unfold. split; [by intros [= -> ->]|by intros [-> ->]]. Qed.

(** Split a bind that returned; read the parts of the state off simple steps. *)
Ltac inv_ret H :=
  apply bind_returns in H;
  let a := fresh "a" in let s := fresh "s" in let H1 := fresh "H1" in
  destruct H as (a & s & H1 & H);
  lazymatch type of H1 with
  | get _ = _ => apply get_ret in H1; destruct H1; subst
  | ask_book _ _ = _ => apply ask_book_ret in H1; destruct H1 as [? H1]; subst
  | on_book _ _ = _ => let b := fresh "b" in apply on_book_ret in H1; destruct H1 as (b & H1 & ?); subst
  | on_queue _ _ = _ => let q := fresh "q" in apply on_queue_ret in H1; destruct H1 as (q & H1 & ?); subst
  | on_sessions _ _ = _ => let x := fresh "x" in apply on_sessions_ret in H1; destruct H1 as (x & H1 & ?); subst
  | _ => idtac
  end.

(** ** Methods of the parts

    The interface a section relies on: a method of a part is one call of that
    part's transition system, so what the part keeps, the section keeps. *)
Class BookMethod `{PyEnv} {A} (m : pym Book A) := {
  method_call : call;
  method_exec : ∀ b, (m b).1 = exec method_call b;
}.
Arguments method_call {_ _} _ {_}.
Arguments method_exec {_ _} _ {_} _.
Class QueueMethod {A} (m : pym RequestQueue A) : Prop := queue_method : ∀ q, ∃ c, (m q).1 = q_exec c q.
Class SessionMethod {A} (m : pym SessionManager A) : Prop :=
  session_method : ∀ x q, ∃ c, ((m x).1, q) = s_exec c (x, q).

Section methods.
Context `{PyEnv}.

#[export] Instance bootstrap_method m : BookMethod (bootstrap_stopped m) := {| method_call := CBootstrap m; method_exec := fun _ => eq_refl |}.
#[export] Instance begin_load_method m s now : BookMethod (begin_load m s now) := {| method_call := CBeginLoad m s now; method_exec := fun _ => eq_refl |}.
#[export] Instance loaded_method op now : BookMethod (loaded op now) := {| method_call := CLoaded op now; method_exec := fun _ => eq_refl |}.
#[export] Instance failed_method op code : BookMethod (failed op code) := {| method_call := CFailed op code; method_exec := fun _ => eq_refl |}.
#[export] Instance acquire_ready_method m rq now : BookMethod (acquire_ready m rq now) := {| method_call := CAcquire m rq now; method_exec := fun _ => eq_refl |}.
#[export] Instance release_method l oc now tk : BookMethod (release l oc now tk) := {| method_call := CRelease l oc now tk; method_exec := fun _ => eq_refl |}.
#[export] Instance begin_cancel_method l : BookMethod (begin_cancel l) := {| method_call := CCancel l; method_exec := fun _ => eq_refl |}.
#[export] Instance begin_eviction_method ms a : BookMethod (begin_eviction ms a) := {| method_call := CEvict ms a; method_exec := fun _ => eq_refl |}.
#[export] Instance freeze_method ms : BookMethod (freeze_for_switch ms) := {| method_call := CFreeze ms; method_exec := fun _ => eq_refl |}.
#[export] Instance unfreeze_method ms : BookMethod (unfreeze_switch ms) := {| method_call := CUnfreeze ms; method_exec := fun _ => eq_refl |}.
#[export] Instance begin_cleanup_method ms : BookMethod (begin_cleanup ms) := {| method_call := CCleanup ms; method_exec := fun _ => eq_refl |}.
#[export] Instance rollback_method op : BookMethod (rollback_unsent op) := {| method_call := CRollback op; method_exec := fun _ => eq_refl |}.
#[export] Instance stopped_method op t : BookMethod (stopped op t) := {| method_call := CStopped op t; method_exec := fun _ => eq_refl |}.
#[export] Instance begin_recovery_method : BookMethod (begin_recovery) := {| method_call := CBeginRecovery; method_exec := fun _ => eq_refl |}.
#[export] Instance finish_recovery_method ep cs : BookMethod (finish_recovery ep cs) := {| method_call := CFinishRecovery ep cs; method_exec := fun _ => eq_refl |}.

#[export] Instance enqueue_method rq m p dl now kd : QueueMethod (q_enqueue rq m p dl now kd).
Proof. intros q. by exists (QEnqueue rq m p dl now kd). Qed.
#[export] Instance remove_method rq st : QueueMethod (q_remove rq st).
Proof. intros q. by exists (QRemove rq st). Qed.
#[export] Instance clear_method st : QueueMethod (q_clear st).
Proof. intros q. by exists (QClear st). Qed.
#[export] Instance head_method now el kd : QueueMethod (q_head now el kd).
Proof. intros q. by exists (QHead now el kd). Qed.
#[export] Instance is_head_method rq now el kd : QueueMethod (q_is_head rq now el kd).
Proof.
  intros q. exists (QHead now el kd). unfold q_is_head. run_unfold. simpl.
  by destruct (q_head now el kd q) as [q' [o|e]].
Qed.

#[export] Instance heartbeat_method sid now : SessionMethod (s_heartbeat sid now).
Proof. intros x q. by exists (SHeartbeat sid now). Qed.
#[export] Instance mark_active_method sid now : SessionMethod (s_mark_active sid now).
Proof. intros x q. by exists (SActive sid now). Qed.
#[export] Instance begin_drain_method sid now re : SessionMethod (s_begin_drain sid now re).
Proof. intros x q. by exists (SDrain sid now re). Qed.
#[export] Instance mark_closed_method sid now : SessionMethod (s_mark_closed sid now).
Proof. intros x q. by exists (SClosed sid now). Qed.
#[export] Instance mark_blocked_method sid now re : SessionMethod (s_mark_blocked sid now re).
Proof. intros x q. by exists (SBlocked sid now re). Qed.
#[export] Instance yield_method sid now : SessionMethod (s_yield_prepare sid now).
Proof. intros x q. by exists (SYield sid now). Qed.
End methods.

(** ** What the parts keep, every section keeps *)
Section parts.
Context `{PyEnv}.

Record part_invariant (B : Book → Prop) (Q : RequestQueue → Prop) (M : SessionManager → Prop) : Prop := {
  pi_book : ∀ c b, B b → B (exec c b);
  pi_queue : ∀ c q, Q q → Q (q_exec c q);
  pi_sessions : ∀ c mq, M mq.1 → M (s_exec c mq).1;
  pi_in_flight : ∀ x k n, M x → M (x <| in_flight ::= <[k := n]> |>);
}.

Context {B : Book → Prop} {Q : RequestQueue → Prop} {M : SessionManager → Prop} (HI : part_invariant B Q M).

Definition parts (s : ModelScheduler) : Prop := B (book s) ∧ Q (queue s) ∧ M (sessions s).

Lemma parts_book {A} (m : pym Book A) `{!BookMethod m} : preserves parts (on_book m).
Proof using HI.
  intros s (Hb & Hq & Hm). unfold on_book, on_field. pose proof (method_exec m (book s)) as Hc.
  destruct (m (book s)) as [b o]. simpl in *. subst. split_and!; try done. by apply HI.
Qed.

Lemma parts_queue {A} (m : pym RequestQueue A) `{!QueueMethod m} : preserves parts (on_queue m).
Proof using HI.
  intros s (Hb & Hq & Hm). unfold on_queue, on_field. destruct (queue_method (queue s)) as [c Hc].
  destruct (m (queue s)) as [q o]. simpl in *. subst. split_and!; try done. by apply HI.
Qed.

Lemma parts_sessions {A} (m : pym SessionManager A) `{!SessionMethod m} : preserves parts (on_sessions m).
Proof using HI.
  intros s (Hb & Hq & Hm). unfold on_sessions, on_field. destruct (session_method (sessions s) (queue s)) as [c Hc].
  destruct (m (sessions s)) as [x o]. simpl in *. split_and!; try done. simpl.
  change (M (x, queue s).1). rewrite Hc. by apply HI.
Qed.

Lemma create_queue sid mo cl now p h mq :
  (s_create sid mo cl now p h mq).1.2 = mq.2 ∨ ∃ c, (s_create sid mo cl now p h mq).1.2 = q_exec c mq.2.
Proof.
  unfold s_create. run_unfold. destruct mq as [m q]. simpl. repeat (case_match; [by left|]).
  unfold on_field. simpl. right.
  match goal with |- context [q_enqueue ?a ?b ?c ?d ?e ?f q] =>
    exists (QEnqueue a b c d e f); simpl; by destruct (q_enqueue a b c d e f q) as [? [?|?]] end.
Qed.

Lemma parts_create sid mo cl now p h : preserves parts (on_sessions_queue (s_create sid mo cl now p h)).
Proof using HI.
  intros s (Hb & Hq & Hm). unfold on_sessions_queue, on_field.
  pose proof (pi_sessions _ _ _ HI (SCreate sid mo cl now p h) (sessions s, queue s) Hm) as Hm'. simpl in Hm'.
  assert (Q (s_create sid mo cl now p h (sessions s, queue s)).1.2) as Hq'.
  { destruct (create_queue sid mo cl now p h (sessions s, queue s)) as [->|[c ->]]; [done|]. by apply HI. }
  destruct (s_create sid mo cl now p h (sessions s, queue s)) as [[x q] o]. simpl in *. done.
Qed.

(** A section that touches none of the three parts. *)
Lemma parts_modify (f : ModelScheduler → ModelScheduler) :
  (∀ s, book (f s) = book s ∧ queue (f s) = queue s ∧ sessions (f s) = sessions s) →
  preserves parts (modify f).
Proof. intros Hf s Hs. unfold parts. simpl. destruct (Hf s) as (-> & -> & ->). exact Hs. Qed.

Lemma parts_note sid l : preserves parts (note_session_lease sid l).
Proof using HI. intros s (Hb & Hq & Hm). split_and!; simpl; try done. by apply HI. Qed.

Lemma parts_forget lid : preserves parts (forget_session_lease lid).
Proof using HI.
  intros s (Hb & Hq & Hm). unfold forget_session_lease. run_unfold.
  destruct (forget_in _ _) as [[sid held]|]; [|done]. split_and!; simpl; try done. by apply HI.
Qed.

Lemma preserves_except_conflict {A} (I : ModelScheduler → Prop) (m k : pym ModelScheduler A) :
  preserves I m → preserves I k → preserves I (except_conflict m k).
Proof. intros Hm Hk. apply preserves_catch; [done|]. intros e k'. by destruct e; intros; simplify_eq. Qed.
Lemma preserves_except_stale {A} (I : ModelScheduler → Prop) (m k : pym ModelScheduler A) :
  preserves I m → preserves I k → preserves I (except_stale m k).
Proof. intros Hm Hk. apply preserves_catch; [done|]. intros e k'. by destruct e; intros; simplify_eq. Qed.
Lemma preserves_except_any {A} (I : ModelScheduler → Prop) (m k : pym ModelScheduler A) :
  preserves I m → preserves I k → preserves I (except_any m k).
Proof. intros Hm Hk. apply preserves_catch; [done|]. intros e k' [= <-]. done. Qed.
Lemma preserves_when (I : ModelScheduler → Prop) b m : preserves I m → preserves I (when b m).
Proof. intros Hm. destruct b; [done|apply preserves_ret]. Qed.
Lemma preserves_ask {A} (I : ModelScheduler → Prop) (f : Book → outcome A) : preserves I (ask_book f).
Proof. by intros s. Qed.
End parts.

(** Walk through a section: one rule per construct, the leaves left to [leaf]. *)
Ltac walk_with leaf := repeat
  match goal with
  | |- preserves _ (mret _) => apply preserves_ret
  | |- preserves _ (raise _) => apply preserves_raise
  | |- preserves _ (lift _) => apply preserves_lift
  | |- preserves _ get => apply preserves_get
  | |- preserves _ (ask_book _) => apply preserves_ask
  | |- preserves _ (_ ≫= _) => apply preserves_bind; [|intros ?]
  | |- preserves _ (except_conflict _ _) => apply preserves_except_conflict
  | |- preserves _ (except_stale _ _) => apply preserves_except_stale
  | |- preserves _ (except_any _ _) => apply preserves_except_any
  | |- preserves _ (catch _ _) =>
      apply preserves_catch; [|let e := fresh in intros e ?; destruct e; intros; simplify_eq]
  | |- preserves _ (when _ _) => apply preserves_when
  | |- preserves _ (for_each _ _) => apply preserves_for_each; intros ?
  | |- preserves _ (if ?x then _ else _) => destruct x
  | |- preserves _ (match ?x with _ => _ end) => destruct x
  | |- preserves _ (let _ := _ in _) => cbv zeta
  | |- _ => leaf
  end.

Section keep.
Context `{PyEnv} {B : Book → Prop} {Q : RequestQueue → Prop} {M : SessionManager → Prop}
  (HI : part_invariant B Q M).

Ltac leaf := idtac;
  match goal with
  | |- preserves _ (on_book _) => apply parts_book, _; exact HI
  | |- preserves _ (on_queue _) => apply parts_queue, _; exact HI
  | |- preserves _ (on_sessions _) => apply parts_sessions, _; exact HI
  | |- preserves _ (on_sessions_queue _) => apply parts_create; exact HI
  | |- preserves _ (note_session_lease _ _) => apply parts_note; exact HI
  | |- preserves _ (forget_session_lease _) => apply parts_forget; exact HI
  | |- preserves _ (modify _) => apply parts_modify; intros ?; by repeat case_match
  end.
Ltac walk := walk_with leaf.

Notation kept := (preserves (parts (B:=B) (Q:=Q) (M:=M))).

Lemma cancel_intent_kept rq : kept (cancel_switch_intent rq).
Proof using HI. unfold cancel_switch_intent. walk. Qed.
Lemma expire_intent_kept now : kept (expire_switch_intent now).
Proof using HI. unfold expire_switch_intent. walk. Qed.
Lemma establish_kept rq m sm dl now : kept (establish_or_advance_switch rq m sm dl now).
Proof using HI.
  unfold establish_or_advance_switch, establish_intent, start_eviction. walk; apply cancel_intent_kept.
Qed.
Lemma enter_kept m rq dl sid now : kept (acquire_enter m rq dl sid now).
Proof using HI. unfold acquire_enter. walk. Qed.
Lemma poll_kept m rq dl sid a sm now : kept (acquire_poll m rq dl sid a sm now).
Proof using HI. unfold acquire_poll. walk; apply expire_intent_kept. Qed.
Lemma commit_kept m rq dl a sm now : kept (acquire_commit m rq dl a sm now).
Proof using HI. unfold acquire_commit, start_load. walk; apply establish_kept. Qed.
Lemma leave_kept rq : kept (acquire_leave rq).
Proof using HI. unfold acquire_leave. walk; apply cancel_intent_kept. Qed.
Lemma load_result_kept op res now : kept (finish_load_result op res now).
Proof using HI. unfold finish_load_result, record_cold_load, may_recover. walk. Qed.
Lemma abort_all_kept now : kept (abort_all_leases now).
Proof using HI. unfold abort_all_leases. walk. Qed.
Lemma stop_everything_kept dl : kept (stop_everything dl).
Proof using HI. unfold stop_everything, start_eviction. walk. Qed.
Lemma stop_result_kept op rest res now : kept (finish_eviction_step op rest res now).
Proof using HI. unfold finish_eviction_step, rollback_pending. walk. Qed.
Lemma release_freeze_kept sid : kept (release_session_freeze sid).
Proof using HI. unfold release_session_freeze. walk. Qed.

(** Every section keeps what the methods of the parts keep. *)
Lemma run_section_parts x s :
  parts (B:=B) (Q:=Q) (M:=M) s → parts (B:=B) (Q:=Q) (M:=M) (run_section x s).
Proof using HI.
  intros Hs. destruct x; unfold run_section; match goal with |- parts (?m s).1 => refine ((_ : kept m) s Hs) end;
    first [ apply enter_kept | apply poll_kept | apply commit_kept | apply leave_kept | apply load_result_kept
          | apply stop_result_kept
          | unfold finish_load_done, recovery_wait, recovery_task_done, recover_begin, recover_finish,
              run_eviction_done, release_lease, cancel_lease, preload_inspect, preload_commit,
              preload_evict, reclaim_failed_begin, reclaim_phantom, reclaim_lost, shutdown_begin,
              shutdown_stop, storage_lost, storage_recovered_end, unload_begin, sweep_ttl, register_session,
              heartbeat_session, close_session_begin, next_session_plan, expire_session,
              prepare_begin, prepare_yield, prepare_blocked, prepare_activate, prepare_abandon, drain_session_end,
              stop_models_begin, session_worker_done, start_recovery, start_load, start_eviction, ensure_session_worker;
            walk; first [apply abort_all_kept|apply stop_everything_kept|apply release_freeze_kept] ].
Qed.

Lemma run_sections_parts xs s :
  parts (B:=B) (Q:=Q) (M:=M) s → parts (B:=B) (Q:=Q) (M:=M) (run_sections xs s).
Proof using HI. revert s. induction xs as [|x xs IH]; intros s Hs; simpl; [done|]. by apply IH, run_section_parts. Qed.
End keep.
