(* ===== verification/SchedulerSwitch.v ===== *)
(** * Switch intents

    A switch freezes the admission of the models it will evict.  This file shows
    that the freeze always has an owner: a READY model whose admission is
    blocked is named by the current [SwitchIntent]. *)

From S2P Require Import Prelude Dict Env Contracts Registry RegistryFacts RegistryProps Eviction Queue Sessions SessionsProps Scheduler SchedulerFacts.
Local Open Scope Z_scope.

(** READY, but closed to new leases. *)
Definition frozen (b : Book) (m : string) : Prop :=
  ∃ r, runtime b !! m = Some r ∧ state r = READY ∧ admission_blocked r = true.

Definition is_freeze (c : call) : bool := match c with CFreeze _ => true | _ => false end.

Section frozen.
Context `{PyEnv}.
Implicit Types (b : Book) (r : Runtime) (m : string).

Lemma frozen_put b m r' m' :
  frozen (put_runtime m r' b) m' → (m' = m ∧ state r' = READY ∧ admission_blocked r' = true) ∨ frozen b m'.
Proof.
  intros (r & Hr & Hs & Hb). simpl in Hr. rewrite dict_lookup_insert in Hr.
  destruct (decide (m = m')); simplify_eq; [by left|right]. by exists r.
Qed.

(** The new record of [m] is not frozen unless the old one was. *)
Lemma frozen_put_keep b m r r' m' :
  runtime b !! m = Some r →
  (state r' = READY → admission_blocked r' = true → state r = READY ∧ admission_blocked r = true) →
  frozen (put_runtime m r' b) m' → frozen b m'.
Proof.
  intros Hr Hk [(-> & Hs & Hb)|?]%frozen_put; [|done]. exists r. split; [done|]. by apply Hk.
Qed.

Lemma frozen_dmap b (f : Runtime → Runtime) ep rec m :
  (∀ r, state (f r) ≠ READY) →
  ¬ frozen (b <| epoch := ep |> <| recovering := rec |> <| runtime ::= dmap (fun _ => f) |>) m.
Proof.
  intros Hf (r & Hr & Hs & _). simpl in Hr. rewrite dict_lookup_dmap in Hr.
  destruct (runtime b !! m); simplify_eq/=. by apply Hf in Hs.
Qed.

Lemma frozen_stops b ms m :
  NoDup ms → (∀ x, x ∈ ms → is_Some (runtime b !! x)) →
  frozen (map_each ms start_stop b).1 m → m ∉ ms ∧ frozen b m.
Proof.
  intros Hnd Hall (r' & Hr' & Hs & Hb).
  destruct (runtime b !! m) as [r|] eqn:Hr.
  - destruct (map_start_stop_lookup ms b m r Hnd Hall Hr) as (r1 & Hr1 & Hx). simplify_eq.
    destruct (decide (m ∈ ms)) as [|Hm]; [by destruct Hx as (i & _ & ->)|]. subst. split; [done|]. by exists r.
  - exfalso. assert (keys (runtime (map_each ms start_stop b).1) = keys (runtime b)) as Hk.
    { clear -Hall Hnd. revert b Hall. induction ms as [|x ms IH]; intros b Hall; [done|].
      apply NoDup_cons in Hnd as [_ Hnd]. simpl. unfold mbind, pym_bind. rewrite start_stop_eval.
      destruct (Hall x) as [rx Hrx]; [constructor|]. rewrite Hrx.
      set (b1 := put_runtime x _ _). assert (keys (runtime b1) = keys (runtime b)) as Hk.
      { subst b1. simpl. by eapply keys_insert_Some. }
      specialize (IH Hnd b1). destruct (map_each ms start_stop b1) as [b2 [?|?]]; simpl in *; rewrite IH; try done;
        intros y Hy; rewrite <-elem_of_keys, Hk, elem_of_keys; apply Hall; by constructor. }
    assert (m ∈ keys (runtime b)) as Hm by (rewrite <-Hk, elem_of_keys; eauto).
    rewrite elem_of_keys, Hr in Hm. by destruct Hm.
Qed.

(** A freeze loop only freezes the models it names; an unfreeze loop none. *)
Lemma frozen_loop ms b v (g : Runtime → bool) m :
  frozen (for_each ms (fun m => b ← get; r ← lift (runtime_of b m);
    if g r then set_runtime m (r <| admission_blocked := v |>) else mret tt) b).1 m →
  (v = true ∧ m ∈ ms) ∨ frozen b m.
Proof.
  revert b. induction ms as [|x ms IH]; intros b; simpl; [by right|]. unfold set_runtime. run_unfold.
  destruct (runtime_of b x) as [r|] eqn:Hr; [|by right]. apply runtime_of_ret in Hr.
  destruct (g r); intros Hf; apply IH in Hf as [[? ?]|Hf]; try (left; split; [done|by constructor]); [|by right].
  apply frozen_put in Hf as [(-> & _ & Hb)|?]; [|by right]. left. split; [done|constructor].
Qed.

Lemma exec_frozen c b m :
  book_wf b → is_freeze c = false → frozen (exec c b) m → frozen b m.
Proof.
  intros Hb Hc. destruct c; simpl; try done.
  - unfold bootstrap_stopped, set_runtime. run_unfold. repeat case_match; try done; simplify_eq.
    eapply frozen_put_keep; [by apply runtime_of_ret|done].
  - unfold begin_load, uuid4, set_runtime. run_unfold. repeat case_match; try done; simplify_eq.
    apply (frozen_put_keep (count_uuid b) _ a0); [by apply runtime_of_ret|done].
  - unfold loaded, set_runtime. run_unfold. repeat case_match; try done; simplify_eq.
    eapply frozen_put_keep; [by eapply operation_runtime_ret|done].
  - unfold failed, set_runtime. run_unfold. repeat case_match; try done; simplify_eq.
    eapply frozen_put_keep; [by eapply operation_runtime_ret|done].
  - destruct (acquire_ready m0 rq now b) as [b' [l|e]] eqn:E; simpl.
    + apply acquire_ready_ret in E as (r & e & (Hr & _) & -> & ->).
      by apply (frozen_put_keep (count_uuid b) _ r).
    + by apply acquire_ready_raise in E as ->.
  - rewrite release_eval. destruct (runtime b !! _) as [r|] eqn:Hr; [|done].
    destruct (lease_mismatch r l); [done|]. destruct (match tokens with Some _ => _ | _ => _ end); [done|].
    apply (frozen_put_keep b _ r); [done|]. unfold released_runtime.
    (destruct oc; [destruct tokens| |]); cbv beta iota zeta; destruct (no_leases _); done.
  - unfold begin_cancel, set_runtime. run_unfold. repeat case_match; try done; simplify_eq.
    eapply frozen_put_keep; [by apply runtime_of_ret|done].
  - unfold begin_eviction. run_unfold. destruct (bad_batch b ms) eqn:Hbad; [done|].
    apply bad_batch_false in Hbad as (_ & _ & Hnd). destruct (check_each ms _) as [[]|] eqn:Hch; [|done].
    rewrite check_each_ret in Hch. intros [_ ?]%frozen_stops; try done.
    intros x Hx. apply Hch, eviction_check_ret in Hx as (r & e & ? & _). eauto.
  - intros [[? ?]|?]%(frozen_loop ms b false (fun r => bool_decide (state r = READY) && bool_decide (operation_id r = None)));
      done.
  - unfold begin_cleanup. run_unfold. destruct (bad_batch b ms) eqn:Hbad; [done|].
    apply bad_batch_false in Hbad as (_ & _ & Hnd). destruct (check_each ms _) as [[]|] eqn:Hch; [|done].
    rewrite check_each_ret in Hch. intros [_ ?]%frozen_stops; try done.
    intros x Hx. apply Hch, cleanup_check_ret in Hx as (r & ? & _). eauto.
  - unfold rollback_unsent, set_runtime. run_unfold. repeat case_match; try done; simplify_eq.
    eapply frozen_put_keep; [by eapply operation_runtime_ret|done].
  - unfold stopped, set_runtime. run_unfold. repeat case_match; try done; simplify_eq.
    eapply frozen_put_keep; [by eapply operation_runtime_ret|done].
  - unfold begin_recovery. run_unfold. destruct (recovering b); [done|]. intros Hf. exfalso. revert Hf.
    apply frozen_dmap. intros r. unfold recovering_runtime. case_bool_decide as Hu; simpl in *; congruence.
  - unfold finish_recovery. run_unfold. destruct (_ || _); [done|]. destruct (_ || _); [done|].
    intros Hf. exfalso. revert Hf. by apply (frozen_dmap b recovered_runtime (epoch b) false).
Qed.
End frozen.

(** ** The invariant *)
Record intent_wf `{PyEnv} (s : ModelScheduler) : Prop := {
  iw_book : book_wf (book s);
  iw_owned : ∀ m, frozen (book s) m → ∃ i, switch_intent s = Some i ∧ m ∈ si_frozen_models i;
  iw_known : ∀ i m, switch_intent s = Some i → m ∈ si_frozen_models i → is_Some (runtime (book s) !! m);
}.

Section intent.
Context `{PyEnv, !PyEnvLaws}.
Implicit Types (s : ModelScheduler).

Lemma exec_known c b m : book_wf b → is_Some (runtime (exec c b) !! m) ↔ is_Some (runtime b !! m).
Proof. intros Hb. rewrite <-!elem_of_keys. by rewrite exec_runtime_keys. Qed.

Lemma unfreeze_one_spec x b r :
  book_wf b → runtime b !! x = Some r →
  ∃ b1, unfreeze_one x b = (b1, Ret tt) ∧ book_wf b1 ∧
    (∀ y, is_Some (runtime b !! y) → is_Some (runtime b1 !! y)) ∧ ¬ frozen b1 x ∧
    (∀ m, frozen b1 m → frozen b m).
Proof.
  intros Hb Hr. unfold unfreeze_one, set_runtime, runtime_of. run_unfold. rewrite Hr.
  destruct (bool_decide (state r = READY) && bool_decide (operation_id r = None)) eqn:Hg.
  - eexists. split; [done|]. bool_prop. split_and!.
    + apply wf_set_blocked; try done. intros _. split_and!; try congruence.
      open_runtime Hb. destruct (recovering b) eqn:Hrec; [|done].
      destruct (rw_recovering _ _ _ _ Hw eq_refl) as [[?|?] _]; congruence.
    + intros y Hy. simpl. rewrite dict_lookup_insert. by destruct (decide (_ = y)).
    + intros (r1 & Hr1 & _ & Hbl). simpl in Hr1. rewrite dict_lookup_insert_eq in Hr1. by simplify_eq.
    + by intros m [(_ & _ & ?)|?]%frozen_put.
  - exists b. split_and!; try done. intros (r1 & Hr1 & Hst & _). simplify_eq.
    rewrite (bool_decide_true (state _ = _)) in Hg by done.
    rewrite bool_decide_true in Hg; [done|]. eapply ready_no_operation; eauto.
Qed.

(** An unfreeze that covers the intent ends it. *)
Lemma unfreeze_frozen ms b m :
  book_wf b → (∀ x, x ∈ ms → is_Some (runtime b !! x)) →
  ∃ b', unfreeze_switch ms b = (b', Ret tt) ∧ book_wf b' ∧ (frozen b' m → m ∉ ms ∧ frozen b m).
Proof.
  revert b. induction ms as [|x ms IH]; intros b Hb Hall.
  { exists b. split_and!; try done. intros ?. split; [apply not_elem_of_nil|done]. }
  destruct (Hall x) as [r Hr]; [constructor|].
  destruct (unfreeze_one_spec x b r Hb Hr) as (b1 & Hs & Hb1 & Hk & Hx & Hf).
  destruct (IH b1 Hb1) as (b' & Hu & Hw & Hf'); [intros; apply Hk, Hall; by constructor|].
  exists b'. unfold unfreeze_switch in *. simpl. unfold mbind at 1, pym_bind at 1. rewrite Hs. split_and!; try done.
  intros [Hn Hm]%Hf'. split; [|by apply (Hf m)]. intros [->|?]%elem_of_cons; [by apply Hx|done].
Qed.

Lemma freeze_frozen ms b b' o :
  freeze_for_switch ms b = (b', o) →
  match o with
  | Raise _ => b' = b
  | Ret _ => (∀ m, frozen b' m → m ∈ ms ∨ frozen b m) ∧ (∀ m, m ∈ ms → is_Some (runtime b !! m))
  end.
Proof.
  unfold freeze_for_switch. run_unfold. intros Hx. destruct (bad_batch b ms); [by simplify_eq|].
  destruct (check_each ms _) as [[]|] eqn:Hc; [|by simplify_eq]. rewrite check_each_ret in Hc.
  assert (∀ m, m ∈ ms → is_Some (runtime b !! m)) as Hall.
  { intros m Hm%Hc. revert Hm. unfold freeze_check, runtime_of. run_unfold. destruct (runtime b !! m); [eauto|done]. }
  destruct (freeze_loop_ret ms b Hall) as [b1 Hl]. run_unfold. rewrite Hl in Hx. injection Hx as <- <-.
  split; [|done]. intros m Hf. pose proof (frozen_loop ms b true (fun _ => true) m) as Hfl. run_unfold.
  rewrite Hl in Hfl. destruct (Hfl Hf) as [[_ ?]|?]; auto.
Qed.

Lemma intent_book {A} (m : pym Book A) `{!BookMethod m} :
  is_freeze (method_call m) = false → preserves intent_wf (on_book m).
Proof.
  intros Hc s [Hb Ho Hk]. unfold on_book, on_field. pose proof (method_exec m (book s)) as He.
  destruct (m (book s)) as [b o]. simpl in *. subst. split; simpl.
  - by apply exec_wf.
  - intros x Hx. by apply Ho, (exec_frozen _ _ _ Hb Hc).
  - intros i x Hi Hx. rewrite exec_known by done. eauto.
Qed.

Lemma intent_modify (f : ModelScheduler → ModelScheduler) :
  (∀ s, book (f s) = book s ∧ switch_intent (f s) = switch_intent s) → preserves intent_wf (modify f).
Proof.
  intros Hf s [Hb Ho Hk]. destruct (Hf s) as [Hfb Hfi]. split; simpl; rewrite ?Hfb, ?Hfi; done.
Qed.

Lemma intent_on_field {T A} (proj : ModelScheduler → T) put (m : pym T A) :
  (∀ t s, book (put t s) = book s ∧ switch_intent (put t s) = switch_intent s) →
  preserves intent_wf (on_field proj put m).
Proof.
  intros Hp s [Hb Ho Hk]. unfold on_field. destruct (m (proj s)) as [t o]. simpl. destruct (Hp t s) as [Hpb Hpi].
  split; rewrite ?Hpb, ?Hpi; done.
Qed.

(** Unfreezing the models of the intent, then dropping it. *)
Lemma drop_intent_wf s i (f : ModelScheduler → ModelScheduler) :
  intent_wf s → switch_intent s = Some i →
  (∀ s, book (f s) = book s ∧ switch_intent (f s) = None) →
  intent_wf ((on_book (unfreeze_switch (si_frozen_models i)) ;; modify f) s).1 ∧
  ((on_book (unfreeze_switch (si_frozen_models i)) ;; modify f) s).2 = Ret tt.
Proof.
  intros [Hb Ho Hk] Hi Hf. unfold on_book, on_field. run_unfold.
  destruct (unfreeze_frozen (si_frozen_models i) (book s) "" Hb) as (b' & Hu & Hb' & _); [by intros; eapply Hk|].
  rewrite Hu. simpl. split; [|done]. match goal with |- intent_wf (f ?s1) => destruct (Hf s1) as [Hfb Hfi] end.
  split; rewrite ?Hfb, ?Hfi; simpl; [done| |done].
  intros m Hm. destruct (unfreeze_frozen (si_frozen_models i) (book s) m Hb) as (b2 & Hu2 & _ & Hn);
    [by intros; eapply Hk|]. rewrite Hu in Hu2. injection Hu2 as <-. destruct (Hn Hm) as [Hni Hfm]. destruct (Ho m Hfm) as (i' & ? & ?).
  by simplify_eq.
Qed.

Lemma cancel_intent_wf rq : preserves intent_wf (cancel_switch_intent rq).
Proof.
  intros s Hs. unfold cancel_switch_intent. unfold mbind at 1, pym_bind at 1, get.
  destruct (switch_intent s) as [i|] eqn:Hi; [|done]. unfold when. case_bool_decide; [|done].
  by apply drop_intent_wf.
Qed.

Lemma expire_intent_wf now : preserves intent_wf (expire_switch_intent now).
Proof.
  intros s Hs. unfold expire_switch_intent. unfold mbind at 1, pym_bind at 1, get.
  destruct (switch_intent s) as [i|] eqn:Hi; [|done]. unfold when. destruct (_ || _); [|done].
  by apply drop_intent_wf.
Qed.

(** After [establish_intent], the intent it answers is the current one. *)
Lemma establish_intent_wf rq m sm dl now s :
  intent_wf s →
  let s' := (establish_intent rq m sm dl now s).1 in
  intent_wf s' ∧ ∀ i, (establish_intent rq m sm dl now s).2 = Ret (Some i) → switch_intent s' = Some i.
Proof.
  intros Hs. unfold establish_intent, ask_book, except_conflict, catch, on_book, on_field. run_unfold.
  destruct (switch_intent s) as [i0|] eqn:Hi; [by split; [|intros i [= <-]]|].
  destruct (load_deficit (book s) m sm) as [d|]; [|done].
  destruct (choose _ _ _ _ _) as [[|c cs]|]; [done| |done].
  destruct (freeze_for_switch (cand_model_id <$> (c :: cs)) (book s)) as [b' o] eqn:Hf.
  destruct Hs as [Hb Ho Hk]. pose proof (freeze_frozen _ _ _ _ Hf) as Hfr.
  assert (book_wf b') as Hb'. { pose proof (freeze_for_switch_wf (cand_model_id <$> (c :: cs)) (book s) Hb) as Hw.
    by rewrite Hf in Hw. }
  assert (∀ x, frozen (book s) x → False) as Hnone. { intros x (i' & ? & _)%Ho. congruence. }
  destruct o as [[]|e]; simpl.
  - destruct Hfr as [Hfr Hkn]. split; [|by intros i [= <-]]. split; simpl; [done| |].
    + intros x [Hx|Hx]%Hfr; [eauto|]. by apply Hnone in Hx.
    + intros i x [= <-] Hx. simpl in Hx. apply Hkn in Hx. revert Hx. rewrite <-!elem_of_keys.
      pose proof (exec_runtime_keys (CFreeze (cand_model_id <$> (c :: cs))) (book s) Hb) as Hkk.
      unfold exec in Hkk. rewrite Hf in Hkk. simpl in Hkk. by rewrite Hkk.
  - subst b'. destruct e; simpl; (split; [|done]); split; simpl; try done; rewrite Hi; done.
Qed.

Lemma establish_wf rq m sm dl now : preserves intent_wf (establish_or_advance_switch rq m sm dl now).
Proof.
  intros s Hs. unfold establish_or_advance_switch. unfold mbind at 1, pym_bind at 1.
  destruct (establish_intent_wf rq m sm dl now s Hs) as [Hs1 Hi].
  destruct (establish_intent rq m sm dl now s) as [s1 [[i|]|e]]; simpl in *; [|done|done].
  specialize (Hi i eq_refl). destruct (negb _); [done|]. run_unfold.
  destruct (any_leases _ _) as [[]|]; [done| |done]. unfold except_conflict, catch, on_book, on_field.
  destruct (begin_eviction (si_frozen_models i) true (book s1)) as [b o] eqn:Hev.
  assert (intent_wf (s1 <| book := b |>)) as Hs2.
  { pose proof (intent_book (begin_eviction (si_frozen_models i) true) eq_refl s1 Hs1) as Hx.
    unfold on_book, on_field in Hx. by rewrite Hev in Hx. }
  destruct o as [ops|e]; simpl.
  - apply begin_eviction_ret in Hev as (_ & _ & _ & _ & Hlk). destruct Hs1 as [Hb1 Ho Hk], Hs2 as [Hb2 Ho2 _]. split; simpl; [done| |done].
    intros x Hx. exfalso. destruct (Ho2 x Hx) as (i' & Hi' & Hin). simpl in Hi'.
    assert (i' = i) as -> by congruence. destruct (Hk i x Hi Hin) as [r Hr]. destruct (Hlk x r Hr) as (r' & Hr' & Hev').
    rewrite decide_True in Hev' by done. destruct Hev' as (j & ->), Hx as (r2 & Hr2 & ? & _). simpl in Hr2. rewrite Hr' in Hr2. by simplify_eq.
  - apply begin_eviction_raise in Hev as ->. destruct e; try (by apply Hs2).
    pose proof (cancel_intent_wf (si_request_id i) _ Hs2) as Hc. run_unfold.
    destruct (cancel_switch_intent _ _) as [s3 [[]|e]]; done.
Qed.
End intent.

Section keep.
Context `{PyEnv, !PyEnvLaws}.

Ltac leaf := idtac;
  match goal with
  | |- preserves _ (on_book ?m) => let i := constr:(_ : BookMethod m) in exact (intent_book m (BookMethod0:=i) eq_refl)
  | |- preserves _ (on_queue _) => apply intent_on_field; done
  | |- preserves _ (on_sessions _) => apply intent_on_field; done
  | |- preserves _ (on_sessions_queue _) => apply intent_on_field; done
  | |- preserves _ (cancel_switch_intent _) => apply cancel_intent_wf
  | |- preserves _ (expire_switch_intent _) => apply expire_intent_wf
  | |- preserves _ (establish_or_advance_switch _ _ _ _ _) => apply establish_wf
  | |- preserves _ (modify _) => apply intent_modify; intros ?; by repeat case_match
  end.
Ltac walk := walk_with leaf.

Lemma run_section_intent x s : intent_wf s → intent_wf (run_section x s).
Proof.
  intros Hs. destruct x; unfold run_section; match goal with |- intent_wf (?m s).1 =>
      refine ((_ : preserves intent_wf m) s Hs) end;
    unfold acquire_enter, acquire_poll, acquire_commit, acquire_leave, finish_load_result, finish_load_done,
      recovery_wait, recovery_task_done, recover_begin, recover_finish, finish_eviction_step, run_eviction_done,
      release_lease, cancel_lease, preload_inspect, preload_commit, preload_evict, reclaim_failed_begin,
      reclaim_phantom, reclaim_lost, shutdown_begin, shutdown_stop, storage_lost, storage_recovered_end,
      unload_begin, sweep_ttl, register_session, heartbeat_session, close_session_begin, next_session_plan,
      expire_session, prepare_begin, prepare_yield, prepare_blocked, prepare_activate, prepare_abandon,
      drain_session_end, stop_models_begin, session_worker_done, record_cold_load, may_recover, start_recovery,
      rollback_pending, abort_all_leases, stop_everything, start_load, start_eviction, ensure_session_worker,
      release_session_freeze, note_session_lease, forget_session_lease; walk.
Qed.

Lemma run_sections_intent xs s : intent_wf s → intent_wf (run_sections xs s).
Proof. revert s. induction xs as [|x xs IH]; intros s Hs; simpl; [done|]. by apply IH, run_section_intent. Qed.

(** C34: no orphaned freeze: in every state the service can reach, a READY model
    whose admission is blocked is named by the current switch intent, so a
    cancelled, expired or completed switch never leaves a model frozen. *)
Theorem no_orphaned_freeze xs s m r :
  intent_wf s → runtime (book (run_sections xs s)) !! m = Some r → state r = READY → admission_blocked r = true →
  ∃ i, switch_intent (run_sections xs s) = Some i ∧ m ∈ si_frozen_models i.
Proof.
  intros Hs Hr Hst Hb. apply (iw_owned _ (run_sections_intent xs s Hs)). by exists r.
Qed.
End keep.
