(* ===== verification/SchedulerProps.v ===== *)
(** * Guarantees of the scheduler

    What the handlers of [model_scheduler/scheduler.py] promise: invariants and
    budgets in every reachable state, justified and exclusive grants, clean
    exits, fail-closed storage loss, rate-limited cold loads, fenced results and
    evictions that make room. *)

From S2P Require Import Prelude Dict Env Contracts Registry RegistryFacts RegistryProps Eviction Queue Sessions SessionsProps Scheduler SchedulerFacts SchedulerSwitch.
Local Open Scope Z_scope.

(** ** The state after one section *)
Section sections.
Context `{PyEnv, !PyEnvLaws}.
Implicit Types (s : ModelScheduler).

(** [s'] differs from [s] at most in the book and the switch bookkeeping. *)
Definition same_outside_switch s s' : Prop :=
  queue s' = queue s ∧ sessions s' = sessions s ∧ loads s' = loads s ∧ eviction s' = eviction s ∧
  shutting_down s' = shutting_down s ∧ storage_unavailable s' = storage_unavailable s ∧
  session_freeze s' = session_freeze s ∧ session_leases s' = session_leases s ∧
  cold_load_not_before s' = cold_load_not_before s.

Lemma unfreeze_ret s i (f : ModelScheduler → ModelScheduler) :
  intent_wf s → switch_intent s = Some i → (∀ s, book (f s) = book s ∧ switch_intent (f s) = None) →
  (∀ s, same_outside_switch s (f s)) →
  ∃ s', (on_book (unfreeze_switch (si_frozen_models i)) ;; modify f) s = (s', Ret tt) ∧
    intent_wf s' ∧ same_outside_switch s s' ∧ switch_intent s' = None.
Proof.
  intros Hs Hi Hf Hsame. destruct (drop_intent_wf s i f Hs Hi Hf) as [Hw Hr].
  unfold on_book, on_field in *. run_unfold. destruct (unfreeze_switch _ _) as [b' [[]|e]]; [|done]. simpl in *.
  match goal with |- context [f ?s1] => pose proof (Hsame s1) as Hs1; exists (f s1); destruct (Hf s1) as [_ Hn] end.
  split_and!; done.
Qed.

Lemma cancel_intent_ret rq s :
  intent_wf s → ∃ s', cancel_switch_intent rq s = (s', Ret tt) ∧ intent_wf s' ∧ same_outside_switch s s' ∧
    ∀ i, switch_intent s' = Some i → si_request_id i ≠ rq.
Proof.
  intros Hs. unfold cancel_switch_intent. unfold mbind at 1, pym_bind at 1, get.
  destruct (switch_intent s) as [i|] eqn:Hi; [|exists s; split_and!; try done; intros; congruence].
  unfold when. case_bool_decide as Hrq; [|exists s; split_and!; try done; intros; congruence].
  destruct (unfreeze_ret s i (fun s => s <| switch_intent := None |>)) as (s' & -> & ? & ? & Hn); try done.
  exists s'. split_and!; try done. intros; congruence.
Qed.

Lemma expire_intent_ret now s :
  intent_wf s → ∃ s', expire_switch_intent now s = (s', Ret tt) ∧ intent_wf s' ∧ same_outside_switch s s'.
Proof.
  intros Hs. unfold expire_switch_intent. unfold mbind at 1, pym_bind at 1, get.
  destruct (switch_intent s) as [i|] eqn:Hi; [|by exists s]. unfold when. destruct (_ || _); [|by exists s].
  match goal with |- context [modify ?f] =>
    destruct (unfreeze_ret s i f) as (s' & -> & ? & ? & _); try done end. by exists s'.
Qed.

(** Everything a grant has established. *)
Lemma poll_granted m rq dl sid adm sm now s s' l :
  intent_wf s → queue_wf (queue s) → acquire_poll m rq dl sid adm sm now s = (s', Ret (Granted l)) →
  ∃ s1 q1 it, expire_switch_intent now s = (s1, Ret tt) ∧ intent_wf s1 ∧ same_outside_switch s s1 ∧
    shutting_down s = false ∧ storage_unavailable s = false ∧ now < dl ∧
    q_head now (cold_request_eligible s1 now) None (queue s) = (q1, Ret (Some it)) ∧ q_request_id it = rq ∧
    adm = true ∧ can_admit_ready (book s1) m sm now = Ret true ∧
    acquire_ready m rq now (book s1) = (book s', Ret l) ∧
    queue s' = (q_remove rq CLAIMED q1).1.
Proof.
  intros Hs Hq. destruct (expire_intent_ret now s Hs) as (s1 & He & Hs1 & Hsame).
  pose proof Hsame as (Hqq & _ & _ & _ & Hsd & Hsu & _ & _ & _).
  unfold acquire_poll. intros Hx. inv_ret Hx. rewrite He in H1. injection H1 as <- <-. inv_ret Hx.
  rewrite Hsd, Hsu in Hx. destruct (shutting_down s); [done|]. destruct (storage_unavailable s); [done|].
  destruct ((dl <=? now) || _) eqn:Hd; [by inv_ret Hx|]. inv_ret Hx. rewrite Hqq in H1.
  destruct (negb a) eqn:Ha; [done|]. inv_ret Hx. rewrite except_conflict_ret in H2.
  destruct H2 as [Hg|(s2 & msg & _ & Hno)].
  2:{ unfold mret, pym_ret in Hno. simplify_eq. inv_ret Hx. inv_ret Hx. by case_bool_decide. }
  inv_ret Hg. destruct (negb adm || negb _) eqn:Hok; [done|]. inv_ret Hg. simpl in *.
  unfold mret, pym_ret in Hg. simplify_eq. bool_prop. subst.
  inv_ret Hx. inv_ret Hx. unfold mret, pym_ret in Hx. simplify_eq. simpl in *.
  unfold q_is_head in H1. apply bind_returns in H1 as ([it|] & q1 & Hh & Hr); [|done].
  unfold mret, pym_ret in Hr. simplify_eq. bool_prop. exists s1, q, it. split_and!; try done.
  - destruct sid; [unfold note_session_lease, modify in *|unfold mret, pym_ret in *]; by simplify_eq.
  - destruct sid; [unfold note_session_lease, modify in *|unfold mret, pym_ret in *]; simplify_eq/=; by rewrite H4.
Qed.
End sections.

(** ** Aborting every lease *)
Section abort.
Context `{PyEnv, !PyEnvLaws}.
Implicit Types (b : Book) (s : ModelScheduler).

(** [s'] differs from [s] only in the book. *)
Definition only_book s s' : Prop := s' = s <| book := book s' |>.

Lemma only_book_refl s : only_book s s.
Proof. unfold only_book. by destruct s. Qed.
Lemma only_book_trans s1 s2 s3 : only_book s1 s2 → only_book s2 s3 → only_book s1 s3.
Proof. unfold only_book. intros -> ->. done. Qed.
Lemma only_book_set s b : only_book s (s <| book := b |>).
Proof. done. Qed.

(** Aborting some leases of one model leaves the others where they are. *)
Lemma abort_model_leases m now ls s r :
  book_wf (book s) → runtime (book s) !! m = Some r → (∀ l, l ∈ ls → lease_model_id l = m) →
  ∃ s' r', for_each ls (fun l => on_book (release l ABORTED now None) ;; mret tt) s = (s', Ret tt) ∧
    only_book s s' ∧ book_wf (book s') ∧ recovering (book s') = recovering (book s) ∧
    runtime (book s') !! m = Some r' ∧
    (∀ k l, leases r' !! k = Some l → leases r !! k = Some l ∧ l ∉ ls) ∧
    (∀ m', m' ≠ m → runtime (book s') !! m' = runtime (book s) !! m').
Proof.
  revert s r. induction ls as [|l ls IH]; intros s r Hb Hr Hls; simpl.
  { exists s, r. split_and!; try done; [apply only_book_refl|]. intros k l Hk. split; [done|apply not_elem_of_nil]. }
  assert (lease_model_id l = m) as Hm by (apply Hls; constructor).
  pose proof (exec_wf (CRelease l ABORTED now None) (book s) Hb) as Hw. simpl in Hw.
  rewrite release_eval, Hm, Hr in Hw.
  assert (∃ b1 r1, release l ABORTED now None (book s) = (b1, Ret (negb (lease_mismatch r l))) ∧ book_wf b1 ∧
    recovering b1 = recovering (book s) ∧ runtime b1 !! m = Some r1 ∧
    (∀ k l', leases r1 !! k = Some l' → leases r !! k = Some l' ∧ l' ≠ l) ∧
    (∀ m', m' ≠ m → runtime b1 !! m' = runtime (book s) !! m')) as (b1 & r1 & Hrel & Hb1 & Hrec1 & Hr1 & Hl1 & Ho1).
  { rewrite release_eval, Hm, Hr. open_runtime Hb. destruct (lease_mismatch r l) eqn:Hmm; simpl in *.
    - exists (book s), r. split_and!; try done. intros k l' Hk. split; [done|]. intros ->.
      destruct (rw_lease _ _ _ _ Hw0 k l Hk) as (Hid & _ & Hg). subst k.
      apply not_false_iff_true in Hmm. apply Hmm, lease_mismatch_false. done.
    - eexists _, (released_runtime (book s) r l ABORTED now None). split_and!; try done.
      + simpl. apply dict_lookup_insert_eq.
      + intros k l'. rewrite released_runtime_leases, dict_lookup_delete.
        destruct (decide (lease_id l = k)) as [|Hne]; [done|]. intros Hk. split; [done|]. intros ->.
        by destruct (rw_lease _ _ _ _ Hw0 k l Hk).
      + intros m' Hm'. simpl. by rewrite dict_lookup_insert_ne. }
  unfold mbind, pym_bind, on_book at 1, on_field at 1. rewrite Hrel. simpl.
  destruct (IH (s <| book := b1 |>) r1) as (s' & r' & Hf & Hoo & Hb' & Hrec' & Hr' & Hl' & Ho'); try done.
  { intros l' Hl'. apply Hls. by constructor. }
  exists s', r'. unfold mbind, pym_bind in Hf. split_and!; try done.
  - simpl in *. congruence.
  - intros k l' Hk. destruct (Hl' k l' Hk) as [Hk1 Hn]. destruct (Hl1 k l' Hk1) as [? ?]. split; [done|].
    by intros [?|?]%elem_of_cons.
  - intros m' Hm'. rewrite Ho' by done. simpl. by apply Ho1.
Qed.

Definition abort_model (now : time) (m : string) : pym ModelScheduler unit :=
  r ← ask_book (fun b => runtime_of b m);
  for_each (values (leases r)) (fun l => on_book (release l ABORTED now None) ;; mret tt).

Lemma abort_models_ret now ks : ∀ s,
  book_wf (book s) → (∀ k, k ∈ ks → is_Some (runtime (book s) !! k)) →
  ∃ s', for_each ks (abort_model now) s = (s', Ret tt) ∧
    only_book s s' ∧ book_wf (book s') ∧ recovering (book s') = recovering (book s) ∧
    (∀ y, is_Some (runtime (book s') !! y) ↔ is_Some (runtime (book s) !! y)) ∧
    (∀ m r, runtime (book s') !! m = Some r → m ∈ ks → dlen (leases r) = 0) ∧
    (∀ m, m ∉ ks → runtime (book s') !! m = runtime (book s) !! m).
Proof.
  induction ks as [|k ks IH]; intros s Hb Hall; simpl.
  { exists s. split_and!; try done; [apply only_book_refl|]. by intros ? ? ? ?%not_elem_of_nil. }
  destruct (Hall k) as [r Hr]; [constructor|]. open_runtime Hb.
  destruct (abort_model_leases k now (values (leases r)) s r Hb Hr) as
    (s1 & r1 & Hf & Ho1 & Hb1 & Hrec1 & Hr1 & Hl1 & Hot1).
  { intros l [k' Hk']%elem_of_values. apply entries_lookup in Hk'; [|apply (rw_lease_nodup _ _ _ _ Hw)].
    by destruct (rw_lease _ _ _ _ Hw k' l Hk') as (_ & ? & _). }
  assert (abort_model now k s = (s1, Ret tt)) as Hm.
  { unfold abort_model. unfold mbind at 1, pym_bind at 1, ask_book. run_unfold. unfold runtime_of, of_option.
    rewrite Hr. exact Hf. }
  assert (∀ y, is_Some (runtime (book s1) !! y) ↔ is_Some (runtime (book s) !! y)) as Hkn.
  { intros y. destruct (decide (y = k)) as [->|Hy]; [rewrite Hr, Hr1; by split; eauto|by rewrite Hot1]. }
  destruct (IH s1 Hb1) as (s' & Hf' & Ho' & Hb' & Hrec' & Hk' & Hl' & Hot').
  { intros y Hy. apply Hkn, Hall. by constructor. }
  exists s'. unfold mbind, pym_bind. rewrite Hm.
  split_and!; [done|by eapply only_book_trans|done|congruence|by intros y; rewrite Hk', Hkn| |].
  - intros m r2 Hr2 Hmk. destruct (decide (m ∈ ks)) as [?|Hn]; [by eapply Hl'|].
    apply elem_of_cons in Hmk as [->|?]; [|done]. rewrite Hot', Hr1 in Hr2 by done. injection Hr2 as <-.
    apply dlen_empty_iff. intros k'. destruct (leases r1 !! k') as [l|] eqn:Hk2; [|done]. exfalso.
    destruct (Hl1 k' l Hk2) as [Hk3 Hn2]. apply Hn2. unfold values. apply list_elem_of_fmap.
    exists (k', l). split; [done|]. by apply lookup_entries.
  - intros m Hmk. rewrite not_elem_of_cons in Hmk. destruct Hmk. by rewrite Hot', Hot1.
Qed.

(** After the whole sweep no model holds a lease. *)
Lemma abort_all_ret now s :
  book_wf (book s) →
  ∃ s', abort_all_leases now s = (s', Ret tt) ∧ only_book s s' ∧ book_wf (book s') ∧
    recovering (book s') = recovering (book s) ∧
    ∀ m r, runtime (book s') !! m = Some r → dlen (leases r) = 0.
Proof.
  intros Hb. destruct (abort_models_ret now (keys (runtime (book s))) s Hb) as
    (s' & Hf & Ho & Hb' & Hrec & Hk & Hl & _); [by intros k; rewrite elem_of_keys|].
  exists s'. split_and!; [exact Hf|done..|]. intros m r Hr. apply (Hl m r Hr). rewrite elem_of_keys. apply Hk. eauto.
Qed.
End abort.

(** ** Stop batches that are proven *)
Section stops.
Context `{PyEnv, !PyEnvLaws}.
Implicit Types (b : Book) (s : ModelScheduler).

Definition reserved_by b (m : string) : Z :=
  match runtime b !! m with Some r => reservation r | None => 0 end.
Definition reserved_sum b (ms : list string) : Z := foldr (fun m n => reserved_by b m + n) 0 ms.

(** The token is current and its model is stopping. *)
Definition stopping b (op : Operation) : Prop :=
  ∃ r, operation_runtime b op = Ret r ∧ state r = EVICTING ∧ dlen (leases r) = 0.

Lemma stopped_ret b op now :
  stopping b op →
  ∃ b' r', stopped op now b = (b', Ret tt) ∧ b' = put_runtime (op_model_id op) r' b ∧
    state r' = UNLOADED ∧ reservation r' = 0.
Proof.
  intros (r & Hr & Hst & Hl). unfold stopped, set_runtime, no_leases. run_unfold. rewrite Hr, Hst, Hl. simpl.
  eexists _, _. done.
Qed.

Lemma stopping_put b m r' op : op_model_id op ≠ m → stopping b op → stopping (put_runtime m r' b) op.
Proof.
  intros Hne (r & (Hr & Hrest)%operation_runtime_ret & Hst). exists r. split; [|done].
  apply operation_runtime_ret. simpl. by rewrite dict_lookup_insert_ne.
Qed.

Lemma committed_put b m r r' :
  runtime b !! m = Some r → committed (put_runtime m r' b) = committed b - reservation r + reservation r'.
Proof. intros Hr. unfold committed. simpl. by rewrite (dsum_insert _ _ _ _ _ Hr). Qed.

Lemma evicted_stopping b b' ms auto ops op :
  book_wf b → begin_eviction ms auto b = (b', Ret ops) → op ∈ ops → stopping b' op.
Proof.
  intros Hb Hev Hop. destruct (begin_eviction_tokens b b' ms auto ops op Hev Hop) as [r Hr]. exists r. split; [done|].
  apply begin_eviction_ret in Hev as (Hnd & Hids & Hc & Hall & Hlk).
  assert (op_model_id op ∈ ms) as Hm by (rewrite <-Hids; apply list_elem_of_fmap; eauto).
  pose proof (Hc _ Hm) as (r0 & e & Hr0 & _ & _ & Hl0 & _)%eviction_check_ret.
  destruct (Hlk _ r0 Hr0) as (r' & Hr' & Hs). rewrite decide_True in Hs by done. destruct Hs as [i ->].
  apply operation_runtime_ret in Hr as (Hr & _). rewrite Hr' in Hr. by simplify_eq.
Qed.

(** READY models hold their registered reservation; an eviction does not change it. *)
Lemma evicted_reserved b b' ms auto ops :
  book_wf b → begin_eviction ms auto b = (b', Ret ops) →
  committed b' = committed b ∧ reserved_sum b' ms = reserved_sum b ms.
Proof.
  intros Hb Hev. pose proof Hev as (_ & _ & _ & _ & Hlk)%begin_eviction_ret.
  pose proof (exec_runtime_keys (CEvict ms auto) b Hb) as Hk. unfold exec in Hk. rewrite Hev in Hk. simpl in Hk.
  assert (∀ m r r', runtime b !! m = Some r → runtime b' !! m = Some r' → reservation r' = reservation r) as Hsame.
  { intros m r r' Hr Hr'. destruct (Hlk m r Hr) as (r1 & Hr1 & Hs). rewrite Hr' in Hr1. injection Hr1 as <-.
    destruct (decide (m ∈ ms)); [|by subst]. by destruct Hs as [i ->]. }
  split.
  - unfold committed. apply Z.le_antisymm; apply dsum_le_keys; try done; try (apply (bw_nodup b Hb)).
    + unfold dict_nodup. rewrite Hk. apply (bw_nodup b Hb).
    + intros m r1 r2 H1 H2. rewrite (Hsame m r2 r1); [lia|done..].
    + intros m r1 r2 H1 H2. rewrite (Hsame m r1 r2); [lia|done..].
  - assert (∀ m, reserved_by b' m = reserved_by b m) as Hby.
    { intros m. unfold reserved_by. destruct (runtime b !! m) as [r|] eqn:Hr.
      - destruct (Hlk m r Hr) as (r' & Hr' & _). rewrite Hr'. by eapply Hsame.
      - destruct (runtime b' !! m) eqn:Hr'; [|done]. exfalso.
        assert (m ∈ keys (runtime b)) as Hm by (rewrite <-Hk, elem_of_keys; eauto).
        rewrite elem_of_keys, Hr in Hm. by destruct Hm. }
    clear -Hby. induction ms as [|m ms IH]; [done|]. simpl. by rewrite Hby, IH.
Qed.
End stops.

(** ** Facts the guarantees use *)
Section facts.
Context `{PyEnv, !PyEnvLaws}.
Implicit Types (b : Book) (s : ModelScheduler).

Lemma acquired_lease b m rq now l b' :
  book_wf b → acquire_ready m rq now b = (b', Ret l) →
  ∃ e r', ledger b !! m = Some e ∧ runtime b' !! m = Some r' ∧ state r' = READY ∧
    leases r' !! lease_id l = Some l ∧ lease_request_id l = rq ∧ dlen (leases r') ≤ led_max_concurrency e.
Proof.
  intros Hb (r & e & (Hr & He & _ & Hst & _ & Hcap & _) & Hl & ->)%acquire_ready_ret.
  exists e, (leased_runtime b r l now). split_and!; try done.
  - apply dict_lookup_insert_eq.
  - simpl. apply dict_lookup_insert_eq.
  - by rewrite Hl.
  - simpl. pose proof (dlen_insert_le (leases r) (lease_id l) l). lia.
Qed.

Lemma expire_budget now s : model_budget (book (expire_switch_intent now s).1) = model_budget (book s).
Proof.
  unfold expire_switch_intent. run_unfold. destruct (switch_intent s) as [i|]; [|done]. unfold when.
  destruct (_ || _); [|done]. unfold on_book, on_field.
  pose proof (exec_extends (CUnfreeze (si_frozen_models i)) (book s)) as [(_ & _ & Hb & _) _]. simpl in Hb.
  destruct (unfreeze_switch _ _) as [b' [[]|e]]; done.
Qed.

Lemma unfreeze_settings b0 ms : preserves (fun b => ledger b = ledger b0 ∧ max_sample_age b = max_sample_age b0 ∧ free_floor b = free_floor b0 ∧ recovering b = recovering b0)
  (unfreeze_switch ms).
Proof.
  apply preserves_for_each. intros m b Hb. unfold unfreeze_one, set_runtime. run_unfold. destruct (runtime_of b m) as [r|e]; [|done].
  destruct (_ && _); done.
Qed.
Lemma expire_settings now s : let b' := book (expire_switch_intent now s).1 in
  ledger b' = ledger (book s) ∧ max_sample_age b' = max_sample_age (book s) ∧ free_floor b' = free_floor (book s) ∧ recovering b' = recovering (book s).
Proof.
  unfold expire_switch_intent. run_unfold. destruct (switch_intent s) as [i|]; [|done]. unfold when.
  destruct (_ || _); [|done]. unfold on_book, on_field. pose proof (unfreeze_settings (book s) (si_frozen_models i) (book s)) as Hu.
  destruct (unfreeze_switch _ _) as [b' [[]|e]]; by apply Hu.
Qed.
(** What [can_admit_ready] has seen when it says yes. *)
Lemma can_admit_true b m sm now : can_admit_ready b m sm now = Ret true →
  ∃ r e, runtime b !! m = Some r ∧ ledger b !! m = Some e ∧ recovering b = false ∧ state r = READY ∧ admission_blocked r = false ∧
    dlen (leases r) < led_max_concurrency e ∧ 0 ≤ now - sampled_at sm ≤ max_sample_age b ∧ 0 ≤ available_bytes sm ≤ total_bytes sm ∧
    free_floor b ≤ available_bytes sm.
Proof.
  unfold can_admit_ready, runtime_of, ledger_spec, sample_valid. run_unfold. destruct (runtime b !! m) as [r|]; [|done].
  destruct (ledger b !! m) as [e|]; [|done]. intros [= Hx]. bool_prop. exists r, e. split_and!; done || lia.
Qed.

Lemma removed_not_contained rq st q : q_contains (q_remove rq st q).1 rq = false.
Proof.
  unfold q_contains. apply mem_false. unfold q_remove. run_unfold.
  destruct (q_items q !! rq) eqn:E; [|done]. simpl. apply dict_lookup_delete_eq.
Qed.

Lemma leave_clean rq s :
  intent_wf s → ∃ s', acquire_leave rq s = (s', Ret tt) ∧ q_contains (queue s') rq = false ∧
    (∀ i, switch_intent s' = Some i → si_request_id i ≠ rq) ∧ intent_wf s'.
Proof.
  intros Hs. unfold acquire_leave, mbind, pym_bind.
  pose proof (intent_on_field queue (fun q s => s <| queue := q |>) (q_remove rq CANCELLED) ltac:(done) s Hs) as Hs1.
  pose proof (removed_not_contained rq CANCELLED (queue s)) as Hn. unfold on_queue, on_field in *.
  assert (∃ o, (q_remove rq CANCELLED (queue s)).2 = Ret o) as [o Ho].
  { unfold q_remove. run_unfold. destruct (_ !! rq); simpl; eauto. }
  destruct (q_remove rq CANCELLED (queue s)) as [q1 r1]. simpl in *. subst r1.
  destruct (cancel_intent_ret rq _ Hs1) as (s' & -> & Hw & (Hq & _) & Hi). exists s'.
  split_and!; try done. by rewrite Hq.
Qed.

Lemma expire_keeps_storage now v :
  preserves (fun s => storage_unavailable s = v) (expire_switch_intent now).
Proof.
  intros s Hs. unfold expire_switch_intent. run_unfold. destruct (switch_intent s) as [i|]; [|done].
  unfold when. destruct (_ || _); [|done]. unfold on_book, on_field. by destruct (unfreeze_switch _ _) as [b' [[]|e]].
Qed.

Lemma poll_closed m rq dl sid adm sm now s s'' p :
  storage_unavailable s = true → acquire_poll m rq dl sid adm sm now s ≠ (s'', Ret p).
Proof.
  intros Hu Hx. unfold acquire_poll in Hx. inv_ret Hx. inv_ret Hx.
  pose proof (expire_keeps_storage now true s Hu) as Hk. rewrite H1 in Hk. simpl in Hk.
  rewrite Hk in Hx. by destruct (shutting_down _).
Qed.

(** The storage-loss state: marked, nothing queued, nothing leased. *)
Definition no_lease b : Prop := ∀ m r, runtime b !! m = Some r → dlen (leases r) = 0.
Definition closed_down s : Prop :=
  storage_unavailable s = true ∧ q_size (queue s) = 0 ∧ book_wf (book s) ∧ no_lease (book s).

Lemma start_stop_no_lease m : preserves no_lease (start_stop m).
Proof.
  intros b Hb. rewrite start_stop_eval. destruct (runtime b !! m) as [r|] eqn:Hr; [|done].
  intros m' r'. simpl. rewrite dict_lookup_insert. destruct (decide (m = m')); [|apply Hb].
  intros [= <-]. simpl. by eapply Hb.
Qed.

Lemma begin_cleanup_no_lease ms : preserves no_lease (begin_cleanup ms).
Proof.
  unfold begin_cleanup. apply preserves_bind; [apply preserves_get|intros b].
  destruct (bad_batch b ms); [apply preserves_raise|]. apply preserves_bind; [apply preserves_lift|intros _].
  apply preserves_map_each, start_stop_no_lease.
Qed.

Lemma stop_everything_closed dl : preserves closed_down (stop_everything dl).
Proof.
  intros s (Hu & Hq & Hb & Hl). unfold stop_everything. run_unfold. destruct (eviction s); [done|].
  destruct (cleanup_targets (book s)) as [|t ts]; [done|]. unfold on_book, on_field, start_eviction. run_unfold.
  pose proof (begin_cleanup_wf (t :: ts) (book s) Hb) as Hb'.
  pose proof (begin_cleanup_no_lease (t :: ts) (book s) Hl) as Hl'.
  destruct (begin_cleanup (t :: ts) (book s)) as [b' [ops|e]]; done.
Qed.

Lemma storage_lost_state dl now s s' res :
  book_wf (book s) → storage_unavailable s = false → storage_lost dl now s = (s', res) →
  storage_unavailable s' = true ∧ q_size (queue s') = 0 ∧ has_leases (book s') = false.
Proof.
  intros Hb Hsu Hx. unfold storage_lost in Hx. run_unfold. rewrite Hsu in Hx.
  unfold on_queue, on_field, q_clear in Hx. run_unfold. cbn zeta beta iota in Hx.
  match type of Hx with context [abort_all_leases now ?t] =>
    destruct (abort_all_ret now t Hb) as (s2 & Ha & Ho & Hb2 & _ & Hl2); rewrite Ha in Hx end.
  assert (closed_down s') as (Hu & Hq & Hb' & Hl).
  { change s' with (s', res).1. rewrite <-Hx. apply stop_everything_closed. rewrite Ho. done. }
  split_and!; try done. unfold has_leases. apply dany_false; [apply (bw_nodup _ Hb')|].
  intros m r Hr. unfold no_leases. by rewrite (Hl m r Hr).
Qed.

Lemma record_cold_load_spec now s : ∃ dropped succ,
  switch_successes s ++ [now] = dropped ++ succ ∧ Forall (fun t => switch_window_seconds s < now - t) dropped ∧
  (record_cold_load now s).1 =
    match succ with
    | t :: _ => if max_switches_in_window s <=? Z.of_nat (length succ)
                then s <| switch_successes := succ |>
                       <| cold_load_not_before := Z.max (Z.max (cold_load_not_before s) (now + cooldown_seconds s))
                                                        (t + switch_window_seconds s) |>
                else s <| switch_successes := succ |>
    | [] => s <| switch_successes := succ |>
    end.
Proof.
  unfold record_cold_load, modify. set (drop := fix drop (l : list Z) : list Z := _).
  assert (∀ l, ∃ pre, l = pre ++ drop l ∧ Forall (fun t => switch_window_seconds s < now - t) pre) as Hdrop.
  { induction l as [|t l (pre & Hl & Hp)]; [by exists []|]. simpl.
    destruct (switch_window_seconds s <? now - t) eqn:Ht; [|by exists []].
    exists (t :: pre). bool_prop. split; [by rewrite Hl at 1|by constructor]. }
  destruct (Hdrop (switch_successes s ++ [now])) as (pre & Heq & Hpre).
  exists pre, (drop (switch_successes s ++ [now])). split_and!; try done.
Qed.

Lemma cold_load_book now s : book (record_cold_load now s).1 = book s ∧ (record_cold_load now s).2 = Ret tt.
Proof.
  destruct (record_cold_load_spec now s) as (d & succ & _ & _ & ->). split; [|done].
  destruct succ; [done|]. by case_match.
Qed.

(** What the policy counts as freed is what the book has reserved. *)
Lemma chosen_reserved b sel now :
  book_wf b → (∀ c, c ∈ sel → eligible b false now c) → reserved_sum b (cand_model_id <$> sel) = freed sel.
Proof.
  intros Hb. induction sel as [|c sel IH]; intros Hel; [done|]. csimpl.
  rewrite IH by (intros; apply Hel; by constructor).
  destruct (Hel c) as (sp & r & _ & Hr & Hst & _ & _ & _ & _ & (e & He & Hq)%required_ret & _); [constructor|].
  unfold reserved_by. rewrite Hr. pose proof (rw_reservation _ _ _ _ (bw_runtime b Hb _ r e Hr He)) as Hres.
  rewrite Hst in Hres. simpl in Hres. lia.
Qed.
End facts.

(** ** Guarantees *)
Section guarantees.
Context `{PyEnv, !PyEnvLaws}.
Implicit Types (b : Book) (s : ModelScheduler).

Definition sched_wf s : Prop := parts (B:=book_wf) (Q:=queue_wf) (M:=session_wf) s.

Lemma in_flight_wf x k n : session_wf x → session_wf (x <| in_flight ::= <[k := n]> |>).
Proof.
  intros [Hnd Hrec Hact Hak Hin Hcap Hpol]. split; simpl; try done. intros k' Hk'. rewrite dict_lookup_insert.
  destruct (decide (_ = k')); [done|by apply Hin].
Qed.

Lemma sched_wf_keeps : part_invariant book_wf queue_wf session_wf.
Proof.
  split; [intros; by apply exec_wf|intros; by apply q_exec_wf|intros; by apply s_exec_wf|apply in_flight_wf].
Qed.

(** C4: the system invariant: whatever critical sections run, in whatever order
    and with whatever arguments, the book, the queue and the sessions stay well
    formed, and a service within its model budget never leaves it. *)
Theorem scheduler_invariant xs s :
  sched_wf s →
  sched_wf (run_sections xs s) ∧
  model_budget (book (run_sections xs s)) = model_budget (book s) ∧
  (committed (book s) ≤ model_budget (book s) → committed (book (run_sections xs s)) ≤ model_budget (book s)).
Proof.
  intros Hs. split; [by apply (run_sections_parts sched_wf_keeps)|].
  set (n := model_budget (book s)). set (within := committed (book s) ≤ n).
  assert (part_invariant (fun b => book_wf b ∧ model_budget b = n ∧ (within → committed b ≤ n))
            (fun _ => True) (fun _ => True)) as HI.
  { split; try done. intros c b (Hb & Hn & Hc). split_and!; [by apply exec_wf| |].
    - by destruct (exec_extends c b) as [(_ & _ & -> & _) _].
    - intros Hw. pose proof (committed_exec c b Hb). specialize (Hc Hw). lia. }
  destruct (run_sections_parts HI xs s) as ((_ & ? & ?) & _ & _); [|done].
  split_and!; try done. apply Hs.
Qed.

(** C5: a grant is justified: [acquire] hands out a lease only while the
    service is open and before the deadline, to the best ranked eligible waiter,
    on an admitted sample that is no older than the book's limit (nor from the
    future) and leaves the book's free floor available, for a READY model that is
    neither frozen nor recovering and has a free slot of its registered
    concurrency; the lease is then in the book and the waiter is gone. *)
Theorem grant_is_justified m rq dl sid adm sm now s s' l :
  intent_wf s → queue_wf (queue s) → acquire_poll m rq dl sid adm sm now s = (s', Ret (Granted l)) →
  adm = true ∧ shutting_down s = false ∧ storage_unavailable s = false ∧ now < dl ∧
  0 ≤ now - sampled_at sm ≤ max_sample_age (book s) ∧ free_floor (book s) ≤ available_bytes sm ≤ total_bytes sm ∧
  (∃ s1 it r e r', expire_switch_intent now s = (s1, Ret tt) ∧ q_request_id it = rq ∧
     waits (queue s) now (cold_request_eligible s1 now) None it ∧
     (∀ it', waits (queue s) now (cold_request_eligible s1 now) None it' → ranked (queue s) now it it') ∧
     ledger (book s) !! m = Some e ∧ recovering (book s) = false ∧
     runtime (book s1) !! m = Some r ∧ state r = READY ∧ admission_blocked r = false ∧ dlen (leases r) < led_max_concurrency e ∧
     runtime (book s') !! m = Some r' ∧ state r' = READY ∧ leases r' !! lease_id l = Some l ∧
     lease_request_id l = rq ∧ dlen (leases r') ≤ led_max_concurrency e) ∧
  q_contains (queue s') rq = false.
Proof.
  intros Hs Hq Hp. destruct (poll_granted m rq dl sid adm sm now s s' l Hs Hq Hp) as
    (s1 & q1 & it & He & Hs1 & Hsame & Hsd & Hsu & Hdl & Hh & Hrq & Hadm & Hc & Ha & Hq').
  destruct (q_head_ret _ _ _ _ _ _ Hq Hh) as [_ [Hw Hle]].
  pose proof (acquired_lease (book s1) m rq now l (book s') (iw_book _ Hs1) Ha) as (e & r' & Hled & Hr' & Hst & Hl & Hlr & Hcap).
  pose proof (expire_settings now s) as Hset. rewrite He in Hset. cbn in Hset. destruct Hset as (Hsl & Hsa & Hsf & Hsr).
  destruct (can_admit_true _ _ _ _ Hc) as (r & e' & Hr & Hled' & Hrec & Hready & Hopen & Hslot & Hage & Havail & Hfloor).
  assert (e' = e) as -> by congruence. rewrite Hsa in Hage. rewrite Hsf in Hfloor. rewrite Hsr in Hrec. rewrite Hsl in Hled.
  split_and!; try done; [lia..|exists s1, it, r, e, r'; split_and!; done|]. rewrite Hq'. apply removed_not_contained.
Qed.

(** ** The freeze of a session *)
Lemma prepare_freezes sid t s s0 plan : prepare_begin sid t s = (s0, Ret (Some plan)) → session_freeze s0 = Some sid.
Proof. unfold prepare_begin. run_unfold. destruct (s_get (sessions s) sid) as [r|]; [|done]. destruct (negb _); [done|]. by intros [= <- _]. Qed.

(** The sections that may give an exclusive turn back. *)
Definition keeps_turn (x : section) : Prop :=
  match x with
  | XShutdownBegin _ | XExpire _ _ | XPrepareYield _ _ | XPrepareAbandon _ _ => False
  | XDrainEnd _ confirmed _ => confirmed = false
  | _ => True
  end.
Definition frozen s : Prop := is_Some (session_freeze s).
Lemma frozen_modify (f : ModelScheduler → ModelScheduler) :
  (∀ s, session_freeze (f s) = session_freeze s ∨ is_Some (session_freeze (f s))) → preserves frozen (modify f).
Proof. intros Hf s Hs. unfold frozen. simpl. by destruct (Hf s) as [->|?]. Qed.
Lemma frozen_on_field {T A} (proj : ModelScheduler → T) put (m : pym T A) :
  (∀ t s, session_freeze (put t s) = session_freeze s) → preserves frozen (on_field proj put m).
Proof. intros Hp s Hs. unfold on_field, frozen. destruct (m (proj s)) as [t o]. simpl. by rewrite Hp. Qed.
Ltac frozen_leaf := idtac;
  match goal with
  | |- preserves _ (on_book _) => apply frozen_on_field; done
  | |- preserves _ (on_queue _) => apply frozen_on_field; done
  | |- preserves _ (on_sessions _) => apply frozen_on_field; done
  | |- preserves _ (on_sessions_queue _) => apply frozen_on_field; done
  | |- preserves _ (modify _) => apply frozen_modify; intros ?; repeat case_match; first [left; done|right; done]
  end.
Lemma run_section_frozen x s : keeps_turn x → frozen s → frozen (run_section x s).
Proof.
  intros Hx Hs. destruct x; try done; unfold run_section; match goal with |- frozen (?m s).1 =>
      refine ((_ : preserves frozen m) s Hs) end;
    unfold acquire_enter, acquire_poll, acquire_commit, acquire_leave, finish_load_result, finish_load_done,
      recovery_wait, recovery_task_done, recover_begin, recover_finish, finish_eviction_step, run_eviction_done,
      release_lease, cancel_lease, preload_inspect, preload_commit, preload_evict, reclaim_failed_begin,
      reclaim_phantom, reclaim_lost, shutdown_stop, storage_lost, storage_recovered_end,
      unload_begin, sweep_ttl, register_session, heartbeat_session, close_session_begin, next_session_plan,
      prepare_begin, prepare_blocked, prepare_activate,
      drain_session_end, stop_models_begin, session_worker_done, record_cold_load, may_recover, start_recovery,
      rollback_pending, abort_all_leases, stop_everything, start_load, start_eviction, ensure_session_worker,
      note_session_lease, forget_session_lease, establish_or_advance_switch, establish_intent, expire_switch_intent,
      cancel_switch_intent, start_eviction, start_load; try (simpl in Hx; subst confirmed); walk_with frozen_leaf.
Qed.
Lemma run_sections_frozen xs s : Forall keeps_turn xs → frozen s → frozen (run_sections xs s).
Proof. intros Hx. revert s. induction Hx as [|x xs Hk _ IH]; intros s Hs; simpl; [done|]. by apply IH, run_section_frozen. Qed.

(** C6: exclusive sessions: from the section in which a session's preparation
    begins, through any sections of the service, until one runs that ends or
    yields a session's turn (its yield, abandonment, expiry, confirmed drain, or
    the shutdown), an interactive request neither enters the queue nor, already
    queued, gets a lease. *)
Theorem session_exclusive sid t plan s s0 xs m rq dl adm sm now :
  intent_wf s → sched_wf s → prepare_begin sid t s = (s0, Ret (Some plan)) → Forall keeps_turn xs →
  let s1 := run_sections xs s0 in
  (∃ e, acquire_enter m rq dl None now s1 = (s1, Raise e)) ∧
  (∀ it sid' s' l, q_items (queue s1) !! rq = Some it → q_kind it = INTERACTIVE →
     acquire_poll m rq dl sid' adm sm now s1 ≠ (s', Ret (Granted l))).
Proof.
  intros Hs Hw Hbegin Hxs s1.
  assert (s0 = run_section (XPrepareBegin sid t) s) as Hs0 by (unfold run_section; by rewrite Hbegin).
  assert (intent_wf s1) as Hs1 by (unfold s1; rewrite Hs0; by apply run_sections_intent, run_section_intent).
  assert (queue_wf (queue s1)) as Hq.
  { unfold s1. rewrite Hs0. by apply (run_sections_parts sched_wf_keeps), (run_section_parts sched_wf_keeps). }
  assert (frozen s1) as [f Hf]. { apply run_sections_frozen; [done|]. eexists. by eapply prepare_freezes. }
  clearbody s1. split.
  - unfold acquire_enter. run_unfold. rewrite Hf. destruct (negb _); [eauto|]. destruct (dl <=? now); [eauto|].
    destruct (shutting_down s1); [eauto|]. destruct (storage_unavailable s1); [eauto|]. simpl. run_unfold. eauto.
  - intros it sid' s' l Hit Hk Hp. destruct (poll_granted m rq dl sid' adm sm now s1 s' l Hs1 Hq Hp) as
      (s2 & q1 & it' & _ & _ & Hsame & _ & _ & _ & Hh & Hrq & _).
    destruct (q_head_ret _ _ _ _ _ _ Hq Hh) as [_ [(Hi & _ & He & _) _]]. rewrite Hrq in Hi. simplify_eq.
    destruct Hsame as (_ & _ & _ & _ & _ & _ & Hsf & _). unfold cold_request_eligible in He.
    rewrite Hk, Hsf, Hf in He. by simpl in He.
Qed.

(** Storage loss fails closed: [storage_lost] marks the service, empties
    the queue and takes back every lease; from then on no request can enter the
    queue or be granted, whatever its kind. *)
Theorem storage_lost_fails_closed dl now s s' res :
  book_wf (book s) → storage_unavailable s = false → storage_lost dl now s = (s', res) →
  storage_unavailable s' = true ∧ q_size (queue s') = 0 ∧ has_leases (book s') = false ∧
  (∀ m rq dl sid now, ∃ e, acquire_enter m rq dl sid now s' = (s', Raise e)) ∧
  (∀ m rq dl sid adm sm now s'' p, acquire_poll m rq dl sid adm sm now s' ≠ (s'', Ret p)).
Proof.
  intros Hb Hsu Hx. assert (storage_unavailable s' = true ∧ q_size (queue s') = 0 ∧ has_leases (book s') = false)
    as (Hu & Hsz & Hl) by (by eapply storage_lost_state).
  split_and!; try done.
  - intros m rq dl' sid now'. unfold acquire_enter. run_unfold. rewrite Hu. repeat (case_match; [by eauto|]). eauto.
  - intros m rq dl' sid adm sm now' s'' p Hp. by eapply (poll_closed m rq dl' sid adm sm now' s').
Qed.

(** Cold loads are rate limited: booking a cold load never moves the
    barrier back, and when it completes [max_switches_in_window] loads inside
    the window the barrier is at least [cooldown_seconds] ahead and the window
    of the oldest of them has passed; before the barrier no unloaded model is
    eligible. *)
Theorem cold_loads_rate_limited now s :
  let s' := (record_cold_load now s).1 in
  cold_load_not_before s ≤ cold_load_not_before s' ∧
  (∃ dropped, switch_successes s ++ [now] = dropped ++ switch_successes s' ∧
     Forall (fun t => switch_window_seconds s < now - t) dropped) ∧
  (max_switches_in_window s ≤ Z.of_nat (length (switch_successes s')) → switch_successes s' ≠ [] →
     now + cooldown_seconds s ≤ cold_load_not_before s' ∧
     ∀ t, head (switch_successes s') = Some t → t + switch_window_seconds s ≤ cold_load_not_before s') ∧
  (∀ t it r, runtime (book s') !! q_model_id it = Some r → state r = UNLOADED → t < cold_load_not_before s' →
     cold_request_eligible s' t it = Ret false).
Proof.
  destruct (record_cold_load_spec now s) as (dropped & succ & Heq & Hdrop & Hs'). rewrite Hs'.
  split_and!.
  - destruct succ; [done|]. case_match; simpl; lia.
  - exists dropped. split; [|done]. rewrite Heq. destruct succ; [done|]. by case_match.
  - destruct succ as [|t succ]; [done|]. case_match eqn:Hmax; simpl.
    + intros _ _. split; [lia|]. intros t' [= <-]. lia.
    + bool_prop. intros Hle. simpl in Hmax. lia.
  - intros t it r Hr Hst Ht. unfold cold_request_eligible, runtime_of. run_unfold. rewrite Hr, Hst.
    destruct (bool_decide _ && _); [done|]. by rewrite (proj2 (Z.leb_gt _ _)).
Qed.

(** The result of a load is booked exactly once and only for the current
    operation: a superseded result changes nothing and asks for no recovery; a
    healthy one makes the model READY and open; any other one makes it ERROR and
    closed, and asks for recovery when a recovery port is wired. *)
Theorem load_result_booked op res now s :
  (operation_runtime (book s) op = Raise (StaleOperation (op_operation_id op)) →
     finish_load_result op res now s = (s, Ret false)) ∧
  (∀ r, operation_runtime (book s) op = Ret r → state r = LOADING →
     ∃ s' recover r', finish_load_result op res now s = (s', Ret recover) ∧
       runtime (book s') !! op_model_id op = Some r' ∧ operation_id r' = None ∧
       if match res with Observed o => bool_decide (obs_presence o = P_RUNNING) && obs_healthy o | _ => false end
       then state r' = READY ∧ admission_blocked r' = false ∧ recover = false
       else state r' = ERROR ∧ admission_blocked r' = true ∧
            recover = has_recovery s && negb (recovering (book s))).
Proof.
  split.
  - intros Hst. unfold finish_load_result, except_any, except_stale, catch, on_book, on_field, loaded, failed, when.
    destruct res as [o| |]; [destruct (bool_decide _ && _)|..]; run_unfold; rewrite ?Hst; simpl; rewrite ?Hst;
      by destruct s.
  - intros r Hr Hst.
    assert (∀ code, failed op code (book s) = (put_runtime (op_model_id op) (r <| state := ERROR |>
      <| operation_id := None |> <| admission_blocked := true |> <| last_error := code |>) (book s), Ret tt)) as Hfail.
    { intros code. unfold failed, set_runtime. run_unfold. by rewrite Hr. }
    assert (loaded op now (book s) = (put_runtime (op_model_id op) (r <| state := READY |> <| operation_id := None |>
            <| admission_blocked := false |> <| idle_since := Some now |>) (book s), Ret tt)) as Hload.
    { unfold loaded, set_runtime. run_unfold. by rewrite Hr, Hst. }
    unfold finish_load_result, except_any, except_stale, catch, on_book, on_field, may_recover, when.
    destruct res as [o| |]; run_unfold; [destruct (bool_decide _ && _)|..]; rewrite ?Hload, ?Hfail; cbv beta iota.
    + match goal with |- context [record_cold_load now ?t] => pose proof (cold_load_book now t) as [Hbk Hrt];
        destruct (record_cold_load now t) as [s1 [[]|e]]; [|done] end.
      simpl in Hbk. eexists _, _, _. split_and!; [done|rewrite Hbk; apply dict_lookup_insert_eq|done..].
    + eexists _, _, _. split_and!; [done|apply dict_lookup_insert_eq|done..].
    + eexists _, _, _. split_and!; [done|apply dict_lookup_insert_eq|done..].
    + eexists _, _, _. split_and!; [done|apply dict_lookup_insert_eq|done..].
Qed.

(** A session that is closed while it waits for the leases to drain is not
    yielded: [prepare_yield] raises before it releases the freeze, so the
    freeze stays and every interactive request is still refused. *)
Theorem closed_while_draining_keeps_freeze sid now s r :
  records (sessions s) !! sid = Some r → s_phase r ≠ PREPARING → session_freeze s = Some sid →
  shutting_down s = false → storage_unavailable s = false →
  prepare_yield sid now s = (s, Raise (SessionConflict "session_not_preparing")) ∧
  (∀ m rq dl now', is_Some (specs (book s) !! m) → now' < dl →
     acquire_enter m rq dl None now' s = (s, Raise (Conflict "session_exclusive"))).
Proof.
  intros Hr Hp Hf Hsd Hsu. split.
  - unfold prepare_yield, on_sessions, on_field, s_yield_prepare, s_get, of_option. run_unfold. rewrite Hr.
    rewrite bool_decide_false by done. simpl. by destruct s.
  - intros m rq dl now' Hm Hd. unfold acquire_enter. run_unfold. rewrite (proj2 (mem_true m _)) by done. simpl.
    rewrite (proj2 (Z.leb_gt _ _)) by done. rewrite Hsd, Hsu, Hf. done.
Qed.
End guarantees.

(** ** A concrete service, and the scheduler's guarantees applied to it

    Two models that do not fit together: "a" is loaded and READY, a request for
    "b" freezes, evicts and replaces it. *)
Definition demo_sched (b : Book) : ModelScheduler :=
  {| book := b;
     queue := {| q_capacity := 4; aging_seconds := 30 * second; q_items := ∅; q_counter := 0 |};
     sessions := demo_manager; eviction_policy := demo_policy; has_recovery := true;
     poll_interval_seconds := second; switch_drain_timeout_seconds := 30 * second;
     switch_retry_seconds := 30 * second; switch_window_seconds := 10 * second; max_switches_in_window := 3;
     cooldown_seconds := 15 * second; load_retry_limit := 3; loads := ∅; load_retries := ∅; eviction := None;
     shutting_down := false; storage_unavailable := false; switch_intent := None; next_switch_attempt := ∅;
     switch_successes := []; cold_load_not_before := 0; recovery_running := false; session_worker := false;
     session_leases := ∅; session_freeze := None |}.

Example demo_sched_init b :
  ModelScheduler_init b 4 (30 * second) second 8 (30 * second) (30 * second) (10 * second) 3 (15 * second) 3 true demo_manager
  = Ret (demo_sched b).
Proof. reflexivity. Qed.

Lemma demo_queue_ok : queue_wf (queue (demo_sched demo_ready)).
Proof. apply (queue_wf_init 4 (30 * second)). ground. Qed.
Lemma demo_manager_ok : session_wf demo_manager.
Proof. apply (session_wf_init 2 1800 3600 10 30 900 30 30 60 10 30 5). ground. Qed.

(** No model of [b] is frozen, as a test. *)
Definition none_frozen (b : Book) : bool :=
  negb (dany (fun _ r => bool_decide (state r = READY) && admission_blocked r) (runtime b)).

Lemma demo_intent_wf b : book_wf b → none_frozen b = true → intent_wf (demo_sched b).
Proof.
  intros Hb Hn. split; simpl; [done| |done]. intros m (r & Hr & Hs & Hbl). exfalso.
  unfold none_frozen in Hn. bool_prop. rewrite dany_false in Hn by apply (bw_nodup b Hb).
  specialize (Hn m r Hr). simpl in Hn. rewrite Hbl, bool_decide_true in Hn by done. done.
Qed.

Definition s_ready : ModelScheduler := demo_sched demo_ready.
Lemma s_ready_intent : intent_wf s_ready.
Proof. apply demo_intent_wf; [apply demo_ready_wf|ground]. Qed.

(** A request for "b" arrives and freezes "a" while a lease on "a" is still out. *)
Definition switch_run : list section :=
  [XEnter "a" "r1" (100 * second) None (3 * second);
   XPoll "a" "r1" (100 * second) None true (demo_sample (3 * second)) (3 * second);
   XLeave "r1";
   XEnter "b" "r2" (100 * second) None (4 * second);
   XPoll "b" "r2" (100 * second) None true (demo_sample (4 * second)) (4 * second);
   XCommit "b" "r2" (100 * second) true (demo_sample (4 * second)) (4 * second)].

Example demo_switch_freezes :
  let s := run_sections switch_run s_ready in
  (si_frozen_models <$> switch_intent s, (fun r => (state r, admission_blocked r)) <$> runtime (book s) !! "a") =
  (Some ["a"], Some (READY, true)).
Proof. ground. Qed.

Definition a_frozen : Runtime := match runtime (book (run_sections switch_run s_ready)) !! "a" with
  | Some r => r | None => new_Runtime 0 end.

Lemma no_orphaned_freeze_witness : ∃ i,
  switch_intent (run_sections switch_run s_ready) = Some i ∧ "a" ∈ si_frozen_models i.
Proof.
  apply (no_orphaned_freeze switch_run s_ready "a" a_frozen s_ready_intent); ground.
Defined.

Lemma scheduler_invariant_witness : sched_wf (run_sections switch_run s_ready) ∧
  committed (book (run_sections switch_run s_ready)) ≤ 150.
Proof.
  assert (sched_wf s_ready) as Hs by (split_and!; [apply demo_ready_wf|apply demo_queue_ok|apply demo_manager_ok]).
  destruct (scheduler_invariant switch_run s_ready Hs) as (Hw & _ & Hc). split; [exact Hw|].
  change 150 with (model_budget (book s_ready)). apply Hc. ground.
Defined.

Definition s_queued : ModelScheduler := run_section (XEnter "a" "r1" (100 * second) None (3 * second)) s_ready.
Definition s_granted : ModelScheduler :=
  run_section (XPoll "a" "r1" (100 * second) None true (demo_sample (3 * second)) (3 * second)) s_queued.

Lemma s_queued_intent : intent_wf s_queued.
Proof. apply run_section_intent, s_ready_intent. Qed.
Lemma s_queued_queue : queue_wf (queue s_queued).
Proof.
  assert (sched_wf s_ready) as Hs by (split_and!; [apply demo_ready_wf|apply demo_queue_ok|apply demo_manager_ok]).
  apply (run_section_parts sched_wf_keeps (XEnter "a" "r1" (100 * second) None (3 * second)) s_ready Hs).
Qed.

Lemma grant_is_justified_witness :
  acquire_poll "a" "r1" (100 * second) None true (demo_sample (3 * second)) (3 * second) s_queued =
    (s_granted, Ret (Granted demo_lease)) ∧ q_contains (queue s_granted) "r1" = false.
Proof.
  assert (acquire_poll "a" "r1" (100 * second) None true (demo_sample (3 * second)) (3 * second) s_queued =
    (s_granted, Ret (Granted demo_lease))) as Hp by ground.
  split; [exact Hp|].
  apply (grant_is_justified "a" "r1" (100 * second) None true (demo_sample (3 * second)) (3 * second)
    s_queued s_granted demo_lease s_queued_intent s_queued_queue Hp).
Defined.

(** The queued request meets a session whose preparation begins. *)
Definition s_registered : ModelScheduler := run_section (XRegister "a" "client" "s1" 0 None (3 * second)) s_queued.
Definition s_turn : ModelScheduler := run_section (XPrepareBegin "s1" (3 * second)) s_registered.
Lemma session_exclusive_witness : session_freeze s_turn = Some "s1" ∧
  (let s := run_sections [XHeartbeat "s1" (4 * second); XPrepareBlocked "s1" (4 * second)] s_turn in
   (∃ e, acquire_enter "a" "r9" (100 * second) None (5 * second) s = (s, Raise e)) ∧
   ∀ s' l, acquire_poll "a" "r1" (100 * second) None true (demo_sample (5 * second)) (5 * second) s ≠ (s', Ret (Granted l))).
Proof.
  assert (∃ plan, prepare_begin "s1" (3 * second) s_registered = (s_turn, Ret (Some plan))) as [plan Hb] by (eexists; ground).
  assert (sched_wf s_registered) as Hw.
  { assert (sched_wf s_ready) as Hs by (split_and!; [apply demo_ready_wf|apply demo_queue_ok|apply demo_manager_ok]).
    by apply (run_section_parts sched_wf_keeps), (run_section_parts sched_wf_keeps). }
  pose proof (fun rq => session_exclusive "s1" (3 * second) plan s_registered s_turn [XHeartbeat "s1" (4 * second); XPrepareBlocked "s1" (4 * second)] "a" rq
    (100 * second) true (demo_sample (5 * second)) (5 * second) (run_section_intent _ _ s_queued_intent) Hw Hb ltac:(repeat constructor)) as Hx.
  split; [ground|]. split; [exact (proj1 (Hx "r9"))|].
  assert (∃ it, q_items (queue (run_sections [XHeartbeat "s1" (4 * second); XPrepareBlocked "s1" (4 * second)] s_turn)) !! "r1" = Some it ∧ q_kind it = INTERACTIVE)
    as (it & Hit & Hk) by (eexists; split; [vm_compute; reflexivity|ground]).
  intros s' l. exact (proj2 (Hx "r1") it None s' l Hit Hk).
Defined.

Lemma storage_lost_fails_closed_witness : ∃ s',
  (storage_lost (100 * second) (5 * second) s_granted).1 = s' ∧ has_leases (book s_granted) = true ∧
  has_leases (book s') = false.
Proof.
  assert (book_wf (book s_granted)) as Hb by (apply (iw_book _ (run_section_intent _ _ s_queued_intent))).
  destruct (storage_lost (100 * second) (5 * second) s_granted) as [s' o] eqn:E. exists s'.
  split_and!; [reflexivity|ground|].
  apply (storage_lost_fails_closed (100 * second) (5 * second) s_granted s' o Hb ltac:(ground) E).
Defined.

(** The load of "a" answers healthy. *)
Definition s_loading : ModelScheduler := demo_sched demo_loading.
Definition healthy_answer : BackendResult :=
  Observed {| obs_presence := P_RUNNING; obs_instance_id := Some "i"; obs_healthy := true;
              obs_observed_at := 2 * second; obs_detail_code := None |}.

Lemma load_result_booked_witness : ∃ s' r',
  finish_load_result (demo_op 0 "a" 1) healthy_answer (2 * second) s_loading = (s', Ret false) ∧
  runtime (book s') !! "a" = Some r' ∧ state r' = READY.
Proof.
  assert (∃ r, operation_runtime (book s_loading) (demo_op 0 "a" 1) = Ret r ∧ state r = LOADING) as (r & Hr & Hs).
  { eexists. split; [vm_compute; reflexivity|ground]. }
  destruct (proj2 (load_result_booked (demo_op 0 "a" 1) healthy_answer (2 * second) s_loading) r Hr Hs)
    as (s' & rc & r' & Hf & Hr' & _ & Hst & _ & Hrc). exists s', r'. rewrite Hrc in Hf. split_and!; assumption.
Defined.

(** The third success inside the window closes cold loads for the cool-down. *)
Definition s_busy : ModelScheduler := s_ready <| switch_successes := [20 * second; 25 * second] |>.

Lemma cold_loads_rate_limited_witness :
  45 * second ≤ cold_load_not_before (record_cold_load (30 * second) s_busy).1.
Proof.
  destruct (cold_loads_rate_limited (30 * second) s_busy) as (_ & _ & Hmax & _).
  refine (proj1 (Hmax _ _)); ground.
Defined.

(** A session that closes during the drain wait of its preparation. *)
Definition s_prep : ModelScheduler :=
  run_sections [XRegister "a" "client" "s1" 0 None 0; XPrepareBegin "s1" 1; XClose "s1" "client_close" 2] s_ready.

Lemma closed_while_draining_keeps_freeze_witness :
  prepare_yield "s1" 40 s_prep = (s_prep, Raise (SessionConflict "session_not_preparing")) ∧
  acquire_enter "a" "r1" (100 * second) None 50 s_prep = (s_prep, Raise (Conflict "session_exclusive")).
Proof.
  assert (∃ r, records (sessions s_prep) !! "s1" = Some r ∧ s_phase r = DRAINING) as (r & Hr & Hp).
  { eexists. split; [vm_compute; reflexivity|ground]. }
  destruct (closed_while_draining_keeps_freeze "s1" 40 s_prep r Hr ltac:(congruence) ltac:(ground) ltac:(ground) ltac:(ground))
    as [Hy He].
  split; [exact Hy|]. apply He; [|ground]. eexists. vm_compute. reflexivity.
Defined.
