(* ===== verification/TasksProps.v ===== *)
(** * What the coroutines guarantee

    Three facts hold for every coroutine of [Tasks], by rules that follow its
    structure: it takes events from the front of its script, it is suspended
    only when the script is used up (so the fuel of its loops is enough), and
    the scheduler it leaves is the result of a sequence of the critical sections
    of [SchedulerFacts], provided the others only run such sections too.  The
    last one carries every invariant of the sections over to the coroutines. *)

From S2P Require Import Prelude Dict Env Contracts Registry RegistryFacts RegistryProps Eviction Queue Sessions SessionsProps Scheduler Tasks SchedulerFacts SchedulerSwitch SchedulerProps.
Local Open Scope Z_scope.

Section rules.
Context `{PyEnv}.
Implicit Types (w : World) (s : ModelScheduler).

(** A section of the scheduler, or several, or none. *)
Definition sectional {A} (m : pym ModelScheduler A) : Prop := ∀ s, ∃ xs, (m s).1 = run_sections xs s.

(** The other coroutines run sections while this one is suspended. *)
Definition sectional_tick (t : Tick) : Prop := ∀ s, ∃ xs, tk_meanwhile t s = run_sections xs s.

Record well_behaved {A} (m : co A) : Prop := {
  wb_script : ∀ w, ∃ used, w_script w = used ++ w_script (m w).1;
  wb_suspended : ∀ w, (m w).2 = Suspended → w_script (m w).1 = [];
  wb_sections : ∀ w, Forall sectional_tick (w_script w) → ∃ xs, w_sched (m w).1 = run_sections xs (w_sched w);
}.

(** A return costs at least one event. *)
Definition takes_event {A} (m : co A) : Prop :=
  ∀ w w' a, m w = (w', Finished (Ret a)) → (length (w_script w') < length (w_script w))%nat.

Lemma run_sections_app xs ys s : run_sections (xs ++ ys) s = run_sections ys (run_sections xs s).
Proof. unfold run_sections. by rewrite foldl_app. Qed.

(** ** Sections *)
Lemma sectional_one {A} (m : pym ModelScheduler A) x : (∀ s, (m s).1 = run_section x s) → sectional m.
Proof. intros Hx s. exists [x]. apply Hx. Qed.
Lemma sectional_read {A} (f : ModelScheduler → outcome A) : sectional (fun s => (s, f s)).
Proof. intros s. by exists []. Qed.
Lemma sectional_lift {A} (o : outcome A) : sectional (lift o).
Proof. intros s. by exists []. Qed.
Lemma sectional_get : sectional get.
Proof. intros s. by exists []. Qed.
Lemma sectional_ret {A} (a : A) : sectional (mret a).
Proof. intros s. by exists []. Qed.
Lemma sectional_raise {A} e : sectional (raise e : pym ModelScheduler A).
Proof. intros s. by exists []. Qed.
Lemma sectional_bind {A B} (m : pym ModelScheduler A) (k : A → pym ModelScheduler B) :
  sectional m → (∀ a, sectional (k a)) → sectional (m ≫= k).
Proof.
  intros Hm Hk s. unfold mbind, pym_bind. destruct (Hm s) as [xs Hxs].
  destruct (m s) as [s1 [a|e]]; simpl in *; [|by exists xs].
  destruct (Hk a s1) as [ys Hys]. exists (xs ++ ys). by rewrite run_sections_app, <-Hxs.
Qed.

(** ** Structural rules *)
Lemma wb_ret {A} (a : A) : well_behaved (mret a).
Proof. split; intros w; simpl; [by exists []|done|by exists []]. Qed.
Lemma wb_raise {A} e : well_behaved (co_raise e : co A).
Proof. split; intros w; simpl; [by exists []|done|by exists []]. Qed.
Lemma wb_clock : well_behaved clock.
Proof. split; intros w; simpl; [by exists []|done|by exists []]. Qed.

Lemma wb_run {A} (m : pym ModelScheduler A) : sectional m → well_behaved (run_now m).
Proof.
  intros Hm. split; intros w; unfold run_now; destruct (Hm (w_sched w)) as [xs Hxs];
    destruct (m (w_sched w)) as [s o]; simpl in *; [by exists []|done|by exists xs].
Qed.

Lemma wb_tick : well_behaved tick.
Proof.
  split; intros w; unfold tick; destruct (w_script w) as [|t ts] eqn:E; simpl; try done.
  - exists []. by rewrite E.
  - by exists [t].
  - by exists [].
  - intros [Ht _]%Forall_cons. apply Ht.
Qed.

(** Running [k] where [m] stopped. *)
Lemma wb_after {A B} (m : co A) (r : World * progress B) w :
  well_behaved m → (∃ used, w_script (m w).1 = used ++ w_script r.1) →
  (Forall sectional_tick (w_script (m w).1) → ∃ xs, w_sched r.1 = run_sections xs (w_sched (m w).1)) →
  (∃ used, w_script w = used ++ w_script r.1) ∧
  (Forall sectional_tick (w_script w) → ∃ xs, w_sched r.1 = run_sections xs (w_sched w)).
Proof.
  intros Hm [u2 Hu2] Hs2. destruct (wb_script _ Hm w) as [u1 Hu1]. split.
  - exists (u1 ++ u2). by rewrite <-app_assoc, <-Hu2.
  - intros Hf. destruct (wb_sections _ Hm w Hf) as [xs Hxs]. rewrite Hu1, Forall_app in Hf.
    destruct Hs2 as [ys Hys]; [apply Hf|]. exists (xs ++ ys). by rewrite run_sections_app, <-Hxs.
Qed.

(** [m], then a continuation chosen from how [m] ended. *)
Definition then_ {A B} (m : co A) (k : outcome A → co B) : co B := fun w =>
  match m w with (w', Finished o) => k o w' | (w', Suspended) => (w', Suspended) end.

Lemma wb_then {A B} (m : co A) (k : outcome A → co B) :
  well_behaved m → (∀ o, well_behaved (k o)) → well_behaved (then_ m k).
Proof.
  intros Hm Hk. split; intros w; unfold then_.
  - destruct (m w) as [w1 [o|]] eqn:E.
    + apply (wb_after m (k o w1) w Hm); rewrite E; simpl; [apply Hk|intros; by apply Hk].
    + pose proof (wb_script _ Hm w) as Hs. by rewrite E in Hs.
  - destruct (m w) as [w1 [o|]] eqn:E; [apply Hk|].
    intros _. pose proof (wb_suspended _ Hm w) as Hs. rewrite E in Hs. by apply Hs.
  - destruct (m w) as [w1 [o|]] eqn:E.
    + apply (wb_after m (k o w1) w Hm); rewrite E; simpl; [apply Hk|intros; by apply Hk].
    + pose proof (wb_sections _ Hm w) as Hs. by rewrite E in Hs.
Qed.

Lemma wb_ext {A} (m m' : co A) : (∀ w, m w = m' w) → well_behaved m → well_behaved m'.
Proof. intros He [H1 H2 H3]. split; intros w; rewrite <-He; auto. Qed.

Lemma wb_bind {A B} (m : co A) (k : A → co B) :
  well_behaved m → (∀ a, well_behaved (k a)) → well_behaved (m ≫= k).
Proof.
  intros Hm Hk. apply (wb_ext (then_ m (fun o => match o with Ret a => k a | Raise e => co_raise e end))).
  - intros w. unfold then_, mbind, co_bind. by destruct (m w) as [w1 [[a|e]|]].
  - apply wb_then; [done|]. intros [a|e]; [apply Hk|apply wb_raise].
Qed.

Lemma wb_finally {A} (m : co A) (f : co unit) :
  well_behaved m → well_behaved f → well_behaved (try_finally m f).
Proof.
  intros Hm Hf. apply (wb_ext (then_ m (fun o => then_ f (fun o' =>
    match o' with Ret _ => fun w => (w, Finished o) | Raise e => co_raise e end)))).
  - intros w. unfold then_, try_finally. destruct (m w) as [w1 [o|]]; [|done]. by destruct (f w1) as [w2 [[[]|e]|]].
  - apply wb_then; [done|]. intros o. apply wb_then; [done|]. intros [?|e]; [|apply wb_raise].
    split; intros w; simpl; [by exists []|done|by exists []].
Qed.

Lemma wb_catch {A} (m : co A) h :
  well_behaved m → (∀ e k, h e = Some k → well_behaved k) → well_behaved (co_catch m h).
Proof.
  intros Hm Hh. apply (wb_ext (then_ m (fun o => match o with
      | Ret a => mret a
      | Raise e => match h e with Some k => k | None => co_raise e end end))).
  - intros w. unfold then_, co_catch. destruct (m w) as [w1 [[a|e]|]]; try done. by destruct (h e).
  - apply wb_then; [done|]. intros [a|e]; [apply wb_ret|]. destruct (h e) as [k|] eqn:E; [by eapply Hh|apply wb_raise].
Qed.

Lemma wb_try {A} (m : co A) : well_behaved m → well_behaved (co_try m).
Proof.
  intros Hm. apply (wb_ext (then_ m (fun o => mret o))).
  - intros w. unfold then_, co_try. by destruct (m w) as [w1 [o|]].
  - apply wb_then; [done|]. intros o. apply wb_ret.
Qed.

Lemma wb_await : well_behaved await.
Proof. apply wb_bind; [apply wb_tick|]. intros t. destruct (tk_cancelled t); [apply wb_raise|apply wb_ret]. Qed.

Lemma wb_locked {A} (m : time → pym ModelScheduler A) : (∀ now, sectional (m now)) → well_behaved (locked m).
Proof. intros Hm. apply wb_bind; [apply wb_tick|]. intros t. apply wb_run, Hm. Qed.

(** ** Events taken *)
Lemma te_tick : takes_event tick.
Proof. intros w w' t Hx. unfold tick in Hx. destruct (w_script w); simplify_eq/=. lia. Qed.

Lemma te_bind {A B} (m : co A) (k : A → co B) :
  takes_event m → (∀ a, well_behaved (k a)) → takes_event (m ≫= k).
Proof.
  intros Hm Hk w w' b Hx. unfold mbind, co_bind in Hx. destruct (m w) as [w1 [[a|e]|]] eqn:E; try done.
  apply Hm in E. destruct (wb_script _ (Hk a) w1) as [u Hu]. rewrite Hx in Hu. simpl in Hu.
  rewrite Hu, length_app in E. lia.
Qed.

Lemma te_locked {A} (m : time → pym ModelScheduler A) : (∀ now, sectional (m now)) → takes_event (locked m).
Proof. intros Hm. apply te_bind; [apply te_tick|]. intros t. apply wb_run, Hm. Qed.
Lemma te_await : takes_event await.
Proof. apply te_bind; [apply te_tick|]. intros t. destruct (tk_cancelled t); [apply wb_raise|apply wb_ret]. Qed.

(** ** Loops: the fuel is enough *)
Lemma loop_fuel_ok {X A} (body : X → co (X + A)) :
  (∀ x, well_behaved (body x)) → (∀ x, takes_event (body x)) →
  ∀ n x w, (length (w_script w) < n)%nat →
    (∃ used, w_script w = used ++ w_script (loop_fuel n body x w).1) ∧
    ((loop_fuel n body x w).2 = Suspended → w_script (loop_fuel n body x w).1 = []) ∧
    (Forall sectional_tick (w_script w) → ∃ xs, w_sched (loop_fuel n body x w).1 = run_sections xs (w_sched w)).
Proof.
  intros Hb Ht. induction n as [|n IH]; intros x w Hn; [lia|]. simpl. unfold mbind, co_bind.
  destruct (body x w) as [w1 [[[y|a]|e]|]] eqn:E.
  - pose proof (Ht x _ _ _ E) as Hlt. destruct (IH y w1) as (Hu & Hsus & Hsec); [lia|].
    destruct (wb_after (body x) (loop_fuel n body y w1) w (Hb x)) as [? ?]; rewrite ?E; auto.
  - pose proof (Hb x) as [H1 H2 H3]. specialize (H1 w). specialize (H3 w). rewrite E in H1, H3. done.
  - pose proof (Hb x) as [H1 H2 H3]. specialize (H1 w). specialize (H3 w). rewrite E in H1, H3. done.
  - pose proof (Hb x) as [H1 H2 H3]. specialize (H1 w). specialize (H2 w). specialize (H3 w). rewrite E in H1, H2, H3.
    auto.
Qed.

Lemma wb_loop {X A} (body : X → co (X + A)) x :
  (∀ x, well_behaved (body x)) → (∀ x, takes_event (body x)) → well_behaved (loop body x).
Proof.
  intros Hb Ht. split; intros w; unfold loop;
    apply (loop_fuel_ok body Hb Ht (S (length (w_script w))) x w); lia.
Qed.

(** More fuel changes nothing, so a loop unrolls as the source's does. *)
Lemma loop_fuel_enough {X A} (body : X → co (X + A)) :
  (∀ x, takes_event (body x)) →
  ∀ n x w, (length (w_script w) < n)%nat → loop_fuel n body x w = loop_fuel (S (length (w_script w))) body x w.
Proof.
  intros Ht n. induction n as [n IH] using lt_wf_ind. intros x w Hn. destruct n as [|n]; [lia|]. simpl.
  unfold mbind, co_bind. destruct (body x w) as [w1 [[[y|a]|e]|]] eqn:E; try done.
  pose proof (Ht x _ _ _ E) as Hlt. rewrite (IH n) by lia. destruct (decide (n = length (w_script w))) as [->|Hne].
  - symmetry. apply IH; lia.
  - symmetry. apply IH; lia.
Qed.

Lemma loop_unroll {X A} (body : X → co (X + A)) x w :
  (∀ x, takes_event (body x)) →
  loop body x w = (r ← body x; match r with inl y => loop body y | inr a => mret a end) w.
Proof.
  intros Ht. unfold loop at 1. simpl. unfold mbind, co_bind.
  destruct (body x w) as [w1 [[[y|a]|e]|]] eqn:E; try done.
  pose proof (Ht x _ _ _ E). unfold loop. apply loop_fuel_enough; [done|lia].
Qed.

(** A loop returned: its last turn did, on what was left of the script. *)
Lemma loop_fuel_returns {X A} (body : X → co (X + A)) :
  (∀ x, well_behaved (body x)) → ∀ n x w w' a, loop_fuel n body x w = (w', Finished (Ret a)) →
  ∃ x1 w1 used, body x1 w1 = (w', Finished (Ret (inr a))) ∧ w_script w = used ++ w_script w1.
Proof.
  intros Hb. induction n as [|n IH]; intros x w w' a; simpl; [done|]. unfold mbind, co_bind.
  destruct (body x w) as [w1 [[[y|a']|e]|]] eqn:E; try done.
  - intros (x2 & w2 & used & Hx & Hu)%IH. destruct (wb_script _ (Hb x) w) as [u1 Hu1]. rewrite E in Hu1.
    exists x2, w2, (u1 ++ used). split; [done|]. simpl in Hu1. by rewrite Hu1, Hu, app_assoc.
  - intros [= <- <-]. exists x, w, []. done.
Qed.
End rules.

(** ** The rules applied to the coroutines *)

(** One goal per suspension point; a section is recognised by its constructor. *)
Ltac sect :=
  lazymatch goal with
  | |- sectional get => apply sectional_get
  | |- sectional (lift _) => apply sectional_lift
  | |- sectional (ask_book _) => exact (sectional_read _)
  | |- sectional (fun s => (s, _)) => apply sectional_read
  | |- sectional (mret _) => apply sectional_ret
  | |- sectional (raise _) => apply sectional_raise
  | |- sectional (acquire_enter ?m ?rq ?dl ?sid ?now) => exact (sectional_one _ (XEnter m rq dl sid now) (fun _ => eq_refl))
  | |- sectional (acquire_poll ?m ?rq ?dl ?sid ?a ?sm ?now) => exact (sectional_one _ (XPoll m rq dl sid a sm now) (fun _ => eq_refl))
  | |- sectional (acquire_commit ?m ?rq ?dl ?a ?sm ?now) => exact (sectional_one _ (XCommit m rq dl a sm now) (fun _ => eq_refl))
  | |- sectional (acquire_leave ?rq) => exact (sectional_one _ (XLeave rq) (fun _ => eq_refl))
  | |- sectional (finish_load_result ?op ?r ?now) => exact (sectional_one _ (XLoadResult op r now) (fun _ => eq_refl))
  | |- sectional (finish_load_done ?m ?r) => exact (sectional_one _ (XLoadDone m r) (fun _ => eq_refl))
  | |- sectional (recovery_wait ?dl ?now) => exact (sectional_one _ (XRecoveryWait dl now) (fun _ => eq_refl))
  | |- sectional recovery_task_done => exact (sectional_one _ XRecoveryTaskDone (fun _ => eq_refl))
  | |- sectional recover_begin => exact (sectional_one _ XRecoverBegin (fun _ => eq_refl))
  | |- sectional (recover_finish ?ep ?r) => exact (sectional_one _ (XRecoverFinish ep r) (fun _ => eq_refl))
  | |- sectional (finish_eviction_step ?op ?rest ?r ?now) => exact (sectional_one _ (XStopResult op rest r now) (fun _ => eq_refl))
  | |- sectional run_eviction_done => exact (sectional_one _ XStopDone (fun _ => eq_refl))
  | |- sectional (preload_inspect ?m ?l) => exact (sectional_one _ (XPreloadInspect m l) (fun _ => eq_refl))
  | |- sectional (preload_commit ?m ?a ?sm ?dl ?now) => exact (sectional_one _ (XPreloadCommit m a sm dl now) (fun _ => eq_refl))
  | |- sectional (preload_evict ?m ?sm ?dl ?now) => exact (sectional_one _ (XPreloadEvict m sm dl now) (fun _ => eq_refl))
  | |- sectional (reclaim_failed_begin ?m) => exact (sectional_one _ (XReclaimFailed m) (fun _ => eq_refl))
  | |- sectional (reclaim_phantom ?m ?now) => exact (sectional_one _ (XReclaimPhantom m now) (fun _ => eq_refl))
  | |- sectional (reclaim_lost ?m ?v ?now) => exact (sectional_one _ (XReclaimLost m v now) (fun _ => eq_refl))
  | |- sectional (shutdown_begin ?now) => exact (sectional_one _ (XShutdownBegin now) (fun _ => eq_refl))
  | |- sectional (shutdown_stop ?dl ?now) => exact (sectional_one _ (XShutdownStop dl now) (fun _ => eq_refl))
  | |- sectional (storage_lost ?dl ?now) => exact (sectional_one _ (XStorageLost dl now) (fun _ => eq_refl))
  | |- sectional storage_recovered_end => exact (sectional_one _ XStorageRecovered (fun _ => eq_refl))
  | |- sectional (unload_begin ?m ?dl) => exact (sectional_one _ (XUnload m dl) (fun _ => eq_refl))
  | |- sectional (sweep_ttl ?dl ?now) => exact (sectional_one _ (XSweep dl now) (fun _ => eq_refl))
  | |- sectional (register_session ?m ?c ?sid ?p ?h ?now) => exact (sectional_one _ (XRegister m c sid p h now) (fun _ => eq_refl))
  | |- sectional (close_session_begin ?sid ?re ?now) => exact (sectional_one _ (XClose sid re now) (fun _ => eq_refl))
  | |- sectional (next_session_plan ?now) => exact (sectional_one _ (XPlan now) (fun _ => eq_refl))
  | |- sectional (expire_session ?sid ?now) => exact (sectional_one _ (XExpire sid now) (fun _ => eq_refl))
  | |- sectional (prepare_begin ?sid ?now) => exact (sectional_one _ (XPrepareBegin sid now) (fun _ => eq_refl))
  | |- sectional (prepare_yield ?sid ?now) => exact (sectional_one _ (XPrepareYield sid now) (fun _ => eq_refl))
  | |- sectional (prepare_blocked ?sid ?now) => exact (sectional_one _ (XPrepareBlocked sid now) (fun _ => eq_refl))
  | |- sectional (prepare_activate ?sid ?now) => exact (sectional_one _ (XPrepareActivate sid now) (fun _ => eq_refl))
  | |- sectional (prepare_abandon ?sid ?now) => exact (sectional_one _ (XPrepareAbandon sid now) (fun _ => eq_refl))
  | |- sectional (drain_session_end ?sid ?c ?now) => exact (sectional_one _ (XDrainEnd sid c now) (fun _ => eq_refl))
  | |- sectional (stop_models_begin ?ms ?dl) => exact (sectional_one _ (XStopModels ms dl) (fun _ => eq_refl))
  | |- sectional session_worker_done => exact (sectional_one _ XWorkerDone (fun _ => eq_refl))
  | |- sectional (storage_recovered_begin _) => unfold storage_recovered_begin; sect
  | |- sectional (_ ≫= _) => apply sectional_bind; [sect|intros ?; sect]
  | |- sectional (if ?x then _ else _) => destruct x; sect
  | |- sectional (match ?x with _ => _ end) => destruct x; sect
  | |- sectional ((fun _ => _) _) => cbv beta; sect
  end.

Create HintDb tasks.

(** Walk down a coroutine. *)
Ltac task :=
  lazymatch goal with
  | |- well_behaved (mret _) => apply wb_ret
  | |- well_behaved (co_raise _) => apply wb_raise
  | |- well_behaved clock => apply wb_clock
  | |- well_behaved tick => apply wb_tick
  | |- well_behaved await => apply wb_await
  | |- well_behaved (run_now _) => apply wb_run; sect
  | |- well_behaved (locked _) => apply wb_locked; intros ?; sect
  | |- well_behaved (_ ≫= _) => apply wb_bind; [task|intros ?; task]
  | |- well_behaved (try_finally _ _) => apply wb_finally; task
  | |- well_behaved (co_try _) => apply wb_try; task
  | |- well_behaved (co_catch _ _) =>
      apply wb_catch; [task|let e := fresh in intros e ?; destruct e; intros; simplify_eq; task]
  | |- well_behaved (loop _ _) => apply wb_loop; intros ?; task
  | |- well_behaved (if ?x then _ else _) => destruct x; task
  | |- well_behaved (match ?x with _ => _ end) => destruct x; task
  | |- well_behaved ((fun _ => _) _) => cbv beta; task
  | |- well_behaved (let _ := _ in _) => cbv zeta; task
  | |- takes_event (_ ≫= _) => apply te_bind; [task|intros ?; task]
  | |- takes_event (locked _) => apply te_locked; intros ?; sect
  | |- takes_event await => apply te_await
  | |- takes_event tick => apply te_tick
  | |- takes_event ((fun _ => _) _) => cbv beta; task
  | |- _ => auto with tasks
  end.

(** Every coroutine the service starts, with its arguments. *)
Inductive task_call :=
| TAcquire (m rq : string) (dl : time) (sid : option string)
| TFinishLoad (op : Operation)
| TRunEviction (ops : list Operation)
| TRecover
| TRecoverAfterLoad (dl : time)
| TWarm (m : string) (dl : time)
| TPreload (dl : time)
| TShutdown (dl : time)
| TMonitorStorage (dl : time)
| TStorageRecovered (dl : time)
| TUnload (m : string) (dl : time)
| TSweepTtl (dl : time)
| TOpenSession (m client sid : string) (priority : Z) (hard : option Z) (dl : option time)
| TCloseSession (sid reason : string) (dl : option time)
| TSessionWorker.

Section tasks.
Context `{PyEnv}.

Definition run_task (k : task_call) : co unit :=
  match k with
  | TAcquire m rq dl sid => acquire m rq dl sid ;; mret tt
  | TFinishLoad op => finish_load op
  | TRunEviction ops => run_eviction ops ;; mret tt
  | TRecover => recover
  | TRecoverAfterLoad dl => recover_after_unverified_load dl
  | TWarm m dl => warm m dl
  | TPreload dl => preload dl ;; mret tt
  | TShutdown dl => shutdown dl ;; mret tt
  | TMonitorStorage dl => monitor_storage_once dl ;; mret tt
  | TStorageRecovered dl => storage_recovered dl ;; mret tt
  | TUnload m dl => unload m dl
  | TSweepTtl dl => sweep_ttl_task dl ;; mret tt
  | TOpenSession m c sid p h dl => open_session m c sid p h dl ;; mret tt
  | TCloseSession sid re dl => close_session sid re dl ;; mret tt
  | TSessionWorker => run_session_lifecycle
  end.

Lemma wb_wait_turn msg dl : well_behaved (wait_turn msg dl).
Proof. unfold wait_turn. task. Qed.
Lemma wb_sample_memory : well_behaved sample_memory.
Proof. unfold sample_memory. task. Qed.
Lemma te_sample_memory : takes_event sample_memory.
Proof. unfold sample_memory. task. Qed.
Lemma wb_await_eviction : well_behaved await_eviction.
Proof. unfold await_eviction. task. Qed.
Lemma wb_notify sid : well_behaved (notify_execution_drain sid).
Proof. unfold notify_execution_drain. task. Qed.
#[local] Hint Resolve wb_wait_turn wb_sample_memory te_sample_memory wb_await_eviction wb_notify : tasks.

Lemma wb_look_loop {A} (look : time → pym ModelScheduler (option A)) :
  (∀ now, sectional (look now)) → well_behaved (look_loop look).
Proof.
  intros Hl. unfold look_loop. apply wb_loop; intros ?.
  - apply wb_bind; [by apply wb_locked|intros ?; task].
  - apply te_bind; [by apply te_locked|intros ?; task].
Qed.

Lemma wb_finish_eviction ops : ∀ acc, well_behaved (finish_eviction ops acc).
Proof. induction ops as [|op ops IH]; intros acc; simpl; task. Qed.
#[local] Hint Resolve wb_finish_eviction : tasks.
Lemma wb_run_eviction ops : well_behaved (run_eviction ops).
Proof. unfold run_eviction. task. Qed.
Lemma wb_finish_load op : well_behaved (finish_load op).
Proof. unfold finish_load. task. Qed.

Lemma wb_acquire_turn m rq dl sid : well_behaved (acquire_turn m rq dl sid).
Proof. unfold acquire_turn. task. Qed.
Lemma te_acquire_turn m rq dl sid : takes_event (acquire_turn m rq dl sid).
Proof. unfold acquire_turn. task. Qed.
#[local] Hint Resolve wb_acquire_turn te_acquire_turn : tasks.
Lemma wb_acquire m rq dl sid : well_behaved (acquire m rq dl sid).
Proof. unfold acquire. task. Qed.

Lemma wb_recover : well_behaved recover.
Proof. unfold recover. task. Qed.
#[local] Hint Resolve wb_recover : tasks.
Lemma wb_recover_after dl : well_behaved (recover_after_unverified_load dl).
Proof.
  unfold recover_after_unverified_load. task. apply wb_look_loop. intros now. sect.
Qed.

Lemma wb_observe : well_behaved observe_runtime.
Proof. unfold observe_runtime. task. Qed.
#[local] Hint Resolve wb_observe : tasks.
Lemma wb_reclaim_phantoms keep ids : ∀ acc, well_behaved (reclaim_phantom_residents keep ids acc).
Proof. induction ids as [|m ids IH]; intros acc; simpl; task. Qed.
#[local] Hint Resolve wb_reclaim_phantoms : tasks.
Lemma wb_preload_load m dl : well_behaved (preload_load m dl).
Proof. unfold preload_load. task. Qed.
#[local] Hint Resolve wb_preload_load : tasks.
Lemma wb_reclaim_failed m : well_behaved (reclaim_failed_model m).
Proof. unfold reclaim_failed_model. task. Qed.
Lemma wb_reclaim_lost m : well_behaved (reclaim_lost_runtime m).
Proof. unfold reclaim_lost_runtime. task. Qed.
#[local] Hint Resolve wb_reclaim_failed wb_reclaim_lost : tasks.
Lemma wb_preload_turn m dl lh : well_behaved (preload_turn m dl lh).
Proof. unfold preload_turn. task. Qed.
Lemma te_preload_turn m dl lh : takes_event (preload_turn m dl lh).
Proof. unfold preload_turn. task. Qed.
#[local] Hint Resolve wb_preload_turn te_preload_turn : tasks.
Lemma wb_preload_one m dl : well_behaved (preload_one m dl).
Proof. unfold preload_one. task. Qed.
#[local] Hint Resolve wb_preload_one : tasks.
Lemma wb_preload_each dl l : ∀ acc, well_behaved (preload_each dl l acc).
Proof. induction l as [|[m sp] l IH]; intros acc; simpl; task. Qed.
#[local] Hint Resolve wb_preload_each : tasks.
Lemma wb_preload dl : well_behaved (preload dl).
Proof. unfold preload. task. Qed.
#[local] Hint Resolve wb_preload : tasks.

Lemma wb_notify_each ids : well_behaved (notify_each ids).
Proof. induction ids; simpl; task. Qed.
Lemma wb_await_plan p : well_behaved (await_plan p).
Proof. unfold await_plan. task. Qed.
#[local] Hint Resolve wb_notify_each wb_await_plan : tasks.
Lemma shutdown_look_sectional dl now : sectional (shutdown_look dl now).
Proof. unfold shutdown_look. sect. Qed.
Lemma wb_shutdown dl : well_behaved (shutdown dl).
Proof.
  pose proof (shutdown_look_sectional dl) as Hl. unfold shutdown. apply wb_bind; [task|intros ?].
  apply wb_bind; [task|intros ?]. apply wb_bind; [|intros ?; task]. apply wb_loop; intros ?.
  - apply wb_bind; [by apply wb_locked|intros ?; task].
  - apply te_bind; [by apply te_locked|intros ?; task].
Qed.
Lemma wb_storage_lost dl : well_behaved (storage_lost_task dl).
Proof. unfold storage_lost_task. task. Qed.
#[local] Hint Resolve wb_storage_lost : tasks.

Lemma wb_stop_models ms dl : well_behaved (stop_models ms dl).
Proof. unfold stop_models. task. Qed.
#[local] Hint Resolve wb_stop_models : tasks.
Lemma wb_stop_other m dl : well_behaved (stop_other_models m dl).
Proof. unfold stop_other_models. task. Qed.
#[local] Hint Resolve wb_stop_other : tasks.
Lemma wb_prepare_residency sid m dl : well_behaved (prepare_residency sid m dl).
Proof. unfold prepare_residency. task. Qed.
#[local] Hint Resolve wb_prepare_residency : tasks.
Lemma wb_drained dl : well_behaved (wait_for_leases_to_drain dl).
Proof. apply wb_look_loop. intros now. apply sectional_read. Qed.
Lemma wb_session_drained sid dl : well_behaved (wait_for_session_leases sid dl).
Proof. apply wb_look_loop. intros now. apply (sectional_read (fun s => session_leases_drained s sid dl now)). Qed.
#[local] Hint Resolve wb_drained wb_session_drained : tasks.
Lemma wb_prepare_session sid : well_behaved (prepare_session sid).
Proof. unfold prepare_session. task. Qed.
Lemma wb_drain_session sid : well_behaved (drain_session sid).
Proof.
  unfold drain_session. task.
Qed.
Lemma wb_expire_session sid : well_behaved (expire_session_task sid).
Proof. unfold expire_session_task. task. Qed.
#[local] Hint Resolve wb_prepare_session wb_drain_session wb_expire_session : tasks.
Lemma wb_lifecycle_turn : well_behaved lifecycle_turn.
Proof. unfold lifecycle_turn. task. Qed.
Lemma te_lifecycle_turn : takes_event lifecycle_turn.
Proof. unfold lifecycle_turn. task. Qed.
#[local] Hint Resolve wb_lifecycle_turn te_lifecycle_turn : tasks.
Lemma wb_session_worker : well_behaved run_session_lifecycle.
Proof. unfold run_session_lifecycle. task. Qed.

Lemma wb_open_session m c sid p h dl : well_behaved (open_session m c sid p h dl).
Proof.
  unfold open_session. apply wb_bind; [task|intros ?]. apply wb_bind; [task|intros r]. cbv zeta.
  apply wb_look_loop. intros now. unfold open_session_poll. sect.
Qed.
Lemma wb_close_session sid re dl : well_behaved (close_session sid re dl).
Proof.
  unfold close_session. apply wb_bind; [task|intros b]. destruct (negb b); [task|]. apply wb_bind; [task|intros ?].
  apply wb_look_loop. intros now. unfold close_session_poll. sect.
Qed.
#[local] Hint Resolve wb_run_eviction wb_finish_load wb_acquire wb_recover_after wb_shutdown wb_session_worker
  wb_open_session wb_close_session : tasks.

Lemma run_task_well_behaved k : well_behaved (run_task k).
Proof.
  destruct k; simpl; unfold warm, monitor_storage_once, storage_recovered, unload, sweep_ttl_task; task.
Qed.
End tasks.

(** ** A stop batch the backend proves *)
Section stops.
Context `{PyEnv, !PyEnvLaws}.
Implicit Types (w : World) (s : ModelScheduler).

(** The backend answers every stop with a proof and nobody interferes. *)
Definition proven_stop (t : Tick) : Prop :=
  (∃ o, tk_backend t = Observed o ∧ obs_presence o = P_STOPPED) ∧ ∀ s, tk_meanwhile t s = s.

Lemma finish_eviction_turn op ops acc w t1 t2 ts b' :
  w_script w = t1 :: t2 :: ts → proven_stop t1 → proven_stop t2 →
  stopped op (Some (tk_now t2)) (book (w_sched w)) = (b', Ret tt) →
  finish_eviction (op :: ops) acc w =
  finish_eviction ops (acc ++ [op_model_id op])
    {| w_sched := (w_sched w) <| book := b' |>; w_now := tk_now t2; w_script := ts |}.
Proof.
  intros Hw [(o & Ho & Hp) Hid1] [_ Hid2] Hst. simpl. unfold mbind at 1, co_bind at 1, tick at 1. rewrite Hw.
  unfold mbind at 1, co_bind at 1, locked, tick. unfold mbind at 1, co_bind at 1. simpl. rewrite Hid1, Hid2.
  unfold run_now, finish_eviction_step. simpl. rewrite Ho, bool_decide_true by done.
  unfold except_stale, catch, on_book, on_field. run_unfold. by rewrite Hst.
Qed.

Lemma reserved_sum_put b m r' ms : m ∉ ms → reserved_sum (put_runtime m r' b) ms = reserved_sum b ms.
Proof.
  induction ms as [|x ms IH]; [done|]. rewrite not_elem_of_cons. intros [Hx Hms]. simpl. rewrite IH by done.
  unfold reserved_by. simpl. by rewrite dict_lookup_insert_ne.
Qed.

Lemma finish_eviction_proven ops : ∀ acc w,
  length (w_script w) = (2 * length ops)%nat → Forall proven_stop (w_script w) → book_wf (book (w_sched w)) →
  NoDup (op_model_id <$> ops) → (∀ op, op ∈ ops → stopping (book (w_sched w)) op) →
  ∃ w', finish_eviction ops acc w = (w', Finished (Ret (acc ++ (op_model_id <$> ops)))) ∧
    let b := book (w_sched w) in let b' := book (w_sched w') in
    book_wf b' ∧ committed b' = committed b - reserved_sum b (op_model_id <$> ops) ∧
    (∀ m, m ∈ op_model_id <$> ops → ∃ r, runtime b' !! m = Some r ∧ state r = UNLOADED) ∧
    (∀ m, m ∉ op_model_id <$> ops → runtime b' !! m = runtime b !! m).
Proof.
  induction ops as [|op ops IH]; intros acc w Hlen Hrd Hb Hnd Hst.
  { exists w. simpl. rewrite app_nil_r. split_and!; try done; [lia|by intros m ?%not_elem_of_nil]. }
  destruct (w_script w) as [|t1 [|t2 ts]] eqn:Hw; simpl in Hlen; try lia.
  apply Forall_cons in Hrd as [Hp1 Hrd]. apply Forall_cons in Hrd as [Hp2 Hrd].
  rewrite fmap_cons in *. apply NoDup_cons in Hnd as [Hni Hnd].
  destruct (Hst op) as (r & Hr & Hs & Hl); [constructor|].
  destruct (stopped_ret (book (w_sched w)) op (Some (tk_now t2))) as (b' & r' & Hsto & -> & Hs' & Hres'); [by exists r|].
  assert (book_wf (put_runtime (op_model_id op) r' (book (w_sched w)))) as Hb'.
  { pose proof (exec_wf (CStopped op (Some (tk_now t2))) _ Hb) as Hwf. simpl in Hwf. by rewrite Hsto in Hwf. }
  pose proof (proj1 (operation_runtime_ret _ _ _) Hr) as (Hlk & _).
  rewrite (finish_eviction_turn op ops acc w t1 t2 ts _ Hw Hp1 Hp2 Hsto).
  set (w1 := {| w_sched := _; w_now := _; w_script := ts |}).
  destruct (IH (acc ++ [op_model_id op]) w1) as (w' & Hf & Hbw & Hcm & Hun & Hot); try done; simpl.
  { lia. }
  { intros op' Hop'. apply stopping_put; [|apply Hst; by constructor].
    intros He. apply Hni. rewrite <-He. apply list_elem_of_fmap. eauto. }
  exists w'. split; [by rewrite Hf, <-app_assoc|]. split_and!; try done.
  - rewrite Hcm. simpl. rewrite (committed_put _ _ r) by done. unfold reserved_by at 1. rewrite Hlk, Hres'.
    rewrite reserved_sum_put by done. lia.
  - intros m [->|Hm]%elem_of_cons; [|by apply Hun]. rewrite Hot by done. exists r'. simpl.
    by rewrite dict_lookup_insert_eq.
  - intros m Hm. rewrite not_elem_of_cons in Hm. destruct Hm. rewrite Hot by done. simpl.
    by rewrite dict_lookup_insert_ne.
Qed.
End stops.

(** ** Guarantees *)
Section guarantees.
Context `{PyEnv, !PyEnvLaws}.
Implicit Types (w : World) (s : ModelScheduler).

(** Refinement: whatever coroutine runs, and wherever it stops, the state it
    leaves is one the critical sections reach, as long as the other coroutines
    run critical sections too; so every invariant of the sections holds at every
    suspension point of every coroutine. *)
Theorem tasks_refine_sections k w :
  Forall sectional_tick (w_script w) →
  ∃ xs, w_sched (run_task k w).1 = run_sections xs (w_sched w).
Proof. apply (wb_sections _ (run_task_well_behaved k)). Qed.

(** No loop gives up: a coroutine that neither returned nor raised has used
    every event it was given, so it waits for the environment; the bound on the
    turns of its loops never ends it. *)
Theorem suspended_task_waits k w w' :
  run_task k w = (w', Suspended) → w_script w' = [].
Proof. intros Hx. pose proof (wb_suspended _ (run_task_well_behaved k) w) as Hs. rewrite Hx in Hs. by apply Hs. Qed.

Lemma task_intent {A} (m : co A) w :
  well_behaved m → Forall sectional_tick (w_script w) → intent_wf (w_sched w) → intent_wf (w_sched (m w).1).
Proof. intros Hm Hf Hi. destruct (wb_sections _ Hm w Hf) as [xs ->]. by apply run_sections_intent. Qed.

(** C12: a finished [acquire] leaves nothing behind.  Take a request whose entry
    section accepted it into the queue, from a state whose switch intent is well
    formed, with any answers of the environment (samples, timeouts, and a
    cancellation at any awaited sample or wait, though not while it takes the lock)
    and any critical sections of the other coroutines in between.  When the request
    ends, with a lease, an exception or a cancellation, it is no longer queued and
    owns no switch intent, and the switch intent is still well formed. *)
Theorem acquire_clean_exit m rq dl sid w t ts s1 w' o :
  intent_wf (w_sched w) → w_script w = t :: ts → Forall sectional_tick (t :: ts) →
  acquire_enter m rq dl sid (tk_now t) (tk_meanwhile t (w_sched w)) = (s1, Ret tt) →
  acquire m rq dl sid w = (w', Finished o) →
  q_contains (queue (w_sched w')) rq = false ∧
  (∀ i, switch_intent (w_sched w') = Some i → si_request_id i ≠ rq) ∧ intent_wf (w_sched w').
Proof.
  intros Hi Hw Hf He Ha. unfold acquire in Ha. unfold mbind at 1, co_bind at 1 in Ha.
  set (w1 := {| w_sched := s1; w_now := tk_now t; w_script := ts |}).
  assert (locked (acquire_enter m rq dl sid) w = (w1, Finished (Ret tt))) as Hl.
  { unfold locked, tick, run_now. unfold mbind, co_bind. rewrite Hw. simpl. by rewrite He. }
  assert (intent_wf s1) as Hi1.
  { assert (well_behaved (locked (acquire_enter m rq dl sid))) as Hwb by task.
    pose proof (task_intent _ w Hwb) as Hx. rewrite Hw, Hl in Hx. by apply Hx. }
  rewrite Hl in Ha. unfold try_finally in Ha. apply Forall_cons in Hf as [_ Hf].
  assert (well_behaved (loop (fun _ : unit => acquire_turn m rq dl sid) tt)) as Hwb.
  { apply wb_loop; intros ?; [apply wb_acquire_turn|apply te_acquire_turn]. }
  pose proof (task_intent _ w1 Hwb Hf Hi1) as Hi2. destruct (wb_script _ Hwb w1) as [used Hu].
  destruct (loop _ tt w1) as [w2 [o2|]]; [|done]. simpl in *.
  assert (Forall sectional_tick (w_script w2)) as Hf2 by (rewrite Hu, Forall_app in Hf; apply Hf).
  unfold locked, tick in Ha. unfold mbind, co_bind in Ha. destruct (w_script w2) as [|t2 ts2]; [done|]. simpl in Ha.
  apply Forall_cons in Hf2 as [Ht2 _]. destruct (Ht2 (w_sched w2)) as [xs Hxs]. unfold run_now in Ha. simpl in Ha.
  destruct (leave_clean rq (tk_meanwhile t2 (w_sched w2))) as (s3 & Hlv & ? & ? & ?).
  { rewrite Hxs. by apply run_sections_intent. }
  rewrite Hlv in Ha. by simplify_eq/=.
Qed.

(** Nothing takes a READY model away while the coroutine is suspended. *)
Definition keeps_ready (m : string) (t : Tick) : Prop :=
  ∀ s r, runtime (book s) !! m = Some r → state r = READY →
    ∃ r', runtime (book (tk_meanwhile t s)) !! m = Some r' ∧ state r' = READY.

Lemma preload_inspect_ready m lh s s' tn :
  preload_inspect m lh s = (s', Ret tn) → tn = PreloadReturn ∨ tn = PreloadVerify →
  book s' = book s ∧ ∃ r, runtime (book s) !! m = Some r ∧ state r = READY.
Proof.
  intros Hx Htn. unfold preload_inspect in Hx. inv_ret Hx. destruct (storage_unavailable s); [done|]. inv_ret Hx.
  unfold runtime_of in H1. destruct (runtime (book s) !! m) as [r|] eqn:Hr; [|done]. unfold of_option in H1. simplify_eq.
  destruct (state a) eqn:Hst; run_unfold; repeat case_match; simplify_eq; try (by destruct Htn); split; eauto.
Qed.

Lemma reclaim_lost_false m v now s s' :
  reclaim_lost m v now s = (s', Ret false) → s' = s.
Proof.
  intros Hx. unfold reclaim_lost in Hx. destruct v; unfold mret, pym_ret in Hx; simplify_eq; try done.
  inv_ret Hx. destruct (moved_on _); [by simplify_eq|]. inv_ret Hx. destruct a0 as [|op ops]; [done|]. inv_ret Hx.
  unfold mret, pym_ret in Hx. by simplify_eq.
Qed.

(** Consume one event. *)
Lemma locked_ret {A} (f : time → pym ModelScheduler A) w w' a :
  locked f w = (w', Finished (Ret a)) →
  ∃ t ts s', w_script w = t :: ts ∧ f (tk_now t) (tk_meanwhile t (w_sched w)) = (s', Ret a) ∧
    w' = {| w_sched := s'; w_now := tk_now t; w_script := ts |}.
Proof.
  unfold locked, tick, run_now. unfold mbind, co_bind. destruct (w_script w) as [|t ts]; [done|]. simpl.
  destruct (f _ _) as [s' [x|e]] eqn:E; [|done]. intros [= <- <-]. exists t, ts, s'. done.
Qed.

Lemma co_bind_ret {A B} (m : co A) (k : A → co B) w w' b :
  (m ≫= k) w = (w', Finished (Ret b)) → ∃ a w1, m w = (w1, Finished (Ret a)) ∧ k a w1 = (w', Finished (Ret b)).
Proof. unfold mbind, co_bind. destruct (m w) as [w1 [[a|e]|]]; naive_solver. Qed.

Lemma observe_ret w w' v :
  observe_runtime w = (w', Finished (Ret v)) →
  ∃ t ts, w_script w = t :: ts ∧ w' = {| w_sched := tk_meanwhile t (w_sched w); w_now := tk_now t; w_script := ts |}.
Proof.
  unfold observe_runtime, await. intros (t & w1 & Hx & Hr)%co_bind_ret.
  assert (w' = w1) as ->.
  { destruct (tk_observed t) as [[[raw h]|e]|]; unfold co_raise, mret, co_ret in Hr; by simplify_eq. }
  unfold mbind, co_bind, tick in Hx. destruct (w_script w) as [|t' ts]; [done|]. exists t', ts. split; [done|].
  destruct (tk_cancelled t'); unfold co_raise, mret, co_ret in Hx; by simplify_eq.
Qed.

Lemma reclaim_lost_task_false m w w' :
  reclaim_lost_runtime m w = (w', Finished (Ret false)) → Forall (keeps_ready m) (w_script w) →
  (∃ r, runtime (book (w_sched w)) !! m = Some r ∧ state r = READY) →
  ∃ r, runtime (book (w_sched w')) !! m = Some r ∧ state r = READY.
Proof.
  unfold reclaim_lost_runtime. intros (v & w1 & Hv & Hx)%co_bind_ret Hk (r & Hr & Hst).
  apply observe_ret in Hv as (t & ts & Hw & ->). rewrite Hw in Hk. apply Forall_cons in Hk as [Hkt Hk].
  destruct (Hkt _ _ Hr Hst) as (r1 & Hr1 & Hst1).
  assert (v ≠ Gone → ∀ now s, (reclaim_lost m v now s).1 = s) as Hid by (by destruct v).
  destruct v; try (apply co_bind_ret in Hx as (now & w2 & [= <- <-] & Hx); unfold run_now in Hx; simpl in Hx; simplify_eq/=; eauto).
  apply locked_ret in Hx as (t2 & ts2 & s2 & Hw2 & Hl & ->).
  apply reclaim_lost_false in Hl as ->. simpl in *. subst ts. apply Forall_cons in Hk as [Hkt2 _]. by eapply Hkt2.
Qed.

(** [_preload_one] (and [warm]) returns only when the model is READY in the
    books, provided no other coroutine takes a READY model away meanwhile. *)
Theorem preload_returns_ready m dl w w' :
  Forall (keeps_ready m) (w_script w) → preload_one m dl w = (w', Finished (Ret tt)) →
  ∃ r, runtime (book (w_sched w')) !! m = Some r ∧ state r = READY.
Proof.
  intros Hk Hx. unfold preload_one, loop in Hx.
  apply loop_fuel_returns in Hx as (lh & w1 & used & Hx & Hu); [|intros; apply wb_preload_turn].
  assert (Forall (keeps_ready m) (w_script w1)) as Hk1 by (rewrite Hu, Forall_app in Hk; apply Hk). clear Hk Hu.
  unfold preload_turn in Hx. apply co_bind_ret in Hx as (tn & w2 & Hl & Hx).
  apply locked_ret in Hl as (t & ts & s2 & Hw & Hl & ->). rewrite Hw in Hk1. apply Forall_cons in Hk1 as [_ Hk2].
  destruct tn.
  - apply preload_inspect_ready in Hl as [Hb (r & Hr & Hst)]; [|by left]. unfold mret, co_ret in Hx. simplify_eq/=.
    rewrite Hb. eauto.
  - apply preload_inspect_ready in Hl as [Hb (r & Hr & Hst)]; [|by right].
    apply co_bind_ret in Hx as ([|] & w3 & Hrl & Hx); unfold mret, co_ret in Hx; simplify_eq/=.
    eapply reclaim_lost_task_false; [done|done|]. simpl. rewrite Hb. eauto.
  - apply co_bind_ret in Hx as (? & w3 & _ & Hx). unfold mret, co_ret in Hx. by simplify_eq.
  - apply co_bind_ret in Hx as ([ag ld] & w3 & _ & Hx). apply co_bind_ret in Hx as (? & w4 & _ & Hx).
    unfold mret, co_ret in Hx. by simplify_eq.
Qed.

(** C39: an eviction makes room: when the policy finds a nonempty set for the deficit
    of a load, the batch is begun for exactly that set, the backend proves every
    stop and no other coroutine touches the scheduler while the batch runs, the
    loop ends with all of them stopped and UNLOADED, in the chosen order, and the
    load then fits the model budget. *)
Theorem eviction_makes_room p m sample now w sel b1 ops n :
  book_wf (book (w_sched w)) → load_deficit (book (w_sched w)) m sample = Ret n →
  choose p (book (w_sched w)) n now false = Ret sel → sel ≠ [] →
  begin_eviction (cand_model_id <$> sel) true (book (w_sched w)) = (b1, Ret ops) →
  length (w_script w) = (2 * length ops)%nat → Forall proven_stop (w_script w) →
  ∃ w' req,
    finish_eviction ops [] {| w_sched := (w_sched w) <| book := b1 |>; w_now := w_now w; w_script := w_script w |} =
      (w', Finished (Ret (cand_model_id <$> sel))) ∧
    (∀ x, x ∈ cand_model_id <$> sel → ∃ r, runtime (book (w_sched w')) !! x = Some r ∧ state r = UNLOADED) ∧
    required (book (w_sched w)) m = Ret req ∧
    committed (book (w_sched w')) + req ≤ model_budget (book (w_sched w)).
Proof.
  intros Hb Hn Hch Hne Hev Hlen Hrd.
  assert (book_wf b1) as Hb1.
  { pose proof (exec_wf (CEvict (cand_model_id <$> sel) true) _ Hb) as Hw. unfold exec in Hw. by rewrite Hev in Hw. }
  pose proof Hev as (Hnd & Hids & _)%begin_eviction_ret.
  set (w1 := {| w_sched := _; w_now := w_now w; w_script := w_script w |}).
  destruct (finish_eviction_proven ops [] w1) as (w' & Hf & _ & Hc & Hun & _); try done.
  { by rewrite Hids. }
  { intros op Hop. exact (evicted_stopping _ b1 _ true ops op Hb Hev Hop). }
  rewrite Hids in *. revert Hn. unfold load_deficit. run_unfold.
  destruct (required (book (w_sched w)) m) as [req|]; [|done]. intros [= Hn]. exists w', req. split_and!; try done.
  destruct (evicted_reserved _ _ _ _ _ Hb Hev) as [Hcm Hrs]. simpl in Hc. rewrite Hcm, Hrs in Hc.
  pose proof (choose_frees _ _ _ _ _ _ Hch Hne) as Hfr.
  rewrite (chosen_reserved _ sel now) in Hc; [lia|done|].
  by apply (choose_sublist p (book (w_sched w)) n now false sel).
Qed.

Lemma locked_step {A} (f : time → pym ModelScheduler A) s n t ts :
  locked f {| w_sched := s; w_now := n; w_script := t :: ts |} =
  (let r := f (tk_now t) (tk_meanwhile t s) in
   ({| w_sched := r.1; w_now := tk_now t; w_script := ts |}, Finished r.2)).
Proof. unfold locked, tick, run_now. unfold mbind, co_bind. simpl. by destruct (f _ _). Qed.

(** A look that ends the wait at once. *)
Lemma look_loop_step {A} (look : time → pym ModelScheduler (option A)) s n t ts s' a :
  look (tk_now t) (tk_meanwhile t s) = (s', Ret (Some a)) →
  look_loop look {| w_sched := s; w_now := n; w_script := t :: ts |} =
  ({| w_sched := s'; w_now := tk_now t; w_script := ts |}, Finished (Ret a)).
Proof.
  intros Hl. unfold look_loop, loop. simpl. unfold mbind, co_bind at 1. unfold co_bind at 1. by rewrite locked_step, Hl.
Qed.

Definition idle (t : Tick) : Prop := ∀ s, tk_meanwhile t s = s.

(** A drained session is closed although its model was not stopped: when a
    lease of the model outlives the cancel window, the stop step finds nothing it
    may stop, reports success, and the session becomes CLOSED and releases the
    exclusive freeze while the model keeps its state, lease and reservation. *)
Theorem drained_session_closed_while_busy sid r rt s n t1 t2 t3 t4 :
  records (sessions s) !! sid = Some r → s_phase r = DRAINING →
  runtime (book s) !! s_model_id r = Some rt → no_leases rt = false → eviction s = None →
  idle t1 → idle t2 → idle t3 → idle t4 → tk_now t1 + cancel_seconds (sessions s) ≤ tk_now t2 →
  ∃ s', drain_session sid {| w_sched := s; w_now := n; w_script := [t1; t2; t3; t4] |} =
        ({| w_sched := s'; w_now := tk_now t4; w_script := [] |}, Finished (Ret tt)) ∧
    s_phase <$> records (sessions s') !! sid = Some CLOSED ∧ session_freeze s' ≠ Some sid ∧ book s' = book s.
Proof.
  intros Hr Hph Hrt Hl Hev Hi1 Hi2 Hi3 Hi4 Hdl. unfold drain_session. unfold mbind at 1, co_bind at 1.
  rewrite locked_step, Hi1. unfold s_get at 1. rewrite Hr. cbn -[stop_models drain_session_end locked].
  unfold mbind at 1, co_bind at 1, wait_for_session_leases. erewrite look_loop_step; last first.
  { rewrite Hi2. unfold session_leases_drained, s_get, runtime_of. rewrite Hr. run_unfold. rewrite Hrt, Hl, andb_false_r.
    by rewrite (proj2 (Z.leb_le _ _)). }
  unfold mbind at 1, co_bind at 1, stop_models. unfold mbind at 1, co_bind at 1. rewrite locked_step, Hi3.
  unfold stop_models_begin, runtime_of. run_unfold. rewrite Hev. simpl. unfold runtime_of. run_unfold. rewrite Hrt.
  unfold stoppable. rewrite Hl, andb_false_r. simpl. unfold mret, co_ret. rewrite locked_step, Hi4. simpl.
  unfold drain_session_end, on_sessions, on_field, s_mark_closed, s_get. run_unfold. rewrite Hr.
  rewrite bool_decide_false by congruence. eexists. split; [done|]. simpl. case_bool_decide; simpl.
  all: split_and!; try done; unfold clear_active; try case_match; simpl; by rewrite dict_lookup_insert_eq.
Qed.
End guarantees.

(** ** The coroutines run on a concrete service *)
(** An event at [n] with the given interference: memory is plenty, the guard
    agrees, the backend reports a running and healthy container. *)
Definition demo_tick (n : time) (f : ModelScheduler → ModelScheduler) : Tick :=
  {| tk_now := n; tk_meanwhile := f; tk_cancelled := false; tk_timed_out := false;
     tk_sample := Ret (demo_sample n); tk_admitted := true; tk_backend := healthy_answer;
     tk_observed := Some (Ret (Some "running", true));
     tk_recovery := Raise (ModelUnavailable "none"); tk_stopped := Ret [] |}.

Definition at_ (n : time) : Tick := demo_tick n id.
Definition world (s : ModelScheduler) (ts : list Tick) : World := {| w_sched := s; w_now := 0; w_script := ts |}.

Lemma at_sectional n : sectional_tick (at_ n).
Proof. intros s. by exists []. Qed.

(** A request for "a": join, sample, guard, grant, leave. *)
Definition granted_script : list Tick := at_ <$> [3 * second; 3 * second; 3 * second; 4 * second; 5 * second].

Lemma granted_sectional : Forall sectional_tick granted_script.
Proof. repeat constructor; apply at_sectional. Qed.

Lemma acquire_clean_exit_witness : ∃ w',
  acquire "a" "r1" (100 * second) None (world s_ready granted_script) = (w', Finished (Ret demo_lease)) ∧
  q_contains (queue (w_sched w')) "r1" = false.
Proof.
  destruct (acquire "a" "r1" (100 * second) None (world s_ready granted_script)) as [w' o] eqn:E.
  assert (o = Finished (Ret demo_lease)) as -> by (change o with (w', o).2; rewrite <-E; ground).
  exists w'. split; [reflexivity|].
  refine (proj1 (acquire_clean_exit "a" "r1" (100 * second) None (world s_ready granted_script) (at_ (3 * second))
    (tail granted_script) s_queued w' _ s_ready_intent eq_refl granted_sectional _ E)). ground.
Defined.

Lemma tasks_refine_sections_witness : ∃ xs,
  w_sched (run_task (TAcquire "a" "r1" (100 * second) None) (world s_ready granted_script)).1 = run_sections xs s_ready ∧
  intent_wf (run_sections xs s_ready).
Proof.
  destruct (tasks_refine_sections (TAcquire "a" "r1" (100 * second) None) (world s_ready granted_script)
    granted_sectional) as [xs Hxs].
  exists xs. split; [exact Hxs|]. apply run_sections_intent, s_ready_intent.
Defined.

(** A request for "b", which is not loaded, is still waiting after these events. *)
Lemma suspended_task_waits_witness : ∃ w',
  run_task (TAcquire "b" "r2" (100 * second) None) (world s_ready granted_script) = (w', Suspended) ∧
  w_script w' = [].
Proof.
  destruct (run_task (TAcquire "b" "r2" (100 * second) None) (world s_ready granted_script)) as [w' o] eqn:E.
  assert (o = Suspended) as -> by (change o with (w', o).2; rewrite <-E; ground).
  exists w'. split; [reflexivity|]. exact (suspended_task_waits _ _ _ E).
Defined.

(** "a" is idle: a request for "b" evicts it and the load of "b" fits. *)
Definition proven_tick : Tick :=
  {| tk_now := 6 * second; tk_meanwhile := id; tk_cancelled := false; tk_timed_out := false;
     tk_sample := Ret (demo_sample 0); tk_admitted := true;
     tk_backend := Observed {| obs_presence := P_STOPPED; obs_instance_id := None; obs_healthy := false;
                               obs_observed_at := 6 * second; obs_detail_code := None |};
     tk_observed := None; tk_recovery := Raise (ModelUnavailable "none"); tk_stopped := Ret [] |}.

Lemma eviction_makes_room_witness : ∃ w' b1 op,
  cand_model_id <$> demo_choice = ["a"] ∧ begin_eviction ["a"] true demo_ready = (b1, Ret [op]) ∧
  finish_eviction [op] [] {| w_sched := s_ready <| book := b1 |>; w_now := 0; w_script := [proven_tick; proven_tick] |} =
    (w', Finished (Ret ["a"])) ∧
  committed (book (w_sched w')) + 100 ≤ 150 ∧ ∃ r, runtime (book (w_sched w')) !! "a" = Some r ∧ state r = UNLOADED.
Proof.
  destruct (begin_eviction (cand_model_id <$> demo_choice) true demo_ready) as [b1 o] eqn:E.
  assert (∃ op, o = Ret [op]) as [op ->].
  { change o with (b1, o).2. rewrite <-E. eexists. vm_compute. reflexivity. }
  assert (proven_stop proven_tick) as Hp by (split; [eexists; split; reflexivity|reflexivity]).
  destruct (eviction_makes_room demo_policy "b" (demo_sample (5 * second)) (10 * second)
    (world s_ready [proven_tick; proven_tick]) demo_choice b1 [op] 50 demo_ready_wf
    ltac:(ground) ltac:(ground) ltac:(ground) E eq_refl ltac:(repeat constructor; apply Hp))
    as (w' & req & Hf & Hun & Hreq & Hc).
  rewrite demo_choice_is_a in Hf, Hun, E. exists w', b1, op. split_and!; [apply demo_choice_is_a|exact E|exact Hf| |apply Hun; constructor].
  vm_compute in Hreq. injection Hreq as <-. exact Hc.
Defined.

(** [warm] of the READY model "a": look, observe it alive, return. *)
Lemma preload_returns_ready_witness : ∃ w' r,
  preload_one "a" (100 * second) (world s_ready [at_ 3; at_ 4]) = (w', Finished (Ret tt)) ∧
  runtime (book (w_sched w')) !! "a" = Some r ∧ state r = READY.
Proof.
  destruct (preload_one "a" (100 * second) (world s_ready [at_ 3; at_ 4])) as [w' o] eqn:E.
  assert (o = Finished (Ret tt)) as -> by (change o with (w', o).2; rewrite <-E; ground).
  assert (Forall (keeps_ready "a") [at_ 3; at_ 4]) as Hk by (repeat constructor; intros s r; eauto).
  destruct (preload_returns_ready "a" (100 * second) (world s_ready [at_ 3; at_ 4]) w' Hk E) as (r & Hr & Hs).
  exists w', r. split_and!; [reflexivity|exact Hr|exact Hs].
Defined.

(** Without that proviso the return says nothing: an operator unloads "a" while
    the runtime is being observed, and the preload still returns. *)
Example preload_returns_moved_on :
  let r := preload_one "a" (100 * second)
             (world s_ready [at_ 3; demo_tick 4 (run_section (XUnload "a" (100 * second)))]) in
  (r.2, state <$> runtime (book (w_sched r.1)) !! "a") = (Finished (Ret tt), Some EVICTING).
Proof. ground. Qed.

(** A session on "a" is closed by its client while a lease on "a" is out. *)
Definition s_draining : ModelScheduler :=
  run_sections [XRegister "a" "client" "s1" 0 None 0; XClose "s1" "client_close" 2] s_granted.

Lemma drained_session_closed_while_busy_witness : ∃ s',
  drain_session "s1" {| w_sched := s_draining; w_now := 0; w_script := [at_ 0; at_ 100; at_ 101; at_ 102] |} =
    ({| w_sched := s'; w_now := 102; w_script := [] |}, Finished (Ret tt)) ∧
  s_phase <$> records (sessions s') !! "s1" = Some CLOSED ∧ has_leases (book s') = true.
Proof.
  assert (∃ r rt, records (sessions s_draining) !! "s1" = Some r ∧ s_phase r = DRAINING ∧
    runtime (book s_draining) !! s_model_id r = Some rt ∧ no_leases rt = false) as (r & rt & Hr & Hp & Hrt & Hl).
  { eexists _, _. split_and!; vm_compute; reflexivity. }
  assert (eviction s_draining = None) as Hev by ground.
  assert (tk_now (at_ 0) + cancel_seconds (sessions s_draining) ≤ tk_now (at_ 100)) as Hdl by ground.
  destruct (drained_session_closed_while_busy "s1" r rt s_draining 0 (at_ 0) (at_ 100) (at_ 101) (at_ 102)
    Hr Hp Hrt Hl Hev (fun _ => eq_refl) (fun _ => eq_refl) (fun _ => eq_refl) (fun _ => eq_refl) Hdl) as (s' & Hx & Hc & _ & Hb).
  exists s'. split_and!; [exact Hx|exact Hc|]. rewrite Hb. ground.
Defined.
