(* ===== verification/Registration.v ===== *)
(** * Parsing a schema-v2 deployment

    The strict parsers of [model_scheduler/contracts_v2.py], from a decoded JSON
    document to a [DeploymentSpec].  A text is a sequence of code points below
    256.  The message of a [ContractError] is cut to the check that refused. *)

From S2P Require Import Prelude Text Dict Contracts.
From Stdlib Require Import Ascii.
Local Open Scope Z_scope.

(** A decoded JSON document; a float that is not finite is [JFloat None]. *)
Inductive json :=
| JNull
| JBool (b : bool)
| JInt (n : Z)
| JFloat (q : option Q)
| JStr (s : string)
| JList (l : list json)
| JObj (fields : list (string * json)).

Definition err {A} (msg : string) : outcome A := Raise (ContractError msg).
Definition require (ok : bool) (msg : string) : outcome unit := if ok then Ret tt else err msg.

(** [data.get(key)] and [key in data] *)
Fixpoint jget (key : string) (fields : list (string * json)) : option json :=
  match fields with
  | [] => None
  | (k, v) :: fields => if String.eqb key k then Some v else jget key fields
  end.

(** ** Character classes and patterns *)
Definition in_range (lo hi : Z) (c : ascii) : bool := (lo <=? code c) && (code c <=? hi).
Definition is_digit : ascii → bool := in_range 48 57.
Definition is_lower : ascii → bool := in_range 97 122.
Definition is_alnum (c : ascii) : bool := is_digit c || is_lower c.
Definition is_hex (c : ascii) : bool := is_digit c || in_range 97 102 c.

(** [[0-9a-f]{64}] *)
Definition SHA256_RE (s : string) : bool := (Z.of_nat (String.length s) =? 64) && forallb is_hex (chars s).

(** [[a-z0-9](?:[a-z0-9._-]{0,61}[a-z0-9])?] *)
Definition ID_RE (s : string) : bool :=
  match chars s with
  | [] => false
  | c :: l =>
      is_alnum c && (Z.of_nat (length l) <=? 62)
      && forallb (fun c => is_alnum c || (code c =? 46) || (code c =? 95) || (code c =? 45)) l
      && is_alnum (List.last l c)
  end.

(** [--[a-z][a-z0-9-]*] *)
Definition FLAG_RE (s : string) : bool :=
  match chars s with
  | a :: b :: c :: l => (code a =? 45) && (code b =? 45) && is_lower c && forallb (fun c => is_alnum c || (code c =? 45)) l
  | _ => false
  end.

(** [[^@\s]+@sha256:[0-9a-f]{64}] *)
Fixpoint image_digest_chars (name : bool) (l : list Z) : bool :=
  match l with
  | [] => false
  | c :: l =>
      if c =? 64
      then name && bool_decide (firstn 7 l = codepoints "sha256:") && (Z.of_nat (length (skipn 7 l)) =? 64)
           && forallb (fun c => ((48 <=? c) && (c <=? 57)) || ((97 <=? c) && (c <=? 102))) (skipn 7 l)
      else negb (is_space c) && image_digest_chars true l
  end.
Definition IMAGE_DIGEST_RE (s : string) : bool := image_digest_chars false (codepoints s).

(** ** Strict value helpers *)
Definition as_mapping (value : option json) : outcome (list (string * json)) :=
  match value with Some (JObj f) => Ret f | _ => err "expected an object" end.

Definition exact_keys (data : list (string * json)) (allowed : list string) : outcome unit :=
  require (forallb (fun kv => bool_decide (kv.1 ∈ allowed)) data) "unknown fields".

Definition get_str (data : list (string * json)) (key : string) (pattern : string → bool) : outcome string :=
  match jget key data with
  | Some (JStr s) => if String.eqb s "" then err "must be a non-empty string"
                     else if pattern s then Ret s else err "has invalid format"
  | _ => err "must be a non-empty string"
  end.
Definition any_text : string → bool := fun _ => true.

Definition get_int (data : list (string * json)) (key : string) (minimum maximum : option Z) : outcome Z :=
  match jget key data with
  | Some (JInt n) =>
      if match minimum with Some m => n <? m | None => false end then err "must be >="
      else if match maximum with Some m => m <? n | None => false end then err "must be <="
      else Ret n
  | _ => err "must be an integer"
  end.

Definition get_bool (data : list (string * json)) (key : string) : outcome bool :=
  match jget key data with Some (JBool b) => Ret b | _ => err "must be a boolean" end.

Definition get_list (data : list (string * json)) (key : string) : outcome (list json) :=
  match jget key data with Some (JList l) => Ret l | _ => err "must be a list" end.

Definition sha256_value (value : option json) : outcome string :=
  match value with
  | Some (JStr s) => if SHA256_RE s then Ret s else err "must be a lowercase 64-hex SHA-256"
  | _ => err "must be a lowercase 64-hex SHA-256"
  end.

(** [value.split("/")] *)
Fixpoint split_slash (acc : list ascii) (l : list ascii) : list string :=
  match l with
  | [] => [String.string_of_list_ascii (rev acc)]
  | c :: l => if code c =? 47 then String.string_of_list_ascii (rev acc) :: split_slash [] l else split_slash (c :: acc) l
  end.
Definition path_parts (value : string) : list string := split_slash [] (chars value).

(** [value.startswith("/")] *)
Definition starts_with_slash (value : string) : bool :=
  match chars value with c :: _ => code c =? 47 | [] => false end.

Definition safe_relative_path (value : option json) : outcome string :=
  match value with
  | Some (JStr s) =>
      if String.eqb s "" then err "path must be a non-empty string"
      else if existsb (fun c => (code c <? 32) || (code c =? 127)) (chars s) then err "path must not contain control characters"
      else if starts_with_slash s || existsb (fun c => code c =? 92) (chars s)
      then err "path must be a relative POSIX path"
      else if existsb (fun part => bool_decide (part ∈ [""; "."; ".."])) (path_parts s)
      then err "path must not contain empty, '.' or '..' segments"
      else Ret s
  | _ => err "path must be a non-empty string"
  end.

Definition nullable_sha256 (data : list (string * json)) (key : string) : outcome (option string) :=
  match jget key data with
  | None => err "is required and must be null while the model is unmeasured"
  | Some JNull => Ret None
  | v => s ← sha256_value v; mret (Some s)
  end.

Definition nullable_positive_int (data : list (string * json)) (key : string) : outcome (option Z) :=
  match jget key data with
  | None => err "is required and must be null while the model is unmeasured"
  | Some JNull => Ret None
  | Some (JInt n) => if n <=? 0 then err "must be a positive integer" else Ret (Some n)
  | Some _ => err "must be a positive integer"
  end.

(** ** The closed tables *)
Definition ASSET_ROLES : list string := ["model"; "projector"; "tokenizer"; "config"; "auxiliary"].
Definition ALLOWED_STARTUP_FLAGS : list string :=
  ["--parallel"; "--kv-unified-per-slot"; "--image-max-tokens"; "--n-gpu-layers"; "--flash-attn"; "--load-mode";
   "--no-warmup"; "--no-webui"; "--host"; "--port"; "--ctx-size"; "--batch-size"; "--ubatch-size"; "--threads"].

(** [CAPABILITY_MATRIX]: the asset roles each capability needs. *)
Definition capability_roles (capability : string) : option (list string) :=
  if String.eqb capability "chat" then Some ["model"]
  else if String.eqb capability "vision" then Some ["model"; "projector"]
  else if String.eqb capability "embeddings" then Some ["model"]
  else if String.eqb capability "rerank" then Some ["model"]
  else None.

Record RuntimeProfile := {
  profile_id : string;
  role_cardinality : list (string * (Z * option Z));
  allowed_flags : list string;
  executable : bool;
}.

Definition GGUF_PROFILE : string := "llama-cpp-gguf-v1".
Definition HF_SHARDED_PROFILE : string := "hf-sharded-v1".

(** [PROFILES.get(profile_id)]; the cardinalities are in the sorted order the checks use. *)
Definition PROFILES (id : string) : option RuntimeProfile :=
  if String.eqb id GGUF_PROFILE
  then Some {| profile_id := GGUF_PROFILE;
               role_cardinality := [("model", (1, Some 1)); ("projector", (0, Some 1))];
               allowed_flags := ALLOWED_STARTUP_FLAGS; executable := true |}
  else if String.eqb id HF_SHARDED_PROFILE
  then Some {| profile_id := HF_SHARDED_PROFILE;
               role_cardinality := [("config", (0, Some 1)); ("model", (1, None)); ("tokenizer", (0, Some 1))];
               allowed_flags := ["--host"; "--port"; "--threads"]; executable := false |}
  else None.

Definition PORT_MIN : Z := 10001.
Definition PORT_MAX : Z := 19999.
Definition MAX_PARALLEL : Z := 64.
Definition MAX_TIMEOUT_SECONDS : Z := 86400.
Definition SCHEMA_VERSION : Z := 2.

Definition ASSET_KEYS : list string := ["role"; "path"; "sha256"; "size_bytes"].
Definition RUNTIME_KEYS : list string :=
  ["runtime_id"; "profile_id"; "image_digest"; "adapter_sha256"; "lock_sha256"; "startup_args"].
Definition ENVELOPE_KEYS : list string :=
  ["ctx_size"; "max_input_tokens"; "max_output_tokens"; "max_parallel"; "max_image_tokens";
   "max_image_edge_pixels"; "max_images"].
Definition MODEL_KEYS : list string :=
  ["model_id"; "runtime_id"; "capabilities"; "assets"; "port"; "envelope"; "timeout_seconds"; "reserved_bytes";
   "measured"; "measurement_ref"; "physical_resident_peak_bytes"].
Definition DEPLOYMENT_KEYS : list string := ["schema_version"; "runtimes"; "models"].

(** ** Parsers *)
Definition parse_asset_ref (v : json) : outcome AssetRef :=
  data ← as_mapping (Some v);
  _ ← exact_keys data ASSET_KEYS;
  role ← get_str data "role" any_text;
  _ ← require (bool_decide (role ∈ ASSET_ROLES)) "unknown asset role";
  path ← safe_relative_path (jget "path" data);
  sha ← sha256_value (jget "sha256" data);
  size ← get_int data "size_bytes" (Some 1) None;
  mret {| asset_role := role; asset_path := path; asset_sha256 := sha; asset_size_bytes := size |}.

(** The loop of [_parse_startup_args], with the flags seen so far. *)
Fixpoint parse_startup_args (profile : RuntimeProfile) (seen : list string) (raw : list json) : outcome (list string) :=
  match raw with
  | [] => mret []
  | JStr item :: raw =>
      _ ← require (FLAG_RE item) "invalid startup arg";
      _ ← require (bool_decide (item ∈ ALLOWED_STARTUP_FLAGS)) "startup arg is not allowed";
      _ ← require (bool_decide (item ∈ allowed_flags profile)) "startup arg is not allowed by profile";
      _ ← require (negb (bool_decide (item ∈ seen))) "duplicate startup arg";
      rest ← parse_startup_args profile (item :: seen) raw;
      mret (item :: rest)
  | _ => err "invalid startup arg"
  end.

Definition parse_runtime_spec (v : json) : outcome RuntimeSpec :=
  data ← as_mapping (Some v);
  _ ← exact_keys data RUNTIME_KEYS;
  rid ← get_str data "runtime_id" ID_RE;
  pid ← get_str data "profile_id" any_text;
  profile ← of_option (ContractError "unknown runtime profile") (PROFILES pid);
  digest ← get_str data "image_digest" any_text;
  _ ← require (IMAGE_DIGEST_RE digest) "image_digest must be a digest reference, not a floating tag";
  adapter ← sha256_value (jget "adapter_sha256" data);
  lock ← sha256_value (jget "lock_sha256" data);
  raw ← get_list data "startup_args";
  args ← parse_startup_args profile [] raw;
  mret {| rt_runtime_id := rid; rt_profile_id := pid; rt_image_digest := digest;
          rt_adapter_sha256 := adapter; rt_lock_sha256 := lock; rt_startup_args := args |}.

Definition require_startable_profile (runtime : RuntimeSpec) : outcome RuntimeProfile :=
  profile ← of_option (KeyError (rt_profile_id runtime)) (PROFILES (rt_profile_id runtime));
  _ ← require (executable profile) "profile is registration-only";
  mret profile.

Definition parse_envelope (v : json) : outcome Envelope :=
  data ← as_mapping (Some v);
  _ ← exact_keys data ENVELOPE_KEYS;
  ctx ← get_int data "ctx_size" (Some 512) None;
  max_input ← get_int data "max_input_tokens" (Some 1) None;
  max_output ← get_int data "max_output_tokens" (Some 1) None;
  parallel ← get_int data "max_parallel" (Some 1) (Some MAX_PARALLEL);
  image_tokens ← get_int data "max_image_tokens" (Some 0) None;
  image_edge ← get_int data "max_image_edge_pixels" (Some 0) None;
  images ← get_int data "max_images" (Some 0) None;
  _ ← require (max_input + max_output <=? ctx) "max_input_tokens + max_output_tokens exceeds ctx_size";
  _ ← require (image_tokens <? max_input) "max_image_tokens must be smaller than max_input_tokens";
  _ ← require (bool_decide ((image_tokens =? 0) = (image_edge =? 0)))
        "max_image_tokens and max_image_edge_pixels must both be zero or both be set";
  _ ← require (bool_decide ((0 <? images) = (0 <? image_tokens)))
        "max_images must be positive exactly when max_image_tokens is";
  _ ← require ((image_edge =? 0) || (28 <=? image_edge)) "max_image_edge_pixels is too small";
  mret {| ctx_size := ctx; max_input_tokens := max_input; max_output_tokens := max_output; max_parallel := parallel;
          max_image_tokens := image_tokens; max_image_edge_pixels := image_edge; max_images := images |}.

(** The loop of [_parse_capabilities]. *)
Fixpoint parse_capabilities (seen : list string) (raw : list json) : outcome (list string) :=
  match raw with
  | [] => mret []
  | JStr item :: raw =>
      _ ← require (bool_decide (is_Some (capability_roles item))) "unknown capability";
      _ ← require (negb (bool_decide (item ∈ seen))) "duplicate capability";
      rest ← parse_capabilities (item :: seen) raw;
      mret (item :: rest)
  | _ => err "unknown capability"
  end.

(** The loop of [_parse_assets]: paths are unique, one role may span files. *)
Fixpoint parse_asset_list (paths : list string) (raw : list json) : outcome (list AssetRef) :=
  match raw with
  | [] => mret []
  | item :: raw =>
      asset ← parse_asset_ref item;
      _ ← require (negb (bool_decide (asset_path asset ∈ paths))) "duplicate asset path";
      rest ← parse_asset_list (asset_path asset :: paths) raw;
      mret (asset :: rest)
  end.

(** The asset roles the capabilities need. *)
Definition required_roles (capabilities : list string) : list string :=
  c ← capabilities; default [] (capability_roles c).

Definition parse_assets (capabilities : list string) (raw : list json) : outcome (list AssetRef) :=
  _ ← require (negb (bool_decide (length raw = 0%nat))) "assets must not be empty";
  assets ← parse_asset_list [] raw;
  _ ← require (forallb (fun role => bool_decide (role ∈ map asset_role assets)) (required_roles capabilities))
        "capabilities require missing asset roles";
  mret assets.

Definition vision_of (capabilities : list string) : bool := bool_decide ("vision" ∈ capabilities).

Definition parse_model_spec (v : json) : outcome RegisteredModelSpec :=
  data ← as_mapping (Some v);
  _ ← exact_keys data MODEL_KEYS;
  mid ← get_str data "model_id" ID_RE;
  rid ← get_str data "runtime_id" ID_RE;
  raw_caps ← get_list data "capabilities";
  _ ← require (negb (bool_decide (length raw_caps = 0%nat))) "capabilities must not be empty";
  capabilities ← parse_capabilities [] raw_caps;
  raw_assets ← get_list data "assets";
  assets ← parse_assets capabilities raw_assets;
  port ← get_int data "port" (Some PORT_MIN) (Some PORT_MAX);
  env_data ← as_mapping (jget "envelope" data);
  envelope ← parse_envelope (JObj env_data);
  timeout ← get_int data "timeout_seconds" (Some 1) (Some MAX_TIMEOUT_SECONDS);
  reserved ← get_int data "reserved_bytes" (Some 1) None;
  measured ← get_bool data "measured";
  ref ← nullable_sha256 data "measurement_ref";
  peak ← nullable_positive_int data "physical_resident_peak_bytes";
  _ ← require (negb (measured && (bool_decide (ref = None) || bool_decide (peak = None))))
        "measured models must bind measurement_ref and physical_resident_peak_bytes";
  _ ← require (measured || (bool_decide (ref = None) && bool_decide (peak = None)))
        "measurement_ref and physical_resident_peak_bytes require measured=true";
  _ ← (if vision_of capabilities
       then _ ← require (0 <? max_image_tokens envelope) "vision capability requires a positive max_image_tokens";
            require (0 <? max_images envelope) "vision capability requires max_images >= 1"
       else require (max_images envelope =? 0) "max_images must be 0 without the vision capability");
  mret {| v2_model_id := mid; v2_runtime_id := rid; v2_capabilities := capabilities; v2_assets := assets;
          v2_port := port; v2_envelope := envelope; v2_timeout_seconds := timeout; v2_reserved_bytes := reserved;
          v2_measured := measured; v2_measurement_ref := ref; v2_physical_resident_peak_bytes := peak |}.

(** [counts.get(role, 0)] *)
Definition role_count (assets : list AssetRef) (role : string) : Z :=
  Z.of_nat (length (List.filter (fun a => String.eqb (asset_role a) role) assets)).

Definition validate_model_against_profile (model : RegisteredModelSpec) (profile : RuntimeProfile) : outcome unit :=
  _ ← require (forallb (fun a => bool_decide (asset_role a ∈ map fst (role_cardinality profile))) (v2_assets model))
        "profile does not allow asset role";
  _ ← check_each (role_cardinality profile) (fun rc =>
        _ ← require (rc.2.1 <=? role_count (v2_assets model) rc.1) "profile requires at least";
        require (match rc.2.2 with Some m => role_count (v2_assets model) rc.1 <=? m | None => true end)
          "profile allows at most");
  require ((role_count (v2_assets model) "projector" =? 0) || vision_of (v2_capabilities model))
    "a projector asset requires the vision capability".

Definition require_production_openable (model : RegisteredModelSpec) (runtime : RuntimeSpec) : outcome unit :=
  _ ← require_startable_profile runtime;
  require (v2_measured model && bool_decide (is_Some (v2_measurement_ref model))
           && bool_decide (is_Some (v2_physical_resident_peak_bytes model)))
    "production requires measured=true with a measurement_ref and a physical_resident_peak_bytes".

(** The loop over [runtimes]. *)
Fixpoint parse_runtimes (seen : list string) (raw : list json) : outcome (list RuntimeSpec) :=
  match raw with
  | [] => mret []
  | item :: raw =>
      runtime ← parse_runtime_spec item;
      _ ← require (negb (bool_decide (rt_runtime_id runtime ∈ seen))) "duplicate runtime_id";
      rest ← parse_runtimes (rt_runtime_id runtime :: seen) raw;
      mret (runtime :: rest)
  end.

Definition find_runtime (runtimes : list RuntimeSpec) (id : string) : option RuntimeSpec :=
  List.find (fun r => String.eqb (rt_runtime_id r) id) runtimes.

(** The loop over [models], with the ids and ports seen so far. *)
Fixpoint parse_models (runtimes : list RuntimeSpec) (ids : list string) (ports : list Z) (raw : list json)
    : outcome (list RegisteredModelSpec) :=
  match raw with
  | [] => mret []
  | item :: raw =>
      model ← parse_model_spec item;
      _ ← require (negb (bool_decide (v2_model_id model ∈ ids))) "duplicate model_id";
      _ ← require (negb (bool_decide (v2_port model ∈ ports))) "duplicate port";
      runtime ← of_option (ContractError "references unknown runtime") (find_runtime runtimes (v2_runtime_id model));
      profile ← of_option (KeyError (rt_profile_id runtime)) (PROFILES (rt_profile_id runtime));
      _ ← validate_model_against_profile model profile;
      rest ← parse_models runtimes (v2_model_id model :: ids) (v2_port model :: ports) raw;
      mret (model :: rest)
  end.

Definition parse_deployment (v : json) : outcome DeploymentSpec :=
  data ← as_mapping (Some v);
  _ ← exact_keys data DEPLOYMENT_KEYS;
  version ← get_int data "schema_version" None None;
  _ ← require (version =? SCHEMA_VERSION) "unsupported schema_version";
  raw_runtimes ← get_list data "runtimes";
  _ ← require (negb (bool_decide (length raw_runtimes = 0%nat))) "runtimes must not be empty";
  runtimes ← parse_runtimes [] raw_runtimes;
  raw_models ← get_list data "models";
  _ ← require (negb (bool_decide (length raw_models = 0%nat))) "models must not be empty";
  models ← parse_models runtimes [] [] raw_models;
  mret {| dep_runtimes := runtimes; dep_models := models |}.

(** ** Reading the document *)

(** [_reject_duplicate_keys]: the object hook of the JSON reader. *)
Fixpoint reject_duplicate_keys (seen : list string) (pairs : list (string * json)) : outcome (list (string * json)) :=
  match pairs with
  | [] => mret []
  | (k, v) :: pairs =>
      _ ← require (negb (bool_decide (k ∈ seen))) "duplicate JSON key";
      rest ← reject_duplicate_keys (k :: seen) pairs;
      mret ((k, v) :: rest)
  end.

(** [_check_finite], at any depth. *)
Fixpoint check_finite (v : json) : outcome unit :=
  match v with
  | JFloat None => err "non-finite numbers are not allowed"
  | JObj fields => (fix go l := match l with [] => Ret tt | kv :: l => _ ← check_finite (snd kv); go l end) fields
  | JList items => (fix go l := match l with [] => Ret tt | x :: l => _ ← check_finite x; go l end) items
  | _ => Ret tt
  end.
