(* ===== verification/JsonText.v ===== *)
(** * JSON text

    [json.loads] and [json.dumps] of the standard library as the service uses
    them: the reader with its number, string and nesting grammar, the compact
    writer with sorted keys, and [canonical_json_bytes] and
    [parse_json_document] of [model_scheduler/contracts_v2.py] on top of them.
    A float is the rational its text denotes, infinite when it exceeds the
    largest double; how a float prints is an interface. *)

From S2P Require Import Prelude Text Dict Contracts Registration.
From Stdlib Require Import Ascii QArith Qreduction.
Local Open Scope Z_scope.

(** ** Reading *)

(** [WHITESPACE], [[ \t\n\r]*] *)
Definition is_ws (c : ascii) : bool := bool_decide (code c ∈ [32; 9; 10; 13]).
Fixpoint skip_ws (s : string) : string :=
  match s with String c s' => if is_ws c then skip_ws s' else s | EmptyString => s end.

Definition hex_value (c : ascii) : option Z :=
  if is_digit c then Some (code c - 48)
  else if in_range 97 102 c then Some (code c - 87)
  else if in_range 65 70 c then Some (code c - 55)
  else None.

(** [_decode_uXXXX] *)
Definition hex4 (s : string) : option (Z * string) :=
  match s with
  | String a (String b (String c (String d s))) =>
      a ← hex_value a; b ← hex_value b; c ← hex_value c; d ← hex_value d;
      Some (a * 4096 + b * 256 + c * 16 + d, s)
  | _ => None
  end.

(** The escapes of one character. *)
Definition backslash_char (c : ascii) : option ascii :=
  let n := code c in
  if (n =? 34) || (n =? 92) || (n =? 47) then Some c
  else if n =? 98 then Some (byte 8)
  else if n =? 102 then Some (byte 12)
  else if n =? 110 then Some (byte 10)
  else if n =? 114 then Some (byte 13)
  else if n =? 116 then Some (byte 9)
  else None.

(** After [\u]: one code point, two escapes when they are a surrogate pair. *)
Definition unicode_escape (s : string) : option (Z * string) :=
  '(hi, s1) ← hex4 s;
  match s1 with
  | String a (String b s2) =>
      if (55296 <=? hi) && (hi <=? 56319) && (code a =? 92) && (code b =? 117)
      then '(lo, s3) ← hex4 s2;
           if (56320 <=? lo) && (lo <=? 57343)
           then Some (65536 + (hi - 55296) * 1024 + (lo - 56320), s3) else Some (hi, s1)
      else Some (hi, s1)
  | _ => Some (hi, s1)
  end.

(** [scanstring] in strict mode, from behind the opening quote. *)
Fixpoint scan_string (fuel : nat) (s : string) : option (string * string) :=
  match fuel, s with
  | S fuel, String c s =>
      if code c =? 34 then Some ("", s)
      else if code c <? 32 then None
      else if code c =? 92 then
        match s with
        | EmptyString => None
        | String e s =>
            if code e =? 117 then
              '(cp, s) ← unicode_escape s;
              '(t, s) ← scan_string fuel s;
              Some (utf8 cp +:+ t, s)
            else
              c ← backslash_char e;
              '(t, s) ← scan_string fuel s;
              Some (String c t, s)
        end
      else '(t, s) ← scan_string fuel s; Some (String c t, s)
  | _, _ => None
  end.

(** ** Numbers ([NUMBER_RE]): an integer part without leading zeros, then
    optionally a fraction and an exponent *)
Fixpoint digits (s : string) : list Z * string :=
  match s with
  | String c s' => if is_digit c then let (ds, r) := digits s' in (code c - 48 :: ds, r) else ([], s)
  | EmptyString => ([], s)
  end.
Definition number_of (ds : list Z) : Z := fold_left (fun n d => 10 * n + d) ds 0.

(** The fraction digits, when a point and a digit follow. *)
Definition fraction (s : string) : option (list Z) * string :=
  match s with
  | String c s' => if code c =? 46 then match digits s' with ([], _) => (None, s) | (ds, r) => (Some ds, r) end else (None, s)
  | EmptyString => (None, s)
  end.
Definition exponent (s : string) : option Z * string :=
  match s with
  | String c s1 =>
      if (code c =? 101) || (code c =? 69) then
        let '(sign, s2) := match s1 with
                           | String d s2 => if code d =? 45 then (-1, s2) else if code d =? 43 then (1, s2) else (1, s1)
                           | EmptyString => (1, s1)
                           end in
        match digits s2 with ([], _) => (None, s) | (ds, r) => (Some (sign * number_of ds), r) end
      else (None, s)
  | EmptyString => (None, s)
  end.

(** The first double that would round to infinity. *)
Definition FLOAT_OVERFLOW : Z := 2 ^ 1024 - 2 ^ 970.
Definition float_value (q : Q) : json :=
  if Qle_bool (inject_Z FLOAT_OVERFLOW) q || Qle_bool q (inject_Z (- FLOAT_OVERFLOW)) then JFloat None else JFloat (Some (Qred q)).

Definition decimal (sign : Z) (int frac : list Z) (e : Z) : Q :=
  let e := e - Z.of_nat (length frac) in
  let m := inject_Z (sign * number_of (int ++ frac)) in
  (if 0 <=? e then m * inject_Z (10 ^ e) else m / inject_Z (10 ^ (- e)))%Q.

Definition read_number (s : string) : option (json * string) :=
  let '(sign, s1) := match s with String c s' => if code c =? 45 then (-1, s') else (1, s) | EmptyString => (1, s) end in
  match digits s1 with
  | ([], _) => None
  | (d :: ds, r) =>
      let '(int, r) := if d =? 0 then ([0], match s1 with String _ r => r | EmptyString => r end) else (d :: ds, r) in
      let '(f, r) := fraction r in
      let '(e, r) := exponent r in
      match f, e with
      | None, None => Some (JInt (sign * number_of int), r)
      | _, _ => Some (float_value (decimal sign int (default [] f) (default 0 e)), r)
      end
  end.

(** ** Values *)

(** What [parse_constant] and [object_pairs_hook] do. *)
Record Hooks := {
  on_constant : string → outcome json;
  on_object : list (string * json) → outcome json;
}.

Definition bad_json {A} : outcome A := Raise (ValueError "JSONDecodeError").

(** [s.startswith(word)], with the rest. *)
Fixpoint after (word s : string) : option string :=
  match word, s with
  | EmptyString, _ => Some s
  | String a w, String b s => if Ascii.eqb a b then after w s else None
  | String _ _, EmptyString => None
  end.

Definition scan_key (s : string) : outcome (string * string) :=
  of_option (ValueError "JSONDecodeError") (scan_string (String.length s) s).

Section Reader.
Context (hooks : Hooks).

Definition read_literal (s : string) : outcome (json * string) :=
  match after "null" s, after "true" s, after "false" s with
  | Some r, _, _ => Ret (JNull, r)
  | _, Some r, _ => Ret (JBool true, r)
  | _, _, Some r => Ret (JBool false, r)
  | _, _, _ =>
      match read_number s with
      | Some (v, r) => Ret (v, r)
      | None =>
          match after "NaN" s, after "Infinity" s, after "-Infinity" s with
          | Some r, _, _ => v ← on_constant hooks "NaN"; Ret (v, r)
          | _, Some r, _ => v ← on_constant hooks "Infinity"; Ret (v, r)
          | _, _, Some r => v ← on_constant hooks "-Infinity"; Ret (v, r)
          | _, _, _ => bad_json
          end
      end
  end.

(** [scan_once], the members of an object from a key's opening quote on, and
    the elements of an array from an element on. *)
Fixpoint read_value (fuel : nat) (s : string) : outcome (json * string) :=
  match fuel, s with
  | S fuel, String c s' =>
      if code c =? 34 then '(t, r) ← scan_key s'; Ret (JStr t, r)
      else if code c =? 123 then
        let s1 := skip_ws s' in
        match s1 with
        | String d r =>
            if code d =? 125 then v ← on_object hooks []; Ret (v, r)
            else '(fields, r) ← read_members fuel s1; v ← on_object hooks fields; Ret (v, r)
        | EmptyString => bad_json
        end
      else if code c =? 91 then
        let s1 := skip_ws s' in
        match s1 with
        | String d r => if code d =? 93 then Ret (JList [], r) else '(items, r) ← read_elements fuel s1; Ret (JList items, r)
        | EmptyString => bad_json
        end
      else read_literal s
  | _, _ => bad_json
  end
with read_members (fuel : nat) (s : string) : outcome (list (string * json) * string) :=
  match fuel, s with
  | S fuel, String q s =>
      if negb (code q =? 34) then bad_json
      else
        '(key, s) ← scan_key s;
        match skip_ws s with
        | String colon s =>
            if negb (code colon =? 58) then bad_json
            else
              '(v, s) ← read_value fuel (skip_ws s);
              match skip_ws s with
              | String d s =>
                  if code d =? 125 then Ret ([(key, v)], s)
                  else if code d =? 44 then '(fields, s) ← read_members fuel (skip_ws s); Ret ((key, v) :: fields, s)
                  else bad_json
              | EmptyString => bad_json
              end
        | EmptyString => bad_json
        end
  | _, _ => bad_json
  end
with read_elements (fuel : nat) (s : string) : outcome (list json * string) :=
  match fuel with
  | S fuel =>
      '(v, s) ← read_value fuel s;
      match skip_ws s with
      | String d s =>
          if code d =? 93 then Ret ([v], s)
          else if code d =? 44 then '(items, s) ← read_elements fuel (skip_ws s); Ret (v :: items, s)
          else bad_json
      | EmptyString => bad_json
      end
  | O => bad_json
  end.

(** [json.loads(s)]: every call of the reader takes a character, so the length
    of the text is enough fuel. *)
Definition loads (s : string) : outcome json :=
  '(v, r) ← read_value (String.length s) (skip_ws s);
  match skip_ws r with EmptyString => Ret v | String _ _ => bad_json end.
End Reader.

(** [dict(pairs)]: a later pair replaces the value of an earlier one. *)
Definition dict_of (pairs : list (string * json)) : list (string * json) :=
  fold_left (fun d kv => assoc_set kv.1 kv.2 d) pairs [].
Definition plain_hooks : Hooks :=
  {| on_constant := fun _ => Ret (JFloat None); on_object := fun pairs => Ret (JObj (dict_of pairs)) |}.

(** [_reject_constant] and [_reject_duplicate_keys] *)
Definition strict_hooks : Hooks :=
  {| on_constant := fun _ => err "non-finite JSON number";
     on_object := fun pairs => fields ← reject_duplicate_keys [] pairs; Ret (JObj fields) |}.

Definition parse_json_document (text : string) : outcome json :=
  document ← match loads strict_hooks text with
             | Raise (ValueError _) => err "invalid JSON"
             | r => r
             end;
  _ ← check_finite document;
  mret document.

(** ** Writing *)
Definition hex_digit (n : Z) : ascii := byte (if n <? 10 then 48 + n else 87 + n).
Definition u_escape (n : Z) : string :=
  "\u" +:+ String (hex_digit (n / 4096)) (String (hex_digit (n / 256 mod 16))
    (String (hex_digit (n / 16 mod 16)) (String (hex_digit (n mod 16)) ""))).

(** The escape of a character below 128, if it has one. *)
Definition short_escape (n : Z) : option string :=
  if n =? 34 then Some (String (byte 92) (String (byte 34) ""))
  else if n =? 92 then Some "\\"
  else if n =? 10 then Some "\n"
  else if n =? 13 then Some "\r"
  else if n =? 9 then Some "\t"
  else if n =? 12 then Some "\f"
  else if n =? 8 then Some "\b"
  else None.

(** [ensure_ascii=False]: only quotes, backslashes and controls are escaped. *)
Definition raw_char (c : ascii) : string :=
  match short_escape (code c) with
  | Some e => e
  | None => if code c <? 32 then u_escape (code c) else String c ""
  end.
(** [ensure_ascii=True]: anything outside [ -~] too, as one or two escapes. *)
Definition ascii_char (cp : Z) : string :=
  match short_escape cp with
  | Some e => e
  | None =>
      if (32 <=? cp) && (cp <=? 126) then String (byte cp) ""
      else if cp <? 65536 then u_escape cp
      else u_escape (55296 + (cp - 65536) / 1024) +:+ u_escape (56320 + (cp - 65536) mod 1024)
  end.

Definition quoted (body : string) : string := String (byte 34) (body +:+ String (byte 34) "").
Definition json_string (ensure_ascii : bool) (s : string) : string :=
  quoted (concat_text (if ensure_ascii then ascii_char <$> codepoints s else raw_char <$> chars s)).

(** [str(n)]: the decimal digits of [n], most significant first. *)
Fixpoint to_digits (fuel : nat) (n : Z) (acc : list Z) : list Z :=
  match fuel with
  | O => acc
  | S fuel => if n <? 10 then n :: acc else to_digits fuel (n / 10) (n mod 10 :: acc)
  end.
Definition digit_text (ds : list Z) : string := concat_text (map (fun d => String (byte (48 + d)) "") ds).
Definition nat_text (n : Z) : string := digit_text (to_digits (S (Z.to_nat (Z.log2 n))) n []).
Definition int_text (n : Z) : string := if n <? 0 then "-" +:+ nat_text (- n) else nat_text n.

(** [repr(x)] of a finite float, and [float(text)]: [None] where it raises
    [ValueError], [Some None] for an infinity or a NaN. *)
Class FloatText := { float_text : Q → string; read_float : string → option (option Q) }.

Fixpoint join (sep : string) (l : list string) : string :=
  match l with [] => "" | [a] => a | a :: l => a +:+ sep +:+ join sep l end.

(** Insertion of one field by its key, and [sorted(dct.items())]. *)
Fixpoint insert_field (kv : string * json) (l : list (string * json)) : list (string * json) :=
  match l with
  | [] => [kv]
  | kv' :: l' => if String.leb kv.1 kv'.1 then kv :: l else kv' :: insert_field kv l'
  end.
Definition sort_fields (l : list (string * json)) : list (string * json) := foldr insert_field [] l.

(** The value with every object's keys sorted. *)
Fixpoint sorted_keys (v : json) : json :=
  match v with
  | JList l => JList (map sorted_keys l)
  | JObj fields => JObj (sort_fields (map (fun kv => (kv.1, sorted_keys kv.2)) fields))
  | _ => v
  end.

Section Writer.
Context `{FloatText} (ensure_ascii : bool).

Fixpoint write (v : json) : string :=
  match v with
  | JNull => "null"
  | JBool true => "true"
  | JBool false => "false"
  | JInt n => int_text n
  | JFloat None => "NaN"
  | JFloat (Some q) => float_text q
  | JStr s => json_string ensure_ascii s
  | JList l => "[" +:+ join "," (map write l) +:+ "]"
  | JObj fields => "{" +:+ join "," (map (fun kv => json_string ensure_ascii kv.1 +:+ ":" +:+ write kv.2) fields) +:+ "}"
  end.

(** [json.dumps(v, sort_keys=True, separators=(",", ":"))] *)
Definition dumps (v : json) : string := write (sorted_keys v).
End Writer.

Fixpoint all_finite (v : json) : bool :=
  match v with
  | JFloat None => false
  | JList l => forallb all_finite l
  | JObj fields => forallb (fun kv => all_finite kv.2) fields
  | _ => true
  end.

(** [allow_nan=False], then [.encode("utf-8")], which refuses surrogates. *)
Definition canonical_json_bytes `{FloatText} (v : json) : outcome string :=
  if negb (all_finite v) then Raise (ValueError "Out of range float values are not JSON compliant")
  else if encodable (dumps false v) then Ret (dumps false v) else Raise (ValueError "UnicodeEncodeError").

(** ** Floats with at most three decimals

    [repr] of a float that is a number of thousandths: the shortest decimal
    text, with at least one digit after the point. *)
Definition thousandths_fraction (f : Z) : list Z :=
  if f mod 10 =? 0 then if f mod 100 =? 0 then [f / 100] else [f / 100; f / 10 mod 10]
  else [f / 100; f / 10 mod 10; f mod 10].
Definition thousandths_text (n : Z) : string :=
  (if n <? 0 then "-" else "") +:+ nat_text (Z.abs n / 1000) +:+ "." +:+ digit_text (thousandths_fraction (Z.abs n mod 1000)).
Definition thousandths (n : Z) : Q := Qred (n # 1000).

Definition thousandths_floats : FloatText := {|
  float_text := fun q => thousandths_text (Qnum (q * (1000 # 1)) / QDen (q * (1000 # 1)));
  read_float := fun s =>
    match read_number s with
    | Some (JFloat q, EmptyString) => Some q
    | Some (JInt n, EmptyString) => Some (Some (inject_Z n))
    | _ => None
    end;
|}.
