(* ===== verification/JsonTextProps.v ===== *)
(** * Reading back what was written

    The reader inverts the writer: for every value the writer is used on,
    reading its text gives the value back, whatever follows it.  Two values
    with the same canonical text are therefore the same value. *)

From S2P Require Import Prelude Text Dict Contracts Registration JsonText.
From Stdlib Require Import Ascii.
Local Open Scope Z_scope.

(** ** Strings *)
Lemma unicode_escape_low s hi s1 : hex4 s = Some (hi, s1) → hi < 55296 → unicode_escape s = Some (hi, s1).
Proof.
  intros Hx Hhi. unfold unicode_escape. rewrite Hx. unfold mbind, option_bind.
  destruct s1 as [|a [|b s2]]; [done..|]. by rewrite (proj2 (Z.leb_gt 55296 hi)).
Qed.

Lemma hex_value_digit n : 0 ≤ n < 16 → hex_value (hex_digit n) = Some n.
Proof.
  intros Hn. assert (n ∈ [0;1;2;3;4;5;6;7;8;9;10;11;12;13;14;15]) as Hin by (rewrite !elem_of_cons; lia).
  repeat (apply elem_of_cons in Hin as [->|Hin]; [reflexivity|]). by apply not_elem_of_nil in Hin.
Qed.

Lemma hex4_u n s : 0 ≤ n < 65536 →
  hex4 (String (hex_digit (n / 4096)) (String (hex_digit (n / 256 mod 16)) (String (hex_digit (n / 16 mod 16)) (String (hex_digit (n mod 16)) s)))) = Some (n, s).
Proof.
  intros Hn. unfold hex4. rewrite !hex_value_digit by (Z.div_mod_to_equations; lia). unfold mbind, option_bind.
  f_equal. f_equal. Z.div_mod_to_equations; lia.
Qed.


(** One character read back, in each of its written forms. *)
Lemma scan_plain fuel c s t r :
  32 ≤ code c → code c ≠ 34 → code c ≠ 92 → scan_string fuel s = Some (t, r) →
  scan_string (S fuel) (String c s) = Some (String c t, r).
Proof.
  intros H1 H2 H3 Hs. simpl. rewrite (proj2 (Z.eqb_neq _ _) H2), (proj2 (Z.ltb_ge _ _) H1), (proj2 (Z.eqb_neq _ _) H3).
  by rewrite Hs.
Qed.
Lemma scan_short fuel n e s t r :
  short_escape n = Some e → scan_string fuel s = Some (t, r) → scan_string (S fuel) (e +:+ s) = Some (String (byte n) t, r).
Proof.
  intros He Hs. unfold short_escape in He.
  repeat match type of He with (if ?n =? ?k then _ else _) = _ => destruct (Z.eqb_spec n k) as [->|_]; [injection He as <-|] end.
  all: try done.
  all: simpl; change ("" +:+ s) with s; rewrite Hs; reflexivity.
Qed.
Lemma scan_u fuel n s t r :
  0 ≤ n < 55296 → scan_string fuel s = Some (t, r) → scan_string (S fuel) (u_escape n +:+ s) = Some (utf8 n +:+ t, r).
Proof.
  intros Hn Hs. unfold u_escape.
  change (("\u" +:+ String (hex_digit (n / 4096)) (String (hex_digit (n / 256 mod 16)) (String (hex_digit (n / 16 mod 16)) (String (hex_digit (n mod 16)) "")))) +:+ s)
    with (String "\" (String "u" (String (hex_digit (n / 4096)) (String (hex_digit (n / 256 mod 16)) (String (hex_digit (n / 16 mod 16)) (String (hex_digit (n mod 16)) s)))))).
  cbn [scan_string]. change (code "\") with 92. change (code "u") with 117. cbv [Z.eqb Z.ltb Z.compare Pos.compare Pos.compare_cont Pos.eqb].
  erewrite unicode_escape_low; [|apply hex4_u; lia|lia]. unfold mbind, option_bind. by rewrite Hs.
Qed.

Lemma scan_raw_char fuel c s t r :
  scan_string fuel s = Some (t, r) → scan_string (S fuel) (raw_char c +:+ s) = Some (String c t, r).
Proof.
  intros Hs. unfold raw_char. destruct (short_escape (code c)) as [e|] eqn:He.
  - rewrite (scan_short fuel (code c) e s t r He Hs). by rewrite byte_code.
  - destruct (code c <? 32) eqn:Hc.
    + bool_prop. pose proof (code_range c). rewrite (scan_u fuel (code c) s t r) by (done || lia).
      rewrite utf8_ascii by lia. by rewrite byte_code.
    + bool_prop. unfold short_escape in He. apply scan_plain; [done| | |done].
      * intros E. by rewrite E in He.
      * intros E. by rewrite E in He.
Qed.

Lemma scan_raw s fuel rest :
  (String.length s < fuel)%nat →
  scan_string fuel (concat_text (raw_char <$> chars s) +:+ String (byte 34) rest) = Some (s, rest).
Proof.
  revert fuel. induction s as [|c s IH]; intros [|fuel] Hf; simpl in Hf; try lia; [done|].
  change (chars (String c s)) with (c :: chars s). rewrite fmap_cons.
  change (concat_text (raw_char c :: (raw_char <$> chars s))) with (raw_char c +:+ concat_text (raw_char <$> chars s)).
  rewrite append_assoc. apply scan_raw_char, IH. lia.
Qed.

Lemma raw_char_length c : (1 ≤ String.length (raw_char c))%nat.
Proof.
  unfold raw_char, short_escape. repeat case_match; simplify_eq; simpl; lia.
Qed.
Lemma raw_length s : (String.length s ≤ String.length (concat_text (raw_char <$> chars s)))%nat.
Proof.
  induction s as [|c s IH]; simpl; [lia|]. change (String.list_ascii_of_string s) with (chars s).
  rewrite append_length. pose proof (raw_char_length c). unfold fmap in IH. lia.
Qed.

(** A written string, from behind its opening quote. *)
Lemma scan_key_raw s rest :
  scan_key (concat_text (raw_char <$> chars s) +:+ String (byte 34) rest) = Ret (s, rest).
Proof.
  unfold scan_key. rewrite scan_raw; [done|]. rewrite append_length. pose proof (raw_length s). simpl. lia.
Qed.

(** ** Integers *)
Definition digit (d : Z) : Prop := 0 ≤ d ≤ 9.

(** A text that does not continue a number. *)
Definition stops (rest : string) : Prop :=
  match rest with
  | EmptyString => True
  | String c _ => is_digit c = false ∧ code c ≠ 46 ∧ code c ≠ 101 ∧ code c ≠ 69
  end.

Lemma digits_text ds rest :
  Forall digit ds → match rest with String c _ => is_digit c = false | EmptyString => True end →
  digits (digit_text ds +:+ rest) = (ds, rest).
Proof.
  intros Hd Hr. induction Hd as [|d ds Hd Hds IH]; simpl.
  - destruct rest as [|c rest]; [done|]. simpl. by rewrite Hr.
  - change (digits (String (byte (48 + d)) (digit_text ds +:+ rest)) = (d :: ds, rest)). cbn [digits]. unfold digit in Hd.
    assert (is_digit (byte (48 + d)) = true) as ->.
    { unfold is_digit, in_range. rewrite code_byte by lia. apply andb_true_iff. split; apply Z.leb_le; lia. }
    rewrite IH, code_byte by lia. f_equal. f_equal. lia.
Qed.

Lemma to_digits_spec fuel n acc :
  0 ≤ n < 10 ^ Z.of_nat fuel → (0 < fuel)%nat → Forall digit acc →
  Forall digit (to_digits fuel n acc) ∧
  (∃ d ds, to_digits fuel n acc = d :: ds ∧ (d = 0 → n = 0 ∧ ds = acc)) ∧
  fold_left (fun n d => 10 * n + d) (to_digits fuel n acc) 0 = fold_left (fun n d => 10 * n + d) acc n.
Proof.
  revert n acc. induction fuel as [|fuel IH]; intros n acc Hn Hf Hacc; [lia|]. cbn [to_digits].
  destruct (n <? 10) eqn:E; bool_prop.
  - split_and!; [constructor; [unfold digit; lia|done]|by exists n, acc|done].
  - rewrite Nat2Z.inj_succ, Z.pow_succ_r in Hn by lia.
    destruct (IH (n / 10) (n mod 10 :: acc)) as (H1 & (d & ds & H2 & H3) & H4).
    + Z.div_mod_to_equations; lia.
    + destruct fuel; [simpl in Hn; lia|lia].
    + constructor; [unfold digit; Z.div_mod_to_equations; lia|done].
    + split_and!; [done| |].
      * exists d, ds. split; [done|]. intros ->. destruct H3 as [H3 _]; [done|]. Z.div_mod_to_equations; lia.
      * rewrite H4. simpl. f_equal. Z.div_mod_to_equations; lia.
Qed.

Lemma nat_digits n : 0 ≤ n →
  ∃ d ds, nat_text n = digit_text (d :: ds) ∧ Forall digit (d :: ds) ∧ (d = 0 → ds = []) ∧ number_of (d :: ds) = n.
Proof.
  intros Hn. unfold nat_text.
  destruct (to_digits_spec (S (Z.to_nat (Z.log2 n))) n []) as (H1 & (d & ds & H2 & H3) & H4); [|lia|constructor|].
  - split; [done|]. rewrite Nat2Z.inj_succ, Z2Nat.id by apply Z.log2_nonneg.
    destruct (decide (n = 0)) as [->|Hz]; [done|]. pose proof (Z.log2_spec n) as Hl.
    apply Z.lt_le_trans with (2 ^ Z.succ (Z.log2 n)); [lia|]. apply Z.pow_le_mono_l. split; [lia|lia].
  - exists d, ds. rewrite H2 in *. split_and!; [done..| |done]. intros Hd. by destruct (H3 Hd).
Qed.

Lemma fraction_stops rest : stops rest → fraction rest = (None, rest).
Proof. destruct rest as [|c rest]; [done|]. intros (_ & Hp & _). simpl. by rewrite (proj2 (Z.eqb_neq _ _) Hp). Qed.
Lemma exponent_stops rest : stops rest → exponent rest = (None, rest).
Proof.
  destruct rest as [|c rest]; [done|]. intros (_ & _ & H1 & H2). simpl.
  by rewrite (proj2 (Z.eqb_neq _ _) H1), (proj2 (Z.eqb_neq _ _) H2).
Qed.
Lemma stops_digit rest : stops rest → match rest with String c _ => is_digit c = false | EmptyString => True end.
Proof. destruct rest; [done|]. by intros [? _]. Qed.

(** The digits of a natural number, read with a sign before them. *)
Lemma read_digits n rest : 0 ≤ n → stops rest →
  ∃ c s d ds, nat_text n +:+ rest = String c s ∧ is_digit c = true ∧ digits (String c s) = (d :: ds, rest) ∧ number_of (d :: ds) = n ∧ 
    (d = 0 → ds = [] ∧ s = rest) .
Proof.
  intros Hn Hr. destruct (nat_digits n Hn) as (d & ds & -> & Hd & H0 & Hv).
  exists (byte (48 + d)), (digit_text ds +:+ rest), d, ds.
  pose proof (Forall_inv Hd) as Hd1. unfold digit in Hd1. split_and!; try done.
  - unfold is_digit, in_range. rewrite code_byte by lia. apply andb_true_iff. split; apply Z.leb_le; lia.
  - apply (digits_text (d :: ds) rest Hd). by apply stops_digit.
  - intros ->. by rewrite (H0 eq_refl).
Qed.

Lemma read_int n rest : stops rest → read_number (int_text n +:+ rest) = Some (JInt n, rest).
Proof.
  intros Hr. unfold int_text. destruct (n <? 0) eqn:Hs; bool_prop.
  - destruct (read_digits (- n) rest) as (c & s & d & ds & Ht & Hc & Hd & Hv & H0); [lia|done|].
    rewrite append_assoc, Ht. change ("-" +:+ String c s) with (String "-" (String c s)). unfold read_number.
    change (code "-" =? 45) with true. cbv iota beta. rewrite Hd. destruct (d =? 0) eqn:Ez; bool_prop.
    + destruct (H0 Ez) as [-> ->]. rewrite fraction_stops, exponent_stops by done. repeat f_equal. unfold number_of in *. simpl in *. lia.
    + rewrite fraction_stops, exponent_stops by done. repeat f_equal. lia.
  - destruct (read_digits n rest) as (c & s & d & ds & Ht & Hc & Hd & Hv & H0); [lia|done|].
    rewrite Ht. unfold read_number. destruct (code c =? 45) eqn:Em.
    { bool_prop. unfold is_digit, in_range in Hc. rewrite Em in Hc. done. }
    rewrite Hd. destruct (d =? 0) eqn:Ez; bool_prop.
    + destruct (H0 Ez) as [-> ->]. rewrite fraction_stops, exponent_stops by done. repeat f_equal. unfold number_of in *. simpl in *. lia.
    + rewrite fraction_stops, exponent_stops by done. repeat f_equal. lia.
Qed.

(** ** Values *)

(** What the float printer owes the reader: a float text is a number text that
    denotes the float. *)
Class FloatTextLaws `{FloatText} := {
  is_float : Q → Prop;
  float_reads : ∀ q rest, is_float q → stops rest → read_number (float_text q +:+ rest) = Some (JFloat (Some q), rest);
  float_first : ∀ q, is_float q → ∃ c s, float_text q = String c s ∧ (is_digit c = true ∨ code c = 45);
  float_ascii : ∀ q, is_float q → is_ascii (float_text q) = true;
}.

(** Hooks that keep an object with distinct keys. *)
Definition faithful (hooks : Hooks) : Prop := ∀ fields, NoDup (fields.*1) → on_object hooks fields = Ret (JObj fields).

Section values.
Context `{FloatTextLaws} (hooks : Hooks) (Hh : faithful hooks).

Fixpoint readable (v : json) : Prop :=
  match v with
  | JFloat None => False
  | JFloat (Some q) => is_float q
  | JList l => (fix go l := match l with [] => True | v :: l => readable v ∧ go l end) l
  | JObj fields => NoDup (fields.*1) ∧ (fix go l := match l with [] => True | kv :: l => readable kv.2 ∧ go l end) fields
  | _ => True
  end.

(** The calls of the reader a value takes. *)
Fixpoint need (v : json) : nat :=
  match v with
  | JList l => S (list_sum (map (fun v => S (need v)) l))
  | JObj fields => S (list_sum (map (fun kv => S (need kv.2)) fields))
  | _ => 1
  end.

Definition reads_back (v : json) : Prop :=
  ∀ fuel rest, (need v ≤ fuel)%nat → stops rest → read_value hooks fuel (write false v +:+ rest) = Ret (v, rest).

(** The first character of a written value. *)
Definition opens (c : ascii) : Prop := is_ws c = false ∧ code c ≠ 93 ∧ code c ≠ 125.

Lemma number_opens c : is_digit c = true ∨ code c = 45 → opens c.
Proof.
  intros Hc. assert (45 ≤ code c ≤ 57) as Hr.
  { destruct Hc as [Hc| ->]; [|lia]. unfold is_digit, in_range in Hc. bool_prop. lia. }
  unfold opens, is_ws. split_and!; [|lia..]. apply bool_decide_eq_false. rewrite !elem_of_cons, elem_of_nil. lia.
Qed.

Lemma int_text_first n : ∃ c s, int_text n = String c s ∧ (is_digit c = true ∨ code c = 45).
Proof.
  unfold int_text. destruct (n <? 0) eqn:Hs; bool_prop.
  - eexists "-"%char, _. split; [done|by right].
  - destruct (read_digits n "" Hs I) as (c & s & d & ds & Ht & Hc & _). rewrite append_nil_r in Ht. eauto.
Qed.

Lemma write_opens v : readable v → ∃ c s, write false v = String c s ∧ opens c.
Proof.
  intros Hv. destruct v as [|[]|n|[q|]|s|l|fields]; simpl; try done.
  1,2,3: eexists _, _; split; [done|]; by split_and!.
  - destruct (int_text_first n) as (c & s & -> & Hc). eexists _, _. split; [done|by apply number_opens].
  - destruct (float_first q Hv) as (c & s & -> & Hc). eexists _, _. split; [done|by apply number_opens].
  - eexists _, _. split; [done|by split_and!].
  - eexists _, _. split; [done|by split_and!].
  - eexists _, _. split; [done|by split_and!].
Qed.

Lemma literal_number s v r :
  read_number s = Some (v, r) → (∃ c s', s = String c s' ∧ (is_digit c = true ∨ code c = 45)) → read_literal hooks s = Ret (v, r).
Proof.
  intros Hr (c & s' & -> & Hc). unfold read_literal. assert (45 ≤ code c ≤ 57) as Hb.
  { destruct Hc as [Hc| ->]; [|lia]. unfold is_digit, in_range in Hc. bool_prop. lia. }
  assert (∀ a w, 57 < code a → after (String a w) (String c s') = None) as Ha.
  { intros a w Hw. simpl. destruct (Ascii.eqb_spec a c) as [->|]; [lia|done]. }
  rewrite !Ha by (vm_compute; done). by rewrite Hr.
Qed.

Lemma value_number text v rest fuel :
  (∃ c s, text = String c s ∧ (is_digit c = true ∨ code c = 45)) → read_number (text +:+ rest) = Some (v, rest) →
  read_value hooks (S fuel) (text +:+ rest) = Ret (v, rest).
Proof.
  intros (c & s & -> & Hc) Hl. assert (45 ≤ code c ≤ 57) as Hb.
  { destruct Hc as [Hc| ->]; [|lia]. unfold is_digit, in_range in Hc. bool_prop. lia. }
  change (String c s +:+ rest) with (String c (s +:+ rest)) in *. cbn [read_value].
  rewrite (proj2 (Z.eqb_neq (code c) 34)), (proj2 (Z.eqb_neq (code c) 123)), (proj2 (Z.eqb_neq (code c) 91)) by lia.
  apply literal_number; [done|eauto].
Qed.

Lemma skip_open c s : is_ws c = false → skip_ws (String c s) = String c s.
Proof. intros Hc. simpl. by rewrite Hc. Qed.
Lemma skip_written v rest : readable v → skip_ws (write false v +:+ rest) = write false v +:+ rest.
Proof. intros Hv. destruct (write_opens v Hv) as (c & s & -> & Hc & _). by apply skip_open. Qed.

Lemma read_elements_back l fuel rest :
  l ≠ [] → (∀ v, v ∈ l → readable v ∧ reads_back v) → (list_sum (map (fun v => S (need v)) l) ≤ fuel)%nat →
  read_elements hooks fuel (join "," (map (write false) l) +:+ String "]" rest) = Ret (l, rest).
Proof.
  revert fuel. induction l as [|v l IH]; [done|]. intros fuel _ Hl Hf.
  destruct (Hl v (list_elem_of_here _ _)) as [Hv Hb]. simpl in Hf. destruct fuel as [|fuel]; [lia|]. cbn [read_elements].
  destruct l as [|w l].
  - change (join "," (map (write false) [v])) with (write false v). rewrite Hb; [|lia|by split_and!]. run_unfold.
    rewrite skip_open by done. done.
  - change (join "," (map (write false) (v :: w :: l))) with (write false v +:+ "," +:+ join "," (map (write false) (w :: l))).
    rewrite !append_assoc. rewrite Hb; [|lia|by split_and!]. run_unfold.
    change ("," +:+ ?x) with (String "," x). rewrite skip_open by done.
    change (code "," =? 93) with false. change (code "," =? 44) with true. cbv iota.
    assert (∀ x, x ∈ w :: l → readable x ∧ reads_back x) as Hl' by (intros; apply Hl; by right).
    destruct (write_opens w (proj1 (Hl' w (list_elem_of_here _ _)))) as (c & t & Hw & Hc & _).
    assert (skip_ws (join "," (map (write false) (w :: l)) +:+ String "]" rest) = join "," (map (write false) (w :: l)) +:+ String "]" rest) as ->.
    { cbn [map]. destruct (map (write false) l); cbn [join]; rewrite Hw; by apply skip_open. }
    rewrite (IH fuel); [done|done|exact Hl'|]. simpl in Hf |- *. lia.
Qed.

Definition member (kv : string * json) : string := json_string false kv.1 +:+ ":" +:+ write false kv.2.

Lemma read_members_back l fuel rest :
  l ≠ [] → (∀ kv, kv ∈ l → readable kv.2 ∧ reads_back kv.2) → (list_sum (map (fun kv => S (need kv.2)) l) ≤ fuel)%nat →
  read_members hooks fuel (join "," (map member l) +:+ String "}" rest) = Ret (l, rest).
Proof.
  revert fuel. induction l as [|[k v] l IH]; [done|]. intros fuel _ Hl Hf.
  destruct (Hl (k, v) (list_elem_of_here _ _)) as [Hv Hb]. simpl in Hv, Hb, Hf. destruct fuel as [|fuel]; [lia|].
  assert (∀ tail, stops tail → read_members hooks (S fuel) (member (k, v) +:+ tail) =
    match skip_ws tail with
    | String d s =>
        if code d =? 125 then Ret ([(k, v)], s)
        else if code d =? 44 then '(fields, s) ← read_members hooks fuel (skip_ws s); Ret ((k, v) :: fields, s)
        else bad_json
    | EmptyString => bad_json
    end) as Hone.
  { intros tail Ht. unfold member, json_string, quoted. simpl fst. simpl snd.
    change (String (byte 34) ?a +:+ ?b) with (String (byte 34) (a +:+ b)). change (String (byte 34) ?a +:+ ?b) with (String (byte 34) (a +:+ b)).
    cbn [read_members]. change (negb (code (byte 34) =? 34)) with false. cbv iota. rewrite !append_assoc.
    change (String (byte 34) "" +:+ ?x) with (String (byte 34) x). rewrite scan_key_raw. run_unfold.
    change (":" +:+ ?x) with (String ":" x). rewrite skip_open by done. change (negb (code ":" =? 58)) with false. cbv iota.
    rewrite skip_written by done. rewrite Hb; [|lia|done]. done. }
  destruct l as [|w l].
  - change (join "," (map member [(k, v)])) with (member (k, v)). rewrite Hone by by split_and!. by rewrite skip_open.
  - change (join "," (map member ((k, v) :: w :: l))) with (member (k, v) +:+ "," +:+ join "," (map member (w :: l))).
    rewrite !append_assoc. rewrite Hone by by split_and!. change ("," +:+ ?x) with (String "," x). rewrite skip_open by done.
    change (code "," =? 125) with false. change (code "," =? 44) with true. cbv iota.
    assert (skip_ws (join "," (map member (w :: l)) +:+ String "}" rest) = join "," (map member (w :: l)) +:+ String "}" rest) as ->.
    { cbn [map]. destruct (map member l); reflexivity. }
    rewrite (IH fuel); [done|done| |simpl in Hf |- *; lia]. intros; apply Hl; by right.
Qed.

Lemma need_in {A} (f : A → nat) (l : list A) x : x ∈ l → (f x ≤ list_sum (map f l))%nat.
Proof. induction l as [|y l IH]; [by intros ?%not_elem_of_nil|]. intros [->|Hx]%elem_of_cons; simpl; [lia|]. specialize (IH Hx). lia. Qed.

Lemma readable_list l : readable (JList l) ↔ ∀ v, v ∈ l → readable v.
Proof.
  induction l as [|v l IH]; [split; [by intros _ v ?%not_elem_of_nil|done]|].
  change (readable (JList (v :: l))) with (readable v ∧ readable (JList l)). rewrite IH. setoid_rewrite elem_of_cons. naive_solver.
Qed.
Lemma readable_fields (l : list (string * json)) :
  (fix go l := match l with [] => True | kv :: l => readable kv.2 ∧ go l end) l ↔ ∀ kv : string * json, kv ∈ l → readable kv.2.
Proof. induction l as [|v l IH]; [split; [by intros _ v ?%not_elem_of_nil|done]|]. rewrite IH. setoid_rewrite elem_of_cons. naive_solver. Qed.

Lemma reads_back_upto n : ∀ v, (need v ≤ n)%nat → readable v → reads_back v.
Proof.
  induction n as [|n IH]; intros v Hn Hv; [destruct v; simpl in Hn; lia|]. intros fuel rest Hf Hr.
  destruct fuel as [|fuel]; [destruct v; simpl in Hf; lia|]. destruct v as [|[]|i|[q|]|s|l|fields]; try done.
  - apply value_number; [apply int_text_first|by apply read_int].
  - apply value_number; [by apply float_first|by apply float_reads].
  - simpl write. unfold json_string, quoted. change (String (byte 34) ?a +:+ ?b) with (String (byte 34) (a +:+ b)). cbn [read_value].
    change (code (byte 34) =? 34) with true. cbv iota. rewrite append_assoc.
    change (String (byte 34) "" +:+ ?x) with (String (byte 34) x). by rewrite scan_key_raw.
  - rewrite readable_list in Hv. simpl in Hn, Hf. assert (∀ v, v ∈ l → readable v ∧ reads_back v) as Hl.
    { intros v Hin. split; [by apply Hv|]. apply IH; [|by apply Hv]. pose proof (need_in (fun v => S (need v)) l v Hin). simpl in *. lia. }
    change (write false (JList l) +:+ rest) with (String "[" ((join "," (map (write false) l) +:+ "]") +:+ rest)).
    rewrite append_assoc. change ("]" +:+ rest) with (String "]" rest). cbn [read_value]. change (code "[" =? 34) with false.
    change (code "[" =? 123) with false. change (code "[" =? 91) with true. cbv iota.
    destruct l as [|v l]; [reflexivity|].
    destruct (write_opens v (proj1 (Hl v (list_elem_of_here _ _)))) as (c & t & Hw & Hc & H1 & H2).
    assert (∃ t', join "," (map (write false) (v :: l)) +:+ String "]" rest = String c t') as [t' Ht'].
    { cbn [map]. rewrite Hw. destruct (map (write false) l); by eexists. }
    pose proof (read_elements_back (v :: l) fuel rest ltac:(done) Hl ltac:(simpl in *; lia)) as He. rewrite Ht' in He |- *.
    rewrite skip_open by done. rewrite (proj2 (Z.eqb_neq (code c) 93)) by done. by rewrite He.
  - destruct Hv as [Hnd Hv]. rewrite readable_fields in Hv. simpl in Hn, Hf.
    assert (∀ kv, kv ∈ fields → readable kv.2 ∧ reads_back kv.2) as Hl.
    { intros kv Hin. split; [by apply Hv|]. apply IH; [|by apply Hv].
      pose proof (need_in (fun kv : string * json => S (need kv.2)) fields kv Hin). simpl in *. lia. }
    change (write false (JObj fields) +:+ rest) with (String "{" ((join "," (map member fields) +:+ "}") +:+ rest)).
    rewrite append_assoc. change ("}" +:+ rest) with (String "}" rest). cbn [read_value]. change (code "{" =? 34) with false.
    change (code "{" =? 123) with true. cbv iota. destruct fields as [|kv fields].
    { change (skip_ws (join "," (map member []) +:+ String "}" rest)) with (String "}" rest).
      cbv iota beta. change (code "}" =? 125) with true. cbv iota. run_unfold. by rewrite (Hh [] (NoDup_nil_2)). }
    assert (∃ t', join "," (map member (kv :: fields)) +:+ String "}" rest = String (byte 34) t') as [t' Ht'].
    { cbn [map]. destruct (map member fields); by eexists. }
    pose proof (read_members_back (kv :: fields) fuel rest ltac:(done) Hl ltac:(simpl in *; lia)) as He. rewrite Ht' in He |- *.
    rewrite skip_open by done. change (code (byte 34) =? 125) with false. cbv iota. rewrite He. run_unfold. by rewrite (Hh (kv :: fields) Hnd).
Qed.

(** The text of a value is at least as long as the reader needs calls. *)
Lemma join_length {A} (f : A → nat) (g : A → string) : ∀ l : list A,
  (∀ x, x ∈ l → f x ≤ String.length (g x))%nat →
  (list_sum (map (fun x => S (f x)) l) ≤ S (String.length (join "," (map g l))))%nat.
Proof.
  induction l as [|x [|y l] IH]; intros Hl; [simpl; lia|pose proof (Hl x (list_elem_of_here _ _)); simpl; lia|].
  pose proof (Hl x (list_elem_of_here _ _)) as Hx. specialize (IH (fun z Hz => Hl z (list_elem_of_further _ _ _ Hz))).
  change (join "," (map g (x :: y :: l))) with (g x +:+ "," +:+ join "," (map g (y :: l))).
  rewrite !append_length. cbn [map list_sum] in IH |- *. simpl in IH |- *. lia.
Qed.

Lemma need_length n : ∀ v, (need v ≤ n)%nat → readable v → (need v ≤ String.length (write false v))%nat.
Proof.
  induction n as [|n IH]; intros v Hn Hv; [destruct v; simpl in Hn; lia|].
  destruct v as [|[]|i|[q|]|s|l|fields]; try (simpl; lia); try done.
  - destruct (int_text_first i) as (c & s & Hi & _). simpl. rewrite Hi. simpl. lia.
  - destruct (float_first q Hv) as (c & s & Hi & _). simpl. rewrite Hi. simpl. lia.
  - rewrite readable_list in Hv. change (write false (JList l)) with ("[" +:+ join "," (map (write false) l) +:+ "]").
    rewrite !append_length. simpl in Hn |- *. pose proof (join_length need (write false) l) as Hj. ospecialize (Hj _); [|lia].
    intros v Hin. apply IH; [|by apply Hv]. pose proof (need_in (fun v => S (need v)) l v Hin). simpl in *. lia.
  - destruct Hv as [_ Hv]. rewrite readable_fields in Hv.
    change (write false (JObj fields)) with ("{" +:+ join "," (map member fields) +:+ "}").
    rewrite !append_length. simpl in Hn |- *. pose proof (join_length (fun kv => need kv.2) member fields) as Hj. ospecialize (Hj _); [|lia].
    intros kv Hin. unfold member. rewrite !append_length. assert (need kv.2 ≤ String.length (write false kv.2))%nat; [|lia].
    apply IH; [|by apply Hv]. pose proof (need_in (fun kv : string * json => S (need kv.2)) fields kv Hin). simpl in *. lia.
Qed.

(** Sorted keys: the same fields in another order. *)
Lemma insert_field_perm kv l : insert_field kv l ≡ₚ kv :: l.
Proof. induction l as [|kv' l IH]; simpl; [done|]. destruct (String.leb _ _); [done|]. rewrite IH. by constructor. Qed.
Lemma sort_fields_perm l : sort_fields l ≡ₚ l.
Proof. induction l as [|kv l IH]; simpl; [done|]. by rewrite insert_field_perm, IH. Qed.

Lemma sorted_readable_upto n : ∀ v, (need v ≤ n)%nat → readable v → readable (sorted_keys v).
Proof.
  induction n as [|n IH]; intros v Hn Hv; [destruct v; simpl in Hn; lia|].
  destruct v as [|b|i|q|s|l|fields]; try done; simpl in Hn.
  - rewrite readable_list in Hv. simpl sorted_keys. rewrite readable_list. intros v (w & -> & Hw)%list_elem_of_fmap.
    apply IH; [|by apply Hv]. pose proof (need_in (fun v => S (need v)) l w Hw). simpl in *. lia.
  - destruct Hv as [Hnd Hv]. rewrite readable_fields in Hv. simpl sorted_keys. split.
    + rewrite sort_fields_perm, <-list_fmap_compose. done.
    + apply readable_fields. intros kv Hin. rewrite sort_fields_perm in Hin. apply list_elem_of_fmap in Hin as ([k w] & -> & Hw).
      apply IH; [|by apply (Hv (k, w))]. pose proof (need_in (fun kv : string * json => S (need kv.2)) fields _ Hw). simpl in *. lia.
Qed.

Lemma loads_dumps v : readable v → loads hooks (dumps false v) = Ret (sorted_keys v).
Proof.
  intros Hv. pose proof (sorted_readable_upto _ v (le_n _) Hv) as Hs. unfold loads, dumps.
  pose proof (reads_back_upto _ _ (le_n _) Hs (String.length (write false (sorted_keys v))) "" (need_length _ _ (le_n _) Hs) I) as Hb.
  rewrite append_nil_r in Hb. pose proof (skip_written _ "" Hs) as Hk. rewrite append_nil_r in Hk. rewrite Hk. unfold mbind, outcome_bind.
  by rewrite Hb.
Qed.
End values.

Lemma reject_duplicates_id seen l :
  NoDup (l.*1) → (∀ k, k ∈ l.*1 → k ∉ seen) → reject_duplicate_keys seen l = Ret l.
Proof.
  revert seen. induction l as [|[k v] l IH]; intros seen Hnd Hs; [done|]. cbn [reject_duplicate_keys].
  rewrite fmap_cons in Hnd. apply NoDup_cons in Hnd as [Hk Hnd].
  rewrite (bool_decide_false (k ∈ seen)) by (apply Hs; simpl; constructor). simpl. rewrite (IH (k :: seen)); [done|done|].
  intros k' Hk'. rewrite not_elem_of_cons. split; [by intros ->|]. apply Hs. simpl. by constructor.
Qed.
Lemma strict_faithful : faithful strict_hooks.
Proof.
  intros fields Hnd. simpl. rewrite reject_duplicates_id; [done|done|]. intros k _. apply not_elem_of_nil.
Qed.

Lemma assoc_set_fresh k v (d : list (string * json)) : k ∉ d.*1 → assoc_set k v d = d ++ [(k, v)].
Proof.
  induction d as [|[k' v'] d IH]; [done|]. rewrite fmap_cons, not_elem_of_cons. intros [Hne Hk]. simpl in *.
  rewrite decide_False by done. by rewrite IH.
Qed.
Lemma dict_of_app (l d : list (string * json)) :
  NoDup ((d ++ l).*1) → fold_left (fun d kv => assoc_set kv.1 kv.2 d) l d = d ++ l.
Proof.
  revert d. induction l as [|[k v] l IH]; intros d Hnd; simpl; [by rewrite app_nil_r|].
  rewrite assoc_set_fresh, (IH (d ++ [(k, v)])); [by rewrite <-app_assoc|by rewrite <-app_assoc|].
  rewrite fmap_app, fmap_cons in Hnd. apply NoDup_app in Hnd as (_ & Hd & _). intros Hk. apply (Hd k Hk). constructor.
Qed.
Lemma plain_faithful : faithful plain_hooks.
Proof. intros fields Hnd. simpl. unfold dict_of. by rewrite (dict_of_app fields []). Qed.

Section canonical.
Context `{FloatTextLaws}.

Lemma readable_finite n : ∀ v, (need v ≤ n)%nat → readable v → check_finite v = Ret tt.
Proof.
  induction n as [|n IH]; intros v Hn Hv; [destruct v; simpl in Hn; lia|].
  destruct v as [|b|i|[q|]|s|l|fields]; try done; simpl in Hn.
  - rewrite readable_list in Hv. induction l as [|v l IHl]; [done|]. cbn [check_finite]. cbn [map list_sum] in Hn.
    rewrite IH; [|simpl in *; lia|apply Hv; constructor]. run_unfold. apply IHl; [simpl in *; lia|]. intros w Hw. apply Hv. by constructor.
  - destruct Hv as [_ Hv]. rewrite readable_fields in Hv. induction fields as [|[k v] l IHl]; [done|]. cbn [check_finite]. cbn [map list_sum] in Hn.
    simpl snd in *. rewrite IH; [|simpl in *; lia|apply (Hv (k, v)); constructor]. run_unfold. apply IHl; [simpl in *; lia|].
    intros w Hw. apply Hv. by constructor.
Qed.

Lemma canonical_text v text : canonical_json_bytes v = Ret text → dumps false v = text.
Proof. unfold canonical_json_bytes. destruct (negb _); [done|]. destruct (encodable _); [|done]. by intros [= <-]. Qed.
Lemma canonical_parses v text : readable v → canonical_json_bytes v = Ret text → parse_json_document text = Ret (sorted_keys v).
Proof.
  intros Hv <-%canonical_text. unfold parse_json_document. rewrite (loads_dumps strict_hooks strict_faithful v Hv). run_unfold.
  by rewrite (readable_finite _ _ (le_n _) (sorted_readable_upto _ v (le_n _) Hv)).
Qed.

(** Canonical JSON is faithful: the strict reader gives back exactly the
    value that was written, keys sorted, and no other value has the same
    canonical bytes, so equal digests of canonical bytes mean equal documents. *)
Theorem canonical_json_exact v text :
  readable v → canonical_json_bytes v = Ret text →
  parse_json_document text = Ret (sorted_keys v) ∧
  ∀ w, readable w → canonical_json_bytes w = Ret text → sorted_keys w = sorted_keys v.
Proof.
  intros Hv Ht. split; [by apply canonical_parses|]. intros w Hw Htw. pose proof (canonical_parses v text Hv Ht).
  pose proof (canonical_parses w text Hw Htw). congruence.
Qed.
End canonical.

(** ** The texts of thousandths *)
Lemma number_of_app a b : number_of (a ++ b) = number_of a * 10 ^ Z.of_nat (length b) + number_of b.
Proof.
  unfold number_of. rewrite fold_left_app. generalize (fold_left (fun n d => 10 * n + d) a 0). intros n.
  assert (∀ l n, fold_left (fun n d => 10 * n + d) l n = n * 10 ^ Z.of_nat (length l) + fold_left (fun n d => 10 * n + d) l 0) as Hl.
  { induction l as [|d l IH]; intros m; cbn [fold_left length]; [simpl; lia|].
    rewrite IH, (IH (10 * 0 + d)), Nat2Z.inj_succ, Z.pow_succ_r by lia. lia. }
  apply Hl.
Qed.

Lemma fraction_digits f : 0 ≤ f < 1000 →
  let ds := thousandths_fraction f in
  Forall digit ds ∧ ds ≠ [] ∧ f * 10 ^ Z.of_nat (length ds) = number_of ds * 1000.
Proof.
  intros Hf. unfold thousandths_fraction. cbv zeta.
  destruct (f mod 10 =? 0) eqn:E1; [destruct (f mod 100 =? 0) eqn:E2|]; bool_prop; (split_and!; [repeat constructor; unfold digit|done|unfold number_of; cbn [fold_left length]; change (10 ^ Z.of_nat 1) with 10; change (10 ^ Z.of_nat 2) with 100; change (10 ^ Z.of_nat 3) with 1000]);
  Z.div_mod_to_equations; lia.
Qed.

Lemma thousandths_whole n : Qnum (thousandths n * (1000 # 1)) / QDen (thousandths n * (1000 # 1)) = n.
Proof.
  assert (∀ q, (q == inject_Z n)%Q → Qnum q / QDen q = n) as Hw.
  { intros q Hq. unfold Qeq, inject_Z in Hq. cbn [Qnum Qden] in Hq. rewrite Z.mul_1_r in Hq. rewrite Hq. apply Z.div_mul. lia. }
  apply Hw. unfold thousandths. rewrite Qred_correct. unfold Qeq. simpl. lia.
Qed.

Lemma decimal_thousandths n i ds fs :
  number_of ds = i → 0 ≤ i → Z.abs n = 1000 * i + Z.abs n mod 1000 → fs ≠ [] →
  Z.abs n mod 1000 * 10 ^ Z.of_nat (length fs) = number_of fs * 1000 →
  (decimal (if (n <? 0)%Z then -1 else 1) ds fs 0 == n # 1000)%Q.
Proof.
  intros Hi Hpos Hn Hne Hf. unfold decimal. destruct (0 <=? 0 - Z.of_nat (length fs)) eqn:E.
  { bool_prop. destruct fs; [done|]. simpl in E. lia. }
  replace (- (0 - Z.of_nat (length fs))) with (Z.of_nat (length fs)) by lia. rewrite number_of_app, Hi.
  set (p := 10 ^ Z.of_nat (length fs)) in *. assert (0 < p) as Hp by (apply Z.pow_pos_nonneg; lia).
  unfold Qdiv, Qmult, Qinv, inject_Z, Qeq. destruct p as [|p|p]; [lia| |lia]. simpl.
  destruct (n <? 0) eqn:Hs; bool_prop; [rewrite Z.abs_neq in * by lia|rewrite Z.abs_eq in * by lia]; nia.
Qed.

Lemma thousandths_reads n rest : Z.abs n < 10 ^ 19 → stops rest →
  read_number (thousandths_text n +:+ rest) = Some (JFloat (Some (thousandths n)), rest).
Proof.
  intros Hb Hr. destruct (nat_digits (Z.abs n / 1000)) as (d & ds & Ht & Hd & H0 & Hv); [Z.div_mod_to_equations; lia|].
  destruct (fraction_digits (Z.abs n mod 1000)) as (Hfd & Hne & Hf); [Z.div_mod_to_equations; lia|].
  set (fs := thousandths_fraction (Z.abs n mod 1000)) in *.
  pose proof (decimal_thousandths n (Z.abs n / 1000) (d :: ds) fs Hv ltac:(Z.div_mod_to_equations; lia) ltac:(Z.div_mod_to_equations; lia) Hne Hf) as Hq.
  assert (float_value (decimal (if n <? 0 then -1 else 1) (d :: ds) fs 0) = JFloat (Some (thousandths n))) as Hval.
  { unfold float_value, thousandths. rewrite (Qred_complete _ _ Hq).
    destruct (Qle_bool _ _ || Qle_bool _ _) eqn:E; [exfalso|done].
    apply orb_true_iff in E as [E|E]; apply Qle_bool_iff in E; rewrite Hq in E; unfold Qle, inject_Z in E; cbn [Qnum Qden] in E;
      assert (10 ^ 19 * 1000 < FLOAT_OVERFLOW) as Ho by (vm_compute; reflexivity); lia. }
  assert (digits (digit_text (d :: ds) +:+ String "." (digit_text fs +:+ rest)) = (d :: ds, String "." (digit_text fs +:+ rest))) as Hdig.
  { by apply digits_text. }
  assert (fraction (String "." (digit_text fs +:+ rest)) = (Some fs, rest)) as Hfrac.
  { simpl. rewrite digits_text by (done || by apply stops_digit). by destruct fs. }
  unfold thousandths_text. rewrite Ht, !append_assoc. fold fs.
  change ("." +:+ digit_text fs +:+ rest) with (String "." (digit_text fs +:+ rest)).
  set (tail := String "." (digit_text fs +:+ rest)) in *.
  assert (∀ sign, (let '(int, r) := if d =? 0 then ([0], match digit_text (d :: ds) +:+ tail with String _ r => r | EmptyString => tail end) else (d :: ds, tail) in
    let '(f, r) := fraction r in let '(e, r) := exponent r in
    match f, e with
    | None, None => Some (JInt (sign * number_of int), r)
    | _, _ => Some (float_value (decimal sign int (default [] f) (default 0 e)), r)
    end) = Some (float_value (decimal sign (d :: ds) fs 0), rest)) as Hcommon.
  { intros sign. destruct (d =? 0) eqn:Ez; bool_prop.
    - rewrite (H0 Ez), Ez. change (digit_text [0] +:+ tail) with (String (byte 48) tail). cbv iota beta.
      rewrite Hfrac, exponent_stops by done. done.
    - rewrite Hfrac, exponent_stops by done. done. }
  unfold read_number. destruct (n <? 0).
  - change ("-" +:+ ?x) with (String "-" x). cbv iota beta. change (code "-" =? 45) with true. cbv iota beta. rewrite Hdig, Hcommon. by rewrite Hval.
  - change ("" +:+ ?x) with x. pose proof (Forall_inv Hd) as Hd1. unfold digit in Hd1.
    assert (digit_text (d :: ds) +:+ tail = String (byte (48 + d)) (digit_text ds +:+ tail)) as He by done.
    rewrite He in Hdig, Hcommon |- *. rewrite code_byte by lia. rewrite (proj2 (Z.eqb_neq (48 + d) 45)) by lia. cbv iota beta. rewrite Hdig, Hcommon. by rewrite Hval.
Qed.

Lemma thousandths_first n : ∃ c s, thousandths_text n = String c s ∧ (is_digit c = true ∨ code c = 45).
Proof.
  unfold thousandths_text. destruct (n <? 0); [eexists "-"%char, _; split; [done|by right]|].
  destruct (nat_digits (Z.abs n / 1000)) as (d & ds & -> & Hd & _); [Z.div_mod_to_equations; lia|].
  pose proof (Forall_inv Hd) as Hd1. unfold digit in Hd1. eexists (byte (48 + d)), _. split; [done|]. left.
  unfold is_digit, in_range. rewrite code_byte by lia. apply andb_true_iff. split; apply Z.leb_le; lia.
Qed.

Lemma digit_text_ascii ds : Forall digit ds → is_ascii (digit_text ds) = true.
Proof.
  intros Hd. apply is_ascii_concat, Forall_map. eapply Forall_impl; [exact Hd|]. intros d Hr. unfold digit in Hr. unfold compose, is_ascii.
  simpl. rewrite code_byte by lia. by rewrite (proj2 (Z.ltb_lt (48 + d) 128)) by lia.
Qed.
Lemma nat_text_ascii n : 0 ≤ n → is_ascii (nat_text n) = true.
Proof. intros Hn. destruct (nat_digits n Hn) as (d & ds & -> & Hd & _). by apply digit_text_ascii. Qed.
Lemma thousandths_ascii n : is_ascii (thousandths_text n) = true.
Proof.
  unfold thousandths_text. rewrite !is_ascii_app, nat_text_ascii by (Z.div_mod_to_equations; lia).
  destruct (fraction_digits (Z.abs n mod 1000)) as (Hfd & _); [Z.div_mod_to_equations; lia|]. rewrite digit_text_ascii by done. by destruct (n <? 0).
Qed.

Definition is_thousandths (q : Q) : Prop := ∃ n, q = thousandths n ∧ Z.abs n < 10 ^ 19.

Definition thousandths_laws : @FloatTextLaws thousandths_floats.
Proof.
  refine {| is_float := is_thousandths |}.
  - intros q rest (n & -> & Hn) Hr. unfold float_text, thousandths_floats. rewrite thousandths_whole. by apply thousandths_reads.
  - intros q (n & -> & Hn). unfold float_text, thousandths_floats. rewrite thousandths_whole. apply thousandths_first.
  - intros q (n & -> & Hn). unfold float_text, thousandths_floats. rewrite thousandths_whole. apply thousandths_ascii.
Defined.

(** ** A document written and read *)
#[local] Existing Instance thousandths_floats.
#[local] Existing Instance thousandths_laws.

Definition demo_document : json :=
  JObj [("z", JList [JInt (-12); JNull; JBool true]); ("a", JFloat (Some (thousandths 1500))); ("q", JStr "a\b")].

Example demo_text : canonical_json_bytes demo_document =
  Ret (concat_text ["{"; quoted "a"; ":1.5,"; quoted "q"; ":"; quoted "a\\b"; ","; quoted "z"; ":[-12,null,true]}"]).
Proof. vm_compute. reflexivity. Qed.

Lemma canonical_json_exact_witness : ∃ text,
  canonical_json_bytes demo_document = Ret text ∧ parse_json_document text = Ret (sorted_keys demo_document).
Proof.
  eexists. split; [exact demo_text|]. refine (proj1 (canonical_json_exact demo_document _ _ demo_text)).
  assert (is_thousandths (thousandths 1500)) as Hq by (exists 1500; split; [reflexivity|apply Z.ltb_lt; vm_compute; reflexivity]).
  split; [apply (bool_decide_unpack (NoDup ["z"; "a"; "q"])); vm_compute; exact I|].
  split; [split_and!; exact I|]. split; [exact Hq|]. split; exact I.
Defined.
