(* ===== verification/Identity.v ===== *)
(** * Owners and tokens

    [model_scheduler/control_identity.py]: the owner of a peer, and the
    boot-scoped tokens, [v1.<payload>.<signature>] with the URL-safe base64 of
    the canonical claims as payload.  The keyed digest is an interface. *)

From S2P Require Import Prelude Text Dict Contracts Registration JsonText.
From Stdlib Require Import Ascii QArith.
Local Open Scope Z_scope.

(** [hashlib.sha256(data).hexdigest()]: 64 hexadecimal digits. *)
Class Digest := {
  sha256_hex : string → string;
  sha256_hex_length : ∀ data, String.length (sha256_hex data) = 64%nat;
}.

(** [hmac.new(key, message, sha256).hexdigest()] *)
Class Mac := { hmac_sha256_hex : string → string → string }.
(** No two messages in use share a digest under one key. *)
Class MacLaws `{Mac} := { hmac_collision_free : ∀ k m1 m2, hmac_sha256_hex k m1 = hmac_sha256_hex k m2 → m1 = m2 }.

(** ** [base64.urlsafe_b64encode] and [urlsafe_b64decode] *)
Definition b64_char (n : Z) : ascii :=
  byte (if n <? 26 then 65 + n else if n <? 52 then 71 + n else if n <? 62 then n - 4 else if n =? 62 then 45 else 95).

Fixpoint b64encode (l : list Z) : list ascii :=
  match l with
  | [] => []
  | [a] => [b64_char (a / 4); b64_char (a mod 4 * 16); byte 61; byte 61]
  | [a; b] => [b64_char (a / 4); b64_char (a mod 4 * 16 + b / 16); b64_char (b mod 16 * 4); byte 61]
  | a :: b :: c :: l =>
      b64_char (a / 4) :: b64_char (a mod 4 * 16 + b / 16) :: b64_char (b mod 16 * 4 + c / 64) :: b64_char (c mod 64)
      :: b64encode l
  end.

(** The value of a character, in either alphabet. *)
Definition b64_value (c : ascii) : option Z :=
  if in_range 65 90 c then Some (code c - 65)
  else if in_range 97 122 c then Some (code c - 71)
  else if in_range 48 57 c then Some (code c + 4)
  else if (code c =? 45) || (code c =? 43) then Some 62
  else if (code c =? 95) || (code c =? 47) then Some 63
  else None.

(** [binascii.a2b_base64], not strict: other characters are skipped, and a pad
    sequence that completes a group ends the input.  [pos] is the position in
    the group, [left] the bits carried over. *)
Fixpoint b64decode (pos pads : nat) (left : Z) (l : list ascii) : option (list Z) :=
  match l with
  | [] => if (pos =? 0)%nat then Some [] else None
  | c :: l =>
      if code c =? 61 then
        if (2 <=? pos)%nat && (4 <=? pos + S pads)%nat then Some []
        else b64decode pos (if (2 <=? pos)%nat then S pads else pads) left l
      else
        match b64_value c with
        | None => b64decode pos pads left l
        | Some v =>
            match pos with
            | 0%nat => b64decode 1 0 v l
            | 1%nat => rest ← b64decode 2 0 (v mod 16) l; Some (left * 4 + v / 16 :: rest)
            | 2%nat => rest ← b64decode 3 0 (v mod 4) l; Some (left * 16 + v / 4 :: rest)
            | _ => rest ← b64decode 0 0 0 l; Some (left * 64 + v :: rest)
            end
        end
  end.

Fixpoint lstrip_pad (l : list ascii) : list ascii :=
  match l with c :: l' => if code c =? 61 then lstrip_pad l' else l | [] => [] end.
Definition rstrip_pad (l : list ascii) : list ascii := rev (lstrip_pad (rev l)).
Definition pad4 (l : list ascii) : list ascii := l ++ repeat (byte 61) (Z.to_nat (- Z.of_nat (length l) mod 4)).

(** ** Owners *)
Record PeerIdentity := { uid : Z }.
Definition make_peer (uid : Z) : outcome PeerIdentity :=
  if uid <? 0 then Raise (IdentityError "peer_forbidden") else Ret {| uid := uid |}.
Definition owner (p : PeerIdentity) : string := "uid:" +:+ int_text (uid p).

(** [uid:[0-9]{1,10}] *)
Definition OWNER_RE (s : string) : bool :=
  match chars s with
  | u :: i :: d :: colon :: l =>
      bool_decide ([u; i; d; colon] = chars "uid:") && forallb is_digit l && (1 <=? length l)%nat && (length l <=? 10)%nat
  | _ => false
  end.

Definition owner_from_peer (peer : option PeerIdentity) : outcome string :=
  match peer with Some p => Ret (owner p) | None => Raise (IdentityError "peer_forbidden") end.

Definition check_owner (candidate : string) (peer : option PeerIdentity) : outcome string :=
  actual ← owner_from_peer peer;
  if negb (OWNER_RE candidate) || negb (String.eqb candidate actual) then Raise (IdentityError "not_found") else Ret actual.

(** ** Tokens *)
Definition canonical_claims `{FloatText} (claims : json) : string := dumps true claims.

Record TokenAuthority := { ta_boot_key : string; ta_boot_id : string }.
Definition TOKEN_VERSION : string := "v1".

(** What a token is for. *)
Record Grant := { g_owner : string; g_model_id : string; g_session_id : option string; g_execution_id : option string }.
#[export] Instance Grant_eq_dec : EqDecision Grant.
Proof. solve_decision. Defined.

(** [round(seconds, 3)] of a time: thousandths, ties to even. *)
Definition round3 (t : time) : Z :=
  let q := t / 1000000 in
  let r := t mod 1000000 in
  if (r <? 500000) || ((r =? 500000) && Z.even q) then q else q + 1.

Definition jnull (o : option string) : json := match o with Some s => JStr s | None => JNull end.

(** [_claims] with an expiry in thousandths. *)
Definition claims_document (boot_id : string) (g : Grant) (expires : Q) : json :=
  JObj [("boot_id", JStr boot_id); ("owner", JStr (g_owner g)); ("model_id", JStr (g_model_id g));
        ("session_id", jnull (g_session_id g)); ("execution_id", jnull (g_execution_id g)); ("expires_at", JFloat (Some expires))].

(** [round(float(x), 3)] of a number read from a token. *)
Definition round3_q (q : Q) : Q :=
  let n := (Qnum q * 1000) / QDen q in
  let r := (Qnum q * 1000) mod QDen q in
  thousandths (if (2 * r <? QDen q) || ((2 * r =? QDen q) && Z.even n) then n else n + 1).

(** [claims.get("expires_at")] as a finite float. *)
Definition finite_expiry `{FloatText} (v : option json) : outcome Q :=
  match v with
  | None | Some JNull => Raise (IdentityError "contract_violation")
  | Some (JFloat (Some q)) => Ret q
  | Some (JInt n) => if Z.abs n <? FLOAT_OVERFLOW then Ret (inject_Z n) else Raise (OverflowError "int too large to convert to float")
  | Some (JBool b) => Ret (inject_Z (Z.b2z b))
  | Some (JFloat None) => Raise (IdentityError "contract_violation")
  | Some (JStr s) =>
      match read_float s with
      | None => Raise (ValueError "could not convert string to float")
      | Some None => Raise (IdentityError "contract_violation")
      | Some (Some q) => Ret q
      end
  | Some (JList _) | Some (JObj _) => Raise (TypeError "float() argument must be a string or a real number")
  end.

(** [s.partition(".")] and [s.rpartition(".")] *)
Fixpoint partition_dot (l : list ascii) : list ascii * list ascii :=
  match l with
  | [] => ([], [])
  | c :: l => if code c =? 46 then ([], l) else let (a, b) := partition_dot l in (c :: a, b)
  end.
Definition rpartition_dot (l : list ascii) : list ascii * list ascii :=
  if existsb (fun c => code c =? 46) l then let (a, b) := partition_dot (rev l) in (rev b, rev a) else ([], l).

Definition CLAIM_KEYS : list string := ["boot_id"; "owner"; "model_id"; "session_id"; "execution_id"; "expires_at"].

Section Tokens.
Context `{Mac} `{FloatText}.

Definition signature (a : TokenAuthority) (payload : string) : outcome string :=
  if is_ascii payload then Ret (hmac_sha256_hex (ta_boot_key a) payload) else Raise (ValueError "UnicodeEncodeError").

Definition issue (a : TokenAuthority) (g : Grant) (ttl now : time) : outcome string :=
  if negb (OWNER_RE (g_owner g)) || negb (ID_RE (g_model_id g)) then Raise (IdentityError "contract_violation")
  else
    let claims := claims_document (ta_boot_id a) g (thousandths (round3 (now + ttl))) in
    let payload := text_of (rstrip_pad (b64encode (map code (chars (canonical_claims claims))))) in
    sig ← signature a payload;
    Ret (TOKEN_VERSION +:+ "." +:+ payload +:+ "." +:+ sig).

(** A reference to a token that is safe to log. *)
Definition fingerprint `{Digest} (a : TokenAuthority) (token : string) : string :=
  String.substring 0 16 (sha256_hex (ta_boot_id a +:+ ":" +:+ token)).

Definition stale {A} : outcome A := Raise (IdentityError "stale_token").

(** [hmac.compare_digest] of two texts *)
Definition compare_digest (x y : string) : outcome bool :=
  if is_ascii x && is_ascii y then Ret (String.eqb x y) else Raise (TypeError "comparing strings with non-ASCII characters").

Definition decode_token (a : TokenAuthority) (token : string) : outcome (list (string * json)) :=
  let (version, rest) := partition_dot (chars token) in
  let (payload, sig) := rpartition_dot rest in
  if negb (String.eqb (text_of version) TOKEN_VERSION) || bool_decide (payload = []) || bool_decide (sig = []) then stale
  else
    expected ← signature a (text_of payload);
    same ← compare_digest (text_of sig) expected;
    if negb same then stale
    else
      match b64decode 0 0 0 (pad4 payload) with
      | None => stale
      | Some data =>
          let text := text_of (map byte data) in
          if negb (utf8_valid text) then stale
          else
            match loads plain_hooks text with
            | Raise (ValueError _) => stale
            | Raise e => Raise e
            | Ret (JObj claims) =>
                if bool_decide (Forall (fun k => k ∈ CLAIM_KEYS) (claims.*1)) && bool_decide (Forall (fun k => k ∈ claims.*1) CLAIM_KEYS)
                then Ret claims else stale
            | Ret _ => stale
            end
      end.

Definition verify (a : TokenAuthority) (token : string) (g : Grant) (now : time) : outcome (list (string * json)) :=
  claims ← decode_token a token;
  q ← finite_expiry (jget "expires_at" claims);
  if negb (String.eqb (canonical_claims (JObj claims)) (canonical_claims (claims_document (ta_boot_id a) g (round3_q q)))) then stale
  else if negb (match jget "boot_id" claims with Some (JStr b) => String.eqb b (ta_boot_id a) | _ => false end) then stale
  else if Qle_bool q (now # 1000000000) then stale
  else Ret claims.
End Tokens.
