(* ===== verification/IdentityProps.v ===== *)
(** * What a token proves

    Base64 and the claims encoding are inverted exactly; a token is accepted
    only with this boot's signature over claims that name this boot, owner and
    object, before its expiry, and an issued token is accepted for exactly what
    it was issued for. *)

From S2P Require Import Prelude Text Dict Contracts Registration JsonText JsonTextProps Identity.
From Stdlib Require Import Ascii QArith.
Local Open Scope Z_scope.

(** ** Base64 *)
Definition is_byte (n : Z) : Prop := 0 ≤ n < 256.

Lemma b64_value_char n : 0 ≤ n < 64 → b64_value (b64_char n) = Some n ∧ code (b64_char n) ≠ 61.
Proof.
  intros Hn. assert (n ∈ (Z.of_nat <$> seq 0 64)) as Hin.
  { apply list_elem_of_fmap. exists (Z.to_nat n). split; [lia|]. apply elem_of_seq. lia. }
  cbv [fmap list_fmap seq] in Hin.
  repeat (apply elem_of_cons in Hin as [->|Hin]; [split; vm_compute; done|]). by apply not_elem_of_nil in Hin.
Qed.

Lemma decode_char pos pads left n l : 0 ≤ n < 64 →
  b64decode pos pads left (b64_char n :: l) =
    match pos with
    | 0%nat => b64decode 1 0 n l
    | 1%nat => rest ← b64decode 2 0 (n mod 16) l; Some (left * 4 + n / 16 :: rest)
    | 2%nat => rest ← b64decode 3 0 (n mod 4) l; Some (left * 16 + n / 4 :: rest)
    | _ => rest ← b64decode 0 0 0 l; Some (left * 64 + n :: rest)
    end.
Proof.
  intros Hn. destruct (b64_value_char n Hn) as [Hv Hc]. cbn [b64decode]. rewrite (proj2 (Z.eqb_neq _ _) Hc), Hv. done.
Qed.

(** Induction by groups of three bytes. *)
Lemma groups_ind (P : list Z → Prop) :
  P [] → (∀ a, P [a]) → (∀ a b, P [a; b]) → (∀ a b c l, P l → P (a :: b :: c :: l)) → ∀ l, P l.
Proof.
  intros H0 H1 H2 H3. fix IH 1. intros [|a [|b [|c l]]]; [done|apply H1|apply H2|]. apply H3, IH.
Qed.

Lemma b64_roundtrip l : Forall is_byte l → b64decode 0 0 0 (b64encode l) = Some l.
Proof.
  induction l as [|a|a b|a b c l IH] using groups_ind; intros Hl; [done| | |]; cbn [b64encode];
    repeat (apply Forall_cons in Hl as [? Hl]); unfold is_byte in *.
  - rewrite !decode_char by (Z.div_mod_to_equations; lia). simpl. repeat f_equal. Z.div_mod_to_equations; lia.
  - rewrite !decode_char by (Z.div_mod_to_equations; lia). simpl. repeat f_equal; Z.div_mod_to_equations; lia.
  - rewrite !decode_char by (Z.div_mod_to_equations; lia). rewrite IH by done. simpl. repeat f_equal; Z.div_mod_to_equations; lia.
Qed.

(** The characters of an encoding, without its padding. *)
Definition b64_letter (c : ascii) : Prop := code c < 128 ∧ code c ≠ 46 ∧ code c ≠ 61.

Lemma b64_char_letter n : 0 ≤ n < 64 → b64_letter (b64_char n).
Proof.
  intros Hn. split_and!; [| |by apply b64_value_char]; unfold b64_char.
  all: destruct (n <? 26) eqn:?, (n <? 52) eqn:?, (n <? 62) eqn:?, (n =? 62) eqn:?; bool_prop; rewrite code_byte by lia; lia.
Qed.

Lemma encode_shape l : Forall is_byte l →
  ∃ body, b64encode l = body ++ repeat (byte 61) (Z.to_nat (- Z.of_nat (length body) mod 4)) ∧ Forall b64_letter body ∧
          (l ≠ [] → body ≠ []).
Proof.
  induction l as [|a|a b|a b c l IH] using groups_ind; intros Hl; cbn [b64encode];
    repeat (apply Forall_cons in Hl as [? Hl]); unfold is_byte in *.
  - by exists [].
  - eexists [_; _]. split_and!; [done| |done]. repeat constructor; apply b64_char_letter; Z.div_mod_to_equations; lia.
  - eexists [_; _; _]. split_and!; [done| |done]. repeat constructor; apply b64_char_letter; Z.div_mod_to_equations; lia.
  - destruct (IH Hl) as (body & -> & Hb & _).
    exists (b64_char (a / 4) :: b64_char (a mod 4 * 16 + b / 16) :: b64_char (b mod 16 * 4 + c / 64) :: b64_char (c mod 64) :: body).
    split_and!; [|repeat constructor; try done; apply b64_char_letter; Z.div_mod_to_equations; lia|done]. cbn [length app].
    do 6 f_equal. rewrite !Nat2Z.inj_succ. Z.div_mod_to_equations; lia.
Qed.

Lemma rstrip_letters body k : Forall b64_letter body → rstrip_pad (body ++ repeat (byte 61) k) = body.
Proof.
  intros Hb. unfold rstrip_pad. rewrite rev_app_distr.
  assert (rev (repeat (byte 61) k) = repeat (byte 61) k) as ->.
  { induction k as [|k IH]; [done|]. change (repeat (byte 61) (S k)) with (byte 61 :: repeat (byte 61) k) at 1. cbn [rev]. rewrite IH. symmetry. apply repeat_cons. }
  assert (lstrip_pad (repeat (byte 61) k ++ rev body) = rev body) as ->; [|apply rev_involutive].
  induction k as [|k IH]; [|exact IH]. simpl. destruct (rev body) as [|c l] eqn:E; [done|]. simpl.
  assert (c ∈ body) as Hc by (apply list_elem_of_In, in_rev; rewrite E; by left).
  rewrite Forall_forall in Hb. destruct (Hb c Hc) as (_ & _ & Hn). by rewrite (proj2 (Z.eqb_neq _ _) Hn).
Qed.

Lemma payload_roundtrip l : Forall is_byte l → b64decode 0 0 0 (pad4 (rstrip_pad (b64encode l))) = Some l.
Proof.
  intros Hl. destruct (encode_shape l Hl) as (body & He & Hb & _). rewrite He, rstrip_letters by done. unfold pad4.
  rewrite <-He. by apply b64_roundtrip.
Qed.

(** ** The claims of plain identifiers *)
Definition plain (s : string) : Prop := Forall (fun c => code c < 127) (chars s).
Definition plain_opt (o : option string) : Prop := match o with Some s => plain s | None => True end.
Definition plain_grant (g : Grant) : Prop :=
  plain (g_owner g) ∧ plain (g_model_id g) ∧ plain_opt (g_session_id g) ∧ plain_opt (g_execution_id g).

Lemma codepoints_plain s : plain s → codepoints s = map code (chars s).
Proof.
  unfold plain. induction s as [|c s IH]; intros Hs; [done|]. apply Forall_cons in Hs as [Hc Hs]. cbn [codepoints].
  rewrite (proj2 (Z.ltb_lt (code c) 128)) by lia. by rewrite IH.
Qed.

Lemma ascii_char_plain c : code c < 127 → ascii_char (code c) = raw_char c.
Proof.
  intros Hc. unfold ascii_char, raw_char. destruct (short_escape (code c)) eqn:He; [done|]. pose proof (code_range c).
  destruct (code c <? 32) eqn:E; bool_prop.
  - rewrite (proj2 (Z.leb_gt 32 (code c))) by lia. simpl. by rewrite (proj2 (Z.ltb_lt (code c) 65536)) by lia.
  - rewrite (proj2 (Z.leb_le 32 (code c))), (proj2 (Z.leb_le (code c) 126)) by lia. simpl. by rewrite byte_code.
Qed.

Lemma json_string_plain s : plain s → json_string true s = json_string false s.
Proof.
  intros Hs. unfold json_string. rewrite codepoints_plain by done. f_equal. f_equal. unfold plain in Hs.
  induction Hs as [|c l Hc Hl IH]; [done|]. cbn [map]. rewrite !fmap_cons, ascii_char_plain by done. by f_equal.
Qed.

(** Key names and letters are plain. *)
Ltac solve_plain := apply (bool_decide_unpack _); vm_compute; exact I.

Section claims.
Context `{FT : FloatText} `{FL : !FloatTextLaws}.

Definition sorted_claims (boot_id : string) (g : Grant) (expires : Q) : list (string * json) :=
  [("boot_id", JStr boot_id); ("execution_id", jnull (g_execution_id g)); ("expires_at", JFloat (Some expires));
   ("model_id", JStr (g_model_id g)); ("owner", JStr (g_owner g)); ("session_id", jnull (g_session_id g))].

Lemma claims_sorted b g q : sorted_keys (claims_document b g q) = JObj (sorted_claims b g q).
Proof. by destruct g as [o m [s|] [e|]]. Qed.
Lemma sorted_sorted b g q : sorted_keys (JObj (sorted_claims b g q)) = JObj (sorted_claims b g q).
Proof. by destruct g as [o m [s|] [e|]]. Qed.

Lemma claims_canonical b g q : canonical_claims (JObj (sorted_claims b g q)) = canonical_claims (claims_document b g q).
Proof. unfold canonical_claims, dumps. by rewrite sorted_sorted, claims_sorted. Qed.

Lemma claims_readable b g q : is_float q → readable (claims_document b g q).
Proof.
  intros Hq. split; [apply (bool_decide_unpack (NoDup ["boot_id"; "owner"; "model_id"; "session_id"; "execution_id"; "expires_at"])); vm_compute; exact I|].
  destruct g as [o m [s|] [e|]]; split_and!; done.
Qed.

Lemma write_jnull o : plain_opt o → write true (jnull o) = write false (jnull o).
Proof. destruct o as [s|]; [|done]. apply json_string_plain. Qed.

Lemma claims_text b g q : plain b → plain_grant g → canonical_claims (claims_document b g q) = dumps false (claims_document b g q).
Proof.
  intros Hb (Ho & Hm & Hs & He). unfold canonical_claims, dumps. rewrite claims_sorted. unfold sorted_claims.
  cbn [write map fst snd]. rewrite !(json_string_plain _ Hb), !(json_string_plain _ Ho), !(json_string_plain _ Hm), !write_jnull by done.
  rewrite !(json_string_plain "boot_id"), !(json_string_plain "execution_id"), !(json_string_plain "expires_at"),
    !(json_string_plain "model_id"), !(json_string_plain "owner"), !(json_string_plain "session_id") by solve_plain. done.
Qed.

Lemma claims_loaded b g q : plain b → plain_grant g → is_float q →
  loads plain_hooks (canonical_claims (claims_document b g q)) = Ret (JObj (sorted_claims b g q)).
Proof.
  intros Hb Hg Hq. rewrite claims_text by done. rewrite (loads_dumps plain_hooks plain_faithful) by by apply claims_readable.
  by rewrite claims_sorted.
Qed.

(** Different claims have different canonical texts. *)
Lemma claims_injective b g q b' g' q' :
  plain b → plain_grant g → is_float q → plain b' → plain_grant g' → is_float q' →
  canonical_claims (claims_document b g q) = canonical_claims (claims_document b' g' q') → b = b' ∧ g = g' ∧ q = q'.
Proof.
  intros Hb Hg Hq Hb' Hg' Hq' He. pose proof (claims_loaded b g q Hb Hg Hq) as H1. rewrite He, claims_loaded in H1 by done.
  injection H1 as <- E1 <- E2 E3 E4. destruct g as [o m s e], g' as [o' m' s' e']. simpl in *. subst.
  assert (s = s' ∧ e = e') as [-> ->]; [|done]. unfold jnull in *. split; [destruct s, s'|destruct e, e']; congruence.
Qed.
End claims.

(** ** ASCII texts *)
Lemma raw_char_ascii c : code c < 128 → is_ascii (raw_char c) = true.
Proof.
  intros Hc. unfold raw_char, short_escape.
  repeat (match goal with |- context [code c =? ?k] => destruct (code c =? k); [vm_compute; reflexivity|] end).
  destruct (code c <? 32) eqn:E; [|unfold is_ascii; simpl; by rewrite (proj2 (Z.ltb_lt _ _) Hc)].
  bool_prop. pose proof (code_range c). unfold u_escape, is_ascii.
  assert (∀ n, 0 ≤ n < 16 → code (hex_digit n) <? 128 = true) as Hh.
  { intros n Hn. unfold hex_digit. apply Z.ltb_lt. destruct (n <? 10) eqn:En; bool_prop; rewrite code_byte; lia. }
  rewrite chars_app, forallb_app. simpl. by rewrite !Hh by (Z.div_mod_to_equations; lia).
Qed.
Lemma json_string_ascii s : plain s → is_ascii (json_string false s) = true.
Proof.
  intros Hs. unfold json_string, quoted. change (String (byte 34) ?x) with (String (byte 34) "" +:+ x).
  rewrite !is_ascii_app. assert (is_ascii (concat_text (raw_char <$> chars s)) = true) as ->; [|done].
  apply is_ascii_concat. apply Forall_fmap. unfold plain in Hs. eapply Forall_impl; [exact Hs|]. intros c Hc. apply raw_char_ascii. simpl in Hc. lia.
Qed.

(** ** Splitting a token *)
Lemma partition_first v l : Forall (fun c => code c ≠ 46) v → partition_dot (v ++ byte 46 :: l) = (v, l).
Proof.
  induction 1 as [|c v Hc Hv IH]; [done|]. simpl. rewrite (proj2 (Z.eqb_neq _ _) Hc). by rewrite IH.
Qed.
Lemma rpartition_last p s : Forall (fun c => code c ≠ 46) s → rpartition_dot (p ++ byte 46 :: s) = (p, s).
Proof.
  intros Hs. unfold rpartition_dot. rewrite existsb_app. cbn [existsb]. change (code (byte 46) =? 46) with true. rewrite orb_true_r.
  rewrite rev_app_distr. cbn [rev]. rewrite <-app_assoc. cbn [app].
  rewrite partition_first by by apply Forall_rev. by rewrite !rev_involutive.
Qed.

(** ** Issued tokens *)

(** What a hexadecimal digest is. *)
Class MacHex `{Mac} := {
  hmac_hex : ∀ k m, Forall (fun c => is_hex c = true) (chars (hmac_sha256_hex k m));
  hmac_nonempty : ∀ k m, hmac_sha256_hex k m ≠ "";
}.

Lemma hex_letter c : is_hex c = true → b64_letter c.
Proof.
  unfold is_hex, is_digit, in_range, b64_letter. intros H. repeat (apply orb_true_iff in H as [H|H]); bool_prop; lia.
Qed.
Lemma letters_ascii l : Forall b64_letter l → is_ascii (text_of l) = true.
Proof.
  intros Hl. unfold is_ascii. rewrite chars_text_of. apply forallb_forall. intros c Hc. rewrite Forall_forall in Hl.
  apply Z.ltb_lt, (Hl c). by apply list_elem_of_In.
Qed.
Lemma letters_no_dot l : Forall b64_letter l → Forall (fun c => code c ≠ 46) l.
Proof. intros Hl. eapply Forall_impl; [exact Hl|]. by intros c (_ & ? & _). Qed.

Lemma bytes_of_text s : Forall is_byte (map code (chars s)).
Proof. apply Forall_map, Forall_forall. intros c _. apply code_range. Qed.
Lemma text_of_bytes s : text_of (map byte (map code (chars s))) = s.
Proof.
  rewrite map_map. rewrite (map_ext _ id) by apply byte_code. rewrite map_id. apply text_of_chars.
Qed.

Section tokens.
Context `{MH : MacHex} `{FL : FloatTextLaws}.

Lemma mac_letters k m : Forall b64_letter (chars (hmac_sha256_hex k m)).
Proof. eapply Forall_impl; [apply hmac_hex|]. apply hex_letter. Qed.
Lemma mac_ascii k m : is_ascii (hmac_sha256_hex k m) = true.
Proof. rewrite <-(text_of_chars (hmac_sha256_hex k m)). apply letters_ascii, mac_letters. Qed.

(** The canonical claims are ASCII, so they decode. *)
Lemma claims_ascii b g q : plain b → plain_grant g → is_float q → is_ascii (canonical_claims (claims_document b g q)) = true.
Proof.
  intros Hb Hg Hq. rewrite claims_text by done. destruct Hg as (Ho & Hm & Hs & He). unfold dumps. rewrite claims_sorted.
  assert (∀ o, plain_opt o → is_ascii (write false (jnull o)) = true) as Hn by (intros [s|]; [apply json_string_ascii|done]).
  unfold sorted_claims. cbn [write map fst snd join]. rewrite !is_ascii_app.
  rewrite !json_string_ascii by (done || solve_plain). rewrite (Hn _ Hs), (Hn _ He), (float_ascii q Hq). reflexivity.
Qed.

Definition claims_payload (b : string) (g : Grant) (q : Q) : list ascii :=
  rstrip_pad (b64encode (map code (chars (canonical_claims (claims_document b g q))))).

Lemma payload_letters b g q : Forall b64_letter (claims_payload b g q) ∧ claims_payload b g q ≠ [].
Proof.
  unfold claims_payload. destruct (encode_shape _ (bytes_of_text (canonical_claims (claims_document b g q)))) as (body & -> & Hb & Hne).
  rewrite rstrip_letters by done. split; [done|]. apply Hne. unfold canonical_claims, dumps. rewrite claims_sorted. done.
Qed.

Lemma issue_shape a g ttl now t : issue a g ttl now = Ret t →
  OWNER_RE (g_owner g) = true ∧ ID_RE (g_model_id g) = true ∧
  let p := claims_payload (ta_boot_id a) g (thousandths (round3 (now + ttl))) in
  chars t = chars "v1" ++ byte 46 :: p ++ byte 46 :: chars (hmac_sha256_hex (ta_boot_key a) (text_of p)).
Proof.
  unfold issue. intros Hi. destruct (negb (OWNER_RE _) || negb (ID_RE _)) eqn:E; [done|]. apply orb_false_iff in E as [E1 E2].
  apply negb_false_iff in E1, E2. split_and!; [done|done|]. cbv zeta.
  fold (claims_payload (ta_boot_id a) g (thousandths (round3 (now + ttl)))) in Hi.
  destruct (payload_letters (ta_boot_id a) g (thousandths (round3 (now + ttl)))) as [Hl _].
  set (p := claims_payload _ _ _) in *. clearbody p. unfold signature in Hi. rewrite letters_ascii in Hi by done.
  run_unfold. injection Hi as <-. rewrite !chars_app, chars_text_of. done.
Qed.

(** Decoding a well-formed token text. *)
Lemma decode_shape a t p sig : Forall b64_letter p → p ≠ [] → Forall b64_letter sig → sig ≠ [] →
  chars t = chars "v1" ++ byte 46 :: p ++ byte 46 :: sig →
  decode_token a t =
    (if String.eqb (text_of sig) (hmac_sha256_hex (ta_boot_key a) (text_of p)) then
       match b64decode 0 0 0 (pad4 p) with
       | None => stale
       | Some data =>
           let text := text_of (map byte data) in
           if negb (utf8_valid text) then stale
           else
             match loads plain_hooks text with
             | Raise (ValueError _) => stale
             | Raise e => Raise e
             | Ret (JObj claims) =>
                 if bool_decide (Forall (fun k => k ∈ CLAIM_KEYS) (claims.*1)) && bool_decide (Forall (fun k => k ∈ claims.*1) CLAIM_KEYS)
                 then Ret claims else stale
             | Ret _ => stale
             end
       end
     else stale).
Proof.
  intros Hp Hp0 Hs Hs0 Ht. unfold decode_token. rewrite Ht, partition_first by (apply (bool_decide_unpack _); vm_compute; exact I).
  rewrite rpartition_last by by apply letters_no_dot. change (text_of (chars "v1") =? TOKEN_VERSION)%string with true.
  rewrite !bool_decide_false by done. cbn [negb orb]. unfold signature, compare_digest.
  rewrite !letters_ascii by done. run_unfold. rewrite mac_ascii. cbn [andb].
  by destruct (text_of sig =? _)%string.
Qed.

Lemma round3_q_thousandths n : round3_q (thousandths n) = thousandths n.
Proof.
  assert (∀ q, (q == n # 1000)%Q → Qnum q * 1000 = n * QDen q) as Hq by (intros q Hq; unfold Qeq in Hq; simpl in Hq; lia).
  specialize (Hq (thousandths n) (Qred_correct _)). unfold round3_q. rewrite Hq, Z.div_mul, Z.mod_mul by lia. done.
Qed.

Lemma expired_at n now : Qle_bool (thousandths n) (now # 1000000000) = (n * 1000000 <=? now).
Proof.
  apply eq_bool_prop_intro. rewrite !Is_true_true, Qle_bool_iff, Z.leb_le. unfold thousandths. rewrite Qred_correct.
  unfold Qle. simpl. lia.
Qed.

Lemma ID_RE_plain s : ID_RE s = true → plain s.
Proof.
  unfold ID_RE, plain. assert (∀ c, is_alnum c = true → code c < 127) as Ha.
  { intros c. unfold is_alnum, is_lower, is_digit, in_range. intros Hc. apply orb_true_iff in Hc as [?|?]; bool_prop; lia. }
  destruct (chars s) as [|c l]; [done|]. intros HR. apply andb_true_iff in HR as [HR _]. apply andb_true_iff in HR as [HR Hl].
  apply andb_true_iff in HR as [Hc _]. apply Forall_cons. split; [by apply Ha|]. apply Forall_forall. intros d Hd%list_elem_of_In.
  rewrite forallb_forall in Hl. specialize (Hl d Hd). rewrite !orb_true_iff in Hl.
  destruct Hl as [[[Hl|Hl]|Hl]|Hl]; [by apply Ha|apply Z.eqb_eq in Hl; lia..].
Qed.
Lemma OWNER_RE_plain s : OWNER_RE s = true → plain s.
Proof.
  unfold OWNER_RE, plain. destruct (chars s) as [|u [|i [|d [|colon l]]]]; try done. intros HR.
  apply andb_true_iff in HR as [HR _]. apply andb_true_iff in HR as [HR _]. apply andb_true_iff in HR as [HR Hl].
  apply bool_decide_eq_true in HR. injection HR as -> -> -> ->. do 4 (apply Forall_cons; split; [vm_compute; reflexivity|]).
  apply Forall_forall. intros c Hc%list_elem_of_In. rewrite forallb_forall in Hl. specialize (Hl c Hc).
  unfold is_digit, in_range in Hl. bool_prop. lia.
Qed.

(** Decoding an issued token, by any authority. *)
Lemma decode_issued a a' g ttl issued t (q := thousandths (round3 (issued + ttl))) :
  plain (ta_boot_id a) → plain_grant g → is_float q → issue a g ttl issued = Ret t →
  decode_token a' t =
    let p := text_of (claims_payload (ta_boot_id a) g q) in
    if String.eqb (hmac_sha256_hex (ta_boot_key a) p) (hmac_sha256_hex (ta_boot_key a') p)
    then Ret (sorted_claims (ta_boot_id a) g q) else stale.
Proof.
  intros Hb Hg Hq Hi. destruct (issue_shape _ _ _ _ _ Hi) as (_ & _ & Ht). fold q in Ht. cbv zeta in *.
  destruct (payload_letters (ta_boot_id a) g q) as [Hl Hne].
  assert (chars (hmac_sha256_hex (ta_boot_key a) (text_of (claims_payload (ta_boot_id a) g q))) ≠ []) as Hsig.
  { intros E. apply (hmac_nonempty (ta_boot_key a) (text_of (claims_payload (ta_boot_id a) g q))).
    by rewrite <-(text_of_chars (hmac_sha256_hex _ _)), E. }
  rewrite (decode_shape a' t _ _ Hl Hne (mac_letters _ _) Hsig Ht).
  rewrite text_of_chars. destruct (String.eqb _ _); [|done].
  unfold claims_payload. rewrite payload_roundtrip by apply bytes_of_text. cbv zeta. rewrite text_of_bytes.
  rewrite ascii_utf8_valid by by apply claims_ascii. cbn [negb]. rewrite claims_loaded by done. reflexivity.
Qed.

(** What verification answers for an issued token. *)
Lemma issued_token_verifies a a' g g' ttl issued now t :
  plain (ta_boot_id a) → plain (ta_boot_id a') → plain_opt (g_session_id g) → plain_opt (g_execution_id g) → plain_grant g' →
  is_float (thousandths (round3 (issued + ttl))) → issue a g ttl issued = Ret t →
  let q := thousandths (round3 (issued + ttl)) in
  let p := text_of (claims_payload (ta_boot_id a) g q) in
  verify a' t g' now =
    if String.eqb (hmac_sha256_hex (ta_boot_key a) p) (hmac_sha256_hex (ta_boot_key a') p)
       && bool_decide (ta_boot_id a' = ta_boot_id a) && bool_decide (g' = g) && (now <? round3 (issued + ttl) * 1000000)
    then Ret (sorted_claims (ta_boot_id a) g q) else Raise (IdentityError "stale_token").
Proof.
  intros Hb Hb' Hs He Hg' Hq Hi q p. destruct (issue_shape _ _ _ _ _ Hi) as (Ho & Hm & _).
  assert (plain_grant g) as Hg by (split_and!; [by apply OWNER_RE_plain|by apply ID_RE_plain|done|done]).
  unfold verify. rewrite (decode_issued a a' g ttl issued t Hb Hg Hq Hi). fold q. cbv zeta. fold p.
  destruct (String.eqb (hmac_sha256_hex (ta_boot_key a) p) _); [|done]. cbn [andb]. run_unfold.
  change (jget "expires_at" (sorted_claims (ta_boot_id a) g q)) with (Some (JFloat (Some q))). cbv iota beta delta [finite_expiry].
  change (jget "boot_id" (sorted_claims (ta_boot_id a) g q)) with (Some (JStr (ta_boot_id a))). cbv iota beta.
  unfold q at 2. rewrite round3_q_thousandths. fold q. rewrite claims_canonical.
  destruct (String.eqb_spec (canonical_claims (claims_document (ta_boot_id a) g q)) (canonical_claims (claims_document (ta_boot_id a') g' q))) as [E|E]; cbn [negb].
  - apply claims_injective in E as (-> & -> & _); [|done..]. rewrite String.eqb_refl, !bool_decide_true by done. cbn [negb andb].
    unfold q at 1. rewrite expired_at, Z.leb_antisym. by destruct (now <? _).
  - assert (bool_decide (ta_boot_id a' = ta_boot_id a) && bool_decide (g' = g) = false) as ->; [|done].
    apply andb_false_iff. destruct (decide (ta_boot_id a' = ta_boot_id a)) as [E1|E1]; [right|left; by apply bool_decide_false].
    apply bool_decide_false. intros ->. apply E. by rewrite E1.
Qed.

(** C32: a token is good for exactly what it was issued for.  Take a token [issue]
    made for a grant (owner, model, session and execution) and a lifetime, with the
    boot, session and execution identifiers in ASCII below DEL and an expiry,
    rounded to milliseconds, whose JSON text reads back as itself.  Present it to
    any authority, for any grant in such ASCII, at any time.  [verify] returns the
    issued claims when the MAC of the payload is the same under both keys, boot and
    whole grant are the issued ones and the rounded expiry is still ahead; in every
    other case it raises [stale_token].  The MAC is any function into hex text. *)
Theorem issued_token_exact a a' g g' ttl issued now t :
  plain (ta_boot_id a) → plain (ta_boot_id a') → plain_opt (g_session_id g) → plain_opt (g_execution_id g) → plain_grant g' →
  is_float (thousandths (round3 (issued + ttl))) → issue a g ttl issued = Ret t →
  let q := thousandths (round3 (issued + ttl)) in
  let p := text_of (claims_payload (ta_boot_id a) g q) in
  verify a' t g' now =
    if String.eqb (hmac_sha256_hex (ta_boot_key a) p) (hmac_sha256_hex (ta_boot_key a') p)
       && bool_decide (ta_boot_id a' = ta_boot_id a) && bool_decide (g' = g) && (now <? round3 (issued + ttl) * 1000000)
    then Ret (sorted_claims (ta_boot_id a) g q) else Raise (IdentityError "stale_token").
Proof. intros Hb Hb' Hs He Hg Hq Hi. exact (issued_token_verifies _ _ _ _ _ _ now _ Hb Hb' Hs He Hg Hq Hi). Qed.
End tokens.

(** ** Accepted tokens *)
Lemma partition_split l v r : partition_dot l = (v, r) → r ≠ [] → l = v ++ byte 46 :: r.
Proof.
  revert v. induction l as [|c l IH]; intros v; simpl; [by intros [= <- <-]|]. destruct (code c =? 46) eqn:E.
  - intros [= <- <-] _. apply Z.eqb_eq in E. simpl. by rewrite <-(byte_code c), E.
  - destruct (partition_dot l) as [a b]. intros [= <- <-] Hr. simpl. by rewrite (IH a eq_refl Hr).
Qed.
Lemma rpartition_split l p s : rpartition_dot l = (p, s) → p ≠ [] → l = p ++ byte 46 :: s.
Proof.
  unfold rpartition_dot. destruct (existsb _ l); [|by intros [= <- <-]]. destruct (partition_dot (rev l)) as [a b] eqn:E.
  intros [= <- <-] Hp. apply partition_split in E; [|by intros ->]. rewrite <-(rev_involutive l), E, rev_app_distr. simpl.
  by rewrite <-app_assoc.
Qed.
Lemma split_token v p s t : chars t = v ++ byte 46 :: p ++ byte 46 :: s → t = text_of v +:+ "." +:+ text_of p +:+ "." +:+ text_of s.
Proof.
  intros Ht. rewrite <-(text_of_chars t), Ht. rewrite <-(chars_text_of v), <-(chars_text_of p), <-(chars_text_of s) at 1.
  rewrite <-(text_of_chars (text_of v +:+ "." +:+ text_of p +:+ "." +:+ text_of s)). by rewrite !chars_app.
Qed.

Section accepted.
Context `{Mac} `{FloatText}.

Lemma decode_signed a t claims : decode_token a t = Ret claims → ∃ p,
  t = "v1." +:+ p +:+ "." +:+ hmac_sha256_hex (ta_boot_key a) p ∧
  (∃ data, b64decode 0 0 0 (pad4 (chars p)) = Some data ∧ loads plain_hooks (text_of (map byte data)) = Ret (JObj claims)) ∧
  ∀ k, k ∈ claims.*1 ↔ k ∈ CLAIM_KEYS.
Proof.
  unfold decode_token. destruct (partition_dot (chars t)) as [v rest] eqn:Ev. destruct (rpartition_dot rest) as [p s] eqn:Ep.
  destruct (_ || _) eqn:E; [done|]. apply orb_false_iff in E as [E Es]. apply orb_false_iff in E as [E Epn].
  apply bool_decide_eq_false in Es, Epn. apply negb_false_iff, String.eqb_eq in E. unfold signature, compare_digest. run_unfold.
  destruct (is_ascii (text_of p)); [|done]. destruct (_ && _); [|done]. destruct (String.eqb_spec (text_of s) (hmac_sha256_hex (ta_boot_key a) (text_of p))) as [Hs|]; [|done].
  cbn [negb]. destruct (b64decode 0 0 0 (pad4 p)) as [data|] eqn:Hd; [|done]. cbv zeta. destruct (negb _); [done|].
  destruct (loads _ _) as [v'|[]] eqn:Hl; try done. destruct v' as [| | | | | |fields]; try done.
  destruct (_ && _) eqn:Hk; [|done]. intros [= <-]. apply andb_true_iff in Hk as [Hk1 Hk2]. apply bool_decide_eq_true in Hk1, Hk2.
  exists (text_of p). split_and!.
  - rewrite <-Hs. apply rpartition_split in Ep; [|done]. apply partition_split in Ev; [|rewrite Ep; by destruct p].
    rewrite Ep in Ev. apply split_token in Ev. by rewrite E in Ev.
  - exists data. by rewrite chars_text_of.
  - rewrite Forall_forall in Hk1, Hk2. intros k. split; [apply Hk1|apply Hk2].
Qed.

(** Nothing but this boot's signature opens the door: whatever text is
    presented, if it is accepted then it is [v1.], a payload and the keyed
    digest of that payload under this boot's key, the payload decodes to an
    object of exactly the six claims, whose canonical bytes are those of this
    boot and of the requested owner, model, session and execution, and its
    expiry is still ahead. *)
Theorem accepted_token_sound a t g now claims :
  verify a t g now = Ret claims →
  ∃ p q, t = "v1." +:+ p +:+ "." +:+ hmac_sha256_hex (ta_boot_key a) p ∧
    (∃ data, b64decode 0 0 0 (pad4 (chars p)) = Some data ∧ loads plain_hooks (text_of (map byte data)) = Ret (JObj claims)) ∧
    (∀ k, k ∈ claims.*1 ↔ k ∈ CLAIM_KEYS) ∧ jget "boot_id" claims = Some (JStr (ta_boot_id a)) ∧
    finite_expiry (jget "expires_at" claims) = Ret q ∧ ((now # 1000000000) < q)%Q ∧
    canonical_claims (JObj claims) = canonical_claims (claims_document (ta_boot_id a) g (round3_q q)).
Proof.
  unfold verify. run_unfold. destruct (decode_token a t) as [cl|] eqn:Hd; [|done]. destruct (finite_expiry _) as [q|] eqn:Hq; [|done].
  destruct (String.eqb_spec (canonical_claims (JObj cl)) (canonical_claims (claims_document (ta_boot_id a) g (round3_q q)))) as [Hc|]; [|done].
  cbn [negb]. destruct (jget "boot_id" cl) as [[| | | |b| |]|] eqn:Hb; try done. destruct (String.eqb_spec b (ta_boot_id a)) as [->|]; [|done].
  cbn [negb]. destruct (Qle_bool _ _) eqn:He; [done|]. intros [= <-]. destruct (decode_signed _ _ _ Hd) as (p & Ht & Hdata & Hk).
  exists p, q. split_and!; try done. apply Qnot_le_lt. intros Hle. apply Qle_bool_iff in Hle. congruence.
Qed.
End accepted.

(** ** A token issued and presented *)
Definition nibble (n : Z) : ascii := byte (if n <? 10 then 48 + n else 87 + n).
Definition demo_mac : Mac := {| hmac_sha256_hex k m :=
  text_of (flat_map (fun c => [nibble (code c / 16); nibble (code c mod 16)]) (chars (k +:+ m +:+ "."))) |}.
#[local] Existing Instance demo_mac.
#[local] Existing Instance thousandths_floats.
#[local] Existing Instance thousandths_laws.

Lemma nibble_hex n : 0 ≤ n < 16 → is_hex (nibble n) = true.
Proof.
  intros Hn. unfold nibble, is_hex, is_digit, in_range. destruct (n <? 10) eqn:E; bool_prop; rewrite code_byte by lia;
    apply orb_true_iff; [left|right]; apply andb_true_iff; split; apply Z.leb_le; lia.
Qed.
#[local] Instance demo_mac_hex : MacHex.
Proof.
  split; intros k m.
  - unfold hmac_sha256_hex, demo_mac. rewrite chars_text_of. apply Forall_flat_map, Forall_forall. intros c _. pose proof (code_range c).
    repeat constructor; apply nibble_hex; Z.div_mod_to_equations; lia.
  - intros E. assert (length (chars (hmac_sha256_hex k m)) = 0%nat) as El by by rewrite E. revert El.
    unfold hmac_sha256_hex, demo_mac. rewrite chars_text_of, !chars_app, !flat_map_app, !length_app. simpl. lia.
Qed.

Definition demo_authority : TokenAuthority := {| ta_boot_key := "k"; ta_boot_id := "b0" |}.
Definition demo_grant : Grant := {| g_owner := "uid:7"; g_model_id := "m"; g_session_id := Some "s1"; g_execution_id := None |}.
Definition demo_token : string := match issue demo_authority demo_grant (1500 * 1000000) 0 with Ret t => t | Raise _ => "" end.

Lemma issued_token_exact_witness :
  (∃ claims, verify demo_authority demo_token demo_grant (1499 * 1000000) = Ret claims) ∧
  verify demo_authority demo_token demo_grant (1500 * 1000000) = Raise (IdentityError "stale_token").
Proof.
  assert (is_float (thousandths (round3 (0 + 1500 * 1000000)))) as Hq by (exists 1500; split; [vm_compute; reflexivity|apply Z.ltb_lt; vm_compute; reflexivity]).
  assert (issue demo_authority demo_grant (1500 * 1000000) 0 = Ret demo_token) as Hi by (vm_compute; reflexivity).
  assert (plain_grant demo_grant) as Hg by (split_and!; solve_plain || exact I).
  assert (plain "b0") as Hb by solve_plain. assert (plain_opt (Some "s1")) as Hs by solve_plain.
  split.
  - eexists. rewrite (issued_token_exact demo_authority demo_authority demo_grant demo_grant (1500 * 1000000) 0 (1499 * 1000000) demo_token Hb Hb Hs I Hg Hq Hi).
    vm_compute. reflexivity.
  - rewrite (issued_token_exact demo_authority demo_authority demo_grant demo_grant (1500 * 1000000) 0 (1500 * 1000000) demo_token Hb Hb Hs I Hg Hq Hi).
    vm_compute. reflexivity.
Defined.

Lemma accepted_token_sound_witness : ∃ p q, demo_token = "v1." +:+ p +:+ "." +:+ hmac_sha256_hex "k" p ∧ ((0 # 1000000000) < q)%Q.
Proof.
  assert (is_Some (match verify demo_authority demo_token demo_grant 0 with Ret c => Some c | Raise _ => None end)) as [c Hc]
    by (vm_compute; eexists; reflexivity).
  destruct (verify demo_authority demo_token demo_grant 0) as [c'|] eqn:Hv; [|discriminate Hc].
  destruct (accepted_token_sound demo_authority demo_token demo_grant 0 c' Hv) as (p & q & Ht & _ & _ & _ & _ & Hn & _). exists p, q. by split.
Defined.

(** A token with a letter outside ASCII is not answered [stale_token]. *)
Example non_ascii_token : verify demo_authority (concat_text ["v1."; utf8 233; ".00"]) demo_grant 0 = Raise (ValueError "UnicodeEncodeError").
Proof. vm_compute. reflexivity. Qed.
