(* ===== verification/RegistrationProps.v ===== *)
(** * What a parsed deployment guarantees

    [deployment_ok] is the contract of a registration, stated on the parsed
    values.  The parsers accept exactly it: whatever they return satisfies it
    (soundness), and the document written from any deployment that satisfies it
    is read back as the same deployment (completeness).  The last part hands an
    accepted deployment to the Book. *)

From S2P Require Import Prelude Text Dict Contracts Registry Registration.
From Stdlib Require Import Ascii.
Local Open Scope Z_scope.

(** ** The contract *)
Definition path_ok (s : string) : Prop :=
  s ≠ "" ∧ Forall (fun c => 32 ≤ code c ∧ code c ≠ 127 ∧ code c ≠ 92) (chars s) ∧
  Forall (fun part => part ∉ [""; "."; ".."]) (path_parts s).

Definition asset_ok (a : AssetRef) : Prop :=
  asset_role a ∈ ASSET_ROLES ∧ path_ok (asset_path a) ∧ SHA256_RE (asset_sha256 a) = true ∧ 1 ≤ asset_size_bytes a.

Definition runtime_ok (r : RuntimeSpec) : Prop :=
  ID_RE (rt_runtime_id r) = true ∧ IMAGE_DIGEST_RE (rt_image_digest r) = true ∧
  SHA256_RE (rt_adapter_sha256 r) = true ∧ SHA256_RE (rt_lock_sha256 r) = true ∧
  ∃ profile, PROFILES (rt_profile_id r) = Some profile ∧
    NoDup (rt_startup_args r) ∧ Forall (fun f => f ∈ allowed_flags profile) (rt_startup_args r).

Definition envelope_ok (e : Envelope) : Prop :=
  512 ≤ ctx_size e ∧ 1 ≤ max_input_tokens e ∧ 1 ≤ max_output_tokens e ∧ 1 ≤ max_parallel e ≤ 64 ∧
  max_input_tokens e + max_output_tokens e ≤ ctx_size e ∧ 0 ≤ max_image_tokens e < max_input_tokens e ∧
  0 ≤ max_images e ∧ (max_image_tokens e = 0 ↔ max_image_edge_pixels e = 0) ∧
  (max_images e = 0 ↔ max_image_tokens e = 0) ∧ (max_image_edge_pixels e = 0 ∨ 28 ≤ max_image_edge_pixels e).

Definition measurement_ok (measured : bool) (ref : option string) (peak : option Z) : Prop :=
  (if measured then is_Some ref ∧ is_Some peak else ref = None ∧ peak = None) ∧
  (∀ s, ref = Some s → SHA256_RE s = true) ∧ (∀ p, peak = Some p → 0 < p).

Record model_ok (m : RegisteredModelSpec) : Prop := {
  ok_ids : ID_RE (v2_model_id m) = true ∧ ID_RE (v2_runtime_id m) = true;
  ok_capabilities : v2_capabilities m ≠ [] ∧ NoDup (v2_capabilities m) ∧
    Forall (fun c => is_Some (capability_roles c)) (v2_capabilities m);
  ok_assets : v2_assets m ≠ [] ∧ Forall asset_ok (v2_assets m) ∧ NoDup (map asset_path (v2_assets m));
  ok_roles : ∀ c roles role, c ∈ v2_capabilities m → capability_roles c = Some roles → role ∈ roles →
    role ∈ map asset_role (v2_assets m);
  ok_port : 10001 ≤ v2_port m ≤ 19999;
  ok_envelope : envelope_ok (v2_envelope m);
  ok_timeout : 1 ≤ v2_timeout_seconds m ≤ 86400;
  ok_reserved : 1 ≤ v2_reserved_bytes m;
  ok_measurement : measurement_ok (v2_measured m) (v2_measurement_ref m) (v2_physical_resident_peak_bytes m);
  ok_vision : "vision" ∈ v2_capabilities m ↔ 0 < max_images (v2_envelope m);
}.

(** The registered files fit the profile of the runtime the model names. *)
Definition fits_profile (m : RegisteredModelSpec) (p : RuntimeProfile) : Prop :=
  (∀ a, a ∈ v2_assets m → asset_role a ∈ map fst (role_cardinality p)) ∧
  (∀ role lo hi, (role, (lo, hi)) ∈ role_cardinality p →
     lo ≤ role_count (v2_assets m) role ∧ ∀ h, hi = Some h → role_count (v2_assets m) role ≤ h) ∧
  (role_count (v2_assets m) "projector" ≠ 0 → "vision" ∈ v2_capabilities m).

Record deployment_ok (d : DeploymentSpec) : Prop := {
  ok_runtimes : dep_runtimes d ≠ [] ∧ Forall runtime_ok (dep_runtimes d) ∧
    NoDup (map rt_runtime_id (dep_runtimes d));
  ok_models : dep_models d ≠ [] ∧ Forall model_ok (dep_models d);
  ok_model_ids : NoDup (map v2_model_id (dep_models d));
  ok_ports : NoDup (map v2_port (dep_models d));
  ok_bindings : ∀ m, m ∈ dep_models d → ∃ r p,
    find_runtime (dep_runtimes d) (v2_runtime_id m) = Some r ∧ PROFILES (rt_profile_id r) = Some p ∧ fits_profile m p;
}.

(** ** Inversion of the strict helpers *)
Lemma obind_ret {A B} (m : outcome A) (k : A → outcome B) b :
  m ≫= k = Ret b ↔ ∃ a, m = Ret a ∧ k a = Ret b.
Proof. destruct m; unfold mbind, outcome_bind; naive_solver. Qed.

Lemma require_ret ok msg u : require ok msg = Ret u ↔ ok = true.
Proof. destruct u, ok; unfold require, err; naive_solver. Qed.

Lemma of_option_ret {A} e (o : option A) a : of_option e o = Ret a ↔ o = Some a.
Proof. destruct o; simpl; naive_solver. Qed.

Lemma mret_ret {A} (a b : A) : (mret a : outcome A) = Ret b ↔ a = b.
Proof. unfold mret, outcome_ret. naive_solver. Qed.

Ltac inv_parse :=
  repeat match goal with
  | H : _ ≫= _ = Ret _ |- _ => apply obind_ret in H; destruct H as (? & ? & H)
  | H : require _ _ = Ret _ |- _ => apply require_ret in H
  | H : of_option _ _ = Ret _ |- _ => apply of_option_ret in H
  | H : mret _ = Ret _ |- _ => apply (proj1 (mret_ret _ _)) in H; subst
  | H : err _ = Ret _ |- _ => discriminate H
  | H : Raise _ = Ret _ |- _ => discriminate H
  end; bool_prop.

Lemma get_str_ret data key p s : get_str data key p = Ret s → p s = true ∧ s ≠ "".
Proof.
  unfold get_str, err. intros. repeat case_match; simplify_eq. split; [done|].
  by apply String.eqb_neq.
Qed.

Lemma get_int_ret data key lo hi n :
  get_int data key lo hi = Ret n → (∀ m, lo = Some m → m ≤ n) ∧ (∀ m, hi = Some m → n ≤ m).
Proof.
  unfold get_int, err. intros. repeat case_match; simplify_eq; bool_prop; split; intros; simplify_eq; done.
Qed.

Lemma get_int_min data key lo n : get_int data key (Some lo) None = Ret n → lo ≤ n.
Proof. intros [H _]%get_int_ret. by apply H. Qed.

Lemma get_int_between data key lo hi n : get_int data key (Some lo) (Some hi) = Ret n → lo ≤ n ≤ hi.
Proof. intros [H ?]%get_int_ret. split; [by apply H|auto]. Qed.

Lemma sha256_value_ret v s : sha256_value v = Ret s → SHA256_RE s = true.
Proof. unfold sha256_value, err. intros. by repeat case_match; simplify_eq. Qed.

Lemma existsb_false {A} (f : A → bool) l : existsb f l = false ↔ Forall (fun x => f x = false) l.
Proof.
  induction l as [|x l IH]; simpl; [by split; [constructor|]|].
  rewrite orb_false_iff, Forall_cons, IH. done.
Qed.

Lemma forallb_Forall' {A} (f : A → bool) l : forallb f l = true ↔ Forall (fun x => f x = true) l.
Proof.
  induction l as [|x l IH]; simpl; [by split; [constructor|]|].
  rewrite andb_true_iff, Forall_cons, IH. done.
Qed.

Lemma safe_relative_path_ret v s : safe_relative_path v = Ret s → path_ok s.
Proof.
  unfold safe_relative_path, err. intros H. repeat case_match; simplify_eq; bool_prop.
  all: repeat match goal with H : existsb _ _ = false |- _ => apply existsb_false in H end.
  all: split_and!; [by apply String.eqb_neq| |].
  all: repeat match goal with H : Forall _ _ |- _ => rewrite Forall_forall in H end; rewrite ?Forall_forall.
  all: try (intros c Hc; repeat match goal with H : ∀ x : ascii, _ |- _ => specialize (H c Hc) end; bool_prop; lia).
  all: intros c Hc; match goal with H : ∀ x : string, _ |- _ => specialize (H c Hc) end; by bool_prop.
Qed.

(** ** Soundness of the parsers *)
Lemma parse_asset_ref_sound v a : parse_asset_ref v = Ret a → asset_ok a.
Proof.
  unfold parse_asset_ref. intros H. inv_parse. unfold asset_ok; simpl.
  split_and!; eauto using safe_relative_path_ret, sha256_value_ret, get_int_min.
Qed.

Lemma parse_startup_args_sound p raw seen l :
  parse_startup_args p seen raw = Ret l →
  NoDup l ∧ Forall (fun f => f ∈ allowed_flags p) l ∧ (∀ f, f ∈ l → f ∉ seen).
Proof.
  revert seen l. induction raw as [|v raw IH]; simpl; intros seen l H.
  - inv_parse. split_and!; [constructor|constructor|by intros f ?%not_elem_of_nil].
  - destruct v; inv_parse. destruct (IH _ _ ltac:(eassumption)) as (Hn & Hf & Hs).
    split_and!; [constructor; [|done]|by constructor|].
    + intros Hin. apply (Hs _ Hin). constructor.
    + intros f [->|Hin]%elem_of_cons; [done|]. intros Hseen. apply (Hs _ Hin). by constructor.
Qed.

Lemma parse_runtime_spec_sound v r : parse_runtime_spec v = Ret r → runtime_ok r.
Proof.
  unfold parse_runtime_spec. intros H. inv_parse. unfold runtime_ok; simpl.
  match goal with H : parse_startup_args _ _ _ = _ |- _ => apply parse_startup_args_sound in H as (? & ? & _) end.
  split_and!; eauto using sha256_value_ret. all: by eapply get_str_ret.
Qed.

Lemma parse_envelope_sound v e : parse_envelope v = Ret e → envelope_ok e.
Proof.
  unfold parse_envelope, MAX_PARALLEL. intros H. inv_parse.
  repeat match goal with
  | H : get_int _ _ (Some _) None = _ |- _ => apply get_int_min in H
  | H : get_int _ _ (Some _) (Some _) = _ |- _ => apply get_int_between in H
  end.
  unfold envelope_ok; simpl.
  repeat match goal with
  | H : (_ =? _) || _ = true |- _ => idtac
  | H : (?a =? ?b) = (?c =? ?d) |- _ => assert (a = b ↔ c = d) by (rewrite <-!Z.eqb_eq, H; done); clear H
  | H : (?a <? ?b) = (?c <? ?d) |- _ => assert (a < b ↔ c < d) by (rewrite <-!Z.ltb_lt, H; done); clear H
  end. rewrite ?Z.eqb_eq, ?Z.leb_le in *. lia.
Qed.

Lemma parse_capabilities_sound raw seen l :
  parse_capabilities seen raw = Ret l →
  NoDup l ∧ Forall (fun c => is_Some (capability_roles c)) l ∧ (∀ c, c ∈ l → c ∉ seen) ∧ length l = length raw.
Proof.
  revert seen l. induction raw as [|v raw IH]; simpl; intros seen l H.
  - inv_parse. split_and!; [constructor|constructor|by intros f ?%not_elem_of_nil|done].
  - destruct v; inv_parse. destruct (IH _ _ ltac:(eassumption)) as (Hn & Hf & Hs & Hl).
    split_and!; [constructor; [|done]|by constructor| |by simpl; rewrite Hl].
    + intros Hin. apply (Hs _ Hin). constructor.
    + intros f [->|Hin]%elem_of_cons; [done|]. intros Hseen. apply (Hs _ Hin). by constructor.
Qed.

(** The loops that parse one item, refuse a repeated key and go on share this step. *)
Lemma unique_cons {A K} (key : A → K) x l seen :
  NoDup (map key l) → (∀ k, k ∈ map key l → k ∉ key x :: seen) → key x ∉ seen →
  NoDup (map key (x :: l)) ∧ ∀ k, k ∈ map key (x :: l) → k ∉ seen.
Proof.
  intros Hn Hs Hx. simpl. split.
  - constructor; [|done]. intros Hin. apply (Hs _ Hin). constructor.
  - intros k [->|Hin]%elem_of_cons; [done|]. intros Hseen. apply (Hs _ Hin). by constructor.
Qed.

Lemma parse_asset_list_sound raw paths l :
  parse_asset_list paths raw = Ret l →
  Forall asset_ok l ∧ (NoDup (map asset_path l) ∧ ∀ p, p ∈ map asset_path l → p ∉ paths) ∧ length l = length raw.
Proof.
  revert paths l. induction raw as [|v raw IH]; simpl; intros paths l H; inv_parse.
  - split_and!; [constructor|constructor|by intros f ?%not_elem_of_nil|done].
  - destruct (IH _ _ ltac:(eassumption)) as (Hf & [Hn Hs] & Hl).
    split; [|split; [by apply unique_cons|by simpl; rewrite Hl]].
    constructor; [by eapply parse_asset_ref_sound|done].
Qed.

Lemma required_roles_elem caps role :
  role ∈ required_roles caps ↔ ∃ c roles, c ∈ caps ∧ capability_roles c = Some roles ∧ role ∈ roles.
Proof.
  unfold required_roles. rewrite list_elem_of_bind. split.
  - intros (c & Hr & Hc). destruct (capability_roles c) as [roles|] eqn:E; simpl in *; [eauto|by apply not_elem_of_nil in Hr].
  - intros (c & roles & Hc & E & Hr). exists c. by rewrite E.
Qed.

Lemma forallb_In' {A} (f : A → bool) l : forallb f l = true ↔ ∀ x, x ∈ l → f x = true.
Proof. by rewrite forallb_Forall', Forall_forall. Qed.

Lemma parse_assets_sound caps raw l :
  parse_assets caps raw = Ret l →
  l ≠ [] ∧ Forall asset_ok l ∧ NoDup (map asset_path l) ∧
  ∀ role, role ∈ required_roles caps → role ∈ map asset_role l.
Proof.
  unfold parse_assets. intros H. inv_parse.
  match goal with H : parse_asset_list _ _ = _ |- _ => apply parse_asset_list_sound in H as (? & [? _] & Hl) end.
  match goal with H : forallb _ _ = true |- _ => rewrite forallb_In' in H; rename H into Hr end.
  split_and!; [|done|done|intros role Hin; by eapply bool_decide_eq_true, Hr].
  intros ->. simpl in Hl. auto.
Qed.

Lemma nullable_sha256_ret data key ref : nullable_sha256 data key = Ret ref → ∀ s, ref = Some s → SHA256_RE s = true.
Proof.
  unfold nullable_sha256. intros H s ->. repeat case_match; simplify_eq; inv_parse.
  all: match goal with H : Some _ = Some _ |- _ => injection H as <- end; by eapply sha256_value_ret.
Qed.

Lemma nullable_positive_int_ret data key peak :
  nullable_positive_int data key = Ret peak → ∀ p, peak = Some p → 0 < p.
Proof. unfold nullable_positive_int, err. intros H s ->. repeat case_match; simplify_eq; by bool_prop. Qed.

Lemma parse_model_spec_sound v m : parse_model_spec v = Ret m → model_ok m.
Proof.
  unfold parse_model_spec, PORT_MIN, PORT_MAX, MAX_TIMEOUT_SECONDS. intros H. inv_parse.
  repeat match goal with
  | H : get_int _ _ (Some _) None = _ |- _ => apply get_int_min in H
  | H : get_int _ _ (Some _) (Some _) = _ |- _ => apply get_int_between in H
  | H : get_str _ _ _ = _ |- _ => apply get_str_ret in H as [? _]
  | H : parse_capabilities _ _ = _ |- _ => apply parse_capabilities_sound in H as (? & ? & _ & Hlen)
  | H : parse_assets _ _ = _ |- _ => apply parse_assets_sound in H as (? & ? & ? & Hroles)
  | H : parse_envelope _ = _ |- _ => apply parse_envelope_sound in H as Henv
  | H : nullable_sha256 _ _ = _ |- _ => pose proof (nullable_sha256_ret _ _ _ H); clear H
  | H : nullable_positive_int _ _ = _ |- _ => pose proof (nullable_positive_int_ret _ _ _ H); clear H
  end.
  split; simpl; try done.
  - split_and!; [|done|done]. intros ->. simpl in Hlen. auto.
  - intros c roles role Hc Hr Hin. apply Hroles, required_roles_elem. eauto.
  - unfold measurement_ok. split_and!; [|done|done]. clear Hlen Hroles Henv.
    match goal with |- (if ?b then _ else _) => destruct b end; simpl in *;
      repeat match goal with H : _ ∨ _ |- _ => destruct H end; bool_prop; try done.
    split; match goal with |- is_Some ?o => destruct o; by eauto end.
  - match goal with H : (if vision_of _ then _ else _) = _ |- _ => revert H end.
    unfold vision_of. match goal with |- context [bool_decide ?P] => destruct (bool_decide_reflect P) end;
      intros ?; inv_parse; split; intros; try done; lia.
Qed.

Lemma check_each_ret_all {A} (xs : list A) check u :
  check_each xs check = Ret u ↔ ∀ x, x ∈ xs → check x = Ret tt.
Proof. destruct u. apply check_each_ret. Qed.

Lemma validate_iff m p u : validate_model_against_profile m p = Ret u ↔ fits_profile m p.
Proof.
  destruct u. unfold validate_model_against_profile, fits_profile, vision_of. split.
  - intros H. inv_parse.
    match goal with H : forallb _ _ = true |- _ => rewrite forallb_In' in H; rename H into Hr end.
    match goal with H : check_each _ _ = _ |- _ => rewrite check_each_ret_all in H; rename H into Hc end.
    split_and!.
    + intros a Ha. by eapply bool_decide_eq_true, Hr.
    + intros role lo hi Hin. specialize (Hc _ Hin). simpl in Hc. inv_parse.
      split; [done|]. intros h ->. by bool_prop.
    + intros Hp. repeat match goal with H : _ ∨ _ |- _ => destruct H end; by bool_prop.
  - intros (Hr & Hc & Hp). repeat (apply obind_ret; exists tt; split); [apply require_ret, forallb_In'| |apply require_ret].
    + intros a Ha. by apply bool_decide_eq_true, Hr.
    + apply check_each_ret. intros [role [lo hi]] Hin. destruct (Hc _ _ _ Hin) as [Hlo Hhi].
      apply obind_ret; exists tt; split; apply require_ret; simpl; [by apply Z.leb_le|].
      destruct hi; [by apply Z.leb_le, Hhi|done].
    + destruct (Z.eqb_spec (role_count (v2_assets m) "projector") 0); [done|]. by apply bool_decide_eq_true, Hp.
Qed.

Lemma parse_runtimes_sound raw seen l :
  parse_runtimes seen raw = Ret l →
  Forall runtime_ok l ∧ (NoDup (map rt_runtime_id l) ∧ ∀ i, i ∈ map rt_runtime_id l → i ∉ seen) ∧ length l = length raw.
Proof.
  revert seen l. induction raw as [|v raw IH]; simpl; intros seen l H; inv_parse.
  - split_and!; [constructor|constructor|by intros f ?%not_elem_of_nil|done].
  - destruct (IH _ _ ltac:(eassumption)) as (Hf & [Hn Hs] & Hl).
    split; [|split; [by apply unique_cons|by simpl; rewrite Hl]].
    constructor; [by eapply parse_runtime_spec_sound|done].
Qed.

Definition bound (runtimes : list RuntimeSpec) (m : RegisteredModelSpec) : Prop :=
  ∃ r p, find_runtime runtimes (v2_runtime_id m) = Some r ∧ PROFILES (rt_profile_id r) = Some p ∧ fits_profile m p.

Lemma parse_models_sound runtimes raw ids ports l :
  parse_models runtimes ids ports raw = Ret l →
  Forall model_ok l ∧ (NoDup (map v2_model_id l) ∧ ∀ i, i ∈ map v2_model_id l → i ∉ ids) ∧
  (NoDup (map v2_port l) ∧ ∀ p, p ∈ map v2_port l → p ∉ ports) ∧ Forall (bound runtimes) l ∧ length l = length raw.
Proof.
  revert ids ports l. induction raw as [|v raw IH]; simpl; intros ids ports l H; inv_parse.
  - split_and!; try constructor; by intros f ?%not_elem_of_nil.
  - destruct (IH _ _ _ ltac:(eassumption)) as (Hf & [Hn Hs] & [Hpn Hps] & Hb & Hl).
    match goal with H : validate_model_against_profile _ _ = _ |- _ => apply validate_iff in H end.
    split; [constructor; [by eapply parse_model_spec_sound|done]|].
    split; [by apply unique_cons|]. split; [by apply unique_cons|].
    split; [constructor; [by do 2 eexists|done]|by simpl; rewrite Hl].
Qed.

Lemma parse_deployment_ok v d : parse_deployment v = Ret d → deployment_ok d.
Proof.
  unfold parse_deployment. intros H. inv_parse.
  match goal with H : parse_runtimes _ _ = _ |- _ => apply parse_runtimes_sound in H as (? & [? _] & Hlr) end.
  match goal with H : parse_models _ _ _ _ = _ |- _ => apply parse_models_sound in H as (? & [? _] & [? _] & Hb & Hlm) end.
  split; simpl; try done.
  - split_and!; [|done|done]. intros ->. simpl in Hlr. auto.
  - split; [|done]. intros ->. simpl in Hlm. auto.
  - by apply Forall_forall.
Qed.

(** ** The document of a deployment ([asdict], with the schema version) *)
Definition opt_json {A} (f : A → json) (o : option A) : json := match o with Some a => f a | None => JNull end.

Definition asset_json (a : AssetRef) : json :=
  JObj [("role", JStr (asset_role a)); ("path", JStr (asset_path a)); ("sha256", JStr (asset_sha256 a));
        ("size_bytes", JInt (asset_size_bytes a))].

Definition runtime_json (r : RuntimeSpec) : json :=
  JObj [("runtime_id", JStr (rt_runtime_id r)); ("profile_id", JStr (rt_profile_id r));
        ("image_digest", JStr (rt_image_digest r)); ("adapter_sha256", JStr (rt_adapter_sha256 r));
        ("lock_sha256", JStr (rt_lock_sha256 r)); ("startup_args", JList (map JStr (rt_startup_args r)))].

Definition envelope_json (e : Envelope) : json :=
  JObj [("ctx_size", JInt (ctx_size e)); ("max_input_tokens", JInt (max_input_tokens e));
        ("max_output_tokens", JInt (max_output_tokens e)); ("max_parallel", JInt (max_parallel e));
        ("max_image_tokens", JInt (max_image_tokens e));
        ("max_image_edge_pixels", JInt (max_image_edge_pixels e)); ("max_images", JInt (max_images e))].

Definition model_json (m : RegisteredModelSpec) : json :=
  JObj [("model_id", JStr (v2_model_id m)); ("runtime_id", JStr (v2_runtime_id m));
        ("capabilities", JList (map JStr (v2_capabilities m))); ("assets", JList (map asset_json (v2_assets m)));
        ("port", JInt (v2_port m)); ("envelope", envelope_json (v2_envelope m));
        ("timeout_seconds", JInt (v2_timeout_seconds m)); ("reserved_bytes", JInt (v2_reserved_bytes m));
        ("measured", JBool (v2_measured m)); ("measurement_ref", opt_json JStr (v2_measurement_ref m));
        ("physical_resident_peak_bytes", opt_json JInt (v2_physical_resident_peak_bytes m))].

Definition deployment_json (d : DeploymentSpec) : json :=
  JObj [("schema_version", JInt SCHEMA_VERSION); ("runtimes", JList (map runtime_json (dep_runtimes d)));
        ("models", JList (map model_json (dep_models d)))].

(** ** Completeness of the parsers *)
Lemma get_str_in data key p s : jget key data = Some (JStr s) → p s = true → s ≠ "" → get_str data key p = Ret s.
Proof. intros E Hp Hs. unfold get_str. rewrite E. apply String.eqb_neq in Hs. by rewrite Hs, Hp. Qed.

Lemma get_int_in data key lo hi n :
  jget key data = Some (JInt n) → (∀ m, lo = Some m → m ≤ n) → (∀ m, hi = Some m → n ≤ m) → get_int data key lo hi = Ret n.
Proof.
  intros E Hlo Hhi. unfold get_int. rewrite E.
  replace (match lo with Some m => n <? m | None => false end) with false.
  - replace (match hi with Some m => m <? n | None => false end) with false; [done|].
    destruct hi; [|done]. symmetry. by apply Z.ltb_ge, Hhi.
  - destruct lo; [|done]. symmetry. by apply Z.ltb_ge, Hlo.
Qed.

Lemma sha256_value_in s : SHA256_RE s = true → sha256_value (Some (JStr s)) = Ret s.
Proof. intros H. simpl. by rewrite H. Qed.

Lemma path_ok_relative s : path_ok s → starts_with_slash s = false.
Proof.
  intros (_ & _ & Hp). unfold starts_with_slash. unfold path_parts in Hp.
  destruct (chars s) as [|c l]; [done|]. simpl in Hp. destruct (code c =? 47); [|done].
  apply Forall_cons in Hp as [H _]. exfalso. apply H. simpl. constructor.
Qed.

Lemma safe_relative_path_in s : path_ok s → safe_relative_path (Some (JStr s)) = Ret s.
Proof.
  intros Hok. pose proof (path_ok_relative s Hok) as Hslash. destruct Hok as (Hne & Hc & Hp).
  unfold safe_relative_path. apply String.eqb_neq in Hne. rewrite Hne.
  rewrite Forall_forall in Hc. rewrite Forall_forall in Hp.
  rewrite (proj2 (existsb_false _ (chars s))).
  - rewrite Hslash. rewrite (proj2 (existsb_false (fun c => code c =? 92) (chars s))).
    + simpl. rewrite (proj2 (existsb_false _ (path_parts s))); [done|].
      apply Forall_forall. intros p Hin. by apply bool_decide_eq_false, Hp.
    + apply Forall_forall. intros c Hin. specialize (Hc c Hin). apply Z.eqb_neq. tauto.
  - apply Forall_forall. intros c Hin. specialize (Hc c Hin). apply orb_false_iff.
    split; [apply Z.ltb_ge|apply Z.eqb_neq]; tauto.
Qed.

(** One line of a parser: the helper's lemma, then the side conditions. *)
Ltac parse_line :=
  lazymatch goal with
  | |- get_str _ _ _ = _ => eapply get_str_in; [reflexivity|try done|try done]
  | |- get_int _ _ _ _ = _ => eapply get_int_in; [reflexivity|intros ? [= <-]; simpl; lia || done|intros ? [= <-] || done; simpl; lia]
  | |- require _ _ = _ => apply (proj2 (require_ret _ _ tt)); try done
  | |- exact_keys _ _ = _ => apply (proj2 (require_ret _ _ tt)); vm_compute; reflexivity
  | |- sha256_value _ = _ => apply sha256_value_in; try done
  | |- safe_relative_path _ = _ => apply safe_relative_path_in; try done
  | |- _ => reflexivity || idtac
  end.
Ltac parse_lines :=
  repeat lazymatch goal with |- _ ≫= _ = Ret _ => apply obind_ret; eexists; split; [parse_line|] end.

Lemma ID_RE_nonempty s : ID_RE s = true → s ≠ "".
Proof. by intros H ->. Qed.
Lemma IMAGE_DIGEST_RE_nonempty s : IMAGE_DIGEST_RE s = true → s ≠ "".
Proof. by intros H ->. Qed.
Lemma asset_role_nonempty s : s ∈ ASSET_ROLES → s ≠ "".
Proof. intros H ->. revert H. by apply (bool_decide_eq_false _). Qed.


Lemma parse_asset_ref_complete a : asset_ok a → parse_asset_ref (asset_json a) = Ret a.
Proof.
  intros (Hr & Hp & Hs & Hz). unfold parse_asset_ref. parse_lines.
  all: eauto using asset_role_nonempty.
  - by apply bool_decide_eq_true.
  - by destruct a.
Qed.

Lemma allowed_flags_wf id p f :
  PROFILES id = Some p → f ∈ allowed_flags p → FLAG_RE f = true ∧ f ∈ ALLOWED_STARTUP_FLAGS.
Proof.
  intros E Hf.
  assert (Forall (fun f => FLAG_RE f = true ∧ f ∈ ALLOWED_STARTUP_FLAGS) (allowed_flags p)) as Hall.
  { unfold PROFILES in E. repeat case_match; simplify_eq; apply (bool_decide_eq_true _); vm_compute; reflexivity. }
  rewrite Forall_forall in Hall. auto.
Qed.

Lemma parse_startup_args_complete id p l seen :
  PROFILES id = Some p → NoDup l → Forall (fun f => f ∈ allowed_flags p) l → (∀ f, f ∈ l → f ∉ seen) →
  parse_startup_args p seen (map JStr l) = Ret l.
Proof.
  intros E. revert seen. induction l as [|f l IH]; intros seen Hn Hf Hs; [done|].
  apply NoDup_cons in Hn as [Hnf Hn]. apply Forall_cons in Hf as [Hf0 Hf].
  destruct (allowed_flags_wf _ _ _ E Hf0) as [Hre Hin]. cbn [map parse_startup_args].
  parse_lines; [..|done]; rewrite ?bool_decide_eq_true, ?negb_true_iff, ?bool_decide_eq_false; try done.
  - apply Hs. constructor.
  - apply IH; [done|done|]. intros g Hg [->|Hgs]%elem_of_cons; [done|]. revert Hgs. apply Hs. by constructor.
Qed.

Lemma PROFILES_nonempty id p : PROFILES id = Some p → id ≠ "".
Proof. by intros H ->. Qed.

Lemma parse_runtime_spec_complete r : runtime_ok r → parse_runtime_spec (runtime_json r) = Ret r.
Proof.
  intros (Hi & Hd & Ha & Hl & p & Hp & Hn & Hf). unfold parse_runtime_spec. parse_lines.
  all: eauto using ID_RE_nonempty, IMAGE_DIGEST_RE_nonempty, PROFILES_nonempty.
  - by apply of_option_ret.
  - eapply parse_startup_args_complete; eauto. by intros f _ ?%not_elem_of_nil.
  - by destruct r.
Qed.

Lemma eqb_iff_eq (a b c d : Z) : (a = b ↔ c = d) → (a =? b) = (c =? d).
Proof. intros H. apply eq_true_iff_eq. by rewrite !Z.eqb_eq. Qed.

Lemma ltb_iff_eq (a b c d : Z) : (a < b ↔ c < d) → (a <? b) = (c <? d).
Proof. intros H. apply eq_true_iff_eq. by rewrite !Z.ltb_lt. Qed.

Lemma parse_envelope_complete e : envelope_ok e → parse_envelope (envelope_json e) = Ret e.
Proof.
  unfold envelope_ok. intros He. unfold parse_envelope, MAX_PARALLEL. parse_lines.
  - apply Z.leb_le. lia.
  - apply Z.ltb_lt. lia.
  - apply bool_decide_eq_true, eqb_iff_eq. lia.
  - apply bool_decide_eq_true, ltb_iff_eq. lia.
  - rewrite orb_true_iff, Z.eqb_eq, Z.leb_le. lia.
  - by destruct e.
Qed.

Lemma parse_capabilities_complete l seen :
  NoDup l → Forall (fun c => is_Some (capability_roles c)) l → (∀ c, c ∈ l → c ∉ seen) →
  parse_capabilities seen (map JStr l) = Ret l.
Proof.
  revert seen. induction l as [|f l IH]; intros seen Hn Hf Hs; [done|].
  apply NoDup_cons in Hn as [Hnf Hn]. apply Forall_cons in Hf as [Hf0 Hf]. cbn [map parse_capabilities].
  parse_lines; [..|done]; rewrite ?bool_decide_eq_true, ?negb_true_iff, ?bool_decide_eq_false; try done.
  - apply Hs. constructor.
  - apply IH; [done|done|]. intros g Hg [->|Hgs]%elem_of_cons; [done|]. revert Hgs. apply Hs. by constructor.
Qed.

(** A list whose keys are new leaves a tail whose keys are new. *)
Lemma unique_tail {A K} (key : A → K) x l seen :
  NoDup (map key (x :: l)) → (∀ k, k ∈ map key (x :: l) → k ∉ seen) →
  key x ∉ seen ∧ NoDup (map key l) ∧ ∀ k, k ∈ map key l → k ∉ key x :: seen.
Proof.
  intros [Hx Hn]%NoDup_cons Hs. split_and!; [apply Hs; constructor|done|].
  intros k Hk [->|Hks]%elem_of_cons; [done|]. revert Hks. apply Hs. by constructor.
Qed.

Lemma parse_asset_list_complete l paths :
  Forall asset_ok l → NoDup (map asset_path l) → (∀ p, p ∈ map asset_path l → p ∉ paths) →
  parse_asset_list paths (map asset_json l) = Ret l.
Proof.
  revert paths. induction l as [|a l IH]; intros paths Hf Hn Hs; [done|].
  apply Forall_cons in Hf as [Ha Hf]. destruct (unique_tail _ _ _ _ Hn Hs) as (Hx & Hn' & Hs').
  cbn [map parse_asset_list]. apply obind_ret. exists a. split; [by apply parse_asset_ref_complete|].
  parse_lines; [by apply negb_true_iff, bool_decide_eq_false|by apply IH|done].
Qed.

Lemma nonempty_map {A B} (f : A → B) l : l ≠ [] → negb (bool_decide (length (map f l) = 0%nat)) = true.
Proof. destruct l; [done|]. intros _. by apply negb_true_iff, bool_decide_eq_false. Qed.

Lemma parse_assets_complete caps l :
  l ≠ [] → Forall asset_ok l → NoDup (map asset_path l) →
  (∀ role, role ∈ required_roles caps → role ∈ map asset_role l) →
  parse_assets caps (map asset_json l) = Ret l.
Proof.
  intros Hne Hf Hn Hr. unfold parse_assets. parse_lines; [by apply nonempty_map| | |done].
  - apply parse_asset_list_complete; [done|done|]. by intros p _ ?%not_elem_of_nil.
  - apply forallb_In'. intros role Hin. by apply bool_decide_eq_true, Hr.
Qed.

Lemma nullable_sha256_in data key ref :
  jget key data = Some (opt_json JStr ref) → (∀ s, ref = Some s → SHA256_RE s = true) →
  nullable_sha256 data key = Ret ref.
Proof.
  intros E Hs. unfold nullable_sha256. rewrite E. destruct ref as [s|]; [|done]. cbn [opt_json].
  apply obind_ret. exists s. split; [by apply sha256_value_in, Hs|done].
Qed.

Lemma nullable_positive_int_in data key peak :
  jget key data = Some (opt_json JInt peak) → (∀ p, peak = Some p → 0 < p) → nullable_positive_int data key = Ret peak.
Proof.
  intros E Hs. unfold nullable_positive_int. rewrite E. destruct peak as [p|]; [|done]. simpl.
  rewrite (proj2 (Z.leb_gt _ _)); [done|]. by apply Hs.
Qed.

Lemma parse_model_spec_complete m : model_ok m → parse_model_spec (model_json m) = Ret m.
Proof.
  intros [[Hi Hr] (Hcn & Hcd & Hcf) (Han & Haf & Had) Hroles Hport Henv Ht Hres (Hm & Href & Hpeak) Hv].
  unfold parse_model_spec, PORT_MIN, PORT_MAX, MAX_TIMEOUT_SECONDS. parse_lines.
  all: eauto using ID_RE_nonempty, nonempty_map.
  - apply parse_capabilities_complete; [done|done|]. by intros c _ ?%not_elem_of_nil.
  - apply parse_assets_complete; [done..|]. intros role (c & roles & ?)%required_roles_elem. naive_solver.
  - by apply parse_envelope_complete.
  - by apply nullable_sha256_in.
  - by apply nullable_positive_int_in.
  - destruct (v2_measured m); [|done]. destruct Hm as [[? ->] [? ->]]. done.
  - destruct (v2_measured m); [done|]. destruct Hm as [-> ->]. done.
  - unfold vision_of. destruct Henv as (_ & _ & _ & _ & _ & Ht0 & Him & _ & Hz & _).
    destruct (bool_decide_reflect ("vision" ∈ v2_capabilities m)) as [Hin|Hin].
    + apply Hv in Hin. parse_lines; [apply Z.ltb_lt; lia|]. by apply (proj2 (require_ret _ _ tt)), Z.ltb_lt.
    + apply (proj2 (require_ret _ _ tt)), Z.eqb_eq. assert (¬ 0 < max_images (v2_envelope m)) by tauto. lia.
  - by destruct m.
Qed.

Lemma parse_runtimes_complete l seen :
  Forall runtime_ok l → NoDup (map rt_runtime_id l) → (∀ i, i ∈ map rt_runtime_id l → i ∉ seen) →
  parse_runtimes seen (map runtime_json l) = Ret l.
Proof.
  revert seen. induction l as [|r l IH]; intros seen Hf Hn Hs; [done|].
  apply Forall_cons in Hf as [Hr Hf]. destruct (unique_tail _ _ _ _ Hn Hs) as (Hx & Hn' & Hs').
  cbn [map parse_runtimes]. apply obind_ret. exists r. split; [by apply parse_runtime_spec_complete|].
  parse_lines; [by apply negb_true_iff, bool_decide_eq_false|by apply IH|done].
Qed.

Lemma parse_models_complete runtimes l ids ports :
  Forall model_ok l → Forall (bound runtimes) l →
  NoDup (map v2_model_id l) → (∀ i, i ∈ map v2_model_id l → i ∉ ids) →
  NoDup (map v2_port l) → (∀ p, p ∈ map v2_port l → p ∉ ports) →
  parse_models runtimes ids ports (map model_json l) = Ret l.
Proof.
  revert ids ports. induction l as [|m l IH]; intros ids ports Hf Hb Hn Hs Hpn Hps; [done|].
  apply Forall_cons in Hf as [Hm Hf]. apply Forall_cons in Hb as [(r & p & Hr & Hp & Hfit) Hb].
  destruct (unique_tail _ _ _ _ Hn Hs) as (Hx & Hn' & Hs'). destruct (unique_tail _ _ _ _ Hpn Hps) as (Hpx & Hpn' & Hps').
  cbn [map parse_models]. apply obind_ret. exists m. split; [by apply parse_model_spec_complete|].
  parse_lines; [by apply negb_true_iff, bool_decide_eq_false..| | | | |done].
  - by apply of_option_ret.
  - by apply of_option_ret.
  - by apply (validate_iff _ _ tt).
  - by apply IH.
Qed.

Lemma parse_deployment_accepts d : deployment_ok d → parse_deployment (deployment_json d) = Ret d.
Proof.
  intros [(Hrn & Hrf & Hrd) (Hmn & Hmf) Hids Hports Hb]. unfold parse_deployment.
  assert (get_int [("schema_version", JInt SCHEMA_VERSION); ("runtimes", JList (map runtime_json (dep_runtimes d)));
    ("models", JList (map model_json (dep_models d)))] "schema_version" None None = Ret SCHEMA_VERSION) as Hver by done.
  apply obind_ret. eexists. split; [reflexivity|]. apply obind_ret. exists tt. split; [by apply require_ret|].
  apply obind_ret. eexists. split; [exact Hver|].
  parse_lines; eauto using nonempty_map.
  - apply parse_runtimes_complete; [done|done|]. by intros i _ ?%not_elem_of_nil.
  - apply parse_models_complete; [done|by apply Forall_forall| | | |]; try done.
    all: by intros ? _ ?%not_elem_of_nil.
  - by destruct d.
Qed.

(** C36: the strict parsers accept exactly the deployments of the contract:
    whatever [parse_deployment] returns satisfies [deployment_ok] (identifiers,
    digests and flags well formed; ids, ports and asset paths unique; every
    asset path relative and free of dot segments; token, image and port bounds;
    [measured] bound to its evidence; every model tied to a registered runtime
    whose profile admits its files), and the document of any such deployment
    parses back to that very deployment. *)
Theorem parse_deployment_exact d :
  (∀ v, parse_deployment v = Ret d → deployment_ok d) ∧
  (deployment_ok d → parse_deployment (deployment_json d) = Ret d).
Proof. split; [intros v; apply parse_deployment_ok|apply parse_deployment_accepts]. Qed.

(** ** From an accepted deployment to the Book *)

(** [{spec.model_id: spec for spec in deployment.models}] *)
Definition deployment_specs (d : DeploymentSpec) : dict string Registration :=
  foldl (fun acc m => <[v2_model_id m := RegV2 m]> acc) ∅ (dep_models d).

(** ceil(1.15 * peak) *)
Definition with_margin (peak : Z) : Z := (peak * 115 + 99) / 100.

(** The ledger entry a v2 registration stands for. *)
Definition ledger_entry (m : RegisteredModelSpec) : LedgerSpec :=
  {| led_model_id := v2_model_id m; led_effective_reserved_bytes := v2_reserved_bytes m;
     led_physical_reserved_bytes := with_margin <$> v2_physical_resident_peak_bytes m;
     led_max_concurrency := max_parallel (v2_envelope m);
     led_pinned := false; led_evictable := true; led_preload := false; led_ttl_seconds := 0; led_priority := 0 |}.

Lemma assoc_set_new {K V} `{EqDecision K} (k : K) (v : V) l : k ∉ l.*1 → assoc_set k v l = l ++ [(k, v)].
Proof.
  induction l as [|[a w] l IH]; simpl; intros H; [done|]. apply not_elem_of_cons in H as [Ha H].
  case_decide; [done|]. by rewrite IH.
Qed.

Lemma deployment_specs_entries_from l acc :
  NoDup (keys acc ++ map v2_model_id l) →
  entries (foldl (fun acc m => <[v2_model_id m := RegV2 m]> acc) acc l)
  = entries acc ++ map (fun m => (v2_model_id m, RegV2 m)) l.
Proof.
  revert acc. induction l as [|m l IH]; intros acc Hn; simpl; [by rewrite app_nil_r|].
  assert (entries (<[v2_model_id m := RegV2 m]> acc) = entries acc ++ [(v2_model_id m, RegV2 m)]) as E.
  { apply assoc_set_new. intros Hin. apply NoDup_app in Hn as (_ & Hn & _). by eapply Hn; [|constructor]. }
  rewrite IH, E, <-app_assoc; [done|]. unfold keys in *. rewrite E, fmap_app, <-app_assoc. done.
Qed.

Lemma deployment_specs_entries d :
  NoDup (map v2_model_id (dep_models d)) →
  entries (deployment_specs d) = map (fun m => (v2_model_id m, RegV2 m)) (dep_models d).
Proof. intros H. unfold deployment_specs. by rewrite (deployment_specs_entries_from (dep_models d) ∅). Qed.

Lemma from_registration_v2 m mg : model_ok m → from_registration (RegV2 m) mg = Ret (ledger_entry m).
Proof.
  intros Hok. pose proof (ok_reserved m Hok) as Hr. destruct (ok_measurement m Hok) as (_ & _ & Hp).
  unfold from_registration, effective_reserved_bytes, physical_reserved_bytes_from_peak, positive_int, ledger_entry, with_margin,
    MARGIN_PERCENT, MARGIN_DIVISOR. rewrite (proj2 (Z.leb_gt _ _)) by lia. run_unfold.
  destruct (v2_physical_resident_peak_bytes m) as [p|]; [|done].
  specialize (Hp p eq_refl). rewrite (proj2 (Z.leb_gt _ _)) by lia. simpl.
  do 4 f_equal. by replace (p * 115 + 100 - 1) with (p * 115 + 99) by lia.
Qed.

Lemma ledger_of_specs_v2 l mg :
  Forall model_ok l →
  ledger_of_specs (map (fun m => (v2_model_id m, RegV2 m)) l) mg = Ret (map (fun m => (v2_model_id m, ledger_entry m)) l).
Proof.
  induction 1 as [|m l Hm _ IH]; [done|]. cbn [map ledger_of_specs].
  rewrite (from_registration_v2 m mg Hm), IH. done.
Qed.

(** A memory and heat policy [Book] takes. *)
Definition policy_ok (budget floor : Z) (mg : Q) (age hl : time) (rw tw : Q) : Prop :=
  0 < budget ∧ 0 ≤ floor ∧ Qle_bool 0 mg && Qle_bool mg 1 = true ∧ 0 < age ∧ 0 < hl ∧
  Qle_bool 0 rw = true ∧ Qle_bool 0 tw = true.

Lemma dany_map_false {A V} (key : A → string) (val : A → V) (p : string → V → bool) l :
  (∀ x, x ∈ l → p (key x) (val x) = false) → dany p (Dict (map (fun x => (key x, val x)) l)) = false.
Proof.
  unfold dany; simpl. intros H. induction l as [|x l IH]; [done|]. simpl.
  rewrite H by constructor. apply IH. intros y Hy. apply H. by constructor.
Qed.

Lemma assoc_map {A V} (key : A → string) (val : A → V) l x :
  NoDup (map key l) → x ∈ l → (Dict (map (fun x => (key x, val x)) l) : dict string V) !! key x = Some (val x).
Proof.
  unfold lookup, dict_lookup; simpl. induction l as [|y l IH]; simpl; [by intros _ ?%not_elem_of_nil|].
  intros [Hy Hn]%NoDup_cons [->|Hx]%elem_of_cons; [by rewrite decide_True|].
  rewrite decide_False; [by apply IH|]. intros Heq. apply Hy. rewrite <-Heq. by apply list_elem_of_fmap_2.
Qed.

(** Every accepted deployment starts.  Under any valid memory and heat
    policy [Book] is constructed without an error from the registrations of the
    parsed document; its table has exactly the registered models, in document
    order, each UNKNOWN and holding its full registered reservation, and its
    ledger charges [reserved_bytes] with no second margin, the physical figure
    [ceil(1.15 * peak)] when one is registered, and [max_parallel] as capacity. *)
Theorem accepted_deployment_boots v d budget floor mg age hl rw tw :
  parse_deployment v = Ret d → policy_ok budget floor mg age hl rw tw →
  ∃ b, Book_init (deployment_specs d) budget floor mg age hl rw tw = Ret b ∧
    keys (runtime b) = map v2_model_id (dep_models d) ∧
    (∀ m, m ∈ dep_models d →
       ledger b !! v2_model_id m = Some (ledger_entry m) ∧
       runtime b !! v2_model_id m = Some (new_Runtime (v2_reserved_bytes m))) ∧
    (physical_enforced b = true ↔ ∃ m, m ∈ dep_models d ∧ v2_measured m = true).
Proof.
  intros Hd%parse_deployment_ok (Hb & Hf & Hm & Ha & Hh & Hrw & Htw).
  destruct (ok_models d Hd) as [Hne Hall]. pose proof (ok_model_ids d Hd) as Hids.
  assert (deployment_specs d = Dict (map (fun m => (v2_model_id m, RegV2 m)) (dep_models d))) as Hsp.
  { pose proof (deployment_specs_entries d Hids) as <-. by destruct (deployment_specs d). }
  rewrite Hsp. unfold Book_init. cbn [entries]. rewrite (ledger_of_specs_v2 (dep_models d) mg Hall).
  rewrite Forall_forall in Hall.
  rewrite (dany_map_false v2_model_id RegV2) by (intros m _; by apply negb_false_iff, bool_decide_eq_true).
  run_unfold. rewrite Hm, Hrw, Htw. rewrite !(proj2 (Z.leb_gt _ _)), (proj2 (Z.ltb_ge _ _)) by lia.
  replace (dlen _ =? 0) with false
    by (symmetry; apply Z.eqb_neq; unfold dlen; simpl; rewrite length_map; destruct (dep_models d); [done|simpl; lia]).
  cbv [orb negb]. rewrite (dany_map_false v2_model_id ledger_entry (fun _ e => led_max_concurrency e <=? 0)).
  2:{ intros m Hin. apply Z.leb_gt. destruct (ok_envelope m (Hall m Hin)) as (_ & _ & _ & ? & _). simpl. lia. }
  simpl. eexists; split; [reflexivity|]; simpl. split; [|split].
  - rewrite keys_dmap. unfold keys; simpl. rewrite <-list_fmap_compose. done.
  - intros m Hin. rewrite dict_lookup_dmap, (assoc_map v2_model_id ledger_entry) by done. done.
  - unfold dany; simpl. rewrite existsb_exists. setoid_rewrite <-list_elem_of_In. split.
    + intros ([k e] & (m & [= -> ->] & Hin)%list_elem_of_fmap & He%bool_decide_eq_true). exists m. split; [done|].
      destruct (ok_measurement m (Hall m Hin)) as (Hme & _). simpl in He.
      destruct (v2_measured m); [done|]. destruct Hme as [_ Hn]. rewrite Hn in He. by destruct He.
    + intros (m & Hin & Hme). destruct (ok_measurement m (Hall m Hin)) as (Hs & _). rewrite Hme in Hs.
      destruct Hs as [_ [p Hp]]. exists (v2_model_id m, ledger_entry m).
      split; [by apply (list_elem_of_fmap_2 (fun m => (v2_model_id m, ledger_entry m)))|].
      apply bool_decide_eq_true. simpl. rewrite Hp. by eexists.
Qed.

(** ** A deployment with a chat model and an unmeasured vision model *)
Definition demo_sha : string := "0123456789abcdef0123456789abcdef0123456789abcdef0123456789abcdef".

Definition demo_runtime : RuntimeSpec :=
  {| rt_runtime_id := "llama-r1"; rt_profile_id := GGUF_PROFILE;
     rt_image_digest := String.append "registry/llama@sha256:" demo_sha;
     rt_adapter_sha256 := demo_sha; rt_lock_sha256 := demo_sha; rt_startup_args := ["--parallel"; "--no-webui"] |}.

Definition demo_chat : RegisteredModelSpec :=
  {| v2_model_id := "chat-8b"; v2_runtime_id := "llama-r1"; v2_capabilities := ["chat"];
     v2_assets := [{| asset_role := "model"; asset_path := "chat/8b.gguf"; asset_sha256 := demo_sha; asset_size_bytes := 900 |}];
     v2_port := 10001;
     v2_envelope := {| ctx_size := 8192; max_input_tokens := 6000; max_output_tokens := 2000; max_parallel := 2;
                       max_image_tokens := 0; max_image_edge_pixels := 0; max_images := 0 |};
     v2_timeout_seconds := 600; v2_reserved_bytes := 1150; v2_measured := true;
     v2_measurement_ref := Some demo_sha; v2_physical_resident_peak_bytes := Some 1001 |}.

Definition demo_vision : RegisteredModelSpec :=
  {| v2_model_id := "vision-4b"; v2_runtime_id := "llama-r1"; v2_capabilities := ["chat"; "vision"];
     v2_assets := [{| asset_role := "model"; asset_path := "vision/4b.gguf"; asset_sha256 := demo_sha; asset_size_bytes := 500 |};
                   {| asset_role := "projector"; asset_path := "vision/mmproj.gguf"; asset_sha256 := demo_sha;
                      asset_size_bytes := 70 |}];
     v2_port := 10002;
     v2_envelope := {| ctx_size := 4096; max_input_tokens := 3000; max_output_tokens := 1000; max_parallel := 1;
                       max_image_tokens := 1024; max_image_edge_pixels := 896; max_images := 2 |};
     v2_timeout_seconds := 600; v2_reserved_bytes := 700; v2_measured := false;
     v2_measurement_ref := None; v2_physical_resident_peak_bytes := None |}.

Definition demo_deployment : DeploymentSpec :=
  {| dep_runtimes := [demo_runtime]; dep_models := [demo_chat; demo_vision] |}.

(** Two refusals: a path that leaves the asset directory, a boolean posing as an integer. *)
Example parent_segment_refused :
  parse_asset_ref (JObj [("role", JStr "model"); ("path", JStr "chat/../../etc/passwd"); ("sha256", JStr demo_sha);
                         ("size_bytes", JInt 1)])
  = Raise (ContractError "path must not contain empty, '.' or '..' segments").
Proof. reflexivity. Qed.

Example boolean_size_refused :
  parse_asset_ref (JObj [("role", JStr "model"); ("path", JStr "a"); ("sha256", JStr demo_sha); ("size_bytes", JBool true)])
  = Raise (ContractError "must be an integer").
Proof. reflexivity. Qed.

Lemma accepted_deployment_boots_witness :
  ∃ b, Book_init (deployment_specs demo_deployment) 4000 100 0 second second 1 1 = Ret b ∧
    keys (runtime b) = ["chat-8b"; "vision-4b"] ∧
    (∀ m, m ∈ [demo_chat; demo_vision] →
       ledger b !! v2_model_id m = Some (ledger_entry m) ∧
       runtime b !! v2_model_id m = Some (new_Runtime (v2_reserved_bytes m))) ∧
    (physical_enforced b = true ↔ ∃ m, m ∈ [demo_chat; demo_vision] ∧ v2_measured m = true).
Proof.
  apply (accepted_deployment_boots (deployment_json demo_deployment) demo_deployment).
  - vm_compute. reflexivity.
  - unfold policy_ok. split_and!; done.
Defined.
