(* ===== verification/RegistrationText.v ===== *)
(** * Registrations as text

    [parse_deployment_json] and [deployment_digest] of [contracts_v2.py].  The
    parsers do not see the order of keys, so the canonical text of a deployment
    reads back to it, and its digest stands for it. *)

From S2P Require Import Prelude Text Dict Contracts Registration JsonText JsonTextProps Identity RegistrationProps.
From Stdlib Require Import Ascii QArith.
Local Open Scope Z_scope.

Definition parse_deployment_json (text : string) : outcome DeploymentSpec :=
  document ← parse_json_document text; parse_deployment document.

(** [asdict(deployment)] *)
Definition deployment_asdict (d : DeploymentSpec) : json :=
  JObj [("runtimes", JList (map runtime_json (dep_runtimes d))); ("models", JList (map model_json (dep_models d)))].

Definition deployment_digest `{FloatText} `{Digest} (d : DeploymentSpec) : outcome string :=
  body ← canonical_json_bytes (deployment_asdict d); mret (sha256_hex body).

(** ** The order of keys *)
Definition sort_data (data : list (string * json)) : list (string * json) := sort_fields (map (fun kv => (kv.1, sorted_keys kv.2)) data).

Lemma sorted_object data : sorted_keys (JObj data) = JObj (sort_data data).
Proof. done. Qed.
Lemma sorted_list l : sorted_keys (JList l) = JList (map sorted_keys l).
Proof. done. Qed.

Lemma jget_insert k k0 v0 l : jget k (insert_field (k0, v0) l) = if String.eqb k k0 then Some v0 else jget k l.
Proof.
  induction l as [|[k1 v1] l IH]; [done|]. cbn [insert_field fst snd]. destruct (String.leb k0 k1) eqn:E; [done|].
  cbn [jget]. rewrite IH. destruct (String.eqb_spec k k0), (String.eqb_spec k k1); subst; try done.
  exfalso. destruct (String.leb_total k1 k1) as [E'|E']; congruence.
Qed.
Lemma jget_sorted k data : jget k (sort_data data) = sorted_keys <$> jget k data.
Proof.
  unfold sort_data, sort_fields. induction data as [|[k0 v0] data IH]; [done|]. cbn [map foldr fst snd jget]. rewrite jget_insert, IH.
  by destruct (String.eqb k k0).
Qed.
Lemma forallb_sorted (f : string → bool) data : forallb (fun kv => f kv.1) (sort_data data) = forallb (fun kv => f kv.1) data.
Proof.
  assert (∀ kv l, forallb (fun kv => f kv.1) (insert_field kv l) = f kv.1 && forallb (fun kv => f kv.1) l) as Hi.
  { intros kv l. induction l as [|kv1 l IH]; [done|]. cbn [insert_field]. destruct (String.leb _ _); [done|]. cbn [forallb]. rewrite IH.
    destruct (f kv.1), (f kv1.1); done. }
  unfold sort_data, sort_fields. induction data as [|kv data IH]; [done|]. cbn [map foldr forallb]. by rewrite Hi, IH.
Qed.

Section order.
Context (data : list (string * json)) (k : string).
Lemma mapping_sorted o : as_mapping (sorted_keys <$> o) = sort_data <$> as_mapping o.
Proof. by destruct o as [[]|]. Qed.
Lemma keys_sorted allowed : exact_keys (sort_data data) allowed = exact_keys data allowed.
Proof. unfold exact_keys. f_equal. pose (f (s : string) := bool_decide (s ∈ allowed)). exact (forallb_sorted f data). Qed.
Lemma get_str_sorted p : get_str (sort_data data) k p = get_str data k p.
Proof. unfold get_str. rewrite jget_sorted. by destruct (jget k data) as [[]|]. Qed.
Lemma get_int_sorted lo hi : get_int (sort_data data) k lo hi = get_int data k lo hi.
Proof. unfold get_int. rewrite jget_sorted. by destruct (jget k data) as [[]|]. Qed.
Lemma get_bool_sorted : get_bool (sort_data data) k = get_bool data k.
Proof. unfold get_bool. rewrite jget_sorted. by destruct (jget k data) as [[]|]. Qed.
Lemma get_list_sorted : get_list (sort_data data) k = map sorted_keys <$> get_list data k.
Proof. unfold get_list. rewrite jget_sorted. by destruct (jget k data) as [[]|]. Qed.
Lemma sha256_sorted o : sha256_value (sorted_keys <$> o) = sha256_value o.
Proof. by destruct o as [[]|]. Qed.
Lemma path_sorted o : safe_relative_path (sorted_keys <$> o) = safe_relative_path o.
Proof. by destruct o as [[]|]. Qed.
Lemma nullable_sha256_sorted : nullable_sha256 (sort_data data) k = nullable_sha256 data k.
Proof. unfold nullable_sha256. rewrite jget_sorted. by destruct (jget k data) as [[]|]. Qed.
Lemma nullable_int_sorted : nullable_positive_int (sort_data data) k = nullable_positive_int data k.
Proof. unfold nullable_positive_int. rewrite jget_sorted. by destruct (jget k data) as [[]|]. Qed.
End order.

(** A step of a parser that reads the same on both sides. *)
Lemma bind_ext {A B} (m : outcome A) (f g : A → outcome B) : (∀ a, f a = g a) → m ≫= f = m ≫= g.
Proof. intros Hfg. destruct m; [apply Hfg|done]. Qed.
Lemma bind_fmap {A B C} (h : A → B) (m : outcome A) (f : B → outcome C) : (h <$> m) ≫= f = m ≫= (fun a => f (h a)).
Proof. by destruct m. Qed.

Lemma mapping_bind {B} data (f : list (string * json) → outcome B) : as_mapping (Some (JObj data)) ≫= f = f data.
Proof. done. Qed.

(** Two runs of a parser, on an object and on its sorted copy, line by line. *)
Ltac same_object v := destruct v as [| | | | | |data]; try reflexivity; rewrite sorted_object, !mapping_bind.
Ltac same_line :=
  lazymatch goal with
  | |- exact_keys (sort_data ?d) _ ≫= _ = _ => rewrite (keys_sorted d)
  | |- get_str (sort_data ?d) ?k _ ≫= _ = _ => rewrite (get_str_sorted d k)
  | |- get_int (sort_data ?d) ?k _ _ ≫= _ = _ => rewrite (get_int_sorted d k)
  | |- get_bool (sort_data ?d) ?k ≫= _ = _ => rewrite (get_bool_sorted d k)
  | |- get_list (sort_data ?d) ?k ≫= _ = _ => rewrite (get_list_sorted d k), bind_fmap
  | |- sha256_value (jget ?k (sort_data ?d)) ≫= _ = _ => rewrite (jget_sorted k d), sha256_sorted
  | |- safe_relative_path (jget ?k (sort_data ?d)) ≫= _ = _ => rewrite (jget_sorted k d), path_sorted
  | |- nullable_sha256 (sort_data ?d) ?k ≫= _ = _ => rewrite (nullable_sha256_sorted d k)
  | |- nullable_positive_int (sort_data ?d) ?k ≫= _ = _ => rewrite (nullable_int_sorted d k)
  | |- _ => idtac
  end;
  apply bind_ext; intros ?.

Lemma asset_sorted v : parse_asset_ref (sorted_keys v) = parse_asset_ref v.
Proof. unfold parse_asset_ref. same_object v. repeat same_line. reflexivity. Qed.
Lemma envelope_sorted v : parse_envelope (sorted_keys v) = parse_envelope v.
Proof. unfold parse_envelope. same_object v. repeat same_line. reflexivity. Qed.

Lemma startup_sorted profile seen raw : parse_startup_args profile seen (map sorted_keys raw) = parse_startup_args profile seen raw.
Proof.
  revert seen. induction raw as [|v raw IH]; intros seen; [done|]. destruct v; try reflexivity. cbn [map sorted_keys parse_startup_args].
  repeat same_line. by rewrite IH.
Qed.
Lemma capabilities_sorted seen raw : parse_capabilities seen (map sorted_keys raw) = parse_capabilities seen raw.
Proof.
  revert seen. induction raw as [|v raw IH]; intros seen; [done|]. destruct v; try reflexivity. cbn [map sorted_keys parse_capabilities].
  repeat same_line. by rewrite IH.
Qed.
Lemma asset_list_sorted paths raw : parse_asset_list paths (map sorted_keys raw) = parse_asset_list paths raw.
Proof.
  revert paths. induction raw as [|v raw IH]; intros paths; [done|]. cbn [map parse_asset_list]. rewrite asset_sorted.
  apply bind_ext. intros a. apply bind_ext. intros _. by rewrite IH.
Qed.
Lemma runtime_sorted v : parse_runtime_spec (sorted_keys v) = parse_runtime_spec v.
Proof.
  unfold parse_runtime_spec. same_object v. do 9 same_line. rewrite startup_sorted. reflexivity.
Qed.
Lemma model_sorted v : parse_model_spec (sorted_keys v) = parse_model_spec v.
Proof.
  unfold parse_model_spec. same_object v. do 4 same_line. rewrite length_map. same_line. rewrite capabilities_sorted. do 2 same_line.
  unfold parse_assets. rewrite length_map, asset_list_sorted. do 2 same_line. rewrite jget_sorted, mapping_sorted, bind_fmap. same_line.
  rewrite <-sorted_object, envelope_sorted. repeat same_line. reflexivity.
Qed.
Lemma runtimes_sorted seen raw : parse_runtimes seen (map sorted_keys raw) = parse_runtimes seen raw.
Proof.
  revert seen. induction raw as [|v raw IH]; intros seen; [done|]. cbn [map parse_runtimes]. rewrite runtime_sorted.
  apply bind_ext. intros a. apply bind_ext. intros _. by rewrite IH.
Qed.
Lemma models_sorted runtimes ids ports raw : parse_models runtimes ids ports (map sorted_keys raw) = parse_models runtimes ids ports raw.
Proof.
  revert ids ports. induction raw as [|v raw IH]; intros ids ports; [done|]. cbn [map parse_models]. rewrite model_sorted.
  do 6 (apply bind_ext; intros ?). by rewrite IH.
Qed.
Lemma deployment_sorted v : parse_deployment (sorted_keys v) = parse_deployment v.
Proof.
  unfold parse_deployment. same_object v. do 4 same_line. rewrite length_map. same_line. rewrite runtimes_sorted. do 2 same_line.
  rewrite length_map. same_line. rewrite models_sorted. reflexivity.
Qed.

(** ** The text of a deployment *)
Section text.
Context `{FloatTextLaws}.

Lemma readable_texts l : readable (JList (map JStr l)).
Proof. apply readable_list. by intros v (s & -> & _)%list_elem_of_fmap. Qed.
Lemma readable_object (l : list (string * json)) : NoDup (l.*1) → Forall (fun kv => readable kv.2) l → readable (JObj l).
Proof. intros Hn Hl. split; [done|]. apply readable_fields. by rewrite Forall_forall in Hl. Qed.

(** The keys are the literal ones; the values, one by one. *)
Ltac readable_record :=
  apply readable_object; [apply (bool_decide_unpack _); vm_compute; exact I|repeat (apply Forall_cons; split; [try exact I|]); try apply Forall_nil; try exact I].

Lemma asset_readable a : readable (asset_json a).
Proof. readable_record. Qed.
Lemma runtime_readable r : readable (runtime_json r).
Proof. readable_record. apply readable_texts. Qed.
Lemma model_readable m : readable (model_json m).
Proof.
  readable_record.
  - apply readable_texts.
  - apply readable_list. intros v (a & -> & _)%list_elem_of_fmap. apply asset_readable.
  - cbn [snd]. unfold envelope_json. readable_record.
  - by destruct (v2_measurement_ref m).
  - by destruct (v2_physical_resident_peak_bytes m).
Qed.
Lemma specs_readable d : readable (JList (map runtime_json (dep_runtimes d))) ∧ readable (JList (map model_json (dep_models d))).
Proof.
  split; apply readable_list; intros v (x & -> & _)%list_elem_of_fmap; [apply runtime_readable|apply model_readable].
Qed.
Lemma deployment_readable d : readable (deployment_json d) ∧ readable (deployment_asdict d).
Proof. destruct (specs_readable d). split; readable_record; done. Qed.

Lemma asdict_injective d1 d2 : deployment_ok d1 → deployment_ok d2 →
  sorted_keys (deployment_asdict d1) = sorted_keys (deployment_asdict d2) → d1 = d2.
Proof.
  intros Hd1 Hd2 He. assert (sorted_keys (deployment_json d1) = sorted_keys (deployment_json d2)) as Hs.
  { injection He as Hm Hr. change (sorted_keys (deployment_json ?d)) with (JObj [("models", sorted_keys (JList (map model_json (dep_models d))));
      ("runtimes", sorted_keys (JList (map runtime_json (dep_runtimes d)))); ("schema_version", JInt SCHEMA_VERSION)]).
    rewrite !sorted_list. by rewrite Hm, Hr. }
  pose proof (parse_deployment_accepts d1 Hd1) as P1. pose proof (parse_deployment_accepts d2 Hd2) as P2.
  rewrite <-deployment_sorted in P1, P2. congruence.
Qed.

(** A registration survives as text: the canonical JSON of any deployment of
    the contract, keys in any order, reads back to that very deployment; and,
    unless SHA-256 collides on the two texts at hand, two deployments have the
    same digest exactly when they are equal. *)
Theorem registration_text_exact `{Digest} d :
  deployment_ok d →
  (∀ v, sorted_keys v = sorted_keys (deployment_json d) → parse_deployment v = Ret d) ∧
  (∀ text, canonical_json_bytes (deployment_json d) = Ret text → parse_deployment_json text = Ret d) ∧
  (∀ d' h h', deployment_ok d' → deployment_digest d = Ret h → deployment_digest d' = Ret h' →
     (∀ b b', canonical_json_bytes (deployment_asdict d) = Ret b → canonical_json_bytes (deployment_asdict d') = Ret b' →
        sha256_hex b = sha256_hex b' → b = b') →
     h = h' ↔ d = d').
Proof.
  intros Hd. split_and!.
  - intros v Hv. by rewrite <-deployment_sorted, Hv, deployment_sorted, parse_deployment_accepts.
  - intros text Ht. unfold parse_deployment_json. rewrite (canonical_parses _ _ (proj1 (deployment_readable d)) Ht). run_unfold.
    by rewrite deployment_sorted, parse_deployment_accepts.
  - intros d' h h' Hd' (b & Hb & <-%mret_ret)%obind_ret (b' & Hb' & <-%mret_ret)%obind_ret Hcoll. split.
    + intros ->%(Hcoll _ _ Hb Hb'). apply asdict_injective; [done|done|].
      pose proof (canonical_parses _ _ (proj2 (deployment_readable d)) Hb). pose proof (canonical_parses _ _ (proj2 (deployment_readable d')) Hb'). congruence.
    + intros ->. congruence.
Qed.
End text.

(** ** A deployment written and read *)
#[local] Existing Instance thousandths_floats.
#[local] Existing Instance thousandths_laws.

Lemma registration_text_exact_witness : ∃ text,
  canonical_json_bytes (deployment_json demo_deployment) = Ret text ∧ parse_deployment_json text = Ret demo_deployment.
Proof.
  assert (deployment_ok demo_deployment) as Hd by (apply (parse_deployment_ok (deployment_json demo_deployment)); vm_compute; reflexivity).
  assert (∃ text, canonical_json_bytes (deployment_json demo_deployment) = Ret text) as [text Ht] by (eexists; vm_compute; reflexivity).
  exists text. split; [exact Ht|].
  exact (proj1 (proj2 (@registration_text_exact _ _ (@Build_Digest (fun _ => concat_text (repeat "0" 64)) (fun _ => eq_refl)) demo_deployment Hd)) text Ht).
Defined.
