(* ===== verification/Router.v ===== *)
(** * The adapter router

    [model_scheduler/backend_router.py]: adapters bound to registered runtimes,
    and the adapter that serves a model.  The theorem at the end says that, over
    any sequence of registrations, a model is served by the adapter bound to its
    own runtime, by no other, and for good. *)

From S2P Require Import Prelude Text Dict Contracts Registration RegistrationProps.
Local Open Scope Z_scope.

(** An adapter object: its identity, what it declares ([None] where the attribute
    is absent or [None]), and whether it satisfies the [BackendPort] protocol. *)
Record Adapter := {
  object_id : Z;
  declared_runtime_id : option string;
  declared_profile_id : option string;
  is_backend_port : bool;
}.
#[export] Instance Adapter_eq_dec : EqDecision Adapter.
Proof. solve_decision. Defined.

Record AdapterBinding := {
  b_runtime_id : string;
  b_profile_id : string;
  b_image_digest : string;
  b_adapter : Adapter;
}.

Record BackendRouter := {
  r_runtimes : dict string RuntimeSpec;
  r_models : dict string RegisteredModelSpec;
  bindings : dict string AdapterBinding;
}.
#[export] Instance BackendRouter_eta : Eta BackendRouter := fun r =>
  {| r_runtimes := r_runtimes r; r_models := r_models r; bindings := bindings r |}.

Definition make_router (runtimes : dict string RuntimeSpec) (models : dict string RegisteredModelSpec) : BackendRouter :=
  {| r_runtimes := runtimes; r_models := models; bindings := ∅ |}.

Definition router_error {A} (msg : string) : outcome A := Raise (BackendRouterError msg).

(** [getattr(adapter, name, None)] is absent or the expected text. *)
Definition declares (o : option string) (s : string) : bool := match o with Some d => String.eqb d s | None => true end.

Definition register_checks (r : BackendRouter) (runtime_id : string) (adapter : Adapter) : outcome AdapterBinding :=
  runtime ← of_option (BackendRouterError "unknown runtime") (r_runtimes r !! runtime_id);
  _ ← raise_if (mem runtime_id (bindings r)) (BackendRouterError "runtime is already registered");
  _ ← match require_startable_profile runtime with
      | Raise (ContractError msg) => router_error msg
      | Raise e => Raise e
      | Ret _ => Ret tt
      end;
  _ ← raise_if (negb (declares (declared_runtime_id adapter) runtime_id)) (BackendRouterError "adapter declares another runtime identity");
  _ ← raise_if (negb (declares (declared_profile_id adapter) (rt_profile_id runtime))) (BackendRouterError "adapter declares another profile");
  _ ← check_each (entries (bindings r)) (fun kv =>
        raise_if (object_id (b_adapter kv.2) =? object_id adapter) (BackendRouterError "adapter is already bound to a runtime"));
  _ ← raise_if (negb (is_backend_port adapter)) (BackendRouterError "adapter does not satisfy the BackendPort protocol");
  mret {| b_runtime_id := runtime_id; b_profile_id := rt_profile_id runtime; b_image_digest := rt_image_digest runtime;
          b_adapter := adapter |}.

Definition register (runtime_id : string) (adapter : Adapter) : pym BackendRouter AdapterBinding :=
  r ← get;
  binding ← lift (register_checks r runtime_id adapter);
  modify (fun r => r <| bindings ::= insert runtime_id binding |>) ;;
  mret binding.

Definition router_model (r : BackendRouter) (model_id : string) : outcome RegisteredModelSpec :=
  of_option (BackendRouterError "unknown model") (r_models r !! model_id).

Definition runtime_spec (r : BackendRouter) (model_id : string) : outcome RuntimeSpec :=
  model ← router_model r model_id;
  of_option (BackendRouterError "unknown runtime for model") (r_runtimes r !! v2_runtime_id model).

Definition backend_for (r : BackendRouter) (model_id : string) : outcome Adapter :=
  model ← router_model r model_id;
  binding ← of_option (BackendRouterError "no adapter for runtime") (bindings r !! v2_runtime_id model);
  mret (b_adapter binding).

(** ** The binding discipline *)

(** One startable, declared binding per runtime, and one runtime per adapter. *)
Record router_ok (r : BackendRouter) : Prop := {
  bound_once : dict_nodup (bindings r);
  bound_runtime : ∀ id b, bindings r !! id = Some b → ∃ runtime profile,
    r_runtimes r !! id = Some runtime ∧ b_runtime_id b = id ∧ b_profile_id b = rt_profile_id runtime ∧
    b_image_digest b = rt_image_digest runtime ∧ require_startable_profile runtime = Ret profile ∧
    declares (declared_runtime_id (b_adapter b)) id = true ∧ declares (declared_profile_id (b_adapter b)) (rt_profile_id runtime) = true ∧
    is_backend_port (b_adapter b) = true;
  bound_apart : ∀ id1 id2 b1 b2, bindings r !! id1 = Some b1 → bindings r !! id2 = Some b2 →
    object_id (b_adapter b1) = object_id (b_adapter b2) → id1 = id2;
}.

Lemma router_ok_initial runtimes models : router_ok (make_router runtimes models).
Proof. by split; [apply dict_nodup_empty|..]. Qed.

Lemma check_each_raise_if {A} (l : list A) (p : A → bool) e :
  check_each l (fun x => raise_if (p x) e) = Ret tt → ∀ x, x ∈ l → p x = false.
Proof.
  induction l as [|y l IH]; intros Hc x Hx; [by apply not_elem_of_nil in Hx|]. cbn [check_each] in Hc. unfold raise_if in Hc at 1.
  run_unfold. destruct (p y) eqn:Hp; [done|]. apply elem_of_cons in Hx as [->|Hx]; [done|]. by apply IH.
Qed.

(** What an accepted registration established. *)
Lemma register_checked r id ad b : register_checks r id ad = Ret b → ∃ runtime profile,
  r_runtimes r !! id = Some runtime ∧ bindings r !! id = None ∧ require_startable_profile runtime = Ret profile ∧
  declares (declared_runtime_id ad) id = true ∧ declares (declared_profile_id ad) (rt_profile_id runtime) = true ∧
  (∀ kv, kv ∈ entries (bindings r) → object_id (b_adapter kv.2) ≠ object_id ad) ∧ is_backend_port ad = true ∧
  b = {| b_runtime_id := id; b_profile_id := rt_profile_id runtime; b_image_digest := rt_image_digest runtime; b_adapter := ad |}.
Proof.
  unfold register_checks, router_error. intros Hb. unfold mbind, mret, outcome_bind, outcome_ret, of_option in Hb.
  destruct (r_runtimes r !! id) as [runtime|] eqn:Hr; [|done]. destruct (mem id _) eqn:Hm; [done|]. cbn [raise_if] in Hb.
  destruct (require_startable_profile runtime) as [profile|[]] eqn:Hp; try done.
  destruct (declares _ id) eqn:Hd; [|done]. destruct (declares _ (rt_profile_id _)) eqn:Hd2; [|done]. cbn [raise_if negb] in Hb.
  destruct (check_each _ _) as [[]|] eqn:Hc; [|done]. destruct (is_backend_port ad) eqn:Hport; [|done].
  injection Hb as <-. exists runtime, profile. split_and!; try done; [by apply mem_false|].
  intros kv Hkv. apply Z.eqb_neq, (check_each_raise_if _ _ _ Hc kv Hkv).
Qed.

Lemma register_outcome r id ad :
  (∃ e, register id ad r = (r, Raise e)) ∨
  (∃ b, register_checks r id ad = Ret b ∧ register id ad r = (r <| bindings ::= insert id b |>, Ret b)).
Proof.
  unfold register. run_unfold. destruct (register_checks r id ad) as [b|e]; [right; by exists b|left; by exists e].
Qed.

Lemma register_preserves id ad : preserves router_ok (register id ad).
Proof.
  intros r [Hn Hb Ha]. destruct (register_outcome r id ad) as [[e ->]|(b & Hc & ->)]; [done|].
  destruct (register_checked _ _ _ _ Hc) as (runtime & profile & Hr & Hfresh & Hp & Hd & Hd2 & Hne & Hport & ->).
  assert (∀ id' b', bindings r !! id' = Some b' → object_id (b_adapter b') ≠ object_id ad) as Hother.
  { intros id' b' Hl. by apply (Hne (id', b')), lookup_entries. }
  split; cbn [fst update bindings r_runtimes].
  - by apply dict_nodup_insert.
  - intros id' b'. rewrite dict_lookup_insert. case_decide; [|apply Hb]. subst. intros [= <-]. by exists runtime, profile.
  - intros id1 id2 b1 b2. rewrite !dict_lookup_insert. repeat case_decide; subst; try done.
    + intros [= <-] H2 E. by destruct (Hother _ _ H2).
    + intros H1 [= <-] E. by destruct (Hother _ _ H1).
    + apply Ha.
Qed.

(** Registration calls, accepted or refused, one after the other. *)
Definition attempts (l : list (string * Adapter)) (r : BackendRouter) : BackendRouter :=
  fold_left (fun r call => (register call.1 call.2 r).1) l r.

Lemma attempts_ok l r : router_ok r → router_ok (attempts l r).
Proof. revert r. induction l as [|[id ad] l IH]; intros r Hr; [done|]. apply IH. by apply register_preserves. Qed.

Lemma register_keeps id ad r id' b : bindings r !! id' = Some b → bindings (register id ad r).1 !! id' = Some b.
Proof.
  intros Hl. destruct (register_outcome r id ad) as [[e ->]|(b' & Hc & ->)]; [done|]. cbn [fst update bindings].
  destruct (register_checked _ _ _ _ Hc) as (_ & _ & _ & Hfresh & _). rewrite dict_lookup_insert_ne; [done|]. congruence.
Qed.
Lemma register_static id ad r : r_runtimes (register id ad r).1 = r_runtimes r ∧ r_models (register id ad r).1 = r_models r.
Proof. by destruct (register_outcome r id ad) as [[e ->]|(b' & _ & ->)]. Qed.
Lemma attempts_keep l r id b : bindings r !! id = Some b → bindings (attempts l r) !! id = Some b.
Proof. revert r. induction l as [|[i ad] l IH]; intros r Hl; [done|]. apply IH. by apply register_keeps. Qed.
Lemma attempts_static l r : r_runtimes (attempts l r) = r_runtimes r ∧ r_models (attempts l r) = r_models r.
Proof.
  revert r. induction l as [|[i ad] l IH]; intros r; [done|].
  change (attempts ((i, ad) :: l) r) with (attempts l (register i ad r).1). destruct (IH (register i ad r).1) as [-> ->]. apply register_static.
Qed.

Lemma backend_for_inv r m ad : backend_for r m = Ret ad →
  ∃ model b, r_models r !! m = Some model ∧ bindings r !! v2_runtime_id model = Some b ∧ b_adapter b = ad.
Proof.
  unfold backend_for, router_model. run_unfold. destruct (r_models r !! m) as [model|]; [|done].
  destruct (bindings r !! v2_runtime_id model) as [b|] eqn:Hb; [|done]. intros [= <-]. by exists model, b.
Qed.

(** Over any sequence of registrations, accepted or refused, the adapter that
    serves a model is a port bound to the model's own, startable runtime and
    declaring no other identity; two models are served by one adapter object
    only when they share their runtime; and no later registration changes who
    serves a model. *)
Theorem routed_to_own_runtime runtimes models calls m ad :
  let r := attempts calls (make_router runtimes models) in
  backend_for r m = Ret ad →
  (∃ model runtime profile, models !! m = Some model ∧ runtimes !! v2_runtime_id model = Some runtime ∧
     runtime_spec r m = Ret runtime ∧ require_startable_profile runtime = Ret profile ∧ is_backend_port ad = true ∧
     declares (declared_runtime_id ad) (v2_runtime_id model) = true ∧ declares (declared_profile_id ad) (rt_profile_id runtime) = true) ∧
  (∀ m' ad' model model', backend_for r m' = Ret ad' → object_id ad' = object_id ad →
     models !! m = Some model → models !! m' = Some model' → v2_runtime_id model' = v2_runtime_id model) ∧
  (∀ later, backend_for (attempts later r) m = Ret ad).
Proof.
  intros r Hf. pose proof (attempts_ok calls _ (router_ok_initial runtimes models)) as Hok. fold r in Hok.
  destruct (attempts_static calls (make_router runtimes models)) as [Hrt Hmd]. fold r in Hrt, Hmd. cbn in Hrt, Hmd.
  destruct (backend_for_inv _ _ _ Hf) as (model & b & Hm & Hb & <-). rewrite Hmd in Hm.
  destruct (bound_runtime _ Hok _ _ Hb) as (runtime & profile & Hr & _ & _ & _ & Hp & Hd & Hd2 & Hport).
  split_and!.
  - exists model, runtime, profile. rewrite <-Hrt. split_and!; try done. unfold runtime_spec, router_model. rewrite Hmd, Hm. run_unfold. by rewrite Hr.
  - intros m' ad' model1 model' Hf' Hid Hm1 Hm'. destruct (backend_for_inv _ _ _ Hf') as (model2 & b' & Hm2 & Hb' & <-).
    rewrite Hmd in Hm2. simplify_eq. exact (bound_apart _ Hok _ _ _ _ Hb' Hb Hid).
  - intros later. unfold backend_for, router_model. destruct (attempts_static later r) as [_ ->]. rewrite Hmd, Hm. run_unfold.
    by rewrite (attempts_keep later r _ _ Hb).
Qed.

(** ** Two models of one runtime *)
Definition demo_adapter : Adapter := {| object_id := 1; declared_runtime_id := None; declared_profile_id := Some (rt_profile_id demo_runtime); is_backend_port := true |}.
Definition demo_runtimes : dict string RuntimeSpec := <[rt_runtime_id demo_runtime := demo_runtime]> ∅.
Definition demo_models : dict string RegisteredModelSpec :=
  <["vision-4b" := demo_vision]> (<["chat-8b" := demo_chat]> ∅).
Definition demo_router : BackendRouter := attempts [(rt_runtime_id demo_runtime, demo_adapter)] (make_router demo_runtimes demo_models).

Lemma routed_to_own_runtime_witness :
  backend_for demo_router "chat-8b" = Ret demo_adapter ∧ runtime_spec demo_router "chat-8b" = Ret demo_runtime.
Proof.
  assert (backend_for demo_router "chat-8b" = Ret demo_adapter) as Hb by (vm_compute; reflexivity).
  destruct (routed_to_own_runtime demo_runtimes demo_models [(rt_runtime_id demo_runtime, demo_adapter)] "chat-8b" demo_adapter Hb)
    as [(model & runtime & profile & Hm & Hr & Hs & _) _].
  split; [exact Hb|]. etrans; [exact Hs|]. revert Hm Hr. vm_compute. intros [= <-] [= <-]. reflexivity.
Defined.

(** An adapter object serves one runtime, and a runtime takes one adapter. *)
Example second_binding_refused :
  (register (rt_runtime_id demo_runtime) (Build_Adapter 2 None None true) demo_router).2
    = Raise (BackendRouterError "runtime is already registered") ∧
  (register "other" demo_adapter demo_router).2 = Raise (BackendRouterError "unknown runtime").
Proof. split; vm_compute; reflexivity. Qed.
