(* ===== verification/Assets.v ===== *)
(** * Asset verification and storage admission

    [model_scheduler/asset_store.py] and [model_scheduler/storage_monitor.py]:
    the full pass that hashes every registered file under one deadline, the
    metadata check of the runtime loop, and the guard the scheduler asks.

    The file system may change between any two system calls: the [n]-th call
    (or clock reading) of the process sees the [n]-th [World].  A descriptor is
    the inode it was opened on.  Reading a file takes [reads] turns of the read
    loop at most; a pass cut short there has not returned ([PowerLoss]). *)

From S2P Require Import Prelude Text Dict Contracts Registration JsonText Identity.
From Stdlib Require Import Ascii.
Local Open Scope Z_scope.

Definition READ_CHUNK_BYTES : Z := 1048576.
Definition FINDMNT_COLUMNS : string := "TARGET,SOURCE,FSTYPE,UUID".

(** ** The system *)
Inductive Inode :=
| Regular (size mtime_ns : Z) (data : string)
| Directory (children : list (string * Z))
| Symlink
| Special.
Record Fs := {
  fs_lookup : string → option Z;  (* an absolute path, its last component not followed *)
  fs_inode : Z → option Inode;
}.
Record World := {
  at_time : time;
  on_disk : Fs;
  findmnt : list string → outcome string;
}.

(** [os.lstat], [os.fstat]: the kind, inode, size and modification time. *)
Record Stat := { st_kind : Inode; st_ino : Z; st_size : Z; st_mtime_ns : Z }.
Definition stat_of (fs : Fs) (ino : Z) : option Stat :=
  node ← fs_inode fs ino;
  Some {| st_kind := node; st_ino := ino;
          st_size := match node with Regular size _ _ => size | _ => 0 end;
          st_mtime_ns := match node with Regular _ m _ => m | _ => 0 end |}.
Definition is_link (s : Stat) : bool := match st_kind s with Symlink => true | _ => false end.
Definition is_dir (s : Stat) : bool := match st_kind s with Directory _ => true | _ => false end.
Definition is_reg (s : Stat) : bool := match st_kind s with Regular _ _ _ => true | _ => false end.

Definition lstat_path (fs : Fs) (path : string) : option Stat := ino ← fs_lookup fs path; stat_of fs ino.
Definition child (fs : Fs) (dir : Z) (name : string) : option Z :=
  node ← fs_inode fs dir; match node with Directory children => assoc name children | _ => None end.
Definition lstat_at (fs : Fs) (dir : Z) (name : string) : option Stat := ino ← child fs dir name; stat_of fs ino.
(** [os.open] with [O_DIRECTORY | O_NOFOLLOW], and with [O_NOFOLLOW]. *)
Definition open_directory (s : option Stat) : option Z := s ← s; if is_dir s then Some (st_ino s) else None.
Definition open_file (s : option Stat) : option Z := s ← s; if is_link s then None else Some (st_ino s).
(** [os.read(fd, READ_CHUNK_BYTES)] at a position *)
Definition read_at (fs : Fs) (fd pos : Z) : option string :=
  node ← fs_inode fs fd;
  match node with
  | Regular _ _ data => Some (String.substring (Z.to_nat pos) (Z.to_nat READ_CHUNK_BYTES) data)
  | _ => None
  end.

(** ** Registered assets *)
Record AssetEntry := { ae_role : string; ae_path : string; ae_sha256 : option string; ae_size_bytes : option Z }.
Record AssetFact := { af_role : string; af_path : string; af_inode : Z; af_size_bytes : Z; af_mtime_ns : Z; af_sha256 : option string }.
#[export] Instance AssetEntry_eq_dec : EqDecision AssetEntry.
Proof. solve_decision. Defined.
#[export] Instance AssetFact_eq_dec : EqDecision AssetFact.
Proof. solve_decision. Defined.

(** The shapes a registration value takes: a file name, a pair of a name and a
    digest, a list of assets, entries or names, a v1 model, a v2 model. *)
Inductive AssetItem := ItemName (path : string) | ItemAsset (asset : AssetRef) | ItemEntry (entry : AssetEntry) | ItemOther.
Inductive AssetValue :=
| ValueName (file : string)
| ValuePair (file digest : string)
| ValueList (items : list AssetItem)
| ValueV1 (file : string) (digest : option string)
| ValueV2 (assets : list AssetItem)
| ValueOther.

Definition as_entry (item : AssetItem) : outcome AssetEntry :=
  match item with
  | ItemName path => Ret {| ae_role := "model"; ae_path := path; ae_sha256 := None; ae_size_bytes := None |}
  | ItemAsset a =>
      if String.eqb (asset_path a) "" then Raise (AssetFault "invalid_asset")
      else Ret {| ae_role := if String.eqb (asset_role a) "" then "model" else asset_role a; ae_path := asset_path a;
                  ae_sha256 := Some (asset_sha256 a); ae_size_bytes := Some (asset_size_bytes a) |}
  | ItemEntry e =>
      if String.eqb (ae_path e) "" then Raise (AssetFault "invalid_asset")
      else Ret {| ae_role := if String.eqb (ae_role e) "" then "model" else ae_role e; ae_path := ae_path e;
                  ae_sha256 := ae_sha256 e; ae_size_bytes := ae_size_bytes e |}
  | ItemOther => Raise (AssetFault "invalid_asset")
  end.
Fixpoint as_entries (items : list AssetItem) : outcome (list AssetEntry) :=
  match items with
  | [] => mret []
  | item :: items => e ← as_entry item; rest ← as_entries items; mret (e :: rest)
  end.
Definition named_entry (file : string) (digest : option string) : AssetEntry :=
  {| ae_role := "model"; ae_path := file; ae_sha256 := digest; ae_size_bytes := None |}.
Definition normalize_assets (v : AssetValue) : outcome (list AssetEntry) :=
  match v with
  | ValueName file => Ret [named_entry file None]
  | ValuePair file digest => Ret [named_entry file (Some digest)]
  | ValueList items => as_entries items
  | ValueV1 file digest => Ret [named_entry file digest]
  | ValueV2 ((_ :: _) as items) => as_entries items
  | _ => Raise (AssetFault "invalid_asset")
  end.
Fixpoint normalize_all (models : list (string * AssetValue)) : outcome (list (string * list AssetEntry)) :=
  match models with
  | [] => mret []
  | (id, v) :: models => e ← normalize_assets v; rest ← normalize_all models; mret ((id, e) :: rest)
  end.

(** ** The store *)
Inductive AssetState := UNVERIFIED | VERIFIED | FAULT | UNKNOWN.
#[export] Instance AssetState_eq_dec : EqDecision AssetState.
Proof. solve_decision. Defined.

Record StoreConfig := {
  mount_path : string;
  model_directory : string;
  expected_uuid : string;
  filesystem : string;
  verify_timeout : time;
}.
Record AssetStore := {
  as_state : AssetState;
  as_entries_ : dict string (list AssetEntry);
  as_baseline : option (dict string (list AssetFact));
  as_step : nat;
}.
#[export] Instance AssetStore_eta : Eta AssetStore := fun r =>
  {| as_state := as_state r; as_entries_ := as_entries_ r; as_baseline := as_baseline r; as_step := as_step r |}.
Definition AssetStore_init : AssetStore := {| as_state := UNVERIFIED; as_entries_ := ∅; as_baseline := None; as_step := 0 |}.

(** The constructor's check. *)
Definition make_store (cfg : StoreConfig) : outcome AssetStore :=
  if verify_timeout cfg <=? 0 then Raise (ValueError "verify_timeout_seconds must be positive") else Ret AssetStore_init.

Record AssetSnapshot := {
  sn_state : AssetState;
  sn_reason : option string;
  sn_sampled_at : time;
  sn_facts : dict string (list AssetFact);
}.
Definition sn_ready (s : AssetSnapshot) : bool := bool_decide (sn_state s = VERIFIED).
Definition is_verified (s : AssetStore) : bool := bool_decide (as_state s = VERIFIED) && bool_decide (is_Some (as_baseline s)).

(** [sorted(d.items())]: the keys differ, so their order decides. *)
Fixpoint insert_key {A} (kv : string * A) (l : list (string * A)) : list (string * A) :=
  match l with
  | [] => [kv]
  | kv' :: l' => if String.leb kv.1 kv'.1 then kv :: l else kv' :: insert_key kv l'
  end.
Definition sorted_items {A} (d : dict string A) : list (string * A) := foldr insert_key [] (entries d).

Section Store.
Context `{Digest} (w : nat → World) (cfg : StoreConfig) (reads : nat).

(** The world of the next system call. *)
Definition interact : pym AssetStore World :=
  s ← get; modify (fun s => s <| as_step := S (as_step s) |>);; mret (w (as_step s)).
Definition or_fault {A} (reason : string) (o : option A) : pym AssetStore A := lift (of_option (AssetFault reason) o).
Definition fault_if (b : bool) (reason : string) : pym AssetStore unit := lift (raise_if b (AssetFault reason)).

Definition now_ : pym AssetStore time := v ← interact; mret (at_time v).
Definition tick (deadline : time) : pym AssetStore unit :=
  now ← now_; lift (raise_if (deadline <? now) (AssetTimeout "asset_verify_timeout")).

(** *** Facts *)
Definition jfield (v : json) (key : string) : outcome json := 
  match v with JObj fields => mret (default JNull (jget key fields)) | _ => Raise (AttributeError "get") end.
Definition is_jstr (v : json) (s : string) : bool := match v with JStr t => String.eqb t s | _ => false end.

Definition check_mount : pym AssetStore unit :=
  v ← interact;
  raw ← lift (findmnt v ["findmnt"; "--json"; "--output"; FINDMNT_COLUMNS; "--target"; mount_path cfg]);
  data ← lift (loads plain_hooks raw);
  filesystems ← lift (jfield data "filesystems");
  match filesystems with
  | JList [entry] =>
      target ← lift (jfield entry "target");
      _ ← fault_if (negb (is_jstr target (mount_path cfg))) "mount_not_found";
      uuid ← lift (jfield entry "uuid");
      fstype ← lift (jfield entry "fstype");
      _ ← fault_if (negb (is_jstr uuid (expected_uuid cfg) && is_jstr fstype (filesystem cfg))) "mount_identity_mismatch";
      v ← interact;
      directory ← or_fault "model_directory_unsafe" (lstat_path (on_disk v) (model_directory cfg));
      fault_if (is_link directory || negb (is_dir directory)) "model_directory_unsafe"
  | _ => raise (AssetFault "mount_not_found")
  end.

(** One level of the walk: the name is neither a link nor anything but a directory. *)
Fixpoint walk (fd : Z) (parts : list string) : pym AssetStore Z :=
  match parts with
  | [] => mret fd
  | name :: parts =>
      v ← interact;
      info ← or_fault "asset_path_unsafe" (lstat_at (on_disk v) fd name);
      _ ← fault_if (is_link info) "asset_path_unsafe";
      v ← interact;
      child ← or_fault "asset_path_unsafe" (open_directory (lstat_at (on_disk v) fd name));
      walk child parts
  end.
Definition open_parent (parts : list string) : pym AssetStore Z :=
  v ← interact;
  fd ← or_fault "model_directory_unsafe" (open_directory (lstat_path (on_disk v) (model_directory cfg)));
  walk fd parts.

Definition split_path (path : string) : outcome (list string) :=
  if String.eqb path "" || starts_with_slash path || existsb (fun c => code c <? 32) (chars path)
     || existsb (fun part => bool_decide (part ∈ [""; "."; ".."])) (path_parts path)
  then Raise (AssetFault "asset_path_unsafe") else Ret (path_parts path).

(** [parts[:-1]] and [parts[-1]] *)
Definition dirname (parts : list string) : list string := removelast parts.
Definition basename (parts : list string) : string := List.last parts "".

Definition lstat_asset (parts : list string) : pym AssetStore Stat :=
  parent ← open_parent (dirname parts);
  v ← interact;
  info ← or_fault "asset_unavailable" (lstat_at (on_disk v) parent (basename parts));
  _ ← fault_if (is_link info || negb (is_reg info)) "asset_symlink";
  mret info.

Definition identity_of (s : Stat) : Z * Z * Z := (st_ino s, st_size s, st_mtime_ns s).

Definition stat_asset (entry : AssetEntry) (known : AssetFact) : pym AssetStore AssetFact :=
  parts ← lift (split_path (ae_path entry));
  info ← lstat_asset parts;
  _ ← fault_if (negb (bool_decide (identity_of info = (af_inode known, af_size_bytes known, af_mtime_ns known)))) "asset_changed";
  mret {| af_role := ae_role entry; af_path := ae_path entry; af_inode := st_ino info; af_size_bytes := st_size info;
          af_mtime_ns := st_mtime_ns info; af_sha256 := af_sha256 known |}.

(** [hash_file_descriptor]: the deadline is checked between two reads. *)
Fixpoint hash_file_descriptor (fuel : nat) (deadline : time) (fd pos : Z) (seen : string) : pym AssetStore string :=
  match fuel with
  | O => raise PowerLoss
  | S fuel =>
      _ ← tick deadline;
      v ← interact;
      chunk ← lift (of_option (OSError "read") (read_at (on_disk v) fd pos));
      if String.eqb chunk "" then mret (sha256_hex seen)
      else hash_file_descriptor fuel deadline fd (pos + Z.of_nat (String.length chunk)) (seen +:+ chunk)
  end.
Definition fstat (fd : Z) : pym AssetStore Stat :=
  v ← interact; lift (of_option (OSError "fstat") (stat_of (on_disk v) fd)).

Definition hash_asset (deadline : time) (entry : AssetEntry) : pym AssetStore AssetFact :=
  _ ← tick deadline;
  parts ← lift (split_path (ae_path entry));
  info ← lstat_asset parts;
  parent ← open_parent (dirname parts);
  v ← interact;
  fd ← or_fault "asset_symlink" (open_file (lstat_at (on_disk v) parent (basename parts)));
  before ← fstat fd;
  digest ← hash_file_descriptor reads deadline fd 0 "";
  after ← fstat fd;
  _ ← fault_if (negb (bool_decide (identity_of before = identity_of after))) "asset_replaced";
  _ ← fault_if (negb (bool_decide (identity_of info = identity_of before))) "asset_replaced";
  _ ← fault_if (match ae_size_bytes entry with Some n => negb (st_size before =? n) | None => false end) "asset_size_mismatch";
  _ ← fault_if (match ae_sha256 entry with Some h => negb (String.eqb digest h) | None => false end) "asset_hash_mismatch";
  mret {| af_role := ae_role entry; af_path := ae_path entry; af_inode := st_ino before; af_size_bytes := st_size before;
          af_mtime_ns := st_mtime_ns before; af_sha256 := Some digest |}.

(** *** The two passes *)
Definition snapshot_ (state : AssetState) (reason : option string) (now : time) (facts : dict string (list AssetFact)) : AssetSnapshot :=
  {| sn_state := state; sn_reason := reason; sn_sampled_at := now; sn_facts := facts |}.
(** The handlers of both passes: the baseline is dropped. *)
Definition close_with (state : AssetState) (reason : string) (now : time) : pym AssetStore AssetSnapshot :=
  modify (fun s => s <| as_baseline := None |> <| as_state := state |>);; mret (snapshot_ state (Some reason) now ∅).
Definition observe_handler (now : time) (e : exn) : option (pym AssetStore AssetSnapshot) :=
  match e with
  | AssetFault reason => Some (close_with FAULT reason now)
  | OSError m | ValueError m | SubprocessError m => Some (close_with UNKNOWN m now)
  | _ => None
  end.
Definition verify_handler (now : time) (e : exn) : option (pym AssetStore AssetSnapshot) :=
  match e with AssetTimeout _ => Some (close_with UNKNOWN "asset_verify_timeout" now) | _ => observe_handler now e end.

(** The body of a full pass, over the registered entries. *)
Definition hash_all (deadline : time) (es : dict string (list AssetEntry)) : pym AssetStore (dict string (list AssetFact)) :=
  facts ← map_each (sorted_items es) (fun me => fs ← map_each me.2 (hash_asset deadline); mret (me.1, fs));
  mret (Dict facts).
Definition full_pass (now : time) : pym AssetStore AssetSnapshot :=
  _ ← check_mount;
  s ← get;
  facts ← hash_all (now + verify_timeout cfg) (as_entries_ s);
  modify (fun s => s <| as_baseline := Some facts |> <| as_state := VERIFIED |>);;
  mret (snapshot_ VERIFIED None now facts).
Definition verify (assets : option (list (string * AssetValue))) : pym AssetStore AssetSnapshot :=
  _ ← match assets with
      | Some assets => normalized ← lift (normalize_all assets); modify (fun s => s <| as_entries_ := Dict normalized |>)
      | None => mret tt
      end;
  now ← now_;
  catch (full_pass now) (verify_handler now).

(** [zip(self._entries[model_id], knowns)] *)
Definition stat_model (es : dict string (list AssetEntry)) (mk : string * list AssetFact) : pym AssetStore (string * list AssetFact) :=
  registered ← lift (of_option (KeyError mk.1) (es !! mk.1));
  fs ← map_each (combine registered mk.2) (fun ek => stat_asset ek.1 ek.2);
  mret (mk.1, fs).
Definition metadata_pass (now : time) (baseline : dict string (list AssetFact)) : pym AssetStore AssetSnapshot :=
  _ ← check_mount;
  s ← get;
  facts ← map_each (sorted_items baseline) (stat_model (as_entries_ s));
  modify (fun s => s <| as_state := VERIFIED |>);;
  mret (snapshot_ VERIFIED None now (Dict facts)).
Definition observe : pym AssetStore AssetSnapshot :=
  now ← now_;
  s ← get;
  match as_baseline s with
  | None => mret (snapshot_ (as_state s) (Some "assets_unverified") now ∅)
  | Some baseline => catch (metadata_pass now baseline) (observe_handler now)
  end.

(** ** The storage monitor *)
Record ModelFile := { mf_inode : Z; mf_size : Z; mf_mtime_ns : Z; mf_sha256 : string }.
Record StorageSnapshot := {
  ss_ready : bool;
  ss_reason : option string;
  ss_sampled_at : time;
  ss_files : list (string * ModelFile);
}.

Definition primary_of (facts : list AssetFact) : option AssetFact :=
  match List.find (fun f => String.eqb (af_role f) "model") facts with Some f => Some f | None => head facts end.
Definition file_of (f : AssetFact) : ModelFile :=
  {| mf_inode := af_inode f; mf_size := af_size_bytes f; mf_mtime_ns := af_mtime_ns f; mf_sha256 := default "" (af_sha256 f) |}.
Definition to_snapshot (s : AssetSnapshot) : StorageSnapshot :=
  if negb (sn_ready s) then {| ss_ready := false; ss_reason := sn_reason s; ss_sampled_at := sn_sampled_at s; ss_files := [] |}
  else {| ss_ready := true; ss_reason := None; ss_sampled_at := sn_sampled_at s;
          ss_files := omap (fun mf => (fun f => (mf.1, file_of f)) <$> primary_of mf.2) (entries (sn_facts s)) |}.

(** [d1 == d2] on the normalized registrations *)
Definition same_entries (a b : dict string (list AssetEntry)) : bool :=
  bool_decide (length (entries a) = length (entries b)) && forallb (fun kv => bool_decide (b !! kv.1 = Some kv.2)) (entries a).
Definition not_ready (reason : string) (now : time) : StorageSnapshot :=
  {| ss_ready := false; ss_reason := Some reason; ss_sampled_at := now; ss_files := [] |}.

(** The normalized registration, handed to [verify] again. *)
Definition as_values (n : list (string * list AssetEntry)) : list (string * AssetValue) := map (fun me => (me.1, ValueList (map ItemEntry me.2))) n.
(** The pass a run of the monitor makes: metadata only when the same set is verified. *)
Definition monitor_pass (force : bool) (normalized : list (string * list AssetEntry)) (s : AssetStore) : pym AssetStore AssetSnapshot :=
  if negb force && (is_verified s && same_entries (Dict normalized) (as_entries_ s)) then observe else verify (Some (as_values normalized)).
Definition monitor_handler (now : time) (e : exn) : option (pym AssetStore StorageSnapshot) :=
  match e with
  | OSError m | ValueError m | AssetFault m => Some (mret (not_ready m now))
  | _ => None
  end.
Definition run_monitor (models : list (string * AssetValue)) (force : bool) : pym AssetStore StorageSnapshot :=
  now ← now_;
  catch
    (normalized ← lift (normalize_all models);
     s ← get;
     snapshot ← monitor_pass force normalized s;
     mret (to_snapshot snapshot))
    (monitor_handler now).
Definition check (models : list (string * AssetValue)) : pym AssetStore StorageSnapshot := run_monitor models false.
Definition verify_all (models : list (string * AssetValue)) : pym AssetStore StorageSnapshot := run_monitor models true.
End Store.

(** ** The guard of the scheduler *)
Record Guard := {
  g_store : AssetStore;
  g_last_check_at : option time;  (* [None]: minus infinity *)
  g_last_snapshot : option StorageSnapshot;
}.
#[export] Instance Guard_eta : Eta Guard := fun r =>
  {| g_store := g_store r; g_last_check_at := g_last_check_at r; g_last_snapshot := g_last_snapshot r |}.

Section Guard.
Context `{Digest} (w : nat → World) (cfg : StoreConfig) (reads : nat) (models : list (string * AssetValue)) (interval : time).

Definition make_guard (store : AssetStore) : outcome Guard :=
  if interval <=? 0 then Raise (ValueError "sample_interval_seconds must be positive")
  else Ret {| g_store := store; g_last_check_at := None; g_last_snapshot := None |}.
Definition in_store {A} (m : pym AssetStore A) : pym Guard A := on_field g_store (fun s g => g <| g_store := s |>) m.
Definition within_interval (g : Guard) (now : time) : bool :=
  match g_last_check_at g with Some t => now - t <? interval | None => false end.
Definition guard_check (now : time) : pym Guard bool :=
  s ← in_store (check w cfg reads models);
  modify (fun g => g <| g_last_snapshot := Some s |> <| g_last_check_at := Some now |>);;
  mret (ss_ready s).
Definition guard_call : pym Guard bool :=
  now ← in_store (now_ w);
  g ← get;
  match g_last_snapshot g with
  | Some s => if within_interval g now then mret (ss_ready s) else guard_check now
  | None => guard_check now
  end.
End Guard.
