(* ===== verification/AssetsProps.v ===== *)
(** * Theorems on asset verification: what a ready answer was seen from, over
    any sequence of calls and any behaviour of the file system, and the exact
    verdict of a full pass over files at rest. *)

From S2P Require Import Prelude Text Dict Contracts Registration RegistrationProps JsonText Identity Assets.
From Stdlib Require Import Ascii.
Local Open Scope Z_scope.

(** ** Calls that only read *)
Definition same_store (a b : AssetStore) : Prop :=
  as_state a = as_state b ∧ as_entries_ a = as_entries_ b ∧ as_baseline a = as_baseline b ∧ (as_step a ≤ as_step b)%nat.
Definition reads_only {A} (m : pym AssetStore A) : Prop := ∀ s, same_store s (m s).1.

Lemma same_trans a b c : same_store a b → same_store b c → same_store a c.
Proof. intros (? & ? & ? & ?) (? & ? & ? & ?). unfold same_store. split_and!; congruence || lia. Qed.
Lemma ro_bind {A B} (m : pym AssetStore A) (k : A → pym AssetStore B) : reads_only m → (∀ a, reads_only (k a)) → reads_only (m ≫= k).
Proof.
  intros Hm Hk s. specialize (Hm s). unfold mbind, pym_bind. destruct (m s) as [s1 [a|e]]; cbn [fst] in *; [|done].
  eapply same_trans; [done|apply Hk].
Qed.
Lemma ro_ret {A} (a : A) : reads_only (mret a).
Proof. by intros s. Qed.
Lemma ro_raise {A} e : reads_only (@raise AssetStore A e).
Proof. by intros s. Qed.
Lemma ro_lift {A} (o : outcome A) : reads_only (lift o).
Proof. by intros s. Qed.
Lemma ro_get : reads_only get.
Proof. by intros s. Qed.
Create HintDb assets.
#[export] Hint Resolve ro_ret ro_raise ro_lift ro_get : assets.

Lemma ro_map_each {A B} (l : list A) (f : A → pym AssetStore B) : (∀ a, reads_only (f a)) → reads_only (map_each l f).
Proof.
  intros Hf. induction l as [|a l IH]; cbn [map_each]; [auto with assets|].
  apply ro_bind; [apply Hf|intros b]. apply ro_bind; [done|auto with assets].
Qed.

(** Break a method into its calls. *)
Ltac ro_step := first [solve [auto with assets] | apply ro_bind; [|intros ?] | apply ro_map_each; intros ? | case_match].

Section Reads.
Context `{Digest} (w : nat → World) (cfg : StoreConfig) (reads : nat).

Lemma ro_interact : reads_only (interact w).
Proof. intros s. split_and!; try done. apply Nat.le_succ_diag_r. Qed.
Hint Resolve ro_interact : assets.
Lemma ro_fault {A} r (o : option A) : reads_only (or_fault r o).
Proof. apply ro_lift. Qed.
Lemma ro_fault_if b r : reads_only (fault_if b r).
Proof. apply ro_lift. Qed.
Lemma ro_now : reads_only (now_ w).
Proof. unfold now_. repeat ro_step. Qed.
Hint Resolve ro_fault ro_fault_if ro_now : assets.
Lemma ro_tick d : reads_only (tick w d).
Proof. unfold tick. repeat ro_step. Qed.
Hint Resolve ro_tick : assets.
Lemma ro_check_mount : reads_only (check_mount w cfg).
Proof. unfold check_mount. repeat ro_step. Qed.
Lemma ro_walk parts fd : reads_only (walk w fd parts).
Proof. revert fd. induction parts as [|p parts IH]; intros fd; cbn [walk]; repeat ro_step. Qed.
Hint Resolve ro_check_mount ro_walk : assets.
Lemma ro_open_parent parts : reads_only (open_parent w cfg parts).
Proof. unfold open_parent. repeat ro_step. Qed.
Hint Resolve ro_open_parent : assets.
Lemma ro_lstat_asset parts : reads_only (lstat_asset w cfg parts).
Proof. unfold lstat_asset. repeat ro_step. Qed.
Hint Resolve ro_lstat_asset : assets.
Lemma ro_stat_asset e k : reads_only (stat_asset w cfg e k).
Proof. unfold stat_asset. repeat ro_step. Qed.
Lemma ro_hash_fd fuel d fd pos seen : reads_only (hash_file_descriptor w fuel d fd pos seen).
Proof. revert pos seen. induction fuel as [|fuel IH]; intros pos seen; cbn [hash_file_descriptor]; repeat ro_step. Qed.
Lemma ro_fstat fd : reads_only (fstat w fd).
Proof. unfold fstat. repeat ro_step. Qed.
Hint Resolve ro_stat_asset ro_hash_fd ro_fstat : assets.
Lemma ro_hash_asset d e : reads_only (hash_asset w cfg reads d e).
Proof. unfold hash_asset. repeat ro_step. Qed.
Hint Resolve ro_hash_asset : assets.
Lemma ro_hash_all d es : reads_only (hash_all w cfg reads d es).
Proof. unfold hash_all. repeat ro_step. Qed.
Lemma ro_stat_model es mk : reads_only (stat_model w cfg es mk).
Proof. unfold stat_model. repeat ro_step. Qed.
End Reads.
#[export] Hint Resolve ro_interact ro_now ro_check_mount ro_hash_all ro_stat_model : assets.

(** ** What a pass saw *)
Section Seen.
Context `{Digest} (w : nat → World) (cfg : StoreConfig) (reads : nat).

Definition fact_identity (f : AssetFact) : Z * Z * Z := (af_inode f, af_size_bytes f, af_mtime_ns f).
(** The walk from a directory along names, each of them no link at one call and
    opened as a directory at a later one. *)
Inductive descends : nat → Z → list string → nat → Z → Prop :=
| descends_here n m fd : (n ≤ m)%nat → descends n fd [] m fd
| descends_into n k k' m fd name names info next parent : (n ≤ k < k')%nat →
    lstat_at (on_disk (w k)) fd name = Some info → is_link info = false →
    open_directory (lstat_at (on_disk (w k')) fd name) = Some next →
    descends (S k') next names m parent → descends n fd (name :: names) m parent.
(** Between two calls the registered directories were opened one by one, from the
    model directory on, and [parent] is the last of them. *)
Definition opened (n : nat) (names : list string) (m : nat) (parent : Z) : Prop :=
  ∃ k root, (n ≤ k)%nat ∧ open_directory (lstat_path (on_disk (w k)) (model_directory cfg)) = Some root ∧ descends (S k) root names m parent.
(** Between two calls the directories of the asset's path were opened, and at the
    [m]-th call the last of them had the asset's name for a regular file with the
    identity of [f]. *)
Definition sees (n m : nat) (e : AssetEntry) (f : AssetFact) : Prop :=
  ∃ parts parent info, split_path (ae_path e) = Ret parts ∧ opened n (dirname parts) m parent ∧
    lstat_at (on_disk (w m)) parent (basename parts) = Some info ∧ is_reg info = true ∧ identity_of info = fact_identity f.
Definition seen_in (n n' : nat) (e : AssetEntry) (f : AssetFact) : Prop := ∃ m, (n ≤ m < n')%nat ∧ sees n m e f.
Lemma opened_earlier n0 n names m parent : (n0 ≤ n)%nat → opened n names m parent → opened n0 names m parent.
Proof. intros Hn (k & root & Hk & Ho & Hd). exists k, root. split_and!; [lia|done..]. Qed.
Lemma seen_in_weaken n0 n n' n1 e f : (n0 ≤ n)%nat → (n' ≤ n1)%nat → seen_in n n' e f → seen_in n0 n1 e f.
Proof.
  intros H0 H1 (m & Hm & parts & parent & info & Hp & Ho & Hl). exists m. split; [lia|]. exists parts, parent, info.
  split; [done|]. split; [by eapply opened_earlier|done].
Qed.
(** Reads of a descriptor from a position to the end of the file. *)
Inductive reads_to_end (fd : Z) : Z → nat → nat → string → Prop :=
| reads_end pos n : read_at (on_disk (w n)) fd pos = Some "" → reads_to_end fd pos n (S n) ""
| reads_more pos n n' m chunk rest : read_at (on_disk (w n)) fd pos = Some chunk → chunk ≠ "" → (n < n')%nat →
    reads_to_end fd (pos + Z.of_nat (String.length chunk)) n' m rest → reads_to_end fd pos n m (chunk +:+ rest).

(** The registration's promises. *)
Definition accepted (e : AssetEntry) (f : AssetFact) : Prop :=
  af_role f = ae_role e ∧ af_path f = ae_path e ∧ (∀ n, ae_size_bytes e = Some n → af_size_bytes f = n) ∧
  (∀ h, ae_sha256 e = Some h → af_sha256 f = Some h).
(** The file under the asset's path was opened and read from beginning to end, as
    one object, and its digest is the one of the fact. *)
Definition hashed (e : AssetEntry) (f : AssetFact) : Prop :=
  ∃ parts parent n n0 fd n1 n2 n3 n4 s1 s4 data,
    split_path (ae_path e) = Ret parts ∧ opened n (dirname parts) n0 parent ∧
    open_file (lstat_at (on_disk (w n0)) parent (basename parts)) = Some fd ∧ (n0 < n1)%nat ∧ (n1 < n2)%nat ∧ (n2 < n3)%nat ∧ (n3 ≤ n4)%nat ∧
    stat_of (on_disk (w n1)) fd = Some s1 ∧ identity_of s1 = fact_identity f ∧
    reads_to_end fd 0 n2 n3 data ∧ af_sha256 f = Some (sha256_hex data) ∧
    stat_of (on_disk (w n4)) fd = Some s4 ∧ identity_of s4 = fact_identity f.

Lemma interact_returns s s' v : interact w s = (s', Ret v) → v = w (as_step s) ∧ as_step s' = S (as_step s).
Proof. unfold interact, mbind, pym_bind, get, modify. cbn. intros [= <- <-]. done. Qed.
Lemma lift_returns {A} (m : outcome A) (s s' : AssetStore) a : lift m s = (s', Ret a) → s' = s ∧ m = Ret a.
Proof. unfold lift. by intros [= <- ->]. Qed.
Lemma or_fault_returns {A} r (x : option A) s s' a : or_fault r x s = (s', Ret a) → s' = s ∧ x = Some a.
Proof. unfold or_fault, lift. destruct x; intros [=]; by subst. Qed.
Lemma fault_if_returns b r s s' u : fault_if b r s = (s', Ret u) → s' = s ∧ b = false.
Proof. unfold fault_if, lift, raise_if. destruct b; intros [=]; by subst. Qed.

(** Invert a returned method into its calls. *)
Ltac inv_calls :=
  repeat match goal with
  | H : (_ ≫= _) _ = (_, Ret _) |- _ => apply bind_returns in H as (? & ? & ? & H)
  | H : interact w _ = (_, Ret _) |- _ => apply interact_returns in H as [? ?]
  | H : lift _ _ = (_, Ret _) |- _ => apply lift_returns in H as [? ?]
  | H : or_fault _ _ _ = (_, Ret _) |- _ => apply or_fault_returns in H as [? ?]
  | H : fault_if _ _ _ = (_, Ret _) |- _ => apply fault_if_returns in H as [? ?]
  | H : mret _ _ = (_, Ret _) |- _ => unfold mret, pym_ret in H; injection H as ? ?
  end; subst.

Lemma step_mono {A} (m : pym AssetStore A) s s' o : reads_only m → m s = (s', o) → (as_step s ≤ as_step s')%nat.
Proof. intros Hm E. specialize (Hm s). rewrite E in Hm. apply Hm. Qed.

Lemma walk_descends names : ∀ fd s s' parent, walk w fd names s = (s', Ret parent) → descends (as_step s) fd names (as_step s') parent.
Proof.
  induction names as [|name names IH]; intros fd s s' parent E; cbn [walk] in E.
  - inv_calls. by constructor.
  - inv_calls. apply IH in E. rename select (as_step _ = S (as_step s)) into Hs. rename select (as_step _ = S (as_step _)) into Hs1. rewrite Hs1 in E.
    econstructor; [|done|done|done|exact E]. lia.
Qed.
Lemma open_parent_opened names s s' parent : open_parent w cfg names s = (s', Ret parent) → opened (as_step s) names (as_step s') parent.
Proof.
  unfold open_parent. intros E. inv_calls. apply walk_descends in E. rename select (as_step _ = S (as_step s)) into Hs. rewrite Hs in E.
  eexists _, _. split_and!; [|done|exact E]. lia.
Qed.
Lemma lstat_asset_sees parts s s' info : lstat_asset w cfg parts s = (s', Ret info) →
  ∃ m parent, (as_step s ≤ m < as_step s')%nat ∧ opened (as_step s) (dirname parts) m parent ∧
    lstat_at (on_disk (w m)) parent (basename parts) = Some info ∧ is_reg info = true.
Proof.
  unfold lstat_asset. intros E. inv_calls. rename select (open_parent _ _ _ _ = _) into Hp. pose proof Hp as Hm. apply step_mono in Hm; [|apply ro_open_parent].
  apply open_parent_opened in Hp. rename select (_ || _ = false) into Hb. apply orb_false_iff in Hb as [_ Hb%negb_false_iff].
  eexists _, _. split_and!; [..|exact Hp|done|done]; lia.
Qed.

Lemma stat_asset_sees e k s s' f : stat_asset w cfg e k s = (s', Ret f) →
  fact_identity f = fact_identity k ∧ af_sha256 f = af_sha256 k ∧ seen_in (as_step s) (as_step s') e k.
Proof.
  unfold stat_asset. intros E. inv_calls. rename select (lstat_asset _ _ _ _ = _) into Hl. apply lstat_asset_sees in Hl as (n & parent & Hn & Ho & Hl & Hr).
  rename select (negb _ = false) into Hb. apply negb_false_iff, bool_decide_eq_true in Hb. split_and!; [done|done|].
  exists n. split; [done|]. eexists _, _, _. split_and!; done.
Qed.

Lemma tick_step d s s' u : tick w d s = (s', Ret u) → as_step s' = S (as_step s).
Proof. unfold tick, now_. intros E. inv_calls. done. Qed.

Lemma hash_fd_reads fuel d fd pos seen s s' digest : hash_file_descriptor w fuel d fd pos seen s = (s', Ret digest) →
  ∃ data n m, digest = sha256_hex (seen +:+ data) ∧ reads_to_end fd pos n m data ∧ (as_step s < n)%nat ∧ (n < m)%nat ∧ (m ≤ as_step s')%nat.
Proof.
  revert pos seen s. induction fuel as [|fuel IH]; intros pos seen s E; [done|]. cbn [hash_file_descriptor] in E. inv_calls.
  rename select (tick _ _ _ = _) into Ht. apply tick_step in Ht.
  rename select (of_option _ _ = Ret _) into Hr. destruct (read_at _ _ _) as [c|] eqn:Ec; [|done]. cbn [of_option] in Hr. injection Hr as ->.
  destruct (String.eqb _ "") eqn:Ee.
  - inv_calls. apply String.eqb_eq in Ee as ->. eexists "", _, _. split_and!; [by rewrite append_nil_r|by constructor|lia|lia|lia].
  - apply IH in E as (data & n & m & -> & Hd & Hlt & Hnm & Hms). apply String.eqb_neq in Ee.
    eexists _, _, m. split_and!; [by rewrite append_assoc|econstructor; [done|done| |done]; lia|lia|lia|done].
Qed.

Lemma hash_asset_returns d e s s' f : hash_asset w cfg reads d e s = (s', Ret f) →
  accepted e f ∧ hashed e f ∧ seen_in (as_step s) (as_step s') e f.
Proof.
  unfold hash_asset, fstat. intros E. inv_calls.
  rename select (tick _ _ _ = _) into Ht. apply tick_step in Ht.
  rename select (lstat_asset _ _ _ _ = _) into Hl. apply lstat_asset_sees in Hl as (n & parent & Hn & Ho & Hl & Hr).
  rename select (open_parent _ _ _ _ = _) into Hp. pose proof Hp as Hopen. apply open_parent_opened in Hopen. apply step_mono in Hp; [|apply ro_open_parent].
  rename select (hash_file_descriptor _ _ _ _ _ _ _ = _) into Hh. apply hash_fd_reads in Hh as (data & n2 & n3 & -> & Hd & Hn2 & Hn3 & Hn4).
  repeat match goal with H : of_option _ ?x = Ret _ |- _ => let E := fresh "Es" in destruct x eqn:E; [|done]; cbn [of_option] in H; injection H as <- end.
  repeat match goal with H : negb (bool_decide _) = false |- _ => apply negb_false_iff, bool_decide_eq_true in H end.
  split_and!.
  - split_and!; [done|done| |]; cbn [af_size_bytes af_sha256].
    + intros k Hk. rename select (match ae_size_bytes e with Some _ => _ | None => _ end = false) into Hz. rewrite Hk in Hz. by apply negb_false_iff, Z.eqb_eq in Hz.
    + intros h Hk. rename select (match ae_sha256 e with Some _ => _ | None => _ end = false) into Hz. rewrite Hk in Hz. by apply negb_false_iff, String.eqb_eq in Hz as ->.
  - match goal with
    | H1 : stat_of (on_disk (w ?n1)) ?fd = Some ?s1, H2 : stat_of (on_disk (w ?n4)) ?fd = Some ?s4, H3 : identity_of ?s1 = identity_of ?s4 |- _ =>
        eexists _, _, _, _, fd, n1, n2, n3, n4, s1, s4, data
    end. split_and!; [done|exact Hopen|done|..]; done || lia.
  - exists n. split; [lia|]. eexists _, _, _. split_and!; [done|eapply opened_earlier; [|exact Ho]; lia|done..].
Qed.

Lemma map_each_returns {A B} (f : A → pym AssetStore B) (Q : A → B → nat → nat → Prop) l : ∀ s s' bs,
  (∀ a, reads_only (f a)) → (∀ a s s' b, f a s = (s', Ret b) → Q a b (as_step s) (as_step s')) →
  map_each l f s = (s', Ret bs) → Forall2 (fun a b => ∃ i j, (as_step s ≤ i)%nat ∧ (j ≤ as_step s')%nat ∧ Q a b i j) l bs.
Proof.
  induction l as [|a l IH]; intros s s' bs Hr HQ E; cbn [map_each] in E; inv_calls; [constructor|].
  rename select (f a s = _) into Ha. rename select (map_each l f _ = _) into Hl.
  pose proof (step_mono _ _ _ _ (Hr a) Ha). pose proof (step_mono _ _ _ _ (ro_map_each l f Hr) Hl). apply HQ in Ha. constructor.
  - eexists _, _. split_and!; [..|exact Ha]; lia.
  - eapply Forall2_impl; [eapply IH; [done|done|exact Hl]|]. intros b c (i & j & ? & ? & ?). exists i, j. split_and!; [lia|lia|done].
Qed.
End Seen.

(** ** Sorted items *)
Lemma insert_key_perm {A} (kv : string * A) l : insert_key kv l ≡ₚ kv :: l.
Proof. induction l as [|kv' l IH]; [done|]. cbn [insert_key]. destruct (String.leb _ _); [done|]. rewrite IH. constructor. Qed.
Lemma sorted_items_perm {A} (d : dict string A) : sorted_items d ≡ₚ entries d.
Proof.
  unfold sorted_items. induction (entries d) as [|kv l IH]; [done|]. cbn [foldr]. by rewrite insert_key_perm, IH.
Qed.
Lemma nodup_lookup {A} (l : list (string * A)) k v : NoDup l.*1 → (Dict l !! k = Some v ↔ (k, v) ∈ l).
Proof.
  intros Hn. change (assoc k l = Some v ↔ (k, v) ∈ l). induction l as [|[k' v'] l IH]; [split; [done|by intros ?%not_elem_of_nil]|].
  cbn in Hn. apply NoDup_cons in Hn as [Hk Hn]. cbn [assoc]. rewrite elem_of_cons. case_decide; subst.
  - split; [intros [= ->]; by left|]. intros [[= ->]|Hin]; [done|]. destruct Hk. apply list_elem_of_fmap. by exists (k', v).
  - rewrite IH by done. naive_solver.
Qed.

Lemma combine_lookup {A B} (l : list A) (k : list B) i a b : combine l k !! i = Some (a, b) → l !! i = Some a ∧ k !! i = Some b.
Proof. revert k i. induction l as [|x l IH]; intros [|y k] [|i]; cbn; try done; [by intros [= <- <-]|apply IH]. Qed.

Lemma combine_lookup_2 {A B} (l : list A) (k : list B) i a b : l !! i = Some a → k !! i = Some b → combine l k !! i = Some (a, b).
Proof. revert k i. induction l as [|x l IH]; intros [|y k] [|i]; cbn; try done; [by intros [= <-] [= <-]|apply IH]. Qed.

(** ** Registrations are normalized once *)
Lemma as_entry_role i e : as_entry i = Ret e → ae_role e ≠ "".
Proof.
  destruct i as [p|a|e0|]; cbn; [intros [= <-]; done| | |done].
  - destruct (String.eqb (asset_path a) ""); [done|]. intros [= <-]. cbn. destruct (String.eqb (asset_role a) "") eqn:E; [done|]. by apply String.eqb_neq.
  - destruct (String.eqb (ae_path e0) ""); [done|]. intros [= <-]. cbn. destruct (String.eqb (ae_role e0) "") eqn:E; [done|]. by apply String.eqb_neq.
Qed.
Lemma as_entries_role l es : as_entries l = Ret es → Forall (fun e => ae_role e ≠ "") es.
Proof.
  revert es. induction l as [|i l IH]; intros es; cbn [as_entries]; [intros [= <-]; constructor|].
  destruct (as_entry i) as [e|] eqn:Ee; [|done]. cbn [mbind outcome_bind]. destruct (as_entries l) as [r|]; [|done]. intros [= <-].
  constructor; [by apply (as_entry_role i)|by apply IH].
Qed.
Lemma normalize_role v es : normalize_assets v = Ret es → Forall (fun e => ae_role e ≠ "") es.
Proof. destruct v as [f|f d|l|f d|[|i l]|]; cbn [normalize_assets]; try done; try (intros [= <-]; by repeat constructor); apply as_entries_role. Qed.
Lemma renormalize_entries es : Forall (fun e => ae_role e ≠ "") es →
  as_entries (map ItemEntry es) = Ret es ∨ as_entries (map ItemEntry es) = Raise (AssetFault "invalid_asset").
Proof.
  induction 1 as [|e es He Hes IH]; [by left|]. cbn [map as_entries as_entry]. destruct (String.eqb (ae_path e) ""); [by right|].
  rewrite (proj2 (String.eqb_neq _ _) He). cbn [mbind outcome_bind]. destruct IH as [-> | ->]; [left|by right]. by destruct e.
Qed.
Lemma renormalize models n : normalize_all models = Ret n →
  normalize_all (as_values n) = Ret n ∨ normalize_all (as_values n) = Raise (AssetFault "invalid_asset").
Proof.
  revert n. induction models as [|[id v] models IH]; intros n; cbn [normalize_all]; [intros [= <-]; by left|].
  destruct (normalize_assets v) as [es|] eqn:Ev; [|done]. cbn [mbind outcome_bind]. destruct (normalize_all models) as [r|]; [|done]. intros [= <-].
  change (as_values ((id, es) :: r)) with ((id, ValueList (map ItemEntry es)) :: as_values r). cbn [normalize_all normalize_assets].
  destruct (renormalize_entries es (normalize_role v es Ev)) as [-> | ->]; [|by right]. cbn [mbind outcome_bind].
  destruct (IH r eq_refl) as [-> | ->]; [by left|by right].
Qed.

(** ** The invariant of the store *)
Section Monitor.
Context `{Digest} (w : nat → World) (cfg : StoreConfig) (reads : nat).
Context (models : list (string * AssetValue)) (N : list (string * list AssetEntry)).
Context (HN : normalize_all models = Ret N) (Hnd : NoDup N.*1).

(** Every registered asset has a fact of a full pass that meets its registration. *)
Definition covers (b : dict string (list AssetFact)) : Prop :=
  ∀ id es, Dict N !! id = Some es → ∃ fs, b !! id = Some fs ∧ Forall2 (fun e f => accepted e f ∧ hashed w cfg e f) es fs.
(** The files still had the identity of their facts between two calls. *)
Definition current (b : dict string (list AssetFact)) (n0 n1 : nat) : Prop :=
  ∀ id es fs e f, Dict N !! id = Some es → b !! id = Some fs → (e, f) ∈ combine es fs → seen_in w cfg n0 n1 e f.
Definition store_ok (s : AssetStore) : Prop :=
  (as_state s = VERIFIED ↔ is_Some (as_baseline s)) ∧ ∀ b, as_baseline s = Some b → as_entries_ s = Dict N ∧ covers b.

Lemma store_ok_same s s' : same_store s s' → store_ok s → store_ok s'.
Proof. intros (E1 & E2 & E3 & _). unfold store_ok. by rewrite E1, E2, E3. Qed.

Lemma hash_all_covers d s s' b : hash_all w cfg reads d (Dict N) s = (s', Ret b) → covers b ∧ current b (as_step s) (as_step s').
Proof.
  unfold hash_all. intros E. apply bind_returns in E as (facts & s1 & E & Er). unfold mret, pym_ret in Er. injection Er as <- <-.
  apply (map_each_returns _ (fun me mf i j => me.1 = mf.1 ∧ Forall2 (fun e f => accepted e f ∧ hashed w cfg e f ∧ seen_in w cfg i j e f) me.2 mf.2)) in E.
  - assert (∀ id es, Dict N !! id = Some es → ∃ fs, Dict facts !! id = Some fs ∧
      Forall2 (fun e f => accepted e f ∧ hashed w cfg e f ∧ seen_in w cfg (as_step s) (as_step s1) e f) es fs) as Hall.
    { intros id es Hes%nodup_lookup; [|done]. assert ((id, es) ∈ sorted_items (Dict N)) as Hin by (by rewrite sorted_items_perm).
      assert (NoDup (sorted_items (Dict N)).*1) as Hsd by (by rewrite sorted_items_perm).
      assert ((sorted_items (Dict N)).*1 = facts.*1) as Hk.
      { clear -E. induction E as [|a b l l' (i & j & _ & _ & Hk & _) HF IH]; [done|]. cbn. by rewrite Hk, IH. }
      apply list_elem_of_lookup in Hin as [k Hk1]. destruct (Forall2_lookup_l _ _ _ _ _ E Hk1) as ([id' fs] & Hf & i & j & Hi & Hj & Hid & HF).
      cbn in Hid. subst id'. exists fs. split.
      - apply nodup_lookup; [by rewrite <-Hk|]. by eapply list_elem_of_lookup_2.
      - eapply Forall2_impl; [exact HF|]. cbn. intros e f (? & ? & ?). split_and!; try done. eapply seen_in_weaken; [..|done]; lia. }
    split.
    + intros id es Hes. destruct (Hall id es Hes) as (fs & Hfs & HF). exists fs. split; [done|]. eapply Forall2_impl; [exact HF|]. naive_solver.
    + intros id es fs e f Hes Hfs Hef. destruct (Hall id es Hes) as (fs' & Hfs' & HF). rewrite Hfs in Hfs'. injection Hfs' as <-.
      apply list_elem_of_lookup in Hef as [k Hk]. rewrite Forall2_lookup in HF. apply combine_lookup in Hk as [H1 H2]. specialize (HF k). rewrite H1, H2 in HF. inversion HF; subst. naive_solver.
  - intros a. apply ro_bind; [|intros; apply ro_ret]. apply ro_map_each. intros e. apply ro_hash_asset.
  - intros [id es] t t' [id' fs] Et. apply bind_returns in Et as (fs' & t1 & Et & Er). unfold mret, pym_ret in Er. injection Er as <- <- <-. split; [done|]. cbn [snd].
    apply (map_each_returns _ (fun e f i j => accepted e f ∧ hashed w cfg e f ∧ seen_in w cfg i j e f)) in Et.
    + eapply Forall2_impl; [exact Et|]. cbn. intros e f (i & j & ? & ? & ? & ? & ?). split_and!; try done. eapply seen_in_weaken; [..|done]; lia.
    + intros e. apply ro_hash_asset.
    + intros e u u' f. apply hash_asset_returns.
Qed.

Lemma stat_all_current b s s' facts : covers b →
  map_each (sorted_items b) (stat_model w cfg (Dict N)) s = (s', Ret facts) → current b (as_step s) (as_step s').
Proof.
  intros Hc E. apply (map_each_returns _ (fun mk _ i j => ∀ es e k, Dict N !! mk.1 = Some es → (e, k) ∈ combine es mk.2 → seen_in w cfg i j e k)) in E.
  - intros id es fs e f Hes Hfs Hef. assert ((id, fs) ∈ sorted_items b) as Hin.
    { rewrite sorted_items_perm. destruct b as [l]. clear -Hfs. change (assoc id l = Some fs) in Hfs. cbn [entries]. induction l as [|[k v] l IH]; [done|].
      cbn [assoc] in Hfs. case_decide; [injection Hfs as ->; subst; by left|right; by apply IH]. }
    apply list_elem_of_lookup in Hin as [k Hk]. destruct (Forall2_lookup_l _ _ _ _ _ E Hk) as (r & _ & i & j & Hi & Hj & HQ).
    eapply seen_in_weaken; [..|exact (HQ es e f Hes Hef)]; lia.
  - intros mk. apply ro_stat_model.
  - intros [id ks] t t' r Et es e k Hes Hek. unfold stat_model in Et. cbn [fst snd] in *. rewrite Hes in Et. cbn [of_option] in Et.
    apply bind_returns in Et as (? & ? & Et & E2). unfold lift in Et. injection Et as <- <-. apply bind_returns in E2 as (fs & t1 & E2 & Er).
    unfold mret, pym_ret in Er. injection Er as <- _.
    apply (map_each_returns _ (fun ek _ i j => seen_in w cfg i j ek.1 ek.2)) in E2.
    + apply list_elem_of_lookup in Hek as [i Hi]. destruct (Forall2_lookup_l _ _ _ _ _ E2 Hi) as (f & _ & i0 & j0 & ? & ? & Hs).
      eapply seen_in_weaken; [..|exact Hs]; lia.
    + intros ek. apply ro_stat_asset.
    + intros ek u u' f Eu. by apply stat_asset_sees in Eu as (_ & _ & ?).
Qed.

(** What a call of the store leaves and shows. *)
Definition pass_ok (s : AssetStore) (r : AssetStore * outcome AssetSnapshot) : Prop :=
  store_ok r.1 ∧ (as_step s ≤ as_step r.1)%nat ∧
  ∀ sn, r.2 = Ret sn → sn_ready sn = true → ∃ b, as_baseline r.1 = Some b ∧ covers b ∧ current b (as_step s) (as_step r.1).

Lemma close_ok st m now s : st ≠ VERIFIED → pass_ok s (close_with st m now s).
Proof.
  intros Hst. split_and!; cbn; [|done|].
  - split; [|by intros]. cbn. split; [done|by intros [? ?]].
  - intros sn [= <-]. unfold sn_ready. cbn. by rewrite bool_decide_eq_false_2.
Qed.
Lemma observe_handler_ok now e k s : observe_handler now e = Some k → pass_ok s (k s).
Proof. destruct e; cbn; intros [=]; subst; by apply close_ok. Qed.
Lemma verify_handler_ok now e k s : verify_handler now e = Some k → pass_ok s (k s).
Proof. destruct e; cbn; intros [=]; subst; by apply close_ok. Qed.

Lemma catch_ok (m : pym AssetStore AssetSnapshot) h s :
  pass_ok s (m s) → (∀ e k s1, h e = Some k → pass_ok s1 (k s1)) → pass_ok s (catch m h s).
Proof.
  intros Hm Hh. unfold catch. destruct (m s) as [s1 [a|e]] eqn:E; [done|]. destruct (h e) as [k|] eqn:Ek; [|done].
  destruct Hm as (_ & Hs & _). destruct (Hh e k s1 Ek) as (Ho & Hs2 & Hr). cbn in *. split_and!; [done|lia|].
  intros sn Hsn Hrd. destruct (Hr sn Hsn Hrd) as (b & Hb & Hc & Hcur). exists b. split_and!; try done.
  intros id es fs e' f H1 H2 H3. eapply seen_in_weaken; [..|exact (Hcur id es fs e' f H1 H2 H3)]; lia.
Qed.
Lemma pass_raise s s' e : store_ok s → same_store s s' → pass_ok s (s', Raise e).
Proof. intros Hs Hss. split_and!; [by eapply store_ok_same|apply Hss|by intros]. Qed.

Lemma full_pass_ok now s : as_entries_ s = Dict N → store_ok s → pass_ok s (full_pass w cfg reads now s).
Proof.
  intros HE Hs. unfold full_pass. unfold mbind at 1, pym_bind at 1. pose proof (ro_check_mount w cfg s) as Hm.
  destruct (check_mount w cfg s) as [s1 [u|e]]; cbn [fst] in Hm; [|by apply pass_raise].
  unfold mbind at 1, pym_bind at 1, get. cbn iota beta. unfold mbind at 1, pym_bind at 1.
  assert (as_entries_ s1 = Dict N) as HE1 by (destruct Hm as (_ & <- & _); done). rewrite HE1.
  pose proof (ro_hash_all w cfg reads (now + verify_timeout cfg) (Dict N) s1) as Hh.
  destruct (hash_all w cfg reads (now + verify_timeout cfg) (Dict N) s1) as [s2 [b|e]] eqn:Eh; cbn [fst] in Hh;
    [|apply pass_raise; [done|by eapply same_trans]].
  apply hash_all_covers in Eh as [Hc Hcur].
  change (pass_ok s (s2 <| as_baseline := Some b |> <| as_state := VERIFIED |>, Ret (snapshot_ VERIFIED None now b))).
  assert (as_step s ≤ as_step s1)%nat by apply Hm. assert (as_step s1 ≤ as_step s2)%nat by apply Hh. split_and!; cbn.
  - split; cbn; [split; [by eexists|done]|]. intros b' [= <-]. split; [|done]. destruct Hh as (_ & HE2 & _). cbn. congruence.
  - lia.
  - intros sn [= <-] _. exists b. split_and!; try done. intros id es fs e f L1 L2 L3. eapply seen_in_weaken; [..|exact (Hcur id es fs e f L1 L2 L3)]; lia.
Qed.

Lemma metadata_pass_ok now b s : as_baseline s = Some b → store_ok s → pass_ok s (metadata_pass w cfg now b s).
Proof.
  intros Hb Hs. unfold metadata_pass. unfold mbind at 1, pym_bind at 1. pose proof (ro_check_mount w cfg s) as Hm.
  destruct (check_mount w cfg s) as [s1 [u|e]]; cbn [fst] in Hm; [|by apply pass_raise].
  unfold mbind at 1, pym_bind at 1, get. cbn iota beta. unfold mbind at 1, pym_bind at 1.
  destruct (proj2 Hs b Hb) as [HE Hc]. assert (as_entries_ s1 = Dict N) as HE1 by (destruct Hm as (_ & <- & _); done). rewrite HE1.
  assert (reads_only (map_each (sorted_items b) (stat_model w cfg (Dict N)))) as Hro by (apply ro_map_each; intros; apply ro_stat_model).
  specialize (Hro s1). destruct (map_each (sorted_items b) (stat_model w cfg (Dict N)) s1) as [s2 [facts|e]] eqn:Eh; cbn [fst] in Hro;
    [|apply pass_raise; [done|by eapply same_trans]].
  apply (stat_all_current b) in Eh; [|done]. pose proof (same_trans _ _ _ Hm Hro) as (G1 & G2 & G3 & G4).
  change (pass_ok s (s2 <| as_state := VERIFIED |>, Ret (snapshot_ VERIFIED None now (Dict facts)))).
  assert (as_step s ≤ as_step s1)%nat by apply Hm. split_and!; cbn.
  - split; cbn; [split; [rewrite <-G3, Hb; by eexists|done]|]. intros b'. rewrite <-G3, <-G2. apply Hs.
  - done.
  - intros sn [= <-] _. exists b. split_and!; [congruence|done|]. intros id es fs e f E1 E2 E3. eapply seen_in_weaken; [..|exact (Eh id es fs e f E1 E2 E3)]; lia.
Qed.

Lemma now_step s : ∃ s1, now_ w s = (s1, Ret (at_time (w (as_step s)))) ∧ same_store s s1 ∧ as_step s1 = S (as_step s).
Proof. eexists. split; [reflexivity|]. split; [|done]. split_and!; try done. apply Nat.le_succ_diag_r. Qed.
Lemma pass_later s s1 r : (as_step s ≤ as_step s1)%nat → pass_ok s1 r → pass_ok s r.
Proof.
  intros Hle (Ho & Hs & Hr). split_and!; [done|lia|]. intros sn Hsn Hrd. destruct (Hr sn Hsn Hrd) as (b & Hb & Hc & Hcur). exists b. split_and!; try done.
  intros id es fs e f L1 L2 L3. eapply seen_in_weaken; [..|exact (Hcur id es fs e f L1 L2 L3)]; lia.
Qed.

Lemma observe_ok s : store_ok s → pass_ok s (observe w cfg s).
Proof.
  intros Hs. unfold observe. unfold mbind at 1, pym_bind at 1. destruct (now_step s) as (s1 & -> & Hss & Hst).
  assert (store_ok s1) as Hs1 by (by eapply store_ok_same). apply (pass_later s s1); [lia|].
  unfold mbind at 1, pym_bind at 1, get. cbn iota beta. destruct (as_baseline s1) as [b|] eqn:Eb.
  - apply catch_ok; [by apply metadata_pass_ok|]. intros e k s2. apply observe_handler_ok.
  - split_and!; [done|done|]. intros sn Hsn Hrd. exfalso. unfold mret, pym_ret in Hsn. cbn in Hsn. injection Hsn as <-.
    unfold sn_ready in Hrd. apply bool_decide_eq_true in Hrd. cbn in Hrd. apply Hs1 in Hrd as [b Hb]. congruence.
Qed.
Lemma verify_ok s : store_ok s → pass_ok s (verify w cfg reads (Some (as_values N)) s).
Proof.
  intros Hs. unfold verify. destruct (renormalize models N HN) as [E|E]; rewrite E.
  2:{ apply (pass_raise s s _ Hs). split_and!; done. }
  unfold mbind at 1, pym_bind at 1. change ((lift (Ret N) ≫= λ normalized, modify (fun s => s <| as_entries_ := Dict normalized |>)) s)
    with (s <| as_entries_ := Dict N |>, Ret tt). cbn iota beta.
  set (s0 := s <| as_entries_ := Dict N |>). assert (store_ok s0) as Hs0.
  { split; [apply Hs|]. intros b Hb. split; [done|]. by apply Hs. }
  unfold mbind at 1, pym_bind at 1. destruct (now_step s0) as (s1 & -> & Hss & Hst).
  apply (pass_later s s1); [rewrite Hst; apply Nat.le_succ_diag_r|]. apply catch_ok; [|intros e k s2; apply verify_handler_ok].
  apply full_pass_ok; [by destruct Hss as (_ & <- & _)|by eapply store_ok_same].
Qed.

(** What a check of the monitor leaves and shows. *)
Definition check_ok (s : AssetStore) (r : AssetStore * outcome StorageSnapshot) : Prop :=
  store_ok r.1 ∧ (as_step s ≤ as_step r.1)%nat ∧
  ∀ sn, r.2 = Ret sn → ss_ready sn = true → ∃ b, as_baseline r.1 = Some b ∧ covers b ∧ current b (as_step s) (as_step r.1).

Lemma run_monitor_ok force s : store_ok s → check_ok s (run_monitor w cfg reads models force s).
Proof.
  intros Hs. unfold run_monitor. unfold mbind at 1, pym_bind at 1. destruct (now_step s) as (s1 & -> & Hss & Hst).
  assert (store_ok s1) as Hs1 by (by eapply store_ok_same). rewrite HN.
  assert (pass_ok s1 (monitor_pass w cfg reads force N s1 s1)) as Hp by (unfold monitor_pass; destruct (_ && _); [by apply observe_ok|by apply verify_ok]).
  unfold catch. unfold mbind at 1, pym_bind at 1, lift. cbn iota beta. unfold mbind at 1, pym_bind at 1, get. cbn iota beta.
  unfold mbind at 1, pym_bind at 1. destruct Hp as (Ho & Hstep & Hr). destruct (monitor_pass w cfg reads force N s1 s1) as [s2 [sn|e]] eqn:Ep; cbn [fst snd] in *.
  - cbn. split_and!; [done|cbn; lia|]. cbn. intros sn' [= <-] Hrd. unfold to_snapshot in Hrd. destruct (sn_ready sn) eqn:En; [|done].
    destruct (Hr sn eq_refl En) as (b & Hb & Hc & Hcur). exists b. split_and!; try done.
    intros id es fs e f L1 L2 L3. eapply seen_in_weaken; [..|exact (Hcur id es fs e f L1 L2 L3)]; lia.
  - destruct e; cbn; (split_and!; [done|cbn; lia|]); cbn; try (by intros); intros sn [= <-]; done.
Qed.

(** ** The guard *)
Context (interval : time) (Hint : 0 < interval).

(** The states the calls of the guard lead to, raised errors included. *)
Inductive guard_reach : Guard → Prop :=
| reach_new : guard_reach {| g_store := AssetStore_init; g_last_check_at := None; g_last_snapshot := None |}
| reach_call g : guard_reach g → guard_reach (guard_call w cfg reads models interval g).1.

(** A check that began at a clock reading saw every asset as it was hashed. *)
Definition checked (k : nat) (t : time) (n : nat) : Prop :=
  t = at_time (w k) ∧ (k < n)%nat ∧ ∃ b, covers b ∧ current b k n.
Definition guard_ok (g : Guard) : Prop :=
  store_ok (g_store g) ∧
  ∀ sn, g_last_snapshot g = Some sn → ∃ t, g_last_check_at g = Some t ∧ (ss_ready sn = true → ∃ k, checked k t (as_step (g_store g))).

Lemma checked_later k t n n' : (n ≤ n')%nat → checked k t n → checked k t n'.
Proof.
  intros Hn (-> & Hk & b & Hc & Hcur). split_and!; [done|lia|]. exists b. split; [done|].
  intros id es fs e f L1 L2 L3. eapply seen_in_weaken; [..|exact (Hcur id es fs e f L1 L2 L3)]; lia.
Qed.

Lemma guard_check_run g now s2 o : run_monitor w cfg reads models false (g_store g) = (s2, o) →
  guard_check w cfg reads models now g =
  match o with
  | Ret sn => (g <| g_store := s2 |> <| g_last_snapshot := Some sn |> <| g_last_check_at := Some now |>, Ret (ss_ready sn))
  | Raise e => (g <| g_store := s2 |>, Raise e)
  end.
Proof. intros E. unfold guard_check, check, in_store, on_field, mbind, pym_bind. rewrite E. by destruct o. Qed.

Lemma guard_check_ok g k : guard_ok g → (k < as_step (g_store g))%nat →
  let r := guard_check w cfg reads models (at_time (w k)) g in
  guard_ok r.1 ∧ (as_step (g_store g) ≤ as_step (g_store r.1))%nat ∧
  (r.2 = Ret true → checked k (at_time (w k)) (as_step (g_store r.1))).
Proof.
  intros [Hs Hl] Hk. pose proof (run_monitor_ok false (g_store g) Hs) as (Ho & Hstep & Hr).
  destruct (run_monitor w cfg reads models false (g_store g)) as [s2 o] eqn:E. rewrite (guard_check_run g _ s2 o E). destruct o as [sn|e]; cbn [fst snd] in *.
  - assert (ss_ready sn = true → checked k (at_time (w k)) (as_step s2)) as Hc.
    { intros Hrd. destruct (Hr sn eq_refl Hrd) as (b & Hb & Hc & Hcur). split_and!; [done|lia|]. exists b. split; [done|].
      intros id es fs e f L1 L2 L3. eapply seen_in_weaken; [..|exact (Hcur id es fs e f L1 L2 L3)]; lia. }
    split_and!; [|done|intros [= ?]; by apply Hc]. split; [done|]. cbn. intros sn' [= <-]. eexists. split; [done|]. intros Hrd. exists k. by apply Hc.
  - cbn. split_and!; [|done|done]. split; [done|]. cbn. intros sn' Hsn. destruct (Hl sn' Hsn) as (t & Ht & Hc). exists t. split; [done|].
    intros Hrd. destruct (Hc Hrd) as [k' Hk']. exists k'. by eapply checked_later.
Qed.

(** The guard after it read the clock. *)
Definition bump (g : Guard) : Guard := g <| g_store := (g_store g) <| as_step := S (as_step (g_store g)) |> |>.
Lemma guard_call_run g : let now := at_time (w (as_step (g_store g))) in
  guard_call w cfg reads models interval g =
  match g_last_snapshot g with
  | Some s => if within_interval interval g now then (bump g, Ret (ss_ready s)) else guard_check w cfg reads models now (bump g)
  | None => guard_check w cfg reads models now (bump g)
  end.
Proof.
  cbv zeta. change (guard_call w cfg reads models interval g) with
    (match g_last_snapshot (bump g) with
     | Some s => if within_interval interval (bump g) (at_time (w (as_step (g_store g)))) then mret (ss_ready s) else guard_check w cfg reads models (at_time (w (as_step (g_store g))))
     | None => guard_check w cfg reads models (at_time (w (as_step (g_store g))))
     end (bump g)).
  change (g_last_snapshot (bump g)) with (g_last_snapshot g). destruct (g_last_snapshot g) as [s|]; [|done].
  change (within_interval interval (bump g)) with (within_interval interval g). by destruct (within_interval interval g _).
Qed.

Lemma bump_ok g : guard_ok g → guard_ok (bump g).
Proof.
  intros [Hs Hl]. split; [eapply store_ok_same; [|exact Hs]; split_and!; try done; apply Nat.le_succ_diag_r|].
  intros sn Hsn. destruct (Hl sn Hsn) as (t & Ht & Hc). exists t. split; [done|].
  intros Hrd. destruct (Hc Hrd) as [k' Hk']. exists k'. eapply checked_later; [|done]. apply Nat.le_succ_diag_r.
Qed.

Definition call_ok (g : Guard) (r : Guard * outcome bool) : Prop :=
  guard_ok r.1 ∧ (r.2 = Ret true → ∃ k t, checked k t (as_step (g_store r.1)) ∧ at_time (w (as_step (g_store g))) - t < interval).
Lemma guard_call_ok g : guard_ok g → call_ok g (guard_call w cfg reads models interval g).
Proof.
  intros Hg. rewrite guard_call_run. pose proof (bump_ok g Hg) as Hb.
  assert (call_ok g (guard_check w cfg reads models (at_time (w (as_step (g_store g)))) (bump g))) as Hcheck.
  { destruct (guard_check_ok (bump g) (as_step (g_store g)) Hb) as (Q1 & _ & Q3); [apply Nat.lt_succ_diag_r|]. split; [done|].
    intros Hr. eexists _, _. split; [by apply Q3|]. lia. }
  destruct (g_last_snapshot g) as [sn|] eqn:Esn; [|done]. destruct (within_interval interval g _) eqn:Ew; [|done].
  split; [done|]. cbn [fst snd]. intros [= Hrd]. destruct (proj2 Hb sn Esn) as (t & Ht & Hc). destruct (Hc Hrd) as [k Hk].
  exists k, t. split; [done|]. unfold within_interval in Ew. change (g_last_check_at (bump g)) with (g_last_check_at g) in Ht. rewrite Ht in Ew. by apply Z.ltb_lt in Ew.
Qed.

Lemma guard_reach_ok g : guard_reach g → guard_ok g.
Proof.
  induction 1 as [|g _ IH]; [|by apply guard_call_ok]. split; [|done]. split; [|done]. cbn. split; [done|by intros [? ?]].
Qed.
End Monitor.

(** C37: whatever the file system, the mount table and the clock do between any
    two system calls, a positive answer of the storage guard means that a check
    began less than one sampling interval ago and saw every asset of every
    registered model: it opened the directories of the asset's registered path one
    by one from the model directory on, following no link, and under the asset's
    name in the last of them found a regular file whose inode, size and
    modification time are those of a full pass, in which the file opened at the
    same registered path was read to its end as one unchanged object and its size
    and digest were the registered ones. *)
Theorem guard_ready_hashed `{Digest} w cfg reads models N interval g g' :
  normalize_all models = Ret N → NoDup N.*1 → 0 < interval →
  guard_reach w cfg reads models interval g →
  guard_call w cfg reads models interval g = (g', Ret true) →
  ∃ k (b : dict string (list AssetFact)), at_time (w (as_step (g_store g))) - at_time (w k) < interval ∧ (k < as_step (g_store g'))%nat ∧
    ∀ id es, Dict N !! id = Some es → ∃ fs, b !! id = Some fs ∧
      Forall2 (fun e f => accepted e f ∧ hashed w cfg e f ∧ seen_in w cfg k (as_step (g_store g')) e f) es fs.
Proof.
  intros HN Hnd Hi Hg E. apply (guard_reach_ok w cfg reads models N HN Hnd interval Hi) in Hg.
  apply (guard_call_ok w cfg reads models N HN Hnd interval Hi) in Hg as (_ & Hr). rewrite E in Hr. cbn [fst snd] in Hr.
  destruct (Hr eq_refl) as (k & t & (-> & Hk & b & Hc & Hcur) & Hlt). exists k, b. split_and!; [done|done|]. intros id es Hes.
  destruct (Hc id es Hes) as (fs & Hfs & HF). exists fs. split; [done|]. rewrite Forall2_lookup. intros i. rewrite Forall2_lookup in HF. specialize (HF i).
  destruct (es !! i) as [e|] eqn:Ee, (fs !! i) as [f|] eqn:Ef; inversion HF as [? ? [Ha Hh]|]; subst; constructor. split_and!; [done|done|].
  apply (Hcur id es fs e f Hes Hfs). apply list_elem_of_lookup. exists i. by apply combine_lookup_2.
Qed.
