(* ===== verification/AssetsExact.v ===== *)
(** * The verdict of a full pass over files at rest

    When nothing on disk changes during a pass and it ends in time, the pass
    succeeds exactly when the mount is the expected one and every registered
    path leads, through directories only, to a regular file with the registered
    size and digest. *)

From S2P Require Import Prelude Text Dict Contracts Registration RegistrationProps JsonText Identity Assets AssetsProps.
From Stdlib Require Import Ascii.
Local Open Scope Z_scope.

(** ** The reference *)

(** A walk through directories. *)
Fixpoint resolve (fs : Fs) (dir : Z) (parts : list string) : option Z :=
  match parts with
  | [] => Some dir
  | name :: parts =>
      ino ← child fs dir name;
      node ← fs_inode fs ino;
      match node with Directory _ => resolve fs ino parts | _ => None end
  end.
Record File := { file_ino : Z; file_size : Z; file_mtime_ns : Z; file_data : string }.
Definition regular_file (fs : Fs) (ino : Z) : option File :=
  node ← fs_inode fs ino;
  match node with
  | Regular size mtime data => Some {| file_ino := ino; file_size := size; file_mtime_ns := mtime; file_data := data |}
  | _ => None
  end.
Definition model_root (fs : Fs) (cfg : StoreConfig) : option Z :=
  ino ← fs_lookup fs (model_directory cfg);
  node ← fs_inode fs ino;
  match node with Directory _ => Some ino | _ => None end.
Definition file_at (fs : Fs) (cfg : StoreConfig) (parts : list string) : option File :=
  root ← model_root fs cfg; dir ← resolve fs root (dirname parts); ino ← child fs dir (basename parts); regular_file fs ino.

Section Quiet.
Context `{Digest} (w : nat → World) (cfg : StoreConfig) (reads : nat) (fs : Fs) (fm : list string → outcome string) (T : time).
Context (Hfs : ∀ n, on_disk (w n) = fs) (Hfm : ∀ n, findmnt (w n) = fm) (HT : ∀ n, at_time (w n) ≤ T).

(** The registration of an asset holds of the disk. *)
Definition asset_matches (e : AssetEntry) (file : File) : Prop :=
  ∃ parts, split_path (ae_path e) = Ret parts ∧ file_at fs cfg parts = Some file ∧
    (∀ n, ae_size_bytes e = Some n → file_size file = n) ∧ (∀ h, ae_sha256 e = Some h → sha256_hex (file_data file) = h).
Definition mount_row (data : json) : Prop :=
  ∃ fields entry, data = JObj fields ∧ jget "filesystems" fields = Some (JList [JObj entry]) ∧
    jget "target" entry = Some (JStr (mount_path cfg)) ∧ jget "uuid" entry = Some (JStr (expected_uuid cfg)) ∧
    jget "fstype" entry = Some (JStr (filesystem cfg)).
Definition mount_matches : Prop :=
  ∃ raw data, fm ["findmnt"; "--json"; "--output"; FINDMNT_COLUMNS; "--target"; mount_path cfg] = Ret raw ∧
    loads plain_hooks raw = Ret data ∧ mount_row data ∧ is_Some (model_root fs cfg).

(** ** Methods whose result does not depend on the call's number *)
Definition computes {A} (m : pym AssetStore A) (o : outcome A) : Prop := ∀ s, ∃ n, m s = (s <| as_step := n |>, o).

Lemma computes_bind {A B} (m : pym AssetStore A) (k : A → pym AssetStore B) a o : computes m (Ret a) → computes (k a) o → computes (m ≫= k) o.
Proof. intros Hm Hk s. destruct (Hm s) as [n E]. destruct (Hk (s <| as_step := n |>)) as [n' E']. exists n'. unfold mbind, pym_bind. by rewrite E, E'. Qed.
Lemma computes_raise {A B} (m : pym AssetStore A) (k : A → pym AssetStore B) e : computes m (Raise e) → computes (m ≫= k) (Raise e).
Proof. intros Hm s. destruct (Hm s) as [n E]. exists n. unfold mbind, pym_bind. by rewrite E. Qed.
Lemma computes_ret {A} (a : A) : computes (mret a) (Ret a).
Proof. intros s. exists (as_step s). by destruct s. Qed.
Lemma computes_lift {A} (o : outcome A) : computes (lift o) o.
Proof. intros s. exists (as_step s). by destruct s. Qed.
Lemma computes_interact {B} (k : World → pym AssetStore B) o :
  (∀ v, on_disk v = fs → findmnt v = fm → at_time v ≤ T → computes (k v) o) → computes (interact w ≫= k) o.
Proof.
  intros Hk s. destruct (Hk (w (as_step s)) (Hfs _) (Hfm _) (HT _) (s <| as_step := S (as_step s) |>)) as [n E]. exists n.
  change ((interact w ≫= k) s) with (k (w (as_step s)) (s <| as_step := S (as_step s) |>)). by rewrite E.
Qed.
Lemma computes_fault {A B} r (o : option A) (k : A → pym AssetStore B) res :
  (∀ a, o = Some a → computes (k a) res) → is_Some o → computes (or_fault r o ≫= k) res.
Proof. intros Hk [a ->]. apply (computes_bind _ _ a); [apply computes_lift|by apply Hk]. Qed.

(** A method that finds what [o] is, or reports a fault. *)
Definition faults {A} (m : pym AssetStore A) : Prop := ∀ s, ∃ n r, m s = (s <| as_step := n |>, Raise (AssetFault r)).
Definition finds {A B} (m : pym AssetStore B) (o : option A) (f : A → B) : Prop :=
  match o with Some a => computes m (Ret (f a)) | None => faults m end.
Lemma faults_after {A B} (m : pym AssetStore A) (k : A → pym AssetStore B) a : computes m (Ret a) → faults (k a) → faults (m ≫= k).
Proof. intros Hm Hk s. destruct (Hm s) as [n E]. destruct (Hk (s <| as_step := n |>)) as (n' & r & E'). exists n', r. unfold mbind, pym_bind. by rewrite E, E'. Qed.
Lemma faults_bind {A B} (m : pym AssetStore A) (k : A → pym AssetStore B) : faults m → faults (m ≫= k).
Proof. intros Hm s. destruct (Hm s) as (n & r & E). exists n, r. unfold mbind, pym_bind. by rewrite E. Qed.
Lemma faults_interact {B} (k : World → pym AssetStore B) : (∀ v, on_disk v = fs → findmnt v = fm → at_time v ≤ T → faults (k v)) → faults (interact w ≫= k).
Proof.
  intros Hk s. destruct (Hk (w (as_step s)) (Hfs _) (Hfm _) (HT _) (s <| as_step := S (as_step s) |>)) as (n & r & E). exists n, r.
  change ((interact w ≫= k) s) with (k (w (as_step s)) (s <| as_step := S (as_step s) |>)). by rewrite E.
Qed.
Lemma faults_none {A} r : faults (@or_fault A r None).
Proof. intros s. exists (as_step s), r. by destruct s. Qed.
Lemma faults_true r : faults (fault_if true r).
Proof. intros s. exists (as_step s), r. by destruct s. Qed.
Lemma faults_raise {A} r : faults (@raise AssetStore A (AssetFault r)).
Proof. intros s. exists (as_step s), r. by destruct s. Qed.
Lemma faults_lift {A} r : faults (@lift AssetStore A (Raise (AssetFault r))).
Proof. intros s. exists (as_step s), r. by destruct s. Qed.
Lemma computes_some {A B} r (a : A) (k : A → pym AssetStore B) o : computes (k a) o → computes (or_fault r (Some a) ≫= k) o.
Proof. apply computes_bind, computes_lift. Qed.
Lemma computes_false {B} r (k : unit → pym AssetStore B) o : computes (k tt) o → computes (fault_if false r ≫= k) o.
Proof. apply computes_bind, computes_lift. Qed.
Lemma computes_ok {A B} (a : A) (k : A → pym AssetStore B) o : computes (k a) o → computes (lift (Ret a) ≫= k) o.
Proof. apply computes_bind, computes_lift. Qed.
Lemma faults_some {A B} r (a : A) (k : A → pym AssetStore B) : faults (k a) → faults (or_fault r (Some a) ≫= k).
Proof. apply faults_after, computes_lift. Qed.
Lemma faults_false {B} r (k : unit → pym AssetStore B) : faults (k tt) → faults (fault_if false r ≫= k).
Proof. apply faults_after, computes_lift. Qed.
Lemma faults_ok {A B} (a : A) (k : A → pym AssetStore B) : faults (k a) → faults (lift (Ret a) ≫= k).
Proof. apply faults_after, computes_lift. Qed.

(** Run a method whose tests are decided. *)
Ltac quiet :=
  repeat (cbn [id mbind option_bind open_directory open_file is_link is_dir is_reg st_kind st_ino st_size st_mtime_ns negb orb andb];
    first
    [ apply computes_ret | apply computes_lift
    | apply computes_interact; intros ? -> ? ? | apply computes_some | apply computes_false | apply computes_ok
    | apply faults_interact; intros ? -> ? ? | apply faults_some | apply faults_false | apply faults_ok
    | apply faults_none | apply faults_true | apply faults_raise | apply faults_lift
    | apply faults_bind, faults_none | apply faults_bind, faults_true | apply faults_bind, faults_lift ]);
  cbn [id mbind option_bind open_directory open_file is_link is_dir is_reg st_kind st_ino st_size st_mtime_ns negb orb andb].

(** ** The walk *)
Ltac quietly_with tac := repeat (progress quiet || tac).
Lemma walk_finds parts : ∀ dir, finds (walk w dir parts) (resolve fs dir parts) id.
Proof.
  induction parts as [|name parts IH]; intros dir; cbn [walk resolve]; [apply computes_ret|]. unfold lstat_at, stat_of.
  destruct (child fs dir name) as [ino|] eqn:Ec; [|cbn [mbind option_bind finds]; quietly_with ltac:(rewrite Ec)]. cbn [mbind option_bind].
  destruct (fs_inode fs ino) as [node|] eqn:En; cbn [mbind option_bind]; [|cbn [finds]; quietly_with ltac:(rewrite Ec || rewrite En)].
  destruct node as [sz mt data|children| |]; [cbn [finds]; quietly_with ltac:(rewrite Ec || rewrite En)| |cbn [finds]; quietly_with ltac:(rewrite Ec || rewrite En)..].
  specialize (IH ino). destruct (resolve fs ino parts); cbn [finds] in *; quietly_with ltac:(rewrite Ec || rewrite En); exact IH.
Qed.

Lemma open_parent_finds parts : finds (open_parent w cfg parts) (root ← model_root fs cfg; resolve fs root parts) id.
Proof.
  unfold open_parent, model_root, lstat_path, stat_of.
  destruct (fs_lookup fs (model_directory cfg)) as [ino|] eqn:El; cbn [mbind option_bind]; [|cbn [finds]; quietly_with ltac:(rewrite El)].
  destruct (fs_inode fs ino) as [[sz mt data|children| |]|] eqn:En; cbn [mbind option_bind]; try (cbn [finds]; quietly_with ltac:(rewrite El || rewrite En)).
  pose proof (walk_finds parts ino) as Hw. destruct (resolve fs ino parts); cbn [finds] in *; quietly_with ltac:(rewrite El || rewrite En); exact Hw.
Qed.

Definition stat_of_file (f : File) : Stat :=
  {| st_kind := Regular (file_size f) (file_mtime_ns f) (file_data f); st_ino := file_ino f; st_size := file_size f; st_mtime_ns := file_mtime_ns f |}.
Lemma regular_file_inode ino f : regular_file fs ino = Some f → fs_inode fs ino = Some (Regular (file_size f) (file_mtime_ns f) (file_data f)) ∧ file_ino f = ino.
Proof. unfold regular_file. destruct (fs_inode fs ino) as [[]|]; cbn; try done. by intros [= <-]. Qed.

Lemma lstat_asset_finds parts : finds (lstat_asset w cfg parts) (file_at fs cfg parts) stat_of_file.
Proof.
  unfold lstat_asset, file_at. pose proof (open_parent_finds (dirname parts)) as Hp.
  destruct (model_root fs cfg) as [root|]; cbn [mbind option_bind finds] in *; [|by apply faults_bind].
  destruct (resolve fs root (dirname parts)) as [dir|]; cbn [mbind option_bind finds] in *; [|by apply faults_bind].
  unfold lstat_at, stat_of. destruct (child fs dir (basename parts)) as [ino|] eqn:Ec; cbn [mbind option_bind].
  2:{ cbn [finds]. eapply faults_after; [exact Hp|]. quietly_with ltac:(rewrite Ec). }
  unfold regular_file. destruct (fs_inode fs ino) as [[sz mt data|children| |]|] eqn:En; cbn [mbind option_bind finds];
    first [eapply computes_bind; [exact Hp|]; quietly_with ltac:(rewrite Ec || rewrite En); done | eapply faults_after; [exact Hp|]; quietly_with ltac:(rewrite Ec || rewrite En)].
Qed.

(** ** The read loop *)
Lemma tick_computes d : T ≤ d → computes (tick w d) (Ret tt).
Proof.
  intros Hd s. exists (S (as_step s)).
  change (tick w d s) with (s <| as_step := S (as_step s) |>, raise_if (d <? at_time (w (as_step s))) (AssetTimeout "asset_verify_timeout")).
  by rewrite (proj2 (Z.ltb_ge d (at_time (w (as_step s))))) by (pose proof (HT (as_step s)); lia).
Qed.
Lemma hash_fd_computes d fd sz mt data fuel : T ≤ d → fs_inode fs fd = Some (Regular sz mt data) → ∀ pos,
  (Z.to_nat pos ≤ String.length data)%nat → 0 ≤ pos → Z.of_nat (String.length data) - pos ≤ (Z.of_nat fuel - 1) * READ_CHUNK_BYTES →
  computes (hash_file_descriptor w fuel d fd pos (String.substring 0 (Z.to_nat pos) data)) (Ret (sha256_hex data)).
Proof.
  intros Hd Hino. induction fuel as [|fuel IH]; intros pos Hle Hpos Hf; [unfold READ_CHUNK_BYTES in *; lia|]. cbn [hash_file_descriptor].
  eapply computes_bind; [by apply tick_computes|]. apply computes_interact. intros v -> _ _. unfold read_at. rewrite Hino.
  cbn [mbind option_bind of_option]. apply computes_ok.
  destruct (String.eqb _ "") eqn:Ee.
  - apply String.eqb_eq, (f_equal String.length) in Ee. rewrite substring_length in Ee.
    assert (String.length data ≤ Z.to_nat pos)%nat by (unfold READ_CHUNK_BYTES in Ee; change (String.length "") with 0%nat in Ee; lia).
    rewrite substring_full by done. apply computes_ret.
  - assert (Z.to_nat pos < String.length data)%nat as Hrest.
    { destruct (decide (Z.to_nat pos < String.length data)%nat) as [|Hno]; [done|]. apply String.eqb_neq in Ee. destruct Ee.
      apply length_nil. rewrite substring_length. lia. }
    rewrite substring_split. rewrite substring_length.
    destruct (decide (String.length data - Z.to_nat pos ≤ Z.to_nat READ_CHUNK_BYTES)%nat) as [Hlast|Hmore].
    + rewrite Nat.min_r by done. set (pos' := pos + Z.of_nat (String.length data - Z.to_nat pos)).
      assert (Z.to_nat pos' = String.length data) as Hp' by (unfold pos'; lia).
      replace (String.substring 0 (Z.to_nat pos + Z.to_nat READ_CHUNK_BYTES) data) with (String.substring 0 (Z.to_nat pos') data)
        by (rewrite !substring_full by lia; done).
      apply IH; unfold READ_CHUNK_BYTES in *; lia.
    + rewrite Nat.min_l by lia. replace (Z.to_nat pos + Z.to_nat READ_CHUNK_BYTES)%nat with (Z.to_nat (pos + Z.of_nat (Z.to_nat READ_CHUNK_BYTES))) by lia.
      apply IH; unfold READ_CHUNK_BYTES in *; lia.
Qed.

(** ** The full pass *)
Definition reads_suffice : Prop :=
  ∀ ino f, regular_file fs ino = Some f → Z.of_nat (String.length (file_data f)) ≤ (Z.of_nat reads - 1) * READ_CHUNK_BYTES.
Definition fact_of (e : AssetEntry) (f : File) : AssetFact :=
  {| af_role := ae_role e; af_path := ae_path e; af_inode := file_ino f; af_size_bytes := file_size f; af_mtime_ns := file_mtime_ns f;
     af_sha256 := Some (sha256_hex (file_data f)) |}.
(** The file of an entry whose registration holds. *)
Definition promised (e : AssetEntry) (f : File) : bool :=
  match ae_size_bytes e with Some n => file_size f =? n | None => true end
  && match ae_sha256 e with Some h => String.eqb (sha256_hex (file_data f)) h | None => true end.
Definition asset_file (e : AssetEntry) : option File :=
  match split_path (ae_path e) with
  | Ret parts => f ← file_at fs cfg parts; if promised e f then Some f else None
  | Raise _ => None
  end.
Lemma asset_file_matches e f : asset_file e = Some f ↔ asset_matches e f.
Proof.
  unfold asset_file, asset_matches, promised. destruct (split_path (ae_path e)) as [parts|x]; [|split; [done|by intros (? & ? & _)]].
  destruct (file_at fs cfg parts) as [g|] eqn:Eg; cbn [mbind option_bind]; [|split; [done|intros (? & [= <-] & E & _); by rewrite Eg in E]].
  destruct (_ && _) eqn:E.
  - apply andb_true_iff in E as [E1 E2]. split.
    + intros [= ->]. exists parts. split_and!; [done|done|intros n Hn; rewrite Hn in E1; by apply Z.eqb_eq|intros h Hh; rewrite Hh in E2; by apply String.eqb_eq].
    + intros (? & [= <-] & E & _). congruence.
  - split; [done|]. intros (? & [= <-] & Ef & Hn & Hh). rewrite Eg in Ef. injection Ef as ->. exfalso.
    apply andb_false_iff in E as [E|E]; [destruct (ae_size_bytes e) as [n|]|destruct (ae_sha256 e) as [h|]]; try done.
    + rewrite (Hn n eq_refl), Z.eqb_refl in E. done.
    + rewrite (Hh h eq_refl), String.eqb_refl in E. done.
Qed.
Lemma split_faults path : match split_path path with Raise x => ∃ r, x = AssetFault r | Ret _ => True end.
Proof. unfold split_path. destruct (_ || _); [by eexists|done]. Qed.

Lemma substring_none a : String.substring 0 0 a = "".
Proof. by destruct a. Qed.
Lemma fstat_computes ino f : regular_file fs ino = Some f → computes (fstat w ino) (Ret (stat_of_file f)).
Proof.
  intros [En Hi]%regular_file_inode. unfold fstat. apply computes_interact. intros v -> _ _. unfold stat_of. rewrite En. cbn [mbind option_bind of_option].
  unfold stat_of_file. rewrite Hi. apply computes_lift.
Qed.
Ltac through H := first [eapply computes_bind; [exact H|] | eapply faults_after; [exact H|]].

Lemma hash_asset_finds d e : T ≤ d → reads_suffice → finds (hash_asset w cfg reads d e) (asset_file e) (fact_of e).
Proof.
  intros Hd Hr. unfold hash_asset, asset_file. pose proof (split_faults (ae_path e)) as Hsp. pose proof (tick_computes d Hd) as Ht.
  destruct (split_path (ae_path e)) as [parts|x]; [|destruct Hsp as [r ->]; eapply faults_after; [exact Ht|]; apply faults_bind, faults_lift].
  pose proof (lstat_asset_finds parts) as Hl. destruct (file_at fs cfg parts) as [f|] eqn:Ef; cbn [mbind option_bind finds] in *.
  2:{ eapply faults_after; [exact Ht|]. apply faults_ok. by apply faults_bind. }
  pose proof (open_parent_finds (dirname parts)) as Hp. unfold file_at in Ef.
  destruct (model_root fs cfg) as [root|]; [|done]. cbn [mbind option_bind finds] in *. destruct (resolve fs root (dirname parts)) as [dir|]; [|done].
  cbn [mbind option_bind finds] in *. destruct (child fs dir (basename parts)) as [ino|] eqn:Ec; [|done]. cbn [mbind option_bind] in Ef.
  pose proof (Hr ino f Ef) as Hlen. pose proof (fstat_computes ino f Ef) as Hst. apply regular_file_inode in Ef as [En Hino].
  pose proof (hash_fd_computes d ino _ _ _ reads Hd En 0 ltac:(lia) ltac:(lia) ltac:(lia)) as Hh. change (Z.to_nat 0) with 0%nat in Hh. rewrite substring_none in Hh.
  assert (identity_of (stat_of_file f) = identity_of (stat_of_file f)) as Hid by done.
  unfold promised. destruct (ae_size_bytes e) as [n|] eqn:Es; destruct (ae_sha256 e) as [h|] eqn:Eh;
    [destruct (file_size f =? n) eqn:E1, (String.eqb (sha256_hex (file_data f)) h) eqn:E2|destruct (file_size f =? n) eqn:E1|destruct (String.eqb (sha256_hex (file_data f)) h) eqn:E2|];
    cbn [andb finds]; (through Ht; first [apply computes_ok|apply faults_ok]; through Hl; through Hp; quiet; unfold lstat_at, stat_of; rewrite Ec; cbn [mbind option_bind];
      rewrite En; cbn [mbind option_bind open_file is_link st_kind st_ino]; quiet; through Hst; through Hh; through Hst; rewrite !(bool_decide_eq_true_2 _ Hid); quiet;
      cbn [stat_of_file st_size]; rewrite ?E1, ?E2; quiet).
Qed.

Lemma finds_map {A B} (f : A → pym AssetStore B) (o : A → option B) l : (∀ a, finds (f a) (o a) id) → finds (map_each l f) (mapM o l) id.
Proof.
  intros Hf. induction l as [|a l IH]; cbn [map_each mapM]; [apply computes_ret|]. specialize (Hf a).
  destruct (o a) as [b|]; cbn [mbind option_bind finds] in *; [|by apply faults_bind].
  destruct (mapM o l) as [bs|]; cbn [mbind option_bind finds] in *.
  - eapply computes_bind; [exact Hf|]. eapply computes_bind; [exact IH|]. apply computes_ret.
  - eapply faults_after; [exact Hf|]. by apply faults_bind.
Qed.
Definition fact_opt (e : AssetEntry) : option AssetFact := fact_of e <$> asset_file e.
Definition model_facts (me : string * list AssetEntry) : option (string * list AssetFact) := pair me.1 <$> mapM fact_opt me.2.
Lemma hash_all_finds d es : T ≤ d → reads_suffice → finds (hash_all w cfg reads d es) (Dict <$> mapM model_facts (sorted_items es)) id.
Proof.
  intros Hd Hr. unfold hash_all. assert (finds (map_each (sorted_items es) (fun me => fs ← map_each me.2 (hash_asset w cfg reads d); mret (me.1, fs))) (mapM model_facts (sorted_items es)) id) as Hm.
  { apply finds_map. intros [m l]. unfold model_facts. cbn [fst snd].
    assert (finds (map_each l (hash_asset w cfg reads d)) (mapM fact_opt l) id) as Hl.
    { apply finds_map. intros e. pose proof (hash_asset_finds d e Hd Hr) as He. unfold fact_opt. destruct (asset_file e); exact He. }
    destruct (mapM fact_opt l); cbn [fmap option_fmap option_map finds] in *; [eapply computes_bind; [exact Hl|apply computes_ret]|by apply faults_bind]. }
  destruct (mapM model_facts (sorted_items es)); cbn [fmap option_fmap option_map finds] in *; [eapply computes_bind; [exact Hm|apply computes_ret]|by apply faults_bind].
Qed.

(** *** The mount *)
Definition stops {A} (m : pym AssetStore A) : Prop := ∀ s, ∃ n e, m s = (s <| as_step := n |>, Raise e).
Lemma stops_bind {A B} (m : pym AssetStore A) (k : A → pym AssetStore B) : stops m → stops (m ≫= k).
Proof. intros Hm s. destruct (Hm s) as (n & r & E). exists n, r. unfold mbind, pym_bind. by rewrite E. Qed.
Lemma stops_after {A B} (m : pym AssetStore A) (k : A → pym AssetStore B) a : computes m (Ret a) → stops (k a) → stops (m ≫= k).
Proof. intros Hm Hk s. destruct (Hm s) as [n E]. destruct (Hk (s <| as_step := n |>)) as (n' & r & E'). exists n', r. unfold mbind, pym_bind. by rewrite E, E'. Qed.
Lemma stops_lift {A} e : stops (@lift AssetStore A (Raise e)).
Proof. intros s. exists (as_step s), e. by destruct s. Qed.
Lemma stops_faults {A} (m : pym AssetStore A) : faults m → stops m.
Proof. intros Hm s. destruct (Hm s) as (n & r & E). by exists n, (AssetFault r). Qed.
Lemma stops_interact {B} (k : World → pym AssetStore B) : (∀ v, on_disk v = fs → findmnt v = fm → stops (k v)) → stops (interact w ≫= k).
Proof.
  intros Hk s. destruct (Hk (w (as_step s)) (Hfs _) (Hfm _) (s <| as_step := S (as_step s) |>)) as (n & r & E). exists n, r.
  change ((interact w ≫= k) s) with (k (w (as_step s)) (s <| as_step := S (as_step s) |>)). by rewrite E.
Qed.
Lemma is_jstr_true v s : is_jstr v s = true ↔ v = JStr s.
Proof. destruct v; cbn; try done. rewrite String.eqb_eq. naive_solver. Qed.
Lemma default_jstr o s : default JNull o = JStr s ↔ o = Some (JStr s).
Proof. destruct o; cbn; naive_solver. Qed.

(** The directory test at the end of the mount check. *)
Lemma root_directory r r' : finds (directory ← or_fault r (lstat_path fs (model_directory cfg)); fault_if (is_link directory || negb (is_dir directory)) r') (model_root fs cfg) (fun _ => tt).
Proof.
  unfold lstat_path, stat_of, model_root. destruct (fs_lookup fs (model_directory cfg)) as [ino|]; cbn [mbind option_bind finds]; [|quiet].
  destruct (fs_inode fs ino) as [[]|]; cbn [mbind option_bind finds]; quiet.
Qed.
Definition mount_tail (data : json) : pym AssetStore unit :=
  filesystems ← lift (jfield data "filesystems");
  match filesystems with
  | JList [entry] =>
      target ← lift (jfield entry "target");
      _ ← fault_if (negb (is_jstr target (mount_path cfg))) "mount_not_found";
      uuid ← lift (jfield entry "uuid");
      fstype ← lift (jfield entry "fstype");
      _ ← fault_if (negb (is_jstr uuid (expected_uuid cfg) && is_jstr fstype (filesystem cfg))) "mount_identity_mismatch";
      v ← interact w;
      directory ← or_fault "model_directory_unsafe" (lstat_path (on_disk v) (model_directory cfg));
      fault_if (is_link directory || negb (is_dir directory)) "model_directory_unsafe"
  | _ => raise (AssetFault "mount_not_found")
  end.
Lemma stops_true {B} b r (k : unit → pym AssetStore B) : b = true → stops (fault_if b r ≫= k).
Proof. intros ->. apply stops_bind, stops_faults, faults_true. Qed.
Lemma stops_raise {A} e : stops (@raise AssetStore A e).
Proof. intros s. exists (as_step s), e. by destruct s. Qed.

Lemma mount_tail_decides data :
  mount_row data ∧ is_Some (model_root fs cfg) ∧ computes (mount_tail data) (Ret tt) ∨ ¬ (mount_row data ∧ is_Some (model_root fs cfg)) ∧ stops (mount_tail data).
Proof.
  unfold mount_row, mount_tail. destruct data as [| | | | | |fields]; try (right; split; [by intros [(? & ? & [=] & _) _]|cbn [jfield]; apply stops_bind, stops_lift]).
  cbn [jfield]. destruct (jget "filesystems" fields) as [fsv|] eqn:Ef; cbn [default from_option].
  2:{ right. split; [intros [(? & ? & [= <-] & E & _) _]; congruence|]. eapply stops_after; [apply computes_lift|]. apply stops_raise. }
  assert ((∃ entry, fsv = JList [JObj entry]) ∨ (∀ entry, fsv ≠ JList [JObj entry])) as [[entry ->]|Hno].
  { destruct fsv as [| | | | |[|[| | | | | |entry] [|? ?]]|]; try (right; done). left. by exists entry. }
  2:{ right. split; [intros [(? & ? & [= <-] & E & _) _]; rewrite Ef in E; injection E as ->; by eapply Hno|].
      eapply stops_after; [apply computes_lift|]. destruct fsv as [| | | | |[|[] [|? ?]]|]; try apply stops_raise; try (cbn [jfield]; apply stops_bind, stops_lift). by edestruct Hno. }
  assert (∀ k s, is_jstr (default JNull (jget k entry)) s = true ↔ jget k entry = Some (JStr s)) as Hj by (intros; by rewrite is_jstr_true, default_jstr).
  assert (¬ (jget "target" entry = Some (JStr (mount_path cfg)) ∧ jget "uuid" entry = Some (JStr (expected_uuid cfg)) ∧ jget "fstype" entry = Some (JStr (filesystem cfg)) ∧ is_Some (model_root fs cfg)) →
    ¬ ((∃ f e, JObj fields = JObj f ∧ jget "filesystems" f = Some (JList [JObj e]) ∧ jget "target" e = Some (JStr (mount_path cfg)) ∧
      jget "uuid" e = Some (JStr (expected_uuid cfg)) ∧ jget "fstype" e = Some (JStr (filesystem cfg))) ∧ is_Some (model_root fs cfg))) as Hneg.
  { intros Hn [(f & e & [= <-] & E & H1 & H2 & H3) H4]. rewrite Ef in E. injection E as <-. apply Hn. done. }
  cbn [jfield].
  destruct (is_jstr (default JNull (jget "target" entry)) (mount_path cfg)) eqn:E1.
  2:{ right. split; [apply Hneg; intros (Hx%Hj & _); congruence|]. do 2 (eapply stops_after; [apply computes_lift|]). rewrite E1. by apply stops_true. }
  destruct (is_jstr (default JNull (jget "uuid" entry)) (expected_uuid cfg) && is_jstr (default JNull (jget "fstype" entry)) (filesystem cfg)) eqn:E2.
  2:{ right. split; [apply Hneg; intros (_ & Hx%Hj & Hy%Hj & _); rewrite Hx, Hy in E2; done|]. do 2 (eapply stops_after; [apply computes_lift|]). rewrite E1.
      do 3 (eapply stops_after; [apply computes_lift|]). rewrite E2. by apply stops_true. }
  pose proof (root_directory "model_directory_unsafe" "model_directory_unsafe") as Hd. destruct (model_root fs cfg) as [root|] eqn:Eroot; cbn [finds] in Hd.
  - left. apply andb_true_iff in E2 as [E2 E3]. split; [exists fields, entry; split_and!; [done|done|by apply Hj..]|]. split; [by eexists|].
    do 2 (eapply computes_bind; [apply computes_lift|]). rewrite E1. do 3 (eapply computes_bind; [apply computes_lift|]). rewrite E2, E3.
    eapply computes_bind; [apply computes_lift|]. apply computes_interact. intros v -> _ _. exact Hd.
  - right. split; [apply Hneg; intros (_ & _ & _ & [? [=]])|].
    do 2 (eapply stops_after; [apply computes_lift|]). rewrite E1. do 3 (eapply stops_after; [apply computes_lift|]). rewrite E2.
    eapply stops_after; [apply computes_lift|]. apply stops_interact. intros v -> _. by apply stops_faults.
Qed.

Lemma check_mount_decides : mount_matches ∧ computes (check_mount w cfg) (Ret tt) ∨ ¬ mount_matches ∧ stops (check_mount w cfg).
Proof.
  unfold check_mount, mount_matches. set (args := ["findmnt"; _; _; _; _; _]). destruct (fm args) as [raw|x] eqn:Er.
  2:{ right. split; [by intros (? & ? & [=] & _)|]. apply stops_interact. intros v _ ->. rewrite Er. apply stops_bind, stops_lift. }
  destruct (loads plain_hooks raw) as [data|x] eqn:El.
  2:{ right. split; [intros (? & ? & [= <-] & E & _); congruence|]. apply stops_interact. intros v _ ->. rewrite Er. eapply stops_after; [apply computes_lift|].
      rewrite El. apply stops_bind, stops_lift. }
  destruct (mount_tail_decides data) as [(Hr & Hm & Hc)|[Hn Hc]].
  - left. split; [by exists raw, data|]. apply computes_interact. intros v _ -> _. rewrite Er. eapply computes_bind; [apply computes_lift|]. rewrite El.
    eapply computes_bind; [apply computes_lift|]. exact Hc.
  - right. split; [intros (? & ? & [= <-] & E & Hr & Hm); apply Hn; rewrite El in E; injection E as <-; done|].
    apply stops_interact. intros v _ ->. rewrite Er. eapply stops_after; [apply computes_lift|]. rewrite El. eapply stops_after; [apply computes_lift|]. exact Hc.
Qed.

Definition assets_match (N : list (string * list AssetEntry)) : Prop := ∀ id es e, (id, es) ∈ N → e ∈ es → ∃ f, asset_matches e f.
Lemma facts_exist N : is_Some (mapM model_facts (sorted_items (Dict N))) ↔ assets_match N.
Proof.
  rewrite mapM_is_Some, Forall_forall. unfold assets_match. split.
  - intros Hall id es e Hin He. specialize (Hall (id, es)). rewrite sorted_items_perm in Hall. specialize (Hall Hin). cbn in Hall. unfold model_facts in Hall.
    rewrite fmap_is_Some, mapM_is_Some, Forall_forall in Hall. specialize (Hall e He). cbn in Hall. unfold fact_opt in Hall. rewrite fmap_is_Some in Hall.
    destruct Hall as [f Hf]. exists f. by apply asset_file_matches.
  - intros Hall [id es] Hin. rewrite sorted_items_perm in Hin. cbn. unfold model_facts. rewrite fmap_is_Some, mapM_is_Some, Forall_forall. intros e He. cbn.
    unfold fact_opt. rewrite fmap_is_Some. destruct (Hall id es e Hin He) as [f Hf]. exists f. by apply asset_file_matches.
Qed.

Lemma handler_unverified now e k s : verify_handler now e = Some k → ∃ sn, (k s).2 = Ret sn ∧ sn_state sn ≠ VERIFIED.
Proof. destruct e; cbn; intros [=]; subst; eexists; by split. Qed.
Lemma full_pass_decides now s N : as_entries_ s = Dict N → reads_suffice → T ≤ now + verify_timeout cfg →
  (mount_matches ∧ assets_match N ∧ ∃ s' b, full_pass w cfg reads now s = (s', Ret (snapshot_ VERIFIED None now b))) ∨
  (¬ (mount_matches ∧ assets_match N) ∧ ∃ s' e, full_pass w cfg reads now s = (s', Raise e)).
Proof.
  intros HE Hr Hd. destruct check_mount_decides as [[Hm Hc]|[Hm Hc]].
  2:{ right. split; [naive_solver|]. destruct (stops_bind _ (fun _ => s ← get; facts ← hash_all w cfg reads (now + verify_timeout cfg) (as_entries_ s);
      modify (fun s => s <| as_baseline := Some facts |> <| as_state := VERIFIED |>);; mret (snapshot_ VERIFIED None now facts)) Hc s) as (n & e & E).
      by eexists _, e. }
  destruct (Hc s) as [n E]. pose proof (hash_all_finds (now + verify_timeout cfg) (Dict N) Hd Hr) as Hf. pose proof (facts_exist N) as Hx.
  assert (full_pass w cfg reads now s = match hash_all w cfg reads (now + verify_timeout cfg) (Dict N) (s <| as_step := n |>) with
    | (s2, Ret b) => (s2 <| as_baseline := Some b |> <| as_state := VERIFIED |>, Ret (snapshot_ VERIFIED None now b))
    | (s2, Raise e) => (s2, Raise e)
    end) as Hrun.
  { unfold full_pass. unfold mbind at 1, pym_bind at 1. rewrite E.
    change ((facts ← hash_all w cfg reads (now + verify_timeout cfg) (as_entries_ s); modify (fun s => s <| as_baseline := Some facts |> <| as_state := VERIFIED |>);;
      mret (snapshot_ VERIFIED None now facts)) (s <| as_step := n |>) = match hash_all w cfg reads (now + verify_timeout cfg) (Dict N) (s <| as_step := n |>) with
    | (s2, Ret b) => (s2 <| as_baseline := Some b |> <| as_state := VERIFIED |>, Ret (snapshot_ VERIFIED None now b))
    | (s2, Raise e) => (s2, Raise e) end). rewrite HE. unfold mbind at 1, pym_bind at 1.
    by destruct (hash_all w cfg reads (now + verify_timeout cfg) (Dict N) _) as [s2 [b|e]]. }
  rewrite Hrun.
  destruct (mapM model_facts (sorted_items (Dict N))) as [facts|]; cbn [fmap option_fmap option_map finds] in Hf.
  - left. split; [done|]. split; [apply Hx; by eexists|]. destruct (Hf (s <| as_step := n |>)) as [n' ->]. by eexists _, _.
  - right. split; [intros [_ Ha]; apply Hx in Ha as [? ?]; done|]. destruct (Hf (s <| as_step := n |>)) as (n' & r & ->). by eexists _, _.
Qed.
End Quiet.

(** While the disk and the mount table are at rest and the deadline is not
    reached, a full pass over a registration returns VERIFIED exactly when the
    mount is the registered one and every asset's path leads through real
    directories below the model directory to a regular file of the registered
    size whose whole content has the registered digest. *)
Theorem verify_exact `{Digest} w cfg reads fs fm assets N s :
  (∀ n, on_disk (w n) = fs) → (∀ n, findmnt (w n) = fm) → (∀ n m, at_time (w n) ≤ at_time (w m) + verify_timeout cfg) →
  reads_suffice reads fs → normalize_all assets = Ret N →
  (∃ s' sn, verify w cfg reads (Some assets) s = (s', Ret sn) ∧ sn_ready sn = true) ↔ mount_matches cfg fs fm ∧ assets_match cfg fs N.
Proof.
  intros Hfs Hfm HT Hr HN. set (now := at_time (w (as_step s))).
  assert (verify w cfg reads (Some assets) s = catch (full_pass w cfg reads now) (verify_handler now) (s <| as_entries_ := Dict N |> <| as_step := S (as_step s) |>)) as ->.
  { unfold verify. rewrite HN. reflexivity. }
  unfold catch. destruct (full_pass_decides w cfg reads fs fm (now + verify_timeout cfg) Hfs Hfm ltac:(intros; apply HT) now
    (s <| as_entries_ := Dict N |> <| as_step := S (as_step s) |>) N ltac:(done) Hr ltac:(lia)) as [(Hm & Ha & s' & b & ->)|(Hn & s' & e & ->)].
  - split; [done|]. intros _. by eexists _, _.
  - split; [|done]. intros (s2 & sn & E & Hrd). exfalso. destruct (verify_handler now e) as [k|] eqn:Ek; [|done].
    destruct (handler_unverified now e k s' Ek) as (sn' & Es & Hne). rewrite E in Es. injection Es as <-. unfold sn_ready in Hrd. by apply bool_decide_eq_true in Hrd.
Qed.

(** ** A concrete disk *)
Definition demo_fs : Fs := {|
  fs_lookup := fun p => if String.eqb p "/mnt/models" then Some 2 else None;
  fs_inode := fun i => if i =? 2 then Some (Directory [("vl", 3)]) else if i =? 3 then Some (Directory [("m.gguf", 7); ("link", 8)])
                       else if i =? 7 then Some (Regular 3 100 "abc") else if i =? 8 then Some Symlink else None |}.
Definition demo_row : string :=
  "{" +:+ quoted "filesystems" +:+ ":[{" +:+ quoted "target" +:+ ":" +:+ quoted "/mnt" +:+ "," +:+ quoted "fstype" +:+ ":" +:+ quoted "ext4" +:+ ","
  +:+ quoted "uuid" +:+ ":" +:+ quoted "u-1" +:+ "}]}".
Definition demo_storage : StoreConfig :=
  {| mount_path := "/mnt"; model_directory := "/mnt/models"; expected_uuid := "u-1"; filesystem := "ext4"; verify_timeout := 900 |}.
Definition demo_disk (n : nat) : Assets.World := {| at_time := 5; on_disk := demo_fs; findmnt := fun _ => Ret demo_row |}.
(** A digest that tells texts of up to 64 characters apart. *)
Definition padded (s : string) : string := String.substring 0 64 (s +:+ concat_text (repeat "0" 64)).
Lemma padded_length s : String.length (padded s) = 64%nat.
Proof. unfold padded. rewrite substring_length, append_length. change (String.length (concat_text (repeat "0" 64))) with 64%nat. lia. Qed.
#[local] Instance padded_digest : Digest := {| sha256_hex := padded; sha256_hex_length := padded_length |}.
Definition demo_models : list (string * AssetValue) :=
  [("m", ValueV2 [ItemAsset {| asset_role := "model"; asset_path := "vl/m.gguf"; asset_sha256 := padded "abc"; asset_size_bytes := 3 |}])].
Definition demo_entries : list (string * list AssetEntry) :=
  [("m", [{| ae_role := "model"; ae_path := "vl/m.gguf"; ae_sha256 := Some (padded "abc"); ae_size_bytes := Some 3 |}])].
Definition demo_guard : Guard := {| g_store := AssetStore_init; g_last_check_at := None; g_last_snapshot := None |}.

Example demo_guard_ready : (guard_call demo_disk demo_storage 2 demo_models 1 demo_guard).2 = Ret true.
Proof. vm_compute. reflexivity. Qed.
(** A linked asset, a wrong digest and a foreign mount close admission. *)
Example demo_link_refused :
  (guard_call demo_disk demo_storage 2 [("m", ValueName "vl/link")] 1 demo_guard).2 = Ret false ∧
  (guard_call demo_disk demo_storage 2 [("m", ValuePair "vl/m.gguf" (padded "abd"))] 1 demo_guard).2 = Ret false.
Proof. vm_compute. done. Qed.
(** A findmnt answer that is not an object escapes the handlers: the store keeps
    its verdict and the guard raises. *)
Example demo_list_answer :
  (guard_call (fun _ => {| at_time := 5; on_disk := demo_fs; findmnt := fun _ => Ret "[]" |}) demo_storage 2 demo_models 1 demo_guard).2
  = Raise (AttributeError "get").
Proof. vm_compute. reflexivity. Qed.

Lemma demo_reads : reads_suffice 2 demo_fs.
Proof.
  intros ino f Hf. unfold regular_file, demo_fs in Hf. cbn [fs_inode] in Hf.
  destruct (ino =? 2); [done|]. destruct (ino =? 3); [done|]. destruct (ino =? 7); [|destruct (ino =? 8); done].
  injection Hf as <-. vm_compute. discriminate.
Qed.
Lemma verify_exact_witness : mount_matches demo_storage demo_fs (fun _ => Ret demo_row) ∧ assets_match demo_storage demo_fs demo_entries.
Proof.
  apply (verify_exact demo_disk demo_storage 2 demo_fs (fun _ => Ret demo_row) demo_models demo_entries AssetStore_init);
    [reflexivity|reflexivity|intros; vm_compute; discriminate|exact demo_reads|reflexivity|].
  eexists _, _. split; [vm_compute; reflexivity|vm_compute; reflexivity].
Defined.
Lemma guard_ready_hashed_witness : ∃ k (b : dict string (list AssetFact)), at_time (demo_disk 0) - at_time (demo_disk k) < 1 ∧
  ∀ id es, Dict demo_entries !! id = Some es → ∃ fs, b !! id = Some fs ∧ 
    Forall2 (fun e f => accepted e f ∧ hashed demo_disk demo_storage e f ∧ ∃ n, seen_in demo_disk demo_storage k n e f) es fs.
Proof.
  destruct (guard_ready_hashed demo_disk demo_storage 2 demo_models demo_entries 1 demo_guard (guard_call demo_disk demo_storage 2 demo_models 1 demo_guard).1)
    as (k & b & Hlt & _ & Hall); [reflexivity|repeat constructor; by intros ?%not_elem_of_nil|done|constructor|vm_compute; reflexivity|].
  exists k, b. split; [exact Hlt|]. intros id es Hes. destruct (Hall id es Hes) as (fs & Hfs & HF). exists fs. split; [exact Hfs|].
  eapply Forall2_impl; [exact HF|]. intros e f (Ha & Hh & Hs). split; [exact Ha|]. split; [exact Hh|]. eexists. exact Hs.
Defined.
