(* ===== verification/Launch.v ===== *)
(** * Container launches

    [model_scheduler/runtime_profiles.py]: the argument vector of the container
    that serves a registered model, rendered from its profile, or a refusal. *)

From S2P Require Import Prelude Text Dict Contracts Registration JsonText.
From Stdlib Require Import Ascii.
Local Open Scope Z_scope.

Definition CONTAINER_MODEL_ROOT : string := "/models".
Definition CONTAINER_SERVER_PORT : string := "8080".
Definition CONTROL_LABEL_PREFIX : string := "io.self-model-switch".
Definition LAB : string := "lab".
Definition PRODUCTION : string := "production".

Definition launch_error {A} (msg : string) : outcome A := Raise (LaunchRenderError msg).
Definition demand_launch (ok : bool) (msg : string) : outcome unit := if ok then Ret tt else launch_error msg.

(** [[a-z0-9][a-z0-9-]{0,63}] *)
Definition DEPLOYMENT_RE (s : string) : bool :=
  match chars s with c :: l => is_alnum c && (Z.of_nat (length l) <=? 63) && forallb (fun c => is_alnum c || (code c =? 45)) l | [] => false end.
(** [[a-z0-9][a-z0-9_.-]{0,63}] *)
Definition CONTAINER_RUNTIME_RE (s : string) : bool :=
  match chars s with
  | c :: l => is_alnum c && (Z.of_nat (length l) <=? 63)
              && forallb (fun c => is_alnum c || (code c =? 95) || (code c =? 46) || (code c =? 45)) l
  | [] => false
  end.

(** [sub in s] *)
Definition contains (sub s : string) : bool := match String.index 0 sub s with Some _ => true | None => false end.

(** ** Launch rules *)
Inductive FlagKind := fixed (value : option string) | envelope (field : Envelope → Z).
Record FlagSource := { source_kind : FlagKind; requires_capability : option string }.
Record LaunchRules := { flag_sources : list (string * FlagSource); required_flags : list string }.

Definition from (k : FlagKind) : FlagSource := {| source_kind := k; requires_capability := None |}.
Definition GGUF_LAUNCH_RULES : LaunchRules := {|
  flag_sources :=
    [("--parallel", from (envelope max_parallel));
     ("--kv-unified-per-slot", from (envelope ctx_size));
     ("--ctx-size", from (envelope ctx_size));
     ("--image-max-tokens", {| source_kind := envelope max_image_tokens; requires_capability := Some "vision" |});
     ("--n-gpu-layers", from (fixed (Some "99")));
     ("--flash-attn", from (fixed (Some "auto")));
     ("--no-warmup", from (fixed None));
     ("--no-webui", from (fixed None));
     ("--load-mode", from (fixed (Some "auto")));
     ("--host", from (fixed (Some "0.0.0.0")));
     ("--port", from (fixed (Some CONTAINER_SERVER_PORT)))];
  required_flags := ["--host"; "--port"; "--parallel"; "--kv-unified-per-slot"];
|}.

Definition CAPABILITY_FLAGS (capability : string) : option (list string) :=
  assoc capability
    [("chat", []); ("vision", ["--image-max-tokens"]); ("embeddings", ["--embedding"; "--pooling"]);
     ("rerank", ["--embedding"; "--pooling"])].

Definition LAUNCH_RULES (profile_id : string) : option LaunchRules :=
  if String.eqb profile_id GGUF_PROFILE then Some GGUF_LAUNCH_RULES else None.

Record ContainerLaunch := {
  argv : list string;
  server_args : list string;
  labels : list (string * string);
  container_name : string;
  l_deployment_id : string;
  l_model_id : string;
  l_runtime_id : string;
  l_profile_id : string;
  l_image_digest : string;
  l_port : Z;
  mode : string;
  config_sha256 : string;
  model_directory : string;
  container_runtime : string;
}.
Definition is_lab (l : ContainerLaunch) : bool := String.eqb (mode l) LAB.

(** ** Lookups: a dict comprehension keeps the last entry of a key *)
Definition lookup_last {A} (key : A → string) (k : string) (l : list A) : option A :=
  List.find (fun a => String.eqb (key a) k) (rev l).
Definition lookup_model (registration : DeploymentSpec) (model_id : string) : outcome (RegisteredModelSpec * RuntimeSpec) :=
  model ← of_option (LaunchRenderError "unknown model") (lookup_last v2_model_id model_id (dep_models registration));
  runtime ← of_option (LaunchRenderError "model references unknown runtime")
              (lookup_last rt_runtime_id (v2_runtime_id model) (dep_runtimes registration));
  mret (model, runtime).

(** ** Flags *)
Definition has_source (rules : LaunchRules) (flag : string) : bool := bool_decide (is_Some (assoc flag (flag_sources rules))).

(** The flags the capabilities need, in order. *)
Fixpoint capability_flags (capabilities : list string) : outcome (list string) :=
  match capabilities with
  | [] => mret []
  | c :: capabilities =>
      flags ← of_option (LaunchRenderError "capability has no launch profile") (CAPABILITY_FLAGS c);
      rest ← capability_flags capabilities;
      mret (flags ++ rest)
  end.

(** [list(dict.fromkeys(l))] *)
Fixpoint dedup (seen l : list string) : list string :=
  match l with
  | [] => []
  | x :: l => if bool_decide (x ∈ seen) then dedup seen l else x :: dedup (x :: seen) l
  end.

(** The loop over the sources, in canonical order. *)
Fixpoint render_sources (model : RegisteredModelSpec) (enabled : list string) (sources : list (string * FlagSource)) : outcome (list string) :=
  match sources with
  | [] => mret []
  | (flag, source) :: sources =>
      if negb (bool_decide (flag ∈ enabled)) then render_sources model enabled sources
      else
        _ ← demand_launch (match requires_capability source with Some c => bool_decide (c ∈ v2_capabilities model) | None => true end)
              "flag requires a capability of the model";
        rest ← render_sources model enabled sources;
        mret (match source_kind source with
              | fixed None => [flag]
              | fixed (Some value) => [flag; value]
              | envelope field => [flag; int_text (field (v2_envelope model))]
              end ++ rest)
  end.

Definition render_flags (model : RegisteredModelSpec) (runtime : RuntimeSpec) (rules : LaunchRules) : outcome (list string) :=
  let enabled := rt_startup_args runtime in
  _ ← demand_launch (forallb (has_source rules) enabled) "profile has no value source for the enabled flag";
  extra ← capability_flags (v2_capabilities model);
  let required := dedup [] (required_flags rules ++ extra) in
  _ ← demand_launch (forallb (has_source rules) required) "profile has no value source for a required flag";
  _ ← demand_launch (forallb (fun flag => bool_decide (flag ∈ enabled)) required) "runtime must enable the missing flags";
  render_sources model enabled (flag_sources rules).

(** ** Assets *)
Definition container_path (path : string) : outcome string :=
  if starts_with_slash path || existsb (fun part => bool_decide (part ∈ [""; "."; ".."])) (path_parts path)
  then launch_error "asset path cannot be mounted inside the container"
  else Ret (CONTAINER_MODEL_ROOT +:+ "/" +:+ path).

Definition with_role (role : string) (model : RegisteredModelSpec) : list AssetRef :=
  List.filter (fun a => String.eqb (asset_role a) role) (v2_assets model).

Definition asset_arguments (model : RegisteredModelSpec) : outcome (list string) :=
  let projectors := with_role "projector" model in
  match with_role "model" model with
  | [file] =>
      _ ← demand_launch (length projectors <=? 1)%nat "at most one projector asset can be mounted";
      _ ← demand_launch (negb (bool_decide ("vision" ∈ v2_capabilities model)) || negb (bool_decide (projectors = [])))
            "the vision capability requires a projector asset";
      path ← container_path (asset_path file);
      match projectors with
      | [] => mret ["--model"; path]
      | p :: _ => proj ← container_path (asset_path p); mret ["--model"; path; "--mmproj"; proj]
      end
  | _ => launch_error "exactly one model asset is required to launch"
  end.

(** ** The inputs of a launch *)
Definition check_deployment_id (s : string) : outcome string :=
  _ ← demand_launch (DEPLOYMENT_RE s) "deployment id is not a lowercase DNS-style name"; mret s.
Definition check_config_sha256 (s : string) : outcome string :=
  _ ← demand_launch (SHA256_RE s) "config_sha256 must be a lowercase 64-hex digest"; mret s.
Definition check_container_runtime (s : string) : outcome string :=
  _ ← demand_launch (CONTAINER_RUNTIME_RE s) "container runtime is not a registered Docker runtime name"; mret s.
Definition check_model_directory (s : string) : outcome string :=
  _ ← demand_launch (starts_with_slash s && negb (String.eqb s "/") && negb (bool_decide (".." ∈ path_parts s))
                     && negb (existsb (fun c => (code c =? 44) || (code c =? 0)) (chars s)))
        "the model directory must be an absolute, comma-free host path below a verified mount";
  mret s.

(** ** Structural checks of the rendered vector *)
Definition is_switch (rules : LaunchRules) (flag : string) : bool :=
  existsb (fun fs => String.eqb fs.1 flag && match source_kind fs.2 with fixed None => true | _ => false end) (flag_sources rules).
Definition is_valued (rules : LaunchRules) (flag : string) : bool :=
  existsb (fun fs => String.eqb fs.1 flag && match source_kind fs.2 with fixed None => false | _ => true end) (flag_sources rules).

(** The [while] loop over the tokens: a valued flag skips the token after it. *)
Fixpoint assert_server_arguments (rules : LaunchRules) (args : list string) : outcome unit :=
  match args with
  | [] => Ret tt
  | token :: rest =>
      if String.eqb token "--model" || String.eqb token "--mmproj" then
        match rest with _ :: rest => assert_server_arguments rules rest | [] => Ret tt end
      else if is_switch rules token then assert_server_arguments rules rest
      else if is_valued rules token then
        match rest with _ :: rest => assert_server_arguments rules rest | [] => Ret tt end
      else launch_error "server argument is not part of the registered profile"
  end.

(** [[argv[i + 1] for i, token in enumerate(argv) if token == "--mount"]] *)
Fixpoint mounts_of (args : list string) : outcome (list string) :=
  match args with
  | [] => mret []
  | token :: rest =>
      if String.eqb token "--mount" then
        match rest with
        | [] => Raise (IndexError "tuple index out of range")
        | m :: _ => ms ← mounts_of rest; mret (m :: ms)
        end
      else mounts_of rest
  end.

Definition assert_no_host_escape (args : list string) (mount : string) : outcome unit :=
  _ ← demand_launch (negb (bool_decide ("--entrypoint" ∈ args)) && negb (bool_decide ("--privileged" ∈ args)))
        "a launch must not override the entrypoint or run privileged";
  _ ← demand_launch (negb (existsb (fun t => String.eqb t "--gpus" || String.prefix "--gpus=" t) args))
        "a launch selects the GPU through its deployment runtime, not --gpus";
  ms ← mounts_of args;
  _ ← demand_launch (bool_decide (ms = [mount])) "a launch mounts exactly the verified read-only model directory";
  demand_launch (negb (existsb (contains "docker.sock") args)) "a launch must never mount the Docker socket".

(** ** The launch *)
Definition launch_error_of {A} (m : outcome A) : outcome A :=
  match m with Raise (ContractError msg) => launch_error msg | _ => m end.

Definition mount_of (directory : string) : string :=
  "type=bind,src=" +:+ directory +:+ ",dst=" +:+ CONTAINER_MODEL_ROOT +:+ ",readonly".

Definition label_args (labels : list (string * string)) : list string :=
  flat_map (fun item => ["--label"; item.1 +:+ "=" +:+ item.2]) labels.

Definition render_container_launch (registration : DeploymentSpec) (model_id deployment_id directory config_digest launch_mode gpu : string)
    (temporary_budget_bytes : option Z) : outcome ContainerLaunch :=
  _ ← demand_launch (String.eqb launch_mode LAB || String.eqb launch_mode PRODUCTION) "launch mode must be one of lab, production";
  _ ← (if String.eqb launch_mode PRODUCTION
       then demand_launch (bool_decide (temporary_budget_bytes = None)) "a production launch must not carry a temporary budget"
       else demand_launch (match temporary_budget_bytes with Some n => 0 <? n | None => false end)
              "a lab launch requires an explicit temporary budget in bytes");
  deployment ← check_deployment_id deployment_id;
  digest ← check_config_sha256 config_digest;
  directory ← check_model_directory directory;
  gpu_runtime ← check_container_runtime gpu;
  found ← lookup_model registration model_id;
  let (model, runtime) := (found : RegisteredModelSpec * RuntimeSpec) in
  profile ← launch_error_of (require_startable_profile runtime);
  _ ← (if String.eqb launch_mode PRODUCTION then launch_error_of (require_production_openable model runtime) else Ret tt);
  rules ← of_option (LaunchRenderError "profile has no launch rules") (LAUNCH_RULES (profile_id profile));
  flags ← render_flags model runtime rules;
  assets ← asset_arguments model;
  _ ← assert_server_arguments rules (assets ++ flags);
  let name := "sms-" +:+ deployment +:+ "-" +:+ v2_model_id model in
  let all_labels :=
    [(CONTROL_LABEL_PREFIX +:+ ".deployment", deployment);
     (CONTROL_LABEL_PREFIX +:+ ".runtime", rt_runtime_id runtime);
     (CONTROL_LABEL_PREFIX +:+ ".profile", profile_id profile);
     (CONTROL_LABEL_PREFIX +:+ ".model", v2_model_id model);
     (CONTROL_LABEL_PREFIX +:+ ".mode", launch_mode);
     (CONTROL_LABEL_PREFIX +:+ ".config-sha256", digest)] in
  let mount := mount_of directory in
  let args :=
    ["docker"; "run"; "--name"; name; "--init"; "--rm"; "--restart=no"; "--runtime=" +:+ gpu_runtime] ++ label_args all_labels
    ++ ["--publish"; "127.0.0.1:" +:+ int_text (v2_port model) +:+ ":" +:+ CONTAINER_SERVER_PORT; "--mount"; mount; rt_image_digest runtime]
    ++ assets ++ flags in
  _ ← assert_no_host_escape args mount;
  mret {| argv := args; server_args := assets ++ flags; labels := all_labels; container_name := name; l_deployment_id := deployment;
          l_model_id := v2_model_id model; l_runtime_id := rt_runtime_id runtime; l_profile_id := profile_id profile;
          l_image_digest := rt_image_digest runtime; l_port := v2_port model; mode := launch_mode; config_sha256 := digest;
          model_directory := directory; container_runtime := gpu_runtime |}.
