(* ===== verification/LaunchProps.v ===== *)
(** * What a launch can be

    A launch is rendered exactly for the registrations the profile can express;
    what is rendered is the reference vector below, and the container engine
    reads it as one image, one read-only mount and one loopback port. *)

From S2P Require Import Prelude Text Dict Contracts Registration RegistrationProps JsonText JsonTextProps Launch.
From Stdlib Require Import Ascii.
Local Open Scope Z_scope.

(** ** The reference vector *)
Definition flag_tokens (m : RegisteredModelSpec) (fs : string * FlagSource) : list string :=
  match source_kind fs.2 with
  | fixed None => [fs.1]
  | fixed (Some value) => [fs.1; value]
  | envelope field => [fs.1; int_text (field (v2_envelope m))]
  end.
Definition profile_args (m : RegisteredModelSpec) (enabled : list string) : list string :=
  flat_map (fun fs => if bool_decide (fs.1 ∈ enabled) then flag_tokens m fs else []) (flag_sources GGUF_LAUNCH_RULES).
Definition asset_args (m : RegisteredModelSpec) : list string :=
  flat_map (fun a => ["--model"; "/models/" +:+ asset_path a]) (with_role "model" m)
  ++ flat_map (fun a => ["--mmproj"; "/models/" +:+ asset_path a]) (with_role "projector" m).

Section launch.
Context (deployment directory digest launch_mode gpu : string) (budget : option Z).

Definition launch_labels (m : RegisteredModelSpec) (r : RuntimeSpec) : list (string * string) :=
  [("io.self-model-switch.deployment", deployment); ("io.self-model-switch.runtime", rt_runtime_id r);
   ("io.self-model-switch.profile", rt_profile_id r); ("io.self-model-switch.model", v2_model_id m);
   ("io.self-model-switch.mode", launch_mode); ("io.self-model-switch.config-sha256", digest)].
Definition engine_options (m : RegisteredModelSpec) (r : RuntimeSpec) : list string :=
  ["--name"; "sms-" +:+ deployment +:+ "-" +:+ v2_model_id m; "--init"; "--rm"; "--restart=no"; "--runtime=" +:+ gpu]
  ++ label_args (launch_labels m r)
  ++ ["--publish"; "127.0.0.1:" +:+ int_text (v2_port m) +:+ ":8080"; "--mount"; "type=bind,src=" +:+ directory +:+ ",dst=/models,readonly"].
Definition launch_argv (m : RegisteredModelSpec) (r : RuntimeSpec) : list string :=
  ["docker"; "run"] ++ engine_options m r ++ [rt_image_digest r] ++ asset_args m ++ profile_args m (rt_startup_args r).

Definition launch_of (m : RegisteredModelSpec) (r : RuntimeSpec) : ContainerLaunch :=
  {| argv := launch_argv m r; server_args := asset_args m ++ profile_args m (rt_startup_args r); labels := launch_labels m r;
     container_name := "sms-" +:+ deployment +:+ "-" +:+ v2_model_id m; l_deployment_id := deployment; l_model_id := v2_model_id m;
     l_runtime_id := rt_runtime_id r; l_profile_id := rt_profile_id r; l_image_digest := rt_image_digest r; l_port := v2_port m;
     mode := launch_mode; config_sha256 := digest; model_directory := directory; container_runtime := gpu |}.

(** When a launch exists. *)
Record launchable (m : RegisteredModelSpec) (r : RuntimeSpec) : Prop := {
  can_mode : launch_mode = PRODUCTION ∧ budget = None ∧ v2_measured m = true ∨ launch_mode = LAB ∧ ∃ n, budget = Some n ∧ 0 < n;
  can_inputs : DEPLOYMENT_RE deployment = true ∧ SHA256_RE digest = true ∧ CONTAINER_RUNTIME_RE gpu = true;
  can_directory : starts_with_slash directory = true ∧ directory ≠ "/" ∧ ".." ∉ path_parts directory ∧
    existsb (fun c => (code c =? 44) || (code c =? 0)) (chars directory) = false;
  can_profile : rt_profile_id r = GGUF_PROFILE;
  can_flags : Forall (fun f => is_Some (assoc f (flag_sources GGUF_LAUNCH_RULES))) (rt_startup_args r) ∧
    Forall (fun f => f ∈ rt_startup_args r) (required_flags GGUF_LAUNCH_RULES);
  can_capabilities : Forall (fun c => c ∈ ["chat"; "vision"]) (v2_capabilities m) ∧
    ("vision" ∈ v2_capabilities m ↔ "--image-max-tokens" ∈ rt_startup_args r);
  can_tokens : String.prefix "--gpus=" (rt_image_digest r) = false ∧ existsb (contains "docker.sock") (launch_argv m r) = false;
}.
End launch.

(** ** The steps *)
Lemma demand_launch_ret ok msg u : demand_launch ok msg = Ret u ↔ ok = true.
Proof. destruct u, ok; unfold demand_launch, launch_error; naive_solver. Qed.

Lemma lookup_last_some {A} (key : A → string) k l a : lookup_last key k l = Some a → a ∈ l ∧ key a = k.
Proof. unfold lookup_last. intros [Hin Hk]%List.find_some. apply in_rev in Hin. split; [by apply list_elem_of_In|by apply String.eqb_eq]. Qed.
Lemma lookup_last_unique {A} (key : A → string) l a : NoDup (map key l) → a ∈ l → lookup_last key (key a) l = Some a.
Proof.
  intros Hn Ha. unfold lookup_last. destruct (List.find _ (rev l)) as [b|] eqn:E.
  - apply List.find_some in E as [Hb Hk]. apply in_rev, list_elem_of_In in Hb. apply String.eqb_eq in Hk. f_equal.
    apply list_elem_of_lookup in Ha as [i Hi]. apply list_elem_of_lookup in Hb as [j Hj].
    assert (i = j) as <-; [|congruence]. apply (NoDup_lookup (map key l) i j (key a)); [done| |]; rewrite list_lookup_fmap; [by rewrite Hi|by rewrite Hj; simpl; rewrite Hk].
  - exfalso. apply list_elem_of_In in Ha. assert (In a (rev l)) as Hr by by apply in_rev in Ha. pose proof (List.find_none _ _ E a Hr) as Hf.
    simpl in Hf. by rewrite String.eqb_refl in Hf.
Qed.

Lemma render_sources_ret m enabled sources l : render_sources m enabled sources = Ret l ↔
  Forall (fun fs => fs.1 ∈ enabled → ∀ c, requires_capability fs.2 = Some c → c ∈ v2_capabilities m) sources ∧
  l = flat_map (fun fs => if bool_decide (fs.1 ∈ enabled) then flag_tokens m fs else []) sources.
Proof.
  revert l. induction sources as [|[f s] sources IH]; intros l; cbn [render_sources flat_map].
  { unfold mret, outcome_ret. split; [intros [= <-]; split; [by apply Forall_nil|done]|intros [_ ->]; done]. }
  rewrite Forall_cons. cbn [fst snd]. destruct (decide (f ∈ enabled)) as [Hf|Hf].
  - rewrite (bool_decide_true (f ∈ enabled)) by done. cbn [negb]. rewrite obind_ret. setoid_rewrite demand_launch_ret. setoid_rewrite obind_ret. setoid_rewrite IH. split.
    + intros (u & Hc & rest & [Hr ->] & [= <-]). split; [split; [|done]|].
      * intros _ c Hs. rewrite Hs in Hc. by apply bool_decide_eq_true in Hc.
      * unfold flag_tokens. cbn [fst snd]. by destruct (source_kind s) as [[v|]|field].
    + intros [[Hc Hr] ->]. exists tt. split; [destruct (requires_capability s) as [c|]; [by apply bool_decide_eq_true, (Hc Hf)|done]|].
      eexists. split; [split; [exact Hr|reflexivity]|]. unfold flag_tokens. cbn [fst snd]. by destruct (source_kind s) as [[v|]|field].
  - rewrite (bool_decide_false (f ∈ enabled)) by done. cbn [negb app]. rewrite IH. naive_solver.
Qed.

Lemma elem_of_dedup x seen l : x ∈ dedup seen l ↔ x ∈ l ∧ x ∉ seen.
Proof.
  revert seen. induction l as [|y l IH]; intros seen; cbn [dedup].
  { split; [intros Hx; by apply not_elem_of_nil in Hx|by intros [Hx _]]. }
  rewrite (elem_of_cons l). case_bool_decide as Hy.
  - rewrite IH. naive_solver.
  - rewrite elem_of_cons, IH, not_elem_of_cons. destruct (decide (x = y)) as [->|]; naive_solver.
Qed.
Lemma forallb_dedup (p : string → bool) l : forallb p (dedup [] l) = true ↔ ∀ x, x ∈ l → p x = true.
Proof.
  rewrite forallb_forall. split; intros Hp x Hx.
  - apply Hp, list_elem_of_In, elem_of_dedup. split; [done|apply not_elem_of_nil].
  - apply Hp. apply list_elem_of_In, elem_of_dedup in Hx. by destruct Hx.
Qed.

Lemma capability_flags_ret caps extra : capability_flags caps = Ret extra →
  (∀ c, c ∈ caps → ∃ fl, CAPABILITY_FLAGS c = Some fl ∧ ∀ f, f ∈ fl → f ∈ extra).
Proof.
  revert extra. induction caps as [|c0 caps IH]; intros extra He c Hc; [by apply not_elem_of_nil in Hc|]. cbn [capability_flags] in He. inv_parse.
  rename select (CAPABILITY_FLAGS c0 = Some _) into Hcf. rename select (capability_flags caps = Ret _) into Hr.
  apply elem_of_cons in Hc as [->|Hc].
  - eexists. split; [exact Hcf|]. intros f Hf. apply elem_of_app. by left.
  - destruct (IH _ Hr c Hc) as (fl & Hfl & Hin). exists fl. split; [done|]. intros f Hf. apply elem_of_app. right. by apply Hin.
Qed.
Lemma capability_flags_served caps : Forall (fun c => c ∈ ["chat"; "vision"]) caps → ∃ extra, capability_flags caps = Ret extra ∧
  ∀ f, f ∈ extra → f = "--image-max-tokens" ∧ "vision" ∈ caps.
Proof.
  induction 1 as [|c caps Hc Hcs IH]; [exists []; split; [done|intros f Hf; by apply not_elem_of_nil in Hf]|]. destruct IH as (extra & He & Hf).
  cbn [capability_flags]. apply elem_of_cons in Hc as [->|Hc]; [|apply list_elem_of_singleton in Hc as ->].
  - exists extra. rewrite He. split; [done|]. intros f Hin. destruct (Hf f Hin) as [-> Hv]. split; [done|]. by constructor.
  - exists ("--image-max-tokens" :: extra). rewrite He. split; [done|]. intros f Hin. split; [|constructor]. apply elem_of_cons in Hin as [->|Hin]; [done|by apply Hf].
Qed.

Lemma has_source_spec f : has_source GGUF_LAUNCH_RULES f = true ↔ is_Some (assoc f (flag_sources GGUF_LAUNCH_RULES)).
Proof. unfold has_source. apply bool_decide_eq_true. Qed.

Lemma render_flags_ret m r l : render_flags m r GGUF_LAUNCH_RULES = Ret l ↔
  (Forall (fun f => is_Some (assoc f (flag_sources GGUF_LAUNCH_RULES))) (rt_startup_args r) ∧
   Forall (fun f => f ∈ rt_startup_args r) (required_flags GGUF_LAUNCH_RULES)) ∧
  (Forall (fun c => c ∈ ["chat"; "vision"]) (v2_capabilities m) ∧
   ("vision" ∈ v2_capabilities m ↔ "--image-max-tokens" ∈ rt_startup_args r)) ∧ l = profile_args m (rt_startup_args r).
Proof.
  unfold render_flags. rewrite obind_ret. setoid_rewrite demand_launch_ret. setoid_rewrite obind_ret.
  setoid_rewrite obind_ret. setoid_rewrite demand_launch_ret. setoid_rewrite obind_ret. setoid_rewrite demand_launch_ret. setoid_rewrite render_sources_ret. split.
  - intros (_ & Hsrc & extra & He & _ & Hreq & _ & Hen & Hcap & ->). rewrite forallb_forall in Hsrc. rewrite forallb_dedup in Hreq, Hen.
    pose proof (capability_flags_ret _ _ He) as Hfl. split_and!; [| | | |done].
    + apply Forall_forall. intros f Hf. by apply has_source_spec, Hsrc, list_elem_of_In.
    + apply Forall_forall. intros f Hf. apply (bool_decide_eq_true_1 (f ∈ rt_startup_args r)), Hen, elem_of_app. by left.
    + apply Forall_forall. intros c Hc. destruct (Hfl c Hc) as (fl & HCF & Hin). unfold CAPABILITY_FLAGS in HCF. cbn [assoc] in HCF.
      repeat (case_decide; [subst; try (by repeat constructor); exfalso; injection HCF as <-;
        pose proof (Hreq "--embedding" ltac:(apply elem_of_app; right; apply Hin; by constructor)) as Hx; vm_compute in Hx; discriminate|]). done.
    + split.
      * intros Hv. destruct (Hfl _ Hv) as (fl & [= <-] & Hin). apply (bool_decide_eq_true_1 ("--image-max-tokens" ∈ rt_startup_args r)), Hen, elem_of_app.
        right. apply Hin. by constructor.
      * intros Hi. rewrite Forall_forall in Hcap. apply (Hcap ("--image-max-tokens", {| source_kind := envelope max_image_tokens; requires_capability := Some "vision" |})); [|done|done].
        unfold GGUF_LAUNCH_RULES. cbn [flag_sources]. repeat constructor.
  - intros ((Hsrc & Hreq) & (Hc & Hv) & ->). destruct (capability_flags_served _ Hc) as (extra & He & Hex). exists tt. split.
    { apply forallb_forall. intros f Hf%list_elem_of_In. rewrite Forall_forall in Hsrc. by apply has_source_spec, Hsrc. }
    exists extra. split; [done|]. exists tt. split; [|exists tt; split; [|split; [|done]]].
    + apply forallb_dedup. intros f [Hf|Hf]%elem_of_app; [|by destruct (Hex f Hf) as [-> _]]. revert Hf. unfold GGUF_LAUNCH_RULES at 1. cbn [required_flags]. intros Hf.
      repeat (apply elem_of_cons in Hf as [->|Hf]; [reflexivity|]). by apply not_elem_of_nil in Hf.
    + apply forallb_dedup. intros f [Hf|Hf]%elem_of_app; apply bool_decide_eq_true; [rewrite Forall_forall in Hreq; by apply Hreq|]. destruct (Hex f Hf) as [-> ?]. by apply Hv.
    + apply Forall_forall. intros fs Hfs. revert Hfs. unfold GGUF_LAUNCH_RULES. cbn [flag_sources]. intros Hfs.
      repeat (apply elem_of_cons in Hfs as [->|Hfs]; [solve [intros _ c Hx; discriminate Hx | intros Hin c [= <-]; by apply Hv]|]). by apply not_elem_of_nil in Hfs.
Qed.

(** ** Assets *)
Lemma container_path_ok s : path_ok s → container_path s = Ret ("/models/" +:+ s).
Proof.
  intros Hs. unfold container_path. rewrite path_ok_relative by done. destruct Hs as (_ & _ & Hp).
  replace (existsb _ _) with false; [done|]. symmetry. apply not_true_is_false. intros (p & Hin & Hb)%existsb_exists. apply bool_decide_eq_true in Hb.
  rewrite Forall_forall in Hp. by apply (Hp p); [apply list_elem_of_In|].
Qed.

Lemma gguf_fits m p : PROFILES GGUF_PROFILE = Some p → model_ok m → fits_profile m p →
  asset_arguments m = Ret (asset_args m) ∧ ∃ f, with_role "model" m = [f] ∧ (length (with_role "projector" m) ≤ 1)%nat.
Proof.
  intros [= <-] Hm (_ & Hc & _). destruct (Hc "model" 1 (Some 1)) as [Hlo Hhi]; [repeat constructor|]. specialize (Hhi 1 eq_refl).
  destruct (Hc "projector" 0 (Some 1)) as [_ Hpr]; [repeat constructor|]. specialize (Hpr 1 eq_refl). clear Hc.
  change (role_count (v2_assets m) ?r) with (Z.of_nat (length (with_role r m))) in *.
  assert (∀ r a, a ∈ with_role r m → container_path (asset_path a) = Ret ("/models/" +:+ asset_path a)) as Hpath.
  { intros r a Ha. apply list_elem_of_In, filter_In in Ha as [Ha _]. apply container_path_ok.
    destruct (ok_assets _ Hm) as (_ & Hall & _). rewrite Forall_forall in Hall. by apply Hall, list_elem_of_In. }
  destruct (with_role "model" m) as [|f [|]] eqn:Ef; [simpl in *; lia| |simpl in *; lia]. split; [|exists f; split; [done|lia]].
  unfold asset_arguments, asset_args. rewrite Ef. rewrite (proj2 (Nat.leb_le _ 1)) by lia.
  replace (negb (bool_decide ("vision" ∈ v2_capabilities m)) || negb (bool_decide (with_role "projector" m = []))) with true.
  - run_unfold. unfold demand_launch. rewrite (Hpath "model" f) by (rewrite Ef; constructor).
    destruct (with_role "projector" m) as [|p [|]] eqn:Ep; [done| |simpl in *; lia]. rewrite (Hpath "projector" p) by (rewrite Ep; constructor). done.
  - symmetry. case_bool_decide as Hv; [|done]. cbn [negb orb]. apply negb_true_iff, bool_decide_eq_false. intros Hnil.
    pose proof (ok_roles _ Hm "vision" ["model"; "projector"] "projector" Hv eq_refl ltac:(repeat constructor)) as (a & Ha & Hin)%list_elem_of_fmap.
    assert (a ∈ with_role "projector" m) as Hw; [|rewrite Hnil in Hw; by apply not_elem_of_nil in Hw].
    apply list_elem_of_In, filter_In. split; [by apply list_elem_of_In|]. by rewrite <-Ha.
Qed.

(** ** The structural checks never fire *)
Lemma assert_pairs rules k (v : AssetRef → string) l rest : (k = "--model" ∨ k = "--mmproj") →
  assert_server_arguments rules (flat_map (fun a => [k; v a]) l ++ rest) = assert_server_arguments rules rest.
Proof. intros Hk. induction l as [|a l IH]; [done|]. cbn [flat_map app]. rewrite <-IH. by destruct Hk as [->| ->]. Qed.

Lemma flag_cases (P : string * FlagSource → Prop) : Forall P (flag_sources GGUF_LAUNCH_RULES) → ∀ fs, fs ∈ flag_sources GGUF_LAUNCH_RULES → P fs.
Proof. by rewrite Forall_forall. Qed.

Lemma assert_tokens m fs rest : fs ∈ flag_sources GGUF_LAUNCH_RULES →
  assert_server_arguments GGUF_LAUNCH_RULES (flag_tokens m fs ++ rest) = assert_server_arguments GGUF_LAUNCH_RULES rest.
Proof. revert fs. apply (flag_cases (fun fs => _ (flag_tokens m fs ++ rest) = _ rest)). repeat (apply Forall_cons; split; [reflexivity|]). by apply Forall_nil. Qed.

Lemma server_arguments_pass m enabled : assert_server_arguments GGUF_LAUNCH_RULES (asset_args m ++ profile_args m enabled) = Ret tt.
Proof.
  unfold asset_args. rewrite <-app_assoc, !assert_pairs by auto. unfold profile_args.
  assert (∀ l, (∀ fs, fs ∈ l → fs ∈ flag_sources GGUF_LAUNCH_RULES) →
    assert_server_arguments GGUF_LAUNCH_RULES (flat_map (fun fs => if bool_decide (fs.1 ∈ enabled) then flag_tokens m fs else []) l) = Ret tt) as Hl; [|by apply Hl].
  induction l as [|fs l IH]; intros Hin; [done|]. cbn [flat_map].
  assert (∀ fs, fs ∈ l → fs ∈ flag_sources GGUF_LAUNCH_RULES) as Hin' by (intros; apply Hin; by constructor). specialize (IH Hin').
  case_bool_decide; [rewrite assert_tokens by (apply Hin; constructor)|]; exact IH.
Qed.

(** A token that is none of those the check looks for. *)
Definition benign (t : string) : bool :=
  negb (String.eqb t "--entrypoint") && negb (String.eqb t "--privileged")
  && negb (String.eqb t "--gpus" || String.prefix "--gpus=" t) && negb (String.eqb t "--mount").

Lemma benign_first c s : c ≠ "-"%char → benign (String c s) = true.
Proof.
  intros Hc. unfold benign. cbn [String.eqb String.prefix]. destruct (Ascii.eqb_spec c "-"); [done|]. by destruct (ascii_dec "-" c); [subst|].
Qed.
Lemma benign_int n : 0 ≤ n → benign (int_text n) = true.
Proof.
  intros Hn. unfold int_text. rewrite (proj2 (Z.ltb_ge n 0)) by done. destruct (nat_digits n Hn) as (d & ds & -> & Hd & _).
  apply Forall_inv in Hd. unfold JsonTextProps.digit in Hd. cbn [digit_text map concat_text]. apply benign_first. intros E.
  assert (code (byte (48 + d)) = 45) as Ec by by rewrite E. rewrite code_byte in Ec; lia.
Qed.
Lemma benign_image s : IMAGE_DIGEST_RE s = true → String.prefix "--gpus=" s = false → benign s = true.
Proof.
  intros Hs Hp. unfold benign. rewrite Hp, orb_false_r. rewrite !andb_true_iff, !negb_true_iff. split_and!; apply String.eqb_neq; by intros ->.
Qed.

Lemma mounts_benign l rest : forallb benign l = true → mounts_of (l ++ rest) = mounts_of rest.
Proof.
  induction l as [|t l IH]; [done|]. cbn [forallb app mounts_of]. intros [Ht Hl]%andb_true_iff. unfold benign in Ht.
  rewrite !andb_true_iff, !negb_true_iff in Ht. destruct Ht as (_ & ->). by apply IH.
Qed.
Lemma escape_benign pre mount post :
  forallb benign pre = true → benign mount = true → forallb benign post = true →
  assert_no_host_escape (pre ++ "--mount" :: mount :: post) mount =
    demand_launch (negb (existsb (contains "docker.sock") (pre ++ "--mount" :: mount :: post))) "a launch must never mount the Docker socket".
Proof.
  intros Hpre Hm Hpost. unfold assert_no_host_escape. set (args := pre ++ "--mount" :: mount :: post).
  assert (∀ t, t ∈ args → t = "--mount" ∨ benign t = true) as Hall.
  { intros t Ht. unfold args in Ht. rewrite forallb_forall in Hpre, Hpost. apply elem_of_app in Ht as [Ht|Ht]; [right; by apply Hpre, list_elem_of_In|].
    apply elem_of_cons in Ht as [->|Ht]; [by left|]. apply elem_of_cons in Ht as [->|Ht]; [by right|]. right. by apply Hpost, list_elem_of_In. }
  rewrite !bool_decide_false; [|intros Ht; by destruct (Hall _ Ht)..]. replace (existsb (fun t => String.eqb t "--gpus" || String.prefix "--gpus=" t) args) with false.
  2: { symmetry. apply not_true_is_false. intros (t & Ht & Hg)%existsb_exists. apply list_elem_of_In in Ht. destruct (Hall _ Ht) as [->|Hb]; [done|].
       unfold benign in Hb. rewrite !andb_true_iff, !negb_true_iff in Hb. destruct Hb as ((_ & Hb) & _). simpl in Hg. by rewrite Hg in Hb. }
  assert (mounts_of args = Ret [mount]) as ->; [|run_unfold; cbn [negb andb demand_launch]; by rewrite (bool_decide_true ([mount] = [mount])) by done].
  unfold args. rewrite mounts_benign by done.
  change (mounts_of ("--mount" :: mount :: post)) with (ms ← mounts_of (mount :: post); mret (mount :: ms)).
  assert (mounts_of (mount :: post) = Ret []) as ->; [|done]. change (mount :: post) with ([mount] ++ post). rewrite mounts_benign by (simpl; by rewrite Hm).
  rewrite <-(app_nil_r post). by rewrite mounts_benign.
Qed.

(** ** Exactness *)
Lemma profile_benign m enabled : envelope_ok (v2_envelope m) → forallb benign (profile_args m enabled) = true.
Proof.
  intros He. apply forallb_forall. intros t Ht%list_elem_of_In. unfold profile_args in Ht. apply list_elem_of_In, in_flat_map in Ht as (fs & Hfs & Ht).
  case_bool_decide as Hen; [|done]. clear Hen. apply list_elem_of_In in Hfs, Ht. revert fs Hfs Ht. destruct He as (H1 & H2 & H3 & [H4 H5] & H6 & [H7 H8] & H9 & _).
  assert (Forall (fun fs => ∀ t, t ∈ flag_tokens m fs → benign t = true) (flag_sources GGUF_LAUNCH_RULES)) as Hall.
  { repeat (apply Forall_cons; split; [intros t' Hin; repeat (apply elem_of_cons in Hin as [->|Hin];
      [first [reflexivity|apply benign_int; lia]|]); by apply not_elem_of_nil in Hin|]). by apply Forall_nil. }
  intros fs Hfs Ht. rewrite Forall_forall in Hall. by apply (Hall fs).
Qed.
Lemma asset_args_benign m : forallb benign (asset_args m) = true.
Proof.
  unfold asset_args. rewrite forallb_app. apply andb_true_iff. split.
  - induction (with_role "model" m) as [|a l IH]; [done|exact IH].
  - induction (with_role "projector" m) as [|a l IH]; [done|exact IH].
Qed.
Lemma image_benign_options deployment directory digest launch_mode gpu m r : 0 ≤ v2_port m →
  ∃ pre mount, ["docker"; "run"] ++ engine_options deployment directory digest launch_mode gpu m r = pre ++ ["--mount"; mount] ∧
    mount = mount_of directory ∧ forallb benign pre = true ∧ benign mount = true.
Proof.
  intros Hp. eexists (["docker"; "run"; "--name"; _; "--init"; "--rm"; "--restart=no"; _] ++ label_args _ ++ ["--publish"; _]), _.
  split; [unfold engine_options; rewrite <-!app_assoc; reflexivity|]. split_and!; reflexivity.
Qed.

Lemma argv_shape deployment directory digest launch_mode gpu m r :
  launch_argv deployment directory digest launch_mode gpu m r =
    ["docker"; "run"; "--name"; "sms-" +:+ deployment +:+ "-" +:+ v2_model_id m; "--init"; "--rm"; "--restart=no"; "--runtime=" +:+ gpu]
    ++ label_args (launch_labels deployment digest launch_mode m r)
    ++ ["--publish"; "127.0.0.1:" +:+ int_text (v2_port m) +:+ ":" +:+ CONTAINER_SERVER_PORT; "--mount"; mount_of directory; rt_image_digest r]
    ++ asset_args m ++ profile_args m (rt_startup_args r).
Proof. unfold launch_argv, engine_options. rewrite <-!app_assoc. reflexivity. Qed.

Lemma escape_passes deployment directory digest launch_mode gpu m r : model_ok m → runtime_ok r → String.prefix "--gpus=" (rt_image_digest r) = false →
  let args := launch_argv deployment directory digest launch_mode gpu m r in
  assert_no_host_escape args (mount_of directory) =
    demand_launch (negb (existsb (contains "docker.sock") args)) "a launch must never mount the Docker socket".
Proof.
  intros Hm Hr Hg. cbv zeta. destruct (ok_port _ Hm) as [Hp _].
  destruct (image_benign_options deployment directory digest launch_mode gpu m r) as (pre & mount & He & -> & Hpre & Hmount); [lia|].
  unfold launch_argv. rewrite (app_assoc ["docker"; "run"]), He. rewrite <-(app_assoc pre). apply escape_benign; [done|done|].
  cbn [app forallb]. rewrite forallb_app, asset_args_benign, profile_benign by apply Hm. rewrite benign_image; [done|by apply Hr|done].
Qed.

Lemma startable_gguf r p : require_startable_profile r = Ret p → rt_profile_id r = GGUF_PROFILE ∧ PROFILES GGUF_PROFILE = Some p ∧ profile_id p = rt_profile_id r.
Proof.
  unfold require_startable_profile. intros Hp. inv_parse. rename select (PROFILES _ = Some _) into Hf. revert Hf. unfold PROFILES.
  destruct (String.eqb_spec (rt_profile_id r) GGUF_PROFILE) as [->|].
  - intros [= <-]. done.
  - destruct (String.eqb_spec (rt_profile_id r) HF_SHARDED_PROFILE); [|done]. by intros [= <-].
Qed.
Lemma gguf_startable r : rt_profile_id r = GGUF_PROFILE → ∃ p, require_startable_profile r = Ret p ∧ profile_id p = GGUF_PROFILE.
Proof. intros E. unfold require_startable_profile. rewrite E. by eexists. Qed.
Lemma production_measured m r : rt_profile_id r = GGUF_PROFILE → model_ok m →
  launch_error_of (require_production_openable m r) = Ret tt ↔ v2_measured m = true.
Proof.
  intros E Hm. unfold require_production_openable. destruct (gguf_startable r E) as (p & -> & _). run_unfold. destruct (ok_measurement _ Hm) as [Hb _].
  destruct (v2_measured m); [|split; done]. destruct Hb as [H1 H2]. rewrite !bool_decide_true by done. done.
Qed.

Lemma launch_error_ret {A} (m : outcome A) a : launch_error_of m = Ret a ↔ m = Ret a.
Proof. destruct m as [?|[]]; simpl; naive_solver. Qed.
Lemma escape_image args mount r : assert_no_host_escape args mount = Ret tt → r ∈ args → String.prefix "--gpus=" r = false.
Proof.
  unfold assert_no_host_escape. intros He Hr. inv_parse. repeat match goal with H : demand_launch _ _ = Ret _ |- _ => apply demand_launch_ret in H end. bool_prop.
  rename select (existsb (fun t => _ || String.prefix _ t) _ = false) into Hx. apply not_true_is_false. intros Hp.
  assert (existsb (fun t => String.eqb t "--gpus" || String.prefix "--gpus=" t) args = true) as Ht; [|congruence].
  apply existsb_exists. exists r. split; [by apply list_elem_of_In|]. by rewrite Hp, orb_true_r.
Qed.
Ltac inv_launch := inv_parse; repeat match goal with H : demand_launch _ _ = Ret _ |- _ => apply demand_launch_ret in H end; bool_prop.

Section exact.
Context (registration : DeploymentSpec) (Hok : deployment_ok registration).
Context (deployment directory digest launch_mode gpu : string) (budget : option Z).

Lemma lookup_model_ret model_id m r : lookup_model registration model_id = Ret (m, r) ↔
  m ∈ dep_models registration ∧ v2_model_id m = model_id ∧ find_runtime (dep_runtimes registration) (v2_runtime_id m) = Some r.
Proof.
  assert (∀ m, m ∈ dep_models registration →
    lookup_last rt_runtime_id (v2_runtime_id m) (dep_runtimes registration) = find_runtime (dep_runtimes registration) (v2_runtime_id m)) as Hfind.
  { intros m0 Hm. destruct (ok_bindings _ Hok m0 Hm) as (r0 & p & Hf & _). rewrite Hf. unfold find_runtime in Hf. apply List.find_some in Hf as [Hin Hid].
    apply String.eqb_eq in Hid. rewrite <-Hid. apply lookup_last_unique; [apply Hok|by apply list_elem_of_In]. }
  unfold lookup_model. split.
  - intros Hl. inv_parse. rename select (lookup_last v2_model_id _ _ = Some _) into Hm. apply lookup_last_some in Hm as [Hm <-].
    rename select (lookup_last rt_runtime_id _ _ = Some _) into Hr. simplify_eq. rewrite Hfind in Hr by done. done.
  - intros (Hm & <- & Hr). rewrite (lookup_last_unique v2_model_id) by (done || apply Hok). run_unfold. by rewrite Hfind, Hr.
Qed.

Lemma registered_facts m r : m ∈ dep_models registration → find_runtime (dep_runtimes registration) (v2_runtime_id m) = Some r →
  model_ok m ∧ runtime_ok r ∧ ∀ p, PROFILES (rt_profile_id r) = Some p → fits_profile m p.
Proof.
  intros Hm Hr. destruct (ok_models _ Hok) as [_ Hms]. destruct (ok_runtimes _ Hok) as (_ & Hrs & _). rewrite Forall_forall in Hms. rewrite Forall_forall in Hrs.
  split_and!; [by apply Hms| |].
  - unfold find_runtime in Hr. apply List.find_some in Hr as [Hin _]. by apply Hrs, list_elem_of_In.
  - intros p Hp. destruct (ok_bindings _ Hok m Hm) as (r' & p' & Hr' & Hp' & Hfit). congruence.
Qed.

Lemma launch_sound model_id l :
  render_container_launch registration model_id deployment directory digest launch_mode gpu budget = Ret l →
  ∃ m r, m ∈ dep_models registration ∧ v2_model_id m = model_id ∧ find_runtime (dep_runtimes registration) (v2_runtime_id m) = Some r ∧
    launchable deployment directory digest launch_mode gpu budget m r ∧ l = launch_of deployment directory digest launch_mode gpu m r.
Proof.
  unfold render_container_launch, check_deployment_id, check_config_sha256, check_model_directory, check_container_runtime. intros Hl.
  inv_launch. rename select (lookup_model _ _ = Ret _) into Hlk. destruct x5 as [m r]. apply lookup_model_ret in Hlk as (Hm & Hid & Hr).
  inv_launch. rename select (asset_arguments m = _) into Has'. rename select (launch_error_of (require_startable_profile _) = _) into Hst. apply (proj1 (launch_error_ret _ _)) in Hst.
  destruct (startable_gguf _ _ Hst) as (Hg & HP & Hpid). destruct (registered_facts m r Hm Hr) as (Hmok & Hrok & Hfit).
  destruct (gguf_fits m _ HP Hmok (Hfit _ ltac:(by rewrite Hg))) as [Has _].
  rename select (LAUNCH_RULES _ = Some _) into Hru. rewrite Hpid, Hg in Hru. injection Hru as <-.
  rename select (render_flags _ _ _ = _) into Hfl. apply render_flags_ret in Hfl as (Hf1 & Hf2 & ->).
  rewrite Has in Has'. injection Has' as <-.
  rename select (assert_no_host_escape _ _ = _) into Hesc. rewrite Hpid in *.
  change (assert_no_host_escape ?a _) with (assert_no_host_escape (launch_argv x1 x3 x2 launch_mode x4 m r) (mount_of x3)) in Hesc.
  assert (String.prefix "--gpus=" (rt_image_digest r) = false) as Hpre.
  { destruct x15. apply (escape_image _ _ _ Hesc). rewrite argv_shape. apply elem_of_app. right. apply elem_of_app. right. repeat constructor. } rewrite escape_passes in Hesc by done. apply demand_launch_ret, negb_true_iff in Hesc.
  exists m, r. split_and!; [done..| |reflexivity]. split; try done.
  + rename select (_ ∨ _) into Hmode. rewrite !String.eqb_eq in Hmode. destruct Hmode as [->| ->].
    * change (LAB =? PRODUCTION)%string with false in *. cbv iota in *. inv_launch. right. split; [done|].
      destruct budget as [n|]; [|done]. bool_prop. eauto.
    * change (PRODUCTION =? PRODUCTION)%string with true in *. cbv iota in *. inv_launch. left. destruct x10. split_and!; try done.
      by apply (proj1 (production_measured m r Hg Hmok)).
  + split_and!; try done. by apply String.eqb_neq.
Qed.

Lemma launch_complete m r : m ∈ dep_models registration → find_runtime (dep_runtimes registration) (v2_runtime_id m) = Some r →
  launchable deployment directory digest launch_mode gpu budget m r →
  render_container_launch registration (v2_model_id m) deployment directory digest launch_mode gpu budget =
    Ret (launch_of deployment directory digest launch_mode gpu m r).
Proof.
  intros Hm Hr [Hmode (Hd & Hs & Hc) (Hdir & Hne & Hdots & Hcomma) Hg Hf1 Hf2 [Hgp Hsock]].
  destruct (registered_facts m r Hm Hr) as (Hmok & Hrok & Hfit). destruct (gguf_startable r Hg) as (p & Hst & Hpid).
  destruct (startable_gguf _ _ Hst) as (_ & HP & _). destruct (gguf_fits m _ HP Hmok (Hfit _ ltac:(by rewrite Hg))) as [Has _].
  unfold render_container_launch, check_deployment_id, check_config_sha256, check_model_directory, check_container_runtime.
  rewrite Hd, Hs, Hc, Hdir, Hcomma, (bool_decide_false (".." ∈ _)) by done. rewrite (proj2 (String.eqb_neq directory "/")) by done.
  rewrite (proj2 (lookup_model_ret (v2_model_id m) m r)) by done. run_unfold. rewrite Hst. cbn [launch_error_of]. rewrite Hpid.
  change (LAUNCH_RULES GGUF_PROFILE) with (Some GGUF_LAUNCH_RULES). cbv iota.
  rewrite (proj2 (render_flags_ret m r _) (conj Hf1 (conj Hf2 eq_refl))), Has, server_arguments_pass. rewrite <-Hg.
  cbn [negb andb demand_launch]. cbv beta iota zeta.
  change (assert_no_host_escape ?a (mount_of directory)) with (assert_no_host_escape (launch_argv deployment directory digest launch_mode gpu m r) (mount_of directory)).
  rewrite escape_passes by done. cbv zeta. rewrite Hsock. cbn [negb andb orb demand_launch].
  destruct Hmode as [(-> & -> & Hme)|(-> & n & -> & Hn)].
  + change (PRODUCTION =? PRODUCTION)%string with true. change (PRODUCTION =? LAB)%string with false. cbv iota. cbn [orb demand_launch].
    rewrite (proj2 (production_measured m r Hg Hmok) Hme). reflexivity.
  + change (LAB =? PRODUCTION)%string with false. change (LAB =? LAB)%string with true. cbv iota. cbn [orb demand_launch].
    rewrite (proj2 (Z.ltb_lt 0 n) Hn). reflexivity.
Qed.

(** C38: a launch exists exactly for what the profile can express: on a registered
    deployment the renderer succeeds if and only if the model is registered and
    [launchable] (mode and budget or measurement, well-formed inputs, a
    startable profile, every enabled flag with a source, every required flag
    enabled, the image flag exactly with vision, no socket in any token), and
    then it is the reference vector; in particular the structural re-checks
    refuse nothing beyond an image that reads as [--gpus=] or a socket path. *)
Theorem launch_exact model_id l :
  render_container_launch registration model_id deployment directory digest launch_mode gpu budget = Ret l ↔
  ∃ m r, m ∈ dep_models registration ∧ v2_model_id m = model_id ∧ find_runtime (dep_runtimes registration) (v2_runtime_id m) = Some r ∧
    launchable deployment directory digest launch_mode gpu budget m r ∧ l = launch_of deployment directory digest launch_mode gpu m r.
Proof.
  split; [apply launch_sound|]. intros (m & r & Hm & <- & Hr & Hl & ->). by apply launch_complete.
Qed.
End exact.

(** ** How the container engine reads the vector

    [docker run] takes options until the first token that is not one, which is
    the image; what follows is the container's own command line. *)
Definition with_option (o : string * string) (r : option (list (string * string) * string * list string)) :=
  match r with Some (opts, image, cmd) => Some (o :: opts, image, cmd) | None => None end.
Fixpoint engine_reads (args : list string) : option (list (string * string) * string * list string) :=
  match args with
  | [] => None
  | t :: rest =>
      if bool_decide (t ∈ ["--name"; "--label"; "--publish"; "--mount"]) then
        match rest with
        | v :: rest => with_option (t, v) (engine_reads rest)
        | [] => None
        end
      else if bool_decide (t ∈ ["--init"; "--rm"; "--restart=no"]) || String.prefix "--runtime=" t then
        with_option (t, "") (engine_reads rest)
      else if String.prefix "-" t then None
      else Some ([], t, rest)
  end.

Lemma prefix_app a b : String.prefix a (a +:+ b) = true.
Proof.
  induction a as [|c a IH]; [by destruct b|]. change (String.prefix (String c a) (String c (a +:+ b)) = true). cbn [String.prefix].
  by destruct (ascii_dec c c).
Qed.
Lemma reads_valued t v rest : t ∈ ["--name"; "--label"; "--publish"; "--mount"] → engine_reads (t :: v :: rest) = with_option (t, v) (engine_reads rest).
Proof. intros Ht. cbn [engine_reads]. by rewrite bool_decide_true. Qed.
Lemma reads_runtime g rest : engine_reads (("--runtime=" +:+ g) :: rest) = with_option ("--runtime=" +:+ g, "") (engine_reads rest).
Proof. cbn [engine_reads]. rewrite prefix_app, orb_true_r. rewrite bool_decide_false; [done|].
  intros Hin. repeat (apply elem_of_cons in Hin as [E|Hin]; [discriminate E|]). by apply not_elem_of_nil in Hin. Qed.
Lemma reads_labels l rest opts image cmd : engine_reads rest = Some (opts, image, cmd) →
  engine_reads (label_args l ++ rest) = Some (map (fun kv => ("--label", kv.1 +:+ "=" +:+ kv.2)) l ++ opts, image, cmd).
Proof.
  intros Hr. induction l as [|[k v] l IH]; [done|]. cbn [label_args flat_map app]. fold (label_args l).
  rewrite reads_valued by (repeat constructor). by rewrite IH.
Qed.
Lemma reads_image image cmd : String.prefix "-" image = false → engine_reads (image :: cmd) = Some ([], image, cmd).
Proof.
  intros Hd. cbn [engine_reads].
  rewrite !bool_decide_false; [|intros Hin; repeat (apply elem_of_cons in Hin as [E|Hin]; [by rewrite E in Hd|]); by apply not_elem_of_nil in Hin..].
  assert (String.prefix "--runtime=" image = false) as ->; [|by rewrite Hd].
  destruct image as [|c s]; [done|]. cbn [String.prefix] in *. destruct (ascii_dec "-" c); [by destruct s|done].
Qed.

(** A rendered launch cannot reach the host: as long as the registered image
    does not itself read as an option, the engine sees exactly this image and
    the server arguments of the profile, one mount, of the verified directory
    and read-only, one published port, on the loopback address, and no other
    option than the name, the labels, [--init], [--rm], [--restart=no] and the
    runtime; and the name and the labels tell deployments and models apart. *)
Theorem launch_confined registration (Hok : deployment_ok registration) model_id deployment directory digest launch_mode gpu budget l :
  render_container_launch registration model_id deployment directory digest launch_mode gpu budget = Ret l →
  String.prefix "-" (l_image_digest l) = false →
  ∃ opts, engine_reads (skipn 2 (argv l)) = Some (opts, l_image_digest l, server_args l) ∧
    map snd (List.filter (fun o => String.eqb o.1 "--mount") opts) = ["type=bind,src=" +:+ directory +:+ ",dst=/models,readonly"] ∧
    map snd (List.filter (fun o => String.eqb o.1 "--publish") opts) = ["127.0.0.1:" +:+ int_text (l_port l) +:+ ":8080"] ∧
    map snd (List.filter (fun o => String.eqb o.1 "--name") opts) = [container_name l] ∧
    map snd (List.filter (fun o => String.eqb o.1 "--label") opts) = map (fun kv => kv.1 +:+ "=" +:+ kv.2) (labels l) ∧
    (∀ o, o ∈ opts → o.1 ∈ ["--name"; "--label"; "--publish"; "--mount"; "--init"; "--rm"; "--restart=no"; "--runtime=" +:+ gpu]).
Proof.
  intros (m & r & Hm & <- & Hr & Hl & ->)%launch_sound Hdash; [|done]. cbn [argv launch_of l_image_digest server_args l_port labels container_name] in *.
  exists ([("--name", "sms-" +:+ deployment +:+ "-" +:+ v2_model_id m); ("--init", ""); ("--rm", ""); ("--restart=no", ""); ("--runtime=" +:+ gpu, "")]
    ++ map (fun kv => ("--label", kv.1 +:+ "=" +:+ kv.2)) (launch_labels deployment digest launch_mode m r)
    ++ [("--publish", "127.0.0.1:" +:+ int_text (v2_port m) +:+ ":8080"); ("--mount", "type=bind,src=" +:+ directory +:+ ",dst=/models,readonly")]).
  split_and!; try reflexivity.
  - unfold launch_argv, engine_options. cbn [skipn app]. rewrite reads_valued by (repeat constructor).
    change (engine_reads ("--init" :: "--rm" :: "--restart=no" :: ?rest)) with
      (with_option ("--init", "") (with_option ("--rm", "") (with_option ("--restart=no", "") (engine_reads rest)))).
    rewrite reads_runtime, <-app_assoc. cbn [app]. erewrite reads_labels; [reflexivity|]. rewrite !reads_valued by (repeat constructor).
    by rewrite reads_image.
  - intros o Ho. cbn [app map launch_labels] in Ho.
    repeat (apply elem_of_cons in Ho as [->|Ho]; [cbn [fst]; repeat constructor|]). by apply not_elem_of_nil in Ho.
Qed.

(** ** Launches of a deployment *)
Definition serving_runtime (image : string) : RuntimeSpec :=
  {| rt_runtime_id := "llama-r1"; rt_profile_id := GGUF_PROFILE; rt_image_digest := image +:+ "@sha256:" +:+ demo_sha;
     rt_adapter_sha256 := demo_sha; rt_lock_sha256 := demo_sha;
     rt_startup_args := ["--no-webui"; "--port"; "--host"; "--parallel"; "--kv-unified-per-slot"; "--n-gpu-layers"] |}.
Definition serving (image : string) : DeploymentSpec := {| dep_runtimes := [serving_runtime image]; dep_models := [demo_chat] |}.

Lemma serving_ok image : parse_deployment (deployment_json (serving image)) = Ret (serving image) → deployment_ok (serving image).
Proof. apply parse_deployment_ok. Qed.

Lemma launch_exact_witness : ∃ l,
  render_container_launch (serving "registry/llama") "chat-8b" "edge-1" "/srv/models" demo_sha PRODUCTION "nvidia" None = Ret l ∧
  server_args l = ["--model"; "/models/chat/8b.gguf"; "--parallel"; "2"; "--kv-unified-per-slot"; "8192"; "--n-gpu-layers"; "99"; "--no-webui";
                   "--host"; "0.0.0.0"; "--port"; "8080"].
Proof.
  assert (deployment_ok (serving "registry/llama")) as Hok by (apply serving_ok; vm_compute; reflexivity).
  assert (∃ l, render_container_launch (serving "registry/llama") "chat-8b" "edge-1" "/srv/models" demo_sha PRODUCTION "nvidia" None = Ret l) as [l Hl]
    by (eexists; vm_compute; reflexivity).
  exists l. split; [exact Hl|].
  destruct (proj1 (launch_exact _ Hok "edge-1" "/srv/models" demo_sha PRODUCTION "nvidia" None "chat-8b" l) Hl) as (m & r & Hm & _ & Hr & _ & ->).
  apply list_elem_of_singleton in Hm as ->. injection Hr as <-. vm_compute. reflexivity.
Defined.

Lemma launch_confined_witness : ∃ l opts,
  render_container_launch (serving "registry/llama") "chat-8b" "edge-1" "/srv/models" demo_sha LAB "nvidia" (Some 4096) = Ret l ∧
  engine_reads (skipn 2 (argv l)) = Some (opts, l_image_digest l, server_args l).
Proof.
  assert (deployment_ok (serving "registry/llama")) as Hok by (apply serving_ok; vm_compute; reflexivity).
  destruct (render_container_launch (serving "registry/llama") "chat-8b" "edge-1" "/srv/models" demo_sha LAB "nvidia" (Some 4096)) as [l|] eqn:Hl;
    [|vm_compute in Hl; discriminate Hl].
  assert (String.prefix "-" (l_image_digest l) = false) as Hd by (vm_compute in Hl; injection Hl as <-; vm_compute; reflexivity).
  destruct (launch_confined _ Hok "chat-8b" "edge-1" "/srv/models" demo_sha LAB "nvidia" (Some 4096) l Hl Hd) as (opts & Ho & _).
  by exists l, opts.
Defined.

(** An image reference may begin with a dash: it is registered and rendered, and
    the engine takes it for an option, not for the image. *)
Example dash_image_rendered :
  parse_deployment (deployment_json (serving "--env=A")) = Ret (serving "--env=A") ∧
  ∃ l, render_container_launch (serving "--env=A") "chat-8b" "edge-1" "/srv/models" demo_sha PRODUCTION "nvidia" None = Ret l ∧
    engine_reads (skipn 2 (argv l)) = None.
Proof. split; [vm_compute; reflexivity|]. eexists. split; vm_compute; reflexivity. Qed.
(** A model of an embeddings runtime has no launch yet. *)
Example embeddings_refused :
  capability_flags ["embeddings"] = Ret ["--embedding"; "--pooling"] ∧ has_source GGUF_LAUNCH_RULES "--embedding" = false.
Proof. split; vm_compute; reflexivity. Qed.
