(* ===== verification/Instant.v ===== *)
(** * Instants

    [canonical_utc] of [model_scheduler/process_observer.py], the one spelling
    an instance identity keeps for a start time, with what it uses of
    [datetime]: [fromisoformat], the proleptic Gregorian calendar, the shift to
    UTC and [strftime] (whose [%Y] does not pad the year). *)

From S2P Require Import Prelude Text Registration JsonText JsonTextProps.
From Stdlib Require Import Ascii.
Local Open Scope Z_scope.

Definition unobserved {A} (msg : string) : outcome A := Raise (ObservationError msg).

(** ** The calendar *)
Definition leap (y : Z) : bool := (y mod 4 =? 0) && (negb (y mod 100 =? 0) || (y mod 400 =? 0)).
Definition days_before_year (y : Z) : Z := let y := y - 1 in y * 365 + y / 4 - y / 100 + y / 400.
Definition month_lengths (y : Z) : list Z := [31; if leap y then 29 else 28; 31; 30; 31; 30; 31; 31; 30; 31; 30; 31].
Definition days_in_month (y m : Z) : Z := nth (Z.to_nat (m - 1)) (month_lengths y) 0.
Definition days_before_month (y m : Z) : Z := fold_right Z.add 0 (firstn (Z.to_nat (m - 1)) (month_lengths y)).
(** Day 0 is 0001-01-01. *)
Definition ymd2ord (y m d : Z) : Z := days_before_year y + days_before_month y m + (d - 1).

(** The year of a day is next to its quotient by the mean year. *)
Definition year_of (n : Z) : Z :=
  let y := 400 * n / 146097 + 1 in
  if n <? days_before_year y then y - 1 else if n <? days_before_year (y + 1) then y else y + 1.
(** The month and the day of month of a day of the year. *)
Fixpoint month_of (m n : Z) (lengths : list Z) : Z * Z :=
  match lengths with
  | [] => (m, n + 1)
  | [_] => (m, n + 1)
  | len :: lengths => if n <? len then (m, n + 1) else month_of (m + 1) (n - len) lengths
  end.
Definition ord2ymd (n : Z) : Z * Z * Z :=
  let y := year_of n in
  let '(m, d) := month_of 1 (n - days_before_year y) (month_lengths y) in
  (y, m, d).

Definition SECONDS_PER_DAY : Z := 86400.
Definition LAST_DAY : Z := 3652058.

(** ** Reading: [_ISO_INSTANT] *)

(** The zeros of the decimal digits [\d] matches (category Nd). *)
Definition DIGIT_ZEROS : list Z :=
  [48; 1632; 1776; 1984; 2406; 2534; 2662; 2790; 2918; 3046; 3174; 3302; 3430; 3558; 3664; 3792; 3872; 4160; 4240; 6112;
   6160; 6470; 6608; 6784; 6800; 6992; 7088; 7232; 7248; 42528; 43216; 43264; 43472; 43504; 43600; 44016; 65296; 66720;
   68912; 69734; 69872; 69942; 70096; 70384; 70736; 70864; 71248; 71360; 71472; 71904; 72016; 72784; 73040; 73120; 73552;
   92768; 92864; 93008; 120782; 120792; 120802; 120812; 120822; 123200; 123632; 124144; 125264; 130032].
Definition is_decimal (cp : Z) : bool := existsb (fun z => (z <=? cp) && (cp <=? z + 9)) DIGIT_ZEROS.

(** A template: [None] stands for a digit. *)
Fixpoint take_shape (shape : list (option Z)) (l : list Z) : option (list Z * list Z) :=
  match shape, l with
  | [], _ => Some ([], l)
  | p :: shape, c :: l =>
      if match p with None => is_decimal c | Some k => c =? k end
      then '(taken, rest) ← take_shape shape l; Some (c :: taken, rest) else None
  | _, [] => None
  end.
Definition D : option Z := None.
Definition BASE_SHAPE : list (option Z) :=
  [D; D; D; D; Some 45; D; D; Some 45; D; D; Some 84; D; D; Some 58; D; D; Some 58; D; D].
Fixpoint take_decimals (l : list Z) : list Z * list Z :=
  match l with
  | c :: l' => if is_decimal c then let '(ds, r) := take_decimals l' in (c :: ds, r) else ([], l)
  | [] => ([], [])
  end.

Record Match := { m_base : list Z; m_fraction : list Z; m_offset : list Z }.

(** [Z|[+-]\d{2}:\d{2}], to the end of the text *)
Definition offset_shape (l : list Z) : bool :=
  match l with
  | [90] => true
  | s :: l => bool_decide (s ∈ [43; 45]) && match take_shape [D; D; Some 58; D; D] l with Some (_, []) => true | _ => false end
  | [] => false
  end.
Definition iso_match (l : list Z) : option Match :=
  '(base, rest) ← take_shape BASE_SHAPE l;
  match rest with
  | 46 :: rest =>
      let '(fraction, offset) := take_decimals rest in
      if negb (bool_decide (fraction = [])) && offset_shape offset
      then Some {| m_base := base; m_fraction := fraction; m_offset := offset |} else None
  | _ => if offset_shape rest then Some {| m_base := base; m_fraction := []; m_offset := rest |} else None
  end.

(** [s.rstrip("0")] *)
Fixpoint rstrip0 (l : list Z) : list Z :=
  match l with
  | [] => []
  | c :: l => match rstrip0 l with [] => if c =? 48 then [] else [c] | r => c :: r end
  end.

(** ** [datetime.fromisoformat] on a matched text: only ASCII digits pass *)
Definition ascii_digit (c : Z) : option Z := if (48 <=? c) && (c <=? 57) then Some (c - 48) else None.
Fixpoint read_digits_from (acc : Z) (l : list Z) : option Z :=
  match l with
  | [] => Some acc
  | c :: l => d ← ascii_digit c; read_digits_from (10 * acc + d) l
  end.
Definition field_at (i n : nat) (l : list Z) : option Z := read_digits_from 0 (firstn n (skipn i l)).

(** Seconds of local time since 0001-01-01. *)
Definition local_seconds (base : list Z) : option Z :=
  y ← field_at 0 4 base; mo ← field_at 5 2 base; d ← field_at 8 2 base;
  h ← field_at 11 2 base; mi ← field_at 14 2 base; s ← field_at 17 2 base;
  if (1 <=? y) && (1 <=? mo) && (mo <=? 12) && (1 <=? d) && (d <=? days_in_month y mo) && (h <=? 23) && (mi <=? 59) && (s <=? 59)
  then Some (SECONDS_PER_DAY * ymd2ord y mo d + 3600 * h + 60 * mi + s) else None.
(** The offset in seconds, strictly within a day; its minutes are not checked. *)
Definition offset_seconds (offset : list Z) : option Z :=
  match offset with
  | [90] => Some 0
  | s :: l =>
      h ← field_at 0 2 l; m ← field_at 3 2 l;
      let n := 3600 * h + 60 * m in
      if n <? SECONDS_PER_DAY then Some (if s =? 45 then - n else n) else None
  | [] => None
  end.

(** ** The canonical spelling *)
Record instant := { at_second : Z; at_fraction : list Z }.
#[export] Instance instant_eq_dec : EqDecision instant.
Proof. solve_decision. Defined.

Definition two_digits (n : Z) : string := String (byte (48 + n / 10)) (String (byte (48 + n mod 10)) "").
(** [strftime('%Y-%m-%dT%H:%M:%S')], the fraction and [Z] *)
Definition instant_text (i : instant) : string :=
  let day := at_second i / SECONDS_PER_DAY in
  let t := at_second i mod SECONDS_PER_DAY in
  let '(y, m, d) := ord2ymd day in
  nat_text y +:+ "-" +:+ two_digits m +:+ "-" +:+ two_digits d +:+ "T" +:+ two_digits (t / 3600) +:+ ":"
  +:+ two_digits (t / 60 mod 60) +:+ ":" +:+ two_digits (t mod 60)
  +:+ (if bool_decide (at_fraction i = []) then "" else "." +:+ concat_text (utf8 <$> at_fraction i)) +:+ "Z".

(** The instant a text denotes: [parsed.astimezone(UTC)], with every digit of
    the fraction but its trailing zeros. *)
Definition parse_instant (value : string) : outcome instant :=
  m ← of_option (ObservationError "invalid start time") (iso_match (strip (codepoints value)));
  let fraction := rstrip0 (m_fraction m) in
  match local_seconds (m_base m), read_digits_from 0 (firstn 6 fraction), offset_seconds (m_offset m) with
  | Some local, Some _, Some offset =>
      let utc := local - offset in
      if (0 <=? utc) && (utc <? SECONDS_PER_DAY * (LAST_DAY + 1)) then Ret {| at_second := utc; at_fraction := fraction |}
      else Raise (OverflowError "date value out of range")
  | _, _, _ => unobserved "invalid start time"
  end.
Definition canonical_utc (value : string) : outcome string := instant_text <$> parse_instant value.

(** ** Theorems on instants: two start times have one spelling exactly when they
    are the same instant, and a canonical spelling is its own. *)
(** *** The calendar *)
Lemma year_of_spec n : 0 ≤ n → 1 ≤ year_of n ∧ days_before_year (year_of n) ≤ n < days_before_year (year_of n + 1).
Proof.
  intros Hn. unfold year_of.
  assert (days_before_year (400 * n / 146097 + 1 - 1) ≤ n < days_before_year (400 * n / 146097 + 1 + 1 + 1)) as Hb
    by (unfold days_before_year; Z.div_mod_to_equations; lia).
  assert (days_before_year 1 = 0) as H1 by reflexivity.
  destruct (n <? _) eqn:E; bool_prop; [|destruct (n <? days_before_year _) eqn:E2; bool_prop].
  - assert (400 * n / 146097 + 1 - 1 + 1 = 400 * n / 146097 + 1) as -> by lia. split; [|lia].
    destruct (Z.eq_dec (400 * n / 146097) 0) as [Ez|]; [|Z.div_mod_to_equations; lia].
    rewrite Ez in E. change (0 + 1) with 1 in E. lia.
  - split; [Z.div_mod_to_equations; lia|lia].
  - split; [Z.div_mod_to_equations; lia|lia].
Qed.

Lemma year_length y : days_before_year (y + 1) - days_before_year y = fold_right Z.add 0 (month_lengths y).
Proof.
  unfold days_before_year, month_lengths, leap. cbn [fold_right].
  destruct (y mod 4 =? 0) eqn:E4, (y mod 100 =? 0) eqn:E1, (y mod 400 =? 0) eqn:E5; cbn [andb orb negb]; bool_prop;
    Z.div_mod_to_equations; lia.
Qed.

Lemma month_of_spec lengths : ∀ m0 n m d, lengths ≠ [] → 0 ≤ n < fold_right Z.add 0 lengths →
  month_of m0 n lengths = (m, d) →
  m0 ≤ m < m0 + Z.of_nat (length lengths) ∧ 1 ≤ d ≤ nth (Z.to_nat (m - m0)) lengths 0 ∧
  fold_right Z.add 0 (firstn (Z.to_nat (m - m0)) lengths) + (d - 1) = n.
Proof.
  induction lengths as [|len [|len' lengths] IH]; intros m0 n m d Hne Hn E; [done| |].
  - simpl in E, Hn. simplify_eq. rewrite Z.sub_diag. simpl. lia.
  - cbn [month_of] in E. destruct (n <? len) eqn:El; bool_prop.
    + simplify_eq. rewrite Z.sub_diag. simpl. lia.
    + destruct (IH (m0 + 1) (n - len) m d) as (Hm & Hd & Hs); [done|cbn [fold_right] in *; lia|done|].
      replace (Z.to_nat (m - m0)) with (S (Z.to_nat (m - (m0 + 1)))) by lia.
      cbn [nth firstn fold_right length] in *. lia.
Qed.

(** A day has exactly one date. *)
Lemma ord2ymd_spec n y m d : 0 ≤ n → ord2ymd n = (y, m, d) →
  1 ≤ y ∧ 1 ≤ m ≤ 12 ∧ 1 ≤ d ≤ days_in_month y m ∧ ymd2ord y m d = n ∧ (n ≤ LAST_DAY → y ≤ 9999).
Proof.
  intros Hn. unfold ord2ymd. destruct (month_of _ _ _) as [m' d'] eqn:E. intros; simplify_eq.
  destruct (year_of_spec n Hn) as (Hy & Hl & Hu). pose proof (year_length (year_of n)) as Hyl.
  apply month_of_spec in E as (Hm & Hd & Hs); [|done|lia].
  cbn [length month_lengths] in Hm. unfold ymd2ord, days_in_month, days_before_month.
  split_and!; try lia; try done. intros Hlast.
  destruct (decide (year_of n ≤ 9999)) as [|Hbig]; [done|].
  assert (days_before_year 10000 ≤ days_before_year (year_of n)) by (unfold days_before_year; Z.div_mod_to_equations; lia).
  assert (days_before_year 10000 = LAST_DAY + 1) by reflexivity. lia.
Qed.
Lemma days_in_month_bound y m : days_in_month y m ≤ 31.
Proof.
  unfold days_in_month, month_lengths. destruct (leap y), (Z.to_nat (m - 1)) as [|[|[|[|[|[|[|[|[|[|[|[|k]]]]]]]]]]]]; simpl; lia || (destruct k; lia).
Qed.

(** *** Spelling *)
Lemma codepoints_ascii_app a s : is_ascii a = true → codepoints (a +:+ s) = map code (chars a) ++ codepoints s.
Proof.
  unfold is_ascii. induction a as [|c a IH]; intros Ha; [done|].
  change (forallb (fun c => code c <? 128) (c :: chars a) = true) in Ha. cbn [forallb] in Ha.
  apply andb_true_iff in Ha as [Hc Ha]. change (String c a +:+ s) with (String c (a +:+ s)).
  cbn [codepoints]. rewrite Hc, IH by done. done.
Qed.
Lemma codepoints_concat f s : Forall (fun cp => 0 ≤ cp < 1114112) f → codepoints (concat_text (utf8 <$> f) +:+ s) = f ++ codepoints s.
Proof.
  induction 1 as [|cp f Hcp Hf IH]; [done|]. change (concat_text (utf8 <$> cp :: f)) with (utf8 cp +:+ concat_text (utf8 <$> f)).
  rewrite append_assoc, codepoints_utf8 by done. by rewrite IH.
Qed.
Lemma decimal_range cp : is_decimal cp = true → 0 ≤ cp < 1114112.
Proof. intros (z & Hz & Hr)%existsb_exists. bool_prop. repeat (destruct Hz as [<-|Hz]; [lia|]). done. Qed.
Lemma decimal_digit d : 0 ≤ d ≤ 9 → is_decimal (48 + d) = true.
Proof. intros Hd. cbn [is_decimal existsb DIGIT_ZEROS]. apply orb_true_iff. left. apply andb_true_iff. split; apply Z.leb_le; lia. Qed.

Definition two_points (n : Z) : list Z := [48 + n / 10; 48 + n mod 10].
Definition year_points (y : Z) : list Z := map code (chars (nat_text y)).
(** The code points of a spelling. *)
Definition instant_points (i : instant) : list Z :=
  let day := at_second i / SECONDS_PER_DAY in
  let t := at_second i mod SECONDS_PER_DAY in
  let '(y, m, d) := ord2ymd day in
  year_points y ++ 45 :: two_points m ++ 45 :: two_points d ++ 84 :: two_points (t / 3600) ++ 58 :: two_points (t / 60 mod 60)
  ++ 58 :: two_points (t mod 60) ++ (if bool_decide (at_fraction i = []) then [] else 46 :: at_fraction i) ++ [90].

Record instant_ok (i : instant) : Prop := {
  ok_range : 0 ≤ at_second i < SECONDS_PER_DAY * (LAST_DAY + 1);
  ok_decimals : Forall (fun cp => is_decimal cp = true) (at_fraction i);
  ok_stripped : rstrip0 (at_fraction i) = at_fraction i;
  ok_micro : is_Some (read_digits_from 0 (firstn 6 (at_fraction i)));
}.

Lemma two_digits_ascii n : 0 ≤ n < 100 → is_ascii (two_digits n) = true ∧ map code (chars (two_digits n)) = two_points n.
Proof.
  intros Hn. unfold two_digits, two_points, is_ascii. cbn [chars String.list_ascii_of_string map forallb].
  rewrite !code_byte by (Z.div_mod_to_equations; lia). split; [|done].
  rewrite !andb_true_iff. split_and!; [| |done]; apply Z.ltb_lt; Z.div_mod_to_equations; lia.
Qed.
Lemma codepoints_two n s : 0 ≤ n < 100 → codepoints (two_digits n +:+ s) = two_points n ++ codepoints s.
Proof. intros Hn. destruct (two_digits_ascii n Hn) as [Ha <-]. by apply codepoints_ascii_app. Qed.
Lemma codepoints_one c s : code c < 128 → codepoints (String c "" +:+ s) = code c :: codepoints s.
Proof. intros Hc. change (String c "" +:+ s) with (String c s). cbn [codepoints]. by rewrite (proj2 (Z.ltb_lt _ _) Hc). Qed.

Lemma time_ranges t : let s := t mod SECONDS_PER_DAY in
  0 ≤ s / 3600 < 24 ∧ 0 ≤ s / 60 mod 60 < 60 ∧ 0 ≤ s mod 60 < 60 ∧ s = 3600 * (s / 3600) + 60 * (s / 60 mod 60) + s mod 60.
Proof. unfold SECONDS_PER_DAY. simpl. Z.div_mod_to_equations; lia. Qed.

Lemma instant_text_points i : instant_ok i → codepoints (instant_text i) = instant_points i.
Proof.
  intros [Hr Hd _ _]. unfold instant_text, instant_points.
  destruct (ord2ymd _) as [[y m] d] eqn:E. apply ord2ymd_spec in E as (Hy & Hm & Hdd & _); [|unfold SECONDS_PER_DAY in *; Z.div_mod_to_equations; lia].
  pose proof (days_in_month_bound y m). pose proof (time_ranges (at_second i)) as Ht. cbv zeta in Ht.
  rewrite codepoints_ascii_app by (apply nat_text_ascii; lia). f_equal.
  rewrite codepoints_one by (vm_compute; reflexivity). change (code "-") with 45.
  rewrite codepoints_two by lia. rewrite codepoints_one by (vm_compute; reflexivity).
  rewrite codepoints_two by lia. rewrite codepoints_one by (vm_compute; reflexivity).
  rewrite codepoints_two by lia. rewrite codepoints_one by (vm_compute; reflexivity).
  rewrite codepoints_two by lia. rewrite codepoints_one by (vm_compute; reflexivity).
  rewrite codepoints_two by lia. repeat f_equal.
  case_bool_decide; [done|]. rewrite append_assoc, codepoints_one by (vm_compute; reflexivity).
  rewrite codepoints_concat; [done|]. eapply Forall_impl; [exact Hd|]. apply decimal_range.
Qed.

Lemma year_points_digits y : 0 ≤ y → ∃ d ds, year_points y = map (Z.add 48) (d :: ds) ∧ Forall digit (d :: ds) ∧ (d = 0 → ds = []) ∧ number_of (d :: ds) = y.
Proof.
  intros Hy. destruct (nat_digits y Hy) as (d & ds & E & Hd & H0 & Hv). exists d, ds. split_and!; try done.
  unfold year_points. rewrite E. clear E H0 Hv. induction Hd as [|e es He Hes IH]; [done|]. unfold digit in He.
  change (map code (chars (digit_text (e :: es)))) with (code (byte (48 + e)) :: map code (chars (digit_text es))).
  rewrite code_byte by lia. cbn [map]. by f_equal.
Qed.

Lemma digits_dash_inj ds1 : ∀ ds2 r1 r2, Forall digit ds1 → Forall digit ds2 →
  map (Z.add 48) ds1 ++ 45 :: r1 = map (Z.add 48) ds2 ++ 45 :: r2 → ds1 = ds2 ∧ r1 = r2.
Proof.
  induction ds1 as [|d1 ds1 IH]; intros [|d2 ds2] r1 r2 H1 H2 E; cbn [map app] in E.
  - by simplify_eq.
  - apply Forall_cons in H2 as [H2 _]. unfold digit in H2. injection E. lia.
  - apply Forall_cons in H1 as [H1 _]. unfold digit in H1. injection E. lia.
  - apply Forall_cons in H1 as [_ H1], H2 as [_ H2]. injection E as E1 E2.
    destruct (IH ds2 r1 r2 H1 H2 E2) as [-> ->]. split; [f_equal; lia|done].
Qed.
Lemma year_points_inj y1 y2 r1 r2 : 0 ≤ y1 → 0 ≤ y2 → year_points y1 ++ 45 :: r1 = year_points y2 ++ 45 :: r2 → y1 = y2 ∧ r1 = r2.
Proof.
  intros H1 H2. destruct (year_points_digits y1 H1) as (d1 & ds1 & -> & D1 & _ & V1).
  destruct (year_points_digits y2 H2) as (d2 & ds2 & -> & D2 & _ & V2). intros [E ->]%digits_dash_inj; try done.
  split; [|done]. congruence.
Qed.
Lemma two_points_inj a b r1 r2 : two_points a ++ r1 = two_points b ++ r2 → a = b ∧ r1 = r2.
Proof. intros E. injection E as E1 E2 ->. split; [|done]. rewrite (Z.div_mod a 10), (Z.div_mod b 10) by lia. lia. Qed.
Lemma fraction_inj (f g : list Z) :
  (if bool_decide (f = []) then [] else 46 :: f) ++ [90] = (if bool_decide (g = []) then [] else 46 :: g) ++ [90] → f = g.
Proof. case_bool_decide; case_bool_decide; subst; try done. intros E. cbn [app] in E. injection E as E. by apply app_inj_tail in E as [-> _]. Qed.

Lemma tail_eq {A} (x : A) l l' : x :: l = x :: l' → l = l'.
Proof. congruence. Qed.
Lemma instant_text_inj i j : instant_ok i → instant_ok j → instant_text i = instant_text j → i = j.
Proof.
  intros Hi Hj E. apply (f_equal codepoints) in E. rewrite !instant_text_points in E by done. unfold instant_points in E.
  destruct Hi as [Ri _ _ _], Hj as [Rj _ _ _]. pose proof (time_ranges (at_second i)) as (_ & _ & _ & Ti). pose proof (time_ranges (at_second j)) as (_ & _ & _ & Tj).
  destruct (ord2ymd (at_second i / SECONDS_PER_DAY)) as [[y1 m1] d1] eqn:E1, (ord2ymd (at_second j / SECONDS_PER_DAY)) as [[y2 m2] d2] eqn:E2.
  apply ord2ymd_spec in E1 as (Y1 & M1 & D1 & O1 & _), E2 as (Y2 & M2 & D2 & O2 & _);
    try (unfold SECONDS_PER_DAY in *; Z.div_mod_to_equations; lia).
  apply year_points_inj in E as [-> E]; [|lia|lia].
  apply two_points_inj in E as [-> E]. apply tail_eq in E. apply two_points_inj in E as [-> E]. apply tail_eq in E.
  apply two_points_inj in E as [Eh E]. apply tail_eq in E. apply two_points_inj in E as [Em E]. apply tail_eq in E.
  apply two_points_inj in E as [Es E]. apply fraction_inj in E.
  destruct i as [a f], j as [b g]. cbn [at_second at_fraction] in *. subst g. f_equal.
  rewrite (Z.div_mod a SECONDS_PER_DAY), (Z.div_mod b SECONDS_PER_DAY) by done. lia.
Qed.

(** *** Reading a spelling back *)
Lemma take_shape_decimals shape : ∀ l taken rest, take_shape shape l = Some (taken, rest) → l = taken ++ rest.
Proof.
  induction shape as [|p shape IH]; intros [|c l] taken rest E; cbn [take_shape] in E; simplify_eq; try done.
  destruct (match p with Some k => c =? k | None => is_decimal c end); [|done].
  destruct (take_shape shape l) as [[t r]|] eqn:Et; [|done]. simpl in E. simplify_eq. simpl. f_equal. by apply IH.
Qed.
Lemma take_decimals_spec l : Forall (fun cp => is_decimal cp = true) (take_decimals l).1.
Proof.
  induction l as [|c l IH]; [constructor|]. cbn [take_decimals]. destruct (is_decimal c) eqn:E; [|constructor].
  destruct (take_decimals l). by constructor.
Qed.
Lemma rstrip0_idem l : rstrip0 (rstrip0 l) = rstrip0 l.
Proof.
  induction l as [|c l IH]; [done|]. cbn [rstrip0]. destruct (rstrip0 l) as [|d r] eqn:E.
  - destruct (c =? 48) eqn:Ec; [done|]. cbn [rstrip0]. by rewrite Ec.
  - change (match rstrip0 (d :: r) with [] => if c =? 48 then [] else [c] | r0 => c :: r0 end = c :: d :: r). by rewrite IH.
Qed.
Lemma rstrip0_decimals l : Forall (fun cp => is_decimal cp = true) l → Forall (fun cp => is_decimal cp = true) (rstrip0 l).
Proof.
  induction 1 as [|c l Hc Hl IH]; [constructor|]. cbn [rstrip0]. destruct (rstrip0 l); [destruct (c =? 48)|]; repeat constructor; try done; by inversion IH.
Qed.

Lemma parse_instant_ok value i : parse_instant value = Ret i → instant_ok i.
Proof.
  unfold parse_instant. destruct (iso_match _) as [m|] eqn:Em; [|done]. cbn [of_option mbind outcome_bind].
  destruct (local_seconds (m_base m)) as [local|]; [|done]. destruct (read_digits_from 0 _) as [us|] eqn:Eu; [|done].
  destruct (offset_seconds (m_offset m)) as [off|]; [|done]. destruct (_ && _) eqn:Er; [|done]. intros; simplify_eq. bool_prop.
  assert (Forall (fun cp => is_decimal cp = true) (m_fraction m)).
  { unfold iso_match in Em. destruct (take_shape _ _) as [[base rest]|]; [|done]. cbn [mbind option_bind] in Em.
    repeat case_match; simplify_eq; cbn [m_fraction]; try constructor.
    match goal with H : take_decimals ?l = _ |- _ => pose proof (take_decimals_spec l) as Hd; by rewrite H in Hd end. }
  split; cbn [at_second at_fraction]; [lia|by apply rstrip0_decimals|apply rstrip0_idem|by eexists].
Qed.

Lemma strip_id x l : is_space x = false → strip (x :: l ++ [90]) = x :: l ++ [90].
Proof.
  intros Hx. unfold strip. cbn [lstrip]. rewrite Hx. rewrite app_comm_cons, rev_app_distr. cbn [rev app].
  change (lstrip (90 :: rev l ++ [x])) with (90 :: rev l ++ [x]). change (rev (90 :: rev (x :: l)) = (x :: l) ++ [90]).
  cbn [rev]. by rewrite rev_app_distr, rev_involutive.
Qed.
Lemma digit_not_space d : 0 ≤ d ≤ 9 → is_space (48 + d) = false.
Proof.
  intros Hd. assert (d = 0 ∨ d = 1 ∨ d = 2 ∨ d = 3 ∨ d = 4 ∨ d = 5 ∨ d = 6 ∨ d = 7 ∨ d = 8 ∨ d = 9) as Hc by lia.
  repeat (destruct Hc as [->|Hc]; [reflexivity|]). by subst.
Qed.

Lemma number_of_ge ds n : Forall digit ds → 0 ≤ n → n ≤ fold_left (fun n d => 10 * n + d) ds n.
Proof.
  intros Hd. revert n. induction Hd as [|d ds Hd Hds IH]; intros n Hn; cbn [fold_left]; [lia|]. unfold digit in Hd.
  specialize (IH (10 * n + d)). lia.
Qed.
Lemma year_points_four y : 1000 ≤ y ≤ 9999 → ∃ a b c d, year_points y = [48 + a; 48 + b; 48 + c; 48 + d] ∧
  digit a ∧ digit b ∧ digit c ∧ digit d ∧ y = 1000 * a + 100 * b + 10 * c + d.
Proof.
  intros Hy. destruct (year_points_digits y) as (a & ds & -> & Hds & H0 & <-); [lia|]. unfold number_of in *.
  apply Forall_cons in Hds as [Ha Hds]. unfold digit in *.
  destruct Hds as [|b ds Hb Hds]; cbn [fold_left] in Hy; [lia|]. destruct Hds as [|c ds Hc Hds]; cbn [fold_left] in Hy; [lia|].
  destruct Hds as [|d ds Hd Hds]; cbn [fold_left] in Hy; [lia|]. destruct Hds as [|e ds He Hds]; cbn [fold_left] in Hy.
  - exists a, b, c, d. cbn [map fold_left]. split_and!; lia || done.
  - assert (a ≠ 0) as Hnz by (intros ->; by specialize (H0 eq_refl)).
    pose proof (number_of_ge ds (10 * (10 * (10 * (10 * (10 * 0 + a) + b) + c) + d) + e) Hds). lia.
Qed.

Lemma read_two a b : digit a → digit b → read_digits_from 0 [48 + a; 48 + b] = Some (10 * a + b).
Proof.
  unfold digit. intros Ha Hb. cbn [read_digits_from]. unfold ascii_digit.
  repeat (rewrite !(proj2 (Z.leb_le _ _)) by lia; cbn [andb mbind option_bind]). f_equal. lia.
Qed.
Lemma read_four a b c d : digit a → digit b → digit c → digit d →
  read_digits_from 0 [48 + a; 48 + b; 48 + c; 48 + d] = Some (1000 * a + 100 * b + 10 * c + d).
Proof.
  unfold digit. intros Ha Hb Hc Hd. cbn [read_digits_from]. unfold ascii_digit.
  repeat (rewrite !(proj2 (Z.leb_le _ _)) by lia; cbn [andb mbind option_bind]). f_equal. lia.
Qed.
Lemma two_points_digits n : 0 ≤ n < 100 → digit (n / 10) ∧ digit (n mod 10) ∧ 10 * (n / 10) + n mod 10 = n.
Proof. unfold digit. intros Hn. Z.div_mod_to_equations; lia. Qed.
Lemma take_digit shape d l : digit d → take_shape (D :: shape) (48 + d :: l) = '(taken, rest) ← take_shape shape l; Some (48 + d :: taken, rest).
Proof. intros Hd. cbn [take_shape D]. by rewrite decimal_digit. Qed.
Lemma take_mark shape k l : take_shape (Some k :: shape) (k :: l) = '(taken, rest) ← take_shape shape l; Some (k :: taken, rest).
Proof. cbn [take_shape]. by rewrite Z.eqb_refl. Qed.
Lemma take_decimals_all f : Forall (fun cp => is_decimal cp = true) f → take_decimals (f ++ [90]) = (f, [90]).
Proof. induction 1 as [|c f Hc Hf IH]; [reflexivity|]. cbn [app take_decimals]. by rewrite Hc, IH. Qed.

(** The fields of a spelling. *)
Definition base_points (a b c d m dd h mi s : Z) : list Z :=
  [48 + a; 48 + b; 48 + c; 48 + d; 45; 48 + m / 10; 48 + m mod 10; 45; 48 + dd / 10; 48 + dd mod 10; 84;
   48 + h / 10; 48 + h mod 10; 58; 48 + mi / 10; 48 + mi mod 10; 58; 48 + s / 10; 48 + s mod 10].
Lemma take_base a b c d m dd h mi s rest :
  digit a → digit b → digit c → digit d → 0 ≤ m < 100 → 0 ≤ dd < 100 → 0 ≤ h < 100 → 0 ≤ mi < 100 → 0 ≤ s < 100 →
  take_shape BASE_SHAPE (base_points a b c d m dd h mi s ++ rest) = Some (base_points a b c d m dd h mi s, rest).
Proof.
  intros Ha Hb Hc Hd (Hm1 & Hm2 & _)%two_points_digits (Hd1 & Hd2 & _)%two_points_digits (Hh1 & Hh2 & _)%two_points_digits
    (Hi1 & Hi2 & _)%two_points_digits (Hs1 & Hs2 & _)%two_points_digits.
  unfold BASE_SHAPE, base_points. cbn [app].
  repeat first [rewrite take_digit by done | rewrite take_mark]. reflexivity.
Qed.

Lemma local_seconds_points a b c d m dd h mi s :
  digit a → digit b → digit c → digit d → let y := 1000 * a + 100 * b + 10 * c + d in
  1 ≤ y → 1 ≤ m ≤ 12 → 1 ≤ dd ≤ days_in_month y m → 0 ≤ h < 24 → 0 ≤ mi < 60 → 0 ≤ s < 60 →
  local_seconds (base_points a b c d m dd h mi s) = Some (SECONDS_PER_DAY * ymd2ord y m dd + 3600 * h + 60 * mi + s).
Proof.
  intros Ha Hb Hc Hd y Hy Hm Hdd Hh Hmi Hs. pose proof (days_in_month_bound y m).
  destruct (two_points_digits m) as (? & ? & Em); [lia|]. destruct (two_points_digits dd) as (? & ? & Ed); [lia|].
  destruct (two_points_digits h) as (? & ? & Eh); [lia|]. destruct (two_points_digits mi) as (? & ? & Ei); [lia|].
  destruct (two_points_digits s) as (? & ? & Es); [lia|].
  unfold local_seconds, field_at, base_points. cbn [firstn skipn]. rewrite read_four by done. fold y. cbn [mbind option_bind].
  rewrite !read_two, Em, Ed, Eh, Ei, Es by done. cbn [mbind option_bind].
  rewrite !(proj2 (Z.leb_le _ _)) by lia. reflexivity.
Qed.

Lemma instant_text_parse i : instant_ok i → 1000 ≤ (ord2ymd (at_second i / SECONDS_PER_DAY)).1.1 → parse_instant (instant_text i) = Ret i.
Proof.
  intros Hi Hyear. unfold parse_instant. rewrite instant_text_points by done. unfold instant_points.
  destruct Hi as [Hr Hf Hst [us Hus]]. pose proof (time_ranges (at_second i)) as (Hh & Hmi & Hs & Ht). cbv zeta in *.
  set (t := at_second i mod SECONDS_PER_DAY) in *.
  destruct (ord2ymd _) as [[y m] d] eqn:E. cbn [fst] in Hyear.
  apply ord2ymd_spec in E as (_ & Hm & Hd & Ho & Hl); [|unfold SECONDS_PER_DAY in *; Z.div_mod_to_equations; lia].
  assert (y ≤ 9999) as Hy9 by (apply Hl; unfold SECONDS_PER_DAY in *; Z.div_mod_to_equations; lia).
  pose proof (days_in_month_bound y m).
  destruct (year_points_four y) as (a & b & c & e & -> & Ha & Hb & Hc & He & Ey); [lia|].
  set (tail := (if bool_decide (at_fraction i = []) then [] else 46 :: at_fraction i)).
  change (strip _) with (strip ((48 + a) :: (tl (base_points a b c e m d (t / 3600) (t / 60 mod 60) (t mod 60)) ++ tail) ++ [90])).
  rewrite strip_id by (apply digit_not_space; done).
  change ((48 + a) :: (tl (base_points a b c e m d (t / 3600) (t / 60 mod 60) (t mod 60)) ++ tail) ++ [90])
    with (base_points a b c e m d (t / 3600) (t / 60 mod 60) (t mod 60) ++ tail ++ [90]).
  assert (SECONDS_PER_DAY * ymd2ord y m d + 3600 * (t / 3600) + 60 * (t / 60 mod 60) + t mod 60 = at_second i) as Hsec.
  { rewrite Ho. pose proof (Z.div_mod (at_second i) SECONDS_PER_DAY ltac:(done)) as Hdm. fold t in Hdm. lia. }
  assert (iso_match (base_points a b c e m d (t / 3600) (t / 60 mod 60) (t mod 60) ++ tail ++ [90])
    = Some {| m_base := base_points a b c e m d (t / 3600) (t / 60 mod 60) (t mod 60); m_fraction := at_fraction i; m_offset := [90] |}) as ->.
  { unfold iso_match. rewrite take_base by (done || lia). cbn [mbind option_bind]. unfold tail.
    case_bool_decide as Hfe; cbn [app]; [by rewrite Hfe|]. rewrite take_decimals_all by done. cbv iota beta.
    by rewrite bool_decide_eq_false_2. }
  subst y. cbn [of_option mbind outcome_bind m_fraction m_base m_offset].
  rewrite local_seconds_points by (done || lia). rewrite Hst, Hus.
  change (offset_seconds [90]) with (Some 0). cbv iota beta. rewrite Hsec, Z.sub_0_r.
  rewrite (proj2 (Z.leb_le _ _)), (proj2 (Z.ltb_lt _ _)) by lia. cbn [andb]. by destruct i.
Qed.

(** Two start times get the same canonical spelling exactly when they
    denote the same instant, whatever offset, precision or white space Docker
    wrote them with, and from the year 1000 on a canonical spelling is its own
    canonical spelling. *)
Theorem canonical_utc_exact a i t :
  parse_instant a = Ret i → canonical_utc a = Ret t →
  (∀ b, canonical_utc b = Ret t ↔ parse_instant b = Ret i) ∧
  (1000 ≤ (ord2ymd (at_second i / SECONDS_PER_DAY)).1.1 → canonical_utc t = Ret t).
Proof.
  intros Ha Ht. unfold canonical_utc in *. rewrite Ha in Ht. simpl in Ht. injection Ht as <-. pose proof (parse_instant_ok a i Ha) as Hi. split.
  - intros b. split; intros Hb; [|by rewrite Hb].
    destruct (parse_instant b) as [j|] eqn:Ej; [|done]. injection Hb as Hb. f_equal.
    apply instant_text_inj; [by apply (parse_instant_ok b)|done|done].
  - intros Hy. by rewrite instant_text_parse.
Qed.

Lemma canonical_utc_exact_witness :
  (∀ b, canonical_utc b = Ret "2024-03-01T00:30:00.123456789Z" ↔
     parse_instant b = Ret {| at_second := 63844849800; at_fraction := [49; 50; 51; 52; 53; 54; 55; 56; 57] |}) ∧
  (1000 ≤ (ord2ymd (63844849800 / SECONDS_PER_DAY)).1.1 →
     canonical_utc "2024-03-01T00:30:00.123456789Z" = Ret "2024-03-01T00:30:00.123456789Z").
Proof. apply (canonical_utc_exact "2024-02-29T23:30:00.123456789000-01:00"); vm_compute; reflexivity. Defined.

(** The first instant of year 1 east of Greenwich is before the calendar: the
    shift to UTC raises an error [_identity] does not expect. *)
Example year_one_overflows : canonical_utc "0001-01-01T00:00:00+00:01" = Raise (OverflowError "date value out of range").
Proof. vm_compute. reflexivity. Qed.
(** Before the year 1000 the spelling is not one the reader takes. *)
Example year_one_unpadded :
  canonical_utc "0001-01-01T00:00:00Z" = Ret "1-01-01T00:00:00Z" ∧
  canonical_utc "1-01-01T00:00:00Z" = Raise (ObservationError "invalid start time").
Proof. vm_compute. done. Qed.
