(* ===== verification/Blobs.v ===== *)
(** * Blob metadata

    [model_scheduler/blob_metadata.py]: the SQLite catalogue of blobs, read
    leases and the recovery journal.  A table with a primary key is an ordered
    dict of rows; every method is one transaction under the catalogue's lock, so
    it is one [pym BlobMetadata] computation, and a raise inside a transaction
    comes before its writes. *)

From S2P Require Import Prelude Dict Contracts.
Local Open Scope Z_scope.

Inductive BlobState := B_RESERVED | B_STAGING | B_PUBLISHED | B_DELETED | B_CORRUPT.
Inductive JournalStep := STEP_STAGING | STEP_PENDING | STEP_PUBLISHED.
#[export] Instance BlobState_eq_dec : EqDecision BlobState.
Proof. solve_decision. Defined.
#[export] Instance JournalStep_eq_dec : EqDecision JournalStep.
Proof. solve_decision. Defined.

Record BlobRecord := {
  b_blob_id : string;
  b_owner : string;
  b_sha256 : option string;
  b_size_bytes : Z;
  b_media_type : string;
  b_state : BlobState;
  b_created_at : time;
  b_expires_at : option time;
  b_path : string;
}.

#[export] Instance BlobRecord_eta : Eta BlobRecord := fun r =>
  {| b_blob_id := b_blob_id r; b_owner := b_owner r; b_sha256 := b_sha256 r; b_size_bytes := b_size_bytes r;
     b_media_type := b_media_type r; b_state := b_state r; b_created_at := b_created_at r;
     b_expires_at := b_expires_at r; b_path := b_path r |}.

Record JournalEntry := {
  j_owner : string;
  j_step : JournalStep;
  j_sha256 : option string;
  j_size_bytes : Z;
  j_created_at : time;
}.

Record OwnerUsage := { published_bytes : Z; staging_bytes : Z; reserved_bytes_ : Z }.
Definition usage_total (u : OwnerUsage) : Z := published_bytes u + staging_bytes u + reserved_bytes_ u.

Record BlobMetadata := {
  owner_quota_bytes : Z;
  global_quota_bytes : Z;
  min_free_bytes : Z;
  bm_retention_seconds : time;
  tombstone_seconds : time;
  blobs : dict string BlobRecord;
  blob_leases : list (string * string);
  recovery : dict string JournalEntry;
}.

#[export] Instance BlobMetadata_eta : Eta BlobMetadata := fun m =>
  {| owner_quota_bytes := owner_quota_bytes m; global_quota_bytes := global_quota_bytes m;
     min_free_bytes := min_free_bytes m; bm_retention_seconds := bm_retention_seconds m;
     tombstone_seconds := tombstone_seconds m; blobs := blobs m; blob_leases := blob_leases m;
     recovery := recovery m |}.

(** A new database file. *)
Definition BlobMetadata_init (owner_quota global_quota min_free : Z) (retention tombstone : time) : outcome BlobMetadata :=
  _ ← raise_if ((foldr Z.min owner_quota [global_quota; min_free] <? 0) || (retention <=? 0) || (tombstone <=? 0))
        (ValueError "invalid blob policy");
  mret {| owner_quota_bytes := owner_quota; global_quota_bytes := global_quota; min_free_bytes := min_free;
          bm_retention_seconds := retention; tombstone_seconds := tombstone; blobs := ∅; blob_leases := [];
          recovery := ∅ |}.

(** ** Accounting *)

(** [SUM(CASE WHEN state = st THEN size_bytes END) ... WHERE owner = ?] *)
Definition owner_bytes (st : BlobState) (owner : string) (m : BlobMetadata) : Z :=
  dsum (fun _ r => if bool_decide (b_owner r = owner) && bool_decide (b_state r = st) then b_size_bytes r else 0) (blobs m).

Definition usage (m : BlobMetadata) (owner : string) : OwnerUsage :=
  {| published_bytes := owner_bytes B_PUBLISHED owner m; staging_bytes := owner_bytes B_STAGING owner m;
     reserved_bytes_ := owner_bytes B_RESERVED owner m |}.

(** [state IN (published, staging, reserved)] *)
Definition accounted (st : BlobState) : bool :=
  match st with B_PUBLISHED | B_STAGING | B_RESERVED => true | B_DELETED | B_CORRUPT => false end.
(** [state IN (reserved, staging)] *)
Definition unfinished (st : BlobState) : bool :=
  match st with B_RESERVED | B_STAGING => true | _ => false end.

Definition global_bytes (m : BlobMetadata) : Z :=
  dsum (fun _ r => if accounted (b_state r) then b_size_bytes r else 0) (blobs m).

Definition get_blob (m : BlobMetadata) (blob_id : string) : option BlobRecord := blobs m !! blob_id.

Definition require_blob (blob_id : string) : pym BlobMetadata BlobRecord :=
  m ← get; lift (of_option (QuotaExceeded "unknown blob") (get_blob m blob_id)).

(** [UPDATE blobs SET ... WHERE blob_id = ? AND cond] *)
Definition update_blob (blob_id : string) (cond : BlobRecord → bool) (f : BlobRecord → BlobRecord)
    : pym BlobMetadata unit :=
  modify (fun m => match blobs m !! blob_id with
                   | Some r => if cond r then m <| blobs ::= <[blob_id := f r]> |> else m
                   | None => m
                   end).

(** [disk_free] is the reading of the disk callback, when one is configured. *)
Definition reserve (blob_id owner : string) (size_bytes : Z) (media_type : string) (now : time) (path : string)
    (disk_free : option Z) : pym BlobMetadata BlobRecord :=
  if size_bytes <=? 0 then raise (QuotaExceeded "a blob must declare a positive size")
  else
    m ← get;
    if mem blob_id (blobs m) then raise (QuotaExceeded "duplicate blob id")
    else if match disk_free with Some free => free <? min_free_bytes m + size_bytes | None => false end
    then raise (QuotaExceeded "disk free space is below the reserve")
    else if owner_quota_bytes m <? usage_total (usage m owner) + size_bytes
    then raise (QuotaExceeded "owner quota exceeded")
    else if global_quota_bytes m <? global_bytes m + size_bytes
    then raise (QuotaExceeded "global quota exceeded")
    else
      modify (fun m => m <| blobs ::= <[blob_id :=
        {| b_blob_id := blob_id; b_owner := owner; b_sha256 := None; b_size_bytes := size_bytes;
           b_media_type := media_type; b_state := B_RESERVED; b_created_at := now; b_expires_at := None;
           b_path := path |}]> |>) ;;
      require_blob blob_id.

Definition begin_staging (blob_id : string) : pym BlobMetadata BlobRecord :=
  update_blob blob_id (fun r => bool_decide (b_state r = B_RESERVED)) (fun r => r <| b_state := B_STAGING |>) ;;
  require_blob blob_id.

Definition publish (blob_id sha256 : string) (size_bytes : Z) (now : time) (retention : option time)
    : pym BlobMetadata BlobRecord :=
  m ← get;
  let retention := default (bm_retention_seconds m) retention in
  update_blob blob_id (fun r => unfinished (b_state r))
    (fun r => r <| b_state := B_PUBLISHED |> <| b_sha256 := Some sha256 |> <| b_size_bytes := size_bytes |>
                <| b_expires_at := Some (now + retention) |>) ;;
  r ← require_blob blob_id;
  if negb (bool_decide (b_state r = B_PUBLISHED)) then raise (QuotaExceeded "the upload was not reserved") else mret r.

(** [DELETE FROM blobs WHERE blob_id = ? AND state IN (reserved, staging)] *)
Definition abort (blob_id : string) : pym BlobMetadata unit :=
  modify (fun m => match blobs m !! blob_id with
                   | Some r => if unfinished (b_state r) then m <| blobs ::= delete blob_id |> else m
                   | None => m
                   end).

(** ** Leases, expiry and deletion *)
Definition holders (m : BlobMetadata) (blob_id : string) : list string :=
  merge_sort String.le (snd <$> List.filter (fun l => bool_decide (l.1 = blob_id)) (blob_leases m)).
Definition held (m : BlobMetadata) (blob_id : string) : bool :=
  existsb (fun l => bool_decide (l.1 = blob_id)) (blob_leases m).

(** [INSERT OR IGNORE INTO leases] *)
Definition add_lease (blob_id holder : string) : pym BlobMetadata unit :=
  modify (fun m => if bool_decide ((blob_id, holder) ∈ blob_leases m) then m
                   else m <| blob_leases ::= (fun l => l ++ [(blob_id, holder)]) |>).

Definition acquire_lease (blob_id holder : string) : pym BlobMetadata bool :=
  m ← get;
  match get_blob m blob_id with
  | Some r => if bool_decide (b_state r = B_PUBLISHED) then add_lease blob_id holder ;; mret true else mret false
  | None => mret false
  end.

Definition release_lease (blob_id holder : string) : pym BlobMetadata unit :=
  modify (fun m => m <| blob_leases ::= List.filter (fun l => negb (bool_decide (l = (blob_id, holder)))) |>).

Inductive DeleteOutcome := Del_deleted | Del_held | Del_missing.
#[export] Instance DeleteOutcome_eq_dec : EqDecision DeleteOutcome.
Proof. solve_decision. Defined.

(** [UPDATE blobs SET state = DELETED, expires_at = now + tombstone] *)
Definition bury (blob_id : string) (now : time) : pym BlobMetadata unit :=
  m ← get;
  update_blob blob_id (fun _ => true)
    (fun r => r <| b_state := B_DELETED |> <| b_expires_at := Some (now + tombstone_seconds m) |>).

Definition delete_blob (blob_id owner : string) (now : time) : pym BlobMetadata DeleteOutcome :=
  m ← get;
  match get_blob m blob_id with
  | None => mret Del_missing
  | Some r =>
      if negb (bool_decide (b_owner r = owner)) then mret Del_missing
      else if bool_decide (b_state r = B_DELETED) then mret Del_deleted
      else match holders m blob_id with
           | _ :: _ => mret Del_held
           | [] => bury blob_id now ;; mret Del_deleted
           end
  end.

(** [state = published AND expires_at IS NOT NULL AND expires_at <= now] *)
Definition due (now : time) (r : BlobRecord) : bool :=
  bool_decide (b_state r = B_PUBLISHED) && match b_expires_at r with Some t => t <=? now | None => false end.

(** One turn of the loop of [expire]. *)
Definition expire_one (now : time) (r : BlobRecord) : pym BlobMetadata (list BlobRecord) :=
  m ← get;
  match holders m (b_blob_id r) with
  | _ :: _ => mret []
  | [] => bury (b_blob_id r) now ;; mret [r]
  end.

Definition expire_blobs (now : time) : pym BlobMetadata (list BlobRecord) :=
  m ← get;
  expired ← map_each (List.filter (due now) (values (blobs m))) (expire_one now);
  mret (concat expired).

Definition mark_corrupt (blob_id : string) : pym BlobMetadata unit :=
  update_blob blob_id (fun r => bool_decide (b_state r = B_PUBLISHED)) (fun r => r <| b_state := B_CORRUPT |>).

(** [state IN (deleted, corrupt) AND expires_at IS NOT NULL AND expires_at <= now] *)
Definition purgeable (now : time) (r : BlobRecord) : bool :=
  (bool_decide (b_state r = B_DELETED) || bool_decide (b_state r = B_CORRUPT))
  && match b_expires_at r with Some t => t <=? now | None => false end.

Definition purge_tombstones (now : time) : pym BlobMetadata (list string) :=
  m ← get;
  let ids := b_blob_id <$> List.filter (purgeable now) (values (blobs m)) in
  for_each ids (fun id => modify (fun m => m <| blobs ::= delete id |>)) ;;
  mret ids.

Definition verify_all (m : BlobMetadata) : list string :=
  b_blob_id <$> List.filter (fun r => bool_decide (b_state r = B_PUBLISHED)) (values (blobs m)).

(** ** The recovery journal *)

(** [INSERT ... ON CONFLICT(blob_id) DO UPDATE]: the owner of an old entry stays. *)
Definition journal (blob_id owner : string) (step : JournalStep) (sha256 : option string) (size_bytes : Z) (now : time)
    : pym BlobMetadata unit :=
  modify (fun m =>
    let owner := match recovery m !! blob_id with Some e => j_owner e | None => owner end in
    m <| recovery ::= <[blob_id := {| j_owner := owner; j_step := step; j_sha256 := sha256;
                                      j_size_bytes := size_bytes; j_created_at := now |}]> |>).

Definition journal_entry (m : BlobMetadata) (blob_id : string) : option JournalEntry := recovery m !! blob_id.

Definition clear_journal (blob_id : string) : pym BlobMetadata unit :=
  modify (fun m => m <| recovery ::= delete blob_id |>).

Definition unfinished_rows (m : BlobMetadata) : list BlobRecord :=
  List.filter (fun r => unfinished (b_state r)) (values (blobs m)).

Definition release_missing (blob_id : string) (now : time) (keep_tombstone : bool) : pym BlobMetadata unit :=
  m ← get;
  update_blob blob_id (fun _ => true)
    (fun r => r <| b_state := if keep_tombstone then B_DELETED else B_CORRUPT |> <| b_size_bytes := 0 |>
                <| b_expires_at := Some (now + tombstone_seconds m) |>).

Definition protect_all_published (holder : string) : pym BlobMetadata (list string) :=
  m ← get;
  for_each (verify_all m) (fun id => add_lease id holder) ;;
  mret (verify_all m).

Definition release_protection (holder : string) : pym BlobMetadata (list string) :=
  m ← get;
  modify (fun m => m <| blob_leases ::= List.filter (fun l => negb (bool_decide (l.2 = holder))) |>) ;;
  mret (fst <$> List.filter (fun l => bool_decide (l.2 = holder)) (blob_leases m)).

(** ** The catalogue as a transition system *)
Inductive blob_call :=
| BReserve (id owner : string) (size : Z) (media : string) (now : time) (path : string) (disk_free : option Z)
| BBeginStaging (id : string)
| BPublish (id sha : string) (size : Z) (now : time) (retention : option time)
| BAbort (id : string)
| BAcquireLease (id holder : string)
| BReleaseLease (id holder : string)
| BDelete (id owner : string) (now : time)
| BExpire (now : time)
| BMarkCorrupt (id : string)
| BPurge (now : time)
| BJournal (id owner : string) (step : JournalStep) (sha : option string) (size : Z) (now : time)
| BClearJournal (id : string)
| BReleaseMissing (id : string) (now : time) (keep : bool)
| BProtect (holder : string)
| BReleaseProtection (holder : string).

Definition blob_exec (c : blob_call) (m : BlobMetadata) : BlobMetadata :=
  match c with
  | BReserve id o sz md now p fr => (reserve id o sz md now p fr m).1
  | BBeginStaging id => (begin_staging id m).1
  | BPublish id sha sz now ret => (publish id sha sz now ret m).1
  | BAbort id => (abort id m).1
  | BAcquireLease id h => (acquire_lease id h m).1
  | BReleaseLease id h => (release_lease id h m).1
  | BDelete id o now => (delete_blob id o now m).1
  | BExpire now => (expire_blobs now m).1
  | BMarkCorrupt id => (mark_corrupt id m).1
  | BPurge now => (purge_tombstones now m).1
  | BJournal id o st sha sz now => (journal id o st sha sz now m).1
  | BClearJournal id => (clear_journal id m).1
  | BReleaseMissing id now k => (release_missing id now k m).1
  | BProtect h => (protect_all_published h m).1
  | BReleaseProtection h => (release_protection h m).1
  end.
