(* ===== verification/BlobsProps.v ===== *)
(** * What the blob catalogue keeps

    The rows stay well formed and both quotas hold under any sequence of
    transactions in which a publication is not larger than its reservation, a
    held blob is never removed, and tombstones answer until they expire. *)

From S2P Require Import Prelude Dict Contracts Blobs.
Local Open Scope Z_scope.

(** ** The invariant *)
Record rows_wf (m : BlobMetadata) : Prop := {
  rows_nodup : dict_nodup (blobs m);
  rows_id : ∀ k r, blobs m !! k = Some r → b_blob_id r = k ∧ 0 ≤ b_size_bytes r;
}.

(** What a row costs, to one owner or to all. *)
Definition charge (owner : option string) (r : BlobRecord) : Z :=
  if match owner with Some o => bool_decide (b_owner r = o) | None => true end && accounted (b_state r)
  then b_size_bytes r else 0.
Definition charged (owner : option string) (m : BlobMetadata) : Z := dsum (fun _ r => charge owner r) (blobs m).

Definition quota_of (owner : option string) (m : BlobMetadata) : Z :=
  match owner with Some _ => owner_quota_bytes m | None => global_quota_bytes m end.

Record blobs_wf (m : BlobMetadata) : Prop := {
  bl_rows : rows_wf m;
  bl_quota : ∀ o, charged o m ≤ quota_of o m;
}.

Lemma dsum_plus {K V} (f g : K → V → Z) (d : dict K V) :
  dsum (fun k v => f k v + g k v) d = dsum f d + dsum g d.
Proof. destruct d as [l]. unfold dsum. simpl. induction l as [|[k v] l IH]; simpl; lia. Qed.

Lemma usage_charged m o : usage_total (usage m o) = charged (Some o) m.
Proof.
  unfold usage_total, usage, owner_bytes, charged. simpl. rewrite <-!dsum_plus. apply dsum_ext.
  intros k r. unfold charge. destruct (bool_decide (b_owner r = o)); simpl; [|done].
  destruct (b_state r); simpl; rewrite ?bool_decide_true, ?bool_decide_false by done; lia.
Qed.

Lemma global_charged m : global_bytes m = charged None m.
Proof. done. Qed.

Lemma charge_nonneg o r : 0 ≤ b_size_bytes r → 0 ≤ charge o r.
Proof. unfold charge. by case_match. Qed.

(** ** Changes of one row *)
Definition same_policy (m m' : BlobMetadata) : Prop :=
  owner_quota_bytes m' = owner_quota_bytes m ∧ global_quota_bytes m' = global_quota_bytes m ∧
  tombstone_seconds m' = tombstone_seconds m ∧ bm_retention_seconds m' = bm_retention_seconds m.

Lemma wf_update m id r r' :
  blobs_wf m → blobs m !! id = Some r → b_blob_id r' = id → 0 ≤ b_size_bytes r' →
  (∀ o, charge o r' ≤ charge o r) → blobs_wf (m <| blobs ::= <[id := r']> |>).
Proof.
  intros [[Hnd Hid] Hq] Hr Hi Hs Hc. split; [split|]; simpl.
  - by apply dict_nodup_insert.
  - intros k r0. rewrite dict_lookup_insert. case_decide; [intros [= <-]; subst; auto|apply Hid].
  - intros o. specialize (Hq o). unfold charged in *. simpl. rewrite (dsum_insert _ _ _ _ _ Hr). specialize (Hc o).
    cbv beta. change (quota_of o _) with (quota_of o m). lia.
Qed.

Lemma wf_update_blob id cond f :
  (∀ r, cond r = true → 0 ≤ b_size_bytes r → b_blob_id (f r) = b_blob_id r ∧ 0 ≤ b_size_bytes (f r) ∧ ∀ o, charge o (f r) ≤ charge o r) →
  preserves blobs_wf (update_blob id cond f).
Proof.
  intros Hf m Hm. unfold update_blob, modify. simpl. destruct (blobs m !! id) as [r|] eqn:Hr; [|done].
  destruct (cond r) eqn:Hc; [|done]. destruct (rows_id _ (bl_rows _ Hm) _ _ Hr) as [Hi Hs].
  destruct (Hf r Hc Hs) as (? & ? & ?). apply (wf_update m id r); auto. congruence.
Qed.

Lemma dsum_delete_le {K V} `{EqDecision K} (f : K → V → Z) (d : dict K V) k :
  (∀ k v, (k, v) ∈ entries d → 0 ≤ f k v) → dsum f (delete k d) ≤ dsum f d.
Proof.
  destruct d as [l]. unfold dsum, delete, dict_delete. simpl. unfold assoc_del. induction l as [|[k' v] l IH]; [done|].
  intros Hf. rewrite filter_cons. assert (0 ≤ f k' v) by (apply Hf; constructor).
  assert (∀ k v, (k, v) ∈ l → 0 ≤ f k v) as Hl by (intros; apply Hf; by constructor). specialize (IH Hl).
  destruct (decide _); simpl; lia.
Qed.

Lemma wf_delete m id : blobs_wf m → blobs_wf (m <| blobs ::= delete id |>).
Proof.
  intros [[Hnd Hid] Hq]. split; [split|]; simpl.
  - by apply dict_nodup_delete.
  - intros k r. rewrite dict_lookup_delete. case_decide; [done|apply Hid].
  - intros o. specialize (Hq o). unfold charged in *. simpl.
    assert (dsum (fun _ r => charge o r) (delete id (blobs m)) ≤ dsum (fun _ r => charge o r) (blobs m)) as Hle.
    { apply dsum_delete_le. intros k r Hr. apply charge_nonneg. eapply Hid. by apply entries_lookup. }
    change (quota_of o _) with (quota_of o m). lia.
Qed.

Lemma wf_other m m' : blobs m' = blobs m → same_policy m m' → blobs_wf m → blobs_wf m'.
Proof.
  intros Hb (Ho & Hg & _) [[Hnd Hid] Hq]. split; [split|]; rewrite ?Hb; auto.
  intros o. specialize (Hq o). unfold charged in *. rewrite Hb. destruct o; simpl in *; congruence.
Qed.

(** ** Every transaction keeps the invariant *)

(** A publication may shrink its reservation, not grow it. *)
Definition within_reservation (c : blob_call) (m : BlobMetadata) : Prop :=
  match c with
  | BPublish id _ size _ _ => ∀ r, blobs m !! id = Some r → unfinished (b_state r) = true → 0 ≤ size ≤ b_size_bytes r
  | _ => True
  end.

Lemma wf_require id : preserves blobs_wf (require_blob id).
Proof. unfold require_blob. intros m Hm. done. Qed.

Lemma wf_reserve id o sz md now p fr : preserves blobs_wf (reserve id o sz md now p fr).
Proof.
  intros m Hm. unfold reserve. destruct (sz <=? 0) eqn:Hsz; [done|]. run_unfold.
  destruct (mem id (blobs m)) eqn:Hid; [done|]. destruct (match fr with Some _ => _ | None => _ end); [done|].
  destruct (owner_quota_bytes m <? _) eqn:Ho; [done|]. destruct (global_quota_bytes m <? _) eqn:Hg; [done|]. simpl.
  bool_prop. rewrite usage_charged in Ho. rewrite global_charged in Hg. apply mem_false in Hid.
  destruct Hm as [[Hnd Hi] Hq]. split; [split|]; simpl.
  - by apply dict_nodup_insert.
  - intros k r. rewrite dict_lookup_insert. case_decide; [|apply Hi]. intros [= <-]. simpl. split; [done|lia].
  - intros o'. unfold charged. simpl. rewrite dsum_insert_new by done. cbv beta. specialize (Hq o').
    unfold charge at 2. simpl. destruct o' as [o'|]; simpl; [|unfold charged in *; lia].
    destruct (bool_decide (o = o')) eqn:E; simpl; [|unfold charged in *; simpl in *; lia].
    bool_prop. subst. unfold charged in *. simpl in *. lia.
Qed.

Lemma wf_publish id sha sz now ret m :
  within_reservation (BPublish id sha sz now ret) m → blobs_wf m → blobs_wf (publish id sha sz now ret m).1.
Proof.
  intros Hw Hm. unfold publish. unfold mbind at 1, pym_bind at 1, get. cbv zeta. unfold mbind at 1, pym_bind at 1.
  assert (blobs_wf (update_blob id (fun r => unfinished (b_state r))
    (fun r => r <| b_state := B_PUBLISHED |> <| b_sha256 := Some sha |> <| b_size_bytes := sz |>
                <| b_expires_at := Some (now + default (bm_retention_seconds m) ret) |>) m).1) as Hu.
  { unfold update_blob, modify. simpl. destruct (blobs m !! id) as [r|] eqn:Hr; [|done].
    destruct (unfinished (b_state r)) eqn:Hc; [|done]. destruct (rows_id _ (bl_rows _ Hm) _ _ Hr) as [Hi Hs].
    specialize (Hw r Hr Hc). apply (wf_update m id r); try done; simpl; [lia|]. intros o. unfold charge. simpl.
    destruct (b_state r); simpl in Hc; try done; simpl; destruct (match o with Some _ => _ | None => _ end); simpl; lia. }
  destruct (update_blob _ _ _ m) as [m1 [[]|e]]; [|done]. simpl in Hu. unfold require_blob, get_blob. run_unfold.
  destruct (blobs m1 !! id) as [r|]; [|done]. by destruct (negb _).
Qed.

Lemma charge_unaccounted o r : accounted (b_state r) = false → charge o r = 0.
Proof. unfold charge. intros ->. by rewrite andb_false_r. Qed.

Lemma wf_bury id now : preserves blobs_wf (bury id now).
Proof.
  unfold bury. apply preserves_bind; [apply preserves_get|intros m]. apply wf_update_blob. intros r _ Hs. simpl.
  split_and!; try done. intros o. rewrite charge_unaccounted by done. by apply charge_nonneg.
Qed.

Lemma wf_expire now : preserves blobs_wf (expire_blobs now).
Proof.
  unfold expire_blobs, expire_one. apply preserves_bind; [apply preserves_get|intros m].
  apply preserves_bind; [|intros; apply preserves_ret]. apply preserves_map_each. intros r.
  apply preserves_bind; [apply preserves_get|intros m']. destruct (holders m' _); [|apply preserves_ret].
  apply preserves_bind; [apply wf_bury|intros; apply preserves_ret].
Qed.

Lemma blobs_wf_add_lease id h : preserves blobs_wf (add_lease id h).
Proof. intros m Hm. unfold add_lease, modify. simpl. case_match; [done|]. by apply (wf_other m). Qed.

Lemma blob_exec_wf c m : within_reservation c m → blobs_wf m → blobs_wf (blob_exec c m).
Proof.
  intros Hw Hm. destruct c; unfold blob_exec; try by apply (wf_other m).
  - by apply wf_reserve.
  - refine ((_ : preserves blobs_wf (begin_staging id)) m Hm). unfold begin_staging. apply preserves_bind; [|intros; apply wf_require].
    apply wf_update_blob. intros r Hc Hs. bool_prop. simpl. split_and!; try done. intros o. unfold charge. rewrite Hc. simpl. lia.
  - by apply wf_publish.
  - unfold abort, modify. simpl. destruct (blobs m !! id) as [r|]; [|done]. destruct (unfinished _); [|done]. by apply wf_delete.
  - unfold acquire_lease. run_unfold. destruct (get_blob m id) as [r|]; [|done]. case_match; [|done].
    unfold add_lease, modify. simpl. case_match; [done|]. by apply (wf_other m).
  - unfold delete_blob. run_unfold. destruct (get_blob m id) as [r|]; [|done]. destruct (negb _); [done|].
    case_match; [done|]. destruct (holders m id); [|done]. pose proof (wf_bury id now m Hm) as Hb.
    by destruct (bury id now m) as [m1 [[]|e]].
  - by apply wf_expire.
  - refine ((_ : preserves blobs_wf (mark_corrupt id)) m Hm). apply wf_update_blob. intros r _ Hs. simpl. split_and!; try done.
    intros o. rewrite charge_unaccounted by done. by apply charge_nonneg.
  - refine ((_ : preserves blobs_wf (purge_tombstones now)) m Hm). unfold purge_tombstones. apply preserves_bind; [apply preserves_get|intros m'].
    cbv zeta. apply preserves_bind; [|intros; apply preserves_ret]. apply preserves_for_each. intros id.
    apply preserves_modify. intros m1 Hm1. by apply wf_delete.
  - refine ((_ : preserves blobs_wf (release_missing id now keep)) m Hm). unfold release_missing. apply preserves_bind; [apply preserves_get|intros m'].
    apply wf_update_blob. intros r _ Hs. simpl. split_and!; try done. intros o.
    rewrite charge_unaccounted by (by destruct keep). by apply charge_nonneg.
  - refine ((_ : preserves blobs_wf (protect_all_published holder)) m Hm). unfold protect_all_published. apply preserves_bind; [apply preserves_get|intros m'].
    apply preserves_bind; [|intros; apply preserves_ret]. apply preserves_for_each. intros id. apply blobs_wf_add_lease.
Qed.

(** ** Held blobs *)

(** Blob [id] is published as [r] and somebody holds a read lease on it. *)
Definition in_use (id : string) (r : BlobRecord) (m : BlobMetadata) : Prop :=
  blobs m !! id = Some r ∧ b_state r = B_PUBLISHED ∧ held m id = true.

(** The transactions that end a lease or declare the file bad. *)
Definition spares (id : string) (c : blob_call) : Prop :=
  match c with
  | BReleaseLease _ _ | BReleaseProtection _ => False
  | BMarkCorrupt id' | BReleaseMissing id' _ _ => id' ≠ id
  | _ => True
  end.

Lemma held_holders m id : held m id = true → holders m id ≠ [].
Proof.
  unfold held, holders. rewrite existsb_exists. intros ([i h] & Hin & Hi) Hn. bool_prop. simpl in Hi. subst.
  pose proof (merge_sort_Permutation String.le (snd <$> List.filter (fun l => bool_decide (l.1 = id)) (blob_leases m))) as Hp.
  rewrite Hn in Hp. apply Permutation_nil_l in Hp.
  assert (h ∈ snd <$> List.filter (fun l => bool_decide (l.1 = id)) (blob_leases m)) as Hh.
  { apply list_elem_of_fmap. exists (id, h). split; [done|]. apply list_elem_of_In, filter_In. split; [done|].
    by apply bool_decide_eq_true. }
  rewrite <-Hp in Hh. by apply not_elem_of_nil in Hh.
Qed.

Lemma in_use_update id id' r cond f :
  (id' = id → cond r = false) → preserves (in_use id r) (update_blob id' cond f).
Proof.
  intros Hc m (Hr & Hs & Hh). unfold update_blob, modify. simpl. destruct (blobs m !! id') as [r'|] eqn:Hr'; [|done].
  destruct (cond r') eqn:Hcr; [|done]. split_and!; try done. simpl. rewrite dict_lookup_insert_ne; [done|].
  intros ->. rewrite Hr in Hr'. injection Hr' as ->. rewrite Hc in Hcr; done.
Qed.

Lemma in_use_bury id id' r now : id' ≠ id → preserves (in_use id r) (bury id' now).
Proof.
  intros Hne. unfold bury. apply preserves_bind; [apply preserves_get|intros m]. by apply in_use_update.
Qed.

Lemma in_use_add_lease id r id' h : preserves (in_use id r) (add_lease id' h).
Proof.
  intros m (Hr & Hs & Hh). unfold add_lease, modify. simpl. case_match; [done|]. split_and!; try done.
  unfold held in *. simpl. by rewrite existsb_app, Hh.
Qed.

Lemma in_use_expire_one id r now r' : preserves (in_use id r) (expire_one now r').
Proof.
  intros m Hm. pose proof Hm as (_ & _ & Hh). unfold expire_one. run_unfold.
  destruct (holders m (b_blob_id r')) eqn:Ho; [|done].
  assert (b_blob_id r' ≠ id) as Hne by (intros He; rewrite He in Ho; by apply (held_holders m id)).
  pose proof (in_use_bury id (b_blob_id r') r now Hne m Hm) as Hb.
  by destruct (bury (b_blob_id r') now m) as [m1 [[]|e]].
Qed.

Lemma in_use_delete id r id' : id' ≠ id → preserves (in_use id r) (modify (fun m => m <| blobs ::= delete id' |>)).
Proof. intros Hne m (Hr & Hs & Hh). split_and!; try done. simpl. by rewrite dict_lookup_delete_ne. Qed.

Lemma in_use_purge id r now m : rows_wf m → in_use id r m → in_use id r (purge_tombstones now m).1.
Proof.
  intros Hw Hm. unfold purge_tombstones. unfold mbind at 1, pym_bind at 1, get. cbv zeta.
  set (ids := b_blob_id <$> _).
  assert (id ∉ ids) as Hni.
  { intros (r' & -> & [Hin Hp]%list_elem_of_In%filter_In)%list_elem_of_fmap.
    apply list_elem_of_In in Hin. apply elem_of_values in Hin as [k Hk].
    apply (entries_lookup _ _ _ (rows_nodup _ Hw)) in Hk. destruct (rows_id _ Hw _ _ Hk) as [<- _].
    destruct Hm as (Hr & Hs & _). rewrite Hr in Hk. injection Hk as <-. unfold purgeable in Hp. by rewrite Hs in Hp. }
  refine ((_ : preserves (in_use id r) _) m Hm). apply preserves_bind; [|intros; apply preserves_ret].
  apply preserves_for_each_in. intros x Hx. apply in_use_delete. by intros ->.
Qed.

Lemma in_use_exec id r c m : rows_wf m → spares id c → in_use id r m → in_use id r (blob_exec c m).
Proof.
  intros Hw Hc Hm. pose proof Hm as (Hr & Hs & Hh). destruct c; unfold blob_exec; try done.
  - unfold reserve. destruct (_ <=? 0); [done|]. run_unfold. destruct (mem id0 (blobs m)) eqn:Hid; [done|].
    case_match; [done|]. destruct (owner_quota_bytes m <? _); [done|]. destruct (global_quota_bytes m <? _); [done|].
    simpl. split_and!; try done. simpl. rewrite dict_lookup_insert_ne; [done|].
    intros ->. apply mem_false in Hid. congruence.
  - refine ((_ : preserves (in_use id r) (begin_staging id0)) m Hm). unfold begin_staging.
    apply preserves_bind; [|intros; by intros ?]. apply in_use_update. intros _. rewrite Hs. done.
  - refine ((_ : preserves (in_use id r) (publish id0 sha size now retention)) m Hm). unfold publish.
    apply preserves_bind; [apply preserves_get|intros m']. cbv zeta. apply preserves_bind.
    { apply in_use_update. intros _. by rewrite Hs. }
    intros _. apply preserves_bind; [by intros ?|]. intros r'. destruct (negb _); [apply preserves_raise|apply preserves_ret].
  - unfold abort, modify. simpl. destruct (blobs m !! id0) as [r'|] eqn:Hr'; [|done].
    destruct (unfinished (b_state r')) eqn:Hu; [|done]. apply (in_use_delete id r id0); [|done].
    intros ->. rewrite Hr in Hr'. injection Hr' as <-. by rewrite Hs in Hu.
  - unfold acquire_lease. run_unfold. destruct (get_blob m id0); [|done]. case_match; [|done].
    pose proof (in_use_add_lease id r id0 holder m Hm) as Ha. by destruct (add_lease id0 holder m) as [m1 [[]|e]].
  - unfold delete_blob. run_unfold. destruct (get_blob m id0) as [r'|]; [|done]. destruct (negb _); [done|].
    case_match; [done|]. destruct (holders m id0) eqn:Ho; [|done].
    assert (id0 ≠ id) as Hne by (intros ->; by apply (held_holders m id)).
    pose proof (in_use_bury id id0 r now Hne m Hm) as Hb. by destruct (bury id0 now m) as [m1 [[]|e]].
  - refine ((_ : preserves (in_use id r) (expire_blobs now)) m Hm). unfold expire_blobs.
    apply preserves_bind; [apply preserves_get|intros m']. apply preserves_bind; [|intros; apply preserves_ret].
    apply preserves_map_each. intros r'. apply in_use_expire_one.
  - by apply in_use_update.
  - by apply in_use_purge.
  - refine ((_ : preserves (in_use id r) (release_missing id0 now keep)) m Hm). unfold release_missing.
    apply preserves_bind; [apply preserves_get|intros m']. by apply in_use_update.
  - refine ((_ : preserves (in_use id r) (protect_all_published holder)) m Hm). unfold protect_all_published.
    apply preserves_bind; [apply preserves_get|intros m']. apply preserves_bind; [|intros; apply preserves_ret].
    apply preserves_for_each. intros id'. apply in_use_add_lease.
Qed.

(** ** Guarantees *)
Fixpoint blob_run (cs : list blob_call) (m : BlobMetadata) : BlobMetadata :=
  match cs with [] => m | c :: cs => blob_run cs (blob_exec c m) end.

(** Every publication of the run stays within its reservation. *)
Fixpoint all_within (cs : list blob_call) (m : BlobMetadata) : Prop :=
  match cs with [] => True | c :: cs => within_reservation c m ∧ all_within cs (blob_exec c m) end.

Lemma blob_run_wf cs m : blobs_wf m → all_within cs m → blobs_wf (blob_run cs m).
Proof. revert m. induction cs as [|c cs IH]; intros m Hm; simpl; [done|]. intros [Hc Hcs]. by apply IH, Hcs; apply blob_exec_wf. Qed.

Lemma BlobMetadata_init_wf oq gq mf rt tb m : BlobMetadata_init oq gq mf rt tb = Ret m → blobs_wf m.
Proof.
  unfold BlobMetadata_init. run_unfold. destruct (_ || _ || _) eqn:E; [done|]. intros [= <-]. bool_prop. simpl in *.
  split; [split|]; simpl; [apply dict_nodup_empty|intros k r Hk; by rewrite dict_lookup_empty in Hk|].
  intros [o|]; unfold charged, dsum; simpl; lia.
Qed.

(** C33: no transaction sequence oversells: from a new catalogue, whatever is
    reserved, staged, published, deleted, expired or recovered in whatever order
    (no publication exceeding its reservation), every owner stays within the
    owner quota and all of them together within the global quota. *)
Theorem blob_quota_safe oq gq mf rt tb m cs owner :
  BlobMetadata_init oq gq mf rt tb = Ret m → all_within cs m →
  usage_total (usage (blob_run cs m) owner) ≤ owner_quota_bytes (blob_run cs m) ∧
  global_bytes (blob_run cs m) ≤ global_quota_bytes (blob_run cs m).
Proof.
  intros Hi Hc. pose proof (blob_run_wf cs m (BlobMetadata_init_wf _ _ _ _ _ _ Hi) Hc) as [_ Hq].
  rewrite usage_charged, global_charged. split; [apply (Hq (Some owner))|apply (Hq None)].
Qed.

(** A held blob is never removed: while a read lease is out, no delete,
    expiry sweep, purge, publication or reservation changes the published row. *)
Theorem held_blob_survives cs m id r :
  blobs_wf m → all_within cs m → in_use id r m → Forall (spares id) cs → in_use id r (blob_run cs m).
Proof.
  revert m. induction cs as [|c cs IH]; intros m Hm; simpl; [done|]. intros [Hc Hcs] Hu [Hs Hss]%Forall_cons.
  apply IH; try done; [by apply blob_exec_wf|]. by apply in_use_exec; [apply Hm|..].
Qed.
