(* ===== verification/Idempotency.v ===== *)
(** * Idempotent writes

    [model_scheduler/idempotency.py].  A record is a mutable object: [begin]
    hands out a reference that [complete] and [fail] use later, also after the
    key was released, so the store is a heap of records and a table of
    references.  The payload of a request is its canonical JSON text (the
    [json.dumps] of [fingerprint]); the keyed digest is an interface. *)

From S2P Require Import Prelude Text Dict Contracts Registration JsonText Identity.
From Stdlib Require Import Ascii.
Local Open Scope Z_scope.

(** [canonical_claims({"route": route, "owner": owner, "key": key})] *)
Definition namespace_claims (route owner key : string) : string :=
  concat_text ["{"; json_string true "key"; ":"; json_string true key; ",";
               json_string true "owner"; ":"; json_string true owner; ",";
               json_string true "route"; ":"; json_string true route; "}"].

(** It is the canonical encoding of these claims; floats play no part. *)
Lemma namespace_claims_canonical `{FloatText} route owner key :
  canonical_claims (JObj [("route", JStr route); ("owner", JStr owner); ("key", JStr key)]) = namespace_claims route owner key.
Proof.
  unfold canonical_claims, dumps, namespace_claims. cbn [sorted_keys map sort_fields foldr insert_field fst snd String.leb String.compare].
  simpl. rewrite !append_assoc. done.
Qed.

(** ** The store *)
Inductive RecordState := PENDING | COMPLETED | FAILED.
#[export] Instance RecordState_eq_dec : EqDecision RecordState.
Proof. solve_decision. Defined.

Record IdempotencyRecord := {
  i_route : string;
  i_owner : string;
  i_key : string;
  i_fingerprint : string;
  i_state : RecordState;
  i_created_at : time;
  i_completed_at : option time;
  i_status : option Z;
  i_resource_id : option string;
  i_body : option json;
  i_active_until : option time;
  i_token_fingerprint : option string;
}.

#[export] Instance IdempotencyRecord_eta : Eta IdempotencyRecord := fun r =>
  {| i_route := i_route r; i_owner := i_owner r; i_key := i_key r; i_fingerprint := i_fingerprint r;
     i_state := i_state r; i_created_at := i_created_at r; i_completed_at := i_completed_at r;
     i_status := i_status r; i_resource_id := i_resource_id r; i_body := i_body r;
     i_active_until := i_active_until r; i_token_fingerprint := i_token_fingerprint r |}.

(** [(route, owner, key)] *)
Definition ikey : Type := string * string * string.
Definition key_of (r : IdempotencyRecord) : ikey := (i_route r, i_owner r, i_key r).

Definition replayable (r : IdempotencyRecord) : bool :=
  bool_decide (i_state r = COMPLETED)
  && (bool_decide (is_Some (i_status r)) || bool_decide (is_Some (i_body r))).

Record IdempotencyStore := {
  boot_key : string;
  retention_seconds : time;
  heap : list IdempotencyRecord;
  records : dict ikey nat;
}.

#[export] Instance IdempotencyStore_eta : Eta IdempotencyStore := fun s =>
  {| boot_key := boot_key s; retention_seconds := retention_seconds s; heap := heap s; records := records s |}.

Definition IdempotencyStore_init (boot_key : string) (retention_seconds : time) : outcome IdempotencyStore :=
  _ ← raise_if (retention_seconds <=? 0) (ValueError "retention must be positive");
  mret {| boot_key := boot_key; retention_seconds := retention_seconds; heap := []; records := ∅ |}.

(** [self.records[k]] of an object the caller holds: the reference is always live. *)
Definition deref (ref : nat) : pym IdempotencyStore IdempotencyRecord :=
  s ← get; lift (of_option (KeyError "reference") (heap s !! ref)).

Definition put (ref : nat) (r : IdempotencyRecord) : pym IdempotencyStore unit :=
  modify (fun s => s <| heap := <[ref := r]> (heap s) |>).

Section Store.
Context `{Mac}.

Definition fingerprint (s : IdempotencyStore) (route owner key payload : string) : string :=
  hmac_sha256_hex (boot_key s) (namespace_claims route owner key +:+ String (ascii_of_nat 0) payload).

Definition i_get (s : IdempotencyStore) (k : ikey) : option nat := records s !! k.

(** [self.records[(route, owner, key)] = IdempotencyRecord(...)] *)
Definition create_record (r : IdempotencyRecord) : pym IdempotencyStore nat :=
  s ← get;
  modify (fun s => s <| heap := heap s ++ [r] |> <| records := <[key_of r := length (heap s)]> (records s) |>);;
  mret (length (heap s)).

Definition begin_ (route owner key payload : string) (token_fingerprint : option string)
    (active_until : option time) (now : time) : pym IdempotencyStore nat :=
  s ← get;
  let fp := fingerprint s route owner key payload in
  let fresh :=
    create_record {| i_route := route; i_owner := owner; i_key := key; i_fingerprint := fp; i_state := PENDING;
                     i_created_at := now; i_completed_at := None; i_status := None; i_resource_id := None;
                     i_body := None; i_active_until := active_until; i_token_fingerprint := token_fingerprint |} in
  match records s !! (route, owner, key) with
  | Some ref =>
      existing ← deref ref;
      if negb (String.eqb (i_fingerprint existing) fp) then raise (IdempotencyError "idempotency_conflict")
      else match i_state existing with
           | PENDING => raise (IdempotencyError "busy")
           | COMPLETED => mret ref
           | FAILED => modify (fun s => s <| records := delete (route, owner, key) (records s) |>);; fresh
           end
  | None => fresh
  end.

Definition complete (ref : nat) (status : Z) (resource_id : option string) (body : option json) (active_until : option time)
    (token_fingerprint : option string) (now : time) : pym IdempotencyStore nat :=
  r ← deref ref;
  put ref {| i_route := i_route r; i_owner := i_owner r; i_key := i_key r; i_fingerprint := i_fingerprint r;
             i_state := COMPLETED; i_created_at := i_created_at r; i_completed_at := Some now;
             i_status := Some status; i_resource_id := resource_id; i_body := body;
             i_active_until := match active_until with Some t => Some t | None => i_active_until r end;
             i_token_fingerprint :=
               match token_fingerprint with Some t => Some t | None => i_token_fingerprint r end |};;
  mret ref.

Definition fail_ (ref : nat) : pym IdempotencyStore unit :=
  r ← deref ref;
  modify (fun s => s <| records := delete (key_of r) (records s) |>).

(** [record.completed_at or record.created_at]: 0.0 is false. *)
Definition finished_at (r : IdempotencyRecord) : time :=
  match i_completed_at r with Some t => if t =? 0 then i_created_at r else t | None => i_created_at r end.

Definition sweepable (retention : time) (moment : time) (r : IdempotencyRecord) : bool :=
  negb (bool_decide (i_state r = PENDING))
  && negb (match i_active_until r with Some t => moment <? t | None => false end)
  && (retention <=? moment - finished_at r).

(** One turn of the loop of [sweep] over [list(self.records.items())]. *)
Definition sweep_one (moment : time) (entry : ikey * nat) : pym IdempotencyStore (list nat) :=
  r ← deref entry.2;
  s ← get;
  if sweepable (retention_seconds s) moment r
  then modify (fun s => s <| records := delete entry.1 (records s) |>);; mret [entry.2]
  else mret [].

Definition sweep (moment : time) : pym IdempotencyStore (list nat) :=
  s ← get; removed ← map_each (entries (records s)) (sweep_one moment); mret (concat removed).

(** [replay]: the status, resource and body of a finished record. *)
Definition replay (ref : nat) (payload : string) : pym IdempotencyStore (option Z * option string * option json) :=
  r ← deref ref;
  s ← get;
  if negb (String.eqb (fingerprint s (i_route r) (i_owner r) (i_key r) payload) (i_fingerprint r))
  then raise (IdempotencyError "idempotency_conflict")
  else if negb (replayable r) then raise (IdempotencyError "busy")
  else mret (i_status r, i_resource_id r, i_body r).
End Store.

(** ** One creation per key

    The invariant of the store, a run as a sequence of calls, and the counting
    argument: a key is claimed again only after its record was released. *)
(** Every entry points to a live record of its own key that is pending or completed. *)
Record store_wf (s : IdempotencyStore) : Prop := {
  wf_nodup : dict_nodup (records s);
  wf_entry : ∀ k ref, records s !! k = Some ref →
    ∃ r, heap s !! ref = Some r ∧ key_of r = k ∧ i_state r ≠ FAILED;
}.

Section Runs.
Context `{Mac}.

Inductive icall :=
| IBegin (route owner key payload : string) (tok : option string) (act : option time) (now : time)
| IComplete (ref : nat) (status : Z) (rid : option string) (body : option json) (act : option time) (tok : option string) (now : time)
| IFail (ref : nat)
| ISweep (now : time).

Definition i_exec (c : icall) (s : IdempotencyStore) : IdempotencyStore :=
  match c with
  | IBegin route owner key payload tok act now => (begin_ route owner key payload tok act now s).1
  | IComplete ref status rid body act tok now => (complete ref status rid body act tok now s).1
  | IFail ref => (fail_ ref s).1
  | ISweep now => (sweep now s).1
  end.

Fixpoint i_run (cs : list icall) (s : IdempotencyStore) : IdempotencyStore :=
  match cs with [] => s | c :: cs => i_run cs (i_exec c s) end.

(** The call allocates a record for [k]. *)
Definition creates (k : ikey) (c : icall) (s : IdempotencyStore) : bool :=
  (length (heap s) <? length (heap (i_exec c s)))%nat
  && bool_decide (key_of <$> last (heap (i_exec c s)) = Some k).

(** The call takes [k] out of the table. *)
Definition removes (k : ikey) (c : icall) (s : IdempotencyStore) : bool :=
  mem k (records s) && negb (mem k (records (i_exec c s))).

Fixpoint count (p : icall → IdempotencyStore → bool) (cs : list icall) (s : IdempotencyStore) : Z :=
  match cs with [] => 0 | c :: cs => (if p c s then 1 else 0) + count p cs (i_exec c s) end.

Definition present (k : ikey) (s : IdempotencyStore) : Z := if mem k (records s) then 1 else 0.

(** *** [sweep] *)
Lemma sweep_one_eq now k ref s r :
  heap s !! ref = Some r →
  sweep_one now (k, ref) s =
    if sweepable (retention_seconds s) now r
    then (s <| records := delete k (records s) |>, Ret [ref]) else (s, Ret []).
Proof. intros E. unfold sweep_one, deref. run_unfold. simpl. rewrite E. by case_match. Qed.

(** The record behind [ref] is due at [now]. *)
Definition due (now retention : time) (h : list IdempotencyRecord) (ref : nat) : bool :=
  match h !! ref with Some r => sweepable retention now r | None => false end.

(** Some entry of [l] for [k] is due. *)
Definition swept (now retention : time) (h : list IdempotencyRecord) (l : list (ikey * nat)) (k : ikey) : bool :=
  existsb (fun e => bool_decide (e.1 = k) && due now retention h e.2) l.

Lemma swept_cons now ret h k ref l k' r :
  h !! ref = Some r →
  swept now ret h ((k, ref) :: l) k' = bool_decide (k = k') && sweepable ret now r || swept now ret h l k'.
Proof. intros E. unfold swept. simpl. unfold due at 1. by rewrite E. Qed.

Lemma sweep_loop now l s :
  (∀ k ref, (k, ref) ∈ l → is_Some (heap s !! ref)) →
  ∃ s' out, map_each l (sweep_one now) s = (s', Ret out) ∧
    heap s' = heap s ∧ boot_key s' = boot_key s ∧ retention_seconds s' = retention_seconds s ∧
    (dict_nodup (records s) → dict_nodup (records s')) ∧
    ∀ k, records s' !! k = if swept now (retention_seconds s) (heap s) l k then None else records s !! k.
Proof.
  revert s. induction l as [|[k ref] l IH]; intros s Hl.
  - exists s, []. split_and!; done.
  - destruct (Hl k ref ltac:(constructor)) as [r Hr]. cbn [map_each]. unfold mbind, pym_bind at 1.
    rewrite (sweep_one_eq now k ref s r Hr).
    set (s1 := if sweepable (retention_seconds s) now r then s <| records := delete k (records s) |> else s).
    assert (heap s1 = heap s ∧ boot_key s1 = boot_key s ∧ retention_seconds s1 = retention_seconds s) as (Hh & Hb & Hret)
      by (unfold s1; by case_match).
    destruct (IH s1) as (s' & out & E & Hh' & Hb' & Hr' & Hn & Hk).
    { intros k' ref' Hin. rewrite Hh. apply (Hl k'). by constructor. }
    rewrite Hh, Hret in Hk.
    exists s', ((if sweepable (retention_seconds s) now r then [ref] else []) :: out). split_and!; try congruence.
    + unfold s1 in E. destruct (sweepable _ now r); unfold pym_bind; by rewrite E.
    + intros Hnd. apply Hn. unfold s1. case_match; simpl; [by apply dict_nodup_delete|done].
    + intros k'. rewrite Hk. rewrite (swept_cons _ _ _ _ _ _ _ _ Hr).
      unfold s1. destruct (sweepable (retention_seconds s) now r); simpl; rewrite ?andb_false_r, ?andb_true_r; [|done].
      rewrite dict_lookup_delete. destruct (swept _ _ _ _ _); [by rewrite orb_true_r|].
      rewrite orb_false_r. by repeat case_decide; case_bool_decide.
Qed.

Lemma swept_entries now ret h (d : dict ikey nat) k :
  dict_nodup d →
  swept now ret h (entries d) k = match d !! k with Some ref => due now ret h ref | None => false end.
Proof.
  intros Hnd. apply eq_true_iff_eq. unfold swept. rewrite existsb_exists. setoid_rewrite <-list_elem_of_In. split.
  - intros ([k' ref] & Hin & Hd). simpl in Hd. bool_prop. subst. by rewrite (entries_lookup d k ref Hnd Hin).
  - destruct (d !! k) as [ref|] eqn:E; [|done]. intros Hd. exists (k, ref).
    split; [by apply lookup_entries|]. simpl. by rewrite bool_decide_true.
Qed.

Lemma sweep_effect now s :
  store_wf s → ∃ s' out, sweep now s = (s', Ret out) ∧
    heap s' = heap s ∧ boot_key s' = boot_key s ∧ retention_seconds s' = retention_seconds s ∧
    dict_nodup (records s') ∧
    ∀ k, records s' !! k = match records s !! k with
                           | Some ref => if due now (retention_seconds s) (heap s) ref then None else Some ref
                           | None => None
                           end.
Proof.
  intros [Hnd Hwf]. destruct (sweep_loop now (entries (records s)) s) as (s' & out & E & Hh & Hb & Hr & Hn & Hk).
  { intros k ref Hin. apply entries_lookup in Hin; [|done]. destruct (Hwf _ _ Hin) as (r & -> & _). done. }
  exists s', (concat out). split_and!; [|done..|by apply Hn|].
  - unfold sweep. run_unfold. by rewrite E.
  - intros k. rewrite Hk, (swept_entries _ _ _ _ _ Hnd). destruct (records s !! k); [done|done].
Qed.

(** *** The invariant *)
Lemma store_wf_put s ref r r' :
  store_wf s → heap s !! ref = Some r → key_of r' = key_of r → i_state r' ≠ FAILED →
  store_wf (s <| heap := <[ref := r']> (heap s) |>).
Proof.
  intros [Hnd Hwf] Hr Hk Hst. split; simpl; [done|]. intros k ref' (r0 & Hr0 & Hk0 & Hst0)%Hwf.
  destruct (decide (ref = ref')) as [->|Hne].
  - exists r'. rewrite list_lookup_insert_eq by (by eapply lookup_lt_Some). split_and!; [done|congruence|done].
  - exists r0. by rewrite list_lookup_insert_ne.
Qed.

Lemma store_wf_create s r :
  store_wf s → i_state r ≠ FAILED → store_wf (create_record r s).1.
Proof.
  intros [Hnd Hwf] Hst. unfold create_record. run_unfold. split; simpl; [by apply dict_nodup_insert|].
  intros k ref. rewrite dict_lookup_insert. case_decide; intros Hr; simplify_eq.
  - exists r. by rewrite list_lookup_middle.
  - destruct (Hwf _ _ Hr) as (r0 & Hr0 & ? & ?). exists r0. split; [by apply lookup_app_l_Some|done].
Qed.

Lemma store_wf_delete s k : store_wf s → store_wf (s <| records := delete k (records s) |>).
Proof.
  intros [Hnd Hwf]. split; simpl; [by apply dict_nodup_delete|].
  intros k' ref. rewrite dict_lookup_delete. case_decide; [done|]. apply Hwf.
Qed.

(** What [begin] does on each branch of a well-formed store. *)
Lemma begin_cases route owner key payload tok act now s :
  store_wf s →
  let k := (route, owner, key) in
  let fp := fingerprint s route owner key payload in
  match records s !! k with
  | Some ref => ∃ r, heap s !! ref = Some r ∧ key_of r = k ∧
      begin_ route owner key payload tok act now s =
        (s, if String.eqb (i_fingerprint r) fp
            then if decide (i_state r = COMPLETED) then Ret ref else Raise (IdempotencyError "busy")
            else Raise (IdempotencyError "idempotency_conflict"))
  | None => ∃ r, i_state r = PENDING ∧ i_fingerprint r = fp ∧ key_of r = k ∧
      begin_ route owner key payload tok act now s = create_record r s
  end.
Proof.
  intros Hwf k fp. destruct (records s !! k) as [ref|] eqn:Hk.
  - destruct (wf_entry s Hwf _ _ Hk) as (r & Hr & Hkey & Hst). exists r. split_and!; [done..|].
    unfold begin_, deref. run_unfold. fold k. rewrite Hk, Hr. fold fp.
    destruct (String.eqb _ fp); simpl; [|done]. by destruct (i_state r).
  - eexists. unfold begin_. run_unfold. fold k. rewrite Hk. split_and!; [..|reflexivity]; done.
Qed.

Lemma i_exec_wf c s : store_wf s → store_wf (i_exec c s).
Proof.
  intros Hwf. destruct c as [route owner key payload tok act now|ref st rid body act tok now|ref|now]; simpl.
  - pose proof (begin_cases route owner key payload tok act now s Hwf) as Hb. simpl in Hb.
    destruct (records s !! _).
    + by destruct Hb as (r & _ & _ & ->).
    + destruct Hb as (r & Hst & _ & _ & ->). apply store_wf_create; [done|by rewrite Hst].
  - unfold complete, deref, put. run_unfold. destruct (heap s !! ref) as [r|] eqn:Hr; [|done].
    by apply (store_wf_put s ref r).
  - unfold fail_, deref. run_unfold. destruct (heap s !! ref); [by apply store_wf_delete|done].
  - destruct (sweep_effect now s Hwf) as (s' & out & -> & Hh & _ & _ & Hnd & Hk). split; [done|].
    intros k ref. simpl. rewrite Hk, Hh. destruct (records s !! k) as [ref'|] eqn:E; [|done].
    case_match; [done|]. intros [= <-]. by apply (wf_entry s Hwf).
Qed.

Lemma i_run_wf cs s : store_wf s → store_wf (i_run cs s).
Proof. revert s. induction cs as [|c cs IH]; intros s Hs; [done|]. by apply IH, i_exec_wf. Qed.

Lemma store_init_wf bk ret s : IdempotencyStore_init bk ret = Ret s → store_wf s.
Proof.
  unfold IdempotencyStore_init. run_unfold. destruct (ret <=? 0); [done|]. intros [= <-]. split; simpl; [constructor|by intros k ref].
Qed.

(** *** Counting *)
Lemma mem_insert k k' v (d : dict ikey nat) : mem k' (<[k := v]> d) = bool_decide (k = k') || mem k' d.
Proof. unfold mem. rewrite dict_lookup_insert. case_decide; [by rewrite bool_decide_true|by rewrite bool_decide_false]. Qed.

Lemma mem_delete k k' (d : dict ikey nat) : mem k' (delete k d) = negb (bool_decide (k = k')) && mem k' d.
Proof. unfold mem. rewrite dict_lookup_delete. case_decide; [by rewrite bool_decide_true|by rewrite bool_decide_false]. Qed.

(** One call: the presence of a key changes by what the call creates and removes. *)
Lemma presence_step k c s :
  store_wf s →
  present k (i_exec c s) = present k s + (if creates k c s then 1 else 0) - (if removes k c s then 1 else 0).
Proof.
  intros Hwf. unfold creates, removes, present.
  destruct c as [route owner key payload tok act now|ref st rid body act tok now|ref|now]; simpl.
  - pose proof (begin_cases route owner key payload tok act now s Hwf) as Hb. simpl in Hb.
    destruct (records s !! _) eqn:Hk.
    + destruct Hb as (r & _ & _ & ->). simpl. rewrite Nat.ltb_irrefl. simpl. destruct (mem k (records s)); done.
    + destruct Hb as (r & _ & _ & Hkey & ->). unfold create_record. run_unfold. simpl.
      rewrite length_app, last_snoc, mem_insert. simpl. rewrite (proj2 (Nat.ltb_lt _ _)) by lia. simpl.
      rewrite Hkey. destruct (bool_decide_reflect ((route, owner, key) = k)) as [<-|Hne].
      * rewrite !bool_decide_true by done. assert (mem ((route, owner, key) : ikey) (records s) = false) as -> by (by apply mem_false). done.
      * rewrite !bool_decide_false by congruence. simpl. by destruct (mem k (records s)).
  - unfold complete, deref, put. run_unfold.
    destruct (heap s !! ref); simpl; rewrite ?length_insert, Nat.ltb_irrefl; by destruct (mem k (records s)).
  - unfold fail_, deref. run_unfold.
    destruct (heap s !! ref) as [r|]; simpl; rewrite Nat.ltb_irrefl; simpl; rewrite ?mem_delete;
      destruct (mem k (records s)); try done; by destruct (bool_decide (key_of r = k)).
  - destruct (sweep_effect now s Hwf) as (s' & out & -> & Hh & _ & _ & Hnd & Hk). simpl. rewrite Hh, Nat.ltb_irrefl.
    unfold mem. rewrite Hk. simpl. by repeat case_match.
Qed.

Lemma presence_run k cs s :
  store_wf s → present k (i_run cs s) = present k s + count (creates k) cs s - count (removes k) cs s.
Proof.
  revert s. induction cs as [|c cs IH]; intros s Hwf; simpl; [lia|].
  rewrite (IH _ (i_exec_wf c s Hwf)), (presence_step k c s Hwf). lia.
Qed.

(** The table may lose a key to a failed attempt of that key, or to the sweep of
    an old finished record that protects no active object. *)
Definition released_by (k : ikey) (c : icall) (s : IdempotencyStore) : Prop :=
  match c with
  | IFail ref => ∃ r, heap s !! ref = Some r ∧ key_of r = k
  | ISweep now => ∃ ref r, records s !! k = Some ref ∧ heap s !! ref = Some r ∧ i_state r = COMPLETED ∧
      (∀ t, i_active_until r = Some t → t ≤ now) ∧ retention_seconds s ≤ now - finished_at r
  | _ => False
  end.

Lemma removal_released k c s : store_wf s → removes k c s = true → released_by k c s.
Proof.
  intros Hwf. unfold removes. intros [Hm Hn%negb_true_iff]%andb_true_iff. apply mem_true in Hm as [ref0 Hk0].
  apply mem_false in Hn.
  destruct c as [route owner key payload tok act now|ref st rid body act tok now|ref|now]; simpl in *.
  - pose proof (begin_cases route owner key payload tok act now s Hwf) as Hb. simpl in Hb.
    destruct (records s !! (_, _, _)) eqn:Hk; [destruct Hb as (r & _ & _ & Hb)|destruct Hb as (r & _ & _ & _ & Hb)];
      rewrite Hb in Hn; [simpl in Hn; by rewrite Hk0 in Hn|].
    unfold create_record in Hn. revert Hn. run_unfold. simpl. rewrite dict_lookup_insert. case_decide; [done|]. by rewrite Hk0.
  - revert Hn. unfold complete, deref, put. run_unfold. destruct (heap s !! ref); simpl; by rewrite Hk0.
  - revert Hn. unfold fail_, deref. run_unfold. destruct (heap s !! ref) as [r|]; simpl; [|by rewrite Hk0].
    rewrite dict_lookup_delete. case_decide; [by eauto|]. by rewrite Hk0.
  - destruct (sweep_effect now s Hwf) as (s' & out & Hs & Hh & _ & _ & Hnd & Hk). rewrite Hs in Hn. simpl in Hn.
    rewrite Hk, Hk0 in Hn. destruct (due now (retention_seconds s) (heap s) ref0) eqn:Hd; [|done].
    destruct (wf_entry s Hwf _ _ Hk0) as (r & Hr & _ & Hst). unfold due in Hd. rewrite Hr in Hd.
    unfold sweepable in Hd. bool_prop. exists ref0, r. split_and!; [done|done|by destruct (i_state r)| |done].
    intros t Ht. rewrite Ht in *. by bool_prop.
Qed.

(** C35: exactly one creation per claim.  From an empty store, in any sequence of
    [begin], [complete], [fail] and [sweep] calls, the records created for a
    [(route, owner, key)] are exactly the releases of that key plus the one that
    is still held: a retry, concurrent or late, never creates a second object
    while the first is on record.  And a release is only ever a [fail] of a
    record of that key, or a [sweep] of a completed record that is older than
    the retention window and protects no active object; a pending record is
    never swept. *)
Theorem one_creation_per_key bk ret s0 cs k :
  IdempotencyStore_init bk ret = Ret s0 →
  count (creates k) cs s0 = count (removes k) cs s0 + present k (i_run cs s0) ∧
  (∀ c, removes k c (i_run cs s0) = true → released_by k c (i_run cs s0)).
Proof.
  intros Hi. pose proof (store_init_wf _ _ _ Hi) as Hwf. split.
  - rewrite (presence_run k cs s0 Hwf).
    assert (present k s0 = 0) as ->; [|lia].
    revert Hi. unfold IdempotencyStore_init. run_unfold. destruct (ret <=? 0); [done|]. by intros [= <-].
  - intros c. by apply removal_released, i_run_wf.
Qed.

(** [begin] on a key that is on record creates nothing and changes nothing:
    with the payload of the first attempt it answers [busy] while that attempt
    runs and the stored record once it is complete, and with any other payload
    [idempotency_conflict]; on a free key it files one pending record that
    carries the payload's fingerprint. *)
Theorem begin_behaviour `{!MacLaws} bk ret s0 cs route owner key payload tok act now :
  IdempotencyStore_init bk ret = Ret s0 →
  let s := i_run cs s0 in
  let k := (route, owner, key) in
  match records s !! k with
  | Some ref => ∃ r, heap s !! ref = Some r ∧ key_of r = k ∧ ∀ first,
      i_fingerprint r = fingerprint s route owner key first →
      begin_ route owner key payload tok act now s =
        (s, if String.eqb first payload
            then if decide (i_state r = COMPLETED) then Ret ref else Raise (IdempotencyError "busy")
            else Raise (IdempotencyError "idempotency_conflict"))
  | None => ∃ r s', begin_ route owner key payload tok act now s = (s', Ret (length (heap s))) ∧
      heap s' = heap s ++ [r] ∧ records s' = <[k := length (heap s)]> (records s) ∧
      i_state r = PENDING ∧ key_of r = k ∧ i_fingerprint r = fingerprint s' route owner key payload
  end.
Proof.
  intros Hi s k. pose proof (i_run_wf cs s0 (store_init_wf _ _ _ Hi)) as Hwf. fold s in Hwf.
  pose proof (begin_cases route owner key payload tok act now s Hwf) as Hb. simpl in Hb. fold k in Hb.
  destruct (records s !! k) as [ref|].
  - destruct Hb as (r & Hr & Hk & Hb). exists r. split_and!; [done|done|]. intros first Hfp. rewrite Hb, Hfp.
    assert (String.eqb (fingerprint s route owner key first) (fingerprint s route owner key payload) = String.eqb first payload) as ->;
      [|done].
    apply eq_true_iff_eq. rewrite !String.eqb_eq. split; [|by intros ->].
    intros Hf%hmac_collision_free. apply (inj (String.app _)) in Hf. congruence.
  - destruct Hb as (r & Hst & Hfp & Hk & Hb). exists r. rewrite Hb. unfold create_record. run_unfold. simpl.
    eexists; split; [reflexivity|]. simpl. split_and!; [done|by rewrite Hk|done..].
Qed.
End Runs.

(** *** A run with a collision-free digest that can be computed *)
Definition demo_mac : Mac := {| hmac_sha256_hex := fun k m => k +:+ m |}.
Definition demo_mac_laws : @MacLaws demo_mac.
Proof. split. intros k m1 m2 Heq. by apply (inj (String.app k)). Defined.

Definition demo_store : IdempotencyStore :=
  {| boot_key := "boot"; retention_seconds := 10; heap := []; records := ∅ |}.
Definition demo_key : ikey := ("/v1/executions", "uid:1000", "k1").

Section Demo.
#[local] Existing Instance demo_mac.
Definition demo_begin (payload : string) (now : time) : icall :=
  IBegin "/v1/executions" "uid:1000" "k1" payload None None now.
(** A first attempt, a retry while it runs, its completion, a late retry, a sweep, a new claim. *)
Definition demo_calls : list icall :=
  [demo_begin "{}" 1; demo_begin "{}" 2; IComplete 0 201 (Some "exec-1") None None None 3;
   demo_begin "{}" 4; ISweep 20; demo_begin "{}" 21].

Lemma one_creation_per_key_witness :
  count (creates demo_key) demo_calls demo_store = 2 ∧
  count (creates demo_key) demo_calls demo_store
    = count (removes demo_key) demo_calls demo_store + present demo_key (i_run demo_calls demo_store) ∧
  (∀ c, removes demo_key c (i_run demo_calls demo_store) = true → released_by demo_key c (i_run demo_calls demo_store)).
Proof.
  split; [vm_compute; reflexivity|]. apply (one_creation_per_key "boot" 10). reflexivity.
Defined.

Lemma begin_behaviour_witness :
  begin_ "/v1/executions" "uid:1000" "k1" "[1]" None None 5 (i_run [demo_begin "{}" 1] demo_store)
  = (i_run [demo_begin "{}" 1] demo_store, Raise (IdempotencyError "idempotency_conflict")).
Proof.
  pose proof (@begin_behaviour demo_mac demo_mac_laws "boot" 10 demo_store [demo_begin "{}" 1]
                "/v1/executions" "uid:1000" "k1" "[1]" None None 5 eq_refl) as Hb.
  destruct Hb as (r & Hr & _ & Hb). apply (Hb "{}"). injection Hr as <-. reflexivity.
Defined.
End Demo.
