(* ===== verification/Envelopes.v ===== *)
(** * Input checks before dispatch

    [model_scheduler/envelope_validator.py]: image headers, data URLs, message
    bodies and the token budget, on decoded JSON ([Registration.json]) and on
    bytes (integers below 256).  An [EnvelopeError] carries its code. *)

From S2P Require Import Prelude Text Dict Contracts Registration RegistrationProps.
From Stdlib Require Import Ascii.
Local Open Scope Z_scope.

Definition refuse {A} (code : string) : outcome A := Raise (EnvelopeError code).
Definition contract_violation : string := "contract_violation".
Definition exceeded : string := "envelope_exceeded".
(** [if not ok: raise EnvelopeError(..., code)] *)
Definition demand (ok : bool) (code : string) : outcome unit := raise_if (negb ok) (EnvelopeError code).

(** ** Bytes *)
Definition bytes : Type := list Z.
(** [data[i]] for an index the caller has checked. *)
Definition byte_at (data : bytes) (i : nat) : Z := default 0 (data !! i).
(** [data[i:j]] *)
Definition slice (data : bytes) (i j : nat) : bytes := firstn (j - i) (skipn i data).
(** [int.from_bytes(b, "big")] *)
Definition from_bytes_big (b : bytes) : Z := foldl (fun acc x => acc * 256 + x) 0 b.

Definition PNG_MAGIC : bytes := [137; 80; 78; 71; 13; 10; 26; 10].
Definition IHDR : bytes := [73; 72; 68; 82].

Definition png_size (data : bytes) : outcome (Z * Z) :=
  _ ← demand (negb ((length data <? 24)%nat || negb (bool_decide (slice data 0 8 = PNG_MAGIC)))) exceeded;
  _ ← demand (bool_decide (slice data 12 16 = IHDR)) exceeded;
  let width := from_bytes_big (slice data 16 20) in
  let height := from_bytes_big (slice data 20 24) in
  _ ← demand (negb ((width <? 1) || (height <? 1))) exceeded;
  mret (width, height).

(** The scan of [_jpeg_size]; every turn moves the index forward. *)
Fixpoint jpeg_scan (fuel : nat) (data : bytes) (index : nat) : outcome (Z * Z) :=
  match fuel with
  | O => refuse exceeded
  | S fuel =>
      if negb (index + 9 <=? length data)%nat then refuse exceeded
      else if negb (byte_at data index =? 255) then jpeg_scan fuel data (index + 1)
      else
        let marker := byte_at data (index + 1) in
        if (marker =? 192) || (marker =? 193) || (marker =? 194) then
          let height := from_bytes_big (slice data (index + 5) (index + 7)) in
          let width := from_bytes_big (slice data (index + 7) (index + 9)) in
          if (width <? 1) || (height <? 1) then refuse exceeded else mret (width, height)
        else if (marker =? 216) || (marker =? 217) || (marker <? 192) then jpeg_scan fuel data (index + 2)
        else jpeg_scan fuel data (index + 2 + Z.to_nat (from_bytes_big (slice data (index + 2) (index + 4))))
  end.

(** The index grows at every turn, so the length of the data bounds the turns. *)
Definition jpeg_size (data : bytes) : outcome (Z * Z) :=
  _ ← demand (bool_decide (slice data 0 2 = [255; 216])) exceeded;
  jpeg_scan (length data) data 2.

Definition image_dimensions (media : string) (raw : bytes) : outcome (Z * Z) :=
  if String.eqb media "image/png" then png_size raw else jpeg_size raw.

(** ** Data URLs *)
Definition text (l : list ascii) : string := String.string_of_list_ascii l.

(** [prefix] of a text, and what follows it *)
Fixpoint strip_prefix (prefix l : list ascii) : option (list ascii) :=
  match prefix, l with
  | [], _ => Some l
  | p :: prefix, c :: l => if Ascii.eqb p c then strip_prefix prefix l else None
  | _, [] => None
  end.
Definition starts_with (prefix s : string) : bool := bool_decide (is_Some (strip_prefix (chars prefix) (chars s))).

(** [s.split(sep, 1)] when [sep in s] *)
Fixpoint split_once (sep l : list ascii) : option (list ascii * list ascii) :=
  match strip_prefix sep l with
  | Some rest => Some ([], rest)
  | None => match l with
            | [] => None
            | c :: l => '(a, b) ← split_once sep l; mret (c :: a, b)
            end
  end.

Definition blank (s : string) : bool := bool_decide (strip (codepoints s) = []).

(** [c.lower()] of an ASCII letter; no other code point lowers to a letter of
    the accepted names. *)
Definition lower_char (c : Z) : Z := if (65 <=? c) && (c <=? 90) then c + 32 else c.

(** [base64.b64decode(payload, validate=True)] *)
Definition sextet (c : ascii) : option Z :=
  if in_range 65 90 c then Some (code c - 65)
  else if in_range 97 122 c then Some (code c - 71)
  else if in_range 48 57 c then Some (code c + 4)
  else if code c =? 43 then Some 62
  else if code c =? 47 then Some 63
  else None.
Definition is_pad (c : ascii) : bool := code c =? 61.

Fixpoint b64decode (l : list ascii) : option bytes :=
  match l with
  | [] => Some []
  | a :: b :: c :: d :: l =>
      x ← sextet a; y ← sextet b;
      if is_pad c then if is_pad d && bool_decide (l = []) then Some [x * 4 + y / 16] else None
      else
        z ← sextet c;
        if is_pad d then if bool_decide (l = []) then Some [x * 4 + y / 16; (y mod 16) * 16 + z / 4] else None
        else
          w ← sextet d; rest ← b64decode l;
          Some (x * 4 + y / 16 :: (y mod 16) * 16 + z / 4 :: (z mod 4) * 64 + w :: rest)
  | _ => None
  end.

Definition ALLOWED_IMAGE_MEDIA : list string := ["image/png"; "image/jpeg"].

Definition decode_image_data_url (url : string) : outcome (string * bytes) :=
  match split_once (chars ";base64,") (chars url) with
  | None => refuse contract_violation
  | Some (header, payload) =>
      if negb (starts_with "data:" url) then refuse contract_violation
      else
        let kind := skipn 5 header in
        let kind := match split_once (chars ";") kind with Some (a, _) => a | None => kind end in
        let media := concat_text (utf8 <$> map lower_char (strip (codepoints (text kind)))) in
        _ ← demand (bool_decide (media ∈ ALLOWED_IMAGE_MEDIA)) "unsupported_media_type";
        raw ← of_option (EnvelopeError contract_violation) (b64decode payload);
        mret (media, raw)
  end.

(** ** Message bodies *)
Definition json_object (v : option json) : outcome (list (string * json)) :=
  match v with Some (JObj f) => Ret f | _ => refuse contract_violation end.

Definition message_parts (content : option json) : outcome (list json) :=
  match content with
  | Some (JStr s) => Ret [JObj [("type", JStr "text"); ("text", JStr s)]]
  | Some (JList l) => Ret l
  | _ => refuse contract_violation
  end.

(** One part of a message: [None] for text, the pixel size of an image. *)
Definition part_size (part : json) : outcome (option (Z * Z)) :=
  fields ← json_object (Some part);
  match jget "type" fields with
  | Some (JStr kind) =>
      if String.eqb kind "text" then mret None
      else if negb (String.eqb kind "image_url") then refuse contract_violation
      else
        image ← json_object (jget "image_url" fields);
        match jget "url" image with
        | Some (JStr url) =>
            if String.eqb url "" then refuse contract_violation
            else if starts_with "http://" url || starts_with "https://" url || negb (starts_with "data:" url)
            then refuse contract_violation
            else
              decoded ← decode_image_data_url url;
              size ← image_dimensions decoded.1 decoded.2;
              mret (Some size)
        | _ => refuse contract_violation
        end
  | _ => refuse contract_violation
  end.

Fixpoint parts_sizes (parts : list json) : outcome (list (Z * Z)) :=
  match parts with
  | [] => mret []
  | part :: parts =>
      size ← part_size part; rest ← parts_sizes parts;
      mret (match size with Some s => s :: rest | None => rest end)
  end.

Fixpoint messages_sizes (messages : list json) : outcome (list (Z * Z)) :=
  match messages with
  | [] => mret []
  | message :: messages =>
      item ← json_object (Some message);
      parts ← message_parts (jget "content" item);
      sizes ← parts_sizes parts; rest ← messages_sizes messages;
      mret (sizes ++ rest)
  end.

Definition collect_image_sizes (messages : option json) : outcome (list (Z * Z)) :=
  match messages with
  | Some (JList (m :: ms)) => messages_sizes (m :: ms)
  | _ => refuse contract_violation
  end.

Definition check_images (sizes : list (Z * Z)) (capabilities : list string) (operation : string) (envelope : Envelope)
    : outcome unit :=
  _ ← demand (bool_decide (sizes = []) || bool_decide ("vision" ∈ capabilities)) "capability_mismatch";
  _ ← demand (negb (String.eqb operation "vision" && bool_decide (sizes = []))) contract_violation;
  _ ← demand (Z.of_nat (length sizes) <=? max_images envelope) exceeded;
  check_each sizes (fun wh => demand (Z.max wh.1 wh.2 <=? max_image_edge_pixels envelope) exceeded).

Definition effective_max_tokens (parameters : list (string * json)) (envelope : Envelope) : outcome Z :=
  match jget "max_tokens" parameters with
  | None => (* the default goes through the same test *)
      let requested := Z.min 4096 (max_output_tokens envelope) in
      if requested <? 1 then refuse contract_violation else mret (Z.min requested (max_output_tokens envelope))
  | Some (JInt requested) =>
      if requested <? 1 then refuse contract_violation else mret (Z.min requested (max_output_tokens envelope))
  | Some _ => refuse contract_violation
  end.

Definition check_chat_budget (input_tokens max_tokens : Z) (envelope : Envelope) : outcome unit :=
  _ ← demand (input_tokens <=? max_input_tokens envelope) exceeded;
  _ ← demand (max_tokens <=? max_output_tokens envelope) exceeded;
  demand (input_tokens + max_tokens <=? ctx_size envelope) exceeded.

Record BudgetFacts := { image_count : Z; input_tokens : option Z; max_tokens : Z }.

(** [token_counter(messages, n)], when the caller injects one, is an argument. *)
Definition check_chat_input (payload : list (string * json)) (capabilities : list string) (envelope : Envelope)
    (token_counter : option (list json → Z → outcome Z)) (operation : option string) : outcome BudgetFacts :=
  match jget "messages" payload with
  | Some (JList ((_ :: _) as messages)) =>
      sizes ← collect_image_sizes (Some (JList messages));
      let chosen := match operation with Some o => o | None => if bool_decide (sizes = []) then "chat" else "vision" end in
      _ ← check_images sizes capabilities chosen envelope;
      mt ← effective_max_tokens payload envelope;
      counted ← match token_counter with
                | None => mret None
                | Some counter =>
                    n ← counter messages (Z.of_nat (length sizes));
                    _ ← check_chat_budget n mt envelope;
                    mret (Some n)
                end;
      mret {| image_count := Z.of_nat (length sizes); input_tokens := counted; max_tokens := mt |}
  | _ => refuse contract_violation
  end.

(** ** Batches *)
Definition DEFAULT_MAX_BATCH : Z := 256.
Definition DEFAULT_MAX_DOCUMENTS : Z := 256.
Definition batch_limit (default_ : Z) (maximum : option Z) : Z :=
  match maximum with None => default_ | Some m => Z.max 1 m end.

(** The texts of a list in which every item is a non-empty string. *)
Fixpoint text_items (l : list json) : option (list string) :=
  match l with
  | [] => Some []
  | JStr s :: l => if String.eqb s "" then None else rest ← text_items l; Some (s :: rest)
  | _ => None
  end.

Definition checked_batch (raw : option json) (limit : Z) : outcome (list string) :=
  match raw with
  | Some (JList ((_ :: _) as l)) =>
      items ← of_option (EnvelopeError contract_violation) (text_items l);
      _ ← demand (negb (existsb blank items)) contract_violation;
      _ ← demand (Z.of_nat (length items) <=? limit) exceeded;
      mret items
  | _ => refuse contract_violation
  end.

Definition check_embeddings_input (payload : list (string * json)) (maximum : option Z) : outcome (list string) :=
  let raw := jget "input" payload in
  let inputs := match raw with Some (JStr s) => Some (JList [JStr s]) | _ => raw end in
  checked_batch inputs (batch_limit DEFAULT_MAX_BATCH maximum).

Definition check_rerank_input (payload : list (string * json)) (maximum : option Z) : outcome (string * list string) :=
  match jget "query" payload with
  | Some (JStr query) =>
      _ ← demand (negb (blank query)) contract_violation;
      documents ← checked_batch (jget "documents" payload) (batch_limit DEFAULT_MAX_DOCUMENTS maximum);
      mret (query, documents)
  | _ => refuse contract_violation
  end.

(** ** An accepted request fits its envelope

    The header scans end within their fuel, and what [check_chat_input] accepts
    is within every bound of the registered envelope. *)
Lemma demand_ret ok code u : demand ok code = Ret u ↔ ok = true.
Proof. destruct u, ok; unfold demand, raise_if; simpl; naive_solver. Qed.

Ltac inv_check :=
  repeat (inv_parse; match goal with H : demand _ _ = Ret _ |- _ => apply demand_ret in H end); bool_prop.

(** *** The JPEG scan *)
Lemma jpeg_scan_out fuel data index : (length data < index + 9)%nat → jpeg_scan fuel data index = refuse exceeded.
Proof. intros H. destruct fuel; [done|]. simpl. by rewrite (proj2 (Nat.leb_gt _ _)). Qed.

(** One more turn of fuel changes nothing once the fuel covers the data left. *)
Lemma jpeg_scan_stable fuel data index :
  (length data ≤ fuel + index)%nat → jpeg_scan (S fuel) data index = jpeg_scan fuel data index.
Proof.
  revert index. induction fuel as [|fuel IH]; intros index Hf.
  - by rewrite !jpeg_scan_out by lia.
  - remember (S fuel) as n eqn:En. rewrite En at 2. cbn [jpeg_scan]. subst n.
    destruct (index + 9 <=? length data)%nat; [|done].
    assert (∀ d, jpeg_scan (S fuel) data (index + S d) = jpeg_scan fuel data (index + S d)) as IH'
      by (intros d; apply IH; lia).
    cbn [negb]. destruct (byte_at data index =? 255); [|by rewrite <-(IH' 0%nat)].
    cbn [negb]. repeat (case_match; [done|]).
    all: rewrite <-?Nat.add_assoc; try (by rewrite <-(IH' 1%nat)).
    all: cbn [Nat.add]; by rewrite IH'.
Qed.

Lemma jpeg_scan_enough fuel data index :
  (length data ≤ fuel + index)%nat → ∀ extra, jpeg_scan (extra + fuel) data index = jpeg_scan fuel data index.
Proof.
  intros Hf extra. induction extra as [|n IH]; [done|]. rewrite <-IH. apply jpeg_scan_stable. lia.
Qed.

Lemma jpeg_scan_positive fuel data index wh : jpeg_scan fuel data index = Ret wh → 1 ≤ wh.1 ∧ 1 ≤ wh.2.
Proof.
  revert index. induction fuel as [|fuel IH]; intros index; [done|]. cbn [jpeg_scan].
  repeat (case_match; try done; try apply IH). intros [= <-]. bool_prop. done.
Qed.

Lemma png_size_positive data wh : png_size data = Ret wh → 1 ≤ wh.1 ∧ 1 ≤ wh.2.
Proof. unfold png_size. intros H. inv_check. simpl. tauto. Qed.

Lemma image_dimensions_positive media raw wh : image_dimensions media raw = Ret wh → 1 ≤ wh.1 ∧ 1 ≤ wh.2.
Proof.
  unfold image_dimensions, jpeg_size. case_match; [apply png_size_positive|].
  intros Hj. inv_check. by eapply jpeg_scan_positive.
Qed.

Lemma part_size_positive part wh : part_size part = Ret (Some wh) → 1 ≤ wh.1 ∧ 1 ≤ wh.2.
Proof.
  unfold part_size. intros Hp. inv_parse.
  repeat (case_match; try discriminate; inv_parse). simplify_eq. by eapply image_dimensions_positive.
Qed.

Definition real_sizes : list (Z * Z) → Prop := Forall (fun wh => 1 ≤ wh.1 ∧ 1 ≤ wh.2).

Lemma parts_sizes_positive parts sizes : parts_sizes parts = Ret sizes → real_sizes sizes.
Proof.
  revert sizes. induction parts as [|p parts IH]; simpl; intros sizes Hs; inv_parse; [constructor|].
  match goal with H : part_size p = Ret ?o |- _ => destruct o; [|by apply IH] end.
  constructor; [by eapply part_size_positive|by apply IH].
Qed.

Lemma messages_sizes_positive messages sizes : messages_sizes messages = Ret sizes → real_sizes sizes.
Proof.
  revert sizes. induction messages as [|m ms IH]; simpl; intros sizes H; inv_parse; [constructor|].
  apply Forall_app. split; [by eapply parts_sizes_positive|by apply IH].
Qed.

Lemma check_images_ret sizes caps op e u :
  check_images sizes caps op e = Ret u →
  Z.of_nat (length sizes) ≤ max_images e ∧ (sizes ≠ [] → "vision" ∈ caps) ∧ (op = "vision" → sizes ≠ []) ∧
  Forall (fun wh => wh.1 ≤ max_image_edge_pixels e ∧ wh.2 ≤ max_image_edge_pixels e) sizes.
Proof.
  unfold check_images. intros H. inv_check.
  match goal with H : check_each _ _ = _ |- _ => rewrite check_each_ret_all in H; rename H into Hc end.
  split_and!; [done| | |].
  - intros Hne. match goal with H : _ ∨ _ |- _ => destruct H; bool_prop; done end.
  - intros -> ->. repeat match goal with H : _ ∨ _ |- _ => destruct H end; bool_prop; done.
  - apply Forall_forall. intros wh Hin. specialize (Hc wh Hin). apply demand_ret in Hc. bool_prop. lia.
Qed.

Lemma effective_max_tokens_ret ps e n : effective_max_tokens ps e = Ret n → n ≤ max_output_tokens e ∧ (1 ≤ max_output_tokens e → 1 ≤ n).
Proof. unfold effective_max_tokens, refuse. intros H. repeat case_match; simplify_eq; inv_parse; lia. Qed.

Lemma check_chat_budget_ret i o e u :
  check_chat_budget i o e = Ret u ↔ i ≤ max_input_tokens e ∧ o ≤ max_output_tokens e ∧ i + o ≤ ctx_size e.
Proof.
  destruct u. unfold check_chat_budget. split.
  - intros H. inv_check. done.
  - intros (? & ? & ?). repeat (apply obind_ret; exists tt; split); apply demand_ret; by apply Z.leb_le.
Qed.

(** What the checks accept is within the registered envelope.  An accepted
    chat or vision body has at most [max_images] images, each decoded from its
    own bytes with both edges between 1 and [max_image_edge_pixels], and images
    only on a model with the vision capability; its output budget is at least 1
    and at most [max_output_tokens]; and whenever the caller can count tokens, the
    counted input is at most [max_input_tokens] and input plus output fit
    [ctx_size].  The scan for the JPEG size ends: the length of the data is enough
    fuel for any data. *)
Theorem accepted_chat_fits_envelope payload caps e counter op facts :
  envelope_ok e → check_chat_input payload caps e counter op = Ret facts →
  (∃ sizes, collect_image_sizes (jget "messages" payload) = Ret sizes ∧
     image_count facts = Z.of_nat (length sizes) ∧ image_count facts ≤ max_images e ∧
     Forall (fun wh => 1 ≤ wh.1 ≤ max_image_edge_pixels e ∧ 1 ≤ wh.2 ≤ max_image_edge_pixels e) sizes ∧
     (sizes ≠ [] → "vision" ∈ caps)) ∧
  1 ≤ max_tokens facts ≤ max_output_tokens e ∧
  match counter with
  | None => input_tokens facts = None
  | Some _ => ∃ n, input_tokens facts = Some n ∧ n ≤ max_input_tokens e ∧ n + max_tokens facts ≤ ctx_size e
  end ∧
  (∀ data extra, jpeg_scan (extra + length data) data 2 = jpeg_scan (length data) data 2).
Proof.
  intros He Hc. assert (1 ≤ max_output_tokens e) as Ho by (unfold envelope_ok in He; tauto).
  unfold check_chat_input in Hc. destruct (jget "messages" payload) as [[]|]; try discriminate.
  destruct l as [|m ms]; [discriminate|]. inv_parse.
  match goal with H : collect_image_sizes _ = Ret ?x |- _ => rename H into Hs; rename x into sizes end.
  match goal with H : check_images _ _ _ _ = _ |- _ => apply check_images_ret in H as (Hn & Hv & _ & Hmax) end.
  match goal with H : effective_max_tokens _ _ = _ |- _ => apply effective_max_tokens_ret in H as [Hmt1 Hmt2] end.
  assert (real_sizes sizes) as Hpos by (by apply messages_sizes_positive in Hs).
  split_and!.
  - exists sizes. split_and!; [done..| |done]. apply Forall_forall. intros wh Hin.
    unfold real_sizes in Hpos. rewrite Forall_forall in Hpos, Hmax. specialize (Hpos wh Hin). specialize (Hmax wh Hin). lia.
  - simpl. auto.
  - done.
  - destruct counter; inv_parse; [|done]. eexists. split; [reflexivity|].
    match goal with H : check_chat_budget _ _ _ = _ |- _ => apply check_chat_budget_ret in H end. simpl. lia.
  - intros data extra. apply jpeg_scan_enough. lia.
Qed.

(** *** Fill bytes

    A JPEG marker may be preceded by any number of 0xFF fill bytes (ITU-T T.81,
    B.1.1.2).  The reference scan skips them; everything else is as above. *)
Fixpoint t81_scan (fuel : nat) (data : bytes) (index : nat) : outcome (Z * Z) :=
  match fuel with
  | O => refuse exceeded
  | S fuel =>
      if negb (index + 9 <=? length data)%nat then refuse exceeded
      else if negb (byte_at data index =? 255) || (byte_at data (index + 1) =? 255) then t81_scan fuel data (index + 1)
      else
        let marker := byte_at data (index + 1) in
        if (marker =? 192) || (marker =? 193) || (marker =? 194)
        then mret (from_bytes_big (slice data (index + 7) (index + 9)), from_bytes_big (slice data (index + 5) (index + 7)))
        else if (marker =? 216) || (marker =? 217) || (marker <? 192) then t81_scan fuel data (index + 2)
        else t81_scan fuel data (index + 2 + Z.to_nat (from_bytes_big (slice data (index + 2) (index + 4))))
  end.

(** A frame header of 65500 x 65500 after one fill byte, and an 8 x 8 header where
    the scan lands when it takes the fill byte for a marker. *)
Definition smuggled : bytes :=
  [255; 216; 255; 255; 192; 0; 17; 8; 255; 220; 255; 220] ++ replicate 49144 0
  ++ [255; 192; 0; 17; 8; 0; 8; 0; 8].

(** The size check reads 8 x 8 from a file whose frame header says 65500 x 65500. *)
Theorem fill_byte_hides_size :
  jpeg_size smuggled = Ret (8, 8) ∧ t81_scan (length smuggled) smuggled 2 = Ret (65500, 65500).
Proof. split; vm_compute; reflexivity. Qed.

(** *** A request *)
Definition demo_png_url : string := "data:image/png;base64,iVBORw0KGgoAAAANSUhEUgAAAAgAAAAE".
Definition demo_payload : list (string * json) :=
  [("messages", JList [JObj [("role", JStr "user");
     ("content", JList [JObj [("type", JStr "text"); ("text", JStr "what is this?")];
                        JObj [("type", JStr "image_url"); ("image_url", JObj [("url", JStr demo_png_url)])]])]]);
   ("max_tokens", JInt 5000)].
Definition demo_counter : option (list json → Z → outcome Z) := Some (fun ms n => Ret (12 + 1024 * n)).
Definition demo_facts : BudgetFacts := {| image_count := 1; input_tokens := Some 1036; max_tokens := 1000 |}.

Example demo_image : collect_image_sizes (jget "messages" demo_payload) = Ret [(8, 4)].
Proof. vm_compute. reflexivity. Qed.

Lemma accepted_chat_fits_envelope_witness :
  image_count demo_facts ≤ max_images (v2_envelope demo_vision) ∧
  1 ≤ max_tokens demo_facts ≤ max_output_tokens (v2_envelope demo_vision).
Proof.
  destruct (accepted_chat_fits_envelope demo_payload ["chat"; "vision"] (v2_envelope demo_vision) demo_counter None demo_facts)
    as ((sizes & _ & _ & Hn & _) & Ht & _).
  - unfold envelope_ok. simpl. lia.
  - vm_compute. reflexivity.
  - split; assumption.
Defined.
