(* ===== verification/Protocol.v ===== *)
(** * The control protocol's execution documents

    From [model_scheduler/control_protocol_v1.py]: the error table, fences and
    the write-back rule, and the parsers an execution view goes through; from
    [model_scheduler/ports_v3.py]: the terminal evidence.  Whether a text is an
    ISO-8601 instant with a zero UTC offset ([datetime.fromisoformat]) is a
    parameter. *)

From S2P Require Import Prelude Text Dict Contracts Registration.
From Stdlib Require Import Ascii.
Local Open Scope Z_scope.

(** ** Data *)
Record ErrorDetail := { err_code : string; err_message : string; err_retryable : bool }.

Record Fence := {
  f_boot_id : string;
  f_model_id : string;
  f_generation : Z;
  f_operation_id : string;
  f_execution_id : option string;
  f_attempt : option Z;
}.

Record InstanceIdentity := {
  container_id : string;
  started_at : string;
  deployment_id : string;
  inst_model_id : string;
  inst_runtime_id : string;
  candidate_digest : string;
  inst_image_digest : string;
}.

Record BlobRef := {
  blob_id : string;
  blob_owner : string;
  blob_sha256 : string;
  blob_size_bytes : Z;
  blob_media_type : string;
}.

#[export] Instance ErrorDetail_eq_dec : EqDecision ErrorDetail.
Proof. solve_decision. Defined.
#[export] Instance Fence_eq_dec : EqDecision Fence.
Proof. solve_decision. Defined.
#[export] Instance InstanceIdentity_eq_dec : EqDecision InstanceIdentity.
Proof. solve_decision. Defined.
#[export] Instance BlobRef_eq_dec : EqDecision BlobRef.
Proof. solve_decision. Defined.

Inductive ExecState := QUEUED | RUNNING | SUCCEEDED | FAILED | CANCELLING | CANCELLED.
Inductive DispatchState := not_started | dispatched.
#[export] Instance ExecState_eq_dec : EqDecision ExecState.
Proof. solve_decision. Defined.
#[export] Instance DispatchState_eq_dec : EqDecision DispatchState.
Proof. solve_decision. Defined.

Definition state_name (s : ExecState) : string :=
  match s with
  | QUEUED => "queued" | RUNNING => "running" | SUCCEEDED => "succeeded"
  | FAILED => "failed" | CANCELLING => "cancelling" | CANCELLED => "cancelled"
  end.
Definition dispatch_name (d : DispatchState) : string :=
  match d with not_started => "not_started" | dispatched => "dispatched" end.

(** [EXECUTION_TERMINAL_STATES] *)
Definition is_terminal (s : ExecState) : bool :=
  match s with SUCCEEDED | FAILED | CANCELLED => true | _ => false end.

(** ** The error table: code, HTTP status, retryable *)
Definition ERROR_TABLE : list (string * (Z * bool)) :=
  [("malformed_json", (400, false)); ("unsupported_protocol", (400, false)); ("peer_forbidden", (403, false));
   ("not_found", (404, false)); ("stale_token", (409, false)); ("session_expired", (409, false));
   ("idempotency_conflict", (409, false)); ("busy", (409, true)); ("blob_in_use", (409, true));
   ("reference_expired", (410, false)); ("payload_too_large", (413, false));
   ("unsupported_media_type", (415, false)); ("contract_violation", (422, false));
   ("envelope_exceeded", (422, false)); ("capability_mismatch", (422, false)); ("queue_full", (429, true));
   ("quota_exceeded", (429, true)); ("backend_failed", (502, false)); ("instance_unknown", (503, true));
   ("storage_unavailable", (503, true)); ("resource_unavailable", (503, true));
   ("temporarily_unavailable", (503, true)); ("queue_timeout", (504, true)); ("execution_timeout", (504, false))].

Definition ERROR_STATUS (code : string) : option Z := fst <$> assoc code ERROR_TABLE.
Definition known_code (code : string) : bool := bool_decide (is_Some (ERROR_STATUS code)).
Definition retryable_code (code : string) : bool := match assoc code ERROR_TABLE with Some (_, r) => r | None => false end.

(** ** The write-back rule *)
Definition fence_checks (current incoming : Fence) : list (string * bool) :=
  [("stale_boot", negb (String.eqb (f_boot_id incoming) (f_boot_id current)));
   ("foreign_model", negb (String.eqb (f_model_id incoming) (f_model_id current)));
   ("stale_generation", negb (f_generation incoming =? f_generation current));
   ("stale_operation", negb (String.eqb (f_operation_id incoming) (f_operation_id current)));
   ("foreign_execution", bool_decide (is_Some (f_execution_id current))
                         && negb (bool_decide (f_execution_id incoming = f_execution_id current)));
   ("attempt_mismatch", negb (Bool.eqb (bool_decide (f_attempt current = None)) (bool_decide (f_attempt incoming = None))))].

(** The reason a write-back is refused, or [None] when it is accepted. *)
Definition writeback_decision (current incoming : Fence) : option string :=
  match List.find (fun c => snd c) (fence_checks current incoming) with
  | Some (reason, _) => Some reason
  | None =>
      match f_attempt current, f_attempt incoming with
      | Some a, Some b => if b <? a then Some "stale_attempt" else None
      | _, _ => None
      end
  end.

(** ** Terminal evidence *)
Record TerminationEvidence := {
  ev_fence : Fence;
  ev_dispatch_state : DispatchState;
  ev_device_synchronized : bool;
  ev_reason : option string;
  ev_instance : option InstanceIdentity;
}.

(** [TerminationEvidence(...)] with [compute_quiescent=True] *)
Definition make_evidence (e : TerminationEvidence) : outcome TerminationEvidence :=
  match ev_dispatch_state e with
  | dispatched =>
      _ ← require (bool_decide (is_Some (f_execution_id (ev_fence e))) && bool_decide (is_Some (f_attempt (ev_fence e))))
            "a dispatched execution requires an execution fence";
      _ ← require (bool_decide (is_Some (ev_instance e))) "a dispatched execution requires the full instance identity";
      _ ← require (truthy (ev_reason e)) "must be a non-empty string";
      mret e
  | not_started =>
      _ ← require (bool_decide (ev_instance e = None)) "a not_started termination must not carry a container identity";
      _ ← require (bool_decide (ev_reason e = None) || truthy (ev_reason e)) "must be a non-empty string";
      mret e
  end.

(** ** Strict fields *)
Definition required (data : list (string * json)) (key : string) : outcome json :=
  of_option (ContractError "is required") (jget key data).

Definition text_value (v : json) : outcome string :=
  match v with
  | JStr s => if String.eqb s "" then err "must be a non-empty string"
              else if existsb (fun c => code c =? 0) (chars s) then err "must not contain NUL"
              else if negb (encodable s) then err "must be valid UTF-8" else Ret s
  | _ => err "must be a non-empty string"
  end.
Definition text_field (data : list (string * json)) (key : string) : outcome string :=
  v ← required data key; text_value v.
Definition id_field (data : list (string * json)) (key : string) : outcome string :=
  s ← text_field data key; _ ← require (ID_RE s) "must be a lowercase opaque id"; mret s.
Definition int_field (data : list (string * json)) (key : string) (minimum maximum : option Z) : outcome Z :=
  v ← required data key;
  match v with
  | JInt n =>
      if match minimum with Some m => n <? m | None => false end then err "must be >="
      else if match maximum with Some m => m <? n | None => false end then err "must be <="
      else Ret n
  | _ => err "must be an integer"
  end.
Definition sha256_field (data : list (string * json)) (key : string) : outcome string :=
  v ← required data key; sha256_value (Some v).

(** [[a-z0-9][a-z0-9.+-]*/[a-z0-9][a-z0-9.+-]*] *)
Definition media_char (c : ascii) : bool := is_alnum c || (code c =? 46) || (code c =? 43) || (code c =? 45).
Definition media_word (l : list ascii) : bool :=
  match l with c :: l => is_alnum c && forallb media_char l | [] => false end.
Definition MEDIA_TYPE_RE (s : string) : bool :=
  match path_parts s with [a; b] => media_word (chars a) && media_word (chars b) | _ => false end.

Definition MAX_BLOB_BYTES : Z := 1024 ^ 3.
Definition ERROR_DETAIL_KEYS : list string := ["code"; "message"; "retryable"].
Definition BLOB_REF_KEYS : list string := ["blob_id"; "owner"; "sha256"; "size_bytes"; "media_type"].
Definition EXECUTION_VIEW_KEYS : list string :=
  ["execution_id"; "state"; "dispatch_state"; "compute_quiescent"; "result"; "error"; "instance"; "fence"].
Definition FENCE_KEYS : list string := ["boot_id"; "model_id"; "generation"; "operation_id"; "execution_id"; "attempt"].
Definition INSTANCE_KEYS : list string :=
  ["container_id"; "started_at"; "deployment_id"; "model_id"; "runtime_id"; "candidate_digest"; "image_digest"].

(** ** Parsers *)
Definition parse_error_detail (v : json) : outcome ErrorDetail :=
  data ← as_mapping (Some v);
  _ ← exact_keys data ERROR_DETAIL_KEYS;
  c ← text_field data "code";
  _ ← require (known_code c) "unknown error code";
  message ← text_field data "message";
  raw ← required data "retryable";
  match raw with
  | JBool r => _ ← require (Bool.eqb r (retryable_code c)) "retryable does not match the error table";
               mret {| err_code := c; err_message := message; err_retryable := r |}
  | _ => err "retryable must be a boolean"
  end.

Definition parse_blob_ref (v : json) : outcome BlobRef :=
  data ← as_mapping (Some v);
  _ ← exact_keys data BLOB_REF_KEYS;
  bid ← id_field data "blob_id";
  owner ← text_field data "owner";
  sha ← sha256_field data "sha256";
  size ← int_field data "size_bytes" (Some 1) (Some MAX_BLOB_BYTES);
  media ← text_field data "media_type";
  _ ← require (MEDIA_TYPE_RE media) "media_type must be a lowercase type/subtype without parameters";
  mret {| blob_id := bid; blob_owner := owner; blob_sha256 := sha; blob_size_bytes := size; blob_media_type := media |}.

Definition is_null (v : json) : bool := match v with JNull => true | _ => false end.

Definition parse_fence (v : json) : outcome Fence :=
  data ← as_mapping (Some v);
  _ ← exact_keys data FENCE_KEYS;
  boot ← text_field data "boot_id";
  mid ← id_field data "model_id";
  gen ← int_field data "generation" (Some 1) None;
  op ← id_field data "operation_id";
  raw_id ← required data "execution_id";
  raw_attempt ← required data "attempt";
  _ ← require (Bool.eqb (is_null raw_id) (is_null raw_attempt)) "execution_id and attempt must be null together";
  bound ← match raw_id with
          | JNull => mret (None, None)
          | JStr s =>
              _ ← require (ID_RE s) "execution_id must be a lowercase opaque id";
              match raw_attempt with
              | JInt a => _ ← require (1 <=? a) "an execution fence requires attempt >= 1"; mret (Some s, Some a)
              | _ => err "an execution fence requires attempt >= 1"
              end
          | _ => err "execution_id must be a lowercase opaque id"
          end;
  mret {| f_boot_id := boot; f_model_id := mid; f_generation := gen; f_operation_id := op;
          f_execution_id := bound.1; f_attempt := bound.2 |}.

Record ExecutionView := {
  view_execution_id : string;
  view_state : ExecState;
  view_dispatch_state : DispatchState;
  view_compute_quiescent : option bool;
  view_result : option BlobRef;
  view_error : option ErrorDetail;
  view_instance : option InstanceIdentity;
  view_fence : Fence;
}.

(** [_enum_field] over the names of an enumeration *)
Definition enum_field {A} (all : list A) (name : A → string) (data : list (string * json)) (key : string) : outcome A :=
  s ← text_field data key;
  of_option (ContractError "must be one of") (List.find (fun a => String.eqb (name a) s) all).
Definition ALL_STATES : list ExecState := [QUEUED; RUNNING; SUCCEEDED; FAILED; CANCELLING; CANCELLED].
Definition ALL_DISPATCH : list DispatchState := [not_started; dispatched].

(** [None if raw is None else parse(raw)] *)
Definition nullable {A} (parse : json → outcome A) (v : json) : outcome (option A) :=
  match v with JNull => mret None | _ => a ← parse v; mret (Some a) end.

Section View.
Context (utc_timestamp : string → bool).

Definition parse_instance_identity (v : json) : outcome InstanceIdentity :=
  data ← as_mapping (Some v);
  _ ← exact_keys data INSTANCE_KEYS;
  cid ← text_field data "container_id";
  started ← text_field data "started_at";
  _ ← require (utc_timestamp started) "started_at must be an ISO-8601 timestamp with a UTC offset";
  did ← id_field data "deployment_id";
  mid ← id_field data "model_id";
  rid ← id_field data "runtime_id";
  cand ← sha256_field data "candidate_digest";
  img ← text_field data "image_digest";
  _ ← require (IMAGE_DIGEST_RE img) "image_digest must be name@sha256:<64-hex>";
  mret {| container_id := cid; started_at := started; deployment_id := did; inst_model_id := mid;
          inst_runtime_id := rid; candidate_digest := cand; inst_image_digest := img |}.

Definition parse_execution_view (v : json) : outcome ExecutionView :=
  data ← as_mapping (Some v);
  _ ← exact_keys data EXECUTION_VIEW_KEYS;
  eid ← id_field data "execution_id";
  state ← enum_field ALL_STATES state_name data "state";
  disp ← enum_field ALL_DISPATCH dispatch_name data "dispatch_state";
  raw_fence ← required data "fence";
  fence ← parse_fence raw_fence;
  _ ← require (bool_decide (f_execution_id fence = Some eid) && bool_decide (is_Some (f_attempt fence)))
        "fence must identify this execution with attempt >= 1";
  raw_instance ← required data "instance";
  instance ← nullable parse_instance_identity raw_instance;
  _ ← require (match disp with dispatched => bool_decide (is_Some instance) | not_started => bool_decide (instance = None) end)
        "a dispatched execution requires a full instance identity, a not_started one none";
  raw_result ← required data "result";
  result ← nullable parse_blob_ref raw_result;
  raw_error ← required data "error";
  error ← nullable parse_error_detail raw_error;
  quiescent ← required data "compute_quiescent";
  if is_terminal state then
    _ ← require (match quiescent with JBool true => true | _ => false end)
          "a terminal execution must report compute_quiescent=true";
    _ ← (if bool_decide (state = SUCCEEDED)
         then require (bool_decide (is_Some result) && bool_decide (error = None))
                "a succeeded execution requires a result and no error"
         else require (bool_decide (is_Some error) && bool_decide (result = None))
                "a failed or cancelled execution requires an error and no result");
    mret {| view_execution_id := eid; view_state := state; view_dispatch_state := disp;
            view_compute_quiescent := Some true; view_result := result; view_error := error;
            view_instance := instance; view_fence := fence |}
  else
    _ ← require (is_null quiescent) "a non-terminal execution must report compute_quiescent=null";
    _ ← require (bool_decide (result = None)) "a non-terminal execution must not carry a result";
    _ ← require (bool_decide (error = None)) "a non-terminal execution must not carry an error";
    mret {| view_execution_id := eid; view_state := state; view_dispatch_state := disp;
            view_compute_quiescent := None; view_result := None; view_error := None;
            view_instance := instance; view_fence := fence |}.
End View.

(** ** Documents *)
Definition jopt {A} (f : A → json) (o : option A) : json := match o with Some a => f a | None => JNull end.

Definition fence_document (f : Fence) : json :=
  JObj [("boot_id", JStr (f_boot_id f)); ("model_id", JStr (f_model_id f)); ("generation", JInt (f_generation f));
        ("operation_id", JStr (f_operation_id f)); ("execution_id", jopt JStr (f_execution_id f));
        ("attempt", jopt JInt (f_attempt f))].
Definition blob_document (b : BlobRef) : json :=
  JObj [("blob_id", JStr (blob_id b)); ("owner", JStr (blob_owner b)); ("sha256", JStr (blob_sha256 b));
        ("size_bytes", JInt (blob_size_bytes b)); ("media_type", JStr (blob_media_type b))].
Definition error_body (e : ErrorDetail) : json :=
  JObj [("code", JStr (err_code e)); ("message", JStr (err_message e)); ("retryable", JBool (err_retryable e))].
Definition instance_document (i : InstanceIdentity) : json :=
  JObj [("container_id", JStr (container_id i)); ("started_at", JStr (started_at i));
        ("deployment_id", JStr (deployment_id i)); ("model_id", JStr (inst_model_id i));
        ("runtime_id", JStr (inst_runtime_id i)); ("candidate_digest", JStr (candidate_digest i));
        ("image_digest", JStr (inst_image_digest i))].
