(* ===== verification/Ports.v ===== *)
(** * Ports and observations

    The values of [model_scheduler/ports_v3.py] that the observers, the
    adapters and the execution service exchange, with the checks their
    constructors make ([__post_init__]).  What a Python annotation types is a
    type here; the clock readings are finite by their type. *)

From S2P Require Import Prelude Text Dict Contracts Registration Protocol.
From Stdlib Require Import Ascii.
From Stdlib Require Import QArith.
Local Open Scope Z_scope.

(** ** States *)
Inductive ObservationState := obs_running | obs_stopped | obs_unknown.
Inductive PortState := port_listening | port_closed | port_unknown.
Inductive SubprocessState := sub_running | sub_exited | sub_absent | sub_unknown.
Inductive LaunchState := launch_starting | launch_completed | launch_failed.
#[export] Instance ObservationState_eq_dec : EqDecision ObservationState.
Proof. solve_decision. Defined.
#[export] Instance PortState_eq_dec : EqDecision PortState.
Proof. solve_decision. Defined.
#[export] Instance SubprocessState_eq_dec : EqDecision SubprocessState.
Proof. solve_decision. Defined.
#[export] Instance LaunchState_eq_dec : EqDecision LaunchState.
Proof. solve_decision. Defined.

Definition SAMPLE_MAX_AGE : time := 2 * second.

(** ** Checks *)
Definition check_identifier (s : string) : outcome unit := require (negb (String.eqb s "")) "must be a non-empty string".
Definition check_optional_positive_int (o : option Z) : outcome unit :=
  require (match o with Some n => 1 <=? n | None => true end) "must be a positive integer or null".

(** ** Launch operations *)
Record LaunchOperation := {
  launch_operation_id : string;
  launch_fence : Fence;
  launch_started_at : time;
  launch_state : LaunchState;
  launch_pid : option Z;
  launch_process_group_id : option Z;
  launch_terminal_at : option time;
}.
#[export] Instance LaunchOperation_eq_dec : EqDecision LaunchOperation.
Proof. solve_decision. Defined.

Definition make_launch_operation (l : LaunchOperation) : outcome LaunchOperation :=
  _ ← check_identifier (launch_operation_id l);
  _ ← check_optional_positive_int (launch_pid l);
  _ ← check_optional_positive_int (launch_process_group_id l);
  _ ← require (negb (bool_decide (launch_state l = launch_starting) && bool_decide (is_Some (launch_terminal_at l))))
        "a starting operation has no terminal timestamp";
  _ ← require (bool_decide (launch_state l = launch_starting) || bool_decide (is_Some (launch_terminal_at l)))
        "a terminal operation requires a terminal timestamp";
  mret l.
Definition launch_is_terminal (l : LaunchOperation) : bool := negb (bool_decide (launch_state l = launch_starting)).

(** ** Memory samples *)
Record MemorySample := {
  mem_total_bytes : Z;
  mem_free_bytes : Z;
  mem_available_bytes : Z;
  mem_sampled_at : time;
}.
Definition make_memory_sample (s : MemorySample) : outcome MemorySample :=
  _ ← require (0 <=? mem_total_bytes s) "must be a non-negative integer";
  _ ← require (0 <=? mem_free_bytes s) "must be a non-negative integer";
  _ ← require (0 <=? mem_available_bytes s) "must be a non-negative integer";
  mret s.
Definition sample_is_fresh (s : MemorySample) (now max_age : time) : bool :=
  let age := now - mem_sampled_at s in (0 <=? age) && (age <=? max_age).

(** ** Observations *)
Record ObservationTarget := {
  target_deployment_id : string;
  target_container_id : option string;
  target_process_group_id : option Z;
}.
Definition make_target (t : ObservationTarget) : outcome ObservationTarget :=
  _ ← check_identifier (target_deployment_id t);
  _ ← match target_container_id t with Some c => check_identifier c | None => mret tt end;
  _ ← check_optional_positive_int (target_process_group_id t);
  mret t.

Record Observation := {
  ob_state : ObservationState;
  ob_sampled_at : time;
  ob_sampled_at_utc : Z;
  ob_port_state : PortState;
  ob_subprocess_state : SubprocessState;
  ob_instance : option InstanceIdentity;
  ob_launch_operation : option LaunchOperation;
}.
#[export] Instance Observation_eq_dec : EqDecision Observation.
Proof. solve_decision. Defined.

(** [port_listening=None] is a port whose owner is not known. *)
Definition stopped_is_proven (container_absent launch_operation_terminal subprocess_exited : bool) (port_listening : option bool) : bool :=
  container_absent && launch_operation_terminal && subprocess_exited && bool_decide (port_listening = Some false).

(** ** Executions *)
Record ExecutionRequest := {
  req_execution_id : string;
  req_operation : string;
  req_parameters : list (string * json);
  req_inline_input : option (list (string * json));
  req_blob_path : option string;
  req_output_directory : option string;
}.
Definition make_execution_request (r : ExecutionRequest) : outcome ExecutionRequest :=
  _ ← check_identifier (req_execution_id r);
  _ ← check_identifier (req_operation r);
  _ ← require (negb (Bool.eqb (match req_inline_input r with None => true | Some _ => false end) (bool_decide (req_blob_path r = None))))
        "exactly one of inline_input or blob_path is required";
  _ ← match req_blob_path r with Some p => check_identifier p | None => mret tt end;
  mret r.

Record ExecutionHandle := { handle_execution_id : string; handle_instance : InstanceIdentity }.
Definition make_execution_handle (h : ExecutionHandle) : outcome ExecutionHandle :=
  _ ← check_identifier (handle_execution_id h); mret h.
Record CancelAck := { cancel_execution_id : string; cancel_accepted : bool }.
Definition make_cancel_ack (a : CancelAck) : outcome CancelAck := _ ← check_identifier (cancel_execution_id a); mret a.
Record StopAck := { stop_accepted : bool }.

(** ** Events *)
Record EventRecord := {
  event_schema_version : Z;
  event_id : string;
  event_sequence : Z;
  event_utc_time : Z;
  event_monotonic_time : time;
  event_fence : Fence;
  event_type : string;
  event_payload : list (string * json);
}.
Definition make_event (e : EventRecord) : outcome EventRecord :=
  _ ← require (event_schema_version e =? 1) "the structured event schema is version 1";
  _ ← check_identifier (event_id e);
  _ ← require (1 <=? event_sequence e) "must be a positive integer";
  _ ← check_identifier (event_type e);
  mret e.

(** ** Memory samples

    [model_scheduler/resource_monitor.py]: the figures read from [psutil],
    checked, and the two shapes the ledgers take. *)
Record ResourceSnapshot := {
  rs_total_bytes : Z;
  rs_available_bytes : Z;
  rs_used_bytes : Z;
  rs_source : string;
  rs_sampled_at : time;
}.
Definition utilization (s : ResourceSnapshot) : Q :=
  if rs_total_bytes s <=? 0 then 0%Q else (1 - inject_Z (rs_available_bytes s) / inject_Z (rs_total_bytes s))%Q.
Definition age_at (s : ResourceSnapshot) (now : time) : option time :=
  let age := now - rs_sampled_at s in if 0 <=? age then Some age else None.

Definition memory_sample_from (total free available : Z) (sampled_at : time) : outcome Ports.MemorySample :=
  _ ← raise_if (total <? 0) (ValueError "memory total must be a non-negative integer");
  _ ← raise_if (free <? 0) (ValueError "memory free must be a non-negative integer");
  _ ← raise_if (available <? 0) (ValueError "memory available must be a non-negative integer");
  _ ← raise_if ((total <=? 0) || (total <? free) || (total <? available)) (ValueError "memory sample figures are impossible");
  make_memory_sample {| mem_total_bytes := total; mem_free_bytes := free; mem_available_bytes := available; mem_sampled_at := sampled_at |}.

Definition figure (s : Ports.MemorySample) : Z := mem_total_bytes s - mem_free_bytes s.
Definition system_nonfree_upper_bound_v1 (samples : list Ports.MemorySample) : outcome Z :=
  match map figure samples with
  | [] => Raise (ValueError "the physical upper bound needs at least one sample")
  | x :: l => Ret (fold_left Z.max l x)
  end.

Definition admission_sample (s : Ports.MemorySample) : Contracts.MemorySample :=
  {| total_bytes := mem_total_bytes s; available_bytes := mem_available_bytes s; sampled_at := mem_sampled_at s |}.

(** [psutil.virtual_memory()] *)
Record VirtualMemory := { vm_total : Z; vm_free : Z; vm_available : Z }.
Definition snapshot_now (m : VirtualMemory) (now : time) : ResourceSnapshot :=
  {| rs_total_bytes := vm_total m; rs_available_bytes := vm_available m; rs_used_bytes := vm_total m - vm_available m;
     rs_source := "psutil"; rs_sampled_at := now |}.
Definition memory_sample (m : VirtualMemory) (now : time) : outcome Ports.MemorySample :=
  memory_sample_from (vm_total m) (vm_free m) (vm_available m) now.

(** A checked sample has possible figures, and no other passes. *)
Lemma memory_sample_from_ret total free available t s : memory_sample_from total free available t = Ret s ↔
  0 < total ∧ 0 ≤ free ≤ total ∧ 0 ≤ available ≤ total ∧
  s = {| mem_total_bytes := total; mem_free_bytes := free; mem_available_bytes := available; mem_sampled_at := t |}.
Proof.
  unfold memory_sample_from, make_memory_sample, raise_if. cbn [mem_total_bytes mem_free_bytes mem_available_bytes].
  destruct (total <? 0) eqn:E1; cbn [mbind outcome_bind]; bool_prop; [split; [done|lia]|].
  destruct (free <? 0) eqn:E2; cbn [mbind outcome_bind]; bool_prop; [split; [done|lia]|].
  destruct (available <? 0) eqn:E3; cbn [mbind outcome_bind]; bool_prop; [split; [done|lia]|].
  destruct (total <=? 0) eqn:E4; cbn [orb mbind outcome_bind]; bool_prop; [split; [done|lia]|].
  destruct (total <? free) eqn:E5; cbn [orb mbind outcome_bind]; bool_prop; [split; [done|lia]|].
  destruct (total <? available) eqn:E6; cbn [orb mbind outcome_bind]; bool_prop; [split; [done|lia]|].
  rewrite !(proj2 (Z.leb_le 0 _)) by lia. cbn. split; [intros [= <-]; split_and!; done || lia|]. by intros (_ & _ & _ & ->).
Qed.

Lemma fold_max l : ∀ x, (x ≤ fold_left Z.max l x) ∧ Forall (fun y => y ≤ fold_left Z.max l x) l ∧ fold_left Z.max l x ∈ x :: l.
Proof.
  induction l as [|y l IH]; intros x; cbn [fold_left]; [split_and!; [lia|constructor|by left]|].
  destruct (IH (Z.max x y)) as (H1 & H2 & H3). split_and!; [lia|constructor; [lia|done]|].
  apply elem_of_cons in H3 as [->|H3]; [|by right; right]. destruct (Z.max_spec x y) as [[_ ->]|[_ ->]]; [by right; left|by left].
Qed.
(** The physical bound is the largest figure of the window: above every sample
    and reached by one. *)
Lemma nonfree_bound_exact samples b : system_nonfree_upper_bound_v1 samples = Ret b →
  Forall (fun s => figure s ≤ b) samples ∧ ∃ s, s ∈ samples ∧ figure s = b.
Proof.
  unfold system_nonfree_upper_bound_v1. destruct samples as [|s l]; [done|]. cbn [map]. intros [= <-].
  destruct (fold_max (map figure l) (figure s)) as (H1 & H2 & H3). split.
  - constructor; [done|]. rewrite Forall_forall in H2. apply Forall_forall. intros s' Hs'. apply H2, list_elem_of_In, in_map, list_elem_of_In, Hs'.
  - apply elem_of_cons in H3 as [H3|H3]; [exists s; split; [by left|done]|]. apply list_elem_of_fmap in H3 as (s' & E & Hs). exists s'. split; [by right|done].
Qed.
