(* ===== verification/Observer.v ===== *)
(** * Process observation

    [model_scheduler/process_observer.py]: the observer of one model's
    containers and the observer of the earlier runtime.  The docker command
    line, the loopback port, the process table, the launch records and the clock
    are the ports the code is given; their answers are the [World] of one
    observation. *)

From S2P Require Import Prelude Text Dict Contracts Registration JsonText Protocol Instant Ports.
From Stdlib Require Import Ascii QArith.
Local Open Scope Z_scope.

Definition CONTAINER_LABEL_PREFIX : string := "io.self-model-switch".
Definition DEPLOYMENT_LABEL : string := CONTAINER_LABEL_PREFIX +:+ ".deployment".
Definition MODEL_LABEL : string := CONTAINER_LABEL_PREFIX +:+ ".model".
Definition RUNTIME_LABEL : string := CONTAINER_LABEL_PREFIX +:+ ".runtime".
Definition CONFIG_LABEL : string := CONTAINER_LABEL_PREFIX +:+ ".config-sha256".
Definition CANDIDATE_LABEL : string := CONTAINER_LABEL_PREFIX +:+ ".candidate-sha256".

Definition demand_observed (ok : bool) (msg : string) : outcome unit := if ok then Ret tt else unobserved msg.

(** ** The system's ports *)

(** What [os.kill(pid, 0)] does. *)
Inductive KillResult := kill_delivered | kill_no_process | kill_not_permitted | kill_os_error.
Definition os_process_state (kill : Z → KillResult) (pid : Z) : SubprocessState :=
  if pid <? 1 then sub_unknown
  else match kill pid with
       | kill_delivered => sub_running
       | kill_no_process => sub_absent
       | kill_not_permitted => sub_running
       | kill_os_error => sub_unknown
       end.

(** What [connect_ex] returns, or the [OSError] it raises. *)
Definition ECONNREFUSED : Z := 111.
Definition docker_port_state (connect : Z → option Z) (port : Z) : PortState :=
  match connect port with
  | None => port_unknown
  | Some code => if code =? 0 then port_listening else if code =? ECONNREFUSED then port_closed else port_unknown
  end.

(** [(returncode, stdout, stderr)] *)
Definition completed : Type := Z * string * string.
Definition run_docker (subprocess_run : list string → outcome completed) (args : list string) : outcome completed :=
  match subprocess_run args with
  | Raise (OSError _) | Raise (SubprocessError _) => unobserved "docker command failed"
  | r => r
  end.

(** ** Container facts *)
Record ContainerFact := {
  fact_container_id : string;
  fact_image_digest : string;
  fact_running : bool;
  fact_status : string;
  fact_exit_code : Z;
  fact_started_at : string;
  fact_labels : list (string * string);
}.
#[export] Instance ContainerFact_eq_dec : EqDecision ContainerFact.
Proof. solve_decision. Defined.

Definition fields_of (v : option json) : option (list (string * json)) :=
  match v with Some (JObj fields) => Some fields | _ => None end.
Definition nonempty_text (v : option json) : option string :=
  match v with Some (JStr s) => if String.eqb s "" then None else Some s | _ => None end.
(** A dict whose values are texts. *)
Fixpoint text_fields (fields : list (string * json)) : option (list (string * string)) :=
  match fields with
  | [] => Some []
  | (k, JStr s) :: fields => rest ← text_fields fields; Some ((k, s) :: rest)
  | _ => None
  end.

Definition container_fact (item : json) : outcome ContainerFact :=
  fields ← of_option (ObservationError "docker inspect item must be an object") (fields_of (Some item));
  let config := fields_of (jget "Config" fields) in
  let image := config ≫= fun config => nonempty_text (jget "Image" config) in
  container_id ← of_option (ObservationError "docker inspect item has no container id") (nonempty_text (jget "Id" fields));
  image ← of_option (ObservationError "docker inspect item has no image reference") image;
  config ← of_option (ObservationError "docker inspect item has no config or state") config;
  state ← of_option (ObservationError "docker inspect item has no config or state") (fields_of (jget "State" fields));
  labels ← of_option (ObservationError "docker inspect item has unreadable labels")
             (fields_of (jget "Labels" config) ≫= text_fields);
  running ← of_option (ObservationError "docker inspect item has no running flag")
              (match jget "Running" state with Some (JBool b) => Some b | _ => None end);
  status ← of_option (ObservationError "docker inspect item has no status") (nonempty_text (jget "Status" state));
  exit_code ← of_option (ObservationError "docker inspect item has no exit code")
                (match jget "ExitCode" state with Some (JInt n) => if 0 <=? n then Some n else None | _ => None end);
  started_at ← of_option (ObservationError "docker inspect item has no start time") (nonempty_text (jget "StartedAt" state));
  mret {| fact_container_id := container_id; fact_image_digest := image; fact_running := running; fact_status := status;
          fact_exit_code := exit_code; fact_started_at := started_at; fact_labels := labels |}.

Fixpoint container_facts (items : list json) : outcome (list ContainerFact) :=
  match items with
  | [] => mret []
  | item :: items => fact ← container_fact item; facts ← container_facts items; mret (fact :: facts)
  end.

(** [_reject_json_constant] *)
Definition inspect_hooks : Hooks :=
  {| on_constant := fun _ => Raise (ValueError "non-finite JSON constant");
     on_object := fun pairs => Ret (JObj (dict_of pairs)) |}.
Definition parse_inspect_payload (raw : string) : outcome (list ContainerFact) :=
  payload ← match loads inspect_hooks raw with
            | Raise (TypeError _) | Raise (ValueError _) => unobserved "docker inspect returned invalid JSON"
            | r => r
            end;
  match payload with
  | JList ((_ :: _) as items) => container_facts items
  | _ => unobserved "docker inspect returned no container object"
  end.

(** ** Listing *)
Definition listing_argv (deployment : string) (model : option string) : list string :=
  ["docker"; "ps"; "--all"; "--quiet"; "--no-trunc"; "--filter"; "label=" +:+ DEPLOYMENT_LABEL +:+ "=" +:+ deployment]
  ++ match model with Some m => ["--filter"; "label=" +:+ MODEL_LABEL +:+ "=" +:+ m] | None => [] end.
(** The stripped lines that are not blank. *)
Definition stripped_lines (stdout : string) : list string :=
  (fun l => concat_text (utf8 <$> l)) <$> List.filter (fun l => negb (bool_decide (l = []))) (strip <$> split_lines (codepoints stdout)).

Section Docker.
Context (docker : list string → outcome completed).

Definition list_container_ids (deployment : string) (model : option string) : outcome (list string) :=
  '(exit_code, stdout, _) ← docker (listing_argv deployment model);
  _ ← demand_observed (exit_code =? 0) "the container listing failed";
  mret (stripped_lines stdout).

Definition inspect_container_ids (ids : list string) : outcome (list ContainerFact) :=
  match ids with
  | [] => mret []
  | _ =>
      '(exit_code, stdout, _) ← docker (["docker"; "inspect"] ++ ids);
      _ ← demand_observed (exit_code =? 0) "docker inspect failed";
      parse_inspect_payload stdout
  end.
End Docker.

(** ** The observer of one model *)
Record DockerProcessObserver := { o_deployment_id : string; o_model_id : string; o_port : Z }.
Definition make_observer (o : DockerProcessObserver) : outcome DockerProcessObserver :=
  if String.eqb (o_deployment_id o) "" then Raise (ValueError "an observer requires a deployment id")
  else if String.eqb (o_model_id o) "" then Raise (ValueError "an observer requires a model id")
  else if negb ((1 <=? o_port o) && (o_port o <=? 65535)) then Raise (ValueError "an observer requires a loopback port")
  else Ret o.

(** The answers of the ports during one observation. *)
Record World := {
  w_docker : list string → outcome completed;
  w_port_state : Z → outcome PortState;
  w_launch_lookup : ObservationTarget → outcome (option LaunchOperation);
  w_process_state : Z → outcome SubprocessState;
  w_monotonic : time;
  w_utc : Z;
}.

Inductive Matched := Ambiguous | Nothing | Container (fact : ContainerFact).
Definition match_target (target : ObservationTarget) (facts : list ContainerFact) : Matched :=
  match target_container_id target with
  | Some c =>
      match List.filter (fun f => String.eqb (fact_container_id f) c) facts with
      | [] => Nothing
      | [fact] => Container fact
      | _ => Ambiguous
      end
  | None =>
      match List.filter fact_running facts with
      | [] => Nothing
      | [fact] => Container fact
      | _ => Ambiguous
      end
  end.

Section Observe.
Context (o : DockerProcessObserver) (w : World).

Definition observed_facts : outcome (list ContainerFact) :=
  ids ← list_container_ids (w_docker w) (o_deployment_id o) (Some (o_model_id o));
  inspect_container_ids (w_docker w) ids.

Definition subprocess_state (target : ObservationTarget) (launch : option LaunchOperation) : outcome SubprocessState :=
  match (match launch with Some l => launch_pid l | None => target_process_group_id target end) with
  | None => mret sub_absent
  | Some pid => w_process_state w pid
  end.

(** [labels.get(a) or labels.get(b)], when it is true *)
Definition first_label (labels : list (string * string)) (a b : string) : option string :=
  if truthy (assoc a labels) then assoc a labels else if truthy (assoc b labels) then assoc b labels else None.

Definition identity (fact : ContainerFact) : outcome (option InstanceIdentity) :=
  let labels := fact_labels fact in
  if negb (bool_decide (assoc DEPLOYMENT_LABEL labels = Some (o_deployment_id o))
           && bool_decide (assoc MODEL_LABEL labels = Some (o_model_id o)))
  then mret None
  else match assoc RUNTIME_LABEL labels, first_label labels CANDIDATE_LABEL CONFIG_LABEL with
       | Some runtime, Some digest =>
           if String.eqb runtime "" then mret None
           else match canonical_utc (fact_started_at fact) with
                | Raise (ObservationError _) => mret None
                | Raise e => Raise e
                | Ret started => mret (Some {| container_id := fact_container_id fact; started_at := started;
                      deployment_id := o_deployment_id o; inst_model_id := o_model_id o; inst_runtime_id := runtime;
                      candidate_digest := digest; inst_image_digest := fact_image_digest fact |})
                end
       | _, _ => mret None
       end.

Definition observation (state : ObservationState) (port : PortState) (sub : SubprocessState) (instance : option InstanceIdentity)
    (launch : option LaunchOperation) : Observation :=
  {| ob_state := state; ob_sampled_at := w_monotonic w; ob_sampled_at_utc := w_utc w; ob_port_state := port;
     ob_subprocess_state := sub; ob_instance := instance; ob_launch_operation := launch |}.

Definition port_answer (port : PortState) : option bool :=
  match port with port_listening => Some true | port_closed => Some false | port_unknown => None end.

(** After the facts: the verdict. *)
Definition verdict (matched : Matched) (port : PortState) (sub : SubprocessState) (launch : option LaunchOperation) : outcome Observation :=
  let unknown := observation obs_unknown port sub None launch in
  let launcher_terminal := match launch with Some l => launch_is_terminal l | None => true end in
  let stopped := stopped_is_proven true launcher_terminal (bool_decide (sub ∈ [sub_exited; sub_absent])) (port_answer port) in
  match matched with
  | Ambiguous => mret unknown
  | Nothing => mret (if stopped then observation obs_stopped port sub None launch else unknown)
  | Container f =>
      if fact_running f then
        i ← identity f;
        mret (if bool_decide (is_Some i) && bool_decide (port = port_listening) then observation obs_running port sub i launch else unknown)
      else if stopped then i ← identity f; mret (observation obs_stopped port sub i launch)
      else mret unknown
  end.

Definition observe (target : ObservationTarget) (deadline : time) : outcome Observation :=
  if negb (String.eqb (target_deployment_id target) (o_deployment_id o))
  then unobserved "the observation target belongs to another deployment"
  else
    launch ← w_launch_lookup w target;
    if deadline <=? w_monotonic w then mret (observation obs_unknown port_unknown sub_unknown None launch)
    else
      port ← w_port_state w (o_port o);
      match observed_facts with
      | Raise (ObservationError _) => mret (observation obs_unknown port_unknown sub_unknown None launch)
      | Raise e => Raise e
      | Ret facts =>
          sub ← subprocess_state target launch;
          verdict (match_target target facts) port sub launch
      end.
End Observe.

(** ** The observer of the earlier runtime *)
Record ProcessObserver := { po_deployment_id : string; po_image_digest : string; po_config_sha256 : string }.

(** [v.get(key, fallback)] *)
Definition py_get (v : json) (key : string) (fallback : json) : outcome json :=
  match v with
  | JObj fields => mret (default fallback (jget key fields))
  | _ => Raise (AttributeError "get")
  end.
Definition py_true (v : json) : bool :=
  match v with
  | JNull => false
  | JBool b => b
  | JInt n => negb (n =? 0)
  | JFloat (Some q) => negb (Qeq_bool q 0)
  | JFloat None => true
  | JStr s => negb (String.eqb s "")
  | JList l => match l with [] => false | _ => true end
  | JObj l => match l with [] => false | _ => true end
  end.
Definition is_text (v : option json) (s : string) : bool := match v with Some (JStr t) => String.eqb t s | _ => false end.
(** [labels == {...}] with three texts *)
Definition labels_are (v : json) (wanted : list (string * string)) : bool :=
  match v with
  | JObj fields => (length fields =? length wanted)%nat && forallb (fun kv => is_text (jget kv.1 fields) kv.2) wanted
  | _ => false
  end.

(** The answer of the health endpoint: a status, or the exception raised. *)
Definition health_endpoint (http_status : Z → outcome Z) (port : Z) : outcome bool :=
  match http_status port with
  | Ret status => mret (status =? 200)
  | Raise (OSError _) => mret false
  | Raise e => Raise e
  end.

Definition seen_v1 (now : time) (presence : Presence) (instance : option string) (healthy : bool) (detail : option string) : Contracts.Observation :=
  {| obs_presence := presence; obs_instance_id := instance; obs_healthy := healthy; obs_observed_at := now; obs_detail_code := detail |}.

(** [py_str] is Python's [str] of a decoded value. *)
Definition observe_v1 (p : ProcessObserver) (inspect : list string → outcome string) (port_open health : Z → outcome bool) (now : time)
    (py_str : json → string) (model_id name : string) (port : Z) : outcome Contracts.Observation :=
  let seen := seen_v1 now in
  match (raw ← inspect ["docker"; "inspect"; name]; loads plain_hooks raw) with
  | Raise (OSError _) | Raise (ValueError _) | Raise (SubprocessError _) => mret (seen P_UNKNOWN None false (Some "docker_unavailable"))
  | Raise e => Raise e
  | Ret (JList []) =>
      opened ← port_open port;
      Ret (seen (if (opened : bool) then P_UNKNOWN else P_STOPPED) None false None)
  | Ret (JList [JObj fields as item]) =>
      config ← py_get item "Config" (JObj []);
      labels ← py_get config "Labels" (JObj []);
      state ← py_get item "State" (JObj []);
      image ← py_get config "Image" JNull;
      running ← py_get state "Running" JNull;
      started ← py_get state "StartedAt" JNull;
      let id := default JNull (jget "Id" fields) in
      let identity_ok := labels_are labels [(DEPLOYMENT_LABEL, po_deployment_id p); (MODEL_LABEL, model_id); (CONFIG_LABEL, po_config_sha256 p)] in
      let image_ok := is_text (Some image) (po_image_digest p) in
      let running := match running with JBool b => b | _ => false end in
      let instance := if py_true id && py_true started then Some (py_str id +:+ ":" +:+ py_str started) else None in
      healthy ← (if identity_ok && image_ok && running
                 then opened ← port_open port; if (opened : bool) then health port else mret false
                 else mret false);
      Ret (if (healthy : bool) then seen P_RUNNING instance true None
            else seen P_UNKNOWN instance false (Some "container_identity_or_health_mismatch"))
  | Ret _ => mret (seen P_UNKNOWN None false (Some "inspect_protocol_error"))
  end.
