(* ===== verification/ObserverProps.v ===== *)
(** * Theorems on process observation: what a STOPPED and what a RUNNING
    observation were seen from, and that a failing docker proves nothing. *)

From S2P Require Import Prelude Text Dict Contracts Registration JsonText Protocol Instant Ports Observer.
From Stdlib Require Import Ascii.
Local Open Scope Z_scope.

Section Observe.
Context (o : DockerProcessObserver) (w : World) (t : ObservationTarget).

(** The listing of this deployment and model succeeded, and so did the
    inspection of every container it named. *)
Definition listed (facts : list ContainerFact) : Prop :=
  ∃ out err, w_docker w (listing_argv (o_deployment_id o) (Some (o_model_id o))) = Ret (0, out, err) ∧
    (stripped_lines out = [] ∧ facts = [] ∨
     stripped_lines out ≠ [] ∧ ∃ out' err', w_docker w (["docker"; "inspect"] ++ stripped_lines out) = Ret (0, out', err') ∧
       parse_inspect_payload out' = Ret facts).

(** The containers the target can mean. *)
Definition meant (f : ContainerFact) : Prop :=
  match target_container_id t with Some c => fact_container_id f = c | None => True end.

(** What an observation was made from. *)
Record seen (deadline : time) (facts : list ContainerFact) (port : PortState) (sub : SubprocessState) (launch : option LaunchOperation) : Prop := {
  seen_target : target_deployment_id t = o_deployment_id o;
  seen_in_time : w_monotonic w < deadline;
  seen_launch : w_launch_lookup w t = Ret launch;
  seen_port : w_port_state w (o_port o) = Ret port;
  seen_listed : listed facts;
  seen_subprocess : subprocess_state w t launch = Ret sub;
}.

(** The one container an explicit target names, if it is there. *)
Definition named (facts : list ContainerFact) (m : option ContainerFact) : Prop :=
  match m with
  | Some f => (∃ c, target_container_id t = Some c ∧ List.filter (fun f => String.eqb (fact_container_id f) c) facts = [f])
  | None => Forall (fun f => target_container_id t ≠ Some (fact_container_id f)) facts
  end.

Record stop_evidence (deadline : time) (ob : Observation) : Prop := {
  stop_from : ∃ facts port sub launch, seen deadline facts port sub launch ∧
    port = port_closed ∧ (sub = sub_exited ∨ sub = sub_absent) ∧
    (∀ l, launch = Some l → launch_state l ≠ launch_starting) ∧
    (∀ f, f ∈ facts → meant f → fact_running f = false) ∧
    ∃ m i, named facts m ∧ match m with Some f => identity o f = Ret i | None => i = None end ∧
      ob = observation w obs_stopped port sub i launch;
}.

Record run_evidence (deadline : time) (ob : Observation) : Prop := {
  run_from : ∃ facts sub launch f i, seen deadline facts port_listening sub launch ∧
    f ∈ facts ∧ meant f ∧ fact_running f = true ∧ identity o f = Ret (Some i) ∧
    (∀ g, g ∈ facts → meant g → fact_running g = true → g = f) ∧
    match_target t facts = Container f ∧
    ob = observation w obs_running port_listening sub (Some i) launch;
}.

Lemma observed_facts_spec facts : observed_facts o w = Ret facts ↔ listed facts.
Proof.
  unfold observed_facts, list_container_ids, inspect_container_ids, listed. destruct (w_docker w _) as [[[code out] err]|e] eqn:E.
  2:{ split; [done|]. intros (? & ? & ? & _). done. }
  cbn [mbind outcome_bind]. destruct (code =? 0) eqn:Ec; cbn [demand_observed mbind outcome_bind].
  2:{ split; [done|]. intros (? & ? & ? & _). simplify_eq. }
  apply Z.eqb_eq in Ec as ->. destruct (stripped_lines out) as [|id ids] eqn:Ei; cbn [mret outcome_ret mbind outcome_bind].
  - split; [intros [= <-]; exists out, err; split; [done|]; left; by rewrite Ei|].
    intros (? & ? & ? & H). simplify_eq. rewrite Ei in H. destruct H as [[_ ->]|[? _]]; done.
  - destruct (w_docker w (["docker"; "inspect"] ++ id :: ids)) as [[[code out'] err']|e] eqn:E2.
    2:{ split; [done|]. intros (? & ? & ? & H). simplify_eq. rewrite Ei in H. destruct H as [[? _]|(_ & ? & ? & ? & _)]; congruence. }
    cbn [mbind outcome_bind]. destruct (code =? 0) eqn:Ec; cbn [demand_observed mbind outcome_bind].
    + apply Z.eqb_eq in Ec as ->. split.
      * intros H. exists out, err. split; [done|]. right. rewrite Ei. split; [done|]. by exists out', err'.
      * intros (? & ? & ? & H). simplify_eq. rewrite Ei in H. destruct H as [[? _]|(_ & ? & ? & H1 & H2)]; [done|]. rewrite E2 in H1. by simplify_eq.
    + split; [done|]. intros (? & ? & ? & H). simplify_eq. rewrite Ei in H. destruct H as [[? _]|(_ & ? & ? & H1 & H2)]; [done|].
      rewrite E2 in H1. by simplify_eq.
Qed.

Lemma observe_seen deadline facts port sub launch :
  seen deadline facts port sub launch → observe o w t deadline = verdict o w (match_target t facts) port sub launch.
Proof.
  intros [Ht Hd Hl Hp Hf Hs]. unfold observe. rewrite (proj2 (String.eqb_eq _ _) Ht), Hl. cbn [negb mbind outcome_bind].
  rewrite (proj2 (Z.leb_gt _ _) Hd), Hp. cbn [mbind outcome_bind].
  rewrite (proj2 (observed_facts_spec facts) Hf). cbn [mbind outcome_bind]. by rewrite Hs.
Qed.
Lemma seen_observe deadline ob : observe o w t deadline = Ret ob → ob_state ob ≠ obs_unknown →
  ∃ facts port sub launch, seen deadline facts port sub launch ∧ verdict o w (match_target t facts) port sub launch = Ret ob.
Proof.
  unfold observe. intros E Hu. destruct (String.eqb _ _) eqn:Et; [|done]. cbn [negb] in E.
  destruct (w_launch_lookup w t) as [launch|] eqn:El; [|done]. cbn [mbind outcome_bind] in E.
  destruct (deadline <=? w_monotonic w) eqn:Ed; [injection E as <-; done|].
  destruct (w_port_state w _) as [port|] eqn:Ep; [|done]. cbn [mbind outcome_bind] in E.
  destruct (observed_facts o w) as [facts|e] eqn:Ef; [|destruct e; try done; injection E as <-; done].
  destruct (subprocess_state w t launch) as [sub|] eqn:Es; [|done]. exists facts, port, sub, launch. split; [|done].
  apply String.eqb_eq in Et. apply Z.leb_gt in Ed. by constructor; try apply observed_facts_spec.
Qed.

Lemma filter_nil {A} (p : A → bool) l : List.filter p l = [] ↔ Forall (fun a => p a = false) l.
Proof.
  induction l as [|a l IH]; [by split|]. cbn [List.filter]. rewrite Forall_cons. destruct (p a); naive_solver.
Qed.
Lemma filter_single {A} (p : A → bool) l a : List.filter p l = [a] → a ∈ l ∧ p a = true ∧ ∀ b, b ∈ l → p b = true → b = a.
Proof.
  intros E. assert (∀ b, b ∈ [a] ↔ b ∈ l ∧ p b = true) as H by (intros b; rewrite <-E, !list_elem_of_In; apply filter_In).
  split_and!; [by apply H, list_elem_of_singleton|by apply (H a), list_elem_of_singleton|]. intros b Hb Hp.
  apply list_elem_of_singleton, H. done.
Qed.

(** Which container the facts bind the target to. *)
Lemma match_nothing facts : match_target t facts = Nothing ↔
  named facts None ∧ ∀ f, f ∈ facts → meant f → fact_running f = false ∨ is_Some (target_container_id t).
Proof.
  unfold match_target, named, meant. destruct (target_container_id t) as [c|].
  - destruct (List.filter _ facts) as [|a [|b l]] eqn:E.
    + apply filter_nil in E. split; [intros _|done]. split; [|intros; right; by eexists].
      eapply Forall_impl; [exact E|]. intros f Hf [=]. subst. by rewrite String.eqb_refl in Hf.
    + split; [done|]. intros [H _]. apply filter_single in E as (Ha & He & _). rewrite Forall_forall in H.
      apply String.eqb_eq in He. by destruct (H a Ha); subst.
    + split; [done|]. intros [H _]. assert (In a (List.filter (fun f => String.eqb (fact_container_id f) c) facts)) as Ha by (rewrite E; by left).
      apply filter_In in Ha as [Ha He]. apply list_elem_of_In in Ha. rewrite Forall_forall in H.
      apply String.eqb_eq in He. by destruct (H a Ha); subst.
  - destruct (List.filter _ facts) as [|a [|b l]] eqn:E.
    + apply filter_nil in E. split; [intros _|done]. split; [by apply Forall_forall|]. rewrite Forall_forall in E. intros f Hf _. left. by apply E.
    + split; [done|]. intros [_ H]. apply filter_single in E as (Ha & He & _). destruct (H a Ha I) as [|[? ?]]; congruence.
    + split; [done|]. intros [_ H]. assert (In a (List.filter fact_running facts)) as Ha by (rewrite E; by left).
      apply filter_In in Ha as [Ha He]. apply list_elem_of_In in Ha. destruct (H a Ha I) as [|[? ?]]; congruence.
Qed.

Lemma match_container facts f : match_target t facts = Container f →
  f ∈ facts ∧ meant f ∧ (target_container_id t = None → fact_running f = true) ∧ (is_Some (target_container_id t) → named facts (Some f)) ∧
  ∀ g, g ∈ facts → meant g → is_Some (target_container_id t) ∨ fact_running g = true → g = f.
Proof.
  unfold match_target, named, meant. destruct (target_container_id t) as [c|]; (destruct (List.filter _ facts) as [|a [|b l]] eqn:E; try done);
    intros [= <-]; pose proof (filter_single _ _ _ E) as (Ha & He & Hu).
  - apply String.eqb_eq in He. do 3 (split; [done|]). split; [intros _; by exists c|]. intros g Hg Hm _. apply Hu; [done|]. by apply String.eqb_eq.
  - do 3 (split; [done|]). split; [by intros [? ?]|]. intros g Hg _ [[? ?]|Hr]; [done|]. by apply Hu.
Qed.

Lemma stopped_flag launch sub port :
  stopped_is_proven true (match launch with Some l => launch_is_terminal l | None => true end) (bool_decide (sub ∈ [sub_exited; sub_absent])) (port_answer port) = true ↔
  port = port_closed ∧ (sub = sub_exited ∨ sub = sub_absent) ∧ (∀ l, launch = Some l → launch_state l ≠ launch_starting).
Proof.
  unfold stopped_is_proven. rewrite !andb_true_iff, !bool_decide_eq_true. cbn [andb].
  assert (sub ∈ [sub_exited; sub_absent] ↔ sub = sub_exited ∨ sub = sub_absent) as -> by (destruct sub; set_solver).
  assert ((match launch with Some l => launch_is_terminal l | None => true end) = true ↔ ∀ l, launch = Some l → launch_state l ≠ launch_starting) as ->.
  { destruct launch as [l|]; [|by split]. unfold launch_is_terminal. rewrite negb_true_iff, bool_decide_eq_false. naive_solver. }
  destruct port; naive_solver.
Qed.

Lemma stopped_exact deadline ob : (observe o w t deadline = Ret ob ∧ ob_state ob = obs_stopped) ↔ stop_evidence deadline ob.
Proof.
  split.
  - intros [E Hs]. apply seen_observe in E as (facts & port & sub & launch & Hseen & E); [|by rewrite Hs]. unfold verdict in E.
    constructor. exists facts, port, sub, launch. split; [done|]. destruct (stopped_is_proven _ _ _ _) eqn:Hp.
    2:{ exfalso. destruct (match_target t facts) as [| |f]; [by injection E as <-|by injection E as <-|]. destruct (fact_running f); [|by injection E as <-].
        destruct (identity o f) as [i|]; [|done]. cbn [mbind outcome_bind] in E. destruct (_ && _); by injection E as <-. }
    apply stopped_flag in Hp as (Hport & Hsub & Hl). do 3 (split; [done|]).
    destruct (match_target t facts) as [| |f] eqn:Em; [by injection E as <-| |].
    + injection E as <-. apply match_nothing in Em as [Hn Hr]. split.
      * intros f Hf Hm. destruct (Hr f Hf Hm) as [|[c Hc]]; [done|]. cbn [named] in Hn. rewrite Forall_forall in Hn. specialize (Hn f Hf).
        unfold meant in Hm. rewrite Hc in Hm, Hn. by subst.
      * by exists None, None.
    + apply match_container in Em as (Hf & Hm & Hnr & Hn & Hu). destruct (fact_running f) eqn:Er.
      { destruct (identity o f) as [i|]; [|done]. cbn [mbind outcome_bind] in E. exfalso. destruct (_ && _); by injection E as <-. }
      assert (is_Some (target_container_id t)) as Hc by (destruct (target_container_id t); [by eexists|by specialize (Hnr eq_refl)]).
      destruct (identity o f) as [i|] eqn:Ei; [|done]. injection E as <-. split; [|by exists (Some f), i; auto].
      intros g Hg Hgm. by rewrite (Hu g Hg Hgm (or_introl Hc)).
  - intros [(facts & port & sub & launch & Hseen & Hport & Hsub & Hl & Hr & m & i & Hn & Hi & ->)]. split; [|done].
    rewrite (observe_seen _ _ _ _ _ Hseen). unfold verdict. rewrite (proj2 (stopped_flag launch sub port)) by done. destruct m as [f|].
    + destruct Hn as (c & Hc & Hfil). unfold match_target. rewrite Hc, Hfil. apply filter_single in Hfil as (Hf & He & _). apply String.eqb_eq in He.
      rewrite (Hr f Hf) by (unfold meant; by rewrite Hc). by rewrite Hi.
    + rewrite (proj2 (match_nothing facts)) by (split; [done|]; intros f Hf Hm; left; by apply Hr). by subst.
Qed.

Lemma running_exact deadline ob : (observe o w t deadline = Ret ob ∧ ob_state ob = obs_running) ↔ run_evidence deadline ob.
Proof.
  split.
  - intros [E Hs]. apply seen_observe in E as (facts & port & sub & launch & Hseen & E); [|by rewrite Hs]. unfold verdict in E.
    destruct (match_target t facts) as [| |f] eqn:Em; [by injection E as <-|injection E as <-; by destruct (stopped_is_proven _ _ _ _)|].
    destruct (fact_running f) eqn:Er.
    2:{ exfalso. destruct (stopped_is_proven _ _ _ _); [|by injection E as <-]. destruct (identity o f); [|done]. by injection E as <-. }
    destruct (identity o f) as [i|] eqn:Ei; [|done]. cbn [mbind outcome_bind] in E. destruct (_ && _) eqn:Eb; [|by injection E as <-].
    injection E as <-. apply andb_true_iff in Eb as [[i' ->]%bool_decide_eq_true ->%bool_decide_eq_true].
    constructor. exists facts, sub, launch, f, i'. pose proof Em as (Hf & Hm & _ & _ & Hu)%match_container. split_and!; try done.
    intros g Hg Hgm Hgr. apply Hu; auto.
  - intros [(facts & sub & launch & f & i & Hseen & Hf & Hm & Hr & Hi & Hu & Em & ->)]. split; [|done].
    rewrite (observe_seen _ _ _ _ _ Hseen), Em. unfold verdict. by rewrite Hr, Hi.
Qed.
End Observe.

(** ** What the payload reader raises *)
Section Raises.
Context (hooks : Hooks) (P : exn → Prop).
Context (Hc : ∀ s e, on_constant hooks s = Raise e → P e) (Ho : ∀ l e, on_object hooks l = Raise e → P e).
Context (Hv : ∀ m, P (ValueError m)).

Definition raises_only {A} (m : outcome A) : Prop := ∀ e, m = Raise e → P e.
Lemma raises_ret {A} (a : A) : raises_only (Ret a).
Proof. done. Qed.
Lemma raises_bad {A} : raises_only (@bad_json A).
Proof. intros e [= <-]. apply Hv. Qed.
Lemma raises_bind {A B} (m : outcome A) (f : A → outcome B) : raises_only m → (∀ a, raises_only (f a)) → raises_only (m ≫= f).
Proof. intros Hm Hf e. destruct m as [a|e']; [apply Hf|]. cbn [mbind outcome_bind]. intros [= <-]. by apply Hm. Qed.
Lemma raises_key s : raises_only (scan_key s).
Proof. unfold scan_key, of_option. intros e. destruct (scan_string _ s); [done|]. intros [= <-]. apply Hv. Qed.

Hint Resolve raises_ret raises_bad raises_key : raises.
Ltac raises_step :=
  first [ solve [auto with raises]
        | apply raises_bind; [|intros ?]
        | case_match ].

Lemma raises_literal s : raises_only (read_literal hooks s).
Proof. unfold read_literal. repeat (case_match; auto with raises); apply raises_bind; auto with raises; intros e; apply Hc. Qed.
Lemma raises_object l : raises_only (on_object hooks l).
Proof. intros e. apply Ho. Qed.
Hint Resolve raises_literal raises_object : raises.

Lemma raises_reader fuel : (∀ s, raises_only (read_value hooks fuel s)) ∧ (∀ s, raises_only (read_members hooks fuel s)) ∧ (∀ s, raises_only (read_elements hooks fuel s)).
Proof.
  induction fuel as [|fuel (IHv & IHm & IHe)]; [split_and!; intros s; cbn; auto with raises|].
  split_and!; intros s.
  - cbn [read_value]. repeat raises_step.
  - cbn [read_members]. repeat raises_step.
  - cbn [read_elements]. repeat raises_step.
Qed.
Lemma raises_loads s : raises_only (loads hooks s).
Proof. unfold loads. apply raises_bind; [apply raises_reader|]. intros [v r]. case_match; auto with raises. Qed.
End Raises.

Lemma container_fact_raises v : raises_only (fun e => ∃ m, e = ObservationError m) (container_fact v).
Proof.
  assert (∀ A m (x : option A), raises_only (fun e => ∃ m, e = ObservationError m) (of_option (ObservationError m) x)) as Ho
    by (intros A m [a|] e [=]; by eexists).
  unfold container_fact. cbv zeta. repeat (apply raises_bind; [apply Ho|intros ?]). done.
Qed.
Lemma payload_raises raw e : parse_inspect_payload raw = Raise e → ∃ m, e = ObservationError m.
Proof.
  unfold parse_inspect_payload. pose proof (raises_loads inspect_hooks (fun e => ∃ m, e = ValueError m)) as Hl.
  destruct (loads inspect_hooks raw) as [v|x] eqn:E.
  - cbn [mbind outcome_bind]. destruct v; try (intros [= <-]; by eexists). destruct l as [|item items]; [intros [= <-]; by eexists|].
    revert e. generalize (item :: items). clear. intros l. induction l as [|v l IH]; intros e; [done|]. cbn [container_facts].
    destruct (container_fact v) as [f|x] eqn:Ev; cbn [mbind outcome_bind].
    + destruct (container_facts l) as [fs|x]; [done|]. cbn [mbind outcome_bind]. intros [= <-]. by apply IH.
    + intros [= <-]. by apply (container_fact_raises v).
  - destruct (Hl ltac:(intros ? ? [= <-]; by eexists) ltac:(intros ? ? Hx; discriminate Hx) ltac:(intros m; by eexists) raw x E) as [m ->].
    cbn [mbind outcome_bind]. intros [= <-]. by eexists.
Qed.
Lemma observed_facts_raises o w e :
  (∀ args e, w_docker w args = Raise e → ∃ m, e = ObservationError m) → observed_facts o w = Raise e → ∃ m, e = ObservationError m.
Proof.
  intros Hd. unfold observed_facts, list_container_ids, inspect_container_ids. destruct (w_docker w _) as [[[code out] err]|x] eqn:E.
  2:{ cbn [mbind outcome_bind]. intros [= <-]. by eapply Hd. }
  cbn [mbind outcome_bind]. destruct (code =? 0); cbn [demand_observed mbind outcome_bind mret outcome_ret]; [|intros [= <-]; by eexists].
  destruct (stripped_lines out) as [|id ids]; [done|]. destruct (w_docker w (["docker"; "inspect"] ++ id :: ids)) as [[[code' out'] err']|x] eqn:E2.
  2:{ cbn [mbind outcome_bind]. intros [= <-]. by eapply Hd. }
  cbn [mbind outcome_bind]. destruct (code' =? 0); cbn [demand_observed mbind outcome_bind]; [apply payload_raises|intros [= <-]; by eexists].
Qed.

(** The observer reports STOPPED exactly when the container listing of its
    own deployment and model succeeded, every listed container was inspected,
    none that the target can mean is running, the launcher reached a terminal
    state, its process has exited and the port refuses connections; it reports
    RUNNING exactly for the one running container that carries the labels of
    the deployment and model, with the port listening and that container's
    identity. *)
Theorem observation_exact o w t deadline ob :
  ((observe o w t deadline = Ret ob ∧ ob_state ob = obs_stopped) ↔ stop_evidence o w t deadline ob) ∧
  ((observe o w t deadline = Ret ob ∧ ob_state ob = obs_running) ↔ run_evidence o w t deadline ob).
Proof. split; [apply stopped_exact|apply running_exact]. Qed.

(** When the docker command line fails, exits with a code other than zero
    or prints something that is not a container payload, the observation is
    returned and says UNKNOWN, with no instance. *)
Theorem docker_failure_unknown o w t deadline launch port :
  target_deployment_id t = o_deployment_id o → w_launch_lookup w t = Ret launch → w_port_state w (o_port o) = Ret port →
  (∀ args e, w_docker w args = Raise e → ∃ m, e = ObservationError m) →
  (∀ facts, ¬ listed o w facts) →
  observe o w t deadline = Ret (observation w obs_unknown port_unknown sub_unknown None launch).
Proof.
  intros Ht Hl Hp Hd Hn. unfold observe. rewrite (proj2 (String.eqb_eq _ _) Ht), Hl, Hp. cbn [negb mbind outcome_bind].
  destruct (deadline <=? w_monotonic w); [done|]. destruct (observed_facts o w) as [facts|e] eqn:E; [by apply observed_facts_spec, Hn in E|].
  destruct (observed_facts_raises o w e Hd E) as [m ->]. done.
Qed.

(** ** A concrete deployment: one container runs, then it has stopped. *)
Definition demo_observer : DockerProcessObserver := {| o_deployment_id := "lab"; o_model_id := "m"; o_port := 8001 |}.
Definition demo_target : ObservationTarget := {| target_deployment_id := "lab"; target_container_id := None; target_process_group_id := None |}.
Definition quote (s : string) : string := quoted s.
Definition demo_payload : string :=
  "[{" +:+ quote "Id" +:+ ":" +:+ quote "c1" +:+ "," +:+ quote "Config" +:+ ":{" +:+ quote "Image" +:+ ":" +:+ quote "i@sha256:0" +:+ ","
  +:+ quote "Labels" +:+ ":{" +:+ quote DEPLOYMENT_LABEL +:+ ":" +:+ quote "lab" +:+ "," +:+ quote MODEL_LABEL +:+ ":" +:+ quote "m" +:+ ","
  +:+ quote RUNTIME_LABEL +:+ ":" +:+ quote "r" +:+ "," +:+ quote CONFIG_LABEL +:+ ":" +:+ quote "d" +:+ "}}," +:+ quote "State" +:+ ":{"
  +:+ quote "Running" +:+ ":true," +:+ quote "Status" +:+ ":" +:+ quote "running" +:+ "," +:+ quote "ExitCode" +:+ ":0,"
  +:+ quote "StartedAt" +:+ ":" +:+ quote "2024-05-01T10:00:00.5+02:00" +:+ "}}]".
Definition demo_docker (ids : string) (code : Z) (args : list string) : outcome completed :=
  match args with
  | _ :: "ps" :: _ => Ret (0, ids, "")
  | _ => Ret (code, demo_payload, "")
  end.
Definition demo_world (ids : string) (code : Z) (port : PortState) : World :=
  {| w_docker := demo_docker ids code; w_port_state := fun _ => Ret port; w_launch_lookup := fun _ => Ret None;
     w_process_state := fun _ => Ret sub_unknown; w_monotonic := 5; w_utc := 7 |}.

Example demo_running : match observe demo_observer (demo_world "c1" 0 port_listening) demo_target 10 with
  | Ret ob => (ob_state ob, started_at <$> ob_instance ob) | Raise _ => (obs_unknown, None) end = (obs_running, Some "2024-05-01T08:00:00.5Z").
Proof. vm_compute. reflexivity. Qed.
Example demo_stopped : ob_state <$> observe demo_observer (demo_world "" 0 port_closed) demo_target 10 = Ret obs_stopped.
Proof. vm_compute. reflexivity. Qed.
Example demo_port_taken : ob_state <$> observe demo_observer (demo_world "" 0 port_listening) demo_target 10 = Ret obs_unknown.
Proof. vm_compute. reflexivity. Qed.

Lemma docker_failure_unknown_witness :
  (∀ facts, ¬ listed demo_observer (demo_world "c1" 1 port_closed) facts) ∧
  observe demo_observer (demo_world "c1" 1 port_closed) demo_target 10
  = Ret (observation (demo_world "c1" 1 port_closed) obs_unknown port_unknown sub_unknown None None).
Proof.
  assert (∀ facts, ¬ listed demo_observer (demo_world "c1" 1 port_closed) facts) as Hn.
  { intros facts Hl. apply observed_facts_spec in Hl. assert (observed_facts demo_observer (demo_world "c1" 1 port_closed)
      = Raise (ObservationError "docker inspect failed")) as E by (vm_compute; reflexivity). rewrite E in Hl. discriminate Hl. }
  split; [exact Hn|].
  apply (docker_failure_unknown _ _ _ _ None port_closed); [reflexivity|reflexivity|reflexivity| |exact Hn].
  intros args e E. exfalso. cbn in E. destruct args as [|a [|b l]]; try discriminate E. cbn in E. repeat (case_match; try discriminate E).
Defined.
