(* ===== verification/Recovery.v ===== *)
(** * Control recovery

    [model_scheduler/control_recovery.py]: the client of the root helper and the
    reconciliation of a deployment's own containers at startup;
    [model_scheduler/recovery_helper.py] and [deploy/control-recover.py]: the
    helper itself.

    Docker, systemd and the port table answer each call on their own; a run
    keeps the calls it made with their answers, oldest first. *)

From S2P Require Import Prelude Text Dict Contracts Registration JsonText Protocol Instant Ports Observer ObserverProps.
From Stdlib Require Import Ascii.
Local Open Scope Z_scope.

Definition STOP_GRACE_SECONDS : Z := 30.
Definition MAX_OUTPUT_BYTES : Z := 16384.

(** ** The client of the helper *)
Definition failed_result (error_code : string) : RecoveryResult :=
  {| rec_ok := false; rec_phase := "failed"; rec_error_code := Some error_code; rec_stopped_models := [] |}.

(** [_unique_object] and [_reject_json_constant] *)
Fixpoint unique_object (seen : list string) (pairs : list (string * json)) : outcome (list (string * json)) :=
  match pairs with
  | [] => mret []
  | (k, v) :: pairs =>
      _ ← raise_if (bool_decide (k ∈ seen)) (ValueError "duplicate JSON key");
      rest ← unique_object (k :: seen) pairs;
      mret ((k, v) :: rest)
  end.
Definition result_hooks : Hooks :=
  {| on_constant := fun _ => Raise (ValueError "non-finite JSON constant");
     on_object := fun pairs => fields ← unique_object [] pairs; Ret (JObj fields) |}.

Definition RESULT_KEYS : list string := ["ok"; "phase"; "error_code"; "stopped_models"].
Fixpoint model_names (l : list json) : option (list string) :=
  match l with
  | [] => Some []
  | JStr s :: l => if String.eqb s "" then None else rest ← model_names l; Some (s :: rest)
  | _ => None
  end.
(** [l == sorted(l)] with [len(set(l)) == len(l)]: strictly increasing *)
Fixpoint increasing (l : list string) : bool :=
  match l with
  | a :: ((b :: _) as l') => String.ltb a b && increasing l'
  | _ => true
  end.
Definition optional_text (v : json) : option (option string) :=
  match v with JNull => Some None | JStr s => Some (Some s) | _ => None end.

Definition parse_result (output : string) : outcome RecoveryResult :=
  data ← loads result_hooks output;
  fields ← match data with
           | JObj fields => if (length fields =? length RESULT_KEYS)%nat && forallb (fun k => bool_decide (is_Some (jget k fields))) RESULT_KEYS
                            then Ret fields else Raise (ValueError "invalid helper result")
           | _ => Raise (ValueError "invalid helper result")
           end;
  match jget "ok" fields, jget "phase" fields, jget "error_code" fields ≫= optional_text,
        match jget "stopped_models" fields with Some (JList l) => model_names l | _ => None end with
  | Some (JBool ok), Some (JStr phase), Some error_code, Some stopped =>
      if negb (increasing stopped) then Raise (ValueError "invalid helper result")
      else if ok && (negb (String.eqb phase "complete") || bool_decide (is_Some error_code))
      then Raise (ValueError "invalid successful helper result")
      else if negb ok && (negb (bool_decide (phase ∈ ["failed"; "already_running"])) || negb (truthy error_code) || negb (bool_decide (stopped = [])))
      then Raise (ValueError "invalid failed helper result")
      else Ret {| rec_ok := ok; rec_phase := phase; rec_error_code := error_code; rec_stopped_models := stopped |}
  | _, _, _, _ => Raise (ValueError "invalid helper result")
  end.

(** [_run_helper] after the process wrote [output] and exited with a code. *)
Definition run_helper (output : string) (code : Z) : outcome (Z * string) :=
  if MAX_OUTPUT_BYTES <? Z.of_nat (String.length output) then Raise (ValueError "recovery helper output exceeds limit")
  else if utf8_valid output then Ret (code, output) else Raise (UnicodeDecodeError "utf-8").

(** [recover], after the wait for the helper ended with an answer or an
    exception; [TimeoutError] is the deadline. *)
Definition recover_client (deadline now : time) (answer : outcome (Z * string)) : outcome RecoveryResult :=
  if deadline - now <=? 0 then Ret (failed_result "control_recovery_timeout")
  else match answer with
       | Raise (TimeoutError _) => Ret (failed_result "control_recovery_timeout")
       | Raise (UnicodeDecodeError _) => Ret (failed_result "control_recovery_protocol_error")
       | Raise (OSError _) | Raise (ValueError _) | Raise (SubprocessError _) => Ret (failed_result "control_recovery_failed")
       | Raise e => Raise e
       | Ret (code, output) =>
           if negb (code =? 0) then Ret (failed_result "control_recovery_failed")
           else match parse_result output with
                | Raise (TypeError _) | Raise (ValueError _) => Ret (failed_result "control_recovery_protocol_error")
                | r => r
                end
       end.

(** ** Structured absence: [\b(No such object|No such container):], case-insensitive *)

(** The letters [re.IGNORECASE] takes for a lower-case ASCII letter. *)
Definition same_letter (letter cp : Z) : bool :=
  (cp =? letter) || ((97 <=? letter) && (letter <=? 122) && (cp =? letter - 32))
  || ((letter =? 115) && (cp =? 383)) || ((letter =? 105) && bool_decide (cp ∈ [304; 305])).
Fixpoint starts_ci (word l : list Z) : bool :=
  match word, l with
  | [], _ => true
  | a :: word, c :: l => same_letter a c && starts_ci word l
  | _, [] => false
  end.
Section NotFound.
(** Whether a code point outside ASCII is a word character. *)
Context (wide_word : Z → bool).
Definition is_word (cp : Z) : bool :=
  if cp <? 128 then ((48 <=? cp) && (cp <=? 57)) || ((65 <=? cp) && (cp <=? 90)) || ((97 <=? cp) && (cp <=? 122)) || (cp =? 95)
  else wide_word cp.
Definition lower_points (s : string) : list Z := map code (chars s).
Fixpoint search_not_found (before : option Z) (l : list Z) : bool :=
  (match before with Some c => negb (is_word c) | None => true end
   && (starts_ci (lower_points "no such object:") l || starts_ci (lower_points "no such container:") l))
  || match l with [] => false | c :: l => search_not_found (Some c) l end.
Definition structured_not_found (exit_code : Z) (stderr : string) : bool :=
  negb (exit_code =? 0) && search_not_found None (codepoints stderr).

(** ** Reconciliation of one deployment *)
Inductive Event := CloseAdmission | Docker (args : list string) (answer : outcome completed).
Record Session := { calls : nat; events : list Event }.
Context (docker : nat → list string → outcome completed) (clock : nat → time) (deployment : string).

Definition call_docker (args : list string) : pym Session completed :=
  s ← get;
  let answer := docker (calls s) args in
  modify (fun s => {| calls := S (calls s); events := events s ++ [Docker args answer] |});;
  lift answer.
Definition read_clock : pym Session time :=
  s ← get; modify (fun s => {| calls := S (calls s); events := events s |});; mret (clock (calls s)).

Inductive Inspected := Absent | Unreadable | Found (fact : ContainerFact).
Definition inspected (id : string) (answer : completed) : Inspected :=
  let '(exit_code, stdout, stderr) := answer in
  if negb (exit_code =? 0) then (if structured_not_found exit_code stderr then Absent else Unreadable)
  else match parse_inspect_payload stdout with
       | Ret [fact] => if String.eqb (fact_container_id fact) id then Found fact else Unreadable
       | _ => Unreadable
       end.
Definition inspect (id : string) : pym Session Inspected :=
  answer ← call_docker ["docker"; "inspect"; id];
  mret (inspected id answer).
Definition stop_argv (id : string) : list string := ["docker"; "stop"; "--time"; "30"; id].

(** [docker stop] and the check that it worked. *)
Definition stop_and_verify (id : string) : pym Session (bool * option string) :=
  '(exit_code, _, _) ← call_docker (stop_argv id);
  if negb (exit_code =? 0) then mret (false, Some "stop_failed")
  else
    after ← inspect id;
    mret (match after with
          | Absent => (true, None)
          | Found fact => if fact_running fact then (false, Some "stop_not_verified") else (true, None)
          | Unreadable => (false, Some "stop_not_verified")
          end).

Definition verified_stop (id : string) : pym Session (bool * option string) :=
  fact ← inspect id;
  match fact with
  | Absent => mret (true, None)
  | Unreadable => mret (false, Some "docker_unavailable")
  | Found fact =>
      if negb (String.eqb (fact_container_id fact) id) || negb (bool_decide (assoc DEPLOYMENT_LABEL (fact_labels fact) = Some deployment))
      then mret (false, Some "foreign_instance")
      else if negb (fact_running fact) then mret (true, None)
      else stop_and_verify id
  end.

Record ReconcileOutcome := { ro_ok : bool; ro_error_code : option string; ro_stopped : list string; ro_remaining : list string }.

(** The loop over the listed containers. *)
Fixpoint reconcile_loop (deadline : time) (ids : list string) (stopped remaining : list string) (error_code : option string) : pym Session ReconcileOutcome :=
  match ids with
  | [] => mret {| ro_ok := bool_decide (remaining = []); ro_error_code := error_code; ro_stopped := stopped; ro_remaining := remaining |}
  | id :: ids =>
      now ← read_clock;
      if deadline <=? now
      then reconcile_loop deadline ids stopped (remaining ++ [id]) (if truthy error_code then error_code else Some "recovery_timeout")
      else
        r ← verified_stop id;
        if (r.1 : bool) then reconcile_loop deadline ids (stopped ++ [id]) remaining error_code
        else reconcile_loop deadline ids stopped (remaining ++ [id]) (if truthy error_code then error_code else r.2)
  end.
Definition failed_outcome (code : string) : ReconcileOutcome :=
  {| ro_ok := false; ro_error_code := Some code; ro_stopped := []; ro_remaining := [] |}.
(** [list_container_ids(deployment, None, docker)], the one call it makes. *)
Definition list_all : pym Session (list string) :=
  '(exit_code, stdout, _) ← call_docker (listing_argv deployment None);
  _ ← lift (demand_observed (exit_code =? 0) "the container listing failed");
  mret (stripped_lines stdout).
Definition closing (close_admission : outcome unit) : pym Session unit :=
  modify (fun s => {| calls := calls s; events := events s ++ [CloseAdmission] |});; lift close_admission.

Definition reconcile (close_admission : outcome unit) (deadline : time) : pym Session ReconcileOutcome :=
  _ ← closing close_admission;
  now ← read_clock;
  if deadline <=? now then mret (failed_outcome "recovery_timeout")
  else
    listed ← catch (ids ← list_all; mret (Some ids))
               (fun e => match e with ObservationError _ => Some (mret None) | _ => None end);
    match listed with
    | None => mret (failed_outcome "container_listing_failed")
    | Some ids => reconcile_loop deadline ids [] [] None
    end.

(** ** Stopping one exact instance *)
Record StopOutcome := { so_accepted : bool; so_stopped : bool; so_error_code : option string; so_container_id : option string }.
Definition same_start (a b : string) : outcome bool :=
  match (x ← canonical_utc a; y ← canonical_utc b; mret (String.eqb x y)) with
  | Raise (ObservationError _) => Ret false
  | r => r
  end.
Definition identity_matches (fact : ContainerFact) (i : InstanceIdentity) : outcome bool :=
  if negb (String.eqb (fact_container_id fact) (container_id i)) || negb (bool_decide (assoc DEPLOYMENT_LABEL (fact_labels fact) = Some deployment))
  then Ret false
  else if negb (bool_decide (assoc MODEL_LABEL (fact_labels fact) = Some (inst_model_id i))) then Ret false
  else same_start (fact_started_at fact) (started_at i).
Definition refused (code : string) (id : option string) : StopOutcome :=
  {| so_accepted := false; so_stopped := false; so_error_code := Some code; so_container_id := id |}.
Definition proven (id : string) : StopOutcome := {| so_accepted := true; so_stopped := true; so_error_code := None; so_container_id := Some id |}.

Definition stop_instance (i : InstanceIdentity) (deadline : time) : pym Session StopOutcome :=
  let id := container_id i in
  if negb (String.eqb (deployment_id i) deployment) then mret (refused "foreign_instance" None)
  else
    now ← read_clock;
    if deadline <=? now then mret (refused "recovery_timeout" (Some id))
    else
      fact ← inspect id;
      match fact with
      | Absent => mret (proven id)
      | Unreadable => mret (refused "docker_unavailable" (Some id))
      | Found fact =>
          same ← lift (identity_matches fact i);
          if negb same then mret (refused "stale_identity" (Some id))
          else if negb (fact_running fact) then mret (proven id)
          else
            r ← stop_and_verify id;
            mret (match r with (true, _) => proven id | (false, code) => refused (default "" code) (Some id) end)
      end.
End NotFound.

(** ** Theorems on control recovery: which containers a reconciliation may stop
    and what it takes to report one stopped; what the root helper does. *)
Section Reconcile.
Context (wide_word : Z → bool) (docker : nat → list string → outcome completed) (clock : nat → time) (deployment : string).
Notation inspected := (inspected wide_word).

(** Every stop command follows an inspection of the same container that found
    it running with the label of the deployment. *)
Definition stops_own (es : list Event) : Prop :=
  ∀ i id answer, es !! i = Some (Docker (stop_argv id) answer) →
    ∃ j a fact, i = S j ∧ es !! j = Some (Docker ["docker"; "inspect"; id] (Ret a)) ∧ inspected id a = Found fact ∧
      fact_container_id fact = id ∧ assoc DEPLOYMENT_LABEL (fact_labels fact) = Some deployment ∧ fact_running fact = true.
(** An inspection found the container gone, or there and not running. *)
Definition seen_stopped (es : list Event) (id : string) : Prop :=
  ∃ i a, es !! i = Some (Docker ["docker"; "inspect"; id] (Ret a)) ∧
    (inspected id a = Absent ∨ ∃ fact, inspected id a = Found fact ∧ fact_running fact = false).

Lemma lookup_snoc {A} (l : list A) x i y : (l ++ [x]) !! i = Some y ↔ l !! i = Some y ∨ (i = length l ∧ y = x).
Proof.
  rewrite lookup_app_Some. split.
  - intros [H|[Hl H]]; [by left|]. right. apply list_lookup_singleton_Some in H as [? ->]. split; [lia|done].
  - intros [H|[-> ->]]; [by left|]. right. split; [done|]. by rewrite Nat.sub_diag.
Qed.
Lemma stop_argv_not_inspect id id' : stop_argv id ≠ ["docker"; "inspect"; id'].
Proof. done. Qed.
Lemma stops_own_other es e : (∀ id a, e ≠ Docker (stop_argv id) a) → stops_own es → stops_own (es ++ [e]).
Proof.
  intros He Ho i id a [H|[_ H]]%lookup_snoc; [|by edestruct He]. destruct (Ho i id a H) as (j & a0 & f & -> & Hj & Hr).
  exists j, a0, f. split; [done|]. split; [apply lookup_snoc; by left|done].
Qed.
Lemma seen_stopped_app es es' id : seen_stopped es id → seen_stopped (es ++ es') id.
Proof. intros (i & a & H & Hr). exists i, a. split; [|done]. by apply lookup_app_l_Some. Qed.

(** What each call appends. *)
Lemma call_docker_run args s : call_docker docker args s =
  ({| calls := S (calls s); events := events s ++ [Docker args (docker (calls s) args)] |}, docker (calls s) args).
Proof. done. Qed.
Lemma inspect_run id s : inspect wide_word docker id s =
  ({| calls := S (calls s); events := events s ++ [Docker ["docker"; "inspect"; id] (docker (calls s) ["docker"; "inspect"; id])] |},
   inspected id <$> docker (calls s) ["docker"; "inspect"; id]).
Proof. unfold inspect, mbind, pym_bind. rewrite call_docker_run. by destruct (docker (calls s) _). Qed.
Lemma inspected_found id a f : inspected id a = Found f → fact_container_id f = id.
Proof.
  destruct a as [[c out] err]. unfold Recovery.inspected. destruct (negb _); [by destruct (structured_not_found _ _ _)|].
  destruct (parse_inspect_payload out) as [[|g [|? ?]]|]; try done. destruct (String.eqb _ _) eqn:E; [|done]. intros [= ->]. by apply String.eqb_eq.
Qed.

(** A run extends the calls, keeps [stops_own] and proves what it reports. *)
Definition extends (s s' : Session) : Prop := ∃ es, events s' = events s ++ es.
Lemma session_extends_refl s : extends s s.
Proof. exists []. by rewrite app_nil_r. Qed.
Lemma session_extends_trans a b c : extends a b → extends b c → extends a c.
Proof. intros [x Hx] [y Hy]. exists (x ++ y). by rewrite Hy, Hx, app_assoc. Qed.
Lemma seen_extends s s' id : extends s s' → seen_stopped (events s) id → seen_stopped (events s') id.
Proof. intros [x ->]. apply seen_stopped_app. Qed.

(** The stop itself, after an inspection that allows it. *)
Lemma stop_and_verify_ok id s j a fact r s' :
  length (events s) = S j → events s !! j = Some (Docker ["docker"; "inspect"; id] (Ret a)) → inspected id a = Found fact →
  assoc DEPLOYMENT_LABEL (fact_labels fact) = Some deployment → fact_running fact = true →
  stops_own (events s) → stop_and_verify wide_word docker id s = (s', r) →
  stops_own (events s') ∧ extends s s' ∧ ∀ e, r = Ret (true, e) → seen_stopped (events s') id.
Proof.
  intros Hlen Hj Hf Hlab Hrun Ho E. unfold stop_and_verify in E. unfold mbind at 1, pym_bind at 1 in E. rewrite call_docker_run in E.
  set (ans := docker (calls s) (stop_argv id)) in *. set (s1 := {| calls := S (calls s); events := events s ++ [Docker (stop_argv id) ans] |}) in *.
  assert (stops_own (events s1)) as Ho1.
  { intros i id' a' [H|[-> H]]%lookup_snoc.
    - destruct (Ho i id' a' H) as (k & a0 & f & -> & Hk & Hr). exists k, a0, f. split; [done|]. split; [apply lookup_snoc; by left|done].
    - injection H as ->. exists j, a, fact. rewrite Hlen. split; [done|]. split; [apply lookup_snoc; by left|]. split_and!; try done. by apply (inspected_found id a). }
  assert (extends s s1) as Hx1 by (by eexists).
  destruct ans as [[[code out] err]|e]; [|by injection E as <- <-].
  destruct (negb (code =? 0)); [by injection E as <- <-|].
  unfold mbind at 1, pym_bind at 1 in E. rewrite inspect_run in E.
  set (ans2 := docker (calls s1) ["docker"; "inspect"; id]) in *. set (s2 := {| calls := S (calls s1); events := events s1 ++ [Docker ["docker"; "inspect"; id] ans2] |}) in *.
  assert (stops_own (events s2)) as Ho2 by (by apply stops_own_other).
  assert (extends s s2) as Hx2 by (eapply session_extends_trans; [exact Hx1|by eexists]).
  assert (events s2 !! length (events s1) = Some (Docker ["docker"; "inspect"; id] ans2)) as Hl2 by (apply lookup_snoc; by right).
  destruct ans2 as [a2|e]; cbn [fmap outcome_fmap] in E; [|by injection E as <- <-].
  injection E as <- <-. split_and!; [done|done|]. intros e Hr. exists (length (events s1)), a2. split; [done|].
  destruct (inspected id a2) as [| |f] eqn:Ei; [by left|done|]. right. exists f. destruct (fact_running f) eqn:Ef; [done|done].
Qed.

Lemma verified_stop_ok id s r s' : stops_own (events s) → verified_stop wide_word docker deployment id s = (s', r) →
  stops_own (events s') ∧ extends s s' ∧ ∀ e, r = Ret (true, e) → seen_stopped (events s') id.
Proof.
  intros Ho E. unfold verified_stop in E. unfold mbind at 1, pym_bind at 1 in E. rewrite inspect_run in E.
  set (ans := docker (calls s) ["docker"; "inspect"; id]) in *. set (s1 := {| calls := S (calls s); events := events s ++ [Docker ["docker"; "inspect"; id] ans] |}) in *.
  assert (stops_own (events s1)) as Ho1 by (by apply stops_own_other). assert (extends s s1) as Hx1 by (by eexists).
  assert (events s1 !! length (events s) = Some (Docker ["docker"; "inspect"; id] ans)) as Hl by (apply lookup_snoc; by right).
  destruct ans as [a|e]; cbn [fmap outcome_fmap] in E; [|by injection E as <- <-].
  destruct (inspected id a) as [| |fact] eqn:Ei.
  - injection E as <- <-. split_and!; [done|done|]. intros e _. exists (length (events s)), a. auto.
  - by injection E as <- <-.
  - destruct (negb (String.eqb (fact_container_id fact) id) || _) eqn:Eb; [by injection E as <- <-|]. apply orb_false_iff in Eb as [_ Hlab%negb_false_iff%bool_decide_eq_true].
    destruct (fact_running fact) eqn:Er; cbn [negb] in E.
    + assert (length (events s1) = S (length (events s))) as Hlen by (unfold s1; cbn [events]; rewrite length_app; cbn; lia).
      destruct (stop_and_verify_ok id s1 _ a fact r s' Hlen Hl Ei Hlab Er Ho1 E) as (H1 & H2 & H3).
      split_and!; [done|by eapply session_extends_trans|done].
    + injection E as <- <-. split_and!; [done|done|]. intros e _. exists (length (events s)), a. split; [done|]. right. by exists fact.
Qed.

Lemma reconcile_loop_ok deadline ids : ∀ stopped remaining code s r s',
  stops_own (events s) → Forall (seen_stopped (events s)) stopped →
  reconcile_loop wide_word docker clock deployment deadline ids stopped remaining code s = (s', r) →
  stops_own (events s') ∧ extends s s' ∧
  ∀ out, r = Ret out → Forall (seen_stopped (events s')) (ro_stopped out) ∧ stopped ++ remaining ++ ids ≡ₚ ro_stopped out ++ ro_remaining out ∧
    (ro_ok out = true ↔ ro_remaining out = []) ∧ (ro_ok out = true → ro_stopped out = stopped ++ ids).
Proof.
  induction ids as [|id ids IH]; intros stopped remaining code s r s' Ho Hs E; cbn [reconcile_loop] in E.
  - injection E as <- <-. split_and!; [done|apply session_extends_refl|]. intros out [= <-]. cbn. rewrite !app_nil_r. split_and!; [done|done|apply bool_decide_eq_true|done].
  - unfold mbind at 1, pym_bind at 1 in E. change (read_clock clock s) with ({| calls := S (calls s); events := events s |}, @Ret time (clock (calls s))) in E.
    set (s0 := {| calls := S (calls s); events := events s |}) in *. assert (extends s s0) as Hx0 by (exists []; by rewrite app_nil_r).
    cbn iota beta in E. destruct (deadline <=? clock (calls s)).
    + apply IH in E as (H1 & H2 & H3); [|done|done]. split_and!; [done|by eapply session_extends_trans|]. intros out Hr.
      destruct (H3 out Hr) as (G1 & G2 & G3 & G4). split_and!; [done|rewrite <-G2; solve_Permutation|done|].
      intros Hok. exfalso. apply G3 in Hok as Hrem. pose proof (G4 Hok) as Hst. rewrite Hrem, Hst, app_nil_r in G2. apply Permutation_length in G2. rewrite !length_app in G2. cbn in G2. lia.
    + unfold mbind at 1, pym_bind at 1 in E. destruct (verified_stop wide_word docker deployment id s0) as [s1 [[b e]|x]] eqn:Ev.
      2:{ injection E as <- <-. apply verified_stop_ok in Ev as (H1 & H2 & _); [|done]. split_and!; [done|by eapply session_extends_trans|done]. }
      apply verified_stop_ok in Ev as (H1 & H2 & H3); [|done]. assert (extends s s1) as Hx1 by (by eapply session_extends_trans).
      assert (Forall (seen_stopped (events s1)) stopped) as Hs1 by (eapply Forall_impl; [exact Hs|]; intros; by eapply seen_extends).
      destruct b; cbn [fst snd] in E.
      * apply IH in E as (J1 & J2 & J3); [|done|apply Forall_app; split; [done|]; constructor; [by apply (H3 e)|constructor]].
        split_and!; [done|by eapply session_extends_trans|]. intros out Hr. destruct (J3 out Hr) as (G1 & G2 & G3 & G4).
        split_and!; [done|rewrite <-G2; solve_Permutation|done|]. intros Hok. rewrite (G4 Hok). by rewrite <-app_assoc.
      * apply IH in E as (J1 & J2 & J3); [|done|done]. split_and!; [done|by eapply session_extends_trans|]. intros out Hr. destruct (J3 out Hr) as (G1 & G2 & G3 & G4).
        split_and!; [done|rewrite <-G2; solve_Permutation|done|].
        intros Hok. exfalso. apply G3 in Hok as Hrem. pose proof (G4 Hok) as Hst. rewrite Hrem, Hst, app_nil_r in G2. apply Permutation_length in G2. rewrite !length_app in G2. cbn in G2. lia.
Qed.

(** The listing this reconciliation worked from. *)
Definition listing_was (es : list Event) (ids : list string) : Prop :=
  ∃ i out err, es !! i = Some (Docker (listing_argv deployment None) (Ret (0, out, err))) ∧ stripped_lines out = ids.

Lemma list_all_ok s s' r : stops_own (events s) → list_all docker deployment s = (s', r) →
  stops_own (events s') ∧ extends s s' ∧ ∀ ids, r = Ret ids → listing_was (events s') ids.
Proof.
  intros Ho E. unfold list_all in E. unfold mbind at 1, pym_bind at 1 in E. rewrite call_docker_run in E.
  set (ans := docker (calls s) (listing_argv deployment None)) in *. set (s1 := {| calls := S (calls s); events := events s ++ [Docker (listing_argv deployment None) ans] |}) in *.
  assert (stops_own (events s1)) as Ho1 by (by apply stops_own_other). assert (extends s s1) as Hx1 by (by eexists).
  assert (events s1 !! length (events s) = Some (Docker (listing_argv deployment None) ans)) as Hl by (apply lookup_snoc; by right).
  destruct ans as [[[code out] err]|e]; [|by injection E as <- <-]. unfold mbind at 1, pym_bind at 1, lift in E. cbn iota beta in E.
  destruct (code =? 0) eqn:Ec; cbn [demand_observed] in E; [|by injection E as <- <-]. apply Z.eqb_eq in Ec as ->.
  injection E as <- <-. split_and!; [done|done|]. intros ids [= <-]. by exists (length (events s)), out, err.
Qed.

Lemma listing_extends s s' ids : extends s s' → listing_was (events s) ids → listing_was (events s') ids.
Proof. intros [x ->] (i & out & err & H & Hr). exists i, out, err. split; [by apply lookup_app_l_Some|done]. Qed.

Lemma reconcile_ok close deadline r s' :
  reconcile wide_word docker clock deployment close deadline {| calls := 0; events := [] |} = (s', r) →
  events s' !! 0%nat = Some CloseAdmission ∧ stops_own (events s') ∧
  ∀ out, r = Ret out → Forall (seen_stopped (events s')) (ro_stopped out) ∧
    (ro_ok out = true → listing_was (events s') (ro_stopped out) ∧ ro_remaining out = []).
Proof.
  intros E. unfold reconcile in E. unfold mbind at 1, pym_bind at 1 in E.
  change (closing close {| calls := 0; events := [] |}) with ({| calls := 0; events := [CloseAdmission] |}, close) in E.
  set (s0 := {| calls := 0; events := [CloseAdmission] |}) in *.
  assert (stops_own (events s0)) as Ho0 by (intros [|[|i]] id a Hx; [discriminate Hx|discriminate Hx|discriminate Hx]).
  assert (∀ s, extends s0 s → events s !! 0%nat = Some CloseAdmission) as Hfirst by (intros s [x ->]; done).
  destruct close as [[]|e]; [|injection E as <- <-; split_and!; [done|done|done]].
  unfold mbind at 1, pym_bind at 1 in E. change (read_clock clock s0) with ({| calls := 1; events := events s0 |}, @Ret time (clock 0)) in E.
  set (s1 := {| calls := 1; events := events s0 |}) in *. assert (extends s0 s1) as Hx1 by (exists []; by rewrite app_nil_r). cbn iota beta in E.
  destruct (deadline <=? clock 0%nat).
  { injection E as <- <-. split_and!; [done|done|]. intros out [= <-]. cbn. split; [constructor|done]. }
  unfold mbind at 1, pym_bind at 1, catch in E. unfold mbind at 1, pym_bind at 1 in E.
  destruct (list_all docker deployment s1) as [s2 o] eqn:El. apply list_all_ok in El as (H1 & H2 & H3); [|done].
  assert (extends s0 s2) as Hx2 by (by eapply session_extends_trans). destruct o as [ids|e].
  - unfold mret, pym_ret in E. apply reconcile_loop_ok in E as (J1 & J2 & J3); [|done|constructor]. split_and!; [apply Hfirst; by eapply session_extends_trans|done|].
    intros out Hr. destruct (J3 out Hr) as (G1 & G2 & G3 & G4). split; [done|]. intros Hok. split; [|by apply G3]. rewrite (G4 Hok). cbn [app].
    eapply listing_extends; [exact J2|]. by apply H3.
  - destruct e; injection E as <- <-; (split_and!; [by apply Hfirst|done|]); try done. intros out [= <-]. cbn. split; [constructor|done].
Qed.
End Reconcile.

(** A reconciliation closes admission before any docker command; the only
    containers it stops were inspected just before, running and labelled with
    this deployment, also when it is cut short by an error; every container it
    reports stopped was seen gone or not running; and it succeeds only when that
    is every container the deployment's listing named. *)
Theorem reconcile_sound wide_word docker clock deployment close deadline s' r :
  reconcile wide_word docker clock deployment close deadline {| calls := 0; events := [] |} = (s', r) →
  events s' !! 0%nat = Some CloseAdmission ∧ stops_own wide_word deployment (events s') ∧
  ∀ out, r = Ret out →
    Forall (seen_stopped wide_word (events s')) (ro_stopped out) ∧
    (ro_ok out = true → listing_was deployment (events s') (ro_stopped out) ∧ ro_remaining out = []).
Proof. apply reconcile_ok. Qed.

Lemma stop_and_verify_events wide_word docker id s s' r : stop_and_verify wide_word docker id s = (s', r) →
  ∃ ans tail, events s' = events s ++ Docker (stop_argv id) ans :: tail ∧ (tail = [] ∨ ∃ ans2, tail = [Docker ["docker"; "inspect"; id] ans2]).
Proof.
  unfold stop_and_verify. unfold mbind at 1, pym_bind at 1. rewrite call_docker_run. intros E.
  destruct (docker (calls s) (stop_argv id)) as [[[code out] err]|e]; [|injection E as <- _; eexists _, []; split; [done|by left]].
  destruct (negb (code =? 0)); [injection E as <- _; eexists _, []; split; [done|by left]|].
  unfold mbind at 1, pym_bind at 1 in E. rewrite inspect_run in E. cbn [calls events] in E.
  destruct (docker (S (calls s)) _) as [a|e]; cbn [fmap outcome_fmap] in E; injection E as <- _; eexists _, _; (split; [by rewrite <-app_assoc|right; by eexists]).
Qed.

(** A stop of one instance issues a stop command only after an inspection
    showed exactly that container, running, with the labels of the deployment and
    the model and a start time that is the same instant as the identity's: a
    stale identity never stops a newer instance. *)
Theorem stop_instance_exact wide_word docker clock deployment i deadline s s' r id answer k :
  stop_instance wide_word docker clock deployment i deadline s = (s', r) →
  (∀ j a, events s !! j ≠ Some (Docker (stop_argv id) a)) →
  events s' !! k = Some (Docker (stop_argv id) answer) →
  id = container_id i ∧ deployment_id i = deployment ∧
  ∃ j a fact started, k = S j ∧ events s' !! j = Some (Docker ["docker"; "inspect"; id] (Ret a)) ∧
    Recovery.inspected wide_word id a = Found fact ∧ fact_container_id fact = id ∧ fact_running fact = true ∧
    assoc DEPLOYMENT_LABEL (fact_labels fact) = Some deployment ∧ assoc MODEL_LABEL (fact_labels fact) = Some (inst_model_id i) ∧
    canonical_utc (fact_started_at fact) = Ret started ∧ canonical_utc (started_at i) = Ret started.
Proof.
  intros E Hno Hk. unfold stop_instance in E. destruct (String.eqb (deployment_id i) deployment) eqn:Ed; cbn [negb] in E; [|injection E as <- _; by apply Hno in Hk].
  apply String.eqb_eq in Ed. unfold mbind at 1, pym_bind at 1 in E. change (read_clock clock s) with ({| calls := S (calls s); events := events s |}, @Ret time (clock (calls s))) in E.
  set (s0 := {| calls := S (calls s); events := events s |}) in *. cbn iota beta in E. destruct (deadline <=? clock (calls s)); [injection E as <- _; by apply Hno in Hk|].
  unfold mbind at 1, pym_bind at 1 in E. rewrite inspect_run in E.
  set (ans := docker (calls s0) ["docker"; "inspect"; container_id i]) in *.
  set (s1 := {| calls := S (calls s0); events := events s0 ++ [Docker ["docker"; "inspect"; container_id i] ans] |}) in *.
  assert (∀ j a, events s1 !! j ≠ Some (Docker (stop_argv id) a)) as Hno1 by (intros j a [H|[_ H]]%lookup_snoc; [by apply Hno in H|done]).
  assert (events s1 !! length (events s) = Some (Docker ["docker"; "inspect"; container_id i] ans)) as Hl by (apply lookup_snoc; by right).
  destruct ans as [a|e]; cbn [fmap outcome_fmap] in E; [|injection E as <- _; by apply Hno1 in Hk].
  destruct (Recovery.inspected wide_word (container_id i) a) as [| |fact] eqn:Ei; [injection E as <- _; by apply Hno1 in Hk|injection E as <- _; by apply Hno1 in Hk|].
  unfold mbind at 1, pym_bind at 1, lift in E. destruct (identity_matches deployment fact i) as [same|e] eqn:Em; [|injection E as <- _; by apply Hno1 in Hk].
  destruct same; cbn [negb] in E; [|injection E as <- _; by apply Hno1 in Hk].
  destruct (fact_running fact) eqn:Er; cbn [negb] in E; [|injection E as <- _; by apply Hno1 in Hk].
  unfold identity_matches in Em. destruct (_ || _) eqn:Eb; [done|]. apply orb_false_iff in Eb as [_ Hlab%negb_false_iff%bool_decide_eq_true].
  destruct (bool_decide (assoc MODEL_LABEL _ = _)) eqn:Emod; cbn [negb] in Em; [|done]. apply bool_decide_eq_true in Emod.
  unfold same_start in Em. destruct (canonical_utc (fact_started_at fact)) as [x|e] eqn:Ex; [|destruct e; done]. cbn [mbind outcome_bind] in Em.
  destruct (canonical_utc (started_at i)) as [y|e] eqn:Ey; [|destruct e; done]. cbn in Em. injection Em as Exy%String.eqb_eq. subst y.
  assert (∃ s2 q, stop_and_verify wide_word docker (container_id i) s1 = (s2, q) ∧ s' = s2) as (s2 & q & Es & ->).
  { unfold mbind at 1, pym_bind at 1 in E. destruct (stop_and_verify wide_word docker (container_id i) s1) as [s2 [q|e]]; injection E as <- _; by eexists _, _. }
  apply stop_and_verify_events in Es as (ans2 & tail & He & Htail). rewrite He in Hk. apply lookup_app_Some in Hk as [Hk|[Hle Hk]]; [by apply Hno1 in Hk|].
  assert (length (events s1) = S (length (events s))) as Hlen by (unfold s1; cbn [events]; rewrite length_app; cbn; lia).
  destruct (k - length (events s1))%nat as [|d] eqn:Ed2.
  - injection Hk as Hid _. subst id. split; [done|]. split; [done|]. exists (length (events s)), a, fact, x. split_and!; try done; [lia| |by eapply inspected_found].
    rewrite He. by apply lookup_app_l_Some.
  - exfalso. destruct Htail as [->|[ans3 ->]]; [done|]. by destruct d.
Qed.

(** *** A concrete reconciliation: the container of [demo_payload] runs until it
    is stopped, then docker no longer knows it. *)
Definition demo_engine (n : nat) (args : list string) : outcome completed :=
  match args with
  | _ :: "ps" :: _ => Ret (0, "c1", "")
  | _ :: "inspect" :: _ => if (n <? 5)%nat then Ret (0, demo_payload, "") else Ret (1, "[]", "Error: No such object: c1")
  | _ => Ret (0, "c1", "")
  end.
Definition demo_start : Session := {| calls := 0; events := [] |}.
Definition demo_run : Session * outcome ReconcileOutcome := reconcile (fun _ => false) demo_engine (fun n => Z.of_nat n) "lab" (Ret tt) 100 demo_start.
Definition demo_instance (start : string) : InstanceIdentity :=
  {| deployment_id := "lab"; inst_model_id := "m"; container_id := "c1"; started_at := start; inst_runtime_id := "r"; candidate_digest := "d"; inst_image_digest := "i" |}.
Definition demo_stop (start : string) : Session * outcome StopOutcome :=
  stop_instance (fun _ => false) demo_engine (fun n => Z.of_nat n) "lab" (demo_instance start) 100 {| calls := 2; events := [] |}.

Example demo_stop_exact : so_stopped <$> (demo_stop "2024-05-01T08:00:00.50Z").2 = Ret true.
Proof. vm_compute. reflexivity. Qed.
Example demo_stop_stale : so_error_code <$> (demo_stop "2024-05-01T08:00:00Z").2 = Ret (Some "stale_identity") ∧ length (events (demo_stop "2024-05-01T08:00:00Z").1) = 1%nat.
Proof. vm_compute. done. Qed.

Lemma reconcile_sound_witness : ∃ out, demo_run.2 = Ret out ∧ ro_ok out = true ∧ ro_stopped out = ["c1"] ∧
  stops_own (fun _ => false) "lab" (events demo_run.1) ∧ Forall (seen_stopped (fun _ => false) (events demo_run.1)) (ro_stopped out).
Proof.
  assert (∃ s out, demo_run = (s, Ret out) ∧ ro_ok out = true ∧ ro_stopped out = ["c1"]) as (s & out & E & Hok & Hst) by (eexists _, _; vm_compute; done).
  pose proof (reconcile_sound _ _ _ _ _ _ _ _ E) as (_ & Hown & Hout). destruct (Hout out eq_refl) as [Hs _]. rewrite E. exists out. split_and!; done.
Defined.

Lemma stop_instance_exact_witness : ∃ k answer, events (demo_stop "2024-05-01T08:00:00.50Z").1 !! k = Some (Docker (stop_argv "c1") answer) ∧
  ∃ j, k = S j ∧ canonical_utc "2024-05-01T08:00:00.50Z" = Ret "2024-05-01T08:00:00.5Z".
Proof.
  assert (∃ answer, events (demo_stop "2024-05-01T08:00:00.50Z").1 !! 1%nat = Some (Docker (stop_argv "c1") answer)) as [answer Hk] by (eexists; vm_compute; reflexivity).
  exists 1%nat, answer. split; [exact Hk|].
  destruct (demo_stop "2024-05-01T08:00:00.50Z") as [s' r] eqn:E.
  destruct (stop_instance_exact _ _ _ _ _ _ _ _ _ _ _ _ E ltac:(intros j a; discriminate) Hk) as (_ & _ & j & a & fact & started & -> & _).
  exists j. split; [reflexivity|]. vm_compute. reflexivity.
Defined.
