(* ===== verification/Helper.v ===== *)
(** * The root recovery helper

    [model_scheduler/recovery_helper.py] and its entry point
    [deploy/control-recover.py]: stop the control plane, stop the registered
    containers one by one, start the control plane again; then the answer as the
    client of [Recovery] reads it. *)

From S2P Require Import Prelude Text Dict Contracts Registration JsonText Protocol Ports Observer Recovery.
From Stdlib Require Import Ascii.
Local Open Scope Z_scope.

Definition PORTS : list (string * Z) := [("embedding", 10001); ("reranker", 10002); ("qwen-small", 10003); ("qwen-large", 10004)].
Definition STOP_CONTROL : list string := ["systemctl"; "stop"; "llama-swap.service"].
Definition START_CONTROL : list string := ["systemctl"; "start"; "llama-swap.service"].
Definition container_of (deployment id : string) : string := "sms-" +:+ deployment +:+ "-" +:+ id.
Definition stop_container (name : string) : list string := ["docker"; "stop"; "--time"; "30"; name].

(** The calls of a run with their answers. *)
Inductive Call :=
| Ran (args : list string) (answer : outcome string)
| AskedControl (answer : outcome bool)
| Inspected (name : string) (answer : outcome (option (list (string * json))))
| AskedPort (port : Z) (answer : outcome bool).
Record Host := {
  run_command : nat → list string → outcome string;
  control_stopped_at : nat → outcome bool;
  inspect_at : nat → string → outcome (option (list (string * json)));
  port_open_at : nat → Z → outcome bool;
}.

(** [_inspect]: docker's answer, or [None] when it exited with an error. *)
Definition inspect_container (check_output : outcome string) (exited_with_error : bool) : outcome (option (list (string * json))) :=
  if exited_with_error then Ret None
  else
    raw ← check_output;
    payload ← loads plain_hooks raw;
    match payload with
    | JList [JObj fields] => Ret (Some fields)
    | _ => Raise (ValueError "invalid docker inspect response")
    end.
(** [_control_stopped]: the unit is inactive and its cgroup is empty. *)
Definition strip_text (s : string) : string := concat_text (utf8 <$> strip (codepoints s)).
Definition control_stopped (active group : outcome string) (procs : string → outcome string) : outcome bool :=
  let checked :=
    a ← active; g ← group;
    if negb (String.eqb (strip_text a) "inactive") || negb (starts_with_slash (strip_text g)) then Ret false
    else p ← procs (strip_text g); Ret (String.eqb (strip_text p) "") in
  match checked with
  | Raise (OSError _) | Raise (SubprocessError _) => Ret false
  | r => r
  end.

Section Helper.
Context (h : Host).
Definition log (c : nat → Call) {A} (answer : nat → outcome A) : pym (list Call) A :=
  s ← get; modify (fun s => s ++ [c (length s)]);; lift (answer (length s)).
Definition runner (args : list string) : pym (list Call) string := log (fun n => Ran args (run_command h n args)) (fun n => run_command h n args).
Definition ask_control : pym (list Call) bool := log (fun n => AskedControl (control_stopped_at h n)) (fun n => control_stopped_at h n).
Definition inspector (name : string) : pym (list Call) (option (list (string * json))) :=
  log (fun n => Inspected name (inspect_at h n name)) (fun n => inspect_at h n name).
Definition port_open (port : Z) : pym (list Call) bool := log (fun n => AskedPort port (port_open_at h n port)) (fun n => port_open_at h n port).

Definition refuse_if (b : bool) (msg : string) : pym (list Call) unit := lift (raise_if b (ValueError msg)).
Definition get_text (v : json) (key s : string) : outcome bool := x ← py_get v key JNull; Ret (is_text (Some x) s).

(** A registered container that is there: its labels are ours, stop it, look again. *)
Definition stop_registered (deployment config id name : string) (record : list (string * json)) : pym (list Call) unit :=
  cfg ← lift (py_get (JObj record) "Config" (JObj []));
  labels ← lift (py_get cfg "Labels" (JObj []));
  a ← lift (get_text labels DEPLOYMENT_LABEL deployment);
  b ← lift (get_text labels MODEL_LABEL id);
  c ← lift (get_text labels CONFIG_LABEL config);
  _ ← refuse_if (negb (a && b && c)) "container label mismatch";
  _ ← runner (stop_container name);
  after ← inspector name;
  match after with
  | None => mret tt
  | Some after =>
      state ← lift (py_get (JObj after) "State" (JObj []));
      running ← lift (py_get state "Running" JNull);
      refuse_if (match running with JBool true => true | _ => false end) "container remains running"
  end.
Definition stop_model (deployment config id : string) (port : Z) : pym (list Call) string :=
  let name := container_of deployment id in
  record ← inspector name;
  _ ← match record with Some record => stop_registered deployment config id name record | None => mret tt end;
  opened ← port_open port;
  _ ← refuse_if opened "container port remains open";
  mret id.

(** The manifest: the deployment, its configuration and the four containers. *)
Definition manifest_key (data : json) (key : string) : outcome json :=
  match data with
  | JObj fields => of_option (KeyError key) (jget key fields)
  | JList _ | JStr _ => Raise (TypeError "indices must be integers")
  | _ => Raise (TypeError "not subscriptable")
  end.
Definition named_container (deployment : string) (kv : string * json) : bool :=
  match kv.2 with JObj fields => is_text (jget "container_name" fields) (container_of deployment kv.1) | _ => false end.
Definition read_manifest (text : outcome string) : outcome (string * string) :=
  raw ← text;
  data ← loads plain_hooks raw;
  d ← manifest_key data "deployment_id";
  c ← manifest_key data "config_sha256";
  m ← manifest_key data "models";
  match d, c, m with
  | JStr deployment, JStr config, JObj models =>
      if negb (SHA256_RE config) || negb ((length models =? length PORTS)%nat && forallb (fun p => bool_decide (is_Some (jget p.1 models))) PORTS)
      then Raise (ValueError "invalid manifest")
      else if forallb (named_container deployment) models then Ret (deployment, config)
      else Raise (ValueError "unsafe container name")
  | _, _, _ => Raise (ValueError "invalid manifest")
  end.

(** [sorted(models)] with the ports *)
Definition SORTED_PORTS : list (string * Z) := [("embedding", 10001); ("qwen-large", 10004); ("qwen-small", 10003); ("reranker", 10002)].
Definition complete_result (stopped : list string) : RecoveryResult :=
  {| rec_ok := true; rec_phase := "complete"; rec_error_code := None; rec_stopped_models := stopped |}.
Definition recover (manifest : outcome string) : pym (list Call) RecoveryResult :=
  catch
    ('(deployment, config) ← lift (read_manifest manifest);
     _ ← runner STOP_CONTROL;
     down ← ask_control;
     _ ← refuse_if (negb down) "control_plane_still_running";
     stopped ← map_each SORTED_PORTS (fun p => stop_model deployment config p.1 p.2);
     _ ← runner START_CONTROL;
     mret (complete_result stopped))
    (fun e => match e with
              | OSError _ | ValueError _ | KeyError _ | SubprocessError _ | UnicodeDecodeError _ => Some (mret (failed_result "control_recovery_failed"))
              | _ => None
              end).
End Helper.

(** ** The entry point *)

(** [json.dumps] with the default separators *)
Definition result_text (fields : list (string * string)) : string :=
  "{" +:+ join ", " (map (fun kv => quoted kv.1 +:+ ": " +:+ kv.2) fields) +:+ "}".
Definition name_list (l : list string) : string := "[" +:+ join ", " (map (json_string true) l) +:+ "]".
Definition printed (r : RecoveryResult) : string :=
  result_text [("error_code", match rec_error_code r with Some c => json_string true c | None => "null" end); ("ok", if rec_ok r then "true" else "false");
               ("phase", json_string true (rec_phase r)); ("stopped_models", name_list (rec_stopped_models r))] +:+ String (byte 10) "".
Definition busy_text : string :=
  result_text [("ok", "false"); ("phase", json_string true "already_running"); ("error_code", json_string true "control_recovery_busy"); ("stopped_models", "[]")]
  +:+ String (byte 10) "".
(** [main]: the text on stdout and the exit code; [None] is an exception. *)
Inductive Lock := LockTaken | LockHeld | LockError.
Definition main_ (h : Host) (arguments : list string) (lock : Lock) (manifest : outcome string) : list Call * option (string * Z) :=
  match arguments with
  | _ :: _ => ([], Some ("", 64))
  | [] =>
      match lock with
      | LockHeld => ([], Some (busy_text, 1))
      | LockError => ([], Some (printed (failed_result "control_recovery_failed"), 1))
      | LockTaken =>
          match recover h manifest [] with
          | (log, Ret r) => (log, Some (printed r, if rec_ok r then 0 else 1))
          | (log, Raise (OSError _)) => (log, Some (printed (failed_result "control_recovery_failed"), 1))
          | (log, Raise _) => (log, None)
          end
      end
  end.

(** ** Theorems on the root recovery helper: what a run may do to the host, and
    what the client may conclude from its answer. *)
(** The record of a container carries the three labels of the deployment. *)
Definition own_labels (deployment config id : string) (record : list (string * json)) : Prop :=
  ∃ cfg labels, py_get (JObj record) "Config" (JObj []) = Ret cfg ∧ py_get cfg "Labels" (JObj []) = Ret labels ∧
    get_text labels DEPLOYMENT_LABEL deployment = Ret true ∧ get_text labels MODEL_LABEL id = Ret true ∧ get_text labels CONFIG_LABEL config = Ret true.
(** Docker no longer knows the container, or does not say it runs. *)
Definition down_after (answer : option (list (string * json))) : Prop :=
  ∀ after, answer = Some after → ∃ state running, py_get (JObj after) "State" (JObj []) = Ret state ∧ py_get state "Running" JNull = Ret running ∧ running ≠ JBool true.

(** The calls for one model that ended well. *)
Inductive model_calls (deployment config : string) (p : string * Z) : list Call → Prop :=
| model_gone : model_calls deployment config p [Inspected (container_of deployment p.1) (Ret None); AskedPort p.2 (Ret false)]
| model_stopped record after out : own_labels deployment config p.1 record → down_after after →
    model_calls deployment config p
      [Inspected (container_of deployment p.1) (Ret (Some record)); Ran (stop_container (container_of deployment p.1)) (Ret out);
       Inspected (container_of deployment p.1) (Ret after); AskedPort p.2 (Ret false)].
(** The calls of a whole recovery that ended well. *)
Definition complete_calls (deployment config : string) (calls : list Call) : Prop :=
  ∃ out out' segments, calls = Ran STOP_CONTROL (Ret out) :: AskedControl (Ret true) :: concat segments ++ [Ran START_CONTROL (Ret out')] ∧
    Forall2 (model_calls deployment config) SORTED_PORTS segments.
(** A container is stopped only right after its inspection showed our labels. *)
Definition guarded (deployment config : string) (calls : list Call) : Prop :=
  ∀ k name answer, calls !! k = Some (Ran (stop_container name) answer) →
    ∃ j id record, k = S j ∧ name = container_of deployment id ∧ id ∈ SORTED_PORTS.*1 ∧
      calls !! j = Some (Inspected name (Ret (Some record))) ∧ own_labels deployment config id record.

Section Runs.
Context (h : Host) (deployment config : string).

Lemma guarded_snoc l c : (∀ name a, c ≠ Ran (stop_container name) a) → guarded deployment config l → guarded deployment config (l ++ [c]).
Proof.
  intros Hc Hg k name a [Hk|[_ Hk]]%lookup_snoc; [|by edestruct Hc]. destruct (Hg k name a Hk) as (j & id & r & -> & Hn & Hi & Hj & Ho).
  exists j, id, r. split_and!; try done. apply lookup_snoc. by left.
Qed.
Lemma guarded_stop l id record answer :
  id ∈ SORTED_PORTS.*1 → own_labels deployment config id record → guarded deployment config (l ++ [Inspected (container_of deployment id) (Ret (Some record))]) →
  guarded deployment config ((l ++ [Inspected (container_of deployment id) (Ret (Some record))]) ++ [Ran (stop_container (container_of deployment id)) answer]).
Proof.
  intros Hid Ho Hg k name a [Hk|[-> Hk]]%lookup_snoc.
  - destruct (Hg k name a Hk) as (j & id' & r & -> & Hn & Hi & Hj & Ho'). exists j, id', r. split_and!; try done. apply lookup_snoc. by left.
  - injection Hk as -> _. exists (length l), id, record. rewrite length_app. cbn [length]. split_and!; try done; [lia|].
    apply lookup_snoc. left. apply lookup_snoc. by right.
Qed.

Lemma log_run {A} (c : nat → Call) (answer : nat → outcome A) s : log c answer s = (s ++ [c (length s)], answer (length s)).
Proof. done. Qed.
Lemma refuse_run b m s : refuse_if b m s = (s, if b then Raise (ValueError m) else Ret tt).
Proof. unfold refuse_if, lift, raise_if. by destruct b. Qed.

(** The label check and the stop of one container found by an inspection. *)
Lemma stop_registered_ok id record s s' r : id ∈ SORTED_PORTS.*1 →
  guarded deployment config (s ++ [Inspected (container_of deployment id) (Ret (Some record))]) →
  stop_registered h deployment config id (container_of deployment id) record (s ++ [Inspected (container_of deployment id) (Ret (Some record))]) = (s', r) →
  guarded deployment config s' ∧
  (r = Ret tt → ∃ out after, own_labels deployment config id record ∧ down_after after ∧
     s' = s ++ [Inspected (container_of deployment id) (Ret (Some record)); Ran (stop_container (container_of deployment id)) (Ret out);
                Inspected (container_of deployment id) (Ret after)]).
Proof.
  intros Hid Hg E. unfold stop_registered in E.
  unfold mbind at 1, pym_bind at 1, lift at 1 in E. destruct (py_get (JObj record) "Config" (JObj [])) as [cfg|e] eqn:Ecfg; [|by injection E as <- <-].
  unfold mbind at 1, pym_bind at 1, lift at 1 in E. destruct (py_get cfg "Labels" (JObj [])) as [labels|e] eqn:Elab; [|by injection E as <- <-].
  unfold mbind at 1, pym_bind at 1, lift at 1 in E. destruct (get_text labels DEPLOYMENT_LABEL deployment) as [a|e] eqn:Ea; [|by injection E as <- <-].
  unfold mbind at 1, pym_bind at 1, lift at 1 in E. destruct (get_text labels MODEL_LABEL id) as [b|e] eqn:Eb; [|by injection E as <- <-].
  unfold mbind at 1, pym_bind at 1, lift at 1 in E. destruct (get_text labels CONFIG_LABEL config) as [c|e] eqn:Ec; [|by injection E as <- <-].
  unfold mbind at 1, pym_bind at 1 in E. rewrite refuse_run in E. destruct (a && b && c) eqn:Eabc; cbn [negb] in E; [|by injection E as <- <-].
  apply andb_true_iff in Eabc as [[-> ->]%andb_true_iff ->].
  assert (own_labels deployment config id record) as Hown by (by exists cfg, labels).
  unfold mbind at 1, pym_bind at 1 in E. unfold runner in E. rewrite log_run in E.
  pose proof (guarded_stop s id record (run_command h (length (s ++ [Inspected (container_of deployment id) (Ret (Some record))])) (stop_container (container_of deployment id))) Hid Hown Hg) as Hg1.
  destruct (run_command h _ _) as [out|e]; [|by injection E as <- <-].
  unfold mbind at 1, pym_bind at 1 in E. unfold inspector in E. rewrite log_run in E.
  set (s1 := (_ ++ [Ran _ _])) in *. assert (guarded deployment config (s1 ++ [Inspected (container_of deployment id) (inspect_at h (length s1) (container_of deployment id))])) as Hg2 by (by apply guarded_snoc).
  destruct (inspect_at h (length s1) _) as [after|e]; [|by injection E as <- <-].
  assert (∀ q, r = q → s' = s1 ++ [Inspected (container_of deployment id) (Ret after)] → (q = Ret tt → down_after after) → guarded deployment config s' ∧
    (r = Ret tt → ∃ out0 after0, own_labels deployment config id record ∧ down_after after0 ∧
     s' = s ++ [Inspected (container_of deployment id) (Ret (Some record)); Ran (stop_container (container_of deployment id)) (Ret out0);
                Inspected (container_of deployment id) (Ret after0)])) as Hend.
  { intros q -> -> Hd. split; [done|]. intros Hq. exists out, after. split_and!; [done|by apply Hd|]. unfold s1. by rewrite <-!app_assoc. }
  destruct after as [after|]; [|injection E as <- <-; eapply Hend; [done|done|]; by intros _ x].
  unfold mbind at 1, pym_bind at 1, lift at 1 in E. destruct (py_get (JObj after) "State" (JObj [])) as [state|e] eqn:Es; [|injection E as <- <-; eapply Hend; done].
  unfold mbind at 1, pym_bind at 1, lift at 1 in E. destruct (py_get state "Running" JNull) as [running|e] eqn:Er; [|injection E as <- <-; eapply Hend; done].
  rewrite refuse_run in E. injection E as <- <-. eapply Hend; [done|done|]. intros Hq x [= <-]. exists state, running. split_and!; [done|done|]. by intros ->.
Qed.

Lemma stop_model_ok p s s' r : p ∈ SORTED_PORTS → guarded deployment config s → stop_model h deployment config p.1 p.2 s = (s', r) →
  guarded deployment config s' ∧ (∀ id, r = Ret id → id = p.1 ∧ ∃ seg, s' = s ++ seg ∧ model_calls deployment config p seg).
Proof.
  intros Hp Hg E. unfold stop_model in E. unfold mbind at 1, pym_bind at 1 in E. unfold inspector in E. rewrite log_run in E.
  assert (guarded deployment config (s ++ [Inspected (container_of deployment p.1) (inspect_at h (length s) (container_of deployment p.1))])) as Hg1 by (by apply guarded_snoc).
  destruct (inspect_at h (length s) _) as [answer|e]; [|by injection E as <- <-].
  assert (∃ s1 r1, match answer with Some record => stop_registered h deployment config p.1 (container_of deployment p.1) record | None => mret tt end
                     (s ++ [Inspected (container_of deployment p.1) (Ret answer)]) = (s1, r1) ∧ guarded deployment config s1 ∧
            (r1 = Ret tt → ∃ pre, s1 = s ++ pre ∧ model_calls deployment config p (pre ++ [AskedPort p.2 (Ret false)]))) as (s1 & r1 & E1 & G1 & H1).
  { destruct answer as [record|]; [|eexists _, _; split_and!; [done|done|]; intros _; eexists; split; [done|constructor]].
    destruct (stop_registered _ _ _ _ _ _ _) as [s1 r1] eqn:Er. apply stop_registered_ok in Er as [G1 G2]; [|by apply list_elem_of_fmap_2|done].
    eexists _, _. split_and!; [done|done|]. intros Hr. destruct (G2 Hr) as (out & after & Ho & Hd & ->). eexists. split; [done|]. cbn [app]. by econstructor. }
  unfold mbind at 1, pym_bind at 1 in E. rewrite E1 in E. destruct r1 as [[]|e]; [|by injection E as <- <-].
  destruct (H1 eq_refl) as (pre & -> & Hm). unfold mbind at 1, pym_bind at 1 in E. unfold port_open in E. rewrite log_run in E.
  assert (guarded deployment config ((s ++ pre) ++ [AskedPort p.2 (port_open_at h (length (s ++ pre)) p.2)])) as G2 by (by apply guarded_snoc).
  destruct (port_open_at h _ _) as [opened|e]; [|by injection E as <- <-].
  unfold mbind at 1, pym_bind at 1 in E. rewrite refuse_run in E. destruct opened; injection E as <- <-; [done|]. split; [done|].
  intros id [= <-]. split; [done|]. eexists. split; [by rewrite <-app_assoc|done].
Qed.

Lemma stop_models_ok ps : ∀ s s' r, ps ⊆ SORTED_PORTS → guarded deployment config s → map_each ps (fun p => stop_model h deployment config p.1 p.2) s = (s', r) →
  guarded deployment config s' ∧ (∀ ids, r = Ret ids → ids = ps.*1 ∧ ∃ segs, s' = s ++ concat segs ∧ Forall2 (model_calls deployment config) ps segs).
Proof.
  induction ps as [|p ps IH]; intros s s' r Hps Hg E; cbn [map_each] in E.
  - injection E as <- <-. split; [done|]. intros ids [= <-]. split; [done|]. exists []. by rewrite app_nil_r.
  - unfold mbind at 1, pym_bind at 1 in E. destruct (stop_model h deployment config p.1 p.2 s) as [s1 o] eqn:E1.
    apply stop_model_ok in E1 as [G1 K1]; [|set_solver|done]. destruct o as [id|e]; [|by injection E as <- <-].
    destruct (K1 id eq_refl) as (-> & seg & -> & Hm). unfold mbind at 1, pym_bind at 1 in E.
    destruct (map_each ps _ (s ++ seg)) as [s2 o] eqn:E2. apply IH in E2 as [G2 K2]; [|set_solver|done].
    destruct o as [ids|e]; injection E as <- <-; [|done]. split; [done|]. intros ids' [= <-].
    destruct (K2 ids eq_refl) as (-> & segs & -> & Hf). split; [done|]. exists (seg :: segs). split; [cbn [concat]; by rewrite <-app_assoc|by constructor].
Qed.
End Runs.

Lemma guarded_start deployment config : guarded deployment config [].
Proof. by intros k name a Hk. Qed.

(** A whole run: what it did, and what a success means. *)
Lemma recover_ok h manifest calls r : recover h manifest [] = (calls, r) →
  (calls = [] ∨ ∃ deployment config, read_manifest manifest = Ret (deployment, config) ∧ guarded deployment config calls) ∧
  (∀ x, r = Ret x → rec_ok x = true → x = complete_result (SORTED_PORTS.*1) ∧
     ∃ deployment config, read_manifest manifest = Ret (deployment, config) ∧ complete_calls deployment config calls).
Proof.
  intros E. unfold recover, catch in E. unfold mbind at 1, pym_bind at 1, lift at 1 in E.
  assert (∀ s e, (match match e with
                  | OSError _ | ValueError _ | KeyError _ | SubprocessError _ | UnicodeDecodeError _ => Some (mret (failed_result "control_recovery_failed") : pym (list Call) RecoveryResult)
                  | _ => None end with Some k => k s | None => (s, Raise e) end) = (calls, r) → s = calls ∧ ∀ x, r = Ret x → rec_ok x = false) as Hcatch.
  { intros s e He. destruct e; injection He as <- <-; (split; [done|]); intros x [= <-]; done. }
  assert (∀ s e P, (match match e with
                  | OSError _ | ValueError _ | KeyError _ | SubprocessError _ | UnicodeDecodeError _ => Some (mret (failed_result "control_recovery_failed") : pym (list Call) RecoveryResult)
                  | _ => None end with Some k => k s | None => (s, Raise e) end) = (calls, r) →
      (s = [] ∨ ∃ deployment config, read_manifest manifest = Ret (deployment, config) ∧ guarded deployment config s) →
      (calls = [] ∨ ∃ deployment config, read_manifest manifest = Ret (deployment, config) ∧ guarded deployment config calls) ∧
      (∀ x, r = Ret x → rec_ok x = true → P x)) as Hfail.
  { intros s e P He Hs. destruct (Hcatch s e He) as [<- Hr]. split; [done|]. intros x Hx Hok. apply Hr in Hx. congruence. }
  destruct (read_manifest manifest) as [[deployment config]|e] eqn:Em; [|eapply Hfail; [exact E|by left]].
  unfold mbind at 1, pym_bind at 1 in E. unfold runner at 1 in E. rewrite log_run in E. cbn [length app] in E.
  assert (∀ a, guarded deployment config [Ran STOP_CONTROL a]) as G1 by (intros a; by apply (guarded_snoc _ _ []), guarded_start).
  destruct (run_command h 0 STOP_CONTROL) as [out|e]; [|eapply Hfail; [exact E|right; by exists deployment, config]].
  unfold mbind at 1, pym_bind at 1 in E. unfold ask_control in E. rewrite log_run in E. cbn [length app] in E.
  assert (∀ a, guarded deployment config [Ran STOP_CONTROL (Ret out); AskedControl a]) as G2 by (intros a; by apply (guarded_snoc _ _ [_]), G1).
  destruct (control_stopped_at h 1) as [down|e]; [|eapply Hfail; [exact E|right; by exists deployment, config]].
  unfold mbind at 1, pym_bind at 1 in E. rewrite refuse_run in E. destruct down; cbn [negb] in E; [|eapply (Hfail _ (ValueError "")); [exact E|right; by exists deployment, config]].
  unfold mbind at 1, pym_bind at 1 in E. destruct (map_each SORTED_PORTS _ _) as [s1 o] eqn:E1. apply stop_models_ok in E1 as [G3 K3]; [|done|apply G2].
  destruct o as [ids|e]; [|eapply Hfail; [exact E|right; by exists deployment, config]]. destruct (K3 ids eq_refl) as (-> & segs & -> & Hf).
  unfold mbind at 1, pym_bind at 1 in E. unfold runner at 1 in E. rewrite log_run in E. set (l := _ ++ concat segs) in *.
  assert (∀ a, guarded deployment config (l ++ [Ran START_CONTROL a])) as G4 by (intros a; by apply guarded_snoc).
  destruct (run_command h _ START_CONTROL) as [out'|e]; [|eapply Hfail; [exact E|right; by exists deployment, config]].
  injection E as <- <-. split; [right; exists deployment, config; split; [done|apply G4]|]. intros x [= <-] _. split; [done|]. exists deployment, config. split; [done|].
  exists out, out', segs. split; [|done]. reflexivity.
Qed.

(** *** The helper and its client *)
Definition MODEL_NAMES : list string := ["embedding"; "qwen-large"; "qwen-small"; "reranker"].
Lemma printed_complete : run_helper (printed (complete_result (SORTED_PORTS.*1))) 0 ≫= (fun co => parse_result co.2) = Ret (complete_result MODEL_NAMES).
Proof. vm_compute. reflexivity. Qed.

Lemma client_complete deadline now : now < deadline →
  recover_client deadline now (run_helper (printed (complete_result (SORTED_PORTS.*1))) 0) = Ret (complete_result MODEL_NAMES).
Proof.
  intros Ht. assert (run_helper (printed (complete_result (SORTED_PORTS.*1))) 0 = Ret (0, printed (complete_result (SORTED_PORTS.*1)))) as E by (vm_compute; reflexivity).
  pose proof printed_complete as Hp. rewrite E in Hp. cbn [mbind outcome_bind snd] in Hp. rewrite E. unfold recover_client.
  rewrite (proj2 (Z.leb_gt _ _)) by lia. cbn [negb Z.eqb]. by rewrite Hp.
Qed.
Lemma client_failed deadline now text code : now < deadline → code ≠ 0 →
  recover_client deadline now (run_helper text code) = Ret (failed_result "control_recovery_failed") ∨
  recover_client deadline now (run_helper text code) = Ret (failed_result "control_recovery_protocol_error").
Proof.
  intros Ht Hc. unfold recover_client, run_helper. rewrite (proj2 (Z.leb_gt _ _)) by lia.
  destruct (MAX_OUTPUT_BYTES <? _); [by left|]. destruct (utf8_valid text); [|by right]. rewrite (proj2 (Z.eqb_neq _ _) Hc). by left.
Qed.

(** C14: a helper run stops a container only right after an inspection of it that
    showed this deployment's three labels, whatever fails on the way; and the
    client that reads its answer in time reports a success, with the four model
    names, exactly when the helper exited with 0, which means the control plane
    was stopped and seen stopped first, then every registered container was gone
    or stopped and its port closed, and the control plane was started last. *)
Theorem helper_client_agree h arguments lock manifest calls text code deadline now :
  main_ h arguments lock manifest = (calls, Some (text, code)) → now < deadline →
  (calls = [] ∨ ∃ deployment config, read_manifest manifest = Ret (deployment, config) ∧ guarded deployment config calls) ∧
  ∃ r, recover_client deadline now (run_helper text code) = Ret r ∧ (rec_ok r = true ↔ code = 0) ∧
    (rec_ok r = true → r = complete_result MODEL_NAMES ∧
       ∃ deployment config, read_manifest manifest = Ret (deployment, config) ∧ complete_calls deployment config calls).
Proof.
  intros E Ht.
  assert (∀ text, (∃ r, recover_client deadline now (run_helper text code) = Ret r ∧ rec_ok r = false) ∨ code = 0) as Hne.
  { intros t. destruct (decide (code = 0)) as [->|Hc]; [by right|left]. destruct (client_failed deadline now t code Ht Hc) as [He|He]; by eexists. }
  assert (∀ (P : RecoveryResult → Prop), code ≠ 0 → (∃ r, recover_client deadline now (run_helper text code) = Ret r ∧ (rec_ok r = true ↔ code = 0) ∧ (rec_ok r = true → P r))) as Hfail.
  { intros P Hc. destruct (Hne text) as [(r & Hr & Hok)|]; [|done]. exists r. rewrite Hok. done. }
  destruct arguments as [|a l]; cbn [main_] in E; [|injection E as <- <- <-; split; [by left|by apply Hfail]].
  destruct lock; [|injection E as <- <- <-; split; [by left|by apply Hfail]|injection E as <- <- <-; split; [by left|by apply Hfail]].
  destruct (recover h manifest []) as [s r] eqn:Er. apply recover_ok in Er as [G K].
  destruct r as [x|e]; [|destruct e; try done; injection E as <- <- <-; split; [done|by apply Hfail]].
  injection E as <- <- <-. split; [done|]. destruct (rec_ok x) eqn:Hx; [|by apply Hfail].
  destruct (K x eq_refl Hx) as (-> & Hc). exists (complete_result MODEL_NAMES). split; [by apply client_complete|]. done.
Qed.

(** *** A concrete host: the embedding container runs, the others are gone. *)
Definition demo_labels : json :=
  JObj [(DEPLOYMENT_LABEL, JStr "lab"); (MODEL_LABEL, JStr "embedding");
        (CONFIG_LABEL, JStr "0123456789abcdef0123456789abcdef0123456789abcdef0123456789abcdef")].
Definition demo_host : Host := {|
  run_command := fun _ _ => Ret "";
  control_stopped_at := fun _ => Ret true;
  inspect_at := fun n name => Ret (if (n =? 2)%nat then Some [("Config", JObj [("Labels", demo_labels)])] else None);
  port_open_at := fun _ _ => Ret false;
|}.
Definition demo_entry (id : string) : string := quoted id +:+ ":{" +:+ quoted "container_name" +:+ ":" +:+ quoted (container_of "lab" id) +:+ "}".
Definition demo_manifest : string :=
  "{" +:+ quoted "deployment_id" +:+ ":" +:+ quoted "lab" +:+ "," +:+ quoted "config_sha256" +:+ ":"
  +:+ quoted "0123456789abcdef0123456789abcdef0123456789abcdef0123456789abcdef" +:+ "," +:+ quoted "models" +:+ ":{"
  +:+ join "," (demo_entry <$> PORTS.*1) +:+ "}}".

Example demo_commands : length (main_ demo_host [] LockTaken (Ret demo_manifest)).1 = 13%nat ∧
  snd <$> (main_ demo_host [] LockTaken (Ret demo_manifest)).2 = Some 0.
Proof. vm_compute. done. Qed.

Lemma helper_client_agree_witness : ∃ calls text code r,
  main_ demo_host [] LockTaken (Ret demo_manifest) = (calls, Some (text, code)) ∧
  recover_client 10 0 (run_helper text code) = Ret r ∧ rec_ok r = true ∧
  ∃ deployment config, read_manifest (Ret demo_manifest) = Ret (deployment, config) ∧ complete_calls deployment config calls.
Proof.
  assert (∃ calls text, main_ demo_host [] LockTaken (Ret demo_manifest) = (calls, Some (text, 0))) as (calls & text & E) by (eexists _, _; vm_compute; reflexivity).
  destruct (helper_client_agree _ _ _ _ _ _ _ 10 0 E ltac:(lia)) as (_ & r & Hr & Hok & Hc). pose proof (proj2 Hok eq_refl) as Ht.
  exists calls, text, 0, r. split_and!; [exact E|exact Hr|exact Ht|exact (proj2 (Hc Ht))].
Defined.
