(* ===== verification/Startup.v ===== *)
(** * Startup reconciliation

    [model_scheduler/runtime.py], [reconcile_startup]: admission closes in the
    book, the leftovers of the deployment are stopped, every registered model is
    observed, and only full stop evidence clears the book. The parts are those of
    [Registry], [Recovery] and [Observer]; docker may answer differently to each
    observer, so each comes with the world its own observation sees. *)

From S2P Require Import Prelude Text Dict Env Contracts Registry RegistryFacts RegistryProps Registration JsonText Protocol Ports Observer ObserverProps Recovery.
Local Open Scope Z_scope.

Record StartupReconciliation := {
  sr_ok : bool; sr_error_code : option string; sr_confirmed_stopped : list string; sr_unproven : list string; sr_remaining : list string;
}.
Record Site := { site_book : Book; site_session : Session }.
Definition on_book {A} : pym Book A → pym Site A := on_field site_book (fun b s => {| site_book := b; site_session := site_session s |}).
Definition on_session {A} : pym Session A → pym Site A := on_field site_session (fun x s => {| site_book := site_book s; site_session := x |}).

Definition set_add (m : string) (l : list string) : list string := if bool_decide (m ∈ l) then l else l ++ [m].
Definition Observers := dict string (DockerProcessObserver * World).

(** The observation loop: the confirmed and the unproven models. *)
Fixpoint observe_all (registered : list string) (deployment : string) (deadline : time) (l : list (string * (DockerProcessObserver * World)))
    (confirmed unproven : list string) : outcome (list string * list string) :=
  match l with
  | [] => Ret (confirmed, unproven)
  | (m, (o, w)) :: l =>
      if negb (bool_decide (m ∈ registered)) then observe_all registered deployment deadline l confirmed (set_add m unproven)
      else
        ob ← observe o w {| target_deployment_id := deployment; target_container_id := None; target_process_group_id := None |} deadline;
        if bool_decide (ob_state ob = obs_stopped)
        then observe_all registered deployment deadline l (set_add m confirmed) unproven
        else observe_all registered deployment deadline l confirmed (set_add m unproven)
  end.

Section Startup.
Context (wide_word : Z → bool) (docker : nat → list string → outcome completed) (clock : nat → time) (deployment : string).

Definition reconcile_startup (observers : Observers) (deadline : time) : pym Site StartupReconciliation :=
  epoch ← on_book begin_recovery;
  _ ← on_book begin_recovery;
  out ← on_session (reconcile wide_word docker clock deployment (Ret tt) deadline);
  s ← get;
  let registered := keys (specs (site_book s)) in
  found ← lift (observe_all registered deployment deadline (entries observers) [] (List.filter (fun m => negb (bool_decide (m ∈ keys observers))) registered));
  let '(confirmed, unproven) := found in
  if negb (ro_ok out)
  then mret {| sr_ok := false; sr_error_code := ro_error_code out; sr_confirmed_stopped := confirmed; sr_unproven := unproven; sr_remaining := ro_remaining out |}
  else if negb (bool_decide (unproven = []))
  then mret {| sr_ok := false; sr_error_code := Some "unproven_stop"; sr_confirmed_stopped := confirmed; sr_unproven := unproven; sr_remaining := [] |}
  else
    on_book (finish_recovery epoch confirmed);;
    mret {| sr_ok := true; sr_error_code := None; sr_confirmed_stopped := confirmed; sr_unproven := []; sr_remaining := [] |}.
End Startup.

(** ** The book during the reconciliation *)
Definition recovery_opened (b : Book) : Book := (begin_recovery b).1.

Lemma begin_recovery_run b : begin_recovery b = (recovery_opened b, Ret (epoch (recovery_opened b))).
Proof. unfold recovery_opened, begin_recovery. run_unfold. by destruct (recovering b). Qed.
Lemma opened_recovering b : recovering (recovery_opened b) = true.
Proof. unfold recovery_opened, begin_recovery. run_unfold. by destruct (recovering b) eqn:E. Qed.
Lemma opened_idempotent b : recovery_opened (recovery_opened b) = recovery_opened b.
Proof. unfold recovery_opened at 1, begin_recovery. run_unfold. by rewrite opened_recovering. Qed.
Lemma opened_specs b : specs (recovery_opened b) = specs b.
Proof. unfold recovery_opened, begin_recovery. run_unfold. by destruct (recovering b). Qed.
Lemma opened_committed b : committed (recovery_opened b) = committed b.
Proof.
  unfold recovery_opened, begin_recovery. run_unfold. destruct (recovering b); [done|]. unfold committed. simpl. rewrite dsum_dmap. unfold dsum. simpl.
  induction (entries (runtime b)) as [|[m r] l IH]; simpl; [done|]. simpl in IH. rewrite IH. f_equal. unfold recovering_runtime. by case_bool_decide.
Qed.

(** What an observation loop that leaves nothing unproven saw. *)
Definition at_deployment (deployment : string) : ObservationTarget :=
  {| target_deployment_id := deployment; target_container_id := None; target_process_group_id := None |}.
Lemma set_add_nonempty m l : set_add m l ≠ [].
Proof. unfold set_add. case_bool_decide as H; [by intros ->; apply elem_of_nil in H|by destruct l]. Qed.
Lemma observe_all_spec reg deployment deadline l : ∀ c u c', observe_all reg deployment deadline l c u = Ret (c', []) →
  u = [] ∧ ∀ m o w, (m, (o, w)) ∈ l → m ∈ reg ∧ ∃ ob, stop_evidence o w (at_deployment deployment) deadline ob.
Proof.
  induction l as [|[m [o w]] l IH]; intros c u c' E; cbn [observe_all] in E.
  - injection E as _ ->. split; [done|]. intros m o w Hm. by apply elem_of_nil in Hm.
  - case_bool_decide as Hm; cbn [negb] in E; [|apply IH in E as [E _]; by apply set_add_nonempty in E].
    fold (at_deployment deployment) in E. destruct (observe o w (at_deployment deployment) deadline) as [ob|e] eqn:Eo; [|done]. cbn [mbind outcome_bind] in E.
    case_bool_decide as Hs; [|apply IH in E as [E _]; by apply set_add_nonempty in E].
    apply IH in E as [-> Hl]. split; [done|]. intros m' o' w' [[= -> -> ->]|Hin]%elem_of_cons; [|by apply Hl].
    split; [done|]. exists ob. by apply stopped_exact.
Qed.

(** Every registered model has an observer that proved its instance stopped. *)
Definition all_stopped (b : Book) (observers : Observers) (deployment : string) (deadline : time) : Prop :=
  ∀ m, m ∈ keys (specs b) → ∃ o w ob, (m, (o, w)) ∈ entries observers ∧ stop_evidence o w (at_deployment deployment) deadline ob.
(** The book is cleared: nothing is reserved, every model may be loaded again. *)
Definition cleared (b b' : Book) : Prop :=
  recovering b' = false ∧ committed b' = 0 ∧
  ∀ m r, runtime b !! m = Some r → dlen (leases r) = 0 ∧ ∃ r', runtime b' !! m = Some r' ∧ state r' = UNLOADED ∧ admission_blocked r' = false.

Lemma opened_leases b m r : runtime b !! m = Some r → ∃ r1, runtime (recovery_opened b) !! m = Some r1 ∧ leases r1 = leases r.
Proof.
  intros Hr. unfold recovery_opened, begin_recovery. run_unfold. destruct (recovering b); [by exists r|]. simpl. rewrite dict_lookup_dmap, Hr. simpl.
  eexists. split; [done|]. unfold recovering_runtime. by case_bool_decide.
Qed.
Lemma finish_cleared `{!PyEnv} b b' ep cs u : book_wf (recovery_opened b) → finish_recovery ep cs (recovery_opened b) = (b', Ret u) → cleared b b'.
Proof.
  intros Hb E. pose proof (finish_recovery_evidence _ _ _ _ _ Hb E) as (_ & _ & _ & Hr & Hc & Hm). split_and!; [done|done|]. intros m r Hl.
  destruct (opened_leases b m r Hl) as (r1 & Hr1 & Hle). destruct (Hm m r1 Hr1) as (Hz & r' & Hr' & Hs & Ha & _). rewrite <-Hle. split; [done|]. by exists r'.
Qed.

(** The step after docker and the observers answered. *)
Lemma startup_verdict (registered : list string) observers confirmed unproven deployment deadline b :
  keys (specs b) = registered →
  observe_all registered deployment deadline (entries observers) [] (List.filter (fun m => negb (bool_decide (m ∈ keys observers))) registered) = Ret (confirmed, unproven) →
  unproven = [] → all_stopped b observers deployment deadline.
Proof.
  intros <- E ->. apply observe_all_spec in E as [Hnone Hall]. intros m Hm.
  assert (m ∈ keys observers) as [[m' [o w]] [-> Hin]]%list_elem_of_fmap.
  { destruct (decide (m ∈ keys observers)) as [|Hn]; [done|]. exfalso. assert (m ∈ List.filter (fun m => negb (bool_decide (m ∈ keys observers))) (keys (specs b))) as Hf.
    { apply list_elem_of_In, filter_In. split; [by apply list_elem_of_In|]. by rewrite bool_decide_eq_false_2. }
    rewrite Hnone in Hf. by apply elem_of_nil in Hf. }
  destruct (Hall _ _ _ Hin) as (_ & ob & Hob). by exists o, w, ob.
Qed.

(** C13: the startup sequence closes admission before docker is asked anything and
    stops only running containers labelled with this deployment; it reports
    success only when every listed container was seen stopped and every
    registered model's observer proved its instance stopped, and then the book is
    cleared: no lease was held, nothing is reserved, every model can be loaded.
    In every other case, errors included, the book is left recovering with all
    its reservations. *)
Theorem startup_needs_evidence `{!PyEnv} wide_word docker clock deployment observers deadline b s' r :
  book_wf b →
  reconcile_startup wide_word docker clock deployment observers deadline {| site_book := b; site_session := {| calls := 0; events := [] |} |} = (s', r) →
  let es := events (site_session s') in
  es !! 0%nat = Some CloseAdmission ∧ stops_own wide_word deployment es ∧
  ((∃ sr, r = Ret sr ∧ sr_ok sr = true ∧ cleared b (site_book s') ∧ all_stopped b observers deployment deadline ∧
      ∃ ids, listing_was deployment es ids ∧ Forall (seen_stopped wide_word es) ids) ∨
   ((∀ sr, r = Ret sr → sr_ok sr = false) ∧ recovering (site_book s') = true ∧ committed (site_book s') = committed b)).
Proof.
  intros Hb E es. subst es. unfold reconcile_startup in E. unfold mbind at 1, pym_bind at 1 in E. unfold on_book at 1, on_field at 1 in E.
  cbn [site_book site_session] in E. rewrite begin_recovery_run in E. unfold mbind at 1, pym_bind at 1 in E. unfold on_book at 1, on_field at 1 in E.
  cbn [site_book site_session] in E. rewrite begin_recovery_run, opened_idempotent in E.
  pose proof (begin_recovery_wf b Hb) as Hb1. fold (recovery_opened b) in Hb1.
  unfold mbind at 1, pym_bind at 1 in E. unfold on_session, on_field at 1 in E. cbn [site_book site_session] in E.
  destruct (reconcile _ _ _ _ _ _ _) as [x o] eqn:Er. apply reconcile_ok in Er as (Hfirst & Hown & Hout).
  assert (∀ s2, s2 = {| site_book := recovery_opened b; site_session := x |} → recovering (site_book s2) = true ∧ committed (site_book s2) = committed b) as Hleft.
  { intros s2 ->. split; [apply opened_recovering|apply opened_committed]. }
  destruct o as [out|e]; [|injection E as <- <-; split_and!; [done|done|]; right; split; [done|by apply Hleft]].
  unfold mbind at 1, pym_bind at 1, get at 1 in E. cbn [site_book] in E. unfold mbind at 1, pym_bind at 1, lift at 1 in E.
  destruct (observe_all _ _ _ _ _ _) as [[confirmed unproven]|e] eqn:Eo; [|injection E as <- <-; split_and!; [done|done|]; right; split; [done|by apply Hleft]].
  destruct (ro_ok out) eqn:Eok; cbn [negb] in E.
  2:{ injection E as <- <-. split_and!; [done|done|]. right. split; [by intros sr [= <-]|by apply Hleft]. }
  case_bool_decide as Hu; cbn [negb] in E.
  2:{ injection E as <- <-. split_and!; [done|done|]. right. split; [by intros sr [= <-]|by apply Hleft]. }
  pose proof (startup_verdict (keys (specs (recovery_opened b))) _ _ _ _ _ b ltac:(by rewrite opened_specs) Eo Hu) as Hall.
  unfold mbind at 1, pym_bind at 1 in E. unfold on_book, on_field in E. cbn [site_book site_session] in E.
  destruct (finish_recovery _ _ _) as [b2 [[]|e]] eqn:Ef; injection E as <- <-; (split_and!; [done|done|]).
  - left. eexists. split_and!; [done|done|by eapply finish_cleared|done|]. destruct (Hout out eq_refl) as [Hs Hl]. exists (ro_stopped out). split; [by apply Hl|done].
  - right. split; [done|]. pose proof (finish_recovery_evidence _ _ _ _ _ Hb1 Ef) as ->. by apply Hleft.
Qed.

(** ** A concrete startup: one leftover container is stopped, then both models
    of the book are seen stopped; with no observer for one model, the book stays
    recovering. *)
Definition demo_observer_of (m : string) : string * (DockerProcessObserver * World) :=
  (m, ({| o_deployment_id := "lab"; o_model_id := m; o_port := 8001 |}, demo_world "" 0 port_closed)).
Local Notation demo_startup models :=
  (reconcile_startup (fun _ => false) demo_engine (fun n => Z.of_nat n) "lab" (Dict (demo_observer_of <$> models)) 100
     {| site_book := RegistryProps.demo_ready; site_session := {| calls := 0; events := [] |} |}).

Example demo_startup_unproven : sr_unproven <$> (demo_startup ["a"]).2 = Ret ["b"] ∧ recovering (site_book (demo_startup ["a"]).1) = true.
Proof. vm_compute. done. Qed.

Lemma startup_needs_evidence_witness : ∃ s' sr, demo_startup ["a"; "b"] = (s', Ret sr) ∧ sr_ok sr = true ∧ cleared RegistryProps.demo_ready (site_book s') ∧
  0 < committed RegistryProps.demo_ready ∧ all_stopped RegistryProps.demo_ready (Dict (demo_observer_of <$> ["a"; "b"])) "lab" 100.
Proof.
  assert (sr_ok <$> (demo_startup ["a"; "b"]).2 = Ret true) as Hok by (vm_compute; reflexivity).
  destruct (demo_startup ["a"; "b"]) as [s' r] eqn:E. cbn [snd] in Hok.
  destruct r as [sr|e]; [|discriminate Hok]. injection Hok as Hok.
  pose proof (startup_needs_evidence _ _ _ _ _ _ _ _ _ demo_ready_wf E) as (_ & _ & [(sr' & [= <-] & _ & Hc & Ha & _)|[Hno _]]).
  - exists s', sr. split_and!; [reflexivity|exact Hok|exact Hc|vm_compute; reflexivity|exact Ha].
  - rewrite (Hno sr eq_refl) in Hok. discriminate Hok.
Defined.
