(* ===== verification/Control.v ===== *)
(** * The llama-swap control contract and its client

    [model_scheduler/llama_swap_contract.py]: the fixture the contract is built
    from, the paths and the response checks; [model_scheduler/llama_swap_client.py]:
    the client that sends the requests.  The network is a function of the number
    of exchanges made before and the request; a run keeps the exchanges, oldest
    first.  The decoders of UTF-16 and UTF-32 texts and the lower case of texts
    outside ASCII are parameters. *)

From S2P Require Import Prelude Text Dict Contracts Registration JsonText Observer.
From Stdlib Require Import Ascii QArith.
From Stdlib Require Import Ascii.
Local Open Scope Z_scope.

(** ** Bytes *)

(** What the interpreter's codecs do outside UTF-8 and ASCII. *)
Class Codecs := { wide_text : string → outcome string; wide_lower : string → string }.
Definition ascii_codecs : Codecs := {| wide_text := fun _ => Raise (UnicodeDecodeError "utf-16"); wide_lower := fun s => s |}.

Definition byte_at (s : string) (n : nat) : Z := match String.get n s with Some c => code c | None => 0 end.
(** [json.detect_encoding]: whether the text is UTF-16 or UTF-32, and the bytes
    of a UTF-8 byte order mark before it. *)
Inductive Encoding := Wide | Utf8Marked | Utf8Plain.
Definition detect_encoding (b : string) : Encoding :=
  let at_ := byte_at b in
  let n := String.length b in
  if (4 <=? n)%nat && (at_ 0%nat =? 0) && (at_ 1%nat =? 0) && (at_ 2%nat =? 254) && (at_ 3%nat =? 255) then Wide
  else if (2 <=? n)%nat && (((at_ 0%nat =? 254) && (at_ 1%nat =? 255)) || ((at_ 0%nat =? 255) && (at_ 1%nat =? 254))) then Wide
  else if (3 <=? n)%nat && (at_ 0%nat =? 239) && (at_ 1%nat =? 187) && (at_ 2%nat =? 191) then Utf8Marked
  else if ((4 <=? n)%nat || (n =? 2)%nat) && ((at_ 0%nat =? 0) || (at_ 1%nat =? 0)) then Wide
  else Utf8Plain.
(** [b.decode("utf-8", "surrogatepass")] *)
Definition decode_pass (b : string) : outcome string :=
  if String.eqb (concat_text (utf8 <$> codepoints b)) b && forallb (fun cp => (0 <=? cp) && (cp <? 1114112)) (codepoints b)
  then Ret b else Raise (UnicodeDecodeError "utf-8").
(** [json.loads(body)] of bytes *)
Definition loads_bytes `{Codecs} (hooks : Hooks) (b : string) : outcome json :=
  text ← match detect_encoding b with
         | Wide => wide_text b
         | Utf8Marked => decode_pass (String.substring 3 (String.length b - 3) b)
         | Utf8Plain => decode_pass b
         end;
  loads hooks text.

(** [s.lower()] *)
Definition lower_char (c : ascii) : ascii := if in_range 65 90 c then byte (code c + 32) else c.
Definition lower `{Codecs} (s : string) : string := if is_ascii s then text_of (map lower_char (chars s)) else wide_lower s.
(** [s.split(";", 1)[0]] *)
Fixpoint until_semicolon (l : list ascii) : list ascii :=
  match l with [] => [] | c :: l => if code c =? 59 then [] else c :: until_semicolon l end.
Definition strip_str (s : string) : string := concat_text (utf8 <$> strip (codepoints s)).
Definition media_of `{Codecs} (content_type : string) : string := lower (strip_str (text_of (until_semicolon (chars content_type)))).
(** [body.strip()] of bytes *)
Definition byte_space (c : ascii) : bool := (code c =? 32) || ((9 <=? code c) && (code c <=? 13)).
Fixpoint lstrip_bytes (l : list ascii) : list ascii := match l with c :: l' => if byte_space c then lstrip_bytes l' else l | [] => [] end.
Definition strip_bytes (s : string) : string := text_of (rev (lstrip_bytes (rev (lstrip_bytes (chars s))))).

(** [urllib.parse.quote(s, safe="")] *)
Definition upper_hex (n : Z) : ascii := byte (if n <? 10 then 48 + n else 55 + n).
Definition unreserved (c : ascii) : bool :=
  is_digit c || is_lower c || in_range 65 90 c || bool_decide (code c ∈ [95; 46; 45; 126]).
Definition quote_char (c : ascii) : string :=
  if unreserved c then String c "" else String (byte 37) (String (upper_hex (code c / 16)) (String (upper_hex (code c mod 16)) "")).
Definition quote_all (s : string) : string := concat_text (map quote_char (chars s)).
Definition quote (s : string) : outcome string := if encodable s then Ret (quote_all s) else Raise (ValueError "UnicodeEncodeError").

(** ** The contract *)
Record LlamaSwapResponse := { resp_status : Z; resp_content_type : option string; resp_body : string }.
Record ControlRequest := { cr_method : string; cr_path : string; cr_params : option (list (string * string)); cr_json_body : option (list (string * json)) }.
Definition has_char (n : Z) (s : string) : bool := existsb (fun c => code c =? n) (chars s).
Definition make_control_request (r : ControlRequest) : outcome ControlRequest :=
  if negb (bool_decide (cr_method r ∈ ["GET"; "POST"])) || negb (starts_with_slash (cr_path r)) || has_char 63 (cr_path r) || has_char 35 (cr_path r)
  then Raise (ValueError "invalid fixed control request")
  else if String.eqb (cr_method r) "GET" && bool_decide (is_Some (cr_json_body r)) then Raise (ValueError "GET control request cannot have a JSON body")
  else Ret r.

Record LlamaSwapControlContract := {
  running_parser_of : json → outcome (list string);
  load_request_of : string → outcome ControlRequest;
  unload_path_of : string;
  validate_load : LlamaSwapResponse → outcome unit;
  validate_unload : LlamaSwapResponse → outcome unit;
}.
(** The parts of a path before and after its one [{model_id}]. *)
Fixpoint split_placeholder (s : string) : option (string * string) :=
  match after "{model_id}" s with
  | Some rest => Some ("", rest)
  | None => match s with
            | EmptyString => None
            | String c s => '(a, b) ← split_placeholder s; Some (String c a, b)
            end
  end.
Definition brace_free (s : string) : bool := negb (has_char 123 s || has_char 125 s).
Definition make_contract (c : LlamaSwapControlContract) : outcome LlamaSwapControlContract :=
  if negb (starts_with_slash (unload_path_of c)) then Raise (ValueError "control paths must be absolute")
  else match split_placeholder (unload_path_of c) with
       | Some (a, b) => if brace_free a && brace_free b then Ret c else Raise (ValueError "unload path must contain exactly one model_id placeholder")
       | None => Raise (ValueError "unload path must contain exactly one model_id placeholder")
       end.
(** [unload_path.format(model_id=quoted)] of a path [make_contract] accepts *)
Definition format_path (path quoted : string) : string :=
  match split_placeholder path with Some (a, b) => a +:+ quoted +:+ b | None => path end.

(** ** The measured fixture *)
Definition RUNNING_ENTRY_KEYS : list string := ["cmd"; "description"; "model"; "name"; "proxy"; "state"; "ttl"].
Record ControlFixture := {
  release_version : json; release_sha256 : json; binary_sha256 : json;
  fx_health : json; fx_running_empty : json; fx_load_trigger : json; fx_running_loaded : json; fx_unload : json; fx_negative_samples : list json;
}.
Definition bad_fixture {A} (msg : string) : outcome A := Raise (FixtureError msg).
(** [_require(mapping, key, where)] *)
Definition require_key (mapping : json) (key : string) : outcome json :=
  match mapping with
  | JObj fields => match jget key fields with Some v => Ret v | None => bad_fixture key end
  | _ => bad_fixture key
  end.
(** [v == n]: a float or a bool can equal an integer. *)
Definition equals_int (v : json) (n : Z) : bool :=
  match v with
  | JInt m => m =? n
  | JBool b => (if b then 1 else 0) =? n
  | JFloat (Some q) => Qeq_bool q (inject_Z n)
  | _ => false
  end.
(** The elements of an iterable; the keys of a dict, the characters of a text. *)
Definition iterate (v : json) : outcome (list json) :=
  match v with
  | JList l => Ret l
  | JObj fields => Ret (JStr ∘ fst <$> fields)
  | JStr s => Ret (JStr ∘ utf8 <$> codepoints s)
  | _ => Raise (TypeError "not iterable")
  end.
Definition hashable (v : json) : bool := match v with JList _ | JObj _ => false | _ => true end.
Definition text_in (names : list string) (v : json) : bool := match v with JStr s => bool_decide (s ∈ names) | _ => false end.
(** [set(v) == names] *)
Definition set_is (v : json) (names : list string) : outcome bool :=
  l ← iterate v;
  if negb (forallb hashable l) then Raise (TypeError "unhashable type")
  else Ret (forallb (text_in names) l && forallb (fun n => existsb (fun v => is_text (Some v) n) l) names).
(** [v.get(key)] *)
Definition get_of (v : json) (key : string) : outcome (option json) :=
  match v with JObj fields => Ret (jget key fields) | _ => Raise (AttributeError "get") end.
(** [[s for s in negative if s.get("name") == "rejected_load_probe"]] *)
Fixpoint rejected_probes (l : list json) : outcome (list json) :=
  match l with
  | [] => Ret []
  | s :: l =>
      name ← get_of s "name";
      rest ← rejected_probes l;
      Ret (if is_text name "rejected_load_probe" then s :: rest else rest)
  end.
Definition recorded_404 (l : list json) : outcome bool :=
  match l with
  | [] => Ret false
  | s :: _ =>
      counts ← get_of s "counts_as_success";
      status ← get_of s "status";
      Ret (match counts with Some (JBool false) => true | _ => false end && match status with Some v => equals_int v 404 | None => false end)
  end.
Definition LISTEN_SOURCE : string := "command-line --listen (the config port key is ignored)".
Definition CONTROL_KEYS : list string := ["health"; "running_empty"; "load_trigger"; "running_loaded"; "unload"; "running_empty_after_unload"].

Definition load_fixture (text : outcome string) : outcome ControlFixture :=
  document ← match text ≫= loads plain_hooks with
             | Raise (OSError m) | Raise (ValueError m) => bad_fixture m
             | r => r
             end;
  version ← require_key document "schema_version";
  _ ← raise_if (negb (equals_int version 2)) (FixtureError "fixture: unsupported schema_version");
  release ← require_key document "release";
  binary ← require_key document "binary";
  control ← require_key document "control";
  negative ← require_key document "negative_samples";
  source ← require_key binary "listen_address_source";
  _ ← raise_if (negb (is_text (Some source) LISTEN_SOURCE)) (FixtureError "binary: the listen-address measurement changed");
  _ ← check_each CONTROL_KEYS (fun key => _ ← require_key control key; Ret tt);
  loaded ← require_key control "running_loaded";
  entries ← require_key loaded "entry_keys";
  same ← set_is entries RUNNING_ENTRY_KEYS;
  _ ← raise_if (negb same) (FixtureError "control.running_loaded: the measured /running entry shape changed");
  samples ← iterate negative;
  rejected ← rejected_probes samples;
  recorded ← recorded_404 rejected;
  _ ← raise_if (negb recorded) (FixtureError "negative_samples: the rejected load probe must stay a recorded 404");
  release_version ← require_key release "version";
  release_sha256 ← require_key release "sha256";
  binary_sha256 ← require_key binary "sha256";
  health ← require_key control "health";
  running_empty ← require_key control "running_empty";
  load_trigger ← require_key control "load_trigger";
  unload ← require_key control "unload";
  Ret {| release_version := release_version; release_sha256 := release_sha256; binary_sha256 := binary_sha256; fx_health := health;
         fx_running_empty := running_empty; fx_load_trigger := load_trigger; fx_running_loaded := loaded; fx_unload := unload;
         fx_negative_samples := samples |}.

(** ** The checks of the pinned release *)
Definition running_entry (entry : json) : outcome string :=
  match entry with
  | JObj fields =>
      if forallb (fun k => bool_decide (is_Some (jget k fields))) ["model"; "state"; "proxy"]
      then match jget "model" fields with
           | Some (JStr model) => if String.eqb model "" then bad_fixture "/running entry has no model name" else Ret model
           | _ => bad_fixture "/running entry has no model name"
           end
      else bad_fixture "/running entry does not match the measured shape"
  | _ => bad_fixture "/running entry does not match the measured shape"
  end.
Fixpoint running_entries (l : list json) : outcome (list string) :=
  match l with [] => Ret [] | e :: l => m ← running_entry e; rest ← running_entries l; Ret (m :: rest) end.
Definition running_parser (payload : json) : outcome (list string) :=
  match payload with
  | JObj fields => match jget "running" fields with
                   | Some (JList entries) => running_entries entries
                   | _ => bad_fixture "/running did not answer with a running list"
                   end
  | _ => bad_fixture "/running did not answer with a JSON object"
  end.
Definition load_request (model_id : string) : outcome ControlRequest :=
  if String.eqb model_id "" then bad_fixture "load request requires a model id"
  else q ← quote model_id;
       make_control_request {| cr_method := "GET"; cr_path := "/upstream/" +:+ q +:+ "/health"; cr_params := None; cr_json_body := None |}.
Definition unload_path : string := "/api/models/unload/{model_id}".

Section Contract.
Context `{Codecs}.
Definition media_type (r : LlamaSwapResponse) : option string :=
  match resp_content_type r with Some t => if String.eqb t "" then None else Some (media_of t) | None => None end.
Definition plain_ok (r : LlamaSwapResponse) (body : string) : bool :=
  (resp_status r =? 200) && bool_decide (media_type r = Some "text/plain") && String.eqb body "OK".
Definition validate_health_response (r : LlamaSwapResponse) : outcome unit :=
  if plain_ok r (resp_body r) then Ret tt else bad_fixture "unexpected /health answer".
Definition validate_load_response (r : LlamaSwapResponse) : outcome unit :=
  if negb ((resp_status r =? 200) && bool_decide (media_type r = Some "application/json")) then bad_fixture "unexpected load answer"
  else
    payload ← match loads_bytes plain_hooks (resp_body r) with
              | Raise (ValueError _) => bad_fixture "load answer is not JSON"
              | o => o
              end;
    match payload with
    | JObj fields => if is_text (jget "status" fields) "ok" then Ret tt else bad_fixture "load answer does not report an upstream in the measured shape"
    | _ => bad_fixture "load answer does not report an upstream in the measured shape"
    end.
Definition validate_unload_response (r : LlamaSwapResponse) : outcome unit :=
  if plain_ok r (strip_bytes (resp_body r)) then Ret tt else bad_fixture "unexpected unload answer".

(** [v["request"]["path"]] *)
Definition index_of (v : json) (key : string) : outcome json :=
  match v with
  | JObj fields => of_option (KeyError key) (jget key fields)
  | _ => Raise (TypeError "not subscriptable by a text")
  end.
Definition request_path (v : json) : outcome json := r ← index_of v "request"; index_of r "path".
Definition pinned_contract : LlamaSwapControlContract :=
  {| running_parser_of := running_parser; load_request_of := load_request; unload_path_of := unload_path;
     validate_load := validate_load_response; validate_unload := validate_unload_response |}.
Definition build_contract (fixture : outcome ControlFixture) : outcome LlamaSwapControlContract :=
  measured ← fixture;
  load_path ← request_path (fx_load_trigger measured);
  _ ← raise_if (negb (is_text (Some load_path) "/upstream/{model_id}/health")) (FixtureError "the load trigger path changed in the fixture");
  unload ← request_path (fx_unload measured);
  _ ← raise_if (negb (is_text (Some unload) "/api/models/unload/{model_id}")) (FixtureError "the unload path changed in the fixture");
  make_contract pinned_contract.

(** ** The client *)
Record HttpRequest := { http_method : string; http_url : string; http_params : option (list (string * string)); http_json : option json }.
Record HttpResponse := { http_status : Z; http_content_type : option string; http_body : string }.
Definition Exchange : Type := HttpRequest * outcome HttpResponse.
Record LlamaSwapClient := { base_url : string; contract : option LlamaSwapControlContract }.
(** [base_url.rstrip("/")] *)
Fixpoint drop_slashes (l : list ascii) : list ascii := match l with c :: l' => if code c =? 47 then drop_slashes l' else l | [] => [] end.
Definition rstrip_slash (s : string) : string := text_of (rev (drop_slashes (rev (chars s)))).
Definition make_client (url : string) (c : option LlamaSwapControlContract) : LlamaSwapClient := {| base_url := rstrip_slash url; contract := c |}.

Context (network : nat → HttpRequest → outcome HttpResponse).
Definition exchange (r : HttpRequest) : pym (list Exchange) HttpResponse :=
  s ← get;
  let answer := network (length s) r in
  modify (fun s => s ++ [(r, answer)]);; lift answer.
Definition get_request (url : string) : HttpRequest := {| http_method := "GET"; http_url := url; http_params := None; http_json := None |}.
Definition post_request (url : string) (body : option json) : HttpRequest := {| http_method := "POST"; http_url := url; http_params := None; http_json := body |}.
Definition success (r : HttpResponse) : bool := (200 <=? http_status r) && (http_status r <? 300).
Definition raise_for_status (r : HttpResponse) : outcome unit := raise_if (negb (success r)) (HTTPError "HTTPStatusError").
(** [except Exception: raise LlamaSwapProtocolError] *)
Definition protocol_checked {A} (msg : string) (o : outcome A) : outcome A :=
  match o with
  | Raise CancelledError => Raise CancelledError
  | Raise PowerLoss => Raise PowerLoss
  | Raise _ => Raise (LlamaSwapProtocolError msg)
  | r => r
  end.
Definition validate_response (r : HttpResponse) (validator : LlamaSwapResponse → outcome unit) (msg : string) : outcome unit :=
  protocol_checked msg (validator {| resp_status := http_status r; resp_content_type := media_of <$> http_content_type r; resp_body := http_body r |}).

Section Client.
Context (c : LlamaSwapClient).
Definition contract_ (msg : string) : outcome LlamaSwapControlContract := of_option (LlamaSwapProtocolError msg) (contract c).

Definition health : pym (list Exchange) bool :=
  r ← exchange (get_request (base_url c +:+ "/health")); mret (http_status r =? 200).
Definition running : pym (list Exchange) (list string) :=
  ct ← lift (contract_ "fixed llama-swap running fixture is required");
  r ← exchange (get_request (base_url c +:+ "/running"));
  _ ← lift (raise_for_status r);
  ids ← lift (protocol_checked "invalid fixed llama-swap running response" (loads_bytes plain_hooks (http_body r) ≫= running_parser_of ct));
  if existsb (fun m => String.eqb m "") ids then raise (LlamaSwapProtocolError "invalid fixed llama-swap running response") else mret ids.
Definition list_models : pym (list Exchange) json :=
  r ← exchange (get_request (base_url c +:+ "/v1/models")); _ ← lift (raise_for_status r); lift (loads_bytes plain_hooks (http_body r)).

Definition request_of (r : ControlRequest) : HttpRequest :=
  {| http_method := cr_method r; http_url := base_url c +:+ cr_path r; http_params := cr_params r;
     http_json := if String.eqb (cr_method r) "GET" then None else JObj <$> cr_json_body r |}.
Definition transported {A} (m : pym (list Exchange) A) : pym (list Exchange) A :=
  catch m (fun e => match e with HTTPError _ => Some (raise (LlamaSwapError "load transport error")) | _ => None end).
Definition load (model_id : string) : pym (list Exchange) unit :=
  ct ← lift (contract_ "fixed llama-swap control contract is required");
  request ← lift (protocol_checked "invalid fixed llama-swap load request" (load_request_of ct model_id));
  r ← transported (exchange (request_of request));
  _ ← lift (raise_if (negb (success r)) (LlamaSwapError "load failed"));
  _ ← lift (validate_response r (validate_load ct) "invalid fixed llama-swap load response");
  ids ← running;
  if bool_decide (model_id ∈ ids) then mret tt else raise (LlamaSwapError "did not become running").
Definition unload (model_id : string) : pym (list Exchange) unit :=
  ct ← lift (contract_ "fixed llama-swap control contract is required");
  q ← lift (quote model_id);
  r ← exchange (post_request (base_url c +:+ format_path (unload_path_of ct) q) None);
  _ ← lift (raise_if (negb (success r)) (LlamaSwapError "unload failed"));
  lift (validate_response r (validate_unload ct) "invalid fixed llama-swap unload response").
Definition unload_all : pym (list Exchange) unit := raise (LlamaSwapProtocolError "unload-all is not in the fixed llama-swap control contract").
Definition proxy_json (path : string) (payload : json) : pym (list Exchange) json :=
  r ← exchange (post_request (base_url c +:+ path) (Some payload)); _ ← lift (raise_for_status r); lift (loads_bytes plain_hooks (http_body r)).
End Client.
End Contract.

(** ** Theorems on the llama-swap control client: model ids stay inside their
    path segment, and what a load that returns has seen. *)
(** *** Percent-encoding *)
Lemma code_upper_hex n : 0 ≤ n < 16 → code (upper_hex n) = if n <? 10 then 48 + n else 55 + n.
Proof. intros Hn. unfold upper_hex. destruct (n <? 10) eqn:E; bool_prop; by rewrite code_byte by lia. Qed.
Lemma upper_hex_inj n m : 0 ≤ n < 16 → 0 ≤ m < 16 → upper_hex n = upper_hex m → n = m.
Proof.
  intros Hn Hm E. assert (code (upper_hex n) = code (upper_hex m)) as Ec by (by rewrite E). rewrite !code_upper_hex in Ec by done.
  destruct (n <? 10) eqn:E1, (m <? 10) eqn:E2; bool_prop; lia.
Qed.
Lemma percent_reserved : unreserved (byte 37) = false.
Proof. vm_compute. reflexivity. Qed.

(** The characters a quoted id is made of. *)
Definition segment_char (c : ascii) : bool := unreserved c || (code c =? 37).
Lemma upper_hex_segment n : 0 ≤ n < 16 → segment_char (upper_hex n) = true.
Proof.
  intros Hn. assert (forallb (fun n => segment_char (upper_hex n)) (seqZ 0 16) = true) as Hf by (vm_compute; reflexivity).
  rewrite forallb_forall in Hf. apply Hf, list_elem_of_In, elem_of_seqZ. lia.
Qed.
Lemma quote_char_segment c : forallb segment_char (chars (quote_char c)) = true.
Proof.
  unfold quote_char. pose proof (code_range c). destruct (unreserved c) eqn:E; cbn [chars String.list_ascii_of_string forallb].
  - unfold segment_char. by rewrite E.
  - rewrite !upper_hex_segment by (Z.div_mod_to_equations; lia). vm_compute. reflexivity.
Qed.
Lemma concat_segment l : Forall (fun s => forallb segment_char (chars s) = true) l → forallb segment_char (chars (concat_text l)) = true.
Proof. induction 1 as [|s l Hs _ IH]; [done|]. cbn [concat_text]. by rewrite chars_app, forallb_app, Hs, IH. Qed.
Lemma quote_segment s : forallb segment_char (chars (quote_all s)) = true.
Proof. apply concat_segment, Forall_forall. intros x (c & -> & _)%list_elem_of_fmap. apply quote_char_segment. Qed.

(** One character is read back from the front of the text. *)
Lemma quote_char_inj c d x y : quote_char c +:+ x = quote_char d +:+ y → c = d ∧ x = y.
Proof.
  unfold quote_char. pose proof (code_range c) as Hc. pose proof (code_range d) as Hd. destruct (unreserved c) eqn:E1, (unreserved d) eqn:E2; cbn; intros Hx.
  - by injection Hx.
  - exfalso. injection Hx as -> _. by rewrite percent_reserved in E1.
  - exfalso. injection Hx as E _. rewrite <-E in E2. by rewrite percent_reserved in E2.
  - injection Hx as Ha Hb Hxy. split; [|done]. apply code_inj.
    apply upper_hex_inj in Ha; [|Z.div_mod_to_equations; lia..]. apply upper_hex_inj in Hb; [|Z.div_mod_to_equations; lia..]. Z.div_mod_to_equations; lia.
Qed.
Lemma quote_char_nonempty c x : quote_char c +:+ x ≠ "".
Proof. unfold quote_char. by destruct (unreserved c). Qed.
Lemma quote_inj s t : quote_all s = quote_all t → s = t.
Proof.
  unfold quote_all. revert t. induction s as [|c s IH]; intros [|d t] E; cbn [chars String.list_ascii_of_string map concat_text] in E; [done| | |].
  - by destruct (quote_char_nonempty d _ (eq_sym E)).
  - by destruct (quote_char_nonempty c _ E).
  - apply quote_char_inj in E as [-> E]. f_equal. by apply IH.
Qed.

Lemma has_char_app n a b : has_char n (a +:+ b) = has_char n a || has_char n b.
Proof. unfold has_char. by rewrite chars_app, existsb_app. Qed.
Lemma segment_has n s : segment_char (byte n) = false → 0 ≤ n < 256 → has_char n (quote_all s) = false.
Proof.
  intros Hb Hn. unfold has_char. destruct (existsb _ _) eqn:E; [|done]. exfalso. apply existsb_exists in E as (c & Hc & E%Z.eqb_eq).
  pose proof (quote_segment s) as Hs. rewrite forallb_forall in Hs. specialize (Hs c Hc).
  assert (c = byte n) as -> by (apply code_inj; rewrite E, code_byte; lia). by rewrite Hs in Hb.
Qed.

Section Load.
Context `{Codecs} (network : nat → HttpRequest → outcome HttpResponse).

(** The path of a load request, and that it is always accepted. *)
Definition load_path (m : string) : string := "/upstream/" +:+ quote_all m +:+ "/health".
Lemma load_request_run m :
  load_request m = if String.eqb m "" then bad_fixture "load request requires a model id"
                   else if encodable m then Ret {| cr_method := "GET"; cr_path := load_path m; cr_params := None; cr_json_body := None |}
                   else Raise (ValueError "UnicodeEncodeError").
Proof.
  unfold load_request, quote. destruct (String.eqb m ""); [done|]. destruct (encodable m); [|done]. cbn [mbind outcome_bind].
  unfold make_control_request. cbn [cr_method cr_path cr_json_body]. fold (load_path m).
  assert (has_char 63 (load_path m) = false) as H63 by (unfold load_path; rewrite !has_char_app, segment_has by (vm_compute; done); done).
  assert (has_char 35 (load_path m) = false) as H35 by (unfold load_path; rewrite !has_char_app, segment_has by (vm_compute; done); done).
  rewrite H63, H35. done.
Qed.

(** What the two answers of a load must be. *)
Definition seen_by_validator (r : HttpResponse) : LlamaSwapResponse :=
  {| resp_status := http_status r; resp_content_type := media_of <$> http_content_type r; resp_body := http_body r |}.
Definition reports_healthy (r : HttpResponse) : Prop :=
  http_status r = 200 ∧ media_type (seen_by_validator r) = Some "application/json" ∧
  ∃ fields, loads_bytes plain_hooks (http_body r) = Ret (JObj fields) ∧ jget "status" fields = Some (JStr "ok").
Definition lists_running (r : HttpResponse) (ids : list string) : Prop :=
  200 ≤ http_status r < 300 ∧ (loads_bytes plain_hooks (http_body r) ≫= running_parser) = Ret ids.

Lemma validate_load_exact r : validate_load_response (seen_by_validator r) = Ret tt ↔ reports_healthy r.
Proof.
  unfold validate_load_response, reports_healthy. cbn [resp_status resp_body seen_by_validator]. split.
  - destruct (_ && _) eqn:E; cbn [negb]; [|done]. bool_prop. intros Hx. split; [done|]. split; [done|].
    destruct (loads_bytes plain_hooks (http_body r)) as [v|e]; [|by destruct e]. cbn [mbind outcome_bind] in Hx. destruct v; try done.
    destruct (is_text _ "ok") eqn:Et; [|done]. eexists. split; [done|]. unfold is_text in Et. destruct (jget "status" fields) as [[]|]; try done. by apply String.eqb_eq in Et as ->.
  - intros (-> & -> & fields & -> & Hs). cbn [mbind outcome_bind]. rewrite Hs. done.
Qed.
Lemma protocol_checked_ret {A} msg (o : outcome A) a : protocol_checked msg o = Ret a ↔ o = Ret a.
Proof. destruct o as [x|e]; [done|]. split; [by destruct e|done]. Qed.
Lemma running_entries_nonempty l ids : running_entries l = Ret ids → existsb (fun m => String.eqb m "") ids = false.
Proof.
  revert ids. induction l as [|e l IH]; intros ids E; cbn [running_entries] in E; [by injection E as <-|].
  destruct (running_entry e) as [m|] eqn:Em; [|done]. cbn [mbind outcome_bind] in E. destruct (running_entries l) as [rest|]; [|done]. cbn [mbind outcome_bind] in E. injection E as <-.
  cbn [existsb]. rewrite (IH rest eq_refl). unfold running_entry in Em. destruct e; try done. destruct (forallb _ _); [|done]. destruct (jget "model" fields) as [[]|]; try done.
  destruct (String.eqb s "") eqn:Es; [done|]. injection Em as <-. by rewrite Es.
Qed.
Lemma running_parser_nonempty v ids : running_parser v = Ret ids → existsb (fun m => String.eqb m "") ids = false.
Proof. unfold running_parser. destruct v; try done. destruct (jget "running" fields) as [[]|]; try done. apply running_entries_nonempty. Qed.

Lemma length_snoc {A} (l : list A) x : length (l ++ [x]) = S (length l).
Proof. rewrite length_app. cbn. lia. Qed.
Lemma exchange_run r s : exchange network r s = (s ++ [(r, network (length s) r)], network (length s) r).
Proof. done. Qed.

Lemma running_listed c s s' ids : contract c = Some pinned_contract →
  running network c s = (s', Ret ids) ↔
  ∃ r, network (length s) (get_request (base_url c +:+ "/running")) = Ret r ∧ lists_running r ids ∧ s' = s ++ [(get_request (base_url c +:+ "/running"), Ret r)].
Proof.
  intros Hc. unfold running, contract_. rewrite Hc. cbn [of_option]. unfold mbind at 1, pym_bind at 1, lift at 1. unfold mbind at 1, pym_bind at 1. rewrite exchange_run.
  destruct (network (length s) _) as [r|e]; [|split; [done|]; intros (? & ? & _); done].
  unfold mbind at 1, pym_bind at 1, lift at 1, raise_for_status. unfold lists_running, success. destruct (_ && _) eqn:E; cbn [negb raise_if].
  2:{ split; [done|]. intros (r' & [= <-] & [? _] & _). exfalso. apply andb_false_iff in E as [E|E]; bool_prop; lia. }
  unfold mbind at 1, pym_bind at 1, lift at 1. cbn [running_parser_of pinned_contract]. bool_prop.
  destruct (protocol_checked _ _) as [l|e] eqn:Ep.
  - apply protocol_checked_ret in Ep. assert (existsb (fun m => String.eqb m "") l = false) as ->.
    { destruct (loads_bytes plain_hooks (http_body r)) as [v|]; [|done]. by apply (running_parser_nonempty v). }
    split; [intros [= <- <-]; by exists r|]. intros (r' & [= <-] & [_ Hl] & ->). rewrite Hl in Ep. by injection Ep as ->.
  - split; [done|]. intros (r' & [= <-] & [_ Hl] & _). rewrite Hl in Ep. done.
Qed.
End Load.

(** A load through the pinned control contract returns exactly when the
    request to the model's own upstream path answered 200 with the JSON status ok
    and the listing read after it named the model; those are the two exchanges it
    makes, in that order. *)
Theorem control_load_exact `{Codecs} network c m s s' :
  contract c = Some pinned_contract →
  load network c m s = (s', Ret tt) ↔
  m ≠ "" ∧ encodable m = true ∧
  ∃ r1 r2 ids,
    network (length s) (get_request (base_url c +:+ load_path m)) = Ret r1 ∧ reports_healthy r1 ∧
    network (S (length s)) (get_request (base_url c +:+ "/running")) = Ret r2 ∧ lists_running r2 ids ∧ m ∈ ids ∧
    s' = s ++ [(get_request (base_url c +:+ load_path m), Ret r1); (get_request (base_url c +:+ "/running"), Ret r2)].
Proof.
  intros Hc. unfold load, contract_. rewrite Hc. cbn [of_option]. unfold mbind at 1, pym_bind at 1, lift at 1. cbn [load_request_of pinned_contract]. rewrite load_request_run.
  destruct (String.eqb m "") eqn:Em; [apply String.eqb_eq in Em; split; [done|by intros [? _]]|]. apply String.eqb_neq in Em.
  destruct (encodable m) eqn:Ee; [|split; [done|by intros (_ & ? & _)]].
  unfold mbind at 1, pym_bind at 1, lift at 1. cbn [protocol_checked]. unfold mbind at 1, pym_bind at 1, transported, catch. rewrite exchange_run.
  change (request_of c _) with (get_request (base_url c +:+ load_path m)).
  destruct (network (length s) _) as [r1|e].
  2:{ split; [by destruct e|]. intros (_ & _ & r1 & r2 & ids & ? & _). done. }
  unfold mbind at 1, pym_bind at 1, lift at 1, success. destruct (_ && _) eqn:E; cbn [negb raise_if].
  2:{ split; [done|]. intros (_ & _ & r1' & r2 & ids & [= <-] & [Hs _] & _). rewrite Hs in E. done. }
  unfold mbind at 1, pym_bind at 1, lift at 1, validate_response. cbn [validate_load pinned_contract]. fold (seen_by_validator r1).
  destruct (protocol_checked _ _) as [[]|e] eqn:Ep.
  2:{ split; [done|]. intros (_ & _ & r1' & r2 & ids & [= <-] & Hh & _). apply validate_load_exact in Hh. rewrite Hh in Ep. done. }
  apply protocol_checked_ret, validate_load_exact in Ep. unfold mbind at 1, pym_bind at 1.
  destruct (running network c _) as [s2 [ids|e]] eqn:Er.
  - apply running_listed in Er as (r2 & Hn & Hl & ->); [|done]. rewrite length_snoc in Hn.
    case_bool_decide as Hin.
    + split; [|intros (_ & _ & r1' & r2' & ids' & [= <-] & _ & Hn' & _ & _ & ->); rewrite Hn in Hn'; injection Hn' as <-; by rewrite <-app_assoc].
      intros [= <-]. split_and!; [done|done|]. exists r1, r2, ids. split_and!; try done. by rewrite <-app_assoc.
    + split; [done|]. intros (_ & _ & r1' & r2' & ids' & _ & _ & Hn' & Hl' & Hin' & _). exfalso. rewrite Hn in Hn'. injection Hn' as <-.
      destruct Hl as [_ Hl], Hl' as [_ Hl']. rewrite Hl in Hl'. by injection Hl' as <-.
  - split; [done|]. intros (_ & _ & r1' & r2' & ids' & [= <-] & _ & Hn' & Hl' & _). exfalso.
    assert (running network c (s ++ [(get_request (base_url c +:+ load_path m), Ret r1)]) = ((s ++ [(get_request (base_url c +:+ load_path m), Ret r1)]) ++ [(get_request (base_url c +:+ "/running"), Ret r2')], Ret ids')) as Hx.
    { apply running_listed; [done|]. exists r2'. by rewrite length_snoc. }
    rewrite Hx in Er. done.
Qed.

(** Two models never share a load path, and a path has exactly three segments. *)
Lemma append_inj_l a x y : a +:+ x = a +:+ y → x = y.
Proof. induction a as [|c a IH]; [done|]. cbn. intros [= E]. by apply IH. Qed.
Lemma split_slash_segment l acc rest : Forall (fun c => code c ≠ 47) l → split_slash acc (l ++ rest) = split_slash (rev l ++ acc) rest.
Proof.
  revert acc. induction l as [|c l IH]; intros acc Hl; [done|]. apply Forall_cons in Hl as [Hc Hl]. cbn [app split_slash]. rewrite (proj2 (Z.eqb_neq _ _) Hc).
  rewrite IH by done. cbn [rev]. by rewrite <-app_assoc.
Qed.

Lemma quote_no_slash m : Forall (fun c => code c ≠ 47) (chars (quote_all m)).
Proof.
  apply Forall_forall. intros c Hc E. pose proof (segment_has 47 m ltac:(vm_compute; reflexivity) ltac:(lia)) as Hs. unfold has_char in Hs.
  assert (existsb (fun c => code c =? 47) (chars (quote_all m)) = true) as Ht; [|by rewrite Ht in Hs].
  apply existsb_exists. exists c. split; [by apply list_elem_of_In|by apply Z.eqb_eq].
Qed.

(** Whatever characters a model id has, its load request addresses that
    model's own path: the id stays one path segment, with no query or fragment,
    and two ids never share a path. *)
Theorem load_path_confined m :
  path_parts (load_path m) = [""; "upstream"; quote_all m; "health"] ∧ has_char 63 (load_path m) = false ∧ has_char 35 (load_path m) = false ∧
  ∀ m', load_path m' = load_path m → m' = m.
Proof.
  split_and!.
  - unfold path_parts, load_path. rewrite !chars_app. cbn [chars String.list_ascii_of_string app split_slash code]. 
    change (split_slash [] (chars "/upstream/" ++ chars (quote_all m) ++ chars "/health") = [""; "upstream"; quote_all m; "health"]).
    change (split_slash [] (chars "/upstream/" ++ chars (quote_all m) ++ chars "/health")) with ("" :: "upstream" :: split_slash [] (chars (quote_all m) ++ chars "/health")).
    rewrite split_slash_segment by apply quote_no_slash. rewrite app_nil_r.
    change (split_slash (rev (chars (quote_all m))) (chars "/health")) with [String.string_of_list_ascii (rev (rev (chars (quote_all m)))); "health"].
    rewrite rev_involutive. unfold chars. by rewrite String.string_of_list_ascii_of_string.
  - unfold load_path. by rewrite !has_char_app, segment_has by (vm_compute; done).
  - unfold load_path. by rewrite !has_char_app, segment_has by (vm_compute; done).
  - intros m' E%append_inj_l. apply quote_inj. assert (chars (quote_all m' +:+ "/health") = chars (quote_all m +:+ "/health")) as Ec by (by rewrite E).
    rewrite !chars_app in Ec. apply app_inv_tail in Ec. rewrite <-(String.string_of_list_ascii_of_string (quote_all m')), <-(String.string_of_list_ascii_of_string (quote_all m)).
    unfold chars in Ec. by rewrite Ec.
Qed.

(** *** A concrete exchange *)
Definition demo_json (s : string) : HttpResponse := {| http_status := 200; http_content_type := Some "Application/JSON; charset=utf-8"; http_body := s |}.
Definition demo_network (_ : nat) (r : HttpRequest) : outcome HttpResponse :=
  if String.eqb (http_url r) "http://127.0.0.1:9/running"
  then Ret (demo_json ("{" +:+ quoted "running" +:+ ":[{" +:+ quoted "model" +:+ ":" +:+ quoted "a/b" +:+ "," +:+ quoted "state" +:+ ":1,"
                       +:+ quoted "proxy" +:+ ":1}]}"))
  else Ret (demo_json ("{" +:+ quoted "status" +:+ ":" +:+ quoted "ok" +:+ "}")).
Definition demo_client : LlamaSwapClient := make_client "http://127.0.0.1:9/" (Some (@pinned_contract ascii_codecs)).

Example demo_load_url : http_url ∘ fst <$> (@load ascii_codecs demo_network demo_client "a/b" []).1
  = ["http://127.0.0.1:9/upstream/a%2Fb/health"; "http://127.0.0.1:9/running"].
Proof. vm_compute. reflexivity. Qed.
Example demo_unload_refused : (@unload ascii_codecs demo_network demo_client "a" []).2 = Raise (LlamaSwapProtocolError "invalid fixed llama-swap unload response").
Proof. vm_compute. reflexivity. Qed.

Lemma control_load_exact_witness : ∃ s', @load ascii_codecs demo_network demo_client "a/b" [] = (s', Ret tt) ∧
  ∃ r1, demo_network 0 (get_request (base_url demo_client +:+ load_path "a/b")) = Ret r1 ∧ @reports_healthy ascii_codecs r1.
Proof.
  assert ((@load ascii_codecs demo_network demo_client "a/b" []).2 = Ret tt) as Hr by (vm_compute; reflexivity).
  destruct (@load ascii_codecs demo_network demo_client "a/b" []) as [s' r] eqn:E. cbn [snd] in Hr. subst r. exists s'. split; [reflexivity|].
  apply (control_load_exact demo_network demo_client "a/b" [] s' eq_refl) in E as (_ & _ & r1 & r2 & ids & H1 & H2 & _). exists r1. split; [exact H1|exact H2].
Defined.
