(* ===== verification/Lifecycle.v ===== *)
(** * Verified lifecycle backends

    [model_scheduler/backend_control.py]: [LlamaSwapBackend], the earlier backend
    over container names and ports, and [ManagedLifecycle], the bridge that drives
    an adapter and believes only the independent observer.  The adapter is an
    interface; clocks, adapters and the observed world answer by the number of
    calls made before ([ml_step]).  The two polling loops run on fuel: [None] is a
    loop that is still polling, and [managed_stop_returns] bounds the fuel. *)

From S2P Require Import Prelude Text Dict Contracts Registration JsonText Protocol Ports Observer Env Registry RegistryFacts Scheduler ObserverProps.
Local Open Scope Z_scope.

(** [except Exception]: a cancellation passes through. *)
Definition is_exception (e : exn) : bool := match e with CancelledError | PowerLoss => false | _ => true end.
Definition attempt {A} (o : outcome A) : outcome (option A) :=
  match o with
  | Ret a => Ret (Some a)
  | Raise e => if is_exception e then Ret None else Raise e
  end.
Definition unknown (now : time) (detail : string) : Contracts.Observation := seen_v1 now P_UNKNOWN None false (Some detail).

(** ** The earlier backend *)
Record ManagedModel := { mm_container_name : string; mm_port : Z }.
Section Earlier.
Context (models : dict string ManagedModel) (observer : string → string → Z → outcome Contracts.Observation).

Definition lsb_observe (stamp : time) (model_id : string) : outcome Contracts.Observation :=
  match models !! model_id with
  | None => Ret (unknown stamp "unknown_model")
  | Some m =>
      seen ← attempt (observer model_id (mm_container_name m) (mm_port m));
      Ret (match seen with Some ob => ob | None => unknown stamp "observation_failed" end)
  end.
(** [_control_then_observe]; [control] is the answer of the control call within
    the time left, a timeout included; [now] is the loop's clock, [stamp] the
    reading an observation is dated with. *)
Definition control_then_observe (action : string) (control : string → outcome unit) (now stamp deadline : time) (model_id : string) : outcome Contracts.Observation :=
  if deadline - now <=? 0 then Ret (unknown stamp ("control_" +:+ action +:+ "_timeout"))
  else
    done ← attempt (control model_id);
    match done with
    | None => Ret (unknown stamp ("control_" +:+ action +:+ "_failed"))
    | Some _ => lsb_observe stamp model_id
    end.
Definition lsb_load (control : string → outcome unit) (now stamp deadline : time) (op : Operation) := control_then_observe "load" control now stamp deadline (op_model_id op).
Definition lsb_stop (control : string → outcome unit) (now stamp deadline : time) (op : Operation) := control_then_observe "unload" control now stamp deadline (op_model_id op).
End Earlier.

(** ** The managed lifecycle *)

(** What the lifecycle asks of a runtime's adapter ([BackendPort]); not every
    adapter can release a model by name. *)
Record Adapter := {
  ad_load : nat → string → Fence → time → outcome Ports.Observation;
  ad_stop : nat → InstanceIdentity → Fence → time → outcome unit;
  ad_release : option (nat → string → outcome unit);
}.
Record ManagedLifecycle := {
  ml_boot_id : string;
  ml_deployment_id : string;
  ml_specs : list string;
  ml_adapter_for : string → outcome Adapter;
  ml_observers : dict string DockerProcessObserver;
  ml_verify_seconds : time;
}.
(** The stop commands given to an adapter; [ml_stops] has each with the number of its call. *)
Inductive StopCommand :=
| StopInstance (i : InstanceIdentity) (f : Fence)
| ReleaseModel (model_id : string).
Record Bridge := { ml_instances : dict string InstanceIdentity; ml_step : nat; ml_stops : list (nat * StopCommand) }.
Definition make_lifecycle (l : ManagedLifecycle) (poll_seconds : time) : outcome ManagedLifecycle :=
  if String.eqb (ml_boot_id l) "" || String.eqb (ml_deployment_id l) "" || (poll_seconds <=? 0) || (ml_verify_seconds l <=? 0)
  then Raise (ValueError "a managed lifecycle needs a boot, a deployment and a positive poll interval") else Ret l.
Definition instance (b : Bridge) (model_id : string) : option InstanceIdentity := ml_instances b !! model_id.
Definition fence (l : ManagedLifecycle) (model_id : string) (generation : Z) (operation_id : string) : Fence :=
  {| f_boot_id := ml_boot_id l; f_model_id := model_id; f_generation := generation; f_operation_id := operation_id;
     f_execution_id := None; f_attempt := None |}.

Section Managed.
Context (l : ManagedLifecycle) (world : nat → World) (clock : nat → time).

(** One call of the environment. *)
Definition call {A} (f : nat → A) : pym Bridge A :=
  b ← get; modify (fun b => {| ml_instances := ml_instances b; ml_step := S (ml_step b); ml_stops := ml_stops b |});; mret (f (ml_step b)).
Definition put_instances (d : dict string InstanceIdentity) : pym Bridge unit := modify (fun b => {| ml_instances := d; ml_step := ml_step b; ml_stops := ml_stops b |}).

(** One stop command. *)
Definition command {A} (c : StopCommand) (f : nat → A) : pym Bridge A :=
  b ← get;
  modify (fun b => {| ml_instances := ml_instances b; ml_step := S (ml_step b); ml_stops := ml_stops b ++ [(ml_step b, c)] |});;
  mret (f (ml_step b)).

(** [_observe] *)
Definition observe_once (model_id : string) (identity : option InstanceIdentity) (deadline : time) : pym Bridge (option Ports.Observation) :=
  match ml_observers l !! model_id with
  | None => mret None
  | Some o =>
      target ← lift (make_target {| target_deployment_id := ml_deployment_id l; target_container_id := container_id <$> identity;
                                    target_process_group_id := None |});
      answer ← call (fun n => observe o (world n) target deadline);
      lift (attempt answer)
  end.
Definition managed_observe (model_id : string) (deadline : time) : pym Bridge (option Ports.Observation) :=
  b ← get; observe_once model_id (instance b model_id) deadline.

(** A polling loop: sample until a verdict or the end of the window. *)
Fixpoint poll (fuel : nat) (verdict : option Ports.Observation → bool) (model_id : string) (identity : option InstanceIdentity) (deadline window : time)
    : pym Bridge (option (option Ports.Observation)) :=
  match fuel with
  | O => mret None
  | S fuel =>
      last ← observe_once model_id identity deadline;
      if verdict last then mret (Some last)
      else
        now ← call clock;
        if window <=? now then mret (Some last)
        else call (fun _ => tt);; poll fuel verdict model_id identity deadline window
  end.
Definition in_state (s : ObservationState) (o : option Ports.Observation) : bool :=
  match o with Some ob => bool_decide (ob_state ob = s) | None => false end.
Definition running_verdict (o : option Ports.Observation) : bool :=
  match o with
  | Some ob => (bool_decide (ob_state ob = obs_running) && bool_decide (is_Some (ob_instance ob))) || bool_decide (ob_state ob = obs_stopped)
  | None => false
  end.
Definition verify_running (fuel : nat) (model_id : string) (identity : option InstanceIdentity) (deadline : time) : pym Bridge (option (option Ports.Observation)) :=
  now ← call clock;
  poll fuel running_verdict model_id identity deadline (Z.min deadline (now + ml_verify_seconds l)).
Definition poll_stopped (fuel : nat) (model_id : string) (identity : option InstanceIdentity) (deadline : time) : pym Bridge (option (option Ports.Observation)) :=
  poll fuel (fun o => in_state obs_stopped o || in_state obs_running o) model_id identity deadline deadline.

Definition now_unknown (detail : string) : pym Bridge (option Contracts.Observation) := t ← call clock; mret (Some (unknown t detail)).

Definition managed_load (fuel : nat) (op : Operation) (deadline : time) : pym Bridge (option Contracts.Observation) :=
  let m := op_model_id op in
  adapter ← lift (ml_adapter_for l m);
  answer ← call (fun n => if bool_decide (m ∈ ml_specs l) then ad_load adapter n m (fence l m (op_generation op) (op_operation_id op)) deadline
                          else Raise (KeyError m));
  verified ← lift (attempt answer);
  match verified with
  | None => now_unknown "load_failed"
  | Some v =>
      if negb (bool_decide (ob_state v = obs_running)) then now_unknown "load_unverified"
      else
        polled ← verify_running fuel m (ob_instance v) deadline;
        match polled with
        | None => mret None
        | Some (Some ob) =>
            match ob_state ob, ob_instance ob with
            | obs_running, Some i =>
                b ← get;
                put_instances (<[m := i]> (ml_instances b));;
                mret (Some (seen_v1 (ob_sampled_at ob) P_RUNNING (Some (container_id i +:+ ":" +:+ started_at i)) true None))
            | _, _ => now_unknown "instance_unverified"
            end
        | Some None => now_unknown "instance_unverified"
        end
  end.

(** The control call of a stop: its answer proves nothing. *)
Definition send_stop (adapter : Adapter) (op : Operation) (identity : option InstanceIdentity) (deadline : time) : pym Bridge unit :=
  let m := op_model_id op in
  match identity with
  | Some i =>
      let f := fence l m (op_generation op) (op_operation_id op) in
      answer ← command (StopInstance i f) (fun n => ad_stop adapter n i f deadline); lift (_ ← attempt answer; Ret tt)
  | None =>
      match ad_release adapter with
      | Some release => answer ← command (ReleaseModel m) (fun n => release n m); lift (_ ← attempt answer; Ret tt)
      | None => mret tt
      end
  end.
Definition managed_stop (fuel : nat) (op : Operation) (deadline : time) : pym Bridge (option Contracts.Observation) :=
  let m := op_model_id op in
  b ← get;
  let identity := instance b m in
  adapter ← lift (ml_adapter_for l m);
  _ ← send_stop adapter op identity deadline;
  polled ← poll_stopped fuel m identity deadline;
  match polled with
  | None => mret None
  | Some (Some ob) =>
      match ob_state ob with
      | obs_stopped =>
          b ← get;
          put_instances (delete m (ml_instances b));;
          mret (Some (seen_v1 (ob_sampled_at ob) P_STOPPED None false None))
      | obs_running => mret (Some (seen_v1 (ob_sampled_at ob) P_RUNNING None true (Some "stop_unverified")))
      | obs_unknown => now_unknown "stop_unverified"
      end
  | Some None => now_unknown "stop_unverified"
  end.
End Managed.

(** ** Theorems on the managed lifecycle: a load or a stop moves the instance
    record, and so the books, only on the evidence of the independent observer. *)
Section Managed.
Context (l : ManagedLifecycle) (world : nat → World) (clock : nat → time).

(** What an observation of one model is aimed at. *)
Definition aim (identity : option InstanceIdentity) : ObservationTarget :=
  {| target_deployment_id := ml_deployment_id l; target_container_id := container_id <$> identity; target_process_group_id := None |}.
(** Between two states the world was sampled and gave this observation. *)
Definition sampled (m : string) (identity : option InstanceIdentity) (deadline : time) (b b' : Bridge) (ob : Ports.Observation) : Prop :=
  ∃ o n, ml_observers l !! m = Some o ∧ (ml_step b ≤ n < ml_step b')%nat ∧ observe o (world n) (aim identity) deadline = Ret ob.

Lemma call_run {A} (f : nat → A) b : call f b = ({| ml_instances := ml_instances b; ml_step := S (ml_step b); ml_stops := ml_stops b |}, Ret (f (ml_step b))).
Proof. done. Qed.
Lemma attempt_some {A} (o : outcome A) a : attempt o = Ret (Some a) → o = Ret a.
Proof. destruct o as [x|e]; [by intros [= ->]|]. unfold attempt. by destruct (is_exception e). Qed.

Lemma observe_once_ok m identity deadline b b' r : observe_once l world m identity deadline b = (b', r) →
  (ml_instances b' = ml_instances b ∧ ml_stops b' = ml_stops b) ∧ (ml_step b ≤ ml_step b')%nat ∧ ∀ ob, r = Ret (Some ob) → sampled m identity deadline b b' ob.
Proof.
  unfold observe_once. destruct (ml_observers l !! m) as [o|] eqn:Eo; [|intros [= <- <-]; done].
  unfold mbind at 1, pym_bind at 1, lift at 1. destruct (make_target _) as [t|e] eqn:Et; [|intros [= <- <-]; done].
  assert (t = aim identity) as ->.
  { unfold make_target in Et. destruct (check_identifier _); [|done]. cbn [mbind outcome_bind] in Et. destruct (match _ with Some c => _ | None => _ end); [|done].
    cbn in Et. by injection Et as <-. }
  unfold mbind at 1, pym_bind at 1. rewrite call_run. unfold lift. intros [= <- <-]. cbn [ml_instances ml_step ml_stops]. split; [done|]. split; [lia|].
  intros ob Ha%attempt_some. exists o, (ml_step b). split_and!; [done|lia|cbn; lia|done].
Qed.
Lemma sampled_mono m identity deadline b0 b b' b1 ob :
  (ml_step b0 ≤ ml_step b)%nat → (ml_step b' ≤ ml_step b1)%nat → sampled m identity deadline b b' ob → sampled m identity deadline b0 b1 ob.
Proof. intros H0 H1 (o & n & Ho & Hn & Hob). exists o, n. split_and!; [done|lia|lia|done]. Qed.

Lemma poll_ok fuel verdict m identity deadline window : ∀ b b' r, poll l world clock fuel verdict m identity deadline window b = (b', r) →
  (ml_instances b' = ml_instances b ∧ ml_stops b' = ml_stops b) ∧ (ml_step b ≤ ml_step b')%nat ∧
  ∀ ob, r = Ret (Some (Some ob)) → sampled m identity deadline b b' ob.
Proof.
  induction fuel as [|fuel IH]; intros b b' r E; cbn [poll] in E; [by injection E as <- <-|].
  unfold mbind at 1, pym_bind at 1 in E. destruct (observe_once l world m identity deadline b) as [b1 o] eqn:E1. apply observe_once_ok in E1 as (I1 & S1 & K1).
  destruct o as [last|e]; [|by injection E as <- <-].
  destruct (verdict last); [injection E as <- <-; split; [done|]; split; [done|]; intros ob [= ->]; by apply K1|].
  unfold mbind at 1, pym_bind at 1 in E. rewrite call_run in E. destruct (window <=? clock (ml_step b1)).
  - injection E as <- <-. cbn [ml_instances ml_step ml_stops]. split; [done|]. split; [lia|]. intros ob [= ->]. eapply sampled_mono, K1; [done|cbn; lia|done].
  - unfold mbind at 1, pym_bind at 1 in E. rewrite call_run in E. apply IH in E as (I2 & S2 & K2). cbn [ml_instances ml_step ml_stops] in *.
    split; [destruct I1, I2; split; congruence|]. split; [lia|]. intros ob Hr. eapply sampled_mono, K2; [cbn; lia|done|done].
Qed.

(** The loop ends once the clock has passed the end of its window. *)
Lemma poll_returns fuel verdict m identity deadline window n0 : (∀ k, (n0 ≤ k)%nat → window ≤ clock k) → ∀ b,
  (0 < fuel)%nat → (n0 < ml_step b + fuel)%nat → (poll l world clock fuel verdict m identity deadline window b).2 ≠ Ret None.
Proof.
  intros Hclock. induction fuel as [|fuel IH]; intros b Hf Hn; [lia|]. cbn [poll]. unfold mbind at 1, pym_bind at 1.
  destruct (observe_once l world m identity deadline b) as [b1 o] eqn:E1. apply observe_once_ok in E1 as (_ & S1 & _). destruct o as [last|e]; [|done].
  destruct (verdict last); [done|]. unfold mbind at 1, pym_bind at 1. rewrite call_run. destruct (window <=? clock (ml_step b1)) eqn:Ew; [done|].
  unfold mbind at 1, pym_bind at 1. rewrite call_run. apply Z.leb_gt in Ew.
  assert (ml_step b1 < n0)%nat as Hlt. { destruct (decide (n0 ≤ ml_step b1)%nat) as [Hle|]; [specialize (Hclock _ Hle); lia|lia]. }
  apply IH; cbn [ml_step]; lia.
Qed.

Lemma now_unknown_run detail b : now_unknown clock detail b = ({| ml_instances := ml_instances b; ml_step := S (ml_step b); ml_stops := ml_stops b |}, Ret (Some (unknown (clock (ml_step b)) detail))).
Proof. done. Qed.

(** The command a stop owes the adapter: a stop of the recorded instance under the
    operation's fence; without one a release by name, where the adapter has it. *)
Definition stop_command (adapter : Adapter) (op : Operation) (identity : option InstanceIdentity) : option StopCommand :=
  match identity, ad_release adapter with
  | Some i, _ => Some (StopInstance i (fence l (op_model_id op) (op_generation op) (op_operation_id op)))
  | None, Some _ => Some (ReleaseModel (op_model_id op))
  | None, None => None
  end.
Definition sent (c : option StopCommand) (b b' : Bridge) : Prop :=
  ml_stops b' = ml_stops b ++ match c with Some c => [(ml_step b, c)] | None => [] end.

Lemma send_stop_ok adapter op identity deadline b b' r : send_stop l adapter op identity deadline b = (b', r) →
  ml_instances b' = ml_instances b ∧ (ml_step b ≤ ml_step b')%nat ∧ sent (stop_command adapter op identity) b b' ∧
  (is_Some (stop_command adapter op identity) → ml_step b < ml_step b')%nat.
Proof.
  unfold send_stop, stop_command, sent.
  destruct identity as [i|]; [|destruct (ad_release adapter) as [release|]; [|intros [= <- _]; rewrite app_nil_r; split_and!; [done|lia|done|by intros []]]];
    intros E; injection E as <- _; cbn; (split_and!; [done|lia|done|intros _; lia]).
Qed.
End Managed.

(** A managed load answers RUNNING only when the independent observer, asked
    after the adapter's answer, found the one running container of the model with
    its port listening; that container becomes the model's recorded instance.
    Every other answer is UNKNOWN and leaves the record as it was. *)
Theorem managed_load_verified l world clock fuel op deadline b b' r :
  managed_load l world clock fuel op deadline b = (b', r) →
  (∃ ob i o n v, r = Ret (Some ob) ∧ obs_presence ob = P_RUNNING ∧ obs_healthy ob = true ∧
     ml_observers l !! op_model_id op = Some o ∧ (ml_step b ≤ n < ml_step b')%nat ∧
     (∃ identity, run_evidence o (world n) (aim l identity) deadline v) ∧ ob_instance v = Some i ∧
     obs_instance_id ob = Some (container_id i +:+ ":" +:+ started_at i) ∧ ml_instances b' = <[op_model_id op := i]> (ml_instances b)) ∨
  (ml_instances b' = ml_instances b ∧ ∀ ob, r = Ret (Some ob) → obs_presence ob = P_UNKNOWN).
Proof.
  unfold managed_load. unfold mbind at 1, pym_bind at 1, lift at 1. intros E. destruct (ml_adapter_for l (op_model_id op)) as [adapter|e]; [|injection E as <- <-; by right].
  unfold mbind at 1, pym_bind at 1 in E. rewrite call_run in E. unfold mbind at 1, pym_bind at 1, lift at 1 in E.
  destruct (attempt _) as [verified|e]; [|injection E as <- <-; by right].
  destruct verified as [v0|]; [|rewrite now_unknown_run in E; injection E as <- <-; right; split; [done|by intros ob [= <-]]].
  destruct (negb _); [rewrite now_unknown_run in E; injection E as <- <-; right; split; [done|by intros ob [= <-]]|].
  unfold mbind at 1, pym_bind at 1, verify_running in E. unfold mbind at 1, pym_bind at 1 in E. rewrite call_run in E.
  destruct (poll _ _ _ _ _ _ _ _ _ _) as [b2 o] eqn:Ep. apply poll_ok in Ep as ([I _] & S & K). cbn [ml_instances ml_step] in I, S.
  destruct o as [[[v|]|]|e]; [|rewrite now_unknown_run in E; injection E as <- <-; right; split; [done|by intros ob [= <-]]|injection E as <- <-; by right|injection E as <- <-; by right].
  destruct (K v eq_refl) as (o & n & Ho & Hn & Hob). cbn [ml_step] in Hn.
  destruct (ob_state v) eqn:Ev; [|rewrite now_unknown_run in E; injection E as <- <-; right; split; [done|by intros ob [= <-]]..].
  destruct (ob_instance v) as [i|] eqn:Ei; [|rewrite now_unknown_run in E; injection E as <- <-; right; split; [done|by intros ob [= <-]]].
  unfold mbind at 1, pym_bind at 1, get at 1 in E. unfold mbind at 1, pym_bind at 1, put_instances, modify in E. injection E as <- <-.
  left. eexists _, i, o, n, v. cbn [ml_step ml_instances]. rewrite I. split_and!; [done|done|done|done|lia|lia| |done|done|done].
  exists (ob_instance v0). by apply running_exact.
Qed.

(** What proves a stop: the command was sent first, then the four facts were
    sampled for the instance recorded at the start; the record is cleared. *)
Definition stop_proved (l : ManagedLifecycle) (world : nat → World) (op : Operation) (deadline : time) (b b' : Bridge) : Prop :=
  ∃ adapter o n v, ml_adapter_for l (op_model_id op) = Ret adapter ∧ ml_observers l !! op_model_id op = Some o ∧
    sent (stop_command l adapter op (instance b (op_model_id op))) b b' ∧
    (ml_step b ≤ n < ml_step b')%nat ∧ (is_Some (stop_command l adapter op (instance b (op_model_id op))) → ml_step b < n)%nat ∧
    stop_evidence o (world n) (aim l (instance b (op_model_id op))) deadline v ∧ ml_instances b' = delete (op_model_id op) (ml_instances b).
Lemma managed_stop_cases l world clock fuel op deadline b b' r :
  managed_stop l world clock fuel op deadline b = (b', r) →
  ((∃ ob, r = Ret (Some ob) ∧ obs_presence ob = P_STOPPED) ∧ stop_proved l world op deadline b b') ∨
  (ml_instances b' = ml_instances b ∧ ∀ ob, r = Ret (Some ob) → obs_presence ob ≠ P_STOPPED ∧ obs_detail_code ob = Some "stop_unverified").
Proof.
  unfold managed_stop. unfold mbind at 1, pym_bind at 1, get at 1. unfold mbind at 1, pym_bind at 1, lift at 1. intros E.
  destruct (ml_adapter_for l (op_model_id op)) as [adapter|e] eqn:Ha; [|injection E as <- <-; by right].
  unfold mbind at 1, pym_bind at 1 in E. destruct (send_stop _ _ _ _ _ _) as [b1 o1] eqn:Es. apply send_stop_ok in Es as (I1 & S1 & C1 & L1).
  destruct o1 as [[]|e]; [|injection E as <- <-; by right].
  unfold mbind at 1, pym_bind at 1, poll_stopped in E. destruct (poll _ _ _ _ _ _ _ _ _ _) as [b2 o] eqn:Ep. apply poll_ok in Ep as ([I C] & S & K). rewrite I1 in I.
  destruct o as [[[v|]|]|e]; [|rewrite now_unknown_run in E; injection E as <- <-; right; split; [done|by intros ob [= <-]]|injection E as <- <-; by right|injection E as <- <-; by right].
  destruct (K v eq_refl) as (o & n & Ho & Hn & Hob).
  destruct (ob_state v) eqn:Ev; [injection E as <- <-; right; split; [done|by intros ob [= <-]]| |rewrite now_unknown_run in E; injection E as <- <-; right; split; [done|by intros ob [= <-]]].
  unfold mbind at 1, pym_bind at 1, get at 1 in E. unfold mbind at 1, pym_bind at 1, put_instances, modify in E. injection E as <- <-.
  left. split; [by eexists|]. exists adapter, o, n, v. cbn [ml_step ml_instances]. rewrite I. unfold sent in *. cbn [ml_stops]. rewrite C.
  split_and!; try done; [lia|lia| |by apply stopped_exact]. intros Hs. specialize (L1 Hs). lia.
Qed.

(** What the scheduler's task is handed by the awaited stop. *)
Definition awaited (r : outcome (option Contracts.Observation)) : option BackendResult :=
  match r with
  | Ret (Some ob) => Some (Observed ob)
  | Ret None => None
  | Raise CancelledError => Some Cancelled
  | Raise _ => Some Raised
  end.

(** C15: a managed stop answers STOPPED only when exactly one command went to the
    model's adapter (a stop of the recorded instance under the operation's fence,
    or, with no instance recorded, a release by name; an adapter without release
    gets none) and the independent observer, asked in a later call than the command,
    proved the four stop facts for the recorded instance; only then is the record
    cleared, and only then does the scheduler's stop section book the model as
    stopped.  An acknowledged command with a running container proves nothing: every
    other answer keeps the record and carries [stop_unverified]. *)
Theorem managed_stop_proven `{!PyEnv} l world clock fuel op deadline b b' r :
  managed_stop l world clock fuel op deadline b = (b', r) →
  (((∃ ob, r = Ret (Some ob) ∧ obs_presence ob = P_STOPPED) ∧ stop_proved l world op deadline b b') ∨
   (ml_instances b' = ml_instances b ∧ ∀ ob, r = Ret (Some ob) → obs_presence ob ≠ P_STOPPED ∧ obs_detail_code ob = Some "stop_unverified")) ∧
  ∀ res rest now s s', awaited r = Some res → finish_eviction_step op rest res now s = (s', Ret (StopNext true)) →
    stop_proved l world op deadline b b'.
Proof.
  intros E. pose proof (managed_stop_cases _ _ _ _ _ _ _ _ _ E) as Hcases. split; [exact Hcases|]. intros res rest now s s' Ha Hf.
  destruct Hcases as [[_ Hp]|[_ Hno]]; [exact Hp|exfalso].
  destruct r as [[ob|]|e]; [|done|].
  - injection Ha as <-. destruct (Hno ob eq_refl) as [Hp _]. unfold finish_eviction_step in Hf. rewrite bool_decide_eq_false_2 in Hf by done.
    unfold mbind, pym_bind in Hf.
    destruct (on_book _ s) as [s1 [?|?]]; [|done]. destruct (rollback_pending rest s1) as [s2 [?|?]]; done.
  - destruct e; injection Ha as <-; unfold finish_eviction_step, mbind, pym_bind in Hf;
      (destruct (on_book _ s) as [s1 [?|?]]; [|done]; destruct (rollback_pending rest s1) as [s2 [?|?]]; done).
Qed.

(** The wait for a stop ends: once the clock has passed the deadline, and the
    loop was given as many turns as calls before that, the stop has an answer. *)
Theorem managed_stop_returns l world clock op deadline b n fuel :
  (∀ k, (n ≤ k)%nat → deadline ≤ clock k) → (0 < fuel)%nat → (n < ml_step b + fuel)%nat →
  (managed_stop l world clock fuel op deadline b).2 ≠ Ret None.
Proof.
  intros Hc Hf Hn. unfold managed_stop. unfold mbind at 1, pym_bind at 1, get at 1. unfold mbind at 1, pym_bind at 1, lift at 1.
  destruct (ml_adapter_for l (op_model_id op)) as [adapter|e]; [|done]. unfold mbind at 1, pym_bind at 1.
  destruct (send_stop _ _ _ _ _ _) as [b1 o1] eqn:Es. apply send_stop_ok in Es as (_ & S1 & _). destruct o1 as [[]|e]; [|done].
  unfold mbind at 1, pym_bind at 1, poll_stopped.
  pose proof (poll_returns l world clock fuel (fun o => in_state obs_stopped o || in_state obs_running o) (op_model_id op) (instance b (op_model_id op)) deadline deadline n Hc b1 Hf ltac:(lia)) as Hp.
  destruct (poll _ _ _ _ _ _ _ _ _ _) as [b2 [[[v|]|]|e]]; [by destruct (ob_state v)|done|done|done].
Qed.

(** *** A concrete lifecycle: the model of [demo_observer] is loaded and, although
    the adapter's stop fails, later seen stopped. *)
Definition demo_adapter : Adapter := {|
  ad_load := fun n _ _ _ => Ret (observation (demo_world "c1" 0 port_listening) obs_running port_listening sub_running None None);
  ad_stop := fun _ _ _ _ => Raise (OSError "connection refused");
  ad_release := None;
|}.
Definition demo_lifecycle : ManagedLifecycle := {|
  ml_boot_id := "boot"; ml_deployment_id := "lab"; ml_specs := ["m"]; ml_adapter_for := fun _ => Ret demo_adapter;
  ml_observers := Dict [("m", demo_observer)]; ml_verify_seconds := 3;
|}.
Definition demo_life (n : nat) : World := if (n <? 4)%nat then demo_world "c1" 0 port_listening else if (n <? 7)%nat then demo_world "" 0 port_listening else demo_world "" 0 port_closed.
Definition demo_operation : Operation := {| op_operation_id := "op"; op_model_id := "m"; op_generation := 1; op_epoch := 0 |}.
Definition demo_bridge : Bridge := {| ml_instances := Dict []; ml_step := 0; ml_stops := [] |}.
Local Notation demo_loaded := (managed_load demo_lifecycle demo_life (fun n => Z.of_nat n) 4 demo_operation 10 demo_bridge).
Definition demo_running_bridge : Bridge := Eval vm_compute in demo_loaded.1.
Local Notation demo_stopping := (managed_stop demo_lifecycle demo_life (fun n => Z.of_nat n) 12 demo_operation 10 demo_running_bridge).

Lemma managed_load_verified_witness : ∃ b' ob, demo_loaded = (b', Ret (Some ob)) ∧ obs_presence ob = P_RUNNING ∧
  ∃ i, container_id i = "c1" ∧ ml_instances b' = <["m" := i]> (Dict []).
Proof.
  assert (∃ b' ob i, demo_loaded = (b', Ret (Some ob)) ∧ obs_presence ob = P_RUNNING ∧ ml_instances b' = Dict [("m", i)] ∧ container_id i = "c1") as (b' & ob & i & E & Hp & Hi & Hc)
    by (eexists _, _, _; vm_compute; done).
  destruct (managed_load_verified _ _ _ _ _ _ _ _ _ E) as [(ob' & i' & o & n & v & [= <-] & _ & _ & _ & _ & _ & _ & _ & Hb)|[_ Hno]].
  - exists b', ob. split_and!; [exact E|exact Hp|]. exists i'. split; [|exact Hb]. rewrite Hi in Hb. injection Hb as <-. exact Hc.
  - rewrite (Hno ob eq_refl) in Hp. discriminate Hp.
Defined.

Lemma managed_stop_proven_witness : ∃ b' ob, demo_stopping = (b', Ret (Some ob)) ∧ obs_presence ob = P_STOPPED ∧
  stop_proved demo_lifecycle demo_life demo_operation 10 demo_running_bridge b'.
Proof.
  assert (∃ b' ob, demo_stopping = (b', Ret (Some ob)) ∧ obs_presence ob = P_STOPPED) as (b' & ob & E & Hp) by (eexists _, _; vm_compute; done).
  destruct (managed_stop_proven _ _ _ _ _ _ _ _ _ E) as [[[_ Hs]|[_ Hno]] _]; [exists b', ob; split_and!; [exact E|exact Hp|exact Hs]|].
  destruct (Hno ob eq_refl) as [Hn _]. contradiction.
Defined.

Lemma managed_stop_returns_witness : (demo_stopping).2 ≠ Ret None.
Proof.
  apply (managed_stop_returns demo_lifecycle demo_life (fun n => Z.of_nat n) demo_operation 10 demo_running_bridge 10 12); [lia|lia|vm_compute; lia].
Defined.
