(* ===== verification/Adapter.v ===== *)
(** * The llama.cpp adapter

    [model_scheduler/adapters/llama_cpp.py]: one runtime and one registered model
    behind a loopback server.  The server is the [network] of [Control]; a run
    keeps the exchanges it made, the flags of the last dispatch and the results
    not yet taken.  [py_str] is Python's [str] of a decoded value. *)

From S2P Require Import Prelude Text Dict Contracts Registration JsonText Protocol Ports Observer Envelopes Control RegistrationProps.
From Stdlib Require Import Ascii QArith.
From Stdlib Require Import Ascii.
Local Open Scope Z_scope.

Definition fail_with {A} (code : string) : outcome A := Raise (AdapterError code).
Definition backend_failed : string := "backend_failed".

(** [_finite_numbers] and the score test: [math.isfinite] of an integer that no
    float can hold raises. *)
Definition finite_number (v : json) : outcome bool :=
  match v with
  | JInt n => if FLOAT_OVERFLOW <=? Z.abs n then Raise (OverflowError "int too large to convert to float") else Ret true
  | JFloat (Some _) => Ret true
  | _ => Ret false
  end.
Fixpoint all_finite_numbers (l : list json) : outcome unit :=
  match l with
  | [] => Ret tt
  | v :: l => ok ← finite_number v; if (ok : bool) then all_finite_numbers l else fail_with backend_failed
  end.
Definition finite_numbers (v : option json) : outcome nat :=
  match v with
  | Some (JList ((_ :: _) as l)) => _ ← all_finite_numbers l; Ret (length l)
  | _ => fail_with backend_failed
  end.
Definition adapter_object (v : json) : outcome (list (string * json)) := match v with JObj f => Ret f | _ => fail_with contract_violation end.

(** ** The protocol fixture *)
Definition fixture_get (v : json) (key : string) (fallback : json) : outcome json := py_get v key fallback.
(** [v or {}] *)
Definition or_empty (v : json) : json := if py_true v then v else JObj [].
Definition is_false (v : json) : bool := match v with JBool false => true | _ => false end.
Definition load_protocol_fixture (text : outcome string) : outcome json :=
  document ← match text ≫= loads plain_hooks with
             | Raise (OSError _) | Raise (ValueError _) => fail_with backend_failed
             | r => r
             end;
  version ← fixture_get document "schema_version" JNull;
  profile ← fixture_get document "profile_id" JNull;
  _ ← raise_if (negb (equals_int version 1) || negb (is_text (Some profile) GGUF_PROFILE)) (AdapterError contract_violation);
  http ← fixture_get document "http" (JObj []);
  follow ← fixture_get http "follow_redirects" JNull;
  _ ← raise_if (negb (is_false follow)) (AdapterError contract_violation);
  slots ← fixture_get document "slot_protocol" JNull;
  trusted ← fixture_get (or_empty slots) "trusted_for_device_quiescence" JNull;
  _ ← raise_if (negb (is_false trusted)) (AdapterError contract_violation);
  fallback ← fixture_get (or_empty slots) "fallback_termination" JNull;
  _ ← raise_if (negb (is_text (Some fallback) "independent_STOPPED")) (AdapterError contract_violation);
  Ret document.

(** [dict(v)]: a mapping, or an iterable of pairs *)
Definition pair_like (v : json) : outcome unit :=
  l ← iterate v;
  match l with
  | [k; _] => if hashable k then Ret tt else Raise (TypeError "unhashable type")
  | _ => Raise (ValueError "dictionary update sequence element")
  end.
Definition as_dict (v : json) : outcome unit :=
  match v with
  | JObj _ => Ret tt
  | _ => l ← iterate v; check_each l pair_like
  end.

(** ** The adapter *)
Record LlamaCppAdapter := {
  lc_model : RegisteredModelSpec;
  lc_runtime : RuntimeSpec;
  lc_base : string;
  lc_fixture : json;
  lc_control : option LlamaSwapClient;
}.
(** The constructor: the profile, the binding of the model and the fixture. *)
Definition make_adapter (runtime : RuntimeSpec) (model : RegisteredModelSpec) (url : string) (control : option LlamaSwapClient) (fixture_text : outcome string)
    : outcome LlamaCppAdapter :=
  profile ← match require_startable_profile runtime with Raise (ContractError _) => fail_with contract_violation | r => r end;
  _ ← raise_if (negb (String.eqb (profile_id profile) GGUF_PROFILE) || negb (String.eqb (rt_profile_id runtime) GGUF_PROFILE)) (AdapterError contract_violation);
  _ ← raise_if (negb (String.eqb (v2_runtime_id model) (rt_runtime_id runtime))) (AdapterError contract_violation);
  fixture ← load_protocol_fixture fixture_text;
  slots ← index_of fixture "slot_protocol";
  cost ← index_of slots "stop_reload_cost";
  _ ← as_dict cost;
  Ret {| lc_model := model; lc_runtime := runtime; lc_base := rstrip_slash url; lc_fixture := fixture; lc_control := control |}.

Record AdapterState := {
  lc_log : list Exchange;
  lc_ticks : nat;
  last_http_complete : bool;
  last_slot_idle : bool;
  lc_results : dict string string;
}.
#[export] Instance AdapterState_eta : Eta AdapterState := fun s =>
  {| lc_log := lc_log s; lc_ticks := lc_ticks s; last_http_complete := last_http_complete s; last_slot_idle := last_slot_idle s; lc_results := lc_results s |}.

Definition finite_hooks : Hooks :=
  {| on_constant := fun _ => Raise (ValueError "non-finite JSON number"); on_object := fun pairs => Ret (JObj (dict_of pairs)) |}.

Section Adapter.
Context `{Codecs} `{FloatText} (a : LlamaCppAdapter) (network : nat → HttpRequest → outcome HttpResponse) (clock : nat → time).
Context (py_str : json → string) (utc : nat → Z) (identity : nat → option InstanceIdentity).

Definition read_tick {A} (f : nat → A) : pym AdapterState A :=
  s ← get; modify (fun s => s <| lc_ticks := S (lc_ticks s) |>);; mret (f (lc_ticks s)).
Definition on_wire {A} : pym (list Exchange) A → pym AdapterState A := on_field lc_log (fun x s => s <| lc_log := x |>).

Definition endpoint (name : string) : outcome string :=
  endpoints ← index_of (lc_fixture a) "endpoints";
  entry ← index_of endpoints name;
  path ← index_of entry "path";
  Ret (lc_base a +:+ match path with JStr p => p | v => py_str v end).

(** [_send]; an upstream timeout is a [TimeoutError] of the network. *)
Definition send (method url : string) (deadline : time) (body : option json) : pym AdapterState HttpResponse :=
  now ← read_tick clock;
  if deadline - now <=? 0 then raise (AdapterError "execution_timeout")
  else
    r ← catch (on_wire (exchange network {| http_method := method; http_url := url; http_params := None; http_json := body |}))
          (fun e => match e with
                    | TimeoutError _ => Some (raise (AdapterError "execution_timeout"))
                    | HTTPError _ => Some (raise (AdapterError backend_failed))
                    | _ => None
                    end);
    if (300 <=? http_status r) && (http_status r <? 400) then raise (AdapterError backend_failed) else mret r.
(** [_json] *)
Definition decoded_body (r : HttpResponse) : outcome json :=
  match loads_bytes finite_hooks (http_body r) with
  | Raise (ValueError _) | Raise (UnicodeDecodeError _) => fail_with backend_failed
  | o => o
  end.
Definition send_json (method url : string) (deadline : time) (body : option json) : pym AdapterState (Z * json) :=
  r ← send method url deadline body;
  payload ← lift (decoded_body r);
  mret (http_status r, payload).

(** [_count_chat_tokens] *)
Definition template_prompt (answer : Z * json) : outcome string :=
  match answer with
  | (status, JObj fields) =>
      match jget "prompt" fields with Some (JStr p) => if status =? 200 then Ret p else fail_with backend_failed | _ => fail_with backend_failed end
  | _ => fail_with backend_failed
  end.
Definition token_list (answer : Z * json) : outcome (list json) :=
  match answer with
  | (status, JObj fields) =>
      match jget "tokens" fields with Some (JList l) => if status =? 200 then Ret l else fail_with backend_failed | _ => fail_with backend_failed end
  | _ => fail_with backend_failed
  end.
Definition count_chat_tokens (messages : list json) (images : Z) (deadline : time) : pym AdapterState Z :=
  template_url ← lift (endpoint "apply_template");
  templated ← send_json "POST" template_url deadline (Some (JObj [("messages", JList messages)]));
  prompt ← lift (template_prompt templated);
  tokenize_url ← lift (endpoint "tokenize");
  tokenized ← send_json "POST" tokenize_url deadline (Some (JObj [("content", JStr prompt)]));
  tokens ← lift (token_list tokenized);
  mret (Z.of_nat (length tokens) + images * max_image_tokens (v2_envelope (lc_model a))).

(** [except EnvelopeError as exc: raise AdapterError(str(exc), exc.code)] *)
Definition as_adapter {A} (o : outcome A) : outcome A := match o with Raise (EnvelopeError code) => fail_with code | r => r end.
Definition OPTIONAL_KEYS : list string := ["temperature"; "top_p"; "seed"; "ignore_eos"].
Definition chat_payload (messages : list json) (parameters : list (string * json)) : outcome (Z * json) :=
  n ← as_adapter (effective_max_tokens parameters (v2_envelope (lc_model a)));
  Ret (n, JObj ([("model", JStr (v2_model_id (lc_model a))); ("messages", JList messages); ("max_tokens", JInt n); ("stream", JBool false)]
                ++ omap (fun k => v ← jget k parameters; Some (k, v)) OPTIONAL_KEYS)).

(** ** Output checks *)
Definition natural (v : option json) : bool := match v with None => true | Some (JInt n) => 0 <=? n | Some _ => false end.
Definition validate_chat (payload : json) : outcome unit :=
  match payload with
  | JObj fields =>
      match jget "model" fields, jget "choices" fields with
      | Some (JStr _), Some (JList _) =>
          match jget "usage" fields with
          | None | Some JNull => Ret tt
          | Some (JObj usage) =>
              if forallb (fun k => natural (jget k usage)) ["prompt_tokens"; "completion_tokens"; "total_tokens"] then Ret tt else fail_with backend_failed
          | Some _ => fail_with backend_failed
          end
      | _, _ => fail_with backend_failed
      end
  | _ => fail_with backend_failed
  end.
Fixpoint embedding_rows (width : option nat) (rows : list json) : outcome unit :=
  match rows with
  | [] => Ret tt
  | row :: rows =>
      item ← adapter_object row;
      n ← finite_numbers (jget "embedding" item);
      match width with
      | None => embedding_rows (Some n) rows
      | Some w => if (n =? w)%nat then embedding_rows width rows else fail_with backend_failed
      end
  end.
Definition validate_embeddings (payload : json) : outcome unit :=
  match payload with
  | JObj fields => match jget "data" fields with
                   | Some (JList ((_ :: _) as rows)) => embedding_rows None rows
                   | _ => fail_with backend_failed
                   end
  | _ => fail_with backend_failed
  end.
Fixpoint rerank_rows (rows : list json) : outcome unit :=
  match rows with
  | [] => Ret tt
  | row :: rows =>
      item ← adapter_object row;
      ok ← match jget "relevance_score" item with Some v => finite_number v | None => Ret false end;
      if (ok : bool) then rerank_rows rows else fail_with backend_failed
  end.
Definition validate_rerank (payload : json) : outcome unit :=
  match payload with
  | JObj fields => match jget "results" fields with Some (JList rows) => rerank_rows rows | _ => fail_with backend_failed end
  | _ => fail_with backend_failed
  end.

(** [_slots_idle] *)
Definition slot_rows (payload : json) : option (list json) :=
  match payload with
  | JList l => Some l
  | JObj fields => match jget "slots" fields with Some (JList l) => Some l | _ => None end
  | _ => None
  end.
Definition idle_row (v : json) : bool := match v with JObj f => match jget "is_processing" f with Some (JBool false) => true | _ => false end | _ => false end.
Definition slots_idle (deadline : time) : pym AdapterState bool :=
  url ← lift (endpoint "slots");
  '(status, payload) ← send_json "GET" url deadline None;
  mret ((status =? 200) && match slot_rows payload with Some ((_ :: _) as rows) => forallb idle_row rows | _ => false end).

(** [_dispatch] *)
Definition dispatch (name : string) (body : json) (deadline : time) (validator : json → outcome unit) : pym AdapterState json :=
  url ← lift (endpoint name);
  '(status, payload) ← send_json "POST" url deadline (Some body);
  let complete := (200 <=? status) && (status <? 300) in
  modify (fun s => s <| last_http_complete := complete |>);;
  _ ← lift (raise_if (negb complete) (AdapterError backend_failed));
  _ ← lift (validator payload);
  idle ← catch (slots_idle deadline) (fun e => match e with AdapterError _ => Some (mret false) | _ => None end);
  modify (fun s => s <| last_slot_idle := idle |>);;
  mret payload.

(** ** The port *)
Definition adapter_load (spec_model_id : string) (deadline : time) : pym AdapterState Ports.Observation :=
  if negb (String.eqb spec_model_id (v2_model_id (lc_model a))) then raise (AdapterError contract_violation)
  else match lc_control a with
  | None => raise (AdapterError backend_failed)
  | Some c =>
      on_wire (Control.load network c spec_model_id);;
      url ← lift (endpoint "health");
      '(status, health) ← send_json "GET" url deadline None;
      let healthy := (status =? 200) && match health with JObj f => is_text (jget "status" f) "ok" | _ => false end in
      (if healthy then slots_idle deadline;; mret tt else mret tt);;
      now ← read_tick clock;
      at_utc ← read_tick utc;
      i ← read_tick identity;
      mret {| ob_state := if healthy then obs_running else obs_unknown; ob_sampled_at := now; ob_sampled_at_utc := at_utc;
              ob_port_state := if healthy then port_listening else port_unknown;
              ob_subprocess_state := if healthy then sub_running else sub_unknown; ob_instance := i; ob_launch_operation := None |}
  end.

Definition text_input (v : option json) : bool :=
  match v with
  | Some (JStr s) => negb (String.eqb s "")
  | Some (JList ((_ :: _) as l)) => forallb (fun x => match x with JStr s => negb (String.eqb s "") | _ => false end) l
  | _ => false
  end.
Definition execute_chat (r : ExecutionRequest) (input : list (string * json)) (deadline : time) : pym AdapterState json :=
  let envelope := v2_envelope (lc_model a) in
  match jget "messages" input with
  | Some (JList messages) =>
      images ← lift (as_adapter (collect_image_sizes (Some (JList messages))));
      _ ← lift (as_adapter (check_images images (v2_capabilities (lc_model a)) (req_operation r) envelope));
      '(max, payload) ← lift (chat_payload messages (req_parameters r));
      tokens ← count_chat_tokens messages (Z.of_nat (length images)) deadline;
      _ ← lift (as_adapter (check_chat_budget tokens max envelope));
      dispatch "chat" payload deadline validate_chat
  | _ => raise (AdapterError contract_violation)
  end.
Definition execute_embeddings (r : ExecutionRequest) (input : list (string * json)) (deadline : time) : pym AdapterState json :=
  let raw := jget "input" input in
  if negb (text_input raw) then raise (AdapterError contract_violation)
  else dispatch "embeddings"
         (JObj [("model", JStr (v2_model_id (lc_model a))); ("input", default JNull raw);
                ("encoding_format", default (JStr "float") (jget "encoding_format" (req_parameters r)))])
         deadline validate_embeddings.
Definition execute_rerank (r : ExecutionRequest) (input : list (string * json)) (deadline : time) : pym AdapterState json :=
  match jget "query" input, jget "documents" input with
  | Some (JStr query), Some (JList ((_ :: _) as documents)) =>
      if String.eqb query "" then raise (AdapterError contract_violation)
      else dispatch "rerank"
             (JObj [("query", JStr query); ("documents", JList documents);
                    ("top_n", default (JInt (Z.of_nat (length documents))) (jget "top_n" (req_parameters r)));
                    ("return_documents", default (JBool false) (jget "return_documents" (req_parameters r)))])
             deadline validate_rerank
  | _, _ => raise (AdapterError contract_violation)
  end.
Definition execute (r : ExecutionRequest) (deadline : time) : pym AdapterState ExecutionHandle :=
  modify (fun s => s <| last_http_complete := false |> <| last_slot_idle := false |>);;
  if negb (bool_decide (req_operation r ∈ v2_capabilities (lc_model a))) then raise (AdapterError "capability_mismatch")
  else match req_inline_input r with
  | None => raise (AdapterError contract_violation)
  | Some input =>
      output ← (if bool_decide (req_operation r ∈ ["chat"; "vision"]) then execute_chat r input deadline
                else if String.eqb (req_operation r) "embeddings" then execute_embeddings r input deadline
                else if String.eqb (req_operation r) "rerank" then execute_rerank r input deadline
                else raise (AdapterError "capability_mismatch"));
      bytes ← lift (canonical_json_bytes output);
      modify (fun s => s <| lc_results ::= <[req_execution_id r := bytes]> |>);;
      i ← read_tick identity;
      match i with
      | None => raise (AdapterError "instance_unknown")
      | Some i => lift (make_execution_handle {| handle_execution_id := req_execution_id r; handle_instance := i |})
      end
  end.
(** [take_result]: the result of one execution, once *)
Definition take_result (execution_id : string) : pym AdapterState (option string) :=
  s ← get; modify (fun s => s <| lc_results ::= delete execution_id |>);; mret (lc_results s !! execution_id).
Definition adapter_cancel (h : ExecutionHandle) : outcome CancelAck :=
  make_cancel_ack {| cancel_execution_id := handle_execution_id h; cancel_accepted := true |}.
Definition adapter_stop (i : InstanceIdentity) : pym AdapterState StopAck :=
  match lc_control a with
  | None => mret {| stop_accepted := false |}
  | Some c => on_wire (Control.unload network c (inst_model_id i));; mret {| stop_accepted := true |}
  end.
Definition adapter_release (model_id : string) : pym AdapterState bool :=
  match lc_control a with
  | None => mret false
  | Some c => on_wire (Control.unload network c model_id);; mret true
  end.
End Adapter.

(** ** Theorems on the llama.cpp adapter: no inference request leaves before the
    runtime's own tokenizer counted the input and the count fits the envelope. *)
Section Wire.
Context `{Codecs} `{FloatText} (a : LlamaCppAdapter) (network : nat → HttpRequest → outcome HttpResponse) (clock : nat → time).
Context (py_str : json → string) (utc : nat → Z) (identity : nat → option InstanceIdentity).

Definition wired (method url : string) (body : option json) : HttpRequest := {| http_method := method; http_url := url; http_params := None; http_json := body |}.

Lemma read_tick_log {A} (f : nat → A) s s' r : read_tick f s = (s', r) → lc_log s' = lc_log s ∧ lc_results s' = lc_results s.
Proof. by intros [= <- _]. Qed.
(** A call that made no exchange and raised, or made this one exchange. *)
Definition exchanged {A} (rq : HttpRequest) (s s' : AdapterState) (r : outcome A) (from : HttpResponse → A → Prop) : Prop :=
  lc_results s' = lc_results s ∧
  ((lc_log s' = lc_log s ∧ ∃ e, r = Raise e) ∨
   ∃ answer, lc_log s' = lc_log s ++ [(rq, answer)] ∧ ∀ x, r = Ret x → ∃ resp, answer = Ret resp ∧ from resp x).
Lemma exchanged_ret {A} rq s s' (x : A) from : exchanged rq s s' (Ret x) from → ∃ resp, lc_log s' = lc_log s ++ [(rq, Ret resp)] ∧ from resp x.
Proof. intros [_ [[_ [e ?]]|(ans & E & Hx)]]; [done|]. destruct (Hx x eq_refl) as (resp & -> & Hf). by exists resp. Qed.

Lemma send_log method url deadline body s s' r : send network clock method url deadline body s = (s', r) →
  exchanged (wired method url body) s s' r (fun resp x => x = resp).
Proof.
  unfold send. unfold mbind at 1, pym_bind at 1. destruct (read_tick clock s) as [s1 o1] eqn:E1. destruct (read_tick_log _ _ _ _ E1) as [L1 R1].
  assert (∃ now, o1 = Ret now) as [now ->] by (unfold read_tick in E1; injection E1 as _ <-; by eexists).
  destruct (deadline - now <=? 0); [intros [= <- <-]; split; [done|]; left; split; [done|by eexists]|].
  unfold mbind at 1, pym_bind at 1, catch, on_wire, on_field. rewrite exchange_run. fold (wired method url body).
  set (ans := network _ _). set (s2 := s1 <| lc_log := lc_log s1 ++ [(wired method url body, ans)] |>).
  assert (lc_log s2 = lc_log s ++ [(wired method url body, ans)]) as L2 by (unfold s2; cbn; by rewrite L1).
  assert (lc_results s2 = lc_results s) as R2 by (unfold s2; cbn; by rewrite R1).
  clearbody s2. destruct ans as [resp|e].
  - destruct (_ && _); intros [= <- <-]; (split; [done|]); right; eexists; (split; [done|]); [done|]. intros x [= <-]. by exists resp.
  - destruct e; intros [= <- <-]; (split; [done|]); right; eexists; (split; [done|]); done.
Qed.
Lemma send_json_log method url deadline body s s' r : send_json network clock method url deadline body s = (s', r) →
  exchanged (wired method url body) s s' r (fun resp x => http_status resp = x.1 ∧ decoded_body resp = Ret x.2).
Proof.
  unfold send_json. unfold mbind at 1, pym_bind at 1. destruct (send _ _ _ _ _ _ s) as [s1 o1] eqn:E1. apply send_log in E1 as [R1 L1].
  destruct o1 as [resp|e].
  - destruct L1 as [[_ [e ?]]|(ans & L1 & Hx)]; [done|]. destruct (Hx resp eq_refl) as (? & -> & <-). unfold mbind at 1, pym_bind at 1, lift at 1.
    destruct (decoded_body resp) as [payload|e] eqn:Ed; intros [= <- <-]; (split; [done|]); right; eexists; (split; [done|]); [|done]. intros x [= <-]. by exists resp.
  - intros [= <- <-]. split; [done|]. destruct L1 as [[L1 _]|(ans & L1 & _)]; [left; split; [done|by eexists]|right; exists ans; split; [done|done]].
Qed.
(** The request goes to the endpoint the protocol fixture gives that name. *)
Definition targets (name method : string) (body : option json) (rq : HttpRequest) : Prop :=
  ∃ url, endpoint a py_str name = Ret url ∧ rq = wired method url body.
(** At most one exchange was made, and it asked for the slots. *)
Definition slots_asked (es : list Exchange) : Prop := (length es ≤ 1)%nat ∧ Forall (fun x => targets "slots" "GET" None x.1) es.
Lemma slots_asked_nil : slots_asked [].
Proof. split; [cbn; lia|done]. Qed.
Lemma slots_idle_log deadline s s' r : slots_idle a network clock py_str deadline s = (s', r) →
  lc_results s' = lc_results s ∧ ∃ es, lc_log s' = lc_log s ++ es ∧ slots_asked es.
Proof.
  assert (∀ s3, lc_log s3 = lc_log s → ∃ es, lc_log s3 = lc_log s ++ es ∧ slots_asked es) as K0
    by (intros s3 L3; exists []; rewrite app_nil_r; split; [done|apply slots_asked_nil]).
  unfold slots_idle. unfold mbind at 1, pym_bind at 1, lift at 1. destruct (endpoint a py_str "slots") as [url|e] eqn:Eu; [|intros [= <- <-]; split; [done|by apply K0]].
  unfold mbind at 1, pym_bind at 1. destruct (send_json _ _ _ _ _ _ s) as [s1 o1] eqn:E1. pose proof (send_json_log _ _ _ _ _ _ _ E1) as [R1 L1].
  assert (∃ es, lc_log s1 = lc_log s ++ es ∧ slots_asked es) as Hes.
  { destruct L1 as [[L1 _]|(ans & L1 & _)]; [by apply K0|]. eexists. split; [exact L1|]. split; [cbn; lia|]. constructor; [by exists url|done]. }
  destruct o1 as [[status payload]|e]; intros [= <- <-]; done.
Qed.

(** A dispatch that sent nothing and raised, or sent its body once; a payload it
    returns is the validated answer to that request. *)
Definition dispatched_as (name : string) (body : json) (validator : json → outcome unit) (s s' : AdapterState) (r : outcome json) : Prop :=
  (lc_log s' = lc_log s ∧ ∃ e, r = Raise e) ∨
  ∃ rq answer rest, lc_log s' = lc_log s ++ (rq, answer) :: rest ∧ targets name "POST" (Some body) rq ∧ slots_asked rest ∧
    ∀ payload, r = Ret payload → ∃ resp, answer = Ret resp ∧ 200 ≤ http_status resp < 300 ∧ decoded_body resp = Ret payload ∧ validator payload = Ret tt.
Lemma dispatch_log name body deadline validator s s' r : dispatch a network clock py_str name body deadline validator s = (s', r) →
  lc_results s' = lc_results s ∧ dispatched_as name body validator s s' r.
Proof.
  unfold dispatch. unfold mbind at 1, pym_bind at 1, lift at 1. destruct (endpoint a py_str name) as [url|e] eqn:Eu; [|intros [= <- <-]; split; [done|]; left; by split; [|eexists]].
  unfold mbind at 1, pym_bind at 1. destruct (send_json _ _ _ _ _ _ s) as [s2 o2] eqn:E2. apply send_json_log in E2 as [R2 L2].
  destruct L2 as [[L2 [e ->]]|(ans & L2 & Hx)]; [intros [= <- <-]; split; [done|]; left; by split; [|eexists]|].
  assert (∀ s3 q, lc_log s3 = lc_log s2 → lc_results s3 = lc_results s2 → (s3, Raise q) = (s', r) → lc_results s' = lc_results s ∧ dispatched_as name body validator s s' r) as Hend.
  { intros s3 q L3 R3 [= <- <-]. split; [congruence|]. right. exists (wired "POST" url (Some body)), ans, []. rewrite L3, L2. split_and!; [done|by exists url|apply slots_asked_nil|done]. }
  destruct o2 as [[status payload]|e]; [|by apply Hend]. destruct (Hx _ eq_refl) as (resp & -> & Hst & Hd). cbn in Hst, Hd. subst status.
  unfold mbind at 1, pym_bind at 1, modify at 1. cbn zeta.
  destruct ((200 <=? http_status resp) && (http_status resp <? 300)) eqn:Ec; cbn [negb raise_if]; unfold mbind at 1, pym_bind at 1, lift at 1; [|by apply Hend].
  unfold mbind at 1, pym_bind at 1, lift at 1. destruct (validator payload) as [[]|e] eqn:Ev; [|by apply Hend].
  set (s3 := s2 <| last_http_complete := true |>). assert (lc_log s3 = lc_log s2 ∧ lc_results s3 = lc_results s2) as [L3 R3] by done. clearbody s3.
  unfold mbind at 1, pym_bind at 1, catch. destruct (slots_idle _ _ _ _ _ s3) as [s4 o4] eqn:E4. apply slots_idle_log in E4 as [R4 (es & L4 & Hes)].
  assert (∀ s5 q, lc_log s5 = lc_log s4 → lc_results s5 = lc_results s4 → (∀ p, q = Ret p → p = payload) → (s5, q) = (s', r) →
    lc_results s' = lc_results s ∧ dispatched_as name body validator s s' r) as Hend2.
  { intros s5 q L5 R5 Hq [= <- <-]. split; [congruence|]. right. exists (wired "POST" url (Some body)), (Ret resp), es. rewrite L5, L4, L3, L2, <-app_assoc. split_and!; [done|by exists url|done|].
    intros p Hp. rewrite (Hq p Hp). exists resp. bool_prop. split_and!; try done; lia. }
  destruct o4 as [idle|e]; [intros E; eapply Hend2; [..|exact E]; [done|done|by intros p [= <-]]|].
  destruct e; intros E; (eapply Hend2; [..|exact E]; [done|done|]); try done. by intros p [= <-].
Qed.

(** The two counting requests, each to its own endpoint of the fixture. *)
Definition asks_template (messages : list json) : HttpRequest → Prop := targets "apply_template" "POST" (Some (JObj [("messages", JList messages)])).
Definition asks_tokens (prompt : string) : HttpRequest → Prop := targets "tokenize" "POST" (Some (JObj [("content", JStr prompt)])).
(** What the counting exchanges counted. *)
Definition counted (messages : list json) (images : Z) (s s' : AdapterState) (n : Z) : Prop :=
  ∃ q1 q2 r1 r2 prompt tokens,
    lc_log s' = lc_log s ++ [(q1, Ret r1); (q2, Ret r2)] ∧ asks_template messages q1 ∧ asks_tokens prompt q2 ∧
    (decoded_body r1 ≫= (fun v => template_prompt (http_status r1, v))) = Ret prompt ∧ (decoded_body r2 ≫= (fun v => token_list (http_status r2, v))) = Ret tokens ∧
    n = Z.of_nat (length tokens) + images * max_image_tokens (v2_envelope (lc_model a)).
(** Nothing was sent, or the template request alone, or the template request and
    then the tokenizer request. *)
Definition counting_only (messages : list json) (s s' : AdapterState) : Prop :=
  lc_log s' = lc_log s ∨
  ∃ q1 a1, asks_template messages q1 ∧
    (lc_log s' = lc_log s ++ [(q1, a1)] ∨ ∃ q2 a2 prompt, asks_tokens prompt q2 ∧ lc_log s' = lc_log s ++ [(q1, a1); (q2, a2)]).
Lemma counted_only messages images s s' s3 n : counted messages images s s' n → lc_log s3 = lc_log s' → counting_only messages s s3.
Proof. intros (q1 & q2 & r1 & r2 & prompt & tk & L & T1 & T2 & _) L3. right. exists q1, (Ret r1). split; [done|]. right. exists q2, (Ret r2), prompt. by rewrite L3. Qed.
Lemma count_log messages images deadline s s' r : count_chat_tokens a network clock py_str messages images deadline s = (s', r) →
  lc_results s' = lc_results s ∧ match r with Ret n => counted messages images s s' n | Raise _ => counting_only messages s s' end.
Proof.
  unfold count_chat_tokens. unfold mbind at 1, pym_bind at 1, lift at 1. destruct (endpoint a py_str "apply_template") as [u1|e] eqn:Eu1; [|intros [= <- <-]; split; [done|by left]].
  unfold mbind at 1, pym_bind at 1. destruct (send_json _ _ _ _ _ _ s) as [s1 o1] eqn:E1. apply send_json_log in E1 as Hx1. pose proof (proj1 Hx1) as R1.
  set (q1 := wired _ u1 _) in Hx1. assert (asks_template messages q1) as T1 by (by exists u1).
  assert (∀ a1, lc_log s1 = lc_log s ++ [(q1, a1)] → counting_only messages s s1) as K1 by (intros a1 L; right; exists q1, a1; split; [done|by left]).
  destruct o1 as [[st1 v1]|e].
  2:{ intros [= <- <-]. split; [done|]. destruct Hx1 as [_ [[L1 _]|(ans & L1 & _)]]; [by left|by eapply K1]. }
  apply exchanged_ret in Hx1 as (r1 & L1 & Hst1 & Hd1). cbn in Hst1, Hd1. specialize (K1 _ L1).
  unfold mbind at 1, pym_bind at 1, lift at 1. destruct (template_prompt (st1, v1)) as [prompt|e] eqn:Et; [|by intros [= <- <-]].
  unfold mbind at 1, pym_bind at 1, lift at 1. destruct (endpoint a py_str "tokenize") as [u2|e] eqn:Eu2; [|by intros [= <- <-]].
  unfold mbind at 1, pym_bind at 1. destruct (send_json _ _ _ _ _ _ s1) as [s2 o2] eqn:E2. apply send_json_log in E2 as Hx2. pose proof (proj1 Hx2) as R2.
  set (q2 := wired _ u2 _) in Hx2. assert (asks_tokens prompt q2) as T2 by (by exists u2).
  assert (∀ a2, lc_log s2 = lc_log s1 ++ [(q2, a2)] → counting_only messages s s2) as K2.
  { intros a2 L. right. exists q1, (Ret r1). split; [done|]. right. exists q2, a2, prompt. split; [done|]. by rewrite L, L1, <-app_assoc. }
  destruct o2 as [[st2 v2]|e].
  2:{ intros [= <- <-]. split; [congruence|]. destruct Hx2 as [_ [[L2 _]|(ans & L2 & _)]]; [|by eapply K2]. right. exists q1, (Ret r1). split; [done|left; congruence]. }
  apply exchanged_ret in Hx2 as (r2 & L2 & Hst2 & Hd2). cbn in Hst2, Hd2. specialize (K2 _ L2).
  unfold mbind at 1, pym_bind at 1, lift at 1. destruct (token_list (st2, v2)) as [tokens|e] eqn:Ek; intros [= <- <-]; (split; [congruence|]); [|done].
  exists q1, q2, r1, r2, prompt, tokens. rewrite L2, L1, <-app_assoc, Hd1, Hd2, Hst1, Hst2. done.
Qed.

Lemma as_adapter_ret {A} (o : outcome A) x : as_adapter o = Ret x → o = Ret x.
Proof. destruct o as [y|e]; [done|]. by destruct e. Qed.

(** A chat refused before its dispatch: at most its own counting requests were made. *)
Definition chat_refused (r : ExecutionRequest) (s s' : AdapterState) : Prop :=
  lc_log s' = lc_log s ∨
  ∃ input messages, req_inline_input r = Some input ∧ jget "messages" input = Some (JList messages) ∧ counting_only messages s s'.
(** What a chat that was dispatched went through: its body is the payload built
    from the request, posted to the chat endpoint. *)
Definition chat_dispatched (r : ExecutionRequest) (s s' : AdapterState) (from : outcome HttpResponse → Prop) : Prop :=
  ∃ input messages sizes tokens n s1 body rq answer rest,
    req_inline_input r = Some input ∧ jget "messages" input = Some (JList messages) ∧ collect_image_sizes (Some (JList messages)) = Ret sizes ∧
    counted messages (Z.of_nat (length sizes)) s s1 tokens ∧
    lc_log s' = lc_log s1 ++ (rq, answer) :: rest ∧ targets "chat" "POST" (Some body) rq ∧ slots_asked rest ∧
    chat_payload a messages (req_parameters r) = Ret (n, body) ∧
    Z.of_nat (length sizes) ≤ max_images (v2_envelope (lc_model a)) ∧ tokens ≤ max_input_tokens (v2_envelope (lc_model a)) ∧
    n ≤ max_output_tokens (v2_envelope (lc_model a)) ∧ tokens + n ≤ ctx_size (v2_envelope (lc_model a)) ∧ from answer.
(** The payload is the validated answer to the dispatched request. *)
Definition answered (payload : json) (answer : outcome HttpResponse) : Prop :=
  ∃ resp, answer = Ret resp ∧ 200 ≤ http_status resp < 300 ∧ decoded_body resp = Ret payload ∧ validate_chat payload = Ret tt.

Lemma execute_chat_log r input deadline s s' res : req_inline_input r = Some input → execute_chat a network clock py_str r input deadline s = (s', res) →
  lc_results s' = lc_results s ∧
  ((chat_refused r s s' ∧ ∃ e, res = Raise e) ∨ chat_dispatched r s s' (fun answer => ∀ payload, res = Ret payload → answered payload answer)).
Proof.
  intros Hin E. unfold execute_chat in E.
  assert (∀ e, (s, @Raise json e) = (s', res) → lc_results s' = lc_results s ∧ ((chat_refused r s s' ∧ ∃ e, res = Raise e) ∨
    chat_dispatched r s s' (fun answer => ∀ payload, res = Ret payload → answered payload answer))) as Hstop.
  { intros e [= <- <-]. split; [done|]. left. split; [by left|by eexists]. }
  destruct (jget "messages" input) as [[]|] eqn:Em; try (by eapply Hstop).
  rename l into messages. unfold mbind at 1, pym_bind at 1, lift at 1 in E. destruct (as_adapter (collect_image_sizes _)) as [sizes|e] eqn:Es; [|by eapply Hstop].
  apply as_adapter_ret in Es. unfold mbind at 1, pym_bind at 1, lift at 1 in E. destruct (as_adapter (check_images _ _ _ _)) as [u|e] eqn:Ei; [|by eapply Hstop].
  apply as_adapter_ret, check_images_ret in Ei as (Hn & _). unfold mbind at 1, pym_bind at 1, lift at 1 in E.
  destruct (chat_payload a messages (req_parameters r)) as [[n body]|e] eqn:Ep; [|by eapply Hstop].
  assert (∀ s3, counting_only messages s s3 → chat_refused r s s3) as Href by (intros s3 Hc; right; by exists input, messages).
  unfold mbind at 1, pym_bind at 1 in E. destruct (count_chat_tokens _ _ _ _ _ _ _ s) as [s1 o1] eqn:Ec. apply count_log in Ec as [R1 C1].
  destruct o1 as [tokens|e]; [|injection E as <- <-; split; [done|]; left; split; [by apply Href|by eexists]].
  unfold mbind at 1, pym_bind at 1, lift at 1 in E. destruct (as_adapter (check_chat_budget _ _ _)) as [u2|e] eqn:Eb.
  2:{ injection E as <- <-. split; [done|]. left. split; [by eapply Href, counted_only|by eexists]. }
  apply as_adapter_ret, check_chat_budget_ret in Eb as (B1 & B2 & B3). apply dispatch_log in E as [R2 D2]. split; [congruence|].
  destruct D2 as [[L2 [e ->]]|(rq & answer & rest & L2 & Ht & Hl & Hx)].
  - left. split; [by eapply Href, counted_only|by eexists].
  - right. exists input, messages, sizes, tokens, n, s1, body, rq, answer, rest. split_and!; done.
Qed.
End Wire.

(** C18: a chat or vision request is posted to the chat endpoint of the protocol
    fixture only after its messages were posted to the template endpoint and the
    prompt that came back to the tokenizer endpoint, and only when the counted
    text plus the full charge for every image, and that plus the output budget
    sent, fit the model's registered envelope; the body posted is the payload
    built from the request, and at most one request for the slots follows it.
    Otherwise the request is refused, and nothing was sent but the template
    request and then the tokenizer request. A handle is returned only for
    an answer with a success status and a valid shape, whose canonical bytes are
    then the one result kept for the execution. *)
Theorem dispatch_after_count `{Codecs} `{FloatText} a network clock py_str identity r deadline s s' res :
  req_operation r ∈ ["chat"; "vision"] →
  execute a network clock py_str identity r deadline s = (s', res) →
  (chat_refused a py_str r s s' ∧ ∃ e, res = Raise e) ∨
  chat_dispatched a py_str r s s' (fun answer => ∀ h, res = Ret h →
    ∃ payload bytes, answered payload answer ∧ canonical_json_bytes payload = Ret bytes ∧ lc_results s' = <[req_execution_id r := bytes]> (lc_results s)).
Proof.
  intros Hop E. unfold execute in E. unfold mbind at 1, pym_bind at 1, modify at 1 in E. set (s0 := s <| _ := _ |> <| _ := _ |>) in E.
  assert (lc_log s0 = lc_log s ∧ lc_results s0 = lc_results s) as [L0 R0] by done. clearbody s0.
  assert (∀ s1, chat_refused a py_str r s0 s1 → chat_refused a py_str r s s1) as Hadds by (intros s1; unfold chat_refused, counting_only; by rewrite L0).
  destruct (negb _); [injection E as <- <-; left; split; [by apply Hadds; left|by eexists]|].
  destruct (req_inline_input r) as [input|] eqn:Hin; [|injection E as <- <-; left; split; [by apply Hadds; left|by eexists]].
  rewrite bool_decide_eq_true_2 in E by done. unfold mbind at 1, pym_bind at 1 in E.
  destruct (execute_chat _ _ _ _ _ _ _ s0) as [s1 o1] eqn:Ex. apply execute_chat_log in Ex as [R1 D1]; [|done].
  destruct D1 as [[A1 [e ->]]|(input' & messages & sizes & tokens & n & s2 & body & rq & answer & rest & Hi & Hm & Hs & Hc & L1 & Ht & Hl & Hp & B0 & B1 & B2 & B3 & Hx)].
  { injection E as <- <-. left. split; [by apply Hadds|by eexists]. }
  right. assert (counted a py_str messages (Z.of_nat (length sizes)) s s2 tokens) as Hc'.
  { unfold counted in Hc. by rewrite L0 in Hc. }
  assert (∀ s3, lc_log s3 = lc_log s1 → s3 = s' → (∀ h, res = Ret h → ∃ payload bytes, answered payload answer ∧ canonical_json_bytes payload = Ret bytes ∧ lc_results s' = <[req_execution_id r := bytes]> (lc_results s)) →
     chat_dispatched a py_str r s s' (fun answer => ∀ h, res = Ret h →
    ∃ payload bytes, answered payload answer ∧ canonical_json_bytes payload = Ret bytes ∧ lc_results s' = <[req_execution_id r := bytes]> (lc_results s))) as Hend.
  { intros s3 L3 <- Hres. exists input', messages, sizes, tokens, n, s2, body, rq, answer, rest. rewrite L3. split_and!; congruence || done. }
  destruct o1 as [payload|e]; [|injection E as <- <-; by eapply Hend].
  unfold mbind at 1, pym_bind at 1, lift at 1 in E. destruct (canonical_json_bytes payload) as [bytes|e] eqn:Ebytes; [|injection E as <- <-; by eapply Hend].
  unfold mbind at 1, pym_bind at 1, modify at 1 in E. set (s3 := s1 <| lc_results ::= <[req_execution_id r := bytes]> |>) in E.
  assert (lc_log s3 = lc_log s1 ∧ lc_results s3 = <[req_execution_id r := bytes]> (lc_results s)) as [L3 R3] by (unfold s3; cbn; by rewrite R1, R0). clearbody s3.
  unfold mbind at 1, pym_bind at 1 in E. destruct (read_tick identity s3) as [s4 o4] eqn:E4. apply read_tick_log in E4 as [L4 R4].
  assert (s' = s4) as ->. { destruct o4 as [[i|]|e]; injection E as <- _; done. }
  eapply Hend; [|done|]; [congruence|]. intros h _. exists payload, bytes. split_and!; [by apply Hx|done|congruence].
Qed.

(** *** A concrete server: six prompt tokens, one embedded answer. *)
Definition demo_endpoint (name path : string) : string := quoted name +:+ ":{" +:+ quoted "path" +:+ ":" +:+ quoted path +:+ "}".
Definition demo_fixture : string :=
  "{" +:+ quoted "schema_version" +:+ ":1," +:+ quoted "profile_id" +:+ ":" +:+ quoted GGUF_PROFILE +:+ ","
  +:+ quoted "http" +:+ ":{" +:+ quoted "follow_redirects" +:+ ":false}," +:+ quoted "endpoints" +:+ ":{"
  +:+ join "," [demo_endpoint "slots" "/slots"; demo_endpoint "tokenize" "/tokenize"; demo_endpoint "apply_template" "/apply-template";
                demo_endpoint "chat" "/v1/chat/completions"] +:+ "},"
  +:+ quoted "slot_protocol" +:+ ":{" +:+ quoted "trusted_for_device_quiescence" +:+ ":false," +:+ quoted "fallback_termination" +:+ ":"
  +:+ quoted "independent_STOPPED" +:+ "," +:+ quoted "stop_reload_cost" +:+ ":{}}}".
Definition demo_answer (url : string) : string :=
  if String.eqb url "http://h/apply-template" then "{" +:+ quoted "prompt" +:+ ":" +:+ quoted "hi" +:+ "}"
  else if String.eqb url "http://h/tokenize" then "{" +:+ quoted "tokens" +:+ ":[1,2,3,4,5,6]}"
  else if String.eqb url "http://h/slots" then "[{" +:+ quoted "is_processing" +:+ ":false}]"
  else "{" +:+ quoted "model" +:+ ":" +:+ quoted "m" +:+ "," +:+ quoted "choices" +:+ ":[]}".
Definition demo_server (_ : nat) (r : HttpRequest) : outcome HttpResponse :=
  Ret {| http_status := 200; http_content_type := None; http_body := demo_answer (http_url r) |}.
Definition demo_llama : LlamaCppAdapter := {|
  lc_model := demo_vision; lc_base := "http://h"; lc_control := None;
  lc_runtime := {| rt_runtime_id := "r"; rt_profile_id := GGUF_PROFILE; rt_image_digest := ""; rt_adapter_sha256 := ""; rt_lock_sha256 := ""; rt_startup_args := [] |};
  lc_fixture := match load_protocol_fixture (Ret demo_fixture) with Ret v => v | Raise _ => JNull end |}.
Definition demo_request : ExecutionRequest := {|
  req_execution_id := "x1"; req_operation := "chat"; req_parameters := [("max_tokens", JInt 64)];
  req_inline_input := Some [("messages", JList [JObj [("content", JStr "hi")]])]; req_blob_path := None; req_output_directory := None |}.
Definition demo_idle : AdapterState := {| lc_log := []; lc_ticks := 0; last_http_complete := false; last_slot_idle := false; lc_results := Dict [] |}.
Definition demo_container : InstanceIdentity :=
  {| container_id := "c1"; started_at := "2024-05-01T08:00:00Z"; deployment_id := "lab"; inst_model_id := "m"; inst_runtime_id := "r"; candidate_digest := ""; inst_image_digest := "" |}.
Local Notation demo_execute deadline :=
  (@execute ascii_codecs thousandths_floats demo_llama demo_server (fun n => Z.of_nat n) (fun _ => "") (fun _ => Some demo_container) demo_request deadline demo_idle).

Example demo_execute_late : (demo_execute 2).2 = Raise (AdapterError "execution_timeout") ∧ length (lc_log (demo_execute 2).1) = 2%nat.
Proof. vm_compute. done. Qed.

Lemma dispatch_after_count_witness : ∃ s' h, demo_execute 100 = (s', Ret h) ∧
  ((fun x : Exchange => (http_method x.1, http_url x.1)) <$> lc_log s') =
    [("POST", "http://h/apply-template"); ("POST", "http://h/tokenize"); ("POST", "http://h/v1/chat/completions"); ("GET", "http://h/slots")] ∧
  ∃ payload bytes, @canonical_json_bytes thousandths_floats payload = Ret bytes ∧ lc_results s' = <["x1" := bytes]> (Dict []).
Proof.
  assert (∃ h, (demo_execute 100).2 = Ret h) as [h Hh] by (eexists; vm_compute; reflexivity).
  assert (((fun x : Exchange => (http_method x.1, http_url x.1)) <$> lc_log (demo_execute 100).1) =
    [("POST", "http://h/apply-template"); ("POST", "http://h/tokenize"); ("POST", "http://h/v1/chat/completions"); ("GET", "http://h/slots")]) as Hl
    by (vm_compute; reflexivity).
  destruct (demo_execute 100) as [s' res] eqn:E. cbn [fst snd] in Hh, Hl. subst res. exists s', h. split; [reflexivity|]. split; [exact Hl|].
  destruct (@dispatch_after_count ascii_codecs thousandths_floats _ _ _ _ _ demo_request _ _ _ _ ltac:(left) E)
    as [[_ [e ?]]|(? & ? & ? & ? & ? & ? & ? & ? & ? & ? & _ & _ & _ & _ & _ & _ & _ & _ & _ & _ & _ & _ & Hx)]; [discriminate|].
  destruct (Hx h eq_refl) as (payload & bytes & _ & Hb & Hr). exists payload, bytes. split; [exact Hb|exact Hr].
Defined.
