(* ===== verification/Config.v ===== *)
(** * Configuration

    [model_scheduler/config.py]: the strict readers of both configuration
    schemas, the canonical digest and the projection of a v1 file to the book's
    model specs.  A configuration is the decoded value of the YAML text; the YAML
    reader itself and [urlsplit] are library code: the first is an argument, the
    second a class with the fields the source reads.  Numbers of seconds and
    ratios are the rationals the floats denote. *)

From S2P Require Import Prelude Text Dict Contracts Registration JsonText Identity Observer Control.
From Stdlib Require Import Ascii QArith.
Local Open Scope Z_scope.

Definition bad_config {A} (msg : string) : outcome A := Raise (ConfigError msg).
Definition insist (ok : bool) (msg : string) : outcome unit := if ok then Ret tt else bad_config msg.

(** ** Numbers *)

(** [float(n)]: the nearest float, ties to the even significand. *)
Definition round_half_even (n d : Z) : Z :=
  let q := n / d in
  let r := n mod d in
  if 2 * r <? d then q else if d <? 2 * r then q + 1 else if Z.even q then q else q + 1.
Definition float_of_int (n : Z) : outcome Q :=
  if FLOAT_OVERFLOW <=? Z.abs n then Raise (OverflowError "int too large to convert to float")
  else
    let e := Z.log2 (Z.abs n) - 52 in
    Ret (inject_Z (if e <=? 0 then n else Z.sgn n * (round_half_even (Z.abs n) (2 ^ e) * 2 ^ e))).

(** ** Checks *)
Definition present (key : string) (fields : list (string * json)) : bool := bool_decide (is_Some (jget key fields)).
(** [_strict]; [_mapping] is the case without optional keys. *)
Definition strict (value : json) (required optional : list string) : outcome (list (string * json)) :=
  match value with
  | JObj fields =>
      _ ← insist (forallb (fun kv => bool_decide (kv.1 ∈ required ++ optional)) fields) "contains unknown keys";
      _ ← insist (forallb (fun k => present k fields) required) "is missing keys";
      Ret fields
  | _ => bad_config "must be an object"
  end.
Definition mapping_of (value : json) (keys : list string) : outcome (list (string * json)) := strict value keys [].
Definition at_key (fields : list (string * json)) (key : string) : outcome json := of_option (KeyError key) (jget key fields).
Definition or_default (fields : list (string * json)) (key : string) (default_ : json) : json := default default_ (jget key fields).
Definition check_bool (v : json) : outcome bool := match v with JBool b => Ret b | _ => bad_config "must be a boolean" end.
Definition check_int (v : json) (minimum : Z) (maximum : option Z) : outcome Z :=
  match v with
  | JInt n => if (n <? minimum) || match maximum with Some m => m <? n | None => false end then bad_config "is out of range" else Ret n
  | _ => bad_config "is out of range"
  end.
Definition check_number (v : json) (positive : bool) : outcome Q :=
  q ← match v with
      | JInt n => q ← float_of_int n; Ret (Some q)
      | JFloat q => Ret q
      | _ => bad_config "must be a number"
      end;
  match q with
  | Some q => if (if positive then Qle_bool q 0 else negb (Qle_bool 0 q)) then bad_config "is out of range" else Ret q
  | None => bad_config "is out of range"
  end.
Definition check_string (v : json) : outcome string :=
  match v with JStr s => if String.eqb s "" then bad_config "must be a non-empty string" else Ret s | _ => bad_config "must be a non-empty string" end.

Definition int_at (fields : list (string * json)) (key : string) (minimum : Z) (maximum : option Z) : outcome Z := v ← at_key fields key; check_int v minimum maximum.
Definition number_at (fields : list (string * json)) (key : string) (positive : bool) : outcome Q := v ← at_key fields key; check_number v positive.
Definition string_at (fields : list (string * json)) (key : string) : outcome string := v ← at_key fields key; check_string v.
Definition bool_at (fields : list (string * json)) (key : string) : outcome bool := v ← at_key fields key; check_bool v.

(** ** Paths: [pathlib.PurePosixPath] *)
Record PyPath := { path_root : string; path_names : list string }.
#[export] Instance PyPath_eq_dec : EqDecision PyPath.
Proof. solve_decision. Defined.
Definition py_path (s : string) : PyPath :=
  let leading := fix go (l : list ascii) : nat := match l with c :: l => if code c =? 47 then S (go l) else O | [] => O end in
  {| path_root := match leading (chars s) with O => "" | 2%nat => "//" | _ => "/" end;
     path_names := List.filter (fun p => negb (String.eqb p "") && negb (String.eqb p ".")) (path_parts s) |}.
Definition is_absolute (p : PyPath) : bool := negb (String.eqb (path_root p) "").
Definition parent (p : PyPath) : PyPath := {| path_root := path_root p; path_names := removelast (path_names p) |}.
Definition absolute_path (v : json) : outcome PyPath :=
  s ← check_string v;
  if is_absolute (py_path s) then Ret (py_path s) else bad_config "must be an absolute path".

(** ** URLs *)
Record SplitUrl := {
  url_scheme : string; url_hostname : option string; url_username : option string; url_password : option string;
  url_path : string; url_query : string; url_fragment : string; url_port : outcome (option Z);
}.
Class UrlSplit := { urlsplit : string → outcome SplitUrl }.
Definition LOOPBACK : list string := ["127.0.0.1"; "::1"].
(** [_loopback_url]: the URL without its trailing slashes, and the ports in use. *)
Definition loopback_url `{UrlSplit} (v : json) (ports : list Z) : outcome (string * list Z) :=
  raw ← check_string v;
  parsed ← urlsplit raw;
  port ← match url_port parsed with Raise (ValueError _) => bad_config "has an invalid port" | r => r end;
  match port with
  | Some port =>
      if String.eqb (url_scheme parsed) "http" && match url_hostname parsed with Some h => bool_decide (h ∈ LOOPBACK) | None => false end
         && negb (truthy (url_username parsed)) && negb (truthy (url_password parsed)) && bool_decide (url_path parsed ∈ [""; "/"])
         && String.eqb (url_query parsed) "" && String.eqb (url_fragment parsed) ""
      then if bool_decide (port ∈ ports) then bad_config "reuses a port" else Ret (rstrip_slash raw, port :: ports)
      else bad_config "must be an http loopback URL with a fixed port"
  | None => bad_config "must be an http loopback URL with a fixed port"
  end.

(** ** Sections common to both schemas *)
Record ServerConfig := { cfg_host : string; cfg_port : Z; cfg_workers : Z; cfg_max_request_body_bytes : Z; cfg_body_timeout : Q; cfg_shutdown_grace : Q }.
Record HeatConfig := { cfg_half_life : Q; cfg_request_weight : Q; cfg_token_weight : Q }.
Record ThrashConfig := { cfg_switch_window : Q; cfg_max_switches : Z; cfg_cooldown : Q }.
Record SchedulerConfig := {
  cfg_poll_interval : Q; cfg_request_queue_timeout : Q; cfg_queue_capacity : Z; cfg_priority_aging : Q; cfg_switch_drain_timeout : Q;
  cfg_switch_retry : Q; cfg_margin : Q; cfg_min_free_memory : Z; cfg_max_evictions : Z; cfg_memory_reclaim_timeout : Q;
  cfg_heat : HeatConfig; cfg_thrash : ThrashConfig;
}.
Record ResourcesConfig := { cfg_system_reserve : Z; cfg_sample_interval : Q; cfg_sample_max_age : Q }.
Record StorageConfig := { cfg_mount : PyPath; cfg_directory : PyPath; cfg_expected_uuid : string }.
Record GatewayConfig := {
  cfg_connect_timeout : Q; cfg_pool_timeout : Q; cfg_read_idle_timeout : Q; cfg_write_idle_timeout : Q; cfg_inference_timeout : Q; cfg_close_timeout : Q;
  cfg_max_response_body : Z; cfg_max_sse_event : Z;
}.

Definition SERVER_KEYS : list string := ["host"; "port"; "workers"; "max_request_body_bytes"; "body_timeout_seconds"; "shutdown_grace_seconds"].
Definition server_config (v : json) : outcome ServerConfig :=
  server ← mapping_of v SERVER_KEYS;
  host ← string_at server "host";
  _ ← insist (bool_decide (host ∈ LOOPBACK)) "server.host must be a loopback address";
  port ← int_at server "port" 1 (Some 65535);
  workers ← int_at server "workers" 1 (Some 1);
  body ← int_at server "max_request_body_bytes" 1 None;
  timeout ← number_at server "body_timeout_seconds" true;
  grace ← number_at server "shutdown_grace_seconds" true;
  Ret {| cfg_host := host; cfg_port := port; cfg_workers := workers; cfg_max_request_body_bytes := body; cfg_body_timeout := timeout; cfg_shutdown_grace := grace |}.

Definition HEAT_KEYS : list string := ["half_life_seconds"; "request_weight"; "token_weight"].
Definition THRASH_KEYS : list string := ["switch_window_seconds"; "max_switches_in_window"; "cooldown_seconds"].
Definition SCHEDULER_REQUIRED : list string :=
  ["poll_interval_seconds"; "request_queue_timeout_seconds"; "queue_capacity"; "priority_aging_seconds"; "switch_drain_timeout_seconds"; "switch_retry_seconds";
   "resource_safety_margin"; "min_free_memory_bytes"; "max_evictions_per_request"; "memory_reclaim_timeout_seconds"; "heat"; "thrash"].
(** The nested objects and the margin, which both readers check first. *)
Definition scheduler_head (scheduler : list (string * json)) : outcome (list (string * json) * list (string * json) * Q) :=
  h ← at_key scheduler "heat"; heat ← mapping_of h HEAT_KEYS;
  t ← at_key scheduler "thrash"; thrash ← mapping_of t THRASH_KEYS;
  margin ← number_at scheduler "resource_safety_margin" false;
  _ ← insist (Qle_bool margin 1) "scheduler.resource_safety_margin is out of range";
  Ret (heat, thrash, margin).
Definition scheduler_body (scheduler heat thrash : list (string * json)) (margin : Q) : outcome SchedulerConfig :=
  poll ← number_at scheduler "poll_interval_seconds" true;
  queue ← number_at scheduler "request_queue_timeout_seconds" true;
  capacity ← int_at scheduler "queue_capacity" 1 None;
  aging ← number_at scheduler "priority_aging_seconds" true;
  drain ← number_at scheduler "switch_drain_timeout_seconds" true;
  retry ← number_at scheduler "switch_retry_seconds" true;
  free ← int_at scheduler "min_free_memory_bytes" 0 None;
  evictions ← int_at scheduler "max_evictions_per_request" 1 None;
  reclaim ← number_at scheduler "memory_reclaim_timeout_seconds" true;
  half_life ← number_at heat "half_life_seconds" true;
  request_weight ← number_at heat "request_weight" false;
  token_weight ← number_at heat "token_weight" false;
  window ← number_at thrash "switch_window_seconds" true;
  switches ← int_at thrash "max_switches_in_window" 1 None;
  cooldown ← number_at thrash "cooldown_seconds" true;
  Ret {| cfg_poll_interval := poll; cfg_request_queue_timeout := queue; cfg_queue_capacity := capacity; cfg_priority_aging := aging;
         cfg_switch_drain_timeout := drain; cfg_switch_retry := retry; cfg_margin := margin; cfg_min_free_memory := free; cfg_max_evictions := evictions;
         cfg_memory_reclaim_timeout := reclaim;
         cfg_heat := {| cfg_half_life := half_life; cfg_request_weight := request_weight; cfg_token_weight := token_weight |};
         cfg_thrash := {| cfg_switch_window := window; cfg_max_switches := switches; cfg_cooldown := cooldown |} |}.

Definition require_provider (resources : list (string * json)) : outcome unit :=
  provider ← at_key resources "provider";
  insist (is_text (Some provider) "psutil") "resources.provider must be psutil".
Definition GATEWAY_KEYS : list string :=
  ["connect_timeout_seconds"; "pool_timeout_seconds"; "read_idle_timeout_seconds"; "write_idle_timeout_seconds"; "inference_timeout_seconds";
   "close_timeout_seconds"; "max_response_body_bytes"; "max_sse_event_bytes"].
Definition gateway_config (v : json) : outcome GatewayConfig :=
  gateway ← mapping_of v GATEWAY_KEYS;
  connect ← number_at gateway "connect_timeout_seconds" true;
  pool ← number_at gateway "pool_timeout_seconds" true;
  read ← number_at gateway "read_idle_timeout_seconds" true;
  write ← number_at gateway "write_idle_timeout_seconds" true;
  inference ← number_at gateway "inference_timeout_seconds" true;
  close ← number_at gateway "close_timeout_seconds" true;
  body ← int_at gateway "max_response_body_bytes" 1 None;
  event ← int_at gateway "max_sse_event_bytes" 1 None;
  Ret {| cfg_connect_timeout := connect; cfg_pool_timeout := pool; cfg_read_idle_timeout := read; cfg_write_idle_timeout := write;
         cfg_inference_timeout := inference; cfg_close_timeout := close; cfg_max_response_body := body; cfg_max_sse_event := event |}.
Definition storage_paths (storage : list (string * json)) : outcome (PyPath * PyPath) :=
  m ← string_at storage "mount_path";
  d ← string_at storage "model_directory";
  filesystem ← at_key storage "filesystem";
  _ ← insist (is_absolute (py_path m) && is_absolute (py_path d) && bool_decide (parent (py_path d) = py_path m) && is_text (Some filesystem) "ext4")
        "storage must use an absolute mount_path/model_directory and ext4";
  Ret (py_path m, py_path d).

(** [{key(x): x for x in l}] *)
Definition dict_from {V} (l : list (string * V)) : dict string V := foldl (fun d kv => <[kv.1 := kv.2]> d) ∅ l.

(** ** Schema v2 *)
Record SessionPolicy := {
  sp_queue_capacity : Z; sp_queue_timeout : Z; sp_prepare_limit : Z; sp_heartbeat : Z; sp_ttl : Z; sp_stop_grace : Z; sp_cleanup_limit : Z; sp_hard_timeout : Z;
}.
Record ControlConfig := { cfg_socket_path : PyPath; cfg_allowed_uids : list Z; cfg_peer_group : option string }.
Record BlobsConfig := {
  cfg_blob_root : PyPath; cfg_owner_quota : Z; cfg_total_quota : Z; cfg_chunk_reserve : Z; cfg_min_free_disk : Z; cfg_input_ttl : Z; cfg_output_ttl : Z; cfg_max_blob : Z;
}.
Record AppConfigV2 := {
  v2c_runtimes : dict string RuntimeSpec; v2c_models : dict string RegisteredModelSpec; v2c_server : ServerConfig; v2c_scheduler : SchedulerConfig;
  v2c_pinned : list string; v2c_preload : list string; v2c_sessions : SessionPolicy;
  v2c_resources : ResourcesConfig; v2c_model_budget : Z; v2c_storage : StorageConfig; v2c_verify_timeout : Z; v2c_gateway : GatewayConfig;
  v2c_control : ControlConfig; v2c_blobs : BlobsConfig; v2c_candidate_sha256 : option string;
}.
Definition V2_REQUIRED_KEYS : list string := ["schema_version"; "registration"; "server"; "scheduler"; "resources"; "storage"; "gateway"; "control"; "blobs"].
Definition V2_DERIVED_KEYS : list string := ["candidate_sha256"].

Fixpoint model_id_list_items (registered : list string) (seen : list string) (l : list json) : outcome (list string) :=
  match l with
  | [] => Ret (rev seen)
  | v :: l =>
      m ← check_string v;
      _ ← insist (bool_decide (m ∈ registered)) "references unregistered model";
      _ ← insist (negb (bool_decide (m ∈ seen))) "contains duplicate model id";
      model_id_list_items registered (m :: seen) l
  end.
Definition model_id_list (v : json) (registered : list string) : outcome (list string) :=
  match v with JList l => model_id_list_items registered [] l | _ => bad_config "must be a list of model ids" end.

(** [_SESSION_BOUNDS] with [SESSION_DEFAULTS]: the key, the maximum, the default *)
Definition SESSION_BOUNDS : list (string * (Z * Z)) :=
  [("queue_capacity", (128, 128)); ("queue_timeout_seconds", (1800, 1800)); ("prepare_limit_seconds", (900, 900)); ("heartbeat_seconds", (10, 10));
   ("ttl_seconds", (30, 30)); ("stop_grace_seconds", (30, 30)); ("cleanup_limit_seconds", (60, 60)); ("hard_timeout_seconds", (86400, 3600))].
Definition session_value (data : list (string * json)) (key : string) : outcome Z :=
  match assoc key SESSION_BOUNDS with
  | Some (maximum, default_) => check_int (or_default data key (JInt default_)) 1 (Some maximum)
  | None => Raise (KeyError key)
  end.
Definition session_policy (raw : json) : outcome SessionPolicy :=
  data ← strict raw [] (SESSION_BOUNDS.*1);
  capacity ← session_value data "queue_capacity";
  timeout ← session_value data "queue_timeout_seconds";
  prepare ← session_value data "prepare_limit_seconds";
  heartbeat ← session_value data "heartbeat_seconds";
  ttl ← session_value data "ttl_seconds";
  grace ← session_value data "stop_grace_seconds";
  cleanup ← session_value data "cleanup_limit_seconds";
  hard ← session_value data "hard_timeout_seconds";
  _ ← insist (prepare <=? timeout) "scheduler.sessions.prepare_limit_seconds must not exceed queue_timeout_seconds";
  _ ← insist (cleanup <=? hard) "scheduler.sessions.cleanup_limit_seconds exceeds hard_timeout_seconds";
  _ ← insist (grace <=? cleanup) "scheduler.sessions.stop_grace_seconds exceeds cleanup_limit_seconds";
  Ret {| sp_queue_capacity := capacity; sp_queue_timeout := timeout; sp_prepare_limit := prepare; sp_heartbeat := heartbeat; sp_ttl := ttl;
         sp_stop_grace := grace; sp_cleanup_limit := cleanup; sp_hard_timeout := hard |}.

Definition MAX_UID : Z := 4294967295.
Fixpoint uid_list (l : list json) : option (list Z) :=
  match l with
  | [] => Some []
  | JInt n :: l => if (0 <=? n) && (n <=? MAX_UID) then rest ← uid_list l; Some (n :: rest) else None
  | _ => None
  end.
Definition CONTROL_SOCKET_PATH : string := "/run/self-model-switch/control.sock".
Definition control_config (raw : json) : outcome ControlConfig :=
  data ← strict raw ["allowed_uids"] ["socket_path"; "peer_group"];
  v ← at_key data "allowed_uids";
  uids ← match v with
         | JList ((_ :: _) as l) => of_option (ConfigError "control.allowed_uids must be a non-empty list of numeric UIDs") (uid_list l)
         | _ => bad_config "control.allowed_uids must be a non-empty list of numeric UIDs"
         end;
  _ ← insist (bool_decide (NoDup uids)) "control.allowed_uids must not repeat a UID";
  group ← match or_default data "peer_group" JNull with
          | JNull => Ret None
          | JStr s => Ret (if String.eqb s "" then None else Some s)
          | _ => bad_config "control.peer_group must be null or a string"
          end;
  socket ← absolute_path (or_default data "socket_path" (JStr CONTROL_SOCKET_PATH));
  Ret {| cfg_socket_path := socket; cfg_allowed_uids := uids; cfg_peer_group := group |}.

Definition CONFIG_MAX_BLOB_BYTES : Z := 1073741824.
Definition BLOB_OPTIONAL : list string :=
  ["owner_quota_bytes"; "total_quota_bytes"; "chunk_reserve_bytes"; "min_free_disk_bytes"; "input_ttl_seconds"; "output_ttl_seconds"; "max_blob_bytes"].
Definition blobs_config (raw : json) (directory mount : PyPath) : outcome BlobsConfig :=
  data ← strict raw ["root"] BLOB_OPTIONAL;
  v ← at_key data "root";
  root ← absolute_path v;
  _ ← insist (negb (bool_decide (root ∈ [mount; directory]))) "blobs.root must not share the read-only model media";
  owner ← check_int (or_default data "owner_quota_bytes" (JInt 4294967296)) 1 None;
  total ← check_int (or_default data "total_quota_bytes" (JInt 17179869184)) 1 None;
  chunk ← check_int (or_default data "chunk_reserve_bytes" (JInt 1073741824)) 1 None;
  free ← check_int (or_default data "min_free_disk_bytes" (JInt 2147483648)) 1 None;
  input ← check_int (or_default data "input_ttl_seconds" (JInt 86400)) 1 None;
  output ← check_int (or_default data "output_ttl_seconds" (JInt 86400)) 1 None;
  max ← check_int (or_default data "max_blob_bytes" (JInt 1073741824)) 1 None;
  _ ← insist (max <=? CONFIG_MAX_BLOB_BYTES) "blobs.max_blob_bytes exceeds the 1 GiB transport limit";
  _ ← insist (owner <=? total) "blobs.owner_quota_bytes must not exceed total_quota_bytes";
  _ ← insist (chunk <=? max) "blobs.chunk_reserve_bytes must not exceed max_blob_bytes";
  Ret {| cfg_blob_root := root; cfg_owner_quota := owner; cfg_total_quota := total; cfg_chunk_reserve := chunk; cfg_min_free_disk := free;
         cfg_input_ttl := input; cfg_output_ttl := output; cfg_max_blob := max |}.

(** [for spec in deployment.models: if spec.port in ports: ...] *)
Fixpoint fresh_ports (ports : list Z) (models : list RegisteredModelSpec) : outcome unit :=
  match models with
  | [] => Ret tt
  | m :: models => _ ← insist (negb (bool_decide (v2_port m ∈ ports))) "registration.models reuses port"; fresh_ports (v2_port m :: ports) models
  end.
Definition registration_of (v : json) : outcome DeploymentSpec :=
  registration ← strict v ["runtimes"; "models"] [];
  match parse_deployment (JObj (("schema_version", JInt SCHEMA_VERSION) :: registration)) with
  | Raise (ContractError m) => bad_config m
  | r => r
  end.
Definition candidate_sha256_of (data : list (string * json)) : outcome (option string) :=
  match or_default data "candidate_sha256" JNull with
  | JNull => Ret None
  | v => s ← check_string v; _ ← insist (SHA256_RE s) "candidate_sha256 must be null or a lowercase 64-hex SHA-256"; Ret (Some s)
  end.
Definition V2_RESOURCES_KEYS : list string := ["provider"; "system_reserve_bytes"; "sample_interval_seconds"; "sample_max_age_seconds"; "model_budget_bytes"].
Definition STORAGE_KEYS : list string := ["mount_path"; "model_directory"; "expected_uuid"; "filesystem"].

Definition parse_v2_config (raw : json) : outcome AppConfigV2 :=
  data ← strict raw V2_REQUIRED_KEYS V2_DERIVED_KEYS;
  candidate ← candidate_sha256_of data;
  reg ← at_key data "registration"; deployment ← registration_of reg;
  let models := dict_from ((fun m => (v2_model_id m, m)) <$> dep_models deployment) in
  let runtimes := dict_from ((fun r => (rt_runtime_id r, r)) <$> dep_runtimes deployment) in
  sv ← at_key data "server"; server ← server_config sv;
  _ ← fresh_ports [cfg_port server] (dep_models deployment);
  sc ← at_key data "scheduler"; scheduler ← strict sc SCHEDULER_REQUIRED ["pinned_models"; "preload_models"; "sessions"];
  head ← scheduler_head scheduler;
  let '(heat, thrash, margin) := head in
  pinned ← model_id_list (or_default scheduler "pinned_models" (JList [])) (keys models);
  preload ← model_id_list (or_default scheduler "preload_models" (JList [])) (keys models);
  _ ← insist (forallb (fun m => bool_decide (m ∈ preload)) pinned) "scheduler: pinned models must also be preloaded";
  scheduler_cfg ← scheduler_body scheduler heat thrash margin;
  sessions ← session_policy (or_default scheduler "sessions" (JObj []));
  rs ← at_key data "resources"; resources ← strict rs V2_RESOURCES_KEYS [];
  _ ← require_provider resources;
  interval ← number_at resources "sample_interval_seconds" true;
  max_age ← number_at resources "sample_max_age_seconds" true;
  _ ← insist (Qle_bool interval max_age) "resources.sample_interval_seconds must not exceed sample_max_age_seconds";
  reserve ← int_at resources "system_reserve_bytes" 0 None;
  budget ← int_at resources "model_budget_bytes" 1 None;
  st ← at_key data "storage"; storage ← strict st STORAGE_KEYS ["verify_timeout_seconds"];
  paths ← storage_paths storage;
  uuid ← string_at storage "expected_uuid";
  verify_timeout ← check_int (or_default storage "verify_timeout_seconds" (JInt 900)) 1 (Some 86400);
  gw ← at_key data "gateway"; gateway ← gateway_config gw;
  ct ← at_key data "control"; control ← control_config ct;
  bl ← at_key data "blobs"; blobs ← blobs_config bl paths.2 paths.1;
  Ret {| v2c_runtimes := runtimes; v2c_models := models; v2c_server := server; v2c_scheduler := scheduler_cfg; v2c_pinned := pinned; v2c_preload := preload;
         v2c_sessions := sessions; v2c_resources := {| cfg_system_reserve := reserve; cfg_sample_interval := interval; cfg_sample_max_age := max_age |};
         v2c_model_budget := budget; v2c_storage := {| cfg_mount := paths.1; cfg_directory := paths.2; cfg_expected_uuid := uuid |};
         v2c_verify_timeout := verify_timeout; v2c_gateway := gateway; v2c_control := control; v2c_blobs := blobs; v2c_candidate_sha256 := candidate |}.

(** ** The digest *)
(** [_check_json_native] *)
Fixpoint json_native (v : json) : outcome unit :=
  match v with
  | JFloat None => bad_config "non-finite numbers are not allowed"
  | JObj fields => (fix go l := match l with [] => Ret tt | kv :: l => _ ← json_native (snd kv); go l end) fields
  | JList items => (fix go l := match l with [] => Ret tt | x :: l => _ ← json_native x; go l end) items
  | _ => Ret tt
  end.
Definition digest_body (raw : list (string * json)) : list (string * json) := List.filter (fun kv => negb (bool_decide (kv.1 ∈ V2_DERIVED_KEYS))) raw.
Definition config_digest `{FloatText} `{Digest} (raw : list (string * json)) : outcome string :=
  _ ← check_each (digest_body raw) (fun kv => json_native kv.2);
  bytes ← canonical_json_bytes (JObj (digest_body raw));
  Ret (sha256_hex bytes).

(** ** Schema v1 *)
Record LlamaSwapConfig := { cfg_base_url : string; cfg_swap_connect : Q; cfg_swap_control : Q; cfg_swap_load : Q; cfg_swap_unload : Q }.
Record ModelConfig := {
  mc_model_id : string; mc_upstream_url : string; mc_capabilities : list string; mc_file : string; mc_sha256 : string; mc_container_name : string;
  mc_reserved_bytes : Z; mc_priority : Z; mc_max_concurrency : Z; mc_evictable : bool; mc_pinned : bool; mc_preload : bool; mc_ttl_seconds : Q;
}.
Record AppConfig := {
  v1c_server : ServerConfig; v1c_llama_swap : LlamaSwapConfig; v1c_scheduler : SchedulerConfig; v1c_resources : ResourcesConfig; v1c_storage : StorageConfig;
  v1c_gateway : GatewayConfig; v1c_models : dict string ModelConfig;
}.
(** [[a-z0-9][a-z0-9_-]{0,63}] *)
Definition MODEL_ID (s : string) : bool :=
  match chars s with
  | c :: l => is_alnum c && (length l <=? 63)%nat && forallb (fun c => is_alnum c || (code c =? 95) || (code c =? 45)) l
  | [] => false
  end.
Definition REQUIRED_MODELS : list string := ["embedding"; "reranker"; "qwen-small"; "qwen-large"].
Definition V1_MODEL_KEYS : list string := ["upstream_url"; "capabilities"; "file"; "sha256"; "container_name"; "memory"; "scheduling"; "lifecycle"].
Fixpoint texts (l : list json) : option (list string) :=
  match l with [] => Some [] | JStr s :: l => rest ← texts l; Some (s :: rest) | _ => None end.
Definition v1_capabilities_of (v : json) : outcome (list string) :=
  match v with
  | JList ((_ :: _) as l) =>
      names ← of_option (ConfigError "capabilities is invalid") (texts l);
      _ ← insist (forallb (fun c => bool_decide (c ∈ ["chat"; "embeddings"; "rerank"])) names) "capabilities is invalid";
      Ret (remove_dups names)
  | _ => bad_config "capabilities is invalid"
  end.

Section V1.
Context `{UrlSplit}.
Definition swap_config (v : json) (ports : list Z) : outcome (LlamaSwapConfig * list Z) :=
  swap ← mapping_of v ["base_url"; "connect_timeout_seconds"; "control_timeout_seconds"; "load_timeout_seconds"; "unload_timeout_seconds"];
  u ← at_key swap "base_url"; url ← loopback_url u ports;
  connect ← number_at swap "connect_timeout_seconds" true;
  control ← number_at swap "control_timeout_seconds" true;
  load ← number_at swap "load_timeout_seconds" true;
  unload ← number_at swap "unload_timeout_seconds" true;
  _ ← insist (Qle_bool control unload) "llama_swap.control_timeout_seconds must not exceed unload_timeout_seconds";
  Ret ({| cfg_base_url := url.1; cfg_swap_connect := connect; cfg_swap_control := control; cfg_swap_load := load; cfg_swap_unload := unload |}, url.2).

Definition v1_model (model_id : string) (v : json) (ports : list Z) : outcome (ModelConfig * list Z) :=
  _ ← insist (MODEL_ID model_id) "is not a valid model id";
  model ← mapping_of v V1_MODEL_KEYS;
  c ← at_key model "capabilities"; capabilities ← v1_capabilities_of c;
  filename ← string_at model "file";
  digest ← string_at model "sha256";
  _ ← insist (negb (has_char 47 filename) && negb (bool_decide (filename ∈ ["."; ".."])) && SHA256_RE digest) "has an unsafe file or sha256";
  m ← at_key model "memory"; memory ← mapping_of m ["reserved_bytes"];
  s ← at_key model "scheduling"; scheduling ← mapping_of s ["priority"; "max_concurrency"; "evictable"; "pinned"];
  l ← at_key model "lifecycle"; lifecycle ← mapping_of l ["preload"; "ttl_seconds"];
  priority ← int_at scheduling "priority" 0 (Some 1000);
  concurrency ← int_at scheduling "max_concurrency" 1 (Some 16);
  evictable ← bool_at scheduling "evictable";
  pinned ← bool_at scheduling "pinned";
  preload ← bool_at lifecycle "preload";
  ttl ← number_at lifecycle "ttl_seconds" false;
  _ ← insist (negb (pinned && (evictable || negb preload || negb (Qeq_bool ttl 0)))) "pinned models must be non-evictable, preloaded, and have ttl_seconds=0";
  u ← at_key model "upstream_url"; url ← loopback_url u ports;
  container ← string_at model "container_name";
  reserved ← int_at memory "reserved_bytes" 1 None;
  Ret ({| mc_model_id := model_id; mc_upstream_url := url.1; mc_capabilities := capabilities; mc_file := filename; mc_sha256 := digest;
          mc_container_name := container; mc_reserved_bytes := reserved; mc_priority := priority; mc_max_concurrency := concurrency;
          mc_evictable := evictable; mc_pinned := pinned; mc_preload := preload; mc_ttl_seconds := ttl |}, url.2).
Fixpoint v1_models (l : list (string * json)) (ports : list Z) (done : dict string ModelConfig) : outcome (dict string ModelConfig) :=
  match l with
  | [] => Ret done
  | (m, v) :: l => r ← v1_model m v ports; v1_models l r.2 (<[m := r.1]> done)
  end.

Definition load_v1 (raw : json) : outcome AppConfig :=
  data ← mapping_of raw ["schema_version"; "server"; "llama_swap"; "scheduler"; "resources"; "storage"; "gateway"; "models"];
  version ← int_at data "schema_version" 1 None;
  _ ← insist (version =? 1) "schema_version must equal 1";
  sv ← at_key data "server"; server ← server_config sv;
  sw ← at_key data "llama_swap"; swap ← swap_config sw [cfg_port server];
  sc ← at_key data "scheduler"; scheduler ← mapping_of sc SCHEDULER_REQUIRED;
  head ← scheduler_head scheduler;
  let '(heat, thrash, margin) := head in
  scheduler_cfg ← scheduler_body scheduler heat thrash margin;
  rs ← at_key data "resources"; resources ← mapping_of rs ["provider"; "system_reserve_bytes"; "sample_interval_seconds"; "sample_max_age_seconds"];
  _ ← require_provider resources;
  reserve ← int_at resources "system_reserve_bytes" 0 None;
  interval ← number_at resources "sample_interval_seconds" true;
  max_age ← number_at resources "sample_max_age_seconds" true;
  _ ← insist (Qle_bool interval max_age) "resources.sample_interval_seconds must not exceed sample_max_age_seconds";
  st ← at_key data "storage"; storage ← mapping_of st STORAGE_KEYS;
  paths ← storage_paths storage;
  uuid ← string_at storage "expected_uuid";
  gw ← at_key data "gateway"; gateway ← gateway_config gw;
  ms ← at_key data "models";
  fields ← match ms with
           | JObj fields => _ ← insist (forallb (fun kv => bool_decide (kv.1 ∈ REQUIRED_MODELS)) fields && forallb (fun k => present k fields) REQUIRED_MODELS)
                                  "models must contain exactly embedding, reranker, qwen-small, and qwen-large";
                            Ret fields
           | _ => bad_config "models must contain exactly embedding, reranker, qwen-small, and qwen-large"
           end;
  models ← v1_models fields swap.2 ∅;
  Ret {| v1c_server := server; v1c_llama_swap := swap.1; v1c_scheduler := scheduler_cfg;
         v1c_resources := {| cfg_system_reserve := reserve; cfg_sample_interval := interval; cfg_sample_max_age := max_age |};
         v1c_storage := {| cfg_mount := paths.1; cfg_directory := paths.2; cfg_expected_uuid := uuid |};
         v1c_gateway := gateway; v1c_models := models |}.

(** [load_config], on what the YAML reader answered *)
Inductive Loaded := LoadedV1 (c : AppConfig) | LoadedV2 (c : AppConfigV2).
Definition load_config (yaml : outcome json) : outcome Loaded :=
  raw ← yaml;
  match raw with
  | JObj fields =>
      let version := default JNull (jget "schema_version" fields) in
      if equals_int version 1 then c ← load_v1 raw; Ret (LoadedV1 c)
      else if equals_int version 2 then c ← parse_v2_config raw; Ret (LoadedV2 c)
      else bad_config "schema_version must be 1 or 2"
  | _ => bad_config "configuration root must be an object"
  end.
End V1.

(** [Capability(value)] *)
Definition capability_of (s : string) : outcome Capability :=
  if String.eqb s "chat" then Ret CHAT else if String.eqb s "embeddings" then Ret EMBEDDINGS
  else if String.eqb s "rerank" then Ret RERANK else Raise (ValueError "not a valid Capability").
(** Seconds in the unit of [time], to the nanosecond; no positive time becomes zero. *)
Definition seconds_of (q : Q) : time := - (- (Qnum q * second) / QDen q).
Definition model_spec_of (m : ModelConfig) : outcome ModelSpec :=
  capabilities ← mapM capability_of (mc_capabilities m);
  Ret {| v1_model_id := mc_model_id m; v1_upstream_url := mc_upstream_url m; v1_capabilities := capabilities; v1_reserved_bytes := mc_reserved_bytes m;
         v1_priority := mc_priority m; v1_max_concurrency := mc_max_concurrency m; v1_pinned := mc_pinned m; v1_evictable := mc_evictable m;
         v1_preload := mc_preload m; v1_ttl_seconds := seconds_of (mc_ttl_seconds m) |}.
Fixpoint specs_of (l : list (string * ModelConfig)) : outcome (list (string * ModelSpec)) :=
  match l with [] => Ret [] | (k, m) :: l => s ← model_spec_of m; rest ← specs_of l; Ret ((k, s) :: rest) end.
Definition model_specs (c : AppConfig) : outcome (dict string ModelSpec) := l ← specs_of (entries (v1c_models c)); Ret (Dict l).
