(* ===== verification/ConfigProps.v ===== *)
(** * Theorems on the configuration readers: what an accepted configuration
    guarantees to the parts that run on it, and what its digest identifies. *)

From S2P Require Import Prelude Text Dict Contracts Registration RegistrationProps JsonText JsonTextProps Identity Observer Control Config.
From Stdlib Require Import Ascii QArith.
Local Open Scope Z_scope.

Lemma insist_ret b m u : insist b m = Ret u ↔ b = true.
Proof. destruct u. unfold insist. by destruct b. Qed.
(** Peels a reader that returned. *)
Ltac inv_config :=
  repeat match goal with
  | H : _ ≫= _ = Ret _ |- _ => apply obind_ret in H; destruct H as (? & ? & H)
  | H : insist _ _ = Ret _ |- _ => apply insist_ret in H
  | H : of_option _ _ = Ret _ |- _ => apply of_option_ret in H
  | H : bad_config _ = Ret _ |- _ => discriminate H
  | H : Raise _ = Ret _ |- _ => discriminate H
  | H : Ret _ = Ret _ |- _ => injection H as <-
  end; bool_prop.

Lemma check_int_ret v lo hi n : check_int v lo hi = Ret n ↔ v = JInt n ∧ lo ≤ n ∧ ∀ m, hi = Some m → n ≤ m.
Proof.
  unfold check_int. split.
  - destruct v; try done. destruct (_ || _) eqn:E; [done|]. intros [= <-]. apply orb_false_iff in E as [E1 E2]. bool_prop. split_and!; [done|done|].
    intros m ->. bool_prop. lia.
  - intros (-> & Hlo & Hhi). rewrite (proj2 (Z.ltb_ge _ _)) by done. destruct hi as [m|]; [|done]. specialize (Hhi m eq_refl). by rewrite (proj2 (Z.ltb_ge _ _)) by lia.
Qed.
Lemma int_at_ret fields key lo hi n : int_at fields key lo hi = Ret n → lo ≤ n ∧ ∀ m, hi = Some m → n ≤ m.
Proof. unfold int_at, at_key. intros. inv_config. by apply check_int_ret in H as (_ & ? & ?). Qed.
Lemma number_ret v positive q : check_number v positive = Ret q → if positive then (0 < q)%Q else (0 <= q)%Q.
Proof.
  unfold check_number. intros. inv_config. destruct x as [p|]; [|done]. destruct positive.
  - destruct (Qle_bool p 0) eqn:E; [done|]. injection H as <-. apply Qnot_le_lt. intros Hle. apply Qle_bool_iff in Hle. congruence.
  - destruct (Qle_bool 0 p) eqn:E; [|done]. injection H as <-. by apply Qle_bool_iff.
Qed.
Lemma number_at_ret fields key positive q : number_at fields key positive = Ret q → if positive then (0 < q)%Q else (0 <= q)%Q.
Proof. unfold number_at, at_key. intros. inv_config. by eapply number_ret. Qed.
Lemma strict_ret v required optional fields : strict v required optional = Ret fields ↔
  v = JObj fields ∧ Forall (fun kv => kv.1 ∈ required ++ optional) fields ∧ Forall (fun k => is_Some (jget k fields)) required.
Proof.
  unfold strict. split.
  - destruct v; try done. intros. inv_config. rewrite forallb_forall in *. split_and!; [done| |].
    + apply Forall_forall. intros kv Hin. rewrite list_elem_of_In in Hin. match goal with K : ∀ x, In x _ → bool_decide (x.1 ∈ _) = true |- _ => by apply K, bool_decide_eq_true in Hin end.
    + apply Forall_forall. intros k Hin. rewrite list_elem_of_In in Hin. match goal with K : ∀ x, In x _ → present x _ = true |- _ => by apply K, bool_decide_eq_true in Hin end.
  - intros (-> & K1 & K2). rewrite Forall_forall in K1. rewrite Forall_forall in K2.
    assert (forallb (fun kv => bool_decide (kv.1 ∈ required ++ optional)) fields = true) as ->
      by (apply forallb_forall; intros kv Hin; apply bool_decide_eq_true, K1; by apply list_elem_of_In).
    assert (forallb (fun k => present k fields) required = true) as ->
      by (apply forallb_forall; intros k Hin; apply bool_decide_eq_true, K2; by apply list_elem_of_In).
    done.
Qed.

(** The bounds of every integer read. *)
Ltac bounds := repeat match goal with
  | K : int_at _ _ _ (Some _) = Ret _ |- _ => apply int_at_ret in K as [? K]; specialize (K _ eq_refl)
  | K : int_at _ _ _ None = Ret _ |- _ => apply int_at_ret in K as [? _]
  | K : check_int _ _ (Some _) = Ret _ |- _ => apply check_int_ret in K as (? & ? & K); specialize (K _ eq_refl)
  | K : check_int _ _ None = Ret _ |- _ => apply check_int_ret in K as (? & ? & _)
  end.

(** ** The server and the ports *)
Lemma server_ret v s : server_config v = Ret s → cfg_host s ∈ LOOPBACK ∧ 1 ≤ cfg_port s ≤ 65535 ∧ cfg_workers s = 1.
Proof.
  unfold server_config. intros. inv_config. cbn. bounds.
  split_and!; [done|lia|lia|lia].
Qed.
Lemma fresh_ports_ret models : ∀ ports u, fresh_ports ports models = Ret u → NoDup ports → NoDup (rev (v2_port <$> models) ++ ports).
Proof.
  induction models as [|m models IH]; intros ports u E Hp; [done|]. cbn [fresh_ports] in E. inv_config.
  cbn [fmap list_fmap rev]. rewrite <-app_assoc. eapply IH; [done|]. by constructor.
Qed.

(** ** Model references *)
Lemma model_items_ret registered l : ∀ seen ms, model_id_list_items registered seen l = Ret ms → NoDup seen → Forall (fun m => m ∈ registered) seen →
  NoDup ms ∧ Forall (fun m => m ∈ registered) ms.
Proof.
  induction l as [|v l IH]; intros seen ms E Hn Hr; cbn [model_id_list_items] in E.
  - injection E as <-. rewrite <-Permutation_rev. done.
  - inv_config. eapply IH; [done|by constructor|by constructor].
Qed.

Lemma model_id_list_ret v registered ms : model_id_list v registered = Ret ms → NoDup ms ∧ ms ⊆ registered.
Proof.
  unfold model_id_list. destruct v; try done. intros E. apply model_items_ret in E as [Hn Hf]; [|constructor|constructor]. split; [done|]. by rewrite Forall_forall in Hf.
Qed.

(** ** Session policy *)
(** The limits the session contract fixes, and their order. *)
Definition session_limits_ok (p : SessionPolicy) : Prop :=
  1 ≤ sp_queue_capacity p ≤ 128 ∧ 1 ≤ sp_heartbeat p ≤ 10 ∧ 1 ≤ sp_ttl p ≤ 30 ∧
  1 ≤ sp_prepare_limit p ≤ sp_queue_timeout p ∧ sp_prepare_limit p ≤ 900 ∧ sp_queue_timeout p ≤ 1800 ∧
  1 ≤ sp_stop_grace p ≤ sp_cleanup_limit p ∧ sp_stop_grace p ≤ 30 ∧ sp_cleanup_limit p ≤ 60 ∧ sp_cleanup_limit p ≤ sp_hard_timeout p ≤ 86400.
Lemma session_policy_ok raw p : session_policy raw = Ret p → session_limits_ok p.
Proof.
  unfold session_policy, session_value. intros. inv_config.
  repeat match goal with K : match assoc ?k SESSION_BOUNDS with _ => _ end = Ret _ |- _ =>
    let e := eval vm_compute in (assoc k SESSION_BOUNDS) in change (assoc k SESSION_BOUNDS) with e in K; cbn iota in K end.
  bounds. unfold session_limits_ok. cbn. lia.
Qed.

(** ** Blobs *)
Definition blobs_ok (b : BlobsConfig) : Prop :=
  1 ≤ cfg_owner_quota b ≤ cfg_total_quota b ∧ 1 ≤ cfg_chunk_reserve b ≤ cfg_max_blob b ∧ cfg_max_blob b ≤ CONFIG_MAX_BLOB_BYTES ∧
  1 ≤ cfg_min_free_disk b ∧ 1 ≤ cfg_input_ttl b ∧ 1 ≤ cfg_output_ttl b ∧ is_absolute (cfg_blob_root b) = true.
Lemma absolute_path_ret v p : absolute_path v = Ret p → is_absolute p = true.
Proof. unfold absolute_path. intros. inv_config. destruct (is_absolute _) eqn:E; [|done]. by injection H as <-. Qed.
Lemma blobs_ret raw directory mount b : blobs_config raw directory mount = Ret b → blobs_ok b ∧ cfg_blob_root b ≠ mount ∧ cfg_blob_root b ≠ directory.
Proof.
  unfold blobs_config. intros. inv_config. bounds. match goal with K : absolute_path _ = _ |- _ => apply absolute_path_ret in K end.
  match goal with K : _ ∉ [mount; directory] |- _ => apply not_elem_of_cons in K as [? K]; apply not_elem_of_cons in K as [? _] end.
  unfold blobs_ok. cbn. split_and!; try done; lia.
Qed.

(** ** The rest *)
Lemma uid_list_ret l : ∀ uids, uid_list l = Some uids → length uids = length l ∧ Forall (fun u => 0 ≤ u ≤ MAX_UID) uids.
Proof.
  induction l as [|v l IH]; intros uids Hu; cbn in Hu; [by injection Hu as <-|]. destruct v; try done. destruct (_ && _) eqn:E; [|done].
  destruct (uid_list l) as [rest|]; [|done]. cbn in Hu. injection Hu as <-. bool_prop. destruct (IH rest eq_refl) as [Hl Hf]. split; [cbn; congruence|constructor; [lia|done]].
Qed.
Lemma control_ret raw c : control_config raw = Ret c → cfg_allowed_uids c ≠ [] ∧ NoDup (cfg_allowed_uids c) ∧ Forall (fun u => 0 ≤ u ≤ MAX_UID) (cfg_allowed_uids c).
Proof.
  unfold control_config. intros. inv_config. cbn. match goal with K : match ?v with _ => _ end = Ret ?u, _ : NoDup ?u |- _ => destruct v as [| | | | |l|]; try done; destruct l as [|a l]; [done|]; apply of_option_ret, uid_list_ret in K as [Hl Hf] end.
  split_and!; [|done|done]. by intros ->.
Qed.
Lemma storage_ret storage p : storage_paths storage = Ret p → is_absolute p.1 = true ∧ is_absolute p.2 = true ∧ parent p.2 = p.1.
Proof. unfold storage_paths. intros. inv_config. done. Qed.

(** What the parts that run on a v2 configuration rely on. *)
Record config_ok (c : AppConfigV2) (d : DeploymentSpec) : Prop := {
  ok_models : v2c_models c = dict_from ((fun m => (v2_model_id m, m)) <$> dep_models d);
  ok_runtimes : v2c_runtimes c = dict_from ((fun r => (rt_runtime_id r, r)) <$> dep_runtimes d);
  ok_loopback : cfg_host (v2c_server c) ∈ LOOPBACK ∧ 1 ≤ cfg_port (v2c_server c) ≤ 65535 ∧ cfg_workers (v2c_server c) = 1;
  ok_ports : NoDup (cfg_port (v2c_server c) :: (v2_port <$> dep_models d));
  ok_pinned : NoDup (v2c_pinned c) ∧ NoDup (v2c_preload c) ∧ v2c_pinned c ⊆ v2c_preload c ∧ v2c_preload c ⊆ keys (v2c_models c);
  ok_sessions : session_limits_ok (v2c_sessions c);
  ok_sampling : (0 < cfg_sample_interval (v2c_resources c) <= cfg_sample_max_age (v2c_resources c))%Q ∧ 0 ≤ cfg_system_reserve (v2c_resources c) ∧ 1 ≤ v2c_model_budget c;
  ok_storage : is_absolute (cfg_mount (v2c_storage c)) = true ∧ parent (cfg_directory (v2c_storage c)) = cfg_mount (v2c_storage c) ∧ 1 ≤ v2c_verify_timeout c ≤ 86400;
  ok_control : cfg_allowed_uids (v2c_control c) ≠ [] ∧ NoDup (cfg_allowed_uids (v2c_control c)) ∧ Forall (fun u => 0 ≤ u ≤ MAX_UID) (cfg_allowed_uids (v2c_control c));
  ok_blobs : blobs_ok (v2c_blobs c) ∧ cfg_blob_root (v2c_blobs c) ≠ cfg_mount (v2c_storage c) ∧ cfg_blob_root (v2c_blobs c) ≠ cfg_directory (v2c_storage c);
  ok_candidate : ∀ s, v2c_candidate_sha256 c = Some s → SHA256_RE s = true;
}.
Lemma registration_ret v d : registration_of v = Ret d → ∃ fields, v = JObj fields ∧ parse_deployment (JObj (("schema_version", JInt SCHEMA_VERSION) :: fields)) = Ret d.
Proof.
  unfold registration_of. intros. inv_config. match goal with K : strict _ _ _ = _ |- _ => apply strict_ret in K as (-> & _) end.
  eexists. split; [done|]. destruct (parse_deployment _) as [x0|e]; [by injection H as <-|by destruct e].
Qed.
Lemma candidate_ret data o : candidate_sha256_of data = Ret o → ∀ s, o = Some s → SHA256_RE s = true.
Proof. unfold candidate_sha256_of. destruct (or_default _ _ _); intros E t ->; try discriminate E; inv_config; done. Qed.

(** An accepted v2 configuration is one the rest of the program can run on:
    its registration is one the registration reader accepted, the server listens
    on a loopback address and no two listeners share a port, pinned models are
    preloaded and registered, the session limits are within the fixed contract
    and in order, samples are taken within their maximum age, blob quotas nest and
    the blob store is kept off the model media, and at least one distinct numeric
    user may connect. *)
Theorem config_v2_sound raw c : parse_v2_config raw = Ret c →
  ∃ fields registration d, raw = JObj fields ∧ jget "registration" fields = Some (JObj registration) ∧
    parse_deployment (JObj (("schema_version", JInt SCHEMA_VERSION) :: registration)) = Ret d ∧ config_ok c d.
Proof.
  unfold parse_v2_config. intros E. apply obind_ret in E as (data & Hd & E). apply strict_ret in Hd as (-> & _). unfold at_key in E.
  inv_config. match goal with K : scheduler_head _ = Ret ?h |- _ => destruct h as [[heat thrash] margin]; clear K end. inv_config.
  repeat match goal with
  | K : registration_of _ = _ |- _ => apply registration_ret in K as (registration & -> & Hdep)
  | K : server_config _ = _ |- _ => apply server_ret in K
  | K : fresh_ports _ _ = _ |- _ => apply fresh_ports_ret in K; [|apply NoDup_singleton]; rewrite <-Permutation_rev, Permutation_app_comm in K
  | K : model_id_list _ _ = _ |- _ => apply model_id_list_ret in K as [? ?]
  | K : session_policy _ = _ |- _ => apply session_policy_ok in K
  | K : number_at _ _ true = _ |- _ => apply number_at_ret in K; cbn iota in K
  | K : storage_paths _ = _ |- _ => apply storage_ret in K as (? & ? & ?)
  | K : control_config _ = _ |- _ => apply control_ret in K
  | K : blobs_config _ _ _ = _ |- _ => apply blobs_ret in K as (? & ? & ?)
  | K : candidate_sha256_of _ = _ |- _ => pose proof (candidate_ret _ _ K); clear K
  | K : Qle_bool _ _ = true |- _ => apply Qle_bool_iff in K
  | K : forallb _ _ = true |- _ => rewrite forallb_forall in K
  end. bounds.
  exists data, registration, x1. split_and!; [done|done|done|]. split; cbn; try done.
  split_and!; [done|done| |done]. intros m Hm%list_elem_of_In. by match goal with K : ∀ m, In m _ → bool_decide _ = true |- _ => apply K, bool_decide_eq_true in Hm end.
Qed.

(** ** The digest *)
Lemma digest_body_set k x raw : k ∈ V2_DERIVED_KEYS → digest_body (assoc_set k x raw) = digest_body raw.
Proof.
  intros Hk. unfold digest_body. induction raw as [|[k' v] raw IH]; cbn [assoc_set].
  - cbn [List.filter fst]. by rewrite bool_decide_eq_true_2.
  - case_decide as E; [subst k'|]; cbn [List.filter fst]; [by rewrite bool_decide_eq_true_2|by rewrite IH].
Qed.

(** The digest of a configuration does not depend on the derived candidate
    digest, which is written back into the file later; and two configurations
    with the same digest have the same content, key order aside, unless their
    canonical texts are a collision of SHA-256. *)
Theorem config_digest_exact `{FloatTextLaws} `{Digest} raw d :
  config_digest raw = Ret d →
  (∀ candidate, config_digest (assoc_set "candidate_sha256" candidate raw) = Ret d) ∧
  ∀ raw', config_digest raw' = Ret d → readable (JObj (digest_body raw)) → readable (JObj (digest_body raw')) →
    sorted_keys (JObj (digest_body raw')) = sorted_keys (JObj (digest_body raw)) ∨
    ∃ text text', canonical_json_bytes (JObj (digest_body raw)) = Ret text ∧ canonical_json_bytes (JObj (digest_body raw')) = Ret text' ∧
      text ≠ text' ∧ sha256_hex text = sha256_hex text'.
Proof.
  intros E. split.
  - intros candidate. unfold config_digest in *. by rewrite digest_body_set by left.
  - intros raw' E' Hr Hr'. unfold config_digest in E, E'.
    apply obind_ret in E as (_ & _ & E). apply obind_ret in E as (t & C & E). apply obind_ret in E' as (_ & _ & E'). apply obind_ret in E' as (t' & C' & E').
    assert (sha256_hex t = sha256_hex t') as Hs by congruence. destruct (decide (t = t')) as [Heq|Hne].
    + left. subst. apply canonical_parses in C; [|done]. apply canonical_parses in C'; [|done]. congruence.
    + right. exists t, t'. done.
Qed.

(** ** A concrete configuration *)
Definition demo_seconds (keys : list string) : list (string * json) := (fun k => (k, JInt 5)) <$> keys.
Definition demo_config : list (string * json) :=
  [("schema_version", JInt 2);
   ("registration", JObj [("runtimes", JList (runtime_json <$> dep_runtimes demo_deployment)); ("models", JList (model_json <$> dep_models demo_deployment))]);
   ("server", JObj [("host", JStr "127.0.0.1"); ("port", JInt 9000); ("workers", JInt 1); ("max_request_body_bytes", JInt 1024);
                    ("body_timeout_seconds", JFloat (Some (thousandths 500))); ("shutdown_grace_seconds", JInt 3)]);
   ("scheduler", JObj (demo_seconds ["poll_interval_seconds"; "request_queue_timeout_seconds"; "queue_capacity"; "priority_aging_seconds";
                         "switch_drain_timeout_seconds"; "switch_retry_seconds"; "min_free_memory_bytes"; "max_evictions_per_request"; "memory_reclaim_timeout_seconds"]
                       ++ [("resource_safety_margin", JInt 0); ("heat", JObj (demo_seconds HEAT_KEYS)); ("thrash", JObj (demo_seconds THRASH_KEYS));
                           ("preload_models", JList [JStr "vision-4b"])]));
   ("resources", JObj (("provider", JStr "psutil") :: demo_seconds ["system_reserve_bytes"; "sample_interval_seconds"; "sample_max_age_seconds"; "model_budget_bytes"]));
   ("storage", JObj [("mount_path", JStr "/mnt"); ("model_directory", JStr "/mnt//models/."); ("expected_uuid", JStr "u"); ("filesystem", JStr "ext4")]);
   ("gateway", JObj (demo_seconds GATEWAY_KEYS));
   ("control", JObj [("allowed_uids", JList [JInt 1000])]);
   ("blobs", JObj [("root", JStr "/var/blobs")])].

Example demo_config_port : match parse_v2_config (JObj (assoc_set "server" (JObj [("host", JStr "127.0.0.1"); ("port", JInt 10002); ("workers", JInt 1);
    ("max_request_body_bytes", JInt 1024); ("body_timeout_seconds", JInt 1); ("shutdown_grace_seconds", JInt 3)]) demo_config)) with
  | Raise (ConfigError m) => m | _ => "" end = "registration.models reuses port".
Proof. vm_compute. reflexivity. Qed.

Lemma config_v2_sound_witness : ∃ c d, parse_v2_config (JObj demo_config) = Ret c ∧ config_ok c d.
Proof.
  assert (∃ c, parse_v2_config (JObj demo_config) = Ret c) as [c E] by (eexists; vm_compute; reflexivity).
  destruct (config_v2_sound _ _ E) as (fields & registration & d & _ & _ & _ & Hok). exists c, d. split; [exact E|exact Hok].
Defined.

#[local] Existing Instance thousandths_floats.
#[local] Existing Instance thousandths_laws.
Definition demo_small : list (string * json) := [("schema_version", JInt 2); ("a", JStr "x")].
(** A digest that tells texts of up to 64 characters apart. *)
Definition first_64 (s : string) : string := String.substring 0 64 (s +:+ concat_text (repeat "0" 64)).
Lemma first_64_length s : String.length (first_64 s) = 64%nat.
Proof. unfold first_64. rewrite substring_length, append_length. change (String.length (concat_text (repeat "0" 64))) with 64%nat. lia. Qed.
#[local] Instance first_digest : Digest := {| sha256_hex := first_64; sha256_hex_length := first_64_length |}.

Lemma config_digest_exact_witness : ∃ d, config_digest demo_small = Ret d ∧ config_digest (assoc_set "candidate_sha256" (JStr "c") demo_small) = Ret d ∧
  sorted_keys (JObj (digest_body (rev demo_small))) = sorted_keys (JObj (digest_body demo_small)).
Proof.
  assert (∃ d, config_digest demo_small = Ret d ∧ config_digest (rev demo_small) = Ret d) as (d & E & E') by (eexists; vm_compute; done).
  destruct (config_digest_exact demo_small d E) as [Hc Hx]. exists d. split_and!; [exact E|exact (Hc (JStr "c"))|].
  destruct (Hx (rev demo_small) E') as [Hs|(t & t' & C & C' & Hne & _)].
  - split; [apply (bool_decide_unpack (NoDup ["schema_version"; "a"])); vm_compute; exact I|]. split; [exact I|]. split; exact I.
  - split; [apply (bool_decide_unpack (NoDup ["a"; "schema_version"])); vm_compute; exact I|]. split; [exact I|]. split; exact I.
  - exact Hs.
  - exfalso. apply Hne. assert (@canonical_json_bytes thousandths_floats (JObj (digest_body demo_small)) = canonical_json_bytes (JObj (digest_body (rev demo_small)))) as Hb by (vm_compute; reflexivity).
    congruence.
Defined.
