(* ===== verification/Runtime.v ===== *)
(** * Runtime composition

    [model_scheduler/runtime.py] apart from [reconcile_startup] (in [Startup]):
    the checks that join a rendered manifest to a configuration, the ledger of the
    book, the start of the scheduler, and the lab manifest. *)

From S2P Require Import Prelude Text Dict Env Contracts Registry Sessions Scheduler Registration JsonText Identity Observer Control Lifecycle Config RegistryFacts RegistryProps RegistrationProps ConfigProps.
From Stdlib Require Import Ascii QArith.
Local Open Scope Z_scope.

Definition bad_composition {A} (msg : string) : outcome A := Raise (RuntimeCompositionError msg).

(** ** The earlier backend: [build_backend] *)

(** [[^@]+@sha256:[0-9a-f]{64}], on the whole text *)
Fixpoint pinned_image (name : bool) (l : list ascii) : bool :=
  match l with
  | [] => false
  | c :: l' => if code c =? 64 then name && match after "sha256:" (text_of l') with Some d => SHA256_RE d | None => false end else pinned_image true l'
  end.
Definition IMAGE (s : string) : bool := pinned_image false (chars s).
(** [[a-z0-9][a-z0-9-]{0,63}] *)
Definition DEPLOYMENT (s : string) : bool :=
  match chars s with
  | c :: l => is_alnum c && (length l <=? 63)%nat && forallb (fun c => is_alnum c || (code c =? 45)) l
  | [] => false
  end.
Definition same_names (fields : list (string * json)) (names : list string) : bool :=
  forallb (fun kv => bool_decide (kv.1 ∈ names)) fields && forallb (fun n => present n fields) names.
Definition container_name_of (deployment id : string) : string := "sms-" +:+ deployment +:+ "-" +:+ id.

Section Backend.
Context `{UrlSplit}.
(** One model: the rendered entry agrees with the configuration. *)
Definition managed_model (deployment : string) (models : list (string * json)) (id : string) (m : ModelConfig) : outcome ManagedModel :=
  rendered ← of_option (KeyError id) (jget id models);
  match rendered with
  | JObj entry =>
      if is_text (jget "container_name" entry) (mc_container_name m) && is_text (jget "file" entry) (mc_file m) && is_text (jget "sha256" entry) (mc_sha256 m)
         && String.eqb (mc_container_name m) (container_name_of deployment id)
      then
        parsed ← urlsplit (mc_upstream_url m);
        port ← url_port parsed;
        match port with Some port => Ret {| mm_container_name := mc_container_name m; mm_port := port |} | None => bad_composition "invalid model loopback port" end
      else bad_composition "manifest/config model identity mismatch"
  | _ => bad_composition "manifest/config model identity mismatch"
  end.
Fixpoint managed_models (deployment : string) (models : list (string * json)) (l : list (string * ModelConfig)) : outcome (list (string * ManagedModel)) :=
  match l with
  | [] => Ret []
  | (id, m) :: l => x ← managed_model deployment models id m; rest ← managed_models deployment models l; Ret ((id, x) :: rest)
  end.
(** The observer the backend is built with, and the managed models. *)
Definition build_backend (config : AppConfig) (manifest : json) (config_sha256 : string) : outcome (ProcessObserver * dict string ManagedModel) :=
  match manifest with
  | JObj fields =>
      if negb (SHA256_RE config_sha256) then bad_composition "invalid runtime manifest identity"
      else match jget "deployment_id" fields, jget "image" fields, jget "models" fields with
      | Some (JStr deployment), Some (JStr image), Some (JObj models) =>
          if DEPLOYMENT deployment && IMAGE image && is_text (jget "config_sha256" fields) config_sha256 && same_names models (keys (v1c_models config))
          then
            l ← managed_models deployment models (entries (v1c_models config));
            Ret ({| po_deployment_id := deployment; po_image_digest := image; po_config_sha256 := config_sha256 |}, Dict l)
          else bad_composition "invalid runtime manifest identity"
      | _, _, _ => bad_composition "invalid runtime manifest identity"
      end
  | _ => bad_composition "invalid runtime manifest identity"
  end.
End Backend.

(** ** The ledger: [ledger_specs_from] *)
Definition ledger_specs_from (config : option AppConfig) (registration : option DeploymentSpec) : outcome (dict string Registration) :=
  match config, registration with
  | Some c, None => d ← model_specs c; Ret (dmap (fun _ s => RegV1 s) d)
  | None, Some r =>
      let models := dict_from ((fun m => (v2_model_id m, m)) <$> dep_models r) in
      _ ← raise_if (negb (dlen models =? Z.of_nat (length (dep_models r)))) (ValueError "the registration declares duplicate model ids");
      _ ← raise_if (negb (forallb (fun m => bool_decide (v2_runtime_id m ∈ rt_runtime_id <$> dep_runtimes r)) (dep_models r)))
            (ValueError "models reference unknown runtimes");
      Ret (dmap (fun _ s => RegV2 s) models)
  | _, _ => Raise (ValueError "exactly one of config or registration is required")
  end.

(** ** The scheduler: [build_scheduler] *)
Section Scheduler.
Context `{!PyEnv}.
(** The book, with the models observed stopped: all of them when [None]. *)
Definition build_book (config : AppConfig) (total_bytes : Z) (confirmed_stopped : option (list string)) : outcome Book :=
  let sc := v1c_scheduler config in
  let budget := total_bytes - cfg_system_reserve (v1c_resources config) - cfg_min_free_memory sc in
  _ ← raise_if (budget <=? 0) (ValueError "system memory cannot satisfy configured reserves");
  specs ← ledger_specs_from (Some config) None;
  b ← Book_init specs budget (cfg_min_free_memory sc) (cfg_margin sc) (seconds_of (cfg_sample_max_age (v1c_resources config)))
        (seconds_of (cfg_half_life (cfg_heat sc))) (cfg_request_weight (cfg_heat sc)) (cfg_token_weight (cfg_heat sc));
  let stop ids : outcome Book := match for_each ids bootstrap_stopped b with (b', Ret _) => Ret b' | (_, Raise e) => Raise e end in
  match confirmed_stopped with
  | None => stop (keys (Registry.specs b))
  | Some observed =>
      _ ← raise_if (negb (forallb (fun m => bool_decide (m ∈ keys (Registry.specs b))) observed)) (ValueError "stop evidence names unknown models");
      stop (remove_dups observed)
  end.
(** The default session manager is the scheduler's own. *)
Definition build_scheduler (config : AppConfig) (total_bytes : Z) (confirmed_stopped : option (list string)) (sessions : SessionManager) : outcome ModelScheduler :=
  b ← build_book config total_bytes confirmed_stopped;
  let sc := v1c_scheduler config in
  ModelScheduler_init b (cfg_queue_capacity sc) (seconds_of (cfg_priority_aging sc)) (seconds_of (cfg_poll_interval sc)) (cfg_max_evictions sc)
    (seconds_of (cfg_switch_drain_timeout sc)) (seconds_of (cfg_switch_retry sc)) (seconds_of (cfg_switch_window (cfg_thrash sc)))
    (cfg_max_switches (cfg_thrash sc)) (seconds_of (cfg_cooldown (cfg_thrash sc))) 3 true sessions.
End Scheduler.

(** ** The managed composition: the ports a model must have *)
Definition missing_ports (models clients observers urls : list string) : list string :=
  List.filter (fun m => negb (bool_decide (m ∈ clients)) && negb (bool_decide (m ∈ observers)) && negb (bool_decide (m ∈ urls))) models.
(** The adapters are then built one by one, by lookups in the three mappings. *)
Definition managed_ports (models clients observers urls : list string) : outcome unit :=
  _ ← raise_if (negb (bool_decide (missing_ports models clients observers urls = []))) (RuntimeCompositionError "managed composition lacks ports for");
  check_each models (fun m =>
    _ ← raise_if (negb (bool_decide (m ∈ urls))) (KeyError m);
    raise_if (negb (bool_decide (m ∈ clients))) (KeyError m)).

(** ** The lab manifest *)
Definition bad_lab {A} (msg : string) : outcome A := Raise (DeployError msg).
Fixpoint argv_bytes (l : list json) : outcome (list string) :=
  match l with
  | [] => Ret []
  | JStr s :: l => _ ← raise_if (negb (encodable s)) (ValueError "UnicodeEncodeError"); rest ← argv_bytes l; Ret (s :: rest)
  | _ => Raise (AttributeError "encode")
  end.
(** [b"\x00".join(...)] *)
Definition NUL : string := String (byte 0) "".
Definition lab_entry `{Digest} (v : json) : outcome unit :=
  match v with
  | JObj entry =>
      match jget "argv" entry with
      | Some (JList ((_ :: _) as argv)) =>
          tokens ← argv_bytes argv;
          if is_text (jget "argv_sha256" entry) (sha256_hex (join NUL tokens)) then Ret tt else bad_lab "does not match its argv digest"
      | _ => bad_lab "has no rendered argv"
      end
  | _ => bad_lab "has no rendered argv"
  end.
Definition load_lab_manifest `{Digest} (text : outcome string) (config : option (outcome string)) : outcome (list (string * json)) :=
  manifest ← match text ≫= loads plain_hooks with
             | Raise (OSError m) | Raise (ValueError m) => bad_lab m
             | r => r
             end;
  match manifest with
  | JObj fields =>
      _ ← raise_if (negb (is_text (jget "mode" fields) "lab" && match jget "lab_only" fields with Some (JBool true) => true | _ => false end))
            (DeployError "the lab manifest must be an explicit lab-only render");
      models ← match jget "models" fields with
               | Some (JObj ((_ :: _) as models)) => if match jget "schema_version" fields with Some v => equals_int v 1 | None => false end then Ret models
                                                    else bad_lab "the lab manifest declares no model"
               | _ => bad_lab "the lab manifest declares no model"
               end;
      _ ← check_each models (fun kv => lab_entry kv.2);
      _ ← match config with
          | None => Ret tt
          | Some bytes =>
              data ← match bytes with Raise (OSError m) => bad_lab m | r => r end;
              raise_if (negb (is_text (jget "config_sha256" fields) (sha256_hex data))) (DeployError "the lab manifest config digest does not match this configuration")
          end;
      Ret fields
  | _ => bad_lab "the lab manifest must be an explicit lab-only render"
  end.
Definition lab_launch_argv (manifest : list (string * json)) (model_id : string) : outcome (list json) :=
  match jget "models" manifest with
  | Some (JObj models) =>
      match jget model_id models with
      | Some (JObj entry) => match jget "argv" entry with Some (JList argv) => Ret argv | _ => bad_lab "has no rendered entry" end
      | _ => bad_lab "has no rendered entry"
      end
  | _ => bad_lab "has no rendered entry"
  end.

(** ** Theorems on the runtime composition *)
Section Book.
Context `{!PyEnv}.

(** A run of bootstraps: the named models become stopped, the others keep what
    they had. *)
Lemma bootstrap_run b m b' u : bootstrap_stopped m b = (b', Ret u) →
  ∃ r, runtime b !! m = Some r ∧ state r = UNKNOWN ∧ b' = put_runtime m (r <| state := UNLOADED |> <| reservation := 0 |>) b.
Proof.
  unfold bootstrap_stopped, runtime_of, set_runtime. run_unfold. destruct (runtime b !! m) as [r|]; [|done]. destruct (negb _ || _ || _) eqn:E; [done|].
  intros [= <- _]. bool_prop. by exists r.
Qed.
Lemma bootstraps_run ids : ∀ b b' u, NoDup ids → for_each ids bootstrap_stopped b = (b', Ret u) →
  (∀ m r, runtime b !! m = Some r → ∃ r', runtime b' !! m = Some r' ∧
     if decide (m ∈ ids) then state r = UNKNOWN ∧ state r' = UNLOADED ∧ reservation r' = 0 else r' = r) ∧ specs b' = specs b.
Proof.
  induction ids as [|x ids IH]; intros b b' u Hnd E; cbn [for_each] in E.
  - injection E as <- _. split; [|done]. intros m r Hr. exists r. split; [done|]. rewrite decide_False; [done|apply not_elem_of_nil].
  - apply NoDup_cons in Hnd as [Hx Hnd]. unfold mbind at 1, pym_bind at 1 in E. destruct (bootstrap_stopped x b) as [b1 [u1|e]] eqn:E1; [|done].
    apply bootstrap_run in E1 as (r0 & Hr0 & Hs0 & ->). destruct (IH _ _ _ Hnd E) as [K Hsp]. split; [|done]. intros m r Hr.
    destruct (decide (m = x)) as [->|Hne].
    + rewrite Hr0 in Hr. injection Hr as <-. destruct (K x (r0 <| state := UNLOADED |> <| reservation := 0 |>)) as (r' & Hr' & Hk); [simpl; by rewrite dict_lookup_insert_eq|].
      rewrite decide_False in Hk by done. subst r'. eexists. split; [done|]. rewrite decide_True by (left). done.
    + destruct (K m r) as (r' & Hr' & Hk); [simpl; by rewrite dict_lookup_insert_ne|]. exists r'. split; [done|].
      destruct (decide (m ∈ ids)); [rewrite decide_True by (by right); done|]. rewrite decide_False; [done|]. by intros [|]%elem_of_cons.
Qed.

Lemma book_init_runtime sp budget floor mg age hl rw tw b m r : Book_init sp budget floor mg age hl rw tw = Ret b → runtime b !! m = Some r →
  state r = UNKNOWN ∧ ∃ e, ledger b !! m = Some e ∧ reservation r = led_effective_reserved_bytes e.
Proof.
  unfold Book_init. intros E Hr. inv_parse. cbn [runtime ledger] in *. rewrite dict_lookup_dmap in Hr.
  destruct (_ !! m) as [e|] eqn:El; [|done]. cbn in Hr. injection Hr as <-. cbn. split; [done|]. by exists e.
Qed.
End Book.

Section Boot.
Context `{!PyEnv}.
Lemma ledger_put m r b : ledger (put_runtime m r b) = ledger b.
Proof. done. Qed.
Lemma bootstraps_ledger ids : ∀ b b' u, for_each ids bootstrap_stopped b = (b', Ret u) → ledger b' = ledger b.
Proof.
  induction ids as [|x ids IH]; intros b b' u E; cbn [for_each] in E; [by injection E as <-|].
  unfold mbind at 1, pym_bind at 1 in E. destruct (bootstrap_stopped x b) as [b1 [u1|e]] eqn:E1; [|done]. apply bootstrap_run in E1 as (r0 & _ & _ & ->).
  by rewrite (IH _ _ _ E).
Qed.
Lemma unknown_not_loadable b m r sample now : runtime b !! m = Some r → state r = UNKNOWN → ∃ e, begin_load m sample now b = (b, Raise e).
Proof.
  intros Hr Hs. unfold begin_load. unfold mbind at 1, pym_bind at 1, get at 1. unfold mbind at 1, pym_bind at 1, lift at 1. unfold can_load, runtime_of. rewrite Hr.
  cbn [of_option mbind outcome_bind]. destruct (required b m) as [req|e]; [|by eexists]. cbn [mbind outcome_bind].
  destruct (sample_after_stop b m sample) as [af|e]; [|by eexists]. cbn [mbind outcome_bind]. destruct (physical_admissible b m) as [phys|e]; [|by eexists].
  cbn [mbind outcome_bind]. rewrite Hs. rewrite (bool_decide_eq_false_2 (UNKNOWN = UNLOADED)) by done. rewrite andb_false_r. by eexists.
Qed.

Lemma same_keys_specs sp budget floor mg age hl rw tw b : Book_init sp budget floor mg age hl rw tw = Ret b → specs b = sp.
Proof. unfold Book_init. intros E. by inv_parse. Qed.

(** A model is bootstrapped at most once, and only from UNKNOWN. *)
Lemma bootstraps_from ids : ∀ b b' u m, for_each ids bootstrap_stopped b = (b', Ret u) → m ∈ ids → ∃ r, runtime b !! m = Some r ∧ state r = UNKNOWN.
Proof.
  induction ids as [|x ids IH]; intros b b' u m E Hm; [by apply elem_of_nil in Hm|]. cbn [for_each] in E.
  unfold mbind at 1, pym_bind at 1 in E. destruct (bootstrap_stopped x b) as [b1 [u1|e]] eqn:E1; [|done]. apply bootstrap_run in E1 as (r0 & Hr0 & Hs0 & ->).
  destruct (decide (m = x)) as [->|Hne]; [by exists r0|]. apply elem_of_cons in Hm as [|Hm]; [done|]. destruct (IH _ _ _ m E Hm) as (r & Hr & Hs).
  simpl in Hr. rewrite dict_lookup_insert_ne in Hr by done. by exists r.
Qed.
Lemma bootstraps_nodup ids : ∀ b b' u, for_each ids bootstrap_stopped b = (b', Ret u) → NoDup ids.
Proof.
  induction ids as [|x ids IH]; intros b b' u E; [constructor|]. cbn [for_each] in E.
  unfold mbind at 1, pym_bind at 1 in E. destruct (bootstrap_stopped x b) as [b1 [u1|e]] eqn:E1; [|done]. apply bootstrap_run in E1 as (r0 & Hr0 & Hs0 & ->).
  constructor; [|by eapply IH]. intros Hx. destruct (bootstraps_from _ _ _ _ x E Hx) as (r & Hr & Hs). simpl in Hr. rewrite dict_lookup_insert_eq in Hr. injection Hr as <-. done.
Qed.
Lemma bootstraps_keys ids : ∀ b b' u m r', for_each ids bootstrap_stopped b = (b', Ret u) → runtime b' !! m = Some r' → is_Some (runtime b !! m).
Proof.
  induction ids as [|x ids IH]; intros b b' u m r' E Hr; cbn [for_each] in E; [injection E as <- _; by eexists|].
  unfold mbind at 1, pym_bind at 1 in E. destruct (bootstrap_stopped x b) as [b1 [u1|e]] eqn:E1; [|done]. apply bootstrap_run in E1 as (r0 & Hr0 & Hs0 & ->).
  destruct (IH _ _ _ _ _ E Hr) as [r1 Hr1]. simpl in Hr1. destruct (decide (m = x)) as [->|Hne]; [by eexists|]. rewrite dict_lookup_insert_ne in Hr1 by done. by eexists.
Qed.
End Boot.

(** After a start with observed stops, a model is UNLOADED, with nothing
    reserved, exactly when its stop was observed; every other model keeps its full
    reservation, is UNKNOWN, and no load of it is admitted, whatever the memory
    sample says. A start without observations counts every model as stopped. *)
Theorem boot_needs_stop_evidence `{!PyEnv} config total confirmed b m r :
  build_book config total confirmed = Ret b → runtime b !! m = Some r →
  if decide (m ∈ default (keys (specs b)) confirmed)
  then state r = UNLOADED ∧ reservation r = 0
  else state r = UNKNOWN ∧ (∃ e, ledger b !! m = Some e ∧ reservation r = led_effective_reserved_bytes e) ∧
       ∀ sample now, ∃ e, begin_load m sample now b = (b, Raise e).
Proof.
  intros E Hr. unfold build_book in E. inv_parse. rename select (Book_init _ _ _ _ _ _ _ _ = Ret _) into Ei. match type of Ei with _ = Ret ?x => rename x into b0 end.
  assert (∃ ids u, for_each ids bootstrap_stopped b0 = (b, Ret u) ∧ (∀ m, m ∈ ids ↔ m ∈ default (keys (specs b0)) confirmed)) as (ids & u & Ef & Hids).
  { destruct confirmed as [observed|].
    - inv_parse. destruct (for_each (remove_dups observed) bootstrap_stopped b0) as [b1 [u|e]] eqn:Ef; [|done]. injection E as <-. exists (remove_dups observed), u.
      split; [done|]. intros m'. by rewrite elem_of_remove_dups.
    - destruct (for_each (keys (specs b0)) bootstrap_stopped b0) as [b1 [u|e]] eqn:Ef; [|done]. injection E as <-. by exists (keys (specs b0)), u. }
  destruct (bootstraps_run ids b0 b u (bootstraps_nodup _ _ _ _ Ef) Ef) as [K Hsp]. destruct (bootstraps_keys _ _ _ _ _ _ Ef Hr) as [r0 Hr0].
  destruct (K m r0 Hr0) as (r' & Hr' & Hk). rewrite Hr in Hr'. injection Hr' as <-. rewrite Hsp.
  destruct (decide (m ∈ default (keys (specs b0)) confirmed)) as [Hin|Hin]; rewrite <-Hids in Hin.
  - rewrite decide_True in Hk by done. tauto.
  - rewrite decide_False in Hk by done. subst r0. destruct (book_init_runtime _ _ _ _ _ _ _ _ _ _ _ Ei Hr0) as (Hs & e & He & Hres).
    split_and!; [done|exists e; split; [by rewrite (bootstraps_ledger _ _ _ _ Ef)|done]|]. intros sample now. by eapply unknown_not_loadable.
Qed.

(** A model without an observer passes the check of the managed composition when
    it has a client and a URL. *)
Example ports_without_observer : managed_ports ["m"] ["m"] [] ["m"] = Ret tt.
Proof. reflexivity. Qed.
(** A model without a client passes the check itself and fails in the lookup. *)
Example ports_without_client : missing_ports ["m"] [] ["m"] ["m"] = [] ∧ managed_ports ["m"] [] ["m"] ["m"] = Raise (KeyError "m").
Proof. done. Qed.

(** *** The rendered manifests *)
Lemma managed_models_lookup `{UrlSplit} deployment models l out : managed_models deployment models l = Ret out →
  out.*1 = l.*1 ∧ ∀ id x, (id, x) ∈ out → ∃ m, (id, m) ∈ l ∧ managed_model deployment models id m = Ret x.
Proof.
  revert out. induction l as [|[id m] l IH]; intros out E; cbn [managed_models] in E.
  - injection E as <-. split; [done|]. intros id x Hx. by apply elem_of_nil in Hx.
  - inv_config. destruct (IH _ H1) as [Hk Hl]. split; [cbn; congruence|]. intros id' x' [[= -> ->]|Hin]%elem_of_cons; [exists m; split; [left|done]|].
    destruct (Hl _ _ Hin) as (m' & Hm' & E'). exists m'. split; [by right|done].
Qed.

(** The backend is built only over a manifest of exactly this configuration:
    the digests agree, the image is pinned by digest, the manifest names the
    configured models, and every container it may control carries the
    deployment's own name for a model whose file and digest the manifest repeats. *)
Theorem backend_bound_to_config `{UrlSplit} config manifest sha observer managed :
  build_backend config manifest sha = Ret (observer, managed) →
  po_config_sha256 observer = sha ∧ SHA256_RE sha = true ∧ IMAGE (po_image_digest observer) = true ∧ DEPLOYMENT (po_deployment_id observer) = true ∧
  keys managed = keys (v1c_models config) ∧
  ∃ fields models, manifest = JObj fields ∧ jget "config_sha256" fields = Some (JStr sha) ∧ jget "models" fields = Some (JObj models) ∧
    (∀ id, is_Some (jget id models) → id ∈ keys (v1c_models config)) ∧
    ∀ id mm, (id, mm) ∈ entries managed → ∃ m entry, (id, m) ∈ entries (v1c_models config) ∧ jget id models = Some (JObj entry) ∧
      mm_container_name mm = container_name_of (po_deployment_id observer) id ∧ mc_container_name m = mm_container_name mm ∧
      jget "container_name" entry = Some (JStr (mm_container_name mm)) ∧
      jget "file" entry = Some (JStr (mc_file m)) ∧ jget "sha256" entry = Some (JStr (mc_sha256 m)).
Proof.
  assert (∀ v s, is_text v s = true → v = Some (JStr s)) as Htext. { intros v s0. unfold is_text. destruct v as [[]|]; try done. by intros ->%String.eqb_eq. }
  unfold build_backend. intros E. destruct manifest as [| | | | | |fields]; try done. destruct (SHA256_RE sha) eqn:Esha; [|done]. cbn [negb] in E.
  destruct (jget "deployment_id" fields) as [[| | | |deployment| |]|]; try done. destruct (jget "image" fields) as [[| | | |image| |]|]; try done.
  destruct (jget "models" fields) as [[| | | | | |models]|] eqn:Em; try done.
  destruct (DEPLOYMENT deployment && IMAGE image && _ && _) eqn:Ec; [|done]. apply obind_ret in E as (l & El & E). injection E as <- <-. bool_prop. cbn.
  apply managed_models_lookup in El as [Hk Hl]. rename select (same_names _ _ = true) into Hn. unfold same_names in Hn. bool_prop.
  split_and!; try done. exists fields, models. split_and!; try done; [by apply Htext| |].
  - intros id [v Hv]. rename select (forallb (fun kv => _) models = true) into Hf. rewrite forallb_forall in Hf.
    assert ((id, v) ∈ models) as Hin by (clear -Hv; induction models as [|[k w] models IH]; cbn in Hv; [done|]; destruct (String.eqb id k) eqn:E; [apply String.eqb_eq in E as ->; injection Hv as ->; left|right; by apply IH]).
    apply list_elem_of_In in Hin. by apply Hf, bool_decide_eq_true in Hin.
  - intros id mm Hin. destruct (Hl id mm Hin) as (m & Hm & E). unfold managed_model in E. inv_config. destruct x as [| | | | | |entry]; try done.
    destruct (_ && _) eqn:Eb; [|done]. bool_prop. inv_config. destruct x0 as [port|]; [|done]. injection E as <-.
    exists m, entry. split_and!; try done; try (by apply Htext). by apply String.eqb_eq.
Qed.

(** *** A concrete v1 configuration *)
Definition demo_urls : list (string * Z) :=
  [("http://127.0.0.1:9100", 9100); ("http://127.0.0.1:10001", 10001); ("http://127.0.0.1:10002", 10002); ("http://127.0.0.1:10003", 10003); ("http://127.0.0.1:10004", 10004)].
#[local] Instance demo_urlsplit : UrlSplit := {| urlsplit := fun s => Ret {| url_scheme := "http"; url_hostname := Some "127.0.0.1"; url_username := None;
  url_password := None; url_path := ""; url_query := ""; url_fragment := ""; url_port := Ret (assoc s demo_urls) |} |}.
Definition demo_digest_text : string := "0123456789abcdef0123456789abcdef0123456789abcdef0123456789abcdef".
Definition demo_v1_model (kv : string * string) : string * json :=
  (kv.1, JObj [("upstream_url", JStr kv.2); ("capabilities", JList [JStr "chat"]); ("file", JStr "m.gguf"); ("sha256", JStr demo_digest_text);
    ("container_name", JStr (container_name_of "lab" kv.1)); ("memory", JObj [("reserved_bytes", JInt 100)]);
    ("scheduling", JObj [("priority", JInt 1); ("max_concurrency", JInt 2); ("evictable", JBool true); ("pinned", JBool false)]);
    ("lifecycle", JObj [("preload", JBool false); ("ttl_seconds", JInt 0)])]).
Definition demo_v1_config : json :=
  JObj [("schema_version", JInt 1);
   ("server", JObj [("host", JStr "::1"); ("port", JInt 9000); ("workers", JInt 1); ("max_request_body_bytes", JInt 1024);
                    ("body_timeout_seconds", JInt 1); ("shutdown_grace_seconds", JInt 3)]);
   ("llama_swap", JObj [("base_url", JStr "http://127.0.0.1:9100"); ("connect_timeout_seconds", JInt 1); ("control_timeout_seconds", JInt 2);
                        ("load_timeout_seconds", JInt 9); ("unload_timeout_seconds", JInt 3)]);
   ("scheduler", JObj (demo_seconds ["poll_interval_seconds"; "request_queue_timeout_seconds"; "queue_capacity"; "priority_aging_seconds";
                         "switch_drain_timeout_seconds"; "switch_retry_seconds"; "min_free_memory_bytes"; "max_evictions_per_request"; "memory_reclaim_timeout_seconds"]
                       ++ [("resource_safety_margin", JInt 0); ("heat", JObj (demo_seconds HEAT_KEYS)); ("thrash", JObj (demo_seconds THRASH_KEYS))]));
   ("resources", JObj (("provider", JStr "psutil") :: demo_seconds ["system_reserve_bytes"; "sample_interval_seconds"; "sample_max_age_seconds"]));
   ("storage", JObj [("mount_path", JStr "/mnt"); ("model_directory", JStr "/mnt/models"); ("expected_uuid", JStr "u"); ("filesystem", JStr "ext4")]);
   ("gateway", JObj (demo_seconds GATEWAY_KEYS));
   ("models", JObj (demo_v1_model <$> [("embedding", "http://127.0.0.1:10001"); ("reranker", "http://127.0.0.1:10002");
                                       ("qwen-small", "http://127.0.0.1:10003"); ("qwen-large", "http://127.0.0.1:10004")]))].
Definition empty_config : AppConfig := {|
  v1c_server := {| cfg_host := ""; cfg_port := 0; cfg_workers := 0; cfg_max_request_body_bytes := 0; cfg_body_timeout := 0%Q; cfg_shutdown_grace := 0%Q |};
  v1c_llama_swap := {| cfg_base_url := ""; cfg_swap_connect := 0%Q; cfg_swap_control := 0%Q; cfg_swap_load := 0%Q; cfg_swap_unload := 0%Q |};
  v1c_scheduler := {| cfg_poll_interval := 0%Q; cfg_request_queue_timeout := 0%Q; cfg_queue_capacity := 0; cfg_priority_aging := 0%Q; cfg_switch_drain_timeout := 0%Q;
    cfg_switch_retry := 0%Q; cfg_margin := 0%Q; cfg_min_free_memory := 0; cfg_max_evictions := 0; cfg_memory_reclaim_timeout := 0%Q;
    cfg_heat := {| cfg_half_life := 0%Q; cfg_request_weight := 0%Q; cfg_token_weight := 0%Q |};
    cfg_thrash := {| cfg_switch_window := 0%Q; cfg_max_switches := 0; cfg_cooldown := 0%Q |} |};
  v1c_resources := {| cfg_system_reserve := 0; cfg_sample_interval := 0%Q; cfg_sample_max_age := 0%Q |};
  v1c_storage := {| cfg_mount := py_path ""; cfg_directory := py_path ""; cfg_expected_uuid := "" |};
  v1c_gateway := {| cfg_connect_timeout := 0%Q; cfg_pool_timeout := 0%Q; cfg_read_idle_timeout := 0%Q; cfg_write_idle_timeout := 0%Q; cfg_inference_timeout := 0%Q;
    cfg_close_timeout := 0%Q; cfg_max_response_body := 0; cfg_max_sse_event := 0 |};
  v1c_models := ∅ |}.
Definition demo_app : AppConfig := match load_v1 demo_v1_config with Ret c => c | Raise _ => empty_config end.
Definition demo_manifest_v1 : json :=
  JObj [("deployment_id", JStr "lab"); ("image", JStr ("llama@sha256:" +:+ demo_digest_text)); ("config_sha256", JStr demo_digest_text);
        ("models", JObj ((fun id => (id, JObj [("container_name", JStr (container_name_of "lab" id)); ("file", JStr "m.gguf"); ("sha256", JStr demo_digest_text)])) <$> REQUIRED_MODELS))].

Example demo_app_models : keys (v1c_models demo_app) = REQUIRED_MODELS.
Proof. vm_compute. reflexivity. Qed.

Lemma backend_bound_to_config_witness : ∃ observer managed, build_backend demo_app demo_manifest_v1 demo_digest_text = Ret (observer, managed) ∧
  keys managed = keys (v1c_models demo_app) ∧ IMAGE (po_image_digest observer) = true.
Proof.
  assert (∃ observer managed, build_backend demo_app demo_manifest_v1 demo_digest_text = Ret (observer, managed)) as (observer & managed & E) by (eexists _, _; vm_compute; reflexivity).
  destruct (backend_bound_to_config _ _ _ _ _ E) as (_ & _ & Hi & _ & Hk & _). exists observer, managed. split_and!; [exact E|exact Hk|exact Hi].
Defined.

Lemma boot_needs_stop_evidence_witness : ∃ b r r', build_book demo_app 1000 (Some ["reranker"]) = Ret b ∧ runtime b !! "reranker" = Some r ∧
  runtime b !! "embedding" = Some r' ∧ state r = UNLOADED ∧ state r' = UNKNOWN.
Proof.
  assert (∃ b r r', build_book demo_app 1000 (Some ["reranker"]) = Ret b ∧ runtime b !! "reranker" = Some r ∧ runtime b !! "embedding" = Some r') as (b & r & r' & E & Hr & Hr')
    by (eexists _, _, _; split_and!; vm_compute; reflexivity).
  exists b, r, r'. split_and!; [exact E|exact Hr|exact Hr'| |].
  - exact (proj1 (boot_needs_stop_evidence _ _ _ _ "reranker" r E Hr)).
  - exact (proj1 (boot_needs_stop_evidence _ _ _ _ "embedding" r' E Hr')).
Defined.
