(* ===== verification/Requests.v ===== *)
(** * Requests, session views and error documents of the control protocol

    From [model_scheduler/control_protocol_v1.py]: the closed parameter tables,
    the parsers of the documents a client sends or reads, the error documents
    the service writes, the idempotency fingerprint and the retention rule. *)

From S2P Require Import Prelude Text Dict Contracts Registration JsonText Identity Protocol.
From Stdlib Require Import Ascii QArith.
Local Open Scope Z_scope.

Definition MAX_INLINE_INPUT_BYTES : Z := 4 * 1024 * 1024.
Definition MAX_PARAMETERS_BYTES : Z := 8192.
Definition BLOB_RESULT_RETENTION_SECONDS : Z := 86400.
Definition IDEMPOTENCY_KEY_MAX_LENGTH : Z := 128.
Definition CORRELATION_ID_MAX_LENGTH : Z := 128.
Definition REQUEST_ID_MAX_LENGTH : Z := 128.
Definition MAX_PROTOCOL_INTEGER : Z := 2 ^ 31 - 1.

Definition CAPABILITIES : list string := ["chat"; "vision"; "embeddings"; "rerank"].

Inductive SessionStateName := preparing | active | draining | blocked | closed.
Inductive SessionPhaseName := queued | loading | draining_existing.
#[export] Instance SessionStateName_eq_dec : EqDecision SessionStateName.
Proof. solve_decision. Defined.
#[export] Instance SessionPhaseName_eq_dec : EqDecision SessionPhaseName.
Proof. solve_decision. Defined.
Definition session_state_name (s : SessionStateName) : string :=
  match s with preparing => "preparing" | active => "active" | draining => "draining" | blocked => "blocked" | closed => "closed" end.
Definition session_phase_name (p : SessionPhaseName) : string :=
  match p with queued => "queued" | loading => "loading" | draining_existing => "draining_existing" end.
Definition SESSION_STATES : list SessionStateName := [preparing; active; draining; blocked; closed].
Definition SESSION_PHASES : list SessionPhaseName := [queued; loading; draining_existing].

(** ** Parameter rules *)
Inductive RuleKind := integer | number | boolean | text_kind | const (value : string).
Record ParameterRule := {
  kind : RuleKind;
  description : string;
  minimum : option Z;
  maximum : option Z;
  exclusive_minimum : bool;
}.
Definition rule (k : RuleKind) (d : string) (lo hi : option Z) : ParameterRule :=
  {| kind := k; description := d; minimum := lo; maximum := hi; exclusive_minimum := false |}.

Definition CHAT_PARAMETERS : list (string * ParameterRule) :=
  [("max_tokens", rule integer "requested output tokens; the effective value is min(4096, model max_output_tokens)"
                    (Some 1) (Some MAX_PROTOCOL_INTEGER));
   ("temperature", rule number "sampling temperature" (Some 0) (Some 2));
   ("top_p", {| kind := number; description := "nucleus sampling probability"; minimum := Some 0; maximum := Some 1;
                exclusive_minimum := true |});
   ("seed", rule integer "deterministic sampling seed" (Some 0) (Some MAX_PROTOCOL_INTEGER));
   ("ignore_eos", rule boolean "keep generating until max_tokens, ignoring the end-of-sequence token" None None)].

Definition PARAMETER_RULES (operation : string) : option (list (string * ParameterRule)) :=
  assoc operation
    [("chat", CHAT_PARAMETERS);
     ("vision", CHAT_PARAMETERS ++ [("text", rule text_kind "user text paired with an image Blob input" None None)]);
     ("embeddings", [("encoding_format", rule (const "float") "first release accepts only float" None None)]);
     ("rerank", [("top_n", rule integer "number of ranked documents to return" (Some 1) (Some MAX_PROTOCOL_INTEGER));
                 ("return_documents", rule boolean "include document text in the response" None None)])].

(** ** Strict values *)
Definition check_utf8_text (s : string) : outcome string :=
  if existsb (fun c => code c =? 0) (chars s) then err "must not contain NUL"
  else if negb (encodable s) then err "must be valid UTF-8" else Ret s.

(** [len(text.encode("utf-8"))] *)
Definition utf8_length (s : string) : Z := Z.of_nat (String.length s).

Definition bounded_text (v : json) (max_bytes : Z) : outcome string :=
  text ← text_value v;
  _ ← require (utf8_length text <=? max_bytes) "must be at most max_bytes UTF-8 bytes";
  mret text.
Definition bounded_text_field (data : list (string * json)) (key : string) (max_bytes : Z) : outcome string :=
  v ← required data key; bounded_text v max_bytes.

(** [_enum_field] over a set of texts *)
Definition enum_text_field (data : list (string * json)) (key : string) (allowed : list string) : outcome string :=
  s ← text_field data key; _ ← require (bool_decide (s ∈ allowed)) "must be one of"; mret s.

Definition nullable_enum_field {A} (all : list A) (name : A → string) (data : list (string * json)) (key : string) : outcome (option A) :=
  v ← required data key;
  match v with
  | JNull => mret None
  | JStr s => a ← of_option (ContractError "must be null or one of") (List.find (fun a => String.eqb (name a) s) all); mret (Some a)
  | _ => err "must be null or one of"
  end.

Fixpoint validate_json_value (v : json) : outcome unit :=
  match v with
  | JNull | JBool _ | JInt _ | JFloat (Some _) => mret tt
  | JFloat None => err "non-finite numbers are not allowed"
  | JStr s => _ ← check_utf8_text s; mret tt
  | JObj fields =>
      (fix go (l : list (string * json)) : outcome unit :=
         match l with
         | [] => mret tt
         | (k, item) :: l => _ ← check_utf8_text k; _ ← validate_json_value item; go l
         end) fields
  | JList items =>
      (fix go (l : list json) : outcome unit :=
         match l with [] => mret tt | item :: l => _ ← validate_json_value item; go l end) items
  end.

(** ** Error documents *)
Definition ERROR_DOCUMENT_KEYS : list string := ["error"; "request_id"].

Definition parse_error_document (v : json) : outcome (ErrorDetail * string) :=
  data ← as_mapping (Some v);
  _ ← exact_keys data ERROR_DOCUMENT_KEYS;
  raw ← required data "error";
  detail ← parse_error_detail raw;
  request_id ← bounded_text_field data "request_id" REQUEST_ID_MAX_LENGTH;
  mret (detail, request_id).

Definition error_document (c message request_id : string) : outcome json :=
  _ ← require (known_code c) "unknown error code";
  text ← text_value (JStr message);
  let detail := {| err_code := c; err_message := text; err_retryable := retryable_code c |} in
  rid ← bounded_text (JStr request_id) REQUEST_ID_MAX_LENGTH;
  mret (JObj [("error", error_body detail); ("request_id", JStr rid)]).

Definition is_retryable_error (c : string) : outcome bool :=
  _ ← require (known_code c) "unknown error code"; mret (retryable_code c).

(** ** Sessions *)
Record SessionCreateRequest := {
  sc_model_id : string;
  sc_idempotency_key : string;
  sc_correlation_id : option string;
}.
Definition SESSION_CREATE_KEYS : list string := ["model_id"; "idempotency_key"; "correlation_id"].

Definition parse_session_create_request (v : json) : outcome SessionCreateRequest :=
  data ← as_mapping (Some v);
  _ ← exact_keys data SESSION_CREATE_KEYS;
  mid ← id_field data "model_id";
  key ← bounded_text_field data "idempotency_key" IDEMPOTENCY_KEY_MAX_LENGTH;
  correlation ← match jget "correlation_id" data with
                | None | Some JNull => mret None
                | Some _ => c ← bounded_text_field data "correlation_id" CORRELATION_ID_MAX_LENGTH; mret (Some c)
                end;
  mret {| sc_model_id := mid; sc_idempotency_key := key; sc_correlation_id := correlation |}.

Record SessionDocument := {
  sd_session_id : string;
  sd_state : SessionStateName;
  sd_phase : option SessionPhaseName;
  sd_boot_id : string;
  sd_model_id : string;
  sd_expires_in_ms : Z;
  sd_hard_remaining_ms : Z;
  sd_owner_token : option string;
  sd_error : option ErrorDetail;
}.
Definition SESSION_VIEW_KEYS : list string :=
  ["session_id"; "state"; "phase"; "boot_id"; "model_id"; "expires_in_ms"; "hard_remaining_ms"; "owner_token"; "error"].

Definition parse_session_view (v : json) : outcome SessionDocument :=
  data ← as_mapping (Some v);
  _ ← exact_keys data SESSION_VIEW_KEYS;
  sid ← id_field data "session_id";
  state ← enum_field SESSION_STATES session_state_name data "state";
  phase ← nullable_enum_field SESSION_PHASES session_phase_name data "phase";
  boot ← text_field data "boot_id";
  mid ← id_field data "model_id";
  expires ← int_field data "expires_in_ms" (Some 0) None;
  hard ← int_field data "hard_remaining_ms" (Some 0) None;
  token_raw ← required data "owner_token";
  token ← (if bool_decide (state = closed)
           then _ ← require (is_null token_raw) "a closed session must report owner_token=null"; mret None
           else t ← text_value token_raw; mret (Some t));
  error_raw ← required data "error";
  error ← nullable parse_error_detail error_raw;
  mret {| sd_session_id := sid; sd_state := state; sd_phase := phase; sd_boot_id := boot; sd_model_id := mid;
          sd_expires_in_ms := expires; sd_hard_remaining_ms := hard; sd_owner_token := token; sd_error := error |}.

(** ** Executions *)
Inductive ExecutionInput := Inline (payload : list (string * json)) | Blob (blob : BlobRef).

Record ExecutionCreateRequest := {
  ec_session_token : string;
  ec_operation : string;
  ec_input : ExecutionInput;
  ec_parameters : list (string * json);
  ec_idempotency_key : string;
}.
Definition EXECUTION_CREATE_KEYS : list string := ["session_token"; "operation"; "input"; "parameters"; "idempotency_key"].
Definition EXECUTION_INPUT_KEYS : list string := ["inline"; "blob"].

(** The numbers a bound is compared with. *)
Definition number_value (v : json) : option Q :=
  match v with JInt n => Some (inject_Z n) | JFloat (Some q) => Some q | _ => None end.

Definition check_parameter_bounds (r : ParameterRule) (q : Q) : outcome unit :=
  _ ← (if exclusive_minimum r
       then require (match minimum r with Some m => negb (Qle_bool q (inject_Z m)) | None => true end) "must be > minimum"
       else require (match minimum r with Some m => Qle_bool (inject_Z m) q | None => true end) "must be >= minimum");
  require (match maximum r with Some m => Qle_bool q (inject_Z m) | None => true end) "must be <= maximum".

Definition parse_parameter_value (r : ParameterRule) (v : json) : outcome json :=
  match kind r with
  | integer =>
      match v with
      | JInt n => _ ← check_parameter_bounds r (inject_Z n); mret v
      | _ => err "must be an integer"
      end
  | number =>
      match v with
      | JInt n =>
          (* math.isfinite of an int converts it to a float *)
          if Z.abs n <? FLOAT_OVERFLOW then _ ← check_parameter_bounds r (inject_Z n); mret v
          else Raise (OverflowError "int too large to convert to float")
      | JFloat (Some q) => _ ← check_parameter_bounds r q; mret v
      | _ => err "must be a finite number"
      end
  | boolean => match v with JBool _ => mret v | _ => err "must be a boolean" end
  | text_kind => s ← text_value v; mret (JStr s)
  | const c => match v with JStr s => _ ← require (String.eqb s c) "must be const"; mret v | _ => err "must be const" end
  end.

(** The loop over the rules, in their order. *)
Fixpoint parse_rules (rules : list (string * ParameterRule)) (data : list (string * json)) : outcome (list (string * json)) :=
  match rules with
  | [] => mret []
  | (key, r) :: rules =>
      match jget key data with
      | None => parse_rules rules data
      | Some v => p ← parse_parameter_value r v; rest ← parse_rules rules data; mret ((key, p) :: rest)
      end
  end.

Section Requests.
Context `{FloatText}.

(** [len(canonical_json_bytes(value))] *)
Definition canonical_length (v : json) : outcome Z :=
  text ← canonical_json_bytes v; mret (utf8_length text).

Definition parse_execution_input (v : json) : outcome ExecutionInput :=
  data ← as_mapping (Some v);
  _ ← exact_keys data EXECUTION_INPUT_KEYS;
  match jget "inline" data, jget "blob" data with
  | Some raw, None =>
      inline ← as_mapping (Some raw);
      _ ← require (negb (bool_decide (inline = []))) "must be a non-empty object";
      _ ← validate_json_value (JObj inline);
      n ← canonical_length (JObj inline);
      _ ← require (n <=? MAX_INLINE_INPUT_BYTES) "must be at most MAX_INLINE_INPUT_BYTES canonical JSON bytes";
      mret (Inline inline)
  | None, Some raw => blob ← parse_blob_ref raw; mret (Blob blob)
  | _, _ => err "exactly one of inline or blob is required"
  end.

Definition parse_parameters (operation : string) (v : json) : outcome (list (string * json)) :=
  data ← as_mapping (Some v);
  rules ← of_option (KeyError operation) (PARAMETER_RULES operation);
  _ ← exact_keys data (rules.*1);
  parsed ← parse_rules rules data;
  n ← canonical_length (JObj parsed);
  _ ← require (n <=? MAX_PARAMETERS_BYTES) "must be at most MAX_PARAMETERS_BYTES canonical JSON bytes";
  mret parsed.

Definition parse_execution_create_request (v : json) : outcome ExecutionCreateRequest :=
  data ← as_mapping (Some v);
  _ ← exact_keys data EXECUTION_CREATE_KEYS;
  token ← text_field data "session_token";
  operation ← enum_text_field data "operation" CAPABILITIES;
  raw_input ← required data "input";
  input ← parse_execution_input raw_input;
  raw_parameters ← required data "parameters";
  parameters ← parse_parameters operation raw_parameters;
  key ← bounded_text_field data "idempotency_key" IDEMPOTENCY_KEY_MAX_LENGTH;
  mret {| ec_session_token := token; ec_operation := operation; ec_input := input; ec_parameters := parameters;
          ec_idempotency_key := key |}.

(** ** Idempotency *)
Definition fingerprint_body (owner key : string) (payload : json) : json :=
  JObj [("owner", JStr owner); ("key", JStr key); ("payload", payload)].

Definition idempotency_fingerprint `{Digest} (owner key : string) (payload : json) : outcome string :=
  owner_text ← text_value (JStr owner);
  key_text ← bounded_text (JStr key) IDEMPOTENCY_KEY_MAX_LENGTH;
  _ ← validate_json_value payload;
  body ← canonical_json_bytes (fingerprint_body owner_text key_text payload);
  mret (sha256_hex body).
End Requests.

(** ** Retention, on finite times *)
Definition reference_expired (created_at now : time) (retention_seconds : Z) : outcome bool :=
  if retention_seconds <? 1 then err "retention_seconds: must be a positive integer"
  else mret (retention_seconds * 1000000000 <=? now - created_at).
