(* ===== verification/Schema.v ===== *)
(** * The exported JSON Schema

    [schema_document] of [model_scheduler/control_protocol_v1.py] as a JSON value
    computed from the protocol's tables, and the JSON Schema (draft 2020-12)
    meaning of the keywords it uses, as an executable validator; the patterns it
    publishes are read from their text and matched as regular expressions. *)

From S2P Require Import Prelude Text Dict Contracts Registration JsonText Protocol Requests.
From Stdlib Require Import Ascii QArith.
Local Open Scope Z_scope.

Definition ID_PATTERN : string := "^[a-z0-9](?:[a-z0-9._-]{0,61}[a-z0-9])?$".
Definition SHA256_PATTERN : string := "^[0-9a-f]{64}$".
Definition MEDIA_TYPE_PATTERN : string := "^[a-z0-9][a-z0-9.+-]*/[a-z0-9][a-z0-9.+-]*$".
Definition IMAGE_DIGEST_PATTERN : string := "^[^@\s]+@sha256:[0-9a-f]{64}$".

(** [sorted(names)] *)
Fixpoint insert_text (s : string) (l : list string) : list string :=
  match l with [] => [s] | t :: l' => if String.leb s t then s :: l else t :: insert_text s l' end.
Definition sort_texts (l : list string) : list string := foldr insert_text [] l.

(** ** The document *)
Definition texts (l : list string) : json := JList (JStr <$> l).
Definition ref (name : string) : json := JObj [("$ref", JStr ("#/$defs/" +:+ name))].
Definition text_schema : json := JObj [("type", JStr "string"); ("minLength", JInt 1)].
Definition limited_schema (n : Z) : json := JObj [("type", JStr "string"); ("minLength", JInt 1); ("maxLength", JInt n)].
Definition pattern_schema (p : string) : json := JObj [("type", JStr "string"); ("pattern", JStr p)].
Definition nullable_schema (s : json) : json := JObj [("anyOf", JList [s; JObj [("type", JStr "null")]])].
Definition object_schema (required : list string) (properties : list (string * json)) : json :=
  JObj [("type", JStr "object"); ("additionalProperties", JBool false); ("required", texts required); ("properties", JObj properties)].

Definition bound (key : string) (m : option Z) : list (string * json) := match m with Some n => [(key, JInt n)] | None => [] end.
Definition parameter_schema (r : ParameterRule) : json :=
  match kind r with
  | integer => JObj ([("type", JStr "integer"); ("description", JStr (description r))]
                     ++ bound "minimum" (minimum r) ++ bound "maximum" (maximum r))
  | number => JObj ([("type", JStr "number"); ("description", JStr (description r))]
                    ++ bound (if exclusive_minimum r then "exclusiveMinimum" else "minimum") (minimum r)
                    ++ bound "maximum" (maximum r))
  | boolean => JObj [("type", JStr "boolean"); ("description", JStr (description r))]
  | text_kind => JObj [("type", JStr "string"); ("minLength", JInt 1); ("description", JStr (description r))]
  | const c => JObj [("const", JStr c); ("description", JStr (description r))]
  end.

Definition parameters_schema (operation : string) : json :=
  let rules := default [] (PARAMETER_RULES operation) in
  JObj [("type", JStr "object"); ("additionalProperties", JBool false);
        ("properties", JObj (sort_fields (map (fun kr => (kr.1, parameter_schema kr.2)) rules)))].

Definition error_detail_schema : json :=
  object_schema ["code"; "message"; "retryable"]
    [("code", JObj [("enum", texts (sort_texts (ERROR_TABLE.*1)))]);
     ("message", text_schema);
     ("retryable", JObj [("type", JStr "boolean"); ("description", JStr "must match the documented retryable flag for the code")])].

Definition error_document_schema : json :=
  object_schema ["error"; "request_id"]
    [("error", ref "ErrorDetail"); ("request_id", limited_schema REQUEST_ID_MAX_LENGTH)].

Definition blob_ref_schema : json :=
  object_schema ["blob_id"; "owner"; "sha256"; "size_bytes"; "media_type"]
    [("blob_id", pattern_schema ID_PATTERN);
     ("owner", text_schema);
     ("sha256", pattern_schema SHA256_PATTERN);
     ("size_bytes", JObj [("type", JStr "integer"); ("minimum", JInt 1); ("maximum", JInt MAX_BLOB_BYTES)]);
     ("media_type", pattern_schema MEDIA_TYPE_PATTERN)].

Definition instance_schema : json :=
  object_schema ["container_id"; "started_at"; "deployment_id"; "model_id"; "runtime_id"; "candidate_digest"; "image_digest"]
    [("container_id", text_schema);
     ("started_at", JObj [("type", JStr "string"); ("format", JStr "date-time"); ("description", JStr "ISO-8601 with a UTC offset")]);
     ("deployment_id", pattern_schema ID_PATTERN);
     ("model_id", pattern_schema ID_PATTERN);
     ("runtime_id", pattern_schema ID_PATTERN);
     ("candidate_digest", pattern_schema SHA256_PATTERN);
     ("image_digest", pattern_schema IMAGE_DIGEST_PATTERN)].

Definition fence_schema : json :=
  object_schema ["boot_id"; "model_id"; "generation"; "operation_id"; "execution_id"; "attempt"]
    [("boot_id", text_schema);
     ("model_id", pattern_schema ID_PATTERN);
     ("generation", JObj [("type", JStr "integer"); ("minimum", JInt 1)]);
     ("operation_id", pattern_schema ID_PATTERN);
     ("execution_id", JObj [("type", texts ["string"; "null"]); ("pattern", JStr ID_PATTERN)]);
     ("attempt", JObj [("type", texts ["integer"; "null"]); ("minimum", JInt 1);
                       ("description", JStr "null for non-execution operations; executions start at 1")])].

Definition session_create_schema : json :=
  object_schema ["model_id"; "idempotency_key"]
    [("model_id", pattern_schema ID_PATTERN);
     ("idempotency_key", limited_schema IDEMPOTENCY_KEY_MAX_LENGTH);
     ("correlation_id", JObj [("type", texts ["string"; "null"]); ("minLength", JInt 1); ("maxLength", JInt CORRELATION_ID_MAX_LENGTH)])].

Definition session_view_schema : json :=
  object_schema ["session_id"; "state"; "phase"; "boot_id"; "model_id"; "expires_in_ms"; "hard_remaining_ms"; "owner_token"; "error"]
    [("session_id", pattern_schema ID_PATTERN);
     ("state", JObj [("enum", texts (sort_texts (session_state_name <$> SESSION_STATES)))]);
     ("phase", JObj [("enum", JList ((JStr <$> sort_texts (session_phase_name <$> SESSION_PHASES)) ++ [JNull]));
                     ("description", JStr "preparing phases from C04")]);
     ("boot_id", text_schema);
     ("model_id", pattern_schema ID_PATTERN);
     ("expires_in_ms", JObj [("type", JStr "integer"); ("minimum", JInt 0)]);
     ("hard_remaining_ms", JObj [("type", JStr "integer"); ("minimum", JInt 0)]);
     ("owner_token", JObj [("type", texts ["string"; "null"]); ("minLength", JInt 1);
                           ("description", JStr "null exactly when the session is closed; only returned to the owner")]);
     ("error", nullable_schema (ref "ErrorDetail"))].

Definition execution_input_schema : json :=
  JObj [("type", JStr "object"); ("additionalProperties", JBool false);
        ("properties", JObj [("inline", JObj [("type", JStr "object"); ("minProperties", JInt 1)]); ("blob", ref "BlobRef")]);
        ("oneOf", JList [JObj [("required", texts ["inline"])]; JObj [("required", texts ["blob"])]])].

(** One branch of [allOf]: the parameter table of one operation. *)
Definition operation_rule (operation : string) : json :=
  JObj [("if", JObj [("required", texts ["operation"]); ("properties", JObj [("operation", JObj [("const", JStr operation)])])]);
        ("then", JObj [("properties", JObj [("parameters", ref ("Parameters_" +:+ operation))])])].

Definition execution_create_schema : json :=
  JObj [("type", JStr "object"); ("additionalProperties", JBool false);
        ("required", texts ["session_token"; "operation"; "input"; "parameters"; "idempotency_key"]);
        ("properties", JObj
          [("session_token", text_schema);
           ("operation", JObj [("enum", texts (sort_texts CAPABILITIES))]);
           ("input", ref "ExecutionInput");
           ("parameters", JObj [("type", JStr "object")]);
           ("idempotency_key", limited_schema IDEMPOTENCY_KEY_MAX_LENGTH)]);
        ("allOf", JList (operation_rule <$> sort_texts CAPABILITIES))].

Definition execution_view_schema : json :=
  object_schema ["execution_id"; "state"; "dispatch_state"; "compute_quiescent"; "result"; "error"; "instance"; "fence"]
    [("execution_id", pattern_schema ID_PATTERN);
     ("state", JObj [("enum", texts (sort_texts (state_name <$> ALL_STATES)))]);
     ("dispatch_state", JObj [("enum", texts (sort_texts (dispatch_name <$> ALL_DISPATCH)))]);
     ("compute_quiescent", JObj [("type", texts ["boolean"; "null"]); ("description", JStr "true exactly for terminal states")]);
     ("result", nullable_schema (ref "BlobRef"));
     ("error", nullable_schema (ref "ErrorDetail"));
     ("instance", nullable_schema (ref "InstanceIdentity"));
     ("fence", ref "Fence")].

Definition schema_defs : list (string * json) :=
  [("ErrorDetail", error_detail_schema); ("ErrorDocument", error_document_schema); ("BlobRef", blob_ref_schema);
   ("InstanceIdentity", instance_schema); ("Fence", fence_schema); ("SessionCreateRequest", session_create_schema);
   ("SessionView", session_view_schema); ("ExecutionInput", execution_input_schema)]
  ++ map (fun operation => ("Parameters_" +:+ operation, parameters_schema operation)) (sort_texts CAPABILITIES)
  ++ [("ExecutionCreateRequest", execution_create_schema); ("ExecutionView", execution_view_schema)].

Definition schema_document : json :=
  JObj [("$schema", JStr "https://json-schema.org/draft/2020-12/schema");
        ("title", JStr "SelfModelSwitch control protocol v1");
        ("description", JStr (concat_text
           ["Strict DTOs for the local control API. Cross-field rules (terminal evidence, ";
            "dispatch/instance pairing, token/null pairing, per-operation parameters) are ";
            "enforced by model_scheduler.control_protocol_v1 and only documented here."]));
        ("protocol_version", JInt 1);
        ("protocol_version_header", JStr "X-SMS-Protocol-Version");
        ("limits", JObj
          [("max_inline_input_bytes", JInt MAX_INLINE_INPUT_BYTES); ("max_parameters_bytes", JInt MAX_PARAMETERS_BYTES);
           ("max_blob_bytes", JInt MAX_BLOB_BYTES); ("blob_result_retention_seconds", JInt BLOB_RESULT_RETENTION_SECONDS);
           ("idempotency_key_max_length", JInt IDEMPOTENCY_KEY_MAX_LENGTH);
           ("correlation_id_max_length", JInt CORRELATION_ID_MAX_LENGTH);
           ("request_id_max_length", JInt REQUEST_ID_MAX_LENGTH)]);
        ("capabilities", JObj (map (fun operation => (operation, texts (sort_texts ((default [] (PARAMETER_RULES operation)).*1)))) (sort_texts CAPABILITIES)));
        ("errors", JObj (sort_fields (map (fun e => (e.1, JObj [("status", JInt e.2.1); ("retryable", JBool e.2.2)])) ERROR_TABLE)));
        ("$defs", JObj schema_defs)].

(** ** Patterns

    The regular expressions a schema publishes are read from their text: the
    syntax below is what the published patterns use, and a text outside it matches
    nothing.  A text is matched by derivatives, on its code points. *)
Inductive set_item := Range (low high : Z) | Blank.
Inductive regex := Never | Empty | OneOf (negated : bool) (items : list set_item) | Cat (a b : regex) | Alt (a b : regex) | Star (a : regex).

(** What the class escape [\s] contains is the engine's. *)
Definition item_has (spaces : Z → bool) (c : Z) (i : set_item) : bool :=
  match i with Range low high => (low <=? c) && (c <=? high) | Blank => spaces c end.
Definition set_has (spaces : Z → bool) (negated : bool) (items : list set_item) (c : Z) : bool := xorb negated (existsb (item_has spaces c) items).
Fixpoint has_empty (r : regex) : bool :=
  match r with
  | Never | OneOf _ _ => false
  | Empty | Star _ => true
  | Cat a b => has_empty a && has_empty b
  | Alt a b => has_empty a || has_empty b
  end.
Definition cat (a b : regex) : regex := match a with Never => Never | Empty => b | _ => Cat a b end.
Definition alt (a b : regex) : regex := match a, b with Never, _ => b | _, Never => a | _, _ => Alt a b end.
Fixpoint derive (spaces : Z → bool) (c : Z) (r : regex) : regex :=
  match r with
  | Never | Empty => Never
  | OneOf negated items => if set_has spaces negated items c then Empty else Never
  | Cat a b => if has_empty a then alt (cat (derive spaces c a) b) (derive spaces c b) else cat (derive spaces c a) b
  | Alt a b => alt (derive spaces c a) (derive spaces c b)
  | Star a => cat (derive spaces c a) (Star a)
  end.
Fixpoint regex_matches (spaces : Z → bool) (r : regex) (l : list Z) : bool :=
  match l with [] => has_empty r | c :: l => regex_matches spaces (derive spaces c r) l end.

(** *** Their text *)
Definition just (c : Z) : regex := OneOf false [Range c c].
Fixpoint times (n : nat) (r : regex) : regex := match n with O => Empty | S n => Cat r (times n r) end.
Fixpoint at_most (n : nat) (r : regex) : regex := match n with O => Empty | S n => Alt Empty (Cat r (at_most n r)) end.
Fixpoint decimal_at (value : nat) (l : list Z) : nat * list Z :=
  match l with
  | c :: l' => if (48 <=? c) && (c <=? 57) then decimal_at (value * 10 + Z.to_nat (c - 48)) l' else (value, l)
  | [] => (value, [])
  end.
(** The items of a set up to its closing bracket: [\s], a range, or a character. *)
Fixpoint set_items (fuel : nat) (l : list Z) : option (list set_item * list Z) :=
  match fuel with
  | O => None
  | S fuel =>
      match l with
      | 93 :: l => Some ([], l)
      | 92 :: 115 :: l => '(items, l) ← set_items fuel l; Some (Blank :: items, l)
      | low :: 45 :: high :: l' =>
          if high =? 93 then '(items, l) ← set_items fuel (45 :: high :: l'); Some (Range low low :: items, l)
          else '(items, l) ← set_items fuel l'; Some (Range low high :: items, l)
      | c :: l => '(items, l) ← set_items fuel l; Some (Range c c :: items, l)
      | [] => None
      end
  end.
Definition quantified (r : regex) (l : list Z) : option (regex * list Z) :=
  match l with
  | 42 :: l => Some (Star r, l)
  | 43 :: l => Some (Cat r (Star r), l)
  | 63 :: l => Some (Alt r Empty, l)
  | 123 :: l =>
      let (n, l) := decimal_at 0 l in
      match l with
      | 125 :: l => Some (times n r, l)
      | 44 :: l => let (m, l) := decimal_at 0 l in match l with 125 :: l => Some (Cat (times n r) (at_most (m - n) r), l) | _ => None end
      | _ => None
      end
  | _ => Some (r, l)
  end.
(** The characters that stand for themselves *)
Definition literal (c : Z) : bool := negb (bool_decide (c ∈ codepoints "^$\.*+?()[]{}|")).
Fixpoint sequence (fuel : nat) (l : list Z) : option (regex * list Z) :=
  match fuel with
  | O => None
  | S fuel =>
      match l with
      | [] | 41 :: _ => Some (Empty, l)
      | _ =>
          '(atom, l) ← match l with
                       | 40 :: 63 :: 58 :: l => '(r, l) ← sequence fuel l; match l with 41 :: l => Some (r, l) | _ => None end
                       | 91 :: 94 :: l => '(items, l) ← set_items fuel l; Some (OneOf true items, l)
                       | 91 :: l => '(items, l) ← set_items fuel l; Some (OneOf false items, l)
                       | 92 :: 115 :: l => Some (OneOf false [Blank], l)
                       | c :: l => if literal c then Some (just c, l) else None
                       | [] => None
                       end;
          '(r, l) ← quantified atom l;
          '(rest, l) ← sequence fuel l;
          Some (Cat r rest, l)
      end
  end.
Definition any_text : regex := Star (OneOf true []).
(** A pattern is searched for, so an end without its anchor is open. *)
Definition parse_pattern (p : string) : option regex :=
  let l := codepoints p in
  let '(from_start, l) := match l with 94 :: l => (true, l) | _ => (false, l) end in
  let '(to_end, l) := match rev l with 36 :: l => (true, rev l) | _ => (false, l) end in
  '(r, rest) ← sequence (S (length l)) l;
  match rest with [] => Some (Cat (if from_start then Empty else any_text) (Cat r (if to_end then Empty else any_text))) | _ => None end.
(** With [\s] as Python's [re] has it. *)
Definition pattern_matches (p s : string) : bool := match parse_pattern p with Some r => regex_matches is_space r (codepoints s) | None => false end.

(** ** JSON Schema

    [valid] reads a schema as draft 2020-12 does, for the keywords above; any
    other keyword ([description], [format]) is an annotation.  The fuel bounds
    the nesting of schemas and references. *)
Definition has_type (t : json) (v : json) : bool :=
  match t, v with
  | JStr t, JNull => String.eqb t "null"
  | JStr t, JBool _ => String.eqb t "boolean"
  | JStr t, JInt _ => String.eqb t "integer" || String.eqb t "number"
  | JStr t, JFloat (Some q) => String.eqb t "number" || (String.eqb t "integer" && (Qnum q mod QDen q =? 0))
  | JStr t, JStr _ => String.eqb t "string"
  | JStr t, JList _ => String.eqb t "array"
  | JStr t, JObj _ => String.eqb t "object"
  | _, _ => false
  end.

(** Equality with a constant of the schema, a text or null. *)
Definition is_constant (c v : json) : bool :=
  match c, v with JStr a, JStr b => String.eqb a b | JNull, JNull => true | _, _ => false end.

Definition on_number (v : json) (p : Q → bool) : bool := match number_value v with Some q => p q | None => true end.
Definition on_text (v : json) (p : string → bool) : bool := match v with JStr s => p s | _ => true end.
Definition on_object (v : json) (p : list (string * json) → bool) : bool := match v with JObj fields => p fields | _ => true end.

Definition text_of_json (v : json) : string := match v with JStr s => s | _ => "" end.

Fixpoint valid (fuel : nat) (defs : list (string * json)) (schema v : json) : bool :=
  match fuel with
  | O => false
  | S fuel =>
      match schema with
      | JObj kws =>
          forallb (fun kw =>
            match kw with
            | ("type", JList ts) => existsb (fun t => has_type t v) ts
            | ("type", t) => has_type t v
            | ("enum", JList cs) => existsb (fun c => is_constant c v) cs
            | ("const", c) => is_constant c v
            | ("minimum", JInt n) => on_number v (fun q => Qle_bool (inject_Z n) q)
            | ("exclusiveMinimum", JInt n) => on_number v (fun q => negb (Qle_bool q (inject_Z n)))
            | ("maximum", JInt n) => on_number v (fun q => Qle_bool q (inject_Z n))
            | ("minLength", JInt n) => on_text v (fun s => n <=? Z.of_nat (length (codepoints s)))
            | ("maxLength", JInt n) => on_text v (fun s => Z.of_nat (length (codepoints s)) <=? n)
            | ("pattern", JStr p) => on_text v (pattern_matches p)
            | ("minProperties", JInt n) => on_object v (fun fields => n <=? Z.of_nat (length fields))
            | ("required", JList ks) => on_object v (fun fields => forallb (fun k => bool_decide (is_Some (jget (text_of_json k) fields))) ks)
            | ("properties", JObj props) =>
                on_object v (fun fields => forallb (fun p =>
                  match jget p.1 fields with Some x => valid fuel defs p.2 x | None => true end) props)
            | ("additionalProperties", JBool false) =>
                on_object v (fun fields => forallb (fun f =>
                  match jget "properties" kws with Some (JObj props) => bool_decide (f.1 ∈ props.*1) | _ => false end) fields)
            | ("$ref", JStr r) =>
                match List.find (fun d => String.eqb ("#/$defs/" +:+ d.1) r) defs with Some d => valid fuel defs d.2 v | None => false end
            | ("anyOf", JList ss) => existsb (fun s => valid fuel defs s v) ss
            | ("allOf", JList ss) => forallb (fun s => valid fuel defs s v) ss
            | ("oneOf", JList ss) => (length (List.filter (fun s => valid fuel defs s v) ss) =? 1)%nat
            | ("if", s) => negb (valid fuel defs s v) || match jget "then" kws with Some t => valid fuel defs t v | None => true end
            | _ => true
            end) kws
      | _ => false
      end
  end.

(** The meaning of one definition of the exported document. *)
Definition schema_accepts (name : string) (v : json) : bool := valid 12 schema_defs (ref name) v.
