(* ===== verification/SchemaProps.v ===== *)
(** * The parsers against the exported schema

    Whatever a parser of the control protocol accepts satisfies the definition
    that the exported JSON Schema publishes for it. *)

From S2P Require Import Prelude Text Dict Contracts Registration RegistrationProps JsonText Protocol Requests Schema.
From Stdlib Require Import Ascii QArith.
Local Open Scope Z_scope.

(** ** Patterns *)
Section Regex.
Context (spaces : Z → bool).

(** The texts of an expression *)
Inductive star (P : list Z → Prop) : list Z → Prop :=
| star_nil : star P []
| star_app l k : P l → star P k → star P (l ++ k).
Fixpoint texts_of (r : regex) (l : list Z) : Prop :=
  match r with
  | Never => False
  | Empty => l = []
  | OneOf negated items => ∃ c, l = [c] ∧ set_has spaces negated items c = true
  | Cat a b => ∃ l1 l2, l = l1 ++ l2 ∧ texts_of a l1 ∧ texts_of b l2
  | Alt a b => texts_of a l ∨ texts_of b l
  | Star a => star (texts_of a) l
  end.
Lemma cat_spec a b l : texts_of (cat a b) l ↔ texts_of (Cat a b) l.
Proof.
  destruct a; cbn [cat]; try done; cbn; [naive_solver|]. split; [intros Hb; by exists [], l|]. by intros (l1 & l2 & -> & -> & Hb).
Qed.
Lemma alt_spec a b l : texts_of (alt a b) l ↔ texts_of a l ∨ texts_of b l.
Proof. destruct a, b; cbn; naive_solver. Qed.
Lemma has_empty_spec r : has_empty r = true ↔ texts_of r [].
Proof.
  induction r as [| |negated items|a IHa b IHb|a IHa b IHb|a IHa]; cbn; try (split; [done|naive_solver]).
  - rewrite andb_true_iff, IHa, IHb. split; [intros [? ?]; by exists [], []|]. intros (l1 & l2 & E & ? & ?). symmetry in E. apply app_nil in E as [-> ->]. done.
  - by rewrite orb_true_iff, IHa, IHb.
  - split; [constructor|done].
Qed.
Lemma cat_cons P c l : star P (c :: l) ↔ ∃ l1 l2, l = l1 ++ l2 ∧ P (c :: l1) ∧ star P l2.
Proof.
  split.
  - intros Hs. remember (c :: l) as k eqn:E. revert c l E. induction Hs as [|l1 k Hl Hk IH]; intros c l E; [done|].
    destruct l1 as [|c1 l1]; [by apply IH|]. injection E as -> <-. by exists l1, k.
  - intros (l1 & l2 & -> & Hc & Hs). by apply (star_app P (c :: l1)).
Qed.
Lemma derive_spec r c l : texts_of (derive spaces c r) l ↔ texts_of r (c :: l).
Proof.
  revert l. induction r as [| |negated items|a IHa b IHb|a IHa b IHb|a IHa]; intros l; cbn [derive].
  - done.
  - done.
  - cbn. destruct (set_has spaces negated items c) eqn:E; cbn; [split; [intros ->; by exists c|]; by intros (c' & [= _ ->] & _)|].
    split; [done|]. intros (c' & [= <- _] & Hc'). congruence.
  - assert (texts_of (cat (derive spaces c a) b) l ↔ ∃ l1 l2, l = l1 ++ l2 ∧ texts_of a (c :: l1) ∧ texts_of b l2) as Hcat.
    { rewrite cat_spec. cbn. by setoid_rewrite IHa. }
    assert (texts_of (Cat a b) (c :: l) ↔ (has_empty a = true ∧ texts_of b (c :: l)) ∨ ∃ l1 l2, l = l1 ++ l2 ∧ texts_of a (c :: l1) ∧ texts_of b l2) as ->.
    { rewrite has_empty_spec. cbn. split.
      - intros ([|c1 l1] & l2 & E & Ha & Hb); [left; cbn in E; by subst|]. injection E as -> ->. right. by exists l1, l2.
      - intros [[Ha Hb]|(l1 & l2 & -> & Ha & Hb)]; [by exists [], (c :: l)|by exists (c :: l1), l2]. }
    destruct (has_empty a); [rewrite alt_spec, IHb|]; rewrite Hcat; naive_solver.
  - rewrite alt_spec, IHa, IHb. done.
  - rewrite cat_spec. cbn. rewrite cat_cons. by setoid_rewrite IHa.
Qed.
(** Matching by derivatives decides the texts of an expression. *)
Lemma regex_matches_spec r l : regex_matches spaces r l = true ↔ texts_of r l.
Proof. revert r. induction l as [|c l IH]; intros r; cbn [regex_matches]; [apply has_empty_spec|]. by rewrite IH, derive_spec. Qed.

Lemma then_empty r l : texts_of r l → texts_of (Cat r Empty) l.
Proof. intros Hr. exists l, []. by rewrite app_nil_r. Qed.
Lemma empty_then r l : texts_of r l → texts_of (Cat Empty r) l.
Proof. intros Hr. by exists [], l. Qed.
Lemma set_then negated items c r l : set_has spaces negated items c = true → texts_of r l → texts_of (Cat (OneOf negated items) r) (c :: l).
Proof. intros Hc Hr. exists [c], l. split_and!; [done|by exists c|done]. Qed.
Lemma just_then c r l : texts_of r l → texts_of (Cat (just c) r) (c :: l).
Proof. intros Hr. apply set_then; [|done]. unfold set_has. cbn. by rewrite !Z.leb_refl. Qed.
Definition all_in (negated : bool) (items : list set_item) (l : list Z) : Prop := Forall (fun c => set_has spaces negated items c = true) l.
Lemma star_set negated items l : all_in negated items l → texts_of (Star (OneOf negated items)) l.
Proof. induction 1 as [|c l Hc Hl IH]; [constructor|]. apply (star_app _ [c]); [by exists c|done]. Qed.
Lemma times_set negated items l : all_in negated items l → texts_of (times (length l) (OneOf negated items)) l.
Proof. induction 1 as [|c l Hc Hl IH]; [done|]. by apply set_then. Qed.
Lemma at_most_set n negated items l : (length l ≤ n)%nat → all_in negated items l → texts_of (at_most n (OneOf negated items)) l.
Proof.
  intros Hn Hl. revert n Hn. induction Hl as [|c l Hc Hl IH]; intros [|n] Hn; cbn [length] in Hn; [done|by left|lia|]. right. apply set_then; [done|]. apply IH. lia.
Qed.
End Regex.

(** *** The published patterns admit what the parsers' expressions accept. *)
Definition ALNUM : list set_item := [Range 97 122; Range 48 57].
Definition HEX : list set_item := [Range 48 57; Range 97 102].
Definition ID_CHARS : list set_item := ALNUM ++ [Range 46 46; Range 95 95; Range 45 45].
Definition MEDIA_CHARS : list set_item := ALNUM ++ [Range 46 46; Range 43 43; Range 45 45].
Definition NAME_CHARS : list set_item := [Range 64 64; Blank].
Definition sha256_prefix (r : regex) : regex := foldr (fun c r => Cat (just c) r) r (codepoints "@sha256:").
Lemma sha256_read : parse_pattern SHA256_PATTERN = Some (Cat Empty (Cat (Cat (times 64 (OneOf false HEX)) Empty) Empty)).
Proof. vm_compute. reflexivity. Qed.
Lemma id_read : parse_pattern ID_PATTERN =
  Some (Cat Empty (Cat (Cat (OneOf false ALNUM)
    (Cat (Alt (Cat (Cat Empty (at_most 61 (OneOf false ID_CHARS))) (Cat (OneOf false ALNUM) Empty)) Empty) Empty)) Empty)).
Proof. vm_compute. reflexivity. Qed.
Lemma media_read : parse_pattern MEDIA_TYPE_PATTERN =
  Some (Cat Empty (Cat (Cat (OneOf false ALNUM) (Cat (Star (OneOf false MEDIA_CHARS))
    (Cat (just 47) (Cat (OneOf false ALNUM) (Cat (Star (OneOf false MEDIA_CHARS)) Empty))))) Empty)).
Proof. vm_compute. reflexivity. Qed.
Lemma image_read : parse_pattern IMAGE_DIGEST_PATTERN =
  Some (Cat Empty (Cat (Cat (Cat (OneOf true NAME_CHARS) (Star (OneOf true NAME_CHARS))) (sha256_prefix (Cat (times 64 (OneOf false HEX)) Empty))) Empty)).
Proof. vm_compute. reflexivity. Qed.

Lemma set_spec negated items c : set_has is_space negated items c = true ↔ existsb (item_has is_space c) items = negb negated.
Proof. unfold set_has. destruct negated, (existsb _ _); cbn; naive_solver. Qed.
Lemma alnum_set c : is_alnum c = true → set_has is_space false ALNUM (code c) = true.
Proof. unfold is_alnum, is_digit, is_lower, in_range. rewrite set_spec. cbn. intros Hc. lia. Qed.
Lemma alnum_ascii c : is_alnum c = true → code c < 128.
Proof. unfold is_alnum, is_digit, is_lower, in_range. lia. Qed.
(** A class of ASCII characters, as the set of a pattern *)
Lemma class_points (p : ascii → bool) items l : (∀ c, p c = true → code c < 128 ∧ set_has is_space false items (code c) = true) → forallb p l = true →
  forallb (fun c => code c <? 128) l = true ∧ all_in is_space false items (map code l).
Proof.
  intros Hp Hl. rewrite !forallb_forall in *. split; [intros c Hc; by apply Z.ltb_lt, Hp, Hl|]. apply Forall_forall. intros x (c & -> & Hc)%list_elem_of_fmap.
  apply Hp, Hl. by apply list_elem_of_In.
Qed.

Lemma sha256_pattern s : SHA256_RE s = true → pattern_matches SHA256_PATTERN s = true.
Proof.
  unfold SHA256_RE, pattern_matches. rewrite sha256_read. intros [Hn%Z.eqb_eq Hx]%andb_true_iff.
  destruct (class_points is_hex HEX (chars s)) as [Ha Hh]; [|done|].
  { intros c. unfold is_hex, is_digit, in_range. rewrite set_spec. cbn. lia. }
  rewrite ascii_codepoints by done. apply regex_matches_spec, empty_then, then_empty, then_empty.
  replace 64%nat with (length (map code (chars s))); [by apply times_set|]. rewrite length_map. revert Hn. clear. intros Hn.
  assert (∀ t, length (chars t) = String.length t) as -> by (intros t; induction t; cbn; congruence). lia.
Qed.
Lemma id_pattern s : ID_RE s = true → pattern_matches ID_PATTERN s = true.
Proof.
  unfold ID_RE, pattern_matches. rewrite id_read. destruct (chars s) as [|c l] eqn:Es; [done|].
  intros [[[Hc Hn%Z.leb_le]%andb_true_iff Hl]%andb_true_iff Hlast]%andb_true_iff.
  assert (∀ c, is_alnum c || (code c =? 46) || (code c =? 95) || (code c =? 45) = true → code c < 128 ∧ set_has is_space false ID_CHARS (code c) = true) as Hset.
  { intros x. unfold is_alnum, is_digit, is_lower, in_range. rewrite set_spec. cbn. lia. }
  rewrite ascii_codepoints, Es.
  2:{ unfold is_ascii. rewrite Es. cbn [forallb]. rewrite (proj2 (Z.ltb_lt _ _) (alnum_ascii _ Hc)). exact (proj1 (class_points _ ID_CHARS _ Hset Hl)). }
  apply regex_matches_spec, empty_then, then_empty. cbn [map]. apply set_then; [by apply alnum_set|]. apply then_empty.
  destruct l as [|x k _] using rev_ind; [by right|]. left. rewrite map_app. rewrite List.last_last in Hlast. rewrite length_app in Hn. cbn in Hn.
  rewrite forallb_app in Hl. apply andb_true_iff in Hl as [Hk _]. exists (map code k), [code x]. split_and!; [done|..].
  - apply empty_then, at_most_set; [rewrite length_map; lia|]. exact (proj2 (class_points _ ID_CHARS _ Hset Hk)).
  - by apply set_then; [apply alnum_set|].
Qed.
Lemma split_slash_some acc l : split_slash acc l ≠ [].
Proof. revert acc. induction l as [|c l IH]; intros acc; cbn [split_slash]; [done|]. by destruct (code c =? 47). Qed.
Lemma split_slash_two l : ∀ acc a b, split_slash acc l = [a; b] → rev acc ++ l = chars a ++ "/"%char :: chars b.
Proof.
  assert (∀ l acc b, split_slash acc l = [b] → rev acc ++ l = chars b) as H1.
  { clear l. intros l. induction l as [|c l IH]; intros acc b; cbn [split_slash].
    - intros [= <-]. rewrite app_nil_r. unfold chars. by rewrite String.list_ascii_of_string_of_list_ascii.
    - destruct (code c =? 47); [intros [= _ E]; by apply split_slash_some in E|]. intros E%IH. rewrite <-E. cbn [rev]. by rewrite <-app_assoc. }
  induction l as [|c l IH]; intros acc a b; cbn [split_slash]; [done|]. destruct (Z.eqb_spec (code c) 47) as [Hc|_].
  - intros [= <- E%H1]. cbn in E. unfold chars at 1. rewrite String.list_ascii_of_string_of_list_ascii, E. do 2 f_equal. by apply code_inj.
  - intros E%IH. rewrite <-E. cbn [rev]. by rewrite <-app_assoc.
Qed.
Lemma media_set c : media_char c = true → code c < 128 ∧ set_has is_space false MEDIA_CHARS (code c) = true.
Proof. unfold media_char, is_alnum, is_digit, is_lower, in_range. rewrite set_spec. cbn. lia. Qed.
Lemma media_word_texts l r k : media_word l = true → texts_of is_space r k →
  texts_of is_space (Cat (OneOf false ALNUM) (Cat (Star (OneOf false MEDIA_CHARS)) r)) (map code l ++ k).
Proof.
  destruct l as [|c l]; [done|]. cbn [media_word map app]. intros [Hc Hl]%andb_true_iff Hr. apply set_then; [by apply alnum_set|].
  exists (map code l), k. split_and!; [done| |done]. apply star_set. exact (proj2 (class_points _ _ _ media_set Hl)).
Qed.
Lemma media_word_ascii l : media_word l = true → forallb (fun c => code c <? 128) l = true.
Proof.
  destruct l as [|c l]; [done|]. cbn [media_word forallb]. intros [Hc Hl]%andb_true_iff. rewrite (proj2 (Z.ltb_lt _ _) (alnum_ascii _ Hc)).
  exact (proj1 (class_points _ _ _ media_set Hl)).
Qed.
Lemma media_pattern s : MEDIA_TYPE_RE s = true → pattern_matches MEDIA_TYPE_PATTERN s = true.
Proof.
  unfold MEDIA_TYPE_RE, pattern_matches, path_parts. rewrite media_read. destruct (split_slash [] (chars s)) as [|a [|b [|]]] eqn:E; try done.
  apply split_slash_two in E. cbn in E. intros [Ha Hb]%andb_true_iff. rewrite ascii_codepoints, E.
  2:{ unfold is_ascii. rewrite E, forallb_app. cbn [forallb]. by rewrite !media_word_ascii. }
  rewrite map_app. cbn [map]. apply regex_matches_spec, empty_then, then_empty, media_word_texts; [done|].
  change (code "/") with 47. apply just_then. rewrite <-(app_nil_r (map code (chars b))). by apply media_word_texts.
Qed.
Lemma image_digest_parts l name : image_digest_chars name l = true → ∃ k d, l = k ++ codepoints "@sha256:" ++ d ∧
  all_in is_space true NAME_CHARS k ∧ (name = false → k ≠ []) ∧ length d = 64%nat ∧ all_in is_space false HEX d.
Proof.
  revert name. induction l as [|c l IH]; intros name; cbn [image_digest_chars]; [done|]. destruct (Z.eqb_spec c 64) as [->|Hne].
  - intros [[[-> Hp%bool_decide_eq_true]%andb_true_iff Hn%Z.eqb_eq]%andb_true_iff Hx]%andb_true_iff. exists [], (skipn 7 l). split_and!; [|constructor|done|lia|].
    + change (codepoints "@sha256:") with (64 :: codepoints "sha256:"). cbn [app]. f_equal. by rewrite <-Hp, firstn_skipn.
    + apply Forall_forall. intros x Hx'. rewrite forallb_forall in Hx. apply list_elem_of_In, Hx in Hx'. apply set_spec. cbn. lia.
  - intros [Hs (k & d & -> & Hk & _ & Hd)%IH]%andb_true_iff. exists (c :: k), d. split_and!; try done; try apply Hd. constructor; [|done].
    apply set_spec. cbn. apply negb_true_iff in Hs. rewrite Hs. lia.
Qed.
Lemma image_pattern s : IMAGE_DIGEST_RE s = true → pattern_matches IMAGE_DIGEST_PATTERN s = true.
Proof.
  unfold IMAGE_DIGEST_RE, pattern_matches. rewrite image_read. intros (k & d & -> & Hk & Hne & Hn & Hd)%image_digest_parts.
  apply regex_matches_spec, empty_then, then_empty. exists k, (codepoints "@sha256:" ++ d). split_and!; [done|..].
  - destruct Hk as [|c k Hc Hk]; [by destruct Hne|]. apply set_then; [done|by apply star_set].
  - change (codepoints "@sha256:") with [64; 115; 104; 97; 50; 53; 54; 58]. unfold sha256_prefix. cbn [foldr codepoints app].
    repeat apply just_then. apply then_empty. rewrite <-Hn. by apply times_set.
Qed.

(** ** Objects *)

(** One entry of [properties], against the fields of an object. *)
Definition field_ok (n : nat) (data : list (string * json)) (p : string * json) : Prop :=
  ∀ x, jget p.1 data = Some x → valid n schema_defs p.2 x = true.
Definition present (data : list (string * json)) (k : string) : Prop := is_Some (jget k data).

Lemma valid_object n req props data allowed :
  exact_keys data allowed = Ret tt → allowed = props.*1 → Forall (present data) req → Forall (field_ok n data) props →
  valid (S n) schema_defs (object_schema req props) (JObj data) = true.
Proof.
  intros Hk -> Hr Hp. unfold exact_keys in Hk. apply require_ret in Hk.
  change (valid (S n) schema_defs (object_schema req props) (JObj data)) with
    (true && (forallb (fun f => bool_decide (f.1 ∈ props.*1)) data
     && (forallb (fun k => bool_decide (is_Some (jget (text_of_json k) data))) (JStr <$> req)
     && (forallb (fun p => match jget p.1 data with Some x => valid n schema_defs p.2 x | None => true end) props && true)))).
  rewrite Hk. cbn [andb]. apply andb_true_iff. split.
  - apply forallb_forall. intros k Hin. apply list_elem_of_In, list_elem_of_fmap in Hin as (k' & -> & Hin).
    apply bool_decide_eq_true. rewrite Forall_forall in Hr. by apply Hr.
  - apply andb_true_iff. split; [|done]. apply forallb_forall. intros p Hin%list_elem_of_In. rewrite Forall_forall in Hp.
    specialize (Hp p Hin). destruct (jget p.1 data) as [x|] eqn:E; [by apply Hp|done].
Qed.

Lemma valid_ref n name s v : List.find (fun d => String.eqb ("#/$defs/" +:+ d.1) ("#/$defs/" +:+ name)) schema_defs = Some (name, s) →
  valid (S n) schema_defs (ref name) v = valid n schema_defs s v.
Proof.
  intros Hf. change (valid (S n) schema_defs (ref name) v) with
    (match List.find (fun d => String.eqb ("#/$defs/" +:+ d.1) ("#/$defs/" +:+ name)) schema_defs with
     | Some d => valid n schema_defs d.2 v | None => false end && true).
  by rewrite Hf, andb_true_r.
Qed.

Lemma valid_null n s : valid (S (S n)) schema_defs (nullable_schema s) JNull = true.
Proof.
  change (valid (S (S n)) schema_defs (nullable_schema s) JNull) with ((valid (S n) schema_defs s JNull || (true || false)) && true).
  by rewrite orb_true_r.
Qed.
Lemma valid_present n s v : valid (S n) schema_defs s v = true → valid (S (S n)) schema_defs (nullable_schema s) v = true.
Proof.
  intros Hv. change (valid (S (S n)) schema_defs (nullable_schema s) v) with
    ((valid (S n) schema_defs s v || (valid (S n) schema_defs (JObj [("type", JStr "null")]) v || false)) && true). by rewrite Hv.
Qed.

(** ** Texts and numbers *)
Lemma codepoints_length s : (length (codepoints s) ≤ String.length s)%nat ∧ (s ≠ "" → codepoints s ≠ []).
Proof.
  assert (∀ n s, (String.length s ≤ n)%nat → (length (codepoints s) ≤ String.length s)%nat ∧ (s ≠ "" → codepoints s ≠ [])) as Hn; [|by eapply Hn].
  clear s. intros n. induction n as [|n IH]; intros [|a s1] Hs; simpl in *; try (split; [lia|done]); [lia|].
  destruct (code a <? 128); [specialize (IH s1); split; [simpl; lia|done]|]. destruct s1 as [|b s2]; [split; [simpl; lia|done]|]. simpl in Hs.
  destruct (code a <? 224); [specialize (IH s2); split; [simpl; lia|done]|]. destruct s2 as [|c s3]; [split; [simpl; lia|done]|]. simpl in Hs.
  destruct (code a <? 240); [specialize (IH s3); split; [simpl; lia|done]|]. destruct s3 as [|d s4]; [split; [simpl; lia|done]|]. simpl in Hs.
  specialize (IH s4). split; [simpl; lia|done].
Qed.
Lemma codepoints_pos s : s ≠ "" → 1 ≤ Z.of_nat (length (codepoints s)).
Proof. intros Hs. apply codepoints_length in Hs. destruct (codepoints s); [done|simpl; lia]. Qed.

Lemma text_value_ret v s : text_value v = Ret s → v = JStr s ∧ s ≠ "".
Proof.
  unfold text_value, err. intros Hv. destruct v; try done. destruct (String.eqb_spec s0 ""); [done|]. repeat case_match; by simplify_eq.
Qed.
Lemma text_field_ret data k s : text_field data k = Ret s → jget k data = Some (JStr s) ∧ s ≠ "".
Proof. unfold text_field, required. intros Hf. inv_parse. destruct (text_value_ret _ _ Hf) as [-> Hs]. done. Qed.
Lemma id_field_ret data k s : id_field data k = Ret s → jget k data = Some (JStr s) ∧ ID_RE s = true.
Proof. unfold id_field. intros Hf. inv_parse. match goal with H : text_field _ _ = _ |- _ => apply text_field_ret in H as [? _] end. done. Qed.
Lemma int_field_ret data k lo hi n : int_field data k lo hi = Ret n →
  jget k data = Some (JInt n) ∧ (∀ m, lo = Some m → m ≤ n) ∧ (∀ m, hi = Some m → n ≤ m).
Proof.
  unfold int_field, required, err. intros Hf. inv_parse. destruct x; try done. repeat case_match; simplify_eq; bool_prop; naive_solver.
Qed.
Lemma sha256_field_ret data k s : sha256_field data k = Ret s → jget k data = Some (JStr s) ∧ SHA256_RE s = true.
Proof. unfold sha256_field, required, sha256_value, err. intros Hf. inv_parse. repeat case_match; by simplify_eq. Qed.
Lemma bounded_text_ret v n s : bounded_text v n = Ret s → v = JStr s ∧ s ≠ "" ∧ utf8_length s ≤ n.
Proof.
  unfold bounded_text. intros Hf. inv_parse. match goal with H : text_value _ = _ |- _ => apply text_value_ret in H as [-> ?] end. done.
Qed.
Lemma bounded_field_ret data k n s : bounded_text_field data k n = Ret s → jget k data = Some (JStr s) ∧ s ≠ "" ∧ utf8_length s ≤ n.
Proof.
  unfold bounded_text_field, required. intros Hf. inv_parse. destruct (bounded_text_ret _ _ _ Hf) as (-> & ? & ?). done.
Qed.

(** The published schemas of the fields. *)
Ltac leaf := cbn [fst snd]; cbn [valid forallb existsb on_text on_number on_object has_type number_value texts text_schema limited_schema pattern_schema
  fmap list_fmap orb String.eqb Ascii.eqb Bool.eqb]; rewrite ?andb_true_r; cbn [andb orb].

Lemma valid_text n s : s ≠ "" → valid (S n) schema_defs text_schema (JStr s) = true.
Proof. intros Hs. leaf. by apply Z.leb_le, codepoints_pos. Qed.
Lemma valid_limited n m s : s ≠ "" → utf8_length s ≤ m → valid (S n) schema_defs (limited_schema m) (JStr s) = true.
Proof.
  intros Hs Hm. leaf. pose proof (codepoints_pos s Hs). destruct (codepoints_length s) as [Hl _]. unfold utf8_length in Hm.
  apply andb_true_iff. split; apply Z.leb_le; lia.
Qed.
Lemma valid_pattern n p s : pattern_matches p s = true → valid (S n) schema_defs (pattern_schema p) (JStr s) = true.
Proof. intros Hp. leaf. done. Qed.
Lemma Qle_bool_Z a b : a ≤ b → Qle_bool (inject_Z a) (inject_Z b) = true.
Proof. intros Hab. apply Qle_bool_iff. by rewrite <-Zle_Qle. Qed.

Lemma elem_of_sort_texts s l : s ∈ sort_texts l ↔ s ∈ l.
Proof.
  assert (∀ t l, s ∈ insert_text t l ↔ s = t ∨ s ∈ l) as Hi.
  { intros t l'. induction l' as [|u l' IH]; simpl; [rewrite list_elem_of_singleton; set_solver|]. destruct (String.leb t u); set_solver. }
  induction l as [|t l IH]; [done|]. cbn [sort_texts foldr]. rewrite Hi, elem_of_cons. fold (sort_texts l). by rewrite IH.
Qed.

Lemma enum_texts s l : s ∈ l → existsb (fun c => is_constant c (JStr s)) (JStr <$> l) = true.
Proof.
  intros Hs. apply existsb_exists. exists (JStr s). split; [apply list_elem_of_In, list_elem_of_fmap; by exists s|]. apply String.eqb_refl.
Qed.
Lemma valid_enum n s l : s ∈ l → valid (S n) schema_defs (JObj [("enum", texts (sort_texts l))]) (JStr s) = true.
Proof.
  intros Hs. change (existsb (fun c => is_constant c (JStr s)) (JStr <$> sort_texts l) && true = true). rewrite andb_true_r.
  by apply enum_texts, elem_of_sort_texts.
Qed.

Lemma enum_field_ret {A} (all : list A) name data k a : enum_field all name data k = Ret a →
  jget k data = Some (JStr (name a)) ∧ name a ∈ name <$> all.
Proof.
  unfold enum_field. intros Hf. inv_parse. apply List.find_some in Hf as [Hin Heq]. apply String.eqb_eq in Heq as <-.
  match goal with H : text_field _ _ = _ |- _ => apply text_field_ret in H as [-> _] end. split; [done|].
  apply list_elem_of_fmap. exists a. split; [done|by apply list_elem_of_In].
Qed.

Create HintDb schema.
Section fields.
Context (n : nat) (data : list (string * json)).

Lemma field_text k s : text_field data k = Ret s → field_ok (S n) data (k, text_schema).
Proof. intros [Hj Hs]%text_field_ret x Hx. simpl in Hx. simplify_eq. by apply valid_text. Qed.
Lemma field_id k s : id_field data k = Ret s → field_ok (S n) data (k, pattern_schema ID_PATTERN).
Proof. intros [Hj Hs]%id_field_ret x Hx. simpl in Hx. simplify_eq. by apply valid_pattern, id_pattern. Qed.
Lemma field_sha256 k s : sha256_field data k = Ret s → field_ok (S n) data (k, pattern_schema SHA256_PATTERN).
Proof. intros [Hj Hs]%sha256_field_ret x Hx. simpl in Hx. simplify_eq. by apply valid_pattern, sha256_pattern. Qed.
Lemma field_media k s : text_field data k = Ret s → MEDIA_TYPE_RE s = true → field_ok (S n) data (k, pattern_schema MEDIA_TYPE_PATTERN).
Proof. intros [Hj Hs]%text_field_ret Hm x Hx. simpl in Hx. simplify_eq. by apply valid_pattern, media_pattern. Qed.
Lemma field_image k s : text_field data k = Ret s → IMAGE_DIGEST_RE s = true → field_ok (S n) data (k, pattern_schema IMAGE_DIGEST_PATTERN).
Proof. intros [Hj Hs]%text_field_ret Hm x Hx. simpl in Hx. simplify_eq. by apply valid_pattern, image_pattern. Qed.
Lemma field_limited k m s : bounded_text_field data k m = Ret s → field_ok (S n) data (k, limited_schema m).
Proof. intros (Hj & Hs & Hm)%bounded_field_ret x Hx. simpl in Hx. simplify_eq. by apply valid_limited. Qed.
Lemma field_min k lo m : int_field data k (Some lo) None = Ret m →
  field_ok (S n) data (k, JObj [("type", JStr "integer"); ("minimum", JInt lo)]).
Proof.
  intros (Hj & Hlo & _)%int_field_ret x Hx. simpl in Hx. simplify_eq. leaf. by apply Qle_bool_Z, Hlo.
Qed.
Lemma field_range k lo hi m : int_field data k (Some lo) (Some hi) = Ret m →
  field_ok (S n) data (k, JObj [("type", JStr "integer"); ("minimum", JInt lo); ("maximum", JInt hi)]).
Proof.
  intros (Hj & Hlo & Hhi)%int_field_ret x Hx. simpl in Hx. simplify_eq. leaf. rewrite !Qle_bool_Z by auto. done.
Qed.
Lemma field_enum {A} (all : list A) name k a : enum_field all name data k = Ret a →
  field_ok (S n) data (k, JObj [("enum", texts (sort_texts (name <$> all)))]).
Proof. intros [Hj Ha]%enum_field_ret x Hx. simpl in Hx. simplify_eq. by apply valid_enum. Qed.
Lemma field_ref k name s x : required data k = Ret x →
  List.find (fun d => String.eqb ("#/$defs/" +:+ d.1) ("#/$defs/" +:+ name)) schema_defs = Some (name, s) →
  valid n schema_defs s x = true → field_ok (S n) data (k, ref name).
Proof.
  unfold required. intros Hr Hf Hv y Hy. simpl in Hy. apply of_option_ret in Hr. simplify_eq. by rewrite (valid_ref _ _ _ _ Hf).
Qed.
Lemma field_nullable {A} (parse : json → outcome A) k name s x o : required data k = Ret x → nullable parse x = Ret o →
  List.find (fun d => String.eqb ("#/$defs/" +:+ d.1) ("#/$defs/" +:+ name)) schema_defs = Some (name, s) →
  (∀ a, parse x = Ret a → valid n schema_defs s x = true) → field_ok (S (S n)) data (k, nullable_schema (ref name)).
Proof.
  unfold required. intros Hr Hn Hf Hv y Hy. simpl in Hy. apply of_option_ret in Hr. simplify_eq. cbn [snd].
  destruct (is_null x) eqn:E; [destruct x; try done; apply valid_null|]. apply valid_present. rewrite (valid_ref _ _ _ _ Hf).
  unfold nullable in Hn. destruct x; try done; inv_parse; by eapply Hv.
Qed.

Lemma present_required k x : required data k = Ret x → present data k.
Proof. intros Hr%of_option_ret. by exists x. Qed.
Lemma present_text k s : text_field data k = Ret s → present data k.
Proof. intros [Hj _]%text_field_ret. by eexists. Qed.
Lemma present_id k s : id_field data k = Ret s → present data k.
Proof. intros [Hj _]%id_field_ret. by eexists. Qed.
Lemma present_sha256 k s : sha256_field data k = Ret s → present data k.
Proof. intros [Hj _]%sha256_field_ret. by eexists. Qed.
Lemma present_bounded k m s : bounded_text_field data k m = Ret s → present data k.
Proof. intros [Hj _]%bounded_field_ret. by eexists. Qed.
Lemma present_int k lo hi m : int_field data k lo hi = Ret m → present data k.
Proof. intros [Hj _]%int_field_ret. by eexists. Qed.
Lemma present_enum {A} (all : list A) name k a : enum_field all name data k = Ret a → present data k.
Proof. intros [Hj _]%enum_field_ret. by eexists. Qed.
End fields.
#[export] Hint Resolve field_text field_id field_sha256 field_media field_image field_limited field_min field_range field_enum
  present_required present_text present_id present_sha256 present_bounded present_int present_enum : schema.

Lemma as_mapping_ret v data : as_mapping (Some v) = Ret data → v = JObj data.
Proof. unfold as_mapping, err. destruct v; naive_solver. Qed.

(** Open a parser, and meet its published object schema field by field. *)
Ltac open_parser :=
  intros; inv_parse;
  repeat match goal with
  | H : as_mapping (Some ?v) = Ret ?d |- _ => apply as_mapping_ret in H; subst v
  | u : unit |- _ => destruct u
  end.
Ltac meet_schema :=
  eapply valid_object; [eassumption|reflexivity|repeat (apply Forall_cons; split); [eauto 3 with schema..|apply Forall_nil; exact I]
                       |repeat (apply Forall_cons; split); [eauto 3 with schema..|apply Forall_nil; exact I]].

Lemma blob_ref_valid n v b : parse_blob_ref v = Ret b → valid (S (S n)) schema_defs blob_ref_schema v = true.
Proof. unfold parse_blob_ref. open_parser. meet_schema. Qed.

(** ** The documents *)
Lemma known_code_elem c : known_code c = true → c ∈ ERROR_TABLE.*1.
Proof.
  unfold known_code, ERROR_STATUS. intros Hc%bool_decide_eq_true. destruct (assoc c ERROR_TABLE) as [p|] eqn:E; [|by destruct Hc].
  revert E. generalize ERROR_TABLE. intros l. induction l as [|[k x] l IH]; [done|]. simpl. case_decide; [intros _; subst; constructor|].
  intros E. constructor. by apply IH.
Qed.

Lemma error_detail_valid n v d : parse_error_detail v = Ret d → valid (S (S n)) schema_defs error_detail_schema v = true.
Proof.
  unfold parse_error_detail. open_parser. rename select (text_field _ "code" = Ret _) into Hc. rename select (known_code _ = true) into Hk.
  rename select (required _ "retryable" = Ret _) into Hr. unfold required in Hr. apply of_option_ret in Hr. destruct x4; try done. inv_parse.
  apply text_field_ret in Hc as [Hc _]. apply known_code_elem in Hk.
  meet_schema; [by eexists|by eexists| |]; intros y Hy; cbn [fst snd] in *; simplify_eq; [by apply valid_enum|reflexivity].
Qed.

Lemma error_document_valid n v d : parse_error_document v = Ret d → valid (S (S (S (S n)))) schema_defs error_document_schema v = true.
Proof.
  unfold parse_error_document. open_parser. meet_schema.
  eapply (field_ref _ _ _ _ error_detail_schema); [eassumption|reflexivity|]. eapply error_detail_valid. eassumption.
Qed.

Lemma fence_valid n v f : parse_fence v = Ret f → valid (S (S n)) schema_defs fence_schema v = true.
Proof.
  unfold parse_fence. open_parser. rename select (required _ "execution_id" = Ret _) into Hi. rename select (required _ "attempt" = Ret _) into Ha.
  unfold required in Hi, Ha. apply of_option_ret in Hi, Ha.
  meet_schema; [by eexists|by eexists| |]; intros y Hy; cbn [fst snd] in *; simplify_eq.
  - destruct x5; try discriminate; [reflexivity|]. inv_parse. leaf. by apply id_pattern.
  - destruct x5; try discriminate; inv_parse; destruct x6; try discriminate; [reflexivity|]. inv_parse. leaf. by apply Qle_bool_Z.
Qed.

Lemma instance_valid utc n v i : parse_instance_identity utc v = Ret i → valid (S (S n)) schema_defs instance_schema v = true.
Proof.
  unfold parse_instance_identity. open_parser. meet_schema.
  intros y Hy. cbn [fst snd] in *. rename select (text_field _ "started_at" = Ret _) into Hs. apply text_field_ret in Hs as [Hs _]. simplify_eq. reflexivity.
Qed.

Lemma session_create_valid n v r : parse_session_create_request v = Ret r → valid (S (S n)) schema_defs session_create_schema v = true.
Proof.
  unfold parse_session_create_request. open_parser. meet_schema.
  intros y Hy. cbn [fst snd] in *. rename select (match jget "correlation_id" _ with _ => _ end = Ret _) into Hc. rewrite Hy in Hc. destruct (is_null y) eqn:E; [destruct y; try discriminate; reflexivity|].
  assert (∃ c, bounded_text_field x "correlation_id" CORRELATION_ID_MAX_LENGTH = Ret c) as [c Hb] by (destruct y; try discriminate; inv_parse; eauto).
  apply bounded_field_ret in Hb as (Hj & Hne & Hlen). simplify_eq. leaf. pose proof (codepoints_pos c Hne). destruct (codepoints_length c) as [Hl _].
  unfold utf8_length in Hlen. apply andb_true_iff. split; apply Z.leb_le; lia.
Qed.

Lemma nullable_enum_ret {A} (all : list A) name data k o : nullable_enum_field all name data k = Ret o →
  ∃ x, jget k data = Some x ∧ (x = JNull ∨ ∃ s, x = JStr s ∧ s ∈ name <$> all).
Proof.
  unfold nullable_enum_field, required, err. intros Hf. inv_parse. exists x. split; [done|]. destruct x; try discriminate; [by left|right].
  inv_parse. eexists. split; [done|]. match goal with H : List.find _ _ = Some _ |- _ => apply List.find_some in H as [Hin Heq] end.
  apply String.eqb_eq in Heq as <-. apply list_elem_of_fmap. eexists. split; [done|by apply list_elem_of_In].
Qed.

Lemma session_view_valid n v r : parse_session_view v = Ret r → valid (S (S (S (S (S n))))) schema_defs session_view_schema v = true.
Proof.
  unfold parse_session_view. open_parser. rename select (nullable_enum_field _ _ _ _ = Ret _) into Hp.
  destruct (nullable_enum_ret _ _ _ _ _ Hp) as (ph & Hj & Hph). meet_schema; [by eexists| | |].
  - intros y Hy. cbn [fst snd] in *. rewrite Hj in Hy. injection Hy as <-.
    change (existsb (fun c => is_constant c ph) ((JStr <$> sort_texts (session_phase_name <$> SESSION_PHASES)) ++ [JNull]) && (true && true) = true).
    rewrite andb_true_r. rewrite existsb_app. destruct Hph as [->|(s & -> & Hs)]; [apply orb_true_r|].
    by rewrite enum_texts by by apply elem_of_sort_texts.
  - intros y Hy. cbn [fst snd] in *. rename select (required _ "owner_token" = Ret _) into Ht. apply of_option_ret in Ht.
    rewrite Ht in Hy. injection Hy as ->. case_bool_decide; inv_parse; [by destruct y|].
    match goal with H : text_value y = Ret _ |- _ => apply text_value_ret in H as [-> Hs] end. leaf. by apply Z.leb_le, codepoints_pos.
  - eapply (field_nullable _ _ parse_error_detail _ _ error_detail_schema); [eassumption|eassumption|reflexivity|]. intros a Ha.
    eapply error_detail_valid. eassumption.
Qed.

Lemma execution_view_valid utc n v r : parse_execution_view utc v = Ret r → valid (S (S (S (S (S n))))) schema_defs execution_view_schema v = true.
Proof.
  unfold parse_execution_view. open_parser.
  meet_schema.
  - intros y Hy. cbn [fst snd] in *. rename select (required _ "compute_quiescent" = Ret _) into Hq. apply of_option_ret in Hq.
    rewrite Hq in Hy. injection Hy as ->.
    destruct (is_terminal _); inv_parse; destruct y as [|[]| | | | |]; try discriminate; reflexivity.
  - eapply (field_nullable _ _ parse_blob_ref _ _ blob_ref_schema); [eassumption|eassumption|reflexivity|]. intros a Ha.
    eapply blob_ref_valid. eassumption.
  - eapply (field_nullable _ _ parse_error_detail _ _ error_detail_schema); [eassumption|eassumption|reflexivity|]. intros a Ha.
    eapply error_detail_valid. eassumption.
  - eapply (field_nullable _ _ (parse_instance_identity utc) _ _ instance_schema); [eassumption|eassumption|reflexivity|]. intros a Ha.
    eapply instance_valid. eassumption.
  - eapply (field_ref _ _ _ _ fence_schema); [eassumption|reflexivity|]. eapply fence_valid. eassumption.
Qed.

(** ** Parameters *)
Lemma check_bounds_ret r q u : check_parameter_bounds r q = Ret u →
  (∀ lo, minimum r = Some lo → Qle_bool (inject_Z lo) q = true ∧ (exclusive_minimum r = true → Qle_bool q (inject_Z lo) = false)) ∧
  (∀ hi, maximum r = Some hi → Qle_bool q (inject_Z hi) = true).
Proof.
  unfold check_parameter_bounds. intros Hb. inv_parse. split; [|intros hi Hh; by rewrite Hh in Hb].
  intros lo Hl. rewrite Hl in *. destruct (exclusive_minimum r); inv_parse; [|done]. split; [|done].
  apply Qle_bool_iff, Qlt_le_weak, Qnot_le_lt. intros Hle%Qle_bool_iff. congruence.
Qed.

Lemma rule_valid n r v p : parse_parameter_value r v = Ret p → valid (S n) schema_defs (parameter_schema r) v = true.
Proof.
  assert (∀ q u, check_parameter_bounds r q = Ret u → number_value v = Some q → ∀ t ex, has_type (JStr t) v = true →
    (ex = true → exclusive_minimum r = true) →
    valid (S n) schema_defs (JObj ([("type", JStr t); ("description", JStr (description r))]
      ++ bound (if ex then "exclusiveMinimum" else "minimum") (minimum r) ++ bound "maximum" (maximum r))) v = true) as Hnum.
  { intros q u (Hlo & Hhi)%check_bounds_ret Hq t ex Ht Hex.
    destruct ex; destruct (minimum r) as [lo|], (maximum r) as [hi|]; cbn [bound app]; cbn [valid forallb]; unfold on_number; rewrite Ht, ?Hq;
      cbn [andb]; try (destruct (Hlo lo eq_refl) as [Hl Hx]; rewrite ?Hl; try rewrite Hx by auto); try rewrite Hhi by done; done. }
  unfold parse_parameter_value, parameter_schema. destruct (kind r) as [| | | |c]; intros Hp.
  - destruct v as [| |z| | | |]; try discriminate. inv_parse. by eapply (Hnum (inject_Z z) _ _ _ "integer" false).
  - destruct v as [| |z|[q|]| | |]; try discriminate.
    + destruct (Z.abs z <? FLOAT_OVERFLOW); [|discriminate]. inv_parse. by eapply (Hnum (inject_Z z) _ _ _ "number" (exclusive_minimum r)).
    + inv_parse. by eapply (Hnum q _ _ _ "number" (exclusive_minimum r)).
  - destruct v; try discriminate. reflexivity.
  - inv_parse. match goal with H : text_value _ = _ |- _ => apply text_value_ret in H as [-> Hs] end. leaf. by apply Z.leb_le, codepoints_pos.
  - destruct v; try discriminate. inv_parse. cbn [valid forallb is_constant]. rewrite andb_true_r.
    match goal with H : String.eqb _ _ = true |- _ => apply String.eqb_eq in H as <- end. by rewrite String.eqb_refl.
  Unshelve. all: done.
Qed.

Lemma parse_rules_each rules data parsed : parse_rules rules data = Ret parsed →
  ∀ k r x, (k, r) ∈ rules → jget k data = Some x → ∃ p, parse_parameter_value r x = Ret p.
Proof.
  revert parsed. induction rules as [|[k0 r0] rules IH]; intros parsed Hp k r x Hin Hx; [by apply not_elem_of_nil in Hin|].
  cbn [parse_rules] in Hp. apply elem_of_cons in Hin as [[= -> ->]|Hin].
  - rewrite Hx in Hp. inv_parse. by eexists.
  - destruct (jget k0 data); inv_parse; by eapply IH.
Qed.

Lemma elem_of_sort_fields kv l : kv ∈ sort_fields l ↔ kv ∈ l.
Proof.
  assert (∀ t l, kv ∈ insert_field t l ↔ kv = t ∨ kv ∈ l) as Hi.
  { intros t l'. induction l' as [|u l' IH]; simpl; [rewrite list_elem_of_singleton; set_solver|]. destruct (String.leb t.1 u.1); set_solver. }
  induction l as [|t l IH]; [done|]. cbn [sort_fields foldr]. rewrite Hi, elem_of_cons. fold (sort_fields l). by rewrite IH.
Qed.

Section requests.
Context `{FloatText}.

Lemma parameters_valid n op v p : parse_parameters op v = Ret p → valid (S (S n)) schema_defs (parameters_schema op) v = true.
Proof.
  unfold parse_parameters. open_parser. rename select (exact_keys _ _ = Ret _) into Hk. rename select (PARAMETER_RULES op = Some _) into Hr.
  rename select (parse_rules _ _ = Ret _) into Hp. unfold exact_keys in Hk. apply require_ret in Hk. unfold parameters_schema. rewrite Hr.
  cbv beta zeta iota delta [default from_option id].
  set (props := sort_fields (map (fun kr => (kr.1, parameter_schema kr.2)) x0)).
  change (true && (forallb (fun f => bool_decide (f.1 ∈ props.*1)) x
     && (forallb (fun p => match jget p.1 x with Some y => valid (S n) schema_defs p.2 y | None => true end) props && true)) = true).
  cbn [andb]. rewrite andb_true_r. apply andb_true_iff. split; apply forallb_forall.
  - intros f Hf. rewrite forallb_forall in Hk. specialize (Hk f Hf). apply bool_decide_eq_true in Hk. apply bool_decide_eq_true.
    apply list_elem_of_fmap in Hk as ([k r] & -> & Hin). apply list_elem_of_fmap. exists (k, parameter_schema r). split; [done|].
    apply elem_of_sort_fields, list_elem_of_fmap. by exists (k, r).
  - intros f Hf%list_elem_of_In. apply elem_of_sort_fields, list_elem_of_fmap in Hf as ([k r] & -> & Hin). cbn [fst snd].
    destruct (jget k x) as [y|] eqn:Hy; [|done]. destruct (parse_rules_each _ _ _ Hp k r y Hin Hy) as [q Hq]. by eapply rule_valid.
Qed.

Lemma execution_input_valid n v i : parse_execution_input v = Ret i → valid (S (S (S (S n)))) schema_defs execution_input_schema v = true.
Proof.
  unfold parse_execution_input. open_parser. rename select (exact_keys _ _ = Ret _) into Hk. unfold exact_keys in Hk. apply require_ret in Hk.
  rename select (match jget "inline" x with _ => _ end = Ret i) into Hp.
  set (branch k := valid (S (S (S n))) schema_defs (JObj [("required", texts [k])]) (JObj x)).
  assert (∀ k, branch k = bool_decide (is_Some (jget k x))) as Hb.
  { intros k. change (branch k) with (bool_decide (is_Some (jget k x)) && true && true). by rewrite !andb_true_r. }
  change (true && (forallb (fun f => bool_decide (f.1 ∈ ["inline"; "blob"])) x
    && ((match jget "inline" x with Some y => valid (S (S (S n))) schema_defs (JObj [("type", JStr "object"); ("minProperties", JInt 1)]) y | None => true end
         && (match jget "blob" x with Some y => valid (S (S (S n))) schema_defs (ref "BlobRef") y | None => true end && true))
    && ((length (if branch "inline" then JObj [("required", texts ["inline"])] :: (if branch "blob" then [JObj [("required", texts ["blob"])]] else [])
                 else (if branch "blob" then [JObj [("required", texts ["blob"])]] else [])) =? 1)%nat && true))) = true).
  rewrite !Hb. cbn [andb]. unfold EXECUTION_INPUT_KEYS in Hk. rewrite Hk. cbn [andb].
  destruct (jget "inline" x) as [y|] eqn:Hi, (jget "blob" x) as [z|] eqn:Hz; try discriminate.
  - rewrite bool_decide_true by done. rewrite bool_decide_false by (by intros [? ?]). cbn [andb length]. rewrite !andb_true_r.
    inv_parse. rename select (as_mapping (Some y) = Ret _) into Hm. apply as_mapping_ret in Hm as ->. destruct x0; [done|].
    leaf. apply Z.leb_le. simpl. lia.
  - rewrite bool_decide_false by (by intros [? ?]). rewrite bool_decide_true by done. cbn [andb length]. rewrite !andb_true_r. inv_parse.
    rewrite (valid_ref _ _ blob_ref_schema) by reflexivity. eapply blob_ref_valid. eassumption.
Qed.

(** An object schema with further rules, and the rule of one operation. *)
Lemma valid_object_rules n req props rules data :
  valid (S n) schema_defs (object_schema req props) (JObj data) = true → Forall (fun s => valid n schema_defs s (JObj data) = true) rules →
  valid (S n) schema_defs (JObj [("type", JStr "object"); ("additionalProperties", JBool false); ("required", texts req);
    ("properties", JObj props); ("allOf", JList rules)]) (JObj data) = true.
Proof.
  set (A := forallb (fun f => bool_decide (f.1 ∈ props.*1)) data).
  set (B := forallb (fun k => bool_decide (is_Some (jget (text_of_json k) data))) (JStr <$> req)).
  set (C := forallb (fun p => match jget p.1 data with Some x => valid n schema_defs p.2 x | None => true end) props).
  change (true && (A && (B && (C && true))) = true → Forall (fun s => valid n schema_defs s (JObj data) = true) rules →
    true && (A && (B && (C && (forallb (fun s => valid n schema_defs s (JObj data)) rules && true)))) = true).
  intros Hobj Hr. assert (forallb (fun s => valid n schema_defs s (JObj data)) rules = true) as ->; [|done].
  apply forallb_forall. intros s Hs%list_elem_of_In. rewrite Forall_forall in Hr. by apply Hr.
Qed.
Lemma valid_operation_rule n data op chosen parameters :
  jget "operation" data = Some (JStr chosen) → jget "parameters" data = Some parameters →
  (op = chosen → valid (S n) schema_defs (ref ("Parameters_" +:+ op)) parameters = true) →
  valid (S (S (S n))) schema_defs (operation_rule op) (JObj data) = true.
Proof.
  unfold operation_rule. generalize (ref ("Parameters_" +:+ op)). intros s Ht Hr Hv.
  change (valid (S (S (S n))) schema_defs (JObj [("if", JObj [("required", texts ["operation"]); ("properties", JObj [("operation", JObj [("const", JStr op)])])]);
        ("then", JObj [("properties", JObj [("parameters", s)])])]) (JObj data)) with
    ((negb ((bool_decide (is_Some (jget "operation" data)) && true)
            && ((match jget "operation" data with Some y => is_constant (JStr op) y && true | None => true end && true) && true))
      || ((match jget "parameters" data with Some y => valid (S n) schema_defs s y | None => true end && true) && true))
     && (true && true)).
  rewrite Ht, Hr. rewrite bool_decide_true by done. cbn [is_constant andb]. rewrite !andb_true_r.
  destruct (String.eqb_spec op chosen) as [E|]; [|done]. by rewrite Hv.
Qed.

Lemma find_parameters op : op ∈ CAPABILITIES →
  List.find (fun d => String.eqb ("#/$defs/" +:+ d.1) ("#/$defs/" +:+ ("Parameters_" +:+ op))) schema_defs = Some ("Parameters_" +:+ op, parameters_schema op).
Proof. unfold CAPABILITIES. intros Hop. repeat (apply elem_of_cons in Hop as [->|Hop]; [reflexivity|]). by apply not_elem_of_nil in Hop. Qed.

Lemma execution_create_valid n v r : parse_execution_create_request v = Ret r →
  valid (S (S (S (S (S (S n)))))) schema_defs execution_create_schema v = true.
Proof.
  unfold parse_execution_create_request. open_parser. rename select (exact_keys _ _ = Ret _) into Hk.
  rename select (enum_text_field _ _ _ = Ret _) into Ho. unfold enum_text_field in Ho. inv_parse.
  rename select (text_field _ "operation" = Ret _) into Ht. apply text_field_ret in Ht as [Ht Hne].
  rename select (_ ∈ CAPABILITIES) into Hcap. rename select (required _ "parameters" = Ret _) into Hr. apply of_option_ret in Hr.
  rename select (parse_parameters _ _ = Ret _) into Hpar.
  set (props := [("session_token", text_schema); ("operation", JObj [("enum", texts (sort_texts CAPABILITIES))]); ("input", ref "ExecutionInput");
                 ("parameters", JObj [("type", JStr "object")]); ("idempotency_key", limited_schema IDEMPOTENCY_KEY_MAX_LENGTH)]).
  assert (valid (S (S (S (S (S (S n)))))) schema_defs (object_schema EXECUTION_CREATE_KEYS props) (JObj x) = true) as Hobj.
  { unfold props. meet_schema; [by eexists|by eexists| | |].
    - intros y Hy. cbn [fst snd] in *. rewrite Ht in Hy. injection Hy as <-. by apply valid_enum.
    - eapply (field_ref _ _ _ _ execution_input_schema); [eassumption|reflexivity|]. eapply execution_input_valid. eassumption.
    - intros y Hy. cbn [fst snd] in *. rewrite Hr in Hy. injection Hy as <-. unfold parse_parameters in Hpar. inv_parse.
      rename select (as_mapping (Some _) = Ret _) into Hm. apply as_mapping_ret in Hm as ->. reflexivity. }
  apply valid_object_rules; [exact Hobj|]. apply Forall_fmap, Forall_forall. intros op Hop. rewrite elem_of_sort_texts in Hop.
  apply (valid_operation_rule _ _ _ _ _ Ht Hr). intros ->. rewrite (valid_ref _ _ _ _ (find_parameters _ Hop)).
  eapply parameters_valid. eassumption.
Qed.
End requests.

(** C31: the exported JSON Schema never contradicts the service: every document a
    parser of the control protocol accepts - error, blob, instance, fence,
    session and execution documents and requests, each operation's parameters
    included - is valid under the definition the schema publishes for it.  The
    published patterns are read from their own text and matched as regular
    expressions, with the white space class as Python has it; so a client that
    validates so never rejects what the service accepts. *)
Theorem schema_admits_accepted `{FloatText} utc v :
  (∀ d, parse_error_document v = Ret d → schema_accepts "ErrorDocument" v = true) ∧
  (∀ b, parse_blob_ref v = Ret b → schema_accepts "BlobRef" v = true) ∧
  (∀ i, parse_instance_identity utc v = Ret i → schema_accepts "InstanceIdentity" v = true) ∧
  (∀ f, parse_fence v = Ret f → schema_accepts "Fence" v = true) ∧
  (∀ r, parse_session_create_request v = Ret r → schema_accepts "SessionCreateRequest" v = true) ∧
  (∀ s, parse_session_view v = Ret s → schema_accepts "SessionView" v = true) ∧
  (∀ r, parse_execution_create_request v = Ret r → schema_accepts "ExecutionCreateRequest" v = true) ∧
  (∀ e, parse_execution_view utc v = Ret e → schema_accepts "ExecutionView" v = true).
Proof.
  unfold schema_accepts. split_and!; intros a Ha.
  - rewrite (valid_ref _ _ error_document_schema) by reflexivity. by eapply error_document_valid.
  - rewrite (valid_ref _ _ blob_ref_schema) by reflexivity. by eapply blob_ref_valid.
  - rewrite (valid_ref _ _ instance_schema) by reflexivity. by eapply instance_valid.
  - rewrite (valid_ref _ _ fence_schema) by reflexivity. by eapply fence_valid.
  - rewrite (valid_ref _ _ session_create_schema) by reflexivity. by eapply session_create_valid.
  - rewrite (valid_ref _ _ session_view_schema) by reflexivity. by eapply session_view_valid.
  - rewrite (valid_ref _ _ execution_create_schema) by reflexivity. by eapply execution_create_valid.
  - rewrite (valid_ref _ _ execution_view_schema) by reflexivity. by eapply execution_view_valid.
Qed.

(** ** On documents *)
#[local] Existing Instance thousandths_floats.

Definition demo_fence : json :=
  JObj [("boot_id", JStr "b0"); ("model_id", JStr "m"); ("generation", JInt 1); ("operation_id", JStr "op-1");
        ("execution_id", JNull); ("attempt", JNull)].
Definition demo_request : json :=
  JObj [("session_token", JStr "t"); ("operation", JStr "chat"); ("input", JObj [("inline", JObj [("messages", JList [])])]);
        ("parameters", JObj [("temperature", JFloat (Some (3 # 2))); ("max_tokens", JInt 16)]); ("idempotency_key", JStr "k")].

Lemma schema_admits_accepted_witness :
  schema_accepts "Fence" demo_fence = true ∧ schema_accepts "ExecutionCreateRequest" demo_request = true.
Proof.
  assert (∃ f, parse_fence demo_fence = Ret f) as [f Hf] by (eexists; vm_compute; reflexivity).
  assert (∃ r, parse_execution_create_request demo_request = Ret r) as [r Hr] by (eexists; vm_compute; reflexivity).
  pose proof (schema_admits_accepted (fun _ => true) demo_fence) as (_ & _ & _ & Hfence & _).
  pose proof (schema_admits_accepted (fun _ => true) demo_request) as (_ & _ & _ & _ & _ & _ & Hreq & _).
  split; [exact (Hfence f Hf)|exact (Hreq r Hr)].
Defined.

(** The converse fails on lengths: the schema counts characters and the parser
    bytes, so 65 two-byte letters pass one and not the other. *)
Definition long_key : string := concat_text (repeat (utf8 233) 65).
Definition long_request : json := JObj [("model_id", JStr "m"); ("idempotency_key", JStr long_key)].
Example schema_counts_characters :
  schema_accepts "SessionCreateRequest" long_request = true ∧
  parse_session_create_request long_request = Raise (ContractError "must be at most max_bytes UTF-8 bytes").
Proof. split; vm_compute; reflexivity. Qed.
(** A parameter outside its table, or out of its range, is refused by both. *)
Example out_of_range_refused :
  parse_parameters "chat" (JObj [("top_p", JInt 0)]) = Raise (ContractError "must be > minimum") ∧
  valid 12 schema_defs (parameters_schema "chat") (JObj [("top_p", JInt 0)]) = false ∧
  valid 12 schema_defs (parameters_schema "rerank") (JObj [("top_p", JInt 1)]) = false.
Proof. split_and!; vm_compute; reflexivity. Qed.
(** What the published patterns refuse: they are read, not taken as the parsers'. *)
Example patterns_refuse :
  (pattern_matches ID_PATTERN <$> ["a"; "a.b_c-9"; "a-"; ".a"; "A"; ""]) = [true; true; false; false; false; false] ∧
  (pattern_matches SHA256_PATTERN <$> [concat_text (repeat "f" 64); concat_text (repeat "f" 63); concat_text (repeat "F" 64)]) = [true; false; false] ∧
  (pattern_matches MEDIA_TYPE_PATTERN <$> ["image/png"; "a/b/c"; "image/"]) = [true; false; false] ∧
  pattern_matches "^[A-Z]$" "a" = false ∧ pattern_matches "b" "abc" = true.
Proof. vm_compute. done. Qed.
(** Draft 2020-12 reads patterns as ECMA-262 does, whose white space has U+FEFF and
    not U+0085 nor U+001C to U+001F: an image name with U+FEFF is accepted by the
    parser and refused by such a client. *)
Definition ecma_space (c : Z) : bool := (c =? 65279) || (is_space c && negb (c =? 133) && negb ((28 <=? c) && (c <=? 31))).
Definition marked_image : string := utf8 65279 +:+ "img@sha256:" +:+ concat_text (repeat "0" 64).
Lemma ecma_refuses_accepted_image : IMAGE_DIGEST_RE marked_image = true ∧ pattern_matches IMAGE_DIGEST_PATTERN marked_image = true ∧
  (fun r => regex_matches ecma_space r (codepoints marked_image)) <$> parse_pattern IMAGE_DIGEST_PATTERN = Some false.
Proof. vm_compute. done. Qed.
