(* ===== verification/RequestsProps.v ===== *)
(** * Documents written and read back, and the idempotency fingerprint *)

From S2P Require Import Prelude Text Dict Contracts Registration RegistrationProps JsonText JsonTextProps Identity Protocol Requests Schema SchemaProps.
From Stdlib Require Import Ascii QArith.
Local Open Scope Z_scope.

(** ** A field parsed once parses again wherever it was written *)
Create HintDb again.
Section again.
Context (data data' : list (string * json)) (k : string).

Lemma text_again s : text_field data k = Ret s → jget k data' = Some (JStr s) → text_field data' k = Ret s.
Proof.
  intros Hf Hj. pose proof (text_field_ret _ _ _ Hf) as [Hj0 _]. unfold text_field, required in *. rewrite Hj0 in Hf. rewrite Hj. exact Hf.
Qed.
Lemma id_again s : id_field data k = Ret s → jget k data' = Some (JStr s) → id_field data' k = Ret s.
Proof.
  unfold id_field. intros (t & Ht & Hr)%obind_ret Hj. apply obind_ret in Hr as (u & Hu & Hr). apply (proj1 (mret_ret _ _)) in Hr as ->.
  rewrite (text_again _ Ht Hj). run_unfold. by rewrite Hu.
Qed.
Lemma sha256_again s : sha256_field data k = Ret s → jget k data' = Some (JStr s) → sha256_field data' k = Ret s.
Proof.
  intros Hf Hj. pose proof (sha256_field_ret _ _ _ Hf) as [_ Hs]. unfold sha256_field, required, sha256_value. rewrite Hj. run_unfold. by rewrite Hs.
Qed.
Lemma int_again lo hi n : int_field data k lo hi = Ret n → jget k data' = Some (JInt n) → int_field data' k lo hi = Ret n.
Proof.
  intros Hf Hj. pose proof (int_field_ret _ _ _ _ _ Hf) as [Hj0 _]. unfold int_field, required in *. rewrite Hj0 in Hf. rewrite Hj. exact Hf.
Qed.
Lemma bounded_again m s : bounded_text_field data k m = Ret s → jget k data' = Some (JStr s) → bounded_text_field data' k m = Ret s.
Proof.
  intros Hf Hj. pose proof (bounded_field_ret _ _ _ _ Hf) as [Hj0 _]. unfold bounded_text_field, required in *. rewrite Hj0 in Hf. rewrite Hj. exact Hf.
Qed.
Lemma required_again x : jget k data' = Some x → required data' k = Ret x.
Proof. unfold required. by intros ->. Qed.
End again.
#[export] Hint Resolve text_again id_again sha256_again int_again bounded_again required_again : again.

(** One line of a parser on a written document. *)
Ltac read_line :=
  apply obind_ret; eexists; split;
    [first [reflexivity | eassumption | (eapply text_again; [eassumption|reflexivity]) | (eapply id_again; [eassumption|reflexivity])
           | (eapply sha256_again; [eassumption|reflexivity]) | (eapply int_again; [eassumption|reflexivity])
           | (eapply bounded_again; [eassumption|reflexivity]) | (eapply required_again; reflexivity)
           | (apply (proj2 (require_ret _ _ tt)); first [eassumption | reflexivity])]|].

Lemma error_detail_again v e : parse_error_detail v = Ret e → parse_error_detail (error_body e) = Ret e.
Proof.
  unfold parse_error_detail at 1. open_parser. destruct x4; try discriminate. inv_parse. unfold parse_error_detail, error_body.
  cbn [err_code err_message err_retryable]. do 6 read_line. cbv beta iota. read_line. reflexivity.
Qed.
Lemma blob_ref_again v b : parse_blob_ref v = Ret b → parse_blob_ref (blob_document b) = Ret b.
Proof.
  unfold parse_blob_ref at 1. open_parser. unfold parse_blob_ref, blob_document. repeat read_line. reflexivity.
Qed.
Lemma instance_again utc v i : parse_instance_identity utc v = Ret i → parse_instance_identity utc (instance_document i) = Ret i.
Proof.
  unfold parse_instance_identity at 1. open_parser. unfold parse_instance_identity, instance_document. repeat read_line. reflexivity.
Qed.
Lemma fence_again v f : parse_fence v = Ret f → parse_fence (fence_document f) = Ret f.
Proof.
  unfold parse_fence at 1. open_parser. rename select (Bool.eqb (is_null _) _ = true) into He.
  rename select (match _ with JNull => _ | _ => _ end = Ret _) into Hm. destruct x5; try discriminate; inv_parse; destruct x6; try discriminate; inv_parse.
  - unfold parse_fence, fence_document. repeat read_line. reflexivity.
  - unfold parse_fence, fence_document. do 9 read_line. apply obind_ret. eexists. split; [|reflexivity]. cbv beta iota.
    read_line. apply obind_ret. exists tt. split; [|reflexivity]. by apply (proj2 (require_ret _ _ tt)), Z.leb_le.
Qed.

Lemma bounded_text_again v m s : bounded_text v m = Ret s → bounded_text (JStr s) m = Ret s.
Proof. intros Hb. by destruct (bounded_text_ret _ _ _ Hb) as [-> _]. Qed.

Lemma error_document_written c m r d : error_document c m r = Ret d →
  parse_error_document d = Ret ({| err_code := c; err_message := m; err_retryable := retryable_code c |}, r).
Proof.
  unfold error_document. intros Hd. inv_parse. rename select (text_value _ = Ret _) into Ht. rename select (bounded_text _ _ = Ret _) into Hb.
  pose proof (text_value_ret _ _ Ht) as [[= ->] _]. pose proof (bounded_text_ret _ _ _ Hb) as ([= ->] & _).
  unfold parse_error_document. do 3 read_line. apply obind_ret. eexists. split; [|apply obind_ret; eexists; split; [exact Hb|reflexivity]].
  unfold parse_error_detail, error_body. cbn [err_code err_message err_retryable]. do 2 read_line.
  assert (text_value (JStr c) = Ret c) as Hc.
  { match goal with H : known_code c = true |- _ => apply known_code_elem in H as Hin end. revert Hin. clear.
    cbn [ERROR_TABLE fmap list_fmap fst]. intros Hin. repeat (apply elem_of_cons in Hin as [->|Hin]; [vm_compute; reflexivity|]). by apply not_elem_of_nil in Hin. }
  apply obind_ret. exists c. split; [exact Hc|]. read_line. apply obind_ret. eexists. split; [exact Ht|]. read_line. cbv beta iota.
  apply obind_ret. exists tt. split; [|reflexivity]. apply (proj2 (require_ret _ _ tt)). apply Bool.eqb_reflx.
Qed.

(** Nothing is lost between writing and reading: an error document the
    service writes parses to its code, message, retryable flag and request id;
    and a blob reference, instance identity, fence or error detail that parsed
    once is written back to a document that parses to the same value. *)
Theorem documents_roundtrip utc :
  (∀ c m r d, error_document c m r = Ret d →
     parse_error_document d = Ret ({| err_code := c; err_message := m; err_retryable := retryable_code c |}, r) ∧
     is_retryable_error c = Ret (retryable_code c) ∧ is_Some (ERROR_STATUS c)) ∧
  (∀ v e, parse_error_detail v = Ret e → parse_error_detail (error_body e) = Ret e) ∧
  (∀ v b, parse_blob_ref v = Ret b → parse_blob_ref (blob_document b) = Ret b) ∧
  (∀ v i, parse_instance_identity utc v = Ret i → parse_instance_identity utc (instance_document i) = Ret i) ∧
  (∀ v f, parse_fence v = Ret f → parse_fence (fence_document f) = Ret f).
Proof.
  split_and!; [|apply error_detail_again|apply blob_ref_again|apply instance_again|apply fence_again].
  intros c m r d Hd. split; [by apply error_document_written|]. unfold error_document in Hd. inv_parse.
  rename select (known_code c = true) into Hk. unfold is_retryable_error. rewrite Hk. split; [done|]. unfold known_code in Hk. by apply bool_decide_eq_true in Hk.
Qed.

(** ** Fingerprints *)
Section fingerprint.
Context `{FloatTextLaws} `{Digest}.

Lemma fingerprint_ret owner key payload h : idempotency_fingerprint owner key payload = Ret h →
  ∃ body, canonical_json_bytes (fingerprint_body owner key payload) = Ret body ∧ h = sha256_hex body.
Proof.
  unfold idempotency_fingerprint. intros Hf. inv_parse. rename select (text_value _ = Ret _) into Ht. rename select (bounded_text _ _ = Ret _) into Hb.
  pose proof (text_value_ret _ _ Ht) as [[= ->] _]. pose proof (bounded_text_ret _ _ _ Hb) as ([= ->] & _). eauto.
Qed.

Lemma fingerprint_readable owner key payload : readable payload → readable (fingerprint_body owner key payload).
Proof.
  intros Hp. split; [apply (bool_decide_unpack (NoDup ["owner"; "key"; "payload"])); vm_compute; exact I|]. split_and!; done.
Qed.

(** A fingerprint stands for its request: unless SHA-256 collides on these two
    very texts, two requests with the same fingerprint have the same owner, the
    same key and the same payload up to the order of its keys; and the order of
    keys does not matter to it. *)
Theorem fingerprint_exact o1 k1 p1 o2 k2 p2 h1 h2 :
  readable p1 → readable p2 →
  idempotency_fingerprint o1 k1 p1 = Ret h1 → idempotency_fingerprint o2 k2 p2 = Ret h2 →
  (∀ b1 b2, canonical_json_bytes (fingerprint_body o1 k1 p1) = Ret b1 → canonical_json_bytes (fingerprint_body o2 k2 p2) = Ret b2 →
     sha256_hex b1 = sha256_hex b2 → b1 = b2) →
  h1 = h2 ↔ o1 = o2 ∧ k1 = k2 ∧ sorted_keys p1 = sorted_keys p2.
Proof.
  intros Hp1 Hp2 (b1 & Hb1 & ->)%fingerprint_ret (b2 & Hb2 & ->)%fingerprint_ret Hcoll. split.
  - intros Hh. apply (Hcoll _ _ Hb1 Hb2) in Hh as ->.
    pose proof (canonical_parses _ _ (fingerprint_readable o1 k1 p1 Hp1) Hb1) as R1. pose proof (canonical_parses _ _ (fingerprint_readable o2 k2 p2 Hp2) Hb2) as R2.
    rewrite R1 in R2. injection R2 as -> -> ->. done.
  - intros (-> & -> & Hs). f_equal.
    assert (dumps false (fingerprint_body o2 k2 p1) = dumps false (fingerprint_body o2 k2 p2)) as Hd.
    { unfold dumps. change (sorted_keys (fingerprint_body o2 k2 ?p)) with (JObj [("key", JStr k2); ("owner", JStr o2); ("payload", sorted_keys p)]). by rewrite Hs. }
    rewrite <-(canonical_text _ _ Hb1), <-(canonical_text _ _ Hb2). exact Hd.
Qed.
End fingerprint.

(** ** Two requests *)
#[local] Existing Instance thousandths_floats.
#[local] Existing Instance thousandths_laws.
(** A digest for the example: the text padded or cut to 64 characters. *)
Fixpoint fit (n : nat) (s : string) : string :=
  match n with O => "" | S n => match s with EmptyString => String "0" (fit n "") | String c s => String c (fit n s) end end.
Lemma fit_length n s : String.length (fit n s) = n.
Proof. revert s. induction n as [|n IH]; intros [|c s]; simpl; by rewrite ?IH. Qed.
#[local] Instance demo_digest : Digest := {| sha256_hex := fit 64; sha256_hex_length := fit_length 64 |}.

Definition payload_ab : json := JObj [("a", JInt 1); ("b", JNull)].
Definition payload_ba : json := JObj [("b", JNull); ("a", JInt 1)].

Lemma fingerprint_exact_witness : ∃ h, idempotency_fingerprint "uid:1" "k" payload_ab = Ret h ∧ idempotency_fingerprint "uid:1" "k" payload_ba = Ret h.
Proof.
  assert (∃ h1, idempotency_fingerprint "uid:1" "k" payload_ab = Ret h1) as [h1 H1] by (eexists; vm_compute; reflexivity).
  assert (∃ h2, idempotency_fingerprint "uid:1" "k" payload_ba = Ret h2) as [h2 H2] by (eexists; vm_compute; reflexivity).
  assert (readable payload_ab) as R1 by (split; [apply (bool_decide_unpack (NoDup ["a"; "b"])); vm_compute; exact I|split_and!; exact I]).
  assert (readable payload_ba) as R2 by (split; [apply (bool_decide_unpack (NoDup ["b"; "a"])); vm_compute; exact I|split_and!; exact I]).
  pose proof (fingerprint_exact "uid:1" "k" payload_ab "uid:1" "k" payload_ba h1 h2 R1 R2 H1 H2) as Hf.
  assert (h1 = h2) as <-.
  { apply Hf; [|split_and!; reflexivity]. intros b1 b2 <-%canonical_text <-%canonical_text _. vm_compute. reflexivity. }
  exists h1. by split.
Defined.

Lemma documents_roundtrip_witness : ∃ d,
  error_document "busy" "try later" "r-1" = Ret d ∧
  parse_error_document d = Ret ({| err_code := "busy"; err_message := "try later"; err_retryable := true |}, "r-1").
Proof.
  eexists. split; [vm_compute; reflexivity|]. eapply (proj1 (documents_roundtrip (fun _ => true)) "busy" "try later" "r-1"). vm_compute. reflexivity.
Defined.
