(* ===== verification/BlobStore.v ===== *)
(** * The blob store

    [model_scheduler/blob_store.py]: staging files, published files and the
    metadata catalogue together.  A file system operation or a metadata
    transaction is one atomic effect; [alive] counts the effects that still
    happen before the power fails, and after a power failure nothing runs, no
    [except] block either.  A metadata transaction that returned is on disk
    ([journal_mode=WAL], [synchronous=FULL]); the bytes of a file are on disk only
    after its [fsync], a name only after the [fsync] of its directory: [unsynced]
    and [durable] keep what is not, and [power_failure] is what a power failure
    makes of it.  What the operating system answers (errors, short
    writes) is an argument.  The digest is an interface. *)

From S2P Require Import Prelude Text Dict Contracts Registration Identity Protocol Blobs.
From Stdlib Require Import Ascii.
Local Open Scope Z_scope.

(** What a name in an owner directory leads to. *)
Inductive File :=
| Regular (data : string)
| NotRegular (* opens, but is no regular file *)
| Link (* a symbolic link: [O_NOFOLLOW] makes [open] fail *).

Record OutputReservation := {
  o_blob_id : string;
  o_owner : string;
  o_media_type : string;
  o_limit_bytes : Z;
  o_fence : Fence;
  o_reserved_at : time;
  o_cancelled_fence : option Fence;
}.

Record BlobStore := {
  metadata : BlobMetadata;
  staging : dict string string;
  files : dict (string * string) File;
  media_types : list string;
  chunked_reserve_bytes : Z;
  alive : nat;
  unsynced : list string; (* the blobs whose file has bytes that are not on disk *)
  durable : string * string → option File; (* the owner directories on disk *)
}.

#[export] Instance BlobStore_eta : Eta BlobStore := fun s =>
  {| metadata := metadata s; staging := staging s; files := files s; media_types := media_types s;
     chunked_reserve_bytes := chunked_reserve_bytes s; alive := alive s; unsynced := unsynced s; durable := durable s |}.

(** What the name [k] leads to after its bytes were lost. *)
Definition torn (before after : option File) : Prop :=
  match before, after with
  | None, None | Some _, Some (Regular _) => True
  | _, _ => False
  end.

(** [s'] is what the next start may find after the power failed in [s]: the
    committed catalogue, every name of an owner directory as it is or as it was
    when the directory was last synchronised, with its bytes if they were
    synchronised and any bytes otherwise, and any staging files. *)
Record power_failure (s s' : BlobStore) : Prop := {
  pf_metadata : metadata s' = metadata s;
  pf_media_types : media_types s' = media_types s;
  pf_reserve : chunked_reserve_bytes s' = chunked_reserve_bytes s;
  pf_files : ∀ o id, ∃ kept, (kept = durable s (o, id) ∨ kept = files s !! (o, id)) ∧
    (id ∉ unsynced s → files s' !! (o, id) = kept) ∧ (id ∈ unsynced s → torn kept (files s' !! (o, id)));
}.

Definition MEDIA_TYPES : list string := ["application/json"; "image/png"; "image/jpeg"].
Definition CHUNKED_RESERVE_BYTES : Z := 1024 ^ 3.

(** ** Effects and failures *)
Definition effect {A} (m : pym BlobStore A) : pym BlobStore A :=
  s ← get;
  match alive s with
  | O => raise PowerLoss
  | S n => modify (fun s => s <| alive := n |>) ;; m
  end.

(** [await self._call(self.metadata.method, ...)] *)
Definition db {A} (m : pym BlobMetadata A) : pym BlobStore A :=
  effect (on_field metadata (fun x s => s <| metadata := x |>) m).
(** A read of the catalogue. *)
Definition ask_db {A} (f : BlobMetadata → A) : pym BlobStore A := effect (s ← get; mret (f (metadata s))).

(** [except BaseException: h; raise] *)
Definition cleanup {A} (m : pym BlobStore A) (h : pym BlobStore unit) : pym BlobStore A :=
  catch m (fun e => match e with PowerLoss => None | _ => Some (h ;; raise e) end).

(** [except <class>: h] for the errors of the store itself *)
Definition except_store {A} (m h : pym BlobStore A) : pym BlobStore A :=
  catch m (fun e => match e with BlobStoreError _ => Some h | _ => None end).

(** [except QuotaExceeded as exc: raise BlobStoreError("quota_exceeded")] *)
Definition quota_error {A} (m : pym BlobStore A) : pym BlobStore A :=
  catch m (fun e => match e with QuotaExceeded _ => Some (raise (BlobStoreError "quota_exceeded")) | _ => None end).

(** [os.*]: the error it raises, if any. *)
Definition os_result (o : option exn) : pym BlobStore unit := match o with Some e => raise e | None => mret tt end.

(** What the operating system answers during one upload; [io_write n] is the
    number of bytes the [n]-th write took. *)
Record Io := {
  io_open : option exn;
  io_write : nat → string → outcome nat;
  io_fsync : option exn;
  io_rename : option exn;
  io_dirsync : option exn;
}.

#[export] Instance Io_eta : Eta Io := fun io =>
  {| io_open := io_open io; io_write := io_write io; io_fsync := io_fsync io; io_rename := io_rename io;
     io_dirsync := io_dirsync io |}.

(** ** Files *)
Definition checked_id (value where_ : string) : pym BlobStore unit :=
  if ID_RE value then mret tt
  else raise (BlobStoreError (if String.eqb where_ "blob_id" then "not_found" else "forbidden")).

(** [O_CREAT | O_EXCL] *)
Definition open_staging (io : Io) (blob_id : string) : pym BlobStore unit :=
  effect (os_result (io_open io) ;;
          s ← get;
          if mem blob_id (staging s) then raise (OSError "FileExistsError")
          else modify (fun s => s <| staging ::= <[blob_id := ""]> |> <| unsynced ::= cons blob_id |>)).

(** [os.write(fd, chunk)]: its result is not used. *)
Definition write_staging (io : Io) (n : nat) (blob_id chunk : string) : pym BlobStore unit :=
  effect (k ← lift (io_write io n chunk);
          modify (fun s => match staging s !! blob_id with
                           | Some data => s <| staging ::= <[blob_id := data +:+ String.substring 0 k chunk]> |>
                                            <| unsynced ::= cons blob_id |>
                           | None => s
                           end)).

(** [os.fsync(fd)] *)
Definition sync_staging (io : Io) (blob_id : string) : pym BlobStore unit :=
  effect (os_result (io_fsync io) ;; modify (fun s => s <| unsynced ::= List.filter (fun x => negb (String.eqb x blob_id)) |>)).

(** [os.replace], then [os.fsync] of the owner directory. *)
Definition publish_file (io : Io) (owner blob_id : string) : pym BlobStore unit :=
  effect (os_result (io_rename io) ;;
          s ← get;
          match staging s !! blob_id with
          | None => raise (OSError "FileNotFoundError")
          | Some data =>
              modify (fun s => s <| files ::= <[(owner, blob_id) := Regular data]> |> <| staging ::= delete blob_id |>)
          end) ;;
  effect (os_result (io_dirsync io) ;;
          modify (fun s => s <| durable := fun k => if String.eqb k.1 owner then files s !! k else durable s k |>)).

Definition remove_staging (blob_id : string) : pym BlobStore unit :=
  effect (modify (fun s => s <| staging ::= delete blob_id |>)).

Definition remove_published (owner blob_id : string) : pym BlobStore unit :=
  effect (modify (fun s => s <| files ::= delete (owner, blob_id) |>)).

Section Store.
Context `{Digest}.

(** The bytes of a file that is regular and matches. *)
Definition matches (f : File) (sha256 : option string) (size : Z) : bool :=
  match f with
  | Regular data => (Z.of_nat (String.length data) =? size) && bool_decide (Some (sha256_hex data) = sha256)
  | NotRegular | Link => false
  end.

(** [_open_verified]: the descriptor, as the bytes it reads. *)
Definition open_verified (r : BlobRecord) : pym BlobStore string :=
  f ← effect (s ← get; mret (files s !! (b_owner r, b_blob_id r)));
  match f with
  | None | Some Link => raise (BlobStoreError "unreadable")
  | Some f =>
      if matches f (b_sha256 r) (b_size_bytes r)
      then match f with Regular data => mret data | _ => raise (BlobStoreError "unreadable") end
      else db (mark_corrupt (b_blob_id r)) ;; raise (BlobStoreError "unreadable")
  end.

(** ** Uploads *)

(** The receiving loop; [acc] is what was received, the hash is over it. *)
Fixpoint receive (io : Io) (blob_id : string) (limit : Z) (chunks : list string) (stream_end : option exn)
    (n : nat) (acc : string) : pym BlobStore string :=
  match chunks with
  | [] => os_result stream_end ;; mret acc
  | chunk :: chunks =>
      if String.eqb chunk "" then receive io blob_id limit chunks stream_end n acc
      else
        let acc := acc +:+ chunk in
        if limit <? Z.of_nat (String.length acc) then raise (BlobStoreError "too_large")
        else write_staging io n blob_id chunk ;; receive io blob_id limit chunks stream_end (S n) acc
  end.

(** The checks after the last byte. *)
Definition check_received (acc : string) (expected_sha256 : option string) (declared_size : option Z) : outcome unit :=
  if match declared_size with Some n => negb (Z.of_nat (String.length acc) =? n) | None => false end
  then Raise (BlobStoreError "checksum_mismatch")
  else if match expected_sha256 with Some h => negb (String.eqb (sha256_hex acc) h) | None => false end
  then Raise (BlobStoreError "checksum_mismatch")
  else Ret tt.

Definition receive_and_publish (io : Io) (blob_id owner : string) (chunks : list string) (stream_end : option exn)
    (expected_sha256 : option string) (limit : Z) (declared_size : option Z) (retention : option time)
    (now : time) : pym BlobStore BlobRecord :=
  db (journal blob_id owner STEP_STAGING expected_sha256 limit now) ;;
  open_staging io blob_id ;;
  acc ← cleanup
    (db (begin_staging blob_id) ;;
     acc ← receive io blob_id limit chunks stream_end 0 "";
     sync_staging io blob_id ;;
     lift (check_received acc expected_sha256 declared_size) ;;
     mret acc)
    (remove_staging blob_id ;; db (abort blob_id));
  let size := Z.of_nat (String.length acc) in
  db (journal blob_id owner STEP_PENDING (Some (sha256_hex acc)) size now) ;;
  cleanup (publish_file io owner blob_id)
    (remove_staging blob_id ;; db (abort blob_id) ;; db (clear_journal blob_id)) ;;
  record ← cleanup (db (publish blob_id (sha256_hex acc) size now retention))
    (remove_published owner blob_id ;; db (abort blob_id) ;; db (clear_journal blob_id));
  db (journal blob_id owner STEP_PUBLISHED (Some (sha256_hex acc)) size now) ;;
  db (clear_journal blob_id) ;;
  mret record.

Definition upload (io : Io) (blob_id owner media_type : string) (chunks : list string) (stream_end : option exn)
    (expected_sha256 : option string) (declared_size : option Z) (disk_free : option Z) (now : time)
    : pym BlobStore BlobRecord :=
  checked_id blob_id "blob_id" ;;
  checked_id owner "owner" ;;
  s ← get;
  if negb (bool_decide (media_type ∈ media_types s)) then raise (BlobStoreError "unsupported_media_type")
  else
    let limit := default (chunked_reserve_bytes s) declared_size in
    if (limit <=? 0) || (MAX_BLOB_BYTES <? limit) then raise (BlobStoreError "too_large")
    else
      quota_error (db (reserve blob_id owner limit media_type now (owner +:+ "/" +:+ blob_id) disk_free)) ;;
      receive_and_publish io blob_id owner chunks stream_end expected_sha256 limit declared_size None now.

(** ** Execution outputs *)
Definition reserve_output (blob_id owner media_type : string) (limit_bytes : Z) (fence : Fence)
    (disk_free : option Z) (now : time) : pym BlobStore OutputReservation :=
  checked_id blob_id "blob_id" ;;
  checked_id owner "owner" ;;
  s ← get;
  if negb (bool_decide (media_type ∈ media_types s)) then raise (BlobStoreError "unsupported_media_type")
  else if (limit_bytes <=? 0) || (MAX_BLOB_BYTES <? limit_bytes) then raise (BlobStoreError "too_large")
  else
    quota_error (db (reserve blob_id owner limit_bytes media_type now (owner +:+ "/" +:+ blob_id) disk_free)) ;;
    mret {| o_blob_id := blob_id; o_owner := owner; o_media_type := media_type; o_limit_bytes := limit_bytes;
            o_fence := fence; o_reserved_at := now; o_cancelled_fence := None |}.

(** The reservation after the call, and whether the cancel was accepted. *)
Definition cancel_output (r : OutputReservation) (fence : Fence) : OutputReservation * bool :=
  match writeback_decision (o_fence r) fence with
  | Some _ => (r, false)
  | None => ({| o_blob_id := o_blob_id r; o_owner := o_owner r; o_media_type := o_media_type r;
                o_limit_bytes := o_limit_bytes r; o_fence := o_fence r; o_reserved_at := o_reserved_at r;
                o_cancelled_fence := Some fence |}, true)
  end.

Definition abandon_output (r : OutputReservation) : pym BlobStore unit :=
  remove_staging (o_blob_id r) ;;
  remove_published (o_owner r) (o_blob_id r) ;;
  db (abort (o_blob_id r)) ;;
  db (clear_journal (o_blob_id r)).

Definition write_output (io : Io) (r : OutputReservation) (chunks : list string) (stream_end : option exn)
    (expected_sha256 : option string) (now : time) : pym BlobStore BlobRecord :=
  match o_cancelled_fence r with
  | Some _ => abandon_output r ;; raise (BlobStoreError "cancelled")
  | None =>
      receive_and_publish io (o_blob_id r) (o_owner r) chunks stream_end expected_sha256 (o_limit_bytes r) None None now
  end.

(** ** Restart recovery *)
Record RecoveryReport := {
  rep_verified : list string;
  rep_unreadable : list string;
  rep_purged : list string;
  rep_protected : list string;
}.

Definition complete_pending_publish (r : BlobRecord) (e : JournalEntry) (now : time) : pym BlobStore bool :=
  f ← effect (s ← get; mret (files s !! (b_owner r, b_blob_id r)));
  match f with
  | Some (Regular data) =>
      if matches (Regular data) (j_sha256 e) (j_size_bytes e)
      then
        db (publish (b_blob_id r) (sha256_hex data) (Z.of_nat (String.length data)) now None) ;;
        remove_staging (b_blob_id r) ;;
        mret true
      else mret false
  | _ => mret false
  end.

(** One published row: [true] when its file was verified. *)
Definition recover_published (now : time) (blob_id : string) : pym BlobStore (option bool) :=
  r ← ask_db (fun m => get_blob m blob_id);
  match r with
  | None => mret None
  | Some r =>
      ok ← except_store (open_verified r ;; mret true)
             (db (release_missing blob_id now true) ;; mret false);
      db (clear_journal blob_id) ;;
      mret (Some ok)
  end.

(** [entry is not None and entry["step"] == STEP_PENDING and entry["sha256"]] *)
Definition pending_entry (e : option JournalEntry) : option JournalEntry :=
  match e with
  | Some e => if bool_decide (j_step e = STEP_PENDING) && truthy (j_sha256 e) then Some e else None
  | None => None
  end.

(** One unfinished row: [true] when its publication was completed. *)
Definition recover_unfinished (now : time) (r : BlobRecord) : pym BlobStore bool :=
  e ← ask_db (fun m => journal_entry m (b_blob_id r));
  completed ← match pending_entry e with
              | Some e => complete_pending_publish r e now
              | None => mret false
              end;
  if completed : bool then db (clear_journal (b_blob_id r)) ;; mret true
  else
    remove_staging (b_blob_id r) ;;
    remove_published (b_owner r) (b_blob_id r) ;;
    db (abort (b_blob_id r)) ;;
    db (clear_journal (b_blob_id r)) ;;
    mret false.

(** [sweep_orphan_staging]: what is left in the staging directory. *)
Definition sweep_orphan_staging : pym BlobStore (list string) :=
  names ← effect (s ← get; mret (keys (staging s)));
  for_each names remove_staging ;;
  mret names.

Definition with_flag {A} (xs : list (A * bool)) (b : bool) : list A :=
  fst <$> List.filter (fun x => Bool.eqb x.2 b) xs.

Definition RESTART_HOLDER_PREFIX : string := "restart:".

Definition recover_blobs (instances_running : bool) (boot_id : string) (now : time) : pym BlobStore RecoveryReport :=
  ids ← ask_db verify_all;
  published ← map_each ids (fun id => ok ← recover_published now id; mret (id, ok));
  rows ← ask_db unfinished_rows;
  finished ← map_each rows (fun r => ok ← recover_unfinished now r; mret (b_blob_id r, ok));
  orphans ← sweep_orphan_staging;
  protected_ ← (if instances_running then db (protect_all_published (RESTART_HOLDER_PREFIX +:+ boot_id)) else mret []);
  let readable b := fst <$> List.filter (fun x => bool_decide (x.2 = Some b)) published in
  mret {| rep_verified := readable true ++ with_flag finished true;
          rep_unreadable := readable false;
          rep_purged := with_flag finished false ++ orphans;
          rep_protected := protected_ |}.

Definition release_restart_protection (boot_id : string) : pym BlobStore (list string) :=
  db (release_protection (RESTART_HOLDER_PREFIX +:+ boot_id)).

(** ** Reads, leases and deletion *)
Definition lease_begin (blob_id owner holder : string) (now : time) : pym BlobStore (string * BlobRecord) :=
  checked_id blob_id "blob_id" ;;
  checked_id owner "owner" ;;
  r ← ask_db (fun m => get_blob m blob_id);
  match r with
  | None => raise (BlobStoreError "not_found")
  | Some r =>
      if negb (bool_decide (b_owner r = owner)) || negb (bool_decide (b_state r = B_PUBLISHED))
      then raise (BlobStoreError "not_found")
      else if match b_expires_at r with Some t => t <=? now | None => false end then raise (BlobStoreError "expired")
      else
        data ← open_verified r;
        ok ← db (acquire_lease blob_id holder);
        if negb ok then raise (BlobStoreError "not_found") else mret (data, r)
  end.

Definition lease_end (blob_id holder : string) : pym BlobStore unit := db (release_lease blob_id holder).

(** [read_all]: the whole file through one leased descriptor. *)
Definition read_all (blob_id owner holder : string) (now : time) : pym BlobStore string :=
  dr ← lease_begin blob_id owner holder now;
  lease_end blob_id holder ;;
  mret dr.1.

Definition delete_ (blob_id owner : string) (now : time) : pym BlobStore DeleteOutcome :=
  checked_id blob_id "blob_id" ;;
  checked_id owner "owner" ;;
  o ← db (delete_blob blob_id owner now);
  (if bool_decide (o = Del_deleted) then
     r ← ask_db (fun m => get_blob m blob_id);
     match r with Some r => remove_published (b_owner r) blob_id | None => mret tt end
   else mret tt) ;;
  mret o.

Definition expire_ (now : time) : pym BlobStore (list string) :=
  expired ← db (expire_blobs now);
  for_each expired (fun r => remove_published (b_owner r) (b_blob_id r)) ;;
  mret (b_blob_id <$> expired).

Definition verify_published : pym BlobStore (list string * list string) :=
  ids ← ask_db verify_all;
  seen ← map_each ids (fun id =>
    r ← ask_db (fun m => get_blob m id);
    match r with
    | None => mret (id, None)
    | Some r => ok ← except_store (open_verified r ;; mret true) (mret false); mret (id, Some ok)
    end);
  let pick b := fst <$> List.filter (fun x => bool_decide (x.2 = Some b)) seen in
  mret (pick true, pick false).
End Store.
