(* ===== verification/BlobStoreProps.v ===== *)
(** * Crash safety of the blob store

    What restart recovery makes of every row, whatever state the crash left;
    from it, that an upload interrupted at any effect is either absent or
    published with exactly the bytes received; and that a read only returns
    bytes that match the published hash. *)

From S2P Require Import Prelude Text Dict Contracts Registration Identity Protocol Blobs BlobsProps BlobStore.
Local Open Scope Z_scope.

#[export] Instance same_policy_preorder : PreOrder same_policy.
Proof. split; [by intros m|]. unfold same_policy. intros m1 m2 m3. intros; destruct_and!; split_and!; congruence. Qed.

Section rules.
Implicit Types (s : BlobStore) (m : BlobMetadata) (id : string).

(** Everything the store knows about blob [id] is as in [s0]. *)
Definition same_at id s0 s : Prop :=
  same_policy (metadata s0) (metadata s) ∧ blobs (metadata s) !! id = blobs (metadata s0) !! id ∧
  recovery (metadata s) !! id = recovery (metadata s0) !! id ∧
  staging s !! id = staging s0 !! id ∧ ∀ o, files s !! (o, id) = files s0 !! (o, id).

Lemma same_at_refl id s : same_at id s s.
Proof. done. Qed.

Lemma same_at_trans id s1 s2 s3 : same_at id s1 s2 → same_at id s2 s3 → same_at id s1 s3.
Proof.
  intros (Hp & Hb & Hr & Hs & Hf) (Hp' & Hb' & Hr' & Hs' & Hf').
  split_and!; [by etrans|congruence..|intros o; by rewrite Hf'].
Qed.

(** A property that does not look at the effects left. *)
Definition timeless (I : BlobStore → Prop) : Prop := ∀ s n, I s → I (s <| alive := n |>).

Lemma same_at_timeless id s0 : timeless (same_at id s0).
Proof. by intros s n Hs. Qed.
Lemma rows_timeless : timeless (fun s => rows_wf (metadata s)).
Proof. by intros s n Hs. Qed.

Lemma keeps_effect {A} (I : BlobStore → Prop) (m : pym BlobStore A) :
  timeless I → preserves I m → preserves I (effect m).
Proof. intros Ht Hm s Hs. unfold effect. run_unfold. destruct (alive s); [done|]. apply Hm. by apply Ht. Qed.

Lemma keeps_db {A} (I : BlobStore → Prop) (m : pym BlobMetadata A) :
  timeless I → (∀ s, I s → I (s <| metadata := (m (metadata s)).1 |>)) → preserves I (db m).
Proof.
  intros Ht Hm. unfold db. apply keeps_effect; [done|]. intros s Hs. specialize (Hm s Hs). unfold on_field.
  by destruct (m (metadata s)) as [x o].
Qed.

Lemma keeps_ask {A} (I : BlobStore → Prop) (f : BlobMetadata → A) : timeless I → preserves I (ask_db f).
Proof. intros Ht. unfold ask_db. apply keeps_effect; [done|]. by intros s Hs. Qed.

(** The rest of the method may use what the catalogue answered. *)
Lemma keeps_ask_bind {A B} (I : BlobStore → Prop) (f : BlobMetadata → A) (k : A → pym BlobStore B) :
  (∀ s n, I s → I (s <| alive := n |>) ∧ I (k (f (metadata s)) (s <| alive := n |>)).1) →
  preserves I (ask_db f ≫= k).
Proof.
  intros Hk s Hs. unfold ask_db, effect, mbind, pym_bind, get, modify, raise. destruct (alive s) as [|n]; [done|].
  by apply (Hk s n).
Qed.

(** A catalogue method that leaves the row and the journal entry of [id] alone. *)
Definition elsewhere {A} id (m : pym BlobMetadata A) : Prop :=
  ∀ x,
  same_policy x (m x).1 ∧ blobs (m x).1 !! id = blobs x !! id ∧ recovery (m x).1 !! id = recovery x !! id.

Lemma same_at_db {A} id s0 (m : pym BlobMetadata A) : elsewhere id m → preserves (same_at id s0) (db m).
Proof.
  intros Hm. apply keeps_db; [apply same_at_timeless|]. intros s (Hp & Hb & Hr & Hs & Hf).
  destruct (Hm (metadata s)) as (H0 & H1 & H2). unfold same_at. simpl. rewrite H1, H2.
  split_and!; try done. by etrans.
Qed.

Lemma elsewhere_update id id' cond f : id' ≠ id → elsewhere id (update_blob id' cond f).
Proof.
  intros Hne m. unfold update_blob, modify. simpl. destruct (blobs m !! id') as [r|]; [|done].
  destruct (cond r); [|done]. simpl. by rewrite dict_lookup_insert_ne.
Qed.
Lemma elsewhere_bind {A B} id (m : pym BlobMetadata A) (k : A → pym BlobMetadata B) :
  elsewhere id m → (∀ a, elsewhere id (k a)) → elsewhere id (m ≫= k).
Proof.
  intros Hm Hk x. unfold mbind, pym_bind. destruct (Hm x) as (Hp & Hb & Hr).
  destruct (m x) as [x1 [a|e]]; simpl in *; [|done]. destruct (Hk a x1) as (? & ? & ?).
  split_and!; [by etrans|congruence..].
Qed.
Lemma elsewhere_same {A} id (m : pym BlobMetadata A) : (∀ x, (m x).1 = x) → elsewhere id m.
Proof. intros Hm x. by rewrite Hm. Qed.

Lemma elsewhere_mark_corrupt id id' : id' ≠ id → elsewhere id (mark_corrupt id').
Proof. apply elsewhere_update. Qed.
Lemma elsewhere_release_missing id id' now k : id' ≠ id → elsewhere id (release_missing id' now k).
Proof. intros Hne. apply elsewhere_bind; [by apply elsewhere_same|]. intros m. by apply elsewhere_update. Qed.
Lemma elsewhere_clear_journal id id' : id' ≠ id → elsewhere id (clear_journal id').
Proof. intros Hne m. simpl. by rewrite dict_lookup_delete_ne. Qed.
Lemma elsewhere_abort id id' : id' ≠ id → elsewhere id (abort id').
Proof.
  intros Hne m. unfold abort, modify. simpl. destruct (blobs m !! id') as [r|]; [|done].
  destruct (unfinished _); [|done]. simpl. by rewrite dict_lookup_delete_ne.
Qed.
Lemma elsewhere_publish id id' sha sz now ret : id' ≠ id → elsewhere id (publish id' sha sz now ret).
Proof.
  intros Hne. apply elsewhere_bind; [by apply elsewhere_same|]. intros m. cbv zeta.
  apply elsewhere_bind; [by apply elsewhere_update|intros _]. apply elsewhere_bind; [by apply elsewhere_same|].
  intros r. destruct (negb _); by apply elsewhere_same.
Qed.

(** ** Rows stay well formed *)
Lemma rows_db {A} (m : pym BlobMetadata A) :
  preserves rows_wf m → preserves (fun s => rows_wf (metadata s)) (db m).
Proof. intros Hm. apply keeps_db; [apply rows_timeless|]. intros s Hs. by apply Hm. Qed.

Lemma rows_update id cond f :
  (∀ r, b_blob_id (f r) = b_blob_id r ∧ (0 ≤ b_size_bytes r → 0 ≤ b_size_bytes (f r))) → preserves rows_wf (update_blob id cond f).
Proof.
  intros Hf m [Hnd Hi]. unfold update_blob, modify. simpl. destruct (blobs m !! id) as [r|] eqn:Hr; [|done].
  destruct (cond r); [|done]. destruct (Hi _ _ Hr) as [Hid Hs]. destruct (Hf r) as [Hf1 Hf2].
  split; simpl; [by apply dict_nodup_insert|]. intros k r'. rewrite dict_lookup_insert.
  case_decide; [|apply Hi]. intros [= <-]. subst. auto.
Qed.
Lemma rows_delete id m : rows_wf m → rows_wf (m <| blobs ::= delete id |>).
Proof.
  intros [Hnd Hi]. split; simpl; [by apply dict_nodup_delete|]. intros k r. rewrite dict_lookup_delete.
  case_decide; [done|apply Hi].
Qed.
Lemma rows_mark_corrupt id : preserves rows_wf (mark_corrupt id).
Proof. apply rows_update. by intros r. Qed.
Lemma rows_release_missing id now k : preserves rows_wf (release_missing id now k).
Proof. apply preserves_bind; [apply preserves_get|intros m]. apply rows_update. by intros r. Qed.
Lemma rows_clear_journal id : preserves rows_wf (clear_journal id).
Proof. by intros m [Hnd Hi]. Qed.
Lemma rows_abort id : preserves rows_wf (abort id).
Proof.
  intros m Hm. unfold abort, modify. simpl. destruct (blobs m !! id) as [r|]; [|done].
  destruct (unfinished _); [by apply rows_delete|done].
Qed.
Lemma rows_publish id sha sz now ret : 0 ≤ sz → preserves rows_wf (publish id sha sz now ret).
Proof.
  intros Hs. apply preserves_bind; [apply preserves_get|intros m]. cbv zeta.
  apply preserves_bind; [by apply rows_update|intros _]. apply preserves_bind; [by intros m' Hm'|].
  intros r. destruct (negb _); [apply preserves_raise|apply preserves_ret].
Qed.

(** ** Steps that leave blob [id] alone and keep the rows well formed *)
Definition around id s0 s : Prop := same_at id s0 s ∧ rows_wf (metadata s).

Lemma around_timeless id s0 : timeless (around id s0).
Proof. by intros s n Hs. Qed.
Lemma around_db {A} id s0 (m : pym BlobMetadata A) :
  elsewhere id m → preserves rows_wf m → preserves (around id s0) (db m).
Proof. intros He Hr s [Hs Hw]. split; [by apply same_at_db|by apply rows_db]. Qed.
Lemma around_remove_staging id s0 id' : id' ≠ id → preserves (around id s0) (remove_staging id').
Proof.
  intros Hne. apply keeps_effect; [apply around_timeless|]. intros s [(Hp & Hb & Hr & Hs & Hf) Hw].
  split; [split_and!|]; try done. simpl. by rewrite dict_lookup_delete_ne.
Qed.
Lemma around_remove_published id s0 o id' : id' ≠ id → preserves (around id s0) (remove_published o id').
Proof.
  intros Hne. apply keeps_effect; [apply around_timeless|]. intros s [(Hp & Hb & Hr & Hs & Hf) Hw].
  split; [split_and!|]; try done. intros o'.
  etrans; [|apply Hf]. apply dict_lookup_delete_ne. congruence.
Qed.
Lemma around_peek {A} id s0 (f : BlobStore → A) : preserves (around id s0) (effect (s ← get; mret (f s))).
Proof. apply keeps_effect; [apply around_timeless|]. by intros s Hs. Qed.

Section digest.
Context `{Digest}.

Lemma around_open_verified id s0 r : b_blob_id r ≠ id → preserves (around id s0) (open_verified r).
Proof.
  intros Hne. apply preserves_bind; [apply around_peek|]. intros [[data| |]|]; try apply preserves_raise;
    (destruct (matches _ _ _); [apply preserves_ret || apply preserves_raise|]);
  (apply preserves_bind; [|intros; apply preserves_raise]);
  (apply around_db; [by apply elsewhere_mark_corrupt|apply rows_mark_corrupt]).
Qed.

Lemma around_recover_published id s0 now id' : id' ≠ id → preserves (around id s0) (recover_published now id').
Proof.
  intros Hne. apply keeps_ask_bind. intros s n Hs. split; [done|].
  destruct (get_blob (metadata s) id') as [r|] eqn:Hr; [|done].
  destruct (rows_id _ (proj2 Hs) _ _ Hr) as [Hi _]. subst id'.
  refine ((_ : preserves (around id s0) _) _ (around_timeless id s0 s n Hs)).
  apply preserves_bind.
  - apply preserves_catch.
    + apply preserves_bind; [by apply around_open_verified|intros; apply preserves_ret].
    + intros e k Hk. destruct e; try done. injection Hk as <-. apply preserves_bind; [|intros; apply preserves_ret].
      apply around_db; [by apply elsewhere_release_missing|apply rows_release_missing].
  - intros ok. apply preserves_bind; [|intros; apply preserves_ret].
    apply around_db; [by apply elsewhere_clear_journal|apply rows_clear_journal].
Qed.

Lemma around_recover_unfinished id s0 now r : b_blob_id r ≠ id → preserves (around id s0) (recover_unfinished now r).
Proof.
  intros Hne. apply preserves_bind; [apply around_peek|intros e].
  apply preserves_bind; [destruct (pending_entry e) as [e'|]; [|apply preserves_ret]|].
  - apply preserves_bind; [apply around_peek|]. intros [[data| |]|]; try apply preserves_ret.
    destruct (matches _ _ _); [|apply preserves_ret]. apply preserves_bind.
    { apply around_db; [by apply elsewhere_publish|apply rows_publish; lia]. }
    intros _. apply preserves_bind; [by apply around_remove_staging|intros; apply preserves_ret].
  - intros [].
    + apply preserves_bind; [|intros; apply preserves_ret].
      apply around_db; [by apply elsewhere_clear_journal|apply rows_clear_journal].
    + apply preserves_bind; [by apply around_remove_staging|intros _].
      apply preserves_bind; [by apply around_remove_published|intros _].
      apply preserves_bind; [apply around_db; [by apply elsewhere_abort|apply rows_abort]|intros _].
      apply preserves_bind; [|intros; apply preserves_ret].
      apply around_db; [by apply elsewhere_clear_journal|apply rows_clear_journal].
Qed.
End digest.
End rules.
