(* ===== verification/BlobRecovery.v ===== *)
(** * Restart recovery of the blob store

    The verdict recovery reaches on one row from what the crash left of it, and
    that [recover] carries out exactly these verdicts, on every row, once. *)

From S2P Require Import Prelude Text Dict Contracts Registration Identity Protocol Blobs BlobsProps BlobStore BlobStoreProps.
From Stdlib Require Import Ascii.
Local Open Scope Z_scope.

Section recovery.
Context `{Digest}.
Implicit Types (s : BlobStore) (m : BlobMetadata) (id : string).

(** ** What recovery decides *)
Definition published_as now m (data : string) (r : BlobRecord) : BlobRecord :=
  r <| b_state := B_PUBLISHED |> <| b_sha256 := Some (sha256_hex data) |>
    <| b_size_bytes := Z.of_nat (String.length data) |> <| b_expires_at := Some (now + bm_retention_seconds m) |>.

Definition buried_as now m (r : BlobRecord) : BlobRecord :=
  r <| b_state := B_DELETED |> <| b_size_bytes := 0 |> <| b_expires_at := Some (now + tombstone_seconds m) |>.

(** The bytes of the file under the blob's name, when it is regular and matches. *)
Definition intact (f : option File) (sha256 : option string) (size : Z) : option string :=
  match f with
  | Some (Regular data) => if matches (Regular data) sha256 size then Some data else None
  | _ => None
  end.

Definition verdict (now : time) s id : option BlobRecord :=
  match blobs (metadata s) !! id with
  | None => None
  | Some r =>
      let f := files s !! (b_owner r, id) in
      if unfinished (b_state r)
      then e ← pending_entry (recovery (metadata s) !! id);
           data ← intact f (j_sha256 e) (j_size_bytes e);
           Some (published_as now (metadata s) data r)
      else if bool_decide (b_state r = B_PUBLISHED)
      then Some (if intact f (b_sha256 r) (b_size_bytes r) then r else buried_as now (metadata s) r)
      else Some r
  end.

(** The file under [owner]/[id] afterwards: an aborted upload loses it. *)
Definition file_after (now : time) s owner id : option File :=
  match blobs (metadata s) !! id with
  | Some r => if unfinished (b_state r) && bool_decide (b_owner r = owner) && bool_decide (verdict now s id = None)
              then None else files s !! (owner, id)
  | None => files s !! (owner, id)
  end.

(** [s'] holds the verdict reached on [id] in [s]. *)
Definition resolved now s id s' : Prop :=
  blobs (metadata s') !! id = verdict now s id ∧ ∀ o, files s' !! (o, id) = file_after now s o id.

(** The verdict depends on what the store knows about [id] only. *)
Lemma same_at_verdict now s s' id : same_at id s s' → verdict now s' id = verdict now s id.
Proof.
  intros ((_ & _ & Ht & Hr) & Hb & Hj & _ & Hf). unfold verdict. rewrite Hb, Hj.
  destruct (blobs (metadata s) !! id) as [r|]; [|done]. cbv zeta. rewrite Hf. unfold published_as, buried_as. by rewrite Ht, Hr.
Qed.
Lemma same_at_file_after now s s' o id : same_at id s s' → file_after now s' o id = file_after now s o id.
Proof.
  intros Hs. unfold file_after. rewrite (same_at_verdict now s s' id Hs). destruct Hs as (_ & -> & _ & _ & Hf).
  by rewrite Hf.
Qed.
Lemma resolved_before now s0 s id s' : same_at id s0 s → resolved now s id s' → resolved now s0 id s'.
Proof.
  intros Hs [Hb Hf]. split; [by rewrite Hb, (same_at_verdict now s0)|]. intros o.
  by rewrite Hf, (same_at_file_after now s0).
Qed.
Lemma resolved_after now s id s1 s' : same_at id s1 s' → resolved now s id s1 → resolved now s id s'.
Proof. intros (_ & Hb' & _ & _ & Hf') [Hb Hf]. split; [congruence|]. intros o. by rewrite Hf'. Qed.

(** ** Running with power left

    [m] run from [s] either returns in [Q] after at most [cost] effects, or is
    cut by a power failure, and then fewer than [cost] effects were left. *)
Definition upto {A} (cost : nat) s (run : BlobStore * outcome A) (Q : A → BlobStore → Prop) : Prop :=
  match run with
  | (s', Ret a) => Q a s' ∧ (alive s ≤ alive s' + cost)%nat
  | (_, Raise e) => e = PowerLoss ∧ (alive s < cost)%nat
  end.

Lemma upto_mono {A} c c' s (run : BlobStore * outcome A) (Q Q' : A → BlobStore → Prop) :
  upto c s run Q → (c ≤ c')%nat → (∀ a s', Q a s' → Q' a s') → upto c' s run Q'.
Proof. unfold upto. intros Hr Hc HQ. destruct run as [s' [a|e]]; destruct Hr; split; auto; lia. Qed.

Lemma upto_and {A} c s (m : pym BlobStore A) (Q : A → BlobStore → Prop) (I : BlobStore → Prop) :
  upto c s (m s) Q → preserves I m → I s → upto c s (m s) (fun a s' => Q a s' ∧ I s').
Proof. intros Hm HI Hs. specialize (HI s Hs). unfold upto in *. destruct (m s) as [s' [a|e]]; tauto. Qed.

Lemma upto_ret {A} c s (a : A) (Q : A → BlobStore → Prop) : Q a s → upto c s ((mret a : pym BlobStore A) s) Q.
Proof. intros HQ. split; [done|lia]. Qed.

Lemma upto_bind {A B} c1 c2 s (m : pym BlobStore A) (k : A → pym BlobStore B) (Q : A → BlobStore → Prop) R :
  upto c1 s (m s) Q → (∀ a s1, Q a s1 → upto c2 s1 (k a s1) R) → upto (c1 + c2) s ((m ≫= k) s) R.
Proof.
  intros Hm Hk. unfold mbind, pym_bind. unfold upto in Hm. destruct (m s) as [s1 [a|e]].
  - destruct Hm as [Ha Hc]. specialize (Hk a s1 Ha). unfold upto in *. destruct (k a s1) as [s2 [b|e]]; destruct Hk; split; auto; lia.
  - destruct Hm. split; [done|lia].
Qed.

Lemma upto_effect {A} s (m : pym BlobStore A) (Q : A → BlobStore → Prop) :
  (∀ n, ∃ s' a, m (s <| alive := n |>) = (s', Ret a) ∧ alive s' = n ∧ Q a s') → upto 1 s (effect m s) Q.
Proof.
  intros Hm. unfold effect. run_unfold. destruct (alive s) as [|n] eqn:E; [split; [done|lia]|].
  destruct (Hm n) as (s' & a & -> & <- & HQ). split; [done|lia].
Qed.

Lemma upto_modify s f (Q : unit → BlobStore → Prop) :
  (∀ n, alive (f (s <| alive := n |>)) = n ∧ Q tt (f (s <| alive := n |>))) → upto 1 s (effect (modify f) s) Q.
Proof. intros Hf. apply upto_effect. intros n. destruct (Hf n). by exists (f (s <| alive := n |>)), tt. Qed.

Lemma upto_peek {A} s (f : BlobStore → A) (Q : A → BlobStore → Prop) :
  (∀ n, Q (f (s <| alive := n |>)) (s <| alive := n |>)) → upto 1 s (effect (s ← get; mret (f s)) s) Q.
Proof. intros Hf. apply upto_effect. intros n. specialize (Hf n). by exists (s <| alive := n |>), (f (s <| alive := n |>)). Qed.

Lemma upto_db {A} s (m : pym BlobMetadata A) x a (Q : A → BlobStore → Prop) :
  m (metadata s) = (x, Ret a) → (∀ n, Q a (s <| alive := n |> <| metadata := x |>)) → upto 1 s (db m s) Q.
Proof.
  intros Hm HQ. apply upto_effect. intros n. unfold on_field. specialize (HQ n).
  change (metadata (s <| alive := n |>)) with (metadata s). rewrite Hm. by exists (s <| alive := n |> <| metadata := x |>), a.
Qed.

Lemma upto_map_each {A B} (I : list A → BlobStore → Prop) (body : A → pym BlobStore B) c :
  (∀ x xs s, I (x :: xs) s → upto c s (body x s) (fun _ s' => I xs s')) →
  ∀ xs s, I xs s → upto (length xs * c) s (map_each xs body s) (fun _ s' => I [] s').
Proof.
  intros Hb xs. induction xs as [|x xs IH]; intros s Hs; simpl; [by apply upto_ret|].
  refine (upto_bind _ _ s _ _ _ _ (Hb x xs s Hs) _). intros y s1 Hs1. rewrite <-(Nat.add_0_r (length xs * c)).
  eapply upto_bind; [by apply IH|]. intros ys s2 Hs2. by apply upto_ret.
Qed.

Lemma upto_for_each {A} (I : list A → BlobStore → Prop) (body : A → pym BlobStore unit) c :
  (∀ x xs s, I (x :: xs) s → upto c s (body x s) (fun _ s' => I xs s')) →
  ∀ xs s, I xs s → upto (length xs * c) s (for_each xs body s) (fun _ s' => I [] s').
Proof.
  intros Hb xs. induction xs as [|x xs IH]; intros s Hs; simpl; [by apply upto_ret|].
  refine (upto_bind _ _ s _ _ _ _ (Hb x xs s Hs) _). intros y s1 Hs1. by apply IH.
Qed.

Definition dlen_nat {K V} (d : dict K V) : nat := length (keys d).

(** ** A loop over rows, one turn each *)
Lemma each_resolved {A B} now (key : A → string) (body : A → pym BlobStore B) c xs s0 :
  NoDup (key <$> xs) → rows_wf (metadata s0) →
  (∀ x s, x ∈ xs → around (key x) s0 s →
     upto c s (body x s) (fun _ s' => resolved now s (key x) s' ∧ rows_wf (metadata s'))) →
  (∀ x id s1, key x ≠ id → preserves (around id s1) (body x)) →
  upto (length xs * c) s0 (map_each xs body s0) (fun _ s' => rows_wf (metadata s') ∧ ∀ id,
    (id ∈ key <$> xs → resolved now s0 id s') ∧ (id ∉ key <$> xs → same_at id s0 s')).
Proof.
  intros Hnd Hw Hown Hoth.
  pose (I := fun (todo : list A) s => NoDup (key <$> todo) ∧ todo ⊆ xs ∧ rows_wf (metadata s) ∧ ∀ id,
    (id ∈ key <$> todo → same_at id s0 s) ∧ (id ∉ key <$> todo → id ∈ key <$> xs → resolved now s0 id s) ∧
    (id ∉ key <$> xs → same_at id s0 s)).
  assert (I xs s0) as HI by (split_and!; try done; intros id; split_and!; done).
  eapply upto_mono; [apply (upto_map_each I body c); [|exact HI]|done|].
  - clear HI. intros x todo s (Hn & Hsub & Hws & Hs). rewrite fmap_cons in Hn. apply NoDup_cons in Hn as [Hx Hn].
    assert (around (key x) s0 s) as Har by (split; [refine (proj1 (Hs (key x)) _); rewrite fmap_cons; constructor|done]).
    eapply upto_mono; [apply (upto_and _ _ _ _ (fun s' => ∀ id, key x ≠ id → around id s s') (Hown x s (Hsub x ltac:(constructor)) Har))|done|].
    + intros s1 Hs1 id Hne. by apply Hoth, Hs1.
    + intros id Hne. by split.
    + intros _ s' [[Hr Hw'] Ho]. split_and!; [done|by intros y Hy; apply Hsub; constructor|done|]. intros id.
      destruct (Hs id) as (H1 & H2 & H3). rewrite fmap_cons, elem_of_cons in H1, H2.
      destruct (decide (id = key x)) as [->|Hne]; [split_and!; try done|].
      * intros _ _. eapply resolved_before; [apply Har|done].
      * intros Hni. destruct Hni. apply list_elem_of_fmap. exists x. split; [done|apply Hsub; constructor].
      * assert (same_at id s s') as Hsame by (apply Ho; congruence). split_and!; intros.
        { by apply (same_at_trans id s0 s s'); [apply H1; right|]. }
        { apply (resolved_after now s0 id s s'); [done|]. apply H2; [|done]. by intros [?|?]. }
        { apply (same_at_trans id s0 s s'); auto. }
  - intros _ s' (_ & _ & Hws & Hs). split; [done|]. intros id. destruct (Hs id) as (H1 & H2 & H3).
    split; [apply H2, not_elem_of_nil|done].
Qed.

(** ** The turn of one row *)
Lemma rows_of m p id : rows_wf m →
  id ∈ b_blob_id <$> List.filter p (values (blobs m)) ↔ ∃ r, blobs m !! id = Some r ∧ p r = true.
Proof.
  intros [Hnd Hi]. rewrite list_elem_of_fmap. split.
  - intros (r & -> & [Hin Hp]%list_elem_of_In%filter_In). apply list_elem_of_In in Hin.
    apply elem_of_values in Hin as [k Hk]. apply entries_lookup in Hk; [|done]. destruct (Hi _ _ Hk) as [-> _]. eauto.
  - intros (r & Hr & Hp). exists r. destruct (Hi _ _ Hr) as [-> _]. split; [done|].
    apply list_elem_of_In, filter_In. split; [|done]. apply list_elem_of_In, list_elem_of_fmap.
    exists (id, r). split; [done|by apply lookup_entries].
Qed.

Lemma rows_of_nodup m p : rows_wf m → NoDup (b_blob_id <$> List.filter p (values (blobs m))).
Proof.
  intros [Hnd Hi]. unfold values. assert (∀ k r, (k, r) ∈ entries (blobs m) → b_blob_id r = k) as Hk.
  { intros k r Hin. apply entries_lookup in Hin; [|done]. by destruct (Hi _ _ Hin). }
  unfold dict_nodup, keys in Hnd. clear Hi. induction (entries (blobs m)) as [|[k r] l IH]; simpl; [constructor|].
  simpl in Hnd. apply NoDup_cons in Hnd as [Hn Hnd].
  assert (NoDup (b_blob_id <$> List.filter p l.*2)) as Hl by (apply IH; [done|]; intros; apply Hk; by constructor).
  destruct (p r); [|done]. rewrite fmap_cons. apply NoDup_cons. split; [|done].
  rewrite (Hk k r) by constructor. intros (r' & -> & [Hin _]%list_elem_of_In%filter_In)%list_elem_of_fmap.
  apply list_elem_of_In, list_elem_of_fmap in Hin as ([k' r''] & -> & Hin). simpl in *.
  apply Hn. apply list_elem_of_fmap. exists (k', r''). split; [|done]. apply Hk. by constructor.
Qed.

Lemma update_blob_run id cond f m r :
  blobs m !! id = Some r → cond r = true → update_blob id cond f m = (m <| blobs ::= <[id := f r]> |>, Ret tt).
Proof. intros Hr Hc. unfold update_blob, modify. by rewrite Hr, Hc. Qed.

Lemma mark_corrupt_run id m r :
  blobs m !! id = Some r → b_state r = B_PUBLISHED →
  mark_corrupt id m = (m <| blobs ::= <[id := r <| b_state := B_CORRUPT |>]> |>, Ret tt).
Proof. intros Hr Hs. unfold mark_corrupt. rewrite (update_blob_run _ _ _ _ r Hr); [done|by rewrite Hs]. Qed.
Lemma release_missing_run id now m r :
  blobs m !! id = Some r → release_missing id now true m = (m <| blobs ::= <[id := buried_as now m r]> |>, Ret tt).
Proof. intros Hr. unfold release_missing. run_unfold. by rewrite (update_blob_run _ _ _ _ r Hr). Qed.

Lemma intact_matches f sha256 size :
  intact (Some f) sha256 size = if matches f sha256 size then match f with Regular data => Some data | _ => None end else None.
Proof. by destruct f. Qed.

(** What the file check and the burial of a bad row make of a published row. *)
Lemma check_published now id s r :
  blobs (metadata s) !! id = Some r → b_blob_id r = id → b_state r = B_PUBLISHED →
  upto 4 s (except_store (open_verified r ;; mret true) (db (release_missing id now true) ;; mret false) s)
    (fun _ s' => files s' = files s ∧ blobs (metadata s') !! id = verdict now s id).
Proof.
  intros Hr Hid Hst. unfold verdict. rewrite Hr, Hst. cbv zeta.
  rewrite bool_decide_true by done. simpl unfinished. cbv iota. unfold except_store, catch, open_verified, effect, upto.
  run_unfold. destruct (alive s) as [|n] eqn:Ha; [split; [done|lia]|]. rewrite Hid.
  change (files (s <| alive := n |>)) with (files s).
  destruct (files s !! (b_owner r, id)) as [[data| |]|] eqn:Hf.
  1, 2: rewrite intact_matches; destruct (matches _ _ _) eqn:Hm; [split; [done|simpl; lia] || done|].
  1, 2: unfold db, effect, on_field; run_unfold; change (alive (s <| alive := n |>)) with n; (destruct n as [|n]; [split; [done|lia]|]);
    rewrite (mark_corrupt_run _ _ r) by done; change (alive _) with n at 1; (destruct n as [|n]; [split; [done|lia]|]);
    erewrite release_missing_run by (simpl; by rewrite dict_lookup_insert_eq);
    simpl; rewrite dict_lookup_insert_eq; by split_and!; [..|lia].
  all: unfold db, effect, on_field; run_unfold; change (alive (s <| alive := n |>)) with n; (destruct n as [|n]; [split; [done|lia]|]);
    rewrite (release_missing_run _ _ _ r) by done; simpl; rewrite dict_lookup_insert_eq; by split_and!; [..|lia].
Qed.

Lemma recover_published_own now id s r :
  blobs (metadata s) !! id = Some r → b_blob_id r = id → b_state r = B_PUBLISHED →
  upto 6 s (recover_published now id s) (fun _ s' => resolved now s id s').
Proof.
  intros Hr Hid Hst. apply (upto_bind 1 5 s _ _ (fun r' s1 => r' = Some r ∧ same_at id s s1)).
  { apply upto_peek. intros n. split; [exact Hr|done]. }
  intros ? s1 [-> Hs1]. pose proof Hs1 as (_ & Hb1 & _ & _ & Hf1). apply (upto_bind 4 1 s1 _ _ _ _ (check_published now id s1 r ltac:(congruence) Hid Hst)).
  intros ok s2 [Hf2 Hb2]. apply (upto_bind 1 0 s2 _ _ (fun _ s' => resolved now s id s')); [|intros; by apply upto_ret].
  eapply upto_db; [done|]. intros n. split; simpl; [by rewrite Hb2, (same_at_verdict now s)|].
  intros o. rewrite Hf2, Hf1. unfold file_after. by rewrite Hr, Hst.
Qed.

(** Completing the publication of a row whose file made it. *)
Lemma publish_run id sha sz now m r :
  blobs m !! id = Some r → unfinished (b_state r) = true →
  ∃ r', publish id sha sz now None m = (m <| blobs ::= <[id :=
    r <| b_state := B_PUBLISHED |> <| b_sha256 := Some sha |> <| b_size_bytes := sz |>
      <| b_expires_at := Some (now + bm_retention_seconds m) |>]> |>, Ret r').
Proof.
  intros Hr Hu. unfold publish. run_unfold. cbv zeta. rewrite (update_blob_run _ _ _ _ r Hr Hu).
  unfold require_blob, get_blob. run_unfold. simpl blobs. rewrite dict_lookup_insert_eq. simpl. by eexists.
Qed.
Lemma abort_run id m r :
  blobs m !! id = Some r → unfinished (b_state r) = true → abort id m = (m <| blobs ::= delete id |>, Ret tt).
Proof. intros Hr Hu. unfold abort, modify. by rewrite Hr, Hu. Qed.

Lemma complete_own now id s r e :
  blobs (metadata s) !! id = Some r → b_blob_id r = id → unfinished (b_state r) = true →
  upto 3 s (complete_pending_publish r e now s) (fun ok s' => files s' = files s ∧
    match intact (files s !! (b_owner r, id)) (j_sha256 e) (j_size_bytes e) with
    | Some data => ok = true ∧ blobs (metadata s') !! id = Some (published_as now (metadata s) data r)
    | None => ok = false ∧ same_at id s s'
    end).
Proof.
  intros Hr Hid Hu. apply (upto_bind 1 2 s _ _ (fun f s1 => f = files s !! (b_owner r, id) ∧ metadata s1 = metadata s ∧
    files s1 = files s ∧ same_at id s s1)).
  { apply upto_peek. intros n. by rewrite Hid. }
  intros f s1 (-> & Hm & Hf & Hs1). destruct (files s !! (b_owner r, id)) as [[data| |]|]; cycle 1.
  1,2,3: by apply upto_ret.
  unfold intact. destruct (matches _ _ _); [|by apply upto_ret].
  destruct (publish_run id (sha256_hex data) (Z.of_nat (String.length data)) now (metadata s1) r) as [r' Hp]; [congruence|done|].
  apply (upto_bind 1 1 s1 _ _ (fun _ s2 => files s2 = files s ∧ blobs (metadata s2) !! id = Some (published_as now (metadata s) data r))).
  { rewrite Hid. eapply upto_db; [exact Hp|]. intros n. split; [done|]. simpl. rewrite dict_lookup_insert_eq. by rewrite Hm. }
  intros _ s2 [Hf2 Hb2]. apply (upto_bind 1 0 s2 _ _ (fun _ s2 => files s2 = files s ∧ blobs (metadata s2) !! id = Some (published_as now (metadata s) data r))).
  - by apply upto_modify.
  - intros _ s3 Hs3. apply upto_ret. by destruct Hs3.
Qed.

(** Taking back an upload that did not make it. *)
Lemma discard_own id s r :
  blobs (metadata s) !! id = Some r → b_blob_id r = id → unfinished (b_state r) = true →
  upto 4 s ((remove_staging id ;; remove_published (b_owner r) id ;; db (abort id) ;; db (clear_journal id) ;; mret false) s)
    (fun _ s' => blobs (metadata s') !! id = None ∧ files s' = delete (b_owner r, id) (files s)).
Proof.
  intros Hr Hid Hu. apply (upto_bind 1 3 s _ _ (fun _ s1 => metadata s1 = metadata s ∧ files s1 = files s)).
  { by apply upto_modify. }
  intros _ s1 [Hm1 Hf1]. apply (upto_bind 1 2 s1 _ _ (fun _ s2 => metadata s2 = metadata s ∧ files s2 = delete (b_owner r, id) (files s))).
  { apply upto_modify. intros n. split_and!; try done. simpl. by rewrite Hf1. }
  intros _ s2 [Hm2 Hf2]. apply (upto_bind 1 1 s2 _ _ (fun _ s3 => blobs (metadata s3) !! id = None ∧ files s3 = delete (b_owner r, id) (files s))).
  { eapply upto_db; [apply (abort_run id _ r); [congruence|done]|]. intros n. split; [simpl; by rewrite dict_lookup_delete_eq|done]. }
  intros _ s3 Hs3. apply (upto_bind 1 0 s3 _ _ (fun _ s3 => blobs (metadata s3) !! id = None ∧ files s3 = delete (b_owner r, id) (files s))).
  - by eapply upto_db.
  - intros _ s4 Hs4. by apply upto_ret.
Qed.

Lemma recover_unfinished_own now id s r :
  blobs (metadata s) !! id = Some r → b_blob_id r = id → unfinished (b_state r) = true →
  upto 8 s (recover_unfinished now r s) (fun _ s' => resolved now s id s').
Proof.
  intros Hr Hid Hu. pose (Q := fun (ok : bool) s' => files s' = files s ∧
    match verdict now s id with
    | Some r' => ok = true ∧ blobs (metadata s') !! id = Some r'
    | None => ok = false ∧ same_at id s s'
    end).
  apply (upto_bind 1 7 s _ _ (fun e s1 => e = recovery (metadata s) !! id ∧ files s1 = files s ∧ same_at id s s1)).
  { apply upto_peek. intros n. by rewrite Hid. }
  intros e s1 (-> & Hf1 & Hs1). pose proof Hs1 as ((_ & _ & _ & Hret) & Hb1 & _). apply (upto_bind 3 4 s1 _ _ Q).
  - unfold Q, verdict. rewrite Hr, Hu. destruct (pending_entry _) as [e|]; [|by apply upto_ret].
    eapply upto_mono; [apply (complete_own now id s1 r e); [congruence|done..]|done|].
    intros ok s2 [Hf2 Hc]. rewrite Hf1 in Hf2, Hc. split; [done|]. unfold published_as in *. rewrite Hret in Hc.
    simpl mbind. destruct (intact _ _ _); destruct Hc as [-> Hc]; split; try done. by apply (same_at_trans id s s1).
  - unfold resolved, file_after, Q. rewrite Hr, Hu. intros ok s2 [Hf2 Hv]. destruct (verdict now s id) as [r'|] eqn:Ev; destruct Hv as [-> Hv].
    + apply (upto_bind 1 3 s2 _ _ (fun _ s' => blobs (metadata s') !! id = Some r' ∧ files s' = files s)); [by eapply upto_db|].
      intros _ s3 [Hb3 Hf3]. apply upto_ret. split; [done|]. intros o.
      rewrite (bool_decide_false (Some r' = None)), andb_false_r by done. by rewrite Hf3.
    + rewrite Hid. eapply upto_mono; [apply (discard_own id s2 r); [|done..]|done|].
      { destruct Hv as (_ & Hb2 & _). congruence. }
      intros _ s3 [Hb3 Hf3]. split; [done|]. intros o. rewrite Hf3, Hf2, (bool_decide_true (None = None)), andb_true_r by done. simpl.
      destruct (decide (b_owner r = o)) as [->|Hne].
      * rewrite bool_decide_true by done. apply dict_lookup_delete_eq.
      * rewrite bool_decide_false by done. apply dict_lookup_delete_ne. congruence.
Qed.

(** ** The whole recovery *)
Lemma resolved_idle now s id s' :
  (∀ r, blobs (metadata s) !! id = Some r → unfinished (b_state r) = false ∧ b_state r ≠ B_PUBLISHED) →
  same_at id s s' → resolved now s id s'.
Proof.
  intros Hr (_ & Hb & _ & _ & Hf). unfold resolved, verdict, file_after. rewrite Hb.
  destruct (blobs (metadata s) !! id) as [r|]; [|done]. destruct (Hr r) as [-> Hs]; [done|].
  rewrite bool_decide_false by done. done.
Qed.

(** A verdict leaves no unfinished row. *)
Lemma verdict_finished now s id r : verdict now s id = Some r → unfinished (b_state r) = false.
Proof.
  unfold verdict. destruct (blobs (metadata s) !! id) as [r0|]; [|done]. cbv zeta.
  destruct (unfinished (b_state r0)) eqn:Hu.
  - destruct (pending_entry _) as [e|]; [|done]. simpl. destruct (intact _ _ _); [|done]. by intros [= <-].
  - case_bool_decide; [|by intros [= <-]]. intros [= <-]. by destruct (intact _ _ _).
Qed.

Lemma sweep_clears s :
  upto (1 + dlen_nat (staging s)) s (sweep_orphan_staging s)
    (fun _ s' => metadata s' = metadata s ∧ files s' = files s ∧ ∀ id, staging s' !! id = None).
Proof.
  pose (I := fun (names : list string) s' => metadata s' = metadata s ∧ files s' = files s ∧
    ∀ id, id ∉ names → staging s' !! id = None).
  apply (upto_bind 1 (dlen_nat (staging s)) s _ _ (fun names s' => names = keys (staging s) ∧ I names s')).
  { apply upto_peek. intros n. do 3 (split; [done|]). intros id Hi. simpl. destruct (staging s !! id) eqn:E; [|done].
    destruct Hi. apply elem_of_keys. by eexists. }
  intros names s1 [-> Hs1]. rewrite <-(Nat.add_0_r (dlen_nat _)).
  apply (upto_bind _ 0 s1 _ _ (fun _ s' => I [] s')).
  - unfold dlen_nat. rewrite <-(Nat.mul_1_r (length _)). apply (upto_for_each I); [|done].
    intros x xs s2 (Hm & Hf & Hst). apply upto_modify. intros n. split; [done|]. split_and!; try done.
    intros id Hi. simpl. rewrite dict_lookup_delete. case_decide; [done|]. apply Hst. by rewrite not_elem_of_cons.
  - intros _ s2 (Hm & Hf & Hst). apply upto_ret. split_and!; try done. intros id. apply Hst, not_elem_of_nil.
Qed.

Lemma protect_keeps_rows holder m :
  ∃ ids m', protect_all_published holder m = (m', Ret ids) ∧ blobs m' = blobs m.
Proof.
  unfold protect_all_published. run_unfold.
  assert (∀ xs m0, ∃ m', for_each xs (fun id => add_lease id holder) m0 = (m', Ret tt) ∧ blobs m' = blobs m0) as Hl.
  { induction xs as [|x xs IH]; intros m0; [by exists m0|]. simpl. unfold mbind, pym_bind, add_lease at 1, modify.
    destruct (bool_decide _); [apply IH|].
    destruct (IH (m0 <| blob_leases ::= (fun l => l ++ [(x, holder)]) |>)) as (m' & ? & ?). by exists m'. }
  destruct (Hl (verify_all m) m) as (m' & -> & Hb). by eexists _, _.
Qed.

(** Recovery never stages anything. *)
Definition staged_at_most (k : nat) s : Prop := (dlen_nat (staging s) ≤ k)%nat.

Lemma staged_timeless k : timeless (staged_at_most k).
Proof. by intros s n Hs. Qed.
Lemma staged_db {A} k (m : pym BlobMetadata A) : preserves (staged_at_most k) (db m).
Proof. apply keeps_db; [apply staged_timeless|]. by intros s Hs. Qed.
Lemma staged_peek {A} k (f : BlobStore → A) : preserves (staged_at_most k) (effect (s ← get; mret (f s))).
Proof. apply keeps_effect; [apply staged_timeless|]. by intros s Hs. Qed.
Lemma staged_remove_staging k id : preserves (staged_at_most k) (remove_staging id).
Proof.
  apply keeps_effect; [apply staged_timeless|]. intros s Hs. unfold staged_at_most, dlen_nat in *. simpl.
  pose proof (dlen_delete_le (staging s) id). rewrite !dlen_keys in *. lia.
Qed.
Lemma staged_remove_published k o id : preserves (staged_at_most k) (remove_published o id).
Proof. apply keeps_effect; [apply staged_timeless|]. by intros s Hs. Qed.
Hint Resolve staged_db staged_peek staged_remove_staging staged_remove_published : pym.

Lemma staged_recover_published k now id : preserves (staged_at_most k) (recover_published now id).
Proof.
  apply preserves_bind; [apply staged_peek|]. intros [r|]; [|apply preserves_ret].
  apply preserves_bind; [apply preserves_catch|eauto with pym].
  - apply preserves_bind; [|eauto with pym]. apply preserves_bind; [apply staged_peek|].
    intros [f|]; [|apply preserves_raise]. destruct (matches f _ _), f; eauto with pym.
  - intros e h He. destruct e; try done. injection He as <-. eauto with pym.
Qed.
Lemma staged_recover_unfinished k now r : preserves (staged_at_most k) (recover_unfinished now r).
Proof.
  apply preserves_bind; [apply staged_peek|intros e]. apply preserves_bind; [|intros []; eauto 8 with pym].
  destruct (pending_entry e); [|apply preserves_ret]. apply preserves_bind; [apply staged_peek|].
  intros [[data| |]|]; try apply preserves_ret. destruct (matches _ _ _); eauto with pym.
Qed.

(** Enough effects for a whole recovery. *)
Definition recovery_cost s : nat :=
  4 + length (verify_all (metadata s)) * 6 + length (unfinished_rows (metadata s)) * 8 + dlen_nat (staging s).

Lemma published_ids m id : rows_wf m → id ∈ verify_all m ↔ ∃ r, blobs m !! id = Some r ∧ b_state r = B_PUBLISHED.
Proof. intros Hw. unfold verify_all. rewrite rows_of by done. by setoid_rewrite bool_decide_eq_true. Qed.

(** What leaves every other blob alone keeps the rows well formed. *)
Lemma rows_from_around {A} id (m : pym BlobStore A) :
  (∀ id' s, id ≠ id' → preserves (around id' s) m) → preserves (fun s => rows_wf (metadata s)) m.
Proof.
  intros Hm s Hs. assert (id ≠ String "x"%char id) as Hne.
  { intros He. apply (f_equal String.length) in He. simpl in He. lia. }
  by apply (Hm (String "x"%char id) s Hne s).
Qed.

Lemma phase_published now s0 :
  rows_wf (metadata s0) →
  upto (length (verify_all (metadata s0)) * 6) s0
    (map_each (verify_all (metadata s0)) (fun id => ok ← recover_published now id; mret (id, ok)) s0)
    (fun _ s' => rows_wf (metadata s') ∧ ∀ id,
      (id ∈ verify_all (metadata s0) → resolved now s0 id s') ∧ (id ∉ verify_all (metadata s0) → same_at id s0 s')).
Proof.
  intros Hw. set (ids := verify_all _).
  assert (∀ i j s1, i ≠ j → preserves (around j s1) (ok ← recover_published now i; mret (i, ok))) as Har.
  { intros i j s1 Hne. apply preserves_bind; [by apply around_recover_published|intros; apply preserves_ret]. }
  pose proof (each_resolved now (fun id => id) (fun id => ok ← recover_published now id; mret (id, ok)) 6 ids s0) as He.
  rewrite list_fmap_id in He. apply He; [by apply rows_of_nodup|done| |done].
  intros i s [r [Hr Hst]]%published_ids [Hs Hws]; [|done]. pose proof Hs as (_ & Hb & _). rewrite <-Hb in Hr.
  destruct (rows_id _ Hws _ _ Hr) as [Hid _]. apply upto_and; [|apply (rows_from_around i); intros; by apply Har|done].
  apply (upto_bind 6 0 s _ _ (fun _ s' => resolved now s i s')); [by apply (recover_published_own now i s r)|].
  intros; by apply upto_ret.
Qed.

Lemma phase_unfinished now s0 :
  rows_wf (metadata s0) →
  upto (length (unfinished_rows (metadata s0)) * 8) s0
    (map_each (unfinished_rows (metadata s0)) (fun r => ok ← recover_unfinished now r; mret (b_blob_id r, ok)) s0)
    (fun _ s' => rows_wf (metadata s') ∧ ∀ id,
      (id ∈ b_blob_id <$> unfinished_rows (metadata s0) → resolved now s0 id s') ∧
      (id ∉ b_blob_id <$> unfinished_rows (metadata s0) → same_at id s0 s')).
Proof.
  intros Hw.
  assert (∀ r j s1, b_blob_id r ≠ j → preserves (around j s1) (ok ← recover_unfinished now r; mret (b_blob_id r, ok))) as Har.
  { intros r j s1 Hne. apply preserves_bind; [by apply around_recover_unfinished|intros; apply preserves_ret]. }
  apply (each_resolved now b_blob_id); [by apply rows_of_nodup|done| |done].
  intros r s [Hin Hu]%list_elem_of_In%filter_In [Hs Hws]. apply list_elem_of_In, elem_of_values in Hin as [k Hk].
  apply entries_lookup in Hk; [|apply Hw]. destruct (rows_id _ Hw _ _ Hk) as [<- _]. pose proof Hs as (_ & Hb & _).
  apply upto_and; [|apply (rows_from_around (b_blob_id r)); intros; by apply Har|done].
  apply (upto_bind 8 0 s _ _ (fun _ s' => resolved now s (b_blob_id r) s')); [|intros; by apply upto_ret].
  apply recover_unfinished_own; [congruence|done..].
Qed.

(** The rows the second loop visits were unfinished from the start. *)
Lemma phases_meet now s0 s1 :
  rows_wf (metadata s0) → rows_wf (metadata s1) →
  (∀ id, (id ∈ verify_all (metadata s0) → resolved now s0 id s1) ∧ (id ∉ verify_all (metadata s0) → same_at id s0 s1)) →
  ∀ id, id ∈ b_blob_id <$> unfinished_rows (metadata s1) ↔ id ∈ b_blob_id <$> unfinished_rows (metadata s0).
Proof.
  intros Hw0 Hw1 H1 id. unfold unfinished_rows. rewrite !rows_of by done. destruct (H1 id) as [Hp Hn].
  destruct (decide (id ∈ verify_all (metadata s0))) as [Hi|Hi].
  - destruct (Hp Hi) as [Hb _]. apply published_ids in Hi as (r & Hr & Hst); [|done]. split.
    + intros (r' & Hr' & Hu). rewrite Hb in Hr'. by rewrite (verdict_finished _ _ _ _ Hr') in Hu.
    + intros (r' & Hr' & Hu). rewrite Hr in Hr'. injection Hr' as <-. by rewrite Hst in Hu.
  - destruct (Hn Hi) as (_ & Hb & _). by rewrite Hb.
Qed.

Lemma resolve_phases now s0 s1 s2 id :
  rows_wf (metadata s0) → rows_wf (metadata s1) →
  (∀ id, (id ∈ verify_all (metadata s0) → resolved now s0 id s1) ∧ (id ∉ verify_all (metadata s0) → same_at id s0 s1)) →
  (id ∈ b_blob_id <$> unfinished_rows (metadata s1) → resolved now s1 id s2) →
  (id ∉ b_blob_id <$> unfinished_rows (metadata s1) → same_at id s1 s2) → resolved now s0 id s2.
Proof.
  intros Hw0 Hw1 H1 H2 H3. pose proof (phases_meet now s0 s1 Hw0 Hw1 H1 id) as Hm. destruct (H1 id) as [Hp Hn].
  destruct (decide (id ∈ verify_all (metadata s0))) as [Hi|Hi].
  - apply (resolved_after now s0 id s1 s2); [|auto]. apply H3. rewrite Hm. unfold unfinished_rows. rewrite rows_of by done.
    apply published_ids in Hi as (r & Hr & Hst); [|done]. intros (r' & Hr' & Hu). rewrite Hr in Hr'. injection Hr' as <-. by rewrite Hst in Hu.
  - destruct (decide (id ∈ b_blob_id <$> unfinished_rows (metadata s1))) as [Hu|Hu].
    + by apply (resolved_before now s0 s1); auto.
    + apply resolved_idle; [|apply (same_at_trans id s0 s1 s2); auto]. intros r Hr. split.
      * rewrite Hm in Hu. unfold unfinished_rows in Hu. rewrite rows_of in Hu by done.
        destruct (unfinished (b_state r)) eqn:E; [|done]. destruct Hu. eauto.
      * intros Hst. apply Hi. apply published_ids; eauto.
Qed.

Lemma recover_resolves running boot now s0 :
  rows_wf (metadata s0) →
  upto (recovery_cost s0) s0 (recover_blobs running boot now s0)
    (fun _ s' => rows_wf (metadata s') ∧ ∀ id, resolved now s0 id s' ∧ staging s' !! id = None).
Proof.
  intros Hw. pose (k := dlen_nat (staging s0)).
  pose (after1 := fun s => rows_wf (metadata s) ∧ staged_at_most k s ∧ ∀ id,
    (id ∈ verify_all (metadata s0) → resolved now s0 id s) ∧ (id ∉ verify_all (metadata s0) → same_at id s0 s)).
  pose (after2 := fun s => rows_wf (metadata s) ∧ staged_at_most k s ∧ ∀ id, resolved now s0 id s).
  pose (after3 := fun s => rows_wf (metadata s) ∧ ∀ id, resolved now s0 id s ∧ staging s !! id = None).
  apply (upto_mono (1 + (length (verify_all (metadata s0)) * 6 +
    (1 + (length (unfinished_rows (metadata s0)) * 8 + (1 + k + (1 + 0)))))) _ s0 _ (fun _ s => after3 s));
    [|unfold recovery_cost, k; lia|done].
  apply (upto_bind _ _ s0 _ _ (fun ids s => ids = verify_all (metadata s0) ∧ ∃ n, s = s0 <| alive := n |>)).
  { apply upto_peek. intros n. split; [done|by exists n]. }
  intros ? s [-> [n ->]]. apply (upto_bind _ _ _ _ _ (fun _ s1 => after1 s1)).
  { pose proof (phase_published now (s0 <| alive := n |>)) as Hp. specialize (Hp Hw).
    change (metadata (s0 <| alive := n |>)) with (metadata s0) in Hp.
    eapply upto_mono; [apply (upto_and _ _ _ _ (staged_at_most k) Hp)|done|].
    - apply preserves_map_each. intros id. apply preserves_bind; [apply staged_recover_published|eauto with pym].
    - unfold staged_at_most. simpl. done.
    - intros _ s1 [[Hw1 H1] Hk]. by split_and!. }
  clear n. intros pub s1 (Hw1 & Hk1 & H1). apply (upto_bind _ _ s1 _ _ (fun rows s => rows = unfinished_rows (metadata s1) ∧ ∃ n, s = s1 <| alive := n |>)).
  { apply upto_peek. intros n. split; [done|by exists n]. }
  intros ? s [-> [n ->]]. apply (upto_bind _ _ _ _ _ (fun _ s2 => after2 s2)).
  { pose proof (phase_unfinished now (s1 <| alive := n |>)) as Hp. specialize (Hp Hw1).
    change (metadata (s1 <| alive := n |>)) with (metadata s1) in Hp.
    eapply upto_mono; [apply (upto_and _ _ _ _ (staged_at_most k) Hp)| |].
    - apply preserves_map_each. intros r. apply preserves_bind; [apply staged_recover_unfinished|eauto with pym].
    - done.
    - apply Nat.mul_le_mono_r. rewrite <-!(length_fmap b_blob_id). apply submseteq_length, NoDup_submseteq; [by apply rows_of_nodup|].
      intros id. apply (phases_meet now s0 s1 Hw Hw1 H1).
    - intros _ s2 [[Hw2 H2] Hk]. split_and!; try done. intros id. destruct (H2 id). by apply (resolve_phases now s0 s1). }
  clear n. intros fin s2 (Hw2 & Hk2 & H2). apply (upto_bind _ _ s2 _ _ (fun _ s3 => after3 s3)).
  { eapply upto_mono; [apply sweep_clears|unfold staged_at_most in Hk2; lia|]. intros _ s3 (Hm & Hf & Hst).
    unfold after3, resolved in *. rewrite Hm, Hf. split; [done|]. intros id. split; [apply H2|apply Hst]. }
  intros orphans s3 H3. apply (upto_bind _ _ s3 _ _ (fun _ s4 => after3 s4)).
  { destruct running; [|by apply upto_ret]. destruct (protect_keeps_rows (RESTART_HOLDER_PREFIX +:+ boot) (metadata s3)) as (ids & m' & Hp & Hb).
    eapply upto_db; [exact Hp|]. intros n. unfold after3, resolved in *. simpl. rewrite Hb.
    destruct H3 as [[Hnd Hi] H3]. split; [split; by rewrite Hb|]. intros id. apply H3. }
  intros prot s4 H4. by apply upto_ret.
Qed.

(** C30: restart recovery terminates and settles every row: with power for
    [recovery_cost] effects it returns, and then each row, each published file
    and the staging directory are exactly what the verdict on the state the crash
    left says: an intact publication is kept, a journalled one whose file is
    intact is completed, any other unfinished upload and its file are gone, a
    published row without its bytes is buried with its quota returned. *)
Theorem recovery_settles running boot now s :
  rows_wf (metadata s) → (recovery_cost s ≤ alive s)%nat →
  ∃ report s', recover_blobs running boot now s = (s', Ret report) ∧ ∀ id,
    blobs (metadata s') !! id = verdict now s id ∧ (∀ owner, files s' !! (owner, id) = file_after now s owner id) ∧
    staging s' !! id = None.
Proof.
  intros Hw Hc. pose proof (recover_resolves running boot now s Hw) as Hr. unfold upto in Hr.
  destruct (recover_blobs running boot now s) as [s' [rep|e]]; [|lia].
  exists rep, s'. split; [done|]. intros id. by destruct Hr as [[_ Hr] _]; destruct (Hr id) as [[Hb Hf] Hst].
Qed.
End recovery.
