(* ===== verification/BlobCrash.v ===== *)
(** * Uploads across a power failure

    An upload cut at any effect, then recovered, is either gone or published
    with exactly the bytes that were received; one that returned is published. *)

From S2P Require Import Prelude Text Dict Contracts Registration Identity Protocol Blobs BlobsProps BlobStore BlobStoreProps BlobRecovery.
Local Open Scope Z_scope.

(** The operating system writes a buffer whole or fails. *)
Definition full_writes (io : Io) : Prop := ∀ n chunk k, io_write io n chunk = Ret k → k = String.length chunk.

Section crash.
Context `{Digest}.
Implicit Types (s : BlobStore) (m : BlobMetadata) (id : string).

Lemma db_lease id holder s s' : db (acquire_lease id holder) s = (s', Ret true) → (id, holder) ∈ blob_leases (metadata s').
Proof.
  unfold db, effect, on_field, acquire_lease, add_lease. run_unfold. destruct (alive s) as [|n]; [done|].
  change (metadata (s <| alive := n |>)) with (metadata s). destruct (get_blob (metadata s) id) as [r|]; [|done].
  destruct (bool_decide (b_state r = B_PUBLISHED)); [|done]. destruct (bool_decide (_ ∈ _)) eqn:Hl; intros [= <-]; simpl.
  - by apply bool_decide_eq_true in Hl.
  - apply elem_of_app. right. constructor.
Qed.

(** ** Three ways to leave a method: return, raise, or stop without power *)
Definition leaves {A} (run : BlobStore * outcome A) (Q : A → BlobStore → Prop) (E I : BlobStore → Prop) : Prop :=
  match run with
  | (s', Ret a) => Q a s'
  | (s', Raise PowerLoss) => I s'
  | (s', Raise _) => E s'
  end.

Lemma leaves_mono {A} (run : BlobStore * outcome A) (Q Q' : A → BlobStore → Prop) (E E' I : BlobStore → Prop) :
  leaves run Q E I → (∀ a s, Q a s → Q' a s) → (∀ s, E s → E' s) → leaves run Q' E' I.
Proof. unfold leaves. intros Hr HQ HE. destruct run as [s' [a|[]]]; auto. Qed.

Lemma leaves_bind {A B} (m : pym BlobStore A) (k : A → pym BlobStore B) s Q R E I :
  leaves (m s) Q E I → (∀ a s1, Q a s1 → leaves (k a s1) R E I) → leaves ((m ≫= k) s) R E I.
Proof. intros Hm Hk. unfold mbind, pym_bind. unfold leaves in Hm. destruct (m s) as [s1 [a|e]]; [auto|done]. Qed.

Lemma leaves_cleanup {A} (m : pym BlobStore A) h s Q E E' I :
  leaves (m s) Q E' I → (∀ s1, E' s1 → leaves (h s1) (fun _ => E) E I) → leaves (cleanup m h s) Q E I.
Proof.
  intros Hm Hh. unfold cleanup, catch, mbind, pym_bind, raise. unfold leaves in Hm. destruct (m s) as [s1 [a|e]]; [done|].
  destruct e; try done; specialize (Hh s1 Hm); unfold leaves in Hh; destruct (h s1) as [s2 [[]|[]]]; done.
Qed.

(** An effect that succeeds or fails without changing anything. *)
Lemma leaves_effect {A} (m : pym BlobStore A) s Q (E I : BlobStore → Prop) :
  I s → (∀ n, leaves (m (s <| alive := n |>)) Q E I) → leaves (effect m s) Q E I.
Proof. intros HI Hm. unfold effect. run_unfold. destruct (alive s); [done|]. apply Hm. Qed.

Lemma leaves_db {A} (m : pym BlobMetadata A) s x a Q (E I : BlobStore → Prop) :
  I s → m (metadata s) = (x, Ret a) → (∀ n, Q a (s <| alive := n |> <| metadata := x |>)) → leaves (db m s) Q E I.
Proof.
  intros HI Hm HQ. apply leaves_effect; [done|]. intros n. unfold on_field. specialize (HQ n).
  change (metadata (s <| alive := n |>)) with (metadata s). by rewrite Hm.
Qed.

Lemma leaves_modify f s Q (E I : BlobStore → Prop) :
  I s → (∀ n, Q tt (f (s <| alive := n |>))) → leaves (effect (modify f) s) Q E I.
Proof. intros HI HQ. apply leaves_effect; [done|]. intros n. apply HQ. Qed.

Lemma leaves_os o s Q (E I : BlobStore → Prop) :
  I s → timeless E → timeless I → E s → (∀ n, Q tt (s <| alive := n |>)) → leaves (effect (os_result o) s) Q E I.
Proof.
  intros HI HtE HtI HE HQ. apply leaves_effect; [done|]. intros n. unfold os_result. destruct o as [e|]; [|apply HQ].
  unfold leaves. destruct e; try by apply HtE. by apply HtI.
Qed.

(** ** The stages of one upload *)
Section upload.
Context (id owner : string) (data : string).

Definition row_open s : Prop :=
  ∃ r, blobs (metadata s) !! id = Some r ∧ b_owner r = owner ∧ unfinished (b_state r) = true.
Definition absent s : Prop := blobs (metadata s) !! id = None.
Definition no_file s : Prop := files s !! (owner, id) = None ∧ durable s (owner, id) = None.
Definition opened s : Prop := row_open s ∧ no_file s.
Definition pending s : Prop :=
  ∃ e, recovery (metadata s) !! id = Some e ∧ j_step e = STEP_PENDING ∧ j_sha256 e = Some (sha256_hex data) ∧
       j_size_bytes e = Z.of_nat (String.length data).

(** The whole file is in place, its bytes on disk, its name perhaps not yet. *)
Definition named s : Prop :=
  files s !! (owner, id) = Some (Regular data) ∧ id ∉ unsynced s ∧
  (durable s (owner, id) = None ∨ durable s (owner, id) = Some (Regular data)).
Definition placed s : Prop := row_open s ∧ pending s ∧ named s.
Definition published s : Prop :=
  ∃ r, blobs (metadata s) !! id = Some r ∧ b_owner r = owner ∧ b_state r = B_PUBLISHED ∧
       b_sha256 r = Some (sha256_hex data) ∧ b_size_bytes r = Z.of_nat (String.length data) ∧
       files s !! (owner, id) = Some (Regular data).
Definition settled s : Prop := published s ∧ id ∉ unsynced s ∧ durable s (owner, id) = Some (Regular data).

(** No trace a recovery would keep; and anything an upload may leave. *)
Definition lost s : Prop := absent s ∨ opened s.
Definition any_stage s : Prop := lost s ∨ placed s ∨ settled s.






Lemma matches_self d : matches (Regular d) (Some (sha256_hex d)) (Z.of_nat (String.length d)) = true.
Proof. unfold matches. by rewrite Z.eqb_refl, bool_decide_true. Qed.







Lemma opened_timeless : timeless opened.
Proof. by intros s n Hs. Qed.
Lemma lost_timeless : timeless lost.
Proof. by intros s n Hs. Qed.
Lemma any_stage_timeless : timeless any_stage.
Proof. by intros s n Hs. Qed.
Lemma opened_any s : opened s → any_stage s.
Proof. intros Hs. by left; right. Qed.
Lemma absent_any s : absent s → any_stage s.
Proof. intros Hs. by left; left. Qed.
Hint Resolve opened_any absent_any : core.

(** ** The bytes that arrive *)
Lemma receive_stages io limit chunks stream_end n acc s :
  full_writes io → opened s → staging s !! id = Some acc →
  leaves (receive io id limit chunks stream_end n acc s)
    (fun got s' => got = acc +:+ concat_text chunks ∧ opened s' ∧ staging s' !! id = Some got) opened any_stage.
Proof.
  intros Hio. revert n acc s. induction chunks as [|c cs IH]; intros n acc s Hs Hst; simpl receive.
  - unfold os_result. destruct stream_end as [e|]; [destruct e; try done; by apply opened_any|].
    split_and!; try done. simpl. by rewrite append_nil_r.
  - destruct (String.eqb_spec c "") as [->|Hc]; [by apply IH|]. destruct (limit <? _); [done|].
    apply (leaves_bind _ _ _ (fun _ s' => opened s' ∧ staging s' !! id = Some (acc +:+ c))).
    + apply leaves_effect; [by apply opened_any|]. intros k. unfold lift, mbind, pym_bind, leaves.
      destruct (io_write io n c) as [w|e] eqn:Ew; [|destruct e; try done; by apply opened_any].
      rewrite (Hio _ _ _ Ew), substring_all. unfold modify. change (staging (s <| alive := k |>)) with (staging s).
      rewrite Hst. simpl. split; [done|apply dict_lookup_insert_eq].
    + intros _ s1 [Hs1 Hst1]. specialize (IH (S n) (acc +:+ c) s1 Hs1 Hst1).
      eapply leaves_mono; [exact IH| |done]. intros got s2 (-> & Hs2 & Hst2). split_and!; try done. by rewrite append_assoc.
Qed.

(** ** The steps around them *)
Lemma journal_row_open step sha sz now o s n x :
  row_open s → journal id o step sha sz now (metadata s) = (x, Ret tt) → row_open (s <| alive := n |> <| metadata := x |>).
Proof. by intros Hs [= <-]. Qed.

Lemma begin_staging_opened s :
  opened s → ∃ x r, begin_staging id (metadata s) = (x, Ret r) ∧ recovery x = recovery (metadata s) ∧
    ∀ n, opened (s <| alive := n |> <| metadata := x |>).
Proof.
  intros [(r & Hr & Ho & Hu) Hf]. unfold begin_staging, update_blob, require_blob, get_blob. run_unfold. rewrite Hr.
  destruct (bool_decide (b_state r = B_RESERVED)) eqn:E; simpl; [rewrite dict_lookup_insert_eq|rewrite Hr];
    (eexists _, _; split_and!; [done..|]; intros n; split; [|done]).
  - exists (r <| b_state := B_STAGING |>). simpl. rewrite dict_lookup_insert_eq. done.
  - by exists r.
Qed.

Lemma open_staging_stages io s :
  opened s → leaves (open_staging io id s) (fun _ s' => opened s' ∧ staging s' !! id = Some "") lost any_stage.
Proof.
  intros Hs. apply leaves_effect; [by apply opened_any|]. intros n. unfold os_result, leaves. run_unfold.
  destruct (io_open io) as [e|]; [destruct e; try (by right); by apply opened_any|].
  destruct (mem id _); [by right|]. simpl. split; [done|apply dict_lookup_insert_eq].
Qed.

(** Both the bytes and the name are on disk. *)
Definition landed s : Prop := placed s ∧ durable s (owner, id) = Some (Regular data).
Definition ready s : Prop := opened s ∧ staging s !! id = Some data ∧ id ∉ unsynced s.

Lemma publish_file_stages io s :
  ready s → pending s →
  leaves (publish_file io owner id s) (fun _ s' => landed s') (fun s' => opened s' ∨ placed s') any_stage.
Proof.
  intros (Hs & Hst & Hsy) Hp. apply (leaves_bind _ _ _ (fun _ s' => placed s')).
  - apply leaves_effect; [by apply opened_any|]. intros n. unfold os_result, leaves. run_unfold.
    destruct (io_rename io) as [e|]; [destruct e; try (by left); by apply opened_any|].
    change (staging (s <| alive := n |>)) with (staging s). rewrite Hst. destruct Hs as [Hs [_ Hd]].
    split_and!; [done|done|]. split_and!; [apply dict_lookup_insert_eq|done|by left].
  - intros _ s1 Hs1. apply leaves_effect; [by right; left|]. intros n. unfold os_result, leaves. run_unfold.
    destruct (io_dirsync io) as [e|]; [destruct e; try (by right); by right; left|].
    destruct Hs1 as (Hr & Hp1 & Hf & Hu & _). split.
    + split_and!; [done|done|]. split_and!; [done|done|right]. simpl. by rewrite String.eqb_refl.
    + simpl. by rewrite String.eqb_refl.
Qed.

Lemma sync_staging_stages io s :
  opened s → staging s !! id = Some data → leaves (sync_staging io id s) (fun _ s' => ready s') opened any_stage.
Proof.
  intros Hs Hst. apply leaves_effect; [by apply opened_any|]. intros n. unfold os_result, leaves. run_unfold.
  destruct (io_fsync io) as [e|]; [destruct e; try done; by apply opened_any|]. split_and!; [done|done|]. simpl.
  rewrite list_elem_of_In, List.filter_In, String.eqb_refl. by intros [_ ?].
Qed.

(** The cleanup of an upload that failed: the row is gone, whatever happened. *)
Lemma abort_absent s n x : row_open s → abort id (metadata s) = (x, Ret tt) → absent (s <| alive := n |> <| metadata := x |>).
Proof.
  intros (r & Hr & Ho & Hu) Ha. rewrite (abort_run id _ r Hr Hu) in Ha. injection Ha as <-. unfold absent. simpl.
  apply dict_lookup_delete_eq.
Qed.

Definition unpublished s : Prop := opened s ∨ placed s.
Lemma unpublished_any s : unpublished s → any_stage s.
Proof. intros [?|?]; [by left; right|by right; left]. Qed.
Hint Resolve unpublished_any : core.

Lemma remove_staging_stages E s :
  unpublished s → leaves (remove_staging id s) (fun _ s' => unpublished s') E any_stage.
Proof. intros Hs. by apply leaves_modify; [apply unpublished_any|]. Qed.
Lemma abort_stages E s : unpublished s → leaves (db (abort id) s) (fun _ s' => absent s') E any_stage.
Proof.
  intros Hs. eapply leaves_db; [by apply unpublished_any|done|]. intros n. apply abort_absent; [|done].
  by destruct Hs as [[? _]|[? _]].
Qed.

(** ** The whole path *)
Lemma receive_stage io chunks stream_end sha limit declared s :
  full_writes io → data = concat_text chunks → opened s → staging s !! id = Some "" →
  leaves
    ((db (begin_staging id) ;;
      acc ← receive io id limit chunks stream_end 0 "";
      sync_staging io id ;;
      lift (check_received acc sha declared) ;; mret acc) s)
    (fun acc s' => acc = data ∧ ready s') opened any_stage.
Proof.
  intros Hio Hd Hs Hst. apply (leaves_bind _ _ _ (fun _ s' => opened s' ∧ staging s' !! id = Some "")).
  { destruct (begin_staging_opened s Hs) as (x & r & Hb & _ & Ho). eapply leaves_db; [by apply opened_any|exact Hb|].
    intros n. split; [apply Ho|done]. }
  intros _ s1 [Hs1 Hst1]. eapply leaves_bind; [by apply receive_stages|]. intros acc s2 (Hacc & Hs2 & Hst2).
  change (acc = concat_text chunks) in Hacc. rewrite <-Hd in Hacc. subst acc.
  eapply leaves_bind; [by apply sync_staging_stages|]. intros [] s3 Hs3. cbv beta in Hs3. pose proof Hs3 as [Ho3 _].
  apply (leaves_bind _ _ _ (fun _ s' => ready s')); [|done].
  unfold check_received, lift. destruct (match declared with Some _ => _ | None => _ end); [done|].
  by destruct (match sha with Some _ => _ | None => _ end).
Qed.

Lemma receive_and_publish_stages io chunks stream_end sha limit declared now s :
  full_writes io → data = concat_text chunks → opened s →
  leaves (receive_and_publish io id owner chunks stream_end sha limit declared None now s)
    (fun _ s' => settled s') lost any_stage.
Proof.
  intros Hio Hd Hs. apply (leaves_bind _ _ _ (fun _ s' => opened s')).
  { by eapply leaves_db; [apply opened_any| |]. }
  intros _ s1 Hs1. eapply leaves_bind; [by apply open_staging_stages|]. intros _ s2 [Hs2 Hst2].
  eapply leaves_bind; [apply leaves_cleanup with (E' := opened); [by apply receive_stage|]|].
  { intros s3 Hs3. apply (leaves_bind _ _ _ (fun _ s' => unpublished s')); [by apply remove_staging_stages; left|]. intros _ s4 Hs4.
    apply (leaves_mono _ (fun _ s' => absent s') _ lost); [by apply abort_stages| |done]. intros _ s5 Hs5. by left. }
  intros acc s3 (-> & Hs3). cbv zeta.
  apply (leaves_bind _ _ _ (fun _ s' => ready s' ∧ pending s')).
  { eapply leaves_db; [by apply opened_any, Hs3|done|]. intros n. split_and!; try done. unfold pending. simpl.
    rewrite dict_lookup_insert_eq. by eexists. }
  intros _ s4 (Hs4 & Hp4).
  eapply leaves_bind; [apply leaves_cleanup with (E' := unpublished); [by apply publish_file_stages|]|].
  { intros s5 Hs5. apply (leaves_bind _ _ _ (fun _ s' => unpublished s')); [by apply remove_staging_stages|]. intros _ s6 Hs6.
    apply (leaves_bind _ _ _ (fun _ s' => absent s')); [by apply abort_stages|]. intros _ s7 Hs7.
    eapply leaves_db; [by apply absent_any|done|]. intros n. by left. }
  intros _ s5 [[(r & Hr & Ho & Hu) (Hp5 & Hn5)] Hd5]. pose proof Hn5 as (Hf5 & Hs5 & _).
  eapply leaves_bind; [apply leaves_cleanup with (E' := fun _ => False) (Q := fun _ s' => settled s')|].
  { destruct (publish_run id (sha256_hex data) (Z.of_nat (String.length data)) now (metadata s5) r Hr Hu) as [r' Hpub].
    eapply leaves_db; [right; left; split_and!; [by exists r|done|done]|exact Hpub|]. intros n. split; [|done]. eexists. simpl.
    rewrite dict_lookup_insert_eq. by split_and!. }
  { done. }
  intros rec s6 Hs6. apply (leaves_bind _ _ _ (fun _ s' => settled s')).
  { by eapply leaves_db; [right; right| |]. }
  intros _ s7 Hs7. apply (leaves_bind _ _ _ (fun _ s' => settled s')); [|done].
  by eapply leaves_db; [right; right| |].
Qed.

Lemma reserve_stages size media now path free s :
  absent s → no_file s →
  leaves (quota_error (db (reserve id owner size media now path free)) s) (fun _ s' => opened s') lost any_stage.
Proof.
  intros Ha Hf. assert (mem id (blobs (metadata s)) = false) as Hmem by by apply mem_false.
  unfold quota_error, catch, db, effect, on_field, reserve. run_unfold. destruct (alive s) as [|n]; [by left; left|].
  change (metadata (s <| alive := n |>)) with (metadata s). destruct (size <=? 0); [by left|]. rewrite Hmem.
  destruct (match free with Some _ => _ | None => _ end); [by left|]. destruct (owner_quota_bytes _ <? _); [by left|].
  destruct (global_quota_bytes _ <? _); [by left|]. unfold require_blob, get_blob. run_unfold. simpl blobs.
  rewrite dict_lookup_insert_eq. simpl. split; [|done]. eexists. simpl. rewrite dict_lookup_insert_eq. by split_and!.
Qed.

Lemma upload_stages io media chunks stream_end sha declared free now s :
  full_writes io → data = concat_text chunks → absent s → no_file s →
  leaves (upload io id owner media chunks stream_end sha declared free now s) (fun _ s' => settled s') lost any_stage.
Proof.
  intros Hio Hd Ha Hf. unfold upload, checked_id. destruct (ID_RE id); [|by left]. destruct (ID_RE owner); [|by left].
  run_unfold. destruct (negb _); [by left|]. destruct (_ || _); [by left|].
  refine (leaves_bind (quota_error (db (reserve _ _ _ _ _ _ _))) _ s (fun _ s' => opened s') _ _ _ _ _); [by apply reserve_stages|].
  intros _ s1 Hs1. by apply receive_and_publish_stages.
Qed.
End upload.

(** ** Rows stay well formed during an upload *)
Definition rows s : Prop := rows_wf (metadata s).
Lemma rows_effect {A} (m : pym BlobStore A) : preserves rows m → preserves rows (effect m).
Proof. intros Hm. apply keeps_effect; [by intros s n Hs|done]. Qed.
Lemma rows_cleanup {A} (m : pym BlobStore A) h : preserves rows m → preserves rows h → preserves rows (cleanup m h).
Proof.
  intros Hm Hh. apply preserves_catch; [done|]. intros e k Hk.
  destruct e; try done; injection Hk as <-; (apply preserves_bind; [done|intros; apply preserves_raise]).
Qed.
Lemma rows_reserve id o sz md now p fr : preserves rows_wf (reserve id o sz md now p fr).
Proof.
  intros m Hm. unfold reserve. destruct (sz <=? 0) eqn:Hsz; [done|]. run_unfold.
  destruct (mem id (blobs m)); [done|]. destruct (match fr with Some _ => _ | None => _ end); [done|].
  destruct (owner_quota_bytes m <? _); [done|]. destruct (global_quota_bytes m <? _); [done|]. simpl.
  destruct Hm as [Hnd Hi]. split; simpl; [by apply dict_nodup_insert|]. intros k r. rewrite dict_lookup_insert.
  case_decide; [|apply Hi]. intros [= <-]. simpl. split; [done|lia].
Qed.
Lemma rows_begin_staging id : preserves rows_wf (begin_staging id).
Proof. apply preserves_bind; [by apply rows_update|]. intros _ m Hm. done. Qed.
Lemma rows_journal id o step sha sz now : preserves rows_wf (journal id o step sha sz now).
Proof. by intros m [Hnd Hi]. Qed.
Lemma rows_os o : preserves rows (os_result o).
Proof. destruct o; [apply preserves_raise|apply preserves_ret]. Qed.
Lemma rows_files f : (∀ s, metadata (f s) = metadata s) → preserves rows (effect (modify f)).
Proof. intros Hf. apply rows_effect, preserves_modify. intros s Hs. unfold rows. by rewrite Hf. Qed.

Lemma rows_receive io id limit chunks stream_end n acc : preserves rows (receive io id limit chunks stream_end n acc).
Proof.
  revert n acc. induction chunks as [|c cs IH]; intros n acc; simpl receive.
  - apply preserves_bind; [apply rows_os|intros; apply preserves_ret].
  - destruct (String.eqb c ""); [apply IH|]. destruct (limit <? _); [apply preserves_raise|].
    apply preserves_bind; [|intros; apply IH]. apply rows_effect. apply preserves_bind; [apply preserves_lift|intros k].
    apply preserves_modify. intros s Hs. by destruct (staging s !! id).
Qed.

Lemma rows_receive_and_publish io id owner chunks stream_end sha limit declared ret now :
  preserves rows (receive_and_publish io id owner chunks stream_end sha limit declared ret now).
Proof.
  assert (∀ step sha sz, preserves rows (db (journal id owner step sha sz now))) as Hj by (intros; apply rows_db, rows_journal).
  assert (preserves rows (db (abort id))) as Ha by apply rows_db, rows_abort.
  assert (preserves rows (db (clear_journal id))) as Hc by apply rows_db, rows_clear_journal.
  assert (preserves rows (remove_staging id)) as Hs by by apply rows_files.
  apply preserves_bind; [done|intros _]. apply preserves_bind; [|intros _].
  { apply rows_effect. apply preserves_bind; [apply rows_os|intros _]. apply preserves_bind; [apply preserves_get|intros s].
    destruct (mem _ _); [apply preserves_raise|by apply preserves_modify]. }
  apply preserves_bind; [apply rows_cleanup|intros acc; cbv zeta].
  { apply preserves_bind; [apply rows_db, rows_begin_staging|intros _]. apply preserves_bind; [apply rows_receive|intros acc].
    apply preserves_bind; [apply rows_effect, preserves_bind; [apply rows_os|intros _; by apply preserves_modify]|intros _].
    apply preserves_bind; [apply preserves_lift|intros; apply preserves_ret]. }
  { by apply preserves_bind. }
  apply preserves_bind; [done|intros _]. apply preserves_bind; [apply rows_cleanup|intros _].
  { apply preserves_bind; [|intros _; apply rows_effect, preserves_bind; [apply rows_os|intros _; by apply preserves_modify]].
    apply rows_effect. apply preserves_bind; [apply rows_os|intros _].
    apply preserves_bind; [apply preserves_get|intros s]. destruct (staging s !! id); [by apply preserves_modify|apply preserves_raise]. }
  { do 2 (apply preserves_bind; [done|intros _]). done. }
  apply preserves_bind; [apply rows_cleanup|intros rec].
  { apply rows_db, rows_publish. lia. }
  { apply preserves_bind; [by apply rows_files|intros _]. by apply preserves_bind. }
  do 2 (apply preserves_bind; [done|intros _]). apply preserves_ret.
Qed.

Lemma rows_upload io id owner media chunks stream_end sha declared free now :
  preserves rows (upload io id owner media chunks stream_end sha declared free now).
Proof.
  unfold upload, checked_id. apply preserves_bind; [destruct (ID_RE id); [apply preserves_ret|apply preserves_raise]|intros _].
  apply preserves_bind; [destruct (ID_RE owner); [apply preserves_ret|apply preserves_raise]|intros _].
  apply preserves_bind; [apply preserves_get|intros s]. destruct (negb _); [apply preserves_raise|]. cbv zeta.
  destruct (_ || _); [apply preserves_raise|]. apply preserves_bind; [|intros _; apply rows_receive_and_publish].
  apply preserves_catch; [apply rows_db, rows_reserve|]. intros e k Hk. destruct e; try done. injection Hk as <-. apply preserves_raise.
Qed.

(** ** Guarantees *)


(** What a lease was given on. *)
Lemma lease_begin_checked id owner holder now s s' data r :
  lease_begin id owner holder now s = (s', Ret (data, r)) →
  blobs (metadata s) !! id = Some r ∧ b_owner r = owner ∧ b_state r = B_PUBLISHED ∧
  (∀ t, b_expires_at r = Some t → now < t) ∧ files s !! (owner, b_blob_id r) = Some (Regular data) ∧
  matches (Regular data) (b_sha256 r) (b_size_bytes r) = true ∧ (id, holder) ∈ blob_leases (metadata s').
Proof.
  unfold lease_begin, checked_id. destruct (ID_RE id); [|done]. destruct (ID_RE owner); [|done].
  unfold ask_db, effect at 1. run_unfold. destruct (alive s) as [|n]; [done|]. change (metadata (s <| alive := n |>)) with (metadata s).
  unfold get_blob at 1. destruct (blobs (metadata s) !! id) as [r0|] eqn:Hr; [|done].
  destruct (negb (bool_decide (b_owner r0 = owner)) || _) eqn:Hg; [done|].
  destruct (match b_expires_at r0 with Some _ => _ | None => _ end) eqn:Hx; [done|].
  unfold open_verified, effect at 1. run_unfold. change (alive (s <| alive := n |>)) with n. destruct n as [|n]; [done|].
  change (files (s <| alive := S n |> <| alive := n |>)) with (files s).
  apply orb_false_iff in Hg as [Ho%negb_false_iff%bool_decide_eq_true Hst%negb_false_iff%bool_decide_eq_true].
  destruct (files s !! (b_owner r0, b_blob_id r0)) as [f|] eqn:Hf; [|done].
  destruct f as [d| |]; [|cbn [matches]; cbv iota; by destruct (db (mark_corrupt _) _) as [s2 [[]|e]]|done].
  destruct (matches (Regular d) _ _) eqn:Hm; [|by destruct (db (mark_corrupt _) _) as [s2 [[]|e]]]. destruct (db (acquire_lease id holder) _) as [s2 [[]|e]] eqn:Ha; try done.
  intros [= <- <- <-]. rewrite <-Ho. split_and!; try done.
  - intros t Ht. rewrite Ht in Hx. apply Z.leb_gt in Hx. done.
  - apply db_lease in Ha. done.
Qed.

(** A read returns verified bytes only: whatever happened to the files,
    [read_all] returns bytes only of a published, unexpired blob of that owner,
    and they are the regular file of that name, with the recorded size and hash. *)
Theorem read_verified id owner holder now s s' data :
  read_all id owner holder now s = (s', Ret data) →
  ∃ r, blobs (metadata s) !! id = Some r ∧ b_owner r = owner ∧ b_state r = B_PUBLISHED ∧
    (∀ t, b_expires_at r = Some t → now < t) ∧ files s !! (owner, b_blob_id r) = Some (Regular data) ∧
    b_sha256 r = Some (sha256_hex data) ∧ b_size_bytes r = Z.of_nat (String.length data).
Proof.
  unfold read_all. intros (dr & s1 & Hl & Hk)%bind_returns. destruct dr as [d r].
  apply bind_returns in Hk as (u & s2 & _ & Hk). injection Hk as <- <-.
  apply lease_begin_checked in Hl as (Hr & Ho & Hst & Hx & Hf & Hm & _). exists r. unfold matches in Hm. simpl.
  apply andb_true_iff in Hm as [Hm1%Z.eqb_eq Hm2%bool_decide_eq_true]. by split_and!.
Qed.

Lemma open_verified_run r s n data :
  alive s = S n → files s !! (b_owner r, b_blob_id r) = Some (Regular data) →
  matches (Regular data) (b_sha256 r) (b_size_bytes r) = true → open_verified r s = (s <| alive := n |>, Ret data).
Proof.
  intros Ha Hf Hm. unfold open_verified, effect. run_unfold. rewrite Ha.
  change (files (s <| alive := n |>)) with (files s). by rewrite Hf, Hm.
Qed.

Lemma read_published id owner data holder now s (n : nat) r :
  ID_RE id = true → ID_RE owner = true → rows_wf (metadata s) → published id owner data s →
  blobs (metadata s) !! id = Some r → (∀ t, b_expires_at r = Some t → now < t) →
  ∃ s', read_all id owner holder now (s <| alive := (4 + n)%nat |>) = (s', Ret data).
Proof.
  intros Hi Ho Hw (r' & Hr' & Hown & Hst & Hsha & Hsz & Hf) Hr Hx. rewrite Hr in Hr'. injection Hr' as <-.
  destruct (rows_id _ Hw _ _ Hr) as [Hid _].
  assert (match b_expires_at r with Some t => t <=? now | None => false end = false) as Hx'.
  { destruct (b_expires_at r) as [t|]; [|done]. apply Z.leb_gt. auto. }
  assert (files s !! (b_owner r, b_blob_id r) = Some (Regular data)) as Hf' by by rewrite Hown, Hid.
  pose proof (matches_self data) as Hm. rewrite <-Hsha, <-Hsz in Hm.
  unfold read_all, lease_begin, checked_id, lease_end, ask_db, db, effect, on_field, acquire_lease, release_lease, add_lease, get_blob.
  rewrite Hi, Ho. run_unfold. simpl. rewrite Hr. simpl. rewrite Hown, Hst, !bool_decide_true by done. simpl. rewrite Hx'.
  rewrite (open_verified_run r _ (2 + n) data); [|done|exact Hf'|exact Hm]. simpl. rewrite Hr, bool_decide_true by done.
  destruct (bool_decide (_ ∈ _)); simpl; by eexists.
Qed.

(** What was uploaded is what is read: after an upload returned, its owner
    reads back exactly the bytes sent, until the blob expires. *)
Theorem upload_read_roundtrip io id owner media chunks stream_end sha declared free now s s1 rec holder now' (n : nat) :
  rows_wf (metadata s) → full_writes io → blobs (metadata s) !! id = None →
  files s !! (owner, id) = None → durable s (owner, id) = None →
  upload io id owner media chunks stream_end sha declared free now s = (s1, Ret rec) →
  (∀ r t, blobs (metadata s1) !! id = Some r → b_expires_at r = Some t → now' < t) →
  ∃ s2, read_all id owner holder now' (s1 <| alive := (4 + n)%nat |>) = (s2, Ret (concat_text chunks)).
Proof.
  intros Hw Hio Hb Hf Hd Hup Hx.
  pose proof (upload_stages id owner _ io media chunks stream_end sha declared free now s Hio eq_refl Hb (conj Hf Hd)) as Hu.
  pose proof (rows_upload io id owner media chunks stream_end sha declared free now s Hw) as Hw1. rewrite Hup in Hu, Hw1.
  destruct Hu as [Hu _].
  assert (ID_RE id = true ∧ ID_RE owner = true) as [Hi Ho].
  { unfold upload, checked_id in Hup. by destruct (ID_RE id), (ID_RE owner). }
  pose proof Hu as (r & Hr & _). apply (read_published id owner _ holder now' s1 n r); try done. intros t. by apply Hx.
Qed.
End crash.
