(* ===== verification/BlobDemo.v ===== *)
(** * The blob store run on a concrete catalogue *)

From S2P Require Import Prelude Text Dict Contracts Registration Identity Protocol Blobs BlobsProps BlobStore BlobStoreProps BlobRecovery BlobCrash.
Local Open Scope Z_scope.

(** A digest of 64 characters that tells short strings apart. *)
Definition pad_digest (data : string) : string :=
  String.substring 0 64 (data +:+ "0000000000000000000000000000000000000000000000000000000000000000").

Lemma pad_digest_length data : String.length (pad_digest data) = 64%nat.
Proof. unfold pad_digest. rewrite substring_length, append_length, Nat.sub_0_r. apply Nat.min_l. simpl. lia. Qed.

#[local] Instance demo_digest : Digest := {| sha256_hex := pad_digest; sha256_hex_length := pad_digest_length |}.

Definition empty_catalogue : BlobMetadata :=
  {| owner_quota_bytes := 100; global_quota_bytes := 150; min_free_bytes := 10; bm_retention_seconds := 1000;
     tombstone_seconds := 500; blobs := ∅; blob_leases := []; recovery := ∅ |}.

Definition empty_store (power : nat) : BlobStore :=
  {| metadata := empty_catalogue; staging := ∅; files := ∅; media_types := MEDIA_TYPES;
     chunked_reserve_bytes := CHUNKED_RESERVE_BYTES; alive := power; unsynced := []; durable := fun _ => None |}.

Definition good_io : Io :=
  {| io_open := None; io_write := fun _ c => Ret (String.length c); io_fsync := None; io_rename := None; io_dirsync := None |}.

Lemma good_io_full : full_writes good_io.
Proof. by intros n c k [= <-]. Qed.
Lemma empty_rows : rows_wf empty_catalogue.
Proof. split; [apply dict_nodup_empty|intros k r Hk; discriminate Hk]. Qed.

#[local] Notation put io power :=
  (upload io "b1" "alice" "image/png" ["ab"; ""; "cd"] None None (Some 4) None 0 (empty_store power)).

Lemma put_rows power : rows_wf (metadata (put good_io power).1).
Proof. apply rows_upload, empty_rows. Qed.

(** The upload takes 13 effects; cut after 9, its file is in place and
    recovery publishes it, cut after 8 it is taken back. *)
Example upload_returns : ∃ s r, put good_io 14 = (s, Ret r) ∧ alive s = 1%nat.
Proof. eexists _, _. vm_compute. done. Qed.
Example upload_cut_late :
  (b_state <$> blobs (metadata (recover_blobs false "boot" 1 ((put good_io 9).1 <| alive := 99%nat |>)).1) !! "b1") = Some B_PUBLISHED.
Proof. vm_compute. done. Qed.
Example upload_cut_early :
  blobs (metadata (recover_blobs false "boot" 1 ((put good_io 8).1 <| alive := 99%nat |>)).1) !! "b1" = None.
Proof. vm_compute. done. Qed.

Definition crashed : BlobStore := (put good_io 9).1 <| alive := 99%nat |>.

Lemma recovery_settles_witness : ∃ report s',
  recover_blobs true "boot" 5 crashed = (s', Ret report) ∧ blobs (metadata s') !! "b1" = verdict 5 crashed "b1".
Proof.
  destruct (recovery_settles true "boot" 5 crashed) as (rep & s' & He & Hr).
  - exact (rows_timeless _ 99%nat (put_rows 9)).
  - apply Nat.leb_le. vm_compute. reflexivity.
  - exists rep, s'. split; [exact He|]. exact (proj1 (Hr "b1")).
Defined.

Definition name_lost (s : BlobStore) : BlobStore :=
  s <| alive := 99%nat |> <| unsynced := [] |> <| files := ∅ |> <| durable := fun _ => None |>.


Example rename_lost_recovered :
  blobs (metadata (recover_blobs false "boot" 1 (name_lost (put good_io 9).1)).1) !! "b1" = None.
Proof. vm_compute. done. Qed.


Definition stored : BlobStore := (put good_io 20).1.

Lemma upload_read_roundtrip_witness : ∃ s2,
  read_all "b1" "alice" "reader" 900 (stored <| alive := 5%nat |>) = (s2, Ret "abcd").
Proof.
  assert (∃ s r, put good_io 20 = (s, Ret r)) as (s1 & r & Hput) by (eexists _, _; vm_compute; reflexivity).
  assert (stored = s1) as -> by (unfold stored; by rewrite Hput).
  refine (upload_read_roundtrip good_io "b1" "alice" "image/png" ["ab"; ""; "cd"] None None (Some 4) None 0 (empty_store 20) s1 r
    "reader" 900 1 empty_rows good_io_full eq_refl eq_refl eq_refl Hput _).
  assert (b_expires_at <$> blobs (metadata s1) !! "b1" = Some (Some 1000)) as Hx.
  { change s1 with (s1, Ret r).1. rewrite <-Hput. vm_compute. reflexivity. }
  intros r' t Hr Ht. rewrite Hr in Hx. injection Hx as Hx. rewrite Hx in Ht. injection Ht as <-. lia.
Defined.

Lemma read_verified_witness : ∃ s' r,
  read_all "b1" "alice" "reader" 900 stored = (s', Ret "abcd") ∧ blobs (metadata stored) !! "b1" = Some r ∧
  b_sha256 r = Some (pad_digest "abcd").
Proof.
  destruct (read_all "b1" "alice" "reader" 900 stored) as [s' o] eqn:He.
  assert (o = Ret "abcd") as -> by (change o with (s', o).2; rewrite <-He; vm_compute; reflexivity).
  destruct (read_verified _ _ _ _ _ _ _ He) as (r & Hr & _ & _ & _ & _ & Hh & _). exists s', r. split_and!; [reflexivity|exact Hr|exact Hh].
Defined.

(** ** Catalogue runs *)
Definition demo_calls : list blob_call :=
  [BReserve "b1" "alice" 40 "image/png" 0 "alice/b1" None; BBeginStaging "b1";
   BReserve "b2" "alice" 90 "image/png" 1 "alice/b2" None; BPublish "b1" "h" 30 2 None;
   BReserve "b2" "alice" 70 "image/png" 3 "alice/b2" (Some 200)].

Lemma demo_within : all_within demo_calls empty_catalogue.
Proof.
  do 3 (split; [exact I|]). split; [|split; [exact I|exact I]]. intros r Hr Hu.
  assert (b_size_bytes <$> blobs (blob_run (take 3 demo_calls) empty_catalogue) !! "b1" = Some 40) as Hs by (vm_compute; reflexivity).
  change (blobs (blob_run (take 3 demo_calls) empty_catalogue) !! "b1" = Some r) in Hr. rewrite Hr in Hs. injection Hs as ->. lia.
Qed.

(** The second reservation is refused, the fourth one fits: 30 + 70 = 100. *)
Lemma blob_quota_safe_witness :
  usage_total (usage (blob_run demo_calls empty_catalogue) "alice") = 100 ∧
  usage_total (usage (blob_run demo_calls empty_catalogue) "alice") ≤ owner_quota_bytes (blob_run demo_calls empty_catalogue).
Proof.
  split; [vm_compute; reflexivity|].
  exact (proj1 (blob_quota_safe 100 150 10 1000 500 empty_catalogue demo_calls "alice" eq_refl demo_within)).
Defined.

(** "b1" is read by "reader" while it is deleted and has expired. *)
Definition held_catalogue : BlobMetadata :=
  blob_run [BReserve "b1" "alice" 40 "image/png" 0 "alice/b1" None; BPublish "b1" "h" 30 2 None; BAcquireLease "b1" "reader"] empty_catalogue.

Lemma empty_wf : blobs_wf empty_catalogue.
Proof. exact (BlobMetadata_init_wf 100 150 10 1000 500 empty_catalogue eq_refl). Qed.

Definition b1_row : BlobRecord :=
  {| b_blob_id := "b1"; b_owner := "alice"; b_sha256 := Some "h"; b_size_bytes := 30; b_media_type := "image/png";
     b_state := B_PUBLISHED; b_created_at := 0; b_expires_at := Some 1002; b_path := "alice/b1" |}.

Lemma held_wf : blobs_wf held_catalogue.
Proof.
  apply blob_run_wf; [apply empty_wf|]. split; [exact I|]. split; [|split; exact I]. intros r Hr _.
  assert (blobs (blob_exec (BReserve "b1" "alice" 40 "image/png" 0 "alice/b1" None) empty_catalogue) !! "b1" =
    Some {| b_blob_id := "b1"; b_owner := "alice"; b_sha256 := None; b_size_bytes := 40; b_media_type := "image/png";
            b_state := B_RESERVED; b_created_at := 0; b_expires_at := None; b_path := "alice/b1" |}) as He by (vm_compute; reflexivity).
  rewrite He in Hr. injection Hr as <-. simpl. lia.
Qed.

Lemma held_blob_survives_witness :
  in_use "b1" b1_row (blob_run [BDelete "b1" "alice" 5; BExpire 2000; BPurge 9000; BProtect "boot"] held_catalogue).
Proof.
  apply held_blob_survives; [exact held_wf|repeat split|split_and!; vm_compute; reflexivity|repeat constructor].
Defined.

(** ** Failures the cleanup does not cover *)

(** A short write is not noticed: the upload returns a record whose file can
    no longer be read. *)
Definition short_io : Io :=
  {| io_open := None; io_write := fun _ _ => Ret 1%nat; io_fsync := None; io_rename := None; io_dirsync := None |}.
Example short_write_published :
  (b_size_bytes <$> match (put short_io 20).2 with Ret r => Some r | Raise _ => None end) = Some 4 ∧
  (read_all "b1" "alice" "reader" 1 (put short_io 20).1).2 = Raise (BlobStoreError "unreadable").
Proof. split; vm_compute; reflexivity. Qed.

(** When the staging file cannot be opened the reservation stays charged. *)
Definition no_open_io : Io := good_io <| io_open := Some (OSError "ENOSPC") |>.
Example open_failure_keeps_reservation :
  (put no_open_io 20).2 = Raise (OSError "ENOSPC") ∧ usage_total (usage (metadata (put no_open_io 20).1) "alice") = 4.
Proof. split; vm_compute; reflexivity. Qed.

(** When the directory cannot be synced the file is in place without a row. *)
Definition no_sync_io : Io := good_io <| io_dirsync := Some (OSError "EIO") |>.
Example dirsync_failure_orphans_file :
  (put no_sync_io 20).2 = Raise (OSError "EIO") ∧ blobs (metadata (put no_sync_io 20).1) !! "b1" = None ∧
  files (recover_blobs false "boot" 5 ((put no_sync_io 20).1 <| alive := 99%nat |>)).1 !! ("alice", "b1") = Some (Regular "abcd").
Proof. split_and!; vm_compute; reflexivity. Qed.
