(* ===== verification/Execution.v ===== *)
(** * The execution service

    [model_scheduler/execution_service.py]: the records of the executions of all
    sessions and the sections of the service, each run under the service lock at
    one clock reading.  A call to the scheduler, the blob store or the backend is
    an entry of [svc_calls], its answer an argument of the section that uses it.
    The sections read the sessions and the book of the scheduler.  Events and
    asyncio task handles are left out.  [now] is the service clock, [wall] the
    clock of the idempotency store. *)

From S2P Require Import Prelude Text Dict Env Contracts Registry Sessions Registration Protocol JsonText Identity Idempotency.
From Stdlib Require Import Ascii.
Local Open Scope Z_scope.

Notation EXEC_FAILED := Protocol.FAILED (only parsing).

Record ExecutionInput := { in_inline : option json; in_blob : option BlobRef }.

Record ExecutionRecord := {
  x_execution_id : string;
  x_session_id : string;
  x_model_id : string;
  x_owner : string;
  x_operation : string;
  x_input : ExecutionInput;
  x_parameters : list (string * json);
  x_deadline : time;
  x_fence : Fence;
  x_output_blob_id : string;
  x_state : ExecState;
  x_error : option ErrorDetail;
  x_terminal_code : option string;
  x_terminal_message : string;
  x_result : option BlobRef;
  x_evidence : option TerminationEvidence;
  x_output_pending : option string;
  x_publishing : bool;
  x_dispatch_state : DispatchState;
  x_dispatch_started : bool;
  x_dispatch_claimed : bool;
  x_instance : option InstanceIdentity;
  x_lease : option Lease;
  x_lease_released : bool;
  x_reservation : option string;
  x_input_open : bool;
  x_input_closed : bool;
  x_cancel_pending : bool;
  x_settled : bool;
  x_awaiting_quiescence : bool;
  x_expected_instance : option InstanceIdentity;
  x_idempotency : option nat;
}.

#[export] Instance ExecutionRecord_eta : Eta ExecutionRecord := fun r =>
  {| x_execution_id := x_execution_id r; x_session_id := x_session_id r; x_model_id := x_model_id r;
     x_owner := x_owner r; x_operation := x_operation r; x_input := x_input r; x_parameters := x_parameters r;
     x_deadline := x_deadline r; x_fence := x_fence r; x_output_blob_id := x_output_blob_id r;
     x_state := x_state r; x_error := x_error r; x_terminal_code := x_terminal_code r;
     x_terminal_message := x_terminal_message r; x_result := x_result r; x_evidence := x_evidence r;
     x_output_pending := x_output_pending r; x_publishing := x_publishing r; x_dispatch_state := x_dispatch_state r;
     x_dispatch_started := x_dispatch_started r; x_dispatch_claimed := x_dispatch_claimed r;
     x_instance := x_instance r; x_lease := x_lease r; x_lease_released := x_lease_released r;
     x_reservation := x_reservation r; x_input_open := x_input_open r; x_input_closed := x_input_closed r;
     x_cancel_pending := x_cancel_pending r; x_settled := x_settled r;
     x_awaiting_quiescence := x_awaiting_quiescence r; x_expected_instance := x_expected_instance r;
     x_idempotency := x_idempotency r |}.

(** The calls the service makes to its neighbours. *)
Inductive Call :=
| CallRelease (execution_id : string) (lease : Lease) (o : Outcome)
| CallCancelLease (execution_id : string) (lease : Lease)
| CallCancelOutput (execution_id : string)
| CallAbandonOutput (execution_id : string)
| CallCloseInput (execution_id : string)
| CallWriteOutput (execution_id : string) (body : string).

Record ExecutionService := {
  svc_boot_id : string;
  svc_queue_capacity : Z;
  svc_wait_seconds : time;
  svc_managed : bool;
  svc_idempotency : option IdempotencyStore;
  svc_records : dict string ExecutionRecord;
  svc_pending_cleanup : list string;
  svc_quiescing : list string;
  svc_publish_inflight : list string;
  svc_uuid_calls : nat;
  svc_calls : list Call;
}.

#[export] Instance ExecutionService_eta : Eta ExecutionService := fun s =>
  {| svc_boot_id := svc_boot_id s; svc_queue_capacity := svc_queue_capacity s; svc_wait_seconds := svc_wait_seconds s;
     svc_managed := svc_managed s; svc_idempotency := svc_idempotency s; svc_records := svc_records s;
     svc_pending_cleanup := svc_pending_cleanup s; svc_quiescing := svc_quiescing s;
     svc_publish_inflight := svc_publish_inflight s; svc_uuid_calls := svc_uuid_calls s; svc_calls := svc_calls s |}.

Definition ExecutionService_init (boot_id : string) (queue_capacity : Z) (wait_seconds poll_seconds : time)
    (output_limit_bytes : Z) (stop_grace_seconds : time) (managed : bool) (idem : option IdempotencyStore)
    (hook_taken : bool) : outcome ExecutionService :=
  _ ← raise_if ((queue_capacity <? 1) || (wait_seconds <=? 0) || (poll_seconds <=? 0) || (output_limit_bytes <=? 0)
                || (stop_grace_seconds <=? 0)) (ValueError "execution policy values must be positive");
  _ ← raise_if hook_taken (Conflict "the scheduler already owns an execution hook");
  mret {| svc_boot_id := boot_id; svc_queue_capacity := queue_capacity; svc_wait_seconds := wait_seconds;
          svc_managed := managed; svc_idempotency := idem; svc_records := ∅; svc_pending_cleanup := [];
          svc_quiescing := []; svc_publish_inflight := []; svc_uuid_calls := 0; svc_calls := [] |}.

(** ** Small helpers *)
Definition CANCEL_CODES : list string := ["queue_timeout"; "session_expired"; "session_not_active"].

(** [_BLOB_CODES.get(code)] *)
Definition BLOB_CODES : list (string * string) :=
  [("not_found", "not_found"); ("expired", "reference_expired"); ("too_large", "payload_too_large");
   ("quota_exceeded", "quota_exceeded"); ("storage", "storage_unavailable"); ("forbidden", "contract_violation");
   ("unsupported_media_type", "unsupported_media_type")].

Definition blob_owner_for (owner : string) : string :=
  String.string_of_list_ascii (map (fun c => if code c =? 58 then ascii_of_nat 45 else c) (chars owner)).

Definition capability_names (spec : Registration) : outcome (list string) :=
  match spec with
  | RegV1 s => Ret (map Capability_value (v1_capabilities s))
  | RegV2 s => Ret (v2_capabilities s)
  | RegOther _ => Raise (AttributeError "capabilities")
  end.

Definition error_of (code message : string) : ErrorDetail :=
  {| err_code := code; err_message := message; err_retryable := retryable_code code |}.

Definition terminal (r : ExecutionRecord) : bool := is_terminal (x_state r).

Definition view_document (r : ExecutionRecord) : json :=
  JObj [("execution_id", JStr (x_execution_id r)); ("state", JStr (state_name (x_state r)));
        ("dispatch_state", JStr (dispatch_name (x_dispatch_state r)));
        ("compute_quiescent", if terminal r then JBool true else JNull);
        ("result", jopt blob_document (x_result r)); ("error", jopt error_body (x_error r));
        ("instance", jopt instance_document (x_instance r)); ("fence", fence_document (x_fence r))].

(** [xs | {x}] and [xs - {x}] on a list without repetition *)
Definition set_add (x : string) (xs : list string) : list string := if bool_decide (x ∈ xs) then xs else xs ++ [x].
Definition set_del (x : string) (xs : list string) : list string := filter (fun y => y ≠ x) xs.

Definition put_x (r : ExecutionRecord) (s : ExecutionService) : ExecutionService :=
  s <| svc_records := <[x_execution_id r := r]> (svc_records s) |>.
Definition set_x (r : ExecutionRecord) : pym ExecutionService unit := modify (put_x r).
Definition call (c : Call) : pym ExecutionService unit := modify (fun s => s <| svc_calls := svc_calls s ++ [c] |>).

(** [self.record(execution_id)] *)
Definition record_ (execution_id : string) : pym ExecutionService ExecutionRecord :=
  s ← get; lift (of_option (ExecutionError "not_found") (svc_records s !! execution_id)).

Definition when_ (b : bool) (m : pym ExecutionService unit) : pym ExecutionService unit := if b then m else mret tt.

Section Service.
Context `{PyEnv} `{Mac} (utc_timestamp : string → bool) (canonical_size : json → Z).

Definition view (r : ExecutionRecord) : outcome json :=
  _ ← parse_execution_view utc_timestamp (view_document r); mret (view_document r).

(** ** Settling *)

(** [self._idempotency.complete(...)], run on the store the service holds *)
Definition on_store {A} (dflt : A) (m : pym IdempotencyStore A) : pym ExecutionService A :=
  fun s => match svc_idempotency s with
           | None => (s, Ret dflt)
           | Some st => let (st', o) := m st in (s <| svc_idempotency := Some st' |>, o)
           end.

Definition finish_idempotency (r : ExecutionRecord) (wall : time) : pym ExecutionService unit :=
  match x_idempotency r with
  | None => mret tt
  | Some ref =>
      match view r with
      | Raise _ => mret tt (* swallowed *)
      | Ret doc =>
          catch (_ ← on_store 0%nat (complete ref 200 (Some (x_execution_id r)) (Some doc) None None wall); mret tt)
                (fun _ => Some (mret tt))
      end
  end.

Definition mark_settled (r : ExecutionRecord) (state : ExecState) (wall : time) : pym ExecutionService unit :=
  let r := r <| x_state := state |> <| x_settled := true |> in
  set_x r;; finish_idempotency r wall.

Definition mark_reason (code message : string) (r : ExecutionRecord) : ExecutionRecord :=
  match x_terminal_code r with
  | None => r <| x_terminal_code := Some code |> <| x_terminal_message := message |>
  | Some _ => r
  end.

(** [_evaluate]: [true] means fully settled. *)
Definition evaluate (r : ExecutionRecord) (wall : time) : pym ExecutionService bool :=
  if x_settled r || bool_decide (x_evidence r = None) then mret false
  else if x_cancel_pending r || bool_decide (is_Some (x_terminal_code r)) then
    let message := if String.eqb (x_terminal_message r) "" then "the execution ended without a result"
                   else x_terminal_message r in
    let r := r <| x_error := Some (error_of (str_or (x_terminal_code r) "backend_failed") message) |> in
    mark_settled r (if x_cancel_pending r then CANCELLED else EXEC_FAILED) wall;; mret true
  else match x_output_pending r with
       | Some _ =>
           match x_reservation r with
           | None =>
               mark_settled (r <| x_error := Some (error_of "backend_failed" "a result cannot publish without dispatch") |>)
                 EXEC_FAILED wall;; mret true
           | Some _ => set_x (r <| x_publishing := true |>);; mret false
           end
       | None => mret false
       end.

(** Store the record and evaluate it, the last two steps of most sections. *)
Definition set_evaluate (r : ExecutionRecord) (wall : time) : pym ExecutionService bool :=
  set_x r;; evaluate r wall.

Definition terminate_local (r : ExecutionRecord) (code message : string) (wall : time) : pym ExecutionService unit :=
  evidence ← lift (make_evidence {| ev_fence := x_fence r; ev_dispatch_state := not_started; ev_device_synchronized := false;
                                    ev_reason := Some code; ev_instance := None |});
  let r := r <| x_evidence := Some evidence |> <| x_error := Some (error_of code message) |> in
  mark_settled r (if bool_decide (code ∈ CANCEL_CODES) then CANCELLED else EXEC_FAILED) wall.

(** [if not record.settled: self._terminate_local(...)] under the lock *)
Definition terminate_unsettled (eid code message : string) (wall : time) : pym ExecutionService unit :=
  r ← record_ eid;
  if x_settled r then mret tt else terminate_local r code message wall.

(** [_cancel_reservation]; [answer] is what [cancel_output] returned (false also for a raise). *)
Definition cancel_reservation (r : ExecutionRecord) (answer : bool) : pym ExecutionService unit :=
  if bool_decide (x_reservation r = None) || bool_decide (is_Some (x_result r)) then mret tt
  else
    call (CallCancelOutput (x_execution_id r));;
    when_ answer (modify (fun s => s <| svc_pending_cleanup := set_add (x_output_blob_id r) (svc_pending_cleanup s) |>)).

Definition cancel_side_effects (r : ExecutionRecord) (answer : bool) : pym ExecutionService unit :=
  match x_lease r with
  | Some lease => call (CallCancelLease (x_execution_id r) lease)
  | None => mret tt
  end;;
  cancel_reservation r answer.

(** The record of a dispatched execution that is told to stop. *)
Definition cancelling (code message : string) (r : ExecutionRecord) : ExecutionRecord :=
  let r := mark_reason code message (r <| x_cancel_pending := true |>) in
  if terminal r then r else r <| x_state := CANCELLING |>.

(** ** Publishing: [_advance] and [_publish_and_settle] *)

(** What is written, when this caller is the one that publishes. *)
Definition publish_begin (eid : string) : pym ExecutionService bool :=
  r ← record_ eid;
  s ← get;
  if x_publishing r && negb (bool_decide (eid ∈ svc_publish_inflight s)) then
    modify (fun s => s <| svc_publish_inflight := set_add eid (svc_publish_inflight s) |>);;
    match x_output_pending r, x_reservation r with
    | Some body, Some _ => call (CallWriteOutput eid body)
    | _, _ => mret tt
    end;;
    mret true
  else mret false.

(** The answer of [write_output]. *)
Inductive WriteResult :=
| Written (blob : BlobRef)
| WriteRefused (code : string)
| WriteRaised
| NothingToWrite.

Definition write_failure (res : WriteResult) : option string :=
  match res with
  | Written _ => None
  | WriteRefused c => Some (if String.eqb c "cancelled" then "cancelled" else default "backend_failed" (assoc c BLOB_CODES))
  | WriteRaised => Some "storage_unavailable"
  | NothingToWrite => Some "backend_failed"
  end.

Definition add_cleanup (r : ExecutionRecord) : pym ExecutionService unit :=
  modify (fun s => s <| svc_pending_cleanup := set_add (x_output_blob_id r) (svc_pending_cleanup s) |>).

(** The locked section at the end of [_publish_and_settle]. *)
Definition publish_settle (r : ExecutionRecord) (res : WriteResult) (wall : time) : pym ExecutionService unit :=
  let r := r <| x_publishing := false |> <| x_output_pending := None |> in
  if x_settled r then set_x r
  else match res with
       | Written blob => mark_settled (r <| x_result := Some blob |>) SUCCEEDED wall
       | _ =>
           let failure := default "backend_failed" (write_failure res) in
           add_cleanup r;;
           if String.eqb failure "cancelled" then
             let error := match x_error r with
                          | Some e => e
                          | None => error_of "execution_timeout" "a late result is never published"
                          end in
             mark_settled (r <| x_cancel_pending := true |> <| x_error := Some error |>) CANCELLED wall
           else mark_settled (r <| x_error := Some (error_of failure "the result could not be published") |>) EXEC_FAILED wall
       end.

Definition publish_end (eid : string) (res : WriteResult) (wall : time) : pym ExecutionService unit :=
  modify (fun s => s <| svc_publish_inflight := set_del eid (svc_publish_inflight s) |>);;
  r ← record_ eid; publish_settle r res wall.

(** ** [_teardown], one section per resource *)
Definition teardown_lease (eid : string) : pym ExecutionService unit :=
  r ← record_ eid;
  match x_lease r with
  | Some lease =>
      if x_lease_released r then mret tt
      else set_x (r <| x_lease_released := true |>);;
           call (CallRelease eid lease (if bool_decide (x_state r = SUCCEEDED) then SUCCESS else REJECTED))
  | None => mret tt
  end.

Definition teardown_input (eid : string) : pym ExecutionService unit :=
  r ← record_ eid;
  when_ (x_input_open r && negb (x_input_closed r))
    (set_x (r <| x_input_closed := true |>);; call (CallCloseInput eid)).

(** [abandoned]: both blob store calls returned. *)
Definition teardown_output (eid : string) (abandoned : bool) : pym ExecutionService unit :=
  r ← record_ eid;
  when_ (bool_decide (is_Some (x_reservation r)) && negb (bool_decide (x_state r = SUCCEEDED)))
    (call (CallCancelOutput eid);;
     if abandoned
     then call (CallAbandonOutput eid);;
          modify (fun s => s <| svc_pending_cleanup := set_del (x_output_blob_id r) (svc_pending_cleanup s) |>)
     else add_cleanup r).

Definition teardown (eid : string) (abandoned : bool) : pym ExecutionService unit :=
  teardown_lease eid;; teardown_input eid;; teardown_output eid abandoned.

(** ** The public API *)
Record CreateRequest := {
  cr_operation : string;
  cr_input : ExecutionInput;
  cr_parameters : list (string * json);
  cr_idempotency_key : string;
}.

Definition uuid4_svc : pym ExecutionService string :=
  s ← get; modify (fun s => s <| svc_uuid_calls := S (svc_uuid_calls s) |>);; mret (uuid4_hex (svc_uuid_calls s)).

Definition refuse_ {A} (code : string) : pym ExecutionService A := raise (ExecutionError code).
Definition demand_ (ok : bool) (code : string) : pym ExecutionService unit := if ok then mret tt else refuse_ code.

Definition queued_of (s : ExecutionService) (session_id : string) : Z :=
  Z.of_nat (length (List.filter (fun r => String.eqb (x_session_id r) session_id && bool_decide (x_state r = QUEUED))
                      (values (svc_records s)))).

Definition new_execution (eid oid session_id model_id owner : string) (req : CreateRequest) (boot_id : string)
    (gen : Z) (deadline : time) (idem : option nat) : ExecutionRecord :=
  {| x_execution_id := eid; x_session_id := session_id; x_model_id := model_id; x_owner := owner;
     x_operation := cr_operation req; x_input := cr_input req; x_parameters := cr_parameters req;
     x_deadline := deadline;
     x_fence := {| f_boot_id := boot_id; f_model_id := model_id; f_generation := gen; f_operation_id := oid;
                   f_execution_id := Some eid; f_attempt := Some 1 |};
     x_output_blob_id := "o-" +:+ eid; x_state := QUEUED; x_error := None; x_terminal_code := None;
     x_terminal_message := ""; x_result := None; x_evidence := None; x_output_pending := None;
     x_publishing := false; x_dispatch_state := not_started; x_dispatch_started := false;
     x_dispatch_claimed := false; x_instance := None; x_lease := None; x_lease_released := false;
     x_reservation := None; x_input_open := false; x_input_closed := false; x_cancel_pending := false;
     x_settled := false; x_awaiting_quiescence := false; x_expected_instance := None; x_idempotency := idem |}.

(** The part of [submit] after the key was claimed. *)
Definition submit_claimed (sessions : SessionManager) (book : Book) (session : SessionRecord) (owner : string)
    (req : CreateRequest) (idem : option nat) (now wall : time) : pym ExecutionService json :=
  let session_id := s_session_id session in
  let model_id := s_model_id session in
  demand_ (bool_decide (s_phase session = ACTIVE)) "session_not_active";;
  demand_ (s_is_live sessions session_id now) "session_expired";;
  spec ← lift (of_option (KeyError model_id) (specs book !! model_id));
  capabilities ← lift (capability_names spec);
  demand_ (bool_decide (cr_operation req ∈ capabilities)) "capability_mismatch";;
  s ← get;
  demand_ (queued_of s session_id <? svc_queue_capacity s) "queue_full";;
  rt ← lift (runtime_of book model_id);
  demand_ (1 <=? generation rt) "session_not_active";;
  eid ← uuid4_svc;
  oid ← uuid4_svc;
  let deadline := Z.min (now + svc_wait_seconds s) (s_hard_deadline session) in
  let r := new_execution eid oid session_id model_id owner req (svc_boot_id s) (generation rt) deadline idem in
  set_x r;;
  doc ← lift (view r);
  match idem with
  | Some ref => _ ← on_store 0%nat (complete ref 202 (Some eid) (Some doc) (Some deadline) None wall); mret tt
  | None => mret tt
  end;;
  mret doc.

(** The state of the record behind a reference of the idempotency store. *)
Definition claim_state (ref : nat) : pym ExecutionService (option IdempotencyRecord) :=
  s ← get; mret (match svc_idempotency s with Some st => heap st !! ref | None => None end).

(** [except ExecutionError: if idem.state == PENDING: self._idempotency.fail(idem); raise] *)
Definition release_claim (ref : nat) : pym ExecutionService unit :=
  c ← claim_state ref;
  match c with
  | Some c => if bool_decide (i_state c = PENDING) then on_store tt (fail_ ref) else mret tt
  | None => mret tt
  end.

(** [submit]; [verified] is the answer of the token check, [payload] the canonical
    text of the request, [token_fp] the fingerprint of the session token. *)
Definition submit (sessions : SessionManager) (book : Book) (session_id owner : string) (req : CreateRequest)
    (verified : outcome unit) (payload : string) (token_fp : option string) (now wall : time)
    : pym ExecutionService json :=
  session ← catch (lift (s_get sessions session_id)) (fun _ => Some (refuse_ "not_found"));
  catch (lift verified) (fun e => match e with IdentityError c => Some (refuse_ c) | _ => None end);;
  demand_ (match in_blob (cr_input req) with Some b => String.eqb (blob_owner b) (blob_owner_for owner) | None => true end)
    "not_found";;
  s ← get;
  match svc_idempotency s with
  | None => submit_claimed sessions book session owner req None now wall
  | Some _ =>
      ref ← catch (on_store 0%nat (begin_ "execution.create" owner (cr_idempotency_key req) payload token_fp None wall))
              (fun e => match e with IdempotencyError c => Some (refuse_ c) | _ => None end);
      c ← claim_state ref;
      match c with
      | Some claim =>
          if bool_decide (i_state claim = COMPLETED) then
            s ← get;
            match svc_records s !! str_or (i_resource_id claim) "" with
            | Some original => lift (view original)
            | None => refuse_ "not_found"
            end
          else
            catch (submit_claimed sessions book session owner req (Some ref) now wall)
              (fun e => match e with ExecutionError c => Some (release_claim ref;; raise e) | _ => None end)
      | None => refuse_ "not_found"
      end
  end.

Definition owned (eid owner : string) : pym ExecutionService ExecutionRecord :=
  r ← record_ eid; demand_ (String.eqb (x_owner r) owner) "not_found";; mret r.

Definition view_of (eid owner : string) : pym ExecutionService json := r ← owned eid owner; lift (view r).

(** [cancel] up to the end of its locked section. *)
Definition cancel (eid owner : string) (verified : outcome unit) (answer : bool) (wall : time)
    : pym ExecutionService bool :=
  r ← owned eid owner;
  catch (lift verified) (fun e => match e with IdentityError c => Some (refuse_ c) | _ => None end);;
  if x_settled r then mret false
  else if negb (x_dispatch_started r) then terminate_local r "queue_timeout" "cancelled before dispatch" wall;; mret true
  else
    let r := cancelling "execution_timeout" "cancelled" r in
    set_x r;; cancel_side_effects r answer;; evaluate r wall.

Definition report_output (eid body : string) (answer : bool) (wall : time) : pym ExecutionService bool :=
  r ← record_ eid;
  if x_settled r then mret false
  else if x_cancel_pending r then
    let r := r <| x_output_pending := None |> in
    set_x r;; cancel_reservation r answer;; mret false
  else if x_publishing r then refuse_ "busy"
  else set_evaluate (r <| x_output_pending := Some body |>) wall.

(** [report_terminal]: [None] when the write-back rule refuses the report. *)
Definition report_terminal (eid : string) (evidence : TerminationEvidence) (wall : time)
    : pym ExecutionService (option bool) :=
  r ← record_ eid;
  if bool_decide (is_Some (writeback_decision (x_fence r) (ev_fence evidence))) then mret None
  else if bool_decide (ev_dispatch_state evidence = not_started) && bool_decide (x_dispatch_state r = dispatched)
  then mret None
  else if bool_decide (is_Some (x_evidence r)) then mret (Some false)
  else
    let r := r <| x_evidence := Some evidence |> in
    let r := if bool_decide (ev_dispatch_state evidence = dispatched)
             then r <| x_dispatch_state := dispatched |> <| x_instance := ev_instance evidence |> else r in
    b ← set_evaluate r wall; mret (Some b).

(** ** Dispatch *)

(** The locked scan of [_dispatch_loop]: who expires and who is claimed. *)
Definition dispatchable (s : ExecutionService) (session_id : string) (r : ExecutionRecord) : bool :=
  String.eqb (x_session_id r) session_id && negb (x_settled r) && negb (x_dispatch_started r)
  && negb (x_dispatch_claimed r) && bool_decide (x_state r = QUEUED)
  && negb (bool_decide (x_model_id r ∈ svc_quiescing s)).

Definition dispatch_scan (session_id : string) (now wall : time) : pym ExecutionService (list string * bool) :=
  s ← get;
  let waiting := List.filter (dispatchable s session_id) (values (svc_records s)) in
  let expired := List.filter (fun r => x_deadline r <=? now) waiting in
  let heads := List.filter (fun r => negb (x_deadline r <=? now)) waiting in
  for_each expired (fun r => terminate_local r "queue_timeout" "queue deadline elapsed" wall);;
  for_each heads (fun r => set_x (r <| x_dispatch_claimed := true |>));;
  s ← get;
  mret (map x_execution_id heads,
        existsb (fun r => String.eqb (x_session_id r) session_id && negb (x_settled r)) (values (svc_records s))).

Definition refence (s : ExecutionService) (r : ExecutionRecord) (gen : Z) : ExecutionRecord :=
  if gen =? f_generation (x_fence r) then r
  else r <| x_fence := {| f_boot_id := svc_boot_id s; f_model_id := x_model_id r; f_generation := gen;
                          f_operation_id := f_operation_id (x_fence r); f_execution_id := Some (x_execution_id r);
                          f_attempt := f_attempt (x_fence r) |} |>.

Definition MAX_INLINE_INPUT_BYTES : Z := 4 * 1024 * 1024.

(** [_pre_dispatch_guard]: the code and message of a refusal. *)
Definition pre_dispatch_guard (sessions : SessionManager) (book : Book) (eid : string) (now : time)
    : pym ExecutionService (option (string * string)) :=
  r ← record_ eid;
  if x_settled r then mret None
  else match s_get sessions (x_session_id r) with
  | Raise _ => mret (Some ("session_not_active", "the session is gone"))
  | Ret session =>
      if negb (bool_decide (s_phase session = ACTIVE)) || negb (s_is_live sessions (x_session_id r) now)
      then mret (Some ("session_expired", "the session is no longer live"))
      else
        spec ← lift (of_option (KeyError (x_model_id r)) (specs book !! x_model_id r));
        capabilities ← lift (capability_names spec);
        if negb (bool_decide (x_operation r ∈ capabilities))
        then mret (Some ("capability_mismatch", "the model no longer registers this operation"))
        else if match in_inline (x_input r) with Some v => MAX_INLINE_INPUT_BYTES <? canonical_size v | None => false end
        then mret (Some ("payload_too_large", "the inline input exceeds the protocol limit"))
        else
          rt ← lift (runtime_of book (x_model_id r));
          s ← get;
          set_x (refence s r (generation rt));; mret None
  end.

(** The read lease of a Blob input was taken. *)
Definition input_opened (eid : string) : pym ExecutionService unit :=
  r ← record_ eid; set_x (r <| x_input_open := true |>).

(** [str(exc.args[0])] *)
Definition exn_detail (e : exn) : string :=
  match e with
  | KeyError m | ValueError m | OverflowError m | TimeoutError m | AttributeError m | TypeError m | IndexError m
  | Conflict m | StaleOperation m | QueueFull m | Refused m | GatewayError _ m _ _ | BodyError _ m | RuntimeError m | ModelUnavailable m | SessionConflict m | SessionNotFound m
  | ContractError m | IdentityError m | IdempotencyError m | ExecutionError m | EnvelopeError m | QuotaExceeded m
  | BackendRouterError m | BlobStoreError m | LaunchRenderError m | ObservationError m | SubprocessError m | AssetFault m | AssetTimeout m | UnicodeDecodeError m
  | LlamaSwapError m | LlamaSwapProtocolError m | FixtureError m | HTTPError m | AdapterError m | RuntimeCompositionError m | DeployError m
  | ConfigError m | MigrationError m | RunnerError m | PreflightError m _ | EvaluatorError m | CalibrationError m _ | LiveError m _ | CandidateError m | VerifyError m _ | ControlServerError m | InstanceLocked m | EvidenceError m | OSError m => m
  | MissingInventory _ _ => "migration inventory is incomplete or conflicts with the v1 configuration"
  | CancelledError | PowerLoss => ""
  end.

(** ["storage" in detail] *)
Fixpoint mentions (word : string) (l : list ascii) : bool :=
  bool_decide (firstn (String.length word) l = chars word)
  || match l with [] => false | _ :: l => mentions word l end.

(** How [_admit] ends an execution the scheduler refused; [None] asks for a retry. *)
Definition admission_refusal (e : exn) : option (string * string) :=
  let detail := exn_detail e in
  match e with
  | TimeoutError _ => Some ("queue_timeout", "queue deadline elapsed")
  | SessionConflict m => Some (if known_code m then m else "session_not_active", "the session is no longer active")
  | _ => if String.eqb detail "session_slots_exhausted" then None
         else Some (if known_code detail then detail
                    else if mentions "storage" (chars detail) then "storage_unavailable" else "temporarily_unavailable",
                    "admission refused the execution")
  end.

Definition admission_refused (eid : string) (e : exn) (wall : time) : pym ExecutionService unit :=
  match admission_refusal e with
  | None => r ← record_ eid; set_x (r <| x_dispatch_claimed := false |>)
  | Some (code, message) => terminate_unsettled eid code message wall
  end.

(** The section after a granted lease; [true] when the record was settled meanwhile. *)
Definition admitted (eid : string) (lease : Lease) : pym ExecutionService bool :=
  r ← record_ eid;
  s ← get;
  if x_settled r then mret true
  else set_x (refence s (r <| x_lease := Some lease |>) (lease_generation lease));; mret false.

(** The section after the output was reserved under [fence]; [true] when it is discarded. *)
Definition dispatch_commit (eid : string) (fence : Fence) (reservation : string) : pym ExecutionService bool :=
  r ← record_ eid;
  if x_settled r || negb (bool_decide (x_fence r = fence)) then mret true
  else
    let r := r <| x_reservation := Some reservation |> <| x_dispatch_started := true |> in
    set_x (if terminal r then r else r <| x_state := RUNNING |>);; mret false.

(** ** The end of a dispatched computation *)

(** The record with the handle's identity and the adapter's result. *)
Definition with_handle (r : ExecutionRecord) (instance : InstanceIdentity) (body : option string) : ExecutionRecord :=
  let r := r <| x_instance := Some instance |> <| x_dispatch_state := dispatched |> in
  match body with
  | None => r
  | Some b => if x_cancel_pending r then r <| x_output_pending := None |>
              else if x_publishing r then r
              else r <| x_output_pending := Some b |>
  end.

(** The locked section of [_after_execute] with the handle of the backend. *)
Definition after_execute (eid : string) (instance : InstanceIdentity) (body : option string) (claims_quiescence answer : bool)
    (wall : time) : pym ExecutionService bool :=
  r ← record_ eid;
  s ← get;
  if x_settled r then mret false
  else
    let r := with_handle r instance body in
    set_x r;;
    when_ (bool_decide (is_Some body) && x_cancel_pending r) (cancel_reservation r answer);;
    if negb (svc_managed s) then evaluate r wall
    else if negb claims_quiescence then set_evaluate (r <| x_awaiting_quiescence := true |>) wall
    else match x_evidence r with
         | Some _ => evaluate r wall
         | None =>
             e ← lift (make_evidence {| ev_fence := x_fence r; ev_dispatch_state := dispatched;
                                        ev_device_synchronized := true; ev_reason := Some "request_protocol_terminated";
                                        ev_instance := Some instance |});
             set_evaluate (r <| x_evidence := Some e |>) wall
         end.

Definition on_timeout (eid : string) (answer : bool) (wall : time) : pym ExecutionService bool :=
  r ← record_ eid;
  if x_settled r then mret false
  else
    let r := cancelling "execution_timeout" "execution deadline elapsed" r in
    set_x r;; cancel_side_effects r answer;; evaluate r wall.

(** [_terminate_uncertain]; [identity] is the adapter's current identity. *)
Definition terminate_uncertain (eid message : string) (identity : option InstanceIdentity) (answer : bool) (wall : time)
    : pym ExecutionService bool :=
  r ← record_ eid;
  s ← get;
  if x_settled r then mret false
  else
    let r := mark_reason "backend_failed" message r in
    let r := if terminal r then r else r <| x_state := CANCELLING |> in
    let r := if svc_managed s && x_dispatch_started r then
               let r := r <| x_awaiting_quiescence := true |> in
               match x_instance r with None => r <| x_expected_instance := identity |> | Some _ => r end
             else r in
    set_x r;; cancel_side_effects r answer;; evaluate r wall.

(** ** Managed termination *)
Definition inflight_of (model_id : string) (r : ExecutionRecord) : bool :=
  String.eqb (x_model_id r) model_id && negb (x_settled r) && negb (x_awaiting_quiescence r)
  && (x_dispatch_started r || x_dispatch_claimed r || bool_decide (is_Some (x_lease r))).
Definition awaiting_of (model_id : string) (r : ExecutionRecord) : bool :=
  String.eqb (x_model_id r) model_id && negb (x_settled r) && x_dispatch_started r && x_awaiting_quiescence r.

(** The locked part of a turn of [_quiesce_model]: [None] when the batch is done,
    otherwise the executions one proven stop may settle now. *)
Definition quiesce_scan (model_id : string) : pym ExecutionService (option (list string)) :=
  s ← get;
  let inflight := List.filter (inflight_of model_id) (values (svc_records s)) in
  let batch := List.filter (awaiting_of model_id) (values (svc_records s)) in
  if bool_decide (batch = []) && bool_decide (inflight = []) then
    modify (fun s => s <| svc_quiescing := set_del model_id (svc_quiescing s) |>);; mret None
  else
    modify (fun s => s <| svc_quiescing := set_add model_id (svc_quiescing s) |>);;
    mret (Some (if bool_decide (inflight = []) then map x_execution_id batch else [])).

Definition release_quiescence_lease (eid : string) : pym ExecutionService unit :=
  r ← record_ eid;
  match x_lease r with
  | Some lease =>
      if x_lease_released r then mret tt
      else set_x (r <| x_lease_released := true |>);;
           call (CallRelease eid lease
                   (if bool_decide (x_error r = None) && negb (x_cancel_pending r) then SUCCESS else REJECTED))
  | None => mret tt
  end.

Definition settle_with_stopped_proof (eid : string) (wall : time) : pym ExecutionService bool :=
  r ← record_ eid;
  if x_settled r || bool_decide (is_Some (x_evidence r)) then mret false
  else match (match x_instance r with Some i => Some i | None => x_expected_instance r end) with
  | None => mret false
  | Some instance =>
      e ← lift (make_evidence {| ev_fence := x_fence r; ev_dispatch_state := dispatched; ev_device_synchronized := true;
                                 ev_reason := Some "independent_STOPPED"; ev_instance := Some instance |});
      let r := r <| x_evidence := Some e |> in
      let r := match x_dispatch_state r with
               | dispatched => r
               | not_started => r <| x_dispatch_state := dispatched |> <| x_instance := Some instance |>
               end in
      set_evaluate r wall
  end.

(** [_on_session_draining]; [answer] is what [cancel_output] returned for each execution. *)
Definition drain_one (wall : time) (answer : string → bool) (r : ExecutionRecord) : pym ExecutionService (list string) :=
  if negb (x_dispatch_started r) then
    terminate_local r "queue_timeout" "the session closed before dispatch" wall;; mret [x_execution_id r]
  else
    let r := cancelling "session_expired" "the session closed while the execution ran" r in
    set_x r;; cancel_side_effects r (answer (x_execution_id r));;
    settled ← evaluate r wall; mret (if settled : bool then [x_execution_id r] else []).

Definition session_draining (session_id : string) (answer : string → bool) (wall : time)
    : pym ExecutionService (list string) :=
  s ← get;
  out ← map_each (List.filter (fun r => String.eqb (x_session_id r) session_id && negb (x_settled r)) (values (svc_records s)))
          (drain_one wall answer);
  mret (concat out).
End Service.
