(* ===== verification/ExecutionProps.v ===== *)
(** * Trusted terminals

    The invariant of the execution service and three consequences: no terminal
    state without evidence, a terminal never changes, a lease is released once. *)

From S2P Require Import Prelude Text Dict Env Contracts Registry Sessions Registration Protocol JsonText Identity Idempotency Execution.
From Stdlib Require Import Ascii.
Local Open Scope Z_scope.

(** ** The invariant *)
Record record_wf (r : ExecutionRecord) : Prop := {
  xw_settled : x_settled r = is_terminal (x_state r);
  xw_evidence : is_terminal (x_state r) = true → is_Some (x_evidence r);
  xw_success : x_state r = SUCCEEDED → is_Some (x_result r) ∧ x_error r = None;
  xw_failure : x_state r = Protocol.FAILED ∨ x_state r = CANCELLED → is_Some (x_error r) ∧ x_result r = None;
  xw_open : is_terminal (x_state r) = false → x_error r = None ∧ x_result r = None;
  xw_instance : x_dispatch_state r = dispatched ↔ is_Some (x_instance r);
  xw_publishing : x_publishing r = true → is_Some (x_evidence r);
  xw_released : x_lease_released r = true → is_Some (x_lease r);
  xw_fence : f_execution_id (x_fence r) = Some (x_execution_id r) ∧ is_Some (f_attempt (x_fence r));
}.

Definition releases (eid : string) (calls : list Call) : Z :=
  Z.of_nat (length (List.filter (fun c => match c with CallRelease e _ _ => String.eqb e eid | _ => false end) calls)).

Definition released_count (o : option ExecutionRecord) : Z :=
  match o with Some r => if x_lease_released r then 1 else 0 | None => 0 end.

Section Service.
Context `{PE : PyEnv} `{PL : !PyEnvLaws} `{MC : Mac} (utc_timestamp : string → bool) (canonical_size : json → Z).

Record svc_wf (s : ExecutionService) : Prop := {
  sw_nodup : dict_nodup (svc_records s);
  sw_record : ∀ eid r, svc_records s !! eid = Some r → x_execution_id r = eid ∧ record_wf r;
  sw_id : ∀ eid r, svc_records s !! eid = Some r → ∃ i, (i < svc_uuid_calls s)%nat ∧ eid = uuid4_hex i;
  sw_inflight : ∀ eid, eid ∈ svc_publish_inflight s → ∃ r, svc_records s !! eid = Some r ∧ is_Some (x_evidence r);
  sw_releases : ∀ eid, releases eid (svc_calls s) = released_count (svc_records s !! eid);
}.

(** A settled record keeps its outcome. *)
Definition outcome_of (r : ExecutionRecord) :=
  (x_state r, x_result r, x_error r, x_evidence r, x_dispatch_state r, x_instance r).
Definition keeps (r r' : ExecutionRecord) : Prop :=
  x_settled r = true → x_settled r' = true ∧ outcome_of r' = outcome_of r.
Definition monotone (s s' : ExecutionService) : Prop :=
  ∀ eid r, svc_records s !! eid = Some r → ∃ r', svc_records s' !! eid = Some r' ∧ keeps r r'.

Definition sound (s s' : ExecutionService) : Prop := svc_wf s → svc_wf s' ∧ monotone s s'.

Lemma keeps_refl r : keeps r r.
Proof. by split. Qed.
Lemma monotone_refl s : monotone s s.
Proof. intros eid r Hr. exists r. split; [done|apply keeps_refl]. Qed.
Lemma monotone_trans s1 s2 s3 : monotone s1 s2 → monotone s2 s3 → monotone s1 s3.
Proof.
  intros H12 H23 eid r Hr. destruct (H12 _ _ Hr) as (r2 & Hr2 & K2). destruct (H23 _ _ Hr2) as (r3 & Hr3 & K3).
  exists r3. split; [done|]. intros Hs. destruct (K2 Hs) as [Hs2 E2]. destruct (K3 Hs2) as [Hs3 E3]. split; congruence.
Qed.
Lemma sound_refl s : sound s s.
Proof. intros Hw. split; [done|apply monotone_refl]. Qed.
Lemma sound_trans s1 s2 s3 : sound s1 s2 → sound s2 s3 → sound s1 s3.
Proof.
  intros H12 H23 Hw. destruct (H12 Hw) as [Hw2 M12]. destruct (H23 Hw2) as [Hw3 M23].
  split; [done|by eapply monotone_trans].
Qed.

(** Everything but the records, the calls, the counter and the in-flight set. *)
Lemma sound_same s s' :
  svc_records s' = svc_records s → svc_calls s' = svc_calls s → svc_uuid_calls s' = svc_uuid_calls s →
  svc_publish_inflight s' = svc_publish_inflight s → sound s s'.
Proof.
  intros Hr Hc Hu Hp [G0 G1 G2 G3 G4]. split.
  - split; rewrite ?Hr, ?Hc, ?Hu, ?Hp; assumption.
  - intros eid r E. exists r. rewrite Hr. split; [done|apply keeps_refl].
Qed.

(** The record the section works on is the one on file. *)
Definition holds (s : ExecutionService) (r : ExecutionRecord) : Prop := svc_records s !! x_execution_id r = Some r.

(** A rewrite of one record that keeps the invariant, the outcome and the lease flag. *)
Record rewrites (r r' : ExecutionRecord) : Prop := {
  rw_id : x_execution_id r' = x_execution_id r;
  rw_wf : record_wf r → record_wf r';
  rw_keeps : keeps r r';
  rw_lease : x_lease_released r' = x_lease_released r;
  rw_evidence : is_Some (x_evidence r) → is_Some (x_evidence r');
}.

Lemma rewrites_refl r : rewrites r r.
Proof. split; try done. Qed.
Lemma rewrites_trans r1 r2 r3 : rewrites r1 r2 → rewrites r2 r3 → rewrites r1 r3.
Proof.
  intros [I1 W1 K1 L1 E1] [I2 W2 K2 L2 E2]. split; [congruence|auto| |congruence|auto].
  intros Hs. destruct (K1 Hs) as [Hs1 O1]. destruct (K2 Hs1) as [Hs2 O2]. split; congruence.
Qed.

Lemma holds_put s r r' : x_execution_id r' = x_execution_id r → holds (put_x r' s) r'.
Proof. intros E. unfold holds, put_x; simpl. by rewrite dict_lookup_insert_eq. Qed.

Lemma sound_put s r r' : holds s r → rewrites r r' → sound s (put_x r' s).
Proof.
  intros Hh [Hid Hwf Hk Hl He] [G0 G1 G2 G3 G4].
  destruct (G1 _ _ Hh) as [_ Hr]. split.
  - split; unfold put_x; simpl; [by apply dict_nodup_insert|..].
    + intros eid r0. rewrite dict_lookup_insert. case_decide as Hd; [|apply G1].
      intros [= <-]. split; [done|by apply Hwf].
    + intros eid r0. rewrite dict_lookup_insert. case_decide as Hd; [|apply G2].
      intros _. apply (G2 _ r). unfold holds in Hh. by rewrite <-Hd, Hid.
    + intros eid Hin. destruct (G3 _ Hin) as (r0 & Hr0 & Hev). rewrite dict_lookup_insert. case_decide as Hd; [|by eauto].
      exists r'. split; [done|]. apply He. unfold holds in Hh. rewrite <-Hid, Hd, Hr0 in Hh. by simplify_eq.
    + intros eid. rewrite dict_lookup_insert, G4. case_decide as Hd; [|done]. simpl.
      rewrite <-Hd, Hid. unfold holds in Hh. rewrite Hh. simpl. by rewrite Hl.
  - intros eid r0 Hr0. unfold put_x; simpl. rewrite dict_lookup_insert. case_decide as Hd.
    + exists r'. split; [done|]. unfold holds in Hh. rewrite <-Hid, Hd, Hr0 in Hh. by simplify_eq.
    + exists r0. split; [done|apply keeps_refl].
Qed.

(** ** Sections: sound, and confined to their record, when the record they work on
    is the one on file *)
Definition ok_from {A} (r : ExecutionRecord) (m : pym ExecutionService A) : Prop :=
  ∀ s, record_wf r → holds s r →
    sound s (m s).1 ∧ ∀ eid, eid ≠ x_execution_id r → svc_records (m s).1 !! eid = svc_records s !! eid.
Definition ok {A} (m : pym ExecutionService A) : Prop := ∀ s, sound s (m s).1.

(** A computation that leaves the records, the counter, the in-flight set and the
    releases alone. *)
Definition neutral {A} (m : pym ExecutionService A) : Prop :=
  ∀ s, svc_records (m s).1 = svc_records s ∧ svc_uuid_calls (m s).1 = svc_uuid_calls s ∧
       svc_publish_inflight (m s).1 = svc_publish_inflight s ∧
       ∀ eid, releases eid (svc_calls (m s).1) = releases eid (svc_calls s).

Lemma neutral_sound {A} (m : pym ExecutionService A) : neutral m → ok m.
Proof.
  intros Hn s [G0 G1 G2 G3 G4]. destruct (Hn s) as (Hr & Hu & Hp & Hc). split.
  - split; rewrite ?Hr, ?Hu, ?Hp; try assumption. intros eid. by rewrite Hc, G4.
  - intros eid r E. exists r. rewrite Hr. split; [done|apply keeps_refl].
Qed.

Lemma neutral_bind {A B} (m : pym ExecutionService A) (k : A → pym ExecutionService B) :
  neutral m → (∀ a, neutral (k a)) → neutral (m ≫= k).
Proof.
  intros Hm Hk s. specialize (Hm s). unfold mbind, pym_bind. destruct (m s) as [s1 [a|e]]; simpl in *; [|done].
  destruct Hm as (R1 & U1 & P1 & C1). destruct (Hk a s1) as (R2 & U2 & P2 & C2).
  split_and!; [congruence..|]. intros eid. by rewrite C2, C1.
Qed.

Lemma neutral_ret {A} (a : A) : neutral (mret a).
Proof. by intros s. Qed.
Lemma neutral_lift {A} (o : outcome A) : neutral (lift o).
Proof. by intros s. Qed.
Lemma neutral_get : neutral get.
Proof. by intros s. Qed.

Lemma releases_app eid l c :
  releases eid (l ++ [c]) = releases eid l + match c with CallRelease e _ _ => if String.eqb e eid then 1 else 0 | _ => 0 end.
Proof.
  unfold releases. rewrite List.filter_app, length_app. simpl.
  destruct c as [e l' o| | | | |]; simpl; [destruct (String.eqb e eid); simpl|..]; lia.
Qed.

Lemma neutral_call c : match c with CallRelease _ _ _ => False | _ => True end → neutral (call c).
Proof. intros Hc s. split_and!; [done..|]. intros eid. simpl. rewrite releases_app. destruct c; [done|lia..]. Qed.

Lemma neutral_cleanup (f : list string → list string) :
  neutral (modify (fun s : ExecutionService => s <| svc_pending_cleanup := f (svc_pending_cleanup s) |>)).
Proof. by intros s. Qed.
Lemma neutral_quiescing (f : list string → list string) :
  neutral (modify (fun s : ExecutionService => s <| svc_quiescing := f (svc_quiescing s) |>)).
Proof. by intros s. Qed.
Lemma neutral_when b m : neutral m → neutral (when_ b m).
Proof. intros Hm. destruct b; [done|apply neutral_ret]. Qed.
Lemma neutral_on_store {A} (d : A) m : neutral (on_store d m).
Proof. intros s. unfold on_store. destruct (svc_idempotency s) as [st|]; [|done]. by destruct (m st). Qed.
Lemma neutral_catch {A} (m : pym ExecutionService A) h : neutral m → (∀ e k, h e = Some k → neutral k) → neutral (catch m h).
Proof.
  intros Hm Hh s. specialize (Hm s). unfold catch. destruct (m s) as [s1 [a|e]]; simpl in *; [done|].
  destruct (h e) as [k|] eqn:E; [|done]. destruct Hm as (R1 & U1 & P1 & C1). destruct (Hh _ _ E s1) as (R2 & U2 & P2 & C2).
  split_and!; [congruence..|]. intros eid. by rewrite C2, C1.
Qed.

Lemma neutral_finish r wall : neutral (finish_idempotency utc_timestamp r wall).
Proof.
  unfold finish_idempotency. repeat case_match; try apply neutral_ret.
  apply neutral_catch; [|intros e k [= <-]; apply neutral_ret].
  apply neutral_bind; [apply neutral_on_store|intros _; apply neutral_ret].
Qed.

Lemma neutral_cancel_reservation r a : neutral (cancel_reservation r a).
Proof.
  unfold cancel_reservation. case_match; [apply neutral_ret|].
  apply neutral_bind; [by apply neutral_call|intros _]. apply neutral_when, neutral_cleanup.
Qed.

Lemma neutral_cancel_side_effects r a : neutral (cancel_side_effects r a).
Proof.
  unfold cancel_side_effects. apply neutral_bind; [|intros _; apply neutral_cancel_reservation].
  case_match; [by apply neutral_call|apply neutral_ret].
Qed.

(** *** Composition *)
Lemma ok_neutral {A} r (m : pym ExecutionService A) : neutral m → ok_from r m.
Proof. intros Hm s _ _. split; [by apply neutral_sound|]. intros eid _. by rewrite (proj1 (Hm s)). Qed.

Lemma ok_neutral_bind {A B} r (m : pym ExecutionService A) (k : A → pym ExecutionService B) :
  neutral m → (∀ a, ok_from r (k a)) → ok_from r (m ≫= k).
Proof.
  intros Hm Hk s Hwf Hh. pose proof (neutral_sound m Hm s) as Hs. destruct (Hm s) as (HR & _).
  unfold mbind, pym_bind. destruct (m s) as [s1 [a|e]]; simpl in *; [|by rewrite HR].
  destruct (Hk a s1 Hwf) as [Hs1 Hf]; [unfold holds; by rewrite HR|].
  split; [by eapply sound_trans|]. intros eid Hne. by rewrite Hf, HR.
Qed.

Lemma ok_set r r' : (record_wf r → rewrites r r') → ok_from r (set_x r').
Proof.
  intros Hrw s Hwf Hh. specialize (Hrw Hwf). split; [by apply (sound_put s r r')|].
  intros eid Hne. simpl. apply dict_lookup_insert_ne. rewrite (rw_id _ _ Hrw). done.
Qed.

Lemma ok_set_bind {B} r r' (k : unit → pym ExecutionService B) :
  (record_wf r → rewrites r r') → ok_from r' (k tt) → ok_from r (set_x r' ≫= k).
Proof.
  intros Hrw Hk s Hwf Hh. destruct (ok_set r r' Hrw s Hwf Hh) as [Hs Hf]. specialize (Hrw Hwf).
  unfold mbind, pym_bind. cbn [set_x modify]. cbn [fst set_x modify] in Hs, Hf.
  destruct (Hk (put_x r' s)) as [Hs2 Hf2]; [by apply Hrw|eapply holds_put, Hrw|].
  split; [by eapply sound_trans|]. intros eid Hne. rewrite Hf2 by (by rewrite (rw_id _ _ Hrw)). by apply Hf.
Qed.

Lemma ok_then {A B} r (m : pym ExecutionService A) (f : A → B) : ok_from r m → ok_from r (x ← m; mret (f x)).
Proof.
  intros Hm s Hwf Hh. specialize (Hm s Hwf Hh). unfold mbind, pym_bind. by destruct (m s) as [s1 [a|e]].
Qed.

Lemma ok_ret {A} r (a : A) : ok_from r (mret a).
Proof. intros s _ _. split; [apply sound_refl|done]. Qed.
Lemma ok_raise {A} r e : ok_from r (raise e : pym ExecutionService A).
Proof. intros s _ _. split; [apply sound_refl|done]. Qed.

Lemma sound_record {A} eid (k : ExecutionRecord → pym ExecutionService A) :
  (∀ r s, x_execution_id r = eid → record_wf r → holds s r → sound s (k r s).1) → ok (record_ eid ≫= k).
Proof.
  intros Hk s Hw. unfold record_. run_unfold. destruct (svc_records s !! eid) as [r|] eqn:E; [|by apply sound_refl].
  destruct (sw_record s Hw _ _ E) as [Hid Hwf]. apply (Hk r s Hid); [done| |done]. unfold holds. by rewrite Hid.
Qed.

Lemma ok_record {A} eid (k : ExecutionRecord → pym ExecutionService A) :
  (∀ r, x_execution_id r = eid → ok_from r (k r)) → ok (record_ eid ≫= k).
Proof. intros Hk. apply sound_record. intros r s Hid Hwf Hh. by apply Hk. Qed.

(** *** Settling *)
Lemma ok_mark r r' st wall :
  (record_wf r → rewrites r (r' <| x_state := st |> <| x_settled := true |>)) → ok_from r (mark_settled utc_timestamp r' st wall).
Proof.
  intros Hrw. unfold mark_settled. apply ok_set_bind; [done|]. apply ok_neutral, neutral_finish.
Qed.

(** A rewrite of an unsettled record only has to keep the invariant. *)
Lemma rewrites_unsettled r r' :
  x_settled r = false → x_execution_id r' = x_execution_id r → x_lease_released r' = x_lease_released r →
  (is_Some (x_evidence r) → is_Some (x_evidence r')) → record_wf r' → rewrites r r'.
Proof. intros Hs Hid Hl He Hwf. split; try done. intros Ht. congruence. Qed.

Lemma unsettled_open r : record_wf r → x_settled r = false →
  is_terminal (x_state r) = false ∧ x_error r = None ∧ x_result r = None.
Proof. intros Hw Hs. rewrite (xw_settled r Hw) in Hs. split; [done|by apply (xw_open r Hw)]. Qed.

(** Close [record_wf r → rewrites r r'] for an unsettled [r] whose fields in [r'] are plain. *)
Ltac open_rewrite :=
  let Hw := fresh "Hw" in
  intros Hw;
  match goal with Hs : x_settled ?r = false |- _ =>
    destruct (unsettled_open r Hw Hs) as (? & ? & ?) end;
  apply rewrites_unsettled; [done|reflexivity|reflexivity|simpl; eauto|];
  destruct Hw as [? ? ? ? ? ? ? ? [? ?]]; split; simpl in *; try tauto; try congruence; try (intros [?|?]; discriminate); try (split; [by eexists|done]); eauto.

Lemma ok_evaluate r wall : ok_from r (evaluate utc_timestamp r wall).
Proof.
  unfold evaluate. destruct (x_settled r) eqn:Hs; simpl; [apply ok_ret|].
  destruct (bool_decide_reflect (x_evidence r = None)) as [|He]; [apply ok_ret|].
  assert (is_Some (x_evidence r)) as Hev by (destruct (x_evidence r); [by eexists|done]).
  destruct (x_cancel_pending r || bool_decide (is_Some (x_terminal_code r))) eqn:Hc.
  - apply (ok_then _ _ (fun _ => true)). apply ok_mark. destruct (x_cancel_pending r); open_rewrite.
  - destruct (x_output_pending r); [|apply ok_ret]. destruct (x_reservation r).
    + apply (ok_then _ _ (fun _ => false)). apply ok_set. open_rewrite.
    + apply (ok_then _ _ (fun _ => true)). apply ok_mark. open_rewrite.
Qed.

Lemma ok_set_evaluate r r' wall : (record_wf r → rewrites r r') → ok_from r (set_evaluate utc_timestamp r' wall).
Proof. intros Hrw. apply ok_set_bind; [done|]. apply ok_evaluate. Qed.

Lemma ok_terminate_local r code message wall :
  x_settled r = false → ok_from r (terminate_local utc_timestamp r code message wall).
Proof.
  intros Hs. unfold terminate_local. apply ok_neutral_bind; [apply neutral_lift|]. intros e.
  apply ok_mark. case_match; open_rewrite.
Qed.

Lemma ok_terminate_unsettled eid code message wall : ok (terminate_unsettled utc_timestamp eid code message wall).
Proof.
  apply ok_record. intros r _. destruct (x_settled r) eqn:Hs; [apply ok_ret|by apply ok_terminate_local].
Qed.

Lemma cancelling_rewrites c m r : x_settled r = false → record_wf r → rewrites r (cancelling c m r).
Proof.
  intros Hs Hw. destruct (unsettled_open r Hw Hs) as (Ht & _). revert Hw.
  unfold cancelling, mark_reason, terminal. simpl. destruct (x_terminal_code r); simpl; rewrite Ht; open_rewrite.
Qed.

(** The shared tail of the sections that tell a dispatched execution to stop. *)
Lemma ok_stop r r' answer wall :
  (record_wf r → rewrites r r') → ok_from r (set_x r';; cancel_side_effects r' answer;; evaluate utc_timestamp r' wall).
Proof.
  intros Hrw. apply ok_set_bind; [done|].
  apply ok_neutral_bind; [apply neutral_cancel_side_effects|]. intros _. apply ok_evaluate.
Qed.

Lemma ok_from_demand {A} r b c (k : unit → pym ExecutionService A) :
  (b = true → ok_from r (k tt)) → ok_from r (demand_ b c ≫= k).
Proof. intros Hk. destruct b; [by apply Hk|]. intros s _ _. split; [apply sound_refl|done]. Qed.

Lemma neutral_check (verified : outcome unit) :
  neutral (catch (lift verified) (fun e => match e with IdentityError c => Some (refuse_ c) | _ => None end)).
Proof. apply neutral_catch; [apply neutral_lift|]. intros e k Hk. destruct e; simplify_eq. by intros s. Qed.

Lemma ok_owned {A} eid owner (k : ExecutionRecord → pym ExecutionService A) :
  (∀ r, x_execution_id r = eid → ok_from r (k r)) → ok (owned eid owner ≫= k).
Proof.
  intros Hk s. unfold owned, record_. intros Hw. run_unfold.
  destruct (svc_records s !! eid) as [r|] eqn:E; simpl; [|by apply sound_refl].
  unfold demand_. destruct (String.eqb (x_owner r) owner); simpl; [|by apply sound_refl].
  destruct (sw_record s Hw _ _ E) as [Hid Hwf]. apply (Hk r Hid); [done| |done]. unfold holds. by rewrite Hid.
Qed.

Lemma ok_cancel eid owner verified answer wall : ok (cancel utc_timestamp eid owner verified answer wall).
Proof.
  apply ok_owned. intros r _. apply ok_neutral_bind; [apply neutral_check|]. intros _.
  destruct (x_settled r) eqn:Hs; [apply ok_ret|]. case_match.
  - apply (ok_then _ _ (fun _ => true)). by apply ok_terminate_local.
  - apply ok_stop. by apply cancelling_rewrites.
Qed.

Lemma ok_report_output eid body answer wall : ok (report_output utc_timestamp eid body answer wall).
Proof.
  apply ok_record. intros r _. destruct (x_settled r) eqn:Hs; [apply ok_ret|].
  destruct (x_cancel_pending r) eqn:Hc.
  - apply ok_set_bind; [open_rewrite|]. apply ok_neutral_bind; [apply neutral_cancel_reservation|]. intros _. apply ok_ret.
  - destruct (x_publishing r); [apply ok_raise|]. apply ok_set_evaluate. open_rewrite.
Qed.

Lemma ok_report_terminal eid e wall :
  make_evidence e = Ret e → ok (report_terminal utc_timestamp eid e wall).
Proof.
  intros He. apply ok_record. intros r _.
  case_match; [apply ok_ret|]. case_match; [apply ok_ret|].
  destruct (bool_decide_reflect (is_Some (x_evidence r))) as [|Hn]; [apply ok_ret|].
  apply (ok_then _ _ Some). apply ok_set_evaluate. intros Hw.
  assert (x_settled r = false) as Hs.
  { destruct (x_settled r) eqn:Hs; [|done]. exfalso. apply Hn, (xw_evidence r Hw). by rewrite <-(xw_settled r Hw). }
  revert Hw. destruct (bool_decide_reflect (ev_dispatch_state e = dispatched)) as [Hd|_]; [|open_rewrite].
  assert (is_Some (ev_instance e)) as Hi.
  { unfold make_evidence in He. rewrite Hd in He. revert He. unfold require. run_unfold.
    repeat (case_match; try done); bool_prop; tauto. }
  open_rewrite.
Qed.

(** *** Publishing *)
Lemma elem_of_set_add x y l : x ∈ set_add y l → x = y ∨ x ∈ l.
Proof. unfold set_add. case_bool_decide; [by right|]. rewrite elem_of_app, list_elem_of_singleton. tauto. Qed.
Lemma elem_of_set_del x y l : x ∈ set_del y l → x ∈ l.
Proof. unfold set_del. by intros [_ ?]%list_elem_of_filter. Qed.

Lemma sound_inflight s f :
  (svc_wf s → ∀ eid, eid ∈ f (svc_publish_inflight s) →
     eid ∈ svc_publish_inflight s ∨ ∃ r, svc_records s !! eid = Some r ∧ is_Some (x_evidence r)) →
  sound s (s <| svc_publish_inflight := f (svc_publish_inflight s) |>).
Proof.
  intros Hf Hw. specialize (Hf Hw). split; [|intros eid r E; exists r; split; [done|apply keeps_refl]].
  destruct Hw as [G0 G1 G2 G3 G4]. split; simpl; try done. intros eid Hin. destruct (Hf eid Hin); auto.
Qed.

Lemma ok_publish_begin eid : ok (publish_begin eid).
Proof.
  intros s Hw. unfold publish_begin, record_. run_unfold.
  destruct (svc_records s !! eid) as [r|] eqn:E; simpl; [|by apply sound_refl].
  destruct (x_publishing r && _) eqn:Hp; [|by apply sound_refl]. apply andb_true_iff in Hp as [Hp _].
  destruct (sw_record s Hw _ _ E) as [_ Hr].
  assert (sound s (s <| svc_publish_inflight := set_add eid (svc_publish_inflight s) |>)) as H1.
  { apply sound_inflight. intros _ eid' [->|?]%elem_of_set_add; [|by left]. right. exists r.
    split; [done|by apply (xw_publishing r Hr)]. }
  assert (∀ b, neutral (call (CallWriteOutput eid b))) as Hn by (intros b; by apply neutral_call).
  destruct (x_output_pending r) as [b|], (x_reservation r); try by apply H1.
  by apply (sound_trans _ _ _ H1 (neutral_sound _ (Hn b) _)).
Qed.

(** A settled record may lose its pending output. *)
Lemma published_rewrites r : rewrites r (r <| x_publishing := false |> <| x_output_pending := None |>).
Proof. split; try done. intros [? ? ? ? ? ? ? ? [? ?]]. split; try done. Qed.

Lemma ok_publish_settle r res wall : is_Some (x_evidence r) → ok_from r (publish_settle utc_timestamp r res wall).
Proof.
  intros Hev. unfold publish_settle. change (x_settled (_ <| x_output_pending := None |>)) with (x_settled r).
  destruct (x_settled r) eqn:Hs; [apply ok_set; intros _; apply published_rewrites|].
  assert (neutral (add_cleanup (r <| x_publishing := false |> <| x_output_pending := None |>))) as Hn by apply neutral_cleanup.
  destruct res as [blob|c| |]; [apply ok_mark; open_rewrite|..].
  all: apply ok_neutral_bind; [exact Hn|intros _]; cbv zeta; case_match; apply ok_mark; open_rewrite.
Qed.

Lemma ok_publish_end eid res wall s :
  eid ∈ svc_publish_inflight s → sound s (publish_end utc_timestamp eid res wall s).1.
Proof.
  intros Hin Hw. destruct (sw_inflight s Hw eid Hin) as (r & Hr & Hev).
  assert (sound s (s <| svc_publish_inflight := set_del eid (svc_publish_inflight s) |>)) as H1.
  { apply sound_inflight. intros _ eid' ?%elem_of_set_del. by left. }
  destruct (sw_record s Hw _ _ Hr) as [Hid Hwf]. revert Hw. eapply sound_trans; [exact H1|].
  unfold publish_end, record_. run_unfold. simpl. rewrite Hr.
  apply ok_publish_settle; [done|done|]. unfold holds. by rewrite Hid.
Qed.

(** *** Leases *)
Lemma sound_release r lease o s :
  record_wf r → holds s r → x_lease r = Some lease → x_lease_released r = false →
  sound s ((set_x (r <| x_lease_released := true |>);; call (CallRelease (x_execution_id r) lease o)) s).1.
Proof.
  intros Hwf Hh Hl Hrel [G0 G1 G2 G3 G4]. unfold set_x, call. run_unfold. cbn [fst]. split.
  - split; simpl.
    + by apply dict_nodup_insert.
    + intros eid r0. rewrite dict_lookup_insert. case_decide as Hd; [|apply G1]. intros [= <-]. split; [done|].
      destruct Hwf as [? ? ? ? ? ? ? ? [? ?]]. split; simpl; try done.
    + intros eid r0. rewrite dict_lookup_insert. case_decide as Hd; [|apply G2]. intros _. apply (G2 _ r).
      unfold holds in Hh. by rewrite <-Hd.
    + intros eid Hin. destruct (G3 _ Hin) as (r0 & Hr0 & Hev). rewrite dict_lookup_insert. case_decide as Hd; [|by eauto].
      eexists. split; [done|]. simpl. unfold holds in Hh. rewrite Hd, Hr0 in Hh. by simplify_eq.
    + intros eid. rewrite releases_app, dict_lookup_insert, G4. simpl.
      destruct (String.eqb_spec (x_execution_id r) eid) as [<-|Hne].
      * rewrite decide_True by done. unfold holds in Hh. rewrite Hh. simpl. by rewrite Hrel.
      * rewrite decide_False by done. lia.
  - intros eid r0 Hr0. simpl. rewrite dict_lookup_insert. case_decide as Hd; [|exists r0; split; [done|apply keeps_refl]].
    eexists. split; [done|]. unfold holds in Hh. rewrite Hd, Hr0 in Hh. simplify_eq. by intros Hs.
Qed.

Lemma ok_teardown_lease eid : ok (teardown_lease eid).
Proof.
  apply sound_record. intros r s Hid Hwf Hh. destruct (x_lease r) as [lease|] eqn:Hl; [|apply sound_refl].
  destruct (x_lease_released r) eqn:Hr; [apply sound_refl|]. rewrite <-Hid. by apply sound_release.
Qed.

Lemma ok_release_quiescence eid : ok (release_quiescence_lease eid).
Proof.
  apply sound_record. intros r s Hid Hwf Hh. destruct (x_lease r) as [lease|] eqn:Hl; [|apply sound_refl].
  destruct (x_lease_released r) eqn:Hr; [apply sound_refl|]. rewrite <-Hid. by apply sound_release.
Qed.

(** A rewrite that only touches bookkeeping the invariant does not mention. *)
Ltac plain_rewrite := intros _; split; try done; intros [? ? ? ? ? ? ? ? [? ?]]; split; try done.

Lemma ok_teardown_input eid : ok (teardown_input eid).
Proof.
  apply ok_record. intros r _. unfold when_. case_match; [|apply ok_ret].
  apply ok_set_bind; [plain_rewrite|]. by apply ok_neutral, neutral_call.
Qed.

Lemma ok_teardown_output eid abandoned : ok (teardown_output eid abandoned).
Proof.
  apply ok_record. intros r _. unfold when_. case_match; [|apply ok_ret]. apply ok_neutral.
  apply neutral_bind; [by apply neutral_call|intros _]. destruct abandoned; [|apply neutral_cleanup].
  apply neutral_bind; [by apply neutral_call|intros _]. apply neutral_cleanup.
Qed.

(** *** Dispatch *)
Lemma ok_input_opened eid : ok (input_opened eid).
Proof. apply ok_record. intros r _. apply ok_set. plain_rewrite. Qed.

Lemma ok_admission_refused eid e wall : ok (admission_refused utc_timestamp eid e wall).
Proof.
  unfold admission_refused. case_match; [case_match; apply ok_terminate_unsettled|].
  apply ok_record. intros r _. apply ok_set. plain_rewrite.
Qed.

Lemma refence_rewrites s r gen : rewrites r (refence s r gen).
Proof. unfold refence. case_match; [apply rewrites_refl|]. split; try done. intros [? ? ? ? ? ? ? ? [? ?]]. by split. Qed.

Lemma ok_get_bind {B} r (k : ExecutionService → pym ExecutionService B) :
  (∀ s, ok_from r (k s)) → ok_from r (get ≫= k).
Proof. intros Hk. by apply ok_neutral_bind; [apply neutral_get|]. Qed.

Lemma ok_admitted eid lease : ok (admitted eid lease).
Proof.
  apply ok_record. intros r _. apply ok_get_bind. intros s0. destruct (x_settled r) eqn:Hs; [apply ok_ret|].
  apply (ok_then _ _ (fun _ => false)). apply ok_set. intros Hw.
  eapply rewrites_trans; [|apply refence_rewrites]. revert Hw. open_rewrite.
Qed.

Lemma ok_dispatch_commit eid fence res : ok (dispatch_commit eid fence res).
Proof.
  apply ok_record. intros r _. destruct (x_settled r) eqn:Hs; simpl; [apply ok_ret|]. case_match; [apply ok_ret|].
  apply (ok_then _ _ (fun _ => false)). apply ok_set. intros Hw. destruct (unsettled_open r Hw Hs) as (Ht & _). revert Hw.
  unfold terminal. simpl. rewrite Ht. open_rewrite.
Qed.

Lemma ok_guard sessions book eid now : ok (pre_dispatch_guard canonical_size sessions book eid now).
Proof.
  apply ok_record. intros r _. destruct (x_settled r) eqn:Hs; [apply ok_ret|].
  case_match; [|apply ok_ret]. case_match; [apply ok_ret|].
  apply ok_neutral_bind; [apply neutral_lift|intros spec]. apply ok_neutral_bind; [apply neutral_lift|intros caps].
  case_match; [apply ok_ret|]. case_match; [apply ok_ret|].
  apply ok_neutral_bind; [apply neutral_lift|intros rt]. apply ok_get_bind. intros s0.
  apply (ok_then _ _ (fun _ => None)). apply ok_set. intros _. apply refence_rewrites.
Qed.

Lemma with_handle_rewrites r instance body : x_settled r = false → record_wf r → rewrites r (with_handle r instance body).
Proof.
  intros Hs. unfold with_handle. simpl. destruct body as [b|]; [|open_rewrite].
  destruct (x_cancel_pending r); [open_rewrite|]. destruct (x_publishing r) eqn:Hp; open_rewrite.
Qed.

Lemma ok_after_execute eid instance body claims answer wall :
  ok (after_execute utc_timestamp eid instance body claims answer wall).
Proof.
  apply ok_record. intros r _. apply ok_get_bind. intros s0. destruct (x_settled r) eqn:Hs; [apply ok_ret|].
  apply ok_set_bind; [by apply with_handle_rewrites|].
  assert (x_settled (with_handle r instance body) = false) as Hs'
    by (unfold with_handle; simpl; by repeat case_match).
  set (r' := with_handle r instance body) in *. apply ok_neutral_bind; [apply neutral_when, neutral_cancel_reservation|intros _].
  case_match; [apply ok_evaluate|]. case_match; [apply ok_set_evaluate; open_rewrite|].
  case_match eqn:He; [apply ok_evaluate|].
  apply ok_neutral_bind; [apply neutral_lift|]. intros e. apply ok_set_evaluate. open_rewrite.
Qed.

Lemma ok_on_timeout eid answer wall : ok (on_timeout utc_timestamp eid answer wall).
Proof.
  apply ok_record. intros r _. destruct (x_settled r) eqn:Hs; [apply ok_ret|].
  apply ok_stop. by apply cancelling_rewrites.
Qed.

Lemma ok_terminate_uncertain eid message identity answer wall :
  ok (terminate_uncertain utc_timestamp eid message identity answer wall).
Proof.
  apply ok_record. intros r _. apply ok_get_bind. intros s0. destruct (x_settled r) eqn:Hs; [apply ok_ret|].
  apply ok_stop. intros Hw. destruct (unsettled_open r Hw Hs) as (Ht & _). revert Hw.
  unfold mark_reason, terminal. destruct (x_terminal_code r); simpl; rewrite Ht; simpl; repeat case_match; open_rewrite.
Qed.

Lemma ok_settle_stopped eid wall : ok (settle_with_stopped_proof utc_timestamp eid wall).
Proof.
  apply ok_record. intros r _. destruct (x_settled r) eqn:Hs; [apply ok_ret|]. simpl.
  destruct (bool_decide_reflect (is_Some (x_evidence r))) as [|Hn]; [apply ok_ret|].
  destruct (match x_instance r with Some i => Some i | None => x_expected_instance r end) as [i|] eqn:Hi; [|apply ok_ret].
  apply ok_neutral_bind; [apply neutral_lift|]. intros e. apply ok_set_evaluate. change (x_dispatch_state (r <| x_evidence := Some e |>)) with (x_dispatch_state r). clear Hi. destruct (x_dispatch_state r) eqn:Hd; open_rewrite.
Qed.

Lemma ok_quiesce_scan model_id : ok (quiesce_scan model_id).
Proof.
  apply neutral_sound. unfold quiesce_scan. apply neutral_bind; [apply neutral_get|]. intros s.
  case_match; (apply neutral_bind; [apply neutral_quiescing|intros _; apply neutral_ret]).
Qed.

(** *** Loops over the records on file *)

(** A loop whose turns are confined to their own record, over distinct records. *)
Lemma sound_each {B} (body : ExecutionRecord → pym ExecutionService B) l s :
  NoDup (map x_execution_id l) → (∀ r, r ∈ l → holds s r ∧ ok_from r (body r)) →
  sound s (map_each l body s).1.
Proof.
  revert s. induction l as [|r l IH]; intros s Hnd Hl; [apply sound_refl|].
  apply NoDup_cons in Hnd as [Hr Hnd]. destruct (Hl r) as [Hh Hok]; [constructor|].
  intros Hw. destruct (sw_record s Hw _ _ Hh) as [_ Hwf]. destruct (Hok s Hwf Hh) as [Hs Hf].
  revert Hw. cbn [map_each]. unfold mbind, pym_bind. destruct (body r s) as [s1 [b|e]]; simpl in *; [|done].
  assert (sound s1 (map_each l body s1).1) as Hs1.
  { apply IH; [done|]. intros r' Hin. destruct (Hl r') as [Hh' Hok']; [by constructor|]. split; [|done].
    unfold holds. rewrite Hf; [done|]. intros Heq. apply Hr. rewrite <-Heq. by apply list_elem_of_fmap_2. }
  eapply sound_trans; [exact Hs|]. by destruct (map_each l body s1) as [s2 [bs|e]].
Qed.

Lemma values_held s r : svc_wf s → r ∈ values (svc_records s) → holds s r.
Proof.
  intros Hw [k Hin]%elem_of_values. apply entries_lookup in Hin; [|apply (sw_nodup s Hw)].
  destruct (sw_record s Hw _ _ Hin) as [Hid _]. unfold holds. by rewrite Hid.
Qed.

Lemma values_ids s : svc_wf s → NoDup (map x_execution_id (values (svc_records s))).
Proof.
  intros Hw. assert (map x_execution_id (values (svc_records s)) = keys (svc_records s)) as ->; [|apply (sw_nodup s Hw)].
  unfold values, keys. change (map x_execution_id ((entries (svc_records s)).*2)) with (x_execution_id <$> (entries (svc_records s)).*2).
  rewrite <-list_fmap_compose. apply list_fmap_ext. intros i [k r] Hi%list_elem_of_lookup_2. simpl.
  apply entries_lookup in Hi; [|apply (sw_nodup s Hw)]. by destruct (sw_record s Hw _ _ Hi).
Qed.

Lemma NoDup_map_filter {X Y} (f : X → Y) (p : X → bool) l : NoDup (map f l) → NoDup (map f (List.filter p l)).
Proof.
  induction l as [|x l IH]; simpl; [done|]. intros [Hx Hl]%NoDup_cons. destruct (p x); simpl; [|auto].
  constructor; [|auto]. intros (y & Hy & Hin)%list_elem_of_fmap. apply Hx. rewrite Hy. apply list_elem_of_fmap_2.
  apply list_elem_of_In. apply list_elem_of_In, List.filter_In in Hin as [? _]. done.
Qed.

Lemma elem_of_List_filter {X} (p : X → bool) l x : x ∈ List.filter p l → x ∈ l ∧ p x = true.
Proof. rewrite !list_elem_of_In. apply List.filter_In. Qed.

Lemma sound_with_wf s s' : (svc_wf s → sound s s') → sound s s'.
Proof. intros Hs Hw. by apply Hs. Qed.

Lemma sound_bind {A B} (m : pym ExecutionService A) (k : A → pym ExecutionService B) s :
  sound s (m s).1 → (∀ a s1, m s = (s1, Ret a) → sound s1 (k a s1).1) → sound s ((m ≫= k) s).1.
Proof.
  intros Hm Hk. unfold mbind, pym_bind. destruct (m s) as [s1 [a|e]]; simpl in *; [|done].
  eapply sound_trans; [exact Hm|]. by apply Hk.
Qed.

Lemma ok_session_draining session_id answer wall : ok (session_draining utc_timestamp session_id answer wall).
Proof.
  intros s. apply sound_with_wf. intros Hw. apply sound_bind; [apply sound_refl|]. intros s0 s1 [= <- <-].
  apply sound_bind; [|intros o s2 _; apply sound_refl].
  apply sound_each; [by apply NoDup_map_filter, values_ids|]. intros r [Hin Hp]%elem_of_List_filter.
  split; [by apply values_held|]. apply andb_true_iff in Hp as [_ Hp%negb_true_iff]. unfold drain_one. case_match.
  - apply (ok_then _ _ (fun _ => [x_execution_id r])). by apply ok_terminate_local.
  - cbv zeta. apply ok_set_bind; [by apply cancelling_rewrites|].
    apply ok_neutral_bind; [apply neutral_cancel_side_effects|intros _].
    apply (ok_then _ _ (fun b : bool => if b then _ else _)). apply ok_evaluate.
Qed.

(** A [for] loop is a [map_each] loop without its results. *)
Lemma for_each_map {A} (l : list A) (body : A → pym ExecutionService unit) s :
  (for_each l body s).1 = (map_each l body s).1.
Proof.
  revert s. induction l as [|x l IH]; intros s; [done|]. simpl. unfold mbind, pym_bind.
  destruct (body x s) as [s1 [[]|e]]; [|done]. specialize (IH s1). by destruct (map_each l body s1) as [s2 [o|e]].
Qed.

Lemma frame_each {B} (body : ExecutionRecord → pym ExecutionService B) l s eid :
  NoDup (map x_execution_id l) → svc_wf s → (∀ r, r ∈ l → holds s r ∧ ok_from r (body r)) →
  eid ∉ map x_execution_id l → svc_records (map_each l body s).1 !! eid = svc_records s !! eid.
Proof.
  revert s. induction l as [|r l IH]; intros s Hnd Hw Hl Hnot; [done|].
  apply NoDup_cons in Hnd as [Hr Hnd]. apply not_elem_of_cons in Hnot as [Hne Hnot].
  destruct (Hl r) as [Hh Hok]; [constructor|]. destruct (sw_record s Hw _ _ Hh) as [_ Hwf].
  destruct (Hok s Hwf Hh) as [Hs Hf]. destruct (Hs Hw) as [Hw1 _]. cbn [map_each]. unfold mbind, pym_bind.
  destruct (body r s) as [s1 [b|e]]; simpl in *; [|by apply Hf].
  rewrite <-(Hf eid Hne), <-(IH s1 Hnd Hw1); [by destruct (map_each l body s1) as [s2 [bs|e]]| |done].
  intros r' Hin. destruct (Hl r') as [Hh' Hok']; [by constructor|]. split; [|done].
  unfold holds. rewrite Hf; [done|]. intros Heq. apply Hr. rewrite <-Heq. by apply list_elem_of_fmap_2.
Qed.

(** The records still waiting after the expired ones were terminated are on file unchanged. *)
Lemma heads_held s session_id now wall s1 r :
  svc_wf s →
  let waiting := List.filter (dispatchable s session_id) (values (svc_records s)) in
  for_each (List.filter (fun r => x_deadline r <=? now) waiting)
    (fun r => terminate_local utc_timestamp r "queue_timeout" "queue deadline elapsed" wall) s = (s1, Ret tt) →
  r ∈ waiting → negb (x_deadline r <=? now) = true → holds s1 r.
Proof.
  intros Hw waiting E1 Hin Hlive.
  assert (∀ r, r ∈ waiting → holds s r ∧ x_settled r = false) as Hwait.
  { intros r' [Hin' Hp]%elem_of_List_filter. split; [by apply values_held|]. unfold dispatchable in Hp. by bool_prop. }
  assert (NoDup (map x_execution_id waiting)) as Hnd by (by apply NoDup_map_filter, values_ids).
  assert (s1 = (for_each (List.filter (fun r => x_deadline r <=? now) waiting)
            (fun r => terminate_local utc_timestamp r "queue_timeout" "queue deadline elapsed" wall) s).1) as ->
    by (by rewrite E1).
  rewrite for_each_map. unfold holds. rewrite frame_each; [by apply Hwait|by apply NoDup_map_filter|done| |].
  { intros r' [Hin' _]%elem_of_List_filter. destruct (Hwait r' Hin'). split; [done|by apply ok_terminate_local]. }
  intros (r' & Hid & [Hin' Hdead]%elem_of_List_filter)%list_elem_of_fmap.
  destruct (Hwait r Hin) as [H1 _]. destruct (Hwait r' Hin') as [H2 _]. unfold holds in H1, H2.
  rewrite Hid, H2 in H1. simplify_eq. by rewrite Hdead in Hlive.
Qed.

Lemma ok_dispatch_scan session_id now wall : ok (dispatch_scan utc_timestamp session_id now wall).
Proof.
  intros s. apply sound_with_wf. intros Hw. apply sound_bind; [apply sound_refl|]. intros s0 s1 [= <- <-]. cbv zeta.
  set (waiting := List.filter (dispatchable s session_id) (values (svc_records s))).
  assert (∀ r, r ∈ waiting → holds s r ∧ x_settled r = false) as Hwait.
  { intros r [Hin Hp]%elem_of_List_filter. split; [by apply values_held|]. unfold dispatchable in Hp. by bool_prop. }
  assert (NoDup (map x_execution_id waiting)) as Hnd by (by apply NoDup_map_filter, values_ids).
  assert (∀ r, r ∈ List.filter (fun r => x_deadline r <=? now) waiting →
            holds s r ∧ ok_from r (terminate_local utc_timestamp r "queue_timeout" "queue deadline elapsed" wall)) as Hexp.
  { intros r [Hin _]%elem_of_List_filter. destruct (Hwait r Hin). split; [done|by apply ok_terminate_local]. }
  apply sound_bind; [rewrite for_each_map; apply sound_each; [by apply NoDup_map_filter|done]|]. intros [] s1 E1.
  apply sound_bind; [|intros [] s2 _; apply sound_bind; [apply sound_refl|intros ? ? _; apply sound_refl]].
  rewrite for_each_map. apply sound_each; [by apply NoDup_map_filter|].
  intros r [Hin Hlive]%elem_of_List_filter. split; [|apply ok_set; plain_rewrite].
  eapply (heads_held s session_id now wall); [done|exact E1|done|done].
Qed.

(** *** [submit] *)
Lemma ok_bind {A B} (m : pym ExecutionService A) (k : A → pym ExecutionService B) :
  ok m → (∀ a, ok (k a)) → ok (m ≫= k).
Proof. intros Hm Hk s. apply sound_bind; [apply Hm|]. intros a s1 _. apply Hk. Qed.

Lemma ok_catch {A} (m : pym ExecutionService A) h : ok m → (∀ e k, h e = Some k → ok k) → ok (catch m h).
Proof.
  intros Hm Hh s. specialize (Hm s). unfold catch. destruct (m s) as [s1 [a|e]]; simpl in *; [done|].
  destruct (h e) as [k|] eqn:E; [|done]. eapply sound_trans; [exact Hm|]. by apply (Hh e).
Qed.

Lemma neutral_demand b c : neutral (demand_ b c).
Proof. destruct b; by intros s. Qed.

(** A record filed under a fresh identifier. *)
Lemma sound_new s r :
  x_execution_id r = uuid4_hex (svc_uuid_calls s) → record_wf r → x_lease_released r = false →
  sound s (put_x r (s <| svc_uuid_calls := S (S (svc_uuid_calls s)) |>)).
Proof.
  intros Hid Hwf Hrel [G0 G1 G2 G3 G4].
  assert (svc_records s !! x_execution_id r = None) as Hnew.
  { destruct (svc_records s !! x_execution_id r) as [r0|] eqn:E; [|done]. destruct (G2 _ _ E) as (i & Hi & Heq).
    rewrite Hid in Heq. apply uuid4_hex_inj in Heq. lia. }
  split.
  - split; unfold put_x; simpl.
    + by apply dict_nodup_insert.
    + intros eid r0. rewrite dict_lookup_insert. case_decide as Hd; [|apply G1]. by intros [= <-].
    + intros eid r0. rewrite dict_lookup_insert. case_decide as Hd.
      * intros _. exists (svc_uuid_calls s). split; [lia|congruence].
      * intros (i & Hi & ->)%G2. exists i. split; [lia|done].
    + intros eid Hin. destruct (G3 _ Hin) as (r0 & Hr0 & Hev). exists r0. split; [|done].
      rewrite dict_lookup_insert_ne; [done|]. intros Hd. rewrite Hd in Hnew. congruence.
    + intros eid. rewrite dict_lookup_insert, G4. case_decide as Hd; [|done]. simpl. rewrite Hrel, <-Hd, Hnew. done.
  - intros eid r0 Hr0. exists r0. split; [|apply keeps_refl]. unfold put_x; simpl.
    rewrite dict_lookup_insert_ne; [done|]. intros Hd. rewrite Hd in Hnew. congruence.
Qed.

Lemma new_execution_wf eid oid sid mid owner req boot gen deadline idem :
  record_wf (new_execution eid oid sid mid owner req boot gen deadline idem).
Proof. split; simpl; try done; try (by intros [?|?]); try (by split; [|intros []]); by split; [|eexists]. Qed.

Lemma ok_submit_claimed sessions book session owner req idem now wall :
  ok (submit_claimed utc_timestamp sessions book session owner req idem now wall).
Proof.
  unfold submit_claimed. cbv zeta.
  do 2 (apply ok_bind; [apply neutral_sound, neutral_demand|intros _]).
  do 2 (apply ok_bind; [apply neutral_sound, neutral_lift|intros ?]).
  apply ok_bind; [apply neutral_sound, neutral_demand|intros _].
  apply ok_bind; [apply neutral_sound, neutral_get|intros s0].
  apply ok_bind; [apply neutral_sound, neutral_demand|intros _].
  apply ok_bind; [apply neutral_sound, neutral_lift|intros rt].
  apply ok_bind; [apply neutral_sound, neutral_demand|intros _].
  intros s. unfold uuid4_svc. unfold mbind at 1 2 3 4, pym_bind at 1 2 3 4, get, modify, mret, pym_ret. cbv beta iota. simpl.
  set (r := new_execution _ _ _ _ _ _ _ _ _ _).
  apply (sound_trans _ (put_x r (s <| svc_uuid_calls := S (S (svc_uuid_calls s)) |>))).
  { apply sound_new; [done|apply new_execution_wf|done]. }
  assert (∀ s2 : ExecutionService, sound s2 ((doc ← lift (view utc_timestamp r);
    match idem with
    | Some ref => _ ← on_store 0%nat (complete ref 202 (Some (x_execution_id r)) (Some doc) (Some (x_deadline r)) None wall); mret tt
    | None => mret tt
    end;; mret doc) s2).1) as Htail.
  { apply neutral_sound. apply neutral_bind; [apply neutral_lift|intros doc].
    apply neutral_bind; [|intros _; apply neutral_ret]. destruct idem; [|apply neutral_ret].
    apply neutral_bind; [apply neutral_on_store|intros _; apply neutral_ret]. }
  apply Htail.
Qed.

Lemma ok_submit sessions book sid owner req verified payload fp now wall :
  ok (submit utc_timestamp sessions book sid owner req verified payload fp now wall).
Proof.
  unfold submit. apply ok_bind.
  { apply neutral_sound, neutral_catch; [apply neutral_lift|]. intros e k [= <-]. by intros s. }
  intros session. apply ok_bind; [apply neutral_sound, neutral_check|intros _].
  apply ok_bind; [apply neutral_sound, neutral_demand|intros _]. apply ok_bind; [apply neutral_sound, neutral_get|intros s0].
  destruct (svc_idempotency s0); [|apply ok_submit_claimed]. apply ok_bind.
  { apply neutral_sound, neutral_catch; [apply neutral_on_store|]. intros e k Hk. destruct e; simplify_eq. by intros s. }
  intros ref. apply ok_bind.
  { apply neutral_sound. apply neutral_bind; [apply neutral_get|intros ?; apply neutral_ret]. }
  intros [claim|]; [|by intros s; apply sound_refl]. destruct (bool_decide (i_state claim = COMPLETED)).
  - apply neutral_sound, neutral_bind; [apply neutral_get|]. intros s1. case_match; [apply neutral_lift|by intros s].
  - apply ok_catch; [apply ok_submit_claimed|]. intros e k Hk. destruct e; simplify_eq.
    apply ok_bind; [|intros _ s; apply sound_refl]. apply neutral_sound. unfold release_claim, claim_state.
    apply neutral_bind; [apply neutral_bind; [apply neutral_get|intros ?; apply neutral_ret]|].
    intros [c|]; [case_match; [apply neutral_on_store|apply neutral_ret]|apply neutral_ret].
Qed.

(** ** Runs of the service *)
Inductive xcall :=
| XSubmit (sessions : SessionManager) (book : Book) (sid owner : string) (req : CreateRequest) (verified : outcome unit)
    (payload : string) (fp : option string) (now wall : time)
| XCancel (eid owner : string) (verified : outcome unit) (answer : bool) (wall : time)
| XOutput (eid body : string) (answer : bool) (wall : time)
| XTerminal (eid : string) (e : TerminationEvidence) (wall : time)
| XPublishBegin (eid : string)
| XPublishEnd (eid : string) (res : WriteResult) (wall : time)
| XTeardownLease (eid : string)
| XTeardownInput (eid : string)
| XTeardownOutput (eid : string) (abandoned : bool)
| XScan (sid : string) (now wall : time)
| XGuard (sessions : SessionManager) (book : Book) (eid : string) (now : time)
| XRefused (eid code message : string) (wall : time)
| XInput (eid : string)
| XAdmissionRefused (eid : string) (e : exn) (wall : time)
| XAdmitted (eid : string) (lease : Lease)
| XCommit (eid : string) (fence : Fence) (reservation : string)
| XAfterExecute (eid : string) (instance : InstanceIdentity) (body : option string) (claims answer : bool) (wall : time)
| XTimeout (eid : string) (answer : bool) (wall : time)
| XUncertain (eid message : string) (identity : option InstanceIdentity) (answer : bool) (wall : time)
| XQuiesce (model_id : string)
| XReleaseQuiescence (eid : string)
| XStopped (eid : string) (wall : time)
| XDraining (sid : string) (answer : string → bool) (wall : time).

(** One section.  A terminal report carries a value of [TerminationEvidence], so
    one its constructor accepts; a publish ends only after it began. *)
Definition x_exec (c : xcall) (s : ExecutionService) : ExecutionService :=
  match c with
  | XSubmit sessions book sid owner req verified payload fp now wall =>
      (submit utc_timestamp sessions book sid owner req verified payload fp now wall s).1
  | XCancel eid owner verified answer wall => (cancel utc_timestamp eid owner verified answer wall s).1
  | XOutput eid body answer wall => (report_output utc_timestamp eid body answer wall s).1
  | XTerminal eid e wall =>
      match make_evidence e with Ret e => (report_terminal utc_timestamp eid e wall s).1 | Raise _ => s end
  | XPublishBegin eid => (publish_begin eid s).1
  | XPublishEnd eid res wall =>
      if bool_decide (eid ∈ svc_publish_inflight s) then (publish_end utc_timestamp eid res wall s).1 else s
  | XTeardownLease eid => (teardown_lease eid s).1
  | XTeardownInput eid => (teardown_input eid s).1
  | XTeardownOutput eid abandoned => (teardown_output eid abandoned s).1
  | XScan sid now wall => (dispatch_scan utc_timestamp sid now wall s).1
  | XGuard sessions book eid now => (pre_dispatch_guard canonical_size sessions book eid now s).1
  | XRefused eid code message wall => (terminate_unsettled utc_timestamp eid code message wall s).1
  | XInput eid => (input_opened eid s).1
  | XAdmissionRefused eid e wall => (admission_refused utc_timestamp eid e wall s).1
  | XAdmitted eid lease => (admitted eid lease s).1
  | XCommit eid fence reservation => (dispatch_commit eid fence reservation s).1
  | XAfterExecute eid instance body claims answer wall =>
      (after_execute utc_timestamp eid instance body claims answer wall s).1
  | XTimeout eid answer wall => (on_timeout utc_timestamp eid answer wall s).1
  | XUncertain eid message identity answer wall => (terminate_uncertain utc_timestamp eid message identity answer wall s).1
  | XQuiesce model_id => (quiesce_scan model_id s).1
  | XReleaseQuiescence eid => (release_quiescence_lease eid s).1
  | XStopped eid wall => (settle_with_stopped_proof utc_timestamp eid wall s).1
  | XDraining sid answer wall => (session_draining utc_timestamp sid answer wall s).1
  end.

Definition x_run (cs : list xcall) (s : ExecutionService) : ExecutionService := foldl (fun s c => x_exec c s) s cs.

Lemma make_evidence_ret e e' : make_evidence e = Ret e' → e' = e ∧ make_evidence e' = Ret e'.
Proof.
  intros He. assert (e' = e) as ->; [|done]. revert He. unfold make_evidence, require, err. run_unfold.
  destruct (ev_dispatch_state e);
    repeat match goal with |- context [if ?b then Ret tt else _] => destruct b; [|done] end; by intros [= <-].
Qed.

Lemma x_exec_sound c s : sound s (x_exec c s).
Proof.
  destruct c; simpl; first
    [ apply ok_submit | apply ok_cancel | apply ok_report_output | apply ok_publish_begin | apply ok_teardown_lease
    | apply ok_teardown_input | apply ok_teardown_output | apply ok_dispatch_scan | apply ok_guard
    | apply ok_terminate_unsettled | apply ok_input_opened | apply ok_admission_refused | apply ok_admitted
    | apply ok_dispatch_commit | apply ok_after_execute | apply ok_on_timeout | apply ok_terminate_uncertain
    | apply ok_quiesce_scan | apply ok_release_quiescence | apply ok_settle_stopped | apply ok_session_draining | idtac ].
  - destruct (make_evidence e) as [e'|] eqn:He; [|apply sound_refl].
    destruct (make_evidence_ret _ _ He) as [_ He']. by apply ok_report_terminal.
  - case_bool_decide as Hin; [by apply ok_publish_end|apply sound_refl].
Qed.

Lemma x_run_sound cs s : sound s (x_run cs s).
Proof.
  revert s. induction cs as [|c cs IH]; intros s; [apply sound_refl|]. simpl.
  eapply sound_trans; [apply x_exec_sound|apply IH].
Qed.

(** ** Where the evidence of a record comes from *)

(** Evidence the service makes for a computation that never reached the backend,
    and for one that did. *)
Definition local_evidence (r : ExecutionRecord) (code : string) : TerminationEvidence :=
  {| ev_fence := x_fence r; ev_dispatch_state := not_started; ev_device_synchronized := false;
     ev_reason := Some code; ev_instance := None |}.
Definition remote_evidence (r : ExecutionRecord) (reason : string) (i : InstanceIdentity) : TerminationEvidence :=
  {| ev_fence := x_fence r; ev_dispatch_state := dispatched; ev_device_synchronized := true;
     ev_reason := Some reason; ev_instance := Some i |}.

(** A fence that names the same boot, model, generation, operation and execution,
    and no earlier attempt. *)
Definition same_fence (current incoming : Fence) : Prop :=
  f_boot_id incoming = f_boot_id current ∧ f_model_id incoming = f_model_id current ∧
  f_generation incoming = f_generation current ∧ f_operation_id incoming = f_operation_id current ∧
  f_execution_id incoming = f_execution_id current ∧
  (∃ a b, f_attempt current = Some a ∧ f_attempt incoming = Some b ∧ a ≤ b).

(** The section [c], run on the state [s] with the record [r] on file, may give it the evidence [e]. *)
Definition trusted (s : ExecutionService) (c : xcall) (r : ExecutionRecord) (e : TerminationEvidence) : Prop :=
  x_settled r = false ∧
  match c with
  | XTerminal eid e' _ =>
      eid = x_execution_id r ∧ e = e' ∧ make_evidence e = Ret e ∧ x_evidence r = None ∧
      same_fence (x_fence r) (ev_fence e) ∧ (ev_dispatch_state e = not_started → x_dispatch_state r = not_started)
  | XCancel eid owner verified _ _ =>
      eid = x_execution_id r ∧ owner = x_owner r ∧ verified = Ret tt ∧ x_dispatch_started r = false ∧
      e = local_evidence r "queue_timeout"
  | XScan sid now _ =>
      sid = x_session_id r ∧ x_state r = QUEUED ∧ x_dispatch_started r = false ∧ x_deadline r ≤ now ∧
      e = local_evidence r "queue_timeout"
  | XDraining sid _ _ => sid = x_session_id r ∧ x_dispatch_started r = false ∧ e = local_evidence r "queue_timeout"
  | XRefused eid code _ _ => eid = x_execution_id r ∧ e = local_evidence r code
  | XAdmissionRefused eid x _ =>
      eid = x_execution_id r ∧ ∃ code message, admission_refusal x = Some (code, message) ∧ e = local_evidence r code
  | XAfterExecute eid i _ claims _ _ =>
      eid = x_execution_id r ∧ svc_managed s = true ∧ claims = true ∧ x_evidence r = None ∧
      e = remote_evidence r "request_protocol_terminated" i
  | XStopped eid _ =>
      eid = x_execution_id r ∧ x_evidence r = None ∧
      ∃ i, (x_instance r = Some i ∨ x_instance r = None ∧ x_expected_instance r = Some i) ∧
           e = remote_evidence r "independent_STOPPED" i
  | _ => False
  end.

Section Traced.
Context (J : ExecutionRecord → TerminationEvidence → Prop).

(** Every piece of evidence on file afterwards was there or is justified by [J]. *)
Definition traced (s s' : ExecutionService) : Prop :=
  ∀ eid r' e, svc_records s' !! eid = Some r' → x_evidence r' = Some e →
    ∃ r, svc_records s !! eid = Some r ∧ (x_evidence r = Some e ∨ J r e).

(** [r] carries what [r0] carried, or evidence that [J] justifies for [r0]. *)
Definition good (r0 r : ExecutionRecord) : Prop :=
  x_execution_id r = x_execution_id r0 ∧ ∀ e, x_evidence r = Some e → x_evidence r0 = Some e ∨ J r0 e.

Definition leads (r0 : ExecutionRecord) (s s' : ExecutionService) : Prop :=
  (∀ eid, eid ≠ x_execution_id r0 → svc_records s' !! eid = svc_records s !! eid) ∧
  ∃ r', holds s' r' ∧ good r0 r'.

Definition tr_from {A} (r0 r : ExecutionRecord) (m : pym ExecutionService A) : Prop :=
  ∀ s, holds s r → good r0 r → leads r0 s (m s).1.

Lemma good_refl r : good r r.
Proof. split; [done|by left]. Qed.

Lemma traced_refl s : traced s s.
Proof. intros eid r e Hr He. eauto. Qed.

Lemma traced_neutral {A} (m : pym ExecutionService A) s : neutral m → traced s (m s).1.
Proof. intros Hm eid r e. rewrite (proj1 (Hm s)). eauto. Qed.

Lemma leads_traced r s s' : holds s r → leads r s s' → traced s s'.
Proof.
  intros Hh (Hf & r' & Hh' & Hid & Hg) eid r1 e Hr1 He. destruct (decide (eid = x_execution_id r)) as [->|Hne].
  - exists r. split; [done|]. apply Hg. unfold holds in Hh'. rewrite Hid, Hr1 in Hh'. by simplify_eq.
  - exists r1. rewrite <-Hf by done. auto.
Qed.

Lemma tr_ret {A} r0 r (a : A) : tr_from r0 r (mret a).
Proof. intros s Hh Hg. split; [done|eauto]. Qed.

Lemma tr_neutral_bind {A B} r0 r (m : pym ExecutionService A) (k : A → pym ExecutionService B) :
  neutral m → (∀ a s s', m s = (s', Ret a) → tr_from r0 r (k a)) → tr_from r0 r (m ≫= k).
Proof.
  intros Hm Hk s Hh Hg. destruct (Hm s) as (HR & _). unfold mbind, pym_bind.
  destruct (m s) as [s1 [a|x]] eqn:E; simpl in *.
  - destruct (Hk a s s1 E s1) as [Hf Hr]; [unfold holds; by rewrite HR|done|]. split; [|done].
    intros eid Hne. by rewrite Hf, HR.
  - split; [by intros; rewrite HR|]. exists r. split; [unfold holds; by rewrite HR|done].
Qed.

Lemma tr_neutral {A} r0 r (m : pym ExecutionService A) : neutral m → tr_from r0 r m.
Proof.
  intros Hm s Hh Hg. destruct (Hm s) as (HR & _). split; [by intros; rewrite HR|].
  exists r. split; [unfold holds; by rewrite HR|done].
Qed.

Lemma tr_set_bind {B} r0 r r' (k : unit → pym ExecutionService B) :
  (good r0 r → good r0 r') → tr_from r0 r' (k tt) → tr_from r0 r (set_x r' ≫= k).
Proof.
  intros Hg' Hk s Hh Hg. specialize (Hg' Hg). unfold mbind, pym_bind. cbn [set_x modify].
  destruct (Hk (put_x r' s)) as [Hf Hr]; [by eapply holds_put|done|]. split; [|done].
  intros eid Hne. rewrite Hf by done. simpl. apply dict_lookup_insert_ne. by rewrite (proj1 Hg').
Qed.

Lemma tr_then {A B} r0 r (m : pym ExecutionService A) (f : A → B) : tr_from r0 r m → tr_from r0 r (x ← m; mret (f x)).
Proof.
  intros Hm s Hh Hg. specialize (Hm s Hh Hg). unfold mbind, pym_bind. by destruct (m s) as [s1 [a|x]].
Qed.

Lemma tr_set r0 r r' : (good r0 r → good r0 r') → tr_from r0 r (set_x r').
Proof.
  intros Hg' s Hh Hg. specialize (Hg' Hg). split; [|exists r'; split; [by eapply holds_put|done]].
  intros eid Hne. simpl. apply dict_lookup_insert_ne. by rewrite (proj1 Hg').
Qed.

Lemma tr_mark r0 r r' st wall : (good r0 r → good r0 r') → tr_from r0 r (mark_settled utc_timestamp r' st wall).
Proof. intros Hg. apply tr_set_bind; [done|]. apply tr_neutral, neutral_finish. Qed.

Lemma tr_evaluate r0 r wall : tr_from r0 r (evaluate utc_timestamp r wall).
Proof.
  unfold evaluate. case_match; [apply tr_ret|]. case_match.
  - apply (tr_then _ _ _ (fun _ => true)), tr_mark. done.
  - case_match; [|apply tr_ret]. case_match.
    + by apply (tr_then _ _ _ (fun _ => false)), tr_set.
    + by apply (tr_then _ _ _ (fun _ => true)), tr_mark.
Qed.

Lemma tr_set_evaluate r0 r r' wall : (good r0 r → good r0 r') → tr_from r0 r (set_evaluate utc_timestamp r' wall).
Proof. intros Hg. apply tr_set_bind; [done|]. apply tr_evaluate. Qed.

Lemma tr_stop r0 r r' answer wall :
  (good r0 r → good r0 r') → tr_from r0 r (set_x r';; cancel_side_effects r' answer;; evaluate utc_timestamp r' wall).
Proof.
  intros Hg. apply tr_set_bind; [done|]. apply tr_neutral_bind; [apply neutral_cancel_side_effects|].
  intros _ _ _ _. apply tr_evaluate.
Qed.

Lemma tr_local r code message wall :
  J r (local_evidence r code) → tr_from r r (terminate_local utc_timestamp r code message wall).
Proof.
  intros HJ. unfold terminate_local. apply tr_neutral_bind; [apply neutral_lift|]. intros e s s' E.
  apply (f_equal snd) in E. simpl in E. apply make_evidence_ret in E as [-> _].
  apply tr_mark. intros _. split; [done|]. simpl. intros e [= <-]. by right.
Qed.

Lemma cancelling_good r c m : good r (cancelling c m r).
Proof. unfold cancelling, mark_reason. simpl. repeat case_match; simpl; split; simpl; auto. Qed.

Lemma traced_record {A} eid (k : ExecutionRecord → pym ExecutionService A) s :
  svc_wf s → (∀ r, x_execution_id r = eid → record_wf r → holds s r → tr_from r r (k r)) → traced s ((record_ eid ≫= k) s).1.
Proof.
  intros Hw Hk. unfold record_. run_unfold. destruct (svc_records s !! eid) as [r|] eqn:E; [|by apply traced_refl].
  destruct (sw_record s Hw _ _ E) as [Hid Hwf]. assert (holds s r) as Hh by (unfold holds; by rewrite Hid).
  eapply leads_traced; [done|]. apply Hk; [done..|apply good_refl].
Qed.

(** Turns confined to distinct records on file. *)
Lemma traced_each {B} (body : ExecutionRecord → pym ExecutionService B) l s :
  NoDup (map x_execution_id l) → (∀ r, r ∈ l → holds s r ∧ tr_from r r (body r)) → traced s (map_each l body s).1.
Proof.
  intros Hnd Hl. assert (∀ s', (∀ r, r ∈ l → holds s' r) →
    (∀ eid, eid ∉ map x_execution_id l → svc_records (map_each l body s').1 !! eid = svc_records s' !! eid) ∧
    traced s' (map_each l body s').1) as Hgen; [|by apply Hgen; intros r ?; apply Hl].
  assert (∀ r, r ∈ l → tr_from r r (body r)) as Hb by (intros r ?; by apply Hl). clear Hl s.
  induction l as [|r l IH]; intros s Hh; [by split; [|apply traced_refl]|].
  apply NoDup_cons in Hnd as [Hr Hnd]. assert (holds s r) as Hhr by (apply Hh; constructor).
  assert (leads r s (body r s).1) as HL by (apply Hb; [constructor|done|apply good_refl]).
  pose proof (leads_traced _ _ _ Hhr HL) as HT. destruct HL as [Hf _]. cbn [map_each]. unfold mbind, pym_bind.
  destruct (body r s) as [s1 [b|x]]; simpl in *.
  2: { split; [|done]. intros eid ?. apply Hf. set_solver. }
  assert (∀ r', r' ∈ l → x_execution_id r' ≠ x_execution_id r) as Hd.
  { intros r' Hin Heq. apply Hr. rewrite <-Heq. by apply list_elem_of_fmap_2. }
  specialize (IH Hnd). destruct (fun H => IH H s1) as [IF IT]; [intros; apply Hb; by constructor| |].
  { intros r' Hin. unfold holds. rewrite Hf by (by apply Hd). apply Hh. by constructor. }
  destruct (map_each l body s1) as [s2 [bs|x]]; simpl in *.
  all: split; [intros eid [Hne Hn]%not_elem_of_cons; rewrite IF by done; by apply Hf|].
  all: intros eid r2 e Hr2 He; destruct (IT _ _ _ Hr2 He) as (r1 & Hr1 & Hj).
  all: destruct (decide (eid = x_execution_id r)) as [->|Hne].
  all: try (exists r1; rewrite <-Hf by done; done).
  all: rewrite IF in Hr2 by done; by apply (HT _ _ e Hr2).
Qed.
End Traced.

(** Close [good r0 r → good r0 r'] when [r'] keeps the identifier and the evidence of [r]. *)
Ltac keep_good :=
  let H1 := fresh in let H2 := fresh in
  intros [H1 H2]; split; [exact H1|simpl; exact H2].

Lemma refence_good J s r0 r gen : good J r0 r → good J r0 (refence s r gen).
Proof. unfold refence. case_match; [done|keep_good]. Qed.

Lemma writeback_same current incoming :
  is_Some (f_execution_id current) ∧ is_Some (f_attempt current) →
  writeback_decision current incoming = None → same_fence current incoming.
Proof.
  intros [[x Hx] [a Ha]]. unfold writeback_decision, fence_checks, same_fence. simpl. rewrite Hx, Ha. simpl.
  destruct (f_attempt incoming) as [b|]; repeat case_match; simpl; try done; bool_prop; intros _; simplify_eq.
  repeat match goal with H : String.eqb _ _ = true |- _ => apply String.eqb_eq in H end.
  split_and!; try done. exists a, b. split_and!; [done..|lia].
Qed.

Lemma traced_owned {A} J eid owner (k : ExecutionRecord → pym ExecutionService A) s :
  svc_wf s → (∀ r, x_execution_id r = eid → x_owner r = owner → tr_from J r r (k r)) → traced J s ((owned eid owner ≫= k) s).1.
Proof.
  intros Hw Hk. unfold owned, record_. run_unfold.
  destruct (svc_records s !! eid) as [r|] eqn:E; simpl; [|by apply traced_refl].
  unfold demand_. destruct (String.eqb_spec (x_owner r) owner) as [Ho|]; simpl; [|by apply traced_refl].
  destruct (sw_record s Hw _ _ E) as [Hid Hwf]. assert (holds s r) as Hh by (unfold holds; by rewrite Hid).
  eapply leads_traced; [done|]. apply Hk; [done..|apply good_refl].
Qed.

Lemma traced_cancel s eid owner verified answer wall :
  svc_wf s → traced (trusted s (XCancel eid owner verified answer wall)) s (cancel utc_timestamp eid owner verified answer wall s).1.
Proof.
  intros Hw. apply traced_owned; [done|]. intros r Hid Ho. apply tr_neutral_bind; [apply neutral_check|]. intros [] s1 s2 E.
  assert (verified = Ret tt) as ->.
  { destruct verified as [[]|x]; [done|]. exfalso. revert E. unfold catch, lift. destruct x; done. }
  destruct (x_settled r) eqn:Hs; [apply tr_ret|]. destruct (x_dispatch_started r) eqn:Hd; simpl.
  - apply tr_stop. intros _. apply cancelling_good.
  - apply (tr_then _ _ _ _ (fun _ => true)), tr_local. by split_and!.
Qed.

Lemma traced_report_terminal s eid e wall :
  svc_wf s → make_evidence e = Ret e → traced (trusted s (XTerminal eid e wall)) s (report_terminal utc_timestamp eid e wall s).1.
Proof.
  intros Hw He. apply traced_record; [done|]. intros r Hid Hwf _.
  case_bool_decide as Hwb; [apply tr_ret|].
  destruct (bool_decide (ev_dispatch_state e = not_started) && bool_decide (x_dispatch_state r = dispatched)) eqn:Hnd; [apply tr_ret|].
  destruct (bool_decide_reflect (is_Some (x_evidence r))) as [|Hn]; [apply tr_ret|]. apply (tr_then _ _ _ _ Some), tr_set_evaluate. intros _.
  assert (trusted s (XTerminal eid e wall) r e) as HJ.
  { split; [|split_and!; try done].
    - destruct (x_settled r) eqn:Hs; [|done]. exfalso. apply Hn, (xw_evidence r Hwf). by rewrite <-(xw_settled r Hwf).
    - by apply eq_None_not_Some.
    - apply writeback_same; [|by apply eq_None_not_Some]. destruct (xw_fence r Hwf) as [-> ?]. by split; [eexists|].
    - intros Hns. rewrite Hns in Hnd. destruct (x_dispatch_state r); [done|]. done. }
  destruct (bool_decide (ev_dispatch_state e = dispatched)); (split; [done|]); simpl; intros e' [= <-]; by right.
Qed.

Lemma traced_terminate s eid code message wall J :
  svc_wf s → (∀ r, x_execution_id r = eid → x_settled r = false → J r (local_evidence r code)) →
  traced J s (terminate_unsettled utc_timestamp eid code message wall s).1.
Proof.
  intros Hw HJ. apply traced_record; [done|]. intros r Hid _ _. destruct (x_settled r) eqn:Hs; [apply tr_ret|].
  apply tr_local. by apply HJ.
Qed.

Lemma with_handle_good J r0 r i body : good J r0 r → good J r0 (with_handle r i body).
Proof. intros [Hi Hg]. unfold with_handle. simpl. by repeat case_match. Qed.

(** A section that reads the state first. *)
Lemma traced_record_get {A} J eid (k : ExecutionRecord → ExecutionService → pym ExecutionService A) s :
  svc_wf s → (∀ r, x_execution_id r = eid → record_wf r → tr_from J r r (k r s)) →
  traced J s ((r ← record_ eid; s0 ← get; k r s0) s).1.
Proof.
  intros Hw Hk. unfold record_. run_unfold. destruct (svc_records s !! eid) as [r|] eqn:E; [|by apply traced_refl].
  destruct (sw_record s Hw _ _ E) as [Hid Hwf]. assert (holds s r) as Hh by (unfold holds; by rewrite Hid).
  eapply leads_traced; [done|]. apply Hk; [done..|apply good_refl].
Qed.

Lemma traced_after_execute s eid i body claims answer wall :
  svc_wf s → traced (trusted s (XAfterExecute eid i body claims answer wall)) s
               (after_execute utc_timestamp eid i body claims answer wall s).1.
Proof.
  intros Hw. apply traced_record_get; [done|]. intros r Hid Hwf. destruct (x_settled r) eqn:Hs; [apply tr_ret|].
  apply tr_set_bind; [apply with_handle_good|].
  apply tr_neutral_bind; [apply neutral_when, neutral_cancel_reservation|intros _ _ _ _].
  destruct (svc_managed s) eqn:Hm; simpl; [|apply tr_evaluate]. destruct claims; simpl; [|apply tr_set_evaluate; keep_good].
  case_match eqn:He; [apply tr_evaluate|]. apply tr_neutral_bind; [apply neutral_lift|]. intros e s1 s2 E.
  apply (f_equal snd) in E. simpl in E. apply make_evidence_ret in E as [-> _].
  apply tr_set_evaluate. intros [Hi Hg]. split; [done|]. simpl. intros e [= <-]. right.
  assert (x_fence (with_handle r i body) = x_fence r ∧ x_evidence (with_handle r i body) = x_evidence r) as [Hf Hev]
    by (unfold with_handle; simpl; by repeat case_match).
  split; [done|]. rewrite Hf. split_and!; try done. congruence.
Qed.

Lemma traced_stopped s eid wall :
  svc_wf s → traced (trusted s (XStopped eid wall)) s (settle_with_stopped_proof utc_timestamp eid wall s).1.
Proof.
  intros Hw. apply traced_record; [done|]. intros r Hid _ _. destruct (x_settled r) eqn:Hs; [apply tr_ret|]. simpl.
  case_bool_decide as Hn; [apply tr_ret|].
  destruct (match x_instance r with Some i => Some i | None => x_expected_instance r end) as [i|] eqn:Hi; [|apply tr_ret].
  apply tr_neutral_bind; [apply neutral_lift|]. intros e s1 s2 E.
  apply (f_equal snd) in E. simpl in E. apply make_evidence_ret in E as [-> _].
  assert (trusted s (XStopped eid wall) r (remote_evidence r "independent_STOPPED" i)) as HJ.
  { split_and!; try done; [by apply eq_None_not_Some|]. exists i. split; [|done]. destruct (x_instance r); simplify_eq; auto. }
  apply tr_set_evaluate. intros _.
  change (x_dispatch_state (r <| x_evidence := Some (remote_evidence r "independent_STOPPED" i) |>)) with (x_dispatch_state r).
  destruct (x_dispatch_state r); (split; [done|]); simpl; intros e [= <-]; by right.
Qed.

Lemma traced_draining s sid answer wall :
  svc_wf s → traced (trusted s (XDraining sid answer wall)) s (session_draining utc_timestamp sid answer wall s).1.
Proof.
  intros Hw.
  assert (∀ X : pym ExecutionService (list (list string)), ((X ≫= fun out => mret (concat out)) s).1 = (X s).1) as HX
    by (intros X; unfold mbind, pym_bind; by destruct (X s) as [? []]).
  change (traced (trusted s (XDraining sid answer wall)) s
    ((map_each (List.filter (fun r => String.eqb (x_session_id r) sid && negb (x_settled r)) (values (svc_records s)))
       (drain_one utc_timestamp wall answer) ≫= fun out => mret (concat out)) s).1).
  rewrite HX. apply traced_each; [by apply NoDup_map_filter, values_ids|]. intros r [Hin Hp]%elem_of_List_filter.
  split; [by apply values_held|]. apply andb_true_iff in Hp as [Hsid%String.eqb_eq Hp%negb_true_iff]. unfold drain_one.
  destruct (x_dispatch_started r) eqn:Hd; simpl.
  - apply tr_set_bind; [intros _; apply cancelling_good|]. apply tr_neutral_bind; [apply neutral_cancel_side_effects|intros _ _ _ _].
    apply (tr_then _ _ _ _ (fun b : bool => if b then _ else _)), tr_evaluate.
  - apply (tr_then _ _ _ _ (fun _ => [x_execution_id r])), tr_local. by split_and!.
Qed.

Lemma traced_scan s sid now wall :
  svc_wf s → traced (trusted s (XScan sid now wall)) s (dispatch_scan utc_timestamp sid now wall s).1.
Proof.
  intros Hw. unfold dispatch_scan. unfold mbind at 1, pym_bind at 1, get at 1. cbv zeta.
  set (waiting := List.filter (dispatchable s sid) (values (svc_records s))).
  assert (NoDup (map x_execution_id waiting)) as Hnd by (by apply NoDup_map_filter, values_ids).
  assert (traced (trusted s (XScan sid now wall)) s
    (for_each (List.filter (fun r => x_deadline r <=? now) waiting)
       (fun r => terminate_local utc_timestamp r "queue_timeout" "queue deadline elapsed" wall) s).1) as H1.
  { rewrite for_each_map. apply traced_each; [by apply NoDup_map_filter|].
    intros r [[Hin Hp]%elem_of_List_filter Hdl]%elem_of_List_filter. split; [by apply values_held|].
    apply tr_local. unfold dispatchable in Hp. bool_prop. split_and!; try done; symmetry; by apply String.eqb_eq. }
  unfold mbind at 1, pym_bind at 1. destruct (for_each _ _ s) as [s1 [[]|x]] eqn:E1; [|exact H1].
  assert (traced (fun _ _ => False) s1
    (for_each (List.filter (fun r => negb (x_deadline r <=? now)) waiting) (fun r => set_x (r <| x_dispatch_claimed := true |>)) s1).1) as H2.
  { rewrite for_each_map. apply traced_each; [by apply NoDup_map_filter|]. intros r [Hin Hlive]%elem_of_List_filter.
    split; [by apply (heads_held s sid now wall)|]. apply tr_set. keep_good. }
  cbn [fst] in H1. unfold mbind at 1, pym_bind at 1. destruct (for_each _ _ s1) as [s2 [[]|x]]; cbn [fst] in H2.
  all: intros eid r e Hr He; destruct (H2 eid r e Hr He) as (r1 & Hr1 & [He1|[]]); by apply (H1 _ _ _ Hr1).
Qed.

(** Sections that give no evidence. *)
Lemma traced_publish_end s eid res wall J :
  svc_wf s → traced J s (publish_end utc_timestamp eid res wall s).1.
Proof.
  intros Hw. set (s1 := s <| svc_publish_inflight := set_del eid (svc_publish_inflight s) |>).
  assert (svc_wf s1) as Hw1.
  { apply sound_inflight; [|done]. intros _ eid' ?%elem_of_set_del. by left. }
  change (traced J s1 ((r ← record_ eid; publish_settle utc_timestamp r res wall) s1).1).
  apply traced_record; [done|]. intros r _ _ _. unfold publish_settle. case_match; [apply tr_set; keep_good|].
  case_match; [apply tr_mark; keep_good|..].
  all: apply tr_neutral_bind; [apply neutral_cleanup|intros _ _ _ _]; cbv zeta; case_match; apply tr_mark; keep_good.
Qed.

Lemma traced_release r lease o J s :
  holds s r → traced J s ((set_x (r <| x_lease_released := true |>);; call (CallRelease (x_execution_id r) lease o)) s).1.
Proof.
  intros Hh. assert (leads J r s (put_x (r <| x_lease_released := true |>) s)) as HL
    by (apply (tr_set J r r); [keep_good|done|apply good_refl]).
  apply (leads_traced _ _ _ _ Hh HL).
Qed.

(** *** Computations that never give evidence *)
Definition quiet {A} (m : pym ExecutionService A) : Prop := ∀ s, traced (fun _ _ => False) s (m s).1.

Lemma traced_weaken J s s' : traced (fun _ _ => False) s s' → traced J s s'.
Proof. intros H eid r e Hr He. destruct (H _ _ _ Hr He) as (r0 & Hr0 & [Hb|[]]). eauto. Qed.

Lemma quiet_neutral {A} (m : pym ExecutionService A) : neutral m → quiet m.
Proof. intros Hm s. by apply traced_neutral. Qed.

Lemma traced_after J s1 s2 s3 : traced J s1 s2 → traced (fun _ _ => False) s2 s3 → traced J s1 s3.
Proof. intros H1 H2 eid r e Hr He. destruct (H2 _ _ _ Hr He) as (r0 & Hr0 & [Hb|[]]). by apply (H1 _ _ _ Hr0). Qed.

Lemma unproven_bind {A B} (m : pym ExecutionService A) (k : A → pym ExecutionService B) :
  quiet m → (∀ a, quiet (k a)) → quiet (m ≫= k).
Proof.
  intros Hm Hk s. specialize (Hm s). unfold mbind, pym_bind. destruct (m s) as [s1 [a|x]]; simpl in *; [|done].
  eapply traced_after; [exact Hm|apply Hk].
Qed.

Lemma unproven_catch {A} (m : pym ExecutionService A) h : quiet m → (∀ e k, h e = Some k → quiet k) → quiet (catch m h).
Proof.
  intros Hm Hh s. specialize (Hm s). unfold catch. destruct (m s) as [s1 [a|e]]; simpl in *; [done|].
  destruct (h e) as [k|] eqn:E; [|done]. eapply traced_after; [exact Hm|]. by apply (Hh e).
Qed.

Lemma quiet_set_fresh r : x_evidence r = None → quiet (set_x r).
Proof.
  intros Hr s eid r' e. simpl. rewrite dict_lookup_insert. case_decide; [intros [= <-]; congruence|eauto].
Qed.

Lemma quiet_uuid : quiet uuid4_svc.
Proof. intros s eid r e Hr He. eauto. Qed.

#[local] Hint Resolve neutral_lift neutral_get neutral_ret neutral_demand neutral_on_store neutral_check : quiet.

Lemma quiet_submit_claimed sessions book session owner req idem now wall :
  quiet (submit_claimed utc_timestamp sessions book session owner req idem now wall).
Proof.
  unfold submit_claimed. cbv zeta.
  repeat (apply unproven_bind; [first [by apply quiet_set_fresh | apply quiet_uuid | by apply quiet_neutral; eauto with quiet
    | idtac]|intros ?]); [|apply quiet_neutral; eauto with quiet].
  destruct idem; apply quiet_neutral; [|eauto with quiet]. apply neutral_bind; eauto with quiet.
Qed.

Lemma quiet_submit sessions book sid owner req verified payload fp now wall :
  quiet (submit utc_timestamp sessions book sid owner req verified payload fp now wall).
Proof.
  unfold submit. apply unproven_bind.
  { apply quiet_neutral, neutral_catch; [apply neutral_lift|]. intros e k [= <-]. by intros s. }
  intros session. apply unproven_bind; [apply quiet_neutral, neutral_check|intros _].
  apply unproven_bind; [apply quiet_neutral, neutral_demand|intros _]. apply unproven_bind; [apply quiet_neutral, neutral_get|intros s0].
  destruct (svc_idempotency s0); [|apply quiet_submit_claimed]. apply unproven_bind.
  { apply quiet_neutral, neutral_catch; [apply neutral_on_store|]. intros e k Hk. destruct e; simplify_eq. by intros s. }
  intros ref. apply unproven_bind.
  { apply quiet_neutral. apply neutral_bind; [apply neutral_get|intros ?; apply neutral_ret]. }
  intros [claim|]; [|apply quiet_neutral; by intros s]. destruct (bool_decide (i_state claim = COMPLETED)).
  - apply quiet_neutral, neutral_bind; [apply neutral_get|]. intros s1. case_match; [apply neutral_lift|by intros s].
  - apply unproven_catch; [apply quiet_submit_claimed|]. intros e k Hk. destruct e; simplify_eq.
    apply unproven_bind; [|intros _; apply quiet_neutral; by intros s]. apply quiet_neutral. unfold release_claim, claim_state.
    apply neutral_bind; [apply neutral_bind; [apply neutral_get|intros ?; apply neutral_ret]|].
    intros [c|]; [case_match; [apply neutral_on_store|apply neutral_ret]|apply neutral_ret].
Qed.

Lemma traced_publish_begin s eid J : traced J s (publish_begin eid s).1.
Proof.
  unfold publish_begin, record_. run_unfold. destruct (svc_records s !! eid) as [r|]; simpl; [|apply traced_refl].
  destruct (x_publishing r && _); [|apply traced_refl]. destruct (x_output_pending r), (x_reservation r); exact (traced_refl J s).
Qed.

Lemma traced_report_output s eid body answer wall J :
  svc_wf s → traced J s (report_output utc_timestamp eid body answer wall s).1.
Proof.
  intros Hw. apply traced_record; [done|]. intros r _ _ _. case_match; [apply tr_ret|]. case_match.
  - apply tr_set_bind; [keep_good|]. apply tr_neutral_bind; [apply neutral_cancel_reservation|intros; apply tr_ret].
  - case_match; [apply tr_neutral; by intros s1|]. apply tr_set_evaluate. keep_good.
Qed.

Lemma traced_teardown_lease s eid J : svc_wf s → traced J s (teardown_lease eid s).1.
Proof.
  intros Hw. unfold teardown_lease, record_. run_unfold. destruct (svc_records s !! eid) as [r|] eqn:E; [|apply traced_refl].
  destruct (sw_record s Hw _ _ E) as [Hid _]. case_match; [|apply traced_refl]. case_match; [apply traced_refl|].
  rewrite <-Hid. apply traced_release. unfold holds. by rewrite Hid.
Qed.

Lemma traced_release_quiescence s eid J : svc_wf s → traced J s (release_quiescence_lease eid s).1.
Proof.
  intros Hw. unfold release_quiescence_lease, record_. run_unfold.
  destruct (svc_records s !! eid) as [r|] eqn:E; [|apply traced_refl].
  destruct (sw_record s Hw _ _ E) as [Hid _]. case_match; [|apply traced_refl]. case_match; [apply traced_refl|].
  rewrite <-Hid. apply traced_release. unfold holds. by rewrite Hid.
Qed.

Lemma traced_teardown_input s eid J : svc_wf s → traced J s (teardown_input eid s).1.
Proof.
  intros Hw. apply traced_record; [done|]. intros r _ _ _. unfold when_. case_match; [|apply tr_ret].
  apply tr_set_bind; [keep_good|]. by apply tr_neutral, neutral_call.
Qed.

Lemma traced_teardown_output s eid abandoned J : svc_wf s → traced J s (teardown_output eid abandoned s).1.
Proof.
  intros Hw. apply traced_record; [done|]. intros r _ _ _. unfold when_. case_match; [|apply tr_ret]. apply tr_neutral.
  apply neutral_bind; [by apply neutral_call|intros _]. destruct abandoned; [|apply neutral_cleanup].
  apply neutral_bind; [by apply neutral_call|intros _]. apply neutral_cleanup.
Qed.

Lemma traced_guard s sessions book eid now J : svc_wf s → traced J s (pre_dispatch_guard canonical_size sessions book eid now s).1.
Proof.
  intros Hw. apply traced_record; [done|]. intros r _ _ _. case_match; [apply tr_ret|]. case_match; [|apply tr_ret].
  case_match; [apply tr_ret|].
  do 2 (apply tr_neutral_bind; [apply neutral_lift|intros ? ? ? _]). case_match; [apply tr_ret|]. case_match; [apply tr_ret|].
  apply tr_neutral_bind; [apply neutral_lift|intros ? ? ? _]. apply tr_neutral_bind; [apply neutral_get|intros ? ? ? _].
  apply (tr_then _ _ _ _ (fun _ => None)), tr_set. apply refence_good.
Qed.

Lemma traced_admitted s eid lease J : svc_wf s → traced J s (admitted eid lease s).1.
Proof.
  intros Hw. apply traced_record_get; [done|]. intros r _ _. case_match; [apply tr_ret|].
  apply (tr_then _ _ _ _ (fun _ => false)), tr_set. intros Hg. apply refence_good. revert Hg. keep_good.
Qed.

Lemma traced_commit s eid fence res J : svc_wf s → traced J s (dispatch_commit eid fence res s).1.
Proof.
  intros Hw. apply traced_record; [done|]. intros r _ _ _. case_match; [apply tr_ret|].
  apply (tr_then _ _ _ _ (fun _ => false)), tr_set. intros Hg. by destruct (terminal _).
Qed.

Lemma traced_timeout s eid answer wall J : svc_wf s → traced J s (on_timeout utc_timestamp eid answer wall s).1.
Proof.
  intros Hw. apply traced_record; [done|]. intros r _ _ _. case_match; [apply tr_ret|].
  apply tr_stop. intros _. apply cancelling_good.
Qed.

Lemma traced_uncertain s eid message identity answer wall J :
  svc_wf s → traced J s (terminate_uncertain utc_timestamp eid message identity answer wall s).1.
Proof.
  intros Hw. apply traced_record_get; [done|]. intros r _ _. case_match; [apply tr_ret|]. apply tr_stop. intros Hg.
  unfold mark_reason. destruct (x_terminal_code r); cbv zeta; destruct (terminal _), (_ && _);
    try (destruct (x_instance _)); revert Hg; keep_good.
Qed.

(** The evidence of a record after a section was there before or is [trusted]. *)
Lemma x_exec_traced c s : svc_wf s → traced (trusted s c) s (x_exec c s).
Proof.
  intros Hw. destruct c; cbn [x_exec].
  - apply traced_weaken, quiet_submit.
  - by apply traced_cancel.
  - by apply traced_report_output.
  - destruct (make_evidence e) as [e'|] eqn:He; [|apply traced_refl].
    destruct (make_evidence_ret _ _ He) as [-> He']. by apply traced_report_terminal.
  - apply traced_publish_begin.
  - case_bool_decide; [by apply traced_publish_end|apply traced_refl].
  - by apply traced_teardown_lease.
  - by apply traced_teardown_input.
  - by apply traced_teardown_output.
  - by apply traced_scan.
  - by apply traced_guard.
  - apply traced_terminate; [done|]. intros r Hid Hs. by split_and!.
  - apply traced_record; [done|]. intros r _ _ _. apply tr_set. keep_good.
  - unfold admission_refused. destruct (admission_refusal e) as [[code message]|] eqn:He.
    + apply traced_terminate; [done|]. intros r Hid Hs. split_and!; [done..|eauto].
    + apply traced_record; [done|]. intros r _ _ _. apply tr_set. keep_good.
  - by apply traced_admitted.
  - by apply traced_commit.
  - by apply traced_after_execute.
  - by apply traced_timeout.
  - by apply traced_uncertain.
  - apply traced_weaken, quiet_neutral. unfold quiesce_scan. apply neutral_bind; [apply neutral_get|]. intros s1.
    case_match; (apply neutral_bind; [apply neutral_quiescing|intros _; apply neutral_ret]).
  - by apply traced_release_quiescence.
  - by apply traced_stopped.
  - by apply traced_draining.
Qed.

(** Evidence on file after a run was given by one of its sections, on a record it was allowed to settle. *)
Lemma x_run_traced cs s eid r e :
  svc_wf s → (∀ r0, svc_records s !! eid = Some r0 → x_evidence r0 = None) →
  svc_records (x_run cs s) !! eid = Some r → x_evidence r = Some e →
  ∃ before c after r0, cs = before ++ c :: after ∧ svc_records (x_run before s) !! eid = Some r0 ∧
    trusted (x_run before s) c r0 e.
Proof.
  intros Hw Hnone. revert r. induction cs as [|c cs IH] using rev_ind; intros r Hr He.
  { simpl in Hr. rewrite (Hnone r Hr) in He. done. }
  unfold x_run in Hr. rewrite foldl_app in Hr. simpl in Hr. change (foldl _ s cs) with (x_run cs s) in Hr.
  destruct (x_run_sound cs s Hw) as [Hw1 _].
  destruct (x_exec_traced c _ Hw1 _ _ _ Hr He) as (r0 & Hr0 & [Hkeep|HJ]).
  - destruct (IH r0 Hr0 Hkeep) as (before & c' & after & r1 & -> & H1 & H2).
    exists before, c', (after ++ [c]), r1. by rewrite <-app_assoc.
  - by exists cs, c, [], r0.
Qed.

Lemma ExecutionService_init_wf boot cap w p lim g managed idem hook s :
  ExecutionService_init boot cap w p lim g managed idem hook = Ret s → svc_wf s.
Proof.
  unfold ExecutionService_init. run_unfold. destruct (_ || _); [done|]. destruct hook; [done|]. intros [= <-].
  split; simpl; try done; [constructor|by intros eid ?%not_elem_of_nil].
Qed.
End Service.

(** The sections of one instance of the service, from its construction on. *)
Definition reached `{PyEnv} `{Mac} (utc : string → bool) (size : json → Z) (cs : list xcall) (s : ExecutionService) : Prop :=
  ∃ boot cap w p lim g managed idem hook s0,
    ExecutionService_init boot cap w p lim g managed idem hook = Ret s0 ∧ s = x_run utc size cs s0.

Section Claims.
Context `{PE : PyEnv} `{PL : !PyEnvLaws} `{MC : Mac} (utc : string → bool) (size : json → Z).

(** C7: no terminal is invented.  After any sequence of service sections
    (submissions, cancels, outputs, terminal reports, dispatch, timeouts, quiesce
    rounds, session drains, in any order), every record on file is consistent: it
    is settled exactly in a terminal state, [succeeded] has a published result and
    no error, [failed] and [cancelled] have an error and no result, an open record
    has neither, it has a container identity exactly when it was dispatched, and
    its fence names the execution itself.  A record in a terminal state carries
    evidence [e] that one section of the sequence gave it while it was unsettled:
    a terminal report, well formed, of the same boot, model, generation, operation
    and execution and no earlier attempt, the first one, and saying [not_started]
    only of a record that was not dispatched; a cancel by the owner that passed the
    token check, an expired queue deadline or a session drain, each only while no
    dispatch was committed, with the service's own not_started evidence; a refusal
    before or by the backend, with the code of the refusal; the completion of a
    managed request whose adapter claims quiescence, with the identity of its
    handle; or an independent stop, with the identity of the handle or the one
    expected. *)
Theorem terminal_is_proven cs s eid r :
  reached utc size cs s → svc_records s !! eid = Some r →
  x_execution_id r = eid ∧ record_wf r ∧
  (is_terminal (x_state r) = true →
     ∃ e before c after s0 r0,
       x_evidence r = Some e ∧ cs = before ++ c :: after ∧ reached utc size before s0 ∧
       svc_records s0 !! eid = Some r0 ∧ trusted s0 c r0 e).
Proof.
  intros (boot & cap & w & p & lim & g & managed & idem & hook & s0 & Hi & ->) Hr. pose proof Hi as Hi'.
  apply ExecutionService_init_wf in Hi as Hw. destruct (x_run_sound utc size cs s0 Hw) as [Hw1 _].
  destruct (sw_record _ Hw1 _ _ Hr) as [Hid Hwf]. split_and!; [done..|]. intros Ht.
  destruct (xw_evidence r Hwf Ht) as [e He].
  destruct (x_run_traced utc size cs s0 eid r e Hw) as (before & c & after & r0 & Hcs & H1 & H2); [|done..|].
  { intros r0 Hr0. unfold ExecutionService_init in Hi'. revert Hi' Hr0. run_unfold. destruct (_ || _); [done|].
    destruct hook; [done|]. by intros [= <-]. }
  exists e, before, c, after, (x_run utc size before s0), r0. split_and!; try done.
  by exists boot, cap, w, p, lim, g, managed, idem, hook, s0.
Qed.

(** C8: a terminal is final.  Once an execution is settled, no later section,
    late output, duplicate or foreign terminal report, cancel, timeout or session
    drain changes its state, result, error, evidence or instance. *)
Theorem terminal_is_final cs cs' s eid r :
  reached utc size cs s → svc_records s !! eid = Some r → x_settled r = true →
  ∃ r', svc_records (x_run utc size cs' s) !! eid = Some r' ∧ x_settled r' = true ∧ outcome_of r' = outcome_of r.
Proof.
  intros (boot & cap & w & p & lim & g & managed & idem & hook & s0 & Hi & ->) Hr Hs.
  apply ExecutionService_init_wf in Hi. destruct (x_run_sound utc size cs s0 Hi) as [Hw _].
  destruct (x_run_sound utc size cs' _ Hw) as [_ Hm]. destruct (Hm _ _ Hr) as (r' & Hr' & Hk). exists r'.
  split; [done|]. by apply Hk.
Qed.

(** A lease is returned at most once.  Whatever the order of teardowns and
    quiesce rounds, the service calls [release] for an execution at most once,
    and only when the execution was given a lease. *)
Theorem lease_released_once cs s eid :
  reached utc size cs s →
  0 ≤ releases eid (svc_calls s) ≤ 1 ∧
  (releases eid (svc_calls s) = 1 →
     ∃ r, svc_records s !! eid = Some r ∧ x_lease_released r = true ∧ is_Some (x_lease r)).
Proof.
  intros (boot & cap & w & p & lim & g & managed & idem & hook & s0 & Hi & ->).
  apply ExecutionService_init_wf in Hi. destruct (x_run_sound utc size cs s0 Hi) as [Hw _].
  rewrite (sw_releases _ Hw eid). destruct (svc_records _ !! eid) as [r|] eqn:E; simpl; [|lia].
  destruct (x_lease_released r) eqn:Hrel; [|lia]. split; [lia|]. intros _. exists r. split_and!; [done|done|].
  destruct (sw_record _ Hw _ _ E) as [_ Hwf]. by apply (xw_released r Hwf).
Qed.
End Claims.
