(* ===== verification/ExecutionDemo.v ===== *)
(** * Executions that run

    A service over an active session: one execution succeeds, one is cancelled
    while it waits for its slot.  The witnesses of the claims of ExecutionProps,
    and two runs that show where the service falls short of its own comments. *)

From S2P Require Import Prelude Text Dict Env Contracts Registry RegistryFacts RegistryProps Queue Sessions SessionsProps.
From S2P Require Import Registration Protocol JsonText Identity Idempotency Execution ExecutionProps.
Local Open Scope Z_scope.

#[local] Existing Instance demo_mac.
Definition any_time : string → bool := fun _ => true.
Definition small : json → Z := fun _ => 10.

Definition demo_service : ExecutionService :=
  {| svc_boot_id := "boot-1"; svc_queue_capacity := 128; svc_wait_seconds := 1800; svc_managed := false;
     svc_idempotency := Some demo_store; svc_records := ∅; svc_pending_cleanup := []; svc_quiescing := [];
     svc_publish_inflight := []; svc_uuid_calls := 0; svc_calls := [] |}.

Definition demo_request : CreateRequest :=
  {| cr_operation := "chat"; cr_input := {| in_inline := Some (JObj []); in_blob := None |}; cr_parameters := [];
     cr_idempotency_key := "k1" |}.
Definition demo_submit : xcall := XSubmit demo_mq.1 demo_ready "s1" "uid:1000" demo_request (Ret tt) "{}" None 12 100.

Definition demo_instance : InstanceIdentity :=
  {| container_id := "c0ffee"; started_at := "2026-01-01T00:00:00+00:00"; deployment_id := "dep-1"; inst_model_id := "a";
     inst_runtime_id := "llama-r1"; candidate_digest := "0123456789abcdef0123456789abcdef0123456789abcdef0123456789abcdef";
     inst_image_digest := "llama@sha256:0123456789abcdef0123456789abcdef0123456789abcdef0123456789abcdef" |}.
Definition demo_fence : Fence :=
  {| f_boot_id := "boot-1"; f_model_id := "a"; f_generation := 1; f_operation_id := "u1"; f_execution_id := Some "u0";
     f_attempt := Some 1 |}.
Definition demo_evidence : TerminationEvidence :=
  {| ev_fence := demo_fence; ev_dispatch_state := dispatched; ev_device_synchronized := true; ev_reason := Some "done";
     ev_instance := Some demo_instance |}.
Definition demo_exec_lease : Lease :=
  {| lease_id := "l1"; lease_request_id := "u0"; lease_model_id := "a"; lease_generation := 1 |}.
Definition demo_blob : BlobRef :=
  {| blob_id := "o-u0"; blob_owner := "uid-1000";
     blob_sha256 := "0123456789abcdef0123456789abcdef0123456789abcdef0123456789abcdef"; blob_size_bytes := 2;
     blob_media_type := "application/json" |}.

(** Terminal report first, output second, then the publish and the teardown. *)
Definition demo_dispatch : list xcall :=
  [demo_submit; XScan "s1" 13 100; XGuard demo_mq.1 demo_ready "u0" 13; XAdmitted "u0" demo_exec_lease;
   XCommit "u0" demo_fence "o-u0"].
Definition demo_success : list xcall :=
  demo_dispatch ++ [XTerminal "u0" demo_evidence 101; XOutput "u0" "{}" true 102; XPublishBegin "u0";
                    XPublishEnd "u0" (Written demo_blob) 103; XTeardownLease "u0"; XTeardownInput "u0"; XTeardownOutput "u0" true].

Definition demo_run (cs : list xcall) : ExecutionService := x_run any_time small cs demo_service.
Definition demo_exec (cs : list xcall) : option ExecutionRecord := svc_records (demo_run cs) !! "u0".

Example demo_succeeds :
  (x_state <$> demo_exec demo_success) = Some SUCCEEDED ∧ svc_calls (demo_run demo_success)
    = [CallWriteOutput "u0" "{}"; CallRelease "u0" demo_exec_lease SUCCESS].
Proof. vm_compute. done. Qed.

Lemma demo_reached cs : reached any_time small cs (demo_run cs).
Proof. exists "boot-1", 128, 1800, 1, 1, 1, false, (Some demo_store), false, demo_service. by split. Defined.

Definition demo_final : ExecutionRecord :=
  match demo_exec demo_success with Some r => r | None => new_execution "" "" "" "" "" demo_request "" 0 0 None end.

Lemma terminal_is_proven_witness :
  x_state demo_final = SUCCEEDED ∧ record_wf demo_final ∧
  ∃ e before c after s0 r0,
    x_evidence demo_final = Some e ∧ demo_success = before ++ c :: after ∧ reached any_time small before s0 ∧
    svc_records s0 !! "u0" = Some r0 ∧ trusted s0 c r0 e.
Proof.
  destruct (terminal_is_proven any_time small demo_success (demo_run demo_success) "u0" demo_final) as (_ & Hwf & Hev).
  - apply demo_reached.
  - vm_compute. reflexivity.
  - split; [vm_compute; reflexivity|]. split; [exact Hwf|]. apply Hev. vm_compute. reflexivity.
Defined.

Lemma terminal_is_final_witness :
  ∃ r', svc_records (x_run any_time small [XOutput "u0" "late" true 200; XCancel "u0" "uid:1000" (Ret tt) true 201;
                                           XDraining "s1" (fun _ => true) 202] (demo_run demo_success)) !! "u0" = Some r' ∧
    x_settled r' = true ∧ outcome_of r' = outcome_of demo_final.
Proof.
  apply (terminal_is_final any_time small demo_success); [apply demo_reached|vm_compute; reflexivity|vm_compute; reflexivity].
Defined.

Lemma lease_released_once_witness :
  releases "u0" (svc_calls (demo_run demo_success)) = 1 ∧
  (0 ≤ releases "u0" (svc_calls (demo_run demo_success)) ≤ 1 ∧
   (releases "u0" (svc_calls (demo_run demo_success)) = 1 →
      ∃ r, svc_records (demo_run demo_success) !! "u0" = Some r ∧ x_lease_released r = true ∧ is_Some (x_lease r))).
Proof.
  split; [vm_compute; reflexivity|]. apply (lease_released_once any_time small demo_success). apply demo_reached.
Defined.

(** ** A lease granted to an execution that was cancelled meanwhile

    The comment at the section after [_admit] says the teardown releases the fresh
    lease.  The lease is not stored in the record, so no release is ever called:
    the client cancels while the execution waits for its slot, the scheduler then
    grants a lease, and after the teardown the scheduler still holds it. *)
Theorem granted_lease_of_cancelled_is_kept :
  let s := demo_run [demo_submit; XScan "s1" 13 100; XGuard demo_mq.1 demo_ready "u0" 13;
                     XCancel "u0" "uid:1000" (Ret tt) true 101; XTeardownLease "u0"] in
  result_of (admitted "u0" demo_exec_lease s) = Ret true ∧
  releases "u0" (svc_calls (state_of (teardown "u0" true (state_of (admitted "u0" demo_exec_lease s))))) = 0.
Proof. vm_compute. done. Qed.

(** ** A session that vanished

    [session_not_active] ends an execution but is not in the error table, so the
    view of the settled record is refused by the parser that guards it. *)
Theorem session_not_active_has_no_view :
  let s := demo_run [demo_submit; XRefused "u0" "session_not_active" "the session is gone" 101] in
  (x_state <$> svc_records s !! "u0") = Some CANCELLED ∧
  result_of (view_of any_time "u0" "uid:1000" s) = Raise (ContractError "unknown error code").
Proof. vm_compute. done. Qed.
