(* ===== verification/Api.v ===== *)
(** * The control routes

    [model_scheduler/control_api.py]: the requests of the control socket, over
    the services they reach.  The services are a record of operations on a
    shared state; [ApiServices] builds it from the modelled components.  At every
    await the other tasks of the process run first: [meanwhile n] is what the
    [n]-th await of this request makes of the shared state. *)

From S2P Require Import Prelude Text Dict Env Contracts Registration JsonText Identity Idempotency Protocol Requests Blobs BlobStore Execution Sessions Control.
From Stdlib Require Import Ascii.
Local Open Scope Z_scope.

(** ** Requests and answers *)
Inductive Event := Chunk (body : string) (more_body : bool) | Disconnect | Broken.

Record Request := {
  rq_peer : option PeerIdentity;
  rq_method : string;
  rq_path : string;
  rq_headers : list (string * string);
  rq_request_id : string;
}.

Inductive Message :=
| ResponseStart (status : Z) (headers : list (string * string))
| ResponseBody (body : string).

Record SessionBinding := {
  bd_session_id : string;
  bd_owner : string;
  bd_model_id : string;
  bd_issued_at : time;
  bd_expires_at : time;
  bd_fingerprint : string;
}.

(** ** Text *)

(** [json.dumps(payload)]: the separators are a comma and a space, a colon and a
    space. *)
Section Spaced.
Context `{FloatText}.
Fixpoint dumps_plain (v : json) : string :=
  match v with
  | JList l => "[" +:+ join ", " (map dumps_plain l) +:+ "]"
  | JObj fields => "{" +:+ join ", " (map (fun kv => json_string true kv.1 +:+ ": " +:+ dumps_plain kv.2) fields) +:+ "}"
  | _ => write true v
  end.
End Spaced.

(** [bytes.lower()] *)
Definition lower_bytes (s : string) : string := text_of (map lower_char (chars s)).
(** [bytes(value).decode("latin-1")] *)
Definition latin1 (s : string) : string := concat_text (map (fun c => utf8 (code c)) (chars s)).

Definition header (headers : list (string * string)) (name : string) : option string :=
  latin1 ∘ snd <$> List.find (fun kv => String.eqb (lower_bytes kv.1) (lower_bytes name)) headers.

(** [int(text)]: white space around, a sign, digits with single underscores. *)
Fixpoint digits_of (l : list Z) (acc : Z) (after_digit : bool) : option Z :=
  match l with
  | [] => if after_digit then Some acc else None
  | c :: l =>
      if (48 <=? c) && (c <=? 57) then digits_of l (10 * acc + (c - 48)) true
      else if (c =? 95) && after_digit then digits_of l acc false else None
  end.
Definition int_of_text (s : string) : option Z :=
  match strip (codepoints s) with
  | 43 :: l => digits_of l 0 false
  | 45 :: l => Z.opp <$> digits_of l 0 false
  | l => digits_of l 0 false
  end.

(** [message[:512]] *)
Definition MAX_ERROR_TEXT : nat := 512.
Definition cut_text (n : nat) (s : string) : string := concat_text (utf8 <$> take n (codepoints s)).

(** ** Routes *)
Definition BLOB_PREFIX : string := "/internal/blobs/".
Definition SESSION_PREFIX : string := "/internal/sessions/".
Definition EXECUTION_PREFIX : string := "/internal/executions/".

(** The part of a text before the first slash, and the rest with it. *)
Fixpoint cut_slash (l : list ascii) : list ascii * list ascii :=
  match l with
  | [] => ([], [])
  | c :: l' => if code c =? 47 then ([], l) else let (a, b) := cut_slash l' in (c :: a, b)
  end.

(** [prefix(id)(suffix)?], with the suffix in the group *)
Definition match_route (prefix : string) (suffixes : list string) (path : string) : option (string * string) :=
  match after prefix path with
  | Some rest =>
      let (id, suffix) := cut_slash (chars rest) in
      if ID_RE (text_of id) && (bool_decide (suffix = []) || bool_decide (text_of suffix ∈ suffixes))
      then Some (text_of id, text_of suffix) else None
  | None => None
  end.
Definition blob_route : string → option (string * string) := match_route BLOB_PREFIX [].
Definition session_route : string → option (string * string) := match_route SESSION_PREFIX ["/heartbeat"; "/close"].
Definition execution_route : string → option (string * string) := match_route EXECUTION_PREFIX ["/cancel"].

Inductive Handler :=
| blob_upload | blob_read | blob_delete | session_create | session_read | session_heartbeat | session_close
| execution_create | execution_read | execution_cancel.
#[export] Instance Handler_eq_dec : EqDecision Handler.
Proof. solve_decision. Defined.

Definition route (method path : string) : option Handler :=
  if String.eqb method "POST" && String.eqb path "/internal/blobs" then Some blob_upload
  else if String.eqb method "POST" && String.eqb path "/internal/sessions" then Some session_create
  else if String.eqb method "POST" && String.eqb path "/internal/executions" then Some execution_create
  else
    match blob_route path with
    | Some _ => if String.eqb method "GET" then Some blob_read else if String.eqb method "DELETE" then Some blob_delete else None
    | None =>
        match session_route path with
        | Some (_, suffix) =>
            if String.eqb suffix "" then if String.eqb method "GET" then Some session_read else None
            else if negb (String.eqb method "POST") then None
            else if String.eqb suffix "/heartbeat" then Some session_heartbeat else Some session_close
        | None =>
            match execution_route path with
            | Some (_, suffix) =>
                if String.eqb suffix "" then if String.eqb method "GET" then Some execution_read else None
                else if String.eqb method "POST" then Some execution_cancel else None
            | None => None
            end
        end
    end.

Definition route_id (m : option (string * string)) : outcome string :=
  match m with Some (id, _) => Ret id | None => Raise (Refused "not_found") end.

(** ** Refusals *)
Definition SESSION_CONFLICTS : list (string * string) :=
  [("session_capacity", "queue_full"); ("duplicate_session", "busy"); ("invalid_hard_deadline", "contract_violation")].
Definition SESSION_UNAVAILABLE : list (string * string) :=
  [("storage_unavailable", "storage_unavailable"); ("session_blocked", "temporarily_unavailable");
   ("service_shutting_down", "temporarily_unavailable")].
Definition BLOB_FAILURES : list (string * string) :=
  [("not_found", "not_found"); ("expired", "reference_expired"); ("too_large", "payload_too_large");
   ("quota_exceeded", "quota_exceeded"); ("unsupported_media_type", "unsupported_media_type");
   ("checksum_mismatch", "contract_violation"); ("forbidden", "not_found"); ("unreadable", "storage_unavailable");
   ("storage", "storage_unavailable"); ("cancelled", "busy")].

(** The code an exception is refused with; [None] for one that is not handled.
    [IdempotencyError] is a subclass of [IdentityError]. *)
Definition refusal_code (e : exn) : option string :=
  match e with
  | Refused c => Some c
  | ContractError _ => Some "contract_violation"
  | BlobStoreError c => Some (default "storage_unavailable" (assoc c BLOB_FAILURES))
  | IdentityError c | IdempotencyError c => Some (if known_code c then c else "peer_forbidden")
  | ExecutionError c => Some c
  | SessionConflict m => Some (default "busy" (assoc m SESSION_CONFLICTS))
  | SessionNotFound _ => Some "not_found"
  | ModelUnavailable m => Some (default "temporarily_unavailable" (assoc m SESSION_UNAVAILABLE))
  | KeyError _ => Some "not_found"
  | _ => None
  end.

(** ** The services *)
Record Services (W : Type) := {
  sv_register_session : string → string → string → pym W SessionView;
  sv_heartbeat_session : string → pym W SessionView;
  sv_close_session : string → string → pym W SessionView;
  sv_session_view : string → pym W SessionView;
  sv_holding_id : W → option string;
  sv_hard_deadline_seconds : W → time;
  sv_submit : string → string → json → pym W json;
  sv_view : string → string → pym W json;
  sv_cancel : string → string → string → pym W json;
  sv_media_types : W → list string;
  sv_upload : string → string → string → list string → option exn → string → option Z → pym W BlobRecord;
  sv_blob : W → string → option BlobRecord;
  sv_read_all : string → string → string → pym W string;
  sv_delete : string → string → time → pym W DeleteOutcome;
  sv_store : W → option IdempotencyStore;
  sv_set_store : IdempotencyStore → W → W;
}.
Arguments sv_register_session {_} _ _ _ _.
Arguments sv_heartbeat_session {_} _ _.
Arguments sv_close_session {_} _ _ _.
Arguments sv_session_view {_} _ _.
Arguments sv_holding_id {_} _ _.
Arguments sv_hard_deadline_seconds {_} _ _.
Arguments sv_submit {_} _ _ _ _.
Arguments sv_view {_} _ _ _.
Arguments sv_cancel {_} _ _ _ _.
Arguments sv_media_types {_} _ _.
Arguments sv_upload {_} _ _ _ _ _ _ _ _.
Arguments sv_blob {_} _ _ _.
Arguments sv_read_all {_} _ _ _ _.
Arguments sv_delete {_} _ _ _ _.
Arguments sv_store {_} _ _.
Arguments sv_set_store {_} _ _ _.

(** What the process shares: the services' state and the API's own tables. *)
Record Shared (W : Type) := {
  sh_world : W;
  sh_sessions : dict string SessionBinding;
  sh_session_tokens : dict string string;
}.
Arguments sh_world {_} _.
Arguments sh_sessions {_} _.
Arguments sh_session_tokens {_} _.

(** The calls a request made to the services. *)
Inductive Ask :=
| AskRegister (model_id owner session_id : string)
| AskHeartbeat (session_id : string)
| AskClose (session_id : string)
| AskSessionView (session_id : string)
| AskSubmit (session_id owner : string)
| AskView (execution_id owner : string)
| AskCancel (execution_id owner token : string)
| AskUpload (blob_id owner : string)
| AskRead (blob_id owner : string)
| AskDelete (blob_id owner : string).

(** One request: the shared state, the body still to come, what was sent and
    asked, the awaits so far with the shared state each found, and the identifiers
    drawn. *)
Record Site (W : Type) := {
  st_shared : Shared W;
  st_inbox : list Event;
  st_sent : list Message;
  st_asked : list Ask;
  st_awaits : nat;
  st_history : list (Shared W);
  st_uuids : nat;
}.
Arguments st_shared {_} _.
Arguments st_inbox {_} _.
Arguments st_sent {_} _.
Arguments st_asked {_} _.
Arguments st_awaits {_} _.
Arguments st_history {_} _.
Arguments st_uuids {_} _.
#[export] Instance Site_eta {W} : Eta (Site W) := fun s =>
  {| st_shared := st_shared s; st_inbox := st_inbox s; st_sent := st_sent s; st_asked := st_asked s;
     st_awaits := st_awaits s; st_history := st_history s; st_uuids := st_uuids s |}.

Definition with_world {W} (w : W) (s : Shared W) : Shared W :=
  {| sh_world := w; sh_sessions := sh_sessions s; sh_session_tokens := sh_session_tokens s |}.

(** [ControlAPI.__init__]: which services are wired in, and the tokens. *)
Record ControlAPI := {
  api_boot_id : string;
  api_blobs : bool;
  api_scheduler : bool;
  api_service : bool;
  api_tokens : option TokenAuthority;
  api_idempotency : bool;
}.

(** ** Handlers *)
Definition PROTOCOL_VERSION_HEADER : string := "X-SMS-Protocol-Version".
Definition PROTOCOL_VERSION : string := "1".
Definition NS_PER_MS : Z := 1000000.

(** [_no_duplicate_keys]; NaN and the infinities are read as floats. *)
Definition body_hooks : Hooks :=
  {| on_constant := fun _ => Ret (JFloat None);
     on_object := fun pairs => fields ← reject_duplicate_keys [] pairs; Ret (JObj fields) |}.

Definition read_document (payload : string) : outcome json :=
  if negb (utf8_valid payload) then Raise (Refused "malformed_json")
  else match loads body_hooks payload with
       | Raise (ValueError _) => Raise (Refused "malformed_json")
       | o => o
       end.

Definition session_token_of (document : json) : outcome string :=
  match document with
  | JObj fields =>
      if negb (bool_decide (fields ≠ []) && forallb (String.eqb "session_token") (fields.*1)) then err "the request body must be exactly session_token"
      else match jget "session_token" fields with
           | Some (JStr t) =>
               if String.eqb t "" || (4096 <? Z.of_nat (length (codepoints t))) then err "session_token must be a non-empty string" else Ret t
           | _ => err "session_token must be a non-empty string"
           end
  | _ => err "the request body must be exactly session_token"
  end.

(** [_body_chunks]: the chunks of the stream, and the exception it ends with. *)
Fixpoint body_chunks (limit total : Z) (events : list Event) : list string * option exn :=
  match events with
  | [] => ([], None)
  | Disconnect :: _ => ([], Some (Refused "temporarily_unavailable"))
  | Broken :: _ => ([], Some (ControlServerError "body"))
  | Chunk block more :: events =>
      if String.eqb block "" then if more then body_chunks limit total events else ([], None)
      else
        let total := total + Z.of_nat (String.length block) in
        if limit <? total then ([], Some (Refused "payload_too_large"))
        else if more then let (l, e) := body_chunks limit total events in (block :: l, e) else ([block], None)
  end.

Definition phase_text (p : SessionPhase) : string :=
  match p with
  | PREPARING => "preparing" | ACTIVE => "active" | DRAINING => "draining" | CLOSED => "closed" | BLOCKED => "blocked"
  end.

Definition session_grant (owner model_id session_id : string) : Grant :=
  {| g_owner := owner; g_model_id := model_id; g_session_id := Some session_id; g_execution_id := None |}.

Section Handlers.
Context {W : Type} (sv : Services W) (api : ControlAPI).
Context `{PyEnv} `{Mac} `{Digest} `{FloatText} `{Codecs}.
Context (meanwhile : nat → Shared W → Shared W) (clock : nat → time) (str_of : exn → string).
Notation site := (pym (Site W)).

(** An await: the other tasks run. *)
Definition pause : site unit :=
  modify (fun s => s <| st_shared := meanwhile (st_awaits s) (st_shared s) |> <| st_awaits := S (st_awaits s) |>
                     <| st_history := st_history s ++ [st_shared s] |>).
Definition service {A} (m : pym W A) : site A := fun s =>
  let (w, o) := m (sh_world (st_shared s)) in (s <| st_shared := with_world w (st_shared s) |>, o).
Definition ask {A} (a : Ask) (m : pym W A) : site A :=
  pause ;; modify (fun s => s <| st_asked := st_asked s ++ [a] |>) ;; service m.
Definition send (m : Message) : site unit := modify (fun s => s <| st_sent := st_sent s ++ [m] |>).
Definition time_now : site time := s ← get; mret (clock (st_awaits s)).
Definition uuid4_api : site string :=
  s ← get; modify (fun s => s <| st_uuids := S (st_uuids s) |>) ;; mret (uuid4_hex (st_uuids s)).
Definition on_idem {A} (dflt : A) (m : pym IdempotencyStore A) : site A := service (fun w =>
  match sv_store sv w with
  | None => (w, Ret dflt)
  | Some st => let (st', o) := m st in (sv_set_store sv st' w, o)
  end).
Definition refused {A} (code : string) : site A := raise (Refused code).

Definition json_headers (body : string) : list (string * string) :=
  [("content-type", "application/json"); ("content-length", int_text (Z.of_nat (String.length body))); ("connection", "close")].
Definition send_json (status : Z) (payload : json) : site unit :=
  let body := dumps_plain payload in
  send (ResponseStart status (json_headers body)) ;; send (ResponseBody body).

Definition refuse (code message request_id : string) : site unit :=
  s ← get;
  if existsb (fun m => match m with ResponseStart _ _ => true | _ => false end) (st_sent s) then mret tt
  else
    let code := if known_code code then code else "temporarily_unavailable" in
    document ← lift (error_document code (cut_text MAX_ERROR_TEXT message) request_id);
    status ← lift (of_option (KeyError code) (ERROR_STATUS code));
    send_json status document.

(** The body read up to a limit; [events] is the inbox. *)
Fixpoint read_events (limit : Z) (events : list Event) (payload : string) : site string :=
  pause ;;
  match events with
  | [] => mret payload
  | e :: events =>
      modify (fun s => s <| st_inbox := events |>) ;;
      match e with
      | Disconnect => refused "temporarily_unavailable"
      | Broken => raise (ControlServerError "body")
      | Chunk block more =>
          let payload := payload +:+ block in
          if negb (String.eqb block "") && (limit <? Z.of_nat (String.length payload)) then refused "payload_too_large"
          else if more then read_events limit events payload else mret payload
      end
  end.
Definition json_body (limit : Z) : site json :=
  s ← get; payload ← read_events limit (st_inbox s) ""; lift (read_document payload).

(** *** Blobs *)
Definition require_blobs : site unit := if api_blobs api then mret tt else refused "temporarily_unavailable".

Definition declared_size (headers : list (string * string)) : outcome (option Z) :=
  match header headers "content-length" with
  | None => Ret None
  | Some raw => match int_of_text raw with Some n => Ret (Some n) | None => err "content-length must be an integer" end
  end.

Definition blob_reference (r : BlobRecord) : json :=
  JObj [("blob_id", JStr (b_blob_id r)); ("owner", JStr (b_owner r)); ("sha256", jnull (b_sha256 r));
        ("size_bytes", JInt (b_size_bytes r)); ("media_type", JStr (b_media_type r))].

Definition upload_checks (types : list string) (headers : list (string * string)) : outcome (string * string * option Z) :=
  let media_type := lower (strip_str (default "" (header headers "content-type"))) in
  if negb (bool_decide (media_type ∈ types)) then Raise (Refused "unsupported_media_type")
  else
    digest ← match header headers "x-content-sha256" with
             | Some d => if SHA256_RE d then Ret d else err "x-content-sha256 must be a lowercase 64-hex sha-256"
             | None => err "x-content-sha256 must be a lowercase 64-hex sha-256"
             end;
    declared ← declared_size headers;
    _ ← match declared with
        | Some n => if n <? 1 then err "a blob is between 1 byte and 1 GiB"
                    else if MAX_BLOB_BYTES <? n then Raise (Refused "payload_too_large") else Ret tt
        | None => Ret tt
        end;
    Ret (media_type, digest, declared).

Definition do_blob_upload (owner : string) (rq : Request) : site unit :=
  require_blobs ;;
  s ← get;
  checked ← lift (upload_checks (sv_media_types sv (sh_world (st_shared s))) (rq_headers rq));
  let '(media_type, digest, declared) := checked in
  blob_id ← uuid4_api;
  s ← get;
  let (chunks, stream_end) := body_chunks MAX_BLOB_BYTES 0 (st_inbox s) in
  record ← ask (AskUpload blob_id (blob_owner_for owner))
             (sv_upload sv blob_id (blob_owner_for owner) media_type chunks stream_end digest declared);
  lift (_ ← parse_blob_ref (blob_reference record); Ret tt) ;;
  send_json 201 (blob_reference record).

Definition do_blob_read (owner : string) (rq : Request) : site unit :=
  require_blobs ;;
  blob_id ← lift (route_id (blob_route (rq_path rq)));
  let blob_owner := blob_owner_for owner in
  s ← get;
  match sv_blob sv (sh_world (st_shared s)) blob_id with
  | None => refused "not_found"
  | Some record =>
      if negb (String.eqb (b_owner record) blob_owner) then refused "not_found"
      else if bool_decide (b_state record = B_DELETED) then refused "reference_expired"
      else
        body ← ask (AskRead blob_id blob_owner) (sv_read_all sv blob_id blob_owner ("api-" +:+ rq_request_id rq));
        send (ResponseStart 200 [("content-type", b_media_type record);
                                 ("content-length", int_text (Z.of_nat (String.length body))); ("connection", "close")]) ;;
        send (ResponseBody body)
  end.

Definition do_blob_delete (owner : string) (rq : Request) : site unit :=
  require_blobs ;;
  blob_id ← lift (route_id (blob_route (rq_path rq)));
  now ← time_now;
  outcome ← ask (AskDelete blob_id (blob_owner_for owner)) (sv_delete sv blob_id (blob_owner_for owner) now);
  if bool_decide (outcome = Del_held) then refused "blob_in_use"
  else send (ResponseStart 204 [("connection", "close")]) ;; send (ResponseBody "").

(** *** Sessions *)
Definition require_sessions : site TokenAuthority :=
  match api_tokens api with
  | Some tokens => if api_scheduler api then mret tokens else refused "temporarily_unavailable"
  | None => refused "temporarily_unavailable"
  end.

Definition owned_session (owner : string) (rq : Request) : site SessionBinding :=
  sid ← lift (route_id (session_route (rq_path rq)));
  s ← get;
  match sh_sessions (st_shared s) !! sid with
  | Some b => if String.eqb (bd_owner b) owner then mret b else refused "not_found"
  | None => refused "not_found"
  end.

Definition issue_token (tokens : TokenAuthority) (b : SessionBinding) : outcome string :=
  issue tokens (session_grant (bd_owner b) (bd_model_id b) (bd_session_id b)) (bd_expires_at b - bd_issued_at b) (bd_issued_at b).

(** [round(t, 3)] as a time *)
Definition round_ms (t : time) : time := round3 t * NS_PER_MS.

Definition bind (tokens : TokenAuthority) (owner model_id session_id : string) : site SessionBinding :=
  now ← time_now;
  s ← get;
  let issued_at := round_ms now in
  let expires_at := round_ms (issued_at + sv_hard_deadline_seconds sv (sh_world (st_shared s))) in
  token ← lift (issue tokens (session_grant owner model_id session_id) (expires_at - issued_at) issued_at);
  let b := {| bd_session_id := session_id; bd_owner := owner; bd_model_id := model_id; bd_issued_at := issued_at;
              bd_expires_at := expires_at; bd_fingerprint := Identity.fingerprint tokens token |} in
  modify (fun s => s <| st_shared := {| sh_world := sh_world (st_shared s);
                                        sh_sessions := <[session_id := b]> (sh_sessions (st_shared s));
                                        sh_session_tokens := <[bd_fingerprint b := session_id]> (sh_session_tokens (st_shared s)) |} |>) ;;
  mret b.

Definition verify_session_token (tokens : TokenAuthority) (b : SessionBinding) (owner token : string) : site unit :=
  now ← time_now;
  catch (lift (_ ← Identity.verify tokens token (session_grant owner (bd_model_id b) (bd_session_id b)) now; Ret tt))
    (fun e => match e with IdentityError c => Some (raise (ExecutionError c)) | _ => None end).

Definition blocked_error (v : SessionView) : ErrorDetail :=
  let reason := str_or (view_blocked_reason v) "temporarily_unavailable" in
  let code := if known_code reason then reason else "temporarily_unavailable" in
  {| err_code := code; err_message := reason; err_retryable := retryable_code code |}.

(** [_session_document_sync], given the session that holds the machine. *)
Definition session_document_of (tokens : TokenAuthority) (holding : option string) (b : SessionBinding) (v : SessionView) : outcome json :=
  let phase := match view_phase v with
               | PREPARING => JStr (if bool_decide (holding = Some (bd_session_id b)) then "loading" else "queued")
               | DRAINING => JStr "draining_existing"
               | _ => JNull
               end in
  let error := match view_phase v with BLOCKED => error_body (blocked_error v) | _ => JNull end in
  token ← match view_phase v with CLOSED => Ret JNull | _ => t ← issue_token tokens b; Ret (JStr t) end;
  let document :=
    JObj [("session_id", JStr (bd_session_id b)); ("state", JStr (phase_text (view_phase v))); ("phase", phase);
          ("boot_id", JStr (api_boot_id api)); ("model_id", JStr (bd_model_id b));
          ("expires_in_ms", JInt (Z.max 0 (view_expires_in_ms v))); ("hard_remaining_ms", JInt (Z.max 0 (view_hard_remaining_ms v)));
          ("owner_token", token); ("error", error)] in
  _ ← parse_session_view document;
  Ret document.
Definition session_document_sync (tokens : TokenAuthority) (b : SessionBinding) (v : SessionView) : site json :=
  s ← get; lift (session_document_of tokens (sv_holding_id sv (sh_world (st_shared s))) b v).
Definition session_document (tokens : TokenAuthority) (b : SessionBinding) : site json :=
  v ← ask (AskSessionView (bd_session_id b)) (sv_session_view sv (bd_session_id b));
  session_document_sync tokens b v.

Definition create_payload (parsed : SessionCreateRequest) : string :=
  dumps true (JObj [("model_id", JStr (sc_model_id parsed)); ("correlation_id", jnull (sc_correlation_id parsed))]).

(** The part of [_session_create] for a key that was not completed before. *)
Definition register_fresh (tokens : TokenAuthority) (owner model_id : string) (claim : option nat) : site unit :=
  created ← catch
    (session_id ← uuid4_api;
     view ← ask (AskRegister model_id owner session_id) (sv_register_session sv model_id owner session_id);
     b ← bind tokens owner model_id session_id;
     document ← session_document_sync tokens b view;
     mret (session_id, document))
    (fun e => Some (match claim with Some ref => on_idem tt (fail_ ref) ;; raise e | None => raise e end));
  let (session_id, document) := created : string * json in
  now ← time_now;
  match claim with
  | Some ref => _ ← on_idem 0%nat (complete ref 202 (Some session_id) (Some document) None None now); mret tt
  | None => mret tt
  end ;;
  send_json 202 document.

Definition do_session_create (owner : string) (rq : Request) : site unit :=
  tokens ← require_sessions;
  raw ← json_body MAX_INLINE_INPUT_BYTES;
  parsed ← lift (parse_session_create_request raw);
  s ← get;
  match sv_store sv (sh_world (st_shared s)) with
  | None => register_fresh tokens owner (sc_model_id parsed) None
  | Some _ =>
      now ← time_now;
      ref ← on_idem 0%nat (begin_ "session.create" owner (sc_idempotency_key parsed) (create_payload parsed) None None now);
      s ← get;
      match sv_store sv (sh_world (st_shared s)) ≫= fun st => heap st !! ref with
      | None => raise (KeyError "reference")
      | Some record =>
          if bool_decide (i_state record = COMPLETED) then
            match sh_sessions (st_shared s) !! str_or (i_resource_id record) "" with
            | None => refused "not_found"
            | Some replayed => document ← session_document tokens replayed; send_json 202 document
            end
          else register_fresh tokens owner (sc_model_id parsed) (Some ref)
      end
  end.

Definition do_session_read (owner : string) (rq : Request) : site unit :=
  tokens ← require_sessions;
  b ← owned_session owner rq;
  document ← session_document tokens b;
  send_json 200 document.

Definition do_session_heartbeat (owner : string) (rq : Request) : site unit :=
  tokens ← require_sessions;
  b ← owned_session owner rq;
  raw ← json_body MAX_INLINE_INPUT_BYTES;
  token ← lift (session_token_of raw);
  verify_session_token tokens b owner token ;;
  view ← ask (AskHeartbeat (bd_session_id b)) (sv_heartbeat_session sv (bd_session_id b));
  document ← session_document_sync tokens b view;
  send_json 200 document.

(** [document["state"] == CLOSED] *)
Definition state_is (names : list string) (document : json) : bool :=
  match document with
  | JObj fields => match jget "state" fields with Some (JStr s) => bool_decide (s ∈ names) | _ => false end
  | _ => false
  end.

Definition do_session_close (owner : string) (rq : Request) : site unit :=
  tokens ← require_sessions;
  b ← owned_session owner rq;
  raw ← json_body MAX_INLINE_INPUT_BYTES;
  token ← lift (session_token_of raw);
  verify_session_token tokens b owner token ;;
  view ← ask (AskClose (bd_session_id b)) (sv_close_session sv (bd_session_id b) "client_close");
  document ← session_document_sync tokens b view;
  send_json (if state_is ["closed"] document then 200 else 202) document.

(** *** Executions *)
Definition require_service : site TokenAuthority :=
  match api_tokens api with
  | Some tokens => if api_service api then mret tokens else refused "temporarily_unavailable"
  | None => refused "temporarily_unavailable"
  end.

Definition do_execution_create (owner : string) (rq : Request) : site unit :=
  tokens ← require_service;
  document ← json_body MAX_INLINE_INPUT_BYTES;
  parsed ← lift (parse_execution_create_request document);
  s ← get;
  match sh_session_tokens (st_shared s) !! Identity.fingerprint tokens (ec_session_token parsed) with
  | None => raise (ExecutionError "stale_token")
  | Some session_id =>
      view ← ask (AskSubmit session_id owner) (sv_submit sv session_id owner document);
      send_json 202 view
  end.

Definition do_execution_read (owner : string) (rq : Request) : site unit :=
  _ ← require_service;
  eid ← lift (route_id (execution_route (rq_path rq)));
  view ← ask (AskView eid owner) (sv_view sv eid owner);
  send_json 200 view.

Definition do_execution_cancel (owner : string) (rq : Request) : site unit :=
  _ ← require_service;
  raw ← json_body MAX_INLINE_INPUT_BYTES;
  token ← lift (session_token_of raw);
  eid ← lift (route_id (execution_route (rq_path rq)));
  view ← ask (AskCancel eid owner token) (sv_cancel sv eid owner token);
  send_json (if state_is ["succeeded"; "failed"; "cancelled"] view then 200 else 202) view.

Definition handle (h : Handler) : string → Request → site unit :=
  match h with
  | blob_upload => do_blob_upload | blob_read => do_blob_read | blob_delete => do_blob_delete
  | session_create => do_session_create | session_read => do_session_read
  | session_heartbeat => do_session_heartbeat | session_close => do_session_close
  | execution_create => do_execution_create | execution_read => do_execution_read | execution_cancel => do_execution_cancel
  end.

(** The body of the try block of [__call__]. *)
Definition dispatch_request (rq : Request) : site unit :=
  owner ← lift (owner_from_peer (rq_peer rq));
  (if String.prefix "/internal/" (rq_path rq) && negb (bool_decide (header (rq_headers rq) PROTOCOL_VERSION_HEADER = Some PROTOCOL_VERSION))
   then refused "unsupported_protocol" else mret tt) ;;
  match route (rq_method rq) (rq_path rq) with
  | None => refused "not_found"
  | Some h => handle h owner rq
  end.

Definition call_api (rq : Request) : site unit :=
  catch (dispatch_request rq) (fun e =>
    match refusal_code e with Some code => Some (refuse code (str_of e) (rq_request_id rq)) | None => None end).
End Handlers.
