(* ===== verification/ApiProps.v ===== *)
(** * What the control routes guarantee

    For arbitrary services and whatever other tasks do at every await: a request
    is answered once, from the closed error table when it is refused, and every
    call it makes is made in the name of its peer. *)

From S2P Require Import Prelude Text Dict Env Contracts Registration JsonText JsonTextProps Identity IdentityProps Idempotency Protocol Requests RequestsProps Blobs BlobStore Execution Sessions Control Api.
From Stdlib Require Import Ascii.
Local Open Scope Z_scope.

(** ** What a request may ask of the services *)
Section Authority.
Context {W : Type} (sv : Services W) (api : ControlAPI).
Context `{Mac} `{Digest} `{FloatText} `{Codecs}.
Context (clock : nat → time).

(** The text of the body that arrives, and the document it is. *)
Fixpoint inbox_text (events : list Event) : string :=
  match events with
  | Chunk block more :: events => block +:+ (if more : bool then inbox_text events else "")
  | _ => ""
  end.
Definition body_document (inbox : list Event) (raw : json) : Prop := read_document (inbox_text inbox) = Ret raw.

(** In the shared state [sh], [b] is the binding of the session the path names and
    belongs to [owner]. *)
Definition owned_in (rq : Request) (owner : string) (sh : Shared W) (b : SessionBinding) : Prop :=
  ∃ sid suffix, session_route (rq_path rq) = Some (sid, suffix) ∧ sh_sessions sh !! sid = Some b ∧ bd_owner b = owner.

(** In [sh], the owner's key in the request's body has completed with the session
    [b] is bound to. *)
Definition replayed_in (inbox : list Event) (owner : string) (sh : Shared W) (b : SessionBinding) : Prop :=
  ∃ raw parsed st ref record, body_document inbox raw ∧ parse_session_create_request raw = Ret parsed ∧
    sv_store sv (sh_world sh) = Some st ∧
    Idempotency.records st !! ("session.create", owner, sc_idempotency_key parsed) = Some ref ∧
    heap st !! ref = Some record ∧ i_state record = COMPLETED ∧ sh_sessions sh !! str_or (i_resource_id record) "" = Some b.

(** The calls the request [rq] of [owner] with the body [inbox] may make; [h] is
    the shared state as it was at each await of the request. *)
Definition authorized (rq : Request) (inbox : list Event) (owner : string) (h : list (Shared W)) (a : Ask) : Prop :=
  match a with
  | AskRegister model_id o _ =>
      o = owner ∧ ∃ raw parsed, body_document inbox raw ∧ parse_session_create_request raw = Ret parsed ∧ model_id = sc_model_id parsed
  | AskView eid o => o = owner ∧ ∃ suffix, execution_route (rq_path rq) = Some (eid, suffix)
  | AskCancel eid o token =>
      o = owner ∧ (∃ suffix, execution_route (rq_path rq) = Some (eid, suffix)) ∧
      ∃ raw, body_document inbox raw ∧ session_token_of raw = Ret token
  | AskUpload _ o => o = blob_owner_for owner
  | AskRead bid o | AskDelete bid o => o = blob_owner_for owner ∧ ∃ suffix, blob_route (rq_path rq) = Some (bid, suffix)
  | AskSessionView sid => ∃ sh b, sh ∈ h ∧ bd_session_id b = sid ∧ (owned_in rq owner sh b ∨ replayed_in inbox owner sh b)
  | AskHeartbeat sid | AskClose sid =>
      ∃ sh b tokens raw token n claims, sh ∈ h ∧ bd_session_id b = sid ∧ owned_in rq owner sh b ∧ api_tokens api = Some tokens ∧
        body_document inbox raw ∧ session_token_of raw = Ret token ∧
        Identity.verify tokens token (session_grant owner (bd_model_id b) sid) (clock n) = Ret claims
  | AskSubmit sid o =>
      o = owner ∧ ∃ (sh : Shared W) tokens raw parsed, sh ∈ h ∧ api_tokens api = Some tokens ∧
        body_document inbox raw ∧ parse_execution_create_request raw = Ret parsed ∧
        sh_session_tokens sh !! Identity.fingerprint tokens (ec_session_token parsed) = Some sid
  end.

Lemma authorized_mono rq inbox owner h h' a : authorized rq inbox owner h a → authorized rq inbox owner (h ++ h') a.
Proof.
  destruct a; cbn; try done.
  - intros (sh & b & tk & raw & t & n & c & Hin & Hr). exists sh, b, tk, raw, t, n, c. split; [by apply elem_of_app; left|done].
  - intros (sh & b & tk & raw & t & n & c & Hin & Hr). exists sh, b, tk, raw, t, n, c. split; [by apply elem_of_app; left|done].
  - intros (sh & b & Hin & Hr). exists sh, b. split; [by apply elem_of_app; left|done].
  - intros (Ho & sh & tk & raw & p & Hin & Hr). split; [done|]. exists sh, tk, raw, p. split; [by apply elem_of_app; left|done].
Qed.
End Authority.

Definition success (status : Z) : Prop := status ∈ [200; 201; 202; 204].

Section Api.
Context {W : Type} (sv : Services W) (api : ControlAPI).
Context `{PyEnv} `{Mac} `{Digest} `{FloatText} `{Codecs}.
Context (meanwhile : nat → Shared W → Shared W) (clock : nat → time) (str_of : exn → string).
(** The store a service state holds is the one put there last. *)
Context (store_law : ∀ st w, sv_store sv (sv_set_store sv st w) = Some st).
Notation site := (pym (Site W)).

Section Owner.
Context (rq : Request) (inbox : list Event) (owner : string) (h0 : list (Shared W)).
Notation allowed := (authorized sv api clock rq inbox owner).

(** *** Frames *)

(** The calls added, all allowed by what the request saw since [h0]. *)
Definition grows (s s' : Site W) : Prop :=
  ∃ l k, st_asked s' = st_asked s ++ l ∧ st_history s' = st_history s ++ k ∧
    ∀ h, st_history s' = h0 ++ h → Forall (allowed h) l.

(** The request has seen the states [shs], the present one included; with [f] its
    body is still unread. *)
Definition knows (f : bool) (shs : list (Shared W)) (s : Site W) : Prop :=
  ∃ h, st_history s = h0 ++ h ∧ (f = true → st_inbox s = inbox) ∧ Forall (fun sh => sh ∈ h ∨ sh = st_shared s) shs.

Definition same (s s' : Site W) : Prop :=
  st_sent s' = st_sent s ∧ st_asked s' = st_asked s ∧ st_history s' = st_history s ∧ st_shared s' = st_shared s ∧ st_inbox s' = st_inbox s.

Lemma grows_still s s' : st_asked s' = st_asked s → (∃ k, st_history s' = st_history s ++ k) → grows s s'.
Proof. intros E [k Ek]. exists [], k. by rewrite E, app_nil_r. Qed.
Lemma grows_refl s : grows s s.
Proof. apply grows_still; [done|exists []; by rewrite app_nil_r]. Qed.
Lemma grows_trans f shs a b c : knows f shs a → grows a b → grows b c → grows a c.
Proof.
  intros (h & Eh & _) (l & k & E1 & E2 & Hl) (l' & k' & E3 & E4 & Hl'). exists (l ++ l'), (k ++ k').
  rewrite E3, E1, E4, E2, !app_assoc. split_and!; [done|done|]. intros h1 E. apply Forall_app. split.
  - rewrite Eh, <-!app_assoc in E. apply app_inv_head in E as <-. rewrite app_assoc.
    eapply Forall_impl; [apply Hl; by rewrite E2, Eh, app_assoc|]. intros x. apply authorized_mono.
  - apply Hl'. by rewrite E4, E2, E.
Qed.
Lemma knows_grows f shs s s' : knows f shs s → grows s s' → knows false [] s'.
Proof. intros (h & Eh & _) (l & k & _ & E & _). exists (h ++ k). rewrite E, Eh, app_assoc. done. Qed.
Lemma same_grows s s' : same s s' → grows s s'.
Proof. intros (_ & Ea & Eh & _). apply grows_still; [done|]. exists []. by rewrite Eh, app_nil_r. Qed.
Lemma same_knows f shs s s' : same s s' → knows f shs s → knows f shs s'.
Proof. intros (_ & _ & Eh & Es & Ei) (h & E & Hi & Hs). exists h. by rewrite Eh, Es, Ei. Qed.

(** [m] changes nothing the request can see, and a value it returns has [R]. *)
Definition pure {A} (R : A → Prop) (m : site A) : Prop := ∀ s s' o, m s = (s', o) → same s s' ∧ ∀ a, o = Ret a → R a.
(** [m] sends nothing and makes allowed calls only. *)
Definition quiet {A} (f : bool) (shs : list (Shared W)) (f' : bool) (shs' : list (Shared W)) (R : A → Prop) (m : site A) : Prop :=
  ∀ s s' o, knows f shs s → m s = (s', o) → st_sent s' = st_sent s ∧ grows s s' ∧ ∀ a, o = Ret a → R a ∧ knows f' shs' s'.
(** [m] either raises with nothing sent, or sends one whole answer and returns. *)
Definition answers (f : bool) (shs : list (Shared W)) (m : site unit) : Prop := ∀ s s' o,
  knows f shs s → m s = (s', o) → grows s s' ∧
  match o with
  | Ret _ => ∃ status headers body, success status ∧ st_sent s' = st_sent s ++ [ResponseStart status headers; ResponseBody body]
  | Raise _ => st_sent s' = st_sent s
  end.

Lemma pure_lift {A} (R : A → Prop) (o : outcome A) : (∀ a, o = Ret a → R a) → pure R (lift o).
Proof. intros HR s s' o' [= <- <-]. split; [done|]. intros a E. by apply HR. Qed.
Lemma pure_raise {A} (R : A → Prop) e : pure R (raise e).
Proof. intros s s' o [= <- <-]. by split. Qed.
Lemma pure_ret {A} (R : A → Prop) (a : A) : R a → pure R (mret a).
Proof. intros HR s s' o [= <- <-]. split; [done|]. by intros a' [= <-]. Qed.
Lemma pure_time : pure (fun t => ∃ n, t = clock n) (time_now (W := W) clock).
Proof. intros s s' o [= <- <-]. split; [done|]. intros a [= <-]. eauto. Qed.
Lemma pure_uuid : pure (fun _ => True) (uuid4_api (W := W)).
Proof. intros s s' o [= <- <-]. by split. Qed.
Lemma site_same_trans s1 s2 s3 : same s1 s2 → same s2 s3 → same s1 s3.
Proof. unfold same. intros (? & ? & ? & ? & ?) (? & ? & ? & ? & ?). split_and!; congruence. Qed.
Lemma pure_bind {A B} (R : A → Prop) (T : B → Prop) (m : site A) k : pure R m → (∀ a, R a → pure T (k a)) → pure T (m ≫= k).
Proof.
  intros Hm Hk s s' o. unfold mbind, pym_bind. destruct (m s) as [s1 [a|e]] eqn:E; apply Hm in E as [S1 R1].
  - intros E. apply Hk in E as [S2 R2]; [|by apply R1]. split; [by eapply site_same_trans|done].
  - by intros [= <- <-].
Qed.

Lemma quiet_bind {A B} f shs f1 shs1 f2 shs2 (R : A → Prop) (T : B → Prop) (m : site A) k :
  quiet f shs f1 shs1 R m → (∀ a, R a → quiet f1 shs1 f2 shs2 T (k a)) → quiet f shs f2 shs2 T (m ≫= k).
Proof.
  intros Hm Hk s s' o Hs. unfold mbind, pym_bind. destruct (m s) as [s1 [a|e]] eqn:E; apply Hm in E as (E1 & E2 & E3); try done.
  - destruct (E3 a eq_refl) as [Ra K1]. intros E. apply Hk in E as (F1 & F2 & F3); [|done..].
    split_and!; [congruence|by eapply grows_trans|done].
  - by intros [= <- <-].
Qed.
Lemma quiet_pure {A} f shs (R : A → Prop) (m : site A) : pure R m → quiet f shs f shs R m.
Proof.
  intros Hm s s' o Hs E. apply Hm in E as [S R1]. split_and!; [by apply S|by apply same_grows|].
  intros a Ha. split; [by apply R1|by eapply same_knows].
Qed.
Lemma answers_bind {A} f shs f1 shs1 (R : A → Prop) (m : site A) k :
  quiet f shs f1 shs1 R m → (∀ a, R a → answers f1 shs1 (k a)) → answers f shs (m ≫= k).
Proof.
  intros Hm Hk s s' o Hs. unfold mbind, pym_bind. destruct (m s) as [s1 [a|e]] eqn:E; apply Hm in E as (E1 & E2 & E3); try done.
  - destruct (E3 a eq_refl) as [Ra K1]. intros E. apply Hk in E as (F1 & F2); [|done..]. split; [by eapply grows_trans|]. by rewrite <-E1.
  - by intros [= <- <-].
Qed.
Lemma answers_pure {A} f shs (R : A → Prop) (m : site A) k : pure R m → (∀ a, R a → answers f shs (k a)) → answers f shs (m ≫= k).
Proof. intros Hm Hk. eapply answers_bind; [by apply quiet_pure|done]. Qed.
Lemma answers_raise f shs e : answers f shs (raise e).
Proof. intros s s' o _ [= <- <-]. by split; [apply grows_refl|]. Qed.
Lemma answers_get f shs k : (∀ s0, answers f (st_shared s0 :: shs) (k s0)) → answers f shs (get ≫= k).
Proof.
  intros Hk s s' o (h & E & Hi & Hs). unfold mbind, pym_bind, get. apply Hk. exists h. split_and!; [done|done|]. apply Forall_cons. auto.
Qed.
Lemma answers_send f shs status headers body : success status → answers f shs (send (ResponseStart status headers) ;; send (ResponseBody body)).
Proof.
  intros Hs s s' o _ [= <- <-]. split; [apply grows_still; [done|exists []; by rewrite app_nil_r]|]. exists status, headers, body. split; [done|].
  cbn. by rewrite <-app_assoc.
Qed.
Lemma answers_json f shs status payload : success status → answers f shs (send_json status payload).
Proof. apply answers_send. Qed.

(** *** Reading the body *)
Lemma knows_pause f shs s s' : knows f shs s → pause meanwhile s = (s', Ret tt) → grows s s' ∧ st_sent s' = st_sent s ∧ knows f shs s' ∧
  ∀ h, st_history s' = h0 ++ h → Forall (fun sh => sh ∈ h) shs.
Proof.
  intros (h & E & Hi & Hs) [= <-]. split_and!; [apply grows_still; [done|by eexists]|done| |].
  - exists (h ++ [st_shared s]). cbn. rewrite E, app_assoc. split_and!; [done|done|]. eapply Forall_impl; [exact Hs|].
    intros sh [Hin | ->]; left; apply elem_of_app; [by left|right; constructor].
  - cbn. intros h1. rewrite E, <-app_assoc. intros <-%app_inv_head. eapply Forall_impl; [exact Hs|].
    intros sh [Hin | ->]; apply elem_of_app; [by left|right; constructor].
Qed.
Lemma quiet_pause f shs : quiet f shs f shs (fun _ => True) (pause meanwhile).
Proof.
  intros s s' o Hs E. assert (o = Ret tt) as -> by (by injection E as _ <-). destruct (knows_pause _ _ _ _ Hs E) as (G & Hsent & K & _). by split_and!.
Qed.
Lemma quiet_inbox shs events : quiet false shs false shs (fun _ => True) (modify (fun s : Site W => s <| st_inbox := events |>)).
Proof.
  intros s s' o (h & E & _ & Hs) [= <- <-]. split_and!; [done|apply grows_still; [done|exists []; by rewrite app_nil_r]|].
  intros a _. split; [done|]. by exists h.
Qed.
Lemma quiet_weaken {A} f shs (R : A → Prop) f' shs' (m : site A) : quiet false shs f' shs' R m → quiet f shs f' shs' R m.
Proof. intros Hm s s' o (h & E & _ & Hs). apply Hm. by exists h. Qed.
Lemma quiet_read limit events shs payload :
  quiet false shs false shs (fun got => got = payload +:+ inbox_text events) (read_events meanwhile limit events payload).
Proof.
  revert payload. induction events as [|e events IH]; intros payload; cbn [read_events]; eapply quiet_bind; try apply quiet_pause; intros _ _.
  { apply quiet_pure, pure_ret. cbn. by rewrite append_nil_r. }
  eapply quiet_bind; [apply quiet_inbox|intros _ _].
  destruct e as [block more| |]; try (apply quiet_pure, pure_raise). cbv zeta.
  destruct (_ && _); [apply quiet_pure, pure_raise|]. cbn [inbox_text]. destruct more; [|apply quiet_pure, pure_ret; by rewrite append_nil_r].
  intros s s' o Hs E. apply IH in E as (E1 & E2 & E3); [|done]. split_and!; [done|done|]. intros a Ha. destruct (E3 a Ha) as [-> K].
  split; [by rewrite append_assoc|done].
Qed.
Lemma quiet_json_body limit shs : quiet true shs false shs (body_document inbox) (json_body meanwhile limit).
Proof.
  intros s s' o Hs. unfold json_body. unfold mbind at 1, pym_bind at 1, get. assert (st_inbox s = inbox) as -> by (destruct Hs as (h & _ & Hi & _); by apply Hi).
  revert Hs. assert (quiet true shs false shs (body_document inbox) (payload ← read_events meanwhile limit inbox ""; lift (read_document payload))) as Hq; [|apply Hq].
  eapply quiet_bind; [apply quiet_weaken, quiet_read|]. intros payload ->. apply quiet_pure, pure_lift. done.
Qed.

(** *** Calls *)
Lemma quiet_service {A} f shs (m : pym W A) : quiet f shs false [] (fun _ => True) (service m).
Proof.
  intros s s' o Hs. unfold service. destruct (m _) as [w o'] eqn:E. intros [= <- <-].
  assert (grows s (s <| st_shared := with_world w (st_shared s) |>)) as G by (apply grows_still; [done|exists []; by rewrite app_nil_r]).
  split_and!; [done|done|]. intros a _. split; [done|]. by eapply knows_grows.
Qed.
Lemma quiet_ask {A} f shs a (m : pym W A) :
  (∀ h, Forall (fun sh => sh ∈ h) shs → allowed h a) → quiet f shs false [] (fun _ => True) (ask meanwhile a m).
Proof.
  intros Ha s s' o Hs. unfold ask. unfold mbind at 1, pym_bind at 1. destruct (pause meanwhile s) as [s1 o1] eqn:E1.
  assert (o1 = Ret tt) as -> by (by injection E1 as _ <-). destruct (knows_pause _ _ _ _ Hs E1) as (G1 & S1 & K1 & Hin).
  unfold mbind, pym_bind, modify, service. destruct (m _) as [w o'] eqn:E. intros [= <- <-].
  assert (grows s (s1 <| st_asked := st_asked s1 ++ [a] |> <| st_shared := with_world w (st_shared s1) |>)) as G.
  { eapply grows_trans; [exact Hs|exact G1|]. exists [a], []. cbn. rewrite app_nil_r. split_and!; [done|done|].
    intros h E'. constructor; [|done]. by apply Ha, Hin. }
  split_and!; [done|exact G|]. intros x _. split; [done|]. eapply knows_grows; [exact Hs|exact G].
Qed.
Lemma quiet_catch {A} f shs (R : A → Prop) (m : site A) g : quiet f shs false [] R m → (∀ e k, g e = Some k → quiet false [] false [] R k) →
  quiet f shs false [] R (catch m g).
Proof.
  intros Hm Hh s s' o Hs. unfold catch. destruct (m s) as [s1 [a|e]] eqn:E; apply Hm in E as (E1 & E2 & E3); try done; [by intros [= <- <-]|].
  destruct (g e) as [k|] eqn:Eh; [|by intros [= <- <-]]. intros E. apply (Hh _ _ Eh) in E as (F1 & F2 & F3); [|by eapply knows_grows].
  split_and!; [congruence|by eapply grows_trans|done].
Qed.
Lemma quiet_idem {A} f shs (dflt : A) m : quiet f shs false [] (fun _ => True) (on_idem sv dflt m).
Proof. apply quiet_service. Qed.

(** *** The steps of the handlers *)
Lemma pure_verify tokens b token :
  pure (fun _ => ∃ n claims, Identity.verify tokens token (session_grant owner (bd_model_id b) (bd_session_id b)) (clock n) = Ret claims)
    (verify_session_token (W := W) clock tokens b owner token).
Proof.
  unfold verify_session_token. eapply pure_bind; [apply pure_time|]. intros now [n ->]. intros s s' o. unfold catch, lift.
  destruct (Identity.verify _ _ _ (clock n)) as [claims|e] eqn:E; cbn.
  - intros [= <- <-]. split; [done|eauto].
  - destruct e; intros [= <- <-]; (split; [done|]); by intros a.
Qed.
Lemma pure_require_sessions : pure (fun tokens => api_tokens api = Some tokens) (require_sessions (W := W) api).
Proof.
  unfold require_sessions. destruct (api_tokens api); [|apply pure_raise]. destruct (api_scheduler api); [by apply pure_ret|apply pure_raise].
Qed.
Lemma pure_require_service : pure (fun tokens => api_tokens api = Some tokens) (require_service (W := W) api).
Proof.
  unfold require_service. destruct (api_tokens api); [|apply pure_raise]. destruct (api_service api); [by apply pure_ret|apply pure_raise].
Qed.
Lemma pure_require_blobs : pure (fun _ => True) (require_blobs (W := W) api).
Proof. unfold require_blobs. destruct (api_blobs api); [by apply pure_ret|apply pure_raise]. Qed.
Lemma pure_route_id m : pure (fun id => ∃ suffix, m = Some (id, suffix)) (lift (A := string) (S := Site W) (route_id m)).
Proof. apply pure_lift. intros id. destruct m as [[i x]|]; [|done]. intros [= <-]. eauto. Qed.

(** The binding found for the path, with the state it was found in. *)
Lemma answers_owned shs (k : SessionBinding → site unit) :
  (∀ sh b, owned_in rq owner sh b → answers true (sh :: shs) (k b)) → answers true shs (b ← owned_session (W := W) owner rq; k b).
Proof.
  intros Hk s s' o Hs. unfold owned_session. unfold mbind, pym_bind, lift, get.
  destruct (session_route (rq_path rq)) as [[sid suffix]|] eqn:Er; cbn [route_id]; [|apply (answers_raise true shs); done].
  destruct (sh_sessions (st_shared s) !! sid) as [b|] eqn:Eb; [|apply (answers_raise true shs); done].
  destruct (String.eqb_spec (bd_owner b) owner) as [Ho|]; [|apply (answers_raise true shs); done].
  apply (Hk (st_shared s) b); [by exists sid, suffix|]. destruct Hs as (h & E & Hi & Hs). exists h. split_and!; [done|done|]. apply Forall_cons. auto.
Qed.
Lemma quiet_document_sync f shs tokens b v : quiet f shs f shs (fun _ => True) (session_document_sync sv api tokens b v).
Proof.
  intros s s' o Hs E. injection E as <- <-. split_and!; [done|apply grows_refl|]. by intros a _.
Qed.
Lemma quiet_document f shs tokens b :
  (∀ h, Forall (fun sh => sh ∈ h) shs → allowed h (AskSessionView (bd_session_id b))) →
  quiet f shs false [] (fun _ => True) (session_document sv api meanwhile tokens b).
Proof. intros Ha. eapply quiet_bind; [by apply quiet_ask|]. intros v _. apply quiet_document_sync. Qed.
Lemma quiet_bind_session tokens model_id sid : quiet false [] false [] (fun _ => True) (bind sv clock tokens owner model_id sid).
Proof.
  intros s s' o Hs. unfold bind, time_now. unfold mbind, pym_bind, get, mret, pym_ret, lift. cbv zeta.
  destruct (issue _ _ _ _) as [t|e]; intros [= <- <-]; (split_and!; [done|apply grows_still; [done|exists []; by rewrite app_nil_r]|]); [|done].
  intros a _. split; [done|]. destruct Hs as (h & E & _). by exists h.
Qed.

(** A completed record that [begin_] hands out is the one of the owner's key. *)
Lemma begin_completed key payload now st st' ref record :
  begin_ "session.create" owner key payload None None now st = (st', Ret ref) →
  heap st' !! ref = Some record → i_state record = COMPLETED → Idempotency.records st' !! ("session.create", owner, key) = Some ref.
Proof.
  intros E Hr Hc. revert E. unfold begin_, deref, create_record. run_unfold. cbv zeta.
  destruct (Idempotency.records st !! _) as [r0|] eqn:Ek; [destruct (heap st !! r0) as [x|] eqn:Ex|].
  - destruct (String.eqb _ _); [|done]. destruct (i_state x); [done|by intros [= <- <-]|]. intros [= <- <-]. exfalso. revert Hr. cbn.
    rewrite lookup_app_r, Nat.sub_diag by done. cbn. intros [= <-]. done.
  - done.
  - intros [= <- <-]. exfalso. revert Hr. cbn. rewrite lookup_app_r, Nat.sub_diag by done. cbn. intros [= <-]. done.
Qed.

(** *** Each handler answers *)
Ltac then_pure t := eapply answers_pure; [t|].
Ltac then_ t := eapply answers_bind; [t|].
Notation anything := (fun _ => True).

Lemma blob_upload_answers : answers true [] (do_blob_upload sv api meanwhile owner rq).
Proof.
  then_pure ltac:(apply pure_require_blobs). intros _ _. apply answers_get. intros s.
  then_pure ltac:(by apply (pure_lift anything)). intros [[media digest] declared] _.
  then_pure ltac:(apply pure_uuid). intros bid _. apply answers_get. intros s'.
  destruct (body_chunks _ _ _) as [chunks stream_end]. then_ ltac:(by apply quiet_ask). intros r _.
  then_pure ltac:(by apply (pure_lift anything)). intros _ _. apply answers_json. set_solver.
Qed.
Lemma blob_read_answers : answers true [] (do_blob_read sv api meanwhile owner rq).
Proof.
  then_pure ltac:(apply pure_require_blobs). intros _ _. then_pure ltac:(apply pure_route_id). intros bid Hb.
  apply answers_get. intros s. destruct (sv_blob _ _ _) as [r|]; [|apply answers_raise].
  destruct (negb _); [apply answers_raise|]. destruct (bool_decide _); [apply answers_raise|].
  then_ ltac:(by apply quiet_ask). intros body _. apply answers_send. set_solver.
Qed.
Lemma blob_delete_answers : answers true [] (do_blob_delete sv api meanwhile clock owner rq).
Proof.
  then_pure ltac:(apply pure_require_blobs). intros _ _. then_pure ltac:(apply pure_route_id). intros bid Hb.
  then_pure ltac:(apply pure_time). intros now _. then_ ltac:(by apply quiet_ask). intros o _.
  destruct (bool_decide _); [apply answers_raise|]. apply answers_send. set_solver.
Qed.
Lemma session_read_answers : answers true [] (do_session_read sv api meanwhile owner rq).
Proof.
  then_pure ltac:(apply pure_require_sessions). intros tokens Ht. apply answers_owned. intros sh b Hb.
  then_ ltac:(apply quiet_document). { intros h [Hin _]%Forall_cons. exists sh, b. by split_and!; [| |left]. }
  intros d _. apply answers_json. set_solver.
Qed.

(** The call that follows a verified session token. *)
Definition tokened (b : SessionBinding) (h : list (Shared W)) : Prop :=
  allowed h (AskHeartbeat (bd_session_id b)) ∧ allowed h (AskClose (bd_session_id b)).
Lemma answers_tokened tokens (k : SessionBinding → site unit) :
  api_tokens api = Some tokens →
  (∀ sh b, (∀ h, sh ∈ h → tokened b h) → answers false [sh] (k b)) →
  answers true [] (b ← owned_session (W := W) owner rq;
    raw ← json_body meanwhile MAX_INLINE_INPUT_BYTES; token ← lift (session_token_of raw);
    verify_session_token clock tokens b owner token ;; k b).
Proof.
  intros Ht Hk. apply answers_owned. intros sh b Hb. then_ ltac:(apply quiet_json_body). intros raw Hraw.
  then_pure ltac:(apply (pure_lift (fun token => session_token_of raw = Ret token)); done). intros token Htok.
  then_pure ltac:(apply pure_verify). intros _ (n & claims & Hv). apply (Hk sh). intros h Hin.
  split; exists sh, b, tokens, raw, token, n, claims; by split_and!.
Qed.
Lemma session_heartbeat_answers : answers true [] (do_session_heartbeat sv api meanwhile clock owner rq).
Proof.
  then_pure ltac:(apply pure_require_sessions). intros tokens Ht. apply answers_tokened; [done|]. intros sh b Hb.
  then_ ltac:(apply quiet_ask). { intros h [Hin _]%Forall_cons. by apply Hb. } intros v _.
  then_ ltac:(apply quiet_document_sync). intros d _. apply answers_json. set_solver.
Qed.
Lemma session_close_answers : answers true [] (do_session_close sv api meanwhile clock owner rq).
Proof.
  then_pure ltac:(apply pure_require_sessions). intros tokens Ht. apply answers_tokened; [done|]. intros sh b Hb.
  then_ ltac:(apply quiet_ask). { intros h [Hin _]%Forall_cons. by apply Hb. } intros v _.
  then_ ltac:(apply quiet_document_sync). intros d _. apply answers_json. destruct (state_is _ _); set_solver.
Qed.
Lemma execution_create_answers : answers true [] (do_execution_create sv api meanwhile owner rq).
Proof.
  then_pure ltac:(apply pure_require_service). intros tokens Ht. then_ ltac:(apply quiet_json_body). intros raw Hraw.
  then_pure ltac:(apply (pure_lift (fun parsed => parse_execution_create_request raw = Ret parsed)); done). intros parsed Hp.
  apply answers_get. intros s. destruct (_ !! _) as [sid|] eqn:E; [|apply answers_raise].
  then_ ltac:(apply quiet_ask). { intros h [Hin _]%Forall_cons. split; [done|]. by exists (st_shared s), tokens, raw, parsed. }
  intros v _. apply answers_json. set_solver.
Qed.
Lemma execution_read_answers : answers true [] (do_execution_read sv api meanwhile owner rq).
Proof.
  then_pure ltac:(apply pure_require_service). intros tokens Ht. then_pure ltac:(apply pure_route_id). intros eid He.
  then_ ltac:(by apply quiet_ask). intros v _. apply answers_json. set_solver.
Qed.
Lemma execution_cancel_answers : answers true [] (do_execution_cancel sv api meanwhile owner rq).
Proof.
  then_pure ltac:(apply pure_require_service). intros tokens Ht. then_ ltac:(apply quiet_json_body). intros raw Hraw.
  then_pure ltac:(apply (pure_lift (fun token => session_token_of raw = Ret token)); done). intros token Htok.
  then_pure ltac:(apply pure_route_id). intros eid He.
  then_ ltac:(apply quiet_ask). { intros h _. split_and!; [done|done|by exists raw]. }
  intros v _. apply answers_json. destruct (state_is _ _); set_solver.
Qed.

Lemma register_fresh_answers tokens raw parsed claim shs :
  body_document inbox raw → parse_session_create_request raw = Ret parsed →
  answers false shs (register_fresh sv api meanwhile clock tokens owner (sc_model_id parsed) claim).
Proof.
  intros Hraw Hp. eapply (answers_bind _ _ _ _ (fun _ : string * json => True)); [apply quiet_catch|].
  - eapply quiet_bind; [apply quiet_pure, pure_uuid|intros sid _].
    eapply quiet_bind; [apply quiet_ask; intros h _; split; [done|by exists raw, parsed]|intros v _].
    eapply quiet_bind; [apply quiet_bind_session|intros b _].
    eapply quiet_bind; [apply quiet_document_sync|intros d _; by apply quiet_pure, pure_ret].
  - intros e k [= <-]. destruct claim; [|apply quiet_pure, pure_raise].
    eapply quiet_bind; [apply quiet_idem|intros _ _; apply quiet_pure, pure_raise].
  - intros [sid d] _. then_pure ltac:(apply pure_time). intros now _.
    apply (answers_bind false [] false [] anything); [|intros _ _; apply answers_json; set_solver].
    destruct claim; [|by apply quiet_pure, pure_ret]. eapply quiet_bind; [apply quiet_idem|intros _ _; by apply quiet_pure, pure_ret].
Qed.

(** The reference [begin_] returned, and the store after it. *)
Lemma answers_begin shs key payload now (k : nat → Site W → site unit) :
  (∀ ref s, (∀ st record, sv_store sv (sh_world (st_shared s)) = Some st → heap st !! ref = Some record → i_state record = COMPLETED →
               Idempotency.records st !! ("session.create", owner, key) = Some ref) →
     answers false [st_shared s] (k ref s)) →
  answers false shs (ref ← on_idem sv 0%nat (begin_ "session.create" owner key payload None None now); s ← get; k ref s).
Proof.
  intros Hk s s' o Hs. unfold mbind, pym_bind. destruct (on_idem sv _ _ s) as [s1 o1] eqn:E1.
  pose proof (quiet_idem false shs _ _ s s1 o1 Hs E1) as (S1 & G1 & K1). destruct o1 as [ref|e]; [|by intros [= <- <-]].
  destruct (K1 ref eq_refl) as [_ (h & Eh & _ & _)]. unfold get. intros E.
  apply Hk in E as (F1 & F2); [split; [by eapply grows_trans|by rewrite <-S1]| |].
  - revert E1. unfold on_idem, service. destruct (sv_store sv (sh_world (st_shared s))) as [st|] eqn:Est.
    + destruct (begin_ _ _ _ _ _ _ _ st) as [st' o'] eqn:Eb. intros [= <- ->] st1 record. cbn. rewrite store_law. intros [= <-]. by eapply begin_completed.
    + intros [= <- <-] st1 record. cbn. by rewrite Est.
  - exists h. split_and!; [done|done|]. apply Forall_cons. auto.
Qed.
Lemma session_create_answers : answers true [] (do_session_create sv api meanwhile clock owner rq).
Proof.
  then_pure ltac:(apply pure_require_sessions). intros tokens Ht. then_ ltac:(apply quiet_json_body). intros raw Hraw.
  then_pure ltac:(apply (pure_lift (fun parsed => parse_session_create_request raw = Ret parsed)); done). intros parsed Hp.
  apply answers_get. intros s. destruct (sv_store _ _); [|by eapply register_fresh_answers]. then_pure ltac:(apply pure_time). intros now _.
  apply answers_begin. intros ref s1 HR.
  destruct (sv_store sv (sh_world (st_shared s1))) as [st|] eqn:Est; [|apply answers_raise]. cbn.
  destruct (heap st !! ref) as [record|] eqn:Er; [|apply answers_raise].
  destruct (bool_decide_reflect (i_state record = COMPLETED)) as [Hc|Hc]; [|by eapply register_fresh_answers].
  destruct (_ !! str_or _ _) as [b|] eqn:Eb; [|apply answers_raise].
  then_ ltac:(apply quiet_document).
  { intros h [Hin _]%Forall_cons. exists (st_shared s1), b. split_and!; [done|done|]. right. exists raw, parsed, st, ref, record.
    split_and!; try done. by apply (HR st record). }
  intros d _. apply answers_json. set_solver.
Qed.

Lemma handle_answers h : answers true [] (handle sv api meanwhile clock h owner rq).
Proof.
  destruct h; [apply blob_upload_answers|apply blob_read_answers|apply blob_delete_answers|apply session_create_answers
  |apply session_read_answers|apply session_heartbeat_answers|apply session_close_answers|apply execution_create_answers
  |apply execution_read_answers|apply execution_cancel_answers].
Qed.
End Owner.

(** ** Every route is below [/internal/] *)
Lemma after_app word x rest : after word x = Some rest → x = word +:+ rest.
Proof.
  revert x. induction word as [|a word IH]; intros x; cbn [after]; [by intros [= <-]|].
  destruct x as [|b x]; [done|]. destruct (Ascii.eqb_spec a b) as [->|]; [|done]. intros E%IH. by rewrite E.
Qed.
Lemma match_route_path prefix suffixes path m : match_route prefix suffixes path = Some m → ∃ rest, path = prefix +:+ rest.
Proof. unfold match_route. destruct (after prefix path) as [rest|] eqn:E; [|done]. intros _. exists rest. by apply after_app. Qed.
Lemma route_internal method path h : route method path = Some h → String.prefix "/internal/" path = true.
Proof.
  unfold route. repeat (destruct (_ && String.eqb path _) eqn:E; [apply andb_true_iff in E as [_ ->%String.eqb_eq]; done|clear E]).
  destruct (blob_route path) as [m|] eqn:E1; [apply match_route_path in E1 as [rest ->]; done|].
  destruct (session_route path) as [[i m]|] eqn:E2; [apply match_route_path in E2 as [rest ->]; done|].
  destruct (execution_route path) as [[i m]|] eqn:E3; [apply match_route_path in E3 as [rest ->]; done|done].
Qed.

(** ** Refusals *)

(** The code a client sees for an exception of a handler.  [known_code]s pass,
    others fall back. *)
Inductive refused_as : exn → string → Prop :=
| as_refused c : known_code c = true → refused_as (Refused c) c
| as_refused_unknown c : known_code c = false → refused_as (Refused c) "temporarily_unavailable"
| as_contract m : refused_as (ContractError m) "contract_violation"
| as_blob_missing c : c ∈ ["not_found"; "forbidden"] → refused_as (BlobStoreError c) "not_found"
| as_blob_expired : refused_as (BlobStoreError "expired") "reference_expired"
| as_blob_large : refused_as (BlobStoreError "too_large") "payload_too_large"
| as_blob_quota : refused_as (BlobStoreError "quota_exceeded") "quota_exceeded"
| as_blob_media : refused_as (BlobStoreError "unsupported_media_type") "unsupported_media_type"
| as_blob_checksum : refused_as (BlobStoreError "checksum_mismatch") "contract_violation"
| as_blob_cancelled : refused_as (BlobStoreError "cancelled") "busy"
| as_blob_other c :
    c ∉ ["not_found"; "forbidden"; "expired"; "too_large"; "quota_exceeded"; "unsupported_media_type"; "checksum_mismatch"; "cancelled"] →
    refused_as (BlobStoreError c) "storage_unavailable"
| as_identity c : known_code c = true → refused_as (IdentityError c) c
| as_identity_unknown c : known_code c = false → refused_as (IdentityError c) "peer_forbidden"
| as_idempotency c : known_code c = true → refused_as (IdempotencyError c) c
| as_idempotency_unknown c : known_code c = false → refused_as (IdempotencyError c) "peer_forbidden"
| as_execution c : known_code c = true → refused_as (ExecutionError c) c
| as_execution_unknown c : known_code c = false → refused_as (ExecutionError c) "temporarily_unavailable"
| as_session_capacity : refused_as (SessionConflict "session_capacity") "queue_full"
| as_session_deadline : refused_as (SessionConflict "invalid_hard_deadline") "contract_violation"
| as_session_conflict m : m ∉ ["session_capacity"; "invalid_hard_deadline"] → refused_as (SessionConflict m) "busy"
| as_session_missing m : refused_as (SessionNotFound m) "not_found"
| as_storage_unavailable : refused_as (ModelUnavailable "storage_unavailable") "storage_unavailable"
| as_unavailable m : m ≠ "storage_unavailable" → refused_as (ModelUnavailable m) "temporarily_unavailable"
| as_key m : refused_as (KeyError m) "not_found".

(** The code the handler answers with. *)
Definition answered_code (c : string) : string := if known_code c then c else "temporarily_unavailable".

Ltac not_listed := rewrite ?not_elem_of_cons; split_and!; [done..|apply not_elem_of_nil].
Ltac in_table := first [by constructor | constructor; by rewrite ?elem_of_cons; auto | constructor; not_listed].

Lemma blob_refused_as c : refused_as (BlobStoreError c) (answered_code (default "storage_unavailable" (assoc c BLOB_FAILURES))).
Proof.
  unfold BLOB_FAILURES. cbn [assoc]. repeat (case_decide; [subst; cbn [default]; change (answered_code ?x) with x; in_table|]).
  cbn [default]. change (answered_code "storage_unavailable") with "storage_unavailable". constructor. not_listed.
Qed.
Lemma conflict_refused_as m : refused_as (SessionConflict m) (answered_code (default "busy" (assoc m SESSION_CONFLICTS))).
Proof.
  unfold SESSION_CONFLICTS. cbn [assoc]. repeat (case_decide; [subst; cbn [default]; change (answered_code ?x) with x; in_table|]).
  cbn [default]. change (answered_code "busy") with "busy". constructor. not_listed.
Qed.
Lemma unavailable_refused_as m : refused_as (ModelUnavailable m) (answered_code (default "temporarily_unavailable" (assoc m SESSION_UNAVAILABLE))).
Proof.
  unfold SESSION_UNAVAILABLE. cbn [assoc]. repeat (case_decide; [subst; cbn [default]; change (answered_code ?x) with x; in_table|]).
  cbn [default]. change (answered_code "temporarily_unavailable") with "temporarily_unavailable". by constructor.
Qed.
Lemma known_refused_as c fallback (e : exn) :
  known_code fallback = true → (known_code c = true → refused_as e c) → (known_code c = false → refused_as e fallback) →
  refused_as e (answered_code (if known_code c then c else fallback)).
Proof. intros Hf Hknown Hother. unfold answered_code. destruct (known_code c) eqn:E; [rewrite E; auto|rewrite Hf; auto]. Qed.

Lemma refused_as_code e c : refusal_code e = Some c → refused_as e (answered_code c).
Proof.
  unfold refusal_code. destruct e; try done; intros [= <-];
    first [ apply blob_refused_as | apply conflict_refused_as | apply unavailable_refused_as
          | apply known_refused_as; [reflexivity|by constructor|by constructor]
          | apply (known_refused_as _ "temporarily_unavailable"); [reflexivity|by constructor|by constructor]
          | by constructor
          | unfold answered_code; destruct (known_code _) eqn:E; by constructor ].
Qed.
Lemma unrefused e : refusal_code e = None → ∀ c, ¬ refused_as e c.
Proof. intros He c Hr. by destruct Hr. Qed.

(** The answer for a refusal with [code]: the status of the closed table, and a
    document with the code, the first 512 characters of the message and the id. *)
Definition error_answer (code message request_id : string) (status : Z) (body : string) : Prop :=
  ∃ document, ERROR_STATUS code = Some status ∧ body = dumps_plain document ∧
    parse_error_document document =
      Ret ({| err_code := code; err_message := cut_text MAX_ERROR_TEXT message; err_retryable := retryable_code code |}, request_id).

(** A text that an error document may carry. *)
Definition is_message (m : string) : Prop := text_value (JStr (cut_text MAX_ERROR_TEXT m)) = Ret (cut_text MAX_ERROR_TEXT m).
Definition is_request_id (rid : string) : Prop := bounded_text (JStr rid) REQUEST_ID_MAX_LENGTH = Ret rid.

Lemma refuse_answers c m rid (s s' : Site W) o : is_message m → is_request_id rid → st_sent s = [] → refuse c m rid s = (s', o) →
  o = Ret tt ∧
  ∃ status headers body, st_sent s' = [ResponseStart status headers; ResponseBody body] ∧ error_answer (answered_code c) m rid status body.
Proof.
  intros Hm Hr Hs. unfold refuse. unfold mbind at 1, pym_bind at 1, get. rewrite Hs. cbn [existsb]. cbv zeta.
  fold (answered_code c). set (code := answered_code c).
  assert (known_code code = true) as Hk by (unfold code, answered_code; by destruct (known_code c) eqn:E).
  assert (∃ d, error_document code (cut_text MAX_ERROR_TEXT m) rid = Ret d) as [d Hd].
  { unfold error_document. rewrite Hk. unfold mbind, outcome_bind. cbn [require]. rewrite Hm. cbv zeta. rewrite Hr. by eexists. }
  pose proof (error_document_written _ _ _ _ Hd) as Hp. apply bool_decide_eq_true in Hk as [status Hst].
  rewrite Hd, Hst. unfold mbind, pym_bind, lift, of_option, send_json, send, modify. intros [= <- <-]. split; [done|].
  eexists status, _, _. cbn. rewrite Hs. split; [reflexivity|]. exists d. split_and!; [done|done|exact Hp].
Qed.

Lemma refuse_asked c m rid (s : Site W) : st_asked (refuse c m rid s).1 = st_asked s ∧ st_history (refuse c m rid s).1 = st_history s.
Proof.
  assert (∃ l, (refuse c m rid s).1 = s <| st_sent := l |>) as [l ->]; [|done].
  unfold refuse. unfold mbind at 1, pym_bind at 1, get. destruct (existsb _ _); [by exists (st_sent s); destruct s|]. cbv zeta.
  unfold mbind, pym_bind, lift. destruct (error_document _ _ _); [|by exists (st_sent s); destruct s].
  destruct (of_option _ _); [|by exists (st_sent s); destruct s]. by eexists.
Qed.

Lemma dispatch_quiet rq (s s' : Site W) o : dispatch_request sv api meanwhile clock rq s = (s', o) →
  (s' = s ∧ ∃ e, o = Raise e) ∨
  ∃ p h, rq_peer rq = Some p ∧ header (rq_headers rq) PROTOCOL_VERSION_HEADER = Some PROTOCOL_VERSION ∧
    handle sv api meanwhile clock h (owner p) rq s = (s', o).
Proof.
  unfold dispatch_request, mbind, pym_bind, lift. destruct (rq_peer rq) as [p|] eqn:Ep; cbn [owner_from_peer].
  2:{ intros [= <- <-]. left. by eauto. }
  destruct (_ && _) eqn:E; [intros [= <- <-]; left; by eauto|]. cbn. destruct (route _ _) as [h|] eqn:Er; [|intros [= <- <-]; left; by eauto].
  intros Eh. right. exists p, h. apply route_internal in Er. rewrite Er in E. apply negb_false_iff, bool_decide_eq_true in E. done.
Qed.

Lemma knows_start inbox (s : Site W) : st_inbox s = inbox → knows inbox (st_history s) true [] s.
Proof. intros E. exists []. by rewrite app_nil_r. Qed.

(** What the try block leaves: one success answer, or nothing sent. *)
Lemma dispatch_once rq (s s' : Site W) o : st_sent s = [] → dispatch_request sv api meanwhile clock rq s = (s', o) →
  match o with
  | Ret _ => ∃ status headers body, success status ∧ st_sent s' = [ResponseStart status headers; ResponseBody body]
  | Raise _ => st_sent s' = []
  end.
Proof.
  intros Hs [[-> [e ->]]|(p & h & _ & _ & E)]%dispatch_quiet; [done|].
  destruct (handle_answers rq (st_inbox s) (owner p) (st_history s) h s s' o (knows_start _ s eq_refl) E) as [_ Ho]. rewrite Hs in Ho. by destruct o.
Qed.

(** How a request ends. *)
Definition ends_once (rq : Request) (s s' : Site W) (r : outcome unit) : Prop :=
  ∃ s1 o, dispatch_request sv api meanwhile clock rq s = (s1, o) ∧
  match o, r with
  | Ret _, Ret _ => ∃ status headers body, success status ∧ st_sent s' = [ResponseStart status headers; ResponseBody body]
  | Raise e, Ret _ => ∃ code status headers body, refused_as e code ∧
      st_sent s' = [ResponseStart status headers; ResponseBody body] ∧ error_answer code (str_of e) (rq_request_id rq) status body
  | Raise e, Raise e' => e' = e ∧ st_sent s' = [] ∧ ∀ code, ¬ refused_as e code
  | Ret _, Raise _ => False
  end.

Lemma call_once rq s s' r :
  (∀ e, is_message (str_of e)) → is_request_id (rq_request_id rq) → st_sent s = [] →
  call_api sv api meanwhile clock str_of rq s = (s', r) → ends_once rq s s' r.
Proof.
  intros Hm Hr Hs. unfold call_api, catch, ends_once. destruct (dispatch_request _ _ _ _ rq s) as [s1 o] eqn:Ed.
  pose proof (dispatch_once _ _ _ _ Hs Ed) as Ho. intros E. exists s1, o. split; [done|]. destruct o as [[]|e]; [by simplify_eq|].
  destruct (refusal_code e) as [c|] eqn:Ec.
  - apply refuse_answers in E as (-> & st & hd & b & E1 & E2); [|done..]. exists (answered_code c), st, hd, b.
    split_and!; [by apply refused_as_code|done|done].
  - simplify_eq. split_and!; [done|done|]. by apply unrefused.
Qed.

(** C20: a request to the control routes is answered exactly once, whatever the
    services answer and whatever other tasks do meanwhile.  When its handler
    returns, the one answer is its success answer; when it raises, the one answer
    is the document of the code the exception stands for ([refused_as]: each error
    of contract, identity, idempotency, execution, session, model and blob store
    has its code, an unknown code the fallback), with the status the closed table
    has for that code, the first 512 characters of the exception's text and this
    request's id; an exception with no code leaves the handler and nothing was
    sent.  This holds for exceptions whose text, so cut, is a nonempty UTF-8 text
    without NUL, and for a request id the error document accepts. *)
Theorem api_answers_once rq s s' r :
  (∀ e, is_message (str_of e)) → is_request_id (rq_request_id rq) → st_sent s = [] →
  call_api sv api meanwhile clock str_of rq s = (s', r) → ends_once rq s s' r.
Proof. intros Hm Hr Hs E. exact (call_once rq s s' r Hm Hr Hs E). Qed.

(** The calls of a request, all authorized by what it carries and saw. *)
Definition calls_authorized (rq : Request) (s s' : Site W) : Prop :=
  ∃ l h, st_asked s' = st_asked s ++ l ∧ st_history s' = st_history s ++ h ∧
    (l = [] ∨ ∃ p, rq_peer rq = Some p ∧ header (rq_headers rq) PROTOCOL_VERSION_HEADER = Some PROTOCOL_VERSION ∧
                   Forall (authorized sv api clock rq (st_inbox s) (owner p) h) l).

Lemma call_authorized rq s s' r : call_api sv api meanwhile clock str_of rq s = (s', r) → calls_authorized rq s s'.
Proof.
  unfold call_api, catch. destruct (dispatch_request _ _ _ _ rq s) as [s1 o] eqn:Ed.
  assert (calls_authorized rq s s1) as Hl.
  { apply dispatch_quiet in Ed as [[-> _]|(p & h & Hp & Hv & E)].
    - exists [], []. rewrite !app_nil_r. split_and!; [done|done|by left].
    - apply (handle_answers rq (st_inbox s) (owner p) (st_history s) h s s1 o (knows_start _ s eq_refl)) in E as [(l & k & El & Ek & Hl) _].
      exists l, k. split_and!; [done|done|]. right. exists p. split_and!; [done|done|]. by apply Hl. }
  destruct o as [[]|e]; [by intros [= <- <-]|]. destruct (refusal_code e) as [c|]; [|by intros [= <- <-]].
  intros E. assert (s' = (refuse c (str_of e) (rq_request_id rq) s1).1) as -> by by rewrite E.
  unfold calls_authorized. destruct (refuse_asked c (str_of e) (rq_request_id rq) s1) as [-> ->]. exact Hl.
Qed.

(** C16: a request makes calls to the services only when it came with the
    credentials of a peer and the protocol version, and every call is one this
    request may make: executions and blobs are addressed as the peer's own and by
    the identifier in the path, a registration is for the model in the body and in
    the peer's name; a heartbeat or close is for the session the path names, which
    the API's table bound to this peer at some await of the request, and follows a
    token from the body that verified for this owner, model and session; a
    submission goes to the session the API's token table had, at some await, for
    the token in the body; and a session is shown only when it is the one of the
    path and bound to this peer, or the one the peer's own idempotency key, taken
    from the body, completed with. *)
Theorem api_calls_authorized rq s s' r : call_api sv api meanwhile clock str_of rq s = (s', r) → calls_authorized rq s s'.
Proof. apply call_authorized. Qed.

End Api.

(** ** Session tokens *)
Lemma round3_ms k : round3 (k * NS_PER_MS) = k.
Proof. unfold round3, NS_PER_MS. by rewrite Z.div_mul, Z.mod_mul by done. Qed.

Section Tokens.
Context {W : Type} (sv : Services W) (api : ControlAPI).
Context `{MH : MacHex} `{FL : FloatTextLaws} `{Digest} (clock : nat → time).

Lemma bind_bound tokens owner model_id sid (s s' : Site W) b :
  bind sv clock tokens owner model_id sid s = (s', Ret b) →
  bd_session_id b = sid ∧ bd_owner b = owner ∧ bd_model_id b = model_id ∧ (∃ k, bd_expires_at b = k * NS_PER_MS) ∧
  sh_sessions (st_shared s') !! sid = Some b ∧
  ∃ token, issue_token tokens b = Ret token ∧ sh_session_tokens (st_shared s') !! Identity.fingerprint tokens token = Some sid.
Proof.
  unfold bind, time_now. run_unfold. cbv zeta. destruct (issue _ _ _ _) as [t|e] eqn:Ei; [|done]. intros [= <- <-]. cbn [bd_session_id bd_owner bd_model_id bd_expires_at bd_fingerprint st_shared sh_sessions sh_session_tokens].
  rewrite !dict_lookup_insert, !decide_True by done. 
  do 3 (split; [done|]). split; [eexists; unfold round_ms; reflexivity|].
  split; [done|]. exists t. split; [exact Ei|]. by rewrite dict_lookup_insert, decide_True.
Qed.

(** The token in a session's documents is the one that was bound when the
    session was created, rebuilt from the binding: until the hard deadline of the
    session it verifies for exactly its owner, model and session, from then on
    for nothing, and submissions that carry it reach this session; a closed
    session's documents carry no token. *)
Theorem session_token_usable tokens owner model_id sid (s s' : Site W) b holding v fields :
  plain (ta_boot_id tokens) → plain sid → is_float (thousandths (round3 (bd_expires_at b))) →
  bind sv clock tokens owner model_id sid s = (s', Ret b) →
  session_document_of api tokens holding b v = Ret (JObj fields) →
  if bool_decide (view_phase v = CLOSED) then jget "owner_token" fields = Some JNull
  else ∃ token, jget "owner_token" fields = Some (JStr token) ∧
    sh_session_tokens (st_shared s') !! Identity.fingerprint tokens token = Some sid ∧
    ∀ o m x now, plain_grant (session_grant o m x) →
      (∃ claims, Identity.verify tokens token (session_grant o m x) now = Ret claims) ↔
      (o = owner ∧ m = model_id ∧ x = sid ∧ now < bd_expires_at b).
Proof.
  intros Hb Hsid Hq (E1 & E2 & E3 & (k & Ek) & _ & token & Ht & Hf)%bind_bound. unfold session_document_of. cbv zeta.
  destruct (bool_decide_reflect (view_phase v = CLOSED)) as [Hc|Hc].
  - rewrite Hc. unfold mbind, outcome_bind. destruct (parse_session_view _); [|done]. by intros [= <-].
  - assert (match view_phase v with CLOSED => Ret JNull | _ => t ← issue_token tokens b; Ret (JStr t) end = Ret (JStr token)) as ->.
    { rewrite Ht. by destruct (view_phase v). }
    unfold mbind, outcome_bind. destruct (parse_session_view _); [|done]. intros [= <-]. exists token. split_and!; [done|done|].
    intros o m x now Hg. unfold issue_token in Ht. rewrite E1, E2, E3 in Ht.
    replace (thousandths (round3 (bd_expires_at b))) with (thousandths (round3 (bd_issued_at b + (bd_expires_at b - bd_issued_at b)))) in Hq by (do 2 f_equal; lia).
    rewrite (issued_token_verifies tokens tokens (session_grant owner model_id sid) (session_grant o m x) _ _ now token Hb Hb Hsid I Hg Hq Ht).
    replace (bd_issued_at b + (bd_expires_at b - bd_issued_at b)) with (bd_expires_at b) by lia. rewrite String.eqb_refl, bool_decide_true by done. cbn [andb].
    assert (round3 (bd_expires_at b) * 1000000 = bd_expires_at b) as -> by (rewrite Ek, round3_ms; done).
    destruct (decide (session_grant o m x = session_grant owner model_id sid)) as [Hs|Hs].
    + rewrite bool_decide_true by done. injection Hs as -> -> ->. cbn [andb]. destruct (Z.ltb_spec now (bd_expires_at b)); [|split; [by intros [? ?]|lia]].
      split; [done|]. intros _. by eexists.
    + rewrite bool_decide_false by done. split; [by intros [? ?]|]. intros (-> & -> & -> & _). done.
Qed.
End Tokens.
