(* ===== verification/Server.v ===== *)
(** * The control listener

    [model_scheduler/control_server.py]: one connection of the Unix socket, from
    the peer's credentials to the bytes written, with the control app in between.
    The HTTP framing is the h11 package: [Framing] is what it makes of the header
    bytes, and the events it yields while the body is read are an argument.  A
    connection that is closed without an answer writes nothing. *)

From S2P Require Import Prelude Text Dict Env Contracts Registration JsonText JsonTextProps Identity IdentityProps Idempotency Protocol Requests RequestsProps Blobs BlobStore Execution Sessions Control Api ApiProps.
From Stdlib Require Import Ascii.
Local Open Scope Z_scope.

(** The head of a request, as h11 hands it over. *)
Record Head := { hd_version : string; hd_method : string; hd_target : string; hd_headers : list (string * string) }.
(** [conn.receive_data(blob); conn.next_event()]: the request, or [None] for any
    other event and for a protocol error. *)
Class Framing := { h11_request : string → option Head }.

(** What h11 yields while a body is read; [NeedData None] is a read that timed
    out or found the end of the stream. *)
Inductive BodyEvent := NeedData (more : option string) | Data (data : string) | EndOfMessage | ConnectionClosed | OtherEvent.

Definition CRLF2 : string := text_of [byte 13; byte 10; byte 13; byte 10].
Definition CRLF : string := text_of [byte 13; byte 10].
Definition ALLOWED_METHODS : list string := ["GET"; "POST"; "DELETE"].
Definition FORBIDDEN_HEADERS : list string := ["upgrade"; "proxy-connection"].
Definition BODY_READ_BYTES : Z := 64 * 1024.
Definition CONTROL_APP_NAME : string := "control-v1".

Record ControlServer := {
  cs_allowed : list Z;
  cs_max_header_bytes : Z;
  cs_max_body_bytes : Z;
}.
Definition make_server (allowed_uids : list Z) (max_header_bytes max_body_bytes : Z) : outcome ControlServer :=
  _ ← raise_if (bool_decide (allowed_uids = [])) (ControlServerError "the control listener needs at least one allowed uid");
  _ ← raise_if (existsb (fun uid => uid <? 0) allowed_uids) (ControlServerError "allowed uids must be non-negative");
  Ret {| cs_allowed := allowed_uids; cs_max_header_bytes := max_header_bytes; cs_max_body_bytes := max_body_bytes |}.

(** [buf.split(b"\r\n\r\n", 1)] when the separator occurs *)
Fixpoint split_head (l : list ascii) : option (list ascii * list ascii) :=
  match after CRLF2 (text_of l) with
  | Some rest => Some ([], chars rest)
  | None => match l with [] => None | c :: l => '(a, b) ← split_head l; Some (c :: a, b) end
  end.

(** The bounded header phase; [reads] are the chunks the reader returns. *)
Fixpoint read_head (max : Z) (buf : string) (reads : list string) : option (string * string) :=
  match split_head (chars buf) with
  | Some (head, rest) => Some (text_of head, text_of rest)
  | None =>
      match reads with
      | [] => None
      | chunk :: reads =>
          if String.eqb chunk "" then None
          else
            let buf := buf +:+ chunk in
            if max <? Z.of_nat (String.length buf) then None else read_head max buf reads
      end
  end.

(** The answers of successive calls of [receive]. *)
Fixpoint feed (max total : Z) (buffer : string) (events : list BodyEvent) : list Event :=
  match events with
  | [] | NeedData None :: _ | ConnectionClosed :: _ => [Disconnect]
  | NeedData (Some _) :: events => feed max total buffer events
  | EndOfMessage :: _ => [Chunk buffer false]
  | OtherEvent :: _ => [Broken]
  | Data data :: events =>
      let total := total + Z.of_nat (String.length data) in
      if max <? total then [Broken]
      else
        let buffer := buffer +:+ data in
        if BODY_READ_BYTES <=? Z.of_nat (String.length buffer) then Chunk buffer true :: feed max total "" events
        else feed max total buffer events
  end.

(** ** Answers *)
Definition reason_of (status : Z) : string :=
  if status =? 200 then "OK" else if status =? 404 then "Not Found" else if status =? 405 then "Method Not Allowed"
  else if status =? 413 then "Payload Too Large" else "Response".
Definition response_bytes (status : Z) (headers : list (string * string)) (body : string) : string :=
  "HTTP/1.1 " +:+ int_text status +:+ " " +:+ reason_of status +:+ CRLF
  +:+ concat_text (map (fun kv => kv.1 +:+ ": " +:+ kv.2 +:+ CRLF) headers) +:+ CRLF +:+ body.

(** [send]: the start is remembered, the body is written with it. *)
Definition answer_headers (status : Z) (headers : list (string * string)) (body : string) : list (string * string) :=
  List.filter (fun kv => negb (bool_decide (lower_bytes kv.1 ∈ ["content-length"; "connection"]))) headers
  ++ (if (status =? 204) || (status =? 304) then [] else [("content-length", int_text (Z.of_nat (String.length body)))])
  ++ [("connection", "close")].
Fixpoint written (status : Z) (headers : list (string * string)) (messages : list Message) : list string :=
  match messages with
  | [] => []
  | ResponseStart status headers :: messages => written status headers messages
  | ResponseBody body :: messages => response_bytes status (answer_headers status headers body) body :: written status headers messages
  end.

Section Connection.
Context {W : Type} (sv : Services W) (api : ControlAPI) (server : ControlServer).
Context `{PyEnv} `{Mac} `{Digest} `{FloatText} `{Codecs} `{Framing}.
Context (meanwhile : nat → Shared W → Shared W) (clock : nat → time) (str_of : exn → string).

(** The control app: the peer route, everything else by the API. *)
Definition peer_document (owner boot_id : string) : json :=
  JObj [("owner", JStr owner); ("boot_id", JStr boot_id); ("via", JStr CONTROL_APP_NAME)].
Definition not_served (request_id : string) : pym (Site W) unit :=
  document ← lift (error_document "not_found" "the route is not served here" request_id); send_json 404 document.
Definition control_app (rq : Request) : pym (Site W) unit :=
  if negb (String.eqb (rq_path rq) "/internal/peer") then call_api sv api meanwhile clock str_of rq
  else
    match owner_from_peer (rq_peer rq) with
    | Raise e =>
        let code := match e with IdentityError c => if known_code c then c else "peer_forbidden" | _ => "peer_forbidden" end in
        document ← lift (error_document code (str_of e) (rq_request_id rq)); send_json (default 403 (ERROR_STATUS code)) document
    | Ret owner =>
        if String.eqb (rq_method rq) "GET" then send_json 200 (peer_document owner (api_boot_id api)) else not_served (rq_request_id rq)
    end.

(** [lowered.get(name)]: the last header of that name *)
Definition last_header (headers : list (string * string)) (name : string) : option string :=
  latin1 ∘ snd <$> List.find (fun kv => String.eqb (latin1 kv.1) name) (rev headers).
Definition lower_names (headers : list (string * string)) : list (string * string) := map (fun kv => (lower_bytes kv.1, kv.2)) headers.

(** What is refused without an answer. *)
Definition abusive (hd : Head) (headers : list (string * string)) : bool :=
  negb (String.eqb (hd_version hd) "1.1") || negb (bool_decide (latin1 (hd_method hd) ∈ ALLOWED_METHODS))
  || existsb (fun name => bool_decide (is_Some (last_header headers name))) FORBIDDEN_HEADERS
  || existsb (fun token => mentions token (chars (lower (default "" (last_header headers "connection"))))) ["upgrade"; "proxy"]
  || (let te := lower (strip_str (default "" (last_header headers "transfer-encoding"))) in
      negb (bool_decide (te ∈ [""; "identity"; "chunked"])) || (String.eqb te "chunked" && bool_decide (is_Some (last_header headers "content-length")))).

(** The declared length: too large is answered, a bad one closes. *)
Inductive Length := LengthFine | LengthBad | LengthTooLarge.
Definition declared_length (headers : list (string * string)) : Length :=
  match last_header headers "content-length" with
  | None => LengthFine
  | Some raw =>
      match int_of_text raw with
      | None => LengthBad
      | Some n => if n <? 0 then LengthBad else if cs_max_body_bytes server <? n then LengthTooLarge else LengthFine
      end
  end.

(** [target.partition("?")[0]] *)
Fixpoint until_question (l : list ascii) : list ascii :=
  match l with [] => [] | c :: l => if code c =? 63 then [] else c :: until_question l end.

Definition request_of_head (uid : Z) (hd : Head) (headers : list (string * string)) (request_id : string) : Request :=
  {| rq_peer := Some {| uid := uid |}; rq_method := latin1 (hd_method hd); rq_path := text_of (until_question (chars (hd_target hd)));
     rq_headers := headers; rq_request_id := request_id |}.

(** The bytes written for a body that is declared too large: the error document
    is built with an empty request id. *)
Definition too_large_answer : outcome (list string) :=
  document ← error_document "payload_too_large" "the request body is too large" "";
  let body := dumps_plain document in
  Ret [response_bytes 413 (json_headers body) body].

(** [_on_connection] and [_serve_connection]: what is written. *)
Definition serve_connection (uid : Z) (reads : list string) (events : list BodyEvent) (request_id : string) (shared : Site W)
    : Site W * list string :=
  if negb (bool_decide (uid ∈ cs_allowed server)) then (shared, [])
  else
    match read_head (cs_max_header_bytes server) "" reads with
    | None => (shared, [])
    | Some (blob, rest) =>
        match h11_request (blob +:+ CRLF2) with
        | None => (shared, [])
        | Some hd =>
            let headers := lower_names (hd_headers hd) in
            if abusive hd headers then (shared, [])
            else
              match declared_length headers with
              | LengthBad => (shared, [])
              | LengthTooLarge => (shared, match too_large_answer with Ret writes => writes | Raise _ => [] end)
              | LengthFine =>
                  if negb (utf8_valid (hd_target hd)) then (shared, [])
                  else
                    let rq := request_of_head uid hd headers request_id in
                    let start := shared <| st_inbox := feed (cs_max_body_bytes server) 0 "" events |> <| st_sent := [] |> in
                    let (s, _) := control_app rq start in
                    (s, written 0 [] (st_sent s))
              end
        end
    end.
End Connection.

(** ** What a control connection can do

    The peer's credentials decide, not the bytes it sends: who is served, as
    whom, and within which bounds. *)
Definition text_size (s : string) : Z := Z.of_nat (String.length s).
Lemma text_size_app a b : text_size (a +:+ b) = text_size a + text_size b.
Proof. unfold text_size. rewrite append_length. lia. Qed.
Lemma length_chars s : length (chars s) = String.length s.
Proof. induction s as [|c s IH]; [done|]. cbn. by rewrite IH. Qed.

(** *** The header phase *)
Lemma split_head_app l a b : split_head l = Some (a, b) → l = a ++ chars CRLF2 ++ b.
Proof.
  revert a b. induction l as [|c l IH]; intros a b; cbn [split_head].
  - destruct (after CRLF2 _) as [r|] eqn:E; [done|done].
  - destruct (after CRLF2 (text_of (c :: l))) as [r|] eqn:E.
    + intros [= <- <-]. apply after_app in E. rewrite <-(chars_text_of (c :: l)), E. by rewrite chars_app.
    + destruct (split_head l) as [[x y]|]; [|done]. intros [= <- <-]. cbn. f_equal. by apply IH.
Qed.
Lemma read_head_bound max buf reads head rest : text_size buf ≤ max → read_head max buf reads = Some (head, rest) →
  text_size head + text_size rest ≤ max.
Proof.
  revert buf. induction reads as [|chunk reads IH]; intros buf Hb; cbn [read_head];
    destruct (split_head (chars buf)) as [[a b]|] eqn:E.
  1,3: intros [= <- <-]; apply split_head_app in E; unfold text_size in *; rewrite <-!length_chars, !chars_text_of;
    assert (length (chars buf) = length a + (4 + length b))%nat as El by (rewrite E, !length_app; done); rewrite length_chars in El; lia.
  - done.
  - destruct (String.eqb chunk ""); [done|]. cbv zeta. destruct (Z.ltb_spec max (Z.of_nat (String.length (buf +:+ chunk)))) as [|Hl]; [done|]. by apply IH.
Qed.

(** *** The body *)
Definition event_size (e : Event) : Z := match e with Chunk b _ => text_size b | _ => 0 end.
Definition body_size (l : list Event) : Z := foldr (fun e n => event_size e + n) 0 l.
Lemma feed_bound max total buffer events : text_size buffer ≤ total → total ≤ max → body_size (feed max total buffer events) ≤ max - total + text_size buffer.
Proof.
  revert total buffer. induction events as [|e events IH]; intros total buffer Hb Ht; cbn [feed]; [cbn; unfold text_size; lia|].
  assert (0 ≤ text_size buffer) as Hn by (unfold text_size; lia).
  destruct e as [[more|]|data| | |]; try (cbn; lia); [by apply IH|]. cbv zeta. fold (text_size data).
  assert (0 ≤ text_size data) by (unfold text_size; lia). destruct (Z.ltb_spec max (total + text_size data)); [cbn; lia|].
  fold (text_size (buffer +:+ data)). destruct (_ <=? _).
  - cbn [body_size foldr event_size]. fold (body_size (feed max (total + text_size data) "" events)).
    pose proof (IH (total + text_size data) "" ltac:(cbn; unfold text_size in *; cbn; lia) ltac:(lia)) as Hi. rewrite text_size_app. unfold text_size in *. cbn in *. lia.
  - pose proof (IH (total + text_size data) (buffer +:+ data) ltac:(rewrite text_size_app; lia) ltac:(lia)) as Hi. rewrite text_size_app in *. lia.
Qed.

Section Connection.
Context {W : Type} (sv : Services W) (api : ControlAPI) (server : ControlServer).
Context `{PyEnv} `{Mac} `{Digest} `{FloatText} `{Codecs} `{Framing}.
Context (meanwhile : nat → Shared W → Shared W) (clock : nat → time) (str_of : exn → string).
Context (store_law : ∀ st w, sv_store sv (sv_set_store sv st w) = Some st).

(** One answer at most, and calls in the peer's name only. *)
Lemma control_app_once rq p (s s' : Site W) r :
  (∀ e, is_message (str_of e)) → is_request_id (rq_request_id rq) → st_sent s = [] → rq_peer rq = Some p →
  control_app sv api meanwhile clock str_of rq s = (s', r) →
  (length (written 0 [] (st_sent s')) ≤ 1)%nat ∧
  ∃ l h, st_asked s' = st_asked s ++ l ∧ st_history s' = st_history s ++ h ∧
    Forall (authorized sv api clock rq (st_inbox s) (owner p) h) l.
Proof.
  intros Hm Hr Hs Hp. unfold control_app. destruct (negb _).
  - intros E. split.
    + destruct (call_once sv api meanwhile clock str_of store_law rq s s' r Hm Hr Hs E) as (s1 & o & _ & Ho). destruct o as [u|e], r as [u'|e'].
      * destruct Ho as (st & hd & b & _ & ->). cbn. lia.
      * done.
      * destruct Ho as (code & st & hd & b & _ & -> & _). cbn. lia.
      * destruct Ho as (_ & -> & _). cbn. lia.
    + destruct (call_authorized sv api meanwhile clock str_of store_law rq s s' r E) as (l & h & El & Eh & Hl). exists l, h. split_and!; [done|done|].
      destruct Hl as [->|(q & Hq & _ & Hl)]; [done|]. by simplify_eq.
  - rewrite Hp. cbn [owner_from_peer]. destruct (String.eqb _ _).
    + intros [= <- <-]. cbn. rewrite Hs. split; [cbn; lia|]. exists [], []. by rewrite !app_nil_r.
    + unfold not_served, mbind, pym_bind, lift. destruct (error_document _ _ _); intros [= <- <-]; cbn; rewrite Hs; (split; [cbn; lia|]);
        exists [], []; by rewrite !app_nil_r.
Qed.

(** The head of a request that may make calls. *)
Definition admitted_head (reads : list string) (hd : Head) : Prop :=
  ∃ head rest, read_head (cs_max_header_bytes server) "" reads = Some (head, rest) ∧ text_size head ≤ cs_max_header_bytes server ∧
    h11_request (head +:+ CRLF2) = Some hd ∧ abusive hd (lower_names (hd_headers hd)) = false.
(** What a connection of an allowed peer wrote and asked. *)
Definition served (uid : Z) (reads : list string) (events : list BodyEvent) (request_id : string) (s s' : Site W) (writes : list string) : Prop :=
  (length writes ≤ 1)%nat ∧
  ∃ l, st_asked s' = st_asked s ++ l ∧
    (l = [] ∨ ∃ hd h, admitted_head reads hd ∧ st_history s' = st_history s ++ h ∧
       Forall (authorized sv api clock (request_of_head uid hd (lower_names (hd_headers hd)) request_id)
                 (feed (cs_max_body_bytes server) 0 "" events) (owner {| uid := uid |}) h) l).
Lemma served_silent uid reads events request_id s : served uid reads events request_id s s [].
Proof. split; [cbn; lia|]. exists []. rewrite app_nil_r. split; [done|by left]. Qed.

(** The answer for a body declared too large is never built: the error document
    refuses the empty request id. *)
Lemma too_large_unanswered : too_large_answer = Raise (ContractError "must be a non-empty string").
Proof. vm_compute. reflexivity. Qed.

Lemma serve_served uid reads events request_id s s' writes :
  (∀ e, is_message (str_of e)) → is_request_id request_id → 0 ≤ cs_max_header_bytes server →
  serve_connection sv api server meanwhile clock str_of uid reads events request_id s = (s', writes) → served uid reads events request_id s s' writes.
Proof.
  intros Hm Hr Hh. unfold serve_connection. destruct (negb _); [intros [= <- <-]; apply served_silent|].
  destruct (read_head _ "" reads) as [[head rest]|] eqn:Eh; [|intros [= <- <-]; apply served_silent].
  destruct (h11_request _) as [hd|] eqn:Ehd; [|intros [= <- <-]; apply served_silent]. cbv zeta.
  destruct (abusive hd _) eqn:Ea; [intros [= <- <-]; apply served_silent|].
  destruct (declared_length _ _); [|intros [= <- <-]; apply served_silent|rewrite too_large_unanswered; intros [= <- <-]; apply served_silent].
  destruct (negb _); [intros [= <- <-]; apply served_silent|].
  destruct (control_app _ _ _ _ _ _ _) as [s1 r] eqn:Eapp. intros [= <- <-].
  apply (control_app_once _ {| uid := uid |}) in Eapp as (G1 & l & h & G2 & G3 & G4); [|done..]. split; [done|]. exists l. split; [exact G2|]. right.
  exists hd, h. split_and!; [|exact G3|exact G4]. exists head, rest. split_and!; [done| |done|done]. apply read_head_bound in Eh; [|done]. unfold text_size in *. lia.
Qed.

(** C19: a connection writes at most one answer. A peer whose user id is not on
    the list is closed without an answer and changes nothing. Any call a
    connection makes is one its request may make ([authorized]) in the name of the
    user id the kernel reported, whatever its headers say, and only for a request whose header fit its bound,
    that the framing accepted and that is none of the abuses; the body handed
    on is within its bound. *)
Theorem connection_confined uid reads events request_id s s' writes :
  (∀ e, is_message (str_of e)) → is_request_id request_id → 0 ≤ cs_max_header_bytes server → 0 ≤ cs_max_body_bytes server →
  serve_connection sv api server meanwhile clock str_of uid reads events request_id s = (s', writes) →
  served uid reads events request_id s s' writes ∧ (uid ∉ cs_allowed server → s' = s ∧ writes = []) ∧
  body_size (feed (cs_max_body_bytes server) 0 "" events) ≤ cs_max_body_bytes server.
Proof.
  intros Hm Hr Hh Hb E. split_and!.
  - by eapply serve_served.
  - intros Hu. unfold serve_connection in E. rewrite bool_decide_false in E by done. by injection E as <- <-.
  - pose proof (feed_bound (cs_max_body_bytes server) 0 "" events ltac:(done) Hb). unfold text_size in *. cbn in *. lia.
Qed.
End Connection.
