(* ===== verification/ApiServices.v ===== *)
(** * The services behind the control routes

    The operations the routes of [Api] call, run on the modelled scheduler,
    execution service and blob store, and [_advance] of
    [model_scheduler/execution_service.py] between two of its sections.  The
    idempotency store is the one the execution service holds. *)

From S2P Require Import Prelude Text Dict Env Contracts Registration JsonText Identity Idempotency Protocol Requests Blobs BlobStore Execution Registry Queue Sessions Scheduler Tasks Control Api JsonTextProps IdentityProps RequestsProps BlobDemo RegistryProps SessionsProps SchedulerProps ExecutionDemo ApiProps Server.
From Stdlib Require Import Ascii.
Local Open Scope Z_scope.

(** The state of the process, with its two clocks. *)
Record Process := {
  pr_scheduler : ModelScheduler;
  pr_service : ExecutionService;
  pr_blobs : BlobStore;
  pr_now : time;
  pr_wall : time;
}.
#[export] Instance Process_eta : Eta Process := fun p =>
  {| pr_scheduler := pr_scheduler p; pr_service := pr_service p; pr_blobs := pr_blobs p; pr_now := pr_now p; pr_wall := pr_wall p |}.

Definition on_scheduler {A} (m : time → pym ModelScheduler A) : pym Process A := fun p =>
  let (s, o) := m (pr_now p) (pr_scheduler p) in (p <| pr_scheduler := s |>, o).
Definition on_service {A} (m : Process → pym ExecutionService A) : pym Process A := fun p =>
  let (s, o) := m p (pr_service p) in (p <| pr_service := s |>, o).
Definition on_blobs {A} (m : time → pym BlobStore A) : pym Process A := fun p =>
  let (s, o) := m (pr_wall p) (pr_blobs p) in (p <| pr_blobs := s |>, o).

(** What the environment answers while a request waits. *)
Record Environment := {
  env_io : Io;
  env_disk_free : option Z;
  env_drain : list Tick;
  env_answer : bool;
  env_abandoned : bool;
  env_written : WriteResult;
}.

Section Services.
Context `{PyEnv} `{Mac} `{Digest} `{FloatText} (utc_timestamp : string → bool).
Context (tokens : option TokenAuthority) (env : Environment).

(** A coroutine of the scheduler; one that still waits when the script ends is
    cancelled with its request. *)
Definition run_coroutine {A} (m : co A) : pym Process A := fun p =>
  let (w, o) := m {| w_sched := pr_scheduler p; w_now := pr_now p; w_script := env_drain env |} in
  (p <| pr_scheduler := w_sched w |> <| pr_now := w_now w |>,
   match o with Finished r => r | Suspended => Raise CancelledError end).

(** [self._tokens.verify(...)] when tokens are wired in *)
Definition checked_token (token owner model_id session_id : string) (now : time) : outcome unit :=
  match tokens with
  | None => Ret tt
  | Some a => _ ← Identity.verify a token (session_grant owner model_id session_id) now; Ret tt
  end.

Definition create_request (r : ExecutionCreateRequest) : CreateRequest :=
  {| cr_operation := ec_operation r;
     cr_input := match ec_input r with
                 | Inline payload => {| in_inline := Some (JObj payload); in_blob := None |}
                 | Blob b => {| in_inline := None; in_blob := Some b |}
                 end;
     cr_parameters := ec_parameters r; cr_idempotency_key := ec_idempotency_key r |}.

(** The payload the key of an execution is bound to. *)
Definition submit_payload (session_id : string) (r : ExecutionCreateRequest) (document : json) : string :=
  let part key := match document with JObj fields => default JNull (jget key fields) | _ => JNull end in
  dumps true (JObj [("session_id", JStr session_id); ("operation", JStr (ec_operation r));
                    ("input", part "input"); ("parameters", part "parameters")]).

Definition submit_document (session_id owner : string) (document : json) : pym Process json :=
  parsed ← lift (parse_execution_create_request document);
  on_service (fun p =>
    let token := ec_session_token parsed in
    let model_id := match s_get (sessions (pr_scheduler p)) session_id with Ret r => s_model_id r | Raise _ => "" end in
    submit utc_timestamp (sessions (pr_scheduler p)) (book (pr_scheduler p)) session_id owner (create_request parsed)
      (checked_token token owner model_id session_id (pr_wall p)) (submit_payload session_id parsed document)
      (match tokens with Some a => Some (Identity.fingerprint a token) | None => None end) (pr_now p) (pr_wall p)).

(** [_advance]: publish when this caller is the one to, then tear down. *)
Definition advance (eid : string) (settled : bool) (wall : time) : pym ExecutionService unit :=
  mine ← publish_begin eid;
  settled ← (if mine : bool then
               before ← record_ eid;
               publish_end utc_timestamp eid (env_written env) wall ;;
               (if x_settled before then mret tt else teardown eid (env_abandoned env)) ;;
               r ← record_ eid;
               mret (x_settled r)
             else mret settled);
  if settled : bool then teardown eid (env_abandoned env) else mret tt.

Definition cancel_execution (eid owner token : string) : pym Process json :=
  on_service (fun p =>
    r ← owned eid owner;
    settled ← cancel utc_timestamp eid owner (checked_token token owner (x_model_id r) (x_session_id r) (pr_wall p)) (env_answer env) (pr_wall p);
    (if x_settled r then mret tt else advance eid settled (pr_wall p)) ;;
    view_of utc_timestamp eid owner).

Definition services : Services Process := {|
  sv_register_session := fun model_id owner session_id => on_scheduler (register_session model_id owner session_id 0 None);
  sv_heartbeat_session := fun session_id => on_scheduler (heartbeat_session session_id);
  sv_close_session := fun session_id reason => run_coroutine (close_session session_id reason None);
  sv_session_view := fun session_id => on_scheduler (fun now s => (s, s_view (sessions s) session_id now));
  sv_holding_id := fun p => holding_id (sessions (pr_scheduler p));
  sv_hard_deadline_seconds := fun p => hard_deadline_seconds (sessions (pr_scheduler p));
  sv_submit := submit_document;
  sv_view := fun eid owner => on_service (fun _ => view_of utc_timestamp eid owner);
  sv_cancel := cancel_execution;
  sv_media_types := fun p => media_types (pr_blobs p);
  sv_upload := fun blob_id owner media_type chunks stream_end digest declared =>
    on_blobs (upload (env_io env) blob_id owner media_type chunks stream_end (Some digest) declared (env_disk_free env));
  sv_blob := fun p blob_id => get_blob (metadata (pr_blobs p)) blob_id;
  sv_read_all := fun blob_id owner holder => on_blobs (read_all blob_id owner holder);
  sv_delete := fun blob_id owner now => on_blobs (fun _ => delete_ blob_id owner now);
  sv_store := fun p => svc_idempotency (pr_service p);
  sv_set_store := fun st p => p <| pr_service ::= fun s => s <| svc_idempotency := Some st |> |>;
|}.
End Services.

(** ** A control request that runs

    A session is created over the socket, read back, and kept alive with its
    token, on the modelled scheduler, service and blob store. *)
#[local] Existing Instance IdentityProps.demo_mac.
#[local] Existing Instance demo_mac_hex.
#[local] Existing Instance thousandths_floats.
#[local] Existing Instance thousandths_laws.
#[local] Existing Instance demo_digest.
#[local] Existing Instance ascii_codecs.

Definition quiet_environment : Environment :=
  {| env_io := good_io; env_disk_free := None; env_drain := []; env_answer := true; env_abandoned := true; env_written := NothingToWrite |}.
Definition demo_process : Process :=
  {| pr_scheduler := (demo_sched demo_ready) <| sessions ::= fun m => m <| hard_deadline_seconds := 3600 * second |> |>; pr_service := demo_service; pr_blobs := empty_store 100; pr_now := 5 * second; pr_wall := 100 * second |}.
Definition demo_api : ControlAPI :=
  {| api_boot_id := "boot-1"; api_blobs := true; api_scheduler := true; api_service := true; api_tokens := Some demo_authority; api_idempotency := true |}.
Definition demo_services : Services Process := services any_time (Some demo_authority) quiet_environment.
Definition undisturbed : nat → Shared Process → Shared Process := fun _ s => s.
Definition wall_clock : nat → time := fun _ => 100 * second.
Definition plain_message : exn → string := fun _ => "refused".

Definition demo_site (body : string) : Site Process :=
  {| st_shared := {| sh_world := demo_process; sh_sessions := ∅; sh_session_tokens := ∅ |};
     st_inbox := [Chunk body false]; st_sent := []; st_asked := []; st_awaits := 0; st_history := []; st_uuids := 0 |}.
Definition q (s : string) : string := text_of (map (fun c => if code c =? 39 then byte 34 else c) (chars s)).
Definition create_body : string := q "{'model_id': 'a', 'idempotency_key': 'k9', 'correlation_id': null}".
Definition demo_rq (method path : string) : Request :=
  {| rq_peer := Some {| uid := 7 |}; rq_method := method; rq_path := path; rq_headers := [("x-sms-protocol-version", "1")]; rq_request_id := "r1" |}.
Local Notation created := (call_api demo_services demo_api undisturbed wall_clock plain_message (demo_rq "POST" "/internal/sessions") (demo_site create_body)).

Lemma demo_store_law st w : sv_store demo_services (sv_set_store demo_services st w) = Some st.
Proof. done. Qed.
Lemma plain_messages e : is_message (plain_message e).
Proof. vm_compute. reflexivity. Qed.
Lemma demo_request_id : is_request_id "r1".
Proof. vm_compute. reflexivity. Qed.

(** The session is created with one call, in the peer's name. *)
Example demo_created : st_asked created.1 = [AskRegister "a" "uid:7" "u0"] ∧ created.2 = Ret tt.
Proof. vm_compute. done. Qed.

Local Notation unknown_session := (call_api demo_services demo_api undisturbed wall_clock plain_message (demo_rq "GET" "/internal/sessions/u9") (demo_site "")).

(** The creation is answered with 202, the read of an unknown session with 404. *)
Lemma api_answers_once_witness : ∃ s1 s2,
  created = (s1, Ret tt) ∧ unknown_session = (s2, Ret tt) ∧
  ends_once demo_services demo_api undisturbed wall_clock plain_message (demo_rq "POST" "/internal/sessions") (demo_site create_body) s1 (Ret tt) ∧
  ends_once demo_services demo_api undisturbed wall_clock plain_message (demo_rq "GET" "/internal/sessions/u9") (demo_site "") s2 (Ret tt) ∧
  (∃ h1 b1 h2 b2, st_sent s1 = [ResponseStart 202 h1; ResponseBody b1] ∧ st_sent s2 = [ResponseStart 404 h2; ResponseBody b2]).
Proof.
  destruct created as [s1 r1] eqn:E1. assert (r1 = Ret tt) as -> by (replace r1 with created.2 by (by rewrite E1); vm_compute; reflexivity).
  destruct unknown_session as [s2 r2] eqn:E2. assert (r2 = Ret tt) as -> by (replace r2 with unknown_session.2 by (by rewrite E2); vm_compute; reflexivity).
  exists s1, s2. split; [reflexivity|]. split; [reflexivity|]. split; [|split].
  - exact (api_answers_once demo_services demo_api undisturbed wall_clock plain_message demo_store_law
             (demo_rq "POST" "/internal/sessions") (demo_site create_body) s1 (Ret tt) plain_messages demo_request_id eq_refl E1).
  - exact (api_answers_once demo_services demo_api undisturbed wall_clock plain_message demo_store_law
             (demo_rq "GET" "/internal/sessions/u9") (demo_site "") s2 (Ret tt) plain_messages demo_request_id eq_refl E2).
  - replace s1 with created.1 by (by rewrite E1). replace s2 with unknown_session.1 by (by rewrite E2). eexists _, _, _, _. vm_compute. split; reflexivity.
Defined.

Lemma api_calls_authorized_witness : ∃ s' r l h,
  created = (s', r) ∧ st_asked s' = [] ++ l ∧ l ≠ [] ∧
  Forall (authorized demo_services demo_api wall_clock (demo_rq "POST" "/internal/sessions") [Chunk create_body false] "uid:7" h) l.
Proof.
  destruct created as [s' r] eqn:E. assert (st_asked s' ≠ []) as Hne by (replace s' with created.1 by (by rewrite E); vm_compute; done).
  destruct (api_calls_authorized demo_services demo_api undisturbed wall_clock plain_message demo_store_law
              (demo_rq "POST" "/internal/sessions") (demo_site create_body) s' r E) as (l & h & Hl & _ & Ho).
  exists s', r, l, h. split; [reflexivity|]. split; [exact Hl|]. clear E. split.
  - intros ->. by rewrite Hl in Hne.
  - destruct Ho as [->|(p & [= <-] & _ & Ho)]; [constructor|exact Ho].
Defined.

(** *** Its token *)
Definition demo_binding : SessionBinding :=
  match bind demo_services wall_clock demo_authority "uid:7" "a" "u0" (demo_site "") with (_, Ret b) => b | _ => {|
    bd_session_id := ""; bd_owner := ""; bd_model_id := ""; bd_issued_at := 0; bd_expires_at := 0; bd_fingerprint := "" |} end.
Definition active_view : SessionView :=
  {| view_session_id := "u0"; view_model_id := "a"; view_client_id := "uid:7"; view_phase := ACTIVE; view_priority := 0; view_sequence := 1;
     view_in_flight := 0; view_wait_remaining_ms := 0; view_hard_remaining_ms := 9000; view_expires_in_ms := 1000;
     view_draining_reason := None; view_blocked_reason := None |}.
Definition demo_fields : list (string * json) :=
  match session_document_of demo_api demo_authority None demo_binding active_view with Ret (JObj f) => f | _ => [] end.

Lemma session_token_usable_witness : ∃ token, jget "owner_token" demo_fields = Some (JStr token) ∧
  (∃ claims, Identity.verify demo_authority token (session_grant "uid:7" "a" "u0") (100 * second) = Ret claims) ∧
  ¬ ∃ claims, Identity.verify demo_authority token (session_grant "uid:8" "a" "u0") (100 * second) = Ret claims.
Proof.
  assert (plain (ta_boot_id demo_authority)) as Hb by solve_plain. assert (plain "u0") as Hs by solve_plain.
  assert (is_float (thousandths (round3 (bd_expires_at demo_binding)))) as Hq by (exists 3700000; split; [vm_compute; reflexivity|apply Z.ltb_lt; vm_compute; reflexivity]).
  destruct (bind demo_services wall_clock demo_authority "uid:7" "a" "u0" (demo_site "")) as [s' r] eqn:Eb.
  assert (r = Ret demo_binding) as -> by (replace r with (bind demo_services wall_clock demo_authority "uid:7" "a" "u0" (demo_site "")).2 by (by rewrite Eb); vm_compute; reflexivity).
  assert (session_document_of demo_api demo_authority None demo_binding active_view = Ret (JObj demo_fields)) as Ed by (vm_compute; reflexivity).
  destruct (session_token_usable demo_services demo_api wall_clock demo_authority "uid:7" "a" "u0" (demo_site "") s' demo_binding None active_view demo_fields Hb Hs Hq Eb Ed)
    as (token & Ht & _ & Hv).
  clear Eb Ed. exists token. split; [exact Ht|]. split.
  - apply Hv; [split_and!; solve_plain || exact I|]. do 3 (split; [reflexivity|]). apply Z.ltb_lt. vm_compute. reflexivity.
  - intros Hc. apply Hv in Hc as (E & _); [discriminate E|split_and!; solve_plain || exact I].
Defined.

(** A session that is being prepared does not hold the machine, so its documents
    report it as queued while its model loads. *)
Lemma preparing_not_holding m sid now v : dict_nodup (Sessions.records m) → s_view m sid now = Ret v → view_phase v = PREPARING → holding_id m ≠ Some sid.
Proof.
  intros Hnd Hv Hp Hh. unfold holding_id in Hh. apply fmap_Some in Hh as ([k r] & Hf & ->). cbn [fst] in *.
  apply find_some in Hf as [Hin Hr]. apply list_elem_of_In, entries_lookup in Hin; [|done].
  unfold s_view, s_get in Hv. rewrite Hin in Hv. injection Hv as <-. cbn in Hp, Hr. by rewrite Hp in Hr.
Qed.
Lemma preparing_reported_queued tokens p b now v fields : dict_nodup (Sessions.records (sessions (pr_scheduler p))) →
  s_view (sessions (pr_scheduler p)) (bd_session_id b) now = Ret v → view_phase v = PREPARING →
  session_document_of demo_api tokens (sv_holding_id demo_services p) b v = Ret (JObj fields) → jget "phase" fields = Some (JStr "queued").
Proof.
  intros Hnd Hv Hp. unfold session_document_of. rewrite Hp. change (sv_holding_id demo_services p) with (holding_id (sessions (pr_scheduler p))).
  rewrite bool_decide_false by (by eapply preparing_not_holding). unfold mbind, outcome_bind. cbv zeta.
  destruct (issue_token _ _); [|done]. destruct (parse_session_view _); [|done]. by intros [= <-].
Qed.

(** *** A connection *)
#[local] Instance demo_framing : Framing := {| h11_request := fun _ => Some
  {| hd_version := "1.1"; hd_method := "POST"; hd_target := "/internal/sessions"; hd_headers := [("X-SMS-Protocol-Version", "1"); ("X-Owner", "uid:0")] |} |}.
Definition demo_server : ControlServer := {| cs_allowed := [7]; cs_max_header_bytes := 16384; cs_max_body_bytes := 1073741824 |}.
Local Notation connection uid := (serve_connection demo_services demo_api demo_server undisturbed wall_clock plain_message uid
  ["POST /internal/sessions HTTP/1.1" +:+ CRLF2] [Data create_body; EndOfMessage] "r1" (demo_site "")).

Example demo_connection : length (connection 7).2 = 1%nat ∧ st_asked (connection 7).1 = [AskRegister "a" "uid:7" "u0"].
Proof. vm_compute. done. Qed.

Lemma connection_confined_witness : ∃ s' writes, connection 7 = (s', writes) ∧
  served demo_services demo_api demo_server wall_clock 7 ["POST /internal/sessions HTTP/1.1" +:+ CRLF2] [Data create_body; EndOfMessage] "r1"
    (demo_site "") s' writes.
Proof.
  destruct (connection 7) as [s' writes] eqn:E. exists s', writes. split; [reflexivity|].
  apply (connection_confined demo_services demo_api demo_server undisturbed wall_clock plain_message demo_store_law
    7 _ [Data create_body; EndOfMessage] "r1" (demo_site "") s' writes plain_messages demo_request_id ltac:(done) ltac:(done) E).
Defined.
