(* ===== verification/App.v ===== *)
(** * The inference gateway and its routes

    [model_scheduler/gateway.py]: one request to a model's own upstream, and its
    answer read within a bound.  httpx is an interface: what sending answers, and
    the events of the body.  The outcome a [GatewayError] carries is ABORTED or
    REJECTED, a flag here. *)

From S2P Require Import Prelude Text Dict Contracts Registration JsonText Control Api Identity Envelopes Observer Config.
From Stdlib Require Import Ascii QArith.
Local Open Scope Z_scope.

(** The body of a streamed response; a read may fail or run past the deadline. *)
Inductive StreamEvent := SChunk (data : string) | SError | STimeout.

Record HttpxResponse := {
  hr_status : Z;
  hr_content_type : string;
  hr_retry_after : string;
  hr_stream : list StreamEvent;
}.
Inductive SendResult := Answered (r : HttpxResponse) | SendTimeout | SendError.

Definition upstream_error {A} (status : Z) (code : string) (aborted : bool) : outcome A := Raise (GatewayError status code aborted None).

(** [OpenedHTTPXResponse.json] *)
Fixpoint read_bounded (max : Z) (data : string) (stream : list StreamEvent) : outcome string :=
  match stream with
  | [] => Ret data
  | SError :: _ => upstream_error 502 "upstream_unavailable" true
  | STimeout :: _ => upstream_error 504 "inference_timeout" true
  | SChunk chunk :: stream =>
      if max <? Z.of_nat (String.length data) + Z.of_nat (String.length chunk) then upstream_error 502 "upstream_response_too_large" true
      else read_bounded max (data +:+ chunk) stream
  end.
Definition opened_json `{Codecs} (max : Z) (r : HttpxResponse) : outcome json :=
  data ← read_bounded max "" (hr_stream r);
  match loads_bytes plain_hooks data with
  | Raise (UnicodeDecodeError _) | Raise (ValueError _) => upstream_error 502 "upstream_protocol_error" true
  | o => o
  end.

(** [DirectInferenceGateway] *)
Record DirectInferenceGateway := { gw_upstreams : dict string string; gw_max_response : Z }.
Definition make_gateway (upstreams : dict string string) (max : Z) : outcome DirectInferenceGateway :=
  _ ← raise_if (max <=? 0) (ValueError "max_response_body_bytes must be positive");
  Ret {| gw_upstreams := upstreams; gw_max_response := max |}.

Definition capability_path (c : Capability) : string :=
  match c with CHAT => "/v1/chat/completions" | EMBEDDINGS => "/v1/embeddings" | RERANK => "/reranking" end.
Definition retry_after (r : HttpxResponse) : Z :=
  match int_of_text (hr_retry_after r) with Some n => if (1 <=? n) && (n <=? 60) then n else 1 | None => 1 end.

(** How an answer that is not a success is refused. *)
Definition refuse_status (r : HttpxResponse) : exn :=
  let status := hr_status r in
  if (status =? 400) || (status =? 422) then GatewayError status "upstream_invalid_request" false None
  else if status =? 413 then GatewayError 413 "upstream_request_too_large" false None
  else if status =? 429 then GatewayError 429 "upstream_rate_limited" false (Some (retry_after r))
  else if status =? 503 then GatewayError 503 "upstream_unavailable" true None
  else if bool_decide (status ∈ [401; 403; 404]) || ((300 <=? status) && (status <? 400)) then GatewayError 502 "upstream_configuration_error" true None
  else GatewayError 502 "upstream_error" true None.

(** [open]: the URL and body that are sent, when the request gets that far, and
    the opened response.  [build] encodes the payload, [send] answers. *)
Definition open_upstream (g : DirectInferenceGateway) (lease : Lease) (capability : Capability) (payload : json) (remaining : time)
    (build : json → outcome string) (send : SendResult) : option (string * string) * outcome HttpxResponse :=
  match gw_upstreams g !! lease_model_id lease with
  | None => (None, upstream_error 502 "upstream_configuration_error" true)
  | Some base =>
      if remaining <=? 0 then (None, upstream_error 504 "inference_timeout" true)
      else
        match build payload with
        | Raise e => (None, Raise e)
        | Ret body =>
            (Some (rstrip_slash base +:+ capability_path capability, body),
             match send with
             | SendTimeout => upstream_error 504 "inference_timeout" true
             | SendError => upstream_error 502 "upstream_unavailable" true
             | Answered r => if (200 <=? hr_status r) && (hr_status r <? 300) then Ret r else Raise (refuse_status r)
             end)
        end
  end.

(** ** The inference routes

    [app.py]: the OpenAI-compatible routes of the loopback listener, from the
    request body to the answer, with the lease each takes and gives back.  The
    request models of [api_models.py] are validated by pydantic, an interface
    here ([Dto]); so are httpx and the scheduler's answers.  The
    leases taken and released, the requests sent upstream and the closed
    responses are kept in the order they happen. *)
(** *** Request models *)
Record ChatRequest := { ch_model : string; ch_stream : bool }.
Inductive EncodingFormat := FormatFloat | FormatBase64.
Record EmbeddingRequest := { em_model : string; em_encoding : EncodingFormat }.
Record RerankRequest := { rr_model : string; rr_query : string; rr_documents : list string; rr_top_n : option Z; rr_return_documents : bool }.
(** [Model.model_validate(payload)]; [None] is a validation error. *)
Class Dto := {
  dto_chat : json → option ChatRequest;
  dto_embedding : json → option EmbeddingRequest;
  dto_rerank : json → option RerankRequest;
}.

(** *** The catalog *)
Record CatalogModel := { cat_upstream_url : string; cat_capabilities : list string; cat_preload : bool; cat_envelope : option Envelope }.
Definition model_catalog (c : Loaded) : dict string CatalogModel :=
  match c with
  | LoadedV2 c => dmap (fun m r => {| cat_upstream_url := "http://127.0.0.1:" +:+ int_text (v2_port r); cat_capabilities := v2_capabilities r;
                                      cat_preload := bool_decide (m ∈ v2c_preload c); cat_envelope := Some (v2_envelope r) |}) (v2c_models c)
  | LoadedV1 c => dmap (fun _ r => {| cat_upstream_url := mc_upstream_url r; cat_capabilities := mc_capabilities r;
                                      cat_preload := mc_preload r; cat_envelope := None |}) (v1c_models c)
  end.
(** Load and unload budgets. *)
Definition lifecycle_timeouts (c : Loaded) : Q * Q :=
  match c with
  | LoadedV2 c => (cfg_memory_reclaim_timeout (v2c_scheduler c), cfg_memory_reclaim_timeout (v2c_scheduler c))
  | LoadedV1 c => (cfg_swap_load (v1c_llama_swap c), cfg_swap_unload (v1c_llama_swap c))
  end.

(** *** Answers *)
Inductive Answer :=
| AnswerJson (content : json)
| AnswerError (status : Z) (code : string) (param : option string) (retry : option string)
| AnswerStream (opened : HttpxResponse) (lease : Lease).
Definition error_type (status : Z) : string :=
  if status <? 500 then "invalid_request_error" else if status =? 500 then "server_error" else "upstream_error".
Definition plain_error (status : Z) (code : string) : Answer := AnswerError status code None None.

(** *** Reading a request *)
Inductive BodyPart := PartChunk (data : string) | PartTimeout.
Record BodyRequest := { br_content_type : string; br_content_length : option string; br_parts : list BodyPart }.

Definition unique_hooks : Hooks :=
  {| on_constant := fun _ => Raise (ValueError "non-finite JSON number");
     on_object := fun pairs => match reject_duplicate_keys [] pairs with Ret fields => Ret (JObj fields) | Raise _ => Raise (ValueError "duplicate JSON key") end |}.

Definition declared_body (length : option string) : outcome (option Z) :=
  match length with
  | None => Ret None
  | Some raw => match int_of_text raw with
                | Some n => Ret (Some n)
                | None => Raise (BodyError 400 "invalid_content_length")
                end
  end.
Fixpoint receive_parts (max received : Z) (data : string) (parts : list BodyPart) : outcome string :=
  match parts with
  | [] => Ret data
  | PartTimeout :: _ => Raise (BodyError 408 "request_body_timeout")
  | PartChunk chunk :: parts =>
      let received := received + Z.of_nat (String.length chunk) in
      if max <? received then Raise (BodyError 413 "request_too_large") else receive_parts max received (data +:+ chunk) parts
  end.
Definition read_json `{Codecs} (r : BodyRequest) (max : Z) : outcome (list (string * json)) :=
  if negb (String.eqb (media_of (br_content_type r)) "application/json") then Raise (BodyError 415 "unsupported_media_type")
  else
    declared ← declared_body (br_content_length r);
    _ ← match declared with
        | Some n => if n <? 0 then Raise (BodyError 400 "invalid_content_length")
                    else if max <? n then Raise (BodyError 413 "request_too_large") else Ret tt
        | None => Ret tt
        end;
    raw ← receive_parts max 0 "" (br_parts r);
    if max <? Z.of_nat (String.length raw) then Raise (BodyError 413 "request_too_large")
    else
      match loads_bytes unique_hooks raw with
      | Ret (JObj fields) => Ret fields
      | Ret _ | Raise (UnicodeDecodeError _) | Raise (ValueError _) => Raise (BodyError 400 "invalid_json")
      | Raise e => Raise e
      end.
Fixpoint empty_parts (parts : list BodyPart) : outcome unit :=
  match parts with
  | [] => Ret tt
  | PartTimeout :: _ => Raise (BodyError 408 "request_body_timeout")
  | PartChunk chunk :: parts => if String.eqb chunk "" then empty_parts parts else Raise (BodyError 400 "invalid_request")
  end.
Definition require_empty_body (r : BodyRequest) : outcome unit :=
  declared ← declared_body (br_content_length r);
  _ ← match declared with Some n => if n =? 0 then Ret tt else Raise (BodyError 400 "invalid_request") | None => Ret tt end;
  empty_parts (br_parts r).

(** *** Leases *)
Inductive LeaseEvent :=
| Acquired (lease : Lease)
| Sent (url body : string)
| Closed_
| Released (lease : Lease) (outcome : Outcome)
| NotReleased (lease : Lease) (outcome : Outcome).

(** [await scheduler.release(...)]: its critical section ran, with this result, or
    the request was cancelled while it waited for the lock and it never ran. *)
Inductive ReleaseAnswer := ReleaseRan (result : outcome unit) | ReleaseCancelled.

(** What the neighbours answer during one request. *)
Record Neighbours := {
  nb_acquire : outcome Lease;
  nb_warm : outcome unit;
  nb_count : option (list json → Z → outcome Z);
  nb_count_again : option (list json → Z → outcome Z);
  nb_remaining : time;
  nb_build : json → outcome string;
  nb_send : SendResult;
  nb_close : outcome unit;
  nb_release : nat → ReleaseAnswer; (* by the releases awaited before *)
}.

Section App.
Context `{Codecs} `{Dto} (catalog : dict string CatalogModel) (wired : bool) (gateway : DirectInferenceGateway) (nb : Neighbours).
Notation app := (pym (list LeaseEvent)).

Definition event (e : LeaseEvent) : app unit := modify (fun l => l ++ [e]).
Definition acquire_lease_ : app Lease :=
  l ← lift (nb_acquire nb); event (Acquired l) ;; mret l.
Definition releases_before (es : list LeaseEvent) : nat :=
  length (List.filter (fun e => match e with Released _ _ | NotReleased _ _ => true | _ => false end) es).
Definition release_lease_ (l : Lease) (o : Outcome) : app unit :=
  es ← get;
  match nb_release nb (releases_before es) with
  | ReleaseRan result => event (Released l o) ;; lift result
  | ReleaseCancelled => event (NotReleased l o) ;; raise CancelledError
  end.
Definition open_ (l : Lease) (c : Capability) (payload : json) : app HttpxResponse :=
  let (sent, r) := open_upstream gateway l c payload (nb_remaining nb) (nb_build nb) (nb_send nb) in
  match sent with Some (url, body) => event (Sent url body) | None => mret tt end ;; lift r.
(** [try: await opened.aclose() finally: await scheduler.release(...)] *)
Definition close_and_release (l : Lease) (o : Outcome) : app unit :=
  event Closed_ ;;
  match nb_close nb with
  | Ret _ => release_lease_ l o
  | Raise e => release_lease_ l o ;; raise e
  end.

(** [exc.outcome] *)
Definition gateway_outcome (aborted : bool) : Outcome := if aborted then ABORTED else REJECTED.

(** Subclasses of [RuntimeError]. *)
Definition is_runtime_error (e : exn) : bool :=
  match e with
  | RuntimeError _ | Conflict _ | StaleOperation _ | QueueFull _ | ModelUnavailable _ | SessionConflict _ | SessionNotFound _
  | IdentityError _ | IdempotencyError _ | ExecutionError _ | QuotaExceeded _ | BlobStoreError _ | ObservationError _
  | AssetFault _ | AssetTimeout _ | LlamaSwapError _ | LlamaSwapProtocolError _ | FixtureError _ | PreflightError _ _
  | ControlServerError _ | InstanceLocked _ | GatewayError _ _ _ _ => true
  | _ => false
  end.

(** The except clauses of the routes; [held] is the lease, once acquired.  After a
    cancellation the release is shielded: it runs, and its result is not looked at. *)
Definition guarded (held : option Lease) (e : exn) : option (app Answer) :=
  let give_back o := match held with Some l => release_lease_ l o | None => mret tt end in
  match e with
  | CancelledError =>
      Some (match held with Some l => event (Released l ABORTED) | None => mret tt end ;; raise CancelledError)
  | GatewayError status code aborted retry =>
      Some (give_back (gateway_outcome aborted) ;; mret (AnswerError status code None (int_text <$> retry)))
  | QueueFull _ => Some (mret (AnswerError 429 "queue_full" None (Some "1")))
  | TimeoutError _ => Some (give_back ABORTED ;; mret (plain_error 504 "queue_timeout"))
  | _ => if is_runtime_error e then Some (give_back ABORTED ;; mret (plain_error 503 "service_unavailable")) else None
  end.

(** [try: lease = await acquire(...); body(lease) except ...]; [fail] is what an
    error answer becomes. *)
Definition with_lease {A} (fail : Answer → A) (body : Lease → app A) : app A := fun s =>
  let handled held e s := match guarded held e with
                          | Some h => (a ← h; mret (fail a)) s
                          | None => (s, Raise e)
                          end in
  match acquire_lease_ s with
  | (s, Raise e) => handled None e s
  | (s, Ret l) => match body l s with (s, Raise e) => handled (Some l) e s | r => r end
  end.

(** *** Chat *)
Definition nonnegative_int (v : json) : bool := match v with JInt n => 0 <=? n | _ => false end.
Definition valid_chat_response (response : json) : bool :=
  match response with
  | JObj fields =>
      match jget "model" fields, jget "choices" fields with
      | Some (JStr _), Some (JList _) =>
          match jget "usage" fields with
          | None | Some JNull => true
          | Some (JObj usage) =>
              forallb (fun key => match jget key usage with Some v => nonnegative_int v | None => true end)
                ["prompt_tokens"; "completion_tokens"; "total_tokens"]
          | Some _ => false
          end
      | _, _ => false
      end
  | _ => false
  end.

Definition chat_upstream (payload : list (string * json)) (stream : bool) (l : Lease) : app Answer :=
  opened ← open_ l CHAT (JObj payload);
  if stream then
    if negb (hr_status opened =? 200) || negb (String.eqb (media_of (hr_content_type opened)) "text/event-stream")
    then close_and_release l ABORTED ;; mret (plain_error 502 "upstream_protocol_error")
    else mret (AnswerStream opened l)
  else
    response ← lift (opened_json (gw_max_response gateway) opened);
    if negb (String.eqb (media_of (hr_content_type opened)) "application/json") || negb (valid_chat_response response)
    then close_and_release l ABORTED ;; mret (plain_error 502 "upstream_protocol_error")
    else close_and_release l SUCCESS ;; mret (AnswerJson response).

Definition envelope_status (code : string) : Z := if String.eqb code "unsupported_media_type" then 415 else 422.
(** The checks before a dispatch: the refusal, if any. *)
Definition check_envelope (payload : list (string * json)) (m : CatalogModel) : outcome (option Answer) :=
  match cat_envelope m with
  | None => Ret None
  | Some envelope =>
      let check counter := check_chat_input payload (cat_capabilities m) envelope counter None in
      match check (nb_count nb) with
      | Ret _ => Ret None
      | Raise (EnvelopeError code) => Ret (Some (AnswerError (envelope_status code) code (Some "messages") None))
      | Raise CancelledError => Raise CancelledError
      | Raise _ =>
          match nb_warm nb with
          | Raise CancelledError => Raise CancelledError
          | Raise _ => Ret (Some (plain_error 503 "service_unavailable"))
          | Ret _ =>
              match check (nb_count_again nb) with
              | Ret _ => Ret None
              | Raise (EnvelopeError code) => Ret (Some (AnswerError (envelope_status code) code (Some "messages") None))
              | Raise CancelledError => Raise CancelledError
              | Raise _ => Ret (Some (plain_error 503 "service_unavailable"))
              end
          end
      end
  end.

Definition chat (r : BodyRequest) (max : Z) : app Answer :=
  match read_json r max with
  | Raise (BodyError status code) => mret (plain_error status code)
  | Raise e => raise e
  | Ret payload =>
      match dto_chat (JObj payload) with
      | None => mret (plain_error 400 "invalid_request")
      | Some body =>
          match catalog !! ch_model body with
          | None => mret (AnswerError 404 "model_not_found" (Some "model") None)
          | Some m =>
              if negb (bool_decide ("chat" ∈ cat_capabilities m)) && negb (bool_decide ("vision" ∈ cat_capabilities m))
              then mret (AnswerError 422 "unsupported_capability" (Some "model") None)
              else if negb wired then mret (plain_error 503 "service_unavailable")
              else match check_envelope payload m with
                   | Raise e => raise e
                   | Ret (Some refusal) => mret refusal
                   | Ret None => with_lease id (chat_upstream payload (ch_stream body))
                   end
          end
      end
  end.

(** *** JSON routes *)
Definition acquire_json (model_id : string) (c : Capability) (payload : json) : app (Answer + Lease * json) :=
  match catalog !! model_id with
  | None => mret (inl (AnswerError 404 "model_not_found" (Some "model") None))
  | Some m =>
      if negb (bool_decide (Capability_value c ∈ cat_capabilities m)) then mret (inl (AnswerError 422 "unsupported_capability" (Some "model") None))
      else if negb wired then mret (inl (plain_error 503 "service_unavailable"))
      else with_lease inl (fun l =>
        opened ← open_ l c payload;
        if negb (hr_status opened =? 200) || negb (String.eqb (media_of (hr_content_type opened)) "application/json")
        then close_and_release l ABORTED ;; mret (inl (plain_error 502 "upstream_protocol_error"))
        else result ← lift (opened_json (gw_max_response gateway) opened); mret (inr (l, result)))
  end.

(** [type(x) in (int, float) and math.isfinite(x)]; the conversion of a large
    integer to a float raises. *)
Definition finite_value (v : json) : outcome (option Q) :=
  match v with
  | JInt n => if Z.abs n <? FLOAT_OVERFLOW then Ret (Some (inject_Z n)) else Raise (OverflowError "int too large to convert to float")
  | JFloat q => Ret q
  | _ => Ret None
  end.
Fixpoint finite_values (l : list json) : outcome (option (list Q)) :=
  match l with
  | [] => Ret (Some [])
  | v :: l => q ← finite_value v;
              match q with
              | None => Ret None
              | Some q => rest ← finite_values l; Ret (option_map (cons q) rest)
              end
  end.

(** [struct.pack("<f", x)]: the four bytes of the nearest single, or [None] for
    one out of range. *)
Definition at_least_pow2 (n d k : Z) : bool := if 0 <=? k then d * 2 ^ k <=? n else d <=? n * 2 ^ (- k).
Definition single_bits (q : Q) : option Z :=
  let n := Z.abs (Qnum q) in
  let d := QDen q in
  if n =? 0 then Some 0
  else
    let k := Z.log2 n - Z.log2 d in
    let e := Z.max (if at_least_pow2 n d k then k else k - 1) (-126) in
    let m := if e <=? 23 then round_half_even (n * 2 ^ (23 - e)) d else round_half_even n (d * 2 ^ (e - 23)) in
    let bits := (e + 126) * 2 ^ 23 + m in
    if 255 * 2 ^ 23 <=? bits then None else Some (if Qnum q <? 0 then 2 ^ 31 + bits else bits).
Definition pack_single (v : json) (q : Q) : option (list Z) :=
  let double := match v with JInt n => match float_of_int n with Ret q => q | Raise _ => q end | _ => q end in
  bits ← single_bits double; Some [bits mod 256; bits / 256 mod 256; bits / 65536 mod 256; bits / 16777216].
Fixpoint pack_singles (l : list (json * Q)) : option (list Z) :=
  match l with [] => Some [] | (v, q) :: l => b ← pack_single v q; rest ← pack_singles l; Some (b ++ rest) end.
(** [base64.b64encode(packed).decode("ascii")] *)
Definition b64_text (data : list Z) : string :=
  text_of (map (fun c => if code c =? 45 then byte 43 else if code c =? 95 then byte 47 else c) (b64encode data)).

Record Vector := { vec_index : Z; vec_values : list json; vec_packed : list Z }.
(** One entry of the upstream's list; [None] for one that is refused. *)
Definition embedding_vector (dimensions : option nat) (item : list (string * json)) : outcome (option Vector) :=
  match jget "index" item, jget "embedding" item with
  | Some (JInt index), Some (JList ((_ :: _) as vector)) =>
      qs ← finite_values vector;
      match qs with
      | None => Ret None
      | Some qs =>
          if match dimensions with Some n => negb (Nat.eqb (length vector) n) | None => false end then Ret None
          else Ret (option_map (fun packed => {| vec_index := index; vec_values := vector; vec_packed := packed |}) (pack_singles (zip vector qs)))
      end
  | _, _ => Ret None
  end.
Fixpoint embedding_vectors (dimensions : option nat) (items : list json) : outcome (option (list Vector)) :=
  match items with
  | [] => Ret (Some [])
  | JObj item :: items =>
      v ← embedding_vector dimensions item;
      match v with
      | None => Ret None
      | Some v => rest ← embedding_vectors (Some (default (length (vec_values v)) dimensions)) items; Ret (option_map (cons v) rest)
      end
  | _ :: _ => Ret None
  end.
(** [{...} != set(range(n))], for [n] entries *)
Definition indexes_are (n : nat) (l : list Z) : bool :=
  forallb (fun i => bool_decide (Z.of_nat i ∈ l)) (seq 0 n) && forallb (fun i => (0 <=? i) && (i <? Z.of_nat n)) l.

Fixpoint insert_by {A} (before : A → A → bool) (x : A) (l : list A) : list A :=
  match l with [] => [x] | y :: l' => if before y x then y :: insert_by before x l' else x :: l end.
(** [sorted]: stable *)
Definition sorted_by {A} (before : A → A → bool) (l : list A) : list A := foldl (fun acc x => insert_by before x acc) [] l.

Definition encoded_vector (f : EncodingFormat) (v : Vector) : json :=
  JObj [("object", JStr "embedding"); ("index", JInt (vec_index v));
        ("embedding", match f with FormatBase64 => JStr (b64_text (vec_packed v)) | FormatFloat => JList (vec_values v) end)].

Definition checked_vectors (count : nat) (result : json) : outcome (option (list Vector)) :=
  match result with
  | JObj fields =>
      match jget "data" fields with
      | Some (JList data) =>
          if negb (Nat.eqb (length data) count) || negb (forallb (fun v => match v with JObj _ => true | _ => false end) data) then Ret None
          else
            vs ← embedding_vectors None data;
            Ret (match vs with Some vs => if indexes_are count (vec_index <$> vs) then Some vs else None | None => None end)
      | _ => Ret None
      end
  | _ => Ret None
  end.

Definition embeddings (r : BodyRequest) (max : Z) : app Answer :=
  match read_json r max with
  | Raise (BodyError status code) => mret (plain_error status code)
  | Raise e => raise e
  | Ret payload =>
      match dto_embedding (JObj payload) with
      | None => mret (plain_error 400 "invalid_request")
      | Some body =>
          match check_embeddings_input payload None with
          | Raise (EnvelopeError code) => mret (AnswerError (envelope_status code) code (Some "input") None)
          | Raise e => raise e
          | Ret inputs =>
              context ← acquire_json (em_model body) EMBEDDINGS (JObj (assoc_set "encoding_format" (JStr "float") payload));
              match context with
              | inl error => mret error
              | inr (l, result) =>
                  vectors ← lift (checked_vectors (length inputs) result);
                  match vectors with
                  | None => close_and_release l ABORTED ;; mret (plain_error 502 "upstream_protocol_error")
                  | Some vectors =>
                      close_and_release l SUCCESS ;;
                      mret (AnswerJson (JObj [("object", JStr "list");
                                              ("data", JList (encoded_vector (em_encoding body) <$> sorted_by (fun a b => vec_index a <=? vec_index b) vectors));
                                              ("model", JStr (em_model body))]))
                  end
              end
          end
      end
  end.

(** *** Rerank *)
Record Ranked := { rk_index : Z; rk_score : json; rk_value : Q }.
Fixpoint item_indexes (items : list json) : option (list Z) :=
  match items with
  | [] => Some []
  | JObj item :: items => match jget "index" item with Some (JInt i) => rest ← item_indexes items; Some (i :: rest) | _ => None end
  | _ :: _ => None
  end.
Fixpoint item_scores (items : list json) : outcome (option (list (json * Q))) :=
  match items with
  | [] => Ret (Some [])
  | JObj item :: items =>
      match jget "relevance_score" item with
      | None => Ret None
      | Some v => q ← finite_value v;
                  match q with None => Ret None | Some q => rest ← item_scores items; Ret (option_map (cons (v, q)) rest) end
      end
  | _ :: _ => Ret None
  end.
Definition checked_ranking (count : nat) (result : json) : outcome (option (list Ranked)) :=
  match result with
  | JObj fields =>
      match jget "results" fields with
      | Some (JList items) =>
          if negb (Nat.eqb (length items) count) then Ret None
          else
            match item_indexes items with
            | None => Ret None
            | Some indexes =>
                if negb (indexes_are count indexes) then Ret None
                else scores ← item_scores items;
                     Ret (option_map (zip_with (fun i vq => {| rk_index := i; rk_score := vq.1; rk_value := vq.2 |}) indexes) scores)
            end
      | _ => Ret None
      end
  | _ => Ret None
  end.
(** The key of the sort: the negated score, then the index. *)
Definition ranks_before (a b : Ranked) : bool :=
  negb (Qle_bool (rk_value a) (rk_value b)) || (Qeq_bool (rk_value a) (rk_value b) && (rk_index a <=? rk_index b)).
Definition ranked_json (documents : list string) (with_documents : bool) (r : Ranked) : json :=
  JObj ([("index", JInt (rk_index r)); ("relevance_score", rk_score r)]
        ++ if with_documents then [("document", JObj [("text", JStr (default "" (documents !! Z.to_nat (rk_index r))))])] else []).

Definition rerank (r : BodyRequest) (max : Z) : app Answer :=
  match read_json r max with
  | Raise (BodyError status code) => mret (plain_error status code)
  | Raise e => raise e
  | Ret payload =>
      match dto_rerank (JObj payload) with
      | None => mret (plain_error 400 "invalid_request")
      | Some body =>
          match check_rerank_input payload None with
          | Raise (EnvelopeError code) => mret (plain_error (envelope_status code) code)
          | Raise e => raise e
          | Ret _ =>
              let documents := rr_documents body in
              let total := Z.of_nat (length documents) in
              let count := default total (rr_top_n body) in
              if negb ((1 <=? count) && (count <=? total)) then mret (AnswerError 400 "invalid_request" (Some "top_n") None)
              else
                context ← acquire_json (rr_model body) RERANK
                  (JObj [("model", JStr (rr_model body)); ("query", JStr (rr_query body)); ("documents", JList (JStr <$> documents)); ("top_n", JInt total)]);
                match context with
                | inl error => mret error
                | inr (l, result) =>
                    ranking ← lift (checked_ranking (length documents) result);
                    match ranking with
                    | None => close_and_release l ABORTED ;; mret (plain_error 502 "upstream_protocol_error")
                    | Some items =>
                        close_and_release l SUCCESS ;;
                        mret (AnswerJson (JObj [("model", JStr (rr_model body));
                                                ("results", JList (ranked_json documents (rr_return_documents body) <$> take (Z.to_nat count) (sorted_by ranks_before items)))]))
                    end
                end
          end
      end
  end.

(** *** Administration *)
Definition unload_route (model_id : string) (r : BodyRequest) (unload : outcome unit) : outcome Answer :=
  match require_empty_body r with
  | Raise (BodyError status code) => Ret (plain_error status code)
  | Raise e => Raise e
  | Ret _ =>
      if negb (mem model_id catalog) then Ret (AnswerError 404 "model_not_found" (Some "model") None)
      else if negb wired then Ret (plain_error 503 "service_unavailable")
      else match unload with
           | Ret _ => Ret (AnswerJson (JObj [("ok", JBool true); ("model", JStr model_id)]))
           | Raise (Conflict code) => Ret (plain_error 409 (if bool_decide (code ∈ ["model_pinned"; "model_busy"]) then code else "model_busy"))
           | Raise (ModelUnavailable _) => Ret (plain_error 502 "stop_unverified")
           | Raise e => Raise e
           end
  end.
Definition recover_route (recovery : option (outcome (list string))) : outcome Answer :=
  match recovery with
  | None => Ret (plain_error 503 "recovery_unavailable")
  | Some (Ret preloaded) => Ret (AnswerJson (JObj [("ok", JBool true); ("preloaded", JList (JStr <$> preloaded))]))
  | Some (Raise (Conflict code)) => Ret (plain_error 409 code)
  | Some (Raise (ModelUnavailable code)) => Ret (plain_error 503 code)
  | Some (Raise e) => Raise e
  end.
End App.

(** [_readiness_reason] *)
Definition py_true (v : option json) : bool :=
  match v with
  | None | Some JNull | Some (JBool false) | Some (JInt 0) | Some (JStr "") | Some (JList []) | Some (JObj []) => false
  | Some (JFloat (Some q)) => negb (Qeq_bool q 0)
  | Some _ => true
  end.
Definition is_false (v : option json) : bool := match v with Some (JBool b) => negb b | _ => false end.
Definition readiness_reason (document : list (string * json)) : option string :=
  match jget "admission" document with
  | Some (JObj admission) =>
      if py_true (jget "shutting_down" admission) then Some "shutting_down"
      else if py_true (jget "storage_unavailable" admission) then Some "storage_unavailable"
      else if negb (is_false (jget "recovering" admission)) then Some "recovery_incomplete" else None
  | _ => None
  end.

(** [/health], from the status document of the scheduler and the answer of the
    control client; [None] when either raised. *)
Record Health := { ok_storage_ : bool; ok_resources : bool; ok_preload : bool; ok_control_ : bool; ok_llama_swap : bool }.
Definition unhealthy : Health := {| ok_storage_ := false; ok_resources := false; ok_preload := false; ok_control_ := false; ok_llama_swap := false |}.
Definition object_at (key : string) (document : json) : option (list (string * json)) :=
  match document with JObj fields => match jget key fields with Some (JObj o) => Some o | Some _ => None | None => Some [] end | _ => Some [] end.
Definition health_checks (catalog : dict string CatalogModel) (max_age : Q) (observed : option (json * bool)) : Health :=
  match observed with
  | None => unhealthy
  | Some (status, control_ready) =>
      let at_ key name := object_at key status ≫= jget name in
      let stopped := match object_at "admission" status with
                     | Some a => negb (is_false (jget "recovering" a)) || negb (is_false (jget "shutting_down" a))
                     | None => true
                     end in
      {| ok_storage_ := is_false (at_ "admission" "storage_unavailable");
         ok_resources := match at_ "resources" "sample_age_seconds" with
                         | Some (JInt n) => (0 <=? n) && Qle_bool (inject_Z n) max_age
                         | Some (JFloat (Some q)) => Qle_bool 0 q && Qle_bool q max_age
                         | _ => false
                         end;
         ok_preload := match object_at "models" status with
                       | Some models => forallb (fun km => negb (cat_preload km.2) ||
                                          match jget km.1 models with Some (JObj m) => is_text (jget "state" m) "ready" | _ => false end) (entries catalog)
                       | None => false
                       end;
         ok_control_ := control_ready && negb stopped;
         ok_llama_swap := control_ready |}
  end.
(** The status of the answer; a preload under way or failed is not ready. *)
Definition health_status (h : Health) (preload_pending preload_failed shutting_down : bool) : Z :=
  let preload := ok_preload h && negb (preload_pending || preload_failed) in
  if ok_storage_ h && ok_resources h && preload && ok_control_ h && ok_llama_swap h && negb shutting_down then 200 else 503.

(** *** Streams *)
Definition ends_line (c : ascii) : bool := (code c =? 10) || (code c =? 13).
(** [data.splitlines(keepends=True)] of bytes; [cur] is the line so far, reversed *)
Fixpoint split_keep (cur : list ascii) (l : list ascii) : list (list ascii) :=
  match l with
  | [] => if bool_decide (cur = []) then [] else [rev cur]
  | c :: l' =>
      if code c =? 10 then rev (c :: cur) :: split_keep [] l'
      else if code c =? 13 then
        match l' with
        | d :: l'' => if code d =? 10 then rev (d :: c :: cur) :: split_keep [] l'' else rev (c :: cur) :: split_keep [] l'
        | [] => [rev (c :: cur)]
        end
      else split_keep (c :: cur) l'
  end.
(** The complete lines, and the rest. *)
Definition complete_lines (data : list ascii) : list (list ascii) * list ascii :=
  let lines := split_keep [] data in
  match List.last lines [] with
  | [] => (lines, [])
  | l => if ends_line (List.last l (byte 0)) then (lines, []) else (removelast lines, l)
  end.
Fixpoint drop_line_ends (l : list ascii) : list ascii := match l with c :: l' => if ends_line c then drop_line_ends l' else l | [] => [] end.
Definition rstrip_line (l : list ascii) : list ascii := rev (drop_line_ends (rev l)).
Definition DONE_LINE : list ascii := chars "data: [DONE]".

(** The lines of a chunk: the size of the event so far, and whether the end was
    announced; [None] when the event is too large. *)
Fixpoint count_lines (max size : Z) (found : bool) (lines : list (list ascii)) : option (Z * bool) :=
  match lines with
  | [] => Some (size, found)
  | line :: lines =>
      let size := size + Z.of_nat (length line) in
      if max <? size then None
      else count_lines max (if bool_decide (rstrip_line line = []) then 0 else size) (found || bool_decide (rstrip_line line = DONE_LINE)) lines
  end.
Definition stream_step (max size : Z) (pending : list ascii) (chunk : string) : option (list ascii * Z * bool) :=
  let (lines, rest) := complete_lines (pending ++ chars chunk) in
  match count_lines max size false lines with
  | None => None
  | Some (size, found) => if max <? Z.of_nat (length rest) then None else Some (rest, size, found)
  end.

(** [stream_body] driven by the server: the client takes [patience] chunks, then
    sending ends with [gone].  The chunks sent, whether the stream completed and
    how it ended. *)
Fixpoint stream_body (max size : Z) (pending : list ascii) (events : list StreamEvent) (patience : nat) (gone : outcome unit)
    : list string * bool * outcome unit :=
  match events with
  | [] => ([], false, Ret tt)
  | SError :: _ => ([], false, Raise (HTTPError "stream"))
  | STimeout :: _ => ([], false, Raise (GatewayError 504 "inference_timeout" true None))
  | SChunk chunk :: events =>
      match stream_step max size pending chunk with
      | None => ([], false, Ret tt)
      | Some (pending, size, found) =>
          match patience with
          | O => ([], false, gone)
          | S patience =>
              if found then ([chunk], true, Ret tt)
              else let '(sent, completed, r) := stream_body max size pending events patience gone in (chunk :: sent, completed, r)
          end
      end
  end.

(** [_LeasedStreamingResponse.__call__] with [_StreamingLease.cleanup] *)
Definition serve_stream (max : Z) (opened : HttpxResponse) (l : Lease) (patience : nat) (gone close release : outcome unit)
    : pym (list LeaseEvent) (list string) := fun s =>
  let '(sent, completed, r) := stream_body max 0 [] (hr_stream opened) patience gone in
  let o := match r with Ret _ => if completed then SUCCESS else ABORTED | Raise _ => ABORTED end in
  (s ++ [Closed_; Released l o],
   _ ← release; _ ← close; _ ← r; Ret sent).
