(* ===== verification/AppProps.v ===== *)
(** * What the inference routes guarantee

    Every lease a route takes is given back on every path the route handles, and
    counted as a success only for an answer that was checked; streams forward the
    upstream's bytes as they are; vectors and rankings are the upstream's, in
    order. *)

From S2P Require Import Prelude Text Dict Env Contracts Registration JsonText Identity Envelopes Observer Control Config Api Registry RegistryFacts ObserverProps App.
From Stdlib Require Import Ascii QArith.
Local Open Scope Z_scope.

(** ** Leases of the book *)
Definition lease_held (b : Book) (l : Lease) : Prop :=
  ∃ r, runtime b !! lease_model_id l = Some r ∧ leases r !! lease_id l = Some l ∧ generation r = lease_generation l.
(** The releases among the events, run on the book at one moment. *)
Fixpoint book_after `{PyEnv} (now : time) (es : list LeaseEvent) (b : Book) : Book :=
  match es with
  | [] => b
  | Released l o :: es => book_after now es (release l o now None b).1
  | _ :: es => book_after now es b
  end.

Lemma release_frees `{PyEnv} l o now b : ¬ lease_held (release l o now None b).1 l.
Proof.
  rewrite release_eval. intros (r' & Hr & Hl & Hg). destruct (runtime b !! lease_model_id l) as [r|] eqn:E; [|cbn in Hr; congruence].
  destruct (lease_mismatch r l) eqn:Em; cbn in Hr.
  - assert (lease_mismatch r l = false) as Hm by (apply lease_mismatch_false; split; congruence). congruence.
  - unfold put_runtime in Hr. cbn in Hr. rewrite dict_lookup_insert_eq in Hr. injection Hr as <-.
    rewrite released_runtime_leases, dict_lookup_delete_eq in Hl. done.
Qed.
Lemma release_keeps_free `{PyEnv} l l' o now b : ¬ lease_held b l → ¬ lease_held (release l' o now None b).1 l.
Proof.
  intros Hn (r & Hr & Hl & Hg). apply Hn. rewrite release_eval in Hr.
  destruct (runtime b !! lease_model_id l') as [r'|] eqn:E; [|by exists r].
  destruct (lease_mismatch r' l'); [by exists r|]. unfold put_runtime in Hr. cbn in Hr.
  rewrite dict_lookup_insert in Hr. case_decide as Hm; [|by exists r]. injection Hr as <-.
  rewrite released_runtime_leases in Hl. rewrite released_runtime_gen in Hg. rewrite dict_lookup_delete in Hl. case_decide; [done|].
  exists r'. rewrite <-Hm. done.
Qed.
Lemma after_keeps_free `{PyEnv} now es l b : ¬ lease_held b l → ¬ lease_held (book_after now es b) l.
Proof. revert b. induction es as [|[]]; intros b Hb; cbn; auto using release_keeps_free. Qed.
Lemma after_frees `{PyEnv} now es l o b : Released l o ∈ es → ¬ lease_held (book_after now es b) l.
Proof.
  revert b. induction es as [|e es IH]; intros b; [by intros ?%not_elem_of_nil|]. intros [<-|Hin]%elem_of_cons.
  - cbn. apply after_keeps_free, release_frees.
  - destruct e; cbn; auto.
Qed.

(** ** The shape of a run *)
Section Runs.
Context `{Codecs} `{Dto} (catalog : dict string CatalogModel) (wired : bool) (gateway : DirectInferenceGateway) (nb : Neighbours).
Notation app := (pym (list LeaseEvent)).

(** What the routes have no clause for: an error of the encoder, or a number too
    large for a float. *)
Definition cause (e : exn) : Prop := (∃ payload, nb_build nb payload = Raise e) ∨ ∃ m, e = OverflowError m.
(** The scheduler's own exception is not raised by the encoder. *)
Definition no_foreign_queue_full : Prop := ∀ payload m, nb_build nb payload ≠ Raise (QueueFull m).
(** The codecs of the interpreter raise decoding errors only. *)
Definition codecs_decode : Prop := ∀ b e, wide_text b = Raise e → ∃ m, e = UnicodeDecodeError m.
Context (Hwide : codecs_decode).

Lemma no_foreign m : no_foreign_queue_full → ¬ cause (QueueFull m).
Proof. intros Hq [[payload E]|[m' [=]]]. by eapply Hq. Qed.

Definition releases (e : exn) : bool :=
  match e with CancelledError | TimeoutError _ => true | QueueFull _ => false | _ => is_runtime_error e end.

Definition neighbour_failed : Prop := (∃ e, nb_close nb = Raise e) ∨ ∃ n, nb_release nb n ≠ ReleaseRan (Ret tt).
(** One awaited release, whether it ran or not. *)
Definition gives (l : Lease) (o : Outcome) (e : LeaseEvent) : Prop := e = Released l o ∨ e = NotReleased l o.
(** The lease was to be given back: after the response was closed or not, and as a
    success only when closing or releasing failed; at most once more afterwards. *)
Definition returned (l : Lease) (t : list LeaseEvent) : Prop :=
  ∃ pre o e rest, t = pre ++ e :: rest ∧ gives l o e ∧ (pre = [] ∨ pre = [Closed_]) ∧ (o = SUCCESS → neighbour_failed) ∧
    (rest = [] ∨ ∃ o' e', o' ≠ SUCCESS ∧ gives l o' e' ∧ rest = [e']).
Definition settled (l : Lease) (t : list LeaseEvent) : Prop := returned l t ∧ ∃ o, Released l o ∈ t.
(** No release ran: the request was cancelled while it waited to release. *)
Definition leaked (l : Lease) (t : list LeaseEvent) (e : exn) : Prop := returned l t ∧ e = CancelledError ∧ ∃ o, NotReleased l o ∈ t.

(** At most one request, to the upstream of the lease's model. *)
Definition sent_to (l : Lease) (sends : list LeaseEvent) : Prop :=
  sends = [] ∨ ∃ base c body, gw_upstreams gateway !! lease_model_id l = Some base ∧ sends = [Sent (rstrip_slash base +:+ capability_path c) body].

(** What an awaited release does: its event, and its result. *)
Lemma release_run l o s : ∃ e r, release_lease_ nb l o s = (s ++ [e], r) ∧ gives l o e ∧
  (e = NotReleased l o → r = Raise CancelledError) ∧ (r ≠ Ret tt → neighbour_failed).
Proof.
  unfold release_lease_, event. run_unfold. destruct (nb_release nb (releases_before s)) as [r|] eqn:E; eexists _, _; (split; [done|]).
  - split_and!; [by left|done|]. intros Hr. right. exists (releases_before s). rewrite E. by intros [= ->].
  - split_and!; [by right|done|]. intros _. right. exists (releases_before s). by rewrite E.
Qed.
Lemma close_run l o s : ∃ e r, close_and_release nb l o s = (s ++ [Closed_; e], r) ∧ gives l o e ∧
  (e = NotReleased l o → r = Raise CancelledError) ∧ (r ≠ Ret tt → neighbour_failed).
Proof.
  unfold close_and_release. unfold mbind at 1, pym_bind at 1, event at 1, modify.
  destruct (release_run l o (s ++ [Closed_])) as (e & r & E & Hg & Hn & Hf). rewrite <-app_assoc in E.
  destruct (nb_close nb) as [u|x] eqn:Ec.
  - exists e, r. by split_and!.
  - unfold mbind, pym_bind. rewrite E. destruct r as [u|y].
    + exists e, (Raise x). split_and!; [done|done|intros He; by specialize (Hn He)|]. intros _. left. eauto.
    + exists e, (Raise y). by split_and!.
Qed.

Lemma open_run l c payload s : ∃ sends, sent_to l sends ∧
  match open_ gateway nb l c payload s with
  | (s', Ret r) => s' = s ++ sends
  | (s', Raise e) => s' = s ++ sends ∧ (releases e = true ∨ cause e)
  end.
Proof.
  unfold open_, open_upstream. destruct (gw_upstreams gateway !! lease_model_id l) as [base|] eqn:Eb.
  2:{ exists []. split; [by left|]. run_unfold. rewrite app_nil_r. split; [done|by left]. }
  destruct (_ <=? 0). { exists []. split; [by left|]. run_unfold. rewrite app_nil_r. split; [done|by left]. }
  destruct (nb_build nb payload) as [body|e] eqn:E.
  - exists [Sent (rstrip_slash base +:+ capability_path c) body]. split; [right; by exists base, c, body|]. run_unfold.
    destruct (nb_send nb) as [r| |]; cbn; try (split; [done|by left]). destruct (_ && _); [done|]. split; [done|]. left. unfold refuse_status. cbv zeta.
    by repeat case_match.
  - exists []. split; [by left|]. run_unfold. rewrite app_nil_r. split; [done|]. right. left. by exists payload.
Qed.

Lemma decode_raises hooks data e : (∀ x e, on_constant hooks x = Raise e → ∃ m, e = ValueError m) → (∀ x e, on_object hooks x = Raise e → ∃ m, e = ValueError m) →
  loads_bytes hooks data = Raise e → (∃ m, e = UnicodeDecodeError m) ∨ ∃ m, e = ValueError m.
Proof.
  intros Hc Ho. unfold loads_bytes. unfold mbind, outcome_bind.
  assert (∀ t e, decode_pass t = Raise e → ∃ m, e = UnicodeDecodeError m) as Hd by (intros t e'; unfold decode_pass; destruct (_ && _); [done|intros [= <-]; by eexists]).
  destruct (match detect_encoding data with Wide => _ | _ => _ end) as [text|e'] eqn:E.
  - intros El. right. revert El. apply (raises_loads hooks (fun e => ∃ m, e = ValueError m) Hc Ho). intros m. by eexists.
  - intros [= <-]. left. destruct (detect_encoding data); eauto.
Qed.
Lemma json_causes max r e : opened_json max r = Raise e → releases e = true.
Proof.
  unfold opened_json. unfold mbind, outcome_bind. destruct (read_bounded max "" (hr_stream r)) as [data|e'] eqn:E.
  - destruct (loads_bytes plain_hooks data) as [v|e'] eqn:El; [done|].
    destruct (decode_raises plain_hooks data e') as [[m ->]|[m ->]]; [done|done|done|by intros [= <-]..].
  - intros [= <-]. revert E. generalize "". induction (hr_stream r) as [|[c| |] l IH]; intros d; cbn [read_bounded]; try done; try by intros [= <-].
    destruct (max <? _); [by intros [= <-]|apply IH].
Qed.

(** What the handler of an exception does, with a lease held. *)
Definition is_error (a : Answer) : Prop := match a with AnswerError _ _ _ _ => True | _ => False end.
Definition handled {A} (fail : Answer → A) (held : option Lease) (e : exn) (s : list LeaseEvent) : list LeaseEvent * outcome A :=
  match guarded nb held e with Some h => (a ← h; mret (fail a)) s | None => (s, Raise e) end.
Definition handles {A} (fail : Answer → A) (l : Lease) (e : exn) (s : list LeaseEvent) (run : list LeaseEvent * outcome A) : Prop :=
  (run = (s, Raise e) ∧ releases e = false) ∨ ((∃ m, e = QueueFull m) ∧ run.1 = s ∧ ∃ err, run.2 = Ret (fail err) ∧ is_error err) ∨
  ∃ o ev, o ≠ SUCCESS ∧ gives l o ev ∧ run.1 = s ++ [ev] ∧ (e = CancelledError → ev = Released l o) ∧
    (ev = NotReleased l o → run.2 = Raise CancelledError) ∧ ∀ a, run.2 = Ret a → ∃ err, a = fail err ∧ is_error err.
Lemma handled_run {A} (fail : Answer → A) l e s : handles fail l e s (handled fail (Some l) e s).
Proof.
  assert (∀ o err, o ≠ SUCCESS → is_error err → e ≠ CancelledError →
    handles fail l e s ((a ← (release_lease_ nb l o ;; mret err : app Answer); mret (fail a) : app A) s)) as Hgive.
  { intros o err Ho Herr Hne. right. right. destruct (release_run l o s) as (ev & r & E & Hg & Hn & _). exists o, ev.
    assert (((a ← (release_lease_ nb l o ;; mret err : app Answer); mret (fail a) : app A) s) = (s ++ [ev], _ ← r; Ret (fail err))) as ->.
    { unfold mbind, pym_bind, outcome_bind. rewrite E. by destruct r. }
    split_and!; try done; [intros He; by rewrite (Hn He)|]. intros a. destruct r as [u|e']; intros [= <-]. by exists err. }
  unfold handled. destruct e; cbn [guarded is_runtime_error];
    lazymatch goal with
    | |- context [release_lease_] => apply Hgive; [try done; by destruct aborted|done|done]
    | |- handles _ _ _ _ (_, _) => by left
    | |- _ => idtac
    end.
  - right. left. split; [by eexists|]. split; [done|]. by eexists.
  - right. right. exists ABORTED, (Released l ABORTED). split_and!; try done. by left.
Qed.
Lemma unhandled_run {A} (fail : Answer → A) e s :
  (handled fail None e s).1 = s ∧ (∀ a, (handled fail None e s).2 = Ret a → ∃ err, a = fail err ∧ is_error err).
Proof. unfold handled. destruct e; cbn [guarded is_runtime_error]; run_unfold; (split; [done|]); intros a [= <-]; by eexists. Qed.

(** ** A request with a lease *)
(** The events of the body of a lease: what it sends, then what it does with the
    lease; [R] relates the latter to its answer. *)
Definition body_raise (l : Lease) (t : list LeaseEvent) (e : exn) : Prop :=
  (t = [] ∧ (releases e = true ∨ cause e)) ∨
  ∃ o ev, t = [Closed_; ev] ∧ gives l o ev ∧ (ev = NotReleased l o → e = CancelledError) ∧ (o = SUCCESS → neighbour_failed).
Definition body_run {A} (R : Lease → list LeaseEvent → A → Prop) (body : Lease → app A) : Prop :=
  ∀ l s, ∃ sends t, sent_to l sends ∧ (body l s).1 = s ++ sends ++ t ∧
    match (body l s).2 with Ret a => R l t a | Raise e => body_raise l t e end.

Definition leased {A} (fail : Answer → A) (R : Lease → list LeaseEvent → A → Prop) (s s' : list LeaseEvent) (r : outcome A) : Prop :=
  s' = s ∧ (∀ a, r = Ret a → ∃ err, a = fail err ∧ is_error err) ∨
  ∃ l sends t, nb_acquire nb = Ret l ∧ s' = s ++ Acquired l :: sends ++ t ∧ sent_to l sends ∧
    match r with
    | Ret a => R l t a ∨ (settled l t ∧ ∃ err, a = fail err ∧ is_error err)
    | Raise e => settled l t ∨ (t = [] ∧ cause e) ∨ leaked l t e
    end.

Lemma returned_again l ev o extra : gives l o ev → (o = SUCCESS → neighbour_failed) →
  (extra = [] ∨ ∃ o' ev', o' ≠ SUCCESS ∧ gives l o' ev' ∧ extra = [ev']) → returned l ([Closed_; ev] ++ extra).
Proof. intros Hg Hn Hx. exists [Closed_], o, ev, extra. split_and!; [done|done|by right|done|done]. Qed.
(** A raise of the body after its release settled the lease or was a cancellation. *)
Lemma returned_settled l t e : returned l t → (∃ o, Released l o ∈ t) ∨ (∃ o, NotReleased l o ∈ t) ∧ e = CancelledError → settled l t ∨ leaked l t e.
Proof. intros Hr [Ho|[Ho ->]]; [by left|by right]. Qed.

Lemma with_lease_eval {A} (fail : Answer → A) body s : with_lease nb fail body s =
  match nb_acquire nb with
  | Raise e => handled fail None e s
  | Ret l => match body l (s ++ [Acquired l]) with (s, Raise e) => handled fail (Some l) e s | r => r end
  end.
Proof. unfold with_lease, acquire_lease_, event. run_unfold. destruct (nb_acquire nb); done. Qed.

Lemma with_lease_run {A} (fail : Answer → A) R body s : no_foreign_queue_full → body_run R body →
  leased fail R s (with_lease nb fail body s).1 (with_lease nb fail body s).2.
Proof.
  intros Hq Hb. rewrite with_lease_eval. unfold leased. destruct (nb_acquire nb) as [l|e] eqn:Ea; [|left; apply unhandled_run].
  right. destruct (Hb l (s ++ [Acquired l])) as (sends & t & Hs & Est & Hr).
  destruct (body l (s ++ [Acquired l])) as [s1 [a|e]]; cbn in Est, Hr; subst s1; cbn [fst snd]; rewrite <-(app_assoc s [Acquired l]); change ([Acquired l] ++ sends ++ t) with (Acquired l :: sends ++ t).
  { exists l, sends, t. split_and!; [done|done|done|by left]. }
  destruct (handled_run fail l e (s ++ Acquired l :: sends ++ t)) as [[-> Hn]|[([m ->] & E1 & err & E2 & Herr)|(o & ev & Ho & Hg & E1 & Hc & Hx & E2)]].
  - exists l, sends, t. split_and!; [done..|]. cbn. destruct Hr as [[-> [?|Hc]]|(o & ev & -> & Hg & Hx & Ho)]; [congruence|by right; left|].
    left. split; [by apply (returned_again l ev o []); [..|left]|]. exists o. destruct Hg as [-> | ->]; [set_solver|]. specialize (Hx eq_refl). by subst e.
  - exists l, sends, t. rewrite E1, E2. split_and!; [done..|]. destruct Hr as [[-> [?|Hc]]|(o & ev & -> & Hg & Hx & Ho)]; [done|by destruct (no_foreign m Hq)|right].
    split; [|by exists err]. split; [by apply (returned_again l ev o []); [..|left]|]. exists o. destruct Hg as [-> | ->]; [set_solver|]. by specialize (Hx eq_refl).
  - exists l, sends, (t ++ [ev]). rewrite E1. split; [done|]. split; [by rewrite <-!app_assoc; cbn; rewrite <-!app_assoc|]. split; [done|].
    assert (returned l (t ++ [ev])) as Hret.
    { destruct Hr as [[-> _]|(o' & ev' & -> & Hg' & _ & Ho')]; [exists [], o, ev, []; split_and!; [done|done|by left|done|by left]|].
      eapply returned_again; [done|done|right; by eexists _, _]. }
    assert ((∃ o, Released l o ∈ t ++ [ev]) ∨ ev = NotReleased l o) as Hev.
    { destruct Hg as [-> | ->]; [left; exists o; set_solver|by right]. }
    destruct ((handled fail (Some l) e _).2) as [a|e'] eqn:Er.
    + right. split; [|by apply E2]. split; [done|]. destruct Hev as [?|Hev]; [done|]. by specialize (Hx Hev).
    + destruct (returned_settled l (t ++ [ev]) e' Hret) as [?|?]; [|by left|by right; right].
      destruct Hev as [?|Hev]; [by left|]. right. specialize (Hx Hev) as [= ->]. split; [|done]. exists o. set_solver.
Qed.

(** Releasing with the close, whatever the neighbours do. *)
Lemma close_body {A} l o (a : A) s : ∃ ev, ((close_and_release nb l o ;; mret a : app A) s).1 = s ++ [Closed_; ev] ∧ gives l o ev ∧
  match ((close_and_release nb l o ;; mret a : app A) s).2 with
  | Ret a' => a' = a ∧ ev = Released l o
  | Raise e => neighbour_failed ∧ (ev = NotReleased l o → e = CancelledError)
  end.
Proof.
  destruct (close_run l o s) as (ev & r & E & Hg & Hn & Hf). exists ev. unfold mbind, pym_bind. rewrite E. destruct r as [[]|e]; cbn.
  - split_and!; try done. destruct Hg as [?|He]; [done|by specialize (Hn He)].
  - split_and!; try done; [by apply Hf|]. intros He. by specialize (Hn He) as [= ->].
Qed.
(** The answer [r] of a request whose lease is [l], after the events [t]. *)
Definition left_with (l : Lease) (t : list LeaseEvent) (r : outcome Answer) : Prop :=
  match r with
  | Ret (AnswerJson _) => t = [Closed_; Released l SUCCESS]
  | Ret (AnswerStream _ l') => t = [] ∧ l' = l
  | Ret (AnswerError _ _ _ _) => settled l t
  | Raise e => settled l t ∨ (t = [] ∧ cause e) ∨ leaked l t e
  end.
Definition answered (l : Lease) (t : list LeaseEvent) (a : Answer) : Prop := left_with l t (Ret a).

(** A body that opens the upstream and goes on with its response. *)
Lemma opened_body {A} R c payload (k : Lease → HttpxResponse → app A) :
  (∀ l r s, ∃ t, (k l r s).1 = s ++ t ∧ match (k l r s).2 with Ret a => R l t a | Raise e => body_raise l t e end) →
  body_run R (fun l => opened ← open_ gateway nb l c payload; k l opened).
Proof.
  intros Hk l s. destruct (open_run l c payload s) as (sends & Hs & Ho). exists sends. unfold mbind, pym_bind.
  destruct (open_ gateway nb l c payload s) as [s1 [r|e]].
  - subst s1. destruct (Hk l r (s ++ sends)) as (t & E & Hr). exists t. split; [done|]. by rewrite app_assoc.
  - destruct Ho as [-> He]. exists []. split; [done|]. rewrite app_nil_r. split; [done|]. by left.
Qed.

(** Closing with an answer that stands for the outcome. *)
Lemma closing_body {A} (R : Lease → list LeaseEvent → A → Prop) l o a s : R l [Closed_; Released l o] a →
  ∃ t, ((close_and_release nb l o ;; mret a : app A) s).1 = s ++ t ∧
    match ((close_and_release nb l o ;; mret a : app A) s).2 with Ret a => R l t a | Raise e => body_raise l t e end.
Proof.
  intros HR. destruct (close_body l o a s) as (ev & E & Hg & Hr). exists [Closed_; ev]. split; [done|].
  destruct (_ : outcome A) as [a'|e]; [by destruct Hr as [-> ->]|]. right. exists o, ev. destruct Hr. by split_and!.
Qed.
Lemma settled_aborted l : settled l [Closed_; Released l ABORTED].
Proof.
  split; [|exists ABORTED; set_solver]. exists [Closed_], ABORTED, (Released l ABORTED), []. split_and!; [done|by left|by right|done|by left].
Qed.

Lemma chat_body payload stream : body_run answered (chat_upstream gateway nb payload stream).
Proof.
  apply opened_body. intros l r s. destruct stream.
  - destruct (_ || _).
    + apply closing_body, settled_aborted.
    + exists []. rewrite app_nil_r. done.
  - unfold mbind at 1 2, pym_bind at 1 2. run_unfold. destruct (opened_json _ r) as [v|e] eqn:E.
    + destruct (_ || _); [apply closing_body, settled_aborted|by apply closing_body].
    + exists []. cbn. rewrite app_nil_r. split; [done|]. left. split; [done|]. left. by eapply json_causes.
Qed.

Definition json_context (l : Lease) (t : list LeaseEvent) (a : Answer + Lease * json) : Prop :=
  match a with inl err => settled l t ∧ is_error err | inr (l', _) => t = [] ∧ l' = l end.
Lemma acquire_json_run model c payload s : no_foreign_queue_full →
  leased inl json_context s (acquire_json catalog wired gateway nb model c payload s).1 (acquire_json catalog wired gateway nb model c payload s).2.
Proof.
  intros Hq. assert (∀ err, is_error err → leased inl json_context s ((mret (inl err) : app (Answer + Lease * json)) s).1 ((mret (inl err) : app (Answer + Lease * json)) s).2) as Herr.
  { intros err He. left. split; [done|]. intros a [= <-]. by exists err. }
  unfold acquire_json. destruct (catalog !! model); [|by apply Herr]. destruct (negb (bool_decide _)); [by apply Herr|]. destruct (negb wired); [by apply Herr|].
  apply with_lease_run; [done|]. apply opened_body. intros l r s1. destruct (_ || _).
  - apply closing_body. split; [apply settled_aborted|done].
  - unfold mbind, pym_bind. run_unfold. exists []. destruct (opened_json _ r) as [v|e] eqn:E; cbn; rewrite app_nil_r; (split; [done|]); [done|].
    left. split; [done|]. left. by eapply json_causes.
Qed.
(** Numbers too large for a float are the one error of the checks. *)
Lemma finite_values_raise l e : finite_values l = Raise e → ∃ m, e = OverflowError m.
Proof.
  induction l as [|v l IH]; cbn [finite_values]; [done|]. unfold mbind, outcome_bind. destruct (finite_value v) as [[q|]|e'] eqn:E.
  - destruct (finite_values l); [done|]. by intros [= ->]%IH || (intros [= <-]; by apply IH).
  - done.
  - intros [= <-]. revert E. unfold finite_value. destruct v; try done. destruct (_ <? _); [done|]. intros [= <-]. by eexists.
Qed.
Lemma vectors_raise items : ∀ d e, embedding_vectors d items = Raise e → ∃ m, e = OverflowError m.
Proof.
  induction items as [|v items IH]; intros d e; cbn [embedding_vectors]; [done|]. destruct v as [| | | | | |item]; try done.
  unfold mbind at 1, outcome_bind at 1. destruct (embedding_vector d item) as [[v|]|e'] eqn:E; [|done|].
  - unfold mbind, outcome_bind. destruct (embedding_vectors _ items) eqn:E'; [done|]. intros [= <-]. by eapply IH.
  - intros [= <-]. revert E. unfold embedding_vector. destruct (jget "index" item) as [[]|]; try done.
    destruct (jget "embedding" item) as [[| | | | |[|v vector]|]|]; try done. unfold mbind, outcome_bind.
    destruct (finite_values (v :: vector)) as [[qs|]|e''] eqn:Ef; [|done|].
    + by destruct (match d with Some _ => _ | None => _ end).
    + intros [= <-]. by eapply finite_values_raise.
Qed.
Lemma checked_vectors_raise count result e : checked_vectors count result = Raise e → ∃ m, e = OverflowError m.
Proof.
  unfold checked_vectors. destruct result; try done. destruct (jget "data" _) as [[]|]; try done. destruct (_ || _); [done|].
  unfold mbind, outcome_bind. destruct (embedding_vectors None _) eqn:E; [done|]. intros [= <-]. by eapply vectors_raise.
Qed.
Lemma scores_raise items e : item_scores items = Raise e → ∃ m, e = OverflowError m.
Proof.
  induction items as [|v items IH]; cbn [item_scores]; [done|]. destruct v as [| | | | | |item]; try done.
  destruct (jget "relevance_score" item) as [v|]; [|done]. unfold mbind at 1, outcome_bind at 1. destruct (finite_value v) as [[q|]|e'] eqn:E; [|done|].
  - unfold mbind, outcome_bind. destruct (item_scores items); [done|]. intros [= <-]. by apply IH.
  - intros [= <-]. apply (finite_values_raise [v]). cbn. by rewrite E.
Qed.
Lemma checked_ranking_raise count result e : checked_ranking count result = Raise e → ∃ m, e = OverflowError m.
Proof.
  unfold checked_ranking. destruct result; try done. destruct (jget "results" _) as [[]|]; try done. destruct (negb _); [done|].
  destruct (item_indexes _); [|done]. destruct (negb _); [done|]. unfold mbind, outcome_bind. destruct (item_scores _) eqn:E; [done|]. intros [= <-]. by eapply scores_raise.
Qed.

(** What a route leaves: nothing was acquired, or one lease that was dealt with. *)
Definition lease_dealt_with (es : list LeaseEvent) (r : outcome Answer) : Prop :=
  es = [] ∧ (∀ a, r = Ret a → is_error a) ∨
  ∃ l sends t, nb_acquire nb = Ret l ∧ es = Acquired l :: sends ++ t ∧ sent_to l sends ∧ left_with l t r.

Lemma refused_dealt_with (a : Answer) : is_error a → lease_dealt_with ((mret a : app Answer) []).1 ((mret a : app Answer) []).2.
Proof. intros Ha. left. split; [done|]. by intros ? [= <-]. Qed.
Lemma raised_dealt_with e : lease_dealt_with ((raise e : app Answer) []).1 ((raise e : app Answer) []).2.
Proof. left. split; done. Qed.

(** The second half of a JSON route: the result is checked, the response closed
    and the lease released. *)
Definition checked_tail {B} (check : json → outcome (option B)) (answer : B → json) (l : Lease) (v : json) : app Answer :=
  b ← lift (check v);
  match b with
  | None => close_and_release nb l ABORTED ;; mret (plain_error 502 "upstream_protocol_error")
  | Some b => close_and_release nb l SUCCESS ;; mret (AnswerJson (answer b))
  end.
Lemma closing_tail l o a s : answered l [Closed_; Released l o] a →
  ∃ t, ((close_and_release nb l o ;; mret a : app Answer) s).1 = s ++ t ∧ left_with l t ((close_and_release nb l o ;; mret a : app Answer) s).2.
Proof.
  intros Ha. destruct (close_body l o a s) as (ev & E & Hg & Hr). exists [Closed_; ev]. split; [done|].
  destruct (_ : outcome Answer) as [a'|e]; [by destruct Hr as [-> ->]|]. destruct Hr as [Hf Hx].
  destruct (returned_settled l [Closed_; ev] e) as [?|?]; [by apply (returned_again l ev o []); [..|left]| |by left|by right; right].
  destruct Hg as [-> | ->]; [left; exists o; set_solver|right]. split; [exists o; set_solver|auto].
Qed.
Lemma checked_tail_run {B} check (answer : B → json) l v s : (∀ v e, check v = Raise e → ∃ m, e = OverflowError m) →
  ∃ t, (checked_tail check answer l v s).1 = s ++ t ∧ left_with l t (checked_tail check answer l v s).2.
Proof.
  intros Hc. unfold checked_tail, lift. unfold mbind at 1 2, pym_bind at 1 2. destruct (check v) as [[b|]|e] eqn:E.
  - by apply closing_tail.
  - apply closing_tail, settled_aborted.
  - exists []. cbn. rewrite app_nil_r. split; [done|]. right. left. split; [done|]. right. by eapply Hc.
Qed.

Lemma json_route_run {B} model c payload (check : json → outcome (option B)) (answer : B → json) (k : Answer + Lease * json → app Answer) :
  no_foreign_queue_full → (∀ v e, check v = Raise e → ∃ m, e = OverflowError m) → (∀ err, k (inl err) = mret err) →
  (∀ l v, k (inr (l, v)) = checked_tail check answer l v) →
  let m := (context ← acquire_json catalog wired gateway nb model c payload; k context) in lease_dealt_with (m []).1 (m []).2.
Proof.
  intros Hq Hc Hl Hr m. subst m. unfold mbind, pym_bind. destruct (acquire_json_run model c payload [] Hq) as [[E1 E2]|(l & sends & t & Ha & E1 & Hs & Hres)];
    destruct (acquire_json catalog wired gateway nb model c payload []) as [s1 [[err|[l' v]]|e]]; cbn in E1; subst s1.
  - left. rewrite Hl. split; [done|]. destruct (E2 _ eq_refl) as (err' & [= <-] & He). by intros ? [= <-].
  - destruct (E2 _ eq_refl) as (err' & [=] & He).
  - left. done.
  - right. exists l, sends, t. rewrite Hl. split_and!; [done..|]. cbn in Hres.
    assert (settled l t ∧ is_error err) as [Hst He] by (destruct Hres as [?|(? & err' & [= <-] & ?)]; done). by destruct err.
  - right. cbn in Hres. destruct Hres as [[-> ->]|(_ & err' & [=] & _)]. rewrite Hr, app_nil_r.
    destruct (checked_tail_run check answer l v (Acquired l :: sends) Hc) as (t & E & Ht). exists l, sends, t. rewrite E. done.
  - right. exists l, sends, t. split_and!; try done.
Qed.

Lemma envelope_refusal payload m refusal : check_envelope nb payload m = Ret (Some refusal) → is_error refusal.
Proof.
  unfold check_envelope. destruct (cat_envelope m) as [env|]; [|done]. cbv zeta.
  assert (∀ counter, match check_chat_input payload (cat_capabilities m) env counter None with
    | Ret _ => Ret None
    | Raise (EnvelopeError code) => Ret (Some (AnswerError (envelope_status code) code (Some "messages") None))
    | Raise CancelledError => Raise CancelledError
    | Raise _ => Ret (Some (plain_error 503 "service_unavailable"))
    end = Ret (Some refusal) → is_error refusal) as H1.
  { intros counter. destruct (check_chat_input _ _ _ _ _) as [?|[]]; by intros [= <-]. }
  assert (match nb_warm nb with
    | Raise CancelledError => Raise CancelledError
    | Raise _ => Ret (Some (plain_error 503 "service_unavailable"))
    | Ret _ => match check_chat_input payload (cat_capabilities m) env (nb_count_again nb) None with
               | Ret _ => Ret None
               | Raise (EnvelopeError code) => Ret (Some (AnswerError (envelope_status code) code (Some "messages") None))
               | Raise CancelledError => Raise CancelledError
               | Raise _ => Ret (Some (plain_error 503 "service_unavailable"))
               end
    end = Ret (Some refusal) → is_error refusal) as H2.
  { destruct (nb_warm nb) as [?|[]]; try (by intros [= <-]). apply H1. }
  destruct (check_chat_input _ _ _ (nb_count nb) _) as [?|[]]; try exact H2; by intros [= <-].
Qed.
Lemma chat_run r max : no_foreign_queue_full → lease_dealt_with (chat catalog wired gateway nb r max []).1 (chat catalog wired gateway nb r max []).2.
Proof.
  intros Hq. unfold chat. destruct (read_json r max) as [payload|e]; [|destruct e; (by apply refused_dealt_with) || apply raised_dealt_with].
  destruct (dto_chat _) as [body|]; [|by apply refused_dealt_with]. destruct (catalog !! ch_model body) as [m|]; [|by apply refused_dealt_with].
  destruct (_ && _); [by apply refused_dealt_with|]. destruct (negb wired); [by apply refused_dealt_with|].
  destruct (check_envelope nb payload m) as [[refusal|]|e] eqn:E; [| |apply raised_dealt_with].
  - by eapply refused_dealt_with, envelope_refusal.
  - destruct (with_lease_run id answered _ [] Hq (chat_body payload (ch_stream body))) as [[E1 E2]|(l & sends & t & Ha & E1 & Hs & Hres)].
    + left. split; [done|]. intros a Ha. by destruct (E2 a Ha) as (err & -> & He).
    + right. exists l, sends, t. split_and!; [done..|]. destruct (with_lease _ _ _ _).2 as [a|e]; [|done].
      destruct Hres as [Hres|(Hset & err & -> & He)]; [done|]. by destruct err.
Qed.
Lemma embeddings_run r max : no_foreign_queue_full → lease_dealt_with (embeddings catalog wired gateway nb r max []).1 (embeddings catalog wired gateway nb r max []).2.
Proof.
  intros Hq. unfold embeddings. destruct (read_json r max) as [payload|e]; [|destruct e; (by apply refused_dealt_with) || apply raised_dealt_with].
  destruct (dto_embedding _) as [body|]; [|by apply refused_dealt_with].
  destruct (check_embeddings_input payload None) as [inputs|e]; [|destruct e; (by apply refused_dealt_with) || apply raised_dealt_with].
  apply (json_route_run _ _ _ (checked_vectors (length inputs)) (fun vectors => JObj [("object", JStr "list");
     ("data", JList (encoded_vector (em_encoding body) <$> sorted_by (fun a b => vec_index a <=? vec_index b) vectors)); ("model", JStr (em_model body))])); try done.
  apply checked_vectors_raise.
Qed.
Lemma rerank_run r max : no_foreign_queue_full → lease_dealt_with (rerank catalog wired gateway nb r max []).1 (rerank catalog wired gateway nb r max []).2.
Proof.
  intros Hq. unfold rerank. destruct (read_json r max) as [payload|e]; [|destruct e; (by apply refused_dealt_with) || apply raised_dealt_with].
  destruct (dto_rerank _) as [body|]; [|by apply refused_dealt_with].
  destruct (check_rerank_input payload None) as [inputs|e]; [|destruct e; (by apply refused_dealt_with) || apply raised_dealt_with].
  cbv zeta. destruct (negb _); [by apply refused_dealt_with|].
  apply (json_route_run _ _ _ (checked_ranking (length (rr_documents body))) (fun items => JObj [("model", JStr (rr_model body));
     ("results", JList (ranked_json (rr_documents body) (rr_return_documents body) <$> take (Z.to_nat (default (Z.of_nat (length (rr_documents body))) (rr_top_n body))) (sorted_by ranks_before items)))])); try done.
  apply checked_ranking_raise.
Qed.
(** The lease a route holds at the end, if any, is the one of a stream, one an
    unhandled error left, or one whose release was cancelled. *)
Lemma dealt_frees `{PyEnv} es r l now b : lease_dealt_with es r → Acquired l ∈ es →
  (∃ opened, r = Ret (AnswerStream opened l)) ∨ (∃ e, r = Raise e ∧ cause e) ∨
  (r = Raise CancelledError ∧ ∃ o, NotReleased l o ∈ es) ∨ ¬ lease_held (book_after now es b) l.
Proof.
  intros [[-> _]|(l0 & sends & t & _ & -> & Hs & Hl)] Hin; [by apply not_elem_of_nil in Hin|].
  assert (∀ t, (∃ o, Released l0 o ∈ t) → ¬ lease_held (book_after now (Acquired l0 :: sends ++ t) b) l0) as Hfree.
  { intros t' [o Ho]. eapply after_frees. right. apply elem_of_app. by right. }
  assert (∀ t, returned l0 t → Acquired l ∉ t) as Hna.
  { intros t' (pre & o & ev & rest & -> & Hg & Hpre & _ & Hrest). destruct Hpre as [->| ->], Hg as [->| ->], Hrest as [->|(? & ? & _ & [->| ->] & ->)]; set_solver. }
  assert (l = l0) as ->.
  { apply elem_of_cons in Hin as [[= ->]|Hin]; [done|]. apply elem_of_app in Hin as [Hin|Hin].
    - destruct Hs as [->|(? & ? & ? & _ & ->)]; set_solver.
    - destruct r as [[]|e]; cbn in Hl; [subst t; set_solver|by destruct (Hna t), Hl|destruct Hl as [-> _]; set_solver|].
      destruct Hl as [[Hl _]|[[-> _]|[Hl _]]]; [by destruct (Hna t)|set_solver|by destruct (Hna t)]. }
  destruct r as [[]|e]; cbn in Hl.
  - do 3 right. apply Hfree. subst t. exists SUCCESS. set_solver.
  - do 3 right. apply Hfree, Hl.
  - left. destruct Hl as [_ ->]. by eexists.
  - destruct Hl as [[_ Hl]|[[_ Hc]|(_ & -> & o & Ho)]]; [do 3 right; auto|right; left; by exists e|]. do 2 right. left. split; [done|]. exists o. set_solver.
Qed.
Lemma dealt_success es r l : lease_dealt_with es r → Released l SUCCESS ∈ es → neighbour_failed ∨ ∃ content, r = Ret (AnswerJson content).
Proof.
  intros [[-> _]|(l0 & sends & t & _ & -> & Hs & Hl)] Hin; [by apply not_elem_of_nil in Hin|].
  assert (∀ t, returned l0 t → Released l SUCCESS ∈ t → neighbour_failed) as Hret.
  { intros t' (pre & o & ev & rest & -> & Hg & Hpre & Ho & Hrest) Ht. apply Ho.
    destruct Hpre as [->| ->], Hg as [->| ->], Hrest as [->|(? & ? & Hne & [->| ->] & ->)]; set_solver. }
  assert (Released l SUCCESS ∈ t) as Ht.
  { apply elem_of_cons in Hin as [[=]|Hin]. apply elem_of_app in Hin as [Hin|Hin]; [|done]. destruct Hs as [->|(? & ? & ? & _ & ->)]; set_solver. }
  destruct r as [[]|e]; cbn in Hl; [right; by eexists|left; eapply Hret; [apply Hl|done]|destruct Hl as [-> _]; set_solver|].
  destruct Hl as [[Hl _]|[[-> _]|[Hl _]]]; [left; eauto|set_solver|left; eauto].
Qed.

(** One request of a route. *)
Inductive RouteOf : (BodyRequest → Z → app Answer) → Prop :=
| route_chat : RouteOf (chat catalog wired gateway nb)
| route_embeddings : RouteOf (embeddings catalog wired gateway nb)
| route_rerank : RouteOf (rerank catalog wired gateway nb).

(** C17: the inference routes give every lease back.  For chat, embeddings and
    rerank, whatever the request, the upstream and the scheduler answer (the
    scheduler's [QueueFull] is not raised by the encoder, and the codecs raise
    decoding errors only): either no lease was taken and an error is answered, or
    exactly one was, at most one request went to that model's upstream, and the
    answer says what became of the lease.  With a JSON answer the response was
    closed and then the lease released as a success; with an error answer it was
    released; with a stream the stream owns it.  It was released as a success only
    for a checked answer or when closing or releasing itself failed.  Run on any
    book, the releases that ran leave no such lease behind: only a stream, an
    exception no clause handles (from the encoder of the request, or a number too
    large for a float), or a request cancelled while it waited for the scheduler's
    lock to release, still holds one. *)
Theorem lease_returned `{PyEnv} route r max es result now b : no_foreign_queue_full → RouteOf route → route r max [] = (es, result) →
  lease_dealt_with es result ∧
  (∀ l, Released l SUCCESS ∈ es → neighbour_failed ∨ ∃ content, result = Ret (AnswerJson content)) ∧
  (∀ l, Acquired l ∈ es →
     (∃ opened, result = Ret (AnswerStream opened l)) ∨ (∃ e, result = Raise e ∧ cause e) ∨
     (result = Raise CancelledError ∧ ∃ o, NotReleased l o ∈ es) ∨ ¬ lease_held (book_after now es b) l).
Proof.
  intros Hq Hroute E. assert (lease_dealt_with es result) as Hd.
  { destruct Hroute; [pose proof (chat_run r max Hq) as Hr|pose proof (embeddings_run r max Hq) as Hr|pose proof (rerank_run r max Hq) as Hr]; by rewrite E in Hr. }
  split_and!; [done| |]; intros l; [by apply dealt_success|by apply dealt_frees].
Qed.
End Runs.
