(* ===== verification/StreamProps.v ===== *)
(** * What a stream forwards

    The chunks of the upstream, as they are and in order, while every event stays
    within the bound; the lease is released once, and as a success only when the
    end of the stream was announced in what was forwarded. *)

From S2P Require Import Prelude Text Dict Contracts Registration JsonText Identity Envelopes Observer Control Config Api App.
From Stdlib Require Import Ascii QArith.
Local Open Scope Z_scope.

(** ** Lines *)
Lemma split_keep_concat n l cur : (length l <= n)%nat → mjoin (split_keep cur l) = rev cur ++ l.
Proof.
  revert l cur. induction n as [|n IH]; intros [|c l] cur Hn; cbn in Hn; try lia; cbn [split_keep].
  1,2: case_bool_decide; subst; cbn; by rewrite ?app_nil_r.
  destruct (code c =? 10); [cbn [mjoin list_join]; rewrite IH by lia; cbn; by rewrite <-app_assoc|].
  destruct (code c =? 13); [|rewrite IH by lia; cbn; by rewrite <-app_assoc].
  destruct l as [|d l]; [cbn; by rewrite app_nil_r|]. cbn in Hn.
  destruct (code d =? 10); cbn [mjoin list_join]; rewrite IH by (cbn; lia); cbn; by rewrite <-!app_assoc.
Qed.
(** Every line but the last ends with a line end, and none is empty. *)
Definition ended (line : list ascii) : Prop := ∃ body c, line = body ++ [c] ∧ ends_line c = true.
Lemma split_keep_ended n l cur : (length l <= n)%nat →
  ∃ lines rest, split_keep cur l = lines ++ (if bool_decide (rest = []) then [] else [rest]) ∧ Forall ended lines.
Proof.
  assert (∀ c, (code c =? 10) = true ∨ (code c =? 13) = true → ends_line c = true) as He by (intros c [Hc|Hc]; unfold ends_line; rewrite Hc; by rewrite ?orb_true_r).
  revert l cur. induction n as [|n IH]; intros [|c l] cur Hn; cbn in Hn; try lia; cbn [split_keep].
  1,2: exists [], (rev cur); split; [|done]; destruct cur as [|x cur]; [done|]; rewrite (bool_decide_eq_false_2 (x :: cur = [])) by done; cbn; rewrite bool_decide_eq_false_2; [done|by destruct (rev cur)].
  destruct (code c =? 10) eqn:E10.
  { destruct (IH l [] ltac:(lia)) as (lines & rest & -> & Hl). exists (rev (c :: cur) :: lines), rest. split; [done|]. constructor; [|done].
    exists (rev cur), c. auto. }
  destruct (code c =? 13) eqn:E13; [|apply IH; lia].
  destruct l as [|d l].
  { exists [rev (c :: cur)], []. split; [done|]. constructor; [|done]. exists (rev cur), c. auto. }
  cbn in Hn. destruct (code d =? 10) eqn:Ed.
  - destruct (IH l [] ltac:(lia)) as (lines & rest & -> & Hl). exists (rev (d :: c :: cur) :: lines), rest. split; [done|]. constructor; [|done].
    exists (rev (c :: cur)), d. auto.
  - destruct (IH (d :: l) [] ltac:(cbn; lia)) as (lines & rest & -> & Hl). exists (rev (c :: cur) :: lines), rest. split; [done|]. constructor; [|done].
    exists (rev cur), c. auto.
Qed.
Definition cut_last (lines : list (list ascii)) : list (list ascii) * list ascii :=
  match List.last lines [] with
  | [] => (lines, [])
  | l => if ends_line (List.last l (byte 0)) then (lines, []) else (removelast lines, l)
  end.
Lemma cut_last_spec lines x : Forall ended lines → x ≠ [] →
  mjoin (cut_last (lines ++ [x])).1 ++ (cut_last (lines ++ [x])).2 = mjoin lines ++ x ∧ Forall ended (cut_last (lines ++ [x])).1.
Proof.
  intros Hl Hx. unfold cut_last. rewrite last_last. destruct x as [|c x] using rev_ind; [done|]. clear IHx Hx.
  destruct (x ++ [c]) as [|y ys] eqn:E; [by destruct x|]. rewrite <-E, last_last. destruct (ends_line c) eqn:Ec; cbn [fst snd].
  - rewrite app_nil_r, join_app. cbn. rewrite app_nil_r. split; [done|]. apply Forall_app. split; [done|]. constructor; [|done]. by exists x, c.
  - by rewrite removelast_last.
Qed.
Lemma complete_lines_spec data : mjoin (complete_lines data).1 ++ (complete_lines data).2 = data ∧ Forall ended (complete_lines data).1.
Proof.
  change (complete_lines data) with (cut_last (split_keep [] data)). pose proof (split_keep_concat (length data) data [] ltac:(lia)) as Hc. cbn in Hc.
  destruct (split_keep_ended (length data) data [] ltac:(lia)) as (lines & rest & E & Hl). rewrite E in Hc |- *. clear E.
  destruct (bool_decide (rest = [])) eqn:Er; [apply bool_decide_eq_true in Er as ->|apply bool_decide_eq_false in Er].
  - rewrite !app_nil_r in *. destruct lines as [|x lines] using rev_ind; [by cbn in Hc; subst|]. clear IHlines.
    apply Forall_app in Hl as [Hl Hx]. inversion Hx as [|? ? (body & c & -> & Hc') _]; subst.
    destruct (cut_last_spec lines (body ++ [c]) Hl) as [E1 E2]; [by destruct body|]. split; [|done]. rewrite E1, join_app. cbn. by rewrite app_nil_r.
  - destruct (cut_last_spec lines rest Hl Er) as [E1 E2]. split; [|done]. rewrite E1, <-Hc, join_app. cbn. by rewrite app_nil_r.
Qed.

(** ** What a line says *)
Lemma drop_line_ends_spec l : ∃ ends, l = ends ++ drop_line_ends l ∧ Forall (fun c => ends_line c = true) ends.
Proof.
  induction l as [|c l (ends & E & He)]; [by exists []|]. cbn [drop_line_ends]. destruct (ends_line c) eqn:Ec; [|by exists []].
  exists (c :: ends). cbn. split; [by rewrite <-E|by constructor].
Qed.
Lemma rstrip_line_spec l : ∃ ends, l = rstrip_line l ++ ends ∧ Forall (fun c => ends_line c = true) ends.
Proof.
  destruct (drop_line_ends_spec (rev l)) as (ends & E & He). exists (rev ends). unfold rstrip_line. split; [|by apply Forall_rev].
  rewrite <-rev_app_distr, <-E. by rewrite rev_involutive.
Qed.
(** [data: [DONE]] on a line of its own. *)
Definition starts_line (pre : list ascii) : Prop := pre = [] ∨ ended pre.
Definition announced (text : list ascii) : Prop :=
  ∃ pre c post, text = pre ++ DONE_LINE ++ c :: post ∧ starts_line pre ∧ ends_line c = true.
Lemma done_line line : ended line → rstrip_line line = DONE_LINE → ∃ c rest, line = DONE_LINE ++ c :: rest ∧ ends_line c = true.
Proof.
  intros (body & c & -> & Hc) E. destruct (rstrip_line_spec (body ++ [c])) as (ends & El & He). rewrite E in El.
  destruct ends as [|d ends]; [|inversion He; subst; by exists d, ends]. exfalso. rewrite app_nil_r in El.
  assert (c = byte 93) as -> by (apply (f_equal (fun l => List.last l (byte 0))) in El; rewrite last_last in El; by vm_compute in El). by vm_compute in Hc.
Qed.

(** Counting lines: within the bound, and the end found only when it is there. *)
Lemma count_lines_found max lines : ∀ size found size' found', Forall ended lines → count_lines max size found lines = Some (size', found') →
  found' = true → found = true ∨ ∃ before line after, lines = before ++ line :: after ∧ rstrip_line line = DONE_LINE ∧ ended line.
Proof.
  induction lines as [|line lines IH]; intros size found size' found' Hl; cbn [count_lines]; [by intros [= _ ->]; left|].
  destruct (_ <? _); [done|]. inversion Hl as [|? ? Hline Hlines]; subst. intros E Hf. destruct (IH _ _ _ _ Hlines E Hf) as [Ho|(bf & ln & af & -> & Hd)].
  - apply orb_true_iff in Ho as [Ho|Ho]; [by left|]. apply bool_decide_eq_true in Ho. right. by exists [], line, lines.
  - right. by exists (line :: bf), ln, af.
Qed.
Lemma count_lines_bound max lines : ∀ size found r, 0 <= size → count_lines max size found lines = Some r → Forall (fun line => Z.of_nat (length line) <= max) lines.
Proof.
  induction lines as [|line lines IH]; intros size found r Hs; cbn [count_lines]; [done|].
  destruct (Z.ltb_spec max (size + Z.of_nat (length line))); [done|]. intros E. constructor; [lia|]. eapply IH; [|done]. case_bool_decide; lia.
Qed.

(** ** What is forwarded *)
Definition chunks_of (events : list StreamEvent) : list string := omap (fun e => match e with SChunk c => Some c | _ => None end) events.
Definition text_sent (sent : list string) : list ascii := mjoin (chars <$> sent).
(** Text in lines of at most [max] bytes, the unfinished one included. *)
Definition lined (max : Z) (text pending : list ascii) : Prop :=
  ∃ lines, text = mjoin lines ++ pending ∧ Forall ended lines ∧ Forall (fun line => Z.of_nat (length line) <= max) lines ∧ Z.of_nat (length pending) <= max.
(** No run of bytes without a line end is longer than [max]. *)
Definition bounded_lines (max : Z) (text : list ascii) : Prop :=
  ∀ pre mid post, text = pre ++ mid ++ post → Forall (fun c => ends_line c = false) mid → Z.of_nat (length mid) <= max.

Lemma ended_join lines : Forall ended lines → starts_line (mjoin lines).
Proof.
  intros Hl. destruct lines as [|line lines] using rev_ind; [by left|]. clear IHlines. right. apply Forall_app in Hl as [_ Hx].
  inversion Hx as [|? ? (body & c & -> & Hc) _]; subst. exists (mjoin lines ++ body), c. rewrite join_app. cbn. rewrite app_nil_r, app_assoc. done.
Qed.
Lemma lined_bounded max text pending : lined max text pending → bounded_lines max text.
Proof.
  intros (lines & -> & He & Hb & Hp) pre mid post. revert pre. induction lines as [|line lines IH]; intros pre E Hm.
  { cbn in E. apply (f_equal length) in E. rewrite !length_app in E. lia. }
  inversion He as [|? ? (body & c & -> & Hc) He']; inversion Hb as [|? ? Hlen Hb']; subst.
  cbn in E. rewrite <-!app_assoc in E. cbn in E. rewrite length_app in Hlen. cbn in Hlen.
  destruct (decide (length (pre ++ mid) <= length body)%nat) as [Hle|Hgt]; [rewrite length_app in Hle; lia|].
  assert (length body < length pre)%nat as Hpre.
  { destruct (decide (length body < length pre)%nat) as [?|Hn]; [done|exfalso]. apply (f_equal (.!! length body)) in E.
    rewrite list_lookup_middle in E by done. rewrite app_assoc, lookup_app_l, lookup_app_r in E by lia.
    symmetry in E. pose proof (Forall_lookup_1 _ _ _ _ Hm E) as Hf. cbn in Hf. congruence. }
  apply (IH He' Hb' (drop (S (length body)) pre)); [|done]. apply (f_equal (drop (S (length body)))) in E.
  rewrite drop_app_ge in E by lia. replace (S (length body) - length body)%nat with 1%nat in E by lia. cbn in E. rewrite drop_0 in E.
  by rewrite drop_app_le in E by lia.
Qed.

Lemma stream_step_lined max size before pending chunk rest size' found : 0 <= size → lined max before pending →
  stream_step max size pending chunk = Some (rest, size', found) →
  0 <= size' ∧ lined max (before ++ chars chunk) rest ∧ (found = true → announced (before ++ chars chunk)).
Proof.
  intros Hs (lines & -> & He & Hb & Hp). unfold stream_step. destruct (complete_lines_spec (pending ++ chars chunk)) as [Ec Hl].
  destruct (complete_lines (pending ++ chars chunk)) as [ls tl]. cbn in Ec, Hl. destruct (count_lines max size false ls) as [[sz fd]|] eqn:E; [|done].
  destruct (Z.ltb_spec max (Z.of_nat (length tl))) as [Hlt|Hlt]; [done|]. intros [= -> -> ->]. rewrite <-app_assoc, <-Ec, app_assoc, <-join_app. split_and!.
  - clear -E Hs. revert size Hs E. generalize false. induction ls as [|line ls IH]; intros f size Hs; cbn [count_lines]; [by intros [= <- _]|].
    destruct (_ <? _); [done|]. apply IH. case_bool_decide; lia.
  - exists (lines ++ ls). split_and!; [done|by apply Forall_app|apply Forall_app; split; [done|by eapply count_lines_bound]|done].
  - intros Hf. destruct (count_lines_found _ _ _ _ _ _ Hl E Hf) as [[=]|(bf & line & af & -> & Hd & Hline)].
    destruct (done_line line Hline Hd) as (c & r & -> & Hc). exists (mjoin (lines ++ bf)), c, (r ++ mjoin af ++ rest). split_and!; [|apply ended_join|done].
    + rewrite !join_app. cbn. rewrite <-!app_assoc. cbn. by rewrite <-!app_assoc.
    + apply Forall_app in Hl as [Hl _]. by apply Forall_app.
Qed.

Lemma stream_body_spec max events : ∀ size before pending patience gone sent completed r, 0 <= size → lined max before pending →
  stream_body max size pending events patience gone = (sent, completed, r) →
  sent `prefix_of` chunks_of events ∧ (length sent <= patience)%nat ∧ (∃ pending', lined max (before ++ text_sent sent) pending') ∧
  (completed = true → announced (before ++ text_sent sent) ∧ r = Ret tt).
Proof.
  induction events as [|[chunk| |] events IH]; intros size before pending patience gone sent completed r Hs Hl; cbn [stream_body].
  1,3,4: intros [= <- <- <-]; cbn; rewrite app_nil_r; split_and!; [apply prefix_nil|lia|by exists pending|done].
  assert (∀ r, ([], false, r) = (sent, completed, r) → sent `prefix_of` chunks_of (SChunk chunk :: events) ∧ (length sent <= patience)%nat ∧
    (∃ pending', lined max (before ++ text_sent sent) pending') ∧ (completed = true → announced (before ++ text_sent sent) ∧ r = Ret tt)) as Hstop.
  { intros r' [= <- <-]. cbn. rewrite app_nil_r. split_and!; [apply prefix_nil|lia|by exists pending|done]. }
  destruct (stream_step max size pending chunk) as [[[rest size'] found]|] eqn:E; [|intros [= <- <- <-]; by apply Hstop].
  destruct (stream_step_lined _ _ before _ _ _ _ _ Hs Hl E) as (Hs' & Hl' & Hf).
  destruct patience as [|patience]; [intros [= <- <- <-]; by apply Hstop|]. destruct found.
  - intros [= <- <- <-]. unfold text_sent. cbn. rewrite app_nil_r. split_and!; [apply prefix_cons, prefix_nil|lia|by exists rest|by auto].
  - destruct (stream_body max size' rest events patience gone) as [[sent' completed'] r'] eqn:Eb. intros [= <- <- <-].
    destruct (IH _ _ _ _ _ _ _ _ Hs' Hl' Eb) as (H1 & H2 & H3 & H4). unfold text_sent in *. cbn. rewrite <-app_assoc in H3, H4.
    split_and!; [by apply prefix_cons|cbn; lia|done|done].
Qed.

(** A stream forwards the upstream and nothing else.  Whatever the upstream
    sends and however long the client stays: what is sent are the first chunks of
    the upstream, verbatim and in order; no line of it is longer than the bound on
    an event; the response is closed and the lease released exactly once, and the
    lease counts as a success exactly when the body completed, which takes a line
    [data: [DONE]] of its own in what was sent. *)
Theorem stream_forwards max opened l patience gone close release s : 0 <= max →
  ∃ sent completed r o,
    stream_body max 0 [] (hr_stream opened) patience gone = (sent, completed, r) ∧
    serve_stream max opened l patience gone close release s = (s ++ [Closed_; Released l o], (_ ← release; _ ← close; _ ← r; Ret sent)) ∧
    sent `prefix_of` chunks_of (hr_stream opened) ∧ (length sent <= patience)%nat ∧
    bounded_lines max (text_sent sent) ∧
    (o = SUCCESS ↔ completed = true) ∧ (completed = true → announced (text_sent sent)) ∧ (o ≠ SUCCESS → o = ABORTED).
Proof.
  intros Hmax. unfold serve_stream. destruct (stream_body max 0 [] (hr_stream opened) patience gone) as [[sent completed] r] eqn:E.
  destruct (stream_body_spec max (hr_stream opened) 0 [] [] patience gone sent completed r) as (H1 & H2 & (pending & H3) & H4); [lia| |done|].
  { exists []. split_and!; [done..|cbn; lia]. }
  exists sent, completed, r. eexists. split_and!; [done|done|done|done|by eapply lined_bounded| |by intros Hc; apply H4|].
  - split; [destruct r, completed; done|]. intros ->. by destruct (H4 eq_refl) as [_ ->].
  - destruct r, completed; done.
Qed.
