(* ===== verification/AppDemo.v ===== *)
(** * Requests that run

    A rerank request from its bytes to its answer, with its lease; a stream that
    ends as announced; and two requests that go wrong. *)

From S2P Require Import Prelude Text Dict Env Contracts Registration JsonText Identity Envelopes Observer Control Config Api Registry RegistryProps App AppProps StreamProps.
From Stdlib Require Import Ascii QArith.
Local Open Scope Z_scope.

#[local] Existing Instance ascii_codecs.

Definition field_text (name : string) (fields : list (string * json)) : option string := match jget name fields with Some (JStr s) => Some s | _ => None end.
Definition field_texts (name : string) (fields : list (string * json)) : option (list string) :=
  match jget name fields with
  | Some (JList l) => Some (omap (fun v => match v with JStr s => Some s | _ => None end) l)
  | _ => None
  end.
(** A validator that takes the fields the demonstrations use. *)
#[local] Instance demo_dto : Dto := {|
  dto_chat v := match v with JObj f => m ← field_text "model" f; Some {| ch_model := m; ch_stream := true |} | _ => None end;
  dto_embedding v := match v with JObj f => m ← field_text "model" f; Some {| em_model := m; em_encoding := FormatFloat |} | _ => None end;
  dto_rerank v := match v with
                  | JObj f => m ← field_text "model" f; q ← field_text "query" f; d ← field_texts "documents" f;
                              Some {| rr_model := m; rr_query := q; rr_documents := d; rr_top_n := None; rr_return_documents := true |}
                  | _ => None
                  end |}.

Definition quoted (s : string) : string := text_of (map (fun c => if code c =? 39 then byte 34 else c) (chars s)).
Definition demo_catalog : dict string CatalogModel :=
  Dict [("a", {| cat_upstream_url := "http://127.0.0.1:1"; cat_capabilities := ["embeddings"; "rerank"]; cat_preload := false; cat_envelope := None |})].
Definition demo_gateway : DirectInferenceGateway := {| gw_upstreams := Dict [("a", "http://127.0.0.1:1")]; gw_max_response := 1000 |}.
Definition demo_lease : Lease := {| lease_id := "l0"; lease_request_id := "r1"; lease_model_id := "a"; lease_generation := 1 |}.
Definition json_response (body : string) : HttpxResponse :=
  {| hr_status := 200; hr_content_type := "application/json; charset=utf-8"; hr_retry_after := ""; hr_stream := [SChunk body] |}.
Definition demo_neighbours (body : string) : Neighbours :=
  {| nb_acquire := Ret demo_lease; nb_warm := Ret tt; nb_count := None; nb_count_again := None; nb_remaining := second;
     nb_build := fun _ => Ret "body"; nb_send := Answered (json_response body); nb_close := Ret tt; nb_release := fun _ => ReleaseRan (Ret tt) |}.
Definition demo_post (body : string) : BodyRequest :=
  {| br_content_type := "application/json"; br_content_length := None; br_parts := [PartChunk body] |}.

Definition rerank_body : string := quoted "{'model': 'a', 'query': 'q', 'documents': ['x', 'y']}".
Definition rerank_answer : string := quoted "{'results': [{'index': 0, 'relevance_score': 0.25}, {'index': 1, 'relevance_score': 3}]}".
Local Notation reranked answer := (rerank demo_catalog true demo_gateway (demo_neighbours answer) (demo_post rerank_body) 1000 []).

(** The best document first; the response is closed and then the lease released. *)
Example demo_reranked : reranked rerank_answer =
  ([Acquired demo_lease; Sent "http://127.0.0.1:1/reranking" "body"; Closed_; Released demo_lease SUCCESS],
   Ret (AnswerJson (JObj [("model", JStr "a");
     ("results", JList [JObj [("index", JInt 1); ("relevance_score", JInt 3); ("document", JObj [("text", JStr "y")])];
                        JObj [("index", JInt 0); ("relevance_score", JFloat (Some (1 # 4)%Q)); ("document", JObj [("text", JStr "x")])]])]))).
Proof. vm_compute. done. Qed.

Lemma demo_wide : @codecs_decode ascii_codecs.
Proof. intros b e [= <-]. by eexists. Qed.
Lemma demo_no_foreign answer : no_foreign_queue_full (demo_neighbours answer).
Proof. done. Qed.

Lemma lease_returned_witness : ∃ es result, reranked rerank_answer = (es, result) ∧ Acquired demo_lease ∈ es ∧
  ¬ lease_held (book_after 0 es demo_leased) demo_lease.
Proof.
  eexists _, _. split; [exact demo_reranked|]. split; [left|].
  destruct (lease_returned demo_catalog true demo_gateway (demo_neighbours rerank_answer) demo_wide _ (demo_post rerank_body) 1000 _ _ 0 demo_leased
    (demo_no_foreign _) (route_rerank _ _ _ _) demo_reranked) as (_ & _ & Hl).
  destruct (Hl demo_lease ltac:(left)) as [[opened [=]]|[(e & [=] & _)|[[[=] _]|Hn]]]. exact Hn.
Defined.

(** A score too large for a float: the conversion raises after the lease was
    taken, no clause handles it, and the lease stays. *)
Definition huge_answer : string := quoted ("{'results': [{'index': 0, 'relevance_score': 0}, {'index': 1, 'relevance_score': 1" +:+ text_of (repeat (byte 48) 309) +:+ "}]}").
Example huge_score_leaks : reranked huge_answer =
  ([Acquired demo_lease; Sent "http://127.0.0.1:1/reranking" "body"], Raise (OverflowError "int too large to convert to float")).
Proof. vm_compute. done. Qed.

(** The request is cancelled while it waits for the scheduler's lock to release:
    outside the try block of the JSON routes nothing tries again. *)
Example cancelled_release_leaks :
  rerank demo_catalog true demo_gateway
    {| nb_acquire := Ret demo_lease; nb_warm := Ret tt; nb_count := None; nb_count_again := None; nb_remaining := second;
       nb_build := fun _ => Ret "body"; nb_send := Answered (json_response rerank_answer); nb_close := Ret tt;
       nb_release := fun _ => ReleaseCancelled |} (demo_post rerank_body) 1000 [] =
  ([Acquired demo_lease; Sent "http://127.0.0.1:1/reranking" "body"; Closed_; NotReleased demo_lease SUCCESS], Raise CancelledError).
Proof. vm_compute. done. Qed.

(** ** Streams *)
Definition nl : string := text_of [byte 10].
Definition event_stream (chunks : list string) : HttpxResponse :=
  {| hr_status := 200; hr_content_type := "text/event-stream"; hr_retry_after := ""; hr_stream := map SChunk chunks |}.
Definition demo_stream : HttpxResponse := event_stream ["data: hel"; "lo" +:+ nl +:+ nl +:+ "data: [DO"; "NE]" +:+ nl +:+ nl].
Lemma stream_forwards_witness : ∃ sent, (serve_stream 20 demo_stream demo_lease 9 (Ret tt) (Ret tt) (Ret tt) []) = ([Closed_; Released demo_lease SUCCESS], Ret sent) ∧
  sent `prefix_of` chunks_of (hr_stream demo_stream) ∧ length sent = 3%nat ∧ announced (text_sent sent).
Proof.
  destruct (stream_forwards 20 demo_stream demo_lease 9 (Ret tt) (Ret tt) (Ret tt) [] ltac:(lia)) as (sent & completed & r & o & E & -> & Hp & _ & _ & Ho & Ha & _).
  vm_compute in E. injection E as <- <- <-. rewrite (proj2 Ho eq_refl). eexists. split; [reflexivity|]. split; [exact Hp|]. split; [reflexivity|]. exact (Ha eq_refl).
Defined.

(** A line end split between chunks counts as an empty line and restarts the size
    of the event: the same bytes are refused in one chunk. *)
Definition crlf_a : string := "data: aaaa" +:+ text_of [byte 13].
Definition crlf_b : string := nl +:+ "data: bbbb" +:+ text_of [byte 13].
Example split_line_end_resets :
  (stream_body 20 0 [] (hr_stream (event_stream [crlf_a; crlf_b])) 9 (Ret tt)).1.1 = [crlf_a; crlf_b] ∧
  (stream_body 20 0 [] (hr_stream (event_stream [crlf_a +:+ crlf_b])) 9 (Ret tt)).1.1 = [].
Proof. vm_compute. done. Qed.
