(* ===== verification/Evidence.v ===== *)
(** * Evidence: candidates, attempts and reports

    [model_scheduler/evidence_contracts.py]: the strict parsers of the acceptance
    evidence, the cases a candidate requires, and the checks that bind a report to
    its candidate.  [datetime.fromisoformat] is an interface ([IsoTime]).  A
    number that is not finite is refused when it is read; the code refuses such a
    document when it computes its digest. *)

From S2P Require Import Prelude Text Dict Contracts Registration JsonText JsonTextProps Identity Requests Config RegistrationProps RegistrationText.
From Stdlib Require Import Ascii QArith.
Local Open Scope Z_scope.

(** A parsed timestamp: the wall clock in microseconds, and the offset of its
    time zone, when it has one. *)
Class IsoTime := { fromisoformat : string → option (Z * option Z) }.

Definition EVIDENCE_SCHEMA_VERSION : Z := 3.
Definition SOFTWARE_CASES : list string := ["S01"; "S02"; "S03"; "S04"; "S05"; "S06"].
Definition OPERATIONAL_CASES : list string := ["O01"; "O02"; "O03"; "O04"; "O05"; "O06"].
Definition BACKEND_MODEL_CASE_KINDS : list string := ["load"; "infer"; "envelope"; "cancel"; "stop"; "reload"].
Definition MIN_OPERATIONAL_SECONDS : Z := 1800.
Definition MIN_OPERATIONAL_REQUESTS : Z := 100.
Definition MAX_ARRIVAL_GAP_SECONDS : Q := 15.
Definition MAX_SEND_DEVIATION_MILLISECONDS : Q := 1000.
Definition MAX_ERROR_RATE : Q := 1 # 10.
Definition MAX_QUEUE_FULL_RATE : Q := 1 # 10.
Definition MAX_TIMEOUT_RATE : Q := 1 # 10.
Definition REPORT_VALIDITY_SECONDS : Z := 7 * 86400.
Definition REPORT_FUTURE_TOLERANCE_SECONDS : Z := 300.

(** ** Strict values *)
Definition text_value (v : option json) : outcome string :=
  match v with
  | Some (JStr s) => if String.eqb s "" then err "must be a non-empty string" else check_utf8_text s
  | _ => err "must be a non-empty string"
  end.
Definition text_field (data : list (string * json)) (key : string) : outcome string := text_value (jget key data).
Definition int_field (data : list (string * json)) (key : string) (minimum : option Z) : outcome Z :=
  match jget key data with
  | Some (JInt n) => if match minimum with Some m => n <? m | None => false end then err "must be >=" else Ret n
  | _ => err "must be an integer"
  end.
(** Comparisons of Python numbers are exact; then [float(value)]. *)
Definition Qlt_bool (a b : Q) : bool := negb (Qle_bool b a).
Definition number_field (data : list (string * json)) (key : string) (minimum maximum : option Q) : outcome Q :=
  match jget key data with
  | Some ((JInt _ | JFloat (Some _)) as v) =>
      let q := match v with JInt n => inject_Z n | JFloat (Some q) => q | _ => 0%Q end in
      _ ← require (match minimum with Some m => negb (Qlt_bool q m) | None => true end) "must be >=";
      _ ← require (match maximum with Some m => negb (Qlt_bool m q) | None => true end) "must be <=";
      match v with JInt n => float_of_int n | _ => Ret q end
  | _ => err "must be a number"
  end.
Definition sha256_field (data : list (string * json)) (key : string) : outcome string :=
  s ← text_field data key; _ ← require (SHA256_RE s) "must be a lowercase 64-hex SHA-256"; mret s.
Definition id_field (data : list (string * json)) (key : string) : outcome string :=
  s ← text_field data key; _ ← require (ID_RE s) "must be a lowercase opaque id"; mret s.
Definition parse_utc `{IsoTime} (text : string) : outcome Z :=
  match fromisoformat text with
  | None => err "must be an ISO-8601 timestamp"
  | Some (t, offset) => _ ← require (bool_decide (offset = Some 0)) "must carry a UTC offset"; mret t
  end.
Definition evidence_path (v : option json) : outcome string := s ← text_value v; safe_relative_path (Some (JStr s)).
Definition unique {A} `{EqDecision A} (l : list A) (msg : string) : outcome unit := require (bool_decide (NoDup l)) msg.

(** ** Data *)
Record ArtifactRef := { ar_relative_path : string; ar_size_bytes : Z; ar_sha256 : string }.
Record DeviceFact := {
  df_machine_id_sha256 : string; df_architecture : string; df_device_tree_sha256 : string; df_mem_total_bytes : Z;
  df_os_release : string; df_kernel_release : string; df_gpu_identity : string; df_jetpack_release : string;
  df_container_runtime_version : string; df_power_mode : string; df_clock_mode : string; df_model_disk_uuid : string;
  df_scratch_disk_uuid : string;
}.
Record RuntimeStackFact := { rsf_cuda_version : string; rsf_compute_capability : string; rsf_python_version : string }.
Record ModelPerformancePolicy := {
  mpp_model_id : string; mpp_cold_start_seconds_max : Q; mpp_infer_milliseconds_p95_max : Q;
  mpp_infer_milliseconds_p99_max : Q; mpp_max_input_milliseconds_max : Q;
}.
Record OperationalPolicy := {
  op_duration_seconds : Z; op_arrival_requests : Z; op_arrival_gap_seconds_max : Q; op_send_deviation_milliseconds_max : Q;
  op_error_rate_max : Q; op_queue_full_rate_max : Q; op_timeout_rate_max : Q;
}.
Record PolicyV3 := { po_performance : list ModelPerformancePolicy; po_operational : OperationalPolicy }.
Record CandidateV3 := {
  ca_schema_version : Z; ca_deployment_id : string; ca_source_archive_sha256 : string; ca_config_sha256 : string;
  ca_device : DeviceFact; ca_runtime_stack : RuntimeStackFact; ca_runtimes : list RuntimeSpec; ca_models : list RegisteredModelSpec;
  ca_measurement_refs : list ArtifactRef; ca_fixture_refs : list ArtifactRef; ca_policy : PolicyV3;
  ca_collector_sha256 : string; ca_evaluator_sha256 : string;
}.
Record CaseAttempt := {
  at_case_id : string; at_run_id : string; at_attempt : Z; at_candidate_sha256 : string; at_device_digest : string;
  at_started_at : string; at_ended_at : string; at_boot_id : string; at_event_refs : list ArtifactRef;
  at_collector_sha256 : string; at_evaluator_sha256 : string; at_exit_code : Z;
}.
Record CaseFinal := { fi_case_id : string; fi_run_id : string; fi_attempt : Z }.
Record AcceptanceReportV3 := {
  re_schema_version : Z; re_candidate_sha256 : string; re_device_digest : string; re_run_id : string;
  re_started_at : string; re_ended_at : string; re_attempts : list CaseAttempt; re_finals : list CaseFinal;
  re_artifacts : list ArtifactRef;
}.

(** ** Keys *)
Definition ARTIFACT_KEYS : list string := ["relative_path"; "size_bytes"; "sha256"].
Definition DEVICE_KEYS : list string :=
  ["machine_id_sha256"; "architecture"; "device_tree_sha256"; "mem_total_bytes"; "os_release"; "kernel_release"; "gpu_identity";
   "jetpack_release"; "container_runtime_version"; "power_mode"; "clock_mode"; "model_disk_uuid"; "scratch_disk_uuid"].
Definition RUNTIME_STACK_KEYS : list string := ["cuda_version"; "compute_capability"; "python_version"].
Definition PERFORMANCE_KEYS : list string :=
  ["model_id"; "cold_start_seconds_max"; "infer_milliseconds_p95_max"; "infer_milliseconds_p99_max"; "max_input_milliseconds_max"].
Definition OPERATIONAL_KEYS : list string :=
  ["duration_seconds"; "arrival_requests"; "arrival_gap_seconds_max"; "send_deviation_milliseconds_max"; "error_rate_max";
   "queue_full_rate_max"; "timeout_rate_max"].
Definition POLICY_KEYS : list string := ["performance"; "operational"].
Definition CANDIDATE_KEYS : list string :=
  ["schema_version"; "deployment_id"; "source_archive_sha256"; "config_sha256"; "device"; "runtime_stack"; "runtimes"; "models";
   "measurement_refs"; "fixture_refs"; "policy"; "collector_sha256"; "evaluator_sha256"].
Definition CASE_ATTEMPT_KEYS : list string :=
  ["case_id"; "run_id"; "attempt"; "candidate_sha256"; "device_digest"; "started_at"; "ended_at"; "boot_id"; "event_refs";
   "collector_sha256"; "evaluator_sha256"; "exit_code"].
Definition CASE_FINAL_KEYS : list string := ["case_id"; "run_id"; "attempt"].
Definition REPORT_KEYS : list string :=
  ["schema_version"; "candidate_sha256"; "device_digest"; "run_id"; "started_at"; "ended_at"; "case_attempt_refs"; "final_attempts";
   "artifact_manifest"].

(** ** Parsers *)
(** [text.split(":")] *)
Fixpoint split_colon (acc : list ascii) (l : list ascii) : list string :=
  match l with
  | [] => [text_of (rev acc)]
  | c :: l => if code c =? 58 then text_of (rev acc) :: split_colon [] l else split_colon (c :: acc) l
  end.
(** The model id of a case has two characters at least. *)
Definition case_model_id (s : string) : bool := ID_RE s && (2 <=? Z.of_nat (String.length s)).
Definition known_capability (c : string) : bool := bool_decide (is_Some (capability_roles c)).
(** The patterns of case ids, by their colons. *)
Definition case_id_shape (text : string) : bool :=
  match split_colon [] (chars text) with
  | [s] => bool_decide (s ∈ SOFTWARE_CASES) || bool_decide (s ∈ OPERATIONAL_CASES)
  | [b; model; kind] => String.eqb b "B" && case_model_id model && bool_decide (kind ∈ BACKEND_MODEL_CASE_KINDS)
  | [b; model; cap; c] => String.eqb b "B" && case_model_id model && String.eqb cap "cap" && known_capability c
  | _ => false
  end.
Definition parse_case_id (v : option json) : outcome string :=
  text ← text_value v; _ ← require (case_id_shape text) "not a required-case id"; mret text.

(** [ArtifactRef.__post_init__] *)
Definition make_artifact (path : string) (size : Z) (sha256 : string) : outcome ArtifactRef :=
  _ ← evidence_path (Some (JStr path));
  _ ← require (0 <=? size) "must be a non-negative integer";
  _ ← require (SHA256_RE sha256) "must be a lowercase 64-hex SHA-256";
  mret {| ar_relative_path := path; ar_size_bytes := size; ar_sha256 := sha256 |}.
Definition parse_artifact_ref (v : json) : outcome ArtifactRef :=
  data ← as_mapping (Some v); _ ← exact_keys data ARTIFACT_KEYS;
  path ← evidence_path (jget "relative_path" data); size ← int_field data "size_bytes" (Some 0); sha256 ← sha256_field data "sha256";
  make_artifact path size sha256.
Definition parse_artifact_list (v : option json) : outcome (list ArtifactRef) :=
  match v with
  | Some (JList items) =>
      artifacts ← mapM parse_artifact_ref items; _ ← unique (ar_relative_path <$> artifacts) "duplicate artifact paths"; mret artifacts
  | _ => err "must be a list"
  end.

Definition parse_device_fact (v : option json) : outcome DeviceFact :=
  data ← as_mapping v; _ ← exact_keys data DEVICE_KEYS;
  machine ← sha256_field data "machine_id_sha256"; architecture ← text_field data "architecture";
  tree ← sha256_field data "device_tree_sha256"; mem ← int_field data "mem_total_bytes" (Some 1);
  os ← text_field data "os_release"; kernel ← text_field data "kernel_release"; gpu ← text_field data "gpu_identity";
  jetpack ← text_field data "jetpack_release"; container ← text_field data "container_runtime_version";
  power ← text_field data "power_mode"; clock ← text_field data "clock_mode"; model ← text_field data "model_disk_uuid";
  scratch ← text_field data "scratch_disk_uuid";
  mret {| df_machine_id_sha256 := machine; df_architecture := architecture; df_device_tree_sha256 := tree; df_mem_total_bytes := mem;
          df_os_release := os; df_kernel_release := kernel; df_gpu_identity := gpu; df_jetpack_release := jetpack;
          df_container_runtime_version := container; df_power_mode := power; df_clock_mode := clock; df_model_disk_uuid := model;
          df_scratch_disk_uuid := scratch |}.
Definition parse_runtime_stack (v : option json) : outcome RuntimeStackFact :=
  data ← as_mapping v; _ ← exact_keys data RUNTIME_STACK_KEYS;
  cuda ← text_field data "cuda_version"; compute ← text_field data "compute_capability"; python ← text_field data "python_version";
  mret {| rsf_cuda_version := cuda; rsf_compute_capability := compute; rsf_python_version := python |}.

Definition parse_performance_policy (v : json) : outcome ModelPerformancePolicy :=
  data ← as_mapping (Some v); _ ← exact_keys data PERFORMANCE_KEYS;
  model ← id_field data "model_id"; cold ← number_field data "cold_start_seconds_max" (Some 0%Q) None;
  p95 ← number_field data "infer_milliseconds_p95_max" (Some 0%Q) None; p99 ← number_field data "infer_milliseconds_p99_max" (Some 0%Q) None;
  input ← number_field data "max_input_milliseconds_max" (Some 0%Q) None;
  mret {| mpp_model_id := model; mpp_cold_start_seconds_max := cold; mpp_infer_milliseconds_p95_max := p95;
          mpp_infer_milliseconds_p99_max := p99; mpp_max_input_milliseconds_max := input |}.
Definition parse_operational_policy (v : option json) : outcome OperationalPolicy :=
  data ← as_mapping v; _ ← exact_keys data OPERATIONAL_KEYS;
  duration ← int_field data "duration_seconds" (Some 1); requests ← int_field data "arrival_requests" (Some 1);
  gap ← number_field data "arrival_gap_seconds_max" (Some 0%Q) None;
  deviation ← number_field data "send_deviation_milliseconds_max" (Some 0%Q) None;
  errors ← number_field data "error_rate_max" (Some 0%Q) (Some 1%Q);
  full ← number_field data "queue_full_rate_max" (Some 0%Q) (Some 1%Q);
  timeouts ← number_field data "timeout_rate_max" (Some 0%Q) (Some 1%Q);
  _ ← require (MIN_OPERATIONAL_SECONDS <=? duration) "duration_seconds";
  _ ← require (MIN_OPERATIONAL_REQUESTS <=? requests) "arrival_requests";
  _ ← require (Qle_bool gap MAX_ARRIVAL_GAP_SECONDS) "arrival_gap_seconds_max";
  _ ← require (Qle_bool deviation MAX_SEND_DEVIATION_MILLISECONDS) "send_deviation_milliseconds_max";
  _ ← require (Qle_bool errors MAX_ERROR_RATE) "error_rate_max";
  _ ← require (Qle_bool full MAX_QUEUE_FULL_RATE) "queue_full_rate_max";
  _ ← require (Qle_bool timeouts MAX_TIMEOUT_RATE) "timeout_rate_max";
  mret {| op_duration_seconds := duration; op_arrival_requests := requests; op_arrival_gap_seconds_max := gap;
          op_send_deviation_milliseconds_max := deviation; op_error_rate_max := errors; op_queue_full_rate_max := full;
          op_timeout_rate_max := timeouts |}.
Definition parse_policy (v : option json) : outcome PolicyV3 :=
  data ← as_mapping v; _ ← exact_keys data POLICY_KEYS;
  performance ← get_list data "performance";
  _ ← require (negb (bool_decide (performance = []))) "performance must list one entry per model";
  parsed ← mapM parse_performance_policy performance;
  _ ← unique (mpp_model_id <$> parsed) "duplicate performance entries";
  operational ← parse_operational_policy (jget "operational" data);
  mret {| po_performance := parsed; po_operational := operational |}.

Definition same_members (a b : list string) : bool := forallb (fun x => bool_decide (x ∈ b)) a && forallb (fun x => bool_decide (x ∈ a)) b.
Definition parse_candidate (v : json) : outcome CandidateV3 :=
  data ← as_mapping (Some v); _ ← exact_keys data CANDIDATE_KEYS;
  version ← int_field data "schema_version" None; _ ← require (version =? EVIDENCE_SCHEMA_VERSION) "schema_version";
  raw_runtimes ← get_list data "runtimes"; runtimes ← mapM parse_runtime_spec raw_runtimes;
  let runtime_ids := rt_runtime_id <$> runtimes in
  _ ← unique runtime_ids "duplicate runtime ids";
  raw_models ← get_list data "models"; models ← mapM parse_model_spec raw_models;
  _ ← require (negb (bool_decide (length models = 0%nat))) "at least one model must be registered";
  let model_ids := v2_model_id <$> models in
  _ ← unique model_ids "duplicate model ids";
  _ ← check_each models (fun m => require (bool_decide (v2_runtime_id m ∈ runtime_ids)) "references unknown runtime");
  policy ← parse_policy (jget "policy" data);
  _ ← require (same_members (mpp_model_id <$> po_performance policy) model_ids) "performance policy must cover every model";
  deployment ← id_field data "deployment_id"; archive ← sha256_field data "source_archive_sha256";
  config ← sha256_field data "config_sha256"; device ← parse_device_fact (jget "device" data);
  stack ← parse_runtime_stack (jget "runtime_stack" data); measurements ← parse_artifact_list (jget "measurement_refs" data);
  fixtures ← parse_artifact_list (jget "fixture_refs" data); collector ← sha256_field data "collector_sha256";
  evaluator ← sha256_field data "evaluator_sha256";
  mret {| ca_schema_version := version; ca_deployment_id := deployment; ca_source_archive_sha256 := archive; ca_config_sha256 := config;
          ca_device := device; ca_runtime_stack := stack; ca_runtimes := runtimes; ca_models := models;
          ca_measurement_refs := measurements; ca_fixture_refs := fixtures; ca_policy := policy; ca_collector_sha256 := collector;
          ca_evaluator_sha256 := evaluator |}.

(** Both ends of an interval, in this order. *)
Definition parse_interval `{IsoTime} (data : list (string * json)) : outcome (string * string) :=
  started ← text_field data "started_at"; ended ← text_field data "ended_at";
  e ← parse_utc ended; s ← parse_utc started;
  _ ← require (s <=? e) "ended_at must not be earlier than started_at"; mret (started, ended).
Definition parse_case_attempt `{IsoTime} (v : json) : outcome CaseAttempt :=
  data ← as_mapping (Some v); _ ← exact_keys data CASE_ATTEMPT_KEYS;
  '(started, ended) ← parse_interval data;
  case ← parse_case_id (jget "case_id" data); run ← id_field data "run_id"; attempt ← int_field data "attempt" (Some 1);
  candidate ← sha256_field data "candidate_sha256"; device ← sha256_field data "device_digest"; boot ← text_field data "boot_id";
  events ← parse_artifact_list (jget "event_refs" data); collector ← sha256_field data "collector_sha256";
  evaluator ← sha256_field data "evaluator_sha256"; exit ← int_field data "exit_code" None;
  mret {| at_case_id := case; at_run_id := run; at_attempt := attempt; at_candidate_sha256 := candidate; at_device_digest := device;
          at_started_at := started; at_ended_at := ended; at_boot_id := boot; at_event_refs := events;
          at_collector_sha256 := collector; at_evaluator_sha256 := evaluator; at_exit_code := exit |}.
Definition parse_case_final (v : json) : outcome CaseFinal :=
  data ← as_mapping (Some v); _ ← exact_keys data CASE_FINAL_KEYS;
  case ← parse_case_id (jget "case_id" data); run ← id_field data "run_id"; attempt ← int_field data "attempt" (Some 1);
  mret {| fi_case_id := case; fi_run_id := run; fi_attempt := attempt |}.
Definition parse_acceptance_report `{IsoTime} (v : json) : outcome AcceptanceReportV3 :=
  data ← as_mapping (Some v); _ ← exact_keys data REPORT_KEYS;
  version ← int_field data "schema_version" None; _ ← require (version =? EVIDENCE_SCHEMA_VERSION) "schema_version";
  '(started, ended) ← parse_interval data;
  raw_attempts ← get_list data "case_attempt_refs"; attempts ← mapM parse_case_attempt raw_attempts;
  raw_finals ← get_list data "final_attempts"; finals ← mapM parse_case_final raw_finals;
  candidate ← sha256_field data "candidate_sha256"; device ← sha256_field data "device_digest"; run ← id_field data "run_id";
  artifacts ← parse_artifact_list (jget "artifact_manifest" data);
  mret {| re_schema_version := version; re_candidate_sha256 := candidate; re_device_digest := device; re_run_id := run;
          re_started_at := started; re_ended_at := ended; re_attempts := attempts; re_finals := finals; re_artifacts := artifacts |}.

(** ** Required cases *)
Definition model_cases (m : RegisteredModelSpec) : list string :=
  map (fun kind => "B:" +:+ v2_model_id m +:+ ":" +:+ kind) BACKEND_MODEL_CASE_KINDS
  ++ map (fun c => "B:" +:+ v2_model_id m +:+ ":cap:" +:+ c) (v2_capabilities m).
(** A set, used by membership. *)
Definition required_case_ids (c : CandidateV3) : list string := SOFTWARE_CASES ++ OPERATIONAL_CASES ++ mjoin (map model_cases (ca_models c)).

Definition attempt_key (a : CaseAttempt) : string * string * Z := (at_run_id a, at_case_id a, at_attempt a).
Definition final_key (f : CaseFinal) : string * string * Z := (fi_run_id f, fi_case_id f, fi_attempt f).
Definition Zmin_list (x : Z) (l : list Z) : Z := foldr Z.min x l.
Definition Zmax_list (x : Z) (l : list Z) : Z := foldr Z.max x l.
Definition validate_report_mapping `{IsoTime} (r : AcceptanceReportV3) (c : CandidateV3) : outcome unit :=
  let required := required_case_ids c in
  let keys := attempt_key <$> re_attempts r in
  _ ← unique keys "duplicate attempt";
  _ ← check_each (re_attempts r) (fun a => require (bool_decide (at_case_id a ∈ required)) "attempt for unknown case");
  let finals := fi_case_id <$> re_finals r in
  _ ← unique finals "duplicate final conclusions";
  _ ← require (forallb (fun x => bool_decide (x ∈ required)) finals) "final attempts for unknown cases";
  _ ← require (forallb (fun x => bool_decide (x ∈ finals)) required) "missing final attempts";
  _ ← check_each (re_finals r) (fun f => require (bool_decide (final_key f ∈ keys)) "final attempt does not exist");
  match re_attempts r with
  | [] => mret tt
  | _ =>
      starts ← mapM (fun a => parse_utc (at_started_at a)) (re_attempts r);
      ends ← mapM (fun a => parse_utc (at_ended_at a)) (re_attempts r);
      s ← parse_utc (re_started_at r);
      _ ← require (match starts with x :: l => s =? Zmin_list x l | [] => true end) "started_at";
      e ← parse_utc (re_ended_at r);
      require (match ends with x :: l => e =? Zmax_list x l | [] => true end) "ended_at"
  end.

(** ** Digests *)
Definition artifact_json (a : ArtifactRef) : json :=
  JObj [("relative_path", JStr (ar_relative_path a)); ("size_bytes", JInt (ar_size_bytes a)); ("sha256", JStr (ar_sha256 a))].
Definition device_json (d : DeviceFact) : json :=
  JObj [("machine_id_sha256", JStr (df_machine_id_sha256 d)); ("architecture", JStr (df_architecture d));
        ("device_tree_sha256", JStr (df_device_tree_sha256 d)); ("mem_total_bytes", JInt (df_mem_total_bytes d));
        ("os_release", JStr (df_os_release d)); ("kernel_release", JStr (df_kernel_release d)); ("gpu_identity", JStr (df_gpu_identity d));
        ("jetpack_release", JStr (df_jetpack_release d)); ("container_runtime_version", JStr (df_container_runtime_version d));
        ("power_mode", JStr (df_power_mode d)); ("clock_mode", JStr (df_clock_mode d)); ("model_disk_uuid", JStr (df_model_disk_uuid d));
        ("scratch_disk_uuid", JStr (df_scratch_disk_uuid d))].
Definition stack_json (s : RuntimeStackFact) : json :=
  JObj [("cuda_version", JStr (rsf_cuda_version s)); ("compute_capability", JStr (rsf_compute_capability s));
        ("python_version", JStr (rsf_python_version s))].
Definition float_json (q : Q) : json := JFloat (Some q).
Definition performance_json (p : ModelPerformancePolicy) : json :=
  JObj [("model_id", JStr (mpp_model_id p)); ("cold_start_seconds_max", float_json (mpp_cold_start_seconds_max p));
        ("infer_milliseconds_p95_max", float_json (mpp_infer_milliseconds_p95_max p));
        ("infer_milliseconds_p99_max", float_json (mpp_infer_milliseconds_p99_max p));
        ("max_input_milliseconds_max", float_json (mpp_max_input_milliseconds_max p))].
Definition operational_json (p : OperationalPolicy) : json :=
  JObj [("duration_seconds", JInt (op_duration_seconds p)); ("arrival_requests", JInt (op_arrival_requests p));
        ("arrival_gap_seconds_max", float_json (op_arrival_gap_seconds_max p));
        ("send_deviation_milliseconds_max", float_json (op_send_deviation_milliseconds_max p));
        ("error_rate_max", float_json (op_error_rate_max p)); ("queue_full_rate_max", float_json (op_queue_full_rate_max p));
        ("timeout_rate_max", float_json (op_timeout_rate_max p))].
Definition policy_json (p : PolicyV3) : json :=
  JObj [("performance", JList (map performance_json (po_performance p))); ("operational", operational_json (po_operational p))].
(** [asdict(candidate)] *)
Definition candidate_json (c : CandidateV3) : json :=
  JObj [("schema_version", JInt (ca_schema_version c)); ("deployment_id", JStr (ca_deployment_id c));
        ("source_archive_sha256", JStr (ca_source_archive_sha256 c)); ("config_sha256", JStr (ca_config_sha256 c));
        ("device", device_json (ca_device c)); ("runtime_stack", stack_json (ca_runtime_stack c));
        ("runtimes", JList (map runtime_json (ca_runtimes c))); ("models", JList (map model_json (ca_models c)));
        ("measurement_refs", JList (map artifact_json (ca_measurement_refs c))); ("fixture_refs", JList (map artifact_json (ca_fixture_refs c)));
        ("policy", policy_json (ca_policy c)); ("collector_sha256", JStr (ca_collector_sha256 c));
        ("evaluator_sha256", JStr (ca_evaluator_sha256 c))].
Definition body_digest `{FloatText} `{Digest} (body : json) : outcome string := text ← canonical_json_bytes body; mret (sha256_hex text).
Definition candidate_digest `{FloatText} `{Digest} (c : CandidateV3) : outcome string := body_digest (candidate_json c).
Definition device_digest `{FloatText} `{Digest} (d : DeviceFact) : outcome string := body_digest (device_json d).
Definition artifact_manifest_digest `{FloatText} `{Digest} (l : list ArtifactRef) : outcome string := body_digest (JList (map artifact_json l)).
Definition validate_report_identity `{FloatText} `{Digest} (r : AcceptanceReportV3) (c : CandidateV3) : outcome unit :=
  digest ← candidate_digest c;
  _ ← require (String.eqb (re_candidate_sha256 r) digest) "candidate_sha256 does not match the candidate";
  device ← device_digest (ca_device c);
  require (String.eqb (re_device_digest r) device) "device_digest does not match the candidate device".

(** ** What an accepted mapping says *)
Section Mapping.
Context `{IsoTime}.

(** The earliest and the latest of the times of the attempts. *)
Definition spans (of_ : CaseAttempt → string) (best : Z → Z → Prop) (t : Z) (l : list CaseAttempt) : Prop :=
  (∃ a, a ∈ l ∧ parse_utc (of_ a) = Ret t) ∧ ∀ a, a ∈ l → ∃ u, parse_utc (of_ a) = Ret u ∧ best t u.
Record mapping_ok (r : AcceptanceReportV3) (c : CandidateV3) : Prop := {
  mo_attempts : NoDup (attempt_key <$> re_attempts r);
  mo_known : ∀ a, a ∈ re_attempts r → at_case_id a ∈ required_case_ids c;
  mo_finals : NoDup (fi_case_id <$> re_finals r);
  mo_cases : ∀ x, x ∈ (fi_case_id <$> re_finals r) ↔ x ∈ required_case_ids c;
  mo_traced : ∀ f, f ∈ re_finals r → final_key f ∈ (attempt_key <$> re_attempts r);
  mo_started : ∃ t, parse_utc (re_started_at r) = Ret t ∧ spans at_started_at Z.le t (re_attempts r);
  mo_ended : ∃ t, parse_utc (re_ended_at r) = Ret t ∧ spans at_ended_at Z.ge t (re_attempts r);
}.

Lemma mapM_ret {A B} (f : A → outcome B) l k : mapM f l = Ret k ↔ Forall2 (fun a b => f a = Ret b) l k.
Proof.
  revert k. induction l as [|a l IH]; intros k.
  - split; [intros [= <-]; constructor|by inversion 1].
  - cbn. unfold mbind, outcome_bind. destruct (f a) as [b|e] eqn:E.
    + destruct (mapM f l) as [bs|e'] eqn:El.
      * split; [intros [= <-]; constructor; [done|by apply IH]|]. inversion 1 as [|? ? ? bs' Hb Hbs]; subst. apply IH in Hbs. unfold mret, outcome_ret. congruence.
      * split; [done|]. inversion 1 as [|? ? ? bs' Hb Hbs]; subst. apply IH in Hbs. congruence.
    + split; [done|]. inversion 1; congruence.
Qed.

Lemma min_list_spec x l : Zmin_list x l ∈ x :: l ∧ ∀ y, y ∈ x :: l → Zmin_list x l ≤ y.
Proof.
  unfold Zmin_list. induction l as [|z l [Hin Hle]]; cbn [foldr].
  - split; [left|]. by intros y ->%list_elem_of_singleton.
  - split.
    + destruct (Z.min_spec z (foldr Z.min x l)) as [[_ ->]|[_ ->]]; [right; left|]. apply elem_of_cons in Hin as [->|Hin]; [left|by right; right].
    + intros y [->|[->|Hy]%elem_of_cons]%elem_of_cons; [|lia|]; [specialize (Hle x ltac:(left))|specialize (Hle y ltac:(by right))]; lia.
Qed.
Lemma max_list_spec x l : Zmax_list x l ∈ x :: l ∧ ∀ y, y ∈ x :: l → y ≤ Zmax_list x l.
Proof.
  unfold Zmax_list. induction l as [|z l [Hin Hle]]; cbn [foldr].
  - split; [left|]. by intros y ->%list_elem_of_singleton.
  - split.
    + destruct (Z.max_spec z (foldr Z.max x l)) as [[_ ->]|[_ ->]]; [|right; left]. apply elem_of_cons in Hin as [->|Hin]; [left|by right; right].
    + intros y [->|[->|Hy]%elem_of_cons]%elem_of_cons; [|lia|]; [specialize (Hle x ltac:(left))|specialize (Hle y ltac:(by right))]; lia.
Qed.

(** A bound of the parsed times is the extreme one. *)
Lemma spans_iff (of_ : CaseAttempt → string) (best : Z → Z → Prop) (pick : Z → list Z → Z) l ts t :
  (∀ x l, pick x l ∈ x :: l ∧ ∀ y, y ∈ x :: l → best (pick x l) y) → (∀ a b, best a b → best b a → a = b) →
  Forall2 (fun a b => parse_utc (of_ a) = Ret b) l ts → l ≠ [] →
  (match ts with x :: k => t = pick x k | [] => True end) ↔ spans of_ best t l.
Proof.
  intros Hpick Hanti HF Hne. assert (∀ a, a ∈ l → ∃ u, u ∈ ts ∧ parse_utc (of_ a) = Ret u) as H1.
  { intros a (i & Ha)%list_elem_of_lookup. destruct (Forall2_lookup_l _ _ _ _ _ HF Ha) as (u & Hu & E). exists u. split; [by eapply list_elem_of_lookup_2|done]. }
  assert (∀ u, u ∈ ts → ∃ a, a ∈ l ∧ parse_utc (of_ a) = Ret u) as H2.
  { intros u (i & Hu)%list_elem_of_lookup. destruct (Forall2_lookup_r _ _ _ _ _ HF Hu) as (a & Ha & E). exists a. split; [by eapply list_elem_of_lookup_2|done]. }
  destruct ts as [|x k]; [by inversion HF; subst|]. destruct (Hpick x k) as [Hin Hbest]. split.
  - intros ->. split; [by apply H2|]. intros a Ha. destruct (H1 a Ha) as (u & Hu & E). exists u. auto.
  - intros [(a & Ha & Et) Hall]. apply Hanti.
    + destruct (H2 _ Hin) as (b & Hb & Eb). destruct (Hall b Hb) as (u & Eu & Hu). congruence.
    + destruct (H1 a Ha) as (u & Hu & Eu). assert (u = t) as -> by congruence. by apply Hbest.
Qed.
Lemma spans_parsed of_ best t l : spans of_ best t l → ∃ ts, mapM (fun a => parse_utc (of_ a)) l = Ret ts.
Proof.
  intros [_ Hall]. induction l as [|a l IH]; [by exists []|]. destruct (Hall a ltac:(left)) as (u & Eu & _). destruct IH as [ts Ets].
  { intros b Hb. apply Hall. by right. }
  exists (u :: ts). apply mapM_ret. constructor; [done|by apply mapM_ret].
Qed.

Lemma required_nonempty c : "S01" ∈ required_case_ids c.
Proof. left. Qed.

Lemma unit_bind {B} (m : outcome unit) (k : outcome B) b : (_ ← m; k) = Ret b ↔ m = Ret tt ∧ k = Ret b.
Proof. rewrite obind_ret. split; [by intros ([] & ? & ?)|intros []; by exists tt]. Qed.
Lemma unique_ret {A} `{EqDecision A} (l : list A) msg : unique l msg = Ret tt ↔ NoDup l.
Proof. unfold unique. by rewrite require_ret, bool_decide_eq_true. Qed.
Lemma check_members {A} `{EqDecision K} (f : A → K) (l : list A) (k : list K) msg :
  check_each l (fun x => require (bool_decide (f x ∈ k)) msg) = Ret tt ↔ ∀ x, x ∈ l → f x ∈ k.
Proof. rewrite check_each_ret_all. setoid_rewrite require_ret. by setoid_rewrite bool_decide_eq_true. Qed.
Lemma all_members (l k : list string) msg : require (forallb (fun x => bool_decide (x ∈ k)) l) msg = Ret tt ↔ ∀ x, x ∈ l → x ∈ k.
Proof. rewrite require_ret, forallb_In'. by setoid_rewrite bool_decide_eq_true. Qed.

(** The two ends of the report. *)
Definition check_span (r : AcceptanceReportV3) : outcome unit :=
  match re_attempts r with
  | [] => mret tt
  | _ =>
      starts ← mapM (fun a => parse_utc (at_started_at a)) (re_attempts r);
      ends ← mapM (fun a => parse_utc (at_ended_at a)) (re_attempts r);
      s ← parse_utc (re_started_at r);
      _ ← require (match starts with x :: l => s =? Zmin_list x l | [] => true end) "started_at";
      e ← parse_utc (re_ended_at r);
      require (match ends with x :: l => e =? Zmax_list x l | [] => true end) "ended_at"
  end.
Lemma picked_iff (f : Z → list Z → Z) ts t : (match ts with x :: l => t =? f x l | [] => true end) = true ↔ match ts with x :: l => t = f x l | [] => True end.
Proof. destruct ts; [done|]. apply Z.eqb_eq. Qed.
Lemma check_span_iff r : re_attempts r ≠ [] → check_span r = Ret tt ↔
  (∃ t, parse_utc (re_started_at r) = Ret t ∧ spans at_started_at Z.le t (re_attempts r)) ∧
  (∃ t, parse_utc (re_ended_at r) = Ret t ∧ spans at_ended_at Z.ge t (re_attempts r)).
Proof.
  intros Hne. assert (∀ ts t, Forall2 (fun a b => parse_utc (at_started_at a) = Ret b) (re_attempts r) ts →
    (match ts with x :: l => t = Zmin_list x l | [] => True end) ↔ spans at_started_at Z.le t (re_attempts r)) as Hmin.
  { intros ts t HF. apply spans_iff; [apply min_list_spec|lia|done|done]. }
  assert (∀ ts t, Forall2 (fun a b => parse_utc (at_ended_at a) = Ret b) (re_attempts r) ts →
    (match ts with x :: l => t = Zmax_list x l | [] => True end) ↔ spans at_ended_at Z.ge t (re_attempts r)) as Hmax.
  { intros ts t HF. apply spans_iff; [|lia|done|done]. intros x l. destruct (max_list_spec x l) as [Hi Hl]. split; [done|]. intros y Hy%Hl. lia. }
  unfold check_span. destruct (re_attempts r) as [|a0 as_] eqn:Ea; [done|]. rewrite <-Ea in *. clear Hne. split.
  - intros (ts & Hts%mapM_ret & (te & Hte%mapM_ret & (s & Es & (Hs%require_ret%picked_iff & (e & Ee & He%require_ret%picked_iff)%obind_ret)%unit_bind)%obind_ret)%obind_ret)%obind_ret.
    split; [exists s|exists e]; (split; [done|]); [by apply (Hmin ts)|by apply (Hmax te)].
  - intros [(s & Es & Hs) (e & Ee & He)]. destruct (spans_parsed _ _ _ _ Hs) as [ts Hts]. destruct (spans_parsed _ _ _ _ He) as [te Hte].
    rewrite Hts, Hte, Es, Ee. unfold mbind, outcome_bind. apply mapM_ret in Hts, Hte.
    pose proof (proj2 (picked_iff Zmin_list ts s) (proj2 (Hmin ts s Hts) Hs)) as Hp. pose proof (proj2 (picked_iff Zmax_list te e) (proj2 (Hmax te e Hte) He)) as Hq.
    unfold require. by rewrite Hp, Hq.
Qed.

(** The mapping check, as its clauses. *)
Lemma validate_mapping_iff r c : validate_report_mapping r c = Ret tt ↔ mapping_ok r c.
Proof.
  unfold validate_report_mapping. cbv zeta. change (match re_attempts r with [] => mret tt | _ => _ end) with (check_span r).
  rewrite !unit_bind, !unique_ret, !check_members, !all_members.
  assert (∀ x, x ∈ required_case_ids c → x ∈ (fi_case_id <$> re_finals r) → (∀ f, f ∈ re_finals r → final_key f ∈ (attempt_key <$> re_attempts r)) → re_attempts r ≠ []) as Hne.
  { intros x _ (f & -> & Hf)%list_elem_of_fmap Ht E. specialize (Ht f Hf). rewrite E in Ht. by apply not_elem_of_nil in Ht. }
  split.
  - intros (H1 & H2 & H3 & H4 & H5 & H6 & H7). apply check_span_iff in H7 as [Hs He]; [|by eapply Hne; [apply required_nonempty|apply H5, required_nonempty|]].
    constructor; try done. intros x. split; auto.
  - intros [H1 H2 H3 H4 H5 Hs He]. split_and!; try done; [intros x; apply H4|intros x; apply H4|].
    apply check_span_iff; [|done]. eapply Hne; [apply required_nonempty|apply H4, required_nonempty|done].
Qed.
(** The mapping check accepts exactly the complete reports.  It returns if and
    only if no attempt is recorded twice and every attempt is of a required case;
    each required case has exactly one final, there are no others, and every final
    is one of the recorded attempts; and the report begins with the earliest and
    ends with the latest attempt. *)
Theorem report_mapping_exact r c : validate_report_mapping r c = Ret tt ↔ mapping_ok r c.
Proof.
  apply validate_mapping_iff.
Qed.
End Mapping.

(** ** A digest stands for its candidate *)
Lemma sorted_fields d1 d2 k : sorted_keys (JObj d1) = sorted_keys (JObj d2) → sorted_keys <$> jget k d1 = sorted_keys <$> jget k d2.
Proof. rewrite !sorted_object. intros [= E]. by rewrite <-!jget_sorted, E. Qed.
(** Equal sorted objects agree on the field [k]; what that says of two records. *)
Ltac agree E keys :=
  let keys := eval hnf in keys in
  lazymatch keys with
  | [] => idtac
  | ?k :: ?keys => let F := fresh "F" in pose proof (sorted_fields _ _ k E) as F; cbn [jget String.eqb Ascii.eqb Bool.eqb] in F; agree E keys
  end.
Lemma sorted_lists {A} (f : A → json) l1 l2 : (∀ x y, sorted_keys (f x) = sorted_keys (f y) → x = y) →
  sorted_keys (JList (map f l1)) = sorted_keys (JList (map f l2)) → l1 = l2.
Proof.
  intros Hf. rewrite !sorted_list. intros [= E]. revert l2 E. induction l1 as [|x l1 IH]; intros [|y l2]; try done.
  cbn. intros [= E1 E2]. f_equal; [by apply Hf|by apply IH].
Qed.
Lemma text_sorted x y : sorted_keys (JStr x) = sorted_keys (JStr y) → x = y.
Proof. by intros [= ->]. Qed.

Lemma artifact_inj a b : sorted_keys (artifact_json a) = sorted_keys (artifact_json b) → a = b.
Proof.
  intros E. unfold artifact_json in E. agree E ARTIFACT_KEYS. destruct a, b. cbn in *. simplify_eq. done.
Qed.
Lemma device_inj a b : sorted_keys (device_json a) = sorted_keys (device_json b) → a = b.
Proof. intros E. unfold device_json in E. agree E DEVICE_KEYS. destruct a, b. cbn in *. simplify_eq. done. Qed.
Lemma stack_inj a b : sorted_keys (stack_json a) = sorted_keys (stack_json b) → a = b.
Proof. intros E. unfold stack_json in E. agree E RUNTIME_STACK_KEYS. destruct a, b. cbn in *. simplify_eq. done. Qed.
Lemma performance_inj a b : sorted_keys (performance_json a) = sorted_keys (performance_json b) → a = b.
Proof. intros E. unfold performance_json, float_json in E. agree E PERFORMANCE_KEYS. destruct a, b. cbn in *. simplify_eq. done. Qed.
Lemma operational_inj a b : sorted_keys (operational_json a) = sorted_keys (operational_json b) → a = b.
Proof. intros E. unfold operational_json, float_json in E. agree E OPERATIONAL_KEYS. destruct a, b. cbn in *. simplify_eq. done. Qed.

(** A field that is itself an object or a list, read through one of the above. *)
Lemma some_inj {A} (a b : A) : Some a = Some b → a = b.
Proof. by intros [= ->]. Qed.
Lemma policy_inj a b : sorted_keys (policy_json a) = sorted_keys (policy_json b) → a = b.
Proof.
  intros E. unfold policy_json in E. agree E POLICY_KEYS. apply some_inj in F, F0.
  apply (sorted_lists _ _ _ performance_inj) in F. apply operational_inj in F0. destruct a, b. cbn in *. congruence.
Qed.
Lemma asset_inj a b : sorted_keys (asset_json a) = sorted_keys (asset_json b) → a = b.
Proof. intros E. unfold asset_json in E. agree E ASSET_KEYS. destruct a, b. cbn in *. simplify_eq. done. Qed.
Lemma envelope_inj a b : sorted_keys (envelope_json a) = sorted_keys (envelope_json b) → a = b.
Proof. intros E. unfold envelope_json in E. agree E ENVELOPE_KEYS. destruct a, b. cbn in *. simplify_eq. done. Qed.
Lemma texts_inj l1 l2 : sorted_keys (JList (map JStr l1)) = sorted_keys (JList (map JStr l2)) → l1 = l2.
Proof. apply sorted_lists. apply text_sorted. Qed.
Lemma runtime_inj a b : sorted_keys (runtime_json a) = sorted_keys (runtime_json b) → a = b.
Proof.
  intros E. unfold runtime_json in E. agree E RUNTIME_KEYS. destruct a, b. cbn -[sorted_keys] in *.
  repeat match goal with F : Some (sorted_keys (JList _)) = _ |- _ => apply some_inj, texts_inj in F end. cbn in *. by simplify_eq.
Qed.
Lemma opt_inj {A} (f : A → json) (a b : option A) : (∀ x, sorted_keys (f x) = f x) → (∀ x y, f x = f y → x = y) → (∀ x, f x ≠ JNull) →
  sorted_keys (opt_json f a) = sorted_keys (opt_json f b) → a = b.
Proof.
  intros Hs Hf Hn. destruct a as [x|], b as [y|]; cbn [opt_json]; rewrite ?Hs; try done; intros E; [f_equal; by apply Hf|by destruct (Hn x)|by destruct (Hn y)].
Qed.
Lemma model_inj a b : sorted_keys (model_json a) = sorted_keys (model_json b) → a = b.
Proof.
  intros E. unfold model_json in E. agree E MODEL_KEYS. destruct a, b. cbn -[sorted_keys] in *.
  repeat match goal with
  | F : Some _ = Some _ |- _ => apply some_inj in F
  | F : sorted_keys (JList (map JStr _)) = _ |- _ => apply texts_inj in F
  | F : sorted_keys (JList (map asset_json _)) = _ |- _ => apply (sorted_lists _ _ _ asset_inj) in F
  | F : sorted_keys (envelope_json _) = _ |- _ => apply envelope_inj in F
  | F : sorted_keys (opt_json _ _) = _ |- _ => apply opt_inj in F; [|done|by intros ?? [=]|done]
  end. cbn in *. by simplify_eq.
Qed.
Lemma candidate_inj a b : sorted_keys (candidate_json a) = sorted_keys (candidate_json b) → a = b.
Proof.
  intros E. unfold candidate_json in E. agree E CANDIDATE_KEYS. destruct a, b. cbn -[sorted_keys] in *.
  repeat match goal with
  | F : Some _ = Some _ |- _ => apply some_inj in F
  | F : sorted_keys (JList (map runtime_json _)) = _ |- _ => apply (sorted_lists _ _ _ runtime_inj) in F
  | F : sorted_keys (JList (map model_json _)) = _ |- _ => apply (sorted_lists _ _ _ model_inj) in F
  | F : sorted_keys (JList (map artifact_json _)) = _ |- _ => apply (sorted_lists _ _ _ artifact_inj) in F
  | F : sorted_keys (device_json _) = _ |- _ => apply device_inj in F
  | F : sorted_keys (stack_json _) = _ |- _ => apply stack_inj in F
  | F : sorted_keys (policy_json _) = _ |- _ => apply policy_inj in F
  end. cbn in *. by simplify_eq.
Qed.

Section Binding.
Context `{FloatTextLaws} `{Digest}.

(** The numbers of a policy are doubles. *)
Definition policy_floats (p : PolicyV3) : list Q :=
  mjoin (map (fun m => [mpp_cold_start_seconds_max m; mpp_infer_milliseconds_p95_max m; mpp_infer_milliseconds_p99_max m; mpp_max_input_milliseconds_max m]) (po_performance p))
  ++ let o := po_operational p in
     [op_arrival_gap_seconds_max o; op_send_deviation_milliseconds_max o; op_error_rate_max o; op_queue_full_rate_max o; op_timeout_rate_max o].
Definition has_floats (c : CandidateV3) : Prop := Forall is_float (policy_floats (ca_policy c)).

Ltac readable_object_of :=
  apply readable_object; [apply (bool_decide_unpack _); vm_compute; exact I|repeat (apply Forall_cons; split; [try exact I|]); try apply Forall_nil; try exact I].
Lemma list_readable {A} (f : A → json) l : (∀ x, x ∈ l → readable (f x)) → readable (JList (map f l)).
Proof. intros Hf. apply readable_list. intros v (x & -> & Hx)%list_elem_of_fmap. by apply Hf. Qed.
Lemma artifact_readable a : readable (artifact_json a).
Proof. readable_object_of. Qed.
Lemma performance_readable p : Forall is_float [mpp_cold_start_seconds_max p; mpp_infer_milliseconds_p95_max p; mpp_infer_milliseconds_p99_max p; mpp_max_input_milliseconds_max p] → readable (performance_json p).
Proof. intros HF. inversion_clear HF as [|? ? F1 HF1]. inversion_clear HF1 as [|? ? F2 HF2]. inversion_clear HF2 as [|? ? F3 HF3]. inversion_clear HF3 as [|? ? F4 _]. readable_object_of; done. Qed.
Lemma candidate_readable c : has_floats c → readable (candidate_json c).
Proof.
  intros Hc. unfold has_floats, policy_floats in Hc. apply Forall_app in Hc as [Hp Ho]. readable_object_of.
  - readable_object_of.
  - readable_object_of.
  - apply list_readable. intros r _. apply runtime_readable.
  - apply list_readable. intros m _. apply model_readable.
  - apply list_readable. intros a _. apply artifact_readable.
  - apply list_readable. intros a _. apply artifact_readable.
  - readable_object_of.
    + apply list_readable. intros p Hin. apply performance_readable. rewrite Forall_forall in Hp. apply Forall_forall. intros q Hq. apply Hp.
      apply list_elem_of_join. eexists. split; [exact Hq|]. apply list_elem_of_fmap. by exists p.
    + cbn [snd]. repeat match goal with HF : Forall _ (_ :: _) |- _ => inversion_clear HF end. readable_object_of; done.
Qed.

Lemma digest_inj b1 b2 h : readable b1 → readable b2 → body_digest b1 = Ret h → body_digest b2 = Ret h →
  (∀ t1 t2, canonical_json_bytes b1 = Ret t1 → canonical_json_bytes b2 = Ret t2 → sha256_hex t1 = sha256_hex t2 → t1 = t2) →
  sorted_keys b1 = sorted_keys b2.
Proof.
  intros R1 R2 (t1 & E1 & <-%mret_ret)%obind_ret (t2 & E2 & [= Eh])%obind_ret Hcoll.
  pose proof (Hcoll t1 t2 E1 E2 (eq_sym Eh)) as ->. pose proof (canonical_parses _ _ R1 E1). pose proof (canonical_parses _ _ R2 E2). congruence.
Qed.

(** A report is bound to one candidate.  If the identity check accepts a report
    for a candidate, then, unless SHA-256 collides on the two canonical texts at
    hand, it accepts it for no other: every field, from the registration and the
    policy to the device facts, is the same. *)
Theorem report_binds_candidate r c c' : has_floats c → has_floats c' →
  validate_report_identity r c = Ret tt → validate_report_identity r c' = Ret tt →
  (∀ t t', canonical_json_bytes (candidate_json c) = Ret t → canonical_json_bytes (candidate_json c') = Ret t' → sha256_hex t = sha256_hex t' → t = t') →
  c = c'.
Proof.
  intros Hf Hf' (h & Eh & (E1%require_ret & _)%unit_bind)%obind_ret (h' & Eh' & (E1'%require_ret & _)%unit_bind)%obind_ret Hcoll.
  apply String.eqb_eq in E1, E1'. subst h h'. eapply candidate_inj, digest_inj; [by apply candidate_readable..|exact Eh|exact Eh'|done].
Qed.
End Binding.

(** ** Reports that cannot exist *)
Lemma mapM_elem {A B} (f : A → outcome B) l k b : mapM f l = Ret k → b ∈ k → ∃ a, a ∈ l ∧ f a = Ret b.
Proof.
  intros HF%mapM_ret (i & Hb)%list_elem_of_lookup. destruct (Forall2_lookup_r _ _ _ _ _ HF Hb) as (a & Ha & E). exists a. split; [by eapply list_elem_of_lookup_2|done].
Qed.
Lemma final_shaped `{IsoTime} v r f : parse_acceptance_report v = Ret r → f ∈ re_finals r → case_id_shape (fi_case_id f) = true.
Proof.
  intros E Hf. unfold parse_acceptance_report in E. inv_parse. case_match. inv_parse. cbn in Hf.
  match goal with Hm : mapM parse_case_final _ = Ret _ |- _ => destruct (mapM_elem _ _ _ _ Hm Hf) as (w & _ & Ew) end.
  unfold parse_case_final, parse_case_id in Ew. inv_parse. done.
Qed.
Lemma short_model_shape a : case_id_shape ("B:" +:+ String a "" +:+ ":load") = false.
Proof. destruct a as [[] [] [] [] [] [] [] []]; vm_compute; reflexivity. Qed.
(** Identifiers may have one character, but the ids of their cases may not: for a
    candidate with such a model no report passes both its parser and the mapping
    check, although the candidate itself is accepted. *)
Lemma short_model_unreportable `{IsoTime} c m a v r : m ∈ ca_models c → v2_model_id m = String a "" →
  parse_acceptance_report v = Ret r → validate_report_mapping r c ≠ Ret tt.
Proof.
  intros Hm Ha Hv Hr. unfold validate_report_mapping in Hr. cbv zeta in Hr. rewrite !unit_bind, !all_members in Hr. destruct Hr as (_ & _ & _ & _ & Hall & _).
  assert ("B:" +:+ String a "" +:+ ":load" ∈ (fi_case_id <$> re_finals r)) as (f & Ef & Hf)%list_elem_of_fmap.
  { apply Hall. unfold required_case_ids. rewrite !elem_of_app. right. right. apply list_elem_of_join. exists (model_cases m). split.
    - unfold model_cases. rewrite Ha. left.
    - apply list_elem_of_fmap. by exists m. }
  pose proof (final_shaped v r f Hv Hf) as Hs. rewrite <-Ef, short_model_shape in Hs. done.
Qed.

(** ** A candidate and its report *)
#[local] Existing Instance thousandths_floats.
#[local] Existing Instance thousandths_laws.
Definition demo_sha : string := concat_text (repeat "0" 64).
#[local] Instance demo_digest_zero : Digest := {| sha256_hex := fun _ => demo_sha; sha256_hex_length := fun _ => eq_refl |}.
(** One second per character, so that a longer text is a later time. *)
#[local] Instance demo_iso : IsoTime := {| fromisoformat := fun s => Some (Z.of_nat (String.length s), Some 0) |}.

Definition demo_device : DeviceFact :=
  {| df_machine_id_sha256 := demo_sha; df_architecture := "aarch64"; df_device_tree_sha256 := demo_sha; df_mem_total_bytes := 1;
     df_os_release := "os"; df_kernel_release := "k"; df_gpu_identity := "g"; df_jetpack_release := "j"; df_container_runtime_version := "d";
     df_power_mode := "p"; df_clock_mode := "c"; df_model_disk_uuid := "u"; df_scratch_disk_uuid := "s" |}.
Definition demo_policy : PolicyV3 :=
  {| po_performance := map (fun m => {| mpp_model_id := v2_model_id m; mpp_cold_start_seconds_max := 1%Q; mpp_infer_milliseconds_p95_max := 1%Q;
                                        mpp_infer_milliseconds_p99_max := 1%Q; mpp_max_input_milliseconds_max := 1%Q |}) (dep_models demo_deployment);
     po_operational := {| op_duration_seconds := 1800; op_arrival_requests := 100; op_arrival_gap_seconds_max := 15%Q; op_send_deviation_milliseconds_max := 1000%Q;
                          op_error_rate_max := (1 # 10)%Q; op_queue_full_rate_max := (1 # 10)%Q; op_timeout_rate_max := 0%Q |} |}.
Definition demo_candidate : CandidateV3 :=
  {| ca_schema_version := 3; ca_deployment_id := "lab"; ca_source_archive_sha256 := demo_sha; ca_config_sha256 := demo_sha; ca_device := demo_device;
     ca_runtime_stack := {| rsf_cuda_version := "12"; rsf_compute_capability := "8"; rsf_python_version := "3" |};
     ca_runtimes := dep_runtimes demo_deployment; ca_models := dep_models demo_deployment; ca_measurement_refs := []; ca_fixture_refs := [];
     ca_policy := demo_policy; ca_collector_sha256 := demo_sha; ca_evaluator_sha256 := demo_sha |}.
Definition demo_attempt (case : string) : CaseAttempt :=
  {| at_case_id := case; at_run_id := "run"; at_attempt := 1; at_candidate_sha256 := demo_sha; at_device_digest := demo_sha; at_started_at := "t";
     at_ended_at := "tt"; at_boot_id := "b"; at_event_refs := []; at_collector_sha256 := demo_sha; at_evaluator_sha256 := demo_sha; at_exit_code := 0 |}.
Definition demo_report : AcceptanceReportV3 :=
  {| re_schema_version := 3; re_candidate_sha256 := demo_sha; re_device_digest := demo_sha; re_run_id := "run"; re_started_at := "t"; re_ended_at := "tt";
     re_attempts := map demo_attempt (required_case_ids demo_candidate);
     re_finals := map (fun x => {| fi_case_id := x; fi_run_id := "run"; fi_attempt := 1 |}) (required_case_ids demo_candidate); re_artifacts := [] |}.

Example demo_candidate_parses : parse_candidate (candidate_json demo_candidate) = Ret demo_candidate.
Proof. vm_compute. reflexivity. Qed.
Lemma demo_floats : has_floats demo_candidate.
Proof.
  assert (policy_floats (ca_policy demo_candidate) = thousandths <$> (repeat 1000 (4 * length (dep_models demo_deployment)) ++ [15000; 1000000; 100; 100; 0])) as Hp by (vm_compute; reflexivity).
  unfold has_floats. rewrite Hp. apply Forall_fmap, Forall_forall. intros n Hn. exists n. split; [reflexivity|].
  revert n Hn. apply Forall_forall. apply (bool_decide_unpack _). vm_compute. exact I.
Qed.
Lemma report_binds_candidate_witness : validate_report_identity demo_report demo_candidate = Ret tt ∧ demo_candidate = demo_candidate.
Proof.
  assert (validate_report_identity demo_report demo_candidate = Ret tt) as Hv by (vm_compute; reflexivity).
  pose proof demo_floats as Hf.
  split; [exact Hv|]. apply (report_binds_candidate demo_report demo_candidate demo_candidate Hf Hf Hv Hv). intros t t' E E' _. congruence.
Defined.
Example demo_mapping : validate_report_mapping demo_report demo_candidate = Ret tt.
Proof. vm_compute. reflexivity. Qed.
