(* ===== verification/Evaluator.v ===== *)
(** * Recomputing the conclusions of a report

    [acceptance/evaluator.py] with the predicates it takes from
    [backend_cases.py], [fixtures.py], [operational_cases.py] and [workload.py].
    The material is a tree of files; the text of a decoded value ([str]) is an
    interface.  A reason is the check it stands for; the evidence a verdict
    quotes (latencies, observed values) decides nothing and is left out.  The
    digits of a load figure are ASCII.  A float that is not finite is one value of
    [json], and no comparison orders or equates it, as for NaN. *)

From S2P Require Import Prelude Text Dict Contracts Registration JsonText Identity Envelopes Observer Control Config Api App Evidence.
From Stdlib Require Import Ascii QArith.
Local Open Scope Z_scope.

(** ** The evidence directory *)
Inductive Entry := NoEntry | Directory | RegularFile (bytes : string) | Link (target : Entry).
(** By the path below the evidence directory, which is the empty path. *)
Definition Tree := string → Entry.
Definition join_path (directory name : string) : string := if String.eqb directory "" then name else directory +:+ "/" +:+ name.
(** [path.parent] *)
Definition parent_path (path : string) : string := join "/" (removelast (path_parts path)).
(** [path.is_file()] and [path.is_dir()] follow links; the bytes of the file. *)
Fixpoint file_bytes (e : Entry) : option string := match e with RegularFile b => Some b | Link t => file_bytes t | _ => None end.
Fixpoint is_directory (e : Entry) : bool := match e with Directory => true | Link t => is_directory t | _ => false end.

(** [read_text(encoding="utf-8")] and [json.loads] *)
Definition read_text (bytes : string) : outcome string := if utf8_valid bytes then Ret bytes else Raise (UnicodeDecodeError "utf-8").
Definition load_case_material (tree : Tree) (directory : string) : outcome (list (string * json)) :=
  match file_bytes (tree (join_path directory "case.json")) with
  | None => Raise (EvaluatorError "case.json is missing")
  | Some bytes =>
      text ← read_text bytes;
      match loads plain_hooks text with
      | Raise (ValueError _) => Raise (EvaluatorError "cannot read case.json")
      | Raise e => Raise e
      | Ret (JObj document) => Ret document
      | Ret _ => Raise (EvaluatorError "the case material must be a JSON object")
      end
  end.
Definition raw_samples (tree : Tree) (directory kind : string) : outcome (list json) :=
  match file_bytes (tree (join_path directory ("samples/" +:+ kind +:+ ".jsonl"))) with
  | None => Ret []
  | Some bytes =>
      text ← read_text bytes;
      mapM (fun line => loads plain_hooks (concat_text (utf8 <$> line)))
           (base.filter (fun line => strip line ≠ []) (split_lines (codepoints text)))
  end.

(** ** Values *)
(** [bool(value)] *)
Definition given (v : option json) : bool := match v with Some v => Observer.py_true v | None => false end.
Definition mapping_of_json (v : option json) : option (list (string * json)) := match v with Some (JObj f) => Some f | _ => None end.
Definition is_true (v : option json) : bool := match v with Some (JBool b) => b | _ => false end.
(** Numbers as [==] and [<] see them, booleans included; [None] inside is NaN. *)
Definition numeric (v : json) : option (option Q) :=
  match v with JBool b => Some (Some (if b then 1 else 0)%Q) | JInt n => Some (Some (inject_Z n)) | JFloat q => Some q | _ => None end.
Definition less (a b : option Q) : bool := match a, b with Some a, Some b => Qlt_bool a b | _, _ => false end.
(** [a == b] *)
Fixpoint py_eq (a b : json) {struct a} : bool :=
  match a, b with
  | JNull, JNull => true
  | JStr s, JStr t => String.eqb s t
  | JList l, JList k =>
      (fix all (l k : list json) := match l, k with [], [] => true | x :: l, y :: k => py_eq x y && all l k | _, _ => false end) l k
  | JObj f, JObj g =>
      Nat.eqb (length f) (length g)
      && (fix all (f : list (string * json)) :=
            match f with [] => true | (key, x) :: f => match jget key g with Some y => py_eq x y && all f | None => false end end) f
  | _, _ => match numeric a, numeric b with Some (Some x), Some (Some y) => Qeq_bool x y | _, _ => false end
  end.
(** [mapping.get(key) == expected], where an absent key is [None] *)
Definition got (v : option json) : json := default JNull v.
Definition equals (seen : option json) (expected : json) : bool := py_eq (got seen) expected.
(** [row.get(key)] of a row that may not be an object *)
Definition row_get (row : json) (key : string) : outcome (option json) :=
  match row with JObj f => Ret (jget key f) | _ => Raise (AttributeError "get") end.
(** [str(value or "").strip()] is not empty. *)
Definition speaks (py_str : json → string) (v : option json) : bool :=
  match v with Some v => Observer.py_true v && negb (bool_decide (strip (codepoints (py_str v)) = [])) | None => false end.

(** ** Verdicts *)
Record CaseVerdict := { cv_case_id : string; cv_passed : bool; cv_reasons : list string }.
Definition verdict_of (case : string) (reasons : list string) : CaseVerdict :=
  {| cv_case_id := case; cv_passed := bool_decide (reasons = []); cv_reasons := reasons |}.
Definition require_or (ok : bool) (e : exn) : outcome unit := if ok then Ret tt else Raise e.
Definition unless (ok : bool) (reason : string) : list string := if ok then [] else [reason].

(** ** Device activity *)
(** [GR3D_FREQ\s+(\d+)%] at the start of a text *)
Fixpoint spaces (l : list Z) : list Z := match l with c :: l' => if is_space c then spaces l' else l | [] => [] end.
Fixpoint take_digits (l : list Z) : list Z * list Z :=
  match l with
  | c :: l' => if (48 <=? c) && (c <=? 57) then let (ds, r) := take_digits l' in (c - 48 :: ds, r) else ([], l)
  | [] => ([], [])
  end.
Definition GR3D : list Z := codepoints "GR3D_FREQ".
Definition gr3d_here (l : list Z) : option Z :=
  if bool_decide (take (length GR3D) l = GR3D) then
    let rest := drop (length GR3D) l in
    let after := spaces rest in
    if bool_decide (length after = length rest) then None
    else match take_digits after with
         | (d :: ds, 37 :: _) => Some (number_of (d :: ds))
         | _ => None
         end
  else None.
Fixpoint gr3d_search (l : list Z) : option Z :=
  match gr3d_here l with
  | Some n => Some n
  | None => match l with [] => None | _ :: l' => gr3d_search l' end
  end.
Definition CUDA_LIBRARY_MARKERS : list string := ["libcuda.so"; "libcudart.so"; "libcublas"].
Fixpoint contains (word : list ascii) (l : list ascii) : bool :=
  bool_decide (take (length word) l = word) || match l with [] => false | _ :: l' => contains word l' end.
Definition raw_text (py_str : json → string) (row : json) : outcome string :=
  v ← row_get row "raw"; Ret (match v with None => "" | Some (JStr s) => s | Some v => py_str v end).
Definition gr3d_peak (texts : list string) : option Z :=
  foldl (fun peak t => match gr3d_search (codepoints t) with Some n => Some (Z.max (default 0 peak) n) | None => peak end) None texts.
(** [any(any(marker in text ...) for row in rows)] stops at the first row that has one. *)
Fixpoint cuda_mapped (py_str : json → string) (rows : list json) : outcome bool :=
  match rows with
  | [] => Ret false
  | row :: rows =>
      t ← raw_text py_str row;
      if existsb (fun m => contains (chars m) (chars t)) CUDA_LIBRARY_MARKERS then Ret true else cuda_mapped py_str rows
  end.
Record Attribution := { att_peak : option Z; att_mapped : bool; att_tegrastats : nat; att_proc_maps : nat }.
Definition recompute_device_attribution (py_str : json → string) (tree : Tree) (directory : string) : outcome Attribution :=
  tegrastats ← raw_samples tree directory "tegrastats";
  proc_maps ← raw_samples tree directory "proc_maps";
  texts ← mapM (raw_text py_str) tegrastats;
  mapped ← cuda_mapped py_str proc_maps;
  Ret {| att_peak := gr3d_peak texts; att_mapped := mapped;
         att_tegrastats := length tegrastats; att_proc_maps := length proc_maps |}.
Definition attribution_json (a : Attribution) : json :=
  JObj [("gr3d_peak_pct", match att_peak a with Some n => JInt n | None => JNull end); ("cuda_library_mapped", JBool (att_mapped a));
        ("raw_samples", JObj [("tegrastats", JInt (Z.of_nat (att_tegrastats a))); ("proc_maps", JInt (Z.of_nat (att_proc_maps a)))])].

(** ** Backend cases *)
Definition INFERENCE_KINDS : list string := ["infer"; "envelope"; "capability"].
Definition attribution_problems (kind : string) (facts : list (string * json)) : list string :=
  unless (given (jget "provider" facts)) "no provider"
  ++ (if bool_decide (kind ∈ INFERENCE_KINDS) then
        unless (match mapping_of_json (jget "device_activity" facts) with Some a => given (jget "raw_samples" a) | None => false end) "no attributable device activity"
        ++ unless (match mapping_of_json (jget "output" facts) with Some (_ :: _) => true | _ => false end) "no real output"
      else [])
  ++ unless (negb (String.eqb kind "load") || bool_decide (is_Some (mapping_of_json (jget "instance" facts)))) "no instance"
  ++ unless (negb (String.eqb kind "stop") || is_true (jget "stop_proven" facts)) "stop not proven"
  ++ unless (negb (String.eqb kind "cancel") || is_true (jget "cancelled" facts)) "cancel not proven".

Fixpoint chat_content_of (choices : list json) : string :=
  match choices with
  | [] => ""
  | JObj entry :: choices =>
      match match mapping_of_json (jget "message" entry) with Some m => jget "content" m | None => jget "text" entry end with
      | Some (JStr s) => if String.eqb s "" then chat_content_of choices else s
      | _ => chat_content_of choices
      end
  | _ :: choices => chat_content_of choices
  end.
Definition chat_content (output : list (string * json)) : string := match jget "choices" output with Some (JList l) => chat_content_of l | _ => "" end.
Fixpoint vectors_of (rows : list json) : option (list (list json)) :=
  match rows with
  | [] => Some []
  | JObj row :: rows => match jget "embedding" row with Some (JList v) => rest ← vectors_of rows; Some (v :: rest) | _ => None end
  | _ :: _ => None
  end.
Definition output_vectors (output : list (string * json)) : list (list json) :=
  match jget "data" output with Some (JList rows) => default [] (vectors_of rows) | _ => [] end.
(** [isinstance(value, bool) or not isinstance(value, (int, float)) or not math.isfinite(value)], up to the first *)
Fixpoint all_finite_values (l : list json) : outcome bool :=
  match l with [] => Ret true | v :: l => q ← finite_value v; match q with Some _ => all_finite_values l | None => Ret false end end.
Fixpoint vectors_finite (l : list (list json)) : outcome bool :=
  match l with [] => Ret true | v :: l => ok ← all_finite_values v; if (ok : bool) then vectors_finite l else Ret false end.
Fixpoint scores_finite (l : list json) : outcome bool :=
  match l with
  | [] => Ret true
  | entry :: l =>
      match entry with
      | JObj e => match jget "relevance_score" e with
                  | Some v => q ← finite_value v; match q with Some _ => scores_finite l | None => Ret false end
                  | None => Ret false
                  end
      | _ => Ret false
      end
  end.
Definition capability_output_problems (capability : string) (output : list (string * json)) : outcome (list string) :=
  if String.eqb capability "chat" || String.eqb capability "vision" then
    Ret (unless (negb (bool_decide (strip (codepoints (chat_content output)) = []))) "no non-empty content")
  else if String.eqb capability "embeddings" then
    match output_vectors output with
    | [] => Ret ["no vectors"]
    | v :: vs =>
        if bool_decide (length v = 0%nat) || negb (forallb (fun w => bool_decide (length w = length v)) vs) then Ret ["dimensions"]
        else ok ← vectors_finite (v :: vs); Ret (unless ok "non-finite")
    end
  else if String.eqb capability "rerank" then
    match jget "results" output with
    | Some (JList ((_ :: _) as results)) => ok ← scores_finite results; Ret (unless ok "non-finite score")
    | _ => Ret ["no results"]
    end
  else Ret ["not an acceptance capability"].

(** [boundary_shortfalls]: the comparison raises for a declared value that is no number. *)
Fixpoint boundary_shortfalls (observed boundary : list (string * json)) : outcome (list string) :=
  match boundary with
  | [] => Ret []
  | (dimension, declared) :: boundary =>
      short ← match jget dimension observed with
              | Some ((JInt _ | JFloat _) as seen) =>
                  match numeric seen, numeric declared with
                  | Some s, Some d => Ret (less s d)
                  | _, _ => Raise (TypeError "'<' not supported")
                  end
              | _ => Ret true
              end;
      rest ← boundary_shortfalls observed boundary;
      Ret (if (short : bool) then dimension :: rest else rest)
  end.

Fixpoint find_last {A} (p : A → bool) (l : list A) : option A :=
  match l with [] => None | x :: l => match find_last p l with Some y => Some y | None => if p x then Some x else None end end.

Section Evaluator.
Context (py_str : json → string) `{FloatText} (tree : Tree).

Definition fixture_boundary (material : list (string * json)) : option (list (string * json)) :=
  fixture ← mapping_of_json (jget "fixture" material); mapping_of_json (jget "boundary" fixture).
Definition evaluate_backend (case : string) (material : list (string * json)) (directory : string) : outcome CaseVerdict :=
  let parts := split_colon [] (chars case) in
  part ← of_option (IndexError "list index out of range") (parts !! 2%nat);
  let kind := if String.eqb part "cap" then "capability" else part in
  capability ← of_option (IndexError "list index out of range") (if String.eqb kind "capability" then option_map Some (parts !! 3%nat) else Some None);
  a ← recompute_device_attribution py_str tree directory;
  let facts := assoc_set "device_activity" (attribution_json a) material in
  let base :=
    unless (negb (Nat.eqb (att_tegrastats a) 0 && Nat.eqb (att_proc_maps a) 0)) "no raw device samples"
    ++ unless (negb (bool_decide (kind ∈ INFERENCE_KINDS) && bool_decide (att_peak a = None) && negb (att_mapped a))) "no attributable device activity"
    ++ unless (negb (given (jget "failure" material))) "the attempt recorded a failure"
    ++ attribution_problems kind facts in
  boundary ← (if String.eqb kind "envelope" then
                match fixture_boundary material with
                | None => Ret ["fixture boundary"]
                | Some b => boundary_shortfalls (default [] (mapping_of_json (jget "observed" material))) b
                end
              else Ret []);
  output ← match capability with
           | None => Ret []
           | Some c => match mapping_of_json (jget "output" material) with
                       | Some o => capability_output_problems c o
                       | None => Ret ["no real output"]
                       end
           end;
  Ret (verdict_of case (base ++ boundary ++ output)).

(** ** Software cases *)
Definition S_CASE_OBSERVATIONS (case : string) : option (list string) :=
  assoc case
    [("S01", ["runtime_registered"; "strict_schema_enforced"; "legacy_config_migrated"; "no_business_coupling"]);
     ("S02", ["load_failure_recorded"; "late_load_rejected"; "old_boot_rejected"; "stop_returned_instance_alive_recorded"; "unknown_keeps_budget"]);
     ("S03", ["boundary_equality_holds"; "boundary_one_byte_rejected"; "sample_freshness_enforced"; "no_double_counting"]);
     ("S04", ["interactive_priority_holds"; "drain_keeps_lease"; "ttl_enforced"; "hard_deadline_enforced"; "cancel_observed"; "idempotency_enforced"]);
     ("S05", ["compat_api_accepts"; "blob_owner_enforced"; "blob_hash_enforced"; "quota_enforced"; "expiry_enforced"; "restart_discovery_works";
              "late_output_rejected"]);
     ("S06", ["tampered_candidate_rejected"; "tampered_evidence_rejected"; "tampered_asset_rejected"; "tampered_device_rejected";
              "duplicate_final_rejected"; "forged_summary_rejected"])].
Record S03Numbers := { s3_peak : Z; s3_budget : Z; s3_available : Z; s3_floor : Z; s3_committed : Z; s3_reserved : bool }.
Definition int_of (v : option json) : option Z := match v with Some (JInt n) => Some n | _ => None end.
Definition s03_numbers (numbers : list (string * json)) : option S03Numbers :=
  peak ← int_of (jget "measured_peak_bytes" numbers); budget ← int_of (jget "model_budget_bytes" numbers);
  available ← int_of (jget "mem_available_bytes" numbers); floor ← int_of (jget "free_floor_bytes" numbers);
  committed ← int_of (jget "committed_bytes" numbers);
  reserved ← match jget "instance_already_reserved" numbers with Some (JBool b) => Some b | _ => None end;
  Some {| s3_peak := peak; s3_budget := budget; s3_available := available; s3_floor := floor; s3_committed := committed; s3_reserved := reserved |}.
(** The bytes the sample would newly reserve. *)
Definition s03_new (n : S03Numbers) : Z := if s3_reserved n then 0 else (s3_peak n * 115 + 99) / 100.
Definition s03_problems (n : S03Numbers) : list string :=
  let new := s03_new n in
  (if s3_committed n + new <=? s3_budget n then
     unless (s3_available n =? new + s3_floor n) "not exactly on the boundary"
     ++ unless ((s3_committed n + new <=? s3_budget n) && (new + s3_floor n <=? s3_available n)) "the boundary sample must be admissible"
   else ["never on the budget boundary"])
  ++ unless (negb (new + s3_floor n <=? s3_available n - 1)) "one byte less was still admissible".
Definition recompute_s03 (material : list (string * json)) : list string :=
  match mapping_of_json (jget "numbers" material) with
  | None => ["S03: the raw memory numbers are missing"]
  | Some numbers => match s03_numbers numbers with None => ["S03: missing or not integers"] | Some n => s03_problems n end
  end.
Definition evaluate_software (case : string) (material : list (string * json)) : outcome CaseVerdict :=
  match S_CASE_OBSERVATIONS case with
  | None => Ret (verdict_of case ["no recomputation rule"])
  | Some required =>
      let reasons :=
        match mapping_of_json (jget "observations" material) with
        | None => ["no observations"]
        | Some o =>
            unless (forallb (fun name => bool_decide (is_Some (jget name o))) required) "missing observations"
            ++ base.filter (fun name => bool_decide (is_Some (jget name o)) && negb (is_true (jget name o)) = true) required
        end in
      (* [(observations or {}).keys()] of the verdict's evidence *)
      _ ← match jget "observations" material with
          | Some (JObj _) | None => Ret tt
          | Some v => if Observer.py_true v then Raise (AttributeError "keys") else Ret tt
          end;
      Ret (verdict_of case (reasons ++ if String.eqb case "S03" then recompute_s03 material else []))
  end.

(** ** Operational cases *)
(** [_dotted(facts, "a.b")] *)
Definition dotted (facts : list (string * json)) (a b : string) : option json := inner ← mapping_of_json (jget a facts); jget b inner.
Definition O_REQUIREMENTS (case : string) : option (list (string * string * json)) :=
  assoc case
    [("O02", [("isolation", "private_mount_namespace", JBool true); ("model_disk", "model_disk_unavailable", JBool true);
              ("model_disk", "root_disk_writes", JInt 0); ("scratch", "dedicated_quota_fs", JBool true); ("scratch", "scratch_full", JBool true);
              ("scratch", "root_disk_writes", JInt 0); ("recovery", "recovered", JBool true); ("recovery", "rehashed", JBool true)]);
     ("O03", [("docker_unreachable", "health_status", JInt 503); ("docker_unreachable", "budget_kept", JBool true);
              ("docker_unreachable", "other_containers_untouched", JBool true); ("unknown_instance", "unknown_recorded", JBool true);
              ("unknown_instance", "health_status", JInt 503); ("unknown_instance", "other_containers_untouched", JBool true);
              ("stop_timeout", "stop_timeout_recorded", JBool true); ("stop_timeout", "budget_kept", JBool true);
              ("stop_timeout", "health_status", JInt 503)]);
     ("O04", [("restart", "restarted", JBool true); ("restart", "residual_instances_cleaned", JBool true); ("restart", "inference_replay", JBool false);
              ("old_token", "accepted", JBool false); ("admission", "admitted", JBool true)]);
     ("O06", [("shutdown", "graceful", JBool true); ("shutdown", "exit_code", JInt 0); ("logs", "capacity_ok", JBool true);
              ("logs", "redaction_ok", JBool true); ("restore", "restored", JBool true); ("rollback", "applied", JBool true);
              ("rollback_refused", "applied", JBool false)])].
Definition is_false (v : option json) : bool := match v with Some (JBool b) => negb b | _ => false end.
Definition tampered_problems (entry : json) : list string :=
  match match entry with JObj e => mapping_of_json (jget "facts" e) | _ => None end with
  | None => ["not rejected"]
  | Some result =>
      if negb (is_false (jget "accepted" result)) then ["not rejected"]
      else unless (speaks py_str (jget "reason" result)) "rejected without a reason"
           ++ unless (negb (is_true (jget "loaded" result))) "reached the load step"
  end.
Definition o05_objections (facts : list (string * json)) : list string :=
  let correct := mapping_of_json (jget "correct" facts) in
  unless (match correct with Some c => is_true (jget "accepted" c) | None => false end) "not accepted"
  ++ unless (match correct with Some c => negb (is_true (jget "production_gate" c)) | None => true end) "the production gate was invoked"
  ++ match jget "tampered" facts with
     | Some (JList ((_ :: _) as l)) => mjoin (map tampered_problems l)
     | _ => ["no tamper scenario"]
     end.
Definition o06_objections (facts : list (string * json)) : list string :=
  let digest := dotted facts "backup" "snapshot_sha256" in
  unless (match digest with Some (JStr s) => SHA256_RE s | _ => false end) "snapshot digest"
  ++ unless (py_eq (got (dotted facts "restore" "snapshot_sha256")) (got digest)) "restored digest"
  ++ unless (speaks py_str (dotted facts "rollback_refused" "reason")) "the refused rollback carries no reason".
Definition recompute_objections (case : string) (facts : list (string * json)) : list string :=
  if String.eqb case "O05" then o05_objections facts
  else match O_REQUIREMENTS case with
       | None => ["no recomputation rule"]
       | Some requirements =>
           mjoin (map (fun '(a, b, expected) => unless (equals (dotted facts a b) expected) (a +:+ "." +:+ b)) requirements)
           ++ (if String.eqb case "O02" then unless (negb (is_true (dotted facts "isolation" "unmounted_shared_disk"))) "a machine-wide disk was unmounted" else [])
           ++ (if String.eqb case "O04" then
                 unless (negb (given (jget "residual_after_restart" facts))) "instances survived the restart"
                 ++ unless (speaks py_str (dotted facts "old_token" "reason")) "refused without a reason"
               else [])
           ++ (if String.eqb case "O06" then o06_objections facts else [])
       end.

(** ** The workload *)
Definition ZERO_TOLERANCE_STATE : list string :=
  ["oom"; "unexpected_500"; "unsafe_evictions"; "residual"; "queue_depth"; "leases"; "sessions"; "instances_running"].
Definition SENT_REQUIRED : list string :=
  ["index"; "model_id"; "capability"; "planned_offset_seconds"; "sent_offset_seconds"; "deviation_milliseconds"; "outcome"; "status_code";
   "queue_seconds"; "load_seconds"; "execute_seconds"].
(** The fields of a row that are read; the others must only be there. *)
Record SentRequest := {
  sr_model_id : json; sr_deviation_milliseconds : json; sr_outcome : json; sr_queue_seconds : json; sr_load_seconds : json; sr_execute_seconds : json;
}.
(** [SentRequest] of the known fields of [row.get("raw", {})] *)
Definition sent_request (row : json) : outcome SentRequest :=
  raw ← row_get row "raw";
  fields ← match raw with None => Ret [] | Some (JObj f) => Ret f | Some _ => Raise (AttributeError "items") end;
  if forallb (fun k => bool_decide (is_Some (jget k fields))) SENT_REQUIRED then
    let f k := got (jget k fields) in
    Ret {| sr_model_id := f "model_id"; sr_deviation_milliseconds := f "deviation_milliseconds"; sr_outcome := f "outcome";
           sr_queue_seconds := f "queue_seconds"; sr_load_seconds := f "load_seconds"; sr_execute_seconds := f "execute_seconds" |}
  else Raise (TypeError "missing required arguments").

(** Python's numeric tower: integers stay exact until a float joins them. *)
Inductive number := NInt (n : Z) | NFloat (q : option Q).
Definition number_of_json (v : json) : outcome number :=
  match v with
  | JBool b => Ret (NInt (if b then 1 else 0))
  | JInt n => Ret (NInt n)
  | JFloat q => Ret (NFloat q)
  | _ => Raise (TypeError "unsupported operand")
  end.
Definition as_float (n : number) : outcome (option Q) := match n with NInt n => q ← float_of_int n; Ret (Some q) | NFloat q => Ret q end.
Definition add_numbers (a b : number) : outcome number :=
  match a, b with
  | NInt x, NInt y => Ret (NInt (x + y))
  | _, _ => x ← as_float a; y ← as_float b; Ret (NFloat (x ← x; y ← y; Some (x + y)%Q))
  end.
Fixpoint sum_numbers (acc : number) (l : list json) : outcome number :=
  match l with [] => Ret acc | v :: l => n ← number_of_json v; acc ← add_numbers acc n; sum_numbers acc l end.
Definition has_outcome (o : string) (r : SentRequest) : bool := match sr_outcome r with JStr s => String.eqb s o | _ => false end.
Definition is_null (v : json) : bool := match v with JNull => true | _ => false end.
(** [None] when the request has no latency; a float that is not finite is [Some None]. *)
Definition total_seconds (r : SentRequest) : outcome (option (option Q)) :=
  let parts := [sr_queue_seconds r; sr_load_seconds r; sr_execute_seconds r] in
  if negb (has_outcome "ok" r) || existsb is_null parts then Ret None
  else n ← sum_numbers (NInt 0) parts; q ← as_float n; Ret (Some q).

(** [max(values)]: the first of the values that no later one exceeds. *)
Definition max_value (v : json) (l : list json) : json :=
  foldl (fun m v => if less (default None (numeric m)) (default None (numeric v)) then v else m) v l.
Definition all_numeric (l : list json) : bool := forallb (fun v => bool_decide (is_Some (numeric v))) l.
Definition deviation_problems (sent : list SentRequest) : outcome (list string) :=
  match sr_deviation_milliseconds <$> sent with
  | [] => Ret []
  | v :: l =>
      _ ← require_or (all_numeric (v :: l)) (TypeError "'>' not supported");
      let m := max_value v l in
      if less (Some MAX_SEND_DEVIATION_MILLISECONDS) (default None (numeric m)) then _ ← finite_value m; Ret ["send deviation"] else Ret []
  end.

(** The latencies of a run decide nothing; reading them can raise: a part that is
    no number, a model id that is no key, keys that cannot be sorted. *)
Definition latency_keys (sent : list SentRequest) : outcome (list json) :=
  timed ← mapM (fun r => t ← total_seconds r; Ret (sr_model_id r, t)) sent;
  Ret (map fst (base.filter (fun x => is_Some (snd x)) timed)).
Definition distinct_keys (l : list json) : list json := foldl (fun ks k => if existsb (py_eq k) ks then ks else ks ++ [k]) [] l.
Definition is_text (v : json) : bool := match v with JStr _ => true | _ => false end.
Definition check_latencies (sent : list SentRequest) : outcome unit :=
  keys ← latency_keys sent;
  _ ← require_or (forallb hashable keys) (TypeError "unhashable type");
  let keys := distinct_keys keys in
  require_or (Nat.leb (length keys) 1 || forallb is_text keys || all_numeric keys) (TypeError "'<' not supported").

Definition count_outcome (sent : list SentRequest) (o : string) : Z := Z.of_nat (length (base.filter (fun r => has_outcome o r = true) sent)).
Definition ratio (count total : Z) : Q := if total =? 0 then 0%Q else (inject_Z count / inject_Z total)%Q.
(** [float(value)] *)
Definition py_float (v : json) : outcome (option Q) :=
  match v with
  | JStr s => of_option (ValueError "could not convert string to float") (read_float s)
  | JNull | JList _ | JObj _ => Raise (TypeError "float()")
  | v => n ← number_of_json v; as_float n
  end.
Definition declared_rate (policy : list (string * json)) (name : string) (cap : Q) : outcome (option Q) :=
  match jget name policy with Some v => py_float v | None => Ret (Some cap) end.
Definition rate_problems (sent : list SentRequest) (policy : option (list (string * json))) : outcome (list string) :=
  let total := Z.of_nat (length sent) in
  let n := count_outcome sent in
  '(looser, full, timeouts, errors) ←
    match policy with
    | None => Ret ([], Some MAX_QUEUE_FULL_RATE, Some MAX_TIMEOUT_RATE, Some MAX_ERROR_RATE)
    | Some policy =>
        full ← declared_rate policy "queue_full_rate_max" MAX_QUEUE_FULL_RATE;
        timeouts ← declared_rate policy "timeout_rate_max" MAX_TIMEOUT_RATE;
        errors ← declared_rate policy "error_rate_max" MAX_ERROR_RATE;
        Ret (unless (negb (less (Some MAX_QUEUE_FULL_RATE) full)) "looser queue_full_rate_max"
             ++ unless (negb (less (Some MAX_TIMEOUT_RATE) timeouts)) "looser timeout_rate_max"
             ++ unless (negb (less (Some MAX_ERROR_RATE) errors)) "looser error_rate_max", full, timeouts, errors)
    end;
  Ret (looser
       ++ unless (negb (less errors (Some (ratio (n "server_error" + n "error" + n "oom") total)))) "error_rate"
       ++ unless (negb (less full (Some (ratio (n "queue_full") total)))) "queue_full_rate"
       ++ unless (negb (less timeouts (Some (ratio (n "timeout") total)))) "timeout_rate").
Definition state_problems (final_state : list (string * json)) : list string :=
  mjoin (map (fun key => match jget key final_state with
                         | None | Some JNull => [key +:+ " is not reported"]
                         | Some v => unless (negb (Observer.py_true v)) (key +:+ " must be 0")
                         end) ZERO_TOLERANCE_STATE).
(** The problems of [evaluate_workload]: the run passed if there are none. *)
Definition evaluate_workload (sent : list SentRequest) (final_state : list (string * json)) (policy : option (list (string * json))) : outcome (list string) :=
  deviations ← deviation_problems sent;
  _ ← check_latencies sent;
  rates ← rate_problems sent policy;
  Ret (deviations ++ rates ++ state_problems final_state).

Definition evaluate_operational (case : string) (material : list (string * json)) (directory : string) : outcome CaseVerdict :=
  if String.eqb case "O01" then
    rows ← raw_samples tree directory "workload";
    match rows with
    | [] => Ret (verdict_of case ["no raw workload rows"])
    | _ =>
        sent ← mapM sent_request rows;
        match mapping_of_json (jget "policy" material), mapping_of_json (jget "final_state" material) with
        | Some policy, Some final_state => problems ← evaluate_workload sent final_state (Some policy); Ret (verdict_of case problems)
        | _, _ => Ret (verdict_of case ["the policy or end state is missing"])
        end
    end
  else
    let facts := default material (mapping_of_json (jget "observations" material)) in
    Ret (verdict_of case (recompute_objections case facts)).

(** ** One case, and the report *)
Definition evaluate_case (case directory : string) : outcome CaseVerdict :=
  material ← load_case_material tree directory;
  if match jget "case_id" material with Some (JStr recorded) => negb (String.eqb recorded case) | _ => false end
  then Ret (verdict_of case ["the material belongs to another case"])
  else if String.prefix "B:" case then evaluate_backend case material directory
  else if bool_decide (case ∈ ["passed"; "failed"; "unknown"; "not_run"]) || bool_decide (case ∈ OPERATIONAL_CASES)
  then evaluate_operational case material directory
  else evaluate_software case material.

Definition material_directory (a : CaseAttempt) : outcome string :=
  match at_event_refs a with
  | [] => Raise (EvaluatorError "the attempt carries no material references")
  | reference :: _ =>
      let base := ar_relative_path reference in
      let directory := if is_directory (tree base) then base else parent_path base in
      if is_directory (tree directory) then Ret directory else Raise (EvaluatorError "not present")
  end.
Definition evaluate_final (a : CaseAttempt) (case : string) : outcome CaseVerdict :=
  if negb (at_exit_code a =? 0) then Ret (verdict_of case ["the attempt exited with an error"])
  else directory ← material_directory a;
       match evaluate_case case directory with
       | Raise (EvaluatorError reason) => Ret (verdict_of case [reason])
       | result => result
       end.
(** The attempt of a key, the last of equal keys. *)
Definition attempt_of (r : AcceptanceReportV3) (f : CaseFinal) : option CaseAttempt :=
  find_last (fun a => bool_decide (attempt_key a = final_key f)) (re_attempts r).
Fixpoint evaluate_finals (r : AcceptanceReportV3) (verdicts : list (string * CaseVerdict)) (l : list CaseFinal) : outcome (list (string * CaseVerdict)) :=
  match l with
  | [] => Ret verdicts
  | f :: l =>
      a ← of_option (KeyError (fi_case_id f)) (attempt_of r f);
      v ← evaluate_final a (fi_case_id f);
      evaluate_finals r (assoc_set (fi_case_id f) v verdicts) l
  end.
Definition evaluate_report (r : AcceptanceReportV3) : outcome (list (string * CaseVerdict)) := evaluate_finals r [] (re_finals r).
End Evaluator.

(** ** Lists of problems *)
Lemma unless_nil b m : unless b m = [] ↔ b = true.
Proof. by destruct b. Qed.
Lemma join_nil {A B} (f : A → list B) l : mjoin (map f l) = [] ↔ ∀ x, x ∈ l → f x = [].
Proof.
  induction l as [|x l IH]; cbn; [split; [by intros _ x ?%not_elem_of_nil|done]|]. rewrite app_nil, IH. split.
  - intros [Hx Hl] y [->|Hy]%elem_of_cons; auto.
  - intros Hall. split; [apply Hall; left|intros y Hy; apply Hall; by right].
Qed.
