(* ===== verification/Verify.v ===== *)
(** * Offline verification

    [acceptance/verify.py]: the evidence directory is checked byte for byte, bound
    to the candidate, dated, and every conclusion is recomputed.  The directory is
    a [Tree], the candidate a file of its own; [now] is in microseconds. *)

From S2P Require Import Prelude Text Dict Contracts Registration JsonText JsonTextProps Identity Requests Config RegistrationProps RegistrationText Envelopes Observer Control Api App LaunchProps ObserverProps Evidence Evaluator.
From Stdlib Require Import Ascii QArith.
Local Open Scope Z_scope.

Definition EXIT_OK : Z := 0.
Definition EXIT_INPUT : Z := 2.
Definition EXIT_FAILED : Z := 3.
Definition MICROSECONDS : Z := 1000000.

(** [str.replace("Z", "+00:00")] *)
Definition zulu (s : string) : string := concat_text (map (fun c => if code c =? 90 then "+00:00" else String c "") (chars s)).
Definition utc `{IsoTime} (text : string) : outcome Z :=
  match fromisoformat (zulu text) with
  | None => Raise (VerifyError "not a valid timestamp" EXIT_INPUT)
  | Some (_, None) => Raise (VerifyError "the timestamp must carry a UTC offset" EXIT_INPUT)
  | Some (t, Some offset) => Ret (t - offset)
  end.

Definition read_json (e : Entry) : outcome json :=
  match file_bytes e with
  | None => Raise (VerifyError "cannot be read" EXIT_INPUT)
  | Some bytes =>
      text ← read_text bytes;
      match loads plain_hooks text with
      | Raise (ValueError _) => Raise (VerifyError "cannot be read" EXIT_INPUT)
      | Raise e => Raise e
      | Ret (JObj document) => Ret (JObj document)
      | Ret _ => Raise (VerifyError "must be a JSON object" EXIT_INPUT)
      end
  end.
(** [except ContractError as exc: raise VerifyError(..., exit_code=EXIT_INPUT)] *)
Definition contract {A} (m : outcome A) : outcome A := match m with Raise (ContractError msg) => Raise (VerifyError msg EXIT_INPUT) | m => m end.
Definition load_candidate (e : Entry) : outcome CandidateV3 := document ← read_json e; contract (parse_candidate document).
Definition load_report `{IsoTime} (tree : Tree) : outcome AcceptanceReportV3 := document ← read_json (tree "report.json"); contract (parse_acceptance_report document).

Section Verify.
Context (py_str : json → string) `{FloatText} `{Digest} `{IsoTime}.

Definition verify_artifact (tree : Tree) (reference : ArtifactRef) : outcome unit :=
  match tree (ar_relative_path reference) with
  | Link _ => Raise (VerifyError "is a symlink" EXIT_INPUT)
  | RegularFile bytes =>
      if negb (Z.of_nat (String.length bytes) =? ar_size_bytes reference) then Raise (VerifyError "size differs from the manifest" EXIT_INPUT)
      else if negb (String.eqb (sha256_hex bytes) (ar_sha256 reference)) then Raise (VerifyError "hash differs from the manifest" EXIT_INPUT)
      else Ret tt
  | _ => Raise (VerifyError "is missing" EXIT_INPUT)
  end.
Definition verify_artifacts (tree : Tree) (references : list ArtifactRef) : outcome unit := check_each references (verify_artifact tree).

(** The documents [verify_evidence] answers with. *)
Inductive Verification :=
| NotVerified (error : string)
| Unproven (problems : list string) (cases : list (string * CaseVerdict))
| Verified (candidate_sha256 device_digest run_id : string) (cases : list (string * CaseVerdict)).

Definition load_evidence (candidate : Entry) (tree : Tree) : outcome (CandidateV3 * AcceptanceReportV3) :=
  c ← load_candidate candidate; r ← load_report tree;
  _ ← verify_artifacts tree (re_artifacts r);
  _ ← verify_artifacts tree (mjoin (map at_event_refs (re_attempts r)));
  Ret (c, r).
Definition attempt_problems (c : CandidateV3) (digest device : string) (a : CaseAttempt) : list string :=
  unless (String.eqb (at_candidate_sha256 a) digest) "bound to another candidate"
  ++ unless (String.eqb (at_device_digest a) device) "bound to another device"
  ++ unless (String.eqb (at_collector_sha256 a) (ca_collector_sha256 c)) "the collector hash does not match"
  ++ unless (String.eqb (at_evaluator_sha256 a) (ca_evaluator_sha256 c)) "the evaluator hash does not match".
Definition window_problems (now started : Z) : list string :=
  unless (negb (now + REPORT_FUTURE_TOLERANCE_SECONDS * MICROSECONDS <? started)) "starts in the future"
  ++ unless (negb (REPORT_VALIDITY_SECONDS * MICROSECONDS <=? now - started)) "expired".
Definition conclude (c : CandidateV3) (r : AcceptanceReportV3) (tree : Tree) (now : Z) : outcome (Z * Verification) :=
  digest ← candidate_digest c; device ← device_digest (ca_device c);
  started ← utc (re_started_at r);
  cases ← evaluate_report py_str tree r;
  let problems :=
    mjoin (map (attempt_problems c digest device) (re_attempts r)) ++ window_problems now started
    ++ mjoin (map (fun x => unless (cv_passed (snd x)) (fst x)) cases) in
  if bool_decide (problems = []) then Ret (EXIT_OK, Verified digest device (re_run_id r) cases)
  else Ret (EXIT_FAILED, Unproven problems cases).
Definition verify_evidence (candidate : Entry) (tree : Tree) (now : Z) : outcome (Z * Verification) :=
  match load_evidence candidate tree with
  | Raise (VerifyError msg code) => Ret (code, NotVerified msg)
  | Raise e => Raise e
  | Ret (c, r) =>
      match validate_report_identity r c with
      | Raise (ContractError msg) => Ret (EXIT_FAILED, NotVerified msg)
      | Raise e => Raise e
      | Ret _ =>
          match validate_report_mapping r c with
          | Raise (ContractError msg) => Ret (EXIT_INPUT, NotVerified msg)
          | Raise e => Raise e
          | Ret _ => conclude c r tree now
          end
      end
  end.
End Verify.

(** ** What the parsers raise *)
Definition refusal (e : exn) : Prop := match e with ContractError _ | OverflowError _ => True | _ => False end.
Lemma raises_err {A} msg : raises_only refusal (@err A msg).
Proof. by intros e [= <-]. Qed.
Lemma raises_mret {A} P (a : A) : raises_only P (mret a : outcome A).
Proof. done. Qed.
Lemma raises_require b msg : raises_only refusal (require b msg).
Proof. unfold require. destruct b; [done|apply raises_err]. Qed.
Lemma raises_mapM {A B} P (f : A → outcome B) l : (∀ a, raises_only P (f a)) → raises_only P (mapM f l).
Proof. intros Hf. induction l as [|a l IH]; [done|]. cbn. apply raises_bind; [apply Hf|intros b]. apply raises_bind; [done|intros ?]. done. Qed.
Lemma raises_each {A} P (f : A → outcome unit) l : (∀ a, raises_only P (f a)) → raises_only P (check_each l f).
Proof. intros Hf. induction l as [|a l IH]; [done|]. cbn. apply raises_bind; [apply Hf|intros _]. done. Qed.
#[local] Hint Resolve raises_err raises_mret raises_require raises_ret : parsers.
Ltac head_of t := lazymatch t with ?f _ => head_of f | _ => t end.
Ltac parser_step :=
  first [ solve [eauto 2 with parsers]
        | apply raises_bind; [|intros ?]
        | apply raises_mapM; intros ?
        | apply raises_each; intros ?
        | progress cbv zeta
        | case_match
        | lazymatch goal with |- raises_only _ ?m => let h := head_of m in unfold h end ].
Ltac parser := repeat parser_step.

Lemma raises_keys data ks : raises_only refusal (exact_keys data ks).
Proof. parser. Qed.
Lemma raises_text data k : raises_only refusal (text_field data k).
Proof. parser. Qed.
Lemma raises_option {A} msg (o : option A) : raises_only refusal (of_option (ContractError msg) o).
Proof. destruct o; [done|apply raises_err]. Qed.
#[local] Hint Resolve raises_keys raises_text raises_option : parsers.
Lemma raises_args p raw : ∀ seen, raises_only refusal (parse_startup_args p seen raw).
Proof. induction raw as [|v raw IH]; intros seen; cbn [parse_startup_args]; parser. Qed.
Lemma raises_capabilities raw : ∀ seen, raises_only refusal (parse_capabilities seen raw).
Proof. induction raw as [|v raw IH]; intros seen; cbn [parse_capabilities]; parser. Qed.
Lemma raises_asset v : raises_only refusal (parse_asset_ref v).
Proof. parser. Qed.
#[local] Hint Resolve raises_args raises_capabilities raises_asset : parsers.
Lemma raises_assets raw : ∀ paths, raises_only refusal (parse_asset_list paths raw).
Proof. induction raw as [|v raw IH]; intros paths; cbn [parse_asset_list]; parser. Qed.
#[local] Hint Resolve raises_assets : parsers.
Lemma raises_runtime v : raises_only refusal (parse_runtime_spec v).
Proof. parser. Qed.
Lemma raises_model v : raises_only refusal (parse_model_spec v).
Proof. parser. Qed.
Lemma raises_float n : raises_only refusal (float_of_int n).
Proof. unfold float_of_int. cbv zeta. case_match; [by intros e [= <-]|done]. Qed.
#[local] Hint Resolve raises_runtime raises_model raises_float : parsers.
Lemma raises_number data k lo hi : raises_only refusal (number_field data k lo hi).
Proof. parser. Qed.
#[local] Hint Resolve raises_number : parsers.
Lemma raises_policy v : raises_only refusal (parse_policy v).
Proof. parser. Qed.
Lemma raises_device v : raises_only refusal (parse_device_fact v).
Proof. parser. Qed.
Lemma raises_artifacts v : raises_only refusal (parse_artifact_list v).
Proof. parser. Qed.
#[local] Hint Resolve raises_policy raises_device raises_artifacts : parsers.
(** Reading a candidate or a report raises a contract error, or the overflow of
    an integer that is no double. *)
Lemma raises_candidate v : raises_only refusal (parse_candidate v).
Proof. parser. Qed.
Lemma raises_interval `{IsoTime} data : raises_only refusal (parse_interval data).
Proof. parser. Qed.
Lemma raises_case_id v : raises_only refusal (parse_case_id v).
Proof. parser. Qed.
#[local] Hint Resolve raises_interval raises_case_id : parsers.
Lemma raises_report `{IsoTime} v : raises_only refusal (parse_acceptance_report v).
Proof. parser. Qed.

Lemma raises_read e : raises_only (fun x => match x with VerifyError _ k => k = EXIT_INPUT | _ => True end) (read_json e).
Proof.
  unfold read_json. destruct (file_bytes e) as [bytes|]; [|by intros x [= <-]]. apply raises_bind; [unfold read_text; case_match; [done|by intros x [= <-]]|intros t].
  pose proof (raises_loads plain_hooks (fun e => ∃ m, e = ValueError m) ltac:(done) ltac:(done) ltac:(by intros m; exists m) t) as Hl.
  destruct (loads plain_hooks t) as [[]|x]; try done; try (by intros y [= <-]). destruct (Hl x eq_refl) as [m ->]. by intros y [= <-].
Qed.
Lemma raises_contract {A} (m : outcome A) : raises_only refusal m → raises_only (fun x => match x with VerifyError _ k => k = EXIT_INPUT | _ => True end) (contract m).
Proof. intros Hm. destruct m as [a|x]; [done|]. specialize (Hm x eq_refl). destruct x; try done; by intros y [= <-]. Qed.

Section Exact.
Context (py_str : json → string) `{FloatText} `{Digest} `{IsoTime}.

Lemma raises_load candidate tree : raises_only (fun x => match x with VerifyError _ k => k = EXIT_INPUT | _ => True end) (load_evidence candidate tree).
Proof.
  unfold load_evidence. apply raises_bind; [apply raises_bind; [apply raises_read|intros v; apply raises_contract, raises_candidate]|intros c].
  apply raises_bind; [apply raises_bind; [apply raises_read|intros v; apply raises_contract, raises_report]|intros r].
  assert (∀ l, raises_only (fun x => match x with VerifyError _ k => k = EXIT_INPUT | _ => True end) (verify_artifacts tree l)) as Ha.
  { intros l. apply raises_each. intros a. unfold verify_artifact. repeat case_match; try done; by intros x [= <-]. }
  repeat (apply raises_bind; [apply Ha|intros _]). done.
Qed.

(** A file of the manifest: present, no link, of that size and hash. *)
Definition file_matches (tree : Tree) (x : ArtifactRef) : Prop :=
  ∃ bytes, tree (ar_relative_path x) = RegularFile bytes ∧ Z.of_nat (String.length bytes) = ar_size_bytes x ∧ sha256_hex bytes = ar_sha256 x.
Lemma artifacts_iff tree l : verify_artifacts tree l = Ret tt ↔ ∀ x, x ∈ l → file_matches tree x.
Proof.
  unfold verify_artifacts. rewrite check_each_ret. assert (∀ x, verify_artifact tree x = Ret tt ↔ file_matches tree x) as Hx; [|split; intros Hl x Hin; by apply Hx, Hl].
  intros x. unfold verify_artifact, file_matches. destruct (tree _) as [| |bytes|]; [split; [done|by intros (? & ? & _)]..| |split; [done|by intros (? & ? & _)]].
  destruct (Z.eqb_spec (Z.of_nat (String.length bytes)) (ar_size_bytes x)) as [El|El]; cbn [negb]; [|split; [done|intros (b & [= <-] & ? & _); done]].
  destruct (String.eqb_spec (sha256_hex bytes) (ar_sha256 x)) as [Eh|Eh]; cbn [negb]; [|split; [done|intros (b & [= <-] & _ & ?); done]].
  split; [intros _; by exists bytes|done].
Qed.

(** The final attempt of a required case exited with 0, and the conclusion
    recomputed from its material is that it passed. *)
Definition case_proved (r : AcceptanceReportV3) (tree : Tree) (case : string) : Prop :=
  ∃ f a directory v, f ∈ re_finals r ∧ a ∈ re_attempts r ∧ fi_case_id f = case ∧ attempt_key a = final_key f ∧ at_exit_code a = 0
    ∧ material_directory tree a = Ret directory ∧ evaluate_case py_str tree case directory = Ret v ∧ cv_passed v = true.
Record evidence_ok (c : CandidateV3) (r : AcceptanceReportV3) (tree : Tree) (now : Z) : Prop := {
  eo_identity : validate_report_identity r c = Ret tt;
  eo_mapping : mapping_ok r c;
  eo_files : ∀ x, x ∈ re_artifacts r ++ mjoin (map at_event_refs (re_attempts r)) → file_matches tree x;
  eo_bound : ∀ a, a ∈ re_attempts r → at_candidate_sha256 a = re_candidate_sha256 r ∧ at_device_digest a = re_device_digest r
               ∧ at_collector_sha256 a = ca_collector_sha256 c ∧ at_evaluator_sha256 a = ca_evaluator_sha256 c;
  eo_window : ∃ t, utc (re_started_at r) = Ret t ∧ now - REPORT_VALIDITY_SECONDS * MICROSECONDS < t ≤ now + REPORT_FUTURE_TOLERANCE_SECONDS * MICROSECONDS;
  eo_cases : ∀ case, case ∈ required_case_ids c → case_proved r tree case;
}.

Lemma attempt_problems_nil c d v a : attempt_problems c d v a = [] ↔
  at_candidate_sha256 a = d ∧ at_device_digest a = v ∧ at_collector_sha256 a = ca_collector_sha256 c ∧ at_evaluator_sha256 a = ca_evaluator_sha256 c.
Proof. unfold attempt_problems. by rewrite !app_nil, !unless_nil, !String.eqb_eq. Qed.
Lemma window_nil now t : window_problems now t = [] ↔ now - REPORT_VALIDITY_SECONDS * MICROSECONDS < t ≤ now + REPORT_FUTURE_TOLERANCE_SECONDS * MICROSECONDS.
Proof. unfold window_problems. rewrite app_nil, !unless_nil, !negb_true_iff, Z.ltb_ge, Z.leb_gt. lia. Qed.

(** *** The verdicts *)
Lemma find_last_some {A} (p : A → bool) l x : find_last p l = Some x → x ∈ l ∧ p x = true.
Proof.
  induction l as [|y l IH]; [done|]. cbn. destruct (find_last p l) as [z|]; [intros [= ->]; destruct (IH eq_refl); split; [by right|done]|].
  destruct (p y) eqn:E; [|done]. intros [= ->]. split; [left|done].
Qed.
Lemma find_last_is {A} (p : A → bool) l x : x ∈ l → p x = true → ∃ y, find_last p l = Some y.
Proof.
  induction l as [|y l IH]; [by intros ?%not_elem_of_nil|]. intros [->|Hin]%elem_of_cons Hp; cbn.
  - destruct (find_last p l) as [z|]; [by exists z|]. rewrite Hp. by exists y.
  - destruct (IH Hin Hp) as [z ->]. by exists z.
Qed.
Lemma final_iff tree a case : (∃ v, evaluate_final py_str tree a case = Ret v ∧ cv_passed v = true) ↔
  at_exit_code a = 0 ∧ ∃ directory v, material_directory tree a = Ret directory ∧ evaluate_case py_str tree case directory = Ret v ∧ cv_passed v = true.
Proof.
  unfold evaluate_final. destruct (Z.eqb_spec (at_exit_code a) 0) as [E|E]; cbn [negb].
  - destruct (material_directory tree a) as [d|x]; cbn [mbind outcome_bind].
    + split.
      * intros (v & Ev & Hp). split; [done|]. exists d. destruct (evaluate_case py_str tree case d) as [w|x]; [by exists v|].
        destruct x; try done. injection Ev as <-. done.
      * intros (_ & d' & v & [= <-] & -> & Hp). by exists v.
    + split; [by intros (? & ? & _)|by intros (_ & ? & ? & ? & _)].
  - split; [|by intros [? _]]. intros (v & [= <-] & Hp). done.
Qed.

Definition all_passed (l : list (string * CaseVerdict)) : Prop := ∀ x, x ∈ l → cv_passed (snd x) = true.
Lemma set_fresh {V} k (v : V) (l : list (string * V)) : k ∉ l.*1 → assoc_set k v l = l ++ [(k, v)].
Proof.
  induction l as [|[k' v'] l IH]; [done|]. cbn. intros [Hne Hn]%not_elem_of_cons. rewrite decide_False by done. by rewrite IH.
Qed.
Definition final_passed (r : AcceptanceReportV3) (tree : Tree) (f : CaseFinal) : Prop :=
  ∃ a v, attempt_of r f = Some a ∧ evaluate_final py_str tree a (fi_case_id f) = Ret v ∧ cv_passed v = true.
Lemma finals_iff r tree l : ∀ vs, NoDup (vs.*1 ++ (fi_case_id <$> l)) →
  (∃ cases, evaluate_finals py_str tree r vs l = Ret cases ∧ all_passed cases) ↔ all_passed vs ∧ ∀ f, f ∈ l → final_passed r tree f.
Proof.
  induction l as [|f l IH]; intros vs Hnd; cbn [evaluate_finals].
  - split; [intros (? & [= <-] & Hall); split; [done|by intros f ?%not_elem_of_nil]|intros [Hall _]; by exists vs].
  - assert (fi_case_id f ∉ vs.*1) as Hfresh. { intros Hin. apply NoDup_app in Hnd as (_ & Hd & _). apply (Hd _ Hin). left. }
    assert (∀ v, NoDup ((vs ++ [(fi_case_id f, v)]).*1 ++ (fi_case_id <$> l))) as Hnd'. { intros v. by rewrite fmap_app, <-(assoc_L (++)). }
    destruct (attempt_of r f) as [a|] eqn:Ea; cbn [of_option mbind outcome_bind].
    2:{ split; [by intros (? & ? & _)|]. intros [_ Hf]. destruct (Hf f ltac:(left)) as (a & v & Ha & _). congruence. }
    destruct (evaluate_final py_str tree a (fi_case_id f)) as [v|e] eqn:Ev; cbn [mbind outcome_bind].
    2:{ split; [by intros (? & ? & _)|]. intros [_ Hf]. destruct (Hf f ltac:(left)) as (a' & w & Ha & Ew & _). congruence. }
    rewrite set_fresh by done. rewrite (IH _ (Hnd' v)). split.
    + intros [Hvs Hl]. split; [intros x Hx; apply Hvs, elem_of_app; by left|].
      intros g [->|Hg]%elem_of_cons; [|by apply Hl]. exists a, v. split_and!; [done..|]. apply (Hvs (fi_case_id f, v)), elem_of_app. right. left.
    + intros [Hvs Hl]. split; [|intros g Hg; apply Hl; by right]. intros x [Hx| ->%list_elem_of_singleton]%elem_of_app; [by apply Hvs|].
      destruct (Hl f ltac:(left)) as (a' & w & Ha & Ew & Hp). cbn. congruence.
Qed.

Lemma NoDup_fmap_inj {A B} (f : A → B) l x y : NoDup (f <$> l) → x ∈ l → y ∈ l → f x = f y → x = y.
Proof.
  induction l as [|z l IH]; [by intros _ ?%not_elem_of_nil|]. cbn. intros [Hn Hnd]%NoDup_cons [->|Hx]%elem_of_cons [->|Hy]%elem_of_cons E; auto.
  - destruct Hn. rewrite E. by apply list_elem_of_fmap_2.
  - destruct Hn. rewrite <-E. by apply list_elem_of_fmap_2.
Qed.
(** A final of a complete report is proved when its case is. *)
Lemma cases_iff c r tree : mapping_ok r c → (∃ cases, evaluate_report py_str tree r = Ret cases ∧ all_passed cases) ↔ ∀ case, case ∈ required_case_ids c → case_proved r tree case.
Proof.
  intros Hm. unfold evaluate_report. rewrite (finals_iff r tree (re_finals r) [] (mo_finals _ _ Hm)). split.
  - intros [_ Hf] case Hc. apply (mo_cases _ _ Hm), list_elem_of_fmap in Hc as (f & -> & Hin). destruct (Hf f Hin) as (a & v & Ha & Ev & Hp).
    apply find_last_some in Ha as [Hina Hk%bool_decide_eq_true]. destruct (proj1 (final_iff tree a (fi_case_id f)) (ex_intro _ v (conj Ev Hp))) as (Hx & d & w & Hd & Hw & Hpw).
    by exists f, a, d, w.
  - intros Hc. split; [by intros x ?%not_elem_of_nil|]. intros f Hin. destruct (Hc (fi_case_id f)) as (g & a & d & v & Hg & Ha & Eg & Hk & Hx & Hd & Hv & Hp).
    { apply (mo_cases _ _ Hm), list_elem_of_fmap. by exists f. }
    assert (g = f) as -> by (eapply (NoDup_fmap_inj fi_case_id); [apply (mo_finals _ _ Hm)|done..]).
    destruct (find_last_is (fun a => bool_decide (attempt_key a = final_key f)) (re_attempts r) a Ha) as [b Hb]; [by apply bool_decide_eq_true|].
    pose proof (find_last_some _ _ _ Hb) as [Hinb Hkb%bool_decide_eq_true].
    assert (b = a) as -> by (eapply (NoDup_fmap_inj attempt_key); [apply (mo_attempts _ _ Hm)|done|done|congruence]).
    exists a. destruct (proj2 (final_iff tree a (fi_case_id f))) as (w & Hw & Hpw); [split; [done|by exists d, v]|]. by exists w.
Qed.

Lemma load_evidence_iff candidate tree c r : load_evidence candidate tree = Ret (c, r) ↔
  load_candidate candidate = Ret c ∧ load_report tree = Ret r ∧ ∀ x, x ∈ re_artifacts r ++ mjoin (map at_event_refs (re_attempts r)) → file_matches tree x.
Proof.
  unfold load_evidence. setoid_rewrite elem_of_app. split.
  - intros (c' & Hc & (r' & Hr & (Ha & (Hb & [= <- <-])%unit_bind)%unit_bind)%obind_ret)%obind_ret. split_and!; [done..|].
    rewrite artifacts_iff in Ha, Hb. intros x [Hx|Hx]; auto.
  - intros (Hc & Hr & Hf). rewrite Hc, Hr. unfold mbind, outcome_bind. rewrite (proj2 (artifacts_iff tree (re_artifacts r))); [|by auto]. by rewrite (proj2 (artifacts_iff tree _)) by auto.
Qed.
Lemma conclude_iff c r tree now : validate_report_identity r c = Ret tt → mapping_ok r c →
  (∀ x, x ∈ re_artifacts r ++ mjoin (map at_event_refs (re_attempts r)) → file_matches tree x) →
  (∃ document, conclude py_str c r tree now = Ret (EXIT_OK, document)) ↔ evidence_ok c r tree now.
Proof.
  intros Hi Hm Hf. pose proof Hi as (h & Eh & (E1%require_ret & (d & Ed & E2%require_ret)%obind_ret)%unit_bind)%obind_ret. apply String.eqb_eq in E1, E2.
  unfold conclude. rewrite Eh, Ed. cbn [mbind outcome_bind]. split.
  - intros (doc & (t & Et & (cases & Ec & Hd)%obind_ret)%obind_ret). cbv zeta in Hd.
    destruct (bool_decide_reflect (mjoin (map (attempt_problems c h d) (re_attempts r)) ++ window_problems now t ++ mjoin (map (fun x => unless (cv_passed (snd x)) (fst x)) cases) = [])) as [Hp|]; [|done].
    rewrite !app_nil, !join_nil, window_nil in Hp. destruct Hp as (Ha & Hw & Hv). constructor; try done.
    + intros a Hin. rewrite E1, E2. by apply attempt_problems_nil, Ha.
    + by exists t.
    + apply (cases_iff c r tree Hm). exists cases. split; [done|]. intros x Hx. by apply unless_nil with (m := fst x), Hv.
  - intros [_ _ _ Hb (t & Et & Hw) Hc]. apply (cases_iff c r tree Hm) in Hc as (cases & Ec & Hp). rewrite Et, Ec. cbn [mbind outcome_bind]. cbv zeta.
    rewrite bool_decide_true; [by eexists|]. rewrite !app_nil, !join_nil, window_nil. split; [|split; [done|]].
    + intros a Ha. apply attempt_problems_nil. rewrite <-E1, <-E2. by apply Hb.
    + intros x Hx. apply unless_nil. by apply Hp.
Qed.

(** C21: Verification answers 0 exactly for sound evidence.  For every candidate
    file, evidence directory and time, [verify_evidence] exits with 0 if and only
    if both documents parse and: the report is of this candidate and this device;
    each required case has one final attempt, and the report spans its attempts;
    every file of the manifest and every event file of an attempt is a regular
    file of the recorded size and hash; every attempt is bound to the same
    candidate, device, collector and evaluator; the report began less than seven
    days before and at most 300 s after now; and every required case's final
    attempt exited with 0 and passes when its conclusion is recomputed from its
    material. *)
Theorem evidence_verified candidate tree now :
  (∃ document, verify_evidence py_str candidate tree now = Ret (EXIT_OK, document)) ↔
  ∃ c r, load_candidate candidate = Ret c ∧ load_report tree = Ret r ∧ evidence_ok c r tree now.
Proof.
  unfold verify_evidence. destruct (load_evidence candidate tree) as [[c r]|e] eqn:El.
  - apply load_evidence_iff in El as (Hc & Hr & Hf). destruct (validate_report_identity r c) as [[]|x] eqn:Ei.
    2:{ split; [intros [d Hd]; by destruct x|]. intros (c' & r' & Hc' & Hr' & Hok). apply eo_identity in Hok. congruence. }
    destruct (validate_report_mapping r c) as [[]|x] eqn:Em.
    2:{ split; [intros [d Hd]; by destruct x|]. intros (c' & r' & Hc' & Hr' & Hok). apply eo_mapping in Hok. rewrite <-validate_mapping_iff in Hok. congruence. }
    apply validate_mapping_iff in Em. rewrite (conclude_iff c r tree now Ei Em Hf). split; [intros Hok; by exists c, r|].
    intros (c' & r' & Hc' & Hr' & Hok). congruence.
  - split.
    + intros [d Hd]. pose proof (raises_load candidate tree e El) as Hk. destruct e; try done. injection Hd as -> _. done.
    + intros (c & r & Hc & Hr & Hok). assert (load_evidence candidate tree = Ret (c, r)); [|congruence]. apply load_evidence_iff. split_and!; [done..|apply Hok].
Qed.
End Exact.

(** ** An evidence directory that verifies *)
#[local] Existing Instance thousandths_floats.
#[local] Existing Instance demo_digest_zero.
#[local] Existing Instance demo_iso.
Definition text_json (v : json) : string := match canonical_json_bytes v with Ret t => t | Raise _ => "" end.
Definition flags (names : list string) : json := JObj (map (fun n => (n, JBool true)) names).
Definition demo_facts (case : string) : list (string * json) :=
  default [] (assoc case
    [("O01", [("policy", JObj []); ("final_state", JObj (map (fun k => (k, JInt 0)) ZERO_TOLERANCE_STATE))]);
     ("O02", [("isolation", flags ["private_mount_namespace"]); ("model_disk", JObj [("model_disk_unavailable", JBool true); ("root_disk_writes", JInt 0)]);
              ("scratch", JObj [("dedicated_quota_fs", JBool true); ("scratch_full", JBool true); ("root_disk_writes", JInt 0)]); ("recovery", flags ["recovered"; "rehashed"])]);
     ("O03", [("docker_unreachable", JObj [("health_status", JInt 503); ("budget_kept", JBool true); ("other_containers_untouched", JBool true)]);
              ("unknown_instance", JObj [("health_status", JInt 503); ("unknown_recorded", JBool true); ("other_containers_untouched", JBool true)]);
              ("stop_timeout", JObj [("health_status", JInt 503); ("stop_timeout_recorded", JBool true); ("budget_kept", JBool true)])]);
     ("O04", [("restart", JObj [("restarted", JBool true); ("residual_instances_cleaned", JBool true); ("inference_replay", JBool false)]);
              ("old_token", JObj [("accepted", JBool false); ("reason", JStr "r")]); ("admission", flags ["admitted"])]);
     ("O05", [("correct", flags ["accepted"]); ("tampered", JList [JObj [("name", JStr "t"); ("facts", JObj [("accepted", JBool false); ("reason", JStr "r")])]])]);
     ("O06", [("shutdown", JObj [("graceful", JBool true); ("exit_code", JInt 0)]); ("logs", flags ["capacity_ok"; "redaction_ok"]);
              ("backup", JObj [("snapshot_sha256", JStr demo_sha)]); ("restore", JObj [("restored", JBool true); ("snapshot_sha256", JStr demo_sha)]);
              ("rollback", flags ["applied"]); ("rollback_refused", JObj [("applied", JBool false); ("reason", JStr "r")])])]).
Definition demo_numbers : json :=
  JObj [("measured_peak_bytes", JInt 100); ("model_budget_bytes", JInt 200); ("mem_available_bytes", JInt 125); ("free_floor_bytes", JInt 10);
        ("committed_bytes", JInt 0); ("instance_already_reserved", JBool false)].
Definition demo_material (case : string) : json :=
  match S_CASE_OBSERVATIONS case with
  | Some names => JObj (("observations", flags names) :: if String.eqb case "S03" then [("numbers", demo_numbers)] else [])
  | None =>
      if String.prefix "B:" case then
        JObj [("provider", JStr "p"); ("output", JObj [("choices", JList [JObj [("text", JStr "hi")]])]); ("instance", JObj []); ("stop_proven", JBool true);
              ("cancelled", JBool true); ("fixture", JObj [("boundary", JObj [("n", JInt 3)])]); ("observed", JObj [("n", JInt 3)])]
      else JObj (demo_facts case)
  end.
Definition demo_row : json :=
  JObj [("raw", JObj (("outcome", JStr "ok") :: ("model_id", JStr "m") :: map (fun k => (k, JInt 1)) (base.filter (fun k => k ≠ "outcome" ∧ k ≠ "model_id") SENT_REQUIRED)))].
Definition demo_ref (case : string) : ArtifactRef :=
  {| ar_relative_path := "c/" +:+ case +:+ "/case.json"; ar_size_bytes := Z.of_nat (String.length (text_json (demo_material case))); ar_sha256 := demo_sha |}.
Definition shown_attempt (case : string) : json :=
  JObj [("case_id", JStr case); ("run_id", JStr "run"); ("attempt", JInt 1); ("candidate_sha256", JStr demo_sha); ("device_digest", JStr demo_sha);
        ("started_at", JStr "t"); ("ended_at", JStr "tt"); ("boot_id", JStr "b"); ("event_refs", JList [artifact_json (demo_ref case)]);
        ("collector_sha256", JStr demo_sha); ("evaluator_sha256", JStr demo_sha); ("exit_code", JInt 0)].
Definition shown_report (cases : list string) : json :=
  JObj [("schema_version", JInt 3); ("candidate_sha256", JStr demo_sha); ("device_digest", JStr demo_sha); ("run_id", JStr "run"); ("started_at", JStr "t");
        ("ended_at", JStr "tt"); ("case_attempt_refs", JList (map shown_attempt cases));
        ("final_attempts", JList (map (fun x => JObj [("case_id", JStr x); ("run_id", JStr "run"); ("attempt", JInt 1)]) cases)); ("artifact_manifest", JList [])].
Definition demo_tree (cases : list string) : Tree := fun path =>
  if String.eqb path "report.json" then RegularFile (text_json (shown_report cases))
  else match path_parts path with
       | [_; case] => Directory
       | [_; case; "case.json"] => RegularFile (text_json (demo_material case))
       | [_; _; _; "workload.jsonl"] => RegularFile (text_json demo_row)
       | [_; _; _; "tegrastats.jsonl"] => RegularFile (text_json (JObj [("raw", JStr "GR3D_FREQ 9%")]))
       | _ => NoEntry
       end.
Definition small_candidate : CandidateV3 :=
  {| ca_schema_version := 3; ca_deployment_id := "lab"; ca_source_archive_sha256 := demo_sha; ca_config_sha256 := demo_sha; ca_device := demo_device;
     ca_runtime_stack := ca_runtime_stack demo_candidate; ca_runtimes := [serving_runtime "registry/llama"]; ca_models := [demo_chat]; ca_measurement_refs := []; ca_fixture_refs := [];
     ca_policy := {| po_performance := take 1 (po_performance demo_policy); po_operational := po_operational demo_policy |};
     ca_collector_sha256 := demo_sha; ca_evaluator_sha256 := demo_sha |}.
Definition demo_candidate_file : Entry := RegularFile (text_json (candidate_json small_candidate)).
Definition demo_evidence : Tree := demo_tree (required_case_ids small_candidate).
(** The directory verifies shortly after the report began. *)
Example demo_verifies : fst <$> verify_evidence (fun _ => "x") demo_candidate_file demo_evidence 2 = Ret EXIT_OK.
Proof. vm_compute. reflexivity. Qed.
