(* ===== verification/Release.v ===== *)
(** * Switching and rolling back a release

    [deploy.py]: [switch_release] and [rollback_release] over the operations of a
    site ([OpsPort]).  An operation's answer may depend on everything called
    before it; the state is the sequence of calls.  A step of the returned
    document is its label and whether it ran. *)

From S2P Require Import Prelude Contracts Registration RegistrationProps Lifecycle Evaluator.
Local Open Scope Z_scope.

Inductive OpsCall :=
| CurrentRelease | CloseAdmission | Drain | ProveInstancesStopped | PreflightRelease (release : string) | SwitchCurrent (release : string)
| StartScheduler | SmokeCheck | ReopenAdmission | RestoreBlobMetadata (backup : string).
#[export] Instance ops_call_eq : EqDecision OpsCall.
Proof. solve_decision. Defined.
Definition ops := pym (list OpsCall).
(** What the site answers: the facts of an operation, nothing, or an exception. *)
Class OpsPort := {
  respond : list OpsCall → OpsCall → outcome (option (list (string * json)));
  current : outcome (option string);
}.

Record OpsStep := { step_label : string; step_ok : bool }.
(** The facts of a step, and the failure it adds. *)
Record Ran := { ran_facts : list (string * json); ran_failures : list string; ran_step : OpsStep }.
Definition call_label (c : OpsCall) : string :=
  match c with
  | CurrentRelease => "current_release" | CloseAdmission => "close_admission" | Drain => "drain" | ProveInstancesStopped => "prove_instances_stopped"
  | PreflightRelease _ => "preflight_release" | SwitchCurrent _ => "switch_current" | StartScheduler => "start" | SmokeCheck => "smoke"
  | ReopenAdmission => "reopen_admission" | RestoreBlobMetadata _ => "restore_blob_metadata"
  end.
Record ReleaseDocument := {
  rd_ok : bool; rd_switched : bool; rd_previous : option string; rd_release : option string; rd_steps : list OpsStep; rd_problems : list string;
  rd_repair_required : bool; rd_rollback_release : option string; rd_metadata_backup : option string;
}.
Record RollbackDocument := {
  rb_ok : bool; rb_rolled_back : bool; rb_release : option string; rb_steps : list OpsStep; rb_problems : list string; rb_status : string;
  rb_admission : option (list (string * json));
}.
(** The keys a drained site reports as 0. *)
Definition DRAINED : list string := ["queue_depth"; "leases"; "sessions"].
Definition holds (facts : list (string * json)) (key : string) : bool := is_true (jget key facts).
Definition says (facts : list (string * json)) (key value : string) : bool := equals (jget key facts) (JStr value).

Section Release.
Context `{OpsPort}.

Definition ops_step (label : string) (c : OpsCall) : ops Ran := fun log =>
  (log ++ [c],
   match respond log c with
   | Ret facts => Ret {| ran_facts := default [] facts; ran_failures := []; ran_step := {| step_label := label; step_ok := true |} |}
   | Raise e => if is_exception e
                then Ret {| ran_facts := []; ran_failures := [label]; ran_step := {| step_label := label; step_ok := false |} |}
                else Raise e
   end).
Definition step (c : OpsCall) : ops Ran := ops_step (call_label c) c.
Definition current_release : ops (option string) := fun log => (log ++ [CurrentRelease], current).

Definition drain_problems (facts : list (string * json)) : list string := mjoin (map (fun key => unless (equals (jget key facts) (JInt 0)) key) DRAINED).
Definition switch_release (release : string) (metadata_backup : option string) : ops ReleaseDocument :=
  previous ← current_release;
  admission ← step CloseAdmission;
  drained ← step Drain;
  stopped ← step ProveInstancesStopped;
  preflight ← step (PreflightRelease release);
  let steps := [ran_step admission; ran_step drained; ran_step stopped; ran_step preflight] in
  let failures :=
    ran_failures admission ++ unless (holds (ran_facts admission) "closed") "admission was not closed"
    ++ ran_failures drained ++ drain_problems (ran_facts drained)
    ++ ran_failures stopped ++ unless (holds (ran_facts stopped) "stopped") "the running instances were not proven stopped"
    ++ ran_failures preflight ++ unless (holds (ran_facts preflight) "accepted") "did not pass preflight" in
  if negb (bool_decide (failures = [])) then
    reopened ← step ReopenAdmission;
    mret {| rd_ok := false; rd_switched := false; rd_previous := previous; rd_release := None; rd_steps := steps ++ [ran_step reopened];
            rd_problems := failures; rd_repair_required := false; rd_rollback_release := None; rd_metadata_backup := None |}
  else
    switched ← step (SwitchCurrent release);
    started ← step StartScheduler;
    smoke ← step SmokeCheck;
    let steps := steps ++ [ran_step switched; ran_step started; ran_step smoke] in
    let problems :=
      ran_failures switched ++ ran_failures started ++ ran_failures smoke
      ++ unless (says (ran_facts switched) "current" release) "current does not point at the new release"
      ++ unless (holds (ran_facts started) "running") "the scheduler did not start"
      ++ unless (holds (ran_facts smoke) "ok") "the smoke check failed" in
    if negb (bool_decide (problems = [])) then
      mret {| rd_ok := false; rd_switched := true; rd_previous := previous; rd_release := Some release; rd_steps := steps; rd_problems := problems;
              rd_repair_required := true; rd_rollback_release := previous; rd_metadata_backup := metadata_backup |}
    else
      reopened ← step ReopenAdmission;
      mret {| rd_ok := true; rd_switched := true; rd_previous := previous; rd_release := Some release; rd_steps := steps ++ [ran_step reopened];
              rd_problems := []; rd_repair_required := false; rd_rollback_release := None; rd_metadata_backup := None |}.

Definition rollback_release (accepted_release metadata_backup : option string) (downgrade_compatible : bool) : ops RollbackDocument :=
  match accepted_release with
  | None =>
      stopped ← ops_step "stop_for_repair" CloseAdmission;
      mret {| rb_ok := false; rb_rolled_back := false; rb_release := None; rb_steps := []; rb_problems := ["no accepted older candidate exists"];
              rb_status := "stopped_for_repair"; rb_admission := Some (ran_facts stopped) |}
  | Some release =>
      admission ← step CloseAdmission;
      stopped ← step ProveInstancesStopped;
      let failures := ran_failures admission ++ ran_failures stopped in
      let steps := [ran_step admission; ran_step stopped] in
      '(failures, steps) ←
        (if downgrade_compatible then mret (failures, steps)
         else match metadata_backup with
              | None => mret (failures ++ ["no pre-upgrade backup exists"], steps)
              | Some backup =>
                  restored ← step (RestoreBlobMetadata backup);
                  mret (failures ++ ran_failures restored ++ unless (holds (ran_facts restored) "restored") "the blob metadata backup was not restored",
                        steps ++ [ran_step restored])
              end);
      if negb (bool_decide (failures = [])) then
        mret {| rb_ok := false; rb_rolled_back := false; rb_release := Some release; rb_steps := steps; rb_problems := failures;
                rb_status := "repair_required"; rb_admission := None |}
      else
        switched ← step (SwitchCurrent release);
        started ← step StartScheduler;
        smoke ← step SmokeCheck;
        let failures :=
          ran_failures switched ++ ran_failures started ++ ran_failures smoke
          ++ unless (says (ran_facts switched) "current" release) "current does not point at the accepted release"
          ++ unless (holds (ran_facts started) "running") "the restored scheduler did not start"
          ++ unless (holds (ran_facts smoke) "ok") "the smoke check after the rollback failed" in
        let ok := bool_decide (failures = []) in
        mret {| rb_ok := ok; rb_rolled_back := ok; rb_release := Some release; rb_steps := steps ++ [ran_step switched; ran_step started; ran_step smoke];
                rb_problems := failures; rb_status := if ok then "running" else "repair_required"; rb_admission := None |}
  end.

(** ** What the sequence guarantees *)
(** The call answered, and its facts have the property. *)
Definition fact (log : list OpsCall) (c : OpsCall) (p : list (string * json) → bool) : bool :=
  match respond log c with Ret f => p (default [] f) | Raise _ => false end.
(** The calls before [current] may move, and what they must have answered. *)
Definition before_switch (release : string) : list OpsCall := [CurrentRelease; CloseAdmission; Drain; ProveInstancesStopped; PreflightRelease release].
Definition drained_facts (f : list (string * json)) : bool := forallb (fun key => equals (jget key f) (JInt 0)) DRAINED.
Definition ready (release : string) : bool :=
  fact (take 1 (before_switch release)) CloseAdmission (fun f => holds f "closed")
  && fact (take 2 (before_switch release)) Drain drained_facts
  && fact (take 3 (before_switch release)) ProveInstancesStopped (fun f => holds f "stopped")
  && fact (take 4 (before_switch release)) (PreflightRelease release) (fun f => holds f "accepted").
(** The new release is current, runs and passes its smoke check. *)
Definition live (log : list OpsCall) (release : string) : bool :=
  fact log (SwitchCurrent release) (fun f => says f "current" release)
  && fact (log ++ [SwitchCurrent release]) StartScheduler (fun f => holds f "running")
  && fact (log ++ [SwitchCurrent release; StartScheduler]) SmokeCheck (fun f => holds f "ok").

Lemma step_returns label c log log' r : ops_step label c log = (log', Ret r) →
  log' = log ++ [c] ∧ ∀ p, fact log c p = true ↔ ran_failures r = [] ∧ p (ran_facts r) = true.
Proof.
  unfold ops_step, fact. destruct (respond log c) as [f|e].
  - intros [= <- <-]. split; [done|]. intros p. cbn. tauto.
  - destruct (is_exception e); [|done]. intros [= <- <-]. split; [done|]. intros p. by split; [|intros [? _]].
Qed.
Lemma drain_nil f : drain_problems f = [] ↔ drained_facts f = true.
Proof. unfold drain_problems, drained_facts. rewrite join_nil, forallb_In'. by setoid_rewrite unless_nil. Qed.

(** C27: A release is switched only from a proven stop.  When [switch_release]
    returns, [current] was moved if and only if admission was closed, the queue,
    the leases and the sessions were reported 0, the instances were proven
    stopped and the new release passed its preflight, in this order.  If not, the
    only call after the checks reopens admission; if so, the release is started and
    smoke-checked, admission is reopened exactly when all that succeeded, and
    otherwise the document asks for a repair and names the previous release and
    the backup. *)
Theorem release_switch_ordered release backup log doc : switch_release release backup [] = (log, Ret doc) →
  rd_switched doc = ready release
  ∧ rd_ok doc = ready release && live (before_switch release) release
  ∧ log = before_switch release ++ (if rd_switched doc then [SwitchCurrent release; StartScheduler; SmokeCheck] ++ (if rd_ok doc then [ReopenAdmission] else [])
                                    else [ReopenAdmission])
  ∧ rd_repair_required doc = rd_switched doc && negb (rd_ok doc)
  ∧ (rd_repair_required doc = true → rd_rollback_release doc = rd_previous doc ∧ rd_metadata_backup doc = backup).
Proof.
  intros E. unfold switch_release in E. apply bind_returns in E as (prev & l0 & [= <- Ec] & E). cbn [app] in E.
  apply bind_returns in E as (r1 & l1 & Es1 & E). apply bind_returns in E as (r2 & l2 & Es2 & E). apply bind_returns in E as (r3 & l3 & Es3 & E).
  apply bind_returns in E as (r4 & l4 & Es4 & E). cbv zeta in E.
  apply step_returns in Es1 as [-> F1], Es2 as [-> F2], Es3 as [-> F3], Es4 as [-> F4]. cbn [app] in *.
  assert (ready release = bool_decide (ran_failures r1 ++ unless (holds (ran_facts r1) "closed") "admission was not closed" ++ ran_failures r2 ++ drain_problems (ran_facts r2)
     ++ ran_failures r3 ++ unless (holds (ran_facts r3) "stopped") "the running instances were not proven stopped" ++ ran_failures r4 ++ unless (holds (ran_facts r4) "accepted") "did not pass preflight" = [])) as Hr.
  { apply eq_bool_prop_intro. rewrite bool_decide_spec, !app_nil, !unless_nil, drain_nil. unfold ready. rewrite !andb_True, !Is_true_true. cbn [take before_switch].
    rewrite F1, F2, F3, F4. tauto. }
  rewrite <-Hr in E. destruct (ready release); cbn [negb] in E.
  - apply bind_returns in E as (r5 & l5 & Es5 & E). apply bind_returns in E as (r6 & l6 & Es6 & E). apply bind_returns in E as (r7 & l7 & Es7 & E). cbv zeta in E.
    apply step_returns in Es5 as [-> F5], Es6 as [-> F6], Es7 as [-> F7]. cbn [app] in *.
    assert (live (before_switch release) release = bool_decide (ran_failures r5 ++ ran_failures r6 ++ ran_failures r7 ++ unless (says (ran_facts r5) "current" release) "current does not point at the new release"
      ++ unless (holds (ran_facts r6) "running") "the scheduler did not start" ++ unless (holds (ran_facts r7) "ok") "the smoke check failed" = [])) as Hl.
    { apply eq_bool_prop_intro. rewrite bool_decide_spec, !app_nil, !unless_nil. unfold live. rewrite !andb_True, !Is_true_true. cbn [app before_switch].
      rewrite F5, F6, F7. tauto. }
    rewrite <-Hl in E. destruct (live _ release); cbn [negb] in E.
    + apply bind_returns in E as (r8 & l8 & [-> _]%step_returns & [= <- <-]). by cbn.
    + injection E as <- <-. by cbn.
  - apply bind_returns in E as (r5 & l5 & [-> _]%step_returns & [= <- <-]). by cbn.
Qed.
End Release.

(** ** A site that switches, and one whose rollback proves nothing *)
Definition healthy : list (string * json) :=
  [("closed", JBool true); ("queue_depth", JInt 0); ("leases", JInt 0); ("sessions", JInt 0); ("stopped", JBool true); ("accepted", JBool true);
   ("current", JStr "r2"); ("running", JBool true); ("ok", JBool true)].
Definition site_of (facts : list (string * json)) : OpsPort := {| respond := fun _ _ => Ret (Some facts); current := Ret (Some "r1") |}.
Lemma release_switch_ordered_witness : ∃ log doc, switch_release (H := site_of healthy) "r2" None [] = (log, Ret doc) ∧ rd_switched doc = true ∧ last log = Some ReopenAdmission.
Proof.
  destruct (switch_release (H := site_of healthy) "r2" None []) as [log [doc|e]] eqn:E; [|vm_compute in E; discriminate].
  destruct (release_switch_ordered (H := site_of healthy) "r2" None log doc E) as (Hs & Ho & Hl & _).
  exists log, doc. split; [reflexivity|]. rewrite Hl, Hs, Ho. vm_compute. by split.
Defined.
(** [rollback_release] reads neither whether admission closed nor whether the
    instances stopped: here nothing did, and [current] is moved and the release
    reported running; admission is not reopened. *)
Definition stuck : list (string * json) := [("closed", JBool false); ("stopped", JBool false); ("current", JStr "r1"); ("running", JBool true); ("ok", JBool true)].
Example rollback_unproven :
  let '(log, result) := rollback_release (H := site_of stuck) (Some "r1") None true [] in
  log = [CloseAdmission; ProveInstancesStopped; SwitchCurrent "r1"; StartScheduler; SmokeCheck] ∧ rb_status <$> result = Ret "running".
Proof. vm_compute. by split. Qed.
