(* ===== verification/Runner.v ===== *)
(** * The model runner

    [model_scheduler/model_runner.py]: the supervised launcher, the argument
    vectors of docker, and the checks a container must pass before it is stopped;
    and from [deploy/model-runner.py] the lab launch and the stop command.  What the
    system calls answer is an argument of each operation. *)

From S2P Require Import Prelude Text Dict Contracts Registration RegistrationProps JsonText Protocol Observer Ports Launch Evaluator.
From Stdlib Require Import Ascii.
Local Open Scope Z_scope.

Definition runner_error {A} (msg : string) : outcome A := Raise (RunnerError msg).
Definition demand (ok : bool) (msg : string) : outcome unit := if ok then Ret tt else runner_error msg.

(** ** The supervised launch *)
Record SupervisedLaunch := {
  sl_argv : list string; sl_fence : Fence; sl_start_new_session : bool; sl_child : bool; sl_operation : option LaunchOperation;
}.
Definition new_launch (argv : list string) (fence : Fence) (new_session : bool) : SupervisedLaunch :=
  {| sl_argv := argv; sl_fence := fence; sl_start_new_session := new_session; sl_child := false; sl_operation := None |}.
Definition set_child (l : SupervisedLaunch) : SupervisedLaunch :=
  {| sl_argv := sl_argv l; sl_fence := sl_fence l; sl_start_new_session := sl_start_new_session l; sl_child := true; sl_operation := sl_operation l |}.
Definition set_operation (o : LaunchOperation) (l : SupervisedLaunch) : SupervisedLaunch :=
  {| sl_argv := sl_argv l; sl_fence := sl_fence l; sl_start_new_session := sl_start_new_session l; sl_child := sl_child l; sl_operation := Some o |}.
Definition operation : pym SupervisedLaunch LaunchOperation :=
  l ← get; lift (of_option (RunnerError "the supervised launch is not started") (sl_operation l)).

(** The launcher's process id, when it has one; what [getpgid] says; the clock. *)
Record Spawn := { sp_child : outcome (option Z); sp_group : outcome Z; sp_now : time }.
Definition start (w : Spawn) : pym SupervisedLaunch LaunchOperation :=
  l ← get;
  _ ← lift (demand (negb (sl_child l)) "the supervised launch is already started");
  reported ← lift (match sp_child w with Raise (OSError _) => runner_error "cannot start the supervised launcher" | o => o end);
  pid ← lift (match reported with Some pid => if 1 <=? pid then Ret pid else runner_error "no process id" | None => runner_error "no process id" end);
  _ ← modify set_child;
  group ← lift (if sl_start_new_session l then Ret (Some pid)
                else match sp_group w with Ret g => Ret (Some g) | Raise (OSError _) => Ret None | Raise e => Raise e end);
  o ← lift (make_launch_operation {| launch_operation_id := f_operation_id (sl_fence l); launch_fence := sl_fence l; launch_started_at := sp_now w;
                                     launch_state := launch_starting; launch_pid := Some pid; launch_process_group_id := group; launch_terminal_at := None |});
  _ ← modify (set_operation o);
  mret o.

(** [child.wait(timeout)]: it times out, or the child exited with a code. *)
Inductive Waited := TimedOut | Exited (code : option Z).
Definition wait (w : outcome Waited) (now : time) : pym SupervisedLaunch (option Z) :=
  l ← get;
  _ ← lift (demand (sl_child l) "the supervised launch is not started");
  answer ← lift w;
  match answer with
  | TimedOut => mret None
  | Exited None => raise (RunnerError "the supervised launcher reported no exit code")
  | Exited (Some code) =>
      o ← operation;
      (if launch_is_terminal o then mret tt
       else o' ← lift (make_launch_operation
                         {| launch_operation_id := f_operation_id (sl_fence l); launch_fence := sl_fence l; launch_started_at := launch_started_at o;
                            launch_state := if code =? 0 then launch_completed else launch_failed; launch_pid := launch_pid o;
                            launch_process_group_id := launch_process_group_id o; launch_terminal_at := Some now |});
            modify (set_operation o'));;
      mret (Some code)
  end.
Definition signal_group (killed : outcome unit) : pym SupervisedLaunch unit :=
  o ← operation;
  _ ← lift (of_option (RunnerError "no process group to signal") (launch_process_group_id o));
  lift (match killed with Raise (OSError _) => runner_error "cannot signal the launch process group" | r => r end).
(** [terminate] sends SIGTERM to the group. *)
Definition terminate : outcome unit → pym SupervisedLaunch unit := signal_group.

(** [_lab_exec] of the lab runner: what it returns to its caller. *)
Definition lab_exec (spawn : Spawn) (first : outcome Waited) (t1 : time) (killed : outcome unit) (second : outcome Waited) (t2 : time)
    : pym SupervisedLaunch Z :=
  _ ← start spawn;
  code ← wait first t1;
  code ← match code with Some c => mret (Some c) | None => _ ← terminate killed; wait second t2 end;
  mret (default 0 code).

(** ** Docker *)
Definition PORTS (model : string) : option Z := assoc model [("embedding", 10001); ("reranker", 10002); ("qwen-small", 10003); ("qwen-large", 10004)].
(** [[^@]+@sha256:[0-9a-f]{64}] *)
Fixpoint split_at_sign (acc : list ascii) (l : list ascii) : list string :=
  match l with
  | [] => [text_of (rev acc)]
  | c :: l => if code c =? 64 then text_of (rev acc) :: split_at_sign [] l else split_at_sign (c :: acc) l
  end.
Definition PINNED_IMAGE_RE (s : string) : bool :=
  match split_at_sign [] (chars s) with
  | [name; digest] => negb (String.eqb name "") && String.prefix "sha256:" digest && SHA256_RE (String.substring 7 (String.length digest - 7) digest)
  | _ => false
  end.
Definition require_manifest_config_digest (manifest : list (string * json)) (config_digest : string) : outcome unit :=
  demand (SHA256_RE config_digest && equals (jget "config_sha256" manifest) (JStr config_digest)) "manifest config digest mismatch".
Definition identity_labels (deployment_id model_id config_sha256 : string) : list (string * string) :=
  [("io.self-model-switch.deployment", deployment_id); ("io.self-model-switch.model", model_id); ("io.self-model-switch.config-sha256", config_sha256)].
Definition require_container_identity (labels : list (string * json)) (deployment_id model_id config_sha256 : string) : outcome unit :=
  demand (forallb (fun kv => equals (jget (fst kv) labels) (JStr (snd kv))) (identity_labels deployment_id model_id config_sha256)) "container identity mismatch".
Definition docker_stop_argv (requested_name manifest_name : string) : option (list string) :=
  if negb (String.eqb requested_name manifest_name) || negb (String.prefix "sms-" manifest_name) then None
  else Some ["docker"; "stop"; "--time"; "30"; manifest_name].

Definition str_of (v : option json) : option string := match v with Some (JStr s) => Some s | _ => None end.
Definition has_slash (s : string) : bool := existsb (fun c => code c =? 47) (chars s).
Definition label_flags (labels : list (string * string)) : list string := mjoin (map (fun kv => ["--label"; fst kv +:+ "=" +:+ snd kv]) labels).
Definition docker_run_argv (manifest : list (string * json)) (model_id config_sha256 : string) : outcome (list string) :=
  _ ← demand (bool_decide (is_Some (PORTS model_id)) && SHA256_RE config_sha256) "invalid model or config digest";
  let port := default 0 (PORTS model_id) in
  deployment_id ← of_option (RunnerError "invalid deployment") (str_of (jget "deployment_id" manifest));
  _ ← demand (DEPLOYMENT_RE deployment_id) "invalid deployment";
  image ← of_option (RunnerError "invalid image or models") (str_of (jget "image" manifest));
  _ ← demand (PINNED_IMAGE_RE image) "invalid image or models";
  models ← of_option (RunnerError "invalid image or models") (mapping_of_json (jget "models" manifest));
  model ← of_option (RunnerError "unknown model") (mapping_of_json (jget model_id models));
  let name := "sms-" +:+ deployment_id +:+ "-" +:+ model_id in
  _ ← demand (equals (jget "container_name" model) (JStr name)) "invalid container name";
  filename ← of_option (RunnerError "invalid model file") (str_of (jget "file" model));
  _ ← demand (negb (has_slash filename) && negb (bool_decide (filename ∈ [""; "."; ".."]))) "invalid model file";
  context ← of_option (RunnerError "invalid model sizing") (int_of (jget "context_size" model));
  parallel ← of_option (RunnerError "invalid model sizing") (int_of (jget "parallel" model));
  _ ← demand ((0 <? context) && (1 <=? parallel) && (parallel <=? 16) && (context mod parallel =? 0)) "invalid model sizing";
  Ret (["docker"; "run"; "--name"; name; "--init"; "--rm"; "--restart=no"; "--gpus"; "all"]
       ++ label_flags (identity_labels deployment_id model_id config_sha256)
       ++ ["--publish"; "127.0.0.1:" +:+ int_text port +:+ ":8080"; "--mount"; "type=bind,src=/mnt/model-ssd/models,dst=/models,readonly"; image;
           "--model"; "/models/" +:+ filename; "--alias"; model_id; "--host"; "0.0.0.0"; "--port"; "8080"; "--ctx-size"; int_text context;
           "--batch-size"; "512"; "--ubatch-size"; "128"; "--cache-type-k"; "f16"; "--cache-type-v"; "f16"]
       ++ (if String.eqb model_id "embedding" then ["--embedding"; "--pooling"; "mean"]
           else if String.eqb model_id "reranker" then ["--embedding"; "--pooling"; "rank"] else [])
       ++ ["--parallel"; int_text parallel; "--n-gpu-layers"; "99"; "--fit"; "off"]
       ++ (if String.prefix "qwen-" model_id then ["--jinja"] else [])).

(** ** What the launch proves *)
Inductive LaunchEvent := EvStart (w : Spawn) | EvWait (w : outcome Waited) (now : time) | EvSignal (killed : outcome unit).
Definition perform (l : SupervisedLaunch) (e : LaunchEvent) : SupervisedLaunch :=
  match e with EvStart w => fst (start w l) | EvWait w now => fst (wait w now l) | EvSignal k => fst (signal_group k l) end.
Definition perform_all : SupervisedLaunch → list LaunchEvent → SupervisedLaunch := foldl perform.
Definition exit_state (code : Z) : LaunchState := if code =? 0 then launch_completed else launch_failed.

(** A launch with an operation: the launcher's child, recorded once. *)
Record launch_ok (fence : Fence) (events : list LaunchEvent) (o : LaunchOperation) : Prop := {
  lo_valid : make_launch_operation o = Ret o;
  lo_fence : launch_fence o = fence;
  lo_id : launch_operation_id o = f_operation_id fence;
  lo_exit : launch_is_terminal o = true →
            ∃ code t, EvWait (Ret (Exited (Some code))) t ∈ events ∧ launch_terminal_at o = Some t ∧ launch_state o = exit_state code;
}.
Record launch_inv (fence : Fence) (events : list LaunchEvent) (l : SupervisedLaunch) : Prop := {
  li_fence : sl_fence l = fence;
  li_operation : ∀ o, sl_operation l = Some o → sl_child l = true ∧ launch_ok fence events o;
}.
(** Two readings of one launch. *)
Definition same_process (o o' : LaunchOperation) : Prop :=
  launch_pid o' = launch_pid o ∧ launch_process_group_id o' = launch_process_group_id o ∧ launch_started_at o' = launch_started_at o
  ∧ (launch_is_terminal o = true → o' = o).

Lemma make_operation_same o o' : make_launch_operation o = Ret o' → o' = o.
Proof. unfold make_launch_operation. intros E. repeat (apply obind_ret in E as (? & _ & E)). apply (proj1 (mret_ret _ _)) in E. congruence. Qed.
Lemma launch_ok_more fence events more o : launch_ok fence events o → launch_ok fence (events ++ more) o.
Proof. intros [Hv Hf Hi Hx]. constructor; try done. intros (code & t & Hin & Ht & Hs)%Hx. exists code, t. split; [apply elem_of_app; by left|done]. Qed.

(** A failed step leaves the operation; the record of a child may be set. *)
Lemma start_cases w l : sl_fence (fst (start w l)) = sl_fence l
  ∧ (sl_child l = true → sl_child (fst (start w l)) = true)
  ∧ (sl_operation (fst (start w l)) = sl_operation l
     ∨ (sl_child l = false ∧ ∃ o, sl_operation (fst (start w l)) = Some o ∧ make_launch_operation o = Ret o ∧ launch_fence o = sl_fence l
        ∧ launch_operation_id o = f_operation_id (sl_fence l) ∧ launch_is_terminal o = false ∧ sl_child (fst (start w l)) = true)).
Proof.
  unfold start. run_unfold. cbn. destruct (sl_child l) eqn:Ec; [cbn; by split_and!; [..|left]|]. cbn.
  destruct (match sp_child w with Raise (OSError _) => _ | o => o end) as [[pid|]|e]; cbn; [|by split_and!; [..|left]..].
  destruct (1 <=? pid); cbn; [|by split_and!; [..|left]].
  destruct (if sl_start_new_session l then _ else _) as [g|e]; cbn; [|by split_and!; [..|left]].
  destruct (make_launch_operation _) as [o|e] eqn:Eo; cbn; [|by split_and!; [..|left]].
  split_and!; [done|done|]. right. split; [done|]. exists o. pose proof (make_operation_same _ _ Eo) as ->. by split_and!.
Qed.
Lemma wait_cases w now l : sl_fence (fst (wait w now l)) = sl_fence l ∧ sl_child (fst (wait w now l)) = sl_child l
  ∧ (sl_operation (fst (wait w now l)) = sl_operation l
     ∨ ∃ o code o', w = Ret (Exited (Some code)) ∧ sl_operation l = Some o ∧ launch_is_terminal o = false ∧ sl_operation (fst (wait w now l)) = Some o'
        ∧ make_launch_operation o' = Ret o' ∧ launch_fence o' = sl_fence l ∧ launch_operation_id o' = f_operation_id (sl_fence l)
        ∧ launch_terminal_at o' = Some now ∧ launch_state o' = exit_state code ∧ same_process o o').
Proof.
  unfold wait, operation. run_unfold. cbn. destruct (sl_child l) eqn:Ec; cbn; [|by split_and!; [..|left]].
  destruct w as [[|[code|]]|e]; cbn; [by split_and!; [..|left]| |by split_and!; [..|left]..].
  destruct (sl_operation l) as [o|] eqn:Eo; cbn; [|by split_and!; [..|left]].
  destruct (launch_is_terminal o) eqn:Et; cbn; [by split_and!; [..|left]|].
  destruct (make_launch_operation _) as [o'|e] eqn:Em; cbn; [|by split_and!; [..|left]].
  split_and!; [done|done|]. right. pose proof (make_operation_same _ _ Em) as ->. eexists o, code, _. split_and!; [done..|]. unfold same_process. rewrite Et. by split_and!.
Qed.
Lemma signal_same k l : fst (signal_group k l) = l.
Proof. unfold signal_group, operation. run_unfold. cbn. destruct (sl_operation l) as [o|]; cbn; [|done]. by destruct (launch_process_group_id o). Qed.

Lemma perform_inv fence events l e : launch_inv fence events l → launch_inv fence (events ++ [e]) (perform l e).
Proof.
  intros [Hf Ho]. destruct e as [w|w now|k]; cbn [perform].
  - destruct (start_cases w l) as (Ef & Ec & Eo). constructor; [congruence|]. intros o Hs.
    destruct Eo as [E|(Hc & o1 & E1 & Hv & Hof & Hid & Ht & Hch)].
    + rewrite E in Hs. destruct (Ho o Hs) as [Hc Hok]. split; [by apply Ec|by apply launch_ok_more].
    + assert (o1 = o) as -> by congruence. split; [done|]. constructor; [done|congruence|congruence|]. rewrite Ht. done.
  - destruct (wait_cases w now l) as (Ef & Ec & Eo). constructor; [congruence|]. intros o Hs. rewrite Ec.
    destruct Eo as [E|(o1 & code & o2 & -> & E1 & _ & E2 & Hv & Hof & Hid & Ht & Hst & _)].
    + rewrite E in Hs. destruct (Ho o Hs) as [Hc Hok]. split; [done|by apply launch_ok_more].
    + assert (o2 = o) as -> by congruence. split; [by destruct (Ho o1 E1)|]. constructor; [done|congruence|congruence|].
      intros _. exists code, now. split; [apply elem_of_app; right; left|done].
  - rewrite signal_same. constructor; [done|]. intros o Hs. destruct (Ho o Hs). split; [done|by apply launch_ok_more].
Qed.
Lemma performed_inv argv fence ns events : launch_inv fence events (perform_all (new_launch argv fence ns) events).
Proof.
  induction events as [|e events IH] using rev_ind; [by constructor|]. unfold perform_all. rewrite foldl_snoc. by apply perform_inv.
Qed.
Lemma same_process_trans a b c : same_process a b → same_process b c → same_process a c.
Proof. intros (P1 & G1 & S1 & T1) (P2 & G2 & S2 & T2). repeat split; try congruence. intros Ht. pose proof (T1 Ht) as ->. by apply T2. Qed.
Lemma perform_same fence events l e o : launch_inv fence events l → sl_operation l = Some o → ∃ o', sl_operation (perform l e) = Some o' ∧ same_process o o'.
Proof.
  intros Hi Ho. assert (same_process o o) as Hsame by done. destruct e as [w|w now|k]; cbn [perform].
  - destruct (start_cases w l) as (_ & _ & [E|(Hc & _)]); [exists o; by rewrite E|]. destruct (li_operation _ _ _ Hi o Ho). congruence.
  - destruct (wait_cases w now l) as (_ & _ & [E|(o1 & code & o2 & _ & E1 & _ & E2 & _ & _ & _ & _ & _ & Hs)]); [exists o; by rewrite E|].
    assert (o1 = o) as -> by congruence. by exists o2.
  - rewrite signal_same. by exists o.
Qed.
Lemma performed_same argv fence ns events more o : sl_operation (perform_all (new_launch argv fence ns) events) = Some o →
  ∃ o', sl_operation (perform_all (new_launch argv fence ns) (events ++ more)) = Some o' ∧ same_process o o'.
Proof.
  intros Ho. induction more as [|e more (o1 & E1 & S1)] using rev_ind; [rewrite app_nil_r; by exists o|].
  rewrite (assoc_L (++)). unfold perform_all in *. rewrite foldl_snoc.
  destruct (perform_same fence (events ++ more) _ e o1 (performed_inv argv fence ns _) E1) as (o2 & E2 & S2). exists o2. split; [done|]. by eapply same_process_trans.
Qed.
(** An exit the launcher reports makes a started operation terminal. *)
Lemma exit_is_terminal fence events l o code t : launch_inv fence events l → sl_operation l = Some o →
  ∃ o', sl_operation (perform l (EvWait (Ret (Exited (Some code))) t)) = Some o' ∧ launch_is_terminal o' = true.
Proof.
  intros Hi Ho. destruct (li_operation _ _ _ Hi o Ho) as [Hc Hok]. cbn [perform]. unfold wait, operation. run_unfold. cbn. rewrite Hc. cbn. rewrite Ho. cbn.
  destruct (launch_is_terminal o) eqn:Et; cbn; [by exists o|]. pose proof (lo_valid _ _ _ Hok) as Hv. rewrite (li_fence _ _ _ Hi), <-(lo_id _ _ _ Hok).
  unfold make_launch_operation in Hv. apply obind_ret in Hv as ([] & H1 & Hv). apply obind_ret in Hv as ([] & H2 & Hv). apply obind_ret in Hv as ([] & H3 & _).
  unfold make_launch_operation. cbn. unfold mbind, outcome_bind. rewrite H1, H2, H3. destruct (code =? 0); cbn; by eexists.
Qed.

(** C28: Only the launcher's own exit makes a launch terminal.  After any sequence
    of starts, waits and signals, a recorded operation carries the fence of its
    launch; it is terminal only if a wait returned an exit code, and then its state
    and its end are those of that exit: a wait that timed out or a signal proves
    nothing.  Whatever follows, process, group and start stay the same and a
    terminal operation never changes; and the next exit the launcher reports makes
    it terminal. *)
Theorem launch_terminal_by_exit argv fence ns events o : sl_operation (perform_all (new_launch argv fence ns) events) = Some o →
  launch_fence o = fence
  ∧ (launch_is_terminal o = true →
     ∃ code t, EvWait (Ret (Exited (Some code))) t ∈ events ∧ launch_terminal_at o = Some t ∧ launch_state o = exit_state code)
  ∧ (∀ more, ∃ o', sl_operation (perform_all (new_launch argv fence ns) (events ++ more)) = Some o' ∧ same_process o o')
  ∧ ∀ code t, ∃ o', sl_operation (perform_all (new_launch argv fence ns) (events ++ [EvWait (Ret (Exited (Some code))) t])) = Some o'
                    ∧ launch_is_terminal o' = true.
Proof.
  intros Ho. pose proof (performed_inv argv fence ns events) as Hi. destruct (li_operation _ _ _ Hi o Ho) as [_ Hok]. split_and!.
  - apply Hok.
  - apply Hok.
  - intros more. by apply performed_same.
  - intros code t. unfold perform_all. rewrite foldl_snoc. by eapply exit_is_terminal.
Qed.

Definition demo_fence : Fence := {| f_boot_id := "lab-boot"; f_model_id := "lab"; f_generation := 1; f_operation_id := "lab-launch-1"; f_execution_id := None; f_attempt := None |}.
Definition demo_spawn : Spawn := {| sp_child := Ret (Some 7); sp_group := Ret 7; sp_now := 0 |}.
Definition demo_events : list LaunchEvent := [EvStart demo_spawn; EvWait (Ret TimedOut) 5; EvSignal (Ret tt); EvWait (Ret (Exited (Some 0))) 9].
Lemma launch_terminal_by_exit_witness : ∃ o, sl_operation (perform_all (new_launch ["run"] demo_fence true) demo_events) = Some o ∧ launch_fence o = demo_fence ∧ launch_terminal_at o = Some 9.
Proof.
  destruct (sl_operation (perform_all (new_launch ["run"] demo_fence true) demo_events)) as [o|] eqn:E; [|vm_compute in E; discriminate].
  exists o. split; [reflexivity|]. split; [apply (launch_terminal_by_exit ["run"] demo_fence true demo_events o E)|]. vm_compute in E. by injection E as <-.
Defined.
(** [_lab_exec] reports 0 for a launcher that never exited. *)
Example lab_exec_unproven : snd (lab_exec demo_spawn (Ret TimedOut) 900 (Ret tt) (Ret TimedOut) 960 (new_launch ["run"] demo_fence true)) = Ret 0.
Proof. vm_compute. reflexivity. Qed.
