(* ===== verification/Preflight.v ===== *)
(** * The site preflight and the v3 deployment

    [model_scheduler/preflight_v3.py]: the identity of a deployment manifest, the
    comparison with the live site and the production gate; and from [deploy.py]
    the rendering of a candidate ([render_v3]) and the preflight command with the
    site facts it reads ([live_site]).  A manifest is a JSON object; the files that
    are written are values of the result. *)

From S2P Require Import Prelude Text Dict Contracts Registration RegistrationProps RegistrationText JsonText JsonTextProps Identity Requests Config Envelopes Observer Control Api App Launch LaunchProps Evidence Evaluator Verify Runner.
From Stdlib Require Import Ascii QArith.
Local Open Scope Z_scope.

(** ** The identity of a manifest *)
Definition MANIFEST_SCHEMA : Z := 3.
Definition MODES : list string := ["production"; "lab"].
Definition IDENTITY_FIELDS : list string :=
  ["schema_version"; "mode"; "deployment_id"; "candidate_sha256"; "source_archive_sha256"; "config_sha256"; "device_digest"].
(** [(?:[A-Za-z0-9][A-Za-z0-9._/:@-]*@)?sha256:[0-9a-f]{64}] *)
Definition is_letter_or_digit (c : ascii) : bool := is_alnum c || ((65 <=? code c) && (code c <=? 90)).
Definition image_char (c : ascii) : bool := is_letter_or_digit c || bool_decide (code c ∈ [46; 95; 47; 58; 64; 45]).
Definition image_name (l : list ascii) : bool :=
  match l with
  | [] => true
  | c :: l => is_letter_or_digit c && bool_decide (option_map code (last l) = Some 64) && forallb image_char l
  end.
Definition IMAGE_RE (s : string) : bool :=
  let n := (String.length s - 71)%nat in
  let digest := String.substring n 71 s in
  String.prefix "sha256:" digest && SHA256_RE (String.substring 7 64 digest) && image_name (take n (chars s)).

Definition preflight_error {A} (msg : string) (code : Z) : outcome A := Raise (PreflightError msg code).
Definition insist (ok : bool) (msg : string) (code : Z) : outcome unit := if ok then Ret tt else preflight_error msg code.

Definition model_identity (entry : list (string * json)) : json :=
  JObj [("container_name", got (jget "container_name" entry)); ("image_digest", got (jget "image_digest" entry))].
Definition identity_models (models : list (string * json)) : list (string * json) :=
  omap (fun '(model_id, entry) => match entry with JObj e => Some (model_id, model_identity e) | _ => None end) (sort_fields models).
Definition identity_block (manifest : list (string * json)) : outcome json :=
  models ← match jget "models" manifest with
           | Some (JObj f) => Ret f
           | Some v => if Observer.py_true v then Raise (AttributeError "items") else Ret []
           | None => Ret []
           end;
  Ret (JObj (map (fun field => (field, got (jget field manifest))) IDENTITY_FIELDS ++ [("models", JObj (identity_models models))])).

Section Preflight.
Context (py_str : json → string) `{FloatText} `{Digest} `{IsoTime}.

Definition manifest_identity (manifest : list (string * json)) : outcome string := block ← identity_block manifest; body_digest block.
Definition require_entry (deployment_id : string) (kv : string * json) : outcome unit :=
  match kv with
  | (entry_id, JObj entry) =>
      _ ← insist (match jget "image_digest" entry with Some (JStr image) => IMAGE_RE image | _ => false end) "no pinned image digest" 2;
      insist (equals (jget "container_name" entry) (JStr ("sms-" +:+ deployment_id +:+ "-" +:+ entry_id))) "invalid container name" 2
  | _ => preflight_error "no launch entry" 2
  end.
Definition require_manifest_identity (document : json) (model_id : option string) : outcome unit :=
  match document with
  | JObj manifest =>
      _ ← insist (equals (jget "schema_version" manifest) (JInt MANIFEST_SCHEMA)) "schema version" 2;
      _ ← insist (existsb (fun m => equals (jget "mode" manifest) (JStr m)) MODES) "mode" 2;
      _ ← check_each ["candidate_sha256"; "source_archive_sha256"; "config_sha256"; "device_digest"] (fun field =>
            insist (match jget field manifest with Some (JStr v) => SHA256_RE v | _ => false end) field 2);
      deployment ← match jget "deployment_id" manifest with
                   | Some (JStr d) => if DEPLOYMENT_RE d then Ret d else preflight_error "deployment_id" 2
                   | _ => preflight_error "deployment_id" 2
                   end;
      models ← match jget "models" manifest with Some (JObj ((_ :: _) as models)) => Ret models | _ => preflight_error "no models" 2 end;
      _ ← check_each (sort_fields models) (require_entry deployment);
      _ ← insist (match model_id with Some m => bool_decide (is_Some (jget m models)) | None => true end) "not part of this manifest" 2;
      identity ← match jget "identity_sha256" manifest with Some (JStr recorded) => Ret recorded | _ => preflight_error "identity digest" 3 end;
      computed ← manifest_identity manifest;
      insist (String.eqb identity computed) "the file was edited" 3
  | _ => preflight_error "the manifest must be an object" 2
  end.

(** ** The live site *)
Definition SITE_FIELDS : list string :=
  ["machine_id_sha256"; "architecture"; "device_tree_sha256"; "mem_total_bytes"; "kernel_release"; "model_disk_uuid"; "scratch_disk_uuid"].
Definition same (a b : option json) : bool := py_eq (got a) (got b).
(** [_utc(evidence.get("started_at"), ...)] *)
Definition preflight_utc (v : option json) : outcome Z :=
  match fromisoformat (zulu (match got v with JStr s => s | v => py_str v end)) with
  | None => preflight_error "not a valid timestamp" 2
  | Some (_, None) => preflight_error "the timestamp must carry a UTC offset" 2
  | Some (t, Some offset) => Ret (t - offset)
  end.
Definition asset_problems (model_files : list (string * json)) (asset : json) : outcome (list string) :=
  match asset with
  | JObj a =>
      _ ← require_or (hashable (got (jget "path" a))) (TypeError "unhashable type");
      match match jget "path" a with Some (JStr name) => mapping_of_json (jget name model_files) | _ => None end with
      | None => Ret ["asset is missing from the site listing"]
      | Some seen => Ret (unless (same (jget "size_bytes" seen) (jget "size_bytes" a) && same (jget "sha256" seen) (jget "sha256" a)) "asset size/hash differs")
      end
  | _ => Raise (AttributeError "get")
  end.
Definition model_problems (images model_files : list (string * json)) (kv : string * json) : outcome (list string) :=
  match kv with
  | (_, JObj entry) =>
      let image := match jget "image_digest" entry with Some (JStr s) => s | _ => "" end in
      assets ← match jget "assets" entry with
               | None => Ret []
               | Some v => if Observer.py_true v then iterate v else Ret []
               end;
      problems ← mapM (asset_problems model_files) assets;
      Ret (unless (is_true (jget image images)) "the image is not present on this site" ++ mjoin problems)
  | _ => Raise (AttributeError "get")
  end.
Definition evidence_problems (manifest : list (string * json)) (now : Z) : outcome (list string) :=
  match mapping_of_json (jget "evidence" manifest) with
  | None => Ret ["the manifest carries no evidence reference"]
  | Some evidence => started ← preflight_utc (jget "started_at" evidence); Ret (window_problems now started)
  end.
(** The problems of the environment; it is accepted if there are none. *)
Definition verify_environment (document : json) (site : list (string * json)) (now : Z) : outcome (list string) :=
  _ ← require_manifest_identity document None;
  match document with
  | JObj manifest =>
      let fields := default [] (mapping_of_json (jget "models" manifest)) in
      models ← mapM (model_problems (default [] (mapping_of_json (jget "images" site))) (default [] (mapping_of_json (jget "model_files" site)))) (sort_fields fields);
      evidence ← evidence_problems manifest now;
      Ret (unless (equals (jget "mode" manifest) (JStr "production")) "a lab manifest"
           ++ unless (equals (jget "force" manifest) JNull || equals (jget "force" manifest) (JBool false)) "a force flag"
           ++ match mapping_of_json (jget "device" manifest) with
              | None => ["no device facts"]
              | Some device => mjoin (map (fun field => unless (same (jget field device) (jget field site)) field) SITE_FIELDS)
              end
           ++ unless (same (jget "config_sha256" manifest) (jget "config_sha256" site)) "config digest"
           ++ unless (same (jget "source_archive_sha256" manifest) (jget "source_archive_sha256" site)) "source archive digest"
           ++ unless (equals (jget "model_filesystem" manifest) JNull || same (jget "model_filesystem" manifest) (jget "filesystem" site)) "filesystem"
           ++ mjoin models ++ evidence)
  | _ => preflight_error "the manifest must be an object" 2
  end.
Definition production_gate (document : json) (candidate : Entry) (tree : Tree) (site : list (string * json)) (now : Z) : outcome (list string) :=
  environment ← verify_environment document site now;
  '(code, _) ← verify_evidence py_str candidate tree now;
  Ret (environment ++ unless (code =? 0) "the evidence does not verify offline").

(** [live_site]: what the device tree says, or why it says nothing. *)
Definition live_site (hardware : outcome (string * list string)) (model_directory : option json) : outcome (list (string * json)) :=
  read ← match hardware with
         | Ret (model, compatible) => Ret [("model", JStr model); ("compatible", JList (map JStr compatible))]
         | Raise (DeployError msg) => Ret [("device_tree_unavailable", JStr msg)]
         | Raise e => Raise e
         end;
  Ret (read ++ [("filesystem", JStr "ext4"); ("model_files", JObj []); ("images", JObj []); ("model_directory", got model_directory)]).
(** [manifest] is the text of the file, if it could be read; the answer is the exit code. *)
Definition preflight_v3_command (manifest : option string) (hardware : outcome (string * list string)) (candidate : option Entry) (evidence : option Tree) (now : Z)
    : outcome Z :=
  match manifest with
  | None => Ret 2
  | Some bytes =>
      text ← read_text bytes;
      match loads plain_hooks text with
      | Raise (ValueError _) => Ret 2
      | Raise e => Raise e
      | Ret (JObj fields) =>
          site ← live_site hardware (jget "model_directory" fields);
          match evidence, candidate with
          | Some _, None => Ret 2
          | _, _ =>
              match match evidence, candidate with
                    | Some tree, Some c => production_gate (JObj fields) c tree site now
                    | _, _ => verify_environment (JObj fields) site now
                    end with
              | Raise (PreflightError _ code) => Ret code
              | Raise e => Raise e
              | Ret problems => Ret (if bool_decide (problems = []) then 0 else 3)
              end
          end
      | Ret _ => Raise (AttributeError "get")
      end
  end.

(** ** Rendering a candidate *)
Definition deploy_error {A} (msg : string) : outcome A := Raise (DeployError msg).
Record RenderedV3 := { rn_manifest : list (string * json); rn_not_production : bool }.
Definition read_candidate (candidate : Entry) : outcome CandidateV3 :=
  match file_bytes candidate with
  | None => deploy_error "cannot read the candidate"
  | Some bytes =>
      text ← read_text bytes;
      match document ← loads plain_hooks text; parse_candidate document with
      | Raise (ValueError _ | ContractError _) => deploy_error "cannot read the candidate"
      | r => r
      end
  end.
Definition require_json (fields : list (string * json)) (key : string) : outcome json := of_option (KeyError key) (jget key fields).
Definition evidence_json (candidate : Entry) (tree : Tree) (now : Z) : outcome json :=
  '(code, _) ← verify_evidence py_str candidate tree now;
  if negb (code =? 0) then deploy_error "the evidence does not verify offline"
  else match file_bytes (tree "report.json") with
       | None => Raise (OSError "report.json")
       | Some bytes =>
           text ← read_text bytes; document ← loads plain_hooks text;
           report ← match document with JObj f => Ret f | _ => Raise (TypeError "indices must be integers") end;
           run ← require_json report "run_id"; started ← require_json report "started_at"; ended ← require_json report "ended_at";
           Ret (JObj [("run_id", run); ("started_at", started); ("ended_at", ended); ("report_sha256", JStr (sha256_hex bytes))])
       end.
Definition launch_entry (m : RegisteredModelSpec) (l : ContainerLaunch) : json :=
  JObj [("container_name", JStr (container_name l)); ("image_digest", JStr (l_image_digest l)); ("runtime_id", JStr (l_runtime_id l));
        ("profile_id", JStr (l_profile_id l)); ("port", JInt (l_port l)); ("argv", JList (map JStr (argv l)));
        ("labels", JObj (map (fun kv => (fst kv, JStr (snd kv))) (labels l))); ("assets", JList (map asset_json (v2_assets m)))].
Fixpoint render_models (c : CandidateV3) (directory mode runtime : string) (budget : option Z) (models : list RegisteredModelSpec) : outcome (list (string * json)) :=
  match models with
  | [] => Ret []
  | m :: models =>
      launch ← render_container_launch {| dep_runtimes := ca_runtimes c; dep_models := ca_models c |} (v2_model_id m) (ca_deployment_id c) directory
                 (ca_config_sha256 c) mode runtime budget;
      rest ← render_models c directory mode runtime budget models;
      Ret ((v2_model_id m, launch_entry m launch) :: rest)
  end.
Definition manifest_fields (c : CandidateV3) (mode digest device directory : string) (models : list (string * json)) (evidence : json) : list (string * json) :=
  [("schema_version", JInt 3); ("mode", JStr mode); ("production", JBool (String.eqb mode "production")); ("deployment_id", JStr (ca_deployment_id c));
   ("candidate_sha256", JStr digest); ("source_archive_sha256", JStr (ca_source_archive_sha256 c)); ("config_sha256", JStr (ca_config_sha256 c));
   ("device_digest", JStr device); ("device", device_json (ca_device c)); ("runtime_stack", stack_json (ca_runtime_stack c));
   ("model_directory", JStr directory); ("container_prefix", JStr ("sms-" +:+ ca_deployment_id c)); ("models", JObj models); ("evidence", evidence)].
Definition render_v3 (candidate : Entry) (tree : option Tree) (occupied : bool) (mode directory runtime : string) (budget : option Z) (now : Z) : outcome RenderedV3 :=
  _ ← require_or (bool_decide (mode ∈ MODES)) (DeployError "the render mode must be production or lab");
  c ← read_candidate candidate;
  _ ← require_or (negb occupied) (DeployError "refusing to render into a non-empty directory");
  evidence ← (if String.eqb mode "production" then
                match tree with None => deploy_error "a production render requires --evidence" | Some tree => evidence_json candidate tree now end
              else _ ← require_or (match budget with Some b => 0 <? b | None => false end) (DeployError "a lab render requires --temporary-budget-bytes");
                   Ret JNull);
  models ← render_models c directory mode runtime budget (ca_models c);
  digest ← candidate_digest c; device ← device_digest (ca_device c);
  let manifest := manifest_fields c mode digest device directory models evidence in
  identity ← manifest_identity manifest;
  Ret {| rn_manifest := manifest ++ [("identity_sha256", JStr identity)]; rn_not_production := String.eqb mode "lab" |}.
End Preflight.

(** ** A rendered manifest *)
Lemma preflight_insist_ret ok msg code u : insist ok msg code = Ret u ↔ ok = true.
Proof. unfold insist. destruct ok, u; [done|]. by split. Qed.
Lemma require_or_ret ok e u : require_or ok e = Ret u ↔ ok = true.
Proof. unfold require_or. destruct ok, u; [done|]. by split. Qed.
Lemma equals_text s : equals (Some (JStr s)) (JStr s) = true.
Proof. apply String.eqb_refl. Qed.
Lemma jget_is_Some id l : is_Some (jget id l) ↔ id ∈ l.*1.
Proof.
  induction l as [|[k v] l IH]; cbn; [split; [by intros []|by intros ?%not_elem_of_nil]|]. destruct (String.eqb_spec id k) as [->|Hne].
  - split; [left|by eexists].
  - rewrite IH, elem_of_cons. tauto.
Qed.
Lemma launch_identity reg id dep dir digest mode gpu budget l : render_container_launch reg id dep dir digest mode gpu budget = Ret l →
  DEPLOYMENT_RE dep = true ∧ container_name l = "sms-" +:+ dep +:+ "-" +:+ id ∧ ∃ r, r ∈ dep_runtimes reg ∧ l_image_digest l = rt_image_digest r.
Proof.
  unfold render_container_launch, check_deployment_id, check_config_sha256, check_model_directory, check_container_runtime, lookup_model. intros Hl.
  inv_launch. case_match; inv_launch; simplify_eq; cbn [container_name l_image_digest];
    repeat match goal with H : lookup_last _ _ _ = Some _ |- _ => apply lookup_last_some in H as [? ?] end; subst; (split_and!; [done..|]); by eexists.
Qed.
Lemma candidate_shas v c : parse_candidate v = Ret c → SHA256_RE (ca_source_archive_sha256 c) = true ∧ SHA256_RE (ca_config_sha256 c) = true ∧ ca_models c ≠ [].
Proof.
  unfold parse_candidate, sha256_field. intros E. cbv zeta in E. inv_parse. cbn. split_and!; [done..|]. intros ->. bool_prop. done.
Qed.

Lemma read_candidate_parses e c : read_candidate e = Ret c → ∃ v, parse_candidate v = Ret c.
Proof.
  unfold read_candidate. destruct (file_bytes e); [|done]. intros (t & _ & E)%obind_ret. unfold mbind, outcome_bind in E. destruct (loads plain_hooks t) as [v|x]; [|by destruct x].
  exists v. destruct (parse_candidate v) as [c'|x]; [done|by destruct x].
Qed.

Section Rendered.
Context (py_str : json → string) `{FloatText} `{Digest} `{IsoTime}.
Context (hexdigest : ∀ data, SHA256_RE (sha256_hex data) = true).

Lemma rendered_entries c dir mode gpu budget models fields : render_models c dir mode gpu budget models = Ret fields →
  (∀ r, r ∈ ca_runtimes c → IMAGE_RE (rt_image_digest r) = true) →
  fields.*1 = (v2_model_id <$> models) ∧ (models ≠ [] → DEPLOYMENT_RE (ca_deployment_id c) = true) ∧ ∀ kv, kv ∈ fields → require_entry (ca_deployment_id c) kv = Ret tt.
Proof.
  intros E Him. revert fields E. induction models as [|m models IH]; intros fields; cbn [render_models].
  - intros [= <-]. split_and!; [done..|]. by intros kv ?%not_elem_of_nil.
  - intros (l & Hl & (rest & Hrest & [= <-])%obind_ret)%obind_ret. apply launch_identity in Hl as (Hd & Hn & r & Hr & Hi). destruct (IH _ Hrest) as (Hk & _ & He).
    split_and!; [cbn; by rewrite Hk|done|]. intros kv [->|Hkv]%elem_of_cons; [|by apply He]. cbn [require_entry].
    unfold launch_entry. cbn [jget String.eqb Ascii.eqb Bool.eqb]. rewrite Hi, (Him r Hr), Hn. unfold insist, mbind, outcome_bind. by rewrite equals_text.
Qed.
Lemma body_digest_hex b h : body_digest b = Ret h → SHA256_RE h = true.
Proof. intros (t & _ & [= <-])%obind_ret. apply hexdigest. Qed.

(** The manifest is checked field by field. *)
Lemma manifest_accepted c mode h d directory models evidence ident id :
  mode ∈ MODES → SHA256_RE h = true → SHA256_RE d = true → SHA256_RE (ca_source_archive_sha256 c) = true → SHA256_RE (ca_config_sha256 c) = true →
  DEPLOYMENT_RE (ca_deployment_id c) = true → models ≠ [] → (∀ kv, kv ∈ models → require_entry (ca_deployment_id c) kv = Ret tt) →
  manifest_identity (manifest_fields c mode h d directory models evidence) = Ret ident →
  require_manifest_identity (JObj (manifest_fields c mode h d directory models evidence ++ [("identity_sha256", JStr ident)])) (Some id) = Ret tt ↔ id ∈ models.*1.
Proof.
  intros Hmode Hh Hd Hs Hc Hdep Hne He Hid.
  assert (manifest_identity (manifest_fields c mode h d directory models evidence ++ [("identity_sha256", JStr ident)]) = Ret ident) as Hid' by exact Hid.
  unfold require_manifest_identity. rewrite Hid'. clear Hid Hid'. unfold manifest_fields. cbn [app jget String.eqb Ascii.eqb Bool.eqb].
  assert (existsb (fun m => equals (Some (JStr mode)) (JStr m)) MODES = true) as ->.
  { apply existsb_exists. exists mode. split; [by apply list_elem_of_In|apply equals_text]. }
  change (equals (Some (JInt 3)) (JInt MANIFEST_SCHEMA)) with true. rewrite Hdep. destruct models as [|kv models]; [done|].
  match goal with |- context [check_each ("candidate_sha256" :: ?l) ?f] => assert (check_each ("candidate_sha256" :: l) f = Ret tt) as -> end.
  { cbn [check_each app jget String.eqb Ascii.eqb Bool.eqb]. by rewrite Hh, Hs, Hc, Hd. }
  unfold mbind, outcome_bind. cbn [insist].
  assert (check_each (sort_fields (kv :: models)) (require_entry (ca_deployment_id c)) = Ret tt) as ->.
  { apply check_each_ret. intros x Hx. apply He. by rewrite <-sort_fields_perm. }
  unfold insist. rewrite String.eqb_refl. rewrite <-jget_is_Some. case_bool_decide as Hj; by split.
Qed.

(** What is rendered is accepted.  Every manifest [render_v3] writes passes the
    identity check the launcher repeats before each start, for each model of the
    candidate and for no other model: its digests are well formed, every image is
    pinned, every container carries its own name, and the identity digest matches.
    A production manifest was only written after its evidence verified offline; a
    lab one is marked as not for production. *)
Theorem rendered_manifest_identified candidate tree occupied mode directory gpu budget now r :
  render_v3 py_str candidate tree occupied mode directory gpu budget now = Ret r →
  (∀ c x, read_candidate candidate = Ret c → x ∈ ca_runtimes c → IMAGE_RE (rt_image_digest x) = true) →
  ∃ c, read_candidate candidate = Ret c
    ∧ (∀ id, require_manifest_identity (JObj (rn_manifest r)) (Some id) = Ret tt ↔ id ∈ (v2_model_id <$> ca_models c))
    ∧ (mode = "production" → rn_not_production r = false ∧ ∃ t document, tree = Some t ∧ verify_evidence py_str candidate t now = Ret (EXIT_OK, document))
    ∧ (mode ≠ "production" → rn_not_production r = true).
Proof.
  unfold render_v3. intros (u & Hmode%require_or_ret%bool_decide_eq_true & (c & Hc & (u2 & _ & (ev & Hev & (models & Hm & (h & Eh & (d & Ed & E)%obind_ret)%obind_ret)%obind_ret)%obind_ret)%obind_ret)%obind_ret)%obind_ret Him.
  cbv zeta in E. apply obind_ret in E as (ident & Hid & [= <-]). cbn [rn_manifest rn_not_production].
  exists c. split; [done|]. destruct (read_candidate_parses _ _ Hc) as (v & Hv). destruct (candidate_shas _ _ Hv) as (Hs1 & Hs2 & Hne).
  destruct (rendered_entries _ _ _ _ _ _ _ Hm (fun x Hx => Him c x Hc Hx)) as (Hkeys & Hd & He). specialize (Hd Hne).
  split_and!.
  - intros id. rewrite (manifest_accepted c mode h d directory models ev ident id); [by rewrite Hkeys|done|by eapply body_digest_hex..|done|done|done| |done|done].
    intros ->. destruct (ca_models c); [done|]. done.
  - intros ->. split; [done|]. cbn in Hev. destruct tree as [t|]; [|done]. exists t. apply obind_ret in Hev as ([code doc] & Hver & Hev).
    destruct (Z.eqb_spec code 0) as [->|]; [|done]. by exists doc.
  - intros Hp. apply elem_of_cons in Hmode as [->|Hmode]; [done|]. by apply list_elem_of_singleton in Hmode as ->.
Qed.

(** What is rendered cannot be started by the model runner.  A v3 manifest has
    no [image] of its own, which [docker_run_argv] requires: for every model and
    every digest the runner refuses each manifest [render_v3] writes, although it
    checks the identity of just such manifests first. *)
Theorem rendered_not_startable candidate tree occupied mode directory gpu budget now r model sha :
  render_v3 py_str candidate tree occupied mode directory gpu budget now = Ret r → ∃ msg, docker_run_argv (rn_manifest r) model sha = Raise (RunnerError msg).
Proof.
  unfold render_v3. intros E. repeat (apply obind_ret in E as (? & _ & E)). injection E as <-. cbn [rn_manifest].
  unfold docker_run_argv, demand, runner_error. unfold mbind, outcome_bind. destruct (_ && _); [|by eexists]. cbv zeta. unfold manifest_fields.
  cbn [app jget String.eqb Ascii.eqb Bool.eqb str_of of_option]. destruct (DEPLOYMENT_RE _); by eexists.
Qed.
End Rendered.

(** ** What the preflight accepts *)
Section Gate.
Context (py_str : json → string) `{FloatText} `{Digest} `{IsoTime}.

Definition models_of (manifest : list (string * json)) : list (string * json) := default [] (mapping_of_json (jget "models" manifest)).
Definition images_of (site : list (string * json)) : list (string * json) := default [] (mapping_of_json (jget "images" site)).
Definition files_of (site : list (string * json)) : list (string * json) := default [] (mapping_of_json (jget "model_files" site)).
Lemma mapM_nil {A B} (f : A → outcome (list B)) l k : mapM f l = Ret k → mjoin k = [] → ∀ x, x ∈ l → f x = Ret [].
Proof.
  intros HF%mapM_ret Hk x (i & Hx)%list_elem_of_lookup. destruct (Forall2_lookup_l _ _ _ _ _ HF Hx) as (y & Hy & E).
  rewrite E. f_equal. apply list_elem_of_lookup_2 in Hy. clear -Hk Hy. induction k as [|z k IH]; [by apply not_elem_of_nil in Hy|].
  apply app_nil in Hk as [-> Hk]. apply elem_of_cons in Hy as [->|Hy]; auto.
Qed.
Lemma environment_inv document site now : verify_environment py_str document site now = Ret [] →
  ∃ manifest, document = JObj manifest ∧ require_manifest_identity document None = Ret tt ∧ equals (jget "mode" manifest) (JStr "production") = true
    ∧ (equals (jget "force" manifest) JNull || equals (jget "force" manifest) (JBool false)) = true
    ∧ (∃ device, jget "device" manifest = Some (JObj device) ∧ ∀ field, field ∈ SITE_FIELDS → same (jget field device) (jget field site) = true)
    ∧ same (jget "config_sha256" manifest) (jget "config_sha256" site) = true
    ∧ same (jget "source_archive_sha256" manifest) (jget "source_archive_sha256" site) = true
    ∧ (equals (jget "model_filesystem" manifest) JNull || same (jget "model_filesystem" manifest) (jget "filesystem" site)) = true
    ∧ (∀ kv, kv ∈ models_of manifest → model_problems (images_of site) (files_of site) kv = Ret [])
    ∧ evidence_problems py_str manifest now = Ret [].
Proof.
  unfold verify_environment. intros ([] & Hi & E)%obind_ret. destruct document as [| | | | | |manifest]; try done. exists manifest.
  apply obind_ret in E as (models & Hm & E). apply obind_ret in E as (evidence & He & [= E]).
  rewrite !app_nil, !unless_nil in E. destruct E as (Hmode & Hforce & Hdev & Hc & Ha & Hfs & Hmodels & ->). split_and!; try done.
  - destruct (jget "device" manifest) as [[| | | | | |device]|]; try done. exists device. split; [done|]. 
    change (mjoin (map (fun field => unless (same (jget field device) (jget field site)) field) SITE_FIELDS) = []) in Hdev.
    rewrite join_nil in Hdev. intros field Hin. by apply unless_nil with (m := field), Hdev.
  - intros kv Hkv. apply (mapM_nil _ _ _ Hm Hmodels). by rewrite sort_fields_perm.
Qed.
(** The identity check leaves at least one model. *)
Lemma identity_models_some manifest id : require_manifest_identity (JObj manifest) id = Ret tt → ∃ kv, kv ∈ models_of manifest.
Proof.
  unfold require_manifest_identity, models_of. intros E. do 4 (apply obind_ret in E as (? & _ & E)). apply obind_ret in E as (models & Hm & _).
  destruct (jget "models" manifest) as [[| | | | | |[|kv l]]|]; try done. exists kv. left.
Qed.

(** The preflight command accepts no site.  [live_site] lists no image, and a
    manifest that passes the identity check has a model, whose image must be
    listed: whatever the manifest, the device tree and the evidence are, neither
    the environment check nor the production gate the command runs on these facts
    comes out without problems. *)
Theorem preflight_command_refuses hardware directory site document candidate tree now : live_site hardware directory = Ret site →
  verify_environment py_str document site now ≠ Ret [] ∧ production_gate py_str document candidate tree site now ≠ Ret [].
Proof.
  intros Hs. assert (images_of site = []) as Himg.
  { unfold live_site in Hs. apply obind_ret in Hs as (l & Hl & [= <-]). destruct hardware as [[m cs]|e]; [by injection Hl as <-|]. destruct e; try done. by injection Hl as <-. }
  assert (verify_environment py_str document site now ≠ Ret []) as Henv.
  { intros (manifest & -> & Hi & _ & _ & _ & _ & _ & _ & Hm & _)%environment_inv. destruct (identity_models_some _ _ Hi) as ([id entry] & Hin).
    specialize (Hm _ Hin). rewrite Himg in Hm. destruct entry as [| | | | | |entry]; try done. cbn [model_problems] in Hm.
    apply obind_ret in Hm as (assets & _ & Hm). apply obind_ret in Hm as (problems & _ & [= Hm]). }
  split; [done|]. unfold production_gate. intros (environment & Ee & E)%obind_ret. apply obind_ret in E as ([code doc] & _ & [= E]).
  apply app_nil in E as [-> _]. done.
Qed.

Lemma equals_str v s : equals v (JStr s) = true → v = Some (JStr s).
Proof. unfold equals. destruct v as [[| | |[q|]|t| |]|]; try done. cbn. by intros ->%String.eqb_eq. Qed.
Lemma identity_entries manifest id : require_manifest_identity (JObj manifest) id = Ret tt → ∃ dep, ∀ kv, kv ∈ models_of manifest → require_entry dep kv = Ret tt.
Proof.
  unfold require_manifest_identity, models_of. intros E. do 3 (apply obind_ret in E as (? & _ & E)). apply obind_ret in E as (dep & _ & E).
  apply obind_ret in E as (models & Hm & E). apply obind_ret in E as ([] & He & _). exists dep.
  destruct (jget "models" manifest) as [[| | | | | |[|kv l]]|]; try done. injection Hm as <-. intros y Hy. apply (proj1 (check_each_ret _ _) He). by rewrite sort_fields_perm.
Qed.
Lemma entry_image dep id entry : require_entry dep (id, JObj entry) = Ret tt → ∃ image, jget "image_digest" entry = Some (JStr image).
Proof. cbn [require_entry]. intros (u & Hi%preflight_insist_ret & _)%obind_ret. destruct (jget "image_digest" entry) as [[]|]; try done. by eexists. Qed.
Lemma model_clear images files id entry image : jget "image_digest" entry = Some (JStr image) → model_problems images files (id, JObj entry) = Ret [] →
  jget image images = Some (JBool true) ∧ ∀ assets, jget "assets" entry = Some (JList assets) → ∀ a, a ∈ assets → asset_problems files a = Ret [].
Proof.
  intros Eimg. cbn [model_problems]. rewrite Eimg. intros (assets & Has & (problems & Hp & [= E])%obind_ret)%obind_ret. apply app_nil in E as [Hpres%unless_nil E]. split.
  - destruct (jget image images) as [[|[]| | | | |]|]; done.
  - intros l El a Ha. rewrite El in Has. apply (mapM_nil _ _ _ Hp E). destruct l as [|b l]; [by apply not_elem_of_nil in Ha|]. by injection Has as <-.
Qed.
Lemma asset_clear files a : asset_problems files a = Ret [] → ∃ fields path seen, a = JObj fields ∧ jget "path" fields = Some (JStr path) ∧ jget path files = Some (JObj seen)
  ∧ same (jget "size_bytes" seen) (jget "size_bytes" fields) = true ∧ same (jget "sha256" seen) (jget "sha256" fields) = true.
Proof.
  destruct a as [| | | | | |fields]; try done. cbn [asset_problems]. intros (u & _ & E)%obind_ret. destruct (jget "path" fields) as [[| | | |path| |]|] eqn:Ep; try done.
  unfold mapping_of_json in E. destruct (jget path files) as [[| | | | | |seen]|] eqn:Ej; try done. injection E as E. apply unless_nil, andb_true_iff in E as [E1 E2].
  by exists fields, path, seen.
Qed.

(** A force flag that is absent, null, false, or a number equal to false *)
Definition unforced (manifest : list (string * json)) : Prop :=
  match jget "force" manifest with
  | None | Some JNull | Some (JBool false) => True
  | Some (JInt n) => n = 0
  | Some (JFloat (Some q)) => (q == 0)%Q
  | _ => False
  end.
Lemma unforced_spec manifest : (equals (jget "force" manifest) JNull || equals (jget "force" manifest) (JBool false)) = true → unforced manifest.
Proof.
  unfold unforced, equals. destruct (jget "force" manifest) as [[|[]|n|[q|]| | |]|]; cbn; try done.
  - unfold Qeq_bool. cbn. intros Hz%Z.eqb_eq. lia.
  - by intros Hq%Qeq_bool_iff.
Qed.
(** C26: What an open production gate has checked.  If [production_gate] finds no
    problem, then the manifest is a production manifest whose identity digest
    matches and which carries no force flag; the live device, configuration and
    source are those it names, and so is the filesystem if it names one; every
    model's image is present on the site and every asset is listed there with the
    size and hash of the manifest; the evidence it refers to began less than seven
    days before and at most 300 s after now; and the evidence directory verifies
    offline against the candidate file.  The gate does not compare the candidate
    digest of the manifest with the candidate file, so these are two facts about
    two candidates. *)
Theorem production_gate_sound document candidate tree site now : production_gate py_str document candidate tree site now = Ret [] →
  ∃ manifest, document = JObj manifest ∧ require_manifest_identity document None = Ret tt ∧ jget "mode" manifest = Some (JStr "production") ∧ unforced manifest
    ∧ (∃ device, jget "device" manifest = Some (JObj device) ∧ ∀ field, field ∈ SITE_FIELDS → same (jget field device) (jget field site) = true)
    ∧ same (jget "config_sha256" manifest) (jget "config_sha256" site) = true
    ∧ same (jget "source_archive_sha256" manifest) (jget "source_archive_sha256" site) = true
    ∧ (equals (jget "model_filesystem" manifest) JNull = true ∨ same (jget "model_filesystem" manifest) (jget "filesystem" site) = true)
    ∧ (∀ id entry, (id, JObj entry) ∈ models_of manifest → ∃ image, jget "image_digest" entry = Some (JStr image) ∧ jget image (images_of site) = Some (JBool true)
        ∧ ∀ assets a, jget "assets" entry = Some (JList assets) → a ∈ assets → ∃ fields path seen, a = JObj fields ∧ jget "path" fields = Some (JStr path)
            ∧ jget path (files_of site) = Some (JObj seen) ∧ same (jget "size_bytes" seen) (jget "size_bytes" fields) = true ∧ same (jget "sha256" seen) (jget "sha256" fields) = true)
    ∧ (∃ evidence t, jget "evidence" manifest = Some (JObj evidence) ∧ preflight_utc py_str (jget "started_at" evidence) = Ret t
        ∧ now - REPORT_VALIDITY_SECONDS * MICROSECONDS < t ≤ now + REPORT_FUTURE_TOLERANCE_SECONDS * MICROSECONDS)
    ∧ ∃ report, verify_evidence py_str candidate tree now = Ret (EXIT_OK, report).
Proof.
  unfold production_gate. intros (environment & Ee & E)%obind_ret. apply obind_ret in E as ([code report] & Hv & [= E]). apply app_nil in E as [-> Hcode%unless_nil%Z.eqb_eq].
  apply environment_inv in Ee as (manifest & -> & Hi & Hmode%equals_str & Hforce%unforced_spec & Hdev & Hc & Ha & Hfs%orb_true_iff & Hm & He).
  exists manifest. split_and!; try done.
  - intros id entry Hin. destruct (identity_entries _ _ Hi) as (dep & Hent). destruct (entry_image _ _ _ (Hent _ Hin)) as (image & Eimg). specialize (Hm _ Hin).
    destruct (model_clear _ _ _ _ _ Eimg Hm) as (Hpresent & Hassets). exists image. split_and!; [done..|]. intros assets a Eas Hina. by apply asset_clear, (Hassets assets).
  - unfold evidence_problems, mapping_of_json in He. destruct (jget "evidence" manifest) as [[| | | | | |evidence]|]; try done. apply obind_ret in He as (t & Et & [= Hw%window_nil]).
    by exists evidence, t.
  - exists report. by rewrite Hv, Hcode.
Qed.
End Gate.

(** ** A lab rendering, and a site that passes the gate *)
#[local] Existing Instance thousandths_floats.
#[local] Existing Instance demo_digest_zero.
#[local] Existing Instance demo_iso.
Local Notation lab_rendering := (render_v3 (fun _ => "x") demo_candidate_file None false "lab" "/srv/models" "nvidia" (Some 1) 2).
Lemma zero_hexdigest data : SHA256_RE (sha256_hex data) = true.
Proof. vm_compute. reflexivity. Qed.
Lemma lab_renders : ∃ r, lab_rendering = Ret r ∧ read_candidate demo_candidate_file = Ret small_candidate.
Proof. eexists. split; vm_compute; reflexivity. Qed.
Lemma rendered_manifest_identified_witness : ∃ r, lab_rendering = Ret r ∧ require_manifest_identity (JObj (rn_manifest r)) (Some "chat-8b") = Ret tt.
Proof.
  destruct lab_renders as (r & Hr & Hc). exists r. split; [exact Hr|].
  destruct (rendered_manifest_identified (fun _ => "x") zero_hexdigest demo_candidate_file None false "lab" "/srv/models" "nvidia" (Some 1) 2 r Hr) as (c & Hc' & Hid & _).
  - intros c x Hc'. rewrite Hc in Hc'. injection Hc' as <-. intros ->%list_elem_of_singleton. vm_compute. reflexivity.
  - rewrite Hc in Hc'. injection Hc' as <-. apply Hid. left.
Defined.
Lemma rendered_not_startable_witness : ∃ r msg, lab_rendering = Ret r ∧ docker_run_argv (rn_manifest r) "embedding" demo_sha = Raise (RunnerError msg).
Proof.
  destruct lab_renders as (r & Hr & Hc). exists r.
  destruct (rendered_not_startable (fun _ => "x") demo_candidate_file None false "lab" "/srv/models" "nvidia" (Some 1) 2 r "embedding" demo_sha Hr) as (msg & Hmsg).
  exists msg. split; [exact Hr|exact Hmsg].
Defined.

Definition no_device_tree : outcome (string * list string) := Raise (DeployError "cannot read hardware identity").
Lemma preflight_command_refuses_witness : ∃ site, live_site no_device_tree None = Ret site ∧ verify_environment (fun _ => "x") (JObj []) site 2 ≠ Ret [].
Proof.
  destruct (live_site no_device_tree None) as [site|e] eqn:E; [|vm_compute in E; discriminate]. exists site. split; [reflexivity|].
  apply (preflight_command_refuses (fun _ => "x") no_device_tree None site (JObj []) demo_candidate_file demo_evidence 2 E).
Defined.

Definition gate_image : string := "sha256:" +:+ demo_sha.
Definition gate_manifest : list (string * json) :=
  [("schema_version", JInt 3); ("mode", JStr "production"); ("deployment_id", JStr "lab"); ("candidate_sha256", JStr demo_sha); ("source_archive_sha256", JStr demo_sha);
   ("config_sha256", JStr demo_sha); ("device_digest", JStr demo_sha); ("device", device_json demo_device); ("evidence", JObj [("started_at", JStr "t")]);
   ("models", JObj [("chat-8b", JObj [("container_name", JStr "sms-lab-chat-8b"); ("image_digest", JStr gate_image);
                                      ("assets", JList [JObj [("path", JStr "m.gguf"); ("size_bytes", JInt 1); ("sha256", JStr demo_sha)]])])]);
   ("identity_sha256", JStr demo_sha)].
Definition gate_site : list (string * json) :=
  match device_json demo_device with JObj facts => facts | _ => [] end
  ++ [("config_sha256", JStr demo_sha); ("source_archive_sha256", JStr demo_sha); ("images", JObj [(gate_image, JBool true)]);
      ("model_files", JObj [("m.gguf", JObj [("size_bytes", JInt 1); ("sha256", JStr demo_sha)])])].
Local Notation demo_gate := (production_gate (fun _ => "x") (JObj gate_manifest) demo_candidate_file demo_evidence gate_site 2).
Lemma demo_gate_open : demo_gate = Ret [].
Proof.
  unfold production_gate. assert (verify_environment (fun _ => "x") (JObj gate_manifest) gate_site 2 = Ret []) as -> by (vm_compute; reflexivity).
  pose proof demo_verifies as Hv. destruct (verify_evidence _ demo_candidate_file demo_evidence 2) as [[code doc]|e]; [|done]. injection Hv as ->. reflexivity.
Qed.
Lemma production_gate_sound_witness : demo_gate = Ret [] ∧ unforced gate_manifest ∧ ∃ report, verify_evidence (fun _ => "x") demo_candidate_file demo_evidence 2 = Ret (EXIT_OK, report).
Proof.
  split; [exact demo_gate_open|].
  destruct (production_gate_sound (fun _ => "x") (JObj gate_manifest) demo_candidate_file demo_evidence gate_site 2 demo_gate_open) as (m & Hm & _ & _ & Hu & _ & _ & _ & _ & _ & _ & Hr).
  injection Hm as <-. split; [exact Hu|exact Hr].
Defined.
(** The same manifest with a force flag is refused. *)
Example forced_refused : verify_environment (fun _ => "x") (JObj (gate_manifest ++ [("force", JBool true)])) gate_site 2 = Ret ["a force flag"].
Proof. vm_compute. reflexivity. Qed.
