(* ===== verification/Migration.v ===== *)
(** * Migration from schema v1 to schema v2

    [model_scheduler/migration_v2.py]: what the v1 file says is carried over, what
    it cannot say comes from an inventory, and what neither says is reported.  The
    state is the report; [py_str] is the text of a runtime id that is no text. *)

From S2P Require Import Prelude Text Dict Contracts Registration RegistrationProps JsonText Requests JsonTextProps Observer Control Config ConfigProps Runtime Evaluator.
From Stdlib Require Import Ascii QArith.
Local Open Scope Z_scope.

Definition INVENTORY_RUNTIME_KEYS : list string := ["profile_id"; "image_digest"; "adapter_sha256"; "lock_sha256"; "startup_args"].
Record Report := { rp_missing : list string; rp_conflicts : list string }.
Definition mig := pym Report.
Definition missing (path : string) : mig unit := modify (fun r => {| rp_missing := rp_missing r ++ [path]; rp_conflicts := rp_conflicts r |}).
Definition conflict (path : string) : mig unit := modify (fun r => {| rp_missing := rp_missing r; rp_conflicts := rp_conflicts r ++ [path] |}).
Definition when (b : bool) (m : mig unit) : mig unit := if b then m else mret tt.
(** [data.get(key)] of a mapping, where null is absent *)
Definition supplied (data : json) (key : string) : json := match data with JObj f => got (jget key f) | _ => JNull end.
Definition need (data : json) (key path : string) : mig json :=
  match supplied data key with JNull => missing (path +:+ "." +:+ key);; mret JNull | v => mret v end.
(** [{key: report.need(data, key, path) for key in keys}] *)
Definition need_all (data : json) (ks : list string) (path : string) : mig (list (string * json)) := map_each ks (fun key => v ← need data key path; mret (key, v)).
Definition mapping_or_none (v : option json) : list (string * json) := default [] (mapping_of_json v).
Definition at_ (fields : list (string * json)) (key : string) : json := got (jget key fields).

Definition migrate_runtime (inventory : list (string * json)) (id : string) (v : json) : mig (list json) :=
  let path := "runtimes." +:+ id in
  match match v with JStr id => got (jget id inventory) | _ => JNull end with
  | JNull => missing path;; mret []
  | spec =>
      values ← need_all spec INVENTORY_RUNTIME_KEYS path;
      args ← match at_ values "startup_args" with JList l => mret l | _ => missing (path +:+ ".startup_args");; mret [] end;
      mret [JObj [("runtime_id", v); ("profile_id", at_ values "profile_id"); ("image_digest", at_ values "image_digest");
                  ("adapter_sha256", at_ values "adapter_sha256"); ("lock_sha256", at_ values "lock_sha256"); ("startup_args", JList args)]]
  end.
Definition migrate_envelope (entry : json) (path : string) : mig (list (string * json)) :=
  raw ← need entry "envelope" path;
  match raw with
  | JObj _ => need_all raw ENVELOPE_KEYS (path +:+ ".envelope")
  | _ => missing (path +:+ ".envelope");; mret (map (fun k => (k, JNull)) ENVELOPE_KEYS)
  end.
Definition migrate_asset (path : string) (old : ModelConfig) (index : nat) (item : json) : mig (list json) :=
  let item_path := path +:+ ".assets[" +:+ int_text (Z.of_nat index) +:+ "]" in
  match item with
  | JObj _ =>
      asset ← need_all item ASSET_KEYS item_path;
      (if py_eq (at_ asset "role") (JStr "model") then
         when (negb (py_eq (at_ asset "path") (JStr (mc_file old)))) (conflict (item_path +:+ ".path"));;
         when (negb (py_eq (at_ asset "sha256") (JStr (mc_sha256 old)))) (conflict (item_path +:+ ".sha256"))
       else mret tt);;
      mret [JObj asset]
  | _ => missing item_path;; mret []
  end.
Definition migrate_assets (entry : json) (path : string) (old : ModelConfig) : mig (list json) :=
  raw ← need entry "assets" path;
  match raw with
  | JList ((_ :: _) as items) => assets ← map_each (imap pair items) (fun x => migrate_asset path old (fst x) (snd x)); mret (mjoin assets)
  | _ => missing (path +:+ ".assets");; mret []
  end.
Definition migrate_measurement (entry : json) (path : string) (measured : bool) : mig (json * json) :=
  if negb measured then mret (JNull, JNull)
  else
    let ref := supplied entry "measurement_ref" in
    let peak := supplied entry "physical_resident_peak_bytes" in
    when (is_null ref) (missing (path +:+ ".measurement_ref"));;
    when (is_null peak) (missing (path +:+ ".physical_resident_peak_bytes"));;
    mret (ref, peak).

Section Migrate.
Context (py_str : json → string) `{UrlSplit}.

(** A migrated model, with its pinned and preload intent. *)
Record Migrated := { mg_model_id : string; mg_runtime_id : json; mg_document : json; mg_pinned : bool; mg_preload : bool }.
Definition migrate_entry (margin : Q) (model_id : string) (old : ModelConfig) (entry : json) : mig (list Migrated) :=
  let path := "models." +:+ model_id in
  envelope ← migrate_envelope entry path;
  (let p := at_ envelope "max_parallel" in
   when (negb (is_null p) && negb (py_eq p (JInt (mc_max_concurrency old)))) (conflict (path +:+ ".envelope.max_parallel")));;
  assets ← migrate_assets entry path old;
  measured ← lift (match entry with JObj f => Ret (at_ f "measured") | _ => Raise (AttributeError "get") end);
  '(measured, ref, peak) ← match measured with
                           | JBool b => '(ref, peak) ← migrate_measurement entry path b; mret (b, ref, peak)
                           | _ => missing (path +:+ ".measured");; mret (false, JNull, JNull)
                           end;
  url ← lift (urlsplit (mc_upstream_url old));
  port ← lift (url_port url);
  runtime ← need entry "runtime_id" path;
  timeout ← need entry "timeout_seconds" path;
  reserved ← lift (effective_reserved_bytes (mc_reserved_bytes old) (Some margin));
  mret [{| mg_model_id := model_id; mg_runtime_id := runtime; mg_pinned := mc_pinned old; mg_preload := mc_preload old;
           mg_document :=
             JObj [("model_id", JStr model_id); ("runtime_id", runtime); ("capabilities", JList (map JStr (merge_sort String.le (mc_capabilities old))));
                   ("assets", JList assets); ("port", JInt (default 0 port)); ("envelope", JObj envelope); ("timeout_seconds", timeout);
                   ("reserved_bytes", JInt reserved); ("measured", JBool measured); ("measurement_ref", ref);
                   ("physical_resident_peak_bytes", peak)] |}].
Definition migrate_model (margin : Q) (inventory : list (string * json)) (model_id : string) (old : ModelConfig) : mig (list Migrated) :=
  match got (jget model_id inventory) with
  | JNull => missing ("models." +:+ model_id);; mret []
  | entry => migrate_entry margin model_id old entry
  end.
(** [for model_id in sorted(legacy.models)] *)
Definition sorted_models (legacy : AppConfig) : list (string * ModelConfig) :=
  omap (fun id => (fun old => (id, old)) <$> v1c_models legacy !! id) (merge_sort String.le (keys (v1c_models legacy))).
Definition migrate_models (legacy : AppConfig) (inventory : list (string * json)) : mig (list Migrated) :=
  models ← map_each (sorted_models legacy) (fun x => migrate_model (cfg_margin (v1c_scheduler legacy)) inventory (fst x) (snd x)); mret (mjoin models).

(** [sorted({model["runtime_id"] for model in models if ... is not None})] *)
Definition referenced (models : list Migrated) : outcome (list (string * json)) :=
  let ids := base.filter (fun v => is_null v = false) (mg_runtime_id <$> models) in
  _ ← require_or (forallb hashable ids) (TypeError "unhashable type");
  let ids := distinct_keys ids in
  match texts ids with
  | Some names => Ret ((fun s => (s, JStr s)) <$> merge_sort String.le names)
  | None =>
      _ ← require_or (Nat.leb (length ids) 1 || all_numeric ids) (TypeError "'<' not supported");
      Ret ((fun v => (match v with JStr s => s | v => py_str v end, v)) <$> ids)
  end.

Definition float_of (q : Q) : json := JFloat (Some q).
(** [str(path)] *)
Definition path_text (p : PyPath) : string := path_root p +:+ join "/" (path_names p).
Definition server_json (s : ServerConfig) : json :=
  JObj [("host", JStr (cfg_host s)); ("port", JInt (cfg_port s)); ("workers", JInt (cfg_workers s)); ("max_request_body_bytes", JInt (cfg_max_request_body_bytes s));
        ("body_timeout_seconds", float_of (cfg_body_timeout s)); ("shutdown_grace_seconds", float_of (cfg_shutdown_grace s))].
Definition heat_json (h : HeatConfig) : json :=
  JObj [("half_life_seconds", float_of (cfg_half_life h)); ("request_weight", float_of (cfg_request_weight h)); ("token_weight", float_of (cfg_token_weight h))].
Definition thrash_json (t : ThrashConfig) : json :=
  JObj [("switch_window_seconds", float_of (cfg_switch_window t)); ("max_switches_in_window", JInt (cfg_max_switches t)); ("cooldown_seconds", float_of (cfg_cooldown t))].
Definition scheduler_json (s : SchedulerConfig) (pinned preload : list string) : json :=
  JObj [("poll_interval_seconds", float_of (cfg_poll_interval s)); ("request_queue_timeout_seconds", float_of (cfg_request_queue_timeout s));
        ("queue_capacity", JInt (cfg_queue_capacity s)); ("priority_aging_seconds", float_of (cfg_priority_aging s));
        ("switch_drain_timeout_seconds", float_of (cfg_switch_drain_timeout s)); ("switch_retry_seconds", float_of (cfg_switch_retry s));
        ("resource_safety_margin", float_of (cfg_margin s)); ("min_free_memory_bytes", JInt (cfg_min_free_memory s));
        ("max_evictions_per_request", JInt (cfg_max_evictions s)); ("memory_reclaim_timeout_seconds", float_of (cfg_memory_reclaim_timeout s));
        ("pinned_models", JList (map JStr pinned)); ("preload_models", JList (map JStr preload)); ("heat", heat_json (cfg_heat s));
        ("thrash", thrash_json (cfg_thrash s)); ("sessions", JObj (map (fun kv => (fst kv, JInt (snd (snd kv)))) SESSION_BOUNDS))].
Definition resources_json (r : ResourcesConfig) (budget : json) : json :=
  JObj [("provider", JStr "psutil"); ("system_reserve_bytes", JInt (cfg_system_reserve r)); ("sample_interval_seconds", float_of (cfg_sample_interval r));
        ("sample_max_age_seconds", float_of (cfg_sample_max_age r)); ("model_budget_bytes", budget)].
Definition storage_json (s : StorageConfig) : json :=
  JObj [("mount_path", JStr (path_text (cfg_mount s))); ("model_directory", JStr (path_text (cfg_directory s))); ("expected_uuid", JStr (cfg_expected_uuid s));
        ("filesystem", JStr "ext4"); ("verify_timeout_seconds", JInt 900)].
Definition gateway_json (g : GatewayConfig) : json :=
  JObj [("connect_timeout_seconds", float_of (cfg_connect_timeout g)); ("pool_timeout_seconds", float_of (cfg_pool_timeout g));
        ("read_idle_timeout_seconds", float_of (cfg_read_idle_timeout g)); ("write_idle_timeout_seconds", float_of (cfg_write_idle_timeout g));
        ("inference_timeout_seconds", float_of (cfg_inference_timeout g)); ("close_timeout_seconds", float_of (cfg_close_timeout g));
        ("max_response_body_bytes", JInt (cfg_max_response_body g)); ("max_sse_event_bytes", JInt (cfg_max_sse_event g))].
Definition blobs_json (root : json) : json :=
  JObj [("root", root); ("owner_quota_bytes", JInt 4294967296); ("total_quota_bytes", JInt 17179869184); ("chunk_reserve_bytes", JInt 1073741824);
        ("min_free_disk_bytes", JInt 2147483648); ("input_ttl_seconds", JInt 86400); ("output_ttl_seconds", JInt 86400); ("max_blob_bytes", JInt 1073741824)].
(** A socket path that is not given is left out of the document. *)
Definition control_json (socket : json) (uids : list json) : json :=
  JObj ((if is_null socket then [] else [("socket_path", socket)]) ++ [("allowed_uids", JList uids)]).

Definition names_of (flag : Migrated → bool) (models : list Migrated) : list string := mg_model_id <$> base.filter (fun m => flag m = true) models.
(** [_migrate_document], with the check of the budget that follows it. *)
Definition migrate_document (legacy : AppConfig) (inventory : list (string * json)) : mig json :=
  let inventory_models := mapping_or_none (jget "models" inventory) in
  for_each (merge_sort String.le (inventory_models.*1)) (fun id => when (negb (mem id (v1c_models legacy))) (conflict ("models." +:+ id)));;
  models ← migrate_models legacy inventory_models;
  ids ← lift (referenced models);
  runtimes ← map_each ids (fun x => migrate_runtime (mapping_or_none (jget "runtimes" inventory)) (fst x) (snd x));
  let budget := at_ (mapping_or_none (jget "resources" inventory)) "model_budget_bytes" in
  let control := JObj (mapping_or_none (jget "control" inventory)) in
  uids ← need control "allowed_uids" "control";
  uids ← lift (if Observer.py_true uids then iterate uids else Ret []);
  root ← need (JObj (mapping_or_none (jget "blobs" inventory))) "root" "blobs";
  when (is_null budget) (missing "resources.model_budget_bytes");;
  mret (JObj [("schema_version", JInt 2); ("registration", JObj [("runtimes", JList (mjoin runtimes)); ("models", JList (mg_document <$> models))]);
              ("server", server_json (v1c_server legacy)); ("scheduler", scheduler_json (v1c_scheduler legacy) (names_of mg_pinned models) (names_of mg_preload models));
              ("resources", resources_json (v1c_resources legacy) budget); ("storage", storage_json (v1c_storage legacy)); ("gateway", gateway_json (v1c_gateway legacy));
              ("control", control_json (supplied control "socket_path") uids); ("blobs", blobs_json root); ("candidate_sha256", JNull)]).

Definition migration_error {A} (msg : string) : outcome A := Raise (MigrationError msg).
(** [sorted(set(l))] *)
Definition sorted_set (l : list string) : list string := merge_sort String.le (remove_dups l).
(** [inventory] is the text of the file, if it can be read; [yaml] what the YAML
    reader says of the source, which is read as bytes first; [changed] whether the
    source changed meanwhile. *)
Definition migrate_v2 (exists_ : bool) (inventory : option string) (readable_source : bool) (yaml : outcome json) (changed : bool) : outcome json :=
  _ ← require_or (negb exists_) (MigrationError "migration output already exists");
  bytes ← of_option (MigrationError "cannot read migration inventory") inventory;
  document ← match text ← read_text bytes; parse_json_document text with
             | Raise (ValueError _ | ContractError _ | UnicodeDecodeError _) => migration_error "cannot read migration inventory"
             | r => r
             end;
  fields ← of_option (MigrationError "migration inventory must be a JSON object") (mapping_of_json (Some document));
  _ ← require_or readable_source (OSError "source");
  loaded ← match load_config yaml with Raise (ConfigError _ | OSError _) => migration_error "cannot read v1 configuration" | r => r end;
  match loaded with
  | LoadedV2 _ => migration_error "input configuration is already schema_version 2"
  | LoadedV1 legacy =>
      let '(report, result) := migrate_document legacy fields {| rp_missing := []; rp_conflicts := [] |} in
      migrated ← result;
      if negb (bool_decide (rp_missing report = []) && bool_decide (rp_conflicts report = []))
      then Raise (MissingInventory (sorted_set (rp_missing report)) (sorted_set (rp_conflicts report)))
      else if changed then migration_error "input configuration changed while migrating"
      else match parse_v2_config migrated with
           | Raise (ConfigError _) => migration_error "migrated configuration would not load"
           | Raise e => Raise e
           | Ret _ => Ret migrated
           end
  end.
End Migrate.

(** ** Paths are written and read back *)
Definition name_ok (s : string) : Prop := Forall (fun c => code c ≠ 47) (chars s) ∧ s ≠ "" ∧ s ≠ ".".
Lemma split_parts l : ∀ acc, Forall (fun c => code c ≠ 47) acc → Forall (fun s => Forall (fun c => code c ≠ 47) (chars s)) (split_slash acc l).
Proof.
  induction l as [|c l IH]; intros acc Hacc; cbn [split_slash].
  - constructor; [|constructor]. unfold chars. rewrite String.list_ascii_of_string_of_list_ascii. by apply Forall_rev.
  - destruct (Z.eqb_spec (code c) 47) as [E|E]; [|apply IH; by constructor]. constructor; [|by apply IH].
    unfold chars. rewrite String.list_ascii_of_string_of_list_ascii. by apply Forall_rev.
Qed.
Lemma path_names_ok s : Forall name_ok (path_names (py_path s)).
Proof.
  apply Forall_forall. intros x Hx. unfold py_path, path_names in Hx. apply list_elem_of_In, List.filter_In in Hx as [Hx [H1 H2]%andb_true_iff].
  apply negb_true_iff, String.eqb_neq in H1, H2. split; [|done]. pose proof (split_parts (chars s) [] ltac:(constructor)) as HF. rewrite Forall_forall in HF.
  by apply HF, list_elem_of_In.
Qed.
Lemma join_cons a b l : join "/" (a :: b :: l) = a +:+ "/" +:+ join "/" (b :: l).
Proof. done. Qed.
Lemma split_join names : Forall name_ok names → names ≠ [] → split_slash [] (chars (join "/" names)) = names.
Proof.
  induction names as [|a names IH]; [done|]. intros [Ha Hn]%Forall_cons _. destruct names as [|b names].
  - cbn [join]. rewrite <-(app_nil_r (chars a)), split_slash_segment by apply Ha. cbn [split_slash]. rewrite app_nil_r, rev_involutive. f_equal. apply String.string_of_list_ascii_of_string.
  - rewrite join_cons, !chars_app, split_slash_segment by apply Ha. cbn [chars String.list_ascii_of_string app split_slash].
    change (code "/"%char =? 47) with true. cbv iota. rewrite IH by done. f_equal. rewrite app_nil_r, rev_involutive. apply String.string_of_list_ascii_of_string.
Qed.
Lemma filter_names names : Forall name_ok names → List.filter (fun p => negb (String.eqb p "") && negb (String.eqb p ".")) names = names.
Proof.
  induction names as [|a names IH]; [done|]. intros [(_ & H1 & H2) Hn]%Forall_cons. cbn [List.filter]. apply String.eqb_neq in H1, H2. rewrite H1, H2. cbn. by rewrite IH.
Qed.
Lemma first_not_slash names : Forall name_ok names → names ≠ [] → ∃ c l, chars (join "/" names) = c :: l ∧ code c ≠ 47.
Proof.
  destruct names as [|a names]; [done|]. intros [(Hc & Hne & _) _]%Forall_cons _. destruct a as [|c a]; [done|]. apply Forall_cons in Hc as [Hc _].
  destruct names as [|b names]; [by exists c, (chars a)|]. rewrite join_cons. by exists c, (chars (a +:+ "/" +:+ join "/" (b :: names))).
Qed.
Lemma py_path_text p : Forall name_ok (path_names p) → path_root p = "/" ∨ path_root p = "//" → py_path (path_text p) = p.
Proof.
  destruct p as [root names]. cbn [path_root path_names]. intros Hn Hroot. unfold path_text. cbn [path_root path_names].
  destruct (decide (names = [])) as [->|Hne]; [by destruct Hroot as [->| ->]|].
  destruct (first_not_slash names Hn Hne) as (c & l & Ec & Hc). apply Z.eqb_neq in Hc. pose proof (split_join names Hn Hne) as Hs.
  unfold py_path, path_parts. destruct Hroot as [->| ->]; f_equal.
  - rewrite chars_app. cbn [chars String.list_ascii_of_string app]. change (code "/"%char =? 47) with true. cbv iota. by rewrite Ec, Hc.
  - rewrite chars_app. cbn [chars String.list_ascii_of_string app split_slash]. change (code "/"%char =? 47) with true. cbv iota. rewrite Hs. cbn. by apply filter_names.
  - rewrite chars_app. cbn [chars String.list_ascii_of_string app]. change (code "/"%char =? 47) with true. cbv iota. by rewrite Ec, Hc.
  - rewrite chars_app. cbn [chars String.list_ascii_of_string app split_slash]. change (code "/"%char =? 47) with true. cbv iota. rewrite Hs. cbn. by apply filter_names.
Qed.
Lemma path_read_back s : is_absolute (py_path s) = true → py_path (path_text (py_path s)) = py_path s.
Proof.
  intros Ha. apply py_path_text; [apply path_names_ok|]. unfold is_absolute in Ha. unfold py_path in *. cbn [path_root] in *. repeat case_match; auto; done.
Qed.

(** ** Sections are written and read back *)
Lemma check_number_float q pos r : check_number (float_of q) pos = Ret r → r = q.
Proof. unfold check_number, float_of. cbn. destruct (if pos then _ else _); [done|]. by intros [= ->]. Qed.
Lemma check_int_same n lo hi r : check_int (JInt n) lo hi = Ret r → r = n.
Proof. unfold check_int. destruct (_ || _); [done|]. by intros [= ->]. Qed.
Lemma check_string_same s r : check_string (JStr s) = Ret r → r = s.
Proof. unfold check_string. destruct (String.eqb s ""); [done|]. by intros [= ->]. Qed.
Ltac read_fields :=
  repeat match goal with
  | H : (_ ≫= _) = Ret _ |- _ => apply obind_ret in H as (? & ? & H)
  | H : of_option _ (jget _ _) = Ret _ |- _ => cbn [jget String.eqb Ascii.eqb Bool.eqb of_option] in H; injection H as <-
  | H : check_number (float_of _) _ = Ret _ |- _ => apply check_number_float in H
  | H : check_int (JInt _) _ _ = Ret _ |- _ => apply check_int_same in H
  | H : check_string (JStr _) = Ret _ |- _ => apply check_string_same in H
  | H : Ret _ = Ret _ |- _ => injection H as H
  end.
Lemma strict_same fields required optional l : strict (JObj fields) required optional = Ret l → l = fields.
Proof. unfold strict. intros (u & _ & (u' & _ & [= <-])%obind_ret)%obind_ret. done. Qed.
Lemma server_back s r : server_config (server_json s) = Ret r → r = s.
Proof.
  unfold server_config, server_json, mapping_of, int_at, number_at, string_at, at_key. intros H. apply obind_ret in H as (l & ->%strict_same & H). read_fields. subst. by destruct s.
Qed.
Lemma gateway_back g r : gateway_config (gateway_json g) = Ret r → r = g.
Proof.
  unfold gateway_config, gateway_json, mapping_of, int_at, number_at, string_at, at_key. intros H. apply obind_ret in H as (l & ->%strict_same & H). read_fields. subst. by destruct g.
Qed.
Lemma heat_thrash_back s pinned preload scheduler heat thrash margin : scheduler_json s pinned preload = JObj scheduler → scheduler_head scheduler = Ret (heat, thrash, margin) →
  heat_json (cfg_heat s) = JObj heat ∧ thrash_json (cfg_thrash s) = JObj thrash ∧ margin = cfg_margin s.
Proof.
  unfold scheduler_json, scheduler_head, mapping_of, number_at, at_key. intros [= <-] H. read_fields.
  repeat match goal with H : strict (heat_json _) _ _ = Ret _ |- _ => apply strict_same in H | H : strict (thrash_json _) _ _ = Ret _ |- _ => apply strict_same in H end. by subst.
Qed.
Lemma scheduler_back s pinned preload scheduler heat thrash margin r : scheduler_json s pinned preload = JObj scheduler → scheduler_head scheduler = Ret (heat, thrash, margin) →
  scheduler_body scheduler heat thrash margin = Ret r → r = s.
Proof.
  intros Es Hh. destruct (heat_thrash_back _ _ _ _ _ _ _ Es Hh) as ([= <-] & [= <-] & ->). injection Es as <-.
  unfold scheduler_body, int_at, number_at, at_key. intros H. read_fields. subst. by destruct s as [? ? ? ? ? ? ? ? ? ? [] []].
Qed.

(** ** An empty report *)
Definition no_report : Report := {| rp_missing := []; rp_conflicts := [] |}.
(** A step only adds to the report. *)
Definition grows {A} (m : mig A) : Prop := ∀ s, ∃ a b, fst (m s) = {| rp_missing := rp_missing s ++ a; rp_conflicts := rp_conflicts s ++ b |}.
(** A step that returned and had nothing to report. *)
Definition quiet {A} (m : mig A) (a : A) : Prop := m no_report = (no_report, Ret a).

Lemma grows_ret {A} (a : A) : grows (mret a).
Proof. intros [ms cs]. exists [], []. cbn. by rewrite !app_nil_r. Qed.
Lemma grows_lift {A} (o : outcome A) : grows (lift o).
Proof. intros [ms cs]. exists [], []. cbn. by rewrite !app_nil_r. Qed.
Lemma grows_missing p : grows (missing p).
Proof. intros [ms cs]. exists [p], []. cbn. by rewrite app_nil_r. Qed.
Lemma grows_conflict p : grows (conflict p).
Proof. intros [ms cs]. exists [], [p]. cbn. by rewrite app_nil_r. Qed.
Lemma grows_bind {A B} (m : mig A) (k : A → mig B) : grows m → (∀ a, grows (k a)) → grows (m ≫= k).
Proof.
  intros Hm Hk s. destruct (Hm s) as (a & b & E). unfold mbind, pym_bind. destruct (m s) as [s' [x|e]]; cbn in *; [|by exists a, b].
  destruct (Hk x s') as (a' & b' & E'). subst s'. exists (a ++ a'), (b ++ b'). rewrite E'. cbn. by rewrite !app_assoc.
Qed.
Lemma grows_map_each {A B} (xs : list A) (f : A → mig B) : (∀ x, grows (f x)) → grows (map_each xs f).
Proof. intros Hf. induction xs as [|x xs IH]; [apply grows_ret|]. cbn. apply grows_bind; [done|intros y]. apply grows_bind; [done|intros ys]. apply grows_ret. Qed.
Lemma grows_for_each {A} (xs : list A) (f : A → mig unit) : (∀ x, grows (f x)) → grows (for_each xs f).
Proof. intros Hf. induction xs as [|x xs IH]; [apply grows_ret|]. cbn. apply grows_bind; [done|by intros _]. Qed.
Create HintDb report.
#[local] Hint Resolve grows_ret grows_lift grows_missing grows_conflict : report.
Ltac grow := repeat first [ progress cbv zeta | solve [auto with report] | apply grows_bind; [|intros ?] | apply grows_map_each; intros ? | apply grows_for_each; intros ? | case_match ].
Lemma grows_when b m : grows m → grows (when b m).
Proof. unfold when. grow. Qed.
Lemma grows_need d k p : grows (need d k p).
Proof. unfold need. grow. Qed.
#[local] Hint Resolve grows_when grows_need : report.
Lemma grows_need_all d ks p : grows (need_all d ks p).
Proof. unfold need_all. grow. Qed.
#[local] Hint Resolve grows_need_all : report.
Lemma grows_envelope entry path : grows (migrate_envelope entry path).
Proof. unfold migrate_envelope. grow. Qed.
Lemma grows_asset path old i item : grows (migrate_asset path old i item).
Proof. unfold migrate_asset. grow. Qed.
#[local] Hint Resolve grows_asset : report.
Lemma grows_assets entry path old : grows (migrate_assets entry path old).
Proof. unfold migrate_assets. grow. Qed.
Lemma grows_measurement entry path b : grows (migrate_measurement entry path b).
Proof. unfold migrate_measurement. grow. Qed.
Lemma grows_runtime inv id v : grows (migrate_runtime inv id v).
Proof. unfold migrate_runtime. grow. Qed.
#[local] Hint Resolve grows_envelope grows_assets grows_measurement grows_runtime : report.
Lemma grows_entry `{UrlSplit} margin id old entry : grows (migrate_entry margin id old entry).
Proof. unfold migrate_entry. grow. Qed.
#[local] Hint Resolve grows_entry : report.
Lemma grows_model `{UrlSplit} margin inv id old : grows (migrate_model margin inv id old).
Proof. unfold migrate_model. grow. Qed.
#[local] Hint Resolve grows_model : report.

Lemma silent_bind {A B} (m : mig A) (k : A → mig B) b : grows m → (∀ a, grows (k a)) → quiet (m ≫= k) b → ∃ a, quiet m a ∧ quiet (k a) b.
Proof.
  unfold quiet, mbind, pym_bind. intros Hm Hk. destruct (Hm no_report) as (a & c & E). destruct (m no_report) as [s [x|e]]; [|done]. cbn in E. subst s.
  intros Hq. destruct (Hk x {| rp_missing := a; rp_conflicts := c |}) as (a' & c' & E). rewrite Hq in E. cbn in E. injection E as E1 E2.
  symmetry in E1, E2. apply app_nil in E1 as [-> ->], E2 as [-> ->]. by exists x.
Qed.
Lemma quiet_missing p u : ¬ quiet (missing p) u.
Proof. by intros [=]. Qed.
Lemma quiet_conflict p u : ¬ quiet (conflict p) u.
Proof. by intros [=]. Qed.
Lemma silent_ret {A} (a b : A) : quiet (mret a) b → a = b.
Proof. by intros [=]. Qed.
Lemma silent_lift {A} (o : outcome A) b : quiet (lift o) b → o = Ret b.
Proof. by intros [=]. Qed.
Ltac quiet_step H x Hx := apply silent_bind in H as (x & Hx & H); [|solve [grow]|solve [intros; grow]].
Lemma quiet_when b m u : quiet (when b m) u → (∀ u, ¬ quiet m u) → b = false.
Proof. destruct b; [|done]. intros Hq Hm. by destruct (Hm u). Qed.
Lemma quiet_map_each {A B} (xs : list A) (f : A → mig B) ys : (∀ x, grows (f x)) → quiet (map_each xs f) ys → Forall2 (fun x y => quiet (f x) y) xs ys.
Proof.
  intros Hf. revert ys. induction xs as [|x xs IH]; intros ys Hq; cbn [map_each] in Hq.
  - apply silent_ret in Hq as <-. constructor.
  - assert (∀ l, grows (map_each l f)) as Hg by (intros l; by apply grows_map_each).
    apply silent_bind in Hq as (y & Hy & Hq); [|done|intros; grow]. apply silent_bind in Hq as (l & Hl & <-%silent_ret); [|done|intros; grow]. constructor; [done|by apply IH].
Qed.
Lemma py_eq_text v s : py_eq v (JStr s) = true → v = JStr s.
Proof. destruct v as [| | |[q|]|t| |]; try done. cbn. by intros ->%String.eqb_eq. Qed.
Lemma py_eq_int v n : py_eq v (JInt n) = true → (∃ m, v = JInt m) → v = JInt n.
Proof. intros E [m ->]. revert E. cbn. intros E%Qeq_bool_iff. f_equal. unfold Qeq in E. cbn in E. lia. Qed.

(** The model file an inventory names is the one of the v1 file. *)
Definition asset_agrees (old : ModelConfig) (item : json) : Prop :=
  ∃ f, item = JObj f ∧ (at_ f "role" = JStr "model" → at_ f "path" = JStr (mc_file old) ∧ at_ f "sha256" = JStr (mc_sha256 old)).
Lemma asset_quiet path old i item l : quiet (migrate_asset path old i item) l → Forall (asset_agrees old) l.
Proof.
  unfold migrate_asset. cbv zeta. destruct item as [| | | | | |f]; intros H; try (quiet_step H u Hu; by apply quiet_missing in Hu).
  quiet_step H asset Ha. quiet_step H u Hu. apply silent_ret in H as <-. constructor; [|constructor]. exists asset. split; [done|]. intros Er. rewrite Er in Hu.
  change (py_eq (JStr "model") (JStr "model")) with true in Hu. cbv iota in Hu. quiet_step Hu v Hv. apply quiet_when in Hv; [|by intros w ?%quiet_conflict].
  apply quiet_when in Hu; [|by intros w ?%quiet_conflict]. apply negb_false_iff, py_eq_text in Hv, Hu. done.
Qed.
Lemma assets_quiet entry path old l : quiet (migrate_assets entry path old) l → Forall (asset_agrees old) l.
Proof.
  unfold migrate_assets. intros H. quiet_step H raw Hraw. destruct raw as [| | | | |[|x xs]|]; try (quiet_step H u Hu; by apply quiet_missing in Hu).
  assert (∀ x, grows (migrate_asset path old (fst x) (snd x))) as Hg by (intros x0; apply grows_asset).
  apply silent_bind in H as (ls & Hls & <-%silent_ret); [|by apply grows_map_each|intros; grow]. apply (quiet_map_each _ _ _ Hg) in Hls.
  clear -Hls. induction Hls as [|a b l1 l2 Hx Hxs IH]; [constructor|]. cbn. apply Forall_app. split; [by eapply asset_quiet|done].
Qed.

Section Models.
Context `{UrlSplit}.
(** The document of a migrated model, with what the report vouches for. *)
Record model_carried (margin : Q) (id : string) (old : ModelConfig) (g : Migrated) : Prop := {
  mca_id : mg_model_id g = id;
  mca_pinned : mg_pinned g = mc_pinned old;
  mca_preload : mg_preload g = mc_preload old;
  mca_document : ∃ runtime assets port envelope timeout reserved measured ref peak,
    mg_document g =
      JObj [("model_id", JStr id); ("runtime_id", runtime); ("capabilities", JList (map JStr (merge_sort String.le (mc_capabilities old))));
            ("assets", JList assets); ("port", JInt port); ("envelope", JObj envelope); ("timeout_seconds", timeout);
            ("reserved_bytes", JInt reserved); ("measured", JBool measured); ("measurement_ref", ref); ("physical_resident_peak_bytes", peak)]
    ∧ (∀ n, at_ envelope "max_parallel" = JInt n → n = mc_max_concurrency old)
    ∧ effective_reserved_bytes (mc_reserved_bytes old) (Some margin) = Ret reserved
    ∧ (∃ url p, urlsplit (mc_upstream_url old) = Ret url ∧ url_port url = Ret p ∧ port = default 0 p)
    ∧ Forall (asset_agrees old) assets;
}.
Lemma model_quiet margin inv id old l : quiet (migrate_model margin inv id old) l → ∃ g, l = [g] ∧ model_carried margin id old g.
Proof.
  unfold migrate_model. intros Hm. set (entry := got (jget id inv)) in *. assert (entry = JNull ∨ entry ≠ JNull) as [E|E] by (destruct entry; auto).
  { rewrite E in Hm. quiet_step Hm u Hu. by apply quiet_missing in Hu. }
  assert (quiet (migrate_entry margin id old entry) l) as Hq by (by destruct entry). clear Hm. unfold migrate_entry in Hq. cbv zeta in Hq.
  quiet_step Hq envelope Henv. quiet_step Hq u Hp. apply quiet_when in Hp; [|by intros w ?%quiet_conflict]. quiet_step Hq assets Has. quiet_step Hq md Hmd.
  quiet_step Hq triple Htriple. destruct triple as [[measured ref] peak]. quiet_step Hq url Hurl. quiet_step Hq port Hport. quiet_step Hq runtime Hrt. quiet_step Hq timeout Hto.
  quiet_step Hq reserved Hres. apply silent_ret in Hq as <-. apply silent_lift in Hurl, Hport, Hres. eexists. split; [done|]. constructor; [done..|].
  exists runtime, assets, (default 0 port), envelope, timeout, reserved, measured, ref, peak. split_and!; [done| |done|by exists url, port|by eapply assets_quiet].
  intros n En. rewrite En in Hp. cbn [is_null negb andb] in Hp. apply negb_false_iff, py_eq_int in Hp; [by injection Hp|by eexists].
Qed.
End Models.

(** ** Registered models are read back *)
Lemma get_str_is data key p s : get_str data key p = Ret s → jget key data = Some (JStr s).
Proof. unfold get_str, err. intros. repeat case_match; by simplify_eq. Qed.
Lemma get_int_is data key lo hi n : get_int data key lo hi = Ret n → jget key data = Some (JInt n).
Proof. unfold get_int, err. intros. by repeat case_match; simplify_eq. Qed.
Lemma get_list_is data key l : get_list data key = Ret l → jget key data = Some (JList l).
Proof. unfold get_list, err. intros. by repeat case_match; simplify_eq. Qed.
Lemma capabilities_back caps : ∀ seen l, parse_capabilities seen (map JStr caps) = Ret l → l = caps.
Proof. induction caps as [|c caps IH]; intros seen l E; cbn [map parse_capabilities] in E; inv_parse; [done|]. f_equal. by eapply IH. Qed.
Lemma asset_back old item a : asset_agrees old item → parse_asset_ref item = Ret a → asset_role a = "model" → asset_path a = mc_file old ∧ asset_sha256 a = mc_sha256 old.
Proof.
  intros (f & -> & Hf). unfold parse_asset_ref. intros E. inv_parse. rename select (as_mapping _ = Ret _) into Em. injection Em as <-. cbn [asset_role asset_path asset_sha256]. intros ->.
  rename select (get_str _ "role" _ = Ret _) into Er. apply get_str_is in Er. unfold at_ in Hf. rewrite Er in Hf. destruct (Hf eq_refl) as [Hp Hs].
  rename select (safe_relative_path _ = Ret _) into Ep. rename select (sha256_value _ = Ret _) into Es.
  destruct (jget "path" f) as [[]|]; try done. destruct (jget "sha256" f) as [[]|]; try done. cbn in Hp, Hs. injection Hp as ->. injection Hs as ->.
  unfold safe_relative_path, sha256_value, err in *. repeat case_match; by simplify_eq.
Qed.
Lemma assets_back old items : ∀ paths l, Forall (asset_agrees old) items → parse_asset_list paths items = Ret l →
  ∀ a, a ∈ l → asset_role a = "model" → asset_path a = mc_file old ∧ asset_sha256 a = mc_sha256 old.
Proof.
  induction items as [|item items IH]; intros paths l HF E; cbn [parse_asset_list] in E; inv_parse; [by intros a ?%not_elem_of_nil|].
  apply Forall_cons in HF as [Hi HF]. intros a [->|Ha]%elem_of_cons; [by eapply asset_back|]. by eapply IH.
Qed.

Section Carried.
Context `{UrlSplit}.
(** A v2 model that says what the v1 model said: its capabilities, its port, its
    concurrency, its file, and the bytes v1 charged for it with the margin. *)
Record same_model (margin : Q) (old : ModelConfig) (m : RegisteredModelSpec) : Prop := {
  sm_capabilities : v2_capabilities m ≡ₚ mc_capabilities old;
  sm_parallel : max_parallel (v2_envelope m) = mc_max_concurrency old;
  sm_reserved : effective_reserved_bytes (mc_reserved_bytes old) (Some margin) = Ret (v2_reserved_bytes m);
  sm_port : ∃ url p, urlsplit (mc_upstream_url old) = Ret url ∧ url_port url = Ret p ∧ v2_port m = default 0 p;
  sm_asset : ∀ a, a ∈ v2_assets m → asset_role a = "model" → asset_path a = mc_file old ∧ asset_sha256 a = mc_sha256 old;
}.
Lemma model_back margin id old g m : model_carried margin id old g → parse_model_spec (mg_document g) = Ret m → v2_model_id m = id ∧ same_model margin old m.
Proof.
  intros [_ _ _ (runtime & assets & port & envelope & timeout & reserved & measured & ref & peak & -> & Hp & Hr & Hport & Ha)].
  unfold parse_model_spec. intros E. inv_parse. rename select (as_mapping (Some _) = Ret _) into Em. injection Em as <-.
  repeat match goal with
  | E : get_str _ _ _ = Ret _ |- _ => apply get_str_is in E; cbn [jget String.eqb Ascii.eqb Bool.eqb] in E
  | E : get_int _ _ _ _ = Ret _ |- _ => apply get_int_is in E; cbn [jget String.eqb Ascii.eqb Bool.eqb] in E
  | E : get_list _ _ = Ret _ |- _ => apply get_list_is in E; cbn [jget String.eqb Ascii.eqb Bool.eqb] in E
  end. simplify_eq. cbn [v2_model_id]. split; [done|].
  rename select (as_mapping _ = Ret _) into Em. cbn [jget String.eqb Ascii.eqb Bool.eqb] in Em. injection Em as <-.
  rename select (parse_capabilities _ _ = Ret _) into Ec. apply capabilities_back in Ec as ->.
  rename select (parse_assets _ _ = Ret _) into Eas. unfold parse_assets in Eas. inv_parse.
  rename select (parse_envelope _ = Ret _) into Een. unfold parse_envelope in Een. inv_parse. rename select (as_mapping _ = Ret _) into Em. injection Em as <-.
  repeat match goal with E : get_int _ _ _ _ = Ret _ |- _ => apply get_int_is in E end.
  constructor; cbn [v2_capabilities v2_envelope v2_reserved_bytes v2_port v2_assets max_parallel]; [apply merge_sort_Permutation| |done|done|by eapply assets_back].
  apply Hp. unfold at_. rename select (jget "max_parallel" _ = _) into Emp. by rewrite Emp.
Qed.
End Carried.

(** ** The whole document *)
Lemma models_parsed rts ids ports raw l : parse_models rts ids ports raw = Ret l → Forall2 (fun v m => parse_model_spec v = Ret m) raw l.
Proof. revert ids ports l. induction raw as [|v raw IH]; intros ids ports l E; cbn [parse_models] in E; inv_parse; constructor; [done|by eapply IH]. Qed.
Lemma model_ids_back registered ids : ∀ seen l, model_id_list_items registered seen (map JStr ids) = Ret l → l = rev seen ++ ids.
Proof.
  induction ids as [|id ids IH]; intros seen l E; cbn [map model_id_list_items] in E; [injection E as <-; by rewrite app_nil_r|].
  apply obind_ret in E as (m & ->%check_string_same & E). apply obind_ret in E as (? & _ & E). apply obind_ret in E as (? & _ & E). apply IH in E as ->.
  cbn. by rewrite <-app_assoc.
Qed.
Lemma elem_of_sorted legacy id old : (id, old) ∈ sorted_models legacy ↔ v1c_models legacy !! id = Some old.
Proof.
  unfold sorted_models. rewrite list_elem_of_omap. split.
  - intros (x & _ & E). destruct (v1c_models legacy !! x) eqn:Ex; [|done]. cbn in E. by simplify_eq.
  - intros E. exists id. rewrite E. split; [|done]. rewrite merge_sort_Permutation. unfold keys. apply list_elem_of_fmap. exists (id, old). split; [done|].
    unfold lookup, dict_lookup in E. clear -E. induction (entries (v1c_models legacy)) as [|[k v] l IH]; [done|]. cbn in E. case_decide; [simplify_eq; left|right; by apply IH].
Qed.
Lemma load_v1_paths `{UrlSplit} raw legacy : load_v1 raw = Ret legacy → ∃ m d, cfg_mount (v1c_storage legacy) = py_path m ∧ cfg_directory (v1c_storage legacy) = py_path d
  ∧ is_absolute (py_path m) = true ∧ is_absolute (py_path d) = true.
Proof.
  unfold load_v1. intros E. do 9 (apply obind_ret in E as (? & ? & E)). apply obind_ret in E as (? & ? & E). case_match. case_match. 
  repeat (apply obind_ret in E as (? & ? & E)). injection E as <-. cbn [v1c_storage cfg_mount cfg_directory].
  rename select (storage_paths _ = Ret _) into Es. unfold storage_paths in Es. repeat (apply obind_ret in Es as (? & ? & Es)). injection Es as <-. cbn [fst snd].
  rename select (insist (is_absolute _ && _ && _ && _) _ = Ret _) into Hi. unfold insist in Hi. destruct (is_absolute _ && _ && _ && _) eqn:Ea; [|done].
  apply andb_true_iff in Ea as [[[? ?]%andb_true_iff _]%andb_true_iff _]. by do 2 eexists.
Qed.
Definition dict_from_on {V} (d : dict string V) (l : list (string * V)) : dict string V := foldl (fun d kv => <[kv.1 := kv.2]> d) d l.
Lemma dict_from_lookup {V} (l : list (string * V)) : NoDup (l.*1) → ∀ d k v, dict_from_on d l !! k = Some v ↔ (k, v) ∈ l ∨ (k ∉ l.*1 ∧ d !! k = Some v).
Proof.
  induction l as [|[a b] l IH]; intros Hnd d k v.
  - split; [intros ?; right; split; [apply not_elem_of_nil|done]|intros [?%not_elem_of_nil|[_ ?]]; done].
  - cbn in Hnd. apply NoDup_cons in Hnd as [Ha Hnd]. change (dict_from_on d ((a, b) :: l)) with (dict_from_on (<[a := b]> d) l). rewrite (IH Hnd). cbn [fmap list_fmap fst]. rewrite elem_of_cons, not_elem_of_cons. destruct (decide (a = k)) as [->|Hne].
    + rewrite dict_lookup_insert_eq. split.
      * intros [Hin|[_ [= ->]]]; [|by left; left]. destruct Ha. apply list_elem_of_fmap. by exists (k, v).
      * intros [[[= <-]|Hin]|[[? _] _]]; [by right| |done]. destruct Ha. apply list_elem_of_fmap. by exists (k, v).
    + rewrite dict_lookup_insert_ne by done. naive_solver.
Qed.

Section Migration.
Context (py_str : json → string) `{UrlSplit}.

(** The sections of a migrated document, as the v2 reader sees them. *)
Lemma document_quiet legacy inventory doc : quiet (migrate_document py_str legacy inventory) doc →
  ∃ models runtimes budget control root,
    doc = JObj [("schema_version", JInt 2); ("registration", JObj [("runtimes", JList runtimes); ("models", JList (mg_document <$> models))]);
                ("server", server_json (v1c_server legacy)); ("scheduler", scheduler_json (v1c_scheduler legacy) (names_of mg_pinned models) (names_of mg_preload models));
                ("resources", resources_json (v1c_resources legacy) budget); ("storage", storage_json (v1c_storage legacy)); ("gateway", gateway_json (v1c_gateway legacy));
                ("control", control); ("blobs", blobs_json root); ("candidate_sha256", JNull)]
    ∧ Forall2 (fun x g => model_carried (cfg_margin (v1c_scheduler legacy)) (fst x) (snd x) g) (sorted_models legacy) models.
Proof.
  unfold migrate_document. cbv zeta. intros Hq.
  assert (∀ l, grows (migrate_models legacy l)) as Hg by (intros l; unfold migrate_models; grow).
  apply silent_bind in Hq as (u & _ & Hq); [|solve [grow]|intros; grow]. apply silent_bind in Hq as (models & Hm & Hq); [|done|intros; grow].
  quiet_step Hq ids Hids. quiet_step Hq runtimes Hr. quiet_step Hq uids Hu. quiet_step Hq uids' Hu'. quiet_step Hq root Hroot. quiet_step Hq v Hv. apply silent_ret in Hq as <-.
  do 5 eexists. split; [reflexivity|]. unfold migrate_models in Hm. apply silent_bind in Hm as (ls & Hls & <-%silent_ret); [|solve [grow]|intros; grow].
  apply quiet_map_each in Hls; [|intros; grow]. clear -Hls. induction Hls as [|x l xs ls Hx Hxs IH]; [constructor|].
  apply model_quiet in Hx as (g & -> & Hg). cbn. by constructor.
Qed.
Lemma storage_back s p : storage_paths [("mount_path", JStr (path_text (cfg_mount s))); ("model_directory", JStr (path_text (cfg_directory s)));
    ("expected_uuid", JStr (cfg_expected_uuid s)); ("filesystem", JStr "ext4"); ("verify_timeout_seconds", JInt 900)] = Ret p →
  p = (py_path (path_text (cfg_mount s)), py_path (path_text (cfg_directory s))).
Proof. unfold storage_paths, string_at, at_key. intros E. read_fields. by subst. Qed.
Lemma uuid_back s u : string_at [("mount_path", JStr (path_text (cfg_mount s))); ("model_directory", JStr (path_text (cfg_directory s)));
    ("expected_uuid", JStr (cfg_expected_uuid s)); ("filesystem", JStr "ext4"); ("verify_timeout_seconds", JInt 900)] "expected_uuid" = Ret u → u = cfg_expected_uuid s.
Proof. unfold string_at, at_key. intros E. by read_fields. Qed.
Lemma registration_back runtimes models d : registration_of (JObj [("runtimes", JList runtimes); ("models", JList models)]) = Ret d →
  NoDup (v2_model_id <$> dep_models d) ∧ Forall2 (fun v m => parse_model_spec v = Ret m) models (dep_models d).
Proof.
  intros (fields & [= <-] & E)%registration_ret. unfold parse_deployment in E. inv_parse. rename select (as_mapping _ = Ret _) into Em. injection Em as <-.
  rename select (get_list _ "models" = Ret _) into El. apply get_list_is in El. cbn [jget String.eqb Ascii.eqb Bool.eqb] in El. injection El as <-. cbn [dep_models].
  rename select (parse_models _ _ _ _ = Ret _) into Ep. split; [by apply parse_models_sound in Ep as (_ & [? _] & _)|by eapply models_parsed].
Qed.
Lemma models_lookup l id m : NoDup (v2_model_id <$> l) → dict_from ((fun m => (v2_model_id m, m)) <$> l) !! id = Some m ↔ m ∈ l ∧ v2_model_id m = id.
Proof.
  intros Hnd. change (dict_from ?x) with (dict_from_on ∅ x). rewrite dict_from_lookup by (by rewrite <-list_fmap_compose). split.
  - intros [(x & [= -> ->] & Hx)%list_elem_of_fmap|[_ ?]]; done.
  - intros [Hm <-]. left. apply list_elem_of_fmap. by exists m.
Qed.
Lemma carried_models margin (l : list (string * ModelConfig)) models ms :
  Forall2 (fun x g => model_carried margin (fst x) (snd x) g) l models → Forall2 (fun v m => parse_model_spec v = Ret m) (mg_document <$> models) ms →
  (∀ id old, (id, old) ∈ l → ∃ m, m ∈ ms ∧ v2_model_id m = id ∧ same_model margin old m) ∧ (∀ m, m ∈ ms → ∃ old, (v2_model_id m, old) ∈ l).
Proof.
  intros Hc. revert ms. induction Hc as [|[id old] g l models Hg Hc IH]; intros ms Hp; inversion Hp as [|? m ? ms' Hm Hms]; subst.
  - split; [by intros id old ?%not_elem_of_nil|by intros m ?%not_elem_of_nil].
  - destruct (IH _ Hms) as [Hto Hfrom]. destruct (model_back _ _ _ _ _ Hg Hm) as [Hid Hs]. cbn in Hid, Hs. split.
    + intros id' old' [[= -> ->]|Hin]%elem_of_cons; [exists m; split_and!; [left|done|done]|]. destruct (Hto _ _ Hin) as (x & ? & ? & ?). exists x. split_and!; [by right|done|done].
    + intros x [->|Hx]%elem_of_cons; [exists old; rewrite Hid; left|]. destruct (Hfrom x Hx) as (o & Ho). exists o. by right.
Qed.
Lemma names_carried (flag : Migrated → bool) (of_ : ModelConfig → bool) margin l models id :
  Forall2 (fun x g => model_carried margin (fst x) (snd x) g) l models → (∀ x g, model_carried margin (fst x) (snd x) g → flag g = of_ (snd x)) →
  id ∈ names_of flag models ↔ ∃ old, (id, old) ∈ l ∧ of_ old = true.
Proof.
  intros Hc Hf. unfold names_of. rewrite list_elem_of_fmap. setoid_rewrite list_elem_of_filter. split.
  - intros (g & -> & Hflag & (i & Hg)%list_elem_of_lookup). destruct (Forall2_lookup_r _ _ _ _ _ Hc Hg) as ([k old] & Hx & Hm). exists old.
    split; [|by rewrite <-(Hf _ _ Hm : flag g = of_ old)]. rewrite (mca_id _ _ _ _ Hm). by eapply list_elem_of_lookup_2.
  - intros (old & (i & Hx)%list_elem_of_lookup & Ho). destruct (Forall2_lookup_l _ _ _ _ _ Hc Hx) as (g & Hg & Hm). exists g. rewrite (mca_id _ _ _ _ Hm), (Hf _ _ Hm).
    split_and!; [done|done|by eapply list_elem_of_lookup_2].
Qed.
Lemma migrate_v2_inv exists_ inventory readable_source yaml changed doc : migrate_v2 py_str exists_ inventory readable_source yaml changed = Ret doc →
  ∃ legacy fields c raw, load_config yaml = Ret (LoadedV1 legacy) ∧ load_v1 raw = Ret legacy ∧ quiet (migrate_document py_str legacy fields) doc ∧ parse_v2_config doc = Ret c.
Proof.
  unfold migrate_v2. intros E. do 3 (apply obind_ret in E as (? & _ & E)). apply obind_ret in E as (fields & _ & E). apply obind_ret in E as (? & _ & E).
  apply obind_ret in E as (loaded & Hl & E). assert (load_config yaml = Ret loaded) as Hload by (destruct (load_config yaml) as [|[]]; done).
  destruct loaded as [legacy|]; [|done]. exists legacy, fields. change {| rp_missing := []; rp_conflicts := [] |} with no_report in E. unfold quiet.
  destruct (migrate_document py_str legacy fields no_report) as [report result]. apply obind_ret in E as (migrated & -> & E).
  destruct (bool_decide_reflect (rp_missing report = [])) as [Em|]; [|done]. destruct (bool_decide_reflect (rp_conflicts report = [])) as [Ecf|]; [|done]. cbn [andb negb] in E.
  destruct changed; [done|]. destruct (parse_v2_config migrated) as [c|e] eqn:Hc; [|by destruct e]. injection E as <-. unfold load_config in Hload.
  apply obind_ret in Hload as (raw & Hy & Hload). exists c, raw. split_and!; [by unfold load_config; rewrite Hy; cbn [mbind outcome_bind]| |destruct report; cbn in *; by subst|done].
  destruct raw as [| | | | | |f]; try done. cbv zeta in Hload. destruct (equals_int _ 1); [|destruct (equals_int _ 2); [|done]; by apply obind_ret in Hload as (? & _ & ?)].
  apply obind_ret in Hload as (l & Hl1 & [= <-]). done.
Qed.
(** What the v2 reader makes of these sections. *)
Lemma document_back legacy runtimes models pinned preload budget control root c :
  parse_v2_config (JObj [("schema_version", JInt 2); ("registration", JObj [("runtimes", JList runtimes); ("models", JList models)]);
                ("server", server_json (v1c_server legacy)); ("scheduler", scheduler_json (v1c_scheduler legacy) pinned preload);
                ("resources", resources_json (v1c_resources legacy) budget); ("storage", storage_json (v1c_storage legacy)); ("gateway", gateway_json (v1c_gateway legacy));
                ("control", control); ("blobs", blobs_json root); ("candidate_sha256", JNull)]) = Ret c →
  v2c_server c = v1c_server legacy ∧ v2c_scheduler c = v1c_scheduler legacy ∧ v2c_resources c = v1c_resources legacy ∧ v2c_gateway c = v1c_gateway legacy
  ∧ v2c_storage c = {| cfg_mount := py_path (path_text (cfg_mount (v1c_storage legacy))); cfg_directory := py_path (path_text (cfg_directory (v1c_storage legacy)));
                       cfg_expected_uuid := cfg_expected_uuid (v1c_storage legacy) |}
  ∧ v2c_pinned c = pinned ∧ v2c_preload c = preload
  ∧ ∃ l, v2c_models c = dict_from ((fun m => (v2_model_id m, m)) <$> l) ∧ NoDup (v2_model_id <$> l) ∧ Forall2 (fun v m => parse_model_spec v = Ret m) models l.
Proof.
  unfold parse_v2_config. intros E. apply obind_ret in E as (data & ->%strict_same & E). unfold at_key in E.
  apply obind_ret in E as (candidate & _ & E). apply obind_ret in E as (reg & Hreg & E). cbn [jget String.eqb Ascii.eqb Bool.eqb of_option] in Hreg. injection Hreg as <-.
  apply obind_ret in E as (d & Hd & E). cbv zeta in E.
  apply obind_ret in E as (sv & Hsv & E). cbn [jget String.eqb Ascii.eqb Bool.eqb of_option] in Hsv. injection Hsv as <-. apply obind_ret in E as (server & ->%server_back & E).
  apply obind_ret in E as (? & _ & E).
  apply obind_ret in E as (sc & Hsc & E). cbn [jget String.eqb Ascii.eqb Bool.eqb of_option] in Hsc. injection Hsc as <-.
  apply obind_ret in E as (scheduler & Hsch & E). assert (scheduler_json (v1c_scheduler legacy) pinned preload = JObj scheduler) as Es by (by apply strict_same in Hsch as ->).
  apply obind_ret in E as ([[heat thrash] margin] & Hhead & E).
  apply obind_ret in E as (pinned' & Hpin & E). apply obind_ret in E as (preload' & Hpre & E). apply obind_ret in E as (? & _ & E).
  apply obind_ret in E as (sch & Hbody & E). apply (scheduler_back _ _ _ _ _ _ _ _ Es Hhead) in Hbody as ->. apply obind_ret in E as (sessions & _ & E).
  assert (pinned' = pinned) as ->. { injection Es as <-. unfold or_default, model_id_list in Hpin. cbn [jget String.eqb Ascii.eqb Bool.eqb default] in Hpin. by apply model_ids_back in Hpin. }
  assert (preload' = preload) as ->. { injection Es as <-. unfold or_default, model_id_list in Hpre. cbn [jget String.eqb Ascii.eqb Bool.eqb default] in Hpre. by apply model_ids_back in Hpre. }
  apply obind_ret in E as (rs & Hrs & E). cbn [jget String.eqb Ascii.eqb Bool.eqb of_option] in Hrs. injection Hrs as <-. apply obind_ret in E as (resources & ->%strict_same & E).
  apply obind_ret in E as (? & _ & E). apply obind_ret in E as (interval & Hint & E). apply obind_ret in E as (age & Hage & E). apply obind_ret in E as (? & _ & E).
  apply obind_ret in E as (reserve & Hres & E). apply obind_ret in E as (bud & _ & E). unfold number_at, int_at, at_key in Hint, Hage, Hres. read_fields.
  rename select (reserve = _) into Er. rename select (age = _) into Ea. rename select (interval = _) into Ei.
  rename select (strict (storage_json _) _ _ = Ret _) into Est. apply strict_same in Est. rename select (storage_paths _ = Ret _) into Hpaths.
  rename select (string_at _ "expected_uuid" = Ret _) into Huuid. subst. apply storage_back in Hpaths as ->. apply uuid_back in Huuid as ->.
  rename select (gateway_config _ = Ret _) into Hgw. apply gateway_back in Hgw as ->. cbn [v2c_server v2c_scheduler v2c_resources v2c_gateway v2c_storage v2c_pinned v2c_preload v2c_models fst snd].
  split_and!; [done|done|by destruct (v1c_resources legacy)|done..|]. exists (dep_models d). split; [done|]. by eapply registration_back.
Qed.

(** C29: A migration carries the v1 configuration over.  When [migrate_v2] returns a
    document, the source was a v1 configuration and the document is one the v2
    reader accepts: the server, scheduler, resource, storage and gateway settings
    are the same; the models are the same four, each with its capabilities, port,
    concurrency, model file and hash, and charged exactly what v1 charged with its
    margin, once; and the pinned and the preloaded models are those of v1. *)
Theorem migration_carries exists_ inventory readable_source yaml changed doc : migrate_v2 py_str exists_ inventory readable_source yaml changed = Ret doc →
  ∃ legacy c, load_config yaml = Ret (LoadedV1 legacy) ∧ parse_v2_config doc = Ret c
    ∧ v2c_server c = v1c_server legacy ∧ v2c_scheduler c = v1c_scheduler legacy ∧ v2c_resources c = v1c_resources legacy
    ∧ v2c_storage c = v1c_storage legacy ∧ v2c_gateway c = v1c_gateway legacy
    ∧ (∀ id old, v1c_models legacy !! id = Some old → ∃ m, v2c_models c !! id = Some m ∧ same_model (cfg_margin (v1c_scheduler legacy)) old m)
    ∧ (∀ id m, v2c_models c !! id = Some m → ∃ old, v1c_models legacy !! id = Some old)
    ∧ (∀ id, id ∈ v2c_pinned c ↔ ∃ old, v1c_models legacy !! id = Some old ∧ mc_pinned old = true)
    ∧ (∀ id, id ∈ v2c_preload c ↔ ∃ old, v1c_models legacy !! id = Some old ∧ mc_preload old = true).
Proof.
  intros E. destruct (migrate_v2_inv _ _ _ _ _ _ E) as (legacy & inv & c & raw & Hload & Hraw & Hq & Hc). exists legacy, c.
  destruct (document_quiet _ _ _ Hq) as (models & runtimes & budget & control & root & -> & Hcarried).
  destruct (document_back _ _ _ _ _ _ _ _ _ Hc) as (H1 & H2 & H3 & H4 & H5 & H6 & H7 & l & Hl & Hnd & Hparsed).
  destruct (load_v1_paths _ _ Hraw) as (m & d & Em & Ed & Ha & Hb). split_and!; try done.
  - rewrite H5, Em, Ed, !path_read_back by done. rewrite <-Em, <-Ed. by destruct (v1c_storage legacy).
  - intros id old Hold. destruct (carried_models _ _ _ _ Hcarried Hparsed) as [Hto _]. destruct (Hto id old) as (x & Hx & Hid & Hs); [by apply elem_of_sorted|].
    exists x. split; [|done]. rewrite Hl. apply models_lookup; [done|]. by rewrite <-Hid.
  - intros id x Hx. rewrite Hl in Hx. apply models_lookup in Hx as [Hx Hid]; [|done]. destruct (carried_models _ _ _ _ Hcarried Hparsed) as [_ Hfrom].
    destruct (Hfrom x Hx) as (old & Hold). exists old. apply elem_of_sorted. by rewrite <-Hid.
  - intros id. rewrite H6. setoid_rewrite <-elem_of_sorted. apply (names_carried mg_pinned mc_pinned _ _ _ _ Hcarried). by intros x g [].
  - intros id. rewrite H7. setoid_rewrite <-elem_of_sorted. apply (names_carried mg_preload mc_preload _ _ _ _ Hcarried). by intros x g [].
Qed.
End Migration.

(** ** A migration *)
#[local] Existing Instance thousandths_floats.
#[local] Existing Instance demo_urlsplit.
Definition demo_entry (id : string) : string * json :=
  (id, JObj [("runtime_id", JStr "llama-r1"); ("timeout_seconds", JInt 30); ("measured", JBool false);
             ("assets", JList [JObj [("role", JStr "model"); ("path", JStr "m.gguf"); ("sha256", JStr demo_digest_text); ("size_bytes", JInt 7)]]);
             ("envelope", JObj [("ctx_size", JInt 1024); ("max_input_tokens", JInt 500); ("max_output_tokens", JInt 500); ("max_parallel", JInt 2);
                                ("max_image_tokens", JInt 0); ("max_image_edge_pixels", JInt 0); ("max_images", JInt 0)])]).
Definition demo_inventory : json :=
  JObj [("models", JObj (map demo_entry REQUIRED_MODELS)); ("resources", JObj [("model_budget_bytes", JInt 400)]);
        ("runtimes", JObj [("llama-r1", JObj [("profile_id", JStr GGUF_PROFILE); ("image_digest", JStr ("llama@sha256:" +:+ demo_digest_text));
                                              ("adapter_sha256", JStr demo_digest_text); ("lock_sha256", JStr demo_digest_text); ("startup_args", JList [])])]);
        ("control", JObj [("allowed_uids", JList [JInt 1000])]); ("blobs", JObj [("root", JStr "/var/blobs")])].
Definition demo_inventory_text : string := dumps false demo_inventory.
Local Notation demo_migration := (migrate_v2 (fun _ => "x") false (Some demo_inventory_text) true (Ret demo_v1_config) false).
Lemma demo_migrates : ∃ doc, demo_migration = Ret doc.
Proof. eexists. vm_compute. reflexivity. Qed.
Lemma migration_carries_witness : ∃ doc c, demo_migration = Ret doc ∧ parse_v2_config doc = Ret c ∧ v2c_server c = v1c_server demo_app.
Proof.
  destruct demo_migrates as [doc Hd]. destruct (migration_carries (fun _ => "x") false (Some demo_inventory_text) true (Ret demo_v1_config) false doc Hd) as (legacy & c & Hl & Hc & Hs & _).
  exists doc, c. split; [exact Hd|]. split; [exact Hc|]. rewrite Hs. f_equal. unfold demo_app.
  assert (∃ l, load_v1 demo_v1_config = Ret l) as [l El] by (eexists; vm_compute; reflexivity). rewrite El.
  assert (load_config (Ret demo_v1_config) = Ret (LoadedV1 l)) as E2 by (unfold load_config; cbn [mbind outcome_bind]; unfold demo_v1_config at 1; fold demo_v1_config; rewrite El; reflexivity).
  congruence.
Defined.
(** Nothing is guessed: with an empty inventory the four models, the budget, the
    users and the blob root are all named as missing. *)
Example empty_inventory_reported :
  migrate_v2 (fun _ => "x") false (Some "{}") true (Ret demo_v1_config) false =
  Raise (MissingInventory ["blobs.root"; "control.allowed_uids"; "models.embedding"; "models.qwen-large"; "models.qwen-small"; "models.reranker"; "resources.model_budget_bytes"] []).
Proof. vm_compute. reflexivity. Qed.
