(* ===== verification/Operational.v ===== *)
(** * Running the operational cases

    [acceptance/operational_cases.py]: the orchestrators [run_o02] to [run_o06]
    over the ports of a site.  What a port answers may depend on everything
    called before.  A run keeps the calls made and, as the code does, the lists of
    problems and failures and the facts collected so far.  The text of a value
    ([str]) is an interface; a problem is the key or the check it stands for. *)

From S2P Require Import Prelude Text Contracts Registration Lifecycle Evaluator.
Local Open Scope Z_scope.

Notation facts := (list (string * json)).

(** ** The ports *)
Inductive PortCall :=
| IsolateMountNamespace (deployment_id : string) | FailModelDisk | FillScratch (quota_bytes : Z) | RecoverModelDisk
| MakeDockerUnreachable | PresentUnknownInstance | StallStop (model_id : string)
| RestartService | ResidualInstances | AttemptOldToken | AdmissionAfterCleanup
| PreflightOf (candidate evidence : json) | TamperScenarios
| GracefulShutdown | LogReport | Backup | Restore (snapshot : facts) | Rollback (snapshot : facts) (has_accepted_evidence : bool).
Class SitePort := {
  answer : list PortCall → PortCall → outcome (option facts);
  residual : list PortCall → outcome (list string);
  scenarios : list PortCall → outcome (list facts);
}.

(** ** A run *)
Record CaseResult := { cr_case_id : string; cr_status : string; cr_facts : facts; cr_problems : list string; cr_failures : list string }.
(** The calls made on the site, and the lists and the dictionary of the current case. *)
Record Run := { run_calls : list PortCall; run_problems : list string; run_failures : list string; run_facts : facts }.
Definition new_run (calls : list PortCall) : Run := {| run_calls := calls; run_problems := []; run_failures := []; run_facts := [] |}.
Definition run := pym Run.

Definition note (problems : list string) : run unit := modify (fun σ =>
  {| run_calls := run_calls σ; run_problems := run_problems σ ++ problems; run_failures := run_failures σ; run_facts := run_facts σ |}).
Definition fail_with (failures : list string) : run unit := modify (fun σ =>
  {| run_calls := run_calls σ; run_problems := run_problems σ; run_failures := run_failures σ ++ failures; run_facts := run_facts σ |}).
Definition called (c : PortCall) : run unit := modify (fun σ =>
  {| run_calls := run_calls σ ++ [c]; run_problems := run_problems σ; run_failures := run_failures σ; run_facts := run_facts σ |}).
(** [facts[key] = value], each key once *)
Definition record_fact (key : string) (value : json) : run unit := modify (fun σ =>
  {| run_calls := run_calls σ; run_problems := run_problems σ; run_failures := run_failures σ; run_facts := run_facts σ ++ [(key, value)] |}).

(** [_require] *)
Definition require_fact (f : facts) (key : string) (expected : json) : run unit := note (unless (equals (jget key f) expected) key).
Definition unavailable (f : facts) : bool := is_false (jget "available" f).
(** [_finish]: the constructor refuses a passed case that carries problems or failures. *)
Definition case_result (case status : string) (f : facts) (problems failures : list string) : outcome CaseResult :=
  if String.eqb status "passed" && negb (bool_decide (problems = []) && bool_decide (failures = [])) then Raise (RuntimeError "a passed case cannot carry problems or failures")
  else Ret {| cr_case_id := case; cr_status := status; cr_facts := f; cr_problems := problems; cr_failures := failures |}.
Definition finish (case : string) (not_available : bool) : run CaseResult := fun σ =>
  (σ, if negb (bool_decide (run_failures σ = [])) then case_result case "failed" (run_facts σ) (run_problems σ) (run_failures σ)
      else if not_available then case_result case "not_run" (run_facts σ) (run_problems σ) []
      else case_result case (if bool_decide (run_problems σ = []) then "passed" else "failed") (run_facts σ) (run_problems σ) []).

Section Operational.
Context (py_str : json → string) `{SitePort}.

(** [_step]: a crash is recorded and the step has no facts. *)
Definition step_of (label : string) (c : PortCall) : run facts :=
  σ ← get;
  called c;;
  match answer (run_calls σ) c with
  | Ret f => mret (default [] f)
  | Raise e => if is_exception e then fail_with [label];; mret [] else lift (Raise e)
  end.
(** A step whose facts are kept under a key *)
Definition step_at (key label : string) (c : PortCall) : run facts := f ← step_of label c; record_fact key (JObj f);; mret f.

Definition run_o02 (deployment_id : string) (quota_bytes : Z) : run CaseResult :=
  isolation ← step_at "isolation" "isolate_mount_namespace" (IsolateMountNamespace deployment_id);
  if unavailable isolation then finish "O02" true
  else
    require_fact isolation "private_mount_namespace" (JBool true);;
    note (unless (negb (is_true (jget "unmounted_shared_disk" isolation))) "a machine-wide disk was unmounted");;
    failure ← step_at "model_disk" "fail_model_disk" FailModelDisk;
    require_fact failure "model_disk_unavailable" (JBool true);;
    require_fact failure "root_disk_writes" (JInt 0);;
    scratch ← step_at "scratch" "fill_scratch" (FillScratch quota_bytes);
    require_fact scratch "dedicated_quota_fs" (JBool true);;
    require_fact scratch "scratch_full" (JBool true);;
    require_fact scratch "root_disk_writes" (JInt 0);;
    recovery ← step_at "recovery" "recover_model_disk" RecoverModelDisk;
    require_fact recovery "recovered" (JBool true);;
    require_fact recovery "rehashed" (JBool true);;
    finish "O02" false.

Definition run_o03 (model_id : string) : run CaseResult :=
  docker ← step_at "docker_unreachable" "make_docker_unreachable" MakeDockerUnreachable;
  if unavailable docker then finish "O03" true
  else
    require_fact docker "health_status" (JInt 503);;
    require_fact docker "budget_kept" (JBool true);;
    require_fact docker "other_containers_untouched" (JBool true);;
    unknown ← step_at "unknown_instance" "present_unknown_instance" PresentUnknownInstance;
    require_fact unknown "unknown_recorded" (JBool true);;
    require_fact unknown "health_status" (JInt 503);;
    require_fact unknown "other_containers_untouched" (JBool true);;
    stalled ← step_at "stop_timeout" "stall_stop" (StallStop model_id);
    require_fact stalled "stop_timeout_recorded" (JBool true);;
    require_fact stalled "budget_kept" (JBool true);;
    require_fact stalled "health_status" (JInt 503);;
    finish "O03" false.

(** The instances left after the restart; a list that cannot be read is a failure. *)
Definition leftover_instances : run (list string) :=
  σ ← get;
  called ResidualInstances;;
  match residual (run_calls σ) with
  | Ret l => mret l
  | Raise e => if is_exception e then fail_with ["residual_instances"];; mret [] else lift (Raise e)
  end.
(** Refused, and with a reason *)
Definition refusal_problems (f : facts) (key : string) : list string :=
  if negb (is_false (jget key f)) then ["not refused"] else unless (speaks py_str (jget "reason" f)) "refused without a reason".
Definition run_o04 : run CaseResult :=
  restart ← step_at "restart" "restart_service" RestartService;
  if unavailable restart then finish "O04" true
  else
    require_fact restart "restarted" (JBool true);;
    require_fact restart "residual_instances_cleaned" (JBool true);;
    note (unless (is_false (jget "inference_replay" restart)) "the restart must not replay inference");;
    leftovers ← leftover_instances;
    record_fact "residual_after_restart" (JList (JStr <$> leftovers));;
    note (unless (bool_decide (leftovers = [])) "instances survived the restart");;
    token ← step_at "old_token" "attempt_old_token" AttemptOldToken;
    note (refusal_problems token "accepted");;
    admission ← step_at "admission" "admission_after_cleanup" AdmissionAfterCleanup;
    require_fact admission "admitted" (JBool true);;
    finish "O04" false.

(** [str(scenario.get("name") or "unnamed")] *)
Definition scenario_name (scenario : facts) : string :=
  match jget "name" scenario with
  | Some v => if Observer.py_true v then match v with JStr s => s | _ => py_str v end else "unnamed"
  | None => "unnamed"
  end.
Definition run_scenario (scenario : facts) : run json :=
  let name := scenario_name scenario in
  result ← step_of ("preflight(tampered:" +:+ name +:+ ")") (PreflightOf (got (jget "candidate" scenario)) (got (jget "evidence" scenario)));
  note (refusal_problems result "accepted");;
  note (unless (negb (is_true (jget "loaded" result))) "reached the load step");;
  note (unless (negb (is_true (jget "production_gate" result))) "invoked the production gate");;
  mret (JObj [("name", JStr name); ("facts", JObj result)]).
Fixpoint run_scenarios (l : list facts) : run (list json) :=
  match l with
  | [] => mret []
  | scenario :: l => entry ← run_scenario scenario; rest ← run_scenarios l; mret (entry :: rest)
  end.
Definition run_o05 (candidate evidence : json) : run CaseResult :=
  correct ← step_at "correct" "preflight(candidate)" (PreflightOf candidate evidence);
  if unavailable correct then finish "O05" true
  else
    require_fact correct "accepted" (JBool true);;
    note (unless (negb (is_true (jget "production_gate" correct))) "the production gate was invoked");;
    σ ← get;
    called TamperScenarios;;
    l ← lift (scenarios (run_calls σ));
    note (unless (negb (bool_decide (l = []))) "no tamper scenario was supplied");;
    tampered ← run_scenarios l;
    record_fact "tampered" (JList tampered);;
    finish "O05" false.

Definition digest_of (f : facts) : option json := jget "snapshot_sha256" f.
Definition well_formed_digest (v : option json) : bool := match v with Some (JStr s) => SHA256_RE s | _ => false end.
Definition run_o06 : run CaseResult :=
  shutdown ← step_at "shutdown" "graceful_shutdown" GracefulShutdown;
  if unavailable shutdown then finish "O06" true
  else
    require_fact shutdown "graceful" (JBool true);;
    require_fact shutdown "exit_code" (JInt 0);;
    logs ← step_at "logs" "log_report" LogReport;
    require_fact logs "capacity_ok" (JBool true);;
    require_fact logs "redaction_ok" (JBool true);;
    backup ← step_at "backup" "backup" Backup;
    note (unless (well_formed_digest (digest_of backup)) "the backup must report a digest");;
    note (unless (given (jget "files" backup)) "the backup reports no files");;
    restore ← step_at "restore" "restore" (Restore backup);
    require_fact restore "restored" (JBool true);;
    require_fact restore "snapshot_sha256" (got (digest_of backup));;
    rollback ← step_at "rollback" "rollback(accepted)" (Rollback backup true);
    require_fact rollback "applied" (JBool true);;
    refused ← step_at "rollback_refused" "rollback(no evidence)" (Rollback backup false);
    note (refusal_problems refused "applied");;
    finish "O06" false.
End Operational.

(** ** The orchestrator and the recomputation agree *)
Inductive OperationalCase := CaseO02 (deployment_id : string) (quota_bytes : Z) | CaseO03 (model_id : string) | CaseO04 | CaseO05 (candidate evidence : json) | CaseO06.
Definition case_name (k : OperationalCase) : string :=
  match k with CaseO02 _ _ => "O02" | CaseO03 _ => "O03" | CaseO04 => "O04" | CaseO05 _ _ => "O05" | CaseO06 => "O06" end.
(** The first step of a case, which says whether the case can run. *)
Definition first_fact (k : OperationalCase) : string :=
  match k with CaseO02 _ _ => "isolation" | CaseO03 _ => "docker_unreachable" | CaseO04 => "restart" | CaseO05 _ _ => "correct" | CaseO06 => "shutdown" end.
Definition could_run (k : OperationalCase) (f : facts) : bool := negb (is_false (dotted f (first_fact k) "available")).
(** What an orchestrator checks beyond the recomputation: a refusal is [False] and
    not merely equal to it, the backup names files, and no tampered scenario
    reached the production gate. *)
Definition gate_not_reached (entry : json) : bool :=
  match entry with JObj e => negb (is_true (mapping_of_json (jget "facts" e) ≫= jget "production_gate")) | _ => true end.
Definition stricter (k : OperationalCase) (f : facts) : bool :=
  match k with
  | CaseO02 _ _ | CaseO03 _ => true
  | CaseO04 => is_false (dotted f "restart" "inference_replay") && is_false (dotted f "old_token" "accepted")
  | CaseO05 _ _ => match jget "tampered" f with Some (JList l) => forallb gate_not_reached l | _ => true end
  | CaseO06 => given (dotted f "backup" "files") && is_false (dotted f "rollback_refused" "applied")
  end.
(** [correct.accepted] is not a number: [1] equals [True] but is not [True]. *)
Definition plain_answers (k : OperationalCase) (f : facts) : Prop :=
  match k with CaseO05 _ _ => match dotted f "correct" "accepted" with Some (JInt _ | JFloat _) => False | _ => True end | _ => True end.

Section Agreement.
Context (py_str : json → string) `{SitePort}.
Definition run_case (k : OperationalCase) : run CaseResult :=
  match k with
  | CaseO02 deployment_id quota_bytes => run_o02 deployment_id quota_bytes
  | CaseO03 model_id => run_o03 model_id
  | CaseO04 => run_o04 py_str
  | CaseO05 candidate evidence => run_o05 py_str candidate evidence
  | CaseO06 => run_o06 py_str
  end.
(** Steps that answer or raise an ordinary exception.  Nothing is asked of the
    tamper scenarios, which are read outside any handler. *)
Class OrdinaryPort := {
  answer_ordinary calls c e : answer calls c = Raise e → is_exception e = true;
  residual_ordinary calls e : residual calls = Raise e → is_exception e = true;
}.

(** *** What a run asked of the site, and what it recorded of the answers *)
(** The facts of a step called after [calls]; a crash has none. *)
Definition step_facts (calls : list PortCall) (c : PortCall) : facts := match answer calls c with Ret f => default [] f | Raise _ => [] end.
Definition instances_left (calls : list PortCall) : list string := match residual calls with Ret l => l | Raise _ => [] end.
Definition asks_facts (c : PortCall) : bool := match c with ResidualInstances | TamperScenarios => false | _ => true end.
Definition answers (calls : list PortCall) (c : PortCall) : bool :=
  match c with
  | ResidualInstances => match residual calls with Ret _ => true | Raise _ => false end
  | TamperScenarios => match scenarios calls with Ret _ => true | Raise _ => false end
  | _ => match answer calls c with Ret _ => true | Raise _ => false end
  end.
(** Every one of the calls made after [calls] was answered. *)
Fixpoint all_answered (calls made : list PortCall) : bool :=
  match made with [] => true | c :: made => answers calls c && all_answered (calls ++ [c]) made end.
(** The facts hold, under its key, the answer to each call of the script. *)
Fixpoint recorded (calls : list PortCall) (script : list (string * PortCall)) (f : facts) : Prop :=
  match script with
  | [] => True
  | (key, c) :: script =>
      jget key f = Some (if asks_facts c then JObj (step_facts calls c) else JList (JStr <$> instances_left calls)) ∧ recorded (calls ++ [c]) script f
  end.
(** The calls of a case that can run, with the key each answer is kept under; what
    is restored and rolled back to is the backup recorded. *)
Definition script (k : OperationalCase) (f : facts) : list (string * PortCall) :=
  let backup := default [] (mapping_of_json (jget "backup" f)) in
  match k with
  | CaseO02 deployment_id quota_bytes =>
      [("isolation", IsolateMountNamespace deployment_id); ("model_disk", FailModelDisk); ("scratch", FillScratch quota_bytes); ("recovery", RecoverModelDisk)]
  | CaseO03 model_id => [("docker_unreachable", MakeDockerUnreachable); ("unknown_instance", PresentUnknownInstance); ("stop_timeout", StallStop model_id)]
  | CaseO04 => [("restart", RestartService); ("residual_after_restart", ResidualInstances); ("old_token", AttemptOldToken); ("admission", AdmissionAfterCleanup)]
  | CaseO05 candidate evidence => [("correct", PreflightOf candidate evidence)]
  | CaseO06 => [("shutdown", GracefulShutdown); ("logs", LogReport); ("backup", Backup); ("restore", Restore backup); ("rollback", Rollback backup true);
                ("rollback_refused", Rollback backup false)]
  end.
Definition scenario_call (scenario : facts) : PortCall := PreflightOf (got (jget "candidate" scenario)) (got (jget "evidence" scenario)).
(** The tampered scenarios, one preflight each, in order *)
Fixpoint tampered_of (calls : list PortCall) (l : list facts) : list json :=
  match l with
  | [] => []
  | scenario :: l =>
      JObj [("name", JStr (scenario_name py_str scenario)); ("facts", JObj (step_facts calls (scenario_call scenario)))]
      :: tampered_of (calls ++ [scenario_call scenario]) l
  end.
(** The run made exactly the calls of its case, the first one only when the case
    cannot run, recorded what they answered, and failed where one was not. *)
Definition asked (k : OperationalCase) (calls : list PortCall) (σ : Run) (r : CaseResult) : Prop :=
  let f := cr_facts r in
  let steps := if could_run k f then script k f else take 1 (script k f) in
  recorded calls steps f ∧
  ∃ more, run_calls σ = calls ++ (snd <$> steps) ++ more ∧ (cr_failures r = [] ↔ all_answered calls ((snd <$> steps) ++ more) = true) ∧
  match k with
  | CaseO05 _ _ => could_run k f = true →
      ∃ l, scenarios (calls ++ (snd <$> steps)) = Ret l ∧ more = TamperScenarios :: (scenario_call <$> l) ∧
           jget "tampered" f = Some (JList (tampered_of (calls ++ (snd <$> steps) ++ [TamperScenarios]) l))
  | _ => more = []
  end.

(** The run ends, with a result that has the property. *)
Definition ends {A} (m : run A) (σ : Run) (Q : A → Run → Prop) : Prop := ∃ σ' a, m σ = (σ', Ret a) ∧ Q a σ'.
Lemma ends_bind {A B} (m : run A) (k : A → run B) σ Q : ends m σ (fun a σ' => ends (k a) σ' Q) → ends (m ≫= k) σ Q.
Proof. intros (σ1 & a & E & σ2 & b & E2 & HQ). exists σ2, b. split; [|done]. apply bind_returns. by exists a, σ1. Qed.
Lemma ends_ret {A} (a : A) σ (Q : A → Run → Prop) : Q a σ → ends (mret a) σ Q.
Proof. by exists σ, a. Qed.
Lemma ends_get σ (Q : Run → Run → Prop) : Q σ σ → ends get σ Q.
Proof. by exists σ, σ. Qed.
Lemma ends_modify f σ (Q : unit → Run → Prop) : Q tt (f σ) → ends (modify f) σ Q.
Proof. by exists (f σ), tt. Qed.

Definition after_step (σ : Run) (c : PortCall) (failures : list string) : Run :=
  {| run_calls := run_calls σ ++ [c]; run_problems := run_problems σ; run_failures := run_failures σ ++ failures; run_facts := run_facts σ |}.
Lemma ends_step `{OrdinaryPort} label c σ (Q : facts → Run → Prop) : asks_facts c = true →
  (∀ f failures, f = step_facts (run_calls σ) c → (failures = [] ↔ answers (run_calls σ) c = true) → Q f (after_step σ c failures)) → ends (step_of label c) σ Q.
Proof.
  intros Hc HQ. apply ends_bind, ends_get, ends_bind, ends_modify. destruct (answer (run_calls σ) c) as [f|e] eqn:E.
  - apply ends_ret. specialize (HQ (default [] f) []). unfold after_step in HQ. rewrite app_nil_r in HQ. apply HQ; [unfold step_facts; by rewrite E|].
    by destruct c; try done; cbn; rewrite E.
  - rewrite (answer_ordinary _ _ _ E). apply ends_bind, ends_modify, ends_ret, (HQ [] [label]); [unfold step_facts; by rewrite E|].
    by destruct c; try done; cbn; rewrite E.
Qed.
Lemma ends_leftovers `{OrdinaryPort} σ (Q : list string → Run → Prop) :
  (∀ l failures, l = instances_left (run_calls σ) → (failures = [] ↔ answers (run_calls σ) ResidualInstances = true) → Q l (after_step σ ResidualInstances failures)) →
  ends leftover_instances σ Q.
Proof.
  intros HQ. apply ends_bind, ends_get, ends_bind, ends_modify. destruct (residual (run_calls σ)) as [l|e] eqn:E.
  - apply ends_ret. specialize (HQ l []). unfold after_step in HQ. rewrite app_nil_r in HQ. apply HQ; [unfold instances_left|cbn]; by rewrite E.
  - rewrite (residual_ordinary _ _ E). apply ends_bind, ends_modify, ends_ret, (HQ [] ["residual_instances"]); [unfold instances_left|cbn]; by rewrite E.
Qed.
Lemma ends_finish case na σ (Q : CaseResult → Run → Prop) :
  (∀ r, cr_case_id r = case → cr_facts r = run_facts σ → cr_failures r = run_failures σ →
    (cr_status r = "passed" ↔ na = false ∧ run_failures σ = [] ∧ run_problems σ = []) → Q r σ) → ends (finish case na) σ Q.
Proof.
  intros HQ. unfold ends, finish, case_result. exists σ. destruct (run_failures σ) as [|x l] eqn:Ef; cbn.
  - destruct na; cbn; [eexists; split; [reflexivity|]; apply HQ; cbn; [done..|]; split; [done|intros [? _]; done]|].
    destruct (run_problems σ) as [|y m] eqn:Ep; cbn; eexists; (split; [reflexivity|]); apply HQ; cbn; try done. split; [done|intros (_ & _ & ?); done].
  - eexists. split; [reflexivity|]. apply HQ; cbn; try done. split; [done|intros (_ & ? & _); done].
Qed.

Definition agrees (k : OperationalCase) (calls : list PortCall) (r : CaseResult) (σ : Run) : Prop :=
  cr_case_id r = case_name k ∧ asked k calls σ r
  ∧ (plain_answers k (cr_facts r) →
     cr_status r = "passed" ↔
     cr_failures r = [] ∧ could_run k (cr_facts r) = true ∧ recompute_objections py_str (case_name k) (cr_facts r) = [] ∧ stricter k (cr_facts r) = true).
(** Symbolic execution of a run. *)
Ltac walk :=
  repeat (cbv beta; lazymatch goal with
    | |- ends (mbind _ _) _ _ => apply ends_bind
    | |- ends get _ _ => apply ends_get
    | |- ends (modify _) _ _ => apply ends_modify; cbn [run_calls run_problems run_failures run_facts new_run after_step app]
    | |- ends (step_of _ _) _ _ => apply ends_step; [reflexivity|]; intros ? ? ? ?; cbn [run_calls run_problems run_failures run_facts new_run after_step app]
    | |- ends leftover_instances _ _ => apply ends_leftovers; intros ? ? ? ?; cbn [run_calls run_problems run_failures run_facts new_run after_step app]
    | |- ends (mret _) _ _ => apply ends_ret
    | |- ends (step_at _ _ _) _ _ => unfold step_at
    | |- ends (require_fact _ _ _) _ _ => unfold require_fact
    | |- ends (note _) _ _ => unfold note
    | |- ends (record_fact _ _) _ _ => unfold record_fact
    | |- ends (called _) _ _ => unfold called
    end).
Ltac facts_of :=
  cbn [new_run after_step run_calls run_problems run_failures run_facts app jget String.eqb Ascii.eqb Bool.eqb].
Ltac facts_in Hf :=
  cbn [new_run after_step run_calls run_problems run_failures run_facts app jget String.eqb Ascii.eqb Bool.eqb] in Hf.
Lemma dotted_object f a b inner : jget a f = Some (JObj inner) → dotted f a b = jget b inner.
Proof. unfold dotted. by intros ->. Qed.
Ltac calls_in H := cbn [new_run after_step run_calls run_problems run_failures run_facts app] in H.
(** Both sides list the same answers. *)
Ltac same_answers :=
  cbn [all_answered fmap list_fmap snd app]; rewrite ?app_nil, ?andb_true_iff; repeat match goal with K : ?x = [] ↔ _ |- _ => rewrite K; clear K end; naive_solver.
(** A case that could not run asked for its first step alone, and is not passed. *)
Lemma unavailable_agrees k calls σ r f failures P :
  cr_case_id r = case_name k → run_facts σ = [(first_fact k, JObj f)] → cr_facts r = run_facts σ → unavailable f = true →
  (∀ c, head (script k (cr_facts r)) = Some (first_fact k, c) → asks_facts c = true ∧ f = step_facts calls c ∧ (failures = [] ↔ answers calls c = true) ∧ run_calls σ = calls ++ [c]) →
  is_Some (head (script k (cr_facts r))) → cr_failures r = failures →
  (cr_status r = "passed" ↔ true = false ∧ P) → agrees k calls r σ.
Proof.
  intros Hc Hσ Hf Hu Hs Hsome Hx Hp. assert (jget (first_fact k) (cr_facts r) = Some (JObj f)) as Hj by (rewrite Hf, Hσ; cbn; by rewrite String.eqb_refl).
  assert (could_run k (cr_facts r) = false) as Hn by (unfold could_run; rewrite (dotted_object _ _ _ _ Hj); unfold unavailable in Hu; by rewrite Hu).
  split; [done|]. split; [|intros _; rewrite Hp, Hn; naive_solver].
  unfold asked. cbv zeta. rewrite Hn. assert (∃ c, take 1 (script k (cr_facts r)) = [(first_fact k, c)]) as [c Ht].
  { destruct Hsome as [[key c] Hh]. exists c. destruct k; cbn in *; by simplify_eq. }
  rewrite Ht. assert (head (script k (cr_facts r)) = Some (first_fact k, c)) as (Ha & -> & Hi & Hr)%Hs.
  { destruct (script k (cr_facts r)); cbn in *; by simplify_eq. }
  split; [cbn; by rewrite Ha, Hj|]. exists []. rewrite Hr, Hx. split_and!; [done|cbn; by rewrite Hi, andb_true_r|]. by destruct k.
Qed.
Ltac cannot_run Eu := apply ends_finish; intros r Hc Hf Hx Hp; eapply unavailable_agrees;
  [exact Hc|reflexivity|exact Hf|exact Eu|intros ? [= <-]; split_and!; [reflexivity|eassumption|eassumption|reflexivity]|by eexists|exact Hx|exact Hp].
(** The script of a case that ran to its end *)
Ltac asked_all Eu Hf Hx :=
  unfold asked, could_run, script, dotted; unfold unavailable in Eu; cbv zeta; rewrite Hf, Hx;
  cbn [jget String.eqb Ascii.eqb Bool.eqb mapping_of_json mbind option_bind first_fact]; rewrite Eu; cbn [negb default];
  split; [cbn; subst; split_and!; reflexivity|
    exists []; split_and!; [cbn [run_calls]; rewrite <-?(assoc_L (++)); reflexivity|same_answers|reflexivity]].

Ltac compare_checks Eu :=
  unfold could_run, stricter, recompute_objections, o05_objections, o06_objections, dotted, mapping_of_json; unfold unavailable in Eu;
  cbn [case_name first_fact];
  try match goal with |- context [O_REQUIREMENTS ?case] =>
    let v := eval vm_compute in (O_REQUIREMENTS case) in replace (O_REQUIREMENTS case) with v by (vm_compute; reflexivity) end;
  cbn [map mjoin list_join app jget String.eqb Ascii.eqb Bool.eqb mbind option_bind];
  rewrite ?Eu, ?app_nil, ?unless_nil; cbn [negb];
  rewrite ?negb_true_iff, ?andb_true_iff.
(** Both sides are conjunctions of the same checks. *)
Ltac same_checks := split; intros; destruct_and?; split_and?; auto.
Lemma o02_agrees `{OrdinaryPort} calls deployment_id quota_bytes :
  ends (run_o02 deployment_id quota_bytes) (new_run calls) (agrees (CaseO02 deployment_id quota_bytes) calls).
Proof.
  unfold run_o02. walk. destruct (unavailable f) eqn:Eu; [cannot_run Eu|].
  walk. apply ends_finish. intros r Hc Hf Hx Hp. facts_in Hf. facts_in Hx. facts_in Hp. split; [done|]. split; [asked_all Eu Hf Hx|].
  intros _. rewrite Hp, Hx, Hf.
  compare_checks Eu. same_checks.
Qed.
Lemma o03_agrees `{OrdinaryPort} calls model_id : ends (run_o03 model_id) (new_run calls) (agrees (CaseO03 model_id) calls).
Proof.
  unfold run_o03. walk. destruct (unavailable f) eqn:Eu; [cannot_run Eu|].
  walk. apply ends_finish. intros r Hc Hf Hx Hp. facts_in Hf. facts_in Hx. facts_in Hp. split; [done|]. split; [asked_all Eu Hf Hx|].
  intros _. rewrite Hp, Hx, Hf.
  compare_checks Eu. same_checks.
Qed.

Lemma is_false_equals v : is_false v = true → equals v (JBool false) = true.
Proof. destruct v as [[| [] | | | | | ]|]; try done. Qed.
Lemma refusal_nil f key : refusal_problems py_str f key = [] ↔ is_false (jget key f) = true ∧ speaks py_str (jget "reason" f) = true.
Proof. unfold refusal_problems. destruct (is_false (jget key f)); cbn [negb]; [rewrite unless_nil; naive_solver|naive_solver]. Qed.
Lemma given_list (l : list string) : given (Some (JList (JStr <$> l))) = false ↔ l = [].
Proof. by destruct l. Qed.
Lemma o04_agrees `{OrdinaryPort} calls : ends (run_o04 py_str) (new_run calls) (agrees CaseO04 calls).
Proof.
  unfold run_o04. walk. destruct (unavailable f) eqn:Eu; [cannot_run Eu|].
  walk. apply ends_finish. intros r Hc Hf Hx Hp. facts_in Hf. facts_in Hx. facts_in Hp. split; [done|]. split; [asked_all Eu Hf Hx|].
  intros _. rewrite Hp, Hx, Hf.
  compare_checks Eu. rewrite refusal_nil, given_list, bool_decide_eq_true.
  pose proof (is_false_equals (jget "inference_replay" f)). pose proof (is_false_equals (jget "accepted" f0)). same_checks.
Qed.
Lemma o06_agrees `{OrdinaryPort} calls : ends (run_o06 py_str) (new_run calls) (agrees CaseO06 calls).
Proof.
  unfold run_o06. walk. destruct (unavailable f) eqn:Eu; [cannot_run Eu|].
  walk. apply ends_finish. intros r Hc Hf Hx Hp. facts_in Hf. facts_in Hx. facts_in Hp. split; [done|]. split; [asked_all Eu Hf Hx|].
  intros _. rewrite Hp, Hx, Hf.
  compare_checks Eu. rewrite refusal_nil. unfold digest_of, well_formed_digest. fold (equals (jget "snapshot_sha256" f2) (got (jget "snapshot_sha256" f1))).
  pose proof (is_false_equals (jget "applied" f4)). same_checks.
Qed.

Lemma forallb_gate entry l : forallb gate_not_reached (entry :: l) = true ↔ gate_not_reached entry = true ∧ forallb gate_not_reached l = true.
Proof. apply andb_true_iff. Qed.
Lemma tampered_nil name f : tampered_problems py_str (JObj [("name", JStr name); ("facts", JObj f)]) = [] ↔
  is_false (jget "accepted" f) = true ∧ speaks py_str (jget "reason" f) = true ∧ negb (is_true (jget "loaded" f)) = true.
Proof.
  cbn [tampered_problems jget String.eqb Ascii.eqb Bool.eqb mapping_of_json]. destruct (is_false (jget "accepted" f)); cbn [negb]; [rewrite app_nil, !unless_nil; naive_solver|naive_solver].
Qed.
Lemma ends_scenarios `{OrdinaryPort} l σ (Q : list json → Run → Prop) :
  (∀ problems failures, (failures = [] ↔ all_answered (run_calls σ) (scenario_call <$> l) = true) →
     let entries := tampered_of (run_calls σ) l in
     (problems = [] ↔ mjoin (map (tampered_problems py_str) entries) = [] ∧ forallb gate_not_reached entries = true) →
     Q entries {| run_calls := run_calls σ ++ (scenario_call <$> l); run_problems := run_problems σ ++ problems;
                  run_failures := run_failures σ ++ failures; run_facts := run_facts σ |}) →
  ends (run_scenarios py_str l) σ Q.
Proof.
  revert σ Q. induction l as [|scenario l IH]; intros σ Q HQ; cbn [run_scenarios].
  - apply ends_ret. specialize (HQ [] []). cbn in HQ. rewrite !app_nil_r in HQ. destruct σ. by apply HQ.
  - apply ends_bind. unfold run_scenario. walk. apply IH. intros problems failures' Hfail entries Hp. subst entries.
    cbn [run_problems run_failures run_facts run_calls] in *. apply ends_ret. fold (scenario_call scenario) in *. subst f. rewrite <-!(assoc_L (++)). apply HQ.
    + cbn [fmap list_fmap all_answered]. rewrite app_nil, andb_true_iff, <-Hfail. naive_solver.
    + cbn [tampered_of]. rewrite forallb_gate, !app_nil, Hp. cbn [map mjoin list_join tampered_problems gate_not_reached].
      cbn [jget String.eqb Ascii.eqb Bool.eqb mapping_of_json mbind option_bind]. rewrite app_nil, tampered_nil, refusal_nil, !unless_nil. same_checks.
Qed.
Lemma plain_true v : match v with Some (JInt _ | JFloat _) => False | _ => True end → equals v (JBool true) = true ↔ is_true v = true.
Proof. destruct v as [[| [] | | | | | ]|]; done. Qed.
Lemma o05_agrees `{OrdinaryPort} calls candidate evidence :
  unavailable (step_facts calls (PreflightOf candidate evidence)) = true ∨ (∃ l, scenarios (calls ++ [PreflightOf candidate evidence]) = Ret l) →
  ends (run_o05 py_str candidate evidence) (new_run calls) (agrees (CaseO05 candidate evidence) calls).
Proof.
  intros Hread. unfold run_o05. walk. destruct (unavailable f) eqn:Eu; [cannot_run Eu|].
  walk. destruct Hread as [Hu|[l Hl]]; [subst f; cbn [new_run run_calls] in Eu; congruence|]. rewrite Hl.
  eexists _, _. split; [reflexivity|]. fold (@ends CaseResult). walk.
  apply ends_scenarios. cbn [run_calls]. intros problems failures' Hfail Hpr. set (entries := tampered_of _ l) in *. walk. apply ends_finish. intros r Hc Hf Hx Hp. facts_in Hf. facts_in Hx. facts_in Hp.
  split; [done|]. split.
  - unfold asked, could_run, script, dotted. unfold unavailable in Eu. cbv zeta. rewrite Hf, Hx.
    cbn [jget String.eqb Ascii.eqb Bool.eqb mapping_of_json mbind option_bind first_fact]. rewrite Eu. cbn [negb default].
    split; [cbn; subst; done|]. exists (TamperScenarios :: (scenario_call <$> l)). rewrite <-!(assoc_L (++)) in *. split_and!; [done| |].
    + cbn [all_answered fmap list_fmap snd app]. rewrite app_nil, !andb_true_iff, <-(assoc_L (++)), Hfail. cbn [app answers]. rewrite Hl. naive_solver.
    + intros _. exists l. split_and!; [exact Hl|done|]. do 2 f_equal. unfold entries. by rewrite <-(assoc_L (++)).
  - intros Hplain. rewrite Hp, Hx, Hf. unfold plain_answers, dotted in Hplain. rewrite Hf in Hplain.
    cbn [jget String.eqb Ascii.eqb Bool.eqb mapping_of_json mbind option_bind] in Hplain. compare_checks Eu. rewrite bool_decide_eq_false, (plain_true _ Hplain), Hpr.
    subst entries. destruct l as [|y l]; cbn [tampered_of]; same_checks; try done; congruence.
Qed.
Lemma raised_bind {A B} (m : run A) (k : A → run B) σ e : ends m σ (fun a σ' => ∃ σ2, k a σ' = (σ2, Raise e)) → ∃ σ2, (m ≫= k) σ = (σ2, Raise e).
Proof. intros (σ1 & a & E & σ2 & E2). exists σ2. unfold mbind, pym_bind. by rewrite E. Qed.
(** The scenarios are read outside any handler: what reading them raises leaves the case. *)
Lemma o05_raises `{OrdinaryPort} calls candidate evidence e :
  unavailable (step_facts calls (PreflightOf candidate evidence)) = false → scenarios (calls ++ [PreflightOf candidate evidence]) = Raise e →
  ∃ σ, run_o05 py_str candidate evidence (new_run calls) = (σ, Raise e).
Proof.
  intros Hu He. unfold run_o05. apply raised_bind. walk. subst f. cbn [new_run run_calls] in Hu |- *. rewrite Hu.
  do 4 (apply raised_bind; walk). eexists. unfold mbind at 1, pym_bind at 1, lift at 1. by rewrite He.
Qed.

(** C24: A case passes while it runs exactly if it passes when it is recomputed.
    For ports whose steps answer or raise an ordinary exception, each of the
    orchestrated cases O02 to O06 ends with a result, except that O05 raises what
    reading its tamper scenarios raised.  The run made exactly the calls of its
    case, in order (the first one alone when that says the case cannot run), and
    its facts hold the answers under their keys; a failure is recorded exactly if
    one of the calls was not answered; and the status is [passed] if and only if no
    failure is recorded, the case could run, the recomputation from the collected
    facts has no objection, and the few checks hold that the orchestrator makes
    beyond it ([stricter]).  In O05 the acceptance must not be given as a
    number. *)
Theorem orchestrator_agrees `{OrdinaryPort} k calls :
  (∃ σ e candidate evidence, k = CaseO05 candidate evidence ∧ unavailable (step_facts calls (PreflightOf candidate evidence)) = false
     ∧ scenarios (calls ++ [PreflightOf candidate evidence]) = Raise e ∧ run_case k (new_run calls) = (σ, Raise e))
  ∨ ∃ σ r, run_case k (new_run calls) = (σ, Ret r) ∧ cr_case_id r = case_name k ∧ asked k calls σ r
    ∧ (plain_answers k (cr_facts r) →
       cr_status r = "passed" ↔
       cr_failures r = [] ∧ could_run k (cr_facts r) = true ∧ recompute_objections py_str (case_name k) (cr_facts r) = [] ∧ stricter k (cr_facts r) = true).
Proof.
  assert ((∃ candidate evidence e, k = CaseO05 candidate evidence ∧ unavailable (step_facts calls (PreflightOf candidate evidence)) = false
     ∧ scenarios (calls ++ [PreflightOf candidate evidence]) = Raise e) ∨ ends (run_case k) (new_run calls) (agrees k calls)) as [(c & ev & e & -> & Hu & He)|Hends].
  - destruct k as [| | |candidate evidence|]; [right; by apply o02_agrees|right; by apply o03_agrees|right; by apply o04_agrees| |right; by apply o06_agrees].
    destruct (unavailable (step_facts calls (PreflightOf candidate evidence))) eqn:Eu; [right; apply o05_agrees; by left|].
    destruct (scenarios (calls ++ [PreflightOf candidate evidence])) as [l|e] eqn:E; [right; apply o05_agrees; right; rewrite E; by eexists|left; by exists candidate, evidence, e].
  - left. destruct (o05_raises _ _ _ _ Hu He) as [σ Er]. by exists σ, e, c, ev.
  - right. destruct Hends as (σ & r & E & Ha). exists σ, r. done.
Qed.
End Agreement.

(** ** A site that passes every case *)
Definition good_facts : facts :=
  (fun key => (key, JBool true)) <$> ["private_mount_namespace"; "model_disk_unavailable"; "dedicated_quota_fs"; "scratch_full"; "recovered"; "rehashed"; "budget_kept";
     "other_containers_untouched"; "unknown_recorded"; "stop_timeout_recorded"; "restarted"; "residual_instances_cleaned"; "admitted"; "graceful"; "capacity_ok";
     "redaction_ok"; "restored"].
Definition good_site : SitePort := {|
  answer := fun _ c => Ret (Some (match c with
    | PreflightOf JNull _ => [("accepted", JBool true)]
    | PreflightOf _ _ | AttemptOldToken => [("accepted", JBool false); ("reason", JStr "stale_token")]
    | Rollback _ true => [("applied", JBool true)]
    | Rollback _ false => [("applied", JBool false); ("reason", JStr "no evidence")]
    | _ => [("inference_replay", JBool false); ("root_disk_writes", JInt 0); ("exit_code", JInt 0); ("health_status", JInt 503);
            ("files", JList [JStr "blobs.sqlite3"]); ("snapshot_sha256", JStr (concat_text (repeat "0" 64)))] ++ good_facts
    end));
  residual := fun _ => Ret [];
  scenarios := fun _ => Ret [[("name", JStr "edited"); ("candidate", JStr "edited")]];
|}.
Definition text_of (v : json) : string := match v with JStr s => s | _ => "..." end.
#[local] Existing Instance good_site.
#[local] Instance good_ordinary : OrdinaryPort.
Proof. split; done. Qed.
Definition every_case : list OperationalCase := [CaseO02 "lab" 1; CaseO03 "m"; CaseO04; CaseO05 JNull JNull; CaseO06].
(** Every case passes on the site, and its result is the one of the run. *)
Lemma orchestrator_agrees_witness : Forall (fun k => ∃ σ r, run_case text_of k (new_run []) = (σ, Ret r) ∧ cr_status r = "passed" ∧ asked text_of k [] σ r
  ∧ recompute_objections text_of (case_name k) (cr_facts r) = []) every_case.
Proof.
  assert (∀ k, ∃ σ r, run_case text_of k (new_run []) = (σ, Ret r) ∧ asked text_of k [] σ r ∧ (plain_answers k (cr_facts r) → cr_status r = "passed" →
    recompute_objections text_of (case_name k) (cr_facts r) = [])) as Hall.
  { intros k. destruct (orchestrator_agrees text_of k []) as [(σ & e & c & ev & _ & _ & He & _)|(σ & r & E & _ & Hk & Ha)]; [discriminate He|].
    exists σ, r. split; [exact E|]. split; [exact Hk|]. intros Hp Hs. by apply Ha. }
  apply Forall_forall. intros k Hk. destruct (Hall k) as (σ & r & E & Hasked & Ha). exists σ, r. split; [exact E|].
  assert (cr_status r = "passed" ∧ plain_answers k (cr_facts r)) as [Hs Hp]; [|split_and!; [exact Hs|exact Hasked|by apply Ha]].
  unfold every_case in Hk. rewrite !elem_of_cons, elem_of_nil in Hk. destruct Hk as [->|[->|[->|[->|[->|[]]]]]]; vm_compute in E; injection E as _ <-; split; vm_compute; (reflexivity || exact I).
Defined.
(** The passing run of O05 made three calls. *)
Example good_o05_calls : run_calls (run_case text_of (CaseO05 JNull JNull) (new_run [])).1 =
  [PreflightOf JNull JNull; TamperScenarios; PreflightOf (JStr "edited") JNull].
Proof. vm_compute. reflexivity. Qed.
