(* ===== verification/Candidate.v ===== *)
(** * Freezing a candidate

    [acceptance/candidate.py]: [member_sha256] and [build_candidate], which turns a
    configuration, the device facts, the measurement and the fixtures into the
    candidate body.  Files are values: the YAML reader's answer, [Entry]s, and
    [Tree]s for the model directory and the directory of the fixtures file; the
    measurement directory is the list of its regular files.  What [tarfile] finds
    in the source archive is an argument.  [json.loads(json.dumps(body))] only
    turns tuples into lists, which the records print as already.  A refusal is the
    check it stands for. *)

From S2P Require Import Prelude Text Dict Contracts Registration JsonText JsonTextProps Identity Requests Config ConfigProps RegistrationProps RegistrationText Envelopes Control Launch LaunchProps Evidence Evaluator Verify Preflight.
From Stdlib Require Import Ascii QArith.
Local Open Scope Z_scope.

Definition COLLECTOR_MEMBER : string := "source/model_scheduler/acceptance/collector.py".
Definition FIXTURE_KEYS : list string := ["schema_version"; "evaluator"; "fixtures"].
Definition FIXTURE_ENTRY_KEYS : list string := ["fixture_id"; "capabilities"; "artifact"].
Definition candidate_error {A} (msg : string) : outcome A := Raise (CandidateError msg).
Definition expect (ok : bool) (msg : string) : outcome unit := if ok then Ret tt else candidate_error msg.
(** [except ContractError as exc: raise CandidateError(...)] *)
Definition or_candidate {A} (m : outcome A) : outcome A := match m with Raise (ContractError msg) => candidate_error msg | m => m end.
(** [except ConfigError as exc: raise CandidateError(...)] *)
Definition or_unloadable {A} (m : outcome A) : outcome A := match m with Raise (ConfigError msg) => candidate_error msg | m => m end.

(** ** Files *)
Definition read_object (e : Entry) : outcome (list (string * json)) :=
  match file_bytes e with
  | None => candidate_error "cannot read"
  | Some bytes =>
      text ← read_text bytes;
      match loads plain_hooks text with
      | Raise (ValueError _) => candidate_error "cannot read"
      | Raise e => Raise e
      | Ret (JObj document) => Ret document
      | Ret _ => candidate_error "must be a JSON object"
      end
  end.
(** A source archive: its bytes, and what [tarfile] says of a member: [None] for
    one that is no file, [KeyError] for an absent one. *)
Record Archive := { archive_bytes : string; archive_member : string → outcome (option string) }.
(** The regular files below a directory, by relative path. *)
Notation Listing := (list (string * string)).
(** Paths compare by their parts. *)
Fixpoint parts_le (a b : list string) : bool :=
  match a, b with
  | [], _ => true
  | _ :: _, [] => false
  | x :: a, y :: b => if String.eqb x y then parts_le a b else match String.compare x y with Lt => true | _ => false end
  end.
Definition path_le (x y : string * string) : bool := parts_le (path_parts (fst x)) (path_parts (fst y)).
Fixpoint insert_by {A} (le : A → A → bool) (x : A) (l : list A) : list A :=
  match l with [] => [x] | y :: l' => if le x y then x :: l else y :: insert_by le x l' end.
(** [sorted(...)]: stable *)
Definition sort_by {A} (le : A → A → bool) (l : list A) : list A := foldr (insert_by le) [] l.

Section Build.
Context `{FloatText} `{Digest} `{UrlSplit}.

Definition member_sha256 (archive : Archive) (member : string) : outcome string :=
  match archive_member archive member with
  | Ret (Some bytes) => Ret (sha256_hex bytes)
  | Ret None | Raise (KeyError _) => candidate_error "the member is absent"
  | Raise (OSError msg) => candidate_error msg
  | Raise e => Raise e
  end.
(** The file is present with the size and the hash. *)
Definition is_file_of (e : Entry) (size : Z) (sha256 : string) : bool :=
  match file_bytes e with Some bytes => (Z.of_nat (String.length bytes) =? size) && String.eqb (sha256_hex bytes) sha256 | None => false end.
Definition artifact_at (base : Tree) (document : option json) : outcome ArtifactRef :=
  reference ← or_candidate (match document with Some v => parse_artifact_ref v | None => Raise (ContractError "expected an object") end);
  _ ← expect (is_file_of (base (ar_relative_path reference)) (ar_size_bytes reference) (ar_sha256 reference)) "the file is not the declared one";
  Ret reference.
Definition material (directory : Listing) : outcome (list ArtifactRef) :=
  mapM (fun file => make_artifact (fst file) (Z.of_nat (String.length (snd file))) (sha256_hex (snd file))) (sort_by path_le directory).

Record Summary := { su_model_id : json; su_peak : Z }.
Definition measurement_summary (directory : Listing) : outcome Summary :=
  document ← read_object (match assoc "measurements.json" directory with Some bytes => RegularFile bytes | None => NoEntry end);
  match jget "summary" document with
  | Some (JObj summary) =>
      _ ← expect (equals (jget "verdict" summary) (JStr "passed") && is_true (jget "physical_bound_proven" summary)) "the measurement does not prove a physical bound";
      match jget "physical_resident_peak_bytes" summary with
      | Some (JInt bound) =>
          _ ← expect (0 <? bound) "the physical bound is not positive";
          Ret {| su_model_id := got (jget "model_id" summary); su_peak := bound |}
      | _ => candidate_error "the physical bound is not an integer"
      end
  | _ => candidate_error "a summary is required"
  end.
Definition same_keys (data : list (string * json)) (keys : list string) : bool :=
  forallb (fun kv => bool_decide (fst kv ∈ keys)) data && forallb (fun k => bool_decide (is_Some (jget k data))) keys.
Definition text_list (v : option json) : outcome (list string) :=
  match v with
  | Some (JList ((_ :: _) as l)) => of_option (CandidateError "capabilities must be a non-empty list of strings") (mapM (fun x => match x with JStr s => Some s | _ => None end) l)
  | _ => candidate_error "capabilities must be a non-empty list of strings"
  end.
(** One entry of the fixtures file: its file and the capabilities it covers *)
Definition fixture_entry (base : Tree) (entry : json) : outcome (ArtifactRef * list string) :=
  match entry with
  | JObj data =>
      _ ← expect (same_keys data FIXTURE_ENTRY_KEYS) "the keys of a fixture";
      capabilities ← text_list (jget "capabilities" data);
      reference ← artifact_at base (jget "artifact" data);
      Ret (reference, capabilities)
  | _ => candidate_error "the keys of a fixture"
  end.
(** [fixtures.get("fixtures") or []]: iterating over anything but a list is not modelled further than its error. *)
Definition entries_of (v : option json) : outcome (list json) :=
  match v with
  | Some (JList l) => Ret l
  | Some v => if Observer.py_true v then match v with JObj f => Ret ((fun kv => JStr (fst kv)) <$> f) | JStr s => Ret [JStr s] | _ => Raise (TypeError "not iterable") end else Ret []
  | None => Ret []
  end.
Definition check_assets (model_files : Tree) (models : list RegisteredModelSpec) : outcome unit :=
  check_each models (fun m => check_each (v2_assets m) (fun a =>
    expect (is_file_of (model_files (asset_path a)) (asset_size_bytes a) (asset_sha256 a)) "the asset differs from the registration")).
Definition measured_model (models : list RegisteredModelSpec) (named : json) : outcome RegisteredModelSpec :=
  match List.filter v2_measured models with
  | [m] => _ ← expect (py_eq named JNull || equals (Some named) (JStr (v2_model_id m))) "the measurement measured another model"; Ret m
  | _ => candidate_error "a candidate needs per-model measurement material"
  end.
Definition reference_le (a b : ArtifactRef) : bool := match String.compare (ar_relative_path a) (ar_relative_path b) with Gt => false | _ => true end.

Record Built := { bu_body : json; bu_candidate_sha256 : string; bu_config_sha256 : string; bu_source_sha256 : string; bu_collector_sha256 : string }.
Definition build_candidate (deployment_id : string) (yaml : outcome json) (facts : Entry) (measurements : Listing) (policy fixtures : Entry) (base : Tree)
    (source : Archive) (model_files : Tree) : outcome Built :=
  _ ← expect (DEPLOYMENT_RE deployment_id) "--deployment-id";
  raw ← or_unloadable yaml;
  loaded ← or_unloadable (load_config yaml);
  match loaded, raw with
  | LoadedV2 config, JObj raw_config =>
      config_sha ← config_digest raw_config;
      facts ← read_object facts;
      device ← or_candidate (parse_device_fact (jget "device" facts));
      stack ← or_candidate (parse_runtime_stack (jget "runtime_stack" facts));
      let source_sha := sha256_hex (archive_bytes source) in
      collector_sha ← member_sha256 source COLLECTOR_MEMBER;
      let models := values (v2c_models config) in
      _ ← expect (existsb v2_measured models) "no model declares measured=true";
      summary ← measurement_summary measurements;
      model ← measured_model models (su_model_id summary);
      measurement_refs ← material measurements;
      manifest ← artifact_manifest_digest measurement_refs;
      _ ← expect (bool_decide (v2_measurement_ref model = Some manifest)) "measurement_ref does not match the supplied material";
      _ ← expect (bool_decide (v2_physical_resident_peak_bytes model = Some (su_peak summary))) "physical_resident_peak_bytes does not match the measured bound";
      _ ← check_assets model_files models;
      fixtures ← read_object fixtures;
      _ ← expect (same_keys fixtures FIXTURE_KEYS) "the keys of the fixtures file";
      _ ← expect (bool_decide (is_Some (mapping_of_json (jget "evaluator" fixtures)))) "the evaluator material is required";
      evaluator ← artifact_at base (jget "evaluator" fixtures);
      entries ← entries_of (jget "fixtures" fixtures);
      parsed ← mapM (fixture_entry base) entries;
      let covered := mjoin (snd <$> parsed) in
      _ ← expect (negb (bool_decide (length parsed = 0%nat))) "at least one fixture is required";
      _ ← check_each models (fun m => expect (forallb (fun c => bool_decide (c ∈ covered)) (v2_capabilities m)) "no fixture covers a capability");
      policy_data ← read_object policy;
      policy ← or_candidate (parse_policy (Some (JObj policy_data)));
      let body := candidate_json
        {| ca_schema_version := EVIDENCE_SCHEMA_VERSION; ca_deployment_id := deployment_id; ca_source_archive_sha256 := source_sha;
           ca_config_sha256 := config_sha; ca_device := device; ca_runtime_stack := stack; ca_runtimes := values (v2c_runtimes config);
           ca_models := models; ca_measurement_refs := measurement_refs; ca_fixture_refs := sort_by reference_le (fst <$> parsed); ca_policy := policy;
           ca_collector_sha256 := collector_sha; ca_evaluator_sha256 := ar_sha256 evaluator |} in
      candidate ← or_candidate (parse_candidate body);
      digest ← candidate_digest candidate;
      Ret {| bu_body := body; bu_candidate_sha256 := digest; bu_config_sha256 := config_sha; bu_source_sha256 := source_sha; bu_collector_sha256 := collector_sha |}
  | _, _ => candidate_error "the candidate requires a schema v2 configuration"
  end.
End Build.

(** ** A printed candidate reads back as itself *)
Lemma text_back s t : text_value (Some (JStr s)) = Ret t → t = s.
Proof. unfold text_value, check_utf8_text, err. intros. repeat case_match; by simplify_eq. Qed.
Lemma sha256_back data key s t : jget key data = Some (JStr s) → sha256_field data key = Ret t → t = s.
Proof. unfold sha256_field, text_field. intros ->. intros. inv_parse. by apply text_back. Qed.
Lemma id_back data key s t : jget key data = Some (JStr s) → id_field data key = Ret t → t = s.
Proof. unfold id_field, text_field. intros ->. intros. inv_parse. by apply text_back. Qed.
Lemma text_field_back data key s t : jget key data = Some (JStr s) → text_field data key = Ret t → t = s.
Proof. unfold text_field. intros ->. apply text_back. Qed.
Lemma int_field_back data key minimum n m : jget key data = Some (JInt n) → int_field data key minimum = Ret m → m = n.
Proof. unfold int_field, err. intros ->. intros. repeat case_match; by simplify_eq. Qed.
Lemma number_back data key minimum maximum q p : jget key data = Some (JFloat (Some q)) → number_field data key minimum maximum = Ret p → p = q.
Proof. unfold number_field. intros ->. intros. inv_parse. by injection H. Qed.
Lemma list_back data key l k : jget key data = Some (JList l) → get_list data key = Ret k → k = l.
Proof. unfold get_list. intros ->. by intros [= <-]. Qed.
(** Every field read from a printed object is the one printed. *)
Ltac read_back :=
  repeat match goal with
  | K : as_mapping (Some (JObj _)) = Ret _ |- _ => injection K as <-
  | K : sha256_field _ _ = Ret _ |- _ => eapply sha256_back in K; [|reflexivity]
  | K : id_field _ _ = Ret _ |- _ => eapply id_back in K; [|reflexivity]
  | K : text_field _ _ = Ret _ |- _ => eapply text_field_back in K; [|reflexivity]
  | K : int_field _ _ _ = Ret _ |- _ => eapply int_field_back in K; [|reflexivity]
  | K : number_field _ _ _ _ = Ret _ |- _ => eapply number_back in K; [|reflexivity]
  | K : get_list _ _ = Ret _ |- _ => eapply list_back in K; [|reflexivity]
  end.
Lemma mapM_back {A B} (f : B → outcome A) (g : A → B) l k : (∀ x y, x ∈ l → f (g x) = Ret y → y = x) → mapM f (map g l) = Ret k → k = l.
Proof.
  revert k. induction l as [|x l IH]; intros k Hf; [by intros [= <-]|]. cbn [map mapM]. intros (y & Hy & (ys & Hys & [= <-])%obind_ret)%obind_ret.
  f_equal; [apply Hf; [left|done]|]. apply IH; [|done]. intros z w Hz. apply Hf. by right.
Qed.
Lemma path_back s t : evidence_path (Some (JStr s)) = Ret t → t = s.
Proof.
  unfold evidence_path. intros (x & ->%text_back & K)%obind_ret. revert K.
  unfold safe_relative_path, err. intros. repeat case_match; by simplify_eq.
Qed.
Lemma artifact_back a b : parse_artifact_ref (artifact_json a) = Ret b → b = a.
Proof.
  unfold parse_artifact_ref, artifact_json, make_artifact. intros. inv_parse. read_back. rename select (evidence_path (jget _ _) = _) into K.
  apply path_back in K. destruct a. cbn in *. by subst.
Qed.
Lemma device_back d d' : parse_device_fact (Some (device_json d)) = Ret d' → d' = d.
Proof. unfold parse_device_fact, device_json. intros. inv_parse. read_back. destruct d. cbn in *. by subst. Qed.
Lemma stack_back d d' : parse_runtime_stack (Some (stack_json d)) = Ret d' → d' = d.
Proof. unfold parse_runtime_stack, stack_json. intros. inv_parse. read_back. destruct d. cbn in *. by subst. Qed.
Lemma performance_back p p' : parse_performance_policy (performance_json p) = Ret p' → p' = p.
Proof. unfold parse_performance_policy, performance_json, float_json. intros. inv_parse. read_back. destruct p. cbn in *. by subst. Qed.
Lemma operational_back p p' : parse_operational_policy (Some (operational_json p)) = Ret p' → p' = p.
Proof. unfold parse_operational_policy, operational_json, float_json. intros. inv_parse. read_back. destruct p. cbn in *. by subst. Qed.
Lemma policy_back p p' : parse_policy (Some (policy_json p)) = Ret p' → p' = p.
Proof.
  unfold parse_policy, policy_json. intros. inv_parse. read_back. subst. rename select (mapM _ _ = Ret _) into K1. apply mapM_back in K1; [|intros; by apply performance_back].
  rename select (parse_operational_policy _ = Ret _) into K2. apply operational_back in K2. destruct p. cbn in *. by subst.
Qed.
Lemma artifacts_back l k : parse_artifact_list (Some (JList (map artifact_json l))) = Ret k → k = l.
Proof. unfold parse_artifact_list. intros. inv_parse. rename select (mapM _ _ = Ret _) into K. apply mapM_back in K; [done|]. intros. by apply artifact_back. Qed.
Lemma parse_candidate_back c c' : Forall runtime_ok (ca_runtimes c) → Forall model_ok (ca_models c) → parse_candidate (candidate_json c) = Ret c' → c' = c.
Proof.
  intros Hr Hm E. unfold parse_candidate, candidate_json in E. inv_parse. read_back. subst.
  rename select (mapM parse_runtime_spec _ = Ret _) into K1. apply mapM_back in K1; [|intros x y Hx Hy; rewrite parse_runtime_spec_complete in Hy; [by injection Hy|by eapply Forall_forall]].
  rename select (mapM parse_model_spec _ = Ret _) into K2. apply mapM_back in K2; [|intros x y Hx Hy; rewrite parse_model_spec_complete in Hy; [by injection Hy|by eapply Forall_forall]].
  rename select (parse_policy _ = Ret _) into K3. apply policy_back in K3.
  rename select (parse_device_fact _ = Ret _) into K4. apply device_back in K4.
  rename select (parse_runtime_stack _ = Ret _) into K5. apply stack_back in K5.
  repeat match goal with K : parse_artifact_list _ = Ret _ |- _ => apply artifacts_back in K end.
  destruct c. cbn in *. by subst.
Qed.

(** ** What is frozen *)
Lemma expect_ret b msg x : expect b msg = Ret x → b = true.
Proof. by destruct b. Qed.
Lemma or_candidate_ret {A} (m : outcome A) x : or_candidate m = Ret x → m = Ret x.
Proof. destruct m as [y|[]]; try done. Qed.
Lemma or_unloadable_ret {A} (m : outcome A) x : or_unloadable m = Ret x → m = Ret x.
Proof. destruct m as [y|[]]; try done. Qed.
Lemma dict_from_entries {V} (l d : list (string * V)) : NoDup (d.*1 ++ l.*1) → entries (foldl (fun d kv => <[kv.1 := kv.2]> d) (Dict d) l) = d ++ l.
Proof.
  revert d. induction l as [|[k v] l IH]; intros d Hnd; [by rewrite app_nil_r|]. cbn [foldl fst snd].
  change (<[k := v]> (Dict d)) with (Dict (assoc_set k v d)). cbn in Hnd. assert (k ∉ d.*1) as Hk.
  { intros Hk. apply NoDup_app in Hnd as (_ & Hd & _). by apply (Hd k Hk); left. }
  assert (assoc_set k v d = d ++ [(k, v)]) as ->.
  { clear -Hk. induction d as [|[k' v'] d IH]; [done|]. cbn in *. apply not_elem_of_cons in Hk as [Hne Hk]. rewrite decide_False by done. by rewrite IH. }
  rewrite IH; [by rewrite <-app_assoc|]. rewrite fmap_app, <-app_assoc. done.
Qed.
Lemma dict_from_values {V} (id : V → string) (l : list V) : NoDup (id <$> l) → values (dict_from ((fun x => (id x, x)) <$> l)) = l.
Proof.
  intros Hnd. unfold values, dict_from. change ∅ with (Dict (@nil (string * V))). rewrite dict_from_entries.
  - cbn. rewrite <-list_fmap_compose. apply list_fmap_id.
  - cbn. by rewrite <-list_fmap_compose.
Qed.

Lemma deployment_specs_ok d : deployment_ok d →
  (Forall runtime_ok (dep_runtimes d) ∧ NoDup (rt_runtime_id <$> dep_runtimes d)) ∧ (Forall model_ok (dep_models d) ∧ NoDup (v2_model_id <$> dep_models d)).
Proof.
  intros [(_ & Hr & Hn) (_ & Hm) Hn' _ _]. done.
Qed.

Section Frozen.
Context `{FloatText} `{Digest} `{UrlSplit}.

Lemma elem_of_insert_by {A} (le : A → A → bool) x y l : x ∈ insert_by le y l ↔ x = y ∨ x ∈ l.
Proof. induction l as [|z l IH]; cbn; [set_solver|]. destruct (le y z); set_solver. Qed.
Lemma elem_of_sort_by {A} (le : A → A → bool) x l : x ∈ sort_by le l ↔ x ∈ l.
Proof. induction l as [|z l IH]; cbn; [done|]. rewrite elem_of_insert_by. set_solver. Qed.
Lemma assets_checked files models m a : check_assets files models = Ret tt → m ∈ models → a ∈ v2_assets m →
  is_file_of (files (asset_path a)) (asset_size_bytes a) (asset_sha256 a) = true.
Proof. intros K Hm Ha. pose proof (proj1 (check_each_ret _ _) K m Hm) as K'. by pose proof (proj1 (check_each_ret _ _) K' a Ha) as ?%expect_ret. Qed.
Lemma measured_single models named m : measured_model models named = Ret m → List.filter v2_measured models = [m].
Proof. unfold measured_model. destruct (List.filter v2_measured models) as [|x [|]]; try done. by intros (u & _ & [= <-])%obind_ret. Qed.
Lemma artifact_checked base v x : artifact_at base v = Ret x → is_file_of (base (ar_relative_path x)) (ar_size_bytes x) (ar_sha256 x) = true.
Proof. by intros (y & _ & (u & K%expect_ret & [= <-])%obind_ret)%obind_ret. Qed.
Lemma fixture_checked base entry x : fixture_entry base entry = Ret x → is_file_of (base (ar_relative_path (fst x))) (ar_size_bytes (fst x)) (ar_sha256 (fst x)) = true.
Proof.
  destruct entry as [| | | | | |data]; try done. cbn [fixture_entry]. intros (u & _ & (caps & _ & (y & K%artifact_checked & [= <-])%obind_ret)%obind_ret)%obind_ret. done.
Qed.
Lemma fixtures_checked base items parsed : mapM (fixture_entry base) items = Ret parsed →
  (∀ x, x ∈ parsed → ∃ entry, entry ∈ items ∧ fixture_entry base entry = Ret x ∧ is_file_of (base (ar_relative_path (fst x))) (ar_size_bytes (fst x)) (ar_sha256 (fst x)) = true)
  ∧ ∀ entry, entry ∈ items → ∃ x, x ∈ parsed ∧ fixture_entry base entry = Ret x.
Proof.
  intros K. split.
  - intros x Hx. destruct (mapM_elem _ _ _ _ K Hx) as (entry & He & Ex). exists entry. split_and!; [done..|by eapply fixture_checked].
  - intros entry (i & Hi)%list_elem_of_lookup. apply mapM_ret in K. destruct (Forall2_lookup_l _ _ _ _ _ K Hi) as (x & Hx & Ex). exists x. split; [by eapply list_elem_of_lookup_2|done].
Qed.
(** A loaded configuration registers what its deployment holds. *)
Lemma loaded_registers yaml config : load_config yaml = Ret (LoadedV2 config) →
  ∃ raw, yaml = Ret (JObj raw) ∧ Forall runtime_ok (values (v2c_runtimes config)) ∧ Forall model_ok (values (v2c_models config)).
Proof.
  unfold load_config. intros (raw & -> & E)%obind_ret. destruct raw as [| | | | | |fields]; try done. exists fields. split; [done|].
  cbv zeta in E. repeat case_match; try done; inv_config; try done. simplify_eq.
  rename select (parse_v2_config _ = Ret _) into K. unfold parse_v2_config in K. inv_config.
  rename select (list (string * json) * list (string * json) * Q)%type into head. destruct head as [[heat thrash] margin]. inv_config.
  rename select (registration_of _ = Ret _) into Kr. apply registration_ret in Kr as (registration & _ & (Hr & Hm)%parse_deployment_ok%deployment_specs_ok).
  cbn [v2c_runtimes v2c_models]. destruct Hr as [Hr Hn], Hm as [Hm Hn']. by rewrite !dict_from_values.
Qed.

(** C22: A candidate freezes its configuration and the material it was measured
    with.  When [build_candidate] returns, the configuration is a v2 one and the
    candidate it writes reads back as itself, with the digest reported: it registers
    exactly the runtimes and the models of the configuration, carries the
    configuration's digest (which writing the candidate's digest back into the
    configuration does not change), the device and stack of the facts, the policy of
    the policy file and the hashes of the source archive, of the collector inside it
    and of the evaluator; every asset of every model is the file that was hashed;
    exactly one model is measured, its reference is the digest of the measurement
    files and its peak the proven bound; the fixtures of the candidate are exactly
    those of the fixtures file, at least one, each a hashed file; and every
    capability of every model is named by an entry of the fixtures file. *)
Theorem candidate_frozen deployment_id yaml facts measurements policy fixtures base source model_files b :
  build_candidate deployment_id yaml facts measurements policy fixtures base source model_files = Ret b →
  ∃ config raw c, yaml = Ret (JObj raw) ∧ load_config yaml = Ret (LoadedV2 config)
    ∧ bu_body b = candidate_json c ∧ parse_candidate (bu_body b) = Ret c ∧ candidate_digest c = Ret (bu_candidate_sha256 b)
    ∧ ca_deployment_id c = deployment_id ∧ ca_runtimes c = values (v2c_runtimes config) ∧ ca_models c = values (v2c_models config)
    ∧ (∀ h, config_digest (assoc_set "candidate_sha256" h raw) = Ret (ca_config_sha256 c))
    ∧ (∃ f, read_object facts = Ret f ∧ parse_device_fact (jget "device" f) = Ret (ca_device c) ∧ parse_runtime_stack (jget "runtime_stack" f) = Ret (ca_runtime_stack c))
    ∧ (∀ m a, m ∈ ca_models c → a ∈ v2_assets m → is_file_of (model_files (asset_path a)) (asset_size_bytes a) (asset_sha256 a) = true)
    ∧ (∃ m s manifest, List.filter v2_measured (ca_models c) = [m] ∧ measurement_summary measurements = Ret s ∧ v2_physical_resident_peak_bytes m = Some (su_peak s)
        ∧ material measurements = Ret (ca_measurement_refs c) ∧ artifact_manifest_digest (ca_measurement_refs c) = Ret manifest ∧ v2_measurement_ref m = Some manifest)
    ∧ (∃ p, read_object policy = Ret p ∧ parse_policy (Some (JObj p)) = Ret (ca_policy c))
    ∧ ca_source_archive_sha256 c = sha256_hex (archive_bytes source) ∧ member_sha256 source COLLECTOR_MEMBER = Ret (ca_collector_sha256 c)
    ∧ ∃ fx entries, read_object fixtures = Ret fx ∧ entries_of (jget "fixtures" fx) = Ret entries ∧ entries ≠ []
        ∧ (∃ evaluator, artifact_at base (jget "evaluator" fx) = Ret evaluator ∧ ca_evaluator_sha256 c = ar_sha256 evaluator
             ∧ is_file_of (base (ar_relative_path evaluator)) (ar_size_bytes evaluator) (ar_sha256 evaluator) = true)
        ∧ (∀ x, x ∈ ca_fixture_refs c ↔ ∃ entry caps, entry ∈ entries ∧ fixture_entry base entry = Ret (x, caps))
        ∧ (∀ x, x ∈ ca_fixture_refs c → is_file_of (base (ar_relative_path x)) (ar_size_bytes x) (ar_sha256 x) = true)
        ∧ ∀ m capability, m ∈ ca_models c → capability ∈ v2_capabilities m →
            ∃ entry x caps, entry ∈ entries ∧ fixture_entry base entry = Ret (x, caps) ∧ capability ∈ caps.
Proof.
  unfold build_candidate. intros E. apply obind_ret in E as (u0 & _ & E). apply obind_ret in E as (raw & Hraw%or_unloadable_ret & E).
  apply obind_ret in E as (loaded & Hl%or_unloadable_ret & E). destruct loaded as [?|config]; [done|]. destruct raw as [| | | | | |raw]; try done.
  apply obind_ret in E as (config_sha & Hcs & E). apply obind_ret in E as (f & Hf & E).
  apply obind_ret in E as (device & Hdev%or_candidate_ret & E). apply obind_ret in E as (stack & Hst%or_candidate_ret & E). cbv zeta in E.
  apply obind_ret in E as (collector & Hcol & E). apply obind_ret in E as (u1 & _ & E). apply obind_ret in E as (summary & Hsum & E).
  apply obind_ret in E as (model & Hmodel & E). apply obind_ret in E as (refs & Hrefs & E). apply obind_ret in E as (manifest & Hman & E).
  apply obind_ret in E as (u2 & Href%expect_ret%bool_decide_eq_true & E). apply obind_ret in E as (u3 & Hpeak%expect_ret%bool_decide_eq_true & E).
  apply obind_ret in E as ([] & Hassets & E). apply obind_ret in E as (fx & Hfx & E). apply obind_ret in E as (u4 & _ & E). apply obind_ret in E as (u5 & _ & E).
  apply obind_ret in E as (evaluator & Hev & E). apply obind_ret in E as (items & Hitems & E). apply obind_ret in E as (parsed & Hparsed & E).
  apply obind_ret in E as (u6 & Hne%expect_ret & E). apply obind_ret in E as ([] & Hcov & E). apply obind_ret in E as (pd & Hpd & E).
  apply obind_ret in E as (pol & Hpol%or_candidate_ret & E).
  apply obind_ret in E as (c & Hc%or_candidate_ret & E). apply obind_ret in E as (digest & Hd & [= <-]). cbn [bu_body bu_candidate_sha256].
  destruct (loaded_registers _ _ Hl) as (raw' & Hraw' & Hr & Hm). pose proof Hc as Hc'. apply parse_candidate_back in Hc'; [|exact Hr|exact Hm]. subst c.
  exists config, raw. eexists. split; [exact Hraw|]. split; [exact Hl|]. split; [reflexivity|]. split; [exact Hc|]. split; [exact Hd|].
  cbn [ca_deployment_id ca_runtimes ca_models ca_config_sha256 ca_device ca_runtime_stack ca_measurement_refs ca_fixture_refs
       ca_policy ca_source_archive_sha256 ca_collector_sha256 ca_evaluator_sha256].
  destruct (fixtures_checked _ _ _ Hparsed) as [Hto Hfrom].
  split_and!; try reflexivity.
  - intros h. rewrite <-Hcs. unfold config_digest. by rewrite digest_body_set by (by left).
  - by exists f.
  - intros m a. by apply assets_checked.
  - exists model, summary, manifest. split_and!; [by eapply measured_single|done..].
  - by exists pd.
  - done.
  - exists fx, items. split; [done|]. split; [done|]. split_and!.
    + intros ->. injection Hparsed as <-. by rewrite bool_decide_eq_true_2 in Hne.
    + exists evaluator. split_and!; [done..|by eapply artifact_checked].
    + intros x. rewrite elem_of_sort_by, list_elem_of_fmap. split.
      * intros ([y caps] & -> & Hy). destruct (Hto _ Hy) as (entry & He & Ex & _). by exists entry, caps.
      * intros (entry & caps & He & Ex). destruct (Hfrom entry He) as (y & Hy & Ey). exists y. split; [|done]. rewrite Ex in Ey. by injection Ey as <-.
    + intros x Hx. apply elem_of_sort_by, list_elem_of_fmap in Hx as (y & -> & Hy). by destruct (Hto y Hy) as (entry & _ & _ & ?).
    + intros m capability Hm' Hcap. pose proof (proj1 (check_each_ret _ _) Hcov m Hm') as K%expect_ret. rewrite forallb_In' in K. apply K, bool_decide_eq_true in Hcap.
      apply list_elem_of_join in Hcap as (caps & Hcap & ([x caps'] & -> & Hx)%list_elem_of_fmap). destruct (Hto _ Hx) as (entry & He & Ex & _). by exists entry, x, caps'.
Qed.
End Frozen.

(** ** Only one model can be deployed *)
Lemma launched_measured registration id deployment directory digest gpu budget l :
  render_container_launch registration id deployment directory digest "production" gpu budget = Ret l →
  ∃ m, m ∈ dep_models registration ∧ v2_model_id m = id ∧ v2_measured m = true.
Proof.
  unfold render_container_launch, check_deployment_id, check_config_sha256, check_model_directory, check_container_runtime, lookup_model, require_production_openable. intros Hl.
  change (String.eqb "production" PRODUCTION) with true in Hl. cbn iota in Hl.
  inv_launch. rename select (lookup_last v2_model_id _ _ = Some _) into Hm. apply lookup_last_some in Hm as [Hm Hid]. exists x6. split_and!; [done..|].
  rename select (launch_error_of (_ ≫= _) = Ret _) into K. unfold launch_error_of in K. destruct (require_startable_profile x7); [|by repeat case_match].
  cbn [mbind outcome_bind] in K. by destruct (v2_measured x6).
Qed.
Lemma rendered_measured c directory gpu budget models rest : render_models c directory "production" gpu budget models = Ret rest →
  ∀ m, m ∈ models → ∃ m', m' ∈ ca_models c ∧ v2_model_id m' = v2_model_id m ∧ v2_measured m' = true.
Proof.
  revert rest. induction models as [|x models IH]; intros rest; cbn [render_models]; [by intros _ m ?%not_elem_of_nil|].
  intros (l & Hl%launched_measured & (r & Hr & _)%obind_ret)%obind_ret m [->|Hm]%elem_of_cons; [done|by eapply IH].
Qed.
(** [build_candidate] refuses a configuration with two measured models, and a
    production rendering one with an unmeasured model: so whatever is built and
    rendered for production has one model. *)
Lemma production_single_model py_str `{FloatText} `{Digest} `{IsoTime} file c m tree occupied directory gpu budget now r :
  read_candidate file = Ret c → List.filter v2_measured (ca_models c) = [m] →
  render_v3 py_str file tree occupied "production" directory gpu budget now = Ret r → ca_models c = [m].
Proof.
  intros Hc Hf E. unfold render_v3 in E. rewrite Hc in E. apply obind_ret in E as (u0 & _ & E). apply obind_ret in E as (c0 & [= <-] & E).
  apply obind_ret in E as (u1 & _ & E). apply obind_ret in E as (ev & _ & E). apply obind_ret in E as (models & Hm & _).
  destruct (read_candidate_parses _ _ Hc) as (v & Hv). assert (NoDup (v2_model_id <$> ca_models c)) as Hnd.
  { unfold parse_candidate in Hv. inv_parse. unfold unique in *. inv_parse. done. }
  assert (∀ x, x ∈ ca_models c → v2_measured x = true) as Hall.
  { intros x Hx. destruct (rendered_measured _ _ _ _ _ _ Hm x Hx) as (y & Hy & Hid & <-). f_equal.
    pose proof (lookup_last_unique v2_model_id _ _ Hnd Hx) as K1. pose proof (lookup_last_unique v2_model_id _ _ Hnd Hy) as K2. congruence. }
  rewrite <-Hf. symmetry. clear -Hall. induction (ca_models c) as [|x l IH]; [done|]. cbn. rewrite (Hall x) by left. f_equal. apply IH. intros y Hy. apply Hall. by right.
Qed.

(** ** A build *)
#[local] Existing Instance thousandths_floats.
#[local] Instance registered_digest : Digest := {| sha256_hex := fun _ => RegistrationProps.demo_sha; sha256_hex_length := fun _ => eq_refl |}.
Definition zeros (n : nat) : string := concat_text (repeat "0" n).
#[local] Instance no_urls : UrlSplit := {| urlsplit := fun _ => Raise (ValueError "no url") |}.
Definition shown (v : json) : Entry := RegularFile (text_json v).
Definition shown_facts : Entry := shown (JObj [("device", device_json demo_device); ("runtime_stack", stack_json (ca_runtime_stack demo_candidate))]).
Definition shown_measurements : Listing :=
  [("measurements.json", text_json (JObj [("summary", JObj [("verdict", JStr "passed"); ("physical_bound_proven", JBool true); ("physical_resident_peak_bytes", JInt 1001)])]));
   ("samples/a.csv", "1")].
Definition zero_ref (path : string) : json := artifact_json {| ar_relative_path := path; ar_size_bytes := 3; ar_sha256 := RegistrationProps.demo_sha |}.
Definition shown_fixtures : Entry :=
  shown (JObj [("schema_version", JInt 1); ("evaluator", zero_ref "evaluator.py");
               ("fixtures", JList [JObj [("fixture_id", JStr "f"); ("capabilities", JList [JStr "chat"; JStr "vision"]); ("artifact", zero_ref "f.json")]])]).
Definition shown_source : Archive := {| archive_bytes := "tar"; archive_member := fun _ => Ret (Some "collector") |}.
Definition shown_assets : Tree := fun path => RegularFile (zeros (if String.eqb path "chat/8b.gguf" then 900 else if String.eqb path "vision/4b.gguf" then 500 else 70)).
Local Notation demo_build := (build_candidate "lab" (Ret (JObj demo_config)) shown_facts shown_measurements (shown (policy_json demo_policy)) shown_fixtures
  (fun _ => RegularFile "abc") shown_source shown_assets).
(** The build covers chat and vision; with the same fixture covering chat alone it
    is refused. *)
Lemma candidate_frozen_witness : ∃ b c fx entries, demo_build = Ret b ∧ parse_candidate (bu_body b) = Ret c ∧ length (ca_models c) = 2%nat
  ∧ length (ca_measurement_refs c) = 2%nat ∧ read_object shown_fixtures = Ret fx ∧ entries_of (jget "fixtures" fx) = Ret entries ∧ length entries = 1%nat.
Proof.
  assert (∃ b, demo_build = Ret b) as [b E] by (eexists; vm_compute; reflexivity).
  destruct (candidate_frozen _ _ _ _ _ _ _ _ _ _ E)
    as (config & raw & c & _ & Hl & Hb & Hc & _ & _ & _ & Hm & _ & _ & _ & (m & s & h & _ & _ & _ & Hmat & _) & _ & _ & _ & fx & entries & Hfx & Hen & _).
  exists b, c, fx, entries. split; [exact E|]. split; [exact Hc|]. split; [|split; [|split; [exact Hfx|split; [exact Hen|]]]].
  - rewrite Hm. vm_compute in Hl. injection Hl as <-. reflexivity.
  - assert (length <$> material shown_measurements = Ret 2%nat) as K by (vm_compute; reflexivity). rewrite Hmat in K. by injection K.
  - assert ((length <$> (read_object shown_fixtures ≫= fun f => entries_of (jget "fixtures" f))) = Ret 1%nat) as K by (vm_compute; reflexivity).
    rewrite Hfx in K. cbn [mbind outcome_bind] in K. rewrite Hen in K. by injection K.
Defined.
Definition shown_partial_fixtures : Entry :=
  shown (JObj [("schema_version", JInt 1); ("evaluator", zero_ref "evaluator.py");
               ("fixtures", JList [JObj [("fixture_id", JStr "f"); ("capabilities", JList [JStr "chat"]); ("artifact", zero_ref "f.json")]])]).
Example uncovered_refused : build_candidate "lab" (Ret (JObj demo_config)) shown_facts shown_measurements (shown (policy_json demo_policy)) shown_partial_fixtures
  (fun _ => RegularFile "abc") shown_source shown_assets = candidate_error "no fixture covers a capability".
Proof. vm_compute. reflexivity. Qed.
