(* ===== verification/Backend.v ===== *)
(** * Running the backend cases

    [acceptance/fixtures.py]: the requests that reach the boundary of an envelope;
    and [acceptance/backend_cases.py]: the executor that drives the cases of one
    model through the driver and records every attempt, with the document
    [CaseMaterialStore.end_case] of [acceptance/materials.py] leaves of one.  What
    the driver and the store answer may depend on everything called before.
    [zlib] is an interface.  The clock readings of an attempt decide nothing and
    are left out; a problem is the check it stands for, as in [Evaluator]. *)

From S2P Require Import Prelude Text Dict Contracts Registration RegistrationProps JsonText Identity IdentityProps Envelopes Observer Lifecycle Api App Evidence Evaluator.
From Stdlib Require Import Ascii QArith Qround Lqa.
Local Open Scope Z_scope.

(** ** Fixtures *)
Definition CAPABILITY_FIXTURES : list string := ["chat"; "vision"; "embeddings"; "rerank"].
Definition MAX_EMBEDDING_BATCH : nat := 256.
Definition MAX_RERANK_DOCUMENTS : nat := 256.
Definition FILLER_SEED : Z := 1234.
Definition FORBIDDEN_FIXTURE_KINDS : list string := ["audio"; "video"; "transcription"; "voiceprint"; "face"].
Definition fixture_error {A} (msg : string) : outcome A := Raise (FixtureError msg).
Definition needs (ok : bool) (msg : string) : outcome unit := if ok then Ret tt else fixture_error msg.

Record Fixture := {
  fx_capability : string; fx_id : string; fx_payload : list (string * json); fx_boundary : list (string * Z); fx_artifact_name : string;
  fx_charged_input_tokens : option Z;
}.
(** [tokens_per_unit] is [None] for a float that is not finite. *)
Record FillerSpec := {
  fl_unit : string; fl_tokens_per_unit : option Q; fl_template_overhead : Z; fl_vision_overhead : Z; fl_instruction : string; fl_instruction_tokens : Z;
}.
Definition filler_text (tokens : Z) (filler : FillerSpec) : outcome string :=
  _ ← needs (0 <=? tokens) "the filler token count must be a non-negative integer";
  ratio ← match fl_tokens_per_unit filler with
          | Some q => if Qle_bool q 0 then fixture_error "tokens-per-unit ratio" else Ret q
          | None => fixture_error "tokens-per-unit ratio"
          end;
  _ ← needs (0 <=? fl_template_overhead filler) "template overhead";
  _ ← needs (negb (String.eqb (fl_unit filler) "" || existsb is_space (codepoints (fl_unit filler)))) "the filler unit must be a single non-blank word";
  let units := if tokens =? 0 then 0 else Qceiling (inject_Z tokens / ratio) in
  Ret (join " " (repeat (fl_unit filler) (Z.to_nat units))).
(** [_sized_text] *)
Definition sized_text (budget overhead : Z) (filler : FillerSpec) : outcome string :=
  _ ← needs (negb ((fl_instruction_tokens filler <=? 0) || bool_decide (strip (codepoints (fl_instruction filler)) = []))) "a boundary round must end with a real instruction";
  let usable := budget - overhead - fl_instruction_tokens filler in
  _ ← needs (0 <? usable) "the declared budget cannot carry the template and the instruction";
  text ← filler_text usable filler;
  Ret (text +:+ " " +:+ fl_instruction filler).

(** *** The test image *)
Class Zlib := { crc32 : bytes → Z; compress : bytes → bytes }.
(** [struct.pack(">I", n)] *)
Definition pack_u32 (n : Z) : outcome bytes :=
  if (0 <=? n) && (n <? 2 ^ 32) then Ret [n / 2 ^ 24; n / 2 ^ 16 mod 256; n / 2 ^ 8 mod 256; n mod 256] else Raise (ValueError "struct.error").
Definition IDAT : bytes := [73; 68; 65; 84].
Definition IEND : bytes := [73; 69; 78; 68].
Definition png_chunk `{Zlib} (kind payload : bytes) : outcome bytes :=
  size ← pack_u32 (Z.of_nat (length payload)); check ← pack_u32 (crc32 (kind ++ payload)); Ret (size ++ kind ++ payload ++ check).
Definition png_rows (width height seed : Z) : bytes :=
  mjoin (map (fun y => 0 :: mjoin (map (fun x => [(x * 7 + seed) mod 256; (y * 13 + seed) mod 256; (x + y + seed) mod 256]) (seqZ 0 width))) (seqZ 0 height)).
Definition render_test_png `{Zlib} (width height : Z) : outcome bytes :=
  _ ← needs ((0 <? width) && (0 <? height)) "image dimensions must be positive";
  w ← pack_u32 width; h ← pack_u32 height;
  header ← png_chunk IHDR (w ++ h ++ [8; 2; 0; 0; 0]);
  data ← png_chunk IDAT (compress (png_rows width height FILLER_SEED));
  trailer ← png_chunk IEND [];
  Ret (PNG_MAGIC ++ header ++ data ++ trailer).
Definition image_data_url `{Zlib} (width height : Z) : outcome string :=
  png ← render_test_png width height; Ret ("data:image/png;base64," +:+ b64_text png).

(** *** One fixture per capability *)
Definition image_part (url : string) : json := JObj [("type", JStr "image_url"); ("image_url", JObj [("url", JStr url)])].
Definition text_part (text : string) : json := JObj [("type", JStr "text"); ("text", JStr text)].
Definition user_message (content : json) : json := JObj [("role", JStr "user"); ("content", content)].
Definition chat_body (content : json) (e : Envelope) : list (string * json) :=
  [("messages", JList [user_message content]); ("max_tokens", JInt (max_output_tokens e)); ("n_parallel", JInt (max_parallel e)); ("ignore_eos", JBool true)].
(** [f"doc {index:04d}"] *)
Definition doc_text (index : nat) : string := let n := int_text (Z.of_nat index) in "doc " +:+ concat_text (repeat "0" (4 - String.length n)) +:+ n.
Definition docs (n : nat) : json := JList (map (fun i => JStr (doc_text i)) (seq 0 n)).

Section Fixtures.
Context `{Zlib} (model_id : string) (e : Envelope) (filler : option FillerSpec).
Definition new_fixture (capability : string) (payload : list (string * json)) (boundary : list (string * Z)) (charged : option Z) : Fixture :=
  {| fx_capability := capability; fx_id := model_id +:+ "-" +:+ capability; fx_payload := payload; fx_boundary := boundary;
     fx_artifact_name := model_id +:+ "-" +:+ capability +:+ ".json"; fx_charged_input_tokens := charged |}.
Definition need_filler : outcome FillerSpec := of_option (FixtureError "the fixture needs the measured tokens-per-unit ratio") filler.
Definition chat_fixture (text_tokens : Z) : outcome Fixture :=
  filler ← need_filler;
  text ← sized_text text_tokens (fl_template_overhead filler) filler;
  Ret (new_fixture "chat" (chat_body (JStr text) e)
         [("input_tokens", max_input_tokens e); ("output_tokens", max_output_tokens e); ("parallel", max_parallel e)] None).
(** [text_tokens] is what is left of the text budget, which the loop keeps. *)
Definition vision_fixture (text_tokens : Z) : outcome (Fixture * Z) :=
  filler ← need_filler;
  _ ← needs (negb ((max_images e <=? 0) || (max_image_edge_pixels e <=? 0))) "the vision capability needs a positive image envelope";
  _ ← needs (0 <? max_image_tokens e) "the vision envelope needs a positive max_image_tokens budget";
  let remaining := text_tokens - max_images e * max_image_tokens e in
  url ← image_data_url (max_image_edge_pixels e) (max_image_edge_pixels e);
  text ← sized_text remaining (fl_vision_overhead filler) filler;
  Ret (new_fixture "vision" (chat_body (JList (repeat (image_part url) (Z.to_nat (max_images e)) ++ [text_part text])) e)
         [("input_tokens", remaining); ("output_tokens", max_output_tokens e); ("images", max_images e); ("image_edge_pixels", max_image_edge_pixels e);
          ("parallel", max_parallel e)] (Some (max_input_tokens e)), remaining).
Fixpoint fixtures_loop (text_tokens : Z) (capabilities : list string) : outcome (list Fixture) :=
  match capabilities with
  | [] => Ret []
  | capability :: capabilities =>
      _ ← needs (negb (bool_decide (capability ∈ FORBIDDEN_FIXTURE_KINDS))) "is not an acceptance capability";
      _ ← needs (bool_decide (capability ∈ CAPABILITY_FIXTURES)) "no fixture is defined for the capability";
      '(fixture, remaining) ←
        (if String.eqb capability "chat" then f ← chat_fixture text_tokens; Ret (f, text_tokens)
         else if String.eqb capability "vision" then vision_fixture text_tokens
         else if String.eqb capability "embeddings" then
           Ret (new_fixture capability [("inputs", docs MAX_EMBEDDING_BATCH)] [("batch", Z.of_nat MAX_EMBEDDING_BATCH)] None, text_tokens)
         else Ret (new_fixture capability [("query", JStr "doc query"); ("documents", docs MAX_RERANK_DOCUMENTS)] [("documents", Z.of_nat MAX_RERANK_DOCUMENTS)] None, text_tokens));
      rest ← fixtures_loop remaining capabilities;
      Ret (fixture :: rest)
  end.
Definition fixtures_for (capabilities : list string) : outcome (list Fixture) :=
  fixtures ← fixtures_loop (max_input_tokens e) capabilities;
  _ ← needs (negb (bool_decide (length fixtures = 0%nat))) "no declared capability has a fixture";
  Ret fixtures.
End Fixtures.

(** ** The executor *)
Definition BACKEND_CASE_MIN_COLD_STARTS : nat := 3.
Definition BACKEND_CASE_MIN_RELOAD_ROUNDS : nat := 3.
Definition STATUSES : list string := ["passed"; "failed"; "unknown"; "not_run"].
Definition case_error {A} (msg : string) : outcome A := Raise (RuntimeError msg).
Notation payload := (list (string * json)).

(** The calls of the driver and of the store *)
Inductive BackendCall :=
| LoadModel (model_id : string) (cold : bool) | StartExecution (model_id : string) (request : payload) | ExecuteRequest (model_id : string) (request : payload)
| CancelExecution (model_id execution_id : string) | StopModel (model_id : string) | CleanUp (model_id : string)
| BeginCase (case_id : string) (attempt : nat) | RecordSample (kind : string) (raw : json) | RecordFailure (stage : string) | EndCase (status : string).
Class CaseBench := { reply : list BackendCall → BackendCall → outcome payload }.
(** What one attempt collects: the local variables of [_attempt] that survive an exception *)
Record Bench := { be_calls : list BackendCall; be_facts : payload; be_problems : list string }.
Definition bench := pym Bench.
Definition set_facts (f : payload) : bench unit := modify (fun σ => {| be_calls := be_calls σ; be_facts := f; be_problems := be_problems σ |}).
Definition add_problems (l : list string) : bench unit := modify (fun σ => {| be_calls := be_calls σ; be_facts := be_facts σ; be_problems := be_problems σ ++ l |}).
Definition fresh_attempt : bench unit := modify (fun σ => {| be_calls := be_calls σ; be_facts := []; be_problems := [] |}).
Record CaseExecutor := { ex_has_collector : bool; ex_cold_starts : nat; ex_reload_rounds : nat; ex_filler_of : option (string → option FillerSpec) }.
Definition new_executor (has_collector : bool) (cold_starts reload_rounds : nat) (filler_of : option (string → option FillerSpec)) : outcome CaseExecutor :=
  if (cold_starts <? BACKEND_CASE_MIN_COLD_STARTS)%nat then case_error "the acceptance minimum is three independent cold starts"
  else if (reload_rounds <? BACKEND_CASE_MIN_RELOAD_ROUNDS)%nat then case_error "the acceptance minimum is three full reload rounds"
  else Ret {| ex_has_collector := has_collector; ex_cold_starts := cold_starts; ex_reload_rounds := reload_rounds; ex_filler_of := filler_of |}.

Record Attempt := {
  ba_case_id : string; ba_attempt : nat; ba_status : string; ba_facts : payload; ba_failure : option string; ba_cleanup : option payload; ba_problems : list string;
}.
Definition new_attempt (case : string) (n : nat) (status : string) (f : payload) (failure : option string) (cleanup : option payload) (problems : list string) : outcome Attempt :=
  if negb (bool_decide (status ∈ STATUSES)) then case_error "unknown attempt status"
  else if String.eqb status "passed" && (match failure with Some s => negb (String.eqb s "") | None => false end || negb (bool_decide (problems = [])))
  then case_error "a passed attempt cannot carry a failure or unsolved problems"
  else Ret {| ba_case_id := case; ba_attempt := n; ba_status := status; ba_facts := f; ba_failure := failure; ba_cleanup := cleanup; ba_problems := problems |}.

Definition without_samples (result : payload) : payload := List.filter (fun kv => negb (String.eqb (fst kv) "samples")) result.
Definition boundary_json (f : Fixture) : payload := map (fun kv => (fst kv, JInt (snd kv))) (fx_boundary f).
Definition fixture_json (f : Fixture) : json :=
  JObj [("capability", JStr (fx_capability f)); ("fixture_id", JStr (fx_id f)); ("boundary", JObj (boundary_json f))].
(** Iterating over a decoded value *)
Definition iterate (v : json) : outcome (list json) :=
  match v with
  | JList l => Ret l
  | JObj f => Ret ((fun kv => JStr (fst kv)) <$> f)
  | JStr s => Ret ((fun c => JStr (utf8 c)) <$> codepoints s)
  | _ => Raise (TypeError "not iterable")
  end.
(** The problems that make a case failed and not unknown *)
Definition unreached (dimension : string) : string := "did not reach: " +:+ dimension.
Definition contract_problem (item : string) : bool :=
  String.prefix "did not reach: " item
  || bool_decide (item ∈ ["no real output"; "non-finite"; "non-finite score"; "no non-empty content"; "dimensions"; "no vectors"; "no results"]).

(** [_basic_payload]: the small version of a fixture's request *)
Definition tokens (n : nat) : string := join " " (take n ["tok000001"; "tok000002"; "tok000003"; "tok000004"]).
Definition short_answer (f : Fixture) : json := JInt (Z.min 8 (default 8 (assoc "output_tokens" (fx_boundary f)))).
Definition is_image (item : json) : outcome bool := match item with JObj f => Ret (equals (jget "type" f) (JStr "image_url")) | _ => Raise (AttributeError "get") end.
Fixpoint images_of (l : list json) : outcome (list json) :=
  match l with [] => Ret [] | x :: l => b ← is_image x; rest ← images_of l; Ret (if (b : bool) then x :: rest else rest) end.
Definition small_request (content : json) (f : Fixture) : payload :=
  assoc_set "n_parallel" (JInt 1) (assoc_set "max_tokens" (short_answer f) (assoc_set "messages" (JList [user_message content]) (fx_payload f))).
Definition first_items (key : string) (p : payload) : outcome json :=
  match jget key p with Some (JList l) => Ret (JList (take 2 l)) | Some _ => Raise (TypeError key) | None => Raise (KeyError key) end.
Definition basic_payload (f : Fixture) : outcome payload :=
  if String.eqb (fx_capability f) "chat" then Ret (small_request (JStr (tokens 4)) f)
  else if String.eqb (fx_capability f) "vision" then
    match jget "messages" (fx_payload f) with
    | Some (JList (JObj message :: _)) =>
        match jget "content" message with
        | Some (JList content) => images ← images_of content; Ret (small_request (JList (take 1 images ++ [text_part (tokens 4)])) f)
        | _ => Raise (KeyError "content")
        end
    | _ => Raise (KeyError "messages")
    end
  else if String.eqb (fx_capability f) "embeddings" then items ← first_items "inputs" (fx_payload f); Ret (assoc_set "inputs" items (fx_payload f))
  else items ← first_items "documents" (fx_payload f); Ret (assoc_set "query" (JStr (tokens 2)) (assoc_set "documents" items (fx_payload f))).

Section Executor.
Context (py_str : json → string) `{Zlib} `{CaseBench} (ex : CaseExecutor).

Definition ask (c : BackendCall) : bench payload := fun σ =>
  ({| be_calls := be_calls σ ++ [c]; be_facts := be_facts σ; be_problems := be_problems σ |}, reply (be_calls σ) c).
Definition tell (c : BackendCall) : bench unit := if ex_has_collector ex then ask c;; mret tt else mret tt.

Definition cancel_once (model_id : string) (f : Fixture) : bench payload :=
  started ← ask (StartExecution model_id (fx_payload f));
  match jget "execution_id" started with
  | Some (JStr execution) =>
      if String.eqb execution "" then lift (case_error "start did not return an execution id")
      else
        acknowledgement ← ask (CancelExecution model_id execution);
        mret (assoc_set "provider" (got (match jget "provider" acknowledgement with Some p => Some p | None => jget "provider" started end))
               (assoc_set "execution_id" (JStr execution) acknowledgement))
  | _ => lift (case_error "start did not return an execution id")
  end.
Definition samples_in (result : payload) : outcome (list json) := match jget "samples" result with None => Ret [] | Some v => iterate v end.
Definition reload_once (model_id : string) : bench payload :=
  stopped ← ask (StopModel model_id);
  if negb (is_true (jget "stop_proven" stopped)) then lift (case_error "a reload needs the previous instance proven stopped")
  else
    loaded ← ask (LoadModel model_id true);
    before ← lift (samples_in stopped);
    after ← lift (samples_in loaded);
    mret ([("provider", got (match jget "provider" loaded with Some p => Some p | None => jget "provider" stopped end)); ("reloaded", JBool true);
           ("stop_proven", JBool true); ("instance", got (jget "instance" loaded))]
          ++ match before ++ after with [] => [] | samples => [("samples", JList samples)] end).

Fixpoint record_rows (rows : list json) : bench unit :=
  match rows with
  | [] => mret tt
  | JObj row :: rows =>
      match jget "kind" row with
      | Some (JStr kind) =>
          if String.eqb kind "" then lift (case_error "a device sample needs a kind")
          else ask (RecordSample kind (got (jget "raw" row)));; record_rows rows
      | _ => lift (case_error "a device sample needs a kind")
      end
  | _ :: _ => lift (case_error "a device sample must be a mapping of kind and raw value")
  end.
Definition record_samples (samples : option json) : bench unit :=
  match samples with
  | Some v => if ex_has_collector ex && Observer.py_true v then rows ← lift (iterate v); record_rows rows else mret tt
  | None => mret tt
  end.

(** The body of the try block: the status, and the error the driver reported *)
Definition attempt_body (kind : string) (action : bench payload) (fixture : option Fixture) (capability : option string) : bench (string * option string) :=
  result ← action;
  set_facts (match fixture with Some f => assoc_set "fixture" (fixture_json f) (without_samples result) | None => without_samples result end);;
  record_samples (jget "samples" result);;
  match jget "error" result with
  | Some v => if Observer.py_true v then mret ("failed", Some (py_str v)) else mret ("", None)
  | None => mret ("", None)
  end ≫= fun '(status, failure) =>
  if negb (String.eqb status "") then mret (status, failure)
  else
    add_problems (attribution_problems kind result);;
    match fixture with
    | Some f => if String.eqb kind "envelope" then
                  short ← lift (boundary_shortfalls (default [] (mapping_of_json (jget "observed" result))) (boundary_json f));
                  add_problems (unreached <$> short)
                else mret tt
    | None => mret tt
    end;;
    match capability, mapping_of_json (jget "output" result) with
    | Some c, Some output => problems ← lift (capability_output_problems c output); add_problems problems
    | _, _ => mret tt
    end;;
    σ ← get;
    mret (if bool_decide (be_problems σ = []) then "passed" else if existsb contract_problem (be_problems σ) then "failed" else "unknown", None).
(** [except Exception]: the attempt failed, and the cleanup is attempted. *)
Definition crashed (model_id : string) (e : exn) : bench (string * option string * option payload) := fun σ =>
  if is_exception e then
    match ask (CleanUp model_id) σ with
    | (σ, Ret f) => (σ, Ret ("failed", Some "exception", Some f))
    | (σ, Raise e') => (σ, if is_exception e' then Ret ("failed", Some "exception", Some [("error", JStr "exception")]) else Raise e')
    end
  else (σ, Raise e).
Definition guarded_body (model_id : string) (body : bench (string * option string)) : bench (string * option string * option payload) := fun σ =>
  match body σ with
  | (σ, Ret (status, failure)) => (σ, Ret (status, failure, None))
  | (σ, Raise e) => crashed model_id e σ
  end.
Definition attempt (model_id case : string) (n : nat) (kind : string) (action : bench payload) (fixture : option Fixture) (capability : option string) : bench Attempt :=
  tell (BeginCase case n);;
  fresh_attempt;;
  '(status, failure, cleanup) ← guarded_body model_id (attempt_body kind action fixture capability);
  σ ← get;
  a ← lift (new_attempt case n status (be_facts σ) failure cleanup (be_problems σ));
  match failure with Some _ => tell (RecordFailure case) | None => mret tt end;;
  tell (EndCase status);;
  mret a.

(** ** The matrix of a model *)
Fixpoint attempts_of (run : nat → bench Attempt) (first count : nat) : bench (list Attempt) :=
  match count with O => mret [] | S count => a ← run first; rest ← attempts_of run (S first) count; mret (a :: rest) end.
Definition backend_case (model_id kind : string) : string := "B:" +:+ model_id +:+ ":" +:+ kind.
Definition capability_case (model_id capability : string) : string := "B:" +:+ model_id +:+ ":cap:" +:+ capability.
(** [{fixture.capability: fixture for fixture in fixtures}]: the last one wins. *)
Definition by_capability (fixtures : list Fixture) (capability : string) : option Fixture := find_last (fun f => String.eqb (fx_capability f) capability) fixtures.
Fixpoint capability_attempts (model_id : string) (fixtures : list Fixture) (capabilities : list string) : bench (list Attempt) :=
  match capabilities with
  | [] => mret []
  | c :: capabilities =>
      f ← lift (of_option (KeyError c) (by_capability fixtures c));
      a ← attempt model_id (capability_case model_id c) 1 "capability" (ask (ExecuteRequest model_id (fx_payload f))) (Some f) (Some c);
      rest ← capability_attempts model_id fixtures capabilities;
      mret (a :: rest)
  end.
Definition run_model (model_id : string) (capabilities : list string) (envelope : Envelope) : bench (list Attempt) :=
  fixtures ← lift (match fixtures_for model_id envelope (match ex_filler_of ex with Some filler => filler model_id | None => None end) capabilities with
                   | Raise (FixtureError msg) => case_error msg
                   | m => m
                   end);
  match fixtures with
  | [] => lift (Raise (IndexError "tuple index out of range"))
  | first :: _ =>
      let case := backend_case model_id in
      loads ← attempts_of (fun n => attempt model_id (case "load") n "load" (ask (LoadModel model_id true)) None None) 1 (ex_cold_starts ex);
      infer ← attempt model_id (case "infer") 1 "infer" (request ← lift (basic_payload first); ask (ExecuteRequest model_id request)) None None;
      let boundary := default first (by_capability fixtures "chat") in
      reached ← attempt model_id (case "envelope") 1 "envelope" (ask (ExecuteRequest model_id (fx_payload boundary))) (Some boundary) None;
      cancelled ← attempt model_id (case "cancel") 1 "cancel" (cancel_once model_id first) None None;
      stopped ← attempt model_id (case "stop") 1 "stop" (ask (StopModel model_id)) None None;
      reloads ← attempts_of (fun n => attempt model_id (case "reload") n "reload" (reload_once model_id) None None) 1 (ex_reload_rounds ex);
      served ← capability_attempts model_id fixtures capabilities;
      mret (loads ++ [infer; reached; cancelled; stopped] ++ reloads ++ served)
  end.
End Executor.

(** [summarize]: the last attempt of a case is its final status. *)
Definition final_status (attempts : list Attempt) (case : string) : string :=
  match find_last (fun a => String.eqb (ba_case_id a) case) attempts with Some a => ba_status a | None => "not_run" end.
Definition summary_passed (attempts : list Attempt) : bool :=
  match attempts with [] => false | _ => forallb (fun a => String.eqb (final_status attempts (ba_case_id a)) "passed") attempts end.
(** [_slug]: a case id as a directory name *)
Definition lower_char (c : ascii) : ascii := if (65 <=? code c) && (code c <=? 90) then byte (code c + 32) else c.
Definition slug_char (c : ascii) : bool := ((97 <=? code c) && (code c <=? 122)) || ((48 <=? code c) && (code c <=? 57)) || (code c =? 95) || (code c =? 45).
Definition slug (case : string) : outcome string :=
  let l := map (fun c => lower_char (if code c =? 58 then byte 95 else c)) (chars case) in
  if negb (bool_decide (l = [])) && forallb slug_char l then Ret (text_of l) else Raise (RuntimeError "cannot name a material directory").
(** [end_case]: the document the attempt leaves behind *)
Definition case_document (a : Attempt) : payload :=
  assoc_set "problems" (JList (JStr <$> ba_problems a))
    (assoc_set "failure" (match ba_failure a with Some s => JStr s | None => JNull end)
      (assoc_set "status" (JStr (ba_status a)) (assoc_set "attempt" (JInt (Z.of_nat (ba_attempt a))) (assoc_set "case_id" (JStr (ba_case_id a)) (ba_facts a))))).

(** ** What a passed attempt has shown *)
Lemma jget_assoc_set k k' v d : jget k (assoc_set k' v d) = if String.eqb k k' then Some v else jget k d.
Proof.
  induction d as [|[k0 v0] d IH]; cbn; [done|]. destruct (decide (k' = k0)) as [<-|Hne]; cbn.
  - by destruct (String.eqb k k').
  - rewrite IH. destruct (String.eqb k k') eqn:E, (String.eqb k k0) eqn:E0; try done. apply String.eqb_eq in E, E0. congruence.
Qed.
Lemma jget_without_samples k d : k ≠ "samples" → jget k (without_samples d) = jget k d.
Proof.
  intros Hk. induction d as [|[k0 v0] d IH]; cbn; [done|]. destruct (String.eqb k0 "samples") eqn:E; cbn.
  2:{ destruct (String.eqb k k0); [done|apply IH]. }
  apply String.eqb_eq in E as ->. etrans; [apply IH|]. by apply String.eqb_neq in Hk as ->.
Qed.
Definition facts_of (fixture : option Fixture) (result : payload) : payload :=
  match fixture with Some f => assoc_set "fixture" (fixture_json f) (without_samples result) | None => without_samples result end.
(** The checks of an attempt of a kind, all without a problem *)
Record unobjected (kind : string) (fixture : option Fixture) (capability : option string) (result : payload) : Prop := {
  pr_attribution : attribution_problems kind result = [];
  pr_boundary f : kind = "envelope" → fixture = Some f → boundary_shortfalls (default [] (mapping_of_json (jget "observed" result))) (boundary_json f) = Ret [];
  pr_output c o : capability = Some c → mapping_of_json (jget "output" result) = Some o → capability_output_problems c o = Ret [];
}.

Section Proofs.
Context (py_str : json → string) `{Zlib} `{CaseBench} (ex : CaseExecutor).
(** *** The calls of a run *)
Definition store_call (c : BackendCall) : bool := match c with BeginCase _ _ | RecordSample _ _ | RecordFailure _ | EndCase _ => true | _ => false end.
Definition stored (l : list BackendCall) : Prop := Forall (fun c => store_call c = true) l.
(** The calls between two states were all made on the store. *)
Definition stores (σ σ' : Bench) : Prop := ∃ l, be_calls σ' = be_calls σ ++ l ∧ stored l.
Lemma stores_refl σ σ' : be_calls σ' = be_calls σ → stores σ σ'.
Proof. intros E. exists []. rewrite app_nil_r. split; [done|constructor]. Qed.
Lemma stores_trans σ σ1 σ' : stores σ σ1 → stores σ1 σ' → stores σ σ'.
Proof. intros (l & E & Hl) (l' & E' & Hl'). exists (l ++ l'). rewrite E', E, app_assoc. split; [done|by apply Forall_app]. Qed.
Lemma ask_stores c σ σ' o : store_call c = true → ask c σ = (σ', o) → stores σ σ'.
Proof. intros Hc [= <- _]. exists [c]. split; [done|by repeat constructor]. Qed.
Lemma tell_stores c σ σ' o : store_call c = true → tell ex c σ = (σ', o) → stores σ σ'.
Proof.
  intros Hc. unfold tell. destruct (ex_has_collector ex); [|intros [= <- _]; by apply stores_refl].
  unfold mbind, pym_bind. destruct (ask c σ) as [σ1 [r|e]] eqn:E; (apply ask_stores in E; [|done]); by intros [= <- _].
Qed.
Lemma rows_local rows σ σ' o : record_rows rows σ = (σ', o) → be_facts σ' = be_facts σ ∧ be_problems σ' = be_problems σ ∧ stores σ σ'.
Proof.
  revert σ. induction rows as [|row rows IH]; intros σ; cbn; [intros [= <- _]; auto using stores_refl|]. destruct row; try by (intros [= <- _]; auto using stores_refl).
  destruct (jget "kind" fields) as [[]|]; try by (intros [= <- _]; auto using stores_refl). destruct (String.eqb s ""); [intros [= <- _]; auto using stores_refl|].
  unfold mbind, pym_bind. destruct (ask _ σ) as [σ1 o1] eqn:Ea. assert (stores σ σ1) as H1 by (refine (ask_stores _ _ _ _ _ Ea); done). injection Ea as <- <-.
  destruct (reply _ _); [|by intros [= <- _]]. intros (Hf & Hp & H2)%IH. split_and!; [done..|by eapply stores_trans].
Qed.
Lemma samples_local samples σ σ' o : record_samples ex samples σ = (σ', o) → be_facts σ' = be_facts σ ∧ be_problems σ' = be_problems σ ∧ stores σ σ'.
Proof.
  unfold record_samples. destruct samples as [v|]; [|intros [= <- _]; auto using stores_refl]. destruct (_ && _); [|intros [= <- _]; auto using stores_refl].
  unfold mbind, pym_bind, lift. destruct (iterate v); [apply rows_local|intros [= <- _]; auto using stores_refl].
Qed.

(** *** What an action asks of the driver *)
Inductive Plan := Call (c : BackendCall) | Small (f : Fixture) | StartThenCancel (f : Fixture) | StopThenLoad.
Definition perform (model_id : string) (plan : Plan) : bench payload :=
  match plan with
  | Call c => ask c
  | Small f => request ← lift (basic_payload f); ask (ExecuteRequest model_id request)
  | StartThenCancel f => cancel_once model_id f
  | StopThenLoad => reload_once model_id
  end.
(** The calls [acts] follow the plan after [before], and [answer] is what came of
    them: one call and its reply; the execution that was started is the one
    cancelled; a load follows a stop that is proven. *)
Definition acted (model_id : string) (before : list BackendCall) (plan : Plan) (acts : list BackendCall) (answer : outcome payload) : Prop :=
  match plan with
  | Call c => acts = [c] ∧ answer = reply before c
  | Small f =>
      match basic_payload f with
      | Ret request => acts = [ExecuteRequest model_id request] ∧ answer = reply before (ExecuteRequest model_id request)
      | Raise e => acts = [] ∧ answer = Raise e
      end
  | StartThenCancel f =>
      let start := StartExecution model_id (fx_payload f) in
      (acts = [start] ∧ ∃ e, answer = Raise e) ∨
      ∃ started execution, reply before start = Ret started ∧ jget "execution_id" started = Some (JStr execution) ∧ execution ≠ "" ∧
        acts = [start; CancelExecution model_id execution] ∧
        ∀ r, answer = Ret r → ∃ acknowledgement, reply (before ++ [start]) (CancelExecution model_id execution) = Ret acknowledgement ∧
          jget "execution_id" r = Some (JStr execution) ∧ ∀ key, key ∉ ["execution_id"; "provider"] → jget key r = jget key acknowledgement
  | StopThenLoad =>
      (acts = [StopModel model_id] ∧ ∃ e, answer = Raise e) ∨
      ∃ stopped, reply before (StopModel model_id) = Ret stopped ∧ is_true (jget "stop_proven" stopped) = true ∧
        acts = [StopModel model_id; LoadModel model_id true] ∧
        ∀ r, answer = Ret r → ∃ loaded, reply (before ++ [StopModel model_id]) (LoadModel model_id true) = Ret loaded ∧
          jget "instance" r = Some (got (jget "instance" loaded))
  end.
(** An action calls the driver by its plan and leaves the facts and the problems alone. *)
Definition performed_as (model_id : string) (plan : Plan) (σ σ' : Bench) (answer : outcome payload) : Prop :=
  be_problems σ' = be_problems σ ∧ ∃ acts, be_calls σ' = be_calls σ ++ acts ∧ acted model_id (be_calls σ) plan acts answer.
Lemma perform_cancel model_id f σ σ' answer : cancel_once model_id f σ = (σ', answer) → performed_as model_id (StartThenCancel f) σ σ' answer.
Proof.
  unfold cancel_once. unfold mbind at 1, pym_bind at 1, ask at 1. set (start := StartExecution model_id (fx_payload f)).
  assert (∀ x (e : exn), x = Raise e → ({| be_calls := be_calls σ ++ [start]; be_facts := be_facts σ; be_problems := be_problems σ |}, x) = (σ', answer) →
    performed_as model_id (StartThenCancel f) σ σ' answer) as Hstop.
  { intros x e -> [= <- <-]. split; [done|]. exists [start]. split; [done|]. left. split; [done|by eexists]. }
  destruct (reply (be_calls σ) start) as [started|e] eqn:Es; [|by eapply Hstop].
  destruct (jget "execution_id" started) as [[]|] eqn:Ei; try by (eapply Hstop; reflexivity).
  destruct (String.eqb_spec s "") as [|Hne]; [by eapply Hstop|]. unfold mbind, pym_bind, ask. cbn [be_calls].
  destruct (reply (be_calls σ ++ [start]) (CancelExecution model_id s)) as [ack|e] eqn:Ec; intros [= <- <-]; (split; [done|]);
    exists [start; CancelExecution model_id s]; (split; [cbn; by rewrite <-app_assoc|]); right; exists started, s; (split_and!; [done..|]); [|done].
  intros r [= <-]. exists ack. split; [done|]. rewrite jget_assoc_set, (jget_assoc_set _ "execution_id"). split; [done|]. intros key Hkey.
  rewrite jget_assoc_set, (jget_assoc_set _ "execution_id"). destruct (String.eqb_spec key "provider") as [->|_]; [set_solver|].
  destruct (String.eqb_spec key "execution_id") as [->|_]; [set_solver|done].
Qed.
Lemma perform_reload model_id σ σ' answer : reload_once model_id σ = (σ', answer) → performed_as model_id StopThenLoad σ σ' answer.
Proof.
  unfold reload_once. unfold mbind at 1, pym_bind at 1, ask at 1. set (stop := StopModel model_id).
  destruct (reply (be_calls σ) stop) as [stopped|e] eqn:Es; [|intros [= <- <-]; split; [done|]; exists [stop]; split; [done|]; left; split; [done|by eexists]].
  destruct (is_true (jget "stop_proven" stopped)) eqn:Ep; cbn [negb];
    [|intros [= <- <-]; split; [done|]; exists [stop]; split; [done|]; left; split; [done|by eexists]].
  unfold mbind at 1, pym_bind at 1, ask at 1. cbn [be_calls be_facts be_problems]. set (load := LoadModel model_id true).
  assert (∀ x, (∀ r, x = Ret r → ∃ loaded, reply (be_calls σ ++ [stop]) load = Ret loaded ∧ jget "instance" r = Some (got (jget "instance" loaded))) →
    ({| be_calls := (be_calls σ ++ [stop]) ++ [load]; be_facts := be_facts σ; be_problems := be_problems σ |}, x) = (σ', answer) →
    performed_as model_id StopThenLoad σ σ' answer) as Hend.
  { intros x Hx [= <- <-]. split; [done|]. exists [stop; load]. split; [cbn; by rewrite <-app_assoc|]. right. exists stopped. done. }
  destruct (reply (be_calls σ ++ [stop]) load) as [loaded|e] eqn:El; [|by apply Hend].
  unfold mbind, pym_bind, lift, mret, pym_ret. destruct (samples_in stopped) as [l1|e]; [|by apply Hend]. destruct (samples_in loaded) as [l2|e]; [|by apply Hend].
  apply Hend. intros r [= <-]. by exists loaded.
Qed.
Lemma perform_acts model_id plan σ σ' answer : perform model_id plan σ = (σ', answer) → performed_as model_id plan σ σ' answer.
Proof.
  destruct plan as [c|f|f|]; cbn [perform]; [| |apply perform_cancel|apply perform_reload].
  - intros [= <- <-]. split; [done|]. exists [c]. done.
  - unfold mbind, pym_bind, lift. unfold performed_as, acted. destruct (basic_payload f) as [request|e].
    + intros [= <- <-]. split; [done|]. by eexists.
    + intros [= <- <-]. split; [done|]. exists []. by rewrite app_nil_r.
Qed.

Lemma body_calls model_id kind plan fixture capability σ σ' o : be_problems σ = [] →
  attempt_body py_str ex kind (perform model_id plan) fixture capability σ = (σ', o) →
  ∃ acts post answer, be_calls σ' = be_calls σ ++ acts ++ post ∧ stored post ∧ acted model_id (be_calls σ) plan acts answer ∧
    (∀ e, answer = Raise e → o = Raise e) ∧
    (∀ failure, o = Ret ("passed", failure) → failure = None ∧ be_problems σ' = [] ∧
       ∃ result, answer = Ret result ∧ be_facts σ' = facts_of fixture result ∧ unobjected kind fixture capability result).
Proof.
  intros Hσ. unfold attempt_body. unfold mbind at 1, pym_bind at 1.
  destruct (perform model_id plan σ) as [σ1 answer] eqn:Ea. apply perform_acts in Ea as (Hp1 & acts & Hacts & Hacted). rewrite Hσ in Hp1.
  destruct answer as [result|e].
  2:{ intros [= <- <-]. exists acts, [], (Raise e). rewrite app_nil_r. split_and!; try done; [by constructor|by intros ? [= <-]]. }
  intros Hrest. exists acts.
  assert (∃ post, be_calls σ' = be_calls σ1 ++ post ∧ stored post ∧ (∀ failure, o = Ret ("passed", failure) → failure = None ∧ be_problems σ' = [] ∧
       be_facts σ' = facts_of fixture result ∧ unobjected kind fixture capability result)) as (post & Hpost & Hstored & Hpass).
  2:{ exists post, (Ret result). rewrite Hpost, Hacts, <-app_assoc. split_and!; try done. intros failure Ho. destruct (Hpass failure Ho) as (-> & -> & Hf & Hu).
      split_and!; [done..|by exists result]. }
  clear Hacts Hacted.
  unfold mbind at 1, pym_bind at 1, set_facts, modify in Hrest. unfold mbind at 1, pym_bind at 1 in Hrest.
  destruct (record_samples ex _ _) as [σ3 [[]|e]] eqn:Es; apply samples_local in Es as (Hf & Hp & post & Hpost & Hstored); cbn in Hf, Hp, Hpost.
  2:{ injection Hrest as <- <-. exists post. split_and!; [done..|]. done. }
  exists post. revert Hrest. unfold mbind at 1, pym_bind at 1.
  match goal with |- context [match ?m σ3 with _ => _ end] => destruct (m σ3) as [σ4 [[status reported]|e]] eqn:He end;
    [|destruct (jget "error" result) as [v|]; [destruct (Observer.py_true v)|]; done].
  assert (σ4 = σ3 ∧ (status = "" ∨ status = "failed")) as [-> Hstatus].
  { destruct (jget "error" result) as [v|]; [destruct (Observer.py_true v)|]; injection He as <- <- _; auto. }
  rewrite <-Hpost. destruct Hstatus as [-> | ->]; [|by intros [= <- <-]]. cbn [String.eqb negb]. intros Hrest.
  assert (be_calls σ' = be_calls σ3) as ->.
  { revert Hrest. clear. unfold mbind, pym_bind, add_problems, modify, lift, get, mret, pym_ret.
    intros Hr. repeat (case_match; simplify_eq/=; try done). }
  split_and!; [done..|]. intros failure ->.
  apply bind_returns in Hrest as ([] & σ5 & [= <-] & Hb). apply bind_returns in Hb as ([] & σ6 & Hshort & Hb).
  apply bind_returns in Hb as ([] & σ7 & Hout & Hb). apply bind_returns in Hb as (σ8 & σ9 & [= <- <-] & Hb).
  destruct (bool_decide (be_problems σ7 = [])) eqn:E; [apply bool_decide_eq_true in E|by destruct (existsb _ _)]. injection Hb as <- <-.
  assert (be_problems σ6 = [] ∧ be_facts σ7 = be_facts σ6 ∧
          ∀ c o, capability = Some c → mapping_of_json (jget "output" result) = Some o → capability_output_problems c o = Ret []) as (E6 & Hf7 & Ho).
  { destruct capability as [c|]; [|injection Hout as <-; done]. destruct (mapping_of_json (jget "output" result)) as [o|]; [|injection Hout as <-; done].
    apply bind_returns in Hout as (ps & σ8 & [= <- Hps] & [= <-]). cbn in E. apply app_nil in E as [E ->]. naive_solver. }
  assert (be_problems σ3 ++ attribution_problems kind result = [] ∧ be_facts σ6 = be_facts σ3 ∧
          ∀ f, kind = "envelope" → fixture = Some f → boundary_shortfalls (default [] (mapping_of_json (jget "observed" result))) (boundary_json f) = Ret [])
    as (E3 & Hf6 & Hb).
  { destruct fixture as [f|]; [|injection Hshort as <-; done]. destruct (String.eqb_spec kind "envelope"); [|injection Hshort as <-; naive_solver].
    apply bind_returns in Hshort as (ps & σ8 & [= <- Hps] & [= <-]). cbn in E6. apply app_nil in E6 as [E6 Hn%fmap_nil_inv]. subst ps. naive_solver. }
  apply app_nil in E3 as [_ E3]. split_and!; [done..|unfold facts_of; congruence|by split].
Qed.

(** ** The matrix *)
Record Row := { row_case : string; row_attempt : nat; row_kind : string; row_plan : Plan; row_fixture : option Fixture; row_capability : option string }.
Definition plain_row (model_id kind : string) (plan : Plan) (n : nat) : Row :=
  {| row_case := backend_case model_id kind; row_attempt := n; row_kind := kind; row_plan := plan; row_fixture := None; row_capability := None |}.
Definition envelope_row (model_id : string) (f : Fixture) : Row :=
  {| row_case := backend_case model_id "envelope"; row_attempt := 1; row_kind := "envelope"; row_plan := Call (ExecuteRequest model_id (fx_payload f));
     row_fixture := Some f; row_capability := None |}.
Definition capability_row (model_id : string) (f : Fixture) (c : string) : Row :=
  {| row_case := capability_case model_id c; row_attempt := 1; row_kind := "capability"; row_plan := Call (ExecuteRequest model_id (fx_payload f));
     row_fixture := Some f; row_capability := Some c |}.
(** The rows of a model, in the order they are run *)
Definition matrix_rows (model_id : string) (capabilities : list string) (first : Fixture) (fixtures : list Fixture) : list Row :=
  map (plain_row model_id "load" (Call (LoadModel model_id true))) (seq 1 (ex_cold_starts ex))
  ++ [plain_row model_id "infer" (Small first) 1; envelope_row model_id (default first (by_capability (first :: fixtures) "chat"));
      plain_row model_id "cancel" (StartThenCancel first) 1; plain_row model_id "stop" (Call (StopModel model_id)) 1]
  ++ map (plain_row model_id "reload" StopThenLoad) (seq 1 (ex_reload_rounds ex))
  ++ map (fun c => capability_row model_id (default first (by_capability (first :: fixtures) c)) c) capabilities.
(** An attempt of a row, from the calls before it to the calls after it: the
    driver is called by the row's plan, and besides it only to clean up; an action
    that raised is a failure cleaned up; and a passed attempt records the answer
    of its action, which no check objects to. *)
Record made (model_id : string) (before : list BackendCall) (r : Row) (a : Attempt) (after : list BackendCall) : Prop := {
  md_case : ba_case_id a = row_case r;
  md_attempt : ba_attempt a = row_attempt r;
  md_calls : ∃ pre acts post answer, after = before ++ pre ++ acts ++ post ∧ stored pre ∧ acted model_id (before ++ pre) (row_plan r) acts answer ∧
    Forall (fun c => store_call c = true ∨ c = CleanUp model_id) post ∧
    (∀ e, answer = Raise e → ba_status a = "failed" ∧ is_Some (ba_failure a) ∧ CleanUp model_id ∈ post) ∧
    (ba_status a = "passed" → ba_failure a = None ∧ ba_cleanup a = None ∧ ba_problems a = [] ∧ stored post ∧
       ∃ result, answer = Ret result ∧ ba_facts a = facts_of (row_fixture r) result ∧ unobjected (row_kind r) (row_fixture r) (row_capability r) result);
}.
(** The attempts of a list of rows, one after the other *)
Inductive run_of (model_id : string) : list BackendCall → list Row → list Attempt → list BackendCall → Prop :=
| run_none before : run_of model_id before [] [] before
| run_next before r rows a attempts middle after :
    made model_id before r a middle → run_of model_id middle rows attempts after → run_of model_id before (r :: rows) (a :: attempts) after.
Lemma run_of_app model_id before rows attempts middle rows' attempts' after : run_of model_id before rows attempts middle → run_of model_id middle rows' attempts' after →
  run_of model_id before (rows ++ rows') (attempts ++ attempts') after.
Proof. induction 1; [done|]. intros. cbn. econstructor; eauto. Qed.
Lemma run_of_one model_id before r a after : made model_id before r a after → run_of model_id before [r] [a] after.
Proof. intros Hm. econstructor; [done|constructor]. Qed.
Lemma cleans model_id e σ σ' x : crashed model_id e σ = (σ', Ret x) →
  ∃ cleanup, x = ("failed", Some "exception", Some cleanup) ∧ be_calls σ' = be_calls σ ++ [CleanUp model_id].
Proof.
  unfold crashed. destruct (is_exception e); [|done]. unfold ask. destruct (reply _ _) as [f|e']; [|destruct (is_exception e'); [|done]]; intros [= <- <-]; by eexists.
Qed.
Lemma attempt_made model_id r σ σ' a :
  attempt py_str ex model_id (row_case r) (row_attempt r) (row_kind r) (perform model_id (row_plan r)) (row_fixture r) (row_capability r) σ = (σ', Ret a) →
  made model_id (be_calls σ) r a (be_calls σ').
Proof.
  intros (u & σ1 & (pre & Hpre & Hstored)%tell_stores & Hrun)%bind_returns; [|done]. apply bind_returns in Hrun as ([] & σ2 & [= <-] & Hrun).
  apply bind_returns in Hrun as ([[status failure] cleanup] & σ3 & Hbody & Hrun). apply bind_returns in Hrun as (σ4 & σ5 & [= <- <-] & Hrun).
  apply bind_returns in Hrun as (a' & σ6 & [= <- Hnew] & Hrun). apply bind_returns in Hrun as ([] & σ7 & Hfail & Hrun).
  apply bind_returns in Hrun as ([] & σ8 & Hend & [= <- <-]).
  assert (stores σ3 σ8) as (last & Hlast & Hlasts).
  { eapply stores_trans; [|refine (tell_stores _ _ _ _ _ Hend); done]. destruct failure; [refine (tell_stores _ _ _ _ _ Hfail); done|].
    injection Hfail as <-. by apply stores_refl. }
  unfold new_attempt in Hnew. destruct (negb _); [done|]. destruct (_ && _); [done|]. injection Hnew as <-. split; [done..|]. cbn.
  unfold guarded_body in Hbody. destruct (attempt_body _ _ _ _ _ _ _) as [σ9 o] eqn:Eb. apply body_calls in Eb; [|done].
  destruct Eb as (acts & post & answer & Hcalls & Hpost & Hacted & Hraise & Hpass). cbn [be_calls] in Hcalls, Hacted. rewrite Hpre in Hcalls, Hacted.
  destruct o as [[s f]|e].
  - injection Hbody as <- <- <- <-. exists pre, acts, (post ++ last), answer. rewrite Hlast, Hcalls, <-!app_assoc. split_and!; try done.
    + apply Forall_app. split; eapply Forall_impl; [exact Hpost|auto|exact Hlasts|auto].
    + intros e He. by apply Hraise in He.
    + intros ->. destruct (Hpass f eq_refl) as (-> & -> & Hr). split_and!; [done..|by apply Forall_app|done].
  - apply cleans in Hbody as (c & [= -> -> ->] & Hc). exists pre, acts, (post ++ [CleanUp model_id] ++ last), answer. rewrite Hlast, Hc, Hcalls, <-!app_assoc. split_and!; try done.
    + repeat (apply Forall_app; split); [eapply Forall_impl; [exact Hpost|auto]|repeat constructor; by right|eapply Forall_impl; [exact Hlasts|auto]].
    + intros e' _. split_and!; [done..|]. set_solver.
Qed.
Lemma attempts_made model_id kind plan first count σ σ' l :
  attempts_of (fun n => attempt py_str ex model_id (backend_case model_id kind) n kind (perform model_id plan) None None) first count σ = (σ', Ret l) →
  run_of model_id (be_calls σ) (map (plain_row model_id kind plan) (seq first count)) l (be_calls σ').
Proof.
  revert first σ l. induction count as [|count IH]; intros first σ l; cbn; [intros [= <- <-]; constructor|].
  intros (a & σ1 & Ha & Hl)%bind_returns. apply bind_returns in Hl as (rest & σ2 & Hl & [= <- <-]). econstructor; [|by eapply IH].
  by eapply (attempt_made model_id (plain_row model_id kind plan first)).
Qed.
Lemma served_made model_id first fixtures capabilities σ σ' l : capability_attempts py_str ex model_id fixtures capabilities σ = (σ', Ret l) →
  run_of model_id (be_calls σ) (map (fun c => capability_row model_id (default first (by_capability fixtures c)) c) capabilities) l (be_calls σ').
Proof.
  revert σ l. induction capabilities as [|c capabilities IH]; intros σ l; cbn; [intros [= <- <-]; constructor|].
  intros (f & σ1 & [= <- Hf] & Hl)%bind_returns. apply bind_returns in Hl as (a & σ2 & Ha & Hl). apply bind_returns in Hl as (rest & σ3 & Hl & [= <- <-]).
  econstructor; [|by eapply IH]. destruct (by_capability fixtures c) as [g|]; [injection Hf as ->|done].
  by eapply (attempt_made model_id (capability_row model_id f c)).
Qed.
Lemma run_made model_id capabilities e σ σ' attempts : run_model py_str ex model_id capabilities e σ = (σ', Ret attempts) →
  ∃ first fixtures,
    fixtures_for model_id e (match ex_filler_of ex with Some filler => filler model_id | None => None end) capabilities = Ret (first :: fixtures) ∧
    run_of model_id (be_calls σ) (matrix_rows model_id capabilities first fixtures) attempts (be_calls σ').
Proof.
  intros (fixtures & σ1 & [= <- Hf] & Hr)%bind_returns. destruct fixtures as [|first fixtures]; [done|]. cbv zeta in Hr.
  apply bind_returns in Hr as (loads & σ2 & Hloads & Hr). apply bind_returns in Hr as (infer & σ3 & Hinfer & Hr).
  apply bind_returns in Hr as (reached & σ4 & Hreached & Hr). apply bind_returns in Hr as (cancelled & σ5 & Hcancelled & Hr).
  apply bind_returns in Hr as (stopped & σ6 & Hstopped & Hr). apply bind_returns in Hr as (reloads & σ7 & Hreloads & Hr).
  apply bind_returns in Hr as (served & σ8 & Hserved & [= <- <-]).
  exists first, fixtures. split; [destruct (fixtures_for _ _ _ _) as [?|[]]; by simplify_eq|]. unfold matrix_rows.
  eapply run_of_app; [by eapply (attempts_made model_id "load" (Call (LoadModel model_id true)))|]. cbn [app].
  eapply run_next; [by eapply (attempt_made model_id (plain_row model_id "infer" (Small first) 1))|].
  eapply run_next; [by eapply (attempt_made model_id (envelope_row model_id _))|].
  eapply run_next; [by eapply (attempt_made model_id (plain_row model_id "cancel" (StartThenCancel first) 1))|].
  eapply run_next; [by eapply (attempt_made model_id (plain_row model_id "stop" (Call (StopModel model_id)) 1))|].
  eapply run_of_app; [by eapply (attempts_made model_id "reload" StopThenLoad)|by eapply served_made].
Qed.
End Proofs.

(** ** Recomputing a passed attempt *)
Lemma document_get k a : k ∉ ["case_id"; "attempt"; "status"; "failure"; "problems"] → jget k (case_document a) = jget k (ba_facts a).
Proof.
  intros Hk. unfold case_document. rewrite !jget_assoc_set.
  repeat match goal with |- context [String.eqb k ?s] => destruct (String.eqb_spec k s) as [->|_]; [set_solver|] end. done.
Qed.
Lemma facts_get k fixture result : k ≠ "samples" → k ≠ "fixture" → jget k (facts_of fixture result) = jget k result.
Proof.
  intros Hs Hf. unfold facts_of. destruct fixture as [f|]; [|by apply jget_without_samples].
  rewrite jget_assoc_set. apply String.eqb_neq in Hf as ->. by apply jget_without_samples.
Qed.
Definition FACTS_READ : list string := ["provider"; "output"; "instance"; "stop_proven"; "cancelled"; "observed"].
Lemma attribution_agree kind f g activity : (∀ k, k ∈ FACTS_READ → jget k f = jget k g) →
  jget "device_activity" f = Some (JObj activity) → given (jget "raw_samples" activity) = true →
  attribution_problems kind g = [] → attribution_problems kind f = [].
Proof.
  intros Hget Ha Hraw. unfold attribution_problems. rewrite Ha. cbn [mapping_of_json]. rewrite Hraw.
  rewrite !Hget by (unfold FACTS_READ; set_solver). rewrite !app_nil. intros (Hp & Hi & Hl & Hs & Hc). split_and!; [done| |done..].
  destruct (bool_decide _); [|done]. by apply app_nil in Hi as [_ Hi].
Qed.
(** How the evaluator reads a case id *)
Definition reads (case kind : string) (capability : option string) : Prop :=
  ∃ part, split_colon [] (chars case) !! 2%nat = Some part ∧ kind = (if String.eqb part "cap" then "capability" else part) ∧
    (if String.eqb kind "capability" then option_map Some (split_colon [] (chars case) !! 3%nat) else Some None) = Some capability.
Lemma split_colon_app acc l rest : forallb (fun c => negb (code c =? 58)) l = true → split_colon acc (l ++ rest) = split_colon (rev l ++ acc) rest.
Proof.
  revert acc. induction l as [|c l IH]; intros acc; cbn; [done|]. intros [Hc Hl]%andb_true_iff. apply negb_true_iff in Hc as ->.
  rewrite IH by done. by rewrite <-app_assoc.
Qed.
Lemma ID_RE_colon s : ID_RE s = true → forallb (fun c => negb (code c =? 58)) (chars s) = true.
Proof.
  unfold ID_RE. destruct (chars s) as [|c l]; [done|]. intros [[[Hc _]%andb_true_iff Hl]%andb_true_iff _]%andb_true_iff. cbn [forallb].
  assert (∀ c, is_alnum c = true → negb (code c =? 58) = true) as Halnum.
  { intros x. unfold is_alnum, is_digit, is_lower, in_range. intros Hx. apply negb_true_iff, Z.eqb_neq. lia. }
  rewrite Halnum by done. apply forallb_forall. rewrite forallb_forall in Hl. intros x Hx. apply Hl in Hx.
  apply orb_true_iff in Hx as [[[Hx|Hx]%orb_true_iff|Hx]%orb_true_iff|Hx]; [by apply Halnum|..]; apply Z.eqb_eq in Hx as ->; done.
Qed.
Lemma split_case model_id rest : ID_RE model_id = true →
  split_colon [] (chars ("B:" +:+ model_id +:+ ":" +:+ rest)) = "B" :: model_id :: split_colon [] (chars rest).
Proof.
  intros Hid. rewrite !chars_app. cbn. rewrite split_colon_app by by apply ID_RE_colon. cbn. rewrite app_nil_r, rev_involutive, text_of_chars. done.
Qed.
Lemma reads_plain model_id kind : ID_RE model_id = true → kind ∈ ["load"; "infer"; "envelope"; "cancel"; "stop"; "reload"] →
  reads (backend_case model_id kind) kind None.
Proof.
  intros Hid Hk. exists kind. unfold backend_case. rewrite split_case by done.
  repeat (apply elem_of_cons in Hk as [->|Hk]; [done|]). by apply not_elem_of_nil in Hk.
Qed.
Lemma reads_capability model_id c : ID_RE model_id = true → c ∈ CAPABILITY_FIXTURES → reads (capability_case model_id c) "capability" (Some c).
Proof.
  intros Hid Hc. exists "cap". unfold capability_case. change (":cap:" +:+ c) with (":" +:+ ("cap:" +:+ c)). rewrite split_case by done.
  repeat (apply elem_of_cons in Hc as [->|Hc]; [done|]). by apply not_elem_of_nil in Hc.
Qed.
(** What the evaluator asks of the sample files *)
Definition device_problems (kind : string) (a : Attribution) : list string :=
  unless (negb (Nat.eqb (att_tegrastats a) 0 && Nat.eqb (att_proc_maps a) 0)) "no raw device samples"
  ++ unless (negb (bool_decide (kind ∈ INFERENCE_KINDS) && bool_decide (att_peak a = None) && negb (att_mapped a))) "no attributable device activity".
(** What a passed attempt leaves to recompute from *)
Definition row_passed (r : Row) (a : Attempt) : Prop :=
  ba_failure a = None ∧ ba_cleanup a = None ∧ ba_problems a = [] ∧
  ∃ result, ba_facts a = facts_of (row_fixture r) result ∧ unobjected (row_kind r) (row_fixture r) (row_capability r) result.
Lemma run_of_rows `{CaseBench} model_id before rows attempts after : run_of model_id before rows attempts after →
  Forall2 (fun r a => ba_case_id a = row_case r ∧ (ba_status a = "passed" → row_passed r a)) rows attempts.
Proof.
  induction 1 as [|before r rows a attempts middle after Hm _ IH]; constructor; [|done]. destruct Hm as [Hc _ (pre & acts & post & answer & _ & _ & _ & _ & _ & Hp)].
  split; [done|]. intros (? & ? & ? & _ & result & _ & ? & ?)%Hp. split_and!; [done..|by exists result].
Qed.
Lemma made_recomputed py_str `{FloatText} tree directory r a att :
  row_passed r a → reads (row_case r) (row_kind r) (row_capability r) →
  (row_kind r = "envelope" → is_Some (row_fixture r)) → (row_kind r = "capability" ↔ is_Some (row_capability r)) →
  recompute_device_attribution py_str tree directory = Ret att →
  evaluate_backend py_str tree (row_case r) (case_document a) directory = Ret (verdict_of (row_case r) (device_problems (row_kind r) att)).
Proof.
  intros (Hfail & _ & Hnone & result & Hfacts & Hpr) (part & Hpart & Hkind & Hcap) Hfix Hinf Hatt.
  assert (∀ k, k ∈ FACTS_READ → jget k (case_document a) = jget k result) as Hget.
  { intros k Hk. rewrite document_get, Hfacts, facts_get; [done|..]; unfold FACTS_READ in Hk; set_solver. }
  unfold evaluate_backend. rewrite Hpart. cbn [of_option mbind outcome_bind]. rewrite <-Hkind, Hcap. cbn [of_option mbind outcome_bind]. rewrite Hatt. cbn [mbind outcome_bind].
  assert (given (jget "failure" (case_document a)) = false) as -> by (unfold case_document; rewrite !jget_assoc_set, Hfail; done).
  assert (attribution_problems (row_kind r) (assoc_set "device_activity" (attribution_json att) (case_document a)) = []) as ->.
  { eapply (attribution_agree _ _ result); [|rewrite jget_assoc_set; reflexivity|reflexivity|apply Hpr].
    intros k Hk. rewrite jget_assoc_set, <-Hget by done. destruct (String.eqb_spec k "device_activity") as [->|_]; [|done]. unfold FACTS_READ in Hk; set_solver. }
  assert ((if String.eqb (row_kind r) "envelope" then
             match fixture_boundary (case_document a) with
             | None => Ret ["fixture boundary"]
             | Some b => boundary_shortfalls (default [] (mapping_of_json (jget "observed" (case_document a)))) b
             end else Ret []) = Ret []) as ->.
  { destruct (String.eqb_spec (row_kind r) "envelope") as [Hk|_]; [|done]. destruct (Hfix Hk) as [f Hf].
    unfold fixture_boundary. rewrite document_get, Hfacts by set_solver. rewrite Hf. cbn [facts_of]. rewrite jget_assoc_set. cbn.
    rewrite Hget by (unfold FACTS_READ; set_solver). by eapply pr_boundary. }
  cbn [mbind outcome_bind]. rewrite Hget by (unfold FACTS_READ; set_solver).
  destruct (row_capability r) as [c|] eqn:Ec; [|cbn; unfold device_problems; by rewrite !app_nil_r].
  pose proof (pr_attribution _ _ _ _ Hpr) as Ho. rewrite (proj2 Hinf) in Ho by done.
  destruct (mapping_of_json (jget "output" result)) as [o|] eqn:Eo; [rewrite (pr_output _ _ _ _ Hpr c o) by done|].
  - cbn. unfold device_problems. by rewrite !app_nil_r.
  - unfold attribution_problems in Ho. rewrite Eo in Ho. apply app_nil in Ho as [_ [Ho _]%app_nil]. by apply app_nil in Ho as [_ Ho].
Qed.

(** ** The fixtures *)
Lemma loop_fixtures `{Zlib} model_id e filler text_tokens capabilities l : fixtures_loop model_id e filler text_tokens capabilities = Ret l →
  map fx_capability l = capabilities ∧ Forall (.∈ CAPABILITY_FIXTURES) capabilities ∧
  Forall (fun f => fx_capability f = "chat" →
    fx_boundary f = [("input_tokens", max_input_tokens e); ("output_tokens", max_output_tokens e); ("parallel", max_parallel e)]) l.
Proof.
  revert text_tokens l. induction capabilities as [|c capabilities IH]; intros text_tokens l; cbn; [by intros [= <-]|]. unfold needs.
  destruct (negb _); [|done]. cbn. destruct (bool_decide (c ∈ CAPABILITY_FIXTURES)) eqn:Ec; [apply bool_decide_eq_true in Ec|done]. cbn.
  destruct (if String.eqb c "chat" then _ else _) as [[f remaining]|x] eqn:Ef; [cbn|done].
  destruct (fixtures_loop _ _ _ remaining capabilities) as [rest|x] eqn:Er; [cbn|done]. intros [= <-]. apply IH in Er as (<- & Hc & Hb).
  assert (fx_capability f = c ∧ (c = "chat" → fx_boundary f = [("input_tokens", max_input_tokens e); ("output_tokens", max_output_tokens e); ("parallel", max_parallel e)])) as [<- Hf].
  { unfold chat_fixture, vision_fixture in Ef. destruct (String.eqb_spec c "chat") as [->|Hne].
    - run; by simplify_eq.
    - split; [|done]. destruct (String.eqb_spec c "vision") as [->|Hv]; [run; by simplify_eq|].
      destruct (String.eqb_spec c "embeddings") as [->|He]; injection Ef as <- <-; done. }
  split_and!; [done|by constructor..].
Qed.
Lemma all_fixtures `{Zlib} model_id e filler capabilities l : fixtures_for model_id e filler capabilities = Ret l →
  fixtures_loop model_id e filler (max_input_tokens e) capabilities = Ret l.
Proof. unfold fixtures_for. destruct (fixtures_loop _ _ _ _ _) as [l'|x]; [cbn|done]. unfold needs. destruct (negb _); [|done]. by intros [= <-]. Qed.
Lemma find_last_spec {A} (p : A → bool) l : match find_last p l with Some x => x ∈ l ∧ p x = true | None => ∀ x, x ∈ l → p x = false end.
Proof.
  induction l as [|x l IH]; cbn; [by intros x ?%not_elem_of_nil|]. destruct (find_last p l) as [y|]; [split; [right|]; apply IH|].
  destruct (p x) eqn:E; [split; [left|done]|]. intros y [->|Hy]%elem_of_cons; auto.
Qed.
Lemma chat_boundary `{Zlib} model_id e filler capabilities first fixtures : fixtures_for model_id e filler capabilities = Ret (first :: fixtures) → "chat" ∈ capabilities →
  fx_boundary (default first (by_capability (first :: fixtures) "chat")) =
  [("input_tokens", max_input_tokens e); ("output_tokens", max_output_tokens e); ("parallel", max_parallel e)].
Proof.
  intros (Hc & _ & Hb)%all_fixtures%loop_fixtures Hin. unfold by_capability. pose proof (find_last_spec (fun f => String.eqb (fx_capability f) "chat") (first :: fixtures)) as Hf.
  destruct (find_last _ _) as [f|].
  - destruct Hf as [Hf Hn%String.eqb_eq]. by eapply (proj1 (Forall_forall _ _) Hb).
  - rewrite <-Hc in Hin. apply list_elem_of_fmap in Hin as (f & Hn & Hin). apply Hf in Hin. rewrite <-Hn in Hin. done.
Qed.

(** ** Every required case, and nothing the recomputation overturns *)
Record good_row (r : Row) : Prop := {
  gr_reads : reads (row_case r) (row_kind r) (row_capability r);
  gr_fixture : row_kind r = "envelope" → is_Some (row_fixture r);
  gr_capability : row_kind r = "capability" ↔ is_Some (row_capability r);
}.
Lemma good_plain model_id kind plan n : ID_RE model_id = true → kind ∈ ["load"; "infer"; "cancel"; "stop"; "reload"] → good_row (plain_row model_id kind plan n).
Proof.
  intros Hid Hk. split; cbn; [apply reads_plain; set_solver|..].
  - intros ->. set_solver.
  - split; [intros ->; set_solver|by intros [? ?]].
Qed.
Lemma good_envelope model_id f : ID_RE model_id = true → good_row (envelope_row model_id f).
Proof. intros Hid. split; cbn; [apply reads_plain; set_solver|done|]. split; [done|by intros [? ?]]. Qed.
Lemma good_capability model_id f c : ID_RE model_id = true → c ∈ CAPABILITY_FIXTURES → good_row (capability_row model_id f c).
Proof. intros Hid Hc. split; cbn; [by apply reads_capability|done|]. split; [by eexists|done]. Qed.
Lemma executor_minimum has_collector cold_starts reload_rounds filler_of ex : new_executor has_collector cold_starts reload_rounds filler_of = Ret ex →
  (3 ≤ ex_cold_starts ex)%nat ∧ (3 ≤ ex_reload_rounds ex)%nat.
Proof.
  unfold new_executor, BACKEND_CASE_MIN_COLD_STARTS, BACKEND_CASE_MIN_RELOAD_ROUNDS. destruct (Nat.ltb_spec cold_starts 3); [done|].
  destruct (Nat.ltb_spec reload_rounds 3); [done|]. by intros [= <-].
Qed.
Lemma count_cases case l : length (base.filter (fun a => ba_case_id a = case) l) = length (base.filter (.= case) (ba_case_id <$> l)).
Proof. induction l as [|a l IH]; [done|]. rewrite fmap_cons, !filter_cons. destruct (decide _); cbn; congruence. Qed.
Lemma filter_repeat (x : string) n : base.filter (.= x) (repeat x n) = repeat x n.
Proof. induction n as [|n IH]; [done|]. cbn [repeat]. rewrite filter_cons_True by done. by rewrite IH. Qed.
Lemma elem_of_repeat (x y : string) n : x ∈ repeat y n ↔ x = y ∧ (0 < n)%nat.
Proof. induction n as [|n IH]; cbn [repeat]; [rewrite elem_of_nil; lia|]. rewrite elem_of_cons, IH. intuition lia. Qed.
Lemma device_shown kind a : (0 < att_tegrastats a + att_proc_maps a)%nat → is_Some (att_peak a) ∨ att_mapped a = true → device_problems kind a = [].
Proof.
  intros Hn Hs. unfold device_problems. apply app_nil. rewrite !unless_nil. split.
  - apply negb_true_iff, andb_false_iff. rewrite !Nat.eqb_neq. lia.
  - apply negb_true_iff, andb_false_iff. destruct Hs as [[n Hn']| ->]; [left|by right]. rewrite Hn'. by rewrite andb_false_r.
Qed.
Section Matrix.
Context (py_str : json → string) `{Zlib} `{CaseBench} `{FloatText} (ex : CaseExecutor) (m : RegisteredModelSpec) (Hid : ID_RE (v2_model_id m) = true).
Notation run := (run_model py_str ex (v2_model_id m) (v2_capabilities m) (v2_envelope m)).
Notation rows first fixtures := (matrix_rows ex (v2_model_id m) (v2_capabilities m) first fixtures).
Lemma row_cases first fixtures :
  row_case <$> rows first fixtures =
    repeat (backend_case (v2_model_id m) "load") (ex_cold_starts ex)
    ++ map (backend_case (v2_model_id m)) ["infer"; "envelope"; "cancel"; "stop"]
    ++ repeat (backend_case (v2_model_id m) "reload") (ex_reload_rounds ex) ++ map (capability_case (v2_model_id m)) (v2_capabilities m).
Proof.
  assert (∀ kind plan n k, row_case <$> map (plain_row (v2_model_id m) kind plan) (seq k n) = repeat (backend_case (v2_model_id m) kind) n) as Hplain.
  { intros kind plan n. induction n as [|n IH]; intros k; cbn; [done|]. f_equal. apply IH. }
  unfold matrix_rows. rewrite !fmap_app, !Hplain. do 3 f_equal.
  induction (v2_capabilities m) as [|c l IH]; [done|]. cbn [map fmap list_fmap]. by f_equal.
Qed.
Definition declared : list (string * Z) :=
  [("input_tokens", max_input_tokens (v2_envelope m)); ("output_tokens", max_output_tokens (v2_envelope m)); ("parallel", max_parallel (v2_envelope m))].
Definition fixtures_of : outcome (list Fixture) :=
  fixtures_for (v2_model_id m) (v2_envelope m) (match ex_filler_of ex with Some filler => filler (v2_model_id m) | None => None end) (v2_capabilities m).
Lemma matrix_good first fixtures : fixtures_of = Ret (first :: fixtures) →
  Forall (fun r => good_row r ∧ (row_kind r = "envelope" → "chat" ∈ v2_capabilities m → fx_boundary <$> row_fixture r = Some declared)) (rows first fixtures).
Proof.
  intros Hx. assert (∀ kind plan n, kind ∈ ["load"; "infer"; "cancel"; "stop"; "reload"] →
    good_row (plain_row (v2_model_id m) kind plan n) ∧ (kind = "envelope" → "chat" ∈ v2_capabilities m → fx_boundary <$> row_fixture (plain_row (v2_model_id m) kind plan n) = Some declared)) as Hplain.
  { intros kind plan n Hk. split; [by apply good_plain|]. intros ->. set_solver. }
  unfold matrix_rows. repeat (apply Forall_app; split).
  - apply Forall_forall. intros r (n & -> & _)%list_elem_of_fmap. apply Hplain. set_solver.
  - apply Forall_cons. split; [apply Hplain; set_solver|]. apply Forall_cons. split; [split; [by apply good_envelope|]|].
    + intros _ Hchat. cbn. f_equal. by eapply chat_boundary.
    + repeat (apply Forall_cons; split); [apply Hplain; set_solver..|constructor].
  - apply Forall_forall. intros r (n & -> & _)%list_elem_of_fmap. apply Hplain. set_solver.
  - apply all_fixtures, loop_fixtures in Hx as (_ & Hc & _). apply Forall_forall. intros r (c & -> & Hin)%list_elem_of_fmap. split; [|done].
    apply good_capability; [done|]. by eapply (proj1 (Forall_forall _ _) Hc).
Qed.
(** What a passed attempt of a row has shown, and what is recomputed from it *)
Definition recomputed (r : Row) (a : Attempt) : Prop :=
  (row_kind r = "envelope" → "chat" ∈ v2_capabilities m →
     boundary_shortfalls (default [] (mapping_of_json (jget "observed" (ba_facts a)))) (map (fun kv => (fst kv, JInt (snd kv))) declared) = Ret []) ∧
  ∀ tree directory att, recompute_device_attribution py_str tree directory = Ret att →
    evaluate_backend py_str tree (ba_case_id a) (case_document a) directory = Ret (verdict_of (ba_case_id a) (device_problems (row_kind r) att)) ∧
    ((0 < att_tegrastats att + att_proc_maps att)%nat → is_Some (att_peak att) ∨ att_mapped att = true → device_problems (row_kind r) att = []).
Lemma passed_recomputed r a : good_row r → (row_kind r = "envelope" → "chat" ∈ v2_capabilities m → fx_boundary <$> row_fixture r = Some declared) →
  ba_case_id a = row_case r → row_passed r a → recomputed r a.
Proof.
  intros Hgood Hb Hcase Hp. split.
  - intros Hk Hchat. specialize (Hb Hk Hchat). destruct (row_fixture r) as [f|] eqn:Ef; [cbn in Hb; injection Hb as Hd|done].
    destruct Hp as (_ & _ & _ & result & -> & Hpr). rewrite facts_get by done. rewrite <-Hd. by eapply pr_boundary.
  - intros tree directory att Hatt. rewrite Hcase. split; [destruct Hgood; by eapply made_recomputed|]. intros Hn Hshown. by apply device_shown.
Qed.

(** C25: The matrix of a model is complete, its attempts are what they are named
    after, and recomputation agrees with them.  When an executor [CaseExecutor]
    accepted runs a registered model to the end, whatever the driver and the store
    answer: the case ids of its attempts are exactly the cases the evidence
    contract requires of the model, with the load and the reload attempted three
    times at least.  The attempts are those of the rows [matrix_rows], one after
    the other ([run_of]): a load is one cold load call, a reload a stop that
    proved itself followed by a cold load, a cancel cancels the execution it
    started, the inference sends the small request of the first fixture, and the
    envelope and every capability send the whole request of their fixture in one
    call; besides them the driver is only called to clean up.  An action that
    raised is a failed attempt whose model was cleaned up; a passed attempt carries
    no failure, cleanup or problem, and its facts are the answer of its own action;
    a passed envelope round of a chat model reached the declared input, output and
    concurrency in its one request; and from the document a passed attempt leaves
    in [case.json] the evaluator recomputes, for the kind of its row, the verdict
    its device samples give and objects to nothing else, so that it passes when
    there are samples and they show the device at work. *)
Theorem matrix_recomputed has_collector cold_starts reload_rounds filler_of σ σ' attempts :
  new_executor has_collector cold_starts reload_rounds filler_of = Ret ex → run σ = (σ', Ret attempts) →
  (∀ case, case ∈ ba_case_id <$> attempts ↔ case ∈ model_cases m) ∧
  (∀ kind, kind ∈ ["load"; "reload"] → (3 ≤ length (base.filter (fun a => ba_case_id a = backend_case (v2_model_id m) kind) attempts))%nat) ∧
  ∃ first fixtures, fixtures_of = Ret (first :: fixtures) ∧
    run_of (v2_model_id m) (be_calls σ) (rows first fixtures) attempts (be_calls σ') ∧
    Forall2 (fun r a => ba_status a = "passed" → recomputed r a) (rows first fixtures) attempts.
Proof.
  intros Hex Hrun. apply executor_minimum in Hex as [Hcold Hrounds]. apply run_made in Hrun as (first & fixtures & Hx & Hrun).
  pose proof (run_of_rows _ _ _ _ _ Hrun) as Hrows.
  assert (ba_case_id <$> attempts = row_case <$> rows first fixtures) as Hcases by (clear -Hrows; induction Hrows as [|r a ? ? [Hc _] _ IH]; [done|]; cbn; congruence).
  rewrite row_cases in Hcases. split_and!.
  - intros case. rewrite Hcases. unfold model_cases. rewrite !elem_of_app. cbn [map BACKEND_MODEL_CASE_KINDS]. rewrite !elem_of_repeat, !elem_of_cons.
    unfold backend_case, capability_case. rewrite elem_of_nil. naive_solver lia.
  - intros kind Hk. rewrite count_cases, Hcases, !filter_app, !length_app. apply elem_of_cons in Hk as [->|Hk%list_elem_of_singleton]; [|subst kind].
    + rewrite filter_repeat, repeat_length. lia.
    + rewrite (filter_repeat (backend_case (v2_model_id m) "reload")), repeat_length. lia.
  - exists first, fixtures. split_and!; [done..|]. pose proof (matrix_good _ _ Hx) as Hgood. apply Forall2_same_length_lookup_2; [by eapply Forall2_length|].
    intros i r a Hr Ha Hs. destruct (Forall_lookup_1 _ _ _ _ Hgood Hr) as [Hg Hb]. destruct (Forall2_lookup_lr _ _ _ _ _ _ Hrows Hr Ha) as [Hc Hp].
    apply passed_recomputed; auto.
Qed.
End Matrix.

(** A crash of the action is a failed attempt whose model was cleaned up. *)
Lemma crash_cleaned py_str `{CaseBench} ex model_id case n kind (action : bench payload) fixture capability σ σ1 σ2 σ' a x :
  tell ex (BeginCase case n) σ = (σ1, Ret tt) →
  attempt_body py_str ex kind action fixture capability {| be_calls := be_calls σ1; be_facts := []; be_problems := [] |} = (σ2, Raise x) →
  attempt py_str ex model_id case n kind action fixture capability σ = (σ', Ret a) →
  ba_status a = "failed" ∧ ba_failure a = Some "exception" ∧ is_Some (ba_cleanup a).
Proof.
  intros Ht Hb. unfold attempt. intros (u & σ3 & Ht' & Hrun)%bind_returns. rewrite Ht in Ht'. injection Ht' as <- <-.
  apply bind_returns in Hrun as ([] & σ4 & [= <-] & Hrun). apply bind_returns in Hrun as ([[status failure] cleanup] & σ5 & Hg & Hrun).
  assert (status = "failed" ∧ failure = Some "exception" ∧ is_Some cleanup) as (-> & -> & [c ->]).
  { unfold guarded_body in Hg. rewrite Hb in Hg. unfold crashed in Hg. destruct (is_exception x); [|done].
    destruct (ask _ _) as [? [?|e]]; [|destruct (is_exception e); [|done]]; injection Hg as _ <- <- <-; done. }
  apply bind_returns in Hrun as (σ6 & σ7 & _ & Hrun). apply bind_returns in Hrun as (a' & σ8 & [= _ Hnew] & Hrun).
  apply bind_returns in Hrun as ([] & σ9 & _ & Hrun). apply bind_returns in Hrun as ([] & σ10 & _ & [= _ <-]). by subst a'.
Qed.

(** ** The size of a boundary request *)
Definition text_cost (filler : FillerSpec) (ratio : Q) (units overhead : Z) : Q := (inject_Z units * ratio + inject_Z (overhead + fl_instruction_tokens filler))%Q.
(** The filler is rounded up: the request costs the budget, and less than one unit more. *)
Lemma sized_text_cost budget overhead filler text : sized_text budget overhead filler = Ret text →
  ∃ ratio units, fl_tokens_per_unit filler = Some ratio ∧ text = join " " (repeat (fl_unit filler) (Z.to_nat units)) +:+ " " +:+ fl_instruction filler ∧
    (inject_Z budget <= text_cost filler ratio units overhead)%Q ∧ (text_cost filler ratio units overhead < inject_Z budget + ratio)%Q.
Proof.
  unfold sized_text, needs. destruct (negb _); [|done]. cbn. destruct (Z.ltb_spec 0 (budget - overhead - fl_instruction_tokens filler)) as [Hu|]; [|done].
  cbn. unfold filler_text, needs.
  destruct (0 <=? budget - overhead - fl_instruction_tokens filler); cbn; [|done]. destruct (fl_tokens_per_unit filler) as [q|]; cbn; [|done].
  destruct (Qle_bool q 0) eqn:Eq; cbn; [done|]. destruct (0 <=? fl_template_overhead filler); cbn; [|done]. destruct (negb _); cbn; [|done].
  set (usable := budget - overhead - fl_instruction_tokens filler) in *. destruct (Z.eqb_spec usable 0); [lia|]. intros [= <-].
  exists q, (Qceiling (inject_Z usable / q)). split; [done|]. split; [done|].
  assert (0 < q)%Q as Hq. { apply Qnot_le_lt. intros Hle%Qle_bool_iff. congruence. }
  assert (inject_Z budget == inject_Z usable + inject_Z (overhead + fl_instruction_tokens filler))%Q as Hb.
  { rewrite <-inject_Z_plus. apply inject_Z_injective. lia. }
  pose proof (Qle_ceiling (inject_Z usable / q)) as H1. pose proof (Qceiling_lt (inject_Z usable / q)) as H2. unfold text_cost. rewrite Hb.
  assert (inject_Z usable / q * q == inject_Z usable)%Q as Hd by (field; lra). split.
  - apply Qplus_le_compat; [|lra]. rewrite <-Hd at 1. apply Qmult_le_compat_r; lra.
  - rewrite <-Qplus_assoc, (Qplus_comm _ q), Qplus_assoc. apply Qplus_lt_le_compat; [|lra].
    apply (Qlt_le_trans _ ((inject_Z usable / q + 1) * q)); [|lra]. apply Qmult_lt_compat_r; [lra|]. unfold Z.sub in H2. rewrite inject_Z_plus in H2.
    change (inject_Z (- (1))) with (-1)%Q in H2. clear -H2. set (x := (inject_Z usable / q)%Q) in *. lra.
Qed.
Lemma chat_text model_id e filler text_tokens f : chat_fixture model_id e filler text_tokens = Ret f →
  ∃ spec text, filler = Some spec ∧ sized_text text_tokens (fl_template_overhead spec) spec = Ret text ∧
    fx_payload f = chat_body (JStr text) e ∧ assoc "input_tokens" (fx_boundary f) = Some (max_input_tokens e).
Proof.
  unfold chat_fixture, need_filler. destruct filler as [spec|]; [cbn|done]. destruct (sized_text _ _ spec) as [text|] eqn:E; [cbn|done].
  intros [= <-]. by exists spec, text.
Qed.
Lemma vision_remaining `{Zlib} model_id e filler text_tokens f remaining : vision_fixture model_id e filler text_tokens = Ret (f, remaining) →
  remaining = text_tokens - max_images e * max_image_tokens e.
Proof.
  unfold vision_fixture, needs. destruct (need_filler filler); cbn; [|done]. destruct (negb _); cbn; [|done]. destruct (0 <? _); cbn; [|done].
  destruct (image_data_url _ _); cbn; [|done]. destruct (sized_text _ _ _); cbn; [|done]. by intros [= _ <-].
Qed.
(** Vision before chat: the images are charged to the chat text, whose declared
    boundary stays the whole input budget. *)
Lemma vision_first_starves_chat `{Zlib} model_id e filler l : fixtures_for model_id e filler ["vision"; "chat"] = Ret l →
  ∃ vision chat spec text ratio units, l = [vision; chat] ∧ filler = Some spec ∧ fx_payload chat = chat_body (JStr text) e ∧
    fl_tokens_per_unit spec = Some ratio ∧ text = join " " (repeat (fl_unit spec) (Z.to_nat units)) +:+ " " +:+ fl_instruction spec ∧
    (text_cost spec ratio units (fl_template_overhead spec) < inject_Z (max_input_tokens e - max_images e * max_image_tokens e) + ratio)%Q ∧
    assoc "input_tokens" (fx_boundary chat) = Some (max_input_tokens e).
Proof.
  intros Hf%all_fixtures. cbn in Hf. unfold needs in Hf. rewrite !bool_decide_eq_true_2, !bool_decide_eq_false_2 in Hf by (unfold CAPABILITY_FIXTURES, FORBIDDEN_FIXTURE_KINDS; set_solver).
  cbn in Hf. destruct (vision_fixture _ _ _ _) as [[vision remaining]|] eqn:Ev; cbn in Hf; [|done]. apply vision_remaining in Ev as ->.
  destruct (chat_fixture _ _ _ _) as [chat|] eqn:Ec; cbn in Hf; [|done]. injection Hf as <-.
  apply chat_text in Ec as (spec & text & -> & Ht & Hp & Hb). apply sized_text_cost in Ht as (ratio & units & Hr & -> & _ & Hc).
  by exists vision, chat, spec, (join " " (repeat (fl_unit spec) (Z.to_nat units)) +:+ " " +:+ fl_instruction spec), ratio, units.
Qed.

(** ** A run whose cases pass *)
#[local] Existing Instance thousandths_floats.
#[local] Instance demo_zlib : Zlib := {| crc32 := fun _ => 0; compress := fun b => take 4 b |}.
Definition demo_filler : FillerSpec :=
  {| fl_unit := "tok"; fl_tokens_per_unit := Some 100%Q; fl_template_overhead := 20; fl_vision_overhead := 30; fl_instruction := "Answer."; fl_instruction_tokens := 10 |}.
Definition demo_reply : payload :=
  [("provider", JStr "llama"); ("instance", JObj []); ("stop_proven", JBool true); ("cancelled", JBool true); ("execution_id", JStr "x1");
   ("device_activity", JObj [("raw_samples", JInt 3)]); ("output", JObj [("choices", JList [JObj [("text", JStr "hi")]])]);
   ("observed", JObj [("input_tokens", JInt 6000); ("output_tokens", JInt 2000); ("parallel", JInt 2)]);
   ("samples", JList [JObj [("kind", JStr "tegrastats"); ("raw", JStr "GR3D_FREQ 97%")]])].
#[local] Instance demo_bench : CaseBench := {| reply := fun _ _ => Ret demo_reply |}.
Definition demo_executor : CaseExecutor :=
  {| ex_has_collector := true; ex_cold_starts := 3; ex_reload_rounds := 3; ex_filler_of := Some (fun _ => Some demo_filler) |}.
Definition demo_run : Bench * outcome (list Attempt) :=
  run_model (fun _ => "") demo_executor "chat-8b" ["chat"] (v2_envelope demo_chat) {| be_calls := []; be_facts := []; be_problems := [] |}.
Definition demo_attempts : list Attempt := match demo_run with (_, Ret l) => l | _ => [] end.
Definition sample_text : string := match canonical_json_bytes (JObj [("raw", JStr "GR3D_FREQ 97%")]) with Ret t => t | Raise _ => "" end.
Definition sample_tree : Tree := fun path => if String.eqb path "d/samples/tegrastats.jsonl" then RegularFile sample_text else NoEntry.
Lemma demo_passed : map ba_status demo_attempts = repeat "passed" 11 ∧ summary_passed demo_attempts = true.
Proof. split; vm_compute; reflexivity. Qed.
(** The driver calls of the run, in order *)
Definition demo_driven : list BackendCall := List.filter (fun c => negb (store_call c)) (be_calls demo_run.1).
Lemma matrix_recomputed_witness : model_cases demo_chat ⊆ (ba_case_id <$> demo_attempts) ∧
  take 3 demo_driven = repeat (LoadModel "chat-8b" true) 3 ∧
  take 9 (drop 5 demo_driven) = [StartExecution "chat-8b" (match nth_error demo_driven 4 with Some (ExecuteRequest _ p) => p | _ => [] end);
    CancelExecution "chat-8b" "x1"; StopModel "chat-8b"; StopModel "chat-8b"; LoadModel "chat-8b" true; StopModel "chat-8b"; LoadModel "chat-8b" true;
    StopModel "chat-8b"; LoadModel "chat-8b" true] ∧
  Forall (fun a => evaluate_backend (fun _ => "") sample_tree (ba_case_id a) (case_document a) "d" = Ret (verdict_of (ba_case_id a) [])) demo_attempts.
Proof.
  destruct (matrix_recomputed (fun _ => "") demo_executor demo_chat ltac:(vm_compute; reflexivity) true 3 3 (Some (fun _ => Some demo_filler))
    {| be_calls := []; be_facts := []; be_problems := [] |} demo_run.1 demo_attempts eq_refl ltac:(vm_compute; reflexivity)) as (Hcases & _ & first & fixtures & _ & _ & Hall).
  split; [intros case Hcase; by apply Hcases|]. split; [vm_compute; reflexivity|]. split; [vm_compute; reflexivity|]. apply Forall_lookup_2. intros i a Ha.
  assert (ba_status a = "passed") as Hp.
  { eapply (proj1 (Forall_forall (fun a => ba_status a = "passed") demo_attempts)); [|by eapply list_elem_of_lookup_2]. vm_compute. repeat constructor. }
  destruct (Forall2_lookup_r _ _ _ _ _ Hall Ha) as (r & _ & Hr). destruct (Hr Hp) as [_ Hre].
  destruct (Hre sample_tree "d" {| att_peak := Some 97; att_mapped := false; att_tegrastats := 1; att_proc_maps := 0 |} ltac:(vm_compute; reflexivity)) as (He & Hn).
  rewrite Hn in He; [done|cbn; lia|by left].
Defined.
Definition vision_first_envelope : Envelope :=
  {| ctx_size := 8192; max_input_tokens := 6000; max_output_tokens := 2000; max_parallel := 2; max_image_tokens := 1280; max_image_edge_pixels := 1; max_images := 2 |}.
(** The chat request of 6000 declared tokens is 35 units of 100 tokens. *)
Lemma vision_first_example : (fun l => map (fun f => (fx_capability f, assoc "input_tokens" (fx_boundary f), assoc "messages" (fx_payload f))) (drop 1 l))
    <$> fixtures_for "m" vision_first_envelope (Some demo_filler) ["vision"; "chat"]
  = Ret [("chat", Some 6000, Some (JList [user_message (JStr (join " " (repeat "tok" 35) +:+ " Answer."))]))].
Proof. vm_compute. reflexivity. Qed.
(** Registration accepts an id with a point; no directory can be named for its cases. *)
Lemma dotted_model_unplaced : ID_RE "qwen2.5-7b" = true ∧ ∃ x, slug (backend_case "qwen2.5-7b" "load") = Raise x.
Proof. split; [by vm_compute|]. eexists. by vm_compute. Qed.
