(* ===== verification/Calibrate.v ===== *)
(** * Calibration

    [acceptance/calibrate.py] and the round of [acceptance/live.py]: the raw memory
    samples of a round, the criteria and the physical bound derived from them, the
    summary a candidate is built from, and the checks that the site is closed.  The
    outside (Docker, the lock, the socket, the ports, the model's API) is an
    argument.  Digits are ASCII, and an average of two byte counts is exact, as it
    is below 2^53.  The figures [measurements.json] quotes beside those of the
    summary (the rounded median and largest gap, paths, hashes) decide nothing and
    are left out. *)

From S2P Require Import Prelude Text Dict Contracts Registration RegistrationProps JsonText Identity Observer Ports Config App Evidence Evaluator Verify Candidate ConfigProps.
From Stdlib Require Import Ascii QArith Qround Lqa.
Local Open Scope Z_scope.

Definition refuse {A} (semantic : bool) (msg : string) : outcome A := Raise (CalibrationError msg semantic).
Definition must (ok semantic : bool) (msg : string) : outcome unit := if ok then Ret tt else refuse semantic msg.
Definition MEASUREMENT_GAP_SECONDS : Q := 1 # 2.
Definition WINDOW_SECONDS : Q := 10.
Definition BASELINE_SHIFT_LIMIT_BYTES : Z := 256 * 1024 ^ 2.
Definition MEMINFO_HEADER : string := "t_mono,utc,mem_available_bytes,mem_total_bytes,mem_free_bytes,swap_free_bytes,cached_bytes".
Definition PROBE_MEMINFO_HEADER : string := "t_mono,utc,mem_available_bytes,mem_total_bytes,swap_free_bytes,cached_bytes".
Definition MAINTENANCE_KEYS : list string := ["production_admission_closed"; "instances_stopped"; "checked_utc"; "checked_by"; "notes"].

(** ** Numbers in a text *)
Definition digit_of (c : Z) : option Z := if (48 <=? c) && (c <=? 57) then Some (c - 48) else None.
(** Digits, with single underscores between them: the value, their number, the rest *)
Fixpoint digit_group (value : Z) (count : nat) (l : list Z) : Z * nat * list Z :=
  match l with
  | [] => (value, count, [])
  | c :: l' =>
      match digit_of c with
      | Some d => digit_group (value * 10 + d) (S count) l'
      | None =>
          match l' with
          | c' :: l'' => match digit_of c' with
                         | Some d => if (c =? 95) && (0 <? count)%nat then digit_group (value * 10 + d) (S count) l'' else (value, count, l)
                         | None => (value, count, l)
                         end
          | [] => (value, count, l)
          end
      end
  end.
Definition signed (l : list Z) : Z * list Z := match l with 45 :: l => (-1, l) | 43 :: l => (1, l) | _ => (1, l) end.
(** [int(text)] *)
Definition int_of_text (l : list Z) : option Z :=
  let '(sign, l) := signed (strip l) in
  match digit_group 0 0 l with (value, S _, []) => Some (sign * value) | _ => None end.
Definition lower_point (c : Z) : Z := if (65 <=? c) && (c <=? 90) then c + 32 else c.
Definition power_of_ten (n : Z) : Q := if 0 <=? n then inject_Z (10 ^ n) else (1 / inject_Z (10 ^ (- n)))%Q.
(** A Python float: exact where it is finite *)
Inductive pyfloat := Finite (q : Q) | PosInf | NegInf | NaN.
Definition rounded (q : Q) : pyfloat :=
  if Qle_bool (inject_Z FLOAT_OVERFLOW) q then PosInf else if Qle_bool q (inject_Z (- FLOAT_OVERFLOW)) then NegInf else Finite q.
(** [a - b] *)
Definition fsub (a b : pyfloat) : pyfloat :=
  match a, b with
  | NaN, _ | _, NaN | PosInf, PosInf | NegInf, NegInf => NaN
  | PosInf, _ | _, NegInf => PosInf
  | NegInf, _ | _, PosInf => NegInf
  | Finite a, Finite b => Finite (a - b)
  end.
(** [a < b] *)
Definition fless (a b : pyfloat) : bool :=
  match a, b with
  | NaN, _ | _, NaN => false
  | Finite a, Finite b => Qlt_bool a b
  | NegInf, NegInf | PosInf, _ | _, NegInf => false
  | NegInf, _ | _, PosInf => true
  end.
(** [float(text)] *)
Definition float_of_text (l : list Z) : option pyfloat :=
  let '(sign, l) := signed (strip l) in
  if bool_decide (map lower_point l ∈ [codepoints "inf"; codepoints "infinity"]) then Some (if sign <? 0 then NegInf else PosInf)
  else if bool_decide (map lower_point l = codepoints "nan") then Some NaN
  else
    let '(whole, n, rest) := digit_group 0 0 l in
    let '(fraction, m, rest) := match rest with 46 :: rest => digit_group 0 0 rest | _ => (0, 0%nat, rest) end in
    if (n + m =? 0)%nat then None
    else
      let significand := (inject_Z (sign * (whole * 10 ^ Z.of_nat m + fraction)) * power_of_ten (- Z.of_nat m))%Q in
      match rest with
      | [] => Some (rounded significand)
      | e :: rest =>
          if lower_point e =? 101 then
            let '(esign, rest) := signed rest in
            match digit_group 0 0 rest with (exponent, S _, []) => Some (rounded (significand * power_of_ten (esign * exponent))) | _ => None end
          else None
      end.

(** ** The raw rows *)
Record Row := { sr_t : pyfloat; sr_utc : list Z; sr_available : Z; sr_total : Z; sr_free : option Z; sr_swap_free : Z; sr_cached : Z }.
Fixpoint split_comma (l : list Z) : list (list Z) :=
  match l with
  | [] => [[]]
  | c :: l => if c =? 44 then [] :: split_comma l else match split_comma l with [] => [[c]] | w :: ws => (c :: w) :: ws end
  end.
Definition row_of_line (has_free : bool) (line : list Z) : outcome Row :=
  let read :=
    match split_comma line, has_free with
    | [t; utc; available; total; free; swap; cached], true =>
        t ← float_of_text t; available ← int_of_text available; total ← int_of_text total; free ← int_of_text free; swap ← int_of_text swap;
        cached ← int_of_text cached;
        Some {| sr_t := t; sr_utc := utc; sr_available := available; sr_total := total; sr_free := Some free; sr_swap_free := swap; sr_cached := cached |}
    | [t; utc; available; total; swap; cached], false =>
        t ← float_of_text t; available ← int_of_text available; total ← int_of_text total; swap ← int_of_text swap; cached ← int_of_text cached;
        Some {| sr_t := t; sr_utc := utc; sr_available := available; sr_total := total; sr_free := None; sr_swap_free := swap; sr_cached := cached |}
    | _, _ => None
    end in
  of_option (CalibrationError "columns" false) read.
Definition load_meminfo_csv (e : Entry) : outcome (list Row) :=
  match file_bytes e with
  | None => refuse false "cannot read raw samples"
  | Some bytes =>
      text ← read_text bytes;
      match base.filter (fun line => strip line ≠ []) (split_lines (codepoints text)) with
      | [] => refuse false "no raw samples"
      | header :: lines =>
          has_free ← (if bool_decide (strip header = codepoints MEMINFO_HEADER) then Ret true
                      else if bool_decide (strip header = codepoints PROBE_MEMINFO_HEADER) then Ret false
                      else refuse false "unexpected sampling header");
          rows ← mapM (row_of_line has_free) lines;
          _ ← must (negb (bool_decide (length rows = 0%nat))) false "no raw samples";
          Ret rows
      end
  end.

(** ** The material of a round *)
Notation fields := (list (string * json)).
(** [rm_window]: the monotonic window; [None] is a float of the document that is
    not finite, which a decoded document does not tell apart further. *)
Record RoundMaterial := { rm_label : string; rm_samples : list Row; rm_window : option (option Q * option Q); rm_stop : fields; rm_cases : fields }.
(** [_json_file] *)
Definition json_file (e : Entry) : outcome fields :=
  match file_bytes e with
  | None => refuse false "cannot read"
  | Some bytes =>
      text ← read_text bytes;
      match loads plain_hooks text with
      | Raise (ValueError _) => refuse false "cannot read"
      | Raise x => Raise x
      | Ret (JObj document) => Ret document
      | Ret _ => refuse false "must be a JSON object"
      end
  end.
Definition float_of_json (v : json) : outcome (option Q) :=
  match v with
  | JBool b => Ret (Some (if b then 1 else 0)%Q)
  | JInt n => q ← float_of_int n; Ret (Some q)
  | JFloat q => Ret q
  | _ => Raise (TypeError "float() argument")
  end.
Definition stop_of (document : fields) : outcome fields :=
  match jget "stop" document with Some (JObj ((_ :: _) as stop)) => Ret stop | _ => refuse true "a round must record its stop or UNKNOWN" end.
Definition cases_of (document : fields) : fields := default [] (mapping_of_json (jget "cases" document)).
(** A round of this code, from its samples and the document [round.json] *)
Definition round_of (label : string) (samples : list Row) (document : fields) : outcome RoundMaterial :=
  match jget "launch_ts" document, jget "end_ts" document with
  | Some launch, Some end_ =>
      match numeric launch, numeric end_ with
      | Some l, Some e =>
          _ ← must (negb (less e l)) false "the round window is missing or invalid";
          stop ← stop_of document;
          l ← float_of_json launch; e ← float_of_json end_;
          Ret {| rm_label := label; rm_samples := samples; rm_window := Some (l, e); rm_stop := stop; rm_cases := cases_of document |}
      | _, _ => refuse false "the round window is missing or invalid"
      end
  | _, _ => refuse false "the round window is missing or invalid"
  end.
Definition load_round_material (label : string) (directory : Tree) : outcome RoundMaterial :=
  match file_bytes (directory "sampling/meminfo.csv") with
  | None => refuse false "no sampling/meminfo.csv"
  | Some _ =>
      samples ← load_meminfo_csv (directory "sampling/meminfo.csv");
      if bool_decide (is_Some (file_bytes (directory "round.json"))) then
        document ← json_file (directory "round.json"); round_of label samples document
      else if bool_decide (is_Some (file_bytes (directory "run.json"))) then
        document ← json_file (directory "run.json");
        stop ← stop_of document;
        Ret {| rm_label := label; rm_samples := samples; rm_window := None; rm_stop := stop; rm_cases := cases_of document |}
      else refuse false "neither round.json nor run.json is present"
  end.

(** ** The criteria, from the raw rows *)
Definition gaps (samples : list Row) : list pyfloat :=
  zip_with (fun first second => fsub (sr_t second) (sr_t first)) samples (drop 1 samples).
(** [gap > MEASUREMENT_GAP_SECONDS]: false of a nan *)
Definition gap_over (gap : pyfloat) : bool := fless (Finite MEASUREMENT_GAP_SECONDS) gap.
(** A row of a window with finite bounds has a finite time. *)
Definition within (p : Q → bool) (row : Row) : bool := match sr_t row with Finite t => p t | _ => false end.
Definition baseline_rows (launch : Q) (samples : list Row) : list Row := List.filter (within (fun t => Qle_bool (launch - WINDOW_SECONDS) t && Qlt_bool t launch)) samples.
Definition run_rows (launch end_ : Q) (samples : list Row) : list Row := List.filter (within (fun t => Qle_bool launch t && Qle_bool t end_)) samples.
Definition post_rows (end_ : Q) (samples : list Row) : list Row := List.filter (within (fun t => Qlt_bool end_ t && Qle_bool t (end_ + WINDOW_SECONDS))) samples.
(** The rows of a window.  A bound that is not finite, infinite or nan, selects no
    baseline rows (launch) or no later rows (end), so the round stays unverified;
    the rows the source would still take for its run are not told apart. *)
Definition windows (samples : list Row) (window : option Q * option Q) : list Row * list Row * list Row :=
  match window with
  | (Some l, Some e) => (baseline_rows l samples, run_rows l e samples, post_rows e samples)
  | (Some l, None) => (baseline_rows l samples, [], [])
  | (None, Some e) => ([], [], post_rows e samples)
  | (None, None) => ([], [], [])
  end.
(** [int(statistics.median(values))] *)
Fixpoint insert_sorted (x : Z) (l : list Z) : list Z := match l with [] => [x] | y :: l' => if x <=? y then x :: l else y :: insert_sorted x l' end.
Definition sort_values (l : list Z) : list Z := foldr insert_sorted [] l.
Definition median (l : list Z) : option Z :=
  let s := sort_values l in
  let n := length s in
  if (n =? 0)%nat then None
  else if Nat.odd n then s !! (n / 2)%nat
  else a ← s !! (n / 2 - 1)%nat; b ← s !! (n / 2)%nat; Some (Z.quot (a + b) 2).
Definition smallest (l : list Z) : option Z := match l with [] => None | x :: l => Some (fold_left Z.min l x) end.
Definition largest (l : list Z) : option Z := match l with [] => None | x :: l => Some (fold_left Z.max l x) end.

Record Metrics := {
  me_round : string; me_intervals : bool; me_gaps_over : nat; me_baseline : option Z; me_min : option Z; me_post : option Z; me_delta : option Z; me_shift : option Z;
  me_swap_used : bool; me_valid : bool; me_bound : option Z; me_quiescent : bool; me_image_tokens : option Z;
}.
Definition swap_used (samples : list Row) : outcome bool :=
  match samples with
  | [] => Raise (ValueError "min() arg is an empty sequence")
  | first :: _ => Ret (default 0 (smallest (sr_swap_free <$> samples)) <? sr_swap_free first)
  end.
Definition image_tokens_of (cases : fields) : option Z :=
  let image := default [] (mapping_of_json (jget "image_max" cases)) in
  let summary := default [] (mapping_of_json (jget "summary" image)) in
  match jget "image_tokens_measured" image, jget "image_tokens_measured" summary with
  | Some (JInt n), _ => Some n
  | _, Some (JInt n) => Some n
  | _, _ => None
  end.
Definition memory_row (row : Row) (free : Z) : outcome Ports.MemorySample :=
  s ← make_memory_sample {| mem_total_bytes := sr_total row; mem_free_bytes := free; mem_available_bytes := sr_available row;
                            mem_sampled_at := match sr_t row with Finite t => Qfloor (t * inject_Z second) | _ => 0 end |};
  _ ← require (match sr_t row with Finite _ => true | _ => false end) "must be finite";
  Ret s.
(** The physical bound, when every row of the window carries MemFree *)
Definition physical_bound (rows : list Row) : outcome (option Z) :=
  match rows, mapM sr_free rows with
  | _ :: _, Some frees => samples ← mapM (fun p => memory_row (fst p) (snd p)) (zip rows frees); b ← system_nonfree_upper_bound_v1 samples; Ret (Some b)
  | _, _ => Ret None
  end.
Definition evaluate_round (m : RoundMaterial) : outcome Metrics :=
  let samples := rm_samples m in
  let over := length (List.filter gap_over (gaps samples)) in
  let intervals := negb (bool_decide (gaps samples = [])) in
  swap ← swap_used samples;
  let metrics baseline min post delta shift valid bound :=
    {| me_round := rm_label m; me_intervals := intervals; me_gaps_over := over; me_baseline := baseline; me_min := min; me_post := post; me_delta := delta; me_shift := shift;
       me_swap_used := swap; me_valid := valid; me_bound := bound; me_quiescent := is_true (jget "quiescent" (rm_stop m));
       me_image_tokens := image_tokens_of (rm_cases m) |} in
  match rm_window m with
  | Some window =>
      let '(before, during, after) := windows samples window in
      let baseline := median (sr_available <$> before) in
      let lowest := smallest (sr_available <$> during) in
      let post := median (sr_available <$> after) in
      let delta := match baseline, lowest with Some b, Some l => Some (Z.max 0 (b - l)) | _, _ => None end in
      let shift := match baseline, post with Some b, Some p => Some (Z.abs (p - b)) | _, _ => None end in
      let valid := match delta, shift with
                   | Some d, Some s => (0 <? d) && (over =? 0)%nat && intervals && (s <=? BASELINE_SHIFT_LIMIT_BYTES) && negb swap
                   | _, _ => false
                   end in
      bound ← physical_bound during;
      Ret (metrics baseline lowest post delta shift valid bound)
  | None => bound ← physical_bound samples; Ret (metrics None None None None None false bound)
  end.

Definition verify_image_fact (m : Metrics) (envelope : option Envelope) : outcome unit :=
  match me_image_tokens m, envelope with
  | None, _ => refuse true "the image token fact is missing"
  | _, None => refuse true "no registered envelope to check the image fact against"
  | Some n, Some e => must (n <=? max_image_tokens e) true "measured image tokens exceed the registered envelope"
  end.
Definition evaluate_checked (envelope : option Envelope) (material : RoundMaterial) : outcome Metrics :=
  m ← evaluate_round material;
  _ ← match me_image_tokens m with Some _ => verify_image_fact m envelope | None => Ret tt end;
  Ret m.

(** ** The summary *)
Record CalibrationSummary := {
  cs_runs : nat; cs_verified_runs : nat; cs_unverified_runs : list string; cs_measured_peak : option Z; cs_reserved : option Z; cs_physical_peak : option Z;
  cs_temporary_budget : Z; cs_budget_exceeds : option bool; cs_bound_proven : bool; cs_stops_proven : bool; cs_passed : bool;
}.
Definition summarize_measurements (rounds : list Metrics) (budget_bytes : Z) : CalibrationSummary :=
  let measured := default 0 (largest ((fun r => default 0 (me_delta r)) <$> rounds)) in
  let physical := default 0 (largest ((fun r => default 0 (me_bound r)) <$> rounds)) in
  let verified := List.filter me_valid rounds in
  let unverified := List.filter (fun r => negb (me_valid r)) rounds in
  let stops := forallb me_quiescent rounds in
  {| cs_runs := length rounds; cs_verified_runs := length verified; cs_unverified_runs := me_round <$> unverified;
     cs_measured_peak := if bool_decide (length verified = 0%nat) then None else Some measured;
     cs_reserved := if bool_decide (length verified = 0%nat) then None else Some ((measured * 115 + 99) / 100);
     cs_physical_peak := if physical =? 0 then None else Some physical;
     cs_temporary_budget := budget_bytes;
     cs_budget_exceeds := if physical =? 0 then None else Some (physical <? budget_bytes);
     cs_bound_proven := 0 <? physical; cs_stops_proven := stops;
     cs_passed := negb (bool_decide (length rounds = 0%nat)) && bool_decide (length unverified = 0%nat) && stops && (0 <? physical) |}.
Definition or_null (v : option Z) : json := match v with Some n => JInt n | None => JNull end.
Definition summary_json (s : CalibrationSummary) : json :=
  JObj [("runs", JInt (Z.of_nat (cs_runs s))); ("verified_runs", JInt (Z.of_nat (cs_verified_runs s))); ("unverified_runs", JList (JStr <$> cs_unverified_runs s));
        ("measured_peak_bytes", or_null (cs_measured_peak s)); ("reserved_bytes", or_null (cs_reserved s)); ("physical_resident_peak_bytes", or_null (cs_physical_peak s));
        ("physical_upper_bound_method", JStr "system_nonfree_upper_bound_v1"); ("temporary_budget_bytes", JInt (cs_temporary_budget s));
        ("budget_exceeds_physical_bound", match cs_budget_exceeds s with Some b => JBool b | None => JNull end); ("physical_bound_proven", JBool (cs_bound_proven s));
        ("stops_proven", JBool (cs_stops_proven s)); ("verdict", JStr (if cs_passed s then "passed" else "blocked"))].

(** ** The site *)
(** The lock taken and released, the names of running containers, whether the
    socket exists and whether a registered port listens *)
Record Site := { si_lock : outcome unit; si_containers : outcome (list string); si_socket : bool; si_port_busy : outcome bool }.
(** [_docker_instances]: [docker ps], which may not run at all *)
Definition docker_instances (needles : list string) (ps : option (Z * string)) : list string :=
  match ps with
  | Some (0, stdout) => List.filter (fun name => existsb (fun needle => contains (chars needle) (chars name)) needles) (stripped_lines stdout)
  | _ => []
  end.
(** [_registered_ports_busy]: whether a port accepts, port by port *)
Definition ports_busy (ports : list Z) (accepts : Z → bool) : bool := existsb accepts ports.
Definition live_site (lock : outcome unit) (socket : bool) (needles : list string) (ps : option (Z * string)) (ports : list Z) (accepts : Z → bool) : Site :=
  {| si_lock := lock; si_containers := Ret (docker_instances needles ps); si_socket := socket; si_port_busy := Ret (ports_busy ports accepts) |}.
Definition verify_maintenance (record : Entry) (site : Site) : outcome unit :=
  document ← json_file record;
  _ ← must (same_keys document MAINTENANCE_KEYS) false "maintenance keys";
  _ ← must (is_true (jget "production_admission_closed" document)) true "production_admission_closed is not declared true";
  _ ← must (is_true (jget "instances_stopped" document)) true "instances_stopped is not declared true";
  _ ← must (match jget "checked_by" document with Some (JStr s) => negb (bool_decide (strip (codepoints s) = [])) | _ => false end) false "checked_by is required";
  _ ← match si_lock site with
      | Raise (InstanceLocked _) => refuse true "a scheduler instance holds the lock"
      | Raise (OSError _) => refuse true "cannot take the instance lock"
      | r => r
      end;
  names ← si_containers site;
  _ ← must (bool_decide (names = [])) true "managed instances are still running during calibration";
  _ ← must (negb (si_socket site)) true "a control socket is present";
  busy ← si_port_busy site;
  must (negb busy) true "a registered model port is busy".

(** ** The command *)
Definition or_calibration {A} (m : outcome A) : outcome A := match m with Raise (ContractError msg) => refuse false msg | m => m end.
Definition config_or_calibration {A} (m : outcome A) : outcome A := match m with Raise (ConfigError msg) => refuse false msg | m => m end.
Definition vision_envelope (models : list RegisteredModelSpec) : option Envelope :=
  v2_envelope <$> head (List.filter (fun m => vision_of (v2_capabilities m)) models).
(** [from_evidence]: the round directories below the given path, by name *)
Definition run_calibration `{UrlSplit} (budget_bytes runs : Z) (facts : Entry) (yaml : outcome json) (from_evidence : option (list (string * Tree)))
    (maintenance : Entry) (site : Site) : outcome CalibrationSummary :=
  _ ← must (0 <? budget_bytes) false "--budget-bytes must be a positive integer";
  _ ← must (1 <=? runs) false "--runs must be a positive integer";
  facts ← json_file facts;
  device ← or_calibration (parse_device_fact (jget "device" facts));
  _ ← or_calibration (parse_runtime_stack (jget "runtime_stack" facts));
  _ ← must (budget_bytes <=? df_mem_total_bytes device) false "--budget-bytes exceeds the recorded MemTotal";
  loaded ← config_or_calibration (load_config yaml);
  match loaded with
  | LoadedV2 config =>
      match from_evidence with
      | None => refuse true "a fresh calibration needs the controlled runner"
      | Some directories =>
          _ ← must (negb (bool_decide (length directories = 0%nat))) false "no round directories found";
          _ ← must (Z.of_nat (length directories) =? runs) false "rounds present but --runs says otherwise";
          materials ← mapM (fun d => load_round_material (fst d) (snd d)) directories;
          metrics ← mapM (evaluate_checked (vision_envelope (values (v2c_models config)))) materials;
          _ ← verify_maintenance maintenance site;
          Ret (summarize_measurements metrics budget_bytes)
      end
  | _ => refuse false "calibration requires a schema v2 configuration"
  end.

(** ** A live round *)
Definition live_error {A} (semantic : bool) (msg : string) : outcome A := Raise (LiveError msg semantic).
Definition exit_json (code : option Z) : json := or_null code.
Definition classify_stop (exit_code : option Z) (port_free reclaimed kill_used : bool) : fields :=
  [("exit_code", exit_json exit_code); ("port_free", JBool port_free); ("reclaimed", JBool reclaimed); ("kill_used", JBool kill_used);
   ("graceful_stop", JBool (bool_decide (is_Some exit_code) && negb kill_used)); ("quiescent", JBool (bool_decide (is_Some exit_code) && port_free && reclaimed))].
(** What the commands of a stop answer: [docker stop] and [docker kill] by their
    exit code ([None] when they cannot run), the exit code of the process unless
    it outlives the timeout, the port after the wait, and [docker ps] *)
Record StopFacts := { sf_stop : option Z; sf_kill : option Z; sf_exit : option Z; sf_port_in_use : bool; sf_listed : option (Z * string) }.
Definition live_stop (f : StopFacts) : fields :=
  let unknown rest := ("unknown", JBool true) :: rest in
  let finish kill_used :=
    let kill_used := kill_used || bool_decide (sf_exit f = None) in
    match sf_listed f with
    | None => unknown [("exit_code", exit_json (sf_exit f)); ("kill_used", JBool kill_used)]
    | Some (code, stdout) =>
        if negb (code =? 0) then unknown [("exit_code", exit_json (sf_exit f)); ("kill_used", JBool kill_used)]
        else
          let residual := stripped_lines stdout in
          classify_stop (sf_exit f) (negb (sf_port_in_use f)) (bool_decide (residual = [])) kill_used
          ++ (if bool_decide (residual = []) then [] else [("residual", JList (JStr <$> residual))])
    end in
  match sf_stop f with
  | None => unknown []
  | Some 0 => finish false
  | Some _ => match sf_kill f with None => unknown [] | Some code => finish (code =? 0) end
  end.
(** The driver's answers during a round, and the clock at the launch and the end *)
Record LiveFacts := {
  lf_image_present : bool; lf_running : outcome (list string); lf_start : outcome unit; lf_ready : bool; lf_tokens : outcome (option Z); lf_stop : StopFacts;
  lf_launch : Q; lf_end : Q;
}.
(** [round.json]; the identity of the launch it repeats is left out. *)
Definition live_document (ready : bool) (tokens : option Z) (stop : fields) (f : LiveFacts) : fields :=
  [("ready", JBool ready); ("launch_ts", JFloat (Some (lf_launch f))); ("end_ts", JFloat (Some (lf_end f))); ("stop", JObj stop);
   ("cases", JObj match tokens with Some n => [("image_max", JObj [("image_tokens_measured", JInt n)])] | None => [] end)].
Definition run_live_round (edge : option Z) (f : LiveFacts) : outcome fields :=
  _ ← (if lf_image_present f then Ret tt else live_error true "the runtime image is not present locally");
  residual ← lf_running f;
  _ ← (if bool_decide (residual = []) then Ret tt else live_error true "a managed container is already running");
  _ ← lf_start f;
  tokens ← (if lf_ready f && bool_decide (is_Some edge) then lf_tokens f else Ret None);
  Ret (live_document (lf_ready f) tokens (live_stop (lf_stop f)) f).
Definition live_error_as_calibration {A} (m : outcome A) : outcome A := match m with Raise (LiveError msg semantic) => refuse semantic msg | m => m end.
(** The rounds of [run_live_calibration]: each is run, read back and evaluated. *)
Definition live_rounds (model : RegisteredModelSpec) (rounds : list (string * LiveFacts * list Row)) : outcome (list Metrics) :=
  materials ← mapM (fun '(label, f, samples) =>
    document ← live_error_as_calibration (run_live_round (Some (max_image_edge_pixels (v2_envelope model))) f);
    round_of label samples document) rounds;
  mapM (evaluate_checked (Some (v2_envelope model))) materials.

(** ** Bounds *)
Lemma Qlt_bool_iff a b : Qlt_bool a b = true ↔ (a < b)%Q.
Proof. unfold Qlt_bool. rewrite negb_true_iff. split; [intros H; apply Qnot_le_lt; intros Hle%Qle_bool_iff; congruence|]. intros Hlt. apply not_true_iff_false. intros Hle%Qle_bool_iff. by apply (Qlt_not_le a b). Qed.
Lemma largest_bound l x : x ∈ l → ∃ m, largest l = Some m ∧ x ≤ m.
Proof.
  destruct l as [|y l]; [by intros ?%not_elem_of_nil|]. destruct (fold_max l y) as (H1 & H2 & _). rewrite Forall_forall in H2.
  intros [->|Hx]%elem_of_cons; eexists; (split; [reflexivity|]); [done|by apply H2].
Qed.
Lemma fold_min l : ∀ x, fold_left Z.min l x ≤ x ∧ Forall (fun y => fold_left Z.min l x ≤ y) l.
Proof.
  induction l as [|y l IH]; intros x; cbn [fold_left]; [split; [lia|constructor]|].
  destruct (IH (Z.min x y)) as (H1 & H2). split; [lia|constructor; [lia|done]].
Qed.
Lemma smallest_bound l x : x ∈ l → ∃ m, smallest l = Some m ∧ m ≤ x.
Proof.
  destruct l as [|y l]; [by intros ?%not_elem_of_nil|]. destruct (fold_min l y) as (H1 & H2). rewrite Forall_forall in H2.
  intros [->|Hx]%elem_of_cons; eexists; (split; [reflexivity|]); [done|by apply H2].
Qed.
(** The bound is above every row it was taken of. *)
Lemma physical_bound_above rows b row free : physical_bound rows = Ret (Some b) → row ∈ rows → sr_free row = Some free → sr_total row - free ≤ b.
Proof.
  unfold physical_bound. destruct rows as [|r0 rows]; [done|]. destruct (mapM sr_free (r0 :: rows)) as [frees|] eqn:Ef; [|done].
  intros (samples & Hs & E)%obind_ret Hin Hfree. apply obind_ret in E as (b' & Hb & [= <-]).
  apply nonfree_bound_exact in Hb as [Hall _]. apply list_elem_of_lookup in Hin as [i Hi]. apply mapM_Some in Ef. apply mapM_ret in Hs.
  destruct (Forall2_lookup_l _ _ _ _ _ Ef Hi) as (free' & Hfi & Hf'). assert (free' = free) as -> by congruence.
  assert (zip (r0 :: rows) frees !! i = Some (row, free)) as Hz by (apply lookup_zip_with_Some; eauto).
  destruct (Forall2_lookup_l _ _ _ _ _ Hs Hz) as (s & Hsi & Hm). apply (Forall_lookup_1 _ _ _ _ Hall) in Hsi.
  unfold memory_row, make_memory_sample in Hm. run; cbn in *; by simplify_eq.
Qed.
(** What a valid round has shown *)
Record measured (m : RoundMaterial) (launch end_ : Q) (delta : Z) : Prop := {
  mr_window : rm_window m = Some (Some launch, Some end_);
  mr_none_over g : g ∈ gaps (rm_samples m) → gap_over g = false;
  mr_gaps g : Finite g ∈ gaps (rm_samples m) → (g <= MEASUREMENT_GAP_SECONDS)%Q;
  mr_swap row first : row ∈ rm_samples m → head (rm_samples m) = Some first → sr_swap_free first ≤ sr_swap_free row;
  mr_delta : 0 < delta;
  mr_baseline : ∃ before after, median (sr_available <$> baseline_rows launch (rm_samples m)) = Some before ∧
    median (sr_available <$> post_rows end_ (rm_samples m)) = Some after ∧ Z.abs (after - before) ≤ BASELINE_SHIFT_LIMIT_BYTES ∧
    ∀ row, row ∈ run_rows launch end_ (rm_samples m) → before - sr_available row ≤ delta;
}.
Lemma no_gap_over l : length (List.filter gap_over l) = 0%nat → ∀ g, g ∈ l → gap_over g = false.
Proof.
  intros Hl%nil_length_inv g Hg. apply not_true_iff_false. intros Ho. assert (In g (List.filter gap_over l)) as Hin; [|by rewrite Hl in Hin].
  apply filter_In. split; [by apply list_elem_of_In|done].
Qed.
Lemma finite_under g : gap_over (Finite g) = false → (g <= MEASUREMENT_GAP_SECONDS)%Q.
Proof. intros Ho. apply Qnot_lt_le. intros Hlt%Qlt_bool_iff. cbn in Ho. by rewrite Hlt in Ho. Qed.
Lemma swap_unused samples : swap_used samples = Ret false → ∀ row first, row ∈ samples → head samples = Some first → sr_swap_free first ≤ sr_swap_free row.
Proof.
  destruct samples as [|s l]; [done|]. unfold swap_used. intros [= Hs%Z.ltb_ge] row first Hin [= <-].
  destruct (smallest_bound (sr_swap_free <$> s :: l) (sr_swap_free row)) as (x & Hx & Hle); [by apply list_elem_of_fmap_2|]. injection Hx as <-. exact (Z.le_trans _ _ _ Hs Hle).
Qed.
Lemma evaluate_measured m me : evaluate_round m = Ret me → me_valid me = true →
  ∃ launch end_ delta, measured m launch end_ delta ∧ me_delta me = Some delta ∧ me_quiescent me = is_true (jget "quiescent" (rm_stop m)) ∧
    physical_bound (run_rows launch end_ (rm_samples m)) = Ret (me_bound me).
Proof.
  unfold evaluate_round. intros (swap & Hswap & E)%obind_ret. destruct (rm_window m) as [window|] eqn:Hw.
  2:{ apply obind_ret in E as (? & _ & [= <-]). done. }
  destruct (windows (rm_samples m) window) as [[before during] after] eqn:Hwin. apply obind_ret in E as (bound & Hb & [= <-]). cbn.
  destruct (median (sr_available <$> before)) as [b|] eqn:Eb; [|done]. destruct (smallest (sr_available <$> during)) as [low|] eqn:El; [|done].
  destruct (median (sr_available <$> after)) as [p|] eqn:Ep; [|done].
  intros [[[[Hd Hg]%andb_true_iff _]%andb_true_iff Hs]%andb_true_iff Hn]%andb_true_iff. apply negb_true_iff in Hn as ->.
  destruct window as [[l|] [e|]]; injection Hwin as <- <- <-; try done. exists l, e, (Z.max 0 (b - low)). split; [|done]. split; try done.
  - apply Nat.eqb_eq in Hg. by apply no_gap_over.
  - intros g Hin. apply Nat.eqb_eq in Hg. by eapply finite_under, no_gap_over.
  - by apply swap_unused.
  - by apply Z.ltb_lt.
  - exists b, p. split_and!; [done..|by apply Z.leb_le|]. intros row Hrow.
    destruct (smallest_bound (sr_available <$> run_rows l e (rm_samples m)) (sr_available row)) as (x & Hx & Hle); [by apply list_elem_of_fmap_2|].
    assert (x = low) as -> by congruence. lia.
Qed.
(** ** No hole in the sampling *)
Lemma crossing τ (l : list Q) : ∀ x, (x <= τ)%Q → (∃ y, y ∈ l ∧ (τ < y)%Q) →
  ∃ i a b, (x :: l) !! i = Some a ∧ (x :: l) !! S i = Some b ∧ (a <= τ)%Q ∧ (τ < b)%Q.
Proof.
  induction l as [|z l IH]; intros x Hx (y & Hy & Hτ); [by apply not_elem_of_nil in Hy|]. destruct (Qlt_le_dec τ z) as [Hz|Hz]; [by exists 0%nat, x, z|].
  apply elem_of_cons in Hy as [->|Hy]; [by apply Qlt_not_le in Hτ|]. destruct (IH z Hz) as (i & a & b & Ha & Hb & Hab); [by exists y|]. by exists (S i), a, b.
Qed.
Definition clock_order (times : list Q) : Prop := ∀ i j a b, (i ≤ j)%nat → times !! i = Some a → times !! j = Some b → (a <= b)%Q.
Lemma median_some l b : median l = Some b → l ≠ [].
Proof. by intros Hm ->. Qed.
Lemma window_row p samples : sr_available <$> List.filter (within p) samples ≠ [] → ∃ i row t, samples !! i = Some row ∧ sr_t row = Finite t ∧ p t = true.
Proof.
  destruct (List.filter (within p) samples) as [|row l] eqn:E; [done|]. intros _. assert (In row (List.filter (within p) samples)) as Hin by (rewrite E; by left).
  apply filter_In in Hin as [[i Hi]%list_elem_of_In%list_elem_of_lookup Hp]. unfold within in Hp. destruct (sr_t row) as [t| | |] eqn:Et; try done. by exists i, row, t.
Qed.
(** At every instant of the run two consecutive rows at most half a second apart enclose it. *)
Lemma sampled_throughout m launch end_ delta times τ : measured m launch end_ delta → sr_t <$> rm_samples m = Finite <$> times → clock_order times →
  (launch <= τ)%Q → (τ <= end_)%Q →
  ∃ i a b, times !! i = Some a ∧ times !! S i = Some b ∧ (a <= τ)%Q ∧ (τ < b)%Q ∧ (b - a <= MEASUREMENT_GAP_SECONDS)%Q.
Proof.
  intros Hm Htimes Horder Hl He. destruct (mr_baseline _ _ _ _ Hm) as (before & after & Hb%median_some & Ha%median_some & _).
  apply window_row in Hb as (i & row & t & Hi & Ht & Hp). apply window_row in Ha as (j & row' & t' & Hj & Ht' & Hp').
  apply andb_true_iff in Hp as [_ Hp%Qlt_bool_iff]. apply andb_true_iff in Hp' as [Hp'%Qlt_bool_iff _].
  assert (∀ k r u, rm_samples m !! k = Some r → sr_t r = Finite u → times !! k = Some u) as Hat.
  { intros k r u Hk Hu. pose proof (f_equal (.!! k) Htimes) as E. cbn in E. rewrite !list_lookup_fmap, Hk in E. cbn in E. rewrite Hu in E. by destruct (times !! k); simplify_eq/=. }
  assert (∀ k u, times !! k = Some u → ∃ r, rm_samples m !! k = Some r ∧ sr_t r = Finite u) as Hback.
  { intros k u Hk. pose proof (f_equal (.!! k) Htimes) as E. cbn in E. rewrite !list_lookup_fmap, Hk in E. cbn in E.
    destruct (rm_samples m !! k) as [r|]; [|done]. injection E as E. by exists r. }
  apply (Hat _ _ _ Hi) in Ht as Hti. apply (Hat _ _ _ Hj) in Ht' as Htj.
  assert (i < j)%nat as Hij. { destruct (decide (i < j)%nat) as [|Hge]; [done|]. pose proof (Horder j i t' t ltac:(lia) Htj Hti). exfalso. lra. }
  destruct (crossing τ (drop (S i) times) t) as (k & a & b & Hka & Hkb & Hlo & Hhi).
  { lra. } { exists t'. split; [|lra]. apply (list_elem_of_lookup_2 _ (j - S i)). rewrite lookup_drop. by replace (S i + (j - S i))%nat with j by lia. }
  rewrite <-(drop_S _ _ _ Hti), lookup_drop in Hka. rewrite <-(drop_S _ _ _ Hti), lookup_drop in Hkb. exists (i + k)%nat, a, b. replace (S (i + k)) with (i + S k)%nat by lia.
  split_and!; [done..|]. eapply mr_gaps; [exact Hm|]. unfold gaps.
  apply (list_elem_of_lookup_2 _ (i + k)%nat). apply lookup_zip_with_Some.
  destruct (Hback _ _ Hka) as (ra & Hra & Hta), (Hback _ _ Hkb) as (rb & Hrb & Htb). exists ra, rb.
  rewrite lookup_drop, Hta, Htb. replace (1 + (i + k))%nat with (i + S k)%nat by lia. done.
Qed.

(** ** What a passed calibration has shown *)
Lemma insisted ok semantic msg u : must ok semantic msg = Ret u → ok = true.
Proof. by destruct ok. Qed.
Record site_closed (maintenance : Entry) (site : Site) : Prop := {
  sc_lock : si_lock site = Ret tt;
  sc_containers : si_containers site = Ret [];
  sc_socket : si_socket site = false;
  sc_ports : si_port_busy site = Ret false;
  sc_declared : ∃ document, json_file maintenance = Ret document ∧ is_true (jget "production_admission_closed" document) = true ∧
    is_true (jget "instances_stopped" document) = true;
}.
Lemma maintenance_closed maintenance site u : verify_maintenance maintenance site = Ret u → site_closed maintenance site.
Proof.
  unfold verify_maintenance. intros (document & Hd & E)%obind_ret. apply obind_ret in E as (? & _ & E). apply obind_ret in E as (? & Ha%insisted & E).
  apply obind_ret in E as (? & Hi%insisted & E). apply obind_ret in E as (? & _ & E). apply obind_ret in E as ([] & Hl & E).
  apply obind_ret in E as (names & Hn & E). apply obind_ret in E as (? & Hnone%insisted%bool_decide_eq_true & E).
  apply obind_ret in E as (? & Hs%insisted%negb_true_iff & E). apply obind_ret in E as (busy & Hb & Hfree%insisted%negb_true_iff). subst.
  split; try done; [|by exists document]. by destruct (si_lock site) as [[]|[]].
Qed.
Lemma summary_passed_rounds rounds budget : cs_passed (summarize_measurements rounds budget) = true →
  ∃ peak physical, cs_measured_peak (summarize_measurements rounds budget) = Some peak ∧ cs_physical_peak (summarize_measurements rounds budget) = Some physical ∧
    cs_reserved (summarize_measurements rounds budget) = Some ((peak * 115 + 99) / 100) ∧ 0 < physical ∧
    ∀ r, r ∈ rounds → me_valid r = true ∧ me_quiescent r = true ∧ (∀ d, me_delta r = Some d → d ≤ peak) ∧ (∀ b, me_bound r = Some b → b ≤ physical).
Proof.
  unfold summarize_measurements. cbn. set (peak := default 0 (largest ((λ r, default 0 (me_delta r)) <$> rounds))).
  set (physical := default 0 (largest ((λ r, default 0 (me_bound r)) <$> rounds))).
  intros [[[Hn Hu]%andb_true_iff Hs]%andb_true_iff Hp%Z.ltb_lt]%andb_true_iff. apply negb_true_iff, bool_decide_eq_false in Hn. apply bool_decide_eq_true, nil_length_inv in Hu.
  assert (∀ r, r ∈ rounds → me_valid r = true) as Hvalid.
  { intros r Hr. destruct (me_valid r) eqn:E; [done|]. assert (In r (List.filter (λ r, negb (me_valid r)) rounds)) as Hin; [|by rewrite Hu in Hin].
    apply filter_In. split; [by apply list_elem_of_In|by rewrite E]. }
  destruct (bool_decide (length (List.filter me_valid rounds) = 0%nat)) eqn:Ev.
  { exfalso. apply bool_decide_eq_true, nil_length_inv in Ev. destruct rounds as [|r rounds]; [done|]. cbn in Ev. by rewrite (Hvalid r ltac:(left)) in Ev. }
  exists peak, physical. destruct (Z.eqb_spec physical 0); [lia|]. split_and!; [done..|]. intros r Hr. split; [by apply Hvalid|].
  split; [by apply (proj1 (forallb_forall _ _) Hs), list_elem_of_In|]. split.
  - intros d Hd. destruct (largest_bound ((λ r, default 0 (me_delta r)) <$> rounds) d) as (x & Hx & Hle); [apply list_elem_of_fmap; exists r; by rewrite Hd|]. unfold peak. by rewrite Hx.
  - intros b Hb. destruct (largest_bound ((λ r, default 0 (me_bound r)) <$> rounds) b) as (x & Hx & Hle); [apply list_elem_of_fmap; exists r; by rewrite Hb|]. unfold physical. by rewrite Hx.
Qed.
Lemma bound_known rows b : physical_bound rows = Ret b → rows ≠ [] → Forall (fun row => is_Some (sr_free row)) rows → is_Some b.
Proof.
  unfold physical_bound. intros E Hne Hall. destruct rows as [|r rows]; [done|]. destruct (mapM sr_free (r :: rows)) as [frees|] eqn:Ef.
  - apply obind_ret in E as (? & _ & E). apply obind_ret in E as (? & _ & [= <-]). done.
  - apply mapM_is_Some in Hall. rewrite Ef in Hall. by destruct Hall.
Qed.
Lemma peak_reserved peak : 0 < peak → reserved_bytes_from_peak peak = Ret ((peak * 115 + 99) / 100).
Proof.
  intros Hp. unfold reserved_bytes_from_peak, positive_int, MARGIN_PERCENT, MARGIN_DIVISOR. destruct (Z.leb_spec peak 0); [lia|]. cbn. do 2 f_equal. lia.
Qed.
(** What the passed calibration shows of one round *)
Record round_shown (peak physical : Z) (envelope : option Envelope) (m : RoundMaterial) (launch end_ : Q) (delta : Z) : Prop := {
  rs_measured : measured m launch end_ delta;
  rs_peak : delta ≤ peak;
  rs_stopped : is_true (jget "quiescent" (rm_stop m)) = true;
  rs_covered times τ : sr_t <$> rm_samples m = Finite <$> times → clock_order times → (launch <= τ)%Q → (τ <= end_)%Q →
    ∃ i a b, times !! i = Some a ∧ times !! S i = Some b ∧ (a <= τ)%Q ∧ (τ < b)%Q ∧ (b - a <= MEASUREMENT_GAP_SECONDS)%Q;
  rs_physical row free : Forall (fun row => is_Some (sr_free row)) (run_rows launch end_ (rm_samples m)) → row ∈ run_rows launch end_ (rm_samples m) →
    sr_free row = Some free → sr_total row - free ≤ physical;
  rs_image n : image_tokens_of (rm_cases m) = Some n → ∃ e, envelope = Some e ∧ n ≤ max_image_tokens e;
}.
Lemma evaluate_image m me : evaluate_round m = Ret me → me_image_tokens me = image_tokens_of (rm_cases m).
Proof.
  unfold evaluate_round. intros (swap & _ & E)%obind_ret. destruct (rm_window m) as [w|]; [destruct (windows _ _) as [[? ?] ?]|]; by apply obind_ret in E as (? & _ & [= <-]).
Qed.
Lemma checked_round envelope m me peak physical : evaluate_checked envelope m = Ret me → me_valid me = true → me_quiescent me = true →
  (∀ d, me_delta me = Some d → d ≤ peak) → (∀ b, me_bound me = Some b → b ≤ physical) → ∃ launch end_ delta, round_shown peak physical envelope m launch end_ delta.
Proof.
  intros (me' & He & E)%obind_ret. apply obind_ret in E as (u & Hi & [= <-]). intros Hv Hq Hd Hb.
  destruct (evaluate_measured _ _ He Hv) as (launch & end_ & delta & Hm & Hdelta & Hstop & Hbound). exists launch, end_, delta. split; [done|by apply Hd|congruence|..].
  - intros. by eapply sampled_throughout.
  - intros row free Hall Hin Hf. destruct (bound_known _ _ Hbound ltac:(intros Hn; rewrite Hn in Hin; by apply not_elem_of_nil in Hin) Hall) as [b Hsome].
    rewrite Hsome in Hbound. etrans; [by eapply physical_bound_above|by apply Hb].
  - intros n Hn. rewrite (evaluate_image _ _ He), Hn in Hi. unfold verify_image_fact in Hi. rewrite (evaluate_image _ _ He), Hn in Hi.
    destruct envelope as [e|]; [|done]. exists e. split; [done|]. by apply insisted, Z.leb_le in Hi.
Qed.

(** C23: A passed calibration measured what it reports.  When [run_calibration]
    answers with the verdict passed, whatever the files and the site hold: the
    maintenance record declares the site closed and the lock, the container list,
    the socket and the ports confirmed it; as many rounds as asked for were read,
    and in each the stop is proven, swap was not used, the baseline moved by at
    most 256 MiB, no gap between consecutive samples compares as above half a
    second, so that two consecutive finite times are at most half a second apart
    and, when all the times of the round are finite and never go back, the samples
    enclose every instant of the run (a nan time compares as nothing, see
    [nan_row_hides_hole]); the drop of available memory below the baseline is at
    most the reported peak in every row of the run, a measured image is within the
    registered envelope, and no row of a run all of whose rows recorded MemFree is
    above the reported physical bound; and the reported reservation is the one the
    registration contract derives from the peak. *)
Theorem calibration_sound `{UrlSplit} budget_bytes runs facts yaml from_evidence maintenance site s :
  run_calibration budget_bytes runs facts yaml from_evidence maintenance site = Ret s → cs_passed s = true →
  site_closed maintenance site ∧
  ∃ config directories materials peak reserved physical,
    load_config yaml = Ret (LoadedV2 config) ∧ from_evidence = Some directories ∧ Z.of_nat (length directories) = runs ∧
    Forall2 (fun d m => load_round_material (fst d) (snd d) = Ret m) directories materials ∧
    cs_measured_peak s = Some peak ∧ cs_reserved s = Some reserved ∧ reserved_bytes_from_peak peak = Ret reserved ∧ cs_physical_peak s = Some physical ∧ 0 < physical ∧
    Forall (fun m => ∃ launch end_ delta, round_shown peak physical (vision_envelope (values (v2c_models config))) m launch end_ delta) materials.
Proof.
  intros E Hpassed. unfold run_calibration in E. apply obind_ret in E as (? & _ & E). apply obind_ret in E as (? & _ & E). apply obind_ret in E as (f & _ & E).
  apply obind_ret in E as (device & _ & E). apply obind_ret in E as (? & _ & E). apply obind_ret in E as (? & _ & E). apply obind_ret in E as (loaded & Hl & E).
  destruct loaded as [?|config]; [done|]. destruct from_evidence as [directories|]; [|done]. apply obind_ret in E as (? & Hne%insisted & E).
  apply obind_ret in E as (? & Hruns%insisted%Z.eqb_eq & E). apply obind_ret in E as (materials & Hmat%mapM_ret & E). apply obind_ret in E as (metrics & Hmet%mapM_ret & E).
  apply obind_ret in E as (? & Hsite%maintenance_closed & [= <-]). split; [done|].
  destruct (summary_passed_rounds _ _ Hpassed) as (peak & physical & Hpeak & Hphysical & Hreserved & Hpos & Hrounds).
  assert (Forall (fun m => ∃ launch end_ delta, round_shown peak physical (vision_envelope (values (v2c_models config))) m launch end_ delta) materials) as Hall.
  { apply Forall_forall. intros m Hm. apply list_elem_of_lookup in Hm as [i Hi]. destruct (Forall2_lookup_l _ _ _ _ _ Hmet Hi) as (me & Hme & He).
    destruct (Hrounds me) as (Hv & Hq & Hd & Hb); [by eapply list_elem_of_lookup_2|]. by eapply checked_round. }
  exists config, directories, materials, peak, ((peak * 115 + 99) / 100), physical. split_and!; try done.
  - destruct (load_config yaml) as [?|[]]; by simplify_eq.
  - apply peak_reserved. destruct materials as [|m materials]; [apply Forall2_length in Hmat; destruct directories; done|].
    apply Forall_cons_1 in Hall as [(launch & end_ & delta & Hshown) _]. pose proof (mr_delta _ _ _ _ (rs_measured _ _ _ _ _ _ _ Hshown)). pose proof (rs_peak _ _ _ _ _ _ _ Hshown). lia.
Qed.

(** A candidate is frozen with the bound of a passed calibration, and with no other. *)
Lemma calibration_frozen s directory bytes document model : assoc "measurements.json" directory = Some bytes → utf8_valid bytes = true →
  loads plain_hooks bytes = Ret (JObj document) → jget "summary" document = Some (summary_json s) →
  measurement_summary directory = Ret model ↔ cs_passed s = true ∧ cs_bound_proven s = true ∧ ∃ physical, cs_physical_peak s = Some physical ∧ 0 < physical ∧
    model = {| su_model_id := JNull; su_peak := physical |}.
Proof.
  intros Hb Hutf Hloads Hs. unfold measurement_summary, read_object. rewrite Hb. cbn [file_bytes]. unfold read_text. rewrite Hutf. cbn [mbind outcome_bind].
  rewrite Hloads. cbn [mbind outcome_bind]. rewrite Hs. unfold summary_json. cbn.
  destruct (cs_passed s), (cs_bound_proven s); cbn; [|split; [done|by intros (? & ? & ?)]..].
  destruct (cs_physical_peak s) as [p|]; cbn; [|split; [done|by intros (_ & _ & ? & ? & _)]]. destruct (Z.ltb_spec 0 p) as [Hp|Hp]; cbn.
  - split; [intros [= <-]; split_and!; [done..|]; by exists p|]. by intros (_ & _ & q & [= ->] & _ & ->).
  - split; [done|]. intros (_ & _ & q & [= ->] & Hq & _). lia.
Qed.

(** A stop counts as proven only with an exit code, a free port and an empty listing. *)
Lemma live_quiescent f : is_true (jget "quiescent" (live_stop f)) = true →
  is_Some (sf_exit f) ∧ sf_port_in_use f = false ∧ ∃ stdout, sf_listed f = Some (0, stdout) ∧ stripped_lines stdout = [].
Proof.
  assert (∀ k, is_true (jget "quiescent" (match sf_listed f with
      | None => ("unknown", JBool true) :: [("exit_code", exit_json (sf_exit f)); ("kill_used", JBool k)]
      | Some (code, stdout) => if negb (code =? 0) then ("unknown", JBool true) :: [("exit_code", exit_json (sf_exit f)); ("kill_used", JBool k)]
          else classify_stop (sf_exit f) (negb (sf_port_in_use f)) (bool_decide (stripped_lines stdout = [])) k
               ++ (if bool_decide (stripped_lines stdout = []) then [] else [("residual", JList (JStr <$> stripped_lines stdout))])
      end)) = true → is_Some (sf_exit f) ∧ sf_port_in_use f = false ∧ ∃ stdout, sf_listed f = Some (0, stdout) ∧ stripped_lines stdout = []) as Hcase.
  { intros k. destruct (sf_listed f) as [[code stdout]|]; [|done]. destruct (Z.eqb_spec code 0) as [->|]; [|done]. cbn.
    intros [[Hx%bool_decide_eq_true Hp%negb_true_iff]%andb_true_iff Hr%bool_decide_eq_true]%andb_true_iff. split_and!; [done..|by exists stdout]. }
  unfold live_stop. destruct (sf_stop f) as [[]|]; [apply Hcase|destruct (sf_kill f); [apply Hcase|done]..|done].
Qed.

(** ** Calibrations *)
#[local] Existing Instance thousandths_floats.
#[local] Existing Instance no_urls.
Definition csv (lines : list string) : string := join (text_of [byte 10]) (MEMINFO_HEADER :: lines).
Definition shown_rows : list string :=
  ["0.0,u,1000,2000,1200,5,0"; "0.4,u,400,2000,600,5,0"; "0.7,u,500,2000,700,5,0"; "1.0,u,990,2000,1190,5,0"].
Definition proven_stop : StopFacts := {| sf_stop := Some 0; sf_kill := None; sf_exit := Some 0; sf_port_in_use := false; sf_listed := Some (0, "") |}.
Definition live_facts (ready : bool) : LiveFacts :=
  {| lf_image_present := true; lf_running := Ret []; lf_start := Ret tt; lf_ready := ready; lf_tokens := Ret (Some 900); lf_stop := proven_stop; lf_launch := 3 # 10; lf_end := 8 # 10 |}.
Definition shown_round : Tree := fun path =>
  if String.eqb path "sampling/meminfo.csv" then RegularFile (csv shown_rows)
  else if String.eqb path "round.json" then shown (JObj (live_document true None (live_stop proven_stop) (live_facts true))) else NoEntry.
Definition shown_maintenance : Entry :=
  shown (JObj [("production_admission_closed", JBool true); ("instances_stopped", JBool true); ("checked_utc", JStr "t"); ("checked_by", JStr "me"); ("notes", JStr "")]).
Definition closed_site : Site := live_site (Ret tt) false ["chat-8b"] (Some (0, "other")) [10001] (fun _ => false).
Local Notation demo_calibration := (run_calibration 1 2 shown_facts (Ret (JObj demo_config)) (Some [("run1", shown_round); ("run2", shown_round)]) shown_maintenance closed_site).
Lemma calibration_sound_witness : ∃ s, demo_calibration = Ret s ∧ cs_measured_peak s = Some 600 ∧ cs_reserved s = Some 690 ∧ cs_physical_peak s = Some 1400 ∧
  reserved_bytes_from_peak 600 = Ret 690.
Proof.
  assert (∃ s, demo_calibration = Ret s ∧ cs_passed s = true ∧ cs_measured_peak s = Some 600 ∧ cs_reserved s = Some 690 ∧ cs_physical_peak s = Some 1400)
    as (s & E & Hp & Hm & Hr & Hb) by (eexists; split_and!; vm_compute; reflexivity).
  destruct (calibration_sound _ _ _ _ _ _ _ _ E Hp) as (_ & config & directories & materials & peak & reserved & physical & _ & _ & _ & _ & Hm' & Hr' & Hres & _).
  exists s. split_and!; [exact E|exact Hm|exact Hr|exact Hb|]. congruence.
Defined.
(** A site whose Docker cannot be asked counts as one without containers. *)
Lemma docker_unreachable_is_closed ps : match ps with Some (0, _) => False | _ => True end →
  verify_maintenance shown_maintenance (live_site (Ret tt) false ["chat-8b"] ps [10001] (fun _ => false)) = Ret tt.
Proof.
  intros Hps. assert (docker_instances ["chat-8b"] ps = []) as Hd. { destruct ps as [[[] ?]|]; done. }
  unfold live_site. rewrite Hd. vm_compute. reflexivity.
Qed.
Definition rows_of (with_free : bool) : list Row := match mapM (row_of_line true) (codepoints <$> shown_rows) with
  | Ret l => if with_free then l else (fun r => {| sr_t := sr_t r; sr_utc := sr_utc r; sr_available := sr_available r; sr_total := sr_total r; sr_free := None; sr_swap_free := sr_swap_free r; sr_cached := sr_cached r |}) <$> l
  | Raise _ => []
  end.
(** The model never became ready: its round passes, without the image fact. *)
Lemma unready_round_passes : (fun l => cs_passed (summarize_measurements l 100)) <$> live_rounds demo_vision [("run1", live_facts false, rows_of true)] = Ret true.
Proof. vm_compute. reflexivity. Qed.
(** A round without MemFree takes the bound of another. *)
Lemma missing_bound_passes :
  (fun l => (me_bound <$> l, cs_passed (summarize_measurements l 100))) <$> live_rounds demo_vision [("run1", live_facts true, rows_of true); ("run2", live_facts true, rows_of false)]
  = Ret ([Some 1400; None], true).
Proof. vm_compute. reflexivity. Qed.
(** A row whose time is nan hides the hole around it: samples at 0.7 and 9.3
    seconds with a nan between them, and the calibration passes. *)
Definition holed_rows : list string :=
  ["0.0,u,1000,2000,1200,5,0"; "0.4,u,400,2000,600,5,0"; "0.7,u,500,2000,700,5,0"; "nan,u,500,2000,700,5,0"; "9.3,u,990,2000,1190,5,0"].
Definition holed_round (rows : list string) : Tree := fun path =>
  if String.eqb path "sampling/meminfo.csv" then RegularFile (csv rows) else shown_round path.
Local Notation holed_calibration rows :=
  (run_calibration 1 1 shown_facts (Ret (JObj demo_config)) (Some [("run1", holed_round rows)]) shown_maintenance closed_site).
Lemma nan_row_hides_hole : (cs_passed <$> holed_calibration holed_rows) = Ret true.
Proof. vm_compute. reflexivity. Qed.
(** The same hole without the nan, or behind an infinite time, blocks the calibration. *)
Example plain_hole_blocks : (cs_passed <$> holed_calibration (delete 3%nat holed_rows)) = Ret false.
Proof. vm_compute. reflexivity. Qed.
Example infinite_hole_blocks : (cs_passed <$> holed_calibration (<[3%nat := "inf,u,500,2000,700,5,0"]> holed_rows)) = Ret false.
Proof. vm_compute. reflexivity. Qed.
